(* ===== verification/_CoqProject ===== *)
-Q . S2P
Prelude.v
Util.v
Mem.v
Str.v
StrSpec.v
FormatSpec.v
LogText.v
Bitset.v
Pmm.v
Locks.v
Heap.v
HeapSpec.v
HeapProofs.v
HeapClaims.v
Kmalloc.v
Boot.v
Multiboot.v
MultibootSpec.v
MultibootClaims.v
DList.v
Sched.v
SchedSpec.v
SchedClaims.v
KernelTask.v
Gdt.v
Irq.v
Timer.v
Ipc.v
IpcSpec.v
IpcClaims.v
Crc32.v
HostIo.v
Serializer.v
Vmm.v
VmmSpec.v
Mmap.v
VmmClaims.v
MmapClaims.v
VmmSpaces.v
VmmHeap.v
VmmWindow.v
VmmClone.v
VmmCloneSpec.v
VmmDestroy.v
VmmPool.v
VmmMachine.v
VmmForkClaims.v
Initrd.v
InitrdClaims.v
Kdebug.v
KdebugClaims.v
KdebugSyms.v
Runtime.v
RuntimeClaims.v
Elf.v
ElfSpec.v
ElfClaims.v
Blk.v
BlkClaims.v
Rpcgen.v
RpcgenClaims.v
Cgen.v
Rpcstub.v
RpcWire.v
RpcgenOut.v
RpcServer.v
RpcCall.v
RpcNet.v
RpcMsg.v
RpcDispatch.v
RpcClient.v
RpcReply.v
RpcStubCall.v
RpcClaims.v
Vfs.v
VfsClaims.v
