(* ===== verification/Prelude.v ===== *)
(** * A verification of the rastapopoulos kernel

    rastapopoulos is a small 32-bit x86 operating system in C: a kernel ([src/kernel]), code
    shared by the kernel and user programs ([src/common]), user programs ([src/userland]) and
    host tools ([src/tools]). This library translates the kernel's own logic into Gallina and
    proves what makes it correct, or states exactly where it is not.

    ** The program and its parts

    The boot code ([kmain.c]) moves the boot loader's data to the kernel's addresses
    ([multiboot.c]), starts the heap behind it and hands the memory map to the frame allocator
    ([pmm.c], on bitmaps, [bitset.c]); the kernel heap ([heap.c], [kmalloc.c]) grows by mapping frames with the
    virtual memory manager ([vmm.c]); the scheduler ([scheduler.c]) keeps tasks, each with an
    address space, in linked-list queues ([list.h]); tasks exchange messages through ports
    ([ipc.c], [port.c]), sending and receiving block through the scheduler; interrupts come in
    through [gdt.c], [idt.c] and [pic.c], the timer interrupt ([timer.c]) drives the scheduler,
    and [syscall_handler.c] dispatches system calls. Strings, formatting, serialization, hash,
    CRC, locks and lists are shared code under [src/common]. User programs reach the kernel
    through a runtime library ([userland/runtime]); the init program starts the logger, the
    block driver and the file server, which answer remote calls generated from interface files
    by [tools/rpcgen].

    ** Files

    - [Prelude]: the [outcome] monad (a result, or the fault that stops the kernel: a failed
      assertion, a panic, an access outside the modelled memory, or the end of the fuel),
      machine integers as [Z] with explicit wrap-around, notations, tactics, shared lemmas.
    - [Util] ([common/util.h], [util.c]): alignment, bit macros, logarithm, hash.
    - [Mem]: byte memories ([gmap Z Z]), little-endian words, C strings in memory.
    - [Str], [StrSpec] ([common/string.c]): memory and string functions, number formatting, the
      printf engine; [text_of] is the text of a format string, read as the code reads it.
      [FormatSpec]: formats as lists of directives and the text they stand for, stated without
      the code ([renders]). [LogText]: texts computed for the format strings of the logging code.
    - [Bitset] ([kernel/bitset.c]): bitmaps; the abstraction is [bits], a list of booleans.
    - [Pmm] ([kernel/pmm.c]): regions; the abstraction is [frame], the state of each page; the
      class [FrameAllocator] is what the other parts rely on, [pmm] is its instance.
    - [Locks] ([common/locks.c], [locks.h]): spin locks and critical sections on one processor.
    - [Heap], [HeapSpec], [HeapProofs], [HeapClaims] ([kernel/heap.c]): the block list lives in
      a byte memory, as in C; [heap_ok] relates it to a list of blocks. The class [PageEnv] is
      what growing the heap needs.
    - [Kmalloc] ([kernel/kmalloc.c]): the kernel's allocator over the heap.
    - [Boot] ([kernel/kmain.c]): the initial heap and the reservation of the memory in use, with
      any use of the heap in between ([heap_use]); the linker script's symbols are parameters.
    - [Multiboot], [MultibootSpec], [MultibootClaims] ([kernel/multiboot.c]): the boot loader's
      structures in byte memory, at their offsets; [pointers] and [ends] say, on the memory
      before, which words are to be rewritten and which addresses the result bounds.
    - [DList] ([common/list.h]): the list macros on a store of nodes represent sequences. The
      other parts use sequences for their queues.
    - [Sched], [SchedSpec], [SchedClaims] ([kernel/scheduler.c]): tasks, queues, switching and
      the task system calls; [sched_ok] is the invariant and [sstep] the step relation. The
      class [TaskEnv] with its laws is what the scheduler needs from memory management, the ram
      disk and the ELF loader. [KernelTask] ([kernel/kernel_task.c]): the information request.
    - [Gdt] ([kernel/gdt.c]), [Irq] ([kernel/idt.c], [pic.c], [syscall_handler.c]), [Timer]
      ([kernel/timer.c]): the tables the processor reads are decoded the way it reads them;
      port writes and handler calls are traces. [interrupt_setup] is the set-up of [kmain]; a
      timer callback returns or leaves for another task.
    - [Ipc], [IpcSpec], [IpcClaims] ([kernel/ipc.c], [common/port.c]): ports and messages over
      the scheduler. A system call that blocks answers the [pending] value it resumes with. The
      [len] of a message is the number of its data bytes, and queued copies are records, not
      bytes of the heap; [checksum_at] is the checksum of an arbitrary [len].
    - [Crc32] ([common/crc32.c]), [Serializer] ([common/serializer.c]).
    - [Vmm], [VmmSpec], [VmmClaims] ([kernel/vmm.c]): physical memory as a store of words and
      the two-level walk of the processor; the kernel reaches its tables through the recursive
      entry, so every table access is itself translated. [vm_ok] is the invariant and [entry]
      the abstraction, the frame and flags of each page. [tlb_walk] is a translation with a
      cache, [flush_tlb] the cache after [cr3] was loaded.
    - [Mmap], [MmapClaims] ([syscall_mmap_handler] of [kernel/scheduler.c]).
    - [VmmSpaces]: resetting and switching whole address spaces ([kernel/vmm.c]).
    - [VmmHeap], [VmmWindow], [VmmClone], [VmmCloneSpec], [VmmDestroy], [VmmForkClaims]: copying
      and destroying address spaces ([vmm_clone_pagedir], [vmm_destroy_pagedir]). The class
      [KernelHeap] is what they need from the kernel heap, whose growth maps pages itself;
      [foreign] frames are kept apart from it, [evolves] says what an operation leaves alone,
      and [opened] is a transient mapping between its two calls. [VmmPool] is a small heap
      and frame allocator that meet the interfaces, [VmmMachine] a machine that runs on them.
    - [Initrd], [InitrdClaims] ([kernel/initrd.c]): the ram disk unpacked from the boot archive;
      the class [KernelAlloc] is what it needs from the kernel's allocator.
    - [Kdebug], [KdebugClaims], [KdebugSyms] ([kernel/kdebug.c]): the log, the stack walk and the
      symbol table, over the same class; [symbol_of] is the search in the boot loader's section.
    - [Runtime], [RuntimeClaims] ([userland/runtime], [userland/init/init.c],
      [userland/logger/logger.c]): programs as computations that may end in a system call; the
      generated stubs are parameters, [sbrk] runs on the kernel's [mmap].
    - [HostIo] ([tools/rpctest/rpctest.c], [tools/crc32/main.c]): message transport over a socket
      whose calls move any number of bytes, and the checksum tool.
    - [Elf], [ElfSpec], [ElfClaims] ([kernel/elf.c]): the loader of executables; every byte it
      reads or writes goes through the page tables of [Vmm].
    - [Blk], [BlkClaims] ([userland/blk/blockdrv.c]): the ATA driver over port input and output
      (class [PortIO]); [AtaDisk] states the documented behaviour of a drive, and a simulated
      drive is an instance.
    - [Rpcgen], [RpcgenClaims] ([tools/rpcgen/rpcgen.c]): lexer and parser of interface files;
      [g_file] are the rules of [Grammar.txt], [accepted] with the terminals the generator takes,
      [documented] with those the file lists; [layout] is the way words make up a text.
    - [Vfs], [VfsClaims] ([userland/vfs/vfs.c]): the file server's tables over the vendored FAT
      driver (class [FatDriver]).
    - [Cgen], [Rpcstub], [RpcgenOut] ([tools/rpcgen/gen_comm.c], [gen_client.c],
      [gen_server.c]): the generator produces statements of a small language; [lines_text] is
      the text the tool writes for them, so the files are those of the tool byte for byte, also
      when a check stops it half-way ([run]), and [exec] is what the compiled statements do with messages, buffers and the handlers.
    - [RpcWire], [RpcServer], [RpcCall]: how the statements of an operation write and read
      its arguments and results; they are proved against the wire format, not against each
      other. [RpcNet] ([common/port.c]): [msgsend] and [msgrecv] on the memory of the buffers.
      [RpcMsg], [RpcDispatch]: one turn of the generated dispatcher; [RpcClient], [RpcReply],
      [RpcStubCall]: a generated stub from its arguments to its results. [RpcClaims]: the two
      composed.

    ** What the theorems show

    - Boot: the boot loader's pointers are moved exactly once and nothing else changes
      ([multiboot_init_spec]); no frame that holds the kernel, its heap or a low BIOS area is
      free when the system starts ([boot_frames_spec]).
    - Memory: a frame or block handed out was free, is given to nobody else until it is
      released, and no operation changes the bytes or mappings of others
      ([pmm_alloc_spec], [heap_alloc_words_spec], [heap_free_spec], [kmalloc_kfree_spec],
      [vmm_pages_spec], [mmap_spec], [vmm_reset_spec], [vmm_switch_spec]); a copied
      address space has the same pages with contents of its own ([vmm_clone_spec]) and gives
      everything back ([vmm_destroy_spec]).
    - Diagnosis: the address lookup agrees with the symbol section ([load_symbols_spec]), log lines
      have the promised form ([klog_line]), the stack walk stays in its array when the stack is
      sane ([backtrace_bounds]).
    - User programs: the program break grows by contiguous, freshly mapped pages ([sbrk_spec]),
      the init program starts each server once ([init_main_spec]) and checks a file's bytes
      ([test_fat_read_spec]), log lines that fit stay in their buffer ([user_log_spec]).
    - Programs: the ram disk holds the files of the archive ([initrd_spec]) and an executable is
      in memory as its program headers say ([load_elf_spec]).
    - Devices and servers: the block driver returns the bytes of the disk ([blk_read_spec],
      [blk_error_spec]), the file server keeps processes apart ([vfs_tables_spec]), the
      interface generator accepts the documented grammar and a little more
      ([rpc_front_end_spec]), always ends, and leaves in its files what it printed until it
      stopped ([rpcgen_spec]); for the logger they are those of the repository ([rpcgen_logger]).
    - Remote calls: the generated stub and dispatcher together give the caller what the handler
      computes from the caller's arguments ([rpc_call_spec], [rpc_oneway_spec]), while request and
      reply fit 4096 bytes and but for the upper half of a long result; a message that
      is not a call of the interface reaches no handler ([rpc_dispatch_rejects]).
    - Tasks and messages: invariants of every reachable state ([sched_reachable_ok],
      [ipc_reachable_ok]) and the effect of each operation on every branch
      ([task_switch_next_spec], [fork_spec], [exec_spec], [msgsend_spec], [msgrecv_spec], ...).
    - Refinement and equivalence: bitmaps are bit arrays, the list macros are sequences, page
      tables are maps, the printf engine prints its text, the CRC table is the polynomial.
    - Round trips: the serializer, the boot archive, messages over a socket.
    - Defects: where the code departs from its intent the theorem says what it does instead
      ([carve_overrun], [task_block_deadline], [scheduler_timer_reboots],
      [scheduler_perform_checks_spec], [timer_table_spec], [irq_stub_spec], [vsnprintf_spec],
      [user_log_spec], [backtrace_bounds], [strip_path_plain], [kmain_heap_past_mapping],
      [vmm_reset_spec], [interrupt_setup_spec], [timer_rate_spec], [serialize_roundtrip],
      [checksum_detects], [task_switch_next_spec], [rpc_front_end_spec], [rpcgen_spec],
      [relocate_linked_section_wraps], [bitset_find_clear_spec], [portopen_spec], [blk_error_spec], [vfs_tables_spec],
      [rpc_long_result]).

    ** Bounds and fuel

    Loops that are not structural take fuel and fault with [FFuel] when it ends; the theorems
    about them show an outcome that is not [FFuel]. Number formatting: 66 digits, enough for a
    64-bit number in base 2. Walks over the heap: one step per smallest block, [size / 16 + 1].
    Growing: one step per page up to the maximal size. [mmap]: [size / 4096 + 1]. Mapping a
    section: 2^20 + 1 pages, the whole address space. Functions on C strings take their fuel as
    an argument; the theorems ask for more than the length of the string. Program headers: 65536,
    the field has 16 bits. The block driver: four rounds of the copy loop, and per sector six
    status reads more than the drive may take. The interface generator: the length of its input;
    the generated statements: more than the length of every string they measure. The boot
    loops: one step per page below the limit; the stack walk: 256 steps, one more than its
    array has entries; the loops over modules and section headers: their number plus one.

    ** Not modelled

    Assembly (interrupt entry, context switch, control registers) appears as primitives of the
    models. There is one processor, and an operation of the kernel runs with interrupts off, so
    operations are atomic. The kernel's own accesses are translated by the page tables, without a
    cache: [vmm_map], [vmm_remap] and [vmm_unmap] reload [cr3] after a change and switching loads
    it; [vmm_reset_current_pagedir] does not, and its theorem says what a cache may still hold. [dlmalloc] and FatFs are vendored. Output-only code ([heap_dump],
    [multiboot_dump], the page fault reports) is left out; [kmain] beyond its memory set-up and
    [kernel_task_entry] are sequences of calls to modelled parts. The host test's handlers print
    constants; sockets are opened by the library. [rpcgen]'s files are taken to open, and
    after an assertion or [abort] the library may have written out only a beginning of what was
    printed; memory a generated stub asks for is the next of a list of answers. [malloc] of
    user programs is taken to return memory.

    ** Interfaces without an instance in the development

    [KernelHeap] and [KernelAlloc] promise blocks of every size. [kmalloc] gives them while no
    request meets the alignment overrun of the heap ([kmalloc_kfree_spec], [carve_overrun]), which
    is certain only for multiples of eight bytes; they are met here by small allocators. [TaskEnv]
    joins memory management, ram disk and loader over one state; its laws are met by a model of
    them, not by the three components run together.
*)
From stdpp Require Export base tactics numbers list gmap strings.
From Stdlib Require Export ZArith Lia.
#[global] Open Scope Z_scope.

(** ** Machine integers

    Every C integer is a [Z] kept in the range of its type; an arithmetic
    operation that may leave the range is followed by the wrap-around of the
    type it is performed in ([-ffreestanding] i386: [int], [unsigned],
    [size_t], pointers are 32 bits wide, [long long] is 64). *)
Definition wrap (w x : Z) : Z := x mod 2 ^ w.
Definition swrap (w x : Z) : Z := (x + 2 ^ (w - 1)) mod 2 ^ w - 2 ^ (w - 1).

Abbreviation u8 := (wrap 8).
Abbreviation u16 := (wrap 16).
Abbreviation u32 := (wrap 32).
Abbreviation u64 := (wrap 64).
Abbreviation s8 := (swrap 8).
Abbreviation s32 := (swrap 32).
Abbreviation s64 := (swrap 64).

Definition in_u (w x : Z) : Prop := 0 <= x < 2 ^ w.

(** C truth value of an integer used as a condition. *)
Definition nz (x : Z) : bool := negb (x =? 0).

(** ** Faults and the error monad

    [assert], [panic] and [abort] never return: they log and reboot the
    machine ([kernel/kmain.c: abort, reboot]). A computation that reaches one of
    them is a [Fault]. [FFuel] marks the exhaustion of a model's fuel, [FMem] an
    access the C program has no defined meaning for (index outside an array,
    null pointer). *)
Inductive fault : Type :=
| FAssert
| FPanic
| FMem
| FFuel.

Inductive outcome (A : Type) : Type :=
| Ret (a : A)
| Fault (f : fault).
Arguments Ret {A} _.
Arguments Fault {A} _.

#[export] Instance outcome_ret : MRet outcome := fun A a => Ret a.
#[export] Instance outcome_bind : MBind outcome :=
  fun A B k c => match c with Ret a => k a | Fault f => Fault f end.
#[export] Instance outcome_fmap : FMap outcome :=
  fun A B g c => match c with Ret a => Ret (g a) | Fault f => Fault f end.

Definition c_assert (b : bool) : outcome unit :=
  if b then Ret tt else Fault FAssert.

Definition of_option {A} (f : fault) (o : option A) : outcome A :=
  match o with Some a => Ret a | None => Fault f end.

#[export] Instance fault_eq_dec : EqDecision fault.
Proof. solve_decision. Defined.
#[export] Instance outcome_eq_dec {A} `{EqDecision A} : EqDecision (outcome A).
Proof. solve_decision. Defined.

Definition is_ret {A} (c : outcome A) : bool :=
  match c with Ret _ => true | Fault _ => false end.

(** ** Hint databases and tactics of the development *)
Create HintDb rasta discriminated.
Create Rewrite HintDb rasta_rw.

(** Turn the boolean comparisons of the context and of the goal into
    propositions. *)
Ltac breflect :=
  repeat match goal with
  | H : (_ && _)%bool = true |- _ => apply andb_true_iff in H; destruct H
  | H : (_ || _)%bool = false |- _ => apply orb_false_iff in H; destruct H
  | H : negb _ = true |- _ => apply negb_true_iff in H
  | H : negb _ = false |- _ => apply negb_false_iff in H
  | H : (_ =? _)%Z = true |- _ => apply Z.eqb_eq in H
  | H : (_ =? _)%Z = false |- _ => apply Z.eqb_neq in H
  | H : (_ <? _)%Z = true |- _ => apply Z.ltb_lt in H
  | H : (_ <? _)%Z = false |- _ => apply Z.ltb_ge in H
  | H : (_ <=? _)%Z = true |- _ => apply Z.leb_le in H
  | H : (_ <=? _)%Z = false |- _ => apply Z.leb_gt in H
  end.

(** The same, splitting on disjunctions. *)
Ltac breflect_cases :=
  breflect;
  repeat (match goal with
  | H : (_ && _)%bool = false |- _ => apply andb_false_iff in H; destruct H
  | H : (_ || _)%bool = true |- _ => apply orb_true_iff in H; destruct H
  end; breflect).

(** Split on the scrutinee of an [if] or [match] of the goal. *)
Ltac case_goal :=
  match goal with
  | |- context [if ?b then _ else _] => let E := fresh "E" in destruct b eqn:E
  | |- context [match ?x with _ => _ end] => let E := fresh "E" in destruct x eqn:E
  end.

(** Split on the scrutinee of an [if] or [match] of a hypothesis. *)
Ltac case_hyp H :=
  match type of H with
  | context [if ?b then _ else _] => let E := fresh "E" in destruct b eqn:E
  | context [match ?x with _ => _ end] => let E := fresh "E" in destruct x eqn:E
  end.

(** Invert a chain of binds that returned. *)
Lemma bind_ret_inv {A B} (c : outcome A) (k : A -> outcome B) (b : B) :
  c ≫= k = Ret b -> exists a, c = Ret a /\ k a = Ret b.
Proof. destruct c; simpl; [eauto | discriminate]. Qed.

Lemma c_assert_ret b u : c_assert b = Ret u -> b = true.
Proof. destruct b; [done | discriminate]. Qed.

Lemma c_assert_true b : b = true -> c_assert b = Ret tt.
Proof. by intros ->. Qed.

Lemma of_option_ret {A} f (o : option A) a : of_option f o = Ret a -> o = Some a.
Proof. destruct o; simpl; congruence. Qed.

Ltac invert_ret :=
  repeat match goal with
  | H : Ret _ = Ret _ |- _ => injection H as H; subst
  | H : Fault _ = Ret _ |- _ => discriminate H
  | H : Ret _ = Fault _ |- _ => discriminate H
  | H : mbind _ _ = Ret _ |- _ =>
      let a := fresh "a" in let H1 := fresh H in
      apply bind_ret_inv in H as (a & H1 & H)
  | H : c_assert _ = Ret _ |- _ => apply c_assert_ret in H
  | H : of_option _ _ = Ret _ |- _ => apply of_option_ret in H
  end.

Lemma nz_true x : x <> 0 -> nz x = true.
Proof. intros. unfold nz. by rewrite (proj2 (Z.eqb_neq x 0)). Qed.

Lemma nz_false x : x = 0 -> nz x = false.
Proof. by intros ->. Qed.

Lemma nz_spec x : nz x = true <-> x <> 0.
Proof. unfold nz. rewrite negb_true_iff. apply Z.eqb_neq. Qed.

Lemma list_filter_all {A} (P : A -> Prop) `{!forall x, Decision (P x)} (l : list A) :
  (forall x, x ∈ l -> P x) -> filter P l = l.
Proof.
  induction l as [|x l IH]; intros Hl; [done|].
  rewrite filter_cons_True by (apply Hl; left). rewrite IH; [done|]. intros. apply Hl. by right.
Qed.

Lemma list_filter_none {A} (P : A -> Prop) `{!forall x, Decision (P x)} (l : list A) :
  (forall x, x ∈ l -> ~ P x) -> filter P l = [].
Proof.
  induction l as [|x l IH]; intros Hl; [done|].
  rewrite filter_cons_False by (apply Hl; left). apply IH. intros. apply Hl. by right.
Qed.

Lemma list_filter_ext_in {A} (P Q : A -> Prop) `{!forall x, Decision (P x), !forall x, Decision (Q x)}
    (l : list A) : (forall x, x ∈ l -> (P x <-> Q x)) -> filter P l = filter Q l.
Proof.
  induction l as [|x l IH]; intros Hl; [done|]. rewrite !filter_cons.
  assert (P x <-> Q x) as Hx by (apply Hl; left).
  rewrite IH by (intros; apply Hl; by right).
  destruct (decide (P x)), (decide (Q x)); tauto || done.
Qed.

(** ** Lemmas on wrap-around *)
Lemma wrap_range w x : 0 <= w -> 0 <= wrap w x < 2 ^ w.
Proof. intros. apply Z.mod_pos_bound. lia. Qed.

Lemma u8_range x : 0 <= u8 x < 256.
Proof. by apply (wrap_range 8). Qed.
Lemma u16_range x : 0 <= u16 x < 65536.
Proof. by apply (wrap_range 16). Qed.
Lemma u32_range x : 0 <= u32 x < 4294967296.
Proof. by apply (wrap_range 32). Qed.
Lemma u64_range x : 0 <= u64 x < 18446744073709551616.
Proof. by apply (wrap_range 64). Qed.
#[export] Hint Resolve u8_range u16_range u32_range u64_range : rasta.

Lemma wrap_small w x : 0 <= x < 2 ^ w -> wrap w x = x.
Proof. apply Z.mod_small. Qed.

Lemma u8_small x : 0 <= x < 256 -> u8 x = x.
Proof. apply (wrap_small 8). Qed.
Lemma u16_small x : 0 <= x < 65536 -> u16 x = x.
Proof. apply (wrap_small 16). Qed.
Lemma u32_small x : 0 <= x < 4294967296 -> u32 x = x.
Proof. apply (wrap_small 32). Qed.
Lemma u64_small x : 0 <= x < 18446744073709551616 -> u64 x = x.
Proof. apply (wrap_small 64). Qed.

Lemma wrap_wrap w x : 0 <= w -> wrap w (wrap w x) = wrap w x.
Proof. intros. apply wrap_small, wrap_range; lia. Qed.

Lemma swrap_range w x : 0 < w -> - 2 ^ (w - 1) <= swrap w x < 2 ^ (w - 1).
Proof.
  intros. unfold swrap.
  assert (2 ^ w = 2 * 2 ^ (w - 1)) by (rewrite <- Z.pow_succ_r; [f_equal|]; lia).
  pose proof (Z.mod_pos_bound (x + 2 ^ (w - 1)) (2 ^ w)). lia.
Qed.

Lemma swrap_small w x : 0 < w -> - 2 ^ (w - 1) <= x < 2 ^ (w - 1) -> swrap w x = x.
Proof.
  intros. unfold swrap.
  assert (2 ^ w = 2 * 2 ^ (w - 1)) by (rewrite <- Z.pow_succ_r; [f_equal|]; lia).
  rewrite Z.mod_small; lia.
Qed.

Lemma s32_small x : - 2147483648 <= x < 2147483648 -> s32 x = x.
Proof. intros. apply (swrap_small 32); lia. Qed.

(** The signed and the unsigned reading of a bit pattern determine each other. *)
Lemma wrap_swrap w x : 0 < w -> wrap w (swrap w x) = wrap w x.
Proof.
  intros. unfold wrap, swrap.
  rewrite Zminus_mod_idemp_l. f_equal. lia.
Qed.

Lemma swrap_wrap w x : 0 < w -> swrap w (wrap w x) = swrap w x.
Proof. intros. unfold wrap, swrap. by rewrite Zplus_mod_idemp_l. Qed.

Lemma s32_u32 x : - 2147483648 <= x < 2147483648 -> s32 (u32 x) = x.
Proof. intros. rewrite swrap_wrap by lia. by apply s32_small. Qed.

(** Wrap-around is invisible under a later wrap-around. *)
Lemma wrap_cong w x y k : 0 <= w -> x = y + k * 2 ^ w -> wrap w x = wrap w y.
Proof. intros ? ->. unfold wrap. apply Z.mod_add. lia. Qed.

Lemma wrap_eq w x : 0 <= w -> wrap w x = x - x / 2 ^ w * 2 ^ w.
Proof. intros. unfold wrap. rewrite Z.mod_eq by lia. lia. Qed.

(** Goals that only need the range of a wrapped value. *)
Ltac wrap_bounds :=
  repeat match goal with
  | |- context [wrap 8 ?x] =>
      lazymatch goal with H : 0 <= wrap 8 x < 256 |- _ => fail | _ => pose proof (u8_range x) end
  | |- context [wrap 32 ?x] =>
      lazymatch goal with H : 0 <= wrap 32 x < 4294967296 |- _ => fail
      | _ => pose proof (u32_range x) end
  end.

(** ** Bit-level lemmas *)
Lemma land_ones_mod x k : 0 <= k -> Z.land x (2 ^ k - 1) = x mod 2 ^ k.
Proof.
  intros. rewrite <- Z.land_ones by lia. f_equal.
  rewrite Z.ones_equiv. lia.
Qed.

(** Masking with the complement of [2^k - 1] rounds down to a multiple of [2^k]. *)
Lemma land_lnot_ones x k : 0 <= k -> Z.land x (Z.lnot (2 ^ k - 1)) = x - x mod 2 ^ k.
Proof.
  intros.
  assert (x - x mod 2 ^ k = Z.shiftl (Z.shiftr x k) k) as ->.
  { rewrite Z.shiftl_mul_pow2, Z.shiftr_div_pow2 by lia.
    pose proof (Z_div_mod_eq_full x (2 ^ k)). lia. }
  apply Z.bits_inj'. intros n Hn.
  rewrite Z.land_spec, Z.lnot_spec by lia.
  assert (2 ^ k - 1 = Z.ones k) as -> by (rewrite Z.ones_equiv; lia).
  destruct (Z.lt_ge_cases n k).
  - rewrite Z.ones_spec_low, Z.shiftl_spec_low by lia. by rewrite andb_false_r.
  - rewrite Z.ones_spec_high, Z.shiftl_spec, Z.shiftr_spec by lia.
    rewrite andb_true_r. f_equal. lia.
Qed.

Lemma testbit_range x k : 0 <= x < 2 ^ k -> forall n, k <= n -> Z.testbit x n = false.
Proof.
  intros Hx n Hn. destruct (Z.eq_dec x 0) as [->|]; [apply Z.bits_0|].
  apply Z.bits_above_log2; [lia|].
  apply Z.log2_lt_pow2; [lia|]. eapply Z.lt_le_trans; [apply Hx|].
  apply Z.pow_le_mono_r; lia.
Qed.

Lemma wrap_testbit w x n : 0 <= w -> 0 <= n ->
  Z.testbit (wrap w x) n = Z.testbit x n && (n <? w).
Proof.
  intros. unfold wrap. destruct (n <? w) eqn:E; breflect.
  - rewrite Z.mod_pow2_bits_low by lia. by rewrite andb_true_r.
  - rewrite Z.mod_pow2_bits_high by lia. by rewrite andb_false_r.
Qed.

Lemma range_of_testbit x k : 0 <= k -> 0 <= x ->
  (forall n, k <= n -> Z.testbit x n = false) -> 0 <= x < 2 ^ k.
Proof.
  intros Hk Hx H. split; [done|]. destruct (Z.eq_dec x 0) as [->|]; [lia|].
  apply Z.log2_lt_pow2; [lia|]. destruct (Z.lt_ge_cases (Z.log2 x) k); [done|].
  specialize (H (Z.log2 x)). rewrite Z.bit_log2 in H; [|lia].
  discriminate H; lia.
Qed.

Lemma lor_range k x y : 0 <= k -> 0 <= x < 2 ^ k -> 0 <= y < 2 ^ k -> 0 <= Z.lor x y < 2 ^ k.
Proof.
  intros. apply range_of_testbit; [lia| apply Z.lor_nonneg; lia|].
  intros. rewrite Z.lor_spec, !(testbit_range _ k); [done|lia..].
Qed.

Lemma land_range k x y : 0 <= k -> 0 <= x < 2 ^ k -> 0 <= Z.land x y < 2 ^ k.
Proof.
  intros. apply range_of_testbit; [lia| apply Z.land_nonneg; lia|].
  intros. rewrite Z.land_spec, (testbit_range x k); [done|lia..].
Qed.

Lemma lxor_range k x y : 0 <= k -> 0 <= x < 2 ^ k -> 0 <= y < 2 ^ k -> 0 <= Z.lxor x y < 2 ^ k.
Proof.
  intros. apply range_of_testbit; [lia| apply Z.lxor_nonneg; lia|].
  intros. rewrite Z.lxor_spec, !(testbit_range _ k); [done|lia..].
Qed.

Lemma land_pow2_test x i : 0 <= i -> nz (Z.land x (2 ^ i)) = Z.testbit x i.
Proof.
  intros Hi. destruct (Z.testbit x i) eqn:E.
  - apply nz_true. intros H0.
    assert (Z.testbit (Z.land x (2 ^ i)) i = true) as H1 by (by rewrite Z.land_spec, E, Z.pow2_bits_true).
    by rewrite H0, Z.bits_0 in H1.
  - apply nz_false. apply Z.bits_inj'. intros n Hn.
    rewrite Z.land_spec, Z.pow2_bits_eqb, Z.bits_0 by lia.
    destruct (Z.eqb_spec i n) as [<-|]; [by rewrite E|apply andb_false_r].
Qed.

(** Disjoint fields packed with a shift and an [or]. *)
Lemma lor_shiftl_add k hi lo : 0 <= k -> 0 <= lo < 2 ^ k ->
  Z.lor (Z.shiftl hi k) lo = hi * 2 ^ k + lo.
Proof.
  intros Hk Hlo. rewrite <- Z.shiftl_mul_pow2 by lia. symmetry. apply Z.add_nocarry_lor.
  apply Z.bits_inj'. intros n Hn. rewrite Z.land_spec, Z.bits_0.
  destruct (Z.lt_ge_cases n k).
  - by rewrite Z.shiftl_spec_low by lia.
  - rewrite (testbit_range lo k) by (done || lia). apply andb_false_r.
Qed.

#[global] Arguments wrap : simpl never.
#[global] Arguments swrap : simpl never.
