(* ===== verification/Util.v ===== *)
(** Integer helpers of [common/util.h] and the hash of [common/util.c]:
    alignment macros, powers of two, the De Bruijn logarithm and the
    sdbm hash that message checksums are built from. *)
From S2P Require Import Prelude.

Definition LOBYTE (i : Z) : Z := Z.land i 0xFF.
Definition HIBYTE (i : Z) : Z := Z.shiftr (Z.land i 0xFF00) 8.
Definition LODWORD (i : Z) : Z := u32 (Z.land i 0xFFFFFFFF).
Definition HIDWORD (i : Z) : Z := u32 (Z.shiftr (Z.land i 0xFFFFFFFF00000000) 32).

Definition ALIGN (val align : Z) : Z :=
  Z.land (u32 (val + (align - 1))) (u32 (Z.lnot (align - 1))).
Definition TRUNCATE (val align : Z) : Z := val / align * align.
Definition IS_ALIGNED (val align : Z) : bool := val mod align =? 0.

(** [(var) & (1 << (idx))] with the [int] literal [1]: i386 [shl] uses the low
    five bits of the count, and an [int] operand is sign-extended when [var] is a
    64-bit integer. *)
Definition int_bit (idx : Z) : Z := s32 (Z.shiftl 1 (Z.land idx 31)).
Definition BITTEST32 (var idx : Z) : bool := nz (Z.land var (u32 (int_bit idx))).
Definition BITSET32 (var idx : Z) : Z := Z.lor var (u32 (int_bit idx)).
Definition BITTEST64 (var idx : Z) : bool := nz (Z.land var (u64 (int_bit idx))).
Definition BITSET64 (var idx : Z) : Z := Z.lor var (u64 (int_bit idx)).

Definition is_pow2 (v : Z) : bool := nz v && negb (nz (Z.land v (u32 (v - 1)))).

(** [v |= v >> s] *)
Definition or_shift (s v : Z) : Z := Z.lor v (Z.shiftr v s).

Definition MultiplyDeBruijnBitPosition : list Z :=
  [0; 9; 1; 10; 13; 21; 2; 29; 11; 14; 16; 18; 22; 25; 3; 30;
   8; 12; 20; 28; 15; 17; 24; 7; 19; 27; 23; 6; 26; 5; 4; 31].

Definition log2 (v : Z) : Z :=
  let v := or_shift 1 v in
  let v := or_shift 2 v in
  let v := or_shift 4 v in
  let v := or_shift 8 v in
  let v := or_shift 16 v in
  nth (Z.to_nat (Z.shiftr (u32 (v * 0x07C4ACDD)) 27)) MultiplyDeBruijnBitPosition 0.

Definition next_pow2 (v : Z) : Z :=
  let v := u32 (v - 1) in
  let v := or_shift 1 v in
  let v := or_shift 2 v in
  let v := or_shift 4 v in
  let v := or_shift 8 v in
  let v := or_shift 16 v in
  u32 (v + 1).

(** One iteration of the loop of [hash2]. *)
Definition hash_step (hash c : Z) : Z :=
  u32 (c + u32 (Z.shiftl hash 6) + u32 (Z.shiftl hash 16) - hash).

Definition hash2 (data : list Z) (start_hash : Z) : Z :=
  fold_left hash_step data start_hash.
Definition hash (data : list Z) : Z := hash2 data 0.

(** ** Alignment *)
Lemma ALIGN_eq k v : 0 <= k < 32 -> 0 <= v -> v + 2 ^ k - 1 < 2 ^ 32 ->
  ALIGN v (2 ^ k) = (v + 2 ^ k - 1) - (v + 2 ^ k - 1) mod 2 ^ k.
Proof.
  intros Hk Hv Ho. unfold ALIGN.
  assert (0 < 2 ^ k) by lia.
  rewrite (u32_small (v + _)) by lia.
  assert (Z.land (v + (2 ^ k - 1)) (u32 (Z.lnot (2 ^ k - 1)))
          = Z.land (v + (2 ^ k - 1)) (Z.lnot (2 ^ k - 1))) as ->.
  { apply Z.bits_inj'. intros n Hn. rewrite !Z.land_spec, wrap_testbit by lia.
    destruct (n <? 32) eqn:E; breflect; [by rewrite andb_true_r|].
    rewrite (testbit_range _ 32); [done|lia|lia]. }
  rewrite land_lnot_ones by lia. do 2 f_equal; lia.
Qed.

Lemma ALIGN_bounds k v : 0 <= k < 32 -> 0 <= v -> v + 2 ^ k - 1 < 2 ^ 32 ->
  ALIGN v (2 ^ k) mod 2 ^ k = 0 /\ v <= ALIGN v (2 ^ k) < v + 2 ^ k.
Proof.
  intros. rewrite ALIGN_eq by done. assert (0 < 2 ^ k) by lia.
  pose proof (Z.mod_pos_bound (v + 2 ^ k - 1) (2 ^ k)).
  split; [|lia].
  rewrite Zminus_mod_idemp_r, Z.sub_diag. apply Z.mod_0_l. lia.
Qed.

Lemma ALIGN_id k v : 0 <= k < 32 -> 0 <= v -> v + 2 ^ k - 1 < 2 ^ 32 ->
  v mod 2 ^ k = 0 -> ALIGN v (2 ^ k) = v.
Proof.
  intros. rewrite ALIGN_eq by done. assert (0 < 2 ^ k) by lia.
  replace (v + 2 ^ k - 1) with (2 ^ k - 1 + v) by lia.
  rewrite Z.add_mod, H2, Z.add_0_r, Z.mod_mod, Z.mod_small by lia. lia.
Qed.

Lemma TRUNCATE_bounds a v : 0 < a -> 0 <= v ->
  TRUNCATE v a mod a = 0 /\ 0 <= TRUNCATE v a <= v /\ v < TRUNCATE v a + a.
Proof.
  intros. unfold TRUNCATE. rewrite Z.mod_mul by lia. pose proof (Z.div_pos v a).
  pose proof (Z.mul_div_le v a). pose proof (Z.mul_succ_div_gt v a). lia.
Qed.

(** ** Powers of two *)

(** [w] has a bit set at [n] exactly when [v] has one within the [m] positions
    from [n] up: what the successive [v |= v >> s] compute. *)
Definition smeared (m w v : Z) : Prop :=
  forall n, 0 <= n ->
    (Z.testbit w n = true <-> exists j, 0 <= j < m /\ Z.testbit v (n + j) = true).

Lemma smeared_start v : smeared 1 v v.
Proof.
  intros n Hn. split.
  - intros. exists 0. rewrite Z.add_0_r. split; [lia|done].
  - intros (j & Hj & Hb). by replace (n + j) with n in Hb by lia.
Qed.

Lemma smeared_step m s w v : 0 < s <= m -> smeared m w v -> smeared (m + s) (or_shift s w) v.
Proof.
  intros Hs Hw n Hn. unfold or_shift.
  rewrite Z.lor_spec, Z.shiftr_spec, orb_true_iff by lia.
  rewrite (Hw n), (Hw (n + s)) by lia. split.
  - intros [(j & Hj & Hb)|(j & Hj & Hb)].
    + exists j. split; [lia|done].
    + exists (s + j). split; [lia|]. by rewrite Z.add_assoc.
  - intros (j & Hj & Hb). destruct (Z.lt_ge_cases j m).
    + left. exists j. split; [lia|done].
    + right. exists (j - s). split; [lia|]. by replace (n + s + (j - s)) with (n + j) by lia.
Qed.

Definition smear32 (v : Z) : Z :=
  or_shift 16 (or_shift 8 (or_shift 4 (or_shift 2 (or_shift 1 v)))).

Lemma smear32_smeared v : smeared 32 (smear32 v) v.
Proof.
  unfold smear32.
  apply (smeared_step 16), (smeared_step 8), (smeared_step 4), (smeared_step 2),
    (smeared_step 1), smeared_start; lia.
Qed.

Lemma smear32_ones v : 0 < v < 2 ^ 32 -> smear32 v = 2 ^ (Z.log2 v + 1) - 1.
Proof.
  intros Hv. assert (0 <= Z.log2 v < 32).
  { split; [apply Z.log2_nonneg|]. apply Z.log2_lt_pow2; lia. }
  replace (2 ^ (Z.log2 v + 1) - 1) with (Z.ones (Z.log2 v + 1)) by (rewrite Z.ones_equiv; lia).
  apply Z.bits_inj'. intros n Hn.
  apply eq_bool_prop_intro. rewrite !Is_true_true. rewrite (smear32_smeared v n Hn).
  destruct (Z.lt_ge_cases n (Z.log2 v + 1)) as [Hlt|Hge].
  - rewrite Z.ones_spec_low by lia. split; [done|]. intros _.
    exists (Z.log2 v - n). split; [lia|].
    replace (n + (Z.log2 v - n)) with (Z.log2 v) by lia. apply Z.bit_log2. lia.
  - rewrite Z.ones_spec_high by lia. split; [|done]. intros (j & Hj & Hb).
    rewrite Z.bits_above_log2 in Hb by lia. done.
Qed.

(** The table entry selected by the De Bruijn product for each of the 32
    values [2^(k+1) - 1]. *)
Definition debruijn_ok (k : nat) : bool :=
  nth (Z.to_nat (Z.shiftr (u32 ((2 ^ (Z.of_nat k + 1) - 1) * 0x07C4ACDD)) 27))
    MultiplyDeBruijnBitPosition 0 =? Z.of_nat k.

Lemma debruijn_all : forallb debruijn_ok (seq 0 32) = true.
Proof. vm_compute. reflexivity. Qed.

Lemma log2_correct v : 0 < v < 2 ^ 32 -> log2 v = Z.log2 v.
Proof.
  intros Hv. unfold log2. fold (smear32 v). rewrite smear32_ones by done.
  assert (0 <= Z.log2 v < 32).
  { split; [apply Z.log2_nonneg|]. apply Z.log2_lt_pow2; lia. }
  pose proof debruijn_all as H'. rewrite forallb_forall in H'.
  specialize (H' (Z.to_nat (Z.log2 v))). unfold debruijn_ok in H'.
  rewrite Z2Nat.id in H' by lia. apply Z.eqb_eq, H', in_seq. lia.
Qed.

Lemma next_pow2_correct v : 0 < v <= 2 ^ 31 ->
  next_pow2 v = 2 ^ Z.log2_up v /\ v <= next_pow2 v < 2 * v.
Proof.
  intros Hv. unfold next_pow2. rewrite (u32_small (v - 1)) by lia. fold (smear32 (v - 1)).
  assert (2 ^ Z.log2_up v = u32 (smear32 (v - 1) + 1)) as <-.
  { destruct (Z.eq_dec v 1) as [->|]; [reflexivity|].
    rewrite smear32_ones by lia. unfold Z.log2_up.
    replace (1 ?= v) with Lt by (symmetry; apply Z.compare_lt_iff; lia).
    replace (Z.pred v) with (v - 1) by lia. rewrite Z.sub_add. symmetry. apply u32_small.
    assert (Z.log2 (v - 1) + 1 <= 31).
    { enough (Z.log2 (v - 1) < 31) by lia. apply Z.log2_lt_pow2; lia. }
    split; [lia|]. change 4294967296 with (2 ^ 32). apply Z.pow_lt_mono_r; lia. }
  split; [done|]. destruct (Z.eq_dec v 1) as [->|]; [vm_compute; by split|].
  pose proof (Z.log2_up_spec v). pose proof (Z.log2_up_pos v).
  assert (2 ^ Z.log2_up v = 2 * 2 ^ Z.pred (Z.log2_up v)).
  { rewrite <- Z.pow_succ_r by lia. f_equal. lia. }
  lia.
Qed.

Lemma next_pow2_overflow v : 2 ^ 31 < v < 2 ^ 32 -> next_pow2 v = 0.
Proof.
  intros Hv. unfold next_pow2. rewrite (u32_small (v - 1)) by lia. fold (smear32 (v - 1)).
  rewrite smear32_ones by lia.
  replace (Z.log2 (v - 1)) with 31; [reflexivity|].
  symmetry. apply Z.log2_unique; lia.
Qed.

Lemma is_pow2_correct v : 0 <= v < 2 ^ 32 ->
  is_pow2 v = true <-> exists k, 0 <= k < 32 /\ v = 2 ^ k.
Proof.
  intros Hv. unfold is_pow2, nz. split.
  - intros H. breflect. rewrite u32_small in H0 by lia.
    assert (0 <= Z.log2 v < 32).
    { split; [apply Z.log2_nonneg|]. apply Z.log2_lt_pow2; lia. }
    exists (Z.log2 v). split; [done|].
    destruct (Z.log2_spec v); [lia|].
    assert (v = 2 ^ Z.log2 v \/ 2 ^ Z.log2 v < v) as [|Hlt] by lia; [done|exfalso].
    assert (Z.testbit (Z.land v (v - 1)) (Z.log2 v) = true) as Hb.
    { rewrite Z.land_spec, Z.bit_log2 by lia. simpl.
      replace (Z.log2 v) with (Z.log2 (v - 1)); [apply Z.bit_log2; lia|].
      apply Z.log2_unique; lia. }
    by rewrite H0, Z.bits_0 in Hb.
  - intros (k & Hk & ->). assert (0 < 2 ^ k) by lia.
    replace (2 ^ k =? 0) with false by (symmetry; apply Z.eqb_neq; lia). simpl.
    rewrite u32_small by lia. rewrite land_ones_mod, Z.mod_same by lia. done.
Qed.

(** ** The hash *)
Lemma hash_step_eq h c : hash_step h c = u32 (65599 * h + c).
Proof.
  unfold hash_step. rewrite !Z.shiftl_mul_pow2 by lia.
  rewrite (wrap_eq 32 (h * 2 ^ 6)), (wrap_eq 32 (h * 2 ^ 16)) by lia.
  apply (wrap_cong 32 _ _ (- (h * 2 ^ 6 / 2 ^ 32) - h * 2 ^ 16 / 2 ^ 32)); lia.
Qed.

(** 65599 is odd, so one step can be undone: its inverse modulo 2^32. *)
Definition hash_inverse : Z := 2390421439.

Lemma hash_inverse_ok : u32 (hash_inverse * 65599) = 1.
Proof. reflexivity. Qed.

Lemma hash_step_inj h1 h2 c1 c2 :
  0 <= h1 < 2 ^ 32 -> 0 <= h2 < 2 ^ 32 -> 0 <= c1 < 256 -> 0 <= c2 < 256 ->
  hash_step h1 c1 = hash_step h2 c2 -> h1 = h2 <-> c1 = c2.
Proof.
  intros Hh1 Hh2 Hc1 Hc2. rewrite !hash_step_eq, !(wrap_eq 32) by lia. intros E.
  set (q1 := (65599 * h1 + c1) / 2 ^ 32) in E. set (q2 := (65599 * h2 + c2) / 2 ^ 32) in E.
  split; [intros ->|intros ->].
  - lia.
  - rewrite <- (u32_small h1), <- (u32_small h2) by lia.
    apply (wrap_cong 32 _ _ (hash_inverse * (q1 - q2) - (h1 - h2) * 36510)); [lia|].
    unfold hash_inverse. lia.
Qed.

Lemma hash_step_range h c : 0 <= hash_step h c < 2 ^ 32.
Proof. rewrite hash_step_eq. apply u32_range. Qed.

Lemma hash2_range data h : 0 <= h < 2 ^ 32 -> 0 <= hash2 data h < 2 ^ 32.
Proof.
  revert h. induction data as [|c data IH]; intros h Hh; [done|].
  simpl. apply IH, hash_step_range.
Qed.

Lemma hash2_app a b h : hash2 (a ++ b) h = hash2 b (hash2 a h).
Proof. apply fold_left_app. Qed.

(** The hash of a fixed suffix is injective in the hash of the prefix. *)
Lemma hash2_inj_start data h1 h2 : Forall (fun c => 0 <= c < 256) data ->
  0 <= h1 < 2 ^ 32 -> 0 <= h2 < 2 ^ 32 -> hash2 data h1 = hash2 data h2 -> h1 = h2.
Proof.
  intros Hd. revert h1 h2. induction Hd as [|c data Hc Hd IH]; intros h1 h2 H1 H2; [done|].
  simpl. intros E. apply IH in E; [|apply hash_step_range..].
  by apply (hash_step_inj h1 h2 c c) in E; [apply E|..].
Qed.

Lemma hash2_one_byte a b c1 c2 h :
  Forall (fun c => 0 <= c < 256) b -> 0 <= h < 2 ^ 32 ->
  0 <= c1 < 256 -> 0 <= c2 < 256 -> c1 <> c2 ->
  hash2 (a ++ c1 :: b) h <> hash2 (a ++ c2 :: b) h.
Proof.
  intros Hb Hh H1 H2 Hne E. rewrite !hash2_app in E. simpl in E.
  apply hash2_inj_start in E; [|done|apply hash_step_range..].
  apply Hne. apply (hash_step_inj (hash2 a h) (hash2 a h)) in E;
    [by apply E|auto using hash2_range..].
Qed.
