(* ===== verification/Mem.v ===== *)
(** Byte-addressed memory: the store that the C code's pointers point into.
    Loads and stores of a multi-byte integer are little-endian (i386) and may be
    unaligned. Also the byte strings that integers are encoded to on the wire. *)
From S2P Require Import Prelude.

Abbreviation mem := (gmap Z Z).

Definition load8 (m : mem) (a : Z) : Z := default 0 (m !! a).
Definition store8 (m : mem) (a v : Z) : mem := <[a := u8 v]> m.

Fixpoint load_bytes (m : mem) (a : Z) (n : nat) : list Z :=
  match n with
  | O => []
  | S n => load8 m a :: load_bytes m (a + 1) n
  end.

Fixpoint store_bytes (m : mem) (a : Z) (bs : list Z) : mem :=
  match bs with
  | [] => m
  | b :: bs => store_bytes (store8 m a b) (a + 1) bs
  end.

(** Little-endian encoding of an integer in [n] bytes. *)
Fixpoint le_encode (n : nat) (v : Z) : list Z :=
  match n with
  | O => []
  | S n => v mod 256 :: le_encode n (v / 256)
  end.

Fixpoint le_decode (bs : list Z) : Z :=
  match bs with
  | [] => 0
  | b :: bs => b + 256 * le_decode bs
  end.

Definition load32 (m : mem) (a : Z) : Z := le_decode (load_bytes m a 4).
Definition store32 (m : mem) (a v : Z) : mem := store_bytes m a (le_encode 4 v).
Definition load64 (m : mem) (a : Z) : Z := le_decode (load_bytes m a 8).
Definition store64 (m : mem) (a v : Z) : mem := store_bytes m a (le_encode 8 v).

Definition is_byte (b : Z) : Prop := 0 <= b < 256.

Lemma store_bytes_cons m a b bs :
  store_bytes m a (b :: bs) = store_bytes (store8 m a b) (a + 1) bs.
Proof. done. Qed.

Lemma store_bytes_app m a b1 b2 :
  store_bytes m a (b1 ++ b2) = store_bytes (store_bytes m a b1) (a + Z.of_nat (length b1)) b2.
Proof.
  revert m a. induction b1 as [|x b1 IH]; intros m a; [by rewrite Z.add_0_r|].
  cbn [app]. rewrite !store_bytes_cons, IH. f_equal. cbn [length]. lia.
Qed.

(** ** Encoding *)
Lemma length_le_encode n v : length (le_encode n v) = n.
Proof. revert v. induction n; intros; simpl; auto. Qed.

Lemma le_encode_bytes n v : Forall is_byte (le_encode n v).
Proof.
  revert v. induction n; intros v; simpl; constructor; auto.
  by apply Z.mod_pos_bound.
Qed.

Lemma le_decode_encode n v : le_decode (le_encode n v) = v mod 256 ^ Z.of_nat n.
Proof.
  revert v. induction n as [|n IH]; intros v; simpl le_encode; simpl le_decode.
  - by rewrite Z.mod_1_r.
  - rewrite IH. replace (Z.of_nat (S n)) with (Z.succ (Z.of_nat n)) by lia.
    rewrite Z.pow_succ_r by lia. rewrite Z.rem_mul_r; lia.
Qed.

Lemma le_decode_encode_small n v : 0 <= v < 256 ^ Z.of_nat n -> le_decode (le_encode n v) = v.
Proof. intros. rewrite le_decode_encode. by apply Z.mod_small. Qed.

Lemma le_decode_range bs : Forall is_byte bs -> 0 <= le_decode bs < 256 ^ Z.of_nat (length bs).
Proof.
  induction 1 as [|b bs Hb Hbs IH]; simpl le_decode; [done|].
  simpl length. replace (Z.of_nat (S (length bs))) with (Z.succ (Z.of_nat (length bs))) by lia.
  rewrite Z.pow_succ_r by lia. unfold is_byte in Hb. lia.
Qed.

Lemma le_encode_decode bs : Forall is_byte bs -> le_encode (length bs) (le_decode bs) = bs.
Proof.
  induction 1 as [|b bs Hb Hbs IH]; simpl; [done|]. unfold is_byte in Hb.
  rewrite (Z.mul_comm 256), Z.mod_add, Z.mod_small by lia.
  rewrite Z.div_add, Z.div_small, Z.add_0_l by lia. by rewrite IH.
Qed.

(** ** Loads after stores *)
Lemma load8_store8 m a v b : load8 (store8 m a v) b = if a =? b then u8 v else load8 m b.
Proof.
  unfold load8, store8. destruct (a =? b) eqn:E; breflect.
  - subst. by rewrite lookup_insert_eq.
  - by rewrite lookup_insert_ne.
Qed.

Lemma load8_store_bytes_out m a bs b :
  b < a \/ a + Z.of_nat (length bs) <= b -> load8 (store_bytes m a bs) b = load8 m b.
Proof.
  revert m a. induction bs as [|v bs IH]; intros m a Hb; [done|]. simpl in *.
  rewrite IH by lia. rewrite load8_store8.
  destruct (a =? b) eqn:E; breflect; [lia|done].
Qed.

Lemma length_load_bytes m a n : length (load_bytes m a n) = n.
Proof. revert a. induction n; intros; simpl; auto. Qed.

Lemma load_bytes_app m p n k :
  load_bytes m p (n + k) = load_bytes m p n ++ load_bytes m (p + Z.of_nat n) k.
Proof.
  revert p. induction n as [|n IH]; intros p; cbn [load_bytes Nat.add app].
  - by rewrite Z.add_0_r.
  - rewrite IH. do 3 f_equal. lia.
Qed.

Lemma load_bytes_ext m1 m2 a n :
  (forall b, a <= b < a + Z.of_nat n -> load8 m1 b = load8 m2 b) ->
  load_bytes m1 a n = load_bytes m2 a n.
Proof.
  revert a. induction n as [|n IH]; intros a H; simpl; [done|].
  f_equal; [apply H; lia|]. apply IH. intros. apply H. lia.
Qed.

Lemma load_store_bytes_eq m a bs n : Forall is_byte bs -> length bs = n ->
  load_bytes (store_bytes m a bs) a n = bs.
Proof.
  intros Hbs <-. revert m a. induction Hbs as [|b bs Hb Hbs IH]; intros m a; simpl; [done|].
  rewrite load8_store_bytes_out by lia. rewrite load8_store8, Z.eqb_refl.
  rewrite u8_small by done. by rewrite IH.
Qed.

Lemma load_store_bytes_ne m a bs b n :
  b + Z.of_nat n <= a \/ a + Z.of_nat (length bs) <= b ->
  load_bytes (store_bytes m a bs) b n = load_bytes m b n.
Proof.
  intros H. apply load_bytes_ext. intros c Hc. apply load8_store_bytes_out. lia.
Qed.

Lemma load32_store32_eq m a v : 0 <= v < 2 ^ 32 -> load32 (store32 m a v) a = v.
Proof.
  intros. unfold load32, store32.
  rewrite load_store_bytes_eq by (apply le_encode_bytes || apply length_le_encode).
  by rewrite le_decode_encode_small.
Qed.

Lemma load32_store32_ne m a v b : b + 4 <= a \/ a + 4 <= b ->
  load32 (store32 m a v) b = load32 m b.
Proof.
  intros. unfold load32, store32. rewrite load_store_bytes_ne; [done|].
  rewrite length_le_encode. lia.
Qed.

Lemma load64_store64_eq m a v : 0 <= v < 2 ^ 64 -> load64 (store64 m a v) a = v.
Proof.
  intros. unfold load64, store64.
  rewrite load_store_bytes_eq by (apply le_encode_bytes || apply length_le_encode).
  by rewrite le_decode_encode_small.
Qed.

Lemma load64_store32_ne m a v b : b + 8 <= a \/ a + 4 <= b ->
  load64 (store32 m a v) b = load64 m b.
Proof.
  intros. unfold load64, store32. rewrite load_store_bytes_ne; [done|].
  rewrite length_le_encode. lia.
Qed.

Lemma load32_store64_ne m a v b : b + 4 <= a \/ a + 8 <= b ->
  load32 (store64 m a v) b = load32 m b.
Proof.
  intros. unfold load32, store64. rewrite load_store_bytes_ne; [done|].
  rewrite length_le_encode. lia.
Qed.

Lemma load64_store64_ne m a v b : b + 8 <= a \/ a + 8 <= b ->
  load64 (store64 m a v) b = load64 m b.
Proof.
  intros. unfold load64, store64. rewrite load_store_bytes_ne; [done|].
  rewrite length_le_encode. lia.
Qed.

(** Memory contents are bytes. *)
Definition byte_mem (m : mem) : Prop := forall a v, m !! a = Some v -> is_byte v.

Lemma load8_byte m a : byte_mem m -> is_byte (load8 m a).
Proof.
  intros Hm. unfold load8. destruct (m !! a) eqn:E; simpl; [eauto|]. by unfold is_byte.
Qed.

Lemma load_bytes_byte m a n : byte_mem m -> Forall is_byte (load_bytes m a n).
Proof. intros Hm. revert a. induction n; intros; simpl; constructor; auto using load8_byte. Qed.

Lemma load32_range m a : byte_mem m -> 0 <= load32 m a < 2 ^ 32.
Proof.
  intros Hm. pose proof (le_decode_range _ (load_bytes_byte m a 4 Hm)) as H.
  by rewrite length_load_bytes in H.
Qed.

Lemma store8_byte_mem m a v : byte_mem m -> byte_mem (store8 m a v).
Proof.
  intros Hm b w. unfold store8. destruct (decide (a = b)) as [->|].
  - rewrite lookup_insert_eq. intros [= <-]. apply u8_range.
  - rewrite lookup_insert_ne by done. apply Hm.
Qed.

Lemma store_bytes_byte_mem m a bs : byte_mem m -> byte_mem (store_bytes m a bs).
Proof. revert m a. induction bs; intros; simpl; auto using store8_byte_mem. Qed.

Lemma empty_byte_mem : byte_mem ∅.
Proof. intros a v H. by rewrite lookup_empty in H. Qed.

#[export] Hint Resolve store8_byte_mem store_bytes_byte_mem empty_byte_mem load8_byte
  load_bytes_byte le_encode_bytes : rasta.

(** ** Frames *)

(** Two memories that agree outside an address range. *)
Definition same_outside (m m' : mem) (lo hi : Z) : Prop :=
  forall c, c < lo \/ hi <= c -> load8 m' c = load8 m c.

Lemma same_outside_trans m1 m2 m3 lo hi :
  same_outside m1 m2 lo hi -> same_outside m2 m3 lo hi -> same_outside m1 m3 lo hi.
Proof. intros H1 H2 c Hc. by rewrite H2, H1. Qed.

Lemma same_outside_widen m m' lo hi lo' hi' :
  same_outside m m' lo hi -> lo' <= lo -> hi <= hi' -> same_outside m m' lo' hi'.
Proof. intros H ? ? c Hc. apply H. lia. Qed.

Lemma same_outside_refl m lo hi : same_outside m m lo hi.
Proof. done. Qed.

Lemma same_outside_bytes m m' lo hi a bs :
  same_outside m m' lo hi -> lo <= a -> a + Z.of_nat (length bs) <= hi ->
  same_outside m (store_bytes m' a bs) lo hi.
Proof. intros H ? ? c Hc. rewrite load8_store_bytes_out by lia. by apply H. Qed.

Lemma same_outside_32 m m' lo hi a v :
  same_outside m m' lo hi -> lo <= a -> a + 4 <= hi -> same_outside m (store32 m' a v) lo hi.
Proof. intros. apply same_outside_bytes; rewrite ?length_le_encode; done. Qed.

Lemma same_outside_64 m m' lo hi a v :
  same_outside m m' lo hi -> lo <= a -> a + 8 <= hi -> same_outside m (store64 m' a v) lo hi.
Proof. intros. apply same_outside_bytes; rewrite ?length_le_encode; done. Qed.

Lemma same_outside_load32 m m' lo hi a : same_outside m m' lo hi ->
  a + 4 <= lo \/ hi <= a -> load32 m' a = load32 m a.
Proof. intros H Ha. unfold load32. f_equal. apply load_bytes_ext. intros. apply H. lia. Qed.

Lemma same_outside_load64 m m' lo hi a : same_outside m m' lo hi ->
  a + 8 <= lo \/ hi <= a -> load64 m' a = load64 m a.
Proof. intros H Ha. unfold load64. f_equal. apply load_bytes_ext. intros. apply H. lia. Qed.

#[global] Arguments load32 : simpl never.
#[global] Arguments store32 : simpl never.
#[global] Arguments load64 : simpl never.
#[global] Arguments store64 : simpl never.
#[global] Arguments store_bytes : simpl never.
