(* ===== verification/Str.v ===== *)
(** [common/string.c]: number formatting, [printf]-style formatting, memory and
    string routines. Buffers are ranges of the byte memory of [Mem.v]; a C string
    is a run of non-zero bytes ended by a zero byte. *)
From S2P Require Import Prelude Mem.

(** ** Definitions *)

(** [while( *(str++)) len++;] *)
Fixpoint strlen_from (fuel : nat) (m : mem) (str len : Z) : outcome Z :=
  match fuel with
  | O => Fault FFuel
  | S fuel =>
      if nz (load8 m str) then strlen_from fuel m (str + 1) (u32 (len + 1)) else Ret len
  end.
Definition strlen (fuel : nat) (m : mem) (str : Z) : outcome Z := strlen_from fuel m str 0.

(** The swap loop of [strreverse]. *)
Fixpoint swap_loop (fuel : nat) (m : mem) (buffer start end_ : Z) : outcome mem :=
  match fuel with
  | O => Fault FFuel
  | S fuel =>
      if start <? end_ then
        let tmp := load8 m (buffer + start) in
        let m := store8 m (buffer + start) (load8 m (buffer + end_)) in
        let m := store8 m (buffer + end_) tmp in
        swap_loop fuel m buffer (start + 1) (end_ - 1)
      else Ret m
  end.

Definition strreverse (fuel : nat) (m : mem) (buffer size : Z) : outcome mem :=
  size ← (if size =? u32 (-1) then strlen fuel m buffer else Ret size);
  swap_loop fuel m buffer 0 (s32 (size - 1)).

(** The character of a digit: ['0' + d] or ['A' + (d - 10)]. *)
Definition digit_char (d : Z) : Z := if d <? 10 then 48 + d else 65 + (d - 10).

(** The digit loop of [format_int]: memory, [out], [size], [ret]. *)
Fixpoint format_loop (fuel : nat) (m : mem) (out size n base ret : Z)
    : outcome (mem * Z * Z * Z) :=
  match fuel with
  | O => Fault FFuel
  | S fuel =>
      if (ret =? 0) || nz n then
        let '(m, out, size) :=
          if nz size then (store8 m out (digit_char (n mod base)), out + 1, size - 1)
          else (m, out, size) in
        format_loop fuel m out size (n / base) base (ret + 1)
      else Ret (m, out, size, ret)
  end.

(** A 64-bit number has at most 64 digits in any base. *)
Definition max_digits : nat := 65.
Definition digits_fuel : nat := S max_digits.

Definition format_int (m : mem) (buffer size n base : Z) : outcome (mem * Z) :=
  let m := if nz size then store8 m buffer 0 else m in
  '(m, out, size, ret) ← format_loop digits_fuel m buffer size n base 0;
  m ← (if nz size then strreverse digits_fuel (store8 m out 0) buffer (u32 (-1)) else Ret m);
  Ret (m, ret + 1).

Definition lltoa (m : mem) (buffer size n : Z) : outcome (mem * Z) :=
  '(m, ret) ← format_int m buffer size n 10; Ret (m, ret).
Definition itoa (m : mem) (str n : Z) : outcome mem :=
  '(m, _) ← format_int m str 15 n 10; Ret m.
Definition itox (m : mem) (str n : Z) : outcome (mem * Z) :=
  '(m, ret) ← format_int m str 9 n 16; Ret (m, ret).

(** The value of a hexadecimal digit character. *)
Definition hex_value (c : Z) : option Z :=
  if (48 <=? c) && (c <=? 57) then Some (c - 48)
  else if (97 <=? c) && (c <=? 102) then Some (c - 97 + 10)
  else if (65 <=? c) && (c <=? 70) then Some (c - 65 + 10)
  else None.

(** [n] counts the characters left of [str + 8 - p]. *)
Fixpoint xtoa_loop (n : nat) (m : mem) (p res : Z) : Z :=
  match n with
  | O => res
  | S n =>
      if nz (load8 m p) then
        match hex_value (s8 (load8 m p)) with
        | Some d => xtoa_loop n m (p + 1) (Z.lor (u32 (Z.shiftl res 4)) d)
        | None => res
        end
      else res
  end.
Definition xtoa (m : mem) (str : Z) : Z := xtoa_loop 8 m str 0.

(** *** Memory *)
Fixpoint memset_loop (n : nat) (m : mem) (ptr ch : Z) : mem :=
  match n with O => m | S n => memset_loop n (store8 m ptr ch) (ptr + 1) ch end.
Definition memset (m : mem) (buffer ch size : Z) : mem := memset_loop (Z.to_nat size) m buffer ch.
Definition bzero (m : mem) (buffer size : Z) : mem := memset m buffer 0 size.

(** [while(n-- > 0) *--d = *--s;] and [while(n-- > 0) *d++ = *s++;] *)
Fixpoint copy_down (n : nat) (m : mem) (d s : Z) : mem :=
  match n with O => m | S n => copy_down n (store8 m (d - 1) (load8 m (s - 1))) (d - 1) (s - 1) end.
Fixpoint copy_up (n : nat) (m : mem) (d s : Z) : mem :=
  match n with O => m | S n => copy_up n (store8 m d (load8 m s)) (d + 1) (s + 1) end.
Definition memcpy (m : mem) (dest source size : Z) : mem :=
  if (source <? dest) && (dest <? source + size)
  then copy_down (Z.to_nat size) m (dest + size) (source + size)
  else copy_up (Z.to_nat size) m dest source.

Fixpoint memcmp_loop (n : nat) (m : mem) (p0 p1 : Z) : Z :=
  match n with
  | O => 0
  | S n =>
      if negb (load8 m p0 =? load8 m p1) then load8 m p1 - load8 m p0
      else memcmp_loop n m (p0 + 1) (p1 + 1)
  end.
Definition memcmp (m : mem) (p0 p1 size : Z) : Z :=
  if size =? 0 then 0 else memcmp_loop (Z.to_nat size) m p0 p1.

(** *** Strings *)
Fixpoint strlcpy_loop (fuel : nat) (m : mem) (dst src siz : Z) : outcome (mem * Z) :=
  match fuel with
  | O => Fault FFuel
  | S fuel =>
      if (1 <? siz) && nz (load8 m src)
      then strlcpy_loop fuel (store8 m dst (load8 m src)) (dst + 1) (src + 1) (siz - 1)
      else Ret (m, dst)
  end.
Definition strlcpy (fuel : nat) (m : mem) (dst src siz : Z) : outcome mem :=
  '(m, dst) ← strlcpy_loop fuel m dst src siz;
  Ret (store8 m dst 0).

Fixpoint skip_loop (fuel : nat) (m : mem) (dst siz : Z) : outcome (Z * Z) :=
  match fuel with
  | O => Fault FFuel
  | S fuel =>
      if nz (load8 m dst) && nz siz then skip_loop fuel m (dst + 1) (siz - 1) else Ret (dst, siz)
  end.
Definition strlcat (fuel : nat) (m : mem) (dst src siz : Z) : outcome mem :=
  '(dst, siz) ← skip_loop fuel m dst siz;
  '(m, dst) ← strlcpy_loop fuel m dst src siz;
  Ret (store8 m dst 0).

Fixpoint strcmp (fuel : nat) (m : mem) (s0 s1 : Z) : outcome Z :=
  match fuel with
  | O => Fault FFuel
  | S fuel =>
      let d := s8 (load8 m s1) - s8 (load8 m s0) in
      if negb (nz (load8 m s0)) || negb (nz (load8 m s0)) then Ret d
      else if negb (load8 m s0 =? load8 m s1) then Ret d
      else strcmp fuel m (s0 + 1) (s1 + 1)
  end.

Fixpoint basename_loop (fuel : nat) (m : mem) (filename result : Z) : outcome Z :=
  match fuel with
  | O => Fault FFuel
  | S fuel =>
      if nz (load8 m filename) then
        basename_loop fuel m (filename + 1) (if load8 m filename =? 47 then filename else result)
      else Ret result
  end.
Definition basename (fuel : nat) (m : mem) (filename : Z) : outcome Z :=
  result ← basename_loop fuel m filename filename;
  Ret (if load8 m result =? 47 then result + 1 else result).

(** *** Formatting

    A format string and the strings passed for [%s] are byte lists without the
    terminator; [va_list] is the list of the arguments still to be fetched. *)
Inductive va_arg : Type :=
| AInt (v : Z)
| ALong (v : Z)
| AStr (s : list Z).

Section formatv.
Context {S : Type} (callback : Z -> S -> S).

(** [while( *p) { callback( *(p++), callback_params); ret++; }] *)
Fixpoint emit (s : list Z) (st : S) (ret : Z) : S * Z :=
  match s with
  | [] => (st, ret)
  | c :: s => emit s (callback (s8 c) st) (ret + 1)
  end.

(** The string held by the local [num_buffer] at address 0. *)
Fixpoint buffer_string (fuel : nat) (m : mem) (p : Z) : list Z :=
  match fuel with
  | O => []
  | Datatypes.S fuel =>
      if nz (load8 m p) then load8 m p :: buffer_string fuel m (p + 1) else []
  end.

Definition fetch_number (l : Z) (args : list va_arg) : outcome (Z * list va_arg) :=
  match args with
  | AInt v :: args => if l <? 2 then Ret (v, args) else Fault FMem
  | ALong v :: args => if l <? 2 then Fault FMem else Ret (v, args)
  | _ => Fault FMem
  end.

Definition pad (leading_zero width len : Z) : list Z :=
  if nz leading_zero && (len <? u32 width) then replicate (Z.to_nat (u32 (width - len))) 48 else [].

(** The cases ['d'], ['u'], ['x'], ['X']. *)
Definition conv_number (base l width leading_zero : Z) (args : list va_arg) (st : S) (ret : Z)
    : outcome (list va_arg * S * Z) :=
  '(v, args) ← fetch_number l args;
  '(num_buffer, _) ← format_int ∅ 0 64 v base;
  len ← strlen 64 num_buffer 0;
  let '(st, ret) := emit (pad leading_zero width len) st ret in
  let '(st, ret) := emit (buffer_string 64 num_buffer 0) st ret in
  Ret (args, st, ret).

(** The cases ['p'] and ['P']. *)
Definition conv_pointer (l : Z) (args : list va_arg) (st : S) (ret : Z)
    : outcome (list va_arg * S * Z) :=
  '(v, args) ← fetch_number l args;
  let num_buffer := store_bytes ∅ 0 [48; 120; 0] in
  '(num_buffer, _) ← format_int num_buffer 2 62 v 16;
  let '(st, ret) := emit (buffer_string 64 num_buffer 0) st ret in
  Ret (args, st, ret).

(** [while(!breakwhile)] after a ['%']: the list is what follows it. At the
    end of the format string the code reads beyond the terminator. *)
Fixpoint conv (fmt : list Z) (l width leading_zero : Z) (args : list va_arg) (st : S) (ret : Z)
    : outcome (list Z * list va_arg * S * Z) :=
  match fmt with
  | [] => Fault FMem
  | c :: fmt =>
      if (c =? 100) || (c =? 117) then
        '(args, st, ret) ← conv_number 10 l width leading_zero args st ret;
        Ret (fmt, args, st, ret)
      else if c =? 115 then
        match args with
        | AStr s :: args => let '(st, ret) := emit s st ret in Ret (fmt, args, st, ret)
        | _ => Fault FMem
        end
      else if (c =? 88) || (c =? 120) then
        '(args, st, ret) ← conv_number 16 l width leading_zero args st ret;
        Ret (fmt, args, st, ret)
      else if (c =? 112) || (c =? 80) then
        '(args, st, ret) ← conv_pointer l args st ret;
        Ret (fmt, args, st, ret)
      else if c =? 108 then conv fmt (l + 1) width leading_zero args st ret
      else if (c =? 48) && (width =? 0) then conv fmt l width (leading_zero + 1) args st ret
      else if (48 <=? c) && (c <=? 57) then
        conv fmt l (if width =? 0 then c - 48 else s32 (s32 (width * 10) + (c - 48)))
          leading_zero args st ret
      else conv fmt l width leading_zero args (callback (s8 c) st) (ret + 1)
  end.

Fixpoint formatv (fuel : nat) (fmt : list Z) (args : list va_arg) (st : S) (ret : Z)
    : outcome (S * Z) :=
  match fuel with
  | O => Fault FFuel
  | Datatypes.S fuel =>
      match fmt with
      | [] => Ret (st, ret)
      | c :: fmt =>
          if c =? 37 then
            '(fmt, args, st, ret) ← conv fmt 0 0 0 args st ret;
            formatv fuel fmt args st ret
          else formatv fuel fmt args (callback (s8 c) st) (ret + 1)
      end
  end.
End formatv.

(** [format]: the variadic wrapper; every character consumes at most one step. *)
Definition format {S} (callback : Z -> S -> S) (fmt : list Z) (args : list va_arg) (st : S)
    : outcome (S * Z) := formatv callback (Datatypes.S (length fmt)) fmt args st 0.

Record snprintf_t : Type := mkSnprintf { buf : Z; siz : Z }.

Definition snprintf_callback (ch : Z) (st : mem * snprintf_t) : mem * snprintf_t :=
  let '(m, b) := st in
  if nz (siz b) then (store8 m (buf b) ch, mkSnprintf (buf b + 1) (siz b - 1)) else st.

Definition vsnprintf (m : mem) (buffer size : Z) (fmt : list Z) (args : list va_arg)
    : outcome (mem * Z) :=
  '((m, _), ret) ← format snprintf_callback fmt args (m, mkSnprintf buffer (s32 (size - 1)));
  Ret (store8 m (buffer + ret) 0, ret + 1).
Definition snprintf := vsnprintf.

Definition vsncatf (fuel : nat) (m : mem) (buffer size : Z) (fmt : list Z) (args : list va_arg)
    : outcome (mem * Z) :=
  len ← strlen fuel m buffer;
  if size <=? u32 (len + 1) then Ret (m, 0)
  else vsnprintf m (buffer + len) (size - len) fmt args.
Definition sncatf := vsncatf.

(** ** Strings in memory *)
Definition is_char (c : Z) : Prop := 0 < c < 256.

Record str_at (m : mem) (p : Z) (s : list Z) : Prop := {
  sa_bytes : load_bytes m p (length s) = s;
  sa_chars : Forall is_char s;
  sa_nul : load8 m (p + Z.of_nat (length s)) = 0
}.

Lemma str_at_cons m p c s : str_at m p (c :: s) <-> load8 m p = c /\ is_char c /\ str_at m (p + 1) s.
Proof.
  split.
  - intros [Hb Hc Hn]. cbn [length load_bytes] in Hb. injection Hb as H1 H2.
    apply Forall_cons in Hc as [Hc Hs]. split; [done|]. split; [done|]. split; try done.
    rewrite <- Hn. f_equal. simpl. lia.
  - intros (<- & Hc & [Hb Hs Hn]). split.
    + cbn [length load_bytes]. by rewrite Hb.
    + by constructor.
    + rewrite <- Hn. f_equal. simpl. lia.
Qed.

Lemma str_at_nil m p : str_at m p [] <-> load8 m p = 0.
Proof.
  split; [intros [_ _ Hn]|intros Hn; split; [done|constructor|]]; simpl in *;
    by rewrite Z.add_0_r in *.
Qed.

Lemma str_at_frame m m' lo hi p s : same_outside m m' lo hi ->
  p + Z.of_nat (length s) < lo \/ hi <= p -> str_at m p s -> str_at m' p s.
Proof.
  intros Hs Hd [Hb Hc Hn]. split; [|done|].
  - rewrite <- Hb at 2. apply load_bytes_ext. intros. apply Hs. lia.
  - rewrite Hs by lia. done.
Qed.

Lemma str_at_store m p s : Forall is_char s ->
  str_at (store8 (store_bytes m p s) (p + Z.of_nat (length s)) 0) p s.
Proof.
  intros Hs. split; [|done|].
  - etransitivity; [apply load_bytes_ext|apply (load_store_bytes_eq m p s); [|done]].
    + intros b Hb. rewrite load8_store8. rewrite (proj2 (Z.eqb_neq _ _)) by lia. done.
    + eapply Forall_impl; [done|]. intros c ?. unfold is_char, is_byte in *. lia.
  - rewrite load8_store8, Z.eqb_refl. done.
Qed.

Lemma char_nz c : is_char c -> nz c = true.
Proof. intros. apply nz_true. unfold is_char in *. lia. Qed.

Lemma strlen_from_ok : forall s m p len fuel, str_at m p s -> 0 <= len ->
  len + Z.of_nat (length s) < 2 ^ 32 -> (length s < fuel)%nat ->
  strlen_from fuel m p len = Ret (len + Z.of_nat (length s)).
Proof.
  induction s as [|c s IH]; intros m p len fuel Hs Hl Hb Hf;
    (destruct fuel as [|fuel]; [simpl in Hf; lia|]); cbn [strlen_from].
  - apply str_at_nil in Hs. rewrite Hs. simpl. f_equal. lia.
  - apply str_at_cons in Hs as (-> & Hc & Hs). rewrite char_nz by done. simpl in Hb, Hf.
    rewrite u32_small by lia. rewrite IH by (done || lia). f_equal. simpl. lia.
Qed.

Lemma strlen_ok m p s fuel : str_at m p s -> Z.of_nat (length s) < 2 ^ 32 ->
  (length s < fuel)%nat -> strlen fuel m p = Ret (Z.of_nat (length s)).
Proof. intros. unfold strlen. by rewrite (strlen_from_ok s) by (done || lia). Qed.

(** ** Reversal *)
Lemma swap_loop_ok buffer : forall fuel m start end_, byte_mem m -> 0 <= start ->
  -1 <= end_ - start < 2 * Z.of_nat fuel - 1 ->
  exists m', swap_loop fuel m buffer start end_ = Ret m' /\ byte_mem m' /\
    forall c, load8 m' c = if (buffer + start <=? c) && (c <=? buffer + end_)
                           then load8 m (buffer + start + end_ - (c - buffer)) else load8 m c.
Proof.
  induction fuel as [|fuel IH]; intros m start end_ Hm Hs Hf; cbn [swap_loop];
    [lia|]; (destruct (start <? end_) eqn:E; breflect).
  2: exists m; split; [done|]; split; [done|]; intros c;
    destruct ((buffer + start <=? c) && (c <=? buffer + end_)) eqn:Ec; breflect; [|done];
    f_equal; lia.
  edestruct (IH (store8 (store8 m (buffer + start) (load8 m (buffer + end_))) (buffer + end_)
    (load8 m (buffer + start))) (start + 1) (end_ - 1)) as (m' & E1 & Hm' & Hl);
    [auto with rasta|lia|lia|].
  exists m'. split; [done|]. split; [done|]. intros c. rewrite Hl.
  pose proof (load8_byte m (buffer + start) Hm). pose proof (load8_byte m (buffer + end_) Hm).
  unfold is_byte in *.
  destruct ((buffer + (start + 1) <=? c) && (c <=? buffer + (end_ - 1))) eqn:E2;
    destruct ((buffer + start <=? c) && (c <=? buffer + end_)) eqn:E3; breflect; try lia;
    rewrite !load8_store8.
  - rewrite !(proj2 (Z.eqb_neq _ _)) by lia. f_equal. lia.
  - apply andb_false_iff in E2 as [E2|E2]; breflect.
    + assert (c = buffer + start) as -> by lia. rewrite (proj2 (Z.eqb_neq _ _)) by lia.
      rewrite Z.eqb_refl, u8_small by lia. f_equal. lia.
    + assert (c = buffer + end_) as -> by lia. rewrite Z.eqb_refl, u8_small by lia. f_equal. lia.
  - apply andb_false_iff in E3 as [E3|E3]; breflect; rewrite !(proj2 (Z.eqb_neq _ _)) by lia; done.
Qed.

Lemma load_bytes_lookup m p n i : (i < n)%nat -> load_bytes m p n !! i = Some (load8 m (p + Z.of_nat i)).
Proof.
  revert p i. induction n as [|n IH]; intros p i Hi; [lia|]. destruct i as [|i]; simpl.
  - by rewrite Z.add_0_r.
  - rewrite IH by lia. do 2 f_equal. lia.
Qed.

Lemma swap_loop_rev m buffer s fuel : byte_mem m -> str_at m buffer s ->
  (length s < fuel)%nat ->
  exists m', swap_loop fuel m buffer 0 (Z.of_nat (length s) - 1) = Ret m' /\ byte_mem m' /\
    str_at m' buffer (reverse s) /\ same_outside m m' buffer (buffer + Z.of_nat (length s)).
Proof.
  intros Hm [Hb Hc Hn] Hf.
  destruct (swap_loop_ok buffer fuel m 0 (Z.of_nat (length s) - 1)) as (m' & E & Hm' & Hl);
    [done|lia|lia|].
  exists m'. split; [done|]. split; [done|]. rewrite Z.add_0_r in Hl. split.
  - split; rewrite ?length_reverse.
    + apply list_eq. intros i. destruct (decide (i < length s)%nat) as [Hi|Hi].
      * rewrite load_bytes_lookup, reverse_lookup by done.
        transitivity (load_bytes m buffer (length s) !! (length s - Datatypes.S i)%nat);
          [|by rewrite Hb].
        rewrite load_bytes_lookup by lia. f_equal. rewrite Hl.
        rewrite (proj2 (Z.leb_le _ _)), (proj2 (Z.leb_le _ _)) by lia. simpl. f_equal. lia.
      * rewrite !lookup_ge_None_2; [done| |]; rewrite ?length_reverse, ?length_load_bytes; lia.
    + by apply Forall_reverse.
    + rewrite Hl. destruct (_ && _) eqn:E2; breflect; [lia|done].
  - intros c Hcc. rewrite Hl. destruct (_ && _) eqn:E2; breflect; [lia|done].
Qed.

(** ** Numbers *)

(** Digits, least significant first; at least one. *)
Fixpoint digits_le (fuel : nat) (base n : Z) : list Z :=
  match fuel with
  | O => []
  | Datatypes.S fuel =>
      n mod base :: (if n / base =? 0 then [] else digits_le fuel base (n / base))
  end.

(** The digits of a 64-bit number, most significant first, as characters. *)
Definition number_string (base n : Z) : list Z :=
  reverse (map digit_char (digits_le max_digits base n)).

Fixpoint value_le (base : Z) (ds : list Z) : Z :=
  match ds with [] => 0 | d :: ds => d + base * value_le base ds end.

Lemma digits_le_value base : 2 <= base -> forall fuel n, 0 <= n < base ^ Z.of_nat fuel ->
  value_le base (digits_le fuel base n) = n.
Proof.
  intros Hb. induction fuel as [|fuel IH]; intros n Hn.
  { simpl in *. lia. }
  cbn [digits_le value_le]. pose proof (Z.div_mod n base ltac:(lia)).
  assert (0 <= n / base < base ^ Z.of_nat fuel).
  { split; [apply Z.div_pos; lia|]. apply Z.div_lt_upper_bound; [lia|].
    rewrite <- Z.pow_succ_r by lia. replace (Z.succ (Z.of_nat fuel)) with (Z.of_nat (Datatypes.S fuel)) by lia. apply Hn. }
  destruct (n / base =? 0) eqn:E; breflect; simpl.
  - rewrite E in *. lia.
  - rewrite IH by done. lia.
Qed.

Lemma digits_le_range base fuel n : 2 <= base -> Forall (fun d => 0 <= d < base) (digits_le fuel base n).
Proof.
  intros Hb. revert n. induction fuel as [|fuel IH]; intros n; cbn [digits_le]; constructor.
  - apply Z.mod_pos_bound. lia.
  - case_goal; [constructor|apply IH].
Qed.

Lemma digits_le_length base : 2 <= base -> forall k fuel n, 0 <= n < base ^ Z.of_nat (Datatypes.S k) ->
  (length (digits_le fuel base n) <= Datatypes.S k)%nat.
Proof.
  intros Hb. induction k as [|k IH]; intros fuel n Hn; (destruct fuel as [|fuel]; simpl; [lia|]).
  - rewrite Z.div_small; [simpl; lia|]. replace (Z.of_nat 1) with 1 in Hn by lia. lia.
  - destruct (n / base =? 0) eqn:E; simpl; [lia|]. apply le_n_S, IH.
    split; [apply Z.div_pos; lia|]. apply Z.div_lt_upper_bound; [lia|].
    rewrite <- Z.pow_succ_r by lia.
    replace (Z.succ (Z.of_nat (Datatypes.S k))) with (Z.of_nat (Datatypes.S (Datatypes.S k))) by lia.
    apply Hn.
Qed.

Lemma digit_char_ok d : 0 <= d < 36 -> is_char (digit_char d).
Proof. intros. unfold digit_char, is_char. case_goal; lia. Qed.

Lemma digit_chars_ok base fuel n : 2 <= base <= 36 -> Forall is_char (map digit_char (digits_le fuel base n)).
Proof.
  intros Hb. apply Forall_map. eapply Forall_impl; [apply digits_le_range; lia|].
  intros d ?. apply digit_char_ok. simpl in *. lia.
Qed.

Lemma format_loop_S fuel m out size n base ret :
  format_loop (Datatypes.S fuel) m out size n base ret =
  if (ret =? 0) || nz n then
    let '(m, out, size) :=
      if nz size then (store8 m out (digit_char (n mod base)), out + 1, size - 1)
      else (m, out, size) in
    format_loop fuel m out size (n / base) base (ret + 1)
  else Ret (m, out, size, ret).
Proof. done. Qed.

(** Equality of results whose integer components are equal by arithmetic. *)
Ltac tuple_lia :=
  match goal with
  | |- Ret (_, ?b, ?c, ?d) = Ret (_, ?b', ?c', ?d') =>
      replace b' with b by lia; replace c' with c by lia; replace d' with d by lia; reflexivity
  end.

Lemma format_loop_ok base : 2 <= base -> forall fuel m out size n ret,
  0 <= size -> 0 <= n < base ^ Z.of_nat fuel -> 0 <= ret -> ret = 0 \/ n <> 0 ->
  (0 < fuel)%nat ->
  let ds := map digit_char (digits_le fuel base n) in
  let w := take (Z.to_nat size) ds in
  format_loop (Datatypes.S fuel) m out size n base ret =
    Ret (store_bytes m out w, out + Z.of_nat (length w), size - Z.of_nat (length w),
         ret + Z.of_nat (length ds)).
Proof.
  intros Hb. induction fuel as [|fuel IH]; intros m out size n ret Hs Hn Hr Hc Hf ds w; [lia|].
  rewrite format_loop_S. assert ((ret =? 0) || nz n = true) as ->.
  { apply orb_true_iff. destruct Hc as [->|Hc]; [by left|right; by apply nz_true]. }
  assert (0 <= n / base < base ^ Z.of_nat fuel) as Hq.
  { split; [apply Z.div_pos; lia|]. apply Z.div_lt_upper_bound; [lia|].
    rewrite <- Z.pow_succ_r by lia.
    replace (Z.succ (Z.of_nat fuel)) with (Z.of_nat (Datatypes.S fuel)) by lia. apply Hn. }
  unfold w, ds. cbn [digits_le map]. clear w ds.
  assert (forall m1 out1 size1, 0 <= size1 ->
    let t := map digit_char (if n / base =? 0 then [] else digits_le fuel base (n / base)) in
    let v := take (Z.to_nat size1) t in
    format_loop (Datatypes.S fuel) m1 out1 size1 (n / base) base (ret + 1) =
    Ret (store_bytes m1 out1 v, out1 + Z.of_nat (length v), size1 - Z.of_nat (length v),
         ret + 1 + Z.of_nat (length t))) as Hrec.
  { intros m1 out1 size1 Hs1. destruct (n / base =? 0) eqn:E; breflect; cbv zeta.
    - rewrite E, format_loop_S. rewrite (proj2 (Z.eqb_neq (ret + 1) 0)) by lia.
      simpl. rewrite take_nil. simpl. by rewrite !Z.add_0_r, Z.sub_0_r.
    - apply IH; [done|done|lia|by right|]. destruct fuel; [simpl in Hq; lia|lia]. }
  destruct (Z.eq_dec size 0) as [->|Hz].
  - cbn [nz Z.eqb negb]. rewrite Hrec by lia. simpl. tuple_lia.
  - rewrite nz_true by done. rewrite Hrec by lia.
    replace (Z.to_nat size) with (Datatypes.S (Z.to_nat (size - 1))) by lia.
    cbn [take length]. rewrite store_bytes_cons. tuple_lia.
Qed.

Lemma same_outside_store8 m m' lo hi a v :
  same_outside m m' lo hi -> lo <= a < hi -> same_outside m (store8 m' a v) lo hi.
Proof. intros Hs Ha. apply (same_outside_bytes m m' lo hi a [v]); simpl; [done|lia..]. Qed.

(** [format_int] reports the size it needs, and writes the number when it fits. *)
Lemma format_int_ok m buffer size n base : byte_mem m -> 0 <= size -> 2 <= base <= 36 ->
  0 <= n < 2 ^ 64 ->
  let s := number_string base n in
  exists m', format_int m buffer size n base = Ret (m', Z.of_nat (length s) + 1) /\ byte_mem m' /\
    (Z.of_nat (length s) + 1 <= size -> str_at m' buffer s /\
       same_outside m m' buffer (buffer + Z.of_nat (length s) + 1)) /\
    same_outside m m' buffer (buffer + size).
Proof.
  intros Hm Hs Hb Hn s. unfold format_int.
  set (m0 := if nz size then store8 m buffer 0 else m).
  set (ds := map digit_char (digits_le max_digits base n)).
  assert (length s = length ds) as Hls by (apply length_reverse).
  assert (0 <= n < base ^ Z.of_nat max_digits) as Hn'.
  { split; [lia|]. eapply Z.lt_le_trans; [apply Hn|].
    etransitivity; [|apply Z.pow_le_mono_l with (a := 2); lia]. done. }
  change (format_loop digits_fuel) with (format_loop (Datatypes.S max_digits)).
  rewrite (format_loop_ok base) by (done || lia || (unfold max_digits; lia)). fold ds. cbn [mbind outcome_bind].
  assert (byte_mem m0) as Hm0 by (unfold m0; case_goal; auto with rasta).
  assert (same_outside m m0 buffer (buffer + size)) as Hs0.
  { unfold m0, nz. destruct (size =? 0) eqn:E; breflect; simpl; [done|].
    apply same_outside_store8; [done|lia]. }
  rewrite length_take. replace (Z.of_nat (length s) + 1) with (0 + Z.of_nat (length ds) + 1) by lia.
  destruct (Z.le_gt_cases (Z.of_nat (length ds) + 1) size) as [Hfit|Hfit].
  - rewrite nz_true by lia. rewrite take_ge by lia.
    replace (Z.of_nat (Nat.min (Z.to_nat size) (length ds))) with (Z.of_nat (length ds)) by lia.
    set (m1 := store8 (store_bytes m0 buffer ds) (buffer + Z.of_nat (length ds)) 0).
    assert (byte_mem m1) as Hm1 by (unfold m1; auto with rasta).
    assert (str_at m1 buffer ds) as Hstr by (apply str_at_store, digit_chars_ok; lia).
    assert (length ds <= 64)%nat as Hlen.
    { unfold ds. rewrite length_map. apply (digits_le_length base ltac:(lia) 63). split; [lia|].
      eapply Z.lt_le_trans; [apply Hn|]. etransitivity; [|apply Z.pow_le_mono_l with (a := 2); lia]. done. }
    assert (forall hi, buffer + Z.of_nat (length ds) < hi -> same_outside m0 m1 buffer hi) as Hso.
    { intros hi Hhi. apply same_outside_store8; [|lia]. apply same_outside_bytes; [done|lia|lia]. }
    unfold strreverse. rewrite (proj2 (Z.eqb_eq _ _)) by done.
    rewrite (strlen_ok _ _ _ _ Hstr) by (unfold digits_fuel, max_digits; lia). cbn [mbind outcome_bind].
    rewrite s32_small by lia.
    destruct (swap_loop_rev m1 buffer ds digits_fuel) as (m' & -> & Hm' & Hstr' & Hso');
      [done|done|unfold digits_fuel, max_digits; lia|].
    cbn [mbind outcome_bind]. exists m'. split; [done|]. split; [done|]. split.
    + intros _. split; [done|]. rewrite Hls.
      eapply same_outside_trans; [|eapply same_outside_trans; [apply (Hso (buffer + Z.of_nat (length ds) + 1)); lia|]].
      * unfold m0. rewrite nz_true by lia. apply same_outside_store8; [done|lia].
      * eapply same_outside_widen; [done|lia|lia].
    + eapply same_outside_trans; [done|]. eapply same_outside_trans; [apply Hso; lia|].
      eapply same_outside_widen; [done|lia|lia].
  - rewrite nz_false by lia. cbn [mbind outcome_bind].
    exists (store_bytes m0 buffer (take (Z.to_nat size) ds)). split; [done|].
    split; [auto with rasta|]. split; [lia|].
    eapply same_outside_trans; [done|]. apply same_outside_bytes; [done|lia|].
    rewrite length_take. lia.
Qed.
