(* ===== verification/StrSpec.v ===== *)
(** Theorems about the routines of [common/string.c] modelled in [Str.v]. *)
From S2P Require Import Prelude Mem Str.

(** ** Hexadecimal round trip *)
Lemma hex_value_digit d : 0 <= d < 16 -> hex_value (s8 (digit_char d)) = Some d.
Proof.
  intros Hd. unfold digit_char. destruct (d <? 10) eqn:E; breflect;
    rewrite (swrap_small 8) by (try done; lia); unfold hex_value.
  - rewrite !(proj2 (Z.leb_le _ _)) by lia. simpl. f_equal. lia.
  - rewrite (proj2 (Z.leb_gt (65 + (d - 10)) 57)) by lia. rewrite andb_false_r.
    rewrite (proj2 (Z.leb_gt 97 _)) by lia. simpl.
    rewrite !(proj2 (Z.leb_le _ _)) by lia. simpl. f_equal. lia.
Qed.

Lemma lor_shift4 res d : 0 <= res < 2 ^ 28 -> 0 <= d < 16 ->
  Z.lor (u32 (Z.shiftl res 4)) d = 16 * res + d.
Proof.
  intros Hr Hd. rewrite u32_small by (rewrite Z.shiftl_mul_pow2 by lia; lia).
  rewrite lor_shiftl_add by lia. lia.
Qed.

(** The value of a string of digits, most significant first. *)
Definition value_be (base : Z) (ds : list Z) : Z := fold_left (fun r d => base * r + d) ds 0.

Lemma value_be_snoc base ds d : value_be base (ds ++ [d]) = base * value_be base ds + d.
Proof. unfold value_be. by rewrite fold_left_app. Qed.

Lemma value_be_reverse base ds : value_be base (reverse ds) = value_le base ds.
Proof.
  induction ds as [|d ds IH]; [done|]. rewrite reverse_cons, value_be_snoc, IH. simpl. lia.
Qed.

Lemma value_be_from base ds r : fold_left (fun r d => base * r + d) ds r
  = base ^ Z.of_nat (length ds) * r + value_be base ds.
Proof.
  revert r. induction ds as [|d ds IH] using rev_ind; intros r.
  - unfold value_be. simpl. lia.
  - rewrite fold_left_app, length_app, value_be_snoc, IH. simpl length.
    replace (Z.of_nat (length ds + 1)) with (Z.succ (Z.of_nat (length ds))) by lia.
    rewrite Z.pow_succ_r by lia. simpl. lia.
Qed.

Lemma value_be_cons base d ds : value_be base (d :: ds) = base ^ Z.of_nat (length ds) * d + value_be base ds.
Proof.
  unfold value_be at 1. cbn [fold_left]. rewrite value_be_from. f_equal. lia.
Qed.

Lemma value_be_range base ds : 2 <= base -> Forall (fun d => 0 <= d < base) ds ->
  0 <= value_be base ds < base ^ Z.of_nat (length ds).
Proof.
  intros Hb. induction ds as [|d ds IH] using rev_ind; intros Hd; [done|].
  rewrite value_be_snoc, length_app. apply Forall_app in Hd as [Hds Hd].
  apply Forall_inv in Hd. apply IH in Hds. simpl length.
  replace (Z.of_nat (length ds + 1)) with (Z.succ (Z.of_nat (length ds))) by lia.
  rewrite Z.pow_succ_r by lia. nia.
Qed.

Lemma xtoa_loop_ok : forall ds k m p res, Forall (fun d => 0 <= d < 16) ds ->
  str_at m p (map digit_char ds) -> (length ds <= k)%nat ->
  0 <= res -> 16 ^ Z.of_nat (length ds) * res + value_be 16 ds < 2 ^ 32 ->
  xtoa_loop k m p res = 16 ^ Z.of_nat (length ds) * res + value_be 16 ds.
Proof.
  induction ds as [|d ds IH]; intros k m p res Hd Hs Hk Hr Hb.
  - apply str_at_nil in Hs. destruct k; cbn [xtoa_loop]; rewrite ?Hs; simpl; unfold value_be; simpl; lia.
  - destruct k as [|k]; [simpl in Hk; lia|]. cbn [map] in Hs.
    apply str_at_cons in Hs as (Hl & Hc & Hs). cbn [xtoa_loop]. rewrite Hl, char_nz by done.
    apply Forall_cons in Hd as [Hd Hds]. rewrite hex_value_digit by done.
    rewrite value_be_cons in *. cbn [length] in *.
    replace (Z.of_nat (S (length ds))) with (Z.succ (Z.of_nat (length ds))) in * by lia.
    rewrite Z.pow_succ_r in * by lia.
    pose proof (value_be_range 16 ds ltac:(lia) Hds).
    assert (0 < 16 ^ Z.of_nat (length ds)) by lia.
    rewrite lor_shift4; [|nia|done]. rewrite IH; [nia|done|done|lia|lia|nia].
Qed.

(** [itox] followed by [xtoa] is the identity on 32-bit integers: the buffer of 9
    bytes is always large enough, [itox] returns the number of bytes written
    (terminator included), writes nothing outside the buffer, and the string reads back
    as the number. *)
Theorem xtoa_itox (m : mem) (str n : Z) :
  byte_mem m -> 0 <= n < 2 ^ 32 ->
  exists m' s, itox m str n = Ret (m', Z.of_nat (length s) + 1) /\ str_at m' str s /\
    (1 <= length s <= 8)%nat /\ same_outside m m' str (str + 9) /\ xtoa m' str = n.
Proof.
  intros Hm Hn. unfold itox.
  destruct (format_int_ok m str 9 n 16) as (m' & -> & _ & Hfit & Hso); [done|lia|lia|lia|].
  cbn [mbind outcome_bind]. exists m', (number_string 16 n). split; [done|].
  assert (length (number_string 16 n) <= 8)%nat as Hlen.
  { unfold number_string. rewrite length_reverse, length_map. by apply (digits_le_length 16 ltac:(lia) 7). }
  destruct Hfit as [Hstr _]; [lia|]. split; [done|].
  split.
  { split; [|done]. unfold number_string. rewrite length_reverse, length_map. unfold max_digits.
    remember 64%nat as k eqn:Ek. cbn [digits_le length]. lia. }
  split; [done|]. unfold xtoa, number_string in *. rewrite <- (fmap_reverse digit_char) in Hstr.
  assert (value_be 16 (reverse (digits_le max_digits 16 n)) = n) as Hv.
  { rewrite value_be_reverse. apply digits_le_value; [lia|]. split; [lia|].
    eapply Z.lt_trans; [apply Hn|]. done. }
  rewrite length_reverse, length_map in Hlen.
  rewrite (xtoa_loop_ok (reverse (digits_le max_digits 16 n))); [lia| |done| |lia|lia].
  - apply Forall_reverse, digits_le_range. lia.
  - by rewrite length_reverse.
Qed.

Lemma xtoa_itox_witness : exists m' s, itox ∅ 0x1000 0xC0100000 = Ret (m', Z.of_nat (length s) + 1) /\
  str_at m' 0x1000 s /\ xtoa m' 0x1000 = 0xC0100000.
Proof.
  destruct (xtoa_itox ∅ 0x1000 0xC0100000) as (m' & s & E & Hs & _ & _ & Hx);
    [exact empty_byte_mem|lia|].
  exists m', s. split; [exact E|]. split; [exact Hs|exact Hx].
Defined.

(** ** Copying *)
Lemma copy_up_ok : forall n m d s, byte_mem m -> ~ (s < d < s + Z.of_nat n) ->
  byte_mem (copy_up n m d s) /\
  forall c, load8 (copy_up n m d s) c =
    if (d <=? c) && (c <? d + Z.of_nat n) then load8 m (s + (c - d)) else load8 m c.
Proof.
  induction n as [|n IH]; intros m d s Hm Hd; cbn [copy_up].
  - split; [done|]. intros c. destruct (_ && _) eqn:E; breflect; [lia|done].
  - destruct (IH (store8 m d (load8 m s)) (d + 1) (s + 1)) as [Hm' Hl]; [auto with rasta|lia|].
    split; [done|]. intros c. rewrite Hl, !load8_store8.
    pose proof (load8_byte m s Hm). unfold is_byte in *.
    destruct ((d + 1 <=? c) && (c <? d + 1 + Z.of_nat n)) eqn:E1;
      destruct ((d <=? c) && (c <? d + Z.of_nat (S n))) eqn:E2; breflect_cases; try lia;
      case_goal; breflect; try lia; try (f_equal; lia); try done;
      rewrite u8_small by lia; f_equal; lia.
Qed.

Lemma copy_down_ok : forall n m d s, byte_mem m -> s < d ->
  byte_mem (copy_down n m d s) /\
  forall c, load8 (copy_down n m d s) c =
    if (d - Z.of_nat n <=? c) && (c <? d) then load8 m (s + (c - d)) else load8 m c.
Proof.
  induction n as [|n IH]; intros m d s Hm Hd; cbn [copy_down].
  - split; [done|]. intros c. destruct (_ && _) eqn:E; breflect; [lia|done].
  - destruct (IH (store8 m (d - 1) (load8 m (s - 1))) (d - 1) (s - 1)) as [Hm' Hl];
      [auto with rasta|lia|].
    split; [done|]. intros c. rewrite Hl, !load8_store8.
    pose proof (load8_byte m (s - 1) Hm). unfold is_byte in *.
    destruct ((d - 1 - Z.of_nat n <=? c) && (c <? d - 1)) eqn:E1;
      destruct ((d - Z.of_nat (S n) <=? c) && (c <? d)) eqn:E2; breflect_cases; try lia;
      case_goal; breflect; try lia; try (f_equal; lia); try done;
      rewrite u8_small by lia; f_equal; lia.
Qed.

Lemma memcpy_load8 m dest source size : byte_mem m -> 0 <= size ->
  byte_mem (memcpy m dest source size) /\
  forall c, load8 (memcpy m dest source size) c =
    if (dest <=? c) && (c <? dest + size) then load8 m (source + (c - dest)) else load8 m c.
Proof.
  intros Hm Hs. unfold memcpy. destruct ((source <? dest) && _) eqn:E; breflect.
  - destruct (copy_down_ok (Z.to_nat size) m (dest + size) (source + size)) as [H1 H2]; [done|lia|].
    split; [done|]. intros c. rewrite H2. rewrite Z2Nat.id by lia.
    replace (dest + size - size) with dest by lia.
    destruct (_ && _); [f_equal; lia|done].
  - destruct (copy_up_ok (Z.to_nat size) m dest source) as [H1 H2]; [done|breflect_cases; lia|].
    split; [done|]. intros c. rewrite H2. by rewrite Z2Nat.id by lia.
Qed.

(** [memcpy] copies correctly for every placement of the two ranges, overlapping or
    not (it picks the direction): afterwards the destination holds the bytes the source
    held before, and no other byte has changed. *)
Theorem memcpy_spec (m : mem) (dest source size : Z) : byte_mem m -> 0 <= size ->
  load_bytes (memcpy m dest source size) dest (Z.to_nat size)
    = load_bytes m source (Z.to_nat size) /\
  same_outside m (memcpy m dest source size) dest (dest + size).
Proof.
  intros Hm Hs.
  destruct (memcpy_load8 m dest source size Hm Hs) as [_ Hl].
  split.
  - apply list_eq. intros i. destruct (decide (i < Z.to_nat size)%nat).
    + rewrite !load_bytes_lookup by done. f_equal. rewrite Hl.
      rewrite (proj2 (Z.leb_le _ _)), (proj2 (Z.ltb_lt _ _)) by lia. simpl. f_equal. lia.
    + rewrite !lookup_ge_None_2 by (rewrite length_load_bytes; lia). done.
  - intros c Hc. rewrite Hl. destruct (_ && _) eqn:E; breflect; [lia|done].
Qed.

Lemma memcpy_spec_witness :
  load_bytes (memcpy (store_bytes ∅ 10 [1; 2; 3; 4]) 12 10 4) 12 (Z.to_nat 4) = [1; 2; 3; 4].
Proof.
  destruct (memcpy_spec (store_bytes ∅ 10 [1; 2; 3; 4]) 12 10 4) as [-> _];
    [auto with rasta|lia|reflexivity].
Defined.

(** ** Comparison *)
Lemma memcmp_loop_ok m : forall n p0 p1,
  (memcmp_loop n m p0 p1 = 0 <-> load_bytes m p0 n = load_bytes m p1 n).
Proof.
  induction n as [|n IH]; intros p0 p1; cbn [memcmp_loop load_bytes]; [done|].
  destruct (load8 m p0 =? load8 m p1) eqn:E; breflect; cbn [negb].
  - rewrite IH, E. split; [by intros ->|by intros [= ->]].
  - split; [lia|]. intros [= ? _]. lia.
Qed.

Lemma s8_inj a b : 0 <= a < 256 -> 0 <= b < 256 -> s8 a = s8 b -> a = b.
Proof.
  intros Ha Hb E. rewrite <- (u8_small a), <- (u8_small b) by done.
  by rewrite <- (wrap_swrap 8 a), <- (wrap_swrap 8 b), E by lia.
Qed.

Lemma strcmp_ok m : byte_mem m -> forall s0 s1 p0 p1 fuel, str_at m p0 s0 -> str_at m p1 s1 ->
  (length s0 < fuel)%nat -> exists r, strcmp fuel m p0 p1 = Ret r /\ (r = 0 <-> s0 = s1).
Proof.
  intros Hm. induction s0 as [|c0 s0 IH]; intros s1 p0 p1 fuel H0 H1 Hf;
    (destruct fuel as [|fuel]; [simpl in Hf; lia|]); cbn [strcmp].
  - apply str_at_nil in H0. rewrite H0. cbn [nz Z.eqb negb orb]. eexists. split; [done|].
    destruct s1 as [|c1 s1].
    + apply str_at_nil in H1. rewrite H1. done.
    + apply str_at_cons in H1 as (H1 & Hc & _). rewrite H1. unfold is_char in Hc.
      split; [|done]. intros E. assert (c1 = 0); [|lia]. apply s8_inj; [lia|lia|]. lia.
  - apply str_at_cons in H0 as (H0 & Hc0 & H0'). rewrite H0, char_nz by done. cbn [negb orb].
    unfold is_char in Hc0. simpl in Hf. destruct s1 as [|c1 s1].
    + apply str_at_nil in H1. rewrite H1. rewrite (proj2 (Z.eqb_neq _ _)) by lia. cbn [negb].
      eexists. split; [done|]. split; [|done]. intros E. assert (c0 = 0); [|lia].
      apply s8_inj; [lia|lia|]. change (s8 0) with 0 in *. lia.
    + apply str_at_cons in H1 as (H1 & Hc1 & H1'). rewrite H1. unfold is_char in Hc1.
      destruct (c0 =? c1) eqn:E; breflect; cbn [negb].
      * destruct (IH s1 (p0 + 1) (p1 + 1) fuel H0' H1') as (r & -> & Hr); [lia|].
        exists r. split; [done|]. rewrite Hr. split; [by intros ->; f_equal|by intros [= _ ->]].
      * eexists. split; [done|]. split; [|by intros [= ? _]]. intros E2. destruct E.
        apply s8_inj; [lia|lia|]. lia.
Qed.

(** [strcmp] and [memcmp] decide equality: [strcmp] on two C strings returns 0 exactly
    when they are the same string, and [memcmp] exactly when the two ranges hold the same
    bytes; otherwise [memcmp] returns the second byte minus the first at the first
    difference (the opposite sign of the C library's). *)
Theorem compare_spec (m : mem) (p0 p1 : Z) (s0 s1 : list Z) (fuel : nat) (size : Z) :
  byte_mem m -> str_at m p0 s0 -> str_at m p1 s1 -> (length s0 < fuel)%nat -> 0 <= size ->
  (exists r, strcmp fuel m p0 p1 = Ret r /\ (r = 0 <-> s0 = s1)) /\
  (memcmp m p0 p1 size = 0 <->
     load_bytes m p0 (Z.to_nat size) = load_bytes m p1 (Z.to_nat size)) /\
  (forall i, 0 <= i < size ->
     load_bytes m p0 (Z.to_nat i) = load_bytes m p1 (Z.to_nat i) ->
     load8 m (p0 + i) <> load8 m (p1 + i) ->
     memcmp m p0 p1 size = load8 m (p1 + i) - load8 m (p0 + i)).
Proof.
  intros Hm H0 H1 Hf Hs. split; [by eapply strcmp_ok|].
  unfold memcmp. destruct (size =? 0) eqn:E; breflect.
  { subst. split; [done|]. intros. lia. }
  split; [apply memcmp_loop_ok|].
  intros i Hi Heq Hne. clear -Hi Heq Hne. revert p0 p1 size Hi Heq Hne.
  assert (forall k n p0 p1, (k < n)%nat -> load_bytes m p0 k = load_bytes m p1 k ->
    load8 m (p0 + Z.of_nat k) <> load8 m (p1 + Z.of_nat k) ->
    memcmp_loop n m p0 p1 = load8 m (p1 + Z.of_nat k) - load8 m (p0 + Z.of_nat k)) as Hk.
  { induction k as [|k IH]; intros n p0 p1 Hn Heq Hne; (destruct n as [|n]; [lia|]); cbn [memcmp_loop].
    - simpl in *. rewrite !Z.add_0_r in *. by rewrite (proj2 (Z.eqb_neq _ _)).
    - cbn [load_bytes] in Heq. injection Heq as E1 E2. rewrite E1, Z.eqb_refl. cbn [negb].
      rewrite Nat2Z.inj_succ in *.
      replace (p0 + Z.succ (Z.of_nat k)) with (p0 + 1 + Z.of_nat k) in * by lia.
      replace (p1 + Z.succ (Z.of_nat k)) with (p1 + 1 + Z.of_nat k) in * by lia.
      apply IH; [lia|done|done]. }
  intros p0 p1 size Hi Heq Hne. specialize (Hk (Z.to_nat i) (Z.to_nat size) p0 p1).
  rewrite Z2Nat.id in Hk by lia. apply Hk; [lia|done|done].
Qed.

Lemma compare_spec_witness :
  let m := store_bytes (store_bytes ∅ 10 [65; 66; 0]) 20 [65; 67; 0] in
  (exists r, strcmp 5 m 10 20 = Ret r /\ (r = 0 <-> [65; 66] = [65; 67])) /\
  memcmp m 10 20 2 = 1.
Proof.
  intros m.
  destruct (compare_spec m 10 20 [65; 66] [65; 67] 5 2) as (H1 & _ & H3).
  - unfold m. auto with rasta.
  - split; [reflexivity| |reflexivity]. repeat (apply Forall_cons; split); try done; unfold is_char; lia.
  - split; [reflexivity| |reflexivity]. repeat (apply Forall_cons; split); try done; unfold is_char; lia.
  - simpl. lia.
  - lia.
  - split; [exact H1|]. apply (H3 1); [lia|reflexivity|]. vm_compute. discriminate.
Defined.

(** ** Bounded copy and concatenation *)
Lemma chars_bytes s : Forall is_char s -> Forall is_byte s.
Proof. intros H. eapply Forall_impl; [done|]. unfold is_char, is_byte. intros; simpl in *; lia. Qed.

Lemma strlcpy_loop_ok : forall s m dst src siz fuel, byte_mem m -> str_at m src s ->
  dst + siz <= src \/ src + Z.of_nat (length s) < dst -> 1 <= siz -> (length s < fuel)%nat ->
  let t := take (Z.to_nat (siz - 1)) s in
  strlcpy_loop fuel m dst src siz = Ret (store_bytes m dst t, dst + Z.of_nat (length t)).
Proof.
  induction s as [|c s IH]; intros m dst src siz fuel Hm Hs Hd Hz Hf t;
    (destruct fuel as [|fuel]; [simpl in Hf; lia|]); cbn [strlcpy_loop]; unfold t; clear t.
  - apply str_at_nil in Hs. rewrite Hs, take_nil. simpl. rewrite andb_false_r.
    simpl. by rewrite Z.add_0_r.
  - destruct (1 <? siz) eqn:E; breflect; cbn [andb].
    + pose proof Hs as Hs0. apply str_at_cons in Hs0 as (Hl & Hc & Hs'). rewrite Hl, char_nz by done.
      replace (Z.to_nat (siz - 1)) with (S (Z.to_nat (siz - 1 - 1))) by lia.
      cbn [take length] in *. rewrite store_bytes_cons.
      rewrite IH; [|auto with rasta| |lia|lia|lia].
      * do 2 f_equal. lia.
      * eapply (str_at_frame m _ dst (dst + 1)); [apply same_outside_store8; [done|lia]|lia|done].
    + replace (Z.to_nat (siz - 1)) with 0%nat by lia. simpl. by rewrite Z.add_0_r.
Qed.

Lemma strlcpy_ok m dst src siz s fuel : byte_mem m -> str_at m src s ->
  dst + siz <= src \/ src + Z.of_nat (length s) < dst -> 1 <= siz -> (length s < fuel)%nat ->
  exists m', strlcpy fuel m dst src siz = Ret m' /\
    str_at m' dst (take (Z.to_nat (siz - 1)) s) /\ same_outside m m' dst (dst + siz).
Proof.
  intros Hm Hs Hd Hz Hf. unfold strlcpy. rewrite (strlcpy_loop_ok s) by done.
  cbn [mbind outcome_bind]. eexists. split; [done|]. split.
  - apply str_at_store, Forall_take. apply (sa_chars _ _ _ Hs).
  - apply same_outside_store8; [apply same_outside_bytes; [done|lia|]|]; rewrite length_take; lia.
Qed.

Lemma skip_loop_ok m : forall s dst siz fuel, str_at m dst s -> Z.of_nat (length s) < siz ->
  (length s < fuel)%nat ->
  skip_loop fuel m dst siz = Ret (dst + Z.of_nat (length s), siz - Z.of_nat (length s)).
Proof.
  induction s as [|c s IH]; intros dst siz fuel Hs Hz Hf;
    (destruct fuel as [|fuel]; [simpl in Hf; lia|]); cbn [skip_loop].
  - apply str_at_nil in Hs. rewrite Hs. simpl. by rewrite Z.add_0_r, Z.sub_0_r.
  - apply str_at_cons in Hs as (Hl & Hc & Hs). rewrite Hl, char_nz, nz_true by (done || lia).
    cbn [andb length] in *. rewrite IH by (done || lia). do 2 f_equal; lia.
Qed.

Lemma str_at_app m p s t : load_bytes m p (length s) = s -> Forall is_char s ->
  str_at m (p + Z.of_nat (length s)) t -> str_at m p (s ++ t).
Proof.
  intros Hb Hc [Hb2 Hc2 Hn]. split; rewrite ?length_app.
  - by rewrite load_bytes_app, Hb, Hb2.
  - by apply Forall_app.
  - rewrite <- Hn. f_equal. lia.
Qed.

(** [strlcpy] and [strlcat] truncate to the size of the destination: with a
    destination of [siz] bytes that does not overlap the source, they leave a terminated
    string, the longest prefix of the source (appended, for [strlcat]) that fits, and
    change no byte outside the destination. *)
Theorem strl_spec (m : mem) (dst src siz : Z) (d s : list Z) (fuel : nat) :
  byte_mem m -> str_at m src s -> str_at m dst d ->
  dst + siz <= src \/ src + Z.of_nat (length s) < dst -> Z.of_nat (length d) < siz ->
  (length s < fuel)%nat -> (length d < fuel)%nat ->
  (exists m', strlcpy fuel m dst src siz = Ret m' /\
     str_at m' dst (take (Z.to_nat (siz - 1)) s) /\ same_outside m m' dst (dst + siz)) /\
  (exists m', strlcat fuel m dst src siz = Ret m' /\
     str_at m' dst (d ++ take (Z.to_nat (siz - 1) - length d) s) /\
     same_outside m m' dst (dst + siz)).
Proof.
  intros Hm Hs Hd Hdis Hz Hf Hf2. split; [apply strlcpy_ok; (done || lia)|].
  unfold strlcat. rewrite (skip_loop_ok m d) by done. cbn [mbind outcome_bind].
  rewrite (strlcpy_loop_ok s) by (done || lia). cbn [mbind outcome_bind].
  eexists. split; [done|].
  replace (Z.to_nat (siz - Z.of_nat (length d) - 1)) with (Z.to_nat (siz - 1) - length d)%nat by lia.
  set (t := take (Z.to_nat (siz - 1) - length d) s).
  assert (Z.of_nat (length t) <= siz - 1 - Z.of_nat (length d)) as Ht.
  { unfold t. rewrite length_take. lia. }
  assert (Forall is_char t) as Htc by (apply Forall_take, (sa_chars _ _ _ Hs)).
  split.
  - apply str_at_app; [|apply (sa_chars _ _ _ Hd)|by apply str_at_store].
    etransitivity; [|apply (sa_bytes _ _ _ Hd)]. apply load_bytes_ext. intros b Hb.
    rewrite load8_store8, (proj2 (Z.eqb_neq _ _)) by lia. rewrite load8_store_bytes_out by lia. done.
  - apply same_outside_store8; [apply same_outside_bytes; [done|lia|lia]|lia].
Qed.

Lemma strl_spec_witness :
  let m := store_bytes (store_bytes ∅ 100 [65; 66; 67; 0]) 200 [88; 0] in
  exists m', strlcat 10 m 200 100 4 = Ret m' /\ str_at m' 200 [88; 65; 66].
Proof.
  intros m.
  destruct (strl_spec m 200 100 4 [88] [65; 66; 67] 10) as [_ (m' & E & Hs & _)].
  - unfold m. auto with rasta.
  - split; [reflexivity| |reflexivity]. repeat (apply Forall_cons; split); try done; unfold is_char; lia.
  - split; [reflexivity| |reflexivity]. repeat (apply Forall_cons; split); try done; unfold is_char; lia.
  - simpl. lia.
  - simpl. lia.
  - simpl. lia.
  - simpl. lia.
  - exists m'. split; [exact E|exact Hs].
Defined.

(** ** Formatting

    The text a format string stands for, independently of the buffers and loops that
    produce it. *)
Definition arg_ok (a : va_arg) : Prop :=
  match a with
  | AInt v => 0 <= v < 2 ^ 32
  | ALong v => 0 <= v < 2 ^ 64
  | AStr s => Forall is_char s
  end.

Definition text_number (base l width leading_zero : Z) (args : list va_arg)
    : option (list Z * list va_arg) :=
  match fetch_number l args with
  | Ret (v, args) =>
      let s := number_string base v in
      Some (pad leading_zero width (Z.of_nat (length s)) ++ s, args)
  | Fault _ => None
  end.

Fixpoint text_conv (fmt : list Z) (l width leading_zero : Z) (args : list va_arg)
    : option (list Z * list Z * list va_arg) :=
  match fmt with
  | [] => None
  | c :: fmt =>
      if (c =? 100) || (c =? 117) then
        '(t, args) ← text_number 10 l width leading_zero args; Some (t, fmt, args)
      else if c =? 115 then
        match args with AStr s :: args => Some (s, fmt, args) | _ => None end
      else if (c =? 88) || (c =? 120) then
        '(t, args) ← text_number 16 l width leading_zero args; Some (t, fmt, args)
      else if (c =? 112) || (c =? 80) then
        '(t, args) ← text_number 16 l 0 0 args; Some ([48; 120] ++ t, fmt, args)
      else if c =? 108 then text_conv fmt (l + 1) width leading_zero args
      else if (c =? 48) && (width =? 0) then text_conv fmt l width (leading_zero + 1) args
      else if (48 <=? c) && (c <=? 57) then
        text_conv fmt l (if width =? 0 then c - 48 else s32 (s32 (width * 10) + (c - 48)))
          leading_zero args
      else '(t, fmt, args) ← text_conv fmt l width leading_zero args; Some (c :: t, fmt, args)
  end.

Fixpoint text (fuel : nat) (fmt : list Z) (args : list va_arg) : option (list Z) :=
  match fuel with
  | O => None
  | S fuel =>
      match fmt with
      | [] => Some []
      | c :: fmt =>
          if c =? 37 then
            '(t, fmt, args) ← text_conv fmt 0 0 0 args; r ← text fuel fmt args; Some (t ++ r)
          else r ← text fuel fmt args; Some (c :: r)
      end
  end.

(** The text of a whole call. *)
Definition text_of (fmt : list Z) (args : list va_arg) : option (list Z) :=
  text (S (length fmt)) fmt args.

Lemma buffer_string_ok m : forall s p fuel, str_at m p s -> (length s < fuel)%nat ->
  buffer_string fuel m p = s.
Proof.
  induction s as [|c s IH]; intros p fuel Hs Hf;
    (destruct fuel as [|fuel]; [simpl in Hf; lia|]); cbn [buffer_string].
  - apply str_at_nil in Hs. by rewrite Hs.
  - apply str_at_cons in Hs as (-> & Hc & Hs). rewrite char_nz by done. simpl in Hf.
    by rewrite IH by (done || lia).
Qed.

Lemma number_string_ok base n : 10 <= base <= 36 -> 0 <= n < 2 ^ 64 ->
  Forall is_char (number_string base n) /\ (length (number_string base n) <= 20)%nat.
Proof.
  intros Hb Hn. unfold number_string. split; [apply Forall_reverse, digit_chars_ok; lia|].
  rewrite length_reverse, length_map. apply (digits_le_length base ltac:(lia) 19).
  split; [lia|]. eapply Z.lt_le_trans; [apply Hn|].
  etransitivity; [|apply Z.pow_le_mono_l with (a := 10); lia].
  apply Z.leb_le. vm_compute. reflexivity.
Qed.

Section formatv_proofs.
Context {T : Type} (callback : Z -> T -> T).

Definition emit_all (s : list Z) (st : T) : T := fold_left (fun st c => callback (s8 c) st) s st.

Lemma emit_ok s st ret : emit callback s st ret = (emit_all s st, ret + Z.of_nat (length s)).
Proof.
  revert st ret. induction s as [|c s IH]; intros st ret; cbn [emit length].
  - by rewrite Z.add_0_r.
  - rewrite IH. cbn [emit_all fold_left]. f_equal. lia.
Qed.

Lemma emit_all_cons c s st : emit_all (c :: s) st = emit_all s (callback (s8 c) st).
Proof. done. Qed.

Lemma emit_all_app s t st : emit_all (s ++ t) st = emit_all t (emit_all s st).
Proof. apply fold_left_app. Qed.

Lemma fetch_ok l args v args' : Forall arg_ok args -> fetch_number l args = Ret (v, args') ->
  0 <= v < 2 ^ 64 /\ Forall arg_ok args'.
Proof.
  intros Ha. unfold fetch_number. destruct Ha as [|[w|w|s] args Hw Ha]; [done| | |done];
    destruct (l <? 2); try done; intros [= <- <-]; cbn [arg_ok] in Hw; (split; [lia|done]).
Qed.

Lemma conv_number_ok base l width lz args st ret : 10 <= base <= 36 -> Forall arg_ok args ->
  conv_number callback base l width lz args st ret =
  match text_number base l width lz args with
  | Some (t, args') => Ret (args', emit_all t st, ret + Z.of_nat (length t))
  | None => Fault FMem
  end.
Proof.
  intros Hb Ha. unfold conv_number, text_number.
  destruct (fetch_number l args) as [[v args']|f] eqn:Ef; cbn [mbind outcome_bind].
  - destruct (fetch_ok _ _ _ _ Ha Ef) as [Hv _].
    destruct (number_string_ok base v Hb Hv) as [Hc Hlen].
    destruct (format_int_ok ∅ 0 64 v base) as (m' & -> & _ & Hfit & _); [auto with rasta|lia|lia|done|].
    destruct Hfit as [Hs _]; [lia|]. cbn [mbind outcome_bind].
    rewrite (strlen_ok _ _ _ _ Hs) by lia. cbn [mbind outcome_bind]. rewrite emit_ok.
    rewrite (buffer_string_ok _ _ _ _ Hs) by lia. rewrite emit_ok, emit_all_app, length_app.
    do 2 f_equal. lia.
  - unfold fetch_number in Ef. repeat case_hyp Ef; congruence.
Qed.

Lemma conv_pointer_ok l args st ret : Forall arg_ok args ->
  conv_pointer callback l args st ret =
  match text_number 16 l 0 0 args with
  | Some (t, args') => Ret (args', emit_all ([48; 120] ++ t) st, ret + Z.of_nat (length ([48; 120] ++ t)))
  | None => Fault FMem
  end.
Proof.
  intros Ha. unfold conv_pointer, text_number.
  destruct (fetch_number l args) as [[v args']|f] eqn:Ef; cbn [mbind outcome_bind].
  - destruct (fetch_ok _ _ _ _ Ha Ef) as [Hv _].
    destruct (number_string_ok 16 v ltac:(lia) Hv) as [Hc Hlen].
    destruct (format_int_ok (store_bytes ∅ 0 [48; 120; 0]) 2 62 v 16) as (m' & -> & _ & Hfit & _);
      [auto with rasta|lia|lia|done|].
    destruct Hfit as [Hs Hso]; [lia|]. cbn [mbind outcome_bind pad nz Z.eqb negb andb app].
    assert (str_at m' 0 ([48; 120] ++ number_string 16 v)) as Hs'.
    { apply str_at_app; [|repeat (apply Forall_cons; split); try done; unfold is_char; lia|done].
      cbn [length load_bytes]. by rewrite !Hso by lia. }
    rewrite (buffer_string_ok _ _ _ _ Hs') by (rewrite length_app; simpl; lia).
    by rewrite emit_ok.
  - unfold fetch_number in Ef. repeat case_hyp Ef; congruence.
Qed.

Lemma text_number_args base l width lz args t args' : Forall arg_ok args ->
  text_number base l width lz args = Some (t, args') -> Forall arg_ok args'.
Proof.
  intros Ha. unfold text_number. destruct (fetch_number l args) as [[v a]|] eqn:Ef; [|done].
  intros [= _ <-]. by apply (fetch_ok _ _ _ _ Ha Ef).
Qed.

Lemma conv_ok : forall fmt l width lz args st ret, Forall arg_ok args ->
  conv callback fmt l width lz args st ret =
  match text_conv fmt l width lz args with
  | Some (t, fmt', args') => Ret (fmt', args', emit_all t st, ret + Z.of_nat (length t))
  | None => Fault FMem
  end.
Proof.
  induction fmt as [|c fmt IH]; intros l width lz args st ret Ha; [done|].
  cbn [conv text_conv].
  destruct ((c =? 100) || (c =? 117)).
  { rewrite conv_number_ok by (done || lia). by destruct (text_number _ _ _ _ _) as [[t a]|]. }
  destruct (c =? 115).
  { destruct args as [|[| |s] args]; try done. by rewrite emit_ok. }
  destruct ((c =? 88) || (c =? 120)).
  { rewrite conv_number_ok by (done || lia). by destruct (text_number _ _ _ _ _) as [[t a]|]. }
  destruct ((c =? 112) || (c =? 80)).
  { rewrite conv_pointer_ok by done. by destruct (text_number _ _ _ _ _) as [[t a]|]. }
  destruct (c =? 108); [by apply IH|].
  destruct ((c =? 48) && (width =? 0)); [by apply IH|].
  destruct ((48 <=? c) && (c <=? 57)); [by apply IH|].
  rewrite IH by done. destruct (text_conv _ _ _ _ _) as [[[t f] a]|]; [|done].
  cbn [mbind option_bind emit_all fold_left length]. do 2 f_equal. lia.
Qed.

Lemma text_conv_shrinks : forall fmt l width lz args t fmt' args', Forall arg_ok args ->
  text_conv fmt l width lz args = Some (t, fmt', args') ->
  (length fmt' < length fmt)%nat /\ Forall arg_ok args'.
Proof.
  induction fmt as [|c fmt IH]; intros l width lz args t fmt' args' Ha; [done|].
  cbn [text_conv length].
  destruct ((c =? 100) || (c =? 117)).
  { destruct (text_number _ _ _ _ _) as [[u a]|] eqn:E; [|done]. intros [= _ <- <-].
    split; [lia|by eapply text_number_args]. }
  destruct (c =? 115).
  { destruct Ha as [|[| |s] args Hs Ha]; try done. intros [= _ <- <-]. split; [lia|done]. }
  destruct ((c =? 88) || (c =? 120)).
  { destruct (text_number _ _ _ _ _) as [[u a]|] eqn:E; [|done]. intros [= _ <- <-].
    split; [lia|by eapply text_number_args]. }
  destruct ((c =? 112) || (c =? 80)).
  { destruct (text_number _ _ _ _ _) as [[u a]|] eqn:E; [|done]. intros [= _ <- <-].
    split; [lia|by eapply text_number_args]. }
  destruct (c =? 108); [intros E; apply IH in E; [|done]; split; [lia|apply E]|].
  destruct ((c =? 48) && (width =? 0)); [intros E; apply IH in E; [|done]; split; [lia|apply E]|].
  destruct ((48 <=? c) && (c <=? 57)); [intros E; apply IH in E; [|done]; split; [lia|apply E]|].
  destruct (text_conv _ _ _ _ _) as [[[u f] a]|] eqn:E; [|done]. intros [= _ <- <-].
  apply IH in E; [|done]. split; [lia|apply E].
Qed.

Lemma formatv_ok : forall fuel fmt args st ret, Forall arg_ok args -> (length fmt < fuel)%nat ->
  formatv callback fuel fmt args st ret =
  match text fuel fmt args with
  | Some t => Ret (emit_all t st, ret + Z.of_nat (length t))
  | None => Fault FMem
  end.
Proof.
  induction fuel as [|fuel IH]; intros fmt args st ret Ha Hf; [lia|].
  destruct fmt as [|c fmt]; cbn [formatv text length] in *; [by rewrite Z.add_0_r|].
  destruct (c =? 37).
  - rewrite conv_ok by done. destruct (text_conv _ _ _ _ _) as [[[t f] a]|] eqn:E; [|done].
    apply text_conv_shrinks in E as [Hl Ha']; [|done].
    cbn [mbind outcome_bind option_bind]. rewrite IH by (done || lia).
    destruct (text fuel f a) as [r|]; [|done]. cbn [mbind option_bind].
    rewrite emit_all_app, length_app. do 2 f_equal. lia.
  - rewrite IH by (done || lia). destruct (text fuel fmt args) as [r|]; [|done].
    cbn [mbind option_bind emit_all fold_left length]. do 2 f_equal. lia.
Qed.
End formatv_proofs.

(** [format] in terms of the text: the callback receives its characters in order. *)
Lemma format_text {T : Type} (callback : Z -> T -> T) (fmt : list Z) (args : list va_arg) (st : T) :
  Forall arg_ok args ->
  format callback fmt args st =
  match text_of fmt args with
  | Some t => Ret (fold_left (fun st c => callback (s8 c) st) t st, Z.of_nat (length t))
  | None => Fault FMem
  end.
Proof.
  intros Ha. unfold format, text_of. rewrite formatv_ok by (done || lia). by destruct (text _ _ _).
Qed.

(** *** [snprintf] *)
Lemma snprintf_emit : forall t m b n, Forall is_char t -> 0 <= n ->
  emit_all snprintf_callback t (m, mkSnprintf b n) =
  (store_bytes m b (take (Z.to_nat n) t),
   mkSnprintf (b + Z.of_nat (Nat.min (Z.to_nat n) (length t)))
              (n - Z.of_nat (Nat.min (Z.to_nat n) (length t)))).
Proof.
  induction t as [|c t IH]; intros m b n Hc Hn.
  - simpl. rewrite take_nil, Nat.min_0_r, Z.add_0_r, Z.sub_0_r. done.
  - apply Forall_cons in Hc as [Hc Ht]. unfold is_char in Hc. rewrite emit_all_cons.
    cbn [snprintf_callback siz buf].
    destruct (Z.eq_dec n 0) as [->|Hz].
    + cbn [nz Z.eqb negb]. rewrite IH by (done || lia). done.
    + rewrite nz_true by done. rewrite IH by (done || lia).
      replace (Z.to_nat n) with (S (Z.to_nat (n - 1))) by lia.
      cbn [take length Nat.min]. rewrite store_bytes_cons.
      assert (store8 m b (s8 c) = store8 m b c) as ->.
      { unfold store8. by rewrite (wrap_swrap 8) by lia. }
      f_equal. f_equal; lia.
Qed.

(** [vsnprintf] into a buffer of [size] bytes returns the length of the whole text plus
    one. When the text fits, the buffer holds it, terminated, and nothing else changes.
    When it does not fit, the buffer receives the first [size - 1] characters but the
    terminator is stored at [buffer + length], at or beyond the end of the buffer, and the
    truncated text is left unterminated. *)
Theorem vsnprintf_spec (m : mem) (buffer size : Z) (fmt : list Z) (args : list va_arg) (t : list Z) :
  Forall arg_ok args -> 1 <= size < 2 ^ 31 -> text_of fmt args = Some t -> Forall is_char t ->
  exists m', vsnprintf m buffer size fmt args = Ret (m', Z.of_nat (length t) + 1) /\
    (Z.of_nat (length t) < size -> str_at m' buffer t /\
       same_outside m m' buffer (buffer + Z.of_nat (length t) + 1)) /\
    (size <= Z.of_nat (length t) ->
       m' = store8 (store_bytes m buffer (take (Z.to_nat (size - 1)) t))
                   (buffer + Z.of_nat (length t)) 0 /\
       load8 m' (buffer + (size - 1)) = load8 m (buffer + (size - 1))).
Proof.
  intros Ha Hs Ht Hc. unfold vsnprintf, format.
  rewrite formatv_ok by (done || lia). unfold text_of in Ht. rewrite Ht. cbn [mbind outcome_bind].
  rewrite s32_small by lia. rewrite snprintf_emit by (done || lia). cbn [mbind outcome_bind].
  rewrite Z.add_0_l. eexists. split; [done|]. split.
  - intros Hfit. rewrite take_ge by lia. split; [by apply str_at_store|].
    apply same_outside_store8; [|lia]. apply same_outside_bytes; [done|lia|lia].
  - intros Hov. split; [done|]. rewrite load8_store8, (proj2 (Z.eqb_neq _ _)) by lia.
    rewrite load8_store_bytes_out; [done|]. rewrite length_take. lia.
Qed.

Lemma vsnprintf_spec_witness : exists m',
  vsnprintf ∅ 0x1000 4 [37; 100] [AInt 123456] = Ret (m', 7) /\ load8 m' 0x1006 = 0 /\
  load_bytes m' 0x1000 3 = [49; 50; 51].
Proof.
  destruct (vsnprintf_spec ∅ 0x1000 4 [37; 100] [AInt 123456] [49; 50; 51; 52; 53; 54])
    as (m' & E & _ & H).
  - repeat (apply Forall_cons; split); [unfold arg_ok; lia|done].
  - lia.
  - reflexivity.
  - repeat (apply Forall_cons; split); try done; unfold is_char; lia.
  - destruct H as [-> _]; [simpl; lia|]. eexists. split; [exact E|]. split; reflexivity.
Defined.

(** A size that is 0, or wrapped below 0 when a caller subtracts too much, limits nothing: the
    counter of [snprintf_callback] starts negative and never reaches 0. *)
Lemma snprintf_emit_wrapped : forall t m b n, Forall is_char t -> n < 0 ->
  emit_all snprintf_callback t (m, mkSnprintf b n) =
  (store_bytes m b t, mkSnprintf (b + Z.of_nat (length t)) (n - Z.of_nat (length t))).
Proof.
  induction t as [|c t IH]; intros m b n Hc Hn; [by cbn; rewrite Z.add_0_r, Z.sub_0_r|].
  apply Forall_cons in Hc as [Hc Ht]. unfold is_char in Hc. rewrite emit_all_cons. cbn [snprintf_callback siz buf].
  rewrite nz_true, IH by (done || lia). rewrite store_bytes_cons.
  assert (store8 m b (s8 c) = store8 m b c) as -> by (unfold store8; by rewrite (wrap_swrap 8) by lia).
  cbn [length]. f_equal. f_equal; lia.
Qed.

Lemma vsnprintf_wrapped (m : mem) (buffer size : Z) (fmt : list Z) (args : list va_arg) (t : list Z) :
  Forall arg_ok args -> s32 (size - 1) < 0 -> text_of fmt args = Some t -> Forall is_char t ->
  exists m', vsnprintf m buffer size fmt args = Ret (m', Z.of_nat (length t) + 1) /\ str_at m' buffer t /\
    same_outside m m' buffer (buffer + Z.of_nat (length t) + 1).
Proof.
  intros Ha Hs Ht Hc. unfold vsnprintf, format. rewrite formatv_ok by (done || lia). unfold text_of in Ht. rewrite Ht. cbn [mbind outcome_bind].
  rewrite snprintf_emit_wrapped by done. cbn [mbind outcome_bind]. rewrite Z.add_0_l. eexists. split; [done|].
  split; [by apply str_at_store|]. apply same_outside_store8; [|lia]. apply same_outside_bytes; [done|lia|lia].
Qed.
