(* ===== verification/FormatSpec.v ===== *)
(** What a format string of [common/string.c] means, stated without reference to [formatv]: a
    format is a sequence of directives, written out by [print]; [renders] is the text they stand
    for, with numerals characterised by their value. *)
From Stdlib Require Import Ascii String.
From S2P Require Import Prelude Mem Str StrSpec.

Definition codes (s : string) : list Z := (fun c => Z.of_N (N_of_ascii c)) <$> list_ascii_of_string s.

(** ** Directives *)
Inductive kind : Type := Kd | Ku | Kx | KX | Kp | KP | Ks.
(** A character, or a conversion: a flag [0], the digits of a width, a number of letters [l]. *)
Inductive directive : Type :=
| Lit (c : Z)
| Conv (zero : bool) (width : list Z) (l : nat) (k : kind).

Definition letter (k : kind) : list Z :=
  codes match k with Kd => "d" | Ku => "u" | Kx => "x" | KX => "X" | Kp => "p" | KP => "P" | Ks => "s" end.
Definition print_directive (d : directive) : list Z :=
  match d with
  | Lit c => [c]
  | Conv zero width l k =>
      codes "%" ++ (if zero then codes "0" else []) ++ ((fun d => 48 + d) <$> width) ++ mjoin (replicate l (codes "l")) ++ letter k
  end.
Definition print (ds : list directive) : list Z := mjoin (print_directive <$> ds).

(** The width a list of decimal digits writes; none is 0. *)
Definition width_of (ds : list Z) : Z := value_be 10 ds.
Definition directive_ok (d : directive) : Prop :=
  match d with
  | Lit c => [c] <> codes "%"
  | Conv _ width _ _ => Forall (fun d => 0 <= d < 10) width /\ head width <> Some 0 /\ width_of width < 2 ^ 31
  end.

(** ** Text *)

(** [s] writes [n] in the given base: its digits are those of the glyphs, their value is [n], and
    a zero leads only in the numeral of 0. *)
Definition glyphs : list Z := codes "0123456789ABCDEF".
Definition numeral (base n : Z) (s : list Z) : Prop :=
  exists ds, Forall (fun d => 0 <= d < base) ds /\ s = (fun d => nth (Z.to_nat d) glyphs 0) <$> ds /\
    value_be base ds = n /\ (ds = [0] \/ exists d ds', ds = d :: ds' /\ d <> 0).

(** A number is an [unsigned], or an [unsigned long long] behind two letters [l] or more. *)
Definition number_arg (l : nat) (a : va_arg) : option Z :=
  match a with
  | AInt v => if decide (l < 2)%nat then Some v else None
  | ALong v => if decide (l < 2)%nat then None else Some v
  | AStr _ => None
  end.

(** Numbers are padded with zeros to the width when the flag is given, never with blanks;
    pointers and strings are not padded. *)
Inductive renders_conv (zero : bool) (width : Z) (l : nat) : kind -> va_arg -> list Z -> Prop :=
| rc_decimal k a v s : k = Kd \/ k = Ku -> number_arg l a = Some v -> numeral 10 v s ->
    renders_conv zero width l k a ((if zero then replicate (Z.to_nat width - length s) (nth 0 glyphs 0) else []) ++ s)
| rc_hexadecimal k a v s : k = Kx \/ k = KX -> number_arg l a = Some v -> numeral 16 v s ->
    renders_conv zero width l k a ((if zero then replicate (Z.to_nat width - length s) (nth 0 glyphs 0) else []) ++ s)
| rc_pointer k a v s : k = Kp \/ k = KP -> number_arg l a = Some v -> numeral 16 v s ->
    renders_conv zero width l k a (codes "0x" ++ s)
| rc_string s : renders_conv zero width l Ks (AStr s) s.

Inductive renders : list directive -> list va_arg -> list Z -> Prop :=
| r_nil args : renders [] args []
| r_lit c ds args t : renders ds args t -> renders (Lit c :: ds) args (c :: t)
| r_conv zero width l k a s ds args t : renders_conv zero (width_of width) l k a s -> renders ds args t ->
    renders (Conv zero width l k :: ds) (a :: args) (s ++ t).

(** Every conversion finds an argument of its kind; more arguments may follow. *)
Definition suits (l : nat) (k : kind) (a : va_arg) : bool :=
  match k with
  | Ks => match a with AStr _ => true | _ => false end
  | _ => match number_arg l a with Some _ => true | None => false end
  end.
Fixpoint suited (ds : list directive) (args : list va_arg) : bool :=
  match ds with
  | [] => true
  | Lit _ :: ds => suited ds args
  | Conv _ _ l k :: ds => match args with a :: args => suits l k a && suited ds args | [] => false end
  end.

(** ** Numerals *)
Lemma glyph_digit d : 0 <= d < 16 -> nth (Z.to_nat d) glyphs 0 = digit_char d.
Proof.
  intros Hd. assert (exists n, (n < 16)%nat /\ d = Z.of_nat n) as (n & Hn & ->) by (exists (Z.to_nat d); lia).
  rewrite Nat2Z.id. clear Hd. do 16 (destruct n as [|n]; [done|]). lia.
Qed.

Lemma digits_le_last base : 2 <= base -> forall fuel n, 0 <= n < base ^ Z.of_nat fuel ->
  digits_le fuel base n = [0] \/ exists ds d, digits_le fuel base n = ds ++ [d] /\ d <> 0 \/ fuel = O.
Proof.
  intros Hb. induction fuel as [|fuel IH]; intros n Hn; [right; exists [], 0; by right|]. cbn [digits_le].
  pose proof (Z.div_mod n base ltac:(lia)) as Hdm.
  destruct (n / base =? 0) eqn:E; breflect.
  - destruct (Z.eq_dec (n mod base) 0) as [->|Hne]; [by left|]. right. exists [], (n mod base). by left.
  - assert (0 <= n / base < base ^ Z.of_nat fuel) as Hq.
    { split; [apply Z.div_pos; lia|]. apply Z.div_lt_upper_bound; [lia|].
      rewrite <- Z.pow_succ_r by lia. replace (Z.succ (Z.of_nat fuel)) with (Z.of_nat (S fuel)) by lia. apply Hn. }
    right. destruct (IH _ Hq) as [E0|(ds & d & [[-> Hd]| ->])].
    + pose proof (digits_le_value base Hb fuel _ Hq) as Hv. rewrite E0 in Hv. cbn in Hv. lia.
    + exists (n mod base :: ds), d. by left.
    + cbn in Hq. lia.
Qed.

Lemma number_string_numeral base n : 10 <= base <= 16 -> 0 <= n < 2 ^ 64 -> numeral base n (number_string base n).
Proof.
  intros Hb Hn. assert (0 <= n < base ^ Z.of_nat max_digits) as Hn'.
  { split; [lia|]. eapply Z.lt_le_trans; [apply Hn|]. etransitivity; [|apply Z.pow_le_mono_l with (a := 10); lia].
    apply Z.leb_le. vm_compute. reflexivity. }
  exists (reverse (digits_le max_digits base n)). pose proof (digits_le_range base max_digits n ltac:(lia)) as Hr.
  split; [by apply Forall_reverse|]. split; [|split].
  - unfold number_string. rewrite fmap_reverse. f_equal. apply map_ext_in. intros d Hd. symmetry. apply glyph_digit.
    rewrite Forall_forall in Hr. specialize (Hr d ltac:(by apply list_elem_of_In)). cbn in Hr. lia.
  - rewrite value_be_reverse. by apply digits_le_value; [lia|].
  - destruct (digits_le_last base ltac:(lia) _ _ Hn') as [->|(ds & d & [[-> Hd]|[=]])]; [by left|].
    right. exists d, (reverse ds). by rewrite reverse_app.
Qed.

(** ** The conversion characters *)
Lemma value_from_le acc ds : 0 <= acc -> Forall (fun d => 0 <= d < 10) ds -> acc <= fold_left (fun r d => 10 * r + d) ds acc.
Proof.
  intros Ha Hds. revert acc Ha. induction Hds as [|d ds Hd Hds IH]; intros acc Ha; cbn [fold_left]; [lia|].
  specialize (IH (10 * acc + d) ltac:(lia)). lia.
Qed.

Lemma text_conv_width l lz args rest : forall ds acc, Forall (fun d => 0 <= d < 10) ds -> 0 <= acc ->
  acc <> 0 \/ head ds <> Some 0 -> fold_left (fun r d => 10 * r + d) ds acc < 2 ^ 31 ->
  text_conv (((fun d => 48 + d) <$> ds) ++ rest) l acc lz args = text_conv rest l (fold_left (fun r d => 10 * r + d) ds acc) lz args.
Proof.
  induction ds as [|d ds IH]; intros acc Hds Ha Hz Hlt; [done|]. apply Forall_cons in Hds as [Hd Hds]. cbn [fold_left] in *.
  pose proof (value_from_le (10 * acc + d) ds ltac:(lia) Hds) as Hle. cbn [fmap list_fmap app text_conv].
  rewrite (proj2 (Z.eqb_neq (48 + d) 100)), (proj2 (Z.eqb_neq (48 + d) 117)), (proj2 (Z.eqb_neq (48 + d) 115)), (proj2 (Z.eqb_neq (48 + d) 88)),
    (proj2 (Z.eqb_neq (48 + d) 120)), (proj2 (Z.eqb_neq (48 + d) 112)), (proj2 (Z.eqb_neq (48 + d) 80)), (proj2 (Z.eqb_neq (48 + d) 108)) by lia.
  cbn [orb].
  assert ((48 + d =? 48) && (acc =? 0) = false) as ->.
  { apply andb_false_iff. destruct Hz as [Hz|Hz]; [right; by apply Z.eqb_neq|]. left. apply Z.eqb_neq. intros E. apply Hz. cbn. f_equal. lia. }
  assert ((48 <=? 48 + d) && (48 + d <=? 57) = true) as -> by (apply andb_true_iff; split; apply Z.leb_le; lia).
  assert ((if acc =? 0 then 48 + d - 48 else s32 (s32 (acc * 10) + (48 + d - 48))) = 10 * acc + d) as ->.
  { destruct (acc =? 0) eqn:E; breflect; [lia|]. rewrite !s32_small by (rewrite ?s32_small; lia). lia. }
  destruct (Z.eq_dec (10 * acc + d) 0) as [E|Hne]; [|apply IH; [done|lia|by left|done]].
  exfalso. destruct Hz as [Hz|Hz]; [lia|]. apply Hz. cbn. f_equal. lia.
Qed.

Lemma text_conv_ls width lz args rest n : forall l, text_conv (mjoin (replicate n (codes "l")) ++ rest) l width lz args =
  text_conv rest (l + Z.of_nat n) width lz args.
Proof.
  induction n as [|n IH]; intros l; [by rewrite Z.add_0_r|]. change (mjoin (replicate (S n) (codes "l")) ++ rest) with (108 :: (mjoin (replicate n (codes "l")) ++ rest)).
  cbn [text_conv Z.eqb Pos.eqb orb]. rewrite IH. f_equal. lia.
Qed.

Lemma text_conv_flag (zero : bool) rest args : text_conv ((if zero then codes "0" else []) ++ rest) 0 0 0 args =
  text_conv rest 0 0 (if zero then 1 else 0) args.
Proof. by destruct zero. Qed.

Lemma fetch_number_arg l a args v : number_arg l a = Some v -> fetch_number (Z.of_nat l) (a :: args) = Ret (v, args).
Proof.
  unfold number_arg, fetch_number. intros E. destruct a; [| |done]; destruct (decide (l < 2)%nat); try done; injection E as ->.
  - by rewrite (proj2 (Z.ltb_lt _ _)) by lia.
  - by rewrite (proj2 (Z.ltb_ge _ _)) by lia.
Qed.

Lemma fetch_number_none l a args : number_arg l a = None -> fetch_number (Z.of_nat l) (a :: args) = Fault FMem.
Proof.
  unfold number_arg, fetch_number. intros E. destruct a; [| |done]; destruct (decide (l < 2)%nat); try done.
  - by rewrite (proj2 (Z.ltb_ge _ _)) by lia.
  - by rewrite (proj2 (Z.ltb_lt _ _)) by lia.
Qed.

Lemma pad_zeros (zero : bool) width len : 0 <= width < 2 ^ 31 -> 0 <= len < 2 ^ 31 ->
  pad (if zero then 1 else 0) width len = if zero then replicate (Z.to_nat width - Z.to_nat len) (nth 0 glyphs 0) else [].
Proof.
  intros Hw Hl. unfold pad. destruct zero; [|done]. change (nth 0 glyphs 0) with 48. change (nz 1) with true. cbn [andb].
  rewrite (u32_small width) by lia. destruct (len <? width) eqn:E; breflect.
  - rewrite u32_small by lia. f_equal. lia.
  - by replace (Z.to_nat width - Z.to_nat len)%nat with 0%nat by lia.
Qed.

(** One conversion, with an argument that suits it and without. *)
Lemma text_number_ok base (zero : bool) width l a args v : 10 <= base <= 16 -> arg_ok a -> 0 <= width < 2 ^ 31 -> number_arg l a = Some v ->
  exists s, numeral base v s /\ text_number base (Z.of_nat l) width (if zero then 1 else 0) (a :: args) =
    Some ((if zero then replicate (Z.to_nat width - length s) (nth 0 glyphs 0) else []) ++ s, args).
Proof.
  intros Hb Ha Hw Hv. assert (0 <= v < 2 ^ 64) as Hr.
  { unfold number_arg in Hv. destruct a; [| |done]; destruct (decide _); try done; injection Hv as <-; cbn [arg_ok] in Ha; lia. }
  exists (number_string base v). split; [by apply number_string_numeral|]. unfold text_number. rewrite (fetch_number_arg l a args v Hv).
  destruct (number_string_ok base v ltac:(lia) Hr) as [_ Hlen]. rewrite pad_zeros by lia. by rewrite Nat2Z.id.
Qed.

Lemma text_conv_suits zero width l k a args rest : arg_ok a -> directive_ok (Conv zero width l k) -> suits l k a = true ->
  exists s, renders_conv zero (width_of width) l k a s /\
    text_conv (tail (print_directive (Conv zero width l k)) ++ rest) 0 0 0 (a :: args) = Some (s, rest, args).
Proof.
  intros Ha (Hd & Hh & Hlt) Hs. cbn [print_directive]. change (tail (codes "%" ++ ?x)) with x. rewrite <- !app_assoc.
  rewrite text_conv_flag, text_conv_width by (done || lia || by right). fold (width_of width). unfold width_of in Hlt |- *.
  fold (value_be 10 width). rewrite text_conv_ls, Z.add_0_l. assert (0 <= value_be 10 width) as Hw by (apply value_be_range; [lia|done]).
  destruct k; cbn [suits] in Hs; try (destruct (number_arg l a) as [v|] eqn:Hv; [|done]); cbn [letter].
  1,2: destruct (text_number_ok 10 zero (value_be 10 width) l a args v) as (s & Hn & E); [lia|done|lia|done|].
  3,4: destruct (text_number_ok 16 zero (value_be 10 width) l a args v) as (s & Hn & E); [lia|done|lia|done|].
  5,6: destruct (text_number_ok 16 false 0 l a args v) as (s & Hn & E); [lia|done|lia|done|].
  1,2: exists ((if zero then replicate (Z.to_nat (value_be 10 width) - length s) (nth 0 glyphs 0) else []) ++ s);
    split; [by apply (rc_decimal _ _ _ _ _ v); [auto|..]|].
  3,4: exists ((if zero then replicate (Z.to_nat (value_be 10 width) - length s) (nth 0 glyphs 0) else []) ++ s);
    split; [by apply (rc_hexadecimal _ _ _ _ _ v); [auto|..]|].
  5,6: exists (codes "0x" ++ s); split; [by apply (rc_pointer _ _ _ _ _ v); [auto|..]|].
  1-6: match goal with |- context [text_conv (letter ?k ++ ?r)] => let y := eval vm_compute in (letter k) in change (letter k ++ r) with (y ++ r) end;
    cbn [app text_conv Z.eqb Pos.eqb orb]; by rewrite E.
  destruct a; try done. eexists. split; [constructor|done].
Qed.

Lemma text_conv_unsuited zero width l k args rest : directive_ok (Conv zero width l k) ->
  match args with a :: _ => suits l k a = false | [] => True end ->
  text_conv (tail (print_directive (Conv zero width l k)) ++ rest) 0 0 0 args = None.
Proof.
  intros (Hd & Hh & Hlt) Hs. cbn [print_directive]. change (tail (codes "%" ++ ?x)) with x. rewrite <- !app_assoc.
  rewrite text_conv_flag, text_conv_width by (done || lia || by right). rewrite text_conv_ls, Z.add_0_l.
  assert (forall base w z, k <> Ks -> text_number base (Z.of_nat l) w z args = None) as Hn.
  { intros base w z Hk. unfold text_number. destruct args as [|a args]; [done|]. rewrite fetch_number_none; [done|].
    destruct k; try done; cbn [suits] in Hs; by destruct (number_arg l a). }
  destruct k.
  1-6: match goal with |- context [text_conv (letter ?k ++ ?r)] => let y := eval vm_compute in (letter k) in change (letter k ++ r) with (y ++ r) end;
    cbn [app text_conv Z.eqb Pos.eqb orb]; by rewrite Hn.
  destruct args as [|[] args]; done.
Qed.

(** ** Whole formats *)
Lemma print_conv zero width l k ds :
  print (Conv zero width l k :: ds) = 37 :: (tail (print_directive (Conv zero width l k)) ++ print ds).
Proof. done. Qed.

Lemma text_print : forall ds args fuel, Forall directive_ok ds -> Forall arg_ok args -> (length (print ds) < fuel)%nat ->
  if suited ds args then exists t, renders ds args t /\ text fuel (print ds) args = Some t else text fuel (print ds) args = None.
Proof.
  induction ds as [|[c|zero width l k] ds IH]; intros args [|fuel] Hds Hargs Hf; try lia.
  - exists []. split; [constructor|done].
  - apply Forall_cons in Hds as [Hc Hds]. change (print (Lit c :: ds)) with (c :: print ds) in *. cbn [length] in Hf. cbn [suited text].
    rewrite (proj2 (Z.eqb_neq c 37)); [|intros ->; by apply Hc]. specialize (IH args fuel Hds Hargs ltac:(lia)).
    destruct (suited ds args); [|by rewrite IH]. destruct IH as (t & Hr & ->). exists (c :: t). split; [by constructor|done].
  - apply Forall_cons in Hds as [Hd Hds]. rewrite print_conv in *. cbn [length] in Hf. rewrite length_app in Hf. cbn [text].
    change (37 =? 37) with true. cbn [suited]. destruct args as [|a args].
    { by rewrite text_conv_unsuited. }
    apply Forall_cons in Hargs as [Ha Hargs]. destruct (suits l k a) eqn:Es; cbn [andb]; [|by rewrite text_conv_unsuited].
    destruct (text_conv_suits zero width l k a args (print ds) Ha Hd Es) as (s & Hrs & ->). cbn [mbind option_bind].
    specialize (IH args fuel Hds Hargs ltac:(lia)). destruct (suited ds args); [|by rewrite IH].
    destruct IH as (t & Hr & ->). exists (s ++ t). split; [by constructor|done].
Qed.

(** The text of a format has characters only when the format has. *)
Lemma glyph_chars base ds : base <= 16 -> Forall (fun d => 0 <= d < base) ds -> Forall is_char ((fun d => nth (Z.to_nat d) glyphs 0) <$> ds).
Proof.
  intros Hb Hds. apply Forall_fmap. eapply Forall_impl; [exact Hds|]. intros d Hd. cbn beta in Hd. change (is_char (nth (Z.to_nat d) glyphs 0)). rewrite glyph_digit by lia. apply digit_char_ok. lia.
Qed.

Lemma renders_conv_chars zero w l k a s : arg_ok a -> renders_conv zero w l k a s -> Forall is_char s.
Proof.
  intros Ha Hr. assert (forall b : bool, forall n, Forall is_char (if b then replicate n (nth 0 glyphs 0) else [])) as Hz.
  { intros [] n; [|constructor]. by apply Forall_replicate. }
  destruct Hr as [k a v s _ _ (ds & Hds & -> & _)|k a v s _ _ (ds & Hds & -> & _)|k a v s _ _ (ds & Hds & -> & _)|s]; [..|exact Ha];
    apply Forall_app; (split; [|eapply glyph_chars; [|exact Hds]; lia]); [apply Hz|apply Hz|repeat constructor].
Qed.

Lemma renders_chars ds args t : Forall arg_ok args -> (forall c, Lit c ∈ ds -> is_char c) -> renders ds args t -> Forall is_char t.
Proof.
  intros Hargs Hds Hr. induction Hr as [args|c ds args t Hr IH|zero w l k a s ds args t Hc Hr IH]; [constructor| |].
  - constructor; [apply Hds; left|]. apply IH; [done|]. intros x Hx. apply Hds. by right.
  - apply Forall_cons in Hargs as [Ha Hargs]. apply Forall_app. split; [by eapply renders_conv_chars|]. apply IH; [done|]. intros x Hx. apply Hds. by right.
Qed.

Lemma text_of_print ds args : Forall directive_ok ds -> Forall arg_ok args -> suited ds args = true ->
  exists t, renders ds args t /\ text_of (print ds) args = Some t.
Proof.
  intros Hds Hargs Hs. pose proof (text_print ds args (S (length (print ds))) Hds Hargs ltac:(lia)) as H. by rewrite Hs in H.
Qed.

(** C39: [format], the engine of the [printf] family, on a format made of characters and
    conversions %d %u %x %X %p %P %s with an optional flag 0, width and letters l. With any callback
    and arguments of the kinds the conversions ask for (an [unsigned], an [unsigned long long] behind
    two letters l, a string), it delivers, in order, exactly the characters of a text the format
    stands for, and returns their number: numerals without leading zeros whose digits have the
    value of the argument, in capitals for hexadecimal, filled up to the width with zeros when
    the flag is given and not otherwise; 0x and an unpadded numeral for pointers. When a conversion
    finds no argument left, or one of another kind, the call is undefined. *)
Theorem format_spec {T : Type} (callback : Z -> T -> T) (ds : list directive) (args : list va_arg) (st : T) :
  Forall directive_ok ds -> Forall arg_ok args ->
  if suited ds args
  then exists t, renders ds args t /\
         format callback (print ds) args st = Ret (fold_left (fun st c => callback (s8 c) st) t st, Z.of_nat (length t))
  else format callback (print ds) args st = Fault FMem.
Proof.
  intros Hds Hargs. rewrite format_text by done. unfold text_of.
  pose proof (text_print ds args (S (length (print ds))) Hds Hargs ltac:(lia)) as H.
  destruct (suited ds args); [|by rewrite H]. destruct H as (t & Hr & ->). by exists t.
Qed.

(** x%04x%s *)
Definition sample_format : list directive := [Lit 120; Conv true [4] 0 Kx; Conv false [] 0 Ks].

Lemma format_spec_witness :
  (exists t, renders sample_format [AInt 0xBEE; AStr [33]] t /\
     format (fun c out => out ++ [c]) (print sample_format) [AInt 0xBEE; AStr [33]] [] =
       Ret (fold_left (fun out c => out ++ [s8 c]) t [], Z.of_nat (length t))) /\
  format (fun c out => out ++ [c]) (print sample_format) [AInt 0xBEE; AStr [33]] [] = Ret ([120; 48; 66; 69; 69; 33], 6) /\
  format (fun c out => out ++ [c]) (print sample_format) [AInt 0xBEE; AInt 33] [] = Fault FMem.
Proof.
  assert (Forall directive_ok sample_format) as Hd.
  { apply Forall_cons. split; [discriminate|]. apply Forall_cons. split.
    - split; [repeat constructor; discriminate|split; [discriminate|reflexivity]].
    - apply Forall_cons. split; [split; [constructor|split; [discriminate|reflexivity]]|constructor]. }
  assert (forall a, arg_ok a -> Forall arg_ok [AInt 0xBEE; a]) as Ha.
  { intros a Ha. apply Forall_cons. split; [unfold arg_ok; lia|]. apply Forall_cons. split; [exact Ha|constructor]. }
  split; [|split].
  - apply (format_spec (fun c out => out ++ [c]) sample_format [AInt 0xBEE; AStr [33]] [] Hd). apply Ha. repeat constructor.
  - vm_compute. reflexivity.
  - apply (format_spec (fun c out => out ++ [c]) sample_format [AInt 0xBEE; AInt 33] [] Hd). apply Ha. unfold arg_ok. lia.
Defined.
