(* ===== verification/LogText.v ===== *)
(** The texts of format strings, one conversion at a time: what the logging code of the
    kernel and of the user programs needs of [StrSpec]'s [text_of]. *)
From S2P Require Import Prelude Mem Str StrSpec.

(** A text with a known beginning. *)
Definition prepend (t : list Z) (o : option (list Z)) : option (list Z) :=
  match o with Some r => Some (t ++ r) | None => None end.

Lemma text_char n c fmt args : c <> 37 -> text (S n) (c :: fmt) args = prepend [c] (text n fmt args).
Proof. intros Hc. cbn [text]. rewrite (proj2 (Z.eqb_neq _ _)) by done. by destruct (text n fmt args). Qed.

Lemma text_percent n fmt args t fmt' args' : text_conv fmt 0 0 0 args = Some (t, fmt', args') ->
  text (S n) (37 :: fmt) args = prepend t (text n fmt' args').
Proof. intros E. cbn [text]. cbn [Z.eqb]. change (37 =? 37) with true. cbv iota. rewrite E. done. Qed.

(** [%s] *)
Lemma text_string n fmt s args : text (S n) (37 :: 115 :: fmt) (AStr s :: args) = prepend s (text n fmt args).
Proof. by apply text_percent. Qed.

(** [%d] *)
Lemma text_int n fmt v args :
  text (S n) (37 :: 100 :: fmt) (AInt v :: args) = prepend (number_string 10 v) (text n fmt args).
Proof. by apply text_percent. Qed.

(** [%06lld] *)
Lemma text_time n fmt v args :
  text (S n) (37 :: 48 :: 54 :: 108 :: 108 :: 100 :: fmt) (ALong v :: args) =
  prepend (pad 1 6 (Z.of_nat (length (number_string 10 v))) ++ number_string 10 v) (text n fmt args).
Proof. by apply text_percent. Qed.

Lemma prepend_prepend t1 t2 o : prepend t1 (prepend t2 o) = prepend (t1 ++ t2) o.
Proof. destruct o; [|done]. cbn. by rewrite app_assoc. Qed.

(** Compute the text of a literal format string. *)
Ltac text_of_literal :=
  unfold text_of; cbn [length];
  repeat first
    [ rewrite text_string | rewrite text_int | rewrite text_time | rewrite text_char by done ];
  cbn [text prepend app].

Lemma app_chars l r : Forall is_char l -> Forall is_char r -> Forall is_char (l ++ r).
Proof. intros. by apply Forall_app. Qed.

Lemma number_chars v : 0 <= v < 2 ^ 64 -> Forall is_char (number_string 10 v).
Proof. intros. by apply number_string_ok; lia. Qed.

Lemma pad_chars z w n : Forall is_char (pad z w n).
Proof.
  unfold pad. destruct (_ && _); [|constructor]. apply Forall_replicate. unfold is_char. lia.
Qed.

(** Goals [Forall is_char l] for a concatenation of literals, numbers and known strings. *)
Ltac chars :=
  repeat first
    [ assumption | apply Forall_nil_2 | apply pad_chars | apply number_chars; lia
    | apply Forall_cons; split; [unfold is_char; lia|] | apply app_chars ].
