(* ===== verification/Bitset.v ===== *)
(** [kernel/bitset.c]: the allocation bitmap of a physical memory region. The
    abstract view of a bitset is its list of bits. *)
From S2P Require Import Prelude Util.

Definition BIT_PER_ELEMENT : Z := 32.
Definition BITSET_INVALID_INDEX : Z := 0xFFFFFFFF.

(** [struct bitset]; [data] is the storage of the flexible array member. *)
Record bitset : Type := mkBitset {
  size : Z;
  element_count : Z;
  data : list Z
}.

Definition sizeof_bitset : Z := 8.

Definition element_count_for (sz : Z) : Z := ALIGN sz BIT_PER_ELEMENT / BIT_PER_ELEMENT.

(** [memset(bitset->data, ch, bitset->element_count * 4)], [ch] repeated in the
    four bytes of a word being the word [w]. *)
Definition memset_data (b : bitset) (w : Z) : outcome bitset :=
  let n := Z.to_nat (element_count b) in
  if (n <=? length (data b))%nat
  then Ret (mkBitset (size b) (element_count b) (replicate n w ++ drop n (data b)))
  else Fault FMem.

Definition bitset_set_all (b : bitset) : outcome bitset := memset_data b 0xFFFFFFFF.
Definition bitset_clear_all (b : bitset) : outcome bitset := memset_data b 0.

Definition bitset_init (b : bitset) (sz : Z) : outcome bitset :=
  bitset_clear_all (mkBitset sz (element_count_for sz) (data b)).

Definition bitset_alloc_size (sz : Z) : outcome Z :=
  let element_count := element_count_for sz in
  let alloc_size := u32 (sizeof_bitset + u32 (4 * element_count)) in
  _ ← c_assert (sz <=? u32 (element_count * BIT_PER_ELEMENT));
  Ret alloc_size.

(** [bitset->data[i]] *)
Definition data_at (b : bitset) (i : Z) : outcome Z := of_option FMem (data b !! Z.to_nat i).

Definition bitset_test (b : bitset) (offset : Z) : outcome bool :=
  _ ← c_assert (offset <? size b);
  let element := offset / BIT_PER_ELEMENT in
  let mask := u32 (Z.shiftl 1 (offset mod BIT_PER_ELEMENT)) in
  w ← data_at b element;
  Ret (nz (Z.land w mask)).

Definition bitset_set (b : bitset) (offset : Z) : outcome bitset :=
  _ ← c_assert (offset <? size b);
  let element := offset / BIT_PER_ELEMENT in
  let mask := u32 (Z.shiftl 1 (offset mod BIT_PER_ELEMENT)) in
  w ← data_at b element;
  Ret (mkBitset (size b) (element_count b) (<[Z.to_nat element := Z.lor w mask]> (data b))).

Definition bitset_clear (b : bitset) (offset : Z) : outcome bitset :=
  _ ← c_assert (offset <? size b);
  let element := offset / BIT_PER_ELEMENT in
  let mask := u32 (Z.lnot (Z.shiftl 1 (offset mod BIT_PER_ELEMENT))) in
  w ← data_at b element;
  Ret (mkBitset (size b) (element_count b) (<[Z.to_nat element := Z.land w mask]> (data b))).

(** First element, from index [i] up and among [n], that satisfies [p]. *)
Fixpoint find_element (b : bitset) (p : Z -> bool) (i : Z) (n : nat) : outcome Z :=
  match n with
  | O => Ret BITSET_INVALID_INDEX
  | S n =>
      w ← data_at b i;
      if p w then Ret i else find_element b p (i + 1) n
  end.

(** First bit, from index [i] up and among [n], that is set ([value]) or clear. *)
Fixpoint find_bit (b : bitset) (value : bool) (i : Z) (n : nat) : outcome Z :=
  match n with
  | O => Fault FAssert                      (* "This should not happen" *)
  | S n =>
      t ← bitset_test b i;
      if Bool.eqb t value then Ret i else find_bit b value (i + 1) n
  end.

Definition bitset_find (b : bitset) (value : Z) : outcome Z :=
  let p := if nz value then nz else fun w => negb (w =? 0xFFFFFFFF) in
  element_index ← find_element b p 0 (Z.to_nat (element_count b));
  if element_index =? BITSET_INVALID_INDEX then Ret BITSET_INVALID_INDEX
  else find_bit b (nz value) (u32 (element_index * BIT_PER_ELEMENT)) 32.

(** ** Abstract view *)

(** Bit [i] of the bitmap. *)
Definition bit (b : bitset) (i : Z) : bool :=
  Z.testbit (default 0 (data b !! Z.to_nat (i / 32))) (i mod 32).

Record wf (b : bitset) : Prop := {
  wf_size : 0 <= size b <= 2 ^ 31;
  wf_count : element_count b = (size b + 31) / 32;
  wf_len : length (data b) = Z.to_nat (element_count b);
  wf_words : Forall (fun w => 0 <= w < 2 ^ 32) (data b);
  wf_tail : forall i, size b <= i < 32 * element_count b -> bit b i = false
}.

(** The bits of the bitmap in order: what a bitset means. *)
Definition bits (b : bitset) : list bool :=
  map (fun i => bit b (Z.of_nat i)) (seq 0 (Z.to_nat (size b))).

(** ** Words *)
Lemma bit_mask k : 0 <= k < 32 -> u32 (Z.shiftl 1 k) = 2 ^ k.
Proof.
  intros. rewrite Z.shiftl_1_l. apply u32_small.
  assert (2 ^ k <= 2 ^ 31) by (apply Z.pow_le_mono_r; lia). lia.
Qed.

Lemma nz_land_bit w k : 0 <= k < 32 -> nz (Z.land w (u32 (Z.shiftl 1 k))) = Z.testbit w k.
Proof.
  intros. rewrite bit_mask by done. unfold nz.
  destruct (Z.testbit w k) eqn:E.
  - apply negb_true_iff, Z.eqb_neq. intros H0.
    assert (Z.testbit (Z.land w (2 ^ k)) k = true) as Hb.
    { by rewrite Z.land_spec, E, Z.pow2_bits_true by lia. }
    by rewrite H0, Z.bits_0 in Hb.
  - apply negb_false_iff, Z.eqb_eq. apply Z.bits_inj'. intros n Hn.
    rewrite Z.land_spec, Z.bits_0, Z.pow2_bits_eqb by lia.
    destruct (k =? n) eqn:Ek; breflect; [subst; by rewrite E|]. apply andb_false_r.
Qed.

Lemma word_set_spec w k n : 0 <= k < 32 -> 0 <= n < 32 ->
  Z.testbit (Z.lor w (u32 (Z.shiftl 1 k))) n = (k =? n) || Z.testbit w n.
Proof.
  intros. rewrite bit_mask by done. rewrite Z.lor_spec, Z.pow2_bits_eqb by lia.
  apply orb_comm.
Qed.

Lemma word_clear_spec w k n : 0 <= k < 32 -> 0 <= n < 32 ->
  Z.testbit (Z.land w (u32 (Z.lnot (Z.shiftl 1 k)))) n = negb (k =? n) && Z.testbit w n.
Proof.
  intros. rewrite Z.land_spec, wrap_testbit, Z.lnot_spec by lia.
  rewrite Z.shiftl_1_l, Z.pow2_bits_eqb by lia.
  replace (n <? 32) with true by (symmetry; apply Z.ltb_lt; lia).
  by rewrite andb_true_r, andb_comm.
Qed.

Lemma full_word w : 0 <= w < 2 ^ 32 ->
  w = 0xFFFFFFFF <-> forall k, 0 <= k < 32 -> Z.testbit w k = true.
Proof.
  intros Hw. split.
  - intros -> k Hk. change 0xFFFFFFFF with (Z.ones 32). apply Z.ones_spec_low. lia.
  - intros H. change 0xFFFFFFFF with (Z.ones 32). apply Z.bits_inj'. intros n Hn.
    destruct (Z.lt_ge_cases n 32).
    + rewrite H, Z.ones_spec_low; auto with lia.
    + rewrite (testbit_range w 32), Z.ones_spec_high; auto with lia.
Qed.

Lemma zero_word w : 0 <= w < 2 ^ 32 ->
  w = 0 <-> forall k, 0 <= k < 32 -> Z.testbit w k = false.
Proof.
  intros Hw. split; [intros -> k _; apply Z.bits_0|].
  intros H. apply Z.bits_inj'. intros n Hn. rewrite Z.bits_0.
  destruct (Z.lt_ge_cases n 32); [auto with lia|]. apply (testbit_range w 32); lia.
Qed.

(** ** Access to one bit *)
Section access.
Context (b : bitset) (Hwf : wf b).

Lemma count_bounds : size b <= 32 * element_count b < size b + 32.
Proof.
  rewrite (wf_count _ Hwf). pose proof (Z.mul_div_le (size b + 31) 32).
  pose proof (Z.mul_succ_div_gt (size b + 31) 32). lia.
Qed.

Lemma element_index_ok i : 0 <= i < 32 * element_count b ->
  (Z.to_nat (i / 32) < length (data b))%nat.
Proof.
  intros Hi. rewrite (wf_len _ Hwf). apply Z2Nat.inj_lt.
  - apply Z.div_pos; lia.
  - pose proof count_bounds. pose proof (wf_size _ Hwf). lia.
  - apply Z.div_lt_upper_bound; lia.
Qed.

Lemma data_at_bit i : 0 <= i < 32 * element_count b ->
  exists w, data b !! Z.to_nat (i / 32) = Some w /\ 0 <= w < 2 ^ 32 /\
    bit b i = Z.testbit w (i mod 32).
Proof.
  intros Hi. destruct (lookup_lt_is_Some_2 _ _ (element_index_ok i Hi)) as [w Hw].
  exists w. split; [done|]. split.
  - pose proof (wf_words _ Hwf) as Hf. rewrite Forall_lookup in Hf. eauto.
  - unfold bit. by rewrite Hw.
Qed.

Lemma bitset_test_ret i : 0 <= i < size b -> bitset_test b i = Ret (bit b i).
Proof.
  intros Hi. pose proof count_bounds.
  destruct (data_at_bit i) as (w & Hw & Hr & Hb); [lia|].
  unfold bitset_test, data_at, BIT_PER_ELEMENT.
  rewrite (proj2 (Z.ltb_lt _ _)) by lia. simpl. rewrite Hw. simpl.
  rewrite nz_land_bit by (apply Z.mod_pos_bound; lia). by rewrite Hb.
Qed.

Lemma bitset_test_fault i : size b <= i -> bitset_test b i = Fault FAssert.
Proof. intros. unfold bitset_test. by rewrite (proj2 (Z.ltb_ge _ _)) by lia. Qed.

(** Replacing the word of bit [i] by one that differs at most in that bit. *)
Lemma word_update i w w' v :
  0 <= i < size b -> data b !! Z.to_nat (i / 32) = Some w -> 0 <= w' < 2 ^ 32 ->
  (forall n, 0 <= n < 32 ->
    Z.testbit w' n = if i mod 32 =? n then v else Z.testbit w n) ->
  let b' := mkBitset (size b) (element_count b) (<[Z.to_nat (i / 32) := w']> (data b)) in
  wf b' /\ forall j, 0 <= j -> bit b' j = if i =? j then v else bit b j.
Proof.
  intros Hi Hw Hw' Hbits b'. pose proof count_bounds.
  assert (Hlt : (Z.to_nat (i / 32) < length (data b))%nat) by (by eapply lookup_lt_Some).
  assert (Hbit : forall j, 0 <= j -> bit b' j = if i =? j then v else bit b j).
  { intros j Hj. unfold bit, b'. simpl.
    pose proof (Z.div_mod i 32). pose proof (Z.div_mod j 32).
    pose proof (Z.mod_pos_bound i 32). pose proof (Z.mod_pos_bound j 32).
    destruct (decide (j / 32 = i / 32)) as [E|E].
    - rewrite E, list_lookup_insert_eq, Hw by done. simpl.
      rewrite Hbits by lia. destruct (i =? j) eqn:Eij; breflect.
      + subst. by rewrite Z.eqb_refl.
      + destruct (i mod 32 =? j mod 32) eqn:Em; breflect; [lia|done].
    - rewrite list_lookup_insert_ne.
      2:{ intros E'. apply Z2Nat.inj in E'; [lia|apply Z.div_pos; lia..]. }
      destruct (i =? j) eqn:Eij; breflect; [subst; lia|done]. }
  split; [|done]. split; simpl.
  - apply Hwf.
  - apply Hwf.
  - rewrite length_insert. apply Hwf.
  - apply Forall_insert; [apply Hwf|done].
  - intros j Hj. rewrite Hbit by (pose proof (wf_size _ Hwf); lia).
    destruct (i =? j) eqn:E; breflect; [lia|]. by apply Hwf.
Qed.

Lemma bitset_set_ret i : 0 <= i < size b -> exists b',
  bitset_set b i = Ret b' /\ wf b' /\ size b' = size b /\
  forall j, 0 <= j -> bit b' j = (i =? j) || bit b j.
Proof.
  intros Hi. pose proof count_bounds.
  destruct (data_at_bit i) as (w & Hw & Hr & _); [lia|].
  pose proof (Z.mod_pos_bound i 32).
  unfold bitset_set, data_at, BIT_PER_ELEMENT.
  rewrite (proj2 (Z.ltb_lt _ _)) by lia. simpl. rewrite Hw. simpl.
  eexists. split; [done|].
  destruct (word_update i w (Z.lor w (u32 (Z.shiftl 1 (i mod 32)))) true) as [? Hb]; try done.
  - apply lor_range; [lia|done|]. rewrite bit_mask by lia.
    split; [lia|]. apply Z.pow_lt_mono_r; lia.
  - intros n Hn. rewrite word_set_spec by lia. by destruct (_ =? _).
Qed.

Lemma bitset_clear_ret i : 0 <= i < size b -> exists b',
  bitset_clear b i = Ret b' /\ wf b' /\ size b' = size b /\
  forall j, 0 <= j -> bit b' j = negb (i =? j) && bit b j.
Proof.
  intros Hi. pose proof count_bounds.
  destruct (data_at_bit i) as (w & Hw & Hr & _); [lia|].
  pose proof (Z.mod_pos_bound i 32).
  unfold bitset_clear, data_at, BIT_PER_ELEMENT.
  rewrite (proj2 (Z.ltb_lt _ _)) by lia. simpl. rewrite Hw. simpl.
  eexists. split; [done|].
  destruct (word_update i w (Z.land w (u32 (Z.lnot (Z.shiftl 1 (i mod 32))))) false)
    as [? Hb]; try done.
  - by apply land_range.
  - intros n Hn. rewrite word_clear_spec by lia. by destruct (_ =? _).
  - split; [done|]. split; [done|]. intros j Hj. rewrite Hb by done. by destruct (_ =? _).
Qed.
End access.

(** ** The list of bits *)
Lemma length_bits b : length (bits b) = Z.to_nat (size b).
Proof. unfold bits. by rewrite length_map, length_seq. Qed.

Lemma lookup_bits b i : 0 <= i < size b -> bits b !! Z.to_nat i = Some (bit b i).
Proof.
  intros Hi. unfold bits. rewrite list_lookup_fmap, lookup_seq_lt by lia. simpl.
  by rewrite Z2Nat.id by lia.
Qed.

Lemma bits_update b b' i v : 0 <= i < size b -> size b' = size b ->
  (forall j, 0 <= j -> bit b' j = if i =? j then v else bit b j) ->
  bits b' = <[Z.to_nat i := v]> (bits b).
Proof.
  intros Hi Hs Hb. apply list_eq. intros n.
  destruct (decide (n < Z.to_nat (size b))%nat) as [Hn|Hn].
  - replace n with (Z.to_nat (Z.of_nat n)) by lia.
    rewrite lookup_bits, Hb by lia. destruct (i =? Z.of_nat n) eqn:E; breflect.
    + subst i. rewrite list_lookup_insert_eq; [done|]. rewrite length_bits. lia.
    + rewrite list_lookup_insert_ne, lookup_bits by lia. done.
  - rewrite !lookup_ge_None_2; [done| |].
    + rewrite length_insert, length_bits. lia.
    + rewrite length_bits. lia.
Qed.

(** ** Initialisation *)
Lemma element_count_for_eq sz : 0 <= sz <= 2 ^ 31 -> element_count_for sz = (sz + 31) / 32.
Proof.
  intros. unfold element_count_for, BIT_PER_ELEMENT. change 32 with (2 ^ 5) at 1.
  rewrite ALIGN_eq by lia. change (2 ^ 5) with 32.
  replace (sz + 32 - 1) with (sz + 31) by lia.
  pose proof (Z.div_mod (sz + 31) 32). replace (sz + 31 - _) with ((sz + 31) / 32 * 32) by lia.
  apply Z.div_mul. lia.
Qed.

Lemma bitset_init_ret b sz : 0 <= sz <= 2 ^ 31 ->
  length (data b) = Z.to_nat ((sz + 31) / 32) ->
  exists b', bitset_init b sz = Ret b' /\ wf b' /\ size b' = sz /\
    forall i, bit b' i = false.
Proof.
  intros Hs Hl. unfold bitset_init, bitset_clear_all, memset_data. simpl.
  rewrite element_count_for_eq, Hl, Nat.leb_refl by done.
  eexists. split; [done|]. rewrite drop_ge by lia. rewrite app_nil_r.
  assert (Hbit : forall i, bit (mkBitset sz ((sz + 31) / 32)
      (replicate (Z.to_nat ((sz + 31) / 32)) 0)) i = false).
  { intros i. unfold bit. simpl. rewrite <- (Z.bits_0 (i mod 32)). f_equal.
    destruct (replicate _ 0 !! _) eqn:E; [|done].
    apply lookup_replicate in E as [-> _]. done. }
  split; [|by split]. split; simpl; auto.
  - by rewrite length_replicate.
  - apply Forall_replicate. lia.
Qed.

(** ** Search *)
Section search.
Context (b : bitset) (Hwf : wf b).

Lemma find_element_spec p n i : 0 <= i -> i + Z.of_nat n = element_count b ->
  (exists k w, i <= k < element_count b /\ find_element b p i n = Ret k /\
     data b !! Z.to_nat k = Some w /\ p w = true /\
     forall j w', i <= j < k -> data b !! Z.to_nat j = Some w' -> p w' = false) \/
  (find_element b p i n = Ret BITSET_INVALID_INDEX /\
     forall j w', i <= j < element_count b -> data b !! Z.to_nat j = Some w' -> p w' = false).
Proof.
  revert i. induction n as [|n IH]; intros i Hi Hn; simpl.
  - right. split; [done|]. intros. lia.
  - assert (is_Some (data b !! Z.to_nat i)) as [w Hw].
    { apply lookup_lt_is_Some. rewrite (wf_len _ Hwf). lia. }
    unfold data_at. rewrite Hw. simpl. destruct (p w) eqn:Hp.
    + left. exists i, w. repeat split; try done; lia.
    + assert (Hfirst : forall w', data b !! Z.to_nat i = Some w' -> p w' = false) by congruence.
      destruct (IH (i + 1)) as [(k & w' & Hk & Hf & Hw' & Hp' & Hlt)|[Hf Hall]]; [lia..| |].
      * left. exists k, w'. repeat split; try done; try lia. intros j w'' Hj.
        destruct (Z.eq_dec i j) as [<-|]; [apply Hfirst|apply Hlt; lia].
      * right. split; [done|]. intros j w'' Hj.
        destruct (Z.eq_dec i j) as [<-|]; [apply Hfirst|apply Hall; lia].
Qed.

Lemma find_bit_ret v n i k : 0 <= i <= k -> k < i + Z.of_nat n -> k < size b ->
  bit b k = v -> (forall j, i <= j < k -> bit b j = negb v) -> find_bit b v i n = Ret k.
Proof.
  revert i. induction n as [|n IH]; intros i Hi Hn Hk Hv Hlt; simpl; [lia|].
  rewrite bitset_test_ret by (done || lia). simpl.
  destruct (Z.eq_dec i k) as [<-|].
  - by rewrite Hv, Bool.eqb_reflx.
  - rewrite (Hlt i) by lia. destruct v; simpl; (apply IH; auto with lia).
Qed.

Lemma find_bit_fault v n i : 0 <= i ->
  (forall j, i <= j < i + Z.of_nat n -> j < size b -> bit b j = negb v) ->
  find_bit b v i n = Fault FAssert.
Proof.
  revert i. induction n as [|n IH]; intros i Hi Hall; simpl; [done|].
  destruct (Z.lt_ge_cases i (size b)).
  - rewrite bitset_test_ret by (done || lia). simpl. rewrite (Hall i) by lia.
    destruct v; simpl; (apply IH; [lia|]; intros; apply Hall; lia).
  - by rewrite bitset_test_fault by lia.
Qed.

(** The bit with index [i] lives in word [i / 32]. *)
Lemma word_bits k w : 0 <= k < element_count b -> data b !! Z.to_nat k = Some w ->
  0 <= w < 2 ^ 32 /\ forall n, 0 <= n < 32 -> Z.testbit w n = bit b (32 * k + n).
Proof.
  intros Hk Hw. split.
  - pose proof (wf_words _ Hwf) as Hf. rewrite Forall_lookup in Hf. eauto.
  - intros n Hn. unfold bit. rewrite Z.mul_comm, Z.div_add_l, Z.div_small, Z.add_0_r by lia.
    rewrite Hw. simpl. by rewrite Z.add_comm, Z.mod_add, Z.mod_small by lia.
Qed.

(** Least index in [i, i+n) with a given bit value, when there is one. *)
Lemma least_bit v n i : 
  (exists k, i <= k < i + Z.of_nat n /\ bit b k = v /\ forall j, i <= j < k -> bit b j = negb v)
  \/ (forall j, i <= j < i + Z.of_nat n -> bit b j = negb v).
Proof.
  revert i. induction n as [|n IH]; intros i; [right; intros; lia|].
  destruct (Bool.eqb (bit b i) v) eqn:E.
  - apply Bool.eqb_prop in E. left. exists i. repeat split; [lia..|done|intros; lia].
  - assert (bit b i = negb v) by (destruct (bit b i), v; done).
    destruct (IH (i + 1)) as [(k & Hk & Hv & Hlt)|Hall].
    + left. exists k. repeat split; [lia..|done|]. intros j Hj.
      destruct (Z.eq_dec i j) as [<-|]; [done|apply Hlt; lia].
    + right. intros j Hj. destruct (Z.eq_dec i j) as [<-|]; [done|apply Hall; lia].
Qed.

(** The bits of the words before the one selected all have the other value. *)
Lemma earlier_bits v k :
  (forall j w, 0 <= j < k -> data b !! Z.to_nat j = Some w ->
     forall n, 0 <= n < 32 -> Z.testbit w n = negb v) ->
  k <= element_count b -> forall j, 0 <= j < 32 * k -> bit b j = negb v.
Proof.
  intros H Hk j Hj. pose proof (Z.div_mod j 32). pose proof (Z.mod_pos_bound j 32).
  assert (0 <= j / 32 < k) by (split; [apply Z.div_pos|apply Z.div_lt_upper_bound]; lia).
  assert (is_Some (data b !! Z.to_nat (j / 32))) as [w Hw].
  { apply lookup_lt_is_Some. rewrite (wf_len _ Hwf). lia. }
  destruct (word_bits (j / 32) w) as [_ Hb]; [lia|done|].
  replace j with (32 * (j / 32) + j mod 32) by lia. rewrite <- Hb by lia.
  by apply (H (j / 32)); [lia| |lia].
Qed.

(** The predicate of the word loop: the word holds a bit of the sought value. *)
Definition has_bit (value : Z) : Z -> bool :=
  if nz value then nz else fun w => negb (w =? 0xFFFFFFFF).

Lemma has_bit_false value w : 0 <= w < 2 ^ 32 -> has_bit value w = false ->
  forall n, 0 <= n < 32 -> Z.testbit w n = negb (nz value).
Proof.
  intros Hw. unfold has_bit. destruct (nz value); intros H; breflect.
  - unfold nz in H. breflect. by apply zero_word.
  - by apply full_word.
Qed.

Lemma has_bit_true value w : 0 <= w < 2 ^ 32 -> has_bit value w = true ->
  ~ (forall n, 0 <= n < 32 -> Z.testbit w n = negb (nz value)).
Proof.
  intros Hw. unfold has_bit. destruct (nz value) eqn:E; simpl; intros H Hall.
  - apply zero_word in Hall; [|done]. by subst.
  - apply full_word in Hall; [|done]. by subst.
Qed.

Lemma element_index_small k : 0 <= k < element_count b ->
  (k =? BITSET_INVALID_INDEX) = false /\ u32 (k * BIT_PER_ELEMENT) = 32 * k.
Proof.
  intros Hk. pose proof (count_bounds b Hwf). pose proof (wf_size _ Hwf).
  unfold BITSET_INVALID_INDEX, BIT_PER_ELEMENT. split.
  - apply Z.eqb_neq. lia.
  - rewrite u32_small; lia.
Qed.

#[local] Arguments find_bit : simpl never.
#[local] Arguments Z.mul : simpl never.

Lemma bitset_find_cases value :
  (exists k, bitset_find b value = Ret k /\ 0 <= k < size b /\ bit b k = nz value /\
     forall j, 0 <= j < k -> bit b j = negb (nz value)) \/
  ((forall j, 0 <= j < size b -> bit b j = negb (nz value)) /\
   (bitset_find b value = Ret BITSET_INVALID_INDEX /\
      (forall j, 0 <= j < 32 * element_count b -> bit b j = negb (nz value)) \/
    bitset_find b value = Fault FAssert /\
      exists j, size b <= j < 32 * element_count b /\ bit b j = nz value)).
Proof.
  pose proof (count_bounds b Hwf). pose proof (wf_size _ Hwf).
  unfold bitset_find. fold (has_bit value).
  destruct (find_element_spec (has_bit value) (Z.to_nat (element_count b)) 0)
    as [(k & w & Hk & -> & Hw & Hp & Hlt)|[-> Hall]]; [lia..| |]; simpl.
  - destruct (element_index_small k Hk) as [-> ->].
    destruct (word_bits k w Hk Hw) as [Hr Hwb].
    assert (Hpre : forall j, 0 <= j < 32 * k -> bit b j = negb (nz value)).
    { apply earlier_bits; [|lia]. intros j w' Hj Hw'.
      destruct (word_bits j w') as [? _]; [lia|done|]. eauto using has_bit_false with lia. }
    destruct (least_bit (nz value) 32 (32 * k)) as [(i & Hi & Hv & Hbefore)|Hnone].
    2:{ exfalso. apply (has_bit_true value w Hr Hp). intros n Hn. rewrite Hwb by done.
        apply Hnone. lia. }
    destruct (Z.lt_ge_cases i (size b)) as [Hi'|Hi'].
    + left. exists i. split; [|split; [lia|split; [done|]]].
      * apply find_bit_ret; auto with lia.
      * intros j Hj. destruct (Z.lt_ge_cases j (32 * k)); auto with lia.
    + right. split.
      * intros j Hj. destruct (Z.lt_ge_cases j (32 * k)); auto with lia.
      * right. split; [|exists i; auto with lia].
        apply find_bit_fault; [lia|]. auto with lia.
  - right. assert (Hb : forall j, 0 <= j < 32 * element_count b -> bit b j = negb (nz value)).
    { apply earlier_bits; [|lia]. intros j w' Hj Hw'.
      destruct (word_bits j w') as [? _]; [lia|done|]. eauto using has_bit_false with lia. }
    split; [auto with lia|]. left. split; [done|]. done.
Qed.
End search.

(** ** Properties *)

(** a bitset implements an array of [size] bits. On an index in range
    [bitset_test] reads, [bitset_set] and [bitset_clear] update exactly that
    bit, keep the representation well formed and never fault; on an index out of
    range all three stop at their assertion. *)
Theorem bitset_refines_bits (b : bitset) (i : Z) (Hwf : wf b) (Hi : 0 <= i) :
  (i < size b ->
     bitset_test b i = Ret (bits b !!! Z.to_nat i) /\
     (exists b', bitset_set b i = Ret b' /\ wf b' /\
        bits b' = <[Z.to_nat i := true]> (bits b)) /\
     (exists b', bitset_clear b i = Ret b' /\ wf b' /\
        bits b' = <[Z.to_nat i := false]> (bits b))) /\
  (size b <= i ->
     bitset_test b i = Fault FAssert /\ bitset_set b i = Fault FAssert /\
     bitset_clear b i = Fault FAssert).
Proof.
  split.
  - intros Hlt. split; [|split].
    + rewrite bitset_test_ret by (done || lia). f_equal. symmetry.
      apply list_lookup_total_correct, lookup_bits. lia.
    + destruct (bitset_set_ret b Hwf i) as (b' & ? & ? & ? & Hb); [lia|].
      exists b'. split; [done|]. split; [done|]. apply bits_update; [lia|done|].
      intros j Hj. rewrite Hb by done. by destruct (_ =? _).
    + destruct (bitset_clear_ret b Hwf i) as (b' & ? & ? & ? & Hb); [lia|].
      exists b'. split; [done|]. split; [done|]. apply bits_update; [lia|done|].
      intros j Hj. rewrite Hb by done. by destruct (_ =? _).
  - intros Hge. unfold bitset_test, bitset_set, bitset_clear.
    by rewrite (proj2 (Z.ltb_ge _ _)).
Qed.

(** A well-formed bitset of 40 bits with bits 0, 3 and 39 set. *)
Definition sample : bitset := mkBitset 40 2 [9; 128].

Lemma sample_wf : wf sample.
Proof.
  split; simpl; try done.
  - repeat constructor; lia.
  - intros i Hi. assert (i / 32 = 1) as E by (symmetry; apply Z.div_unique with (i - 32); lia).
    unfold bit. rewrite E. simpl. rewrite <- (Z.add_0_r (i mod 32)).
    assert (i mod 32 = i - 32) as -> by (symmetry; apply Z.mod_unique with 1; lia).
    change 128 with (2 ^ 7). rewrite Z.pow2_bits_eqb by lia. apply Z.eqb_neq. lia.
Qed.

Lemma bitset_refines_bits_witness :
  bitset_test sample 3 = Ret true /\ bitset_set sample 40 = Fault FAssert.
Proof.
  destruct (bitset_refines_bits sample 3 sample_wf) as [H _]; [lia|].
  destruct (bitset_refines_bits sample 40 sample_wf) as [_ H']; [lia|].
  split; [apply H; reflexivity | apply H'; discriminate].
Defined.

(** [bitset_find(b, 0)] returns the lowest clear index when there is one.
    On a full bitmap it returns [BITSET_INVALID_INDEX] only if the size is a
    multiple of 32; otherwise the padding bits of the last word make it probe past
    the end, and the range assertion of [bitset_test] stops the kernel. *)
Theorem bitset_find_clear_spec (b : bitset) (Hwf : wf b) :
  (forall i, 0 <= i < size b -> bit b i = false ->
     exists k, bitset_find b 0 = Ret k /\ 0 <= k <= i /\ bit b k = false /\
       forall j, 0 <= j < k -> bit b j = true) /\
  ((forall i, 0 <= i < size b -> bit b i = true) ->
     bitset_find b 0 =
       if size b mod 32 =? 0 then Ret BITSET_INVALID_INDEX else Fault FAssert).
Proof.
  pose proof (count_bounds b Hwf). pose proof (wf_size _ Hwf).
  pose proof (Z.div_mod (size b) 32).
  assert (Hmod : size b = 32 * element_count b <-> size b mod 32 = 0).
  { split; [intros ->; rewrite Z.mul_comm; apply Z.mod_mul; lia|lia]. }
  destruct (bitset_find_cases b Hwf 0) as [(k & Hf & Hk & Hv & Hlt)|[Hall Hfull]]; simpl in *.
  - split.
    + intros i Hi Hfree. exists k. repeat split; try done; [lia|].
      destruct (Z.le_gt_cases k i); [done|]. rewrite Hlt in Hfree by lia. done.
    + intros Hset. rewrite Hset in Hv by lia. done.
  - split.
    + intros i Hi Hfree. rewrite Hall in Hfree by done. done.
    + intros _. destruct Hfull as [[-> Hpad]|[-> (j & Hj & _)]].
      * destruct (Z.eq_dec (size b) (32 * element_count b)) as [E|E].
        -- by rewrite (proj2 (Z.eqb_eq _ _) (proj1 Hmod E)).
        -- assert (bit b (size b) = false) by (apply Hwf; lia).
           rewrite Hpad in H2 by lia. done.
      * rewrite (proj2 (Z.eqb_neq _ _)); [done|]. rewrite <- Hmod. lia.
Qed.

Lemma bitset_find_clear_spec_witness :
  (exists k, bitset_find sample 0 = Ret k /\ 0 <= k <= 1) /\
  bitset_find (mkBitset 2 1 [3]) 0 = Fault FAssert.
Proof.
  split.
  - destruct (bitset_find_clear_spec sample sample_wf) as [H _].
    destruct (H 1 ltac:(split; [discriminate|reflexivity]) eq_refl) as (k & Hk & Hle & _).
    exists k. split; [exact Hk | exact Hle].
  - assert (Hwf : wf (mkBitset 2 1 [3])).
    { split; simpl; try done; [repeat constructor; lia|].
      intros i Hi. unfold bit. rewrite Z.div_small, Z.mod_small by lia. simpl.
      apply (testbit_range 3 2); lia. }
    rewrite (proj2 (bitset_find_clear_spec _ Hwf)); [reflexivity|].
    simpl. intros i Hi. assert (i = 0 \/ i = 1) as [->| ->] by lia; reflexivity.
Defined.
