(* ===== verification/Pmm.v ===== *)
(** [kernel/pmm.c]: the physical frame allocator. Each available region of the
    multiboot memory map carries a bitmap with one bit per frame; a frame is
    reserved when its bit is set. The file ends with the interface that the heap
    and the virtual memory manager rely on. *)
From S2P Require Import Prelude Util Bitset.

Definition PAGE_SIZE : Z := 4096.
Definition INVALID_FRAME : Z := 0xFFFFFFFF.

Record multiboot_mmap_entry : Type := mkMmapEntry {
  mmap_addr : Z;
  mmap_len : Z;
  mmap_type : Z
}.
Definition MULTIBOOT_MEMORY_AVAILABLE : Z := 1.

Record memregion : Type := mkRegion {
  addr : Z;
  len : Z;
  bitmap : bitset
}.

(** The static variables of the file; [memregions] is the linked list, most
    recently added region first. *)
Record pmm : Type := mkPmm {
  initialized : bool;
  memregions : list memregion
}.

Definition pmm_start : pmm := mkPmm false [].

Section init.
(** What the words returned by [kmalloc] hold before they are written. *)
Context (fresh_words : nat -> list Z).

Definition add_region (s : pmm) (addr len : Z) : outcome pmm :=
  let aligned_start := ALIGN addr PAGE_SIZE in
  let len := u32 (len - u32 (aligned_start - addr)) in
  let aligned_len := TRUNCATE len PAGE_SIZE in
  _ ← c_assert (aligned_start mod PAGE_SIZE =? 0);
  _ ← c_assert (aligned_len mod PAGE_SIZE =? 0);
  let bitset_size := aligned_len / PAGE_SIZE in
  alloc_size ← bitset_alloc_size bitset_size;
  let storage := fresh_words (Z.to_nat ((alloc_size - sizeof_bitset) / 4)) in
  bm ← bitset_init (mkBitset 0 0 storage) bitset_size;
  Ret (mkPmm (initialized s) (mkRegion aligned_start aligned_len bm :: memregions s)).

Definition entry_usable (e : multiboot_mmap_entry) : bool :=
  negb (nz (HIDWORD (mmap_addr e))) && (mmap_type e =? MULTIBOOT_MEMORY_AVAILABLE).

Fixpoint add_regions (s : pmm) (es : list multiboot_mmap_entry) : outcome pmm :=
  match es with
  | [] => Ret s
  | e :: es =>
      s' ← (if entry_usable e
            then add_region s (LODWORD (mmap_addr e)) (LODWORD (mmap_len e))
            else Ret s);
      add_regions s' es
  end.

Definition pmm_init (s : pmm) (mmap : list multiboot_mmap_entry) : outcome pmm :=
  s' ← add_regions s mmap;
  Ret (mkPmm true (memregions s')).
End init.

Definition pmm_initialized (s : pmm) : bool := initialized s.

(** [page >= region->addr && page < region->addr + region->len] *)
Definition in_region (r : memregion) (page : Z) : bool :=
  (addr r <=? page) && (page <? u32 (addr r + len r)).

Definition page_index (r : memregion) (page : Z) : Z := (page - addr r) / PAGE_SIZE.

Fixpoint find_region (rs : list memregion) (page : Z) : option memregion :=
  match rs with
  | [] => None
  | r :: rs => if in_region r page then Some r else find_region rs page
  end.

Definition pmm_exists (s : pmm) (page : Z) : outcome bool :=
  _ ← c_assert (page mod PAGE_SIZE =? 0);
  Ret (match find_region (memregions s) page with Some _ => true | None => false end).

Definition pmm_reserved (s : pmm) (page : Z) : outcome bool :=
  _ ← c_assert (page mod PAGE_SIZE =? 0);
  match find_region (memregions s) page with
  | Some r => bitset_test (bitmap r) (page_index r page)
  | None => Ret true
  end.

(** The loop of [pmm_reserve] and [pmm_free]: the first region that contains the
    page must have its bit equal to [expected], and [upd] changes it. *)
Fixpoint update_region (expected : bool) (upd : bitset -> Z -> outcome bitset)
    (rs : list memregion) (page : Z) : outcome (list memregion) :=
  match rs with
  | [] => Fault FPanic
  | r :: rs =>
      if in_region r page then
        let index := page_index r page in
        t ← bitset_test (bitmap r) index;
        if Bool.eqb t expected then
          bm ← upd (bitmap r) index;
          Ret (mkRegion (addr r) (len r) bm :: rs)
        else Fault FPanic
      else rs' ← update_region expected upd rs page; Ret (r :: rs')
  end.

Definition pmm_reserve (s : pmm) (page : Z) : outcome pmm :=
  _ ← c_assert (page mod PAGE_SIZE =? 0);
  rs ← update_region false bitset_set (memregions s) page;
  Ret (mkPmm (initialized s) rs).

Definition pmm_free (s : pmm) (page : Z) : outcome pmm :=
  _ ← c_assert (IS_ALIGNED page PAGE_SIZE);
  rs ← update_region true bitset_clear (memregions s) page;
  Ret (mkPmm (initialized s) rs).

Fixpoint alloc_from (rs : list memregion) : outcome (Z * list memregion) :=
  match rs with
  | [] => Ret (INVALID_FRAME, [])
  | r :: rs =>
      index ← bitset_find (bitmap r) 0;
      if index =? BITSET_INVALID_INDEX then
        '(f, rs') ← alloc_from rs; Ret (f, r :: rs')
      else
        bm ← bitset_set (bitmap r) index;
        Ret (u32 (addr r + u32 (index * PAGE_SIZE)), mkRegion (addr r) (len r) bm :: rs)
  end.

Definition pmm_alloc (s : pmm) : outcome (Z * pmm) :=
  '(f, rs) ← alloc_from (memregions s);
  Ret (f, mkPmm (initialized s) rs).

(** ** Invariant *)
Record region_wf (r : memregion) : Prop := {
  rwf_addr : 0 <= addr r /\ addr r mod PAGE_SIZE = 0;
  rwf_len : 0 <= len r /\ len r mod PAGE_SIZE = 0;
  rwf_end : addr r + len r < 2 ^ 32;
  rwf_bitmap : wf (bitmap r);
  rwf_size : size (bitmap r) = len r / PAGE_SIZE
}.

Definition region_disjoint (r1 r2 : memregion) : Prop :=
  addr r1 + len r1 <= addr r2 \/ addr r2 + len r2 <= addr r1.

(** Regions are well formed and pairwise disjoint. *)
Fixpoint regions_wf (rs : list memregion) : Prop :=
  match rs with
  | [] => True
  | r :: rs => region_wf r /\ Forall (region_disjoint r) rs /\ regions_wf rs
  end.

Definition pmm_wf (s : pmm) : Prop := regions_wf (memregions s).

(** ** Abstract view: what the allocator knows of a page *)
Inductive frame_state : Type := Unmanaged | Free | Reserved.
#[export] Instance frame_state_eq_dec : EqDecision frame_state.
Proof. solve_decision. Defined.

Fixpoint frame_in (rs : list memregion) (page : Z) : frame_state :=
  match rs with
  | [] => Unmanaged
  | r :: rs =>
      if in_region r page
      then (if bit (bitmap r) (page_index r page) then Reserved else Free)
      else frame_in rs page
  end.

Definition frame (s : pmm) (page : Z) : frame_state := frame_in (memregions s) page.

(** [frame] after one page changed state. *)
Definition frame_updated (s s' : pmm) (page : Z) (st : frame_state) : Prop :=
  forall q, q mod PAGE_SIZE = 0 -> frame s' q = if q =? page then st else frame s q.

Lemma in_region_iff r page : region_wf r ->
  in_region r page = true <-> addr r <= page < addr r + len r.
Proof.
  intros Hr. destruct (rwf_addr _ Hr), (rwf_len _ Hr). pose proof (rwf_end _ Hr).
  unfold in_region. rewrite u32_small by lia. rewrite andb_true_iff, Z.leb_le, Z.ltb_lt. done.
Qed.

Lemma page_index_range r page : region_wf r -> page mod PAGE_SIZE = 0 ->
  in_region r page = true ->
  0 <= page_index r page < size (bitmap r) /\ page = addr r + page_index r page * PAGE_SIZE.
Proof.
  intros Hr Hp Hin. apply in_region_iff in Hin; [|done].
  rewrite (rwf_size _ Hr). destruct (rwf_addr _ Hr) as [? Ha], (rwf_len _ Hr) as [? Hl].
  unfold page_index, PAGE_SIZE in *.
  assert (E : (page - addr r) mod 4096 = 0) by (rewrite Zminus_mod, Hp, Ha; done).
  pose proof (Z.div_mod (page - addr r) 4096). pose proof (Z.div_mod (len r) 4096).
  split; [|lia]. split; [apply Z.div_pos; lia|].
  lia.
Qed.

Lemma page_index_inj r p q : region_wf r -> p mod PAGE_SIZE = 0 -> q mod PAGE_SIZE = 0 ->
  in_region r p = true -> in_region r q = true ->
  (page_index r p =? page_index r q) = (q =? p).
Proof.
  intros Hr Hp Hq Hip Hiq.
  destruct (page_index_range r p) as [_ Ep]; [done..|].
  destruct (page_index_range r q) as [_ Eq]; [done..|].
  destruct (q =? p) eqn:E; breflect.
  - subst. apply Z.eqb_refl.
  - apply Z.eqb_neq. intros E'. rewrite E' in Ep. lia.
Qed.

Lemma frame_in_disjoint r rs page : Forall (region_disjoint r) rs -> region_wf r ->
  regions_wf rs -> in_region r page = true -> frame_in rs page = Unmanaged.
Proof.
  intros Hd Hr Hrs Hin. induction Hd as [|r' rs Hdis Hd IH]; simpl in *; [done|].
  destruct Hrs as (Hr' & Hd' & Hrs).
  destruct (in_region r' page) eqn:E; [|auto].
  apply in_region_iff in E; [|done]. apply in_region_iff in Hin; [|done].
  unfold region_disjoint in Hdis. lia.
Qed.

(** ** Effect of the loops *)
Definition geometry (r : memregion) : Z * Z := (addr r, len r).

Lemma disjoint_geometry r rs rs' : map geometry rs' = map geometry rs ->
  Forall (region_disjoint r) rs -> Forall (region_disjoint r) rs'.
Proof.
  intros Hg H. revert rs' Hg. induction H as [|x rs Hx H IH]; intros [|y rs'] Hg; try done.
  simpl in Hg. injection Hg as Ha Hl Hg. constructor; [|auto].
  unfold region_disjoint in *. by rewrite Ha, Hl.
Qed.

(** A bitmap with bit [i] replaced by [v]. *)
Definition bit_updated (b b' : bitset) (i : Z) (v : bool) : Prop :=
  wf b' /\ size b' = size b /\ forall j, 0 <= j -> bit b' j = if i =? j then v else bit b j.

Lemma bitset_set_updated b i : wf b -> 0 <= i < size b ->
  exists b', bitset_set b i = Ret b' /\ bit_updated b b' i true.
Proof.
  intros Hb Hi. destruct (bitset_set_ret b Hb i Hi) as (b' & E & ? & ? & Hbit).
  exists b'. split; [done|]. split; [done|]. split; [done|].
  intros j Hj. rewrite Hbit by done. by destruct (_ =? _).
Qed.

Lemma bitset_clear_updated b i : wf b -> 0 <= i < size b ->
  exists b', bitset_clear b i = Ret b' /\ bit_updated b b' i false.
Proof.
  intros Hb Hi. destruct (bitset_clear_ret b Hb i Hi) as (b' & E & ? & ? & Hbit).
  exists b'. split; [done|]. split; [done|]. split; [done|].
  intros j Hj. rewrite Hbit by done. by destruct (_ =? _).
Qed.

Definition state_of (reserved : bool) : frame_state := if reserved then Reserved else Free.

(** Replacing the bitmap of one region updates the state of one page. *)
Lemma region_update r rs b' page v :
  region_wf r -> Forall (region_disjoint r) rs -> regions_wf rs ->
  page mod PAGE_SIZE = 0 -> in_region r page = true ->
  bit_updated (bitmap r) b' (page_index r page) v ->
  let rs' := mkRegion (addr r) (len r) b' :: rs in
  regions_wf rs' /\ map geometry rs' = map geometry (r :: rs) /\
  forall q, q mod PAGE_SIZE = 0 ->
    frame_in rs' q = if q =? page then state_of v else frame_in (r :: rs) q.
Proof.
  intros Hr Hd Hrs Hp Hin (Hwf & Hsz & Hb) rs'. split; [|split; [done|]].
  - simpl. split; [|done]. destruct Hr. split; simpl; try done. by rewrite Hsz.
  - intros q Hq. simpl. unfold in_region at 1. simpl. fold (in_region r q).
    destruct (in_region r q) eqn:Eq.
    + destruct (page_index_range r q) as [? _]; [done..|].
      unfold page_index at 1. simpl. fold (page_index r q).
      rewrite Hb by lia. rewrite (page_index_inj r page q) by done.
      destruct (q =? page); [by destruct v|done].
    + destruct (q =? page) eqn:E; [|done]. breflect. congruence.
Qed.

Lemma frame_in_tail_update r rs rs' page st :
  region_wf r -> in_region r page = false ->
  (forall q, q mod PAGE_SIZE = 0 ->
     frame_in rs' q = if q =? page then st else frame_in rs q) ->
  forall q, q mod PAGE_SIZE = 0 ->
    frame_in (r :: rs') q = if q =? page then st else frame_in (r :: rs) q.
Proof.
  intros Hr Hin H q Hq. simpl. destruct (in_region r q) eqn:E; [|by apply H].
  destruct (q =? page) eqn:E'; [|done]. breflect. congruence.
Qed.

Section update.
Context (expected : bool) (upd : bitset -> Z -> outcome bitset).
Hypothesis upd_spec : forall b i, wf b -> 0 <= i < size b ->
  exists b', upd b i = Ret b' /\ bit_updated b b' i (negb expected).

Lemma update_region_ret rs page : regions_wf rs -> page mod PAGE_SIZE = 0 ->
  frame_in rs page = state_of expected ->
  exists rs', update_region expected upd rs page = Ret rs' /\ regions_wf rs' /\
    map geometry rs' = map geometry rs /\
    forall q, q mod PAGE_SIZE = 0 ->
      frame_in rs' q = if q =? page then state_of (negb expected) else frame_in rs q.
Proof.
  intros Hrs Hp. induction rs as [|r rs IH]; simpl; [by destruct expected|].
  destruct Hrs as (Hr & Hd & Hrs). destruct (in_region r page) eqn:Hin.
  - destruct (page_index_range r page) as [Hi _]; [done..|].
    rewrite bitset_test_ret by (done || apply Hr). intros Hbit. simpl.
    replace (Bool.eqb (bit (bitmap r) (page_index r page)) expected) with true
      by (destruct (bit _ _), expected; done).
    destruct (upd_spec (bitmap r) (page_index r page)) as (b' & -> & Hb'); [apply Hr|done|].
    simpl. eexists. split; [done|]. by apply region_update.
  - intros Hf. destruct (IH Hrs Hf) as (rs' & -> & Hwf & Hg & Hq). simpl.
    eexists. split; [done|]. split; [|split].
    + simpl. split; [done|]. split; [|done]. by eapply disjoint_geometry.
    + simpl. by rewrite Hg.
    + by apply frame_in_tail_update.
Qed.

Lemma update_region_fault rs page : regions_wf rs -> page mod PAGE_SIZE = 0 ->
  frame_in rs page <> state_of expected -> update_region expected upd rs page = Fault FPanic.
Proof.
  intros Hrs Hp. induction rs as [|r rs IH]; simpl; [done|].
  destruct Hrs as (Hr & Hd & Hrs). destruct (in_region r page) eqn:Hin.
  - destruct (page_index_range r page) as [Hi _]; [done..|].
    rewrite bitset_test_ret by (done || apply Hr). intros Hbit. simpl.
    destruct (bit _ _), expected; done.
  - intros Hf. by rewrite IH.
Qed.
End update.

Definition full_region (r : memregion) : Prop :=
  forall i, 0 <= i < size (bitmap r) -> bit (bitmap r) i = true.

Lemma full_region_frame r rs q : region_wf r -> full_region r -> q mod PAGE_SIZE = 0 ->
  frame_in rs q <> Free -> frame_in (r :: rs) q <> Free.
Proof.
  intros Hr Hfull Hq Hrs. simpl. destruct (in_region r q) eqn:E; [|done].
  destruct (page_index_range r q) as [Hi _]; [done..|]. by rewrite Hfull.
Qed.

(** The page of a free index of a region. *)
Lemma index_page r k : region_wf r -> 0 <= k < size (bitmap r) ->
  let f := u32 (addr r + u32 (k * PAGE_SIZE)) in
  f = addr r + k * PAGE_SIZE /\ f mod PAGE_SIZE = 0 /\ in_region r f = true /\
  page_index r f = k /\ f <> INVALID_FRAME.
Proof.
  intros Hr Hk f. rewrite (rwf_size _ Hr) in Hk.
  destruct (rwf_addr _ Hr) as [? Ha], (rwf_len _ Hr) as [? Hl]. pose proof (rwf_end _ Hr).
  unfold PAGE_SIZE in *. pose proof (Z.div_mod (len r) 4096).
  assert (E : f = addr r + k * 4096).
  { unfold f. rewrite (u32_small (k * _)) by lia. apply u32_small. lia. }
  assert (Hm : f mod 4096 = 0) by (by rewrite E, Z.mod_add by lia).
  split; [done|]. split; [done|]. split; [apply in_region_iff; [done|lia]|]. split.
  - unfold page_index, PAGE_SIZE. replace (f - addr r) with (k * 4096) by lia.
    apply Z.div_mul. lia.
  - unfold INVALID_FRAME. intros Ef. rewrite Ef in Hm. done.
Qed.

Lemma alloc_from_cases rs : regions_wf rs ->
  (exists f rs', alloc_from rs = Ret (f, rs') /\ f <> INVALID_FRAME /\ f mod PAGE_SIZE = 0 /\
     frame_in rs f = Free /\ regions_wf rs' /\ map geometry rs' = map geometry rs /\
     forall q, q mod PAGE_SIZE = 0 ->
       frame_in rs' q = if q =? f then Reserved else frame_in rs q) \/
  (alloc_from rs = Ret (INVALID_FRAME, rs) /\
     forall q, q mod PAGE_SIZE = 0 -> frame_in rs q <> Free) \/
  (alloc_from rs = Fault FAssert /\
     exists r, r ∈ rs /\ full_region r /\ size (bitmap r) mod 32 <> 0).
Proof.
  induction rs as [|r rs IH]; intros Hrs.
  { right. left. split; [done|]. done. }
  destruct Hrs as (Hr & Hd & Hrs). simpl alloc_from.
  pose proof (count_bounds _ (rwf_bitmap _ Hr)) as Hcount.
  destruct (bitset_find_cases (bitmap r) (rwf_bitmap _ Hr) 0)
    as [(k & -> & Hk & Hv & Hlt)|[Hfull [[-> Hpad]|[-> (j & Hj & _)]]]]; simpl.
  - left. assert ((k =? BITSET_INVALID_INDEX) = false) as ->.
    { apply Z.eqb_neq. pose proof (wf_size _ (rwf_bitmap _ Hr)).
      unfold BITSET_INVALID_INDEX. lia. }
    destruct (index_page r k Hr Hk) as (_ & Hm & Hin & Hidx & Hne).
    destruct (bitset_set_updated (bitmap r) k) as (b' & -> & Hb'); [apply Hr|done|]. simpl.
    eexists _, _. split; [done|]. split; [done|]. split; [done|].
    split; [by rewrite Hin, Hidx, Hv|].
    rewrite <- Hidx in Hb'. by destruct (region_update r rs b' _ true Hr Hd Hrs Hm Hin Hb').
  - assert (Hf : full_region r) by exact Hfull.
    destruct (IH Hrs) as [(f & rs' & -> & Hne & Hm & Hfree & Hwf & Hg & Hq)
                         |[[-> Hno]|[-> (r' & ? & ?)]]]; simpl.
    + left. eexists _, _. split; [done|]. split; [done|]. split; [done|].
      assert (in_region r f = false).
      { destruct (in_region r f) eqn:E; [|done].
        rewrite (frame_in_disjoint r rs f) in Hfree by done. done. }
      split; [by rewrite H|]. split; [|split].
      * split; [done|]. split; [by eapply disjoint_geometry|done].
      * simpl. by rewrite Hg.
      * by apply frame_in_tail_update.
    + right. left. split; [done|]. intros q Hq. apply full_region_frame; auto.
    + right. right. split; [done|]. exists r'. split; [by right|done].
  - right. right. split; [done|]. exists r. split; [by left|]. split; [exact Hfull|].
    pose proof (Z.div_mod (size (bitmap r)) 32).
    intros E. apply Z.mod_divide in E as [z Hz]; [|lia]. lia.
Qed.

(** ** The operations on the abstract view *)
Lemma aligned_assert page : page mod PAGE_SIZE = 0 ->
  c_assert (page mod PAGE_SIZE =? 0) = Ret tt.
Proof. by intros ->. Qed.

Lemma pmm_reserve_ret s page : pmm_wf s -> page mod PAGE_SIZE = 0 -> frame s page = Free ->
  exists s', pmm_reserve s page = Ret s' /\ pmm_wf s' /\ initialized s' = initialized s /\
    frame_updated s s' page Reserved.
Proof.
  intros Hs Hp Hf. unfold pmm_reserve. rewrite aligned_assert by done. simpl.
  destruct (update_region_ret false bitset_set) with (rs := memregions s) (page := page)
    as (rs' & -> & ? & _ & ?); try done; [apply bitset_set_updated|].
  simpl. eexists. split; [done|]. done.
Qed.

Lemma pmm_free_ret s page : pmm_wf s -> page mod PAGE_SIZE = 0 -> frame s page = Reserved ->
  exists s', pmm_free s page = Ret s' /\ pmm_wf s' /\ initialized s' = initialized s /\
    frame_updated s s' page Free.
Proof.
  intros Hs Hp Hf. unfold pmm_free, IS_ALIGNED. rewrite aligned_assert by done. simpl.
  destruct (update_region_ret true bitset_clear) with (rs := memregions s) (page := page)
    as (rs' & -> & ? & _ & ?); try done; [apply bitset_clear_updated|].
  simpl. eexists. split; [done|]. done.
Qed.

Lemma pmm_alloc_ret s : pmm_wf s ->
  (exists f s', pmm_alloc s = Ret (f, s') /\ f <> INVALID_FRAME /\ f mod PAGE_SIZE = 0 /\
     frame s f = Free /\ pmm_wf s' /\ initialized s' = initialized s /\
     frame_updated s s' f Reserved) \/
  (pmm_alloc s = Ret (INVALID_FRAME, s) /\
     forall q, q mod PAGE_SIZE = 0 -> frame s q <> Free) \/
  (pmm_alloc s = Fault FAssert /\
     exists r, r ∈ memregions s /\ full_region r /\ size (bitmap r) mod 32 <> 0).
Proof.
  intros Hs. unfold pmm_alloc.
  destruct (alloc_from_cases (memregions s) Hs)
    as [(f & rs' & -> & ? & ? & ? & ? & _ & ?)|[[-> ?]|[-> ?]]]; simpl.
  - left. by eexists _, _.
  - right. left. by destruct s.
  - right. by right.
Qed.

Lemma find_region_frame s page : pmm_wf s -> page mod PAGE_SIZE = 0 ->
  match find_region (memregions s) page with
  | Some r => frame s page = state_of (bit (bitmap r) (page_index r page)) /\
      region_wf r /\ in_region r page = true
  | None => frame s page = Unmanaged
  end.
Proof.
  unfold pmm_wf, frame. intros Hs Hp. revert Hs.
  induction (memregions s) as [|r rs IH]; simpl; [done|].
  intros (Hr & _ & Hs). destruct (in_region r page) eqn:E; [|by apply IH].
  split; [by destruct (bit _ _)|done].
Qed.

(** ** Interface

    What the heap and the virtual memory manager rely on: a store of frames with
    an allocation that hands out a frame nobody holds and changes nothing else. *)
Class FrameAllocator (S : Type) : Type := {
  fa_wf : S -> Prop;
  fa_frame : S -> Z -> frame_state;
  fa_alloc : S -> outcome (Z * S);
  fa_reserve : S -> Z -> outcome S;
  fa_free : S -> Z -> outcome S;
  fa_alloc_spec : forall s f s', fa_wf s -> fa_alloc s = Ret (f, s') ->
    fa_wf s' /\
    if f =? INVALID_FRAME then s' = s
    else f mod PAGE_SIZE = 0 /\ fa_frame s f = Free /\
         forall q, q mod PAGE_SIZE = 0 ->
           fa_frame s' q = if q =? f then Reserved else fa_frame s q;
  fa_reserve_spec : forall s q s', fa_wf s -> fa_reserve s q = Ret s' ->
    fa_wf s' /\ q mod PAGE_SIZE = 0 /\ fa_frame s q = Free /\
    forall p, p mod PAGE_SIZE = 0 ->
      fa_frame s' p = if p =? q then Reserved else fa_frame s p;
  fa_free_spec : forall s q s', fa_wf s -> fa_free s q = Ret s' ->
    fa_wf s' /\ q mod PAGE_SIZE = 0 /\ fa_frame s q = Reserved /\
    forall p, p mod PAGE_SIZE = 0 ->
      fa_frame s' p = if p =? q then Free else fa_frame s p;
  fa_range : forall s q, fa_wf s -> fa_frame s q <> Unmanaged -> 0 <= q < 2 ^ 32;
  fa_free_ok : forall s q, fa_wf s -> q mod PAGE_SIZE = 0 -> fa_frame s q = Reserved -> exists s', fa_free s q = Ret s'
}.

Lemma pmm_fa_alloc s f s' : pmm_wf s -> pmm_alloc s = Ret (f, s') ->
  pmm_wf s' /\
  if f =? INVALID_FRAME then s' = s
  else f mod PAGE_SIZE = 0 /\ frame s f = Free /\
       forall q, q mod PAGE_SIZE = 0 -> frame s' q = if q =? f then Reserved else frame s q.
Proof.
  intros Hs E. destruct (pmm_alloc_ret s Hs)
    as [(f' & s'' & E' & Hne & Hm & Hf & Hwf & _ & Hu)|[[E' _]|[E' _]]];
    rewrite E in E'; simplify_eq; [|by split; [|rewrite Z.eqb_refl]].
  split; [done|]. rewrite (proj2 (Z.eqb_neq _ _)) by done. done.
Qed.

Lemma pmm_fa_reserve s q s' : pmm_wf s -> pmm_reserve s q = Ret s' ->
  pmm_wf s' /\ q mod PAGE_SIZE = 0 /\ frame s q = Free /\ frame_updated s s' q Reserved.
Proof.
  intros Hs E. destruct (decide (q mod PAGE_SIZE = 0)) as [Hq|Hq].
  - destruct (decide (frame s q = Free)) as [Hf|Hf].
    + destruct (pmm_reserve_ret s q Hs Hq Hf) as (s'' & E' & ? & _ & ?).
      rewrite E in E'. by simplify_eq.
    + unfold pmm_reserve in E. rewrite aligned_assert in E by done. simpl in E.
      rewrite (update_region_fault false bitset_set) in E by (done || apply bitset_set_updated).
      done.
  - unfold pmm_reserve in E. by rewrite (proj2 (Z.eqb_neq _ _)) in E.
Qed.

Lemma pmm_fa_free s q s' : pmm_wf s -> pmm_free s q = Ret s' ->
  pmm_wf s' /\ q mod PAGE_SIZE = 0 /\ frame s q = Reserved /\ frame_updated s s' q Free.
Proof.
  intros Hs E. destruct (decide (q mod PAGE_SIZE = 0)) as [Hq|Hq].
  - destruct (decide (frame s q = Reserved)) as [Hf|Hf].
    + destruct (pmm_free_ret s q Hs Hq Hf) as (s'' & E' & ? & _ & ?).
      rewrite E in E'. by simplify_eq.
    + unfold pmm_free, IS_ALIGNED in E. rewrite aligned_assert in E by done. simpl in E.
      rewrite (update_region_fault true bitset_clear) in E by (done || apply bitset_clear_updated).
      done.
  - unfold pmm_free, IS_ALIGNED in E. by rewrite (proj2 (Z.eqb_neq _ _)) in E.
Qed.

Lemma pmm_fa_range s q : pmm_wf s -> frame s q <> Unmanaged -> 0 <= q < 2 ^ 32.
Proof.
  unfold pmm_wf, frame. induction (memregions s) as [|r rs IH]; [done|]. intros (Hr & _ & Hs) Hf. cbn in Hf.
  destruct (in_region r q) eqn:E; [|by apply IH]. apply in_region_iff in E; [|done].
  destruct Hr as [[? _] _ ? _ _]. lia.
Qed.

Lemma pmm_fa_free_ok s q : pmm_wf s -> q mod PAGE_SIZE = 0 -> frame s q = Reserved -> exists s', pmm_free s q = Ret s'.
Proof. intros Hs Hq Hf. destruct (pmm_free_ret s q Hs Hq Hf) as (s' & E & _). by exists s'. Qed.

#[export] Instance pmm_frame_allocator : FrameAllocator pmm := {
  fa_wf := pmm_wf;
  fa_frame := frame;
  fa_alloc := pmm_alloc;
  fa_reserve := pmm_reserve;
  fa_free := pmm_free;
  fa_alloc_spec := pmm_fa_alloc;
  fa_reserve_spec := pmm_fa_reserve;
  fa_free_spec := pmm_fa_free;
  fa_range := pmm_fa_range;
  fa_free_ok := pmm_fa_free_ok
}.

(** ** Initialisation from the memory map *)

(** The low doublewords of an entry delimit a block below 4 GiB that contains a
    page boundary. *)
Definition entry_ok (a l : Z) : Prop :=
  0 <= a /\ a + 4095 < 2 ^ 32 /\ (- a) mod 4096 <= l /\ a + l < 2 ^ 32.

(** The pages that lie entirely inside the block. *)
Definition whole_page (a l q : Z) : bool := (a <=? q) && (q + PAGE_SIZE <=? a + l).

Lemma page_up a : 0 <= a -> a + 4095 < 2 ^ 32 -> ALIGN a PAGE_SIZE = a + (- a) mod 4096.
Proof.
  intros. unfold PAGE_SIZE. change 4096 with (2 ^ 12) at 1.
  destruct (ALIGN_bounds 12 a) as [Hm Hr]; [lia..|].
  change (2 ^ 12) with 4096 in *. apply Z.mod_divide in Hm as [k Hk]; [|lia].
  assert ((- a) mod 4096 = ALIGN a 4096 - a) as ->; [|lia].
  symmetry. apply Z.mod_unique with (- k); lia.
Qed.

Section init_lemmas.
Context (fresh_words : nat -> list Z).
Hypothesis fresh_length : forall n, length (fresh_words n) = n.

Lemma region_bitmap_init n : 0 <= n <= 2 ^ 20 ->
  exists sz, bitset_alloc_size n = Ret sz /\
  exists b, bitset_init (mkBitset 0 0 (fresh_words (Z.to_nat ((sz - sizeof_bitset) / 4)))) n
      = Ret b /\ wf b /\ size b = n /\ forall i, bit b i = false.
Proof.
  intros Hn. unfold bitset_alloc_size. rewrite element_count_for_eq by lia.
  pose proof (Z.mul_div_le (n + 31) 32). pose proof (Z.mul_succ_div_gt (n + 31) 32).
  set (c := (n + 31) / 32) in *. unfold BIT_PER_ELEMENT, sizeof_bitset.
  rewrite (u32_small (4 * c)) by lia. rewrite !u32_small by lia.
  rewrite (proj2 (Z.leb_le _ _)) by lia. simpl. eexists. split; [done|].
  replace (8 + 4 * c - 8) with (c * 4) by lia. rewrite Z.div_mul by lia.
  apply bitset_init_ret; [lia|]. simpl. by rewrite fresh_length.
Qed.

Lemma add_region_ret s a l : entry_ok a l ->
  exists r, add_region fresh_words s a l = Ret (mkPmm (initialized s) (r :: memregions s)) /\
    region_wf r /\ (forall i, bit (bitmap r) i = false) /\
    a <= addr r /\ addr r + len r <= a + l /\
    forall q, q mod PAGE_SIZE = 0 -> in_region r q = whole_page a l q.
Proof.
  intros (Ha & Ha' & Hg & Hl). pose proof (Z.mod_pos_bound (- a) 4096).
  unfold add_region. rewrite page_up by done. set (g := (- a) mod 4096) in *.
  assert (Hal : (a + g) mod 4096 = 0).
  { unfold g. rewrite Zplus_mod_idemp_r, Z.add_opp_diag_r. done. }
  rewrite (u32_small (a + g - a)) by lia. rewrite u32_small by lia.
  replace (l - (a + g - a)) with (l - g) by lia.
  destruct (TRUNCATE_bounds PAGE_SIZE (l - g)) as [Hm Hb]; unfold PAGE_SIZE in *; [lia..|].
  set (n := TRUNCATE (l - g) 4096) in *. rewrite Hal, Hm. simpl.
  assert (0 <= n / 4096 <= 2 ^ 20).
  { split; [apply Z.div_pos; lia|]. apply Z.div_le_upper_bound; lia. }
  destruct (region_bitmap_init (n / 4096)) as (sz & -> & b & Hb' & Hwf & Hsz & Hbit); [done|].
  simpl. rewrite Hb'. simpl. eexists. split; [done|].
  assert (Hr : region_wf (mkRegion (a + g) n b)).
  { split; simpl; unfold PAGE_SIZE; auto with lia. }
  split; [done|]. split; [done|]. simpl. split; [lia|]. split; [lia|].
  intros q Hq. apply eq_bool_prop_intro. rewrite !Is_true_true.
  rewrite in_region_iff by done. simpl. unfold whole_page, PAGE_SIZE.
  rewrite andb_true_iff, !Z.leb_le. apply Z.mod_divide in Hq as [kq ->]; [|lia].
  apply Z.mod_divide in Hal as [ka Hka]; [|lia]. apply Z.mod_divide in Hm as [kn Hkn]; [|lia].
  lia.
Qed.

Definition low_block (e : multiboot_mmap_entry) : Z * Z :=
  (LODWORD (mmap_addr e), LODWORD (mmap_len e)).
Definition usable (es : list multiboot_mmap_entry) : list (Z * Z) :=
  map low_block (List.filter entry_usable es).

(** Every block of [bs] lies outside every region of [rs]. *)
Definition outside (bs : list (Z * Z)) (rs : list memregion) : Prop :=
  forall a l r, (a, l) ∈ bs -> r ∈ rs -> a + l <= addr r \/ addr r + len r <= a.

Fixpoint blocks_ok (bs : list (Z * Z)) : Prop :=
  match bs with
  | [] => True
  | (a, l) :: bs => entry_ok a l /\
      Forall (fun b => a + l <= b.1 \/ b.1 + b.2 <= a) bs /\ blocks_ok bs
  end.

Definition in_blocks (bs : list (Z * Z)) (q : Z) : bool :=
  existsb (fun b => whole_page b.1 b.2 q) bs.

Lemma add_regions_ret es s : pmm_wf s -> blocks_ok (usable es) ->
  outside (usable es) (memregions s) ->
  exists s', add_regions fresh_words s es = Ret s' /\ pmm_wf s' /\
    forall q, q mod PAGE_SIZE = 0 ->
      frame s' q = if in_blocks (usable es) q then Free else frame s q.
Proof.
  revert s. induction es as [|e es IH]; intros s Hs Hok Hout; [by exists s|].
  cbn [add_regions]. unfold usable in *. cbn [List.filter map] in *.
  destruct (entry_usable e) eqn:Eu; [|by apply IH]. cbn [map low_block blocks_ok] in Hok.
  destruct Hok as (He & Hdis & Hok).
  set (a := LODWORD (mmap_addr e)) in *. set (l := LODWORD (mmap_len e)) in *.
  destruct (add_region_ret s a l He) as (r & -> & Hr & Hbit & Hlo & Hhi & Hin). simpl.
  destruct (IH (mkPmm (initialized s) (r :: memregions s))) as (s' & -> & Hwf & Hf).
  - split; [done|]. split; [|done]. apply Forall_forall. intros r' Hr'.
    destruct (Hout a l r'); [simpl; by left|done| |]; unfold region_disjoint; lia.
  - done.
  - intros a' l' r' Hb Hr'. simpl in Hr'. apply elem_of_cons in Hr' as [->|Hr'].
    + rewrite Forall_forall in Hdis. specialize (Hdis (a', l') Hb). simpl in Hdis. lia.
    + apply Hout; [by right|done].
  - exists s'. split; [done|]. split; [done|]. intros q Hq. rewrite Hf by done.
    unfold frame at 1, in_blocks. cbn [memregions frame_in map existsb]. rewrite Hin, Hbit by done.
    cbn [low_block fst snd]. fold a l. by destruct (whole_page a l q), (existsb _ _).
Qed.
End init_lemmas.

(** ** Properties *)

(** C4: [pmm_alloc] hands out a frame that was free, page-aligned and managed by
    a region, marks it reserved and changes the state of no other page; it
    answers [INVALID_FRAME], leaving the state unchanged, only when no frame is
    free. The remaining outcome is an assertion failure, and it needs a full
    region whose number of frames is not a multiple of 32. *)
Theorem pmm_alloc_spec (s : pmm) (Hs : pmm_wf s) :
  (exists f s', pmm_alloc s = Ret (f, s') /\ f <> INVALID_FRAME /\ f mod PAGE_SIZE = 0 /\
     frame s f = Free /\ pmm_wf s' /\
     forall q, q mod PAGE_SIZE = 0 ->
       frame s' q = if q =? f then Reserved else frame s q) \/
  (pmm_alloc s = Ret (INVALID_FRAME, s) /\
     forall q, q mod PAGE_SIZE = 0 -> frame s q <> Free) \/
  (pmm_alloc s = Fault FAssert /\
     exists r, r ∈ memregions s /\ full_region r /\ size (bitmap r) mod 32 <> 0).
Proof.
  destruct (pmm_alloc_ret s Hs) as [(f & s' & ? & ? & ? & ? & ? & _ & ?)|[?|?]]; auto.
  left. by exists f, s'.
Qed.

(** Two regions: 2 frames from 0x1000 (one reserved) and 40 frames from 0x10000. *)
Definition sample_pmm : pmm :=
  mkPmm true [mkRegion 0x1000 0x2000 (mkBitset 2 1 [1]); mkRegion 0x10000 0x28000 sample].

Lemma sample_pmm_wf : pmm_wf sample_pmm.
Proof.
  assert (Hsmall : wf (mkBitset 2 1 [1])).
  { split; simpl; try done; [repeat constructor; lia|].
    intros i Hi. unfold bit. rewrite Z.div_small, Z.mod_small by lia. simpl.
    apply (testbit_range 1 1); lia. }
  unfold pmm_wf. cbn [memregions regions_wf sample_pmm]. split_and!.
  - split; simpl; unfold PAGE_SIZE; done.
  - constructor; [left; simpl; lia|constructor].
  - split; simpl; unfold PAGE_SIZE; auto using sample_wf; done.
  - constructor.
  - constructor.
Qed.

Lemma pmm_alloc_spec_witness :
  pmm_wf sample_pmm /\ exists f s', pmm_alloc sample_pmm = Ret (f, s') /\ frame sample_pmm f = Free.
Proof.
  split; [exact sample_pmm_wf|].
  destruct (pmm_alloc_spec sample_pmm sample_pmm_wf)
    as [(f & s' & E & _ & _ & Hf & _)|[[E _]|[E _]]].
  - exists f, s'. split; [exact E|exact Hf].
  - vm_compute in E. discriminate E.
  - vm_compute in E. discriminate E.
Defined.

(** reservation and release of a given page, every branch. [pmm_reserve]
    succeeds exactly on a free page and [pmm_free] exactly on a reserved one, each
    changing that page only; reserving twice, freeing twice and naming a page of
    no region stop the kernel. [pmm_exists] and [pmm_reserved] report the state
    (a page of no region counts as reserved). *)
Theorem pmm_reserve_free_spec (s : pmm) (page : Z)
    (Hs : pmm_wf s) (Hp : page mod PAGE_SIZE = 0) :
  pmm_exists s page = Ret (negb (bool_decide (frame s page = Unmanaged))) /\
  pmm_reserved s page = Ret (negb (bool_decide (frame s page = Free))) /\
  match frame s page with
  | Free => (exists s', pmm_reserve s page = Ret s' /\ pmm_wf s' /\
               frame_updated s s' page Reserved) /\
            pmm_free s page = Fault FPanic
  | Reserved => pmm_reserve s page = Fault FPanic /\
            (exists s', pmm_free s page = Ret s' /\ pmm_wf s' /\ frame_updated s s' page Free)
  | Unmanaged => pmm_reserve s page = Fault FPanic /\ pmm_free s page = Fault FPanic
  end.
Proof.
  assert (Hres : frame s page <> Free -> pmm_reserve s page = Fault FPanic).
  { intros Hf. unfold pmm_reserve. rewrite aligned_assert by done. simpl.
    by rewrite update_region_fault by (done || apply bitset_set_updated). }
  assert (Hfree : frame s page <> Reserved -> pmm_free s page = Fault FPanic).
  { intros Hf. unfold pmm_free, IS_ALIGNED. rewrite aligned_assert by done. simpl.
    by rewrite update_region_fault by (done || apply bitset_clear_updated). }
  pose proof (find_region_frame s page Hs Hp) as Hfr.
  unfold pmm_exists, pmm_reserved. rewrite aligned_assert by done. simpl.
  destruct (find_region _ page) as [r|].
  - destruct Hfr as (E & Hr & Hin). destruct (page_index_range r page Hr Hp Hin) as [Hi _].
    rewrite bitset_test_ret by (done || apply Hr).
    rewrite E in Hres, Hfree |- *. destruct (bit _ _); simpl in *; (split; [done|]; split; [done|]).
    + destruct (pmm_free_ret s page Hs Hp E) as (s' & ? & ? & _ & ?).
      split; [by apply Hres|eauto].
    + destruct (pmm_reserve_ret s page Hs Hp E) as (s' & ? & ? & _ & ?).
      split; [eauto|by apply Hfree].
  - rewrite Hfr in Hres, Hfree |- *. split_and!; [done..|by apply Hres|by apply Hfree].
Qed.

Lemma pmm_reserve_free_spec_witness :
  pmm_reserve sample_pmm 0x1000 = Fault FPanic /\
  exists s', pmm_reserve sample_pmm 0x2000 = Ret s' /\ frame s' 0x2000 = Reserved.
Proof.
  destruct (pmm_reserve_free_spec sample_pmm 0x1000 sample_pmm_wf eq_refl) as (_ & _ & H).
  destruct (pmm_reserve_free_spec sample_pmm 0x2000 sample_pmm_wf eq_refl) as (_ & _ & H').
  split; [exact (proj1 H)|].
  destruct (proj1 H') as (s' & E & _ & Hu). exists s'. split; [exact E|].
  rewrite (Hu 0x2000 eq_refl). reflexivity.
Defined.

(** On a memory map whose usable entries are disjoint blocks below 4 GiB,
    each containing a page boundary, [pmm_init] returns and the free frames
    are exactly the pages that lie entirely inside a usable entry; every other
    page is unmanaged. *)
Theorem pmm_init_spec (fresh_words : nat -> list Z) (mmap : list multiboot_mmap_entry)
    (Hfresh : forall n, length (fresh_words n) = n) (Hok : blocks_ok (usable mmap)) :
  exists s, pmm_init fresh_words pmm_start mmap = Ret s /\ pmm_initialized s = true /\
    pmm_wf s /\
    forall q, q mod PAGE_SIZE = 0 ->
      frame s q = if in_blocks (usable mmap) q then Free else Unmanaged.
Proof.
  destruct (add_regions_ret fresh_words Hfresh mmap pmm_start) as (s & E & Hs & Hf);
    [done|done| |].
  { intros a l r _ Hr. by apply not_elem_of_nil in Hr. }
  unfold pmm_init. rewrite E. simpl. eexists. split; [done|]. split; [done|].
  split; [exact Hs|]. exact Hf.
Qed.

(** The memory map of a machine with 640 KiB of low memory and one 1 MiB block. *)
Definition sample_mmap : list multiboot_mmap_entry :=
  [mkMmapEntry 0 0x9FC00 1; mkMmapEntry 0x9FC00 0x400 2; mkMmapEntry 0x100000 0x100000 1].

Lemma pmm_init_spec_witness : exists s,
  pmm_init (fun n => replicate n 0xA5A5A5A5) pmm_start sample_mmap = Ret s /\
  frame s 0x9E000 = Free /\ frame s 0x9F000 = Unmanaged.
Proof.
  destruct (pmm_init_spec (fun n => replicate n 0xA5A5A5A5) sample_mmap) as (s & E & _ & _ & Hf).
  - intros n. apply length_replicate.
  - change (usable sample_mmap) with [(0, 0x9FC00); (0x100000, 0x100000)].
    cbn [blocks_ok]. unfold entry_ok. split_and!; try lia; try done.
    constructor; [left; simpl; lia|constructor].
  - exists s. split; [exact E|]. split; [exact (Hf 0x9E000 eq_refl)|exact (Hf 0x9F000 eq_refl)].
Defined.

(** An available entry too short to reach the next page boundary does not
    produce an empty region. The subtraction of the alignment gap wraps around
    and the region claims almost the whole 4 GiB address space. *)
Theorem add_region_short_entry_wraps (fresh_words : nat -> list Z) (s : pmm) (a l : Z)
    (Hfresh : forall n, length (fresh_words n) = n)
    (Ha : 0 <= a) (Ha' : a + 4095 < 2 ^ 32) (Hl : 0 <= l) (Hshort : l < (- a) mod 4096) :
  exists r, add_region fresh_words s a l = Ret (mkPmm (initialized s) (r :: memregions s)) /\
    addr r = ALIGN a PAGE_SIZE /\ len r = 2 ^ 32 - 4096.
Proof.
  unfold add_region. rewrite page_up by done. pose proof (Z.mod_pos_bound (- a) 4096).
  set (g := (- a) mod 4096) in *. unfold PAGE_SIZE.
  assert (Hal : (a + g) mod 4096 = 0).
  { unfold g. rewrite Zplus_mod_idemp_r, Z.add_opp_diag_r. done. }
  rewrite (u32_small (a + g - a)) by lia.
  assert (TRUNCATE (u32 (l - (a + g - a))) 4096 = 2 ^ 32 - 4096) as ->.
  { rewrite (wrap_cong 32 _ (2 ^ 32 + l - g) (-1)) by lia. rewrite u32_small by lia.
    unfold TRUNCATE. replace ((2 ^ 32 + l - g) / 4096) with (2 ^ 20 - 1); [lia|].
    apply Z.div_unique with (4096 + l - g); lia. }
  assert (((2 ^ 32 - 4096) mod 4096 =? 0) = true) as Hd by reflexivity.
  assert (0 <= (2 ^ 32 - 4096) / 4096 <= 2 ^ 20) as Hm by (vm_compute; split; discriminate).
  generalize dependent (2 ^ 32 - 4096). intros L Hd Hm.
  destruct (region_bitmap_init fresh_words Hfresh (L / 4096) Hm) as (sz & E & b & E' & _).
  rewrite Hal, Hd. cbn [Z.eqb c_assert mbind outcome_bind].
  rewrite E. cbn [mbind outcome_bind]. rewrite E'. cbn [mbind outcome_bind]. by eexists.
Qed.

Lemma add_region_short_entry_wraps_witness : exists r,
  add_region (fun n => replicate n 0) pmm_start 0x9FC01 0x100
    = Ret (mkPmm false [r]) /\ addr r = 0xA0000 /\ len r = 0xFFFFF000.
Proof.
  destruct (add_region_short_entry_wraps (fun n => replicate n 0) pmm_start 0x9FC01 0x100)
    as (r & E & Ha & Hl).
  - intros n. apply length_replicate.
  - discriminate.
  - reflexivity.
  - discriminate.
  - reflexivity.
  - exists r. split; [exact E|]. split; [exact Ha|exact Hl].
Defined.
