(* ===== verification/Locks.v ===== *)
(** [common/locks.c], [common/locks.asm], [common/spinlock.h]: interrupt-flag
    critical sections and the try-lock spinlocks whose failure the kernel treats
    as a concurrency bug. *)
From S2P Require Import Prelude.

Definition EFLAGS_IF : Z := Z.shiftl 1 9.

(** The processor's flags register is the state of [cli] and [sti]. *)
Definition cli (eflags : Z) : Z := Z.ldiff eflags EFLAGS_IF.
Definition sti (eflags : Z) : Z := Z.lor eflags EFLAGS_IF.

Definition interrupts_enabled (eflags : Z) : bool := nz (Z.land eflags EFLAGS_IF).

Definition disable_if (eflags : Z) : Z * Z :=
  let result := if nz (Z.land eflags EFLAGS_IF) then 1 else 0 in
  (result, cli eflags).

Definition restore_if (eflags state : Z) : Z := if nz state then sti eflags else cli eflags.

(** [lock cmpxchg]: returns the old value and the new contents of the word. *)
Definition cmpxchg (dest exchange compare : Z) : Z * Z :=
  if dest =? compare then (compare, exchange) else (dest, dest).

Definition SPINLOCK_INIT : Z := 0.

Definition spinlock_try_lock (l : Z) : bool * Z :=
  let '(result, l') := cmpxchg l 1 0 in (result =? 0, l').

Definition spinlock_try_unlock (l : Z) : bool * Z :=
  let '(result, l') := cmpxchg l 0 1 in (result =? 1, l').

(** The macros [checked_lock] and [checked_unlock]. *)
Definition checked_lock (l : Z) : outcome Z :=
  let '(locked, l') := spinlock_try_lock l in if locked then Ret l' else Fault FPanic.
Definition checked_unlock (l : Z) : outcome Z :=
  let '(locked, l') := spinlock_try_unlock l in if locked then Ret l' else Fault FPanic.

Lemma EFLAGS_IF_bit e n : 0 <= n -> Z.testbit EFLAGS_IF n = (n =? 9) /\
  interrupts_enabled e = Z.testbit e 9.
Proof.
  intros Hn. unfold EFLAGS_IF, interrupts_enabled, nz. rewrite Z.shiftl_1_l. split.
  - rewrite Z.pow2_bits_eqb by lia. apply Z.eqb_sym.
  - destruct (Z.testbit e 9) eqn:E.
    + apply negb_true_iff, Z.eqb_neq. intros H0.
      assert (Z.testbit (Z.land e (2 ^ 9)) 9 = true) as Hb.
      { by rewrite Z.land_spec, E, Z.pow2_bits_true by lia. }
      unfold EFLAGS_IF in H0. rewrite Z.shiftl_1_l in H0. by rewrite H0, Z.bits_0 in Hb.
    + apply negb_false_iff, Z.eqb_eq. apply Z.bits_inj'. intros m Hm.
      unfold EFLAGS_IF. rewrite Z.shiftl_1_l, Z.land_spec, Z.bits_0, Z.pow2_bits_eqb by lia.
      destruct (9 =? m) eqn:Em; breflect; [subst; by rewrite E|apply andb_false_r].
Qed.

Lemma sti_bits e n : 0 <= n -> Z.testbit (sti e) n = (n =? 9) || Z.testbit e n.
Proof.
  intros. unfold sti. rewrite Z.lor_spec. rewrite (proj1 (EFLAGS_IF_bit e n H)).
  apply orb_comm.
Qed.

Lemma cli_bits e n : 0 <= n -> Z.testbit (cli e) n = negb (n =? 9) && Z.testbit e n.
Proof.
  intros. unfold cli. rewrite Z.ldiff_spec. rewrite (proj1 (EFLAGS_IF_bit e n H)).
  apply andb_comm.
Qed.

(** A critical section ends with the flags register it started with, whether or
    not interrupts were enabled; so critical sections nest. *)
Lemma critical_section_restores e :
  let '(ifstate, e1) := disable_if e in
  interrupts_enabled e1 = false /\ restore_if e1 ifstate = e.
Proof.
  unfold disable_if, restore_if. fold (interrupts_enabled e).
  rewrite (proj2 (EFLAGS_IF_bit (cli e) 0 ltac:(lia))), cli_bits by lia.
  rewrite (proj2 (EFLAGS_IF_bit e 0 ltac:(lia))). split; [done|].
  apply Z.bits_inj'. intros n Hn.
  destruct (Z.testbit e 9) eqn:E; simpl; rewrite ?sti_bits, ?cli_bits by lia;
    destruct (n =? 9) eqn:En; breflect; subst; simpl; rewrite ?E; done.
Qed.

Lemma lock_unlock l l1 : spinlock_try_lock l = (true, l1) -> spinlock_try_unlock l1 = (true, 0).
Proof.
  unfold spinlock_try_lock, spinlock_try_unlock, cmpxchg.
  destruct (l =? 0) eqn:E; simpl; intros; simplify_eq; [done|]. congruence.
Qed.

Lemma lock_held l l1 : spinlock_try_lock l = (true, l1) ->
  l1 = 1 /\ spinlock_try_lock l1 = (false, 1).
Proof.
  unfold spinlock_try_lock, cmpxchg.
  destruct (l =? 0) eqn:E; simpl; intros; simplify_eq; [done|]. congruence.
Qed.

Lemma checked_lock_unlock l l1 : checked_lock l = Ret l1 -> l = 0 /\ checked_unlock l1 = Ret 0.
Proof.
  unfold checked_lock, checked_unlock.
  destruct (spinlock_try_lock l) as [b l'] eqn:E. destruct b; [|done]. intros [= <-].
  pose proof (lock_unlock _ _ E) as ->. split; [|done].
  unfold spinlock_try_lock, cmpxchg in E. destruct (l =? 0) eqn:E0; simplify_eq/=; by breflect.
Qed.
