(* ===== verification/Heap.v ===== *)
(** [kernel/heap.c]: the kernel heap, a list of blocks that tile a contiguous
    memory area, each starting with a 16-byte header and, when allocated, ending
    with an 8-byte canary. Blocks live in byte memory, because headers and
    canaries are written at arbitrary, possibly unaligned, addresses. *)
From S2P Require Import Prelude Util Mem Pmm Locks.

Definition MAGIC_ALLOCATED : Z := 0xABCDEF01.
Definition MAGIC_FREE : Z := 0x12345678.
Definition CANARY : Z := 0x7778798081828384.
Definition BLOCK_ALLOCATED : Z := 0x1.
Definition KERNEL_BASE_ADDR : Z := 0xC0000000.
Definition VMM_PAGE_PRESENT : Z := 0x1.
Definition VMM_PAGE_WRITABLE : Z := 0x2.

(** [struct heap_block_header]: four 32-bit fields. *)
Definition sizeof_header : Z := 16.
Definition magic (m : mem) (h : Z) : Z := load32 m h.
Definition flags (m : mem) (h : Z) : Z := load32 m (h + 4).
Definition bsize (m : mem) (h : Z) : Z := load32 m (h + 8).
Definition next (m : mem) (h : Z) : Z := load32 m (h + 12).
Definition set_magic (m : mem) (h v : Z) : mem := store32 m h v.
Definition set_flags (m : mem) (h v : Z) : mem := store32 m (h + 4) v.
Definition set_bsize (m : mem) (h v : Z) : mem := store32 m (h + 8) v.
Definition set_next (m : mem) (h v : Z) : mem := store32 m (h + 12) v.

(** [struct heap] *)
Record heap : Type := mkHeap {
  head : Z;
  hsize : Z;
  max_size : Z;
  lock : Z
}.
Definition sizeof_heap : Z := 16.

(** What [heap_grow] needs of the rest of the kernel. *)
Class PageEnv (E : Type) : Type := {
  vmm_paging_enabled : E -> bool;
  env_pmm_initialized : E -> bool;
  env_pmm_alloc : E -> outcome (Z * E);
  env_pmm_reserve : E -> Z -> outcome E;
  env_vmm_map : E -> Z -> Z -> Z -> outcome E
}.

(** The kernel before [vmm_init]: paging is off and the environment is the frame
    allocator. *)
#[export] Instance boot_page_env : PageEnv pmm := {
  vmm_paging_enabled _ := false;
  env_pmm_initialized := pmm_initialized;
  env_pmm_alloc := pmm_alloc;
  env_pmm_reserve := pmm_reserve;
  env_vmm_map _ _ _ _ := Fault FAssert
}.

(** ** Blocks *)
Definition is_valid_block (m : mem) (h : Z) : bool :=
  if nz (Z.land (flags m h) BLOCK_ALLOCATED)
  then magic m h =? MAGIC_ALLOCATED
  else magic m h =? MAGIC_FREE.

Fixpoint last_block (fuel : nat) (m : mem) (h : Z) : outcome Z :=
  match fuel with
  | O => Fault FFuel
  | S fuel =>
      if nz h && nz (next m h) then
        _ ← c_assert (is_valid_block m h);
        last_block fuel m (next m h)
      else Ret h
  end.

Fixpoint prev_block_from (fuel : nat) (m : mem) (prevh block : Z) : outcome Z :=
  match fuel with
  | O => Fault FFuel
  | S fuel =>
      if nz prevh && negb (next m prevh =? block) then
        _ ← c_assert (is_valid_block m prevh);
        prev_block_from fuel m (next m prevh) block
      else Ret prevh
  end.

Definition prev_block (fuel : nat) (hp : heap) (m : mem) (block : Z) : outcome Z :=
  _ ← c_assert (is_valid_block m block);
  if block =? head hp then Ret 0 else prev_block_from fuel m (head hp) block.

Definition heap_is_free (m : mem) (block : Z) : outcome bool :=
  if is_valid_block m block
  then Ret (Z.land (flags m block) BLOCK_ALLOCATED =? 0)
  else Fault FPanic.

Definition heap_is_allocated (m : mem) (block : Z) : outcome bool :=
  _ ← c_assert (is_valid_block m block);
  Ret (nz (Z.land (flags m block) BLOCK_ALLOCATED)).

Definition set_allocated (m : mem) (block : Z) : outcome mem :=
  _ ← c_assert (is_valid_block m block);
  let m := set_flags m block (Z.lor (flags m block) BLOCK_ALLOCATED) in
  Ret (set_magic m block MAGIC_ALLOCATED).

Definition set_free (m : mem) (block : Z) : outcome mem :=
  _ ← c_assert (is_valid_block m block);
  let m := set_flags m block (Z.land (flags m block) (u32 (Z.lnot BLOCK_ALLOCATED))) in
  Ret (set_magic m block MAGIC_FREE).

Definition canary_addr (m : mem) (block : Z) : Z := u32 (block + bsize m block - 8).

Definition write_canary (m : mem) (block : Z) : mem := store64 m (canary_addr m block) CANARY.

Definition check_canary (m : mem) (block : Z) : outcome unit :=
  if load64 m (canary_addr m block) =? CANARY then Ret tt else Fault FPanic.

(** [memset(result, 0, 16)] followed by the two assignments. *)
Definition create_block (m : mem) (addr size : Z) : mem :=
  let m := store_bytes m addr (replicate 16 0) in
  let m := set_bsize m addr size in
  set_magic m addr MAGIC_FREE.

Definition merge_blocks (m : mem) (dest source : Z) : outcome mem :=
  _ ← c_assert (dest <? source);
  _ ← c_assert (magic m dest =? magic m source);
  let m := set_bsize m dest (u32 (bsize m dest + bsize m source)) in
  Ret (set_next m dest (next m source)).

Definition heap_init (m : mem) (address size max_size : Z) : outcome (heap * mem) :=
  _ ← c_assert (IS_ALIGNED address PAGE_SIZE);
  _ ← c_assert (IS_ALIGNED size PAGE_SIZE);
  let hd := u32 (address + sizeof_heap) in
  let m := create_block m hd (u32 (size - sizeof_heap)) in
  Ret (mkHeap hd size max_size SPINLOCK_INIT, m).

(** Enough steps to walk any block list of the heap: a block takes 16 bytes. *)
Definition walk_fuel (hp : heap) : nat := S (Z.to_nat (hsize hp / 16)).

Fixpoint free_bytes (fuel : nat) (m : mem) (h : Z) (acc : Z) : outcome Z :=
  match fuel with
  | O => Fault FFuel
  | S fuel =>
      if nz h then
        f ← heap_is_free m h;
        free_bytes fuel m (next m h)
          (if (f : bool) then u32 (acc + u32 (bsize m h - sizeof_header)) else acc)
      else Ret acc
  end.

(** [struct heap_info]: address (the head's, minus the struct), size, free bytes. *)
Definition heap_info (hp : heap) (m : mem) : outcome (Z * Z * Z) :=
  free ← free_bytes (walk_fuel hp) m (head hp) 0;
  Ret (u32 (head hp - sizeof_heap), hsize hp, free).

(** ** Growing *)
Section grow.
Context {E : Type} `{PageEnv E}.

(** The page loop of [heap_grow]; answers the heap, the environment and the
    number of bytes obtained. *)
Fixpoint grow_pages (fuel : nat) (hp : heap) (e : E) (page limit allocated : Z)
    : outcome (heap * E * Z) :=
  match fuel with
  | O => Fault FFuel
  | S fuel =>
      if page <? limit then
        if max_size hp <=? hsize hp then Ret (hp, e, allocated)
        else
          r ← (if vmm_paging_enabled e then
                 '(frame, e') ← env_pmm_alloc e;
                 if frame =? INVALID_FRAME then Ret (None, e')
                 else e'' ← env_vmm_map e' page frame
                              (Z.lor VMM_PAGE_PRESENT VMM_PAGE_WRITABLE);
                      Ret (Some tt, e'')
               else if env_pmm_initialized e then
                 e' ← env_pmm_reserve e (u32 (page - KERNEL_BASE_ADDR));
                 Ret (Some tt, e')
               else Ret (Some tt, e));
          match r with
          | (None, e') => Ret (hp, e', allocated)
          | (Some _, e') =>
              let hp' := mkHeap (head hp) (u32 (hsize hp + PAGE_SIZE)) (max_size hp) (lock hp) in
              grow_pages fuel hp' e' (u32 (page + PAGE_SIZE)) limit
                (u32 (allocated + PAGE_SIZE))
          end
      else Ret (hp, e, allocated)
  end.

Definition heap_grow (hp : heap) (m : mem) (e : E) (size : Z) : outcome (Z * heap * mem * E) :=
  let size := ALIGN size PAGE_SIZE in
  last ← last_block (walk_fuel hp) m (head hp);
  _ ← c_assert (nz last);
  let end_of_heap := u32 (last + bsize m last) in
  _ ← c_assert (IS_ALIGNED end_of_heap PAGE_SIZE);
  '(hp, e, allocated) ← grow_pages (S (Z.to_nat (size / PAGE_SIZE))) hp e end_of_heap
                          (u32 (end_of_heap + size)) 0;
  if nz allocated then
    let m := create_block m end_of_heap allocated in
    let m := set_next m last end_of_heap in
    f ← heap_is_free m last;
    if (f : bool) then m ← merge_blocks m last end_of_heap; Ret (last, hp, m, e)
    else Ret (end_of_heap, hp, m, e)
  else Ret (0, hp, m, e).
End grow.

(** ** Allocation *)

(** [while(data1 - header0 < 2 * sizeof(header)) data1 += alignment;] *)
Fixpoint bump (fuel : nat) (header0 data1 alignment : Z) : outcome Z :=
  match fuel with
  | O => Fault FFuel
  | S fuel =>
      if u32 (data1 - header0) <? sizeof_header * 2
      then bump fuel header0 (u32 (data1 + alignment)) alignment
      else Ret data1
  end.

(** The data of [h] is already aligned: use the block, splitting off a new free
    block when more than a header's worth of bytes remains. *)
Definition take_block (m : mem) (h size : Z) : outcome mem :=
  let remaining := u32 (bsize m h - sizeof_header - size) in
  if sizeof_header <? remaining then
    let old_size := bsize m h in
    let new_block := u32 (h + size + sizeof_header) in
    let new_block_size := u32 (bsize m h - sizeof_header - size) in
    let m := create_block m new_block new_block_size in
    let m := set_next m new_block (next m h) in
    let m := set_bsize m h (u32 (sizeof_header + size)) in
    let m := set_next m h new_block in
    m ← set_allocated m h;
    let m := write_canary m h in
    _ ← c_assert (u32 (bsize m new_block + bsize m h) =? old_size);
    Ret m
  else
    m ← set_allocated m h;
    Ret (write_canary m h).

(** The data of [h] is not aligned: [h] shrinks to end at the header of the
    aligned block [header1], which in turn is split when large enough. *)
Definition carve_block (m : mem) (h header1 size : Z) : outcome mem :=
  let total_size := bsize m h in
  let m := set_bsize m h (u32 (header1 - h)) in
  m ← set_free m h;
  _ ← c_assert (is_valid_block m h);
  let h2 := header1 in
  let m := create_block m h2 (u32 (total_size - bsize m h)) in
  let m := set_next m h2 (next m h) in
  let m := set_next m h h2 in
  _ ← c_assert (is_valid_block m h2);
  _ ← c_assert (u32 (bsize m h + bsize m h2) =? total_size);
  m ← (if u32 (size + sizeof_header * 2) <? bsize m h2 then
         let header3 := u32 (header1 + size + sizeof_header) in
         let size3 := u32 (bsize m h2 - size - sizeof_header) in
         let m := create_block m header3 size3 in
         m ← set_free m header3;
         let m := set_next m header3 (next m h2) in
         let m := set_next m h2 header3 in
         let m := set_bsize m h2 (u32 (size + sizeof_header)) in
         _ ← c_assert (is_valid_block m header3);
         _ ← c_assert (u32 (bsize m h + bsize m h2 + bsize m header3) =? total_size);
         Ret m
       else Ret m);
  m ← set_allocated m h2;
  _ ← c_assert (is_valid_block m h2);
  Ret (write_canary m h2).

(** The inner loop of [heap_alloc_block_aligned]: walk the list from [h] and
    allocate in the first block that passes the code's tests. *)
Fixpoint scan_blocks (fuel : nat) (m : mem) (h size alignment : Z) : outcome (option (Z * mem)) :=
  match fuel with
  | O => Fault FFuel
  | S fuel =>
      if nz h then
        f ← heap_is_free m h;
        if (f : bool) && (size <=? u32 (bsize m h - sizeof_header)) then
          let data1 := ALIGN (u32 (h + sizeof_header)) alignment in
          if data1 =? u32 (h + sizeof_header) then
            if u32 (sizeof_header + size) <=? bsize m h then
              m ← take_block m h size; Ret (Some (h, m))
            else scan_blocks fuel m (next m h) size alignment
          else
            data1 ← bump 33 h data1 alignment;
            _ ← c_assert (sizeof_header * 2 <=? u32 (data1 - h));
            if u32 (sizeof_header * 2 + size) <? bsize m h then
              let header1 := u32 (data1 - sizeof_header) in
              m ← carve_block m h header1 size; Ret (Some (header1, m))
            else scan_blocks fuel m (next m h) size alignment
        else scan_blocks fuel m (next m h) size alignment
      else Ret None
  end.

Definition heap_lock (hp : heap) : bool * heap :=
  let '(r, l) := spinlock_try_lock (lock hp) in (r, mkHeap (head hp) (hsize hp) (max_size hp) l).
Definition heap_unlock (hp : heap) : bool * heap :=
  let '(r, l) := spinlock_try_unlock (lock hp) in (r, mkHeap (head hp) (hsize hp) (max_size hp) l).

Section alloc.
Context {E : Type} `{PageEnv E}.

(** [while(true)]: scan, and grow when nothing fits. *)
Fixpoint alloc_loop (fuel : nat) (hp : heap) (m : mem) (e : E) (size alignment : Z)
    : outcome (Z * heap * mem * E) :=
  match fuel with
  | O => Fault FFuel
  | S fuel =>
      r ← scan_blocks (walk_fuel hp) m (head hp) size alignment;
      match r with
      | Some (h, m) => Ret (h, hp, m, e)
      | None =>
          '(new_header, hp, m, e) ← heap_grow hp m e size;
          if nz new_header then alloc_loop fuel hp m e size alignment
          else Ret (0, hp, m, e)
      end
  end.

(** Every growth adds at least a page, and growth stops at [max_size]. *)
Definition grow_fuel (hp : heap) : nat :=
  S (S (Z.to_nat ((max_size hp - hsize hp) / PAGE_SIZE + 1))).

Definition heap_alloc_block_aligned (hp : heap) (m : mem) (e : E) (size alignment : Z)
    : outcome (Z * heap * mem * E) :=
  let '(locked, hp) := heap_lock hp in
  if locked then
    let size := u32 (size + 8) in
    '(h, hp, m, e) ← alloc_loop (grow_fuel hp) hp m e size alignment;
    let '(unlocked, hp) := heap_unlock hp in
    _ ← c_assert unlocked;
    Ret (h, hp, m, e)
  else Fault FPanic.

Definition heap_alloc_block (hp : heap) (m : mem) (e : E) (size : Z)
    : outcome (Z * heap * mem * E) :=
  '(result, hp, m, e) ← heap_alloc_block_aligned hp m e size 8;
  if nz result then _ ← check_canary m result; Ret (result, hp, m, e)
  else Fault FMem.

(** [assert(hdr->magic == ...)] dereferences [hdr] even when it is NULL. *)
Definition heap_alloc_aligned (hp : heap) (m : mem) (e : E) (size alignment : Z)
    : outcome (Z * heap * mem * E) :=
  '(hdr, hp, m, e) ← heap_alloc_block_aligned hp m e size alignment;
  let result := if nz hdr then u32 (hdr + sizeof_header) else 0 in
  if nz hdr then
    _ ← c_assert (magic m hdr =? MAGIC_ALLOCATED); Ret (result, hp, m, e)
  else Fault FMem.

Definition heap_alloc (hp : heap) (m : mem) (e : E) (size : Z) : outcome (Z * heap * mem * E) :=
  heap_alloc_aligned hp m e size 8.
End alloc.

(** ** Release *)
Definition heap_free_block (hp : heap) (m : mem) (block : Z) : outcome (heap * mem) :=
  if nz block then
    if magic m block =? MAGIC_FREE then Fault FPanic
    else if negb (magic m block =? MAGIC_ALLOCATED) then Fault FPanic
    else
      _ ← check_canary m block;
      let '(locked, hp) := heap_lock hp in
      if locked then
        _ ← c_assert (is_valid_block m block);
        a ← heap_is_allocated m block;
        _ ← c_assert a;
        m ← set_free m block;
        prevh ← prev_block (walk_fuel hp) hp m block;
        pf ← (if nz prevh then heap_is_free m prevh else Ret false);
        '(block, m) ← (if (pf : bool)
                       then m ← merge_blocks m prevh block; Ret (prevh, m)
                       else Ret (block, m));
        nf ← (if nz (next m block) then heap_is_free m (next m block) else Ret false);
        m ← (if (nf : bool) then merge_blocks m block (next m block) else Ret m);
        let '(unlocked, hp) := heap_unlock hp in
        _ ← c_assert unlocked;
        Ret (hp, m)
      else Fault FPanic
  else Ret (hp, m).

Definition heap_free (hp : heap) (m : mem) (ptr : Z) : outcome (heap * mem) :=
  heap_free_block hp m (u32 (ptr - sizeof_header)).

Fixpoint heap_check_from (fuel : nat) (m : mem) (h : Z) : outcome unit :=
  match fuel with
  | O => Fault FFuel
  | S fuel =>
      if nz h then
        if is_valid_block m h then heap_check_from fuel m (next m h) else Fault FPanic
      else Ret tt
  end.
Definition heap_check (hp : heap) (m : mem) : outcome unit :=
  heap_check_from (walk_fuel hp) m (head hp).
