(* ===== verification/HeapSpec.v ===== *)
(** What the block list of [Heap.v] means and what its operations do to it: the
    heap as a sequence of blocks that tile an address range, the set of
    allocated blocks, and the proof that each routine of [kernel/heap.c]
    transforms them as intended. *)
From S2P Require Import Prelude Util Mem Pmm Locks Heap.

(** ** Block lists *)
Record blk : Type := mkBlk {
  b_size : Z;
  b_alloc : bool
}.

Definition b_magic (b : blk) : Z := if b_alloc b then MAGIC_ALLOCATED else MAGIC_FREE.
Definition b_flags (b : blk) : Z := if b_alloc b then 1 else 0.

Definition canary_ok (m : mem) (a : Z) (b : blk) : Prop :=
  b_alloc b = true -> 24 <= b_size b /\ load64 m (a + b_size b - 8) = CANARY.

(** Block [b] is stored at address [a], with successor pointer [nx]. *)
Record block_at (m : mem) (a : Z) (b : blk) (nx : Z) : Prop := {
  at_magic : magic m a = b_magic b;
  at_flags : flags m a = b_flags b;
  at_size : bsize m a = b_size b;
  at_next : next m a = nx;
  at_min : 16 <= b_size b;
  at_canary : canary_ok m a b
}.

(** The successor pointer of a block of size [sz] at [a] followed by [bs]. *)
Definition succ (a sz : Z) (bs : list blk) (nx : Z) : Z :=
  match bs with [] => nx | _ :: _ => a + sz end.

(** The blocks [bs] are stored contiguously from [a]; the last one points to [nx]. *)
Fixpoint chain (m : mem) (a : Z) (bs : list blk) (nx : Z) : Prop :=
  match bs with
  | [] => True
  | b :: bs => block_at m a b (succ a (b_size b) bs nx) /\ chain m (a + b_size b) bs nx
  end.

Fixpoint total (bs : list blk) : Z :=
  match bs with [] => 0 | b :: bs => b_size b + total bs end.

(** Addresses and sizes of the allocated blocks. *)
Fixpoint allocs (a : Z) (bs : list blk) : list (Z * Z) :=
  match bs with
  | [] => []
  | b :: bs => (if b_alloc b then [(a, b_size b)] else []) ++ allocs (a + b_size b) bs
  end.

(** A block does not depend on memory outside its own range. *)
Lemma block_at_frame m m' lo hi a b nx : same_outside m m' lo hi ->
  a + b_size b <= lo \/ hi <= a -> block_at m a b nx -> block_at m' a b nx.
Proof.
  intros H Ha [? ? ? ? Hmin Hc]. unfold magic, flags, bsize, next in *.
  split; unfold magic, flags, bsize, next;
    rewrite ?(same_outside_load32 _ _ _ _ _ H) by lia; try done.
  intros Halloc. destruct (Hc Halloc). split; [done|].
  by rewrite (same_outside_load64 _ _ _ _ _ H) by lia.
Qed.

Lemma total_nonneg m a bs nx : chain m a bs nx -> 0 <= total bs.
Proof.
  revert a. induction bs as [|b bs IH]; intros a H; simpl; [lia|].
  destruct H as [[] H]. apply IH in H. lia.
Qed.

Lemma chain_frame m m' lo hi a bs nx : same_outside m m' lo hi ->
  a + total bs <= lo \/ hi <= a -> chain m a bs nx -> chain m' a bs nx.
Proof.
  intros H. revert a. induction bs as [|b bs IH]; intros a Ha Hc; [done|].
  simpl in *. destruct Hc as [Hb Hc]. pose proof (total_nonneg _ _ _ _ Hc).
  pose proof (at_min _ _ _ _ Hb). split.
  - eapply block_at_frame; [done| |done]. lia.
  - apply IH; [lia|done].
Qed.

Lemma total_app bs1 bs2 : total (bs1 ++ bs2) = total bs1 + total bs2.
Proof. induction bs1; simpl; lia. Qed.

Lemma allocs_app a bs1 bs2 : allocs a (bs1 ++ bs2) = allocs a bs1 ++ allocs (a + total bs1) bs2.
Proof.
  revert a. induction bs1 as [|b bs1 IH]; intros a; simpl; [by rewrite Z.add_0_r|].
  rewrite IH, <- app_assoc. by rewrite Z.add_assoc.
Qed.

(** The end pointer of a prefix followed by [bs]. *)
Definition link (a : Z) (bs : list blk) (nx : Z) : Z := match bs with [] => nx | _ => a end.

Lemma chain_app m a bs1 bs2 nx : chain m a (bs1 ++ bs2) nx <->
  chain m a bs1 (link (a + total bs1) bs2 nx) /\ chain m (a + total bs1) bs2 nx.
Proof.
  revert a. induction bs1 as [|b bs1 IH]; intros a; simpl.
  - rewrite Z.add_0_r. tauto.
  - rewrite IH. replace (a + b_size b + total bs1) with (a + (b_size b + total bs1)) by lia.
    assert (succ a (b_size b) (bs1 ++ bs2) nx
            = succ a (b_size b) bs1 (link (a + (b_size b + total bs1)) bs2 nx)) as ->.
    { destruct bs1; simpl; [|done]. destruct bs2; simpl; [done|]. lia. }
    tauto.
Qed.

(** Replacing the blocks of a middle segment by others of the same total size,
    when memory outside the segment is unchanged. *)
Lemma chain_replace m m' a pre mid mid' post nx :
  chain m a (pre ++ mid ++ post) nx -> mid <> [] -> mid' <> [] -> total mid' = total mid ->
  same_outside m m' (a + total pre) (a + total pre + total mid) ->
  chain m' (a + total pre) mid' (link (a + total pre + total mid) post nx) ->
  chain m' a (pre ++ mid' ++ post) nx.
Proof.
  intros Hc Hne Hne' Ht Hs Hm. rewrite !chain_app in Hc. destruct Hc as (Hpre & _ & Hpost).
  rewrite !chain_app, Ht.
  split; [|split; [done|]].
  - replace (link (a + total pre) (mid' ++ post) nx) with (link (a + total pre) (mid ++ post) nx)
      by (destruct mid, mid'; done).
    eapply chain_frame; [done| |done]. lia.
  - eapply chain_frame; [done| |done]. lia.
Qed.

(** ** Symbolic execution of header updates *)
Lemma load8_zeros n m a c : a <= c < a + Z.of_nat n ->
  load8 (store_bytes m a (replicate n 0)) c = 0.
Proof.
  revert m a. induction n as [|n IH]; intros m a Hc; [lia|].
  simpl replicate. rewrite store_bytes_cons.
  destruct (Z.eq_dec a c) as [->|]; [|apply IH; lia].
  rewrite load8_store_bytes_out, load8_store8, Z.eqb_refl by lia. done.
Qed.

Lemma load32_zeros m a b : a <= b -> b + 4 <= a + 16 ->
  load32 (store_bytes m a (replicate 16 0)) b = 0.
Proof.
  intros. unfold load32. cbn [load_bytes]. rewrite !load8_zeros by lia. done.
Qed.

Lemma load32_zeros_ne m a b : b + 4 <= a \/ a + 16 <= b ->
  load32 (store_bytes m a (replicate 16 0)) b = load32 m b.
Proof. intros. unfold load32. by rewrite load_store_bytes_ne. Qed.

(** The four fields of the header at [h]. *)
Record hdr (m : mem) (h mg fl sz nx : Z) : Prop := {
  h_magic : magic m h = mg;
  h_flags : flags m h = fl;
  h_size : bsize m h = sz;
  h_next : next m h = nx
}.

Definition apart (a b : Z) : Prop := a + 16 <= b \/ b + 16 <= a.

Section hdr_lemmas.
Context (m : mem) (h mg fl sz nx : Z) (Hh : hdr m h mg fl sz nx).

Ltac solve_hdr :=
  destruct Hh; unfold magic, flags, bsize, next, set_magic, set_flags, set_bsize, set_next in *;
  split; unfold magic, flags, bsize, next;
  rewrite ?load32_store32_eq, ?load32_store32_ne by lia; done.

Lemma hdr_set_magic v : 0 <= v < 2 ^ 32 -> hdr (set_magic m h v) h v fl sz nx.
Proof. intros. solve_hdr. Qed.
Lemma hdr_set_flags v : 0 <= v < 2 ^ 32 -> hdr (set_flags m h v) h mg v sz nx.
Proof. intros. solve_hdr. Qed.
Lemma hdr_set_size v : 0 <= v < 2 ^ 32 -> hdr (set_bsize m h v) h mg fl v nx.
Proof. intros. solve_hdr. Qed.
Lemma hdr_set_next v : 0 <= v < 2 ^ 32 -> hdr (set_next m h v) h mg fl sz v.
Proof. intros. solve_hdr. Qed.

Lemma hdr_frame m' lo hi : same_outside m m' lo hi -> h + 16 <= lo \/ hi <= h ->
  hdr m' h mg fl sz nx.
Proof.
  intros H Hd. destruct Hh. unfold magic, flags, bsize, next in *.
  split; unfold magic, flags, bsize, next;
    rewrite (same_outside_load32 _ _ _ _ _ H) by lia; done.
Qed.
End hdr_lemmas.

Lemma hdr_create m a size : 0 <= size < 2 ^ 32 ->
  hdr (create_block m a size) a MAGIC_FREE 0 size 0.
Proof.
  intros. unfold create_block, set_bsize, set_magic.
  split; unfold magic, flags, bsize, next;
    repeat first [rewrite load32_store32_eq by done | rewrite load32_store32_ne by lia
                 | rewrite load32_zeros by lia]; done.
Qed.

(** Header updates touch the 16 bytes of the header. *)
Lemma same_set_magic m h v : same_outside m (set_magic m h v) h (h + 16).
Proof. apply same_outside_32; [done|lia..]. Qed.
Lemma same_set_flags m h v : same_outside m (set_flags m h v) h (h + 16).
Proof. apply same_outside_32; [done|lia..]. Qed.
Lemma same_set_size m h v : same_outside m (set_bsize m h v) h (h + 16).
Proof. apply same_outside_32; [done|lia..]. Qed.
Lemma same_set_next m h v : same_outside m (set_next m h v) h (h + 16).
Proof. apply same_outside_32; [done|lia..]. Qed.
Lemma same_create m h v : same_outside m (create_block m h v) h (h + 16).
Proof.
  unfold create_block, set_bsize, set_magic.
  apply same_outside_32; [|lia..]. apply same_outside_32; [|lia..].
  apply same_outside_bytes; [done|lia|rewrite length_replicate; lia].
Qed.

Lemma hdr_valid_free m h sz nx : hdr m h MAGIC_FREE 0 sz nx -> is_valid_block m h = true.
Proof. intros []. unfold is_valid_block. by rewrite h_flags0, h_magic0. Qed.

Lemma hdr_valid_alloc m h sz nx : hdr m h MAGIC_ALLOCATED 1 sz nx -> is_valid_block m h = true.
Proof. intros []. unfold is_valid_block. by rewrite h_flags0, h_magic0. Qed.

Lemma set_allocated_ok m h sz nx : hdr m h MAGIC_FREE 0 sz nx ->
  exists m', set_allocated m h = Ret m' /\ hdr m' h MAGIC_ALLOCATED 1 sz nx /\
    same_outside m m' h (h + 16).
Proof.
  intros Hh. unfold set_allocated. rewrite (hdr_valid_free _ _ _ _ Hh). simpl.
  eexists. split; [done|]. rewrite (h_flags _ _ _ _ _ _ Hh). split.
  - eapply hdr_set_magic; [|done]. by eapply hdr_set_flags.
  - eapply same_outside_trans; [apply same_set_flags|apply same_set_magic].
Qed.

Lemma set_free_ok m h mg fl sz nx : hdr m h mg fl sz nx ->
  (mg = MAGIC_FREE /\ fl = 0) \/ (mg = MAGIC_ALLOCATED /\ fl = 1) ->
  exists m', set_free m h = Ret m' /\ hdr m' h MAGIC_FREE 0 sz nx /\
    same_outside m m' h (h + 16).
Proof.
  intros Hh Hc. assert (is_valid_block m h = true) as Hv.
  { destruct Hc as [[-> ->]|[-> ->]]; eauto using hdr_valid_free, hdr_valid_alloc. }
  assert (Z.land fl (u32 (Z.lnot BLOCK_ALLOCATED)) = 0) as E0.
  { destruct Hc as [[_ ->]|[_ ->]]; by vm_compute. }
  unfold set_free. rewrite Hv. cbn [mbind outcome_bind c_assert].
  eexists. split; [done|]. rewrite (h_flags _ _ _ _ _ _ Hh), E0. split.
  - eapply hdr_set_magic; [|done]. by eapply hdr_set_flags.
  - eapply same_outside_trans; [apply same_set_flags|apply same_set_magic].
Qed.

Lemma write_canary_ok m h mg fl sz nx : hdr m h mg fl sz nx -> 0 <= h -> 24 <= sz ->
  h + sz < 2 ^ 32 ->
  let m' := write_canary m h in
  hdr m' h mg fl sz nx /\ load64 m' (h + sz - 8) = CANARY /\
  same_outside m m' (h + 16) (h + sz).
Proof.
  intros Hh ? ? ? m'. unfold m', write_canary, canary_addr.
  rewrite (h_size _ _ _ _ _ _ Hh), u32_small by lia.
  assert (same_outside m (store64 m (h + sz - 8) CANARY) (h + 16) (h + sz)) as Hs.
  { apply same_outside_64; [done|lia..]. }
  split; [|split; [|done]].
  - eapply hdr_frame; [done..|]. lia.
  - apply load64_store64_eq. by vm_compute.
Qed.

Lemma block_at_free m a sz nx : hdr m a MAGIC_FREE 0 sz nx -> 16 <= sz ->
  block_at m a (mkBlk sz false) nx.
Proof. intros [] ?. split; done. Qed.

Lemma block_at_alloc m a sz nx : hdr m a MAGIC_ALLOCATED 1 sz nx -> 24 <= sz ->
  load64 m (a + sz - 8) = CANARY -> block_at m a (mkBlk sz true) nx.
Proof. intros [] ? ?. split; simpl; try done. lia. Qed.

Lemma block_at_hdr m a b nx : block_at m a b nx -> hdr m a (b_magic b) (b_flags b) (b_size b) nx.
Proof. by intros []. Qed.

(** Name the value of the outermost [let] of the goal. *)
Ltac step_let n :=
  match goal with
  | |- context G [let x := ?v in @?B x] =>
      pose (n := v);
      let b := eval cbv beta in (B n) in
      let g := context G [b] in change g
  end.

(** The blocks [take_block] leaves in place of a free block of size [sz]. *)
Definition take_blocks (sz size : Z) : list blk :=
  if 16 <? sz - 16 - size
  then [mkBlk (16 + size) true; mkBlk (sz - 16 - size) false]
  else [mkBlk sz true].

(** Mark a free block allocated and write its canary. *)
Lemma claim_ok m a sz nx : hdr m a MAGIC_FREE 0 sz nx -> 0 < a -> a + sz < 2 ^ 32 -> 24 <= sz ->
  exists m1, set_allocated m a = Ret m1 /\ is_valid_block m1 a = true /\
    block_at (write_canary m1 a) a (mkBlk sz true) nx /\
    same_outside m (write_canary m1 a) a (a + sz).
Proof.
  intros Hh Ha He Hs. destruct (set_allocated_ok _ _ _ _ Hh) as (m1 & E & H1 & S1).
  exists m1. split; [done|]. split; [by eapply hdr_valid_alloc|].
  destruct (write_canary_ok _ _ _ _ _ _ H1) as (H2 & C2 & S2); [lia..|].
  split; [by apply block_at_alloc|].
  eapply same_outside_trans; eapply same_outside_widen; try done; lia.
Qed.

(** Facts about one more header write, for the block written and for another
    block of which they preserve the header. *)
Lemma step_create m n sz : 0 <= sz < 2 ^ 32 ->
  exists m', create_block m n sz = m' /\ hdr m' n MAGIC_FREE 0 sz 0 /\ same_outside m m' n (n + 16).
Proof. intros. eexists. split; [done|]. split; [by apply hdr_create|apply same_create]. Qed.

Lemma step_next m h mg fl sz nx v : hdr m h mg fl sz nx -> 0 <= v < 2 ^ 32 ->
  exists m', set_next m h v = m' /\ hdr m' h mg fl sz v /\ same_outside m m' h (h + 16).
Proof. intros. eexists. split; [done|]. split; [by eapply hdr_set_next|apply same_set_next]. Qed.

Lemma step_size m h mg fl sz nx v : hdr m h mg fl sz nx -> 0 <= v < 2 ^ 32 ->
  exists m', set_bsize m h v = m' /\ hdr m' h mg fl v nx /\ same_outside m m' h (h + 16).
Proof. intros. eexists. split; [done|]. split; [by eapply hdr_set_size|apply same_set_size]. Qed.

(** Carry every header known of memory [m] over to [m'], which differs from it
    in a range of addresses apart from them. *)
Ltac carry S :=
  match type of S with
  | same_outside ?m ?m' ?lo ?hi =>
      repeat match goal with
      | H : hdr m ?h ?mg ?fl ?sz ?nx |- _ =>
          lazymatch goal with
          | _ : hdr m' h _ _ _ _ |- _ => fail
          | _ => let H' := fresh H in
                 assert (hdr m' h mg fl sz nx) as H' by (eapply hdr_frame; [exact H|exact S|lia])
          end
      end
  end.

(** Read header fields that are known. *)
Ltac hdr_rw :=
  repeat match goal with
  | H : hdr ?m ?h _ _ _ _ |- context [bsize ?m ?h] => rewrite (h_size _ _ _ _ _ _ H)
  | H : hdr ?m ?h _ _ _ _ |- context [next ?m ?h] => rewrite (h_next _ _ _ _ _ _ H)
  | H : hdr ?m ?h _ _ _ _ |- context [flags ?m ?h] => rewrite (h_flags _ _ _ _ _ _ H)
  | H : hdr ?m ?h _ _ _ _ |- context [magic ?m ?h] => rewrite (h_magic _ _ _ _ _ _ H)
  | H : hdr ?m ?h MAGIC_FREE 0 _ _ |- context [is_valid_block ?m ?h] =>
      rewrite (hdr_valid_free _ _ _ _ H)
  | H : hdr ?m ?h MAGIC_ALLOCATED 1 _ _ |- context [is_valid_block ?m ?h] =>
      rewrite (hdr_valid_alloc _ _ _ _ H)
  end.

(** Execute the next header write of the goal. *)
Ltac hstep :=
  hdr_rw;
  let m1 := fresh "m" in let H := fresh "H" in let S := fresh "S" in let E := fresh "E" in
  first
  [ match goal with
    | |- context [create_block ?m ?n ?sz] =>
        is_var m; destruct (step_create m n sz) as (m1 & E & H & S); [lia|]
    | Hh : hdr ?m ?h _ _ _ _ |- context [set_next ?m ?h ?v] =>
        destruct (step_next _ _ _ _ _ _ v Hh) as (m1 & E & H & S); [lia|]
    | Hh : hdr ?m ?h _ _ _ _ |- context [set_bsize ?m ?h ?v] =>
        destruct (step_size _ _ _ _ _ _ v Hh) as (m1 & E & H & S); [lia|]
    | Hh : hdr ?m ?h _ _ _ _ |- context [set_free ?m ?h] =>
        destruct (set_free_ok _ _ _ _ _ _ Hh) as (m1 & E & H & S); [by auto|]
    end ]; rewrite E; clear E; carry S; cbn [mbind outcome_bind c_assert]; hdr_rw.

(** Execute [set_allocated; write_canary]. *)
Ltac claim_step B S :=
  match goal with
  | Hh : hdr ?m ?h _ _ _ _ |- context [set_allocated ?m ?h] =>
      let m1 := fresh "m" in let E := fresh "E" in let V := fresh "E" in
      destruct (claim_ok _ _ _ _ Hh) as (m1 & E & V & B & S); [lia..|];
      rewrite E; clear E; cbn [mbind outcome_bind]; rewrite ?V; clear V;
      cbn [mbind outcome_bind c_assert]; carry S; hdr_rw
  end.

Ltac same_solve :=
  first
  [ apply same_outside_refl
  | eapply same_outside_widen; [eassumption|lia|lia]
  | eapply same_outside_trans; [|eapply same_outside_widen; [eassumption|lia|lia]]; same_solve ].

Lemma assert_eq x y : x = y -> c_assert (x =? y) = Ret tt.
Proof. intros ->. by rewrite Z.eqb_refl. Qed.

Lemma take_block_ok m a sz nx size :
  hdr m a MAGIC_FREE 0 sz nx -> 0 < a -> a + sz < 2 ^ 32 -> 8 <= size ->
  16 + size <= sz -> 0 <= nx < 2 ^ 32 ->
  exists m', take_block m a size = Ret m' /\ chain m' a (take_blocks sz size) nx /\
    same_outside m m' a (a + sz).
Proof.
  intros Hh Ha He Hs Hfit Hnx.
  unfold take_block, take_blocks, sizeof_header. hdr_rw.
  rewrite (u32_small (sz - 16 - size)) by lia.
  destruct (16 <? sz - 16 - size) eqn:Hsplit; breflect.
  - rewrite (u32_small (a + size + 16)), (u32_small (16 + size)) by lia. cbv zeta.
    do 4 hstep.
    claim_step Bk Sk. rewrite (at_size _ _ _ _ Bk).
    rewrite assert_eq by (simpl; rewrite u32_small; lia).
    eexists. split; [done|]. split; [|same_solve].
    cbn [chain succ b_size]. replace (a + (16 + size)) with (a + size + 16) by lia.
    split; [done|]. split; [|done]. apply block_at_free; [done|lia].
  - claim_step Bk Sk. eexists. split; [done|]. by split.
Qed.

(** The blocks [carve_block] leaves in place of a free block of size [sz] whose
    first [gap] bytes stay free. *)
Definition carve_blocks (sz gap size : Z) : list blk :=
  mkBlk gap false ::
  (if size + 32 <? sz - gap
   then [mkBlk (size + 16) true; mkBlk (sz - gap - size - 16) false]
   else [mkBlk (sz - gap) true]).

Lemma carve_block_ok m a sz nx gap size :
  hdr m a MAGIC_FREE 0 sz nx -> 0 < a -> a + sz < 2 ^ 32 -> 8 <= size -> 16 <= gap ->
  gap + 24 <= sz -> 0 <= nx < 2 ^ 32 -> size + 32 < 2 ^ 32 ->
  exists m', carve_block m a (a + gap) size = Ret m' /\ chain m' a (carve_blocks sz gap size) nx /\
    same_outside m m' a (a + sz).
Proof.
  intros Hh Ha He Hs Hg Hfit Hnx Hsm.
  unfold carve_block, carve_blocks, sizeof_header. hdr_rw.
  rewrite (u32_small (a + gap - a)) by lia. replace (a + gap - a) with gap by lia. cbv zeta.
  do 2 hstep. rewrite (u32_small (sz - gap)) by lia.
  do 3 hstep. rewrite assert_eq by (rewrite u32_small; lia). cbn [mbind outcome_bind c_assert].
  rewrite (u32_small (size + 16 * 2)) by lia. replace (size + 16 * 2) with (size + 32) by lia.
  destruct (size + 32 <? sz - gap) eqn:Hsplit; breflect.
  - rewrite (u32_small (a + gap + size + 16)), (u32_small (sz - gap - size - 16)),
      (u32_small (size + 16)) by lia. cbv zeta.
    do 5 hstep. rewrite assert_eq by (rewrite u32_small; lia). cbn [mbind outcome_bind c_assert].
    claim_step Bk Sk. eexists. split; [done|]. split; [|same_solve].
    cbn [chain succ b_size]. replace (a + gap + (size + 16)) with (a + gap + size + 16) by lia.
    split; [apply block_at_free; [done|lia]|]. split; [done|]. split; [|done].
    apply block_at_free; [done|lia].
  - cbn [mbind outcome_bind]. claim_step Bk Sk. eexists. split; [done|]. split; [|same_solve].
    cbn [chain succ b_size]. split; [apply block_at_free; [done|lia]|]. done.
Qed.
