(* ===== verification/HeapProofs.v ===== *)
(** The allocation, growth and release theorems of the kernel heap
    ([kernel/heap.c]), over the block lists of [HeapSpec.v]. *)
From S2P Require Import Prelude Util Mem Pmm Locks Heap HeapSpec.

(** ** Placement of a request in a free block *)
Inductive placement : Type :=
| PNone
| PTake
| PCarve (gap : Z)
| POverrun.

(** The distance from a block to the header of the aligned block carved from it. *)
Definition gap_of (a al : Z) : Z := ALIGN (a + 32) al - 16 - a.

(** The decision the tests of the code make for a free block. [POverrun] is a
    block that passes them and cannot hold the request behind the gap. *)
Definition place (a sz size al : Z) : placement :=
  if size + 16 <=? sz then
    if ALIGN (a + 16) al =? a + 16 then PTake
    else if 32 + size <? sz then
      if gap_of a al + 16 + size <=? sz then PCarve (gap_of a al) else POverrun
    else PNone
  else PNone.

(** First fit: the blocks before the chosen one, its size, the placement, the
    blocks after it. *)
Fixpoint first_fit (a : Z) (bs : list blk) (size al : Z)
    : option (list blk * Z * placement * list blk) :=
  match bs with
  | [] => None
  | b :: bs =>
      match (if b_alloc b then PNone else place a (b_size b) size al) with
      | PNone =>
          match first_fit (a + b_size b) bs size al with
          | Some (pre, sz, p, post) => Some (b :: pre, sz, p, post)
          | None => None
          end
      | p => Some ([], b_size b, p, bs)
      end
  end.

(** Where the allocated block starts and what replaces the chosen block. *)
Definition placed_at (a : Z) (p : placement) : Z :=
  match p with PCarve gap => a + gap | _ => a end.
Definition placed (sz size : Z) (p : placement) : list blk :=
  match p with
  | PTake => take_blocks sz size
  | PCarve gap => carve_blocks sz gap size
  | _ => []
  end.

(** ** One pass over the list *)
Lemma multiple_step d e al : 0 < al -> d mod al = 0 -> e mod al = 0 -> d < e -> d + al <= e.
Proof.
  intros ? Hd He ?. pose proof (Z.div_mod d al) as Ed. pose proof (Z.div_mod e al) as Ee.
  rewrite Ed, Ee by lia. rewrite Hd, He.
  assert (d / al + 1 <= e / al) by (apply Z.le_succ_l, (Z.mul_lt_mono_pos_l al); lia).
  assert (al * (d / al + 1) <= al * (e / al)) by (apply Z.mul_le_mono_nonneg_l; lia). lia.
Qed.

Lemma bump_S n a d al : bump (S n) a d al =
  if u32 (d - a) <? sizeof_header * 2 then bump n a (u32 (d + al)) al else Ret d.
Proof. done. Qed.

Lemma bump_ok k a : 0 <= k < 32 -> 0 <= a -> a + 32 + 2 ^ k < 2 ^ 32 ->
  forall fuel d, d mod 2 ^ k = 0 -> a + 16 <= d <= ALIGN (a + 32) (2 ^ k) ->
  ALIGN (a + 32) (2 ^ k) - d <= 2 ^ k * Z.of_nat fuel ->
  bump (S fuel) a d (2 ^ k) = Ret (ALIGN (a + 32) (2 ^ k)).
Proof.
  intros Hk Ha Hb. destruct (ALIGN_bounds k (a + 32)) as [Hm Hr]; [lia..|].
  set (t := ALIGN (a + 32) (2 ^ k)) in *. clearbody t. assert (0 < 2 ^ k) by lia.
  induction fuel as [|fuel IH]; intros d Hd Hd2 Hf; rewrite bump_S; unfold sizeof_header;
    rewrite (u32_small (d - a)) by lia; (destruct (d - a <? 16 * 2) eqn:E; breflect).
  1: exfalso; lia.
  2: assert (d + 2 ^ k <= t) by (apply multiple_step; [done..|lia]);
     rewrite u32_small by lia; apply IH; [|lia..];
     rewrite Z.add_mod, Hd, Z.mod_same by lia; done.
  all: f_equal; destruct (Z.eq_dec d t); [done|];
    assert (d + 2 ^ k <= t) by (apply multiple_step; [done..|lia]); lia.
Qed.

(** The whole loop: from the aligned data address to the aligned address that
    leaves room for two headers. *)
Lemma bump_gap k a : 0 <= k < 32 -> 0 <= a -> a + 32 + 2 ^ k < 2 ^ 32 ->
  bump 33 a (ALIGN (a + 16) (2 ^ k)) (2 ^ k) = Ret (a + gap_of a (2 ^ k) + 16) /\
  16 <= gap_of a (2 ^ k) < 16 + 2 ^ k /\ (a + gap_of a (2 ^ k) + 16) mod 2 ^ k = 0.
Proof.
  intros Hk Ha Hb. destruct (ALIGN_bounds k (a + 16)) as [Hm Hr]; [lia..|].
  destruct (ALIGN_bounds k (a + 32)) as [Hm2 Hr2]; [lia..|]. unfold gap_of.
  replace (a + (ALIGN (a + 32) (2 ^ k) - 16 - a) + 16) with (ALIGN (a + 32) (2 ^ k)) by lia.
  split; [|split; [lia|done]]. apply bump_ok; [done..| |lia]. split; [lia|].
  destruct (Z.le_gt_cases (ALIGN (a + 16) (2 ^ k)) (ALIGN (a + 32) (2 ^ k))); [done|].
  assert (ALIGN (a + 32) (2 ^ k) + 2 ^ k <= ALIGN (a + 16) (2 ^ k))
    by (apply multiple_step; [lia|done..|lia]). lia.
Qed.

Lemma hdr_is_free m a b nx : block_at m a b nx -> heap_is_free m a = Ret (negb (b_alloc b)).
Proof.
  intros Hb. apply block_at_hdr in Hb as []. unfold heap_is_free, is_valid_block.
  rewrite h_magic, h_flags. unfold b_magic, b_flags. by destruct (b_alloc b).
Qed.

Lemma take_blocks_total sz size : total (take_blocks sz size) = sz.
Proof. unfold take_blocks. case_goal; simpl; lia. Qed.
Lemma carve_blocks_total sz gap size : total (carve_blocks sz gap size) = sz.
Proof. unfold carve_blocks. simpl. case_goal; simpl; lia. Qed.

Lemma placed_total sz size p : p = PTake \/ (exists g, p = PCarve g) ->
  total (placed sz size p) = sz /\ placed sz size p <> [].
Proof.
  intros [->|[g ->]]; simpl.
  - split; [apply take_blocks_total|]. unfold take_blocks. by case_goal.
  - split; [apply carve_blocks_total|done].
Qed.

Lemma placement_cases p : p <> PNone -> p <> POverrun -> p = PTake \/ (exists g, p = PCarve g).
Proof. destruct p; eauto; congruence. Qed.

Section scan.
Context (k size : Z) (Hk : 0 <= k < 32) (Hsize : 8 <= size) (Hsize2 : size + 32 < 2 ^ 32).
Let al := 2 ^ k.

(** One step of the scan at a block that is passed over. *)
Lemma scan_skip m a b nx fuel : block_at m a b nx -> 0 < a ->
  a + b_size b + al + 32 < 2 ^ 32 ->
  (if b_alloc b then PNone else place a (b_size b) size al) = PNone ->
  scan_blocks (S fuel) m a size al = scan_blocks fuel m nx size al.
Proof.
  intros Hb Ha He Hp. pose proof (at_min _ _ _ _ Hb). cbn [scan_blocks].
  unfold nz. rewrite (proj2 (Z.eqb_neq a 0)) by lia. cbn [negb].
  rewrite (hdr_is_free _ _ _ _ Hb). cbn [mbind outcome_bind].
  rewrite (at_next _ _ _ _ Hb), (at_size _ _ _ _ Hb). unfold sizeof_header.
  destruct (b_alloc b); cbn [negb andb]; [done|].
  rewrite (u32_small (b_size b - 16)), (u32_small (a + 16)),
    (u32_small (16 + size)), (u32_small (16 * 2 + size)) by lia.
  unfold place in Hp. destruct (size + 16 <=? b_size b) eqn:E1; breflect.
  - rewrite (proj2 (Z.leb_le _ _)) by lia.
    destruct (ALIGN (a + 16) al =? a + 16) eqn:E2; [done|].
    destruct (32 + size <? b_size b) eqn:E3; [by case_hyp Hp|].
    destruct (bump_gap k a) as (Eb & Hg & _); [lia..|]. fold al in Eb, Hg. rewrite Eb.
    cbn [mbind outcome_bind]. rewrite (proj2 (Z.leb_le _ _)) by (rewrite u32_small; lia).
    cbn [c_assert]. change (16 * 2) with 32. by rewrite E3.
  - rewrite (proj2 (Z.leb_gt _ _)) by lia. done.
Qed.

(** One step of the scan at a block the request is placed in. *)
Lemma scan_hit m a sz nx fuel p : block_at m a (mkBlk sz false) nx -> 0 < a ->
  a + sz + al + 32 < 2 ^ 32 -> 0 <= nx < 2 ^ 32 ->
  place a sz size al = p -> p = PTake \/ (exists g, p = PCarve g) ->
  exists m', scan_blocks (S fuel) m a size al = Ret (Some (placed_at a p, m')) /\
    chain m' a (placed sz size p) nx /\ same_outside m m' a (a + sz).
Proof.
  intros Hb Ha He Hnx Hp Hcase. pose proof (at_min _ _ _ _ Hb) as Hmin. simpl in Hmin.
  cbn [scan_blocks]. unfold nz. rewrite (proj2 (Z.eqb_neq a 0)) by lia. cbn [negb].
  rewrite (hdr_is_free _ _ _ _ Hb). cbn [mbind outcome_bind b_alloc negb andb].
  rewrite (at_size _ _ _ _ Hb). unfold sizeof_header. cbn [b_size].
  apply block_at_hdr in Hb as Hh. simpl in Hh.
  rewrite (u32_small (sz - 16)), (u32_small (a + 16)),
    (u32_small (16 + size)), (u32_small (16 * 2 + size)) by lia. change (16 * 2) with 32.
  unfold place in Hp. destruct (size + 16 <=? sz) eqn:E1; breflect;
    [|destruct Hcase as [?|[??]]; congruence].
  rewrite (proj2 (Z.leb_le size (sz - 16))) by lia.
  destruct (ALIGN (a + 16) al =? a + 16) eqn:E2; breflect.
  - rewrite (proj2 (Z.leb_le (16 + size) sz)) by lia. subst p.
    destruct (take_block_ok _ _ _ _ size Hh) as (m' & -> & Hc & Hs); [lia..|].
    exists m'. done.
  - destruct (32 + size <? sz) eqn:E3; [|destruct Hcase as [?|[??]]; congruence].
    destruct (gap_of a al + 16 + size <=? sz) eqn:E4; breflect;
      [|destruct Hcase as [?|[??]]; congruence].
    destruct (bump_gap k a) as (Eb & Hg & _); [lia..|]. fold al in Eb, Hg. rewrite Eb.
    cbn [mbind outcome_bind].
    rewrite (proj2 (Z.leb_le _ _)) by (rewrite u32_small; lia). cbn [c_assert].
    rewrite (u32_small (a + gap_of a al + 16 - 16)) by lia. subst p.
    replace (a + gap_of a al + 16 - 16) with (a + gap_of a al) by lia.
    destruct (carve_block_ok _ _ _ _ (gap_of a al) size Hh) as (m' & -> & Hc & Hs); [lia..|].
    exists m'. done.
Qed.
Lemma scan_head m a sz bs fuel p : chain m a (mkBlk sz false :: bs) 0 -> 0 < a ->
  a + total (mkBlk sz false :: bs) + al + 32 < 2 ^ 32 ->
  place a sz size al = p -> p = PTake \/ (exists g, p = PCarve g) ->
  exists m', scan_blocks (S fuel) m a size al = Ret (Some (placed_at a p, m')) /\
    chain m' a (placed sz size p ++ bs) 0 /\ same_outside m m' a (a + sz).
Proof.
  intros Hc Ha He Hp Hcase. pose proof Hc as [Hb Hrest]. simpl in He, Hb.
  pose proof (total_nonneg _ _ _ _ Hrest). pose proof (at_min _ _ _ _ Hb) as Hm. simpl in Hm.
  assert (0 <= succ a sz bs 0 < 2 ^ 32) by (destruct bs; simpl; lia).
  destruct (scan_hit m a sz _ fuel p Hb) as (m' & E & Hc' & Hs); [lia|lia|lia|done..|].
  exists m'. split; [done|]. split; [|done].
  destruct (placed_total sz size p Hcase).
  apply (chain_replace m m' a [] [mkBlk sz false] (placed sz size p) bs); cbn [total app b_size];
    rewrite ?Z.add_0_r; done.
Qed.

(** A pass over the list is the first fit. *)
Definition pass_result (fuel : nat) (m : mem) (a : Z) (bs : list blk) : Prop :=
  match first_fit a bs size al with
  | None => scan_blocks fuel m (link a bs 0) size al = Ret None
  | Some (pre, sz, p, post) =>
      bs = pre ++ mkBlk sz false :: post /\ place (a + total pre) sz size al = p /\
      p <> PNone /\
      (p <> POverrun -> exists m',
         scan_blocks fuel m (link a bs 0) size al
           = Ret (Some (placed_at (a + total pre) p, m')) /\
         chain m' a (pre ++ placed sz size p ++ post) 0 /\
         same_outside m m' (a + total pre) (a + total pre + sz))
  end.

Lemma scan_spec m : forall bs a fuel, chain m a bs 0 -> 0 < a ->
  a + total bs + al + 32 < 2 ^ 32 -> (length bs < fuel)%nat -> pass_result fuel m a bs.
Proof.
  induction bs as [|b bs IH]; intros a fuel Hc Ha He Hf.
  { destruct fuel; [simpl in Hf; lia|done]. }
  destruct fuel as [|fuel]; [simpl in Hf; lia|]. simpl in Hf, He.
  pose proof Hc as [Hb Hrest]. pose proof (total_nonneg _ _ _ _ Hrest).
  pose proof (at_min _ _ _ _ Hb).
  assert (succ a (b_size b) bs 0 = link (a + b_size b) bs 0) as Hsucc by (by destruct bs).
  assert (0 <= link (a + b_size b) bs 0 < 2 ^ 32) by (destruct bs; simpl; lia).
  unfold pass_result. cbn [first_fit].
  destruct (if b_alloc b then PNone else place a (b_size b) size al) eqn:Ep; cycle 1.
  1-3: destruct b as [sz []]; [done|]; cbn [b_alloc b_size] in *; cbn [total app link];
    rewrite Z.add_0_r; (split; [done|]); (split; [done|]); (split; [done|]); intros Hov; try done.
  1-2: apply scan_head; [done|lia|simpl; lia|done|]; eauto.
  - cbn [link]. rewrite (scan_skip _ _ _ _ _ Hb) by (done || lia). rewrite Hsucc.
    specialize (IH (a + b_size b) fuel Hrest ltac:(lia) ltac:(lia) ltac:(lia)).
    unfold pass_result in IH.
    destruct (first_fit (a + b_size b) bs size al) as [[[[pre sz] p] post]|]; [|done].
    destruct IH as (-> & Hpl & Hp & IH). cbn [total].
    replace (a + (b_size b + total pre)) with (a + b_size b + total pre) by lia.
    split; [done|]. split; [done|]. split; [done|]. intros Hov.
    destruct (IH Hov) as (m' & -> & Hc' & Hs). exists m'. split; [done|]. split; [|done].
    cbn [app chain]. split; [|done].
    replace (succ a (b_size b) (pre ++ placed sz size p ++ post) 0)
      with (succ a (b_size b) (pre ++ mkBlk sz false :: post) 0).
    + rewrite chain_app in Hrest. destruct Hrest as [Hpre _].
      pose proof (total_nonneg _ _ _ _ Hpre).
      eapply block_at_frame; [exact Hs|lia|done].
    + destruct pre; [|done]. simpl.
      destruct (placed_total sz size p) as [_ Hne]; [by apply placement_cases|].
      by destruct (placed sz size p).
Qed.
End scan.

(** ** Growing the heap *)

(** [n] more free bytes at the end: the last block absorbs them when it is free. *)
Fixpoint grow_list (n : Z) (bs : list blk) : list blk :=
  match bs with
  | [] => []
  | [b] => if b_alloc b then [b; mkBlk n false] else [mkBlk (b_size b + n) false]
  | b :: bs => b :: grow_list n bs
  end.

Lemma grow_list_snoc n bs b : grow_list n (bs ++ [b]) =
  bs ++ (if b_alloc b then [b; mkBlk n false] else [mkBlk (b_size b + n) false]).
Proof.
  induction bs as [|c bs IH]; [done|]. simpl app. simpl grow_list.
  rewrite <- IH. by destruct bs.
Qed.

Lemma grow_list_facts n a bs : bs <> [] ->
  total (grow_list n bs) = total bs + n /\ allocs a (grow_list n bs) = allocs a bs.
Proof.
  intros Hne. destruct (exists_last Hne) as (l & b & ->). rewrite grow_list_snoc.
  rewrite !total_app, !allocs_app. destruct b as [sz []]; simpl; (split; [lia|done]).
Qed.

Lemma grow_list_ne n bs : bs <> [] -> grow_list n bs <> [].
Proof.
  intros Hne. destruct (exists_last Hne) as (l & b & ->). rewrite grow_list_snoc.
  destruct l, (b_alloc b); simpl; done.
Qed.

(** [n] more bytes, possibly none. *)
Definition grown (n : Z) (bs : list blk) : list blk := if n =? 0 then bs else grow_list n bs.

Lemma grown_grow n k bs : bs <> [] -> 0 <= n -> 0 < k ->
  grown n (grow_list k bs) = grown (k + n) bs.
Proof.
  intros Hne Hn Hk. unfold grown. rewrite (proj2 (Z.eqb_neq (k + n) 0)) by lia.
  destruct (n =? 0) eqn:E; breflect; [subst n; by rewrite Z.add_0_r|].
  destruct (exists_last Hne) as (l & b & ->). rewrite !grow_list_snoc.
  destruct (b_alloc b) eqn:Eb.
  - change [b; mkBlk k false] with ([b] ++ [mkBlk k false]).
    rewrite app_assoc, grow_list_snoc. cbn [b_alloc b_size]. by rewrite <- app_assoc.
  - rewrite grow_list_snoc. cbn [b_alloc b_size]. by rewrite Z.add_assoc.
Qed.

Lemma last_block_ok m b : forall bs a fuel, chain m a (bs ++ [b]) 0 -> 0 < a ->
  (length bs < fuel)%nat -> last_block fuel m a = Ret (a + total bs).
Proof.
  induction bs as [|c bs IH]; intros a fuel Hc Ha Hf;
    (destruct fuel as [|fuel]; [simpl in Hf; lia|]); cbn [last_block app] in *;
    destruct Hc as [Hb Hc]; unfold nz; rewrite (proj2 (Z.eqb_neq a 0)) by lia;
    rewrite (at_next _ _ _ _ Hb); cbn [negb andb].
  - simpl. by rewrite Z.add_0_r.
  - pose proof (at_min _ _ _ _ Hb).
    replace (succ a (b_size c) (bs ++ [b]) 0) with (a + b_size c) by (by destruct bs).
    rewrite (proj2 (Z.eqb_neq (a + b_size c) 0)) by lia. cbn [negb].
    assert (is_valid_block m a = true) as ->.
    { apply block_at_hdr in Hb. unfold b_magic, b_flags in Hb.
      destruct (b_alloc c); eauto using hdr_valid_free, hdr_valid_alloc. }
    cbn [c_assert mbind outcome_bind]. simpl in Hf. rewrite IH by (done || lia).
    f_equal. simpl. lia.
Qed.

Lemma chain_length m a bs nx : chain m a bs nx -> 16 * Z.of_nat (length bs) <= total bs.
Proof.
  revert a. induction bs as [|b bs IH]; intros a Hc; simpl length; simpl total; [lia|].
  destruct Hc as [Hb Hc]. apply IH in Hc. pose proof (at_min _ _ _ _ Hb). lia.
Qed.

Section grow_proofs.
Context {E : Type} `{PageEnv E}.

Definition with_size (hp : heap) (n : Z) : heap := mkHeap (head hp) n (max_size hp) (lock hp).

(** First address behind a heap of [n] bytes whose first block is at [hd]. *)
Definition heap_end (hd n : Z) : Z := hd - 16 + n.

(** The environment has no further page for a heap of [n] bytes: the heap has its maximal
    size, or there is no free frame. *)
Definition no_growth (mx n : Z) (e : E) : Prop :=
  mx <= n \/ (vmm_paging_enabled e = true /\ exists e', env_pmm_alloc e = Ret (INVALID_FRAME, e')).

(** One attempt to add a page to a heap of [n] bytes, with the environment before and
    after it: a fresh frame is mapped behind the heap, no frame is free, the frame behind
    the heap is reserved, or the frame allocator does not run yet. *)
Inductive page_try (hd mx : Z) : Z * E -> Z * E -> Prop :=
| try_mapped n e e1 e2 frame : n < mx -> vmm_paging_enabled e = true ->
    env_pmm_alloc e = Ret (frame, e1) -> frame <> INVALID_FRAME ->
    env_vmm_map e1 (heap_end hd n) frame (Z.lor VMM_PAGE_PRESENT VMM_PAGE_WRITABLE) = Ret e2 ->
    page_try hd mx (n, e) (n + PAGE_SIZE, e2)
| try_none n e e1 : n < mx -> vmm_paging_enabled e = true ->
    env_pmm_alloc e = Ret (INVALID_FRAME, e1) -> page_try hd mx (n, e) (n, e1)
| try_reserved n e e1 : n < mx -> vmm_paging_enabled e = false -> env_pmm_initialized e = true ->
    env_pmm_reserve e (u32 (heap_end hd n - KERNEL_BASE_ADDR)) = Ret e1 ->
    page_try hd mx (n, e) (n + PAGE_SIZE, e1)
| try_early n e : n < mx -> vmm_paging_enabled e = false -> env_pmm_initialized e = false ->
    page_try hd mx (n, e) (n + PAGE_SIZE, e).

(** The attempt itself faults. *)
Definition page_fault (hd mx n : Z) (e : E) (f : fault) : Prop :=
  n < mx /\
  if vmm_paging_enabled e then
    env_pmm_alloc e = Fault f \/
    exists frame e1, env_pmm_alloc e = Ret (frame, e1) /\ frame <> INVALID_FRAME /\
      env_vmm_map e1 (heap_end hd n) frame (Z.lor VMM_PAGE_PRESENT VMM_PAGE_WRITABLE) = Fault f
  else env_pmm_initialized e = true /\
       env_pmm_reserve e (u32 (heap_end hd n - KERNEL_BASE_ADDR)) = Fault f.

(** After some attempts from a heap of [n] bytes, the next one faults. *)
Definition growth_faults (hd mx n : Z) (e : E) (f : fault) : Prop :=
  exists n1 e1, rtc (page_try hd mx) (n, e) (n1, e1) /\ page_fault hd mx n1 e1 f.

Lemma growth_faults_step hd mx n e n1 e1 f : page_try hd mx (n, e) (n1, e1) ->
  growth_faults hd mx n1 e1 f -> growth_faults hd mx n e f.
Proof. intros Ht (n2 & e2 & Hr & Hf). exists n2, e2. split; [by eapply rtc_l|done]. Qed.

Lemma growth_faults_rtc hd mx n e n1 e1 f : rtc (page_try hd mx) (n, e) (n1, e1) ->
  growth_faults hd mx n1 e1 f -> growth_faults hd mx n e f.
Proof. intros Ht (n2 & e2 & Hr & Hf). exists n2, e2. split; [by etrans|done]. Qed.

Lemma grow_pages_ok : forall n hp e page limit acc fuel,
  0 <= page -> limit = page + PAGE_SIZE * Z.of_nat n -> limit < 2 ^ 32 ->
  hsize hp mod PAGE_SIZE = 0 -> max_size hp mod PAGE_SIZE = 0 ->
  0 <= hsize hp <= max_size hp -> max_size hp < 2 ^ 32 ->
  0 <= acc -> acc + PAGE_SIZE * Z.of_nat n < 2 ^ 32 -> (n < fuel)%nat ->
  page = heap_end (head hp) (hsize hp) ->
  match grow_pages fuel hp e page limit acc with
  | Ret (hp', e', got) => exists j, 0 <= j <= Z.of_nat n /\
      hp' = with_size hp (hsize hp + PAGE_SIZE * j) /\ got = acc + PAGE_SIZE * j /\
      hsize hp' <= max_size hp /\
      (j = 0 -> (0 < n)%nat -> no_growth (max_size hp) (hsize hp) e) /\
      rtc (page_try (head hp) (max_size hp)) (hsize hp, e) (hsize hp', e')
  | Fault f => growth_faults (head hp) (max_size hp) (hsize hp) e f
  end.
Proof.
  unfold PAGE_SIZE.
  induction n as [|n IH]; intros hp e page limit acc fuel Hp -> Hl Hm Hm2 Hsz Hmax Hacc Hacc2 Hf Hpg;
    (destruct fuel as [|fuel]; [lia|]); cbn [grow_pages].
  { rewrite (proj2 (Z.ltb_ge _ _)) by lia. exists 0. rewrite !Z.mul_0_r, !Z.add_0_r.
    destruct hp; simpl in *. repeat split; [lia..|done|lia|lia|done]. }
  rewrite (proj2 (Z.ltb_lt _ _)) by lia.
  destruct (max_size hp <=? hsize hp) eqn:Efull; breflect.
  { exists 0. rewrite !Z.mul_0_r, !Z.add_0_r. destruct hp; simpl in *.
    repeat split; [lia..| |done]. left. simpl. lia. }
  assert (hsize hp + 4096 <= max_size hp) by (apply multiple_step; [lia|done..]).
  unfold PAGE_SIZE.
  rewrite (u32_small (hsize hp + 4096)), (u32_small (page + 4096)), (u32_small (acc + 4096))
    by lia.
  set (hp' := mkHeap (head hp) (hsize hp + 4096) (max_size hp) (lock hp)).
  assert (forall e', page_try (head hp) (max_size hp) (hsize hp, e) (hsize hp + 4096, e') ->
    match grow_pages fuel hp' e' (page + 4096) (page + 4096 * Z.of_nat (S n)) (acc + 4096) with
    | Ret (hp1, e1, got) => exists j, 0 <= j <= Z.of_nat (S n) /\
      hp1 = with_size hp (hsize hp + 4096 * j) /\ got = acc + 4096 * j /\
      hsize hp1 <= max_size hp /\
      (j = 0 -> (0 < S n)%nat -> no_growth (max_size hp) (hsize hp) e) /\
      rtc (page_try (head hp) (max_size hp)) (hsize hp, e) (hsize hp1, e1)
    | Fault f => growth_faults (head hp) (max_size hp) (hsize hp) e f end) as Hrec.
  { intros e' Htry.
    specialize (IH hp' e' (page + 4096) (page + 4096 * Z.of_nat (S n)) (acc + 4096) fuel).
    ospecialize* IH; simpl; try lia.
    { rewrite Z.add_mod, Hm by lia. done. }
    { unfold heap_end in *. lia. }
    destruct (grow_pages _ _ _ _ _ _) as [[[hp1 e1] got]|f]; [|by eapply growth_faults_step].
    destruct IH as (j & Hj & -> & -> & Hle & _ & Hrt). exists (j + 1). simpl in *.
    replace (hsize hp + 4096 + 4096 * j) with (hsize hp + 4096 * (j + 1)) in * by lia.
    repeat split; try (done || lia). by eapply rtc_l. }
  clearbody hp'. clear IH. rewrite Hpg in Hrec |- *.
  destruct (vmm_paging_enabled e) eqn:Epg.
  - destruct (env_pmm_alloc e) as [[frame e1]|f] eqn:Ea; cbn [mbind outcome_bind].
    2: { exists (hsize hp), e. split; [done|]. split; [lia|]. rewrite Epg. by left. }
    destruct (frame =? INVALID_FRAME) eqn:Ef; breflect.
    + exists 0. rewrite !Z.mul_0_r, !Z.add_0_r. subst frame.
      split; [lia|]. split; [by destruct hp|]. split; [done|]. split; [simpl; lia|].
      split; [intros _ _; right; eauto|]. apply rtc_once. by apply try_none.
    + destruct (env_vmm_map e1 _ frame _) as [e2|f] eqn:Em; cbn [mbind outcome_bind].
      * apply Hrec. by eapply try_mapped.
      * exists (hsize hp), e. split; [done|]. split; [lia|]. rewrite Epg. right. eauto.
  - destruct (env_pmm_initialized e) eqn:Ei; cbn [mbind outcome_bind].
    2: { apply Hrec. by apply try_early. }
    destruct (env_pmm_reserve e _) as [e1|f] eqn:Er; cbn [mbind outcome_bind].
    + apply Hrec. by apply try_reserved.
    + exists (hsize hp), e. split; [done|]. split; [lia|]. rewrite Epg. done.
Qed.
End grow_proofs.

(** ** The invariant of a heap *)
Record heap_ok (hp : heap) (m : mem) (bs : list blk) : Prop := {
  hk_base : (head hp - 16) mod PAGE_SIZE = 0 /\ 0 <= head hp - 16;
  hk_chain : chain m (head hp) bs 0;
  hk_ne : bs <> [];
  hk_total : total bs = hsize hp - 16;
  hk_size : hsize hp mod PAGE_SIZE = 0;
  hk_max : max_size hp mod PAGE_SIZE = 0;
  hk_le : hsize hp <= max_size hp;
  hk_bound : head hp + max_size hp + PAGE_SIZE < 2 ^ 32
}.

(** The bytes the allocated blocks of [bs] give to their users. *)
Definition data_same (m m' : mem) (a : Z) (bs : list blk) : Prop :=
  forall h sz, (h, sz) ∈ allocs a bs -> forall c, h + 16 <= c < h + sz -> load8 m' c = load8 m c.

Lemma allocs_range m a bs nx h sz : chain m a bs nx -> (h, sz) ∈ allocs a bs ->
  a <= h /\ h + sz <= a + total bs /\ 24 <= sz.
Proof.
  revert a. induction bs as [|b bs IH]; intros a Hc Hin; cbn [allocs chain total] in *;
    [by apply elem_of_nil in Hin|].
  destruct Hc as [Hb Hc]. pose proof (at_min _ _ _ _ Hb). pose proof (total_nonneg _ _ _ _ Hc).
  apply elem_of_app in Hin as [Hin|Hin].
  - destruct (b_alloc b) eqn:Eb; [|by apply elem_of_nil in Hin].
    apply list_elem_of_singleton in Hin as [= -> ->].
    pose proof (at_canary _ _ _ _ Hb Eb). lia.
  - apply IH in Hin; [lia|done].
Qed.

Lemma chain_valid m a b nx : block_at m a b nx -> is_valid_block m a = true.
Proof.
  intros Hb. apply block_at_hdr in Hb. unfold b_magic, b_flags in Hb.
  destruct (b_alloc b); eauto using hdr_valid_free, hdr_valid_alloc.
Qed.

Lemma block_at_set_next m a b nx v : block_at m a b nx -> 0 <= v < 2 ^ 32 ->
  block_at (set_next m a v) a b v.
Proof.
  intros Hb Hv. pose proof (same_set_next m a v) as Hs.
  destruct (hdr_set_next _ _ _ _ _ _ (block_at_hdr _ _ _ _ Hb) v Hv).
  destruct Hb as [_ _ _ _ Hmin Hc]. split; try done.
  intros Hal. destruct (Hc Hal). split; [done|].
  by rewrite (same_outside_load64 _ _ _ _ _ Hs) by lia.
Qed.

(** Adding a page-multiple of bytes at the end of the list, as [heap_grow] does. *)
Lemma extend_ok m a l b n : chain m a (l ++ [b]) 0 -> 0 < a -> 16 <= n ->
  a + total (l ++ [b]) + n < 2 ^ 32 ->
  let lst := a + total l in let fin := lst + b_size b in
  exists m', (let m := create_block m fin n in
              let m := set_next m lst fin in
              f ← heap_is_free m lst;
              if (f : bool) then m ← merge_blocks m lst fin; Ret (lst, m)
              else Ret (fin, m)) = Ret (if b_alloc b then fin else lst, m') /\
    chain m' a (grow_list n (l ++ [b])) 0 /\ data_same m m' a (l ++ [b]).
Proof.
  intros Hc Ha Hn He lst fin. pose proof Hc as Hc0. rewrite chain_app in Hc.
  destruct Hc as [Hl [Hb _]]. rewrite total_app in He. simpl in Hb, He.
  fold lst in Hb. pose proof (total_nonneg _ _ _ _ Hl). pose proof (at_min _ _ _ _ Hb) as Hmin.
  cbn [link] in Hl. rewrite grow_list_snoc. cbv zeta.
  assert (lst = a + total l) as Elst by done. assert (fin = lst + b_size b) as Efin by done.
  clearbody fin lst.
  destruct (step_create m fin n) as (m1 & -> & H1 & S1); [lia|].
  assert (block_at m1 lst b 0) as Hb1 by (eapply block_at_frame; [exact S1|lia|done]).
  pose proof (block_at_set_next _ _ _ _ fin Hb1 ltac:(lia)) as Hb2.
  pose proof (same_set_next m1 lst fin) as S2. set (m2 := set_next m1 lst fin) in *.
  clearbody m2. carry S2. rewrite (hdr_is_free _ _ _ _ Hb2). cbn [mbind outcome_bind].
  assert (forall m', same_outside m2 m' lst (lst + 16) ->
            data_same m m' a (l ++ [b]) /\ chain m' a l lst) as Hframe.
  { intros m' Hm'. split.
    - intros h sz Hin c Hcc.
      assert (c < lst \/ lst + 16 <= c < fin).
      { rewrite allocs_app in Hin. apply elem_of_app in Hin as [Hin|Hin].
        - apply (allocs_range _ _ _ _ _ _ Hl) in Hin. lia.
        - simpl in Hin. destruct (b_alloc b); simpl in Hin; [|by apply elem_of_nil in Hin].
          apply list_elem_of_singleton in Hin as [= -> ->]. lia. }
      rewrite Hm', S2, S1 by lia. done.
    - rewrite <- Elst in Hl. eapply (chain_frame m m' lst (fin + 16)); [same_solve|lia|done]. }
  destruct (b_alloc b) eqn:Eb; cbn [negb].
  - destruct (Hframe m2) as [Hd Hl2]; [done|].
    eexists. split; [done|]. split; [|done]. rewrite chain_app. split; [by rewrite <- Elst|].
    rewrite <- Elst. cbn [chain succ b_size]. rewrite <- Efin. split; [done|]. split; [|done].
    by apply block_at_free.
  - apply block_at_hdr in Hb2. unfold b_magic, b_flags in Hb2. rewrite Eb in Hb2.
    unfold merge_blocks. rewrite (proj2 (Z.ltb_lt _ _)) by lia. hdr_rw.
    rewrite assert_eq by done. cbn [c_assert mbind outcome_bind].
    rewrite (u32_small (b_size b + n)) by lia.
    do 2 hstep. eexists. split; [done|].
    destruct (Hframe m3) as [Hd Hl2]; [same_solve|]. split; [|done].
    rewrite chain_app. split; [by rewrite <- Elst|]. rewrite <- Elst. split; [|done].
    apply block_at_free; [done|lia].
Qed.

Lemma data_same_trans m1 m2 m3 a bs bs' : data_same m1 m2 a bs ->
  allocs a bs' = allocs a bs -> data_same m2 m3 a bs' -> data_same m1 m3 a bs.
Proof.
  intros H12 E H23 h sz Hin c Hc. rewrite (H23 h sz); [|by rewrite E|done]. by eapply H12.
Qed.

Lemma walk_fuel_ok hp m bs : heap_ok hp m bs -> (length bs < walk_fuel hp)%nat.
Proof.
  intros Hk. pose proof (chain_length _ _ _ _ (hk_chain _ _ _ Hk)) as Hl.
  rewrite (hk_total _ _ _ Hk) in Hl. unfold walk_fuel.
  assert (Z.of_nat (length bs) <= hsize hp / 16) by (apply Z.div_le_lower_bound; lia). lia.
Qed.

Section heap_grow_proofs.
Context {E : Type} `{PageEnv E}.

Lemma heap_grow_ok hp m (e : E) bs size : heap_ok hp m bs -> 0 < size ->
  head hp + max_size hp + size + PAGE_SIZE < 2 ^ 32 ->
  match heap_grow hp m e size with
  | Fault f => growth_faults (head hp) (max_size hp) (hsize hp) e f
  | Ret (r, hp', m', e') =>
      (r = 0 /\ hp' = hp /\ m' = m /\ no_growth (max_size hp) (hsize hp) e) \/
      (exists n, 0 < n /\ r <> 0 /\ hp' = with_size hp (hsize hp + n) /\
         PAGE_SIZE <= n /\ n mod PAGE_SIZE = 0 /\
         heap_ok hp' m' (grow_list n bs) /\ data_same m m' (head hp) bs /\
         rtc (page_try (head hp) (max_size hp)) (hsize hp, e) (hsize hp + n, e'))
  end.
Proof.
  intros Hok Hs Hb. pose proof Hok as [[Hal Hh0] Hc Hne Ht Hsz Hmx Hle Hbd].
  pose proof (walk_fuel_ok _ _ _ Hok) as Hwf. unfold PAGE_SIZE in *.
  destruct (exists_last Hne) as (l & b & ->). unfold heap_grow. rewrite length_app in Hwf.
  rewrite (last_block_ok m b l) by (done || lia || (simpl in Hwf; lia)).
  pose proof Hc as Hc0. rewrite chain_app in Hc0. destruct Hc0 as [Hl [Hbk _]].
  pose proof (total_nonneg _ _ _ _ Hl). pose proof (at_min _ _ _ _ Hbk) as Hmin.
  rewrite total_app in Ht. simpl in Ht. cbn [mbind outcome_bind].
  rewrite (nz_true (head hp + total l)) by lia. cbn [c_assert].
  rewrite (at_size _ _ _ _ Hbk), (u32_small (_ + b_size b)) by lia.
  replace (head hp + total l + b_size b) with (head hp - 16 + hsize hp) by lia.
  assert ((head hp - 16 + hsize hp) mod 4096 = 0) as Hfin by (rewrite Z.add_mod, Hal, Hsz; done).
  unfold IS_ALIGNED, PAGE_SIZE. rewrite assert_eq by done. cbn [mbind outcome_bind].
  destruct (ALIGN_bounds 12 size) as [Ha1 Ha2]; [lia..|]. change (2 ^ 12) with 4096 in *.
  set (sz := ALIGN size 4096) in *. clearbody sz. pose proof (Z.div_mod sz 4096).
  rewrite (u32_small (_ + sz)) by lia.
  pose proof (grow_pages_ok (Z.to_nat (sz / 4096)) hp e (head hp - 16 + hsize hp)
    (head hp - 16 + hsize hp + sz) 0 (S (Z.to_nat (sz / 4096)))) as Hg.
  unfold PAGE_SIZE in Hg. ospecialize* Hg; try lia; [done|].
  destruct (grow_pages _ _ _ _ _ _) as [[[hp' e'] got]|f]; cbn [mbind outcome_bind]; [|done].
  destruct Hg as (j & Hj & -> & -> & Hle' & Hnone & Hrt). simpl in Hle', Hrt.
  unfold nz. destruct (0 + 4096 * j =? 0) eqn:Ej; breflect; cbn [negb].
  - left. assert (j = 0) as -> by lia. rewrite Z.mul_0_r, Z.add_0_r.
    split; [done|]. split; [by destruct hp|]. split; [done|]. apply Hnone; lia.
  - rewrite Z.add_0_l.
    destruct (extend_ok m (head hp) l b (4096 * j)) as (m' & Heq & Hc' & Hd);
      [done|lia|lia|rewrite total_app; simpl; lia|].
    replace (head hp + total l + b_size b) with (head hp - 16 + hsize hp) in Heq by lia.
    destruct (grow_list_facts (4096 * j) (head hp) (l ++ [b]) Hne) as [Hgt _].
    rewrite total_app in Hgt. simpl in Hgt. cbv zeta in Heq |- *.
    assert (exists r, r <> 0 /\
      (f ← heap_is_free (set_next (create_block m (head hp - 16 + hsize hp) (4096 * j))
               (head hp + total l) (head hp - 16 + hsize hp)) (head hp + total l);
       if (f : bool) then
         m0 ← merge_blocks (set_next (create_block m (head hp - 16 + hsize hp) (4096 * j))
               (head hp + total l) (head hp - 16 + hsize hp)) (head hp + total l)
                (head hp - 16 + hsize hp);
         Ret (head hp + total l, with_size hp (hsize hp + 4096 * j), m0, e')
       else Ret (head hp - 16 + hsize hp, with_size hp (hsize hp + 4096 * j),
         set_next (create_block m (head hp - 16 + hsize hp) (4096 * j))
               (head hp + total l) (head hp - 16 + hsize hp), e'))
      = Ret (r, with_size hp (hsize hp + 4096 * j), m', e')) as (r & Hr & ->).
    { exists (if b_alloc b then head hp - 16 + hsize hp else head hp + total l).
      split; [destruct (b_alloc b); lia|].
      destruct (heap_is_free _ _) as [[]|]; cbn [mbind outcome_bind] in *; [| |done].
      - destruct (merge_blocks _ _ _); cbn [mbind outcome_bind] in *; [|done].
        by injection Heq as <- ->.
      - by injection Heq as <- ->. }
    right. exists (4096 * j). split; [lia|]. split; [done|]. split; [done|]. split; [lia|].
    split; [by rewrite Z.mul_comm, Z.mod_mul|].
    split; [|done]. split; simpl; try (done || lia); [by apply grow_list_ne|].
    unfold PAGE_SIZE. rewrite Z.add_mod, Hsz, Z.mul_comm, Z.mod_mul by lia. done.
Qed.
End heap_grow_proofs.

(** ** Allocation *)

(** The lists a heap can grow to. *)
Inductive grows : list blk -> list blk -> Prop :=
| grows_refl bs : grows bs bs
| grows_step n bs bs' : 0 < n -> n mod PAGE_SIZE = 0 -> grows (grow_list n bs) bs' -> grows bs bs'.

(** The first block that passes the tests of the code cannot hold the request. *)
Definition misfit (a : Z) (bs : list blk) (size al : Z) : bool :=
  match first_fit a bs size al with Some (_, _, POverrun, _) => true | _ => false end.

(** [bs'] is [bs] with one more allocated block [(h, sz)] for [size] bytes. *)
Record allocated (hp : heap) (m : mem) (bs : list blk) (size al : Z)
    (h : Z) (hp' : heap) (m' : mem) (bs' : list blk) (sz : Z) : Prop := {
  al_ok : heap_ok hp' m' bs';
  al_split : exists l1 l2, allocs (head hp) bs = l1 ++ l2 /\
    allocs (head hp) bs' = l1 ++ (h, sz) :: l2;
  al_fits : 16 + size <= sz;
  al_aligned : (h + 16) mod al = 0;
  al_data : data_same m m' (head hp) bs;
  al_same : head hp' = head hp /\ max_size hp' = max_size hp /\ hsize hp <= hsize hp' /\
    lock hp' = lock hp;
  al_shape : exists bg pre s p post, grows bs bg /\ bg = pre ++ mkBlk s false :: post /\
    place (head hp + total pre) s size al = p /\ (p = PTake \/ exists g, p = PCarve g) /\
    bs' = pre ++ placed s size p ++ post
}.

Lemma place_sound k a sz size p : 0 <= k < 32 -> 0 < a -> a + sz + 2 ^ k + 32 < 2 ^ 32 ->
  8 <= size -> place a sz size (2 ^ k) = p -> p = PTake \/ (exists g, p = PCarve g) ->
  exists sz', allocs a (placed sz size p) = [(placed_at a p, sz')] /\ 16 + size <= sz' /\
    (placed_at a p + 16) mod 2 ^ k = 0.
Proof.
  intros Hk Ha He Hs Hp Hc. unfold place in Hp.
  destruct (size + 16 <=? sz) eqn:E1; breflect; [|destruct Hc as [|[]]; congruence].
  destruct (ALIGN (a + 16) (2 ^ k) =? a + 16) eqn:E2; breflect.
  - subst p. simpl. destruct (ALIGN_bounds k (a + 16)) as [Hm _]; [lia..|]. rewrite E2 in Hm.
    unfold take_blocks. destruct (16 <? sz - 16 - size) eqn:E3; breflect; simpl;
      (eexists; split; [done|]; split; [lia|done]).
  - destruct (32 + size <? sz) eqn:E3; [|destruct Hc as [|[]]; congruence].
    destruct (gap_of a (2 ^ k) + 16 + size <=? sz) eqn:E4; breflect;
      [|destruct Hc as [|[]]; congruence].
    subst p. destruct (bump_gap k a) as (_ & Hg & Hm); [lia..|]. simpl.
    destruct (size + 32 <? sz - gap_of a (2 ^ k)) eqn:E5; breflect; simpl;
      (eexists; split; [done|]; split; [lia|done]).
Qed.

Lemma place_gap k a sz size gap : 0 <= k < 32 -> 0 < a -> a + 2 ^ k + 32 < 2 ^ 32 ->
  place a sz size (2 ^ k) = PCarve gap -> 16 <= gap.
Proof.
  intros Hk Ha He Hp. unfold place in Hp.
  destruct (bump_gap k a) as (_ & Hg & _); [lia..|].
  repeat case_hyp Hp; try done. injection Hp as <-. lia.
Qed.

Lemma same_outside_data m m' a pre mid post nx lo hi :
  chain m a (pre ++ mkBlk mid false :: post) nx -> same_outside m m' lo hi ->
  lo = a + total pre -> hi = lo + mid -> data_same m m' a (pre ++ mkBlk mid false :: post).
Proof.
  intros Hc Hs -> -> h sz Hin c Hcc. apply Hs. rewrite chain_app in Hc.
  destruct Hc as [Hp [Hm Hq]]. rewrite allocs_app in Hin. simpl in Hin.
  apply elem_of_app in Hin as [Hin|Hin].
  - apply (allocs_range _ _ _ _ _ _ Hp) in Hin. lia.
  - apply (allocs_range _ _ _ _ _ _ Hq) in Hin. simpl in Hin. lia.
Qed.

(** One successful pass allocates. *)
Lemma pass_allocates k hp m bs size pre sz p post m' :
  0 <= k < 32 -> 8 <= size -> head hp + max_size hp + 2 ^ k + 32 < 2 ^ 32 -> heap_ok hp m bs ->
  bs = pre ++ mkBlk sz false :: post -> place (head hp + total pre) sz size (2 ^ k) = p ->
  p = PTake \/ (exists g, p = PCarve g) ->
  chain m' (head hp) (pre ++ placed sz size p ++ post) 0 ->
  same_outside m m' (head hp + total pre) (head hp + total pre + sz) ->
  exists sz', allocated hp m bs size (2 ^ k) (placed_at (head hp + total pre) p) hp m'
    (pre ++ placed sz size p ++ post) sz'.
Proof.
  intros Hk Hs Hb Hok -> Hp Hc Hch Hso. pose proof Hok as [[Hal Hh0] Hc0 Hne Ht Hsz Hmx Hle Hbd].
  pose proof Hc0 as Hsplit. rewrite chain_app in Hsplit. destruct Hsplit as [Hpre [Hblk Hpost]].
  pose proof (total_nonneg _ _ _ _ Hpre). pose proof (total_nonneg _ _ _ _ Hpost).
  rewrite total_app in Ht. simpl in Ht.
  destruct (place_sound k (head hp + total pre) sz size p) as (sz' & Ea & Hf & Hm);
    [done|lia|lia|done..|].
  destruct (placed_total sz size p Hc) as [Htp Hnep].
  exists sz'. split; try done.
  - split; try done; [|rewrite !total_app; lia]. intros Hnil.
    apply app_eq_nil in Hnil as [_ Hnil]. by apply app_eq_nil in Hnil as [? _].
  - exists (allocs (head hp) pre), (allocs (head hp + total pre + sz) post).
    rewrite !allocs_app, Ea, Htp. simpl. done.
  - by eapply same_outside_data.
  - exists (pre ++ mkBlk sz false :: post), pre, sz, p, post. split; [apply grows_refl|done].
Qed.

Section alloc_proofs.
Context {E : Type} `{PageEnv E} (k size : Z).
Context (Hk : 0 <= k < 32) (Hsize : 8 <= size).
Let al := 2 ^ k.

(** Nothing fits, and nothing fits either once the heap has grown as far as the
    environment lets it. *)
Definition exhausted (hp : heap) (e : E) (bs : list blk) : Prop :=
  exists n e1, 0 <= n /\
    rtc (page_try (head hp) (max_size hp)) (hsize hp, e) (hsize hp + n, e1) /\
    no_growth (max_size hp) (hsize hp + n) e1 /\
    first_fit (head hp) (grown n bs) size al = None.

(** Why an allocation on the heap [hp] with blocks [bs] fails: no block fits, and growing
    faults in the environment or ends without a block that fits. *)
Definition alloc_fails (hp : heap) (e : E) (bs : list blk) (f : fault) : Prop :=
  first_fit (head hp) bs size al = None /\
  (growth_faults (head hp) (max_size hp) (hsize hp) e f \/ (f = FMem /\ exhausted hp e bs)).

(** The outcomes of an allocation. *)
Definition alloc_post (hp : heap) (m : mem) (e : E) (bs : list blk)
    (r : outcome (Z * heap * mem * E)) : Prop :=
  match r with
  | Ret (h, hp', m', e') =>
      (h <> 0 /\ rtc (page_try (head hp) (max_size hp)) (hsize hp, e) (hsize hp', e') /\
         exists bs' sz, allocated hp m bs size al h hp' m' bs' sz) \/
      (h = 0 /\ alloc_fails hp e bs FMem /\ exists bs', heap_ok hp' m' bs' /\ lock hp' = lock hp /\
         allocs (head hp) bs' = allocs (head hp) bs /\ data_same m m' (head hp) bs)
  | Fault f => alloc_fails hp e bs f
  end.

Lemma alloc_fails_grow hp e e1 bs n f : bs <> [] -> 0 < n ->
  first_fit (head hp) bs size al = None ->
  rtc (page_try (head hp) (max_size hp)) (hsize hp, e) (hsize hp + n, e1) ->
  alloc_fails (with_size hp (hsize hp + n)) e1 (grow_list n bs) f -> alloc_fails hp e bs f.
Proof.
  intros Hne Hn Hff Hrt [_ Hf]. split; [done|]. simpl in *.
  destruct Hf as [Hf|(-> & j & e2 & Hj & Hrt2 & Hng & Hff2)].
  - left. by eapply growth_faults_rtc.
  - right. split; [done|]. simpl in *. rewrite grown_grow in Hff2 by done.
    exists (n + j), e2. rewrite Z.add_assoc. split; [lia|]. split; [by etrans|done].
Qed.

Lemma alloc_post_grow hp m m1 e e1 bs n r : data_same m m1 (head hp) bs -> bs <> [] ->
  0 < n -> n mod PAGE_SIZE = 0 -> first_fit (head hp) bs size al = None ->
  rtc (page_try (head hp) (max_size hp)) (hsize hp, e) (hsize hp + n, e1) ->
  alloc_post (with_size hp (hsize hp + n)) m1 e1 (grow_list n bs) r -> alloc_post hp m e bs r.
Proof.
  intros Hd Hne Hn Hmod Hff Hrt Hr. destruct (grow_list_facts n (head hp) bs Hne) as [_ Ea].
  destruct r as [[[[h hp'] m'] e']|f]; simpl in *; [|by eapply alloc_fails_grow].
  destruct Hr as [(Hh & Hrt2 & bs' & sz & Hal)|(Hh & Hfl & bs' & Hok & Hlk & Eall & Hd2)].
  - left. split; [done|]. split; [by etrans|]. exists bs', sz. destruct Hal as [Hok Hsp Hf Hm Hd2 [Hh1 Hs1] Hsh].
    simpl in *. rewrite Ea in Hsp. split; try done; [|lia|].
    + by eapply data_same_trans.
    + destruct Hsh as (bg & pre & s & p & post & Hg & Hsh).
      exists bg, pre, s, p, post. split; [by eapply grows_step|done].
  - right. split; [done|]. split; [by eapply alloc_fails_grow|]. exists bs'. rewrite Ea in Eall.
    repeat (split; [done|]). by eapply data_same_trans.
Qed.

Lemma alloc_loop_ok : forall fuel hp m (e : E) bs, heap_ok hp m bs ->
  head hp + max_size hp + size + PAGE_SIZE + al + 32 < 2 ^ 32 ->
  (forall bs', grows bs bs' -> total bs' <= max_size hp ->
   misfit (head hp) bs' size al = false) ->
  max_size hp - hsize hp < PAGE_SIZE * Z.of_nat fuel ->
  alloc_post hp m e bs (alloc_loop fuel hp m e size al).
Proof.
  unfold PAGE_SIZE.
  induction fuel as [|fuel IH]; intros hp m e bs Hok Hb Hmf Hf.
  { pose proof (hk_le _ _ _ Hok). lia. }
  cbn [alloc_loop]. pose proof Hok as [[Hal Hh0] Hc Hne Ht Hsz Hmx Hle Hbd].
  assert (0 < al) by (unfold al; lia). pose proof (total_nonneg _ _ _ _ Hc).
  pose proof (scan_spec k size Hk Hsize ltac:(lia) m bs (head hp) (walk_fuel hp) Hc
    ltac:(lia) ltac:(fold al; lia) (walk_fuel_ok _ _ _ Hok)) as Hpass.
  unfold pass_result in Hpass. fold al in Hpass.
  replace (link (head hp) bs 0) with (head hp) in Hpass by (by destruct bs).
  pose proof (Hmf bs (grows_refl _) ltac:(lia)) as Hm0. unfold misfit in Hm0.
  destruct (first_fit (head hp) bs size al) as [[[[pre sz] p] post]|] eqn:Eff.
  - destruct Hpass as (Ebs & Hp & Hnn & Hgo).
    assert (p <> POverrun) as Hno by (by intros ->).
    destruct (Hgo Hno) as (m' & -> & Hch & Hso). cbn [mbind outcome_bind].
    left. split.
    { assert (0 <= total pre). { subst bs. rewrite chain_app in Hc. destruct Hc as [Hc _].
        by apply total_nonneg in Hc. }
      destruct p; simpl; try lia. apply place_gap in Hp; [lia|done|lia|].
      fold al. subst bs. rewrite total_app in Ht. simpl in Ht.
      rewrite chain_app in Hc. destruct Hc as [_ [Hblk Hq]].
      pose proof (total_nonneg _ _ _ _ Hq). pose proof (at_min _ _ _ _ Hblk). cbn [b_size] in *. lia. }
    split; [done|]. eexists. eapply pass_allocates; try done; [fold al; lia|by apply placement_cases].
  - rewrite Hpass. cbn [mbind outcome_bind].
    pose proof (heap_grow_ok hp m e bs size Hok ltac:(lia) ltac:(unfold PAGE_SIZE; lia)) as Hg.
    destruct (heap_grow hp m e size) as [[[[r hp1] m1] e1]|f]; cbn [mbind outcome_bind].
    2: { split; [done|]. by left. }
    destruct Hg as [(-> & -> & -> & Hng)|(n & Hn & Hr & -> & Hpg & Hmod & Hok1 & Hd & Hrt)].
    + right. split; [done|]. split; [|by exists bs]. split; [done|]. right. split; [done|].
      exists 0, e. rewrite Z.add_0_r. by split_and!.
    + rewrite nz_true by done. eapply alloc_post_grow; [done..|].
      unfold PAGE_SIZE in *. apply IH; simpl; [done|done| |lia].
      intros bs' Hgr Htb. apply Hmf; [by eapply grows_step|done].
Qed.
End alloc_proofs.

Definition set_lock (hp : heap) (l : Z) : heap := mkHeap (head hp) (hsize hp) (max_size hp) l.

Lemma heap_ok_set_lock hp m bs l : heap_ok hp m bs -> heap_ok (set_lock hp l) m bs.
Proof. by intros []. Qed.

Lemma allocs_split a bs h sz l1 l2 : allocs a bs = l1 ++ (h, sz) :: l2 ->
  exists pre post, bs = pre ++ mkBlk sz true :: post /\ h = a + total pre /\
    allocs a pre = l1 /\ allocs (h + sz) post = l2.
Proof.
  revert a l1. induction bs as [|b bs IH]; intros a l1 Ha; cbn [allocs] in Ha.
  { by destruct l1. }
  destruct b as [bz []]; cbn [b_alloc b_size app] in Ha.
  - destruct l1 as [|x l1]; cbn [app] in Ha.
    + injection Ha as -> -> Hr. exists [], bs. simpl. by rewrite Z.add_0_r.
    + injection Ha as <- Hr. destruct (IH _ _ Hr) as (pre & post & -> & Hh & Hl1 & Hl2).
      exists (mkBlk bz true :: pre), post. simpl. rewrite Hl1. repeat split; [lia|done].
  - destruct (IH _ _ Ha) as (pre & post & -> & Hh & Hl1 & Hl2).
    exists (mkBlk bz false :: pre), post. simpl. repeat split; [lia|done|done].
Qed.

Lemma allocs_block m a bs nx h sz : chain m a bs nx -> (h, sz) ∈ allocs a bs ->
  exists nx', block_at m h (mkBlk sz true) nx'.
Proof.
  intros Hc Hin. apply list_elem_of_split in Hin as (l1 & l2 & Ha).
  apply allocs_split in Ha as (pre & post & -> & -> & _). rewrite chain_app in Hc.
  destruct Hc as [_ [Hb _]]. eauto.
Qed.

Section block_aligned.
Context {E : Type} `{PageEnv E} (k size : Z).
Context (Hk : 0 <= k < 32) (Hsize : 0 <= size).

Lemma heap_alloc_block_aligned_ok hp m (e : E) bs : heap_ok hp m bs -> lock hp = SPINLOCK_INIT ->
  head hp + max_size hp + size + PAGE_SIZE + 2 ^ k + 40 < 2 ^ 32 ->
  (forall bs', grows bs bs' -> total bs' <= max_size hp ->
   misfit (head hp) bs' (size + 8) (2 ^ k) = false) ->
  alloc_post k (size + 8) hp m e bs (heap_alloc_block_aligned hp m e size (2 ^ k)).
Proof.
  intros Hok Hlk Hb Hmf. unfold heap_alloc_block_aligned, heap_lock. rewrite Hlk.
  cbn [spinlock_try_lock cmpxchg Z.eqb SPINLOCK_INIT].
  pose proof (hk_base _ _ _ Hok) as [_ Hbase]. pose proof (hk_le _ _ _ Hok).
  pose proof (total_nonneg _ _ _ _ (hk_chain _ _ _ Hok)) as Ht. rewrite (hk_total _ _ _ Hok) in Ht.
  assert (0 < 2 ^ k) by lia. unfold PAGE_SIZE in *. rewrite (u32_small (size + 8)) by lia.
  fold (set_lock hp 1).
  pose proof (alloc_loop_ok k (size + 8) Hk ltac:(lia) (grow_fuel (set_lock hp 1))
    (set_lock hp 1) m e bs (heap_ok_set_lock _ _ _ 1 Hok) ltac:(simpl; unfold PAGE_SIZE; lia)
    Hmf) as Hr.
  ospecialize* Hr.
  { unfold grow_fuel, PAGE_SIZE. simpl.
    pose proof (Z.div_mod (max_size hp - hsize hp) 4096 ltac:(lia)).
    pose proof (Z.mod_pos_bound (max_size hp - hsize hp) 4096 ltac:(lia)). lia. }
  destruct (alloc_loop _ _ _ _ _ _) as [[[[h hp'] m'] e']|f]; cbn [mbind outcome_bind]; [|done].
  assert (lock hp' = 1) as Hl.
  { destruct Hr as [(_ & _ & bs' & sz & [])|(_ & _ & bs' & _ & Hl & _)]; [|done].
    by destruct al_same0 as (_ & _ & _ & ->). }
  unfold heap_unlock. rewrite Hl. cbn [spinlock_try_unlock cmpxchg Z.eqb Pos.eqb c_assert mbind outcome_bind].
  fold (set_lock hp' 0). simpl in *.
  destruct Hr as [(Hh & Hrt & bs' & sz & Hal)|(Hh & Hfl & bs' & Hok' & _ & Ha & Hd)].
  - left. split; [done|]. split; [done|]. exists bs', sz. destruct Hal as [Hok' ? ? ? ? ? ?].
    split; try done; [by apply heap_ok_set_lock|]. simpl in *. rewrite Hlk. tauto.
  - right. split; [done|]. split; [done|]. exists bs'. split; [by apply heap_ok_set_lock|]. done.
Qed.
End block_aligned.

Lemma heap_alloc_aligned_ok {E : Type} `{PageEnv E} (hp : heap) (m : mem) (e : E)
    (bs : list blk) (k size : Z) :
  0 <= k < 32 -> 0 <= size -> heap_ok hp m bs -> lock hp = SPINLOCK_INIT ->
  head hp + max_size hp + size + PAGE_SIZE + 2 ^ k + 40 < 2 ^ 32 ->
  (forall bs', grows bs bs' -> total bs' <= max_size hp ->
     misfit (head hp) bs' (size + 8) (2 ^ k) = false) ->
  match heap_alloc_aligned hp m e size (2 ^ k) with
  | Ret (ptr, hp', m', e') =>
      rtc (page_try (head hp) (max_size hp)) (hsize hp, e) (hsize hp', e') /\
      exists bs' sz, allocated hp m bs (size + 8) (2 ^ k) (ptr - 16) hp' m' bs' sz
  | Fault f => alloc_fails k (size + 8) hp e bs f
  end.
Proof.
  intros Hk Hs Hok Hlk Hb Hmf. unfold heap_alloc_aligned.
  pose proof (heap_alloc_block_aligned_ok k size Hk Hs hp m e bs Hok Hlk Hb Hmf) as Hp.
  destruct (heap_alloc_block_aligned _ _ _ _ _) as [[[[h hp'] m'] e']|f]; cbn [mbind outcome_bind];
    [|done].
  destruct Hp as [(Hh & Hrt & bs' & sz & Hal)|(-> & Hfl & _)].
  - rewrite nz_true by done. pose proof Hal as [Hok' (l1 & l2 & _ & Ha) _ _ _ (Hhd & Hmx & _) _].
    assert ((h, sz) ∈ allocs (head hp') bs') as Hin.
    { rewrite Hhd, Ha. apply elem_of_app. right. left. }
    destruct (allocs_block _ _ _ _ _ _ (hk_chain _ _ _ Hok') Hin) as (nx & Hblk).
    pose proof (allocs_range _ _ _ _ _ _ (hk_chain _ _ _ Hok') Hin) as Hr.
    pose proof (hk_base _ _ _ Hok') as [_ Hb0]. pose proof (hk_bound _ _ _ Hok').
    rewrite (hk_total _ _ _ Hok') in Hr. pose proof (hk_le _ _ _ Hok'). unfold PAGE_SIZE in *.
    unfold sizeof_header. rewrite (u32_small (h + 16)) by lia.
    rewrite (at_magic _ _ _ _ Hblk). cbn [b_magic b_alloc]. rewrite assert_eq by done.
    cbn [mbind outcome_bind]. split; [done|]. exists bs', sz. by replace (h + 16 - 16) with h by lia.
  - done.
Qed.
