(* ===== verification/HeapClaims.v ===== *)
(** Requests in multiples of the word size, initialisation, release and the
    alignment overrun of the kernel heap ([kernel/heap.c]). *)
From S2P Require Import Prelude Util Mem Pmm Locks Heap HeapSpec HeapProofs.

(** ** Requests of any alignment *)

(** For every power-of-two alignment, [heap_alloc_aligned] on a well-formed,
    unlocked heap either returns a pointer [ptr] such that the block list is again
    well formed, exactly the block headed at [ptr - 16] has been added to the
    allocated ones, it spans the header, the requested bytes and the canary, [ptr]
    is aligned, and no byte owned by another user changed; or no block of this heap fits
    and either the page environment, asked for the pages behind this heap, faults, or it
    has no more pages and still nothing fits (the code then dereferences the null header).
    It never runs out of fuel. The hypothesis on [misfit] excludes heaps in which, now or after
    growing, the first block to pass the code's tests is too short once the alignment gap is subtracted. *)
Theorem heap_alloc_aligned_spec {E : Type} `{PageEnv E} (hp : heap) (m : mem) (e : E)
    (bs : list blk) (k size : Z) :
  0 <= k < 32 -> 0 <= size -> heap_ok hp m bs -> lock hp = SPINLOCK_INIT ->
  head hp + max_size hp + size + PAGE_SIZE + 2 ^ k + 40 < 2 ^ 32 ->
  (forall bs', grows bs bs' -> total bs' <= max_size hp ->
     misfit (head hp) bs' (size + 8) (2 ^ k) = false) ->
  match heap_alloc_aligned hp m e size (2 ^ k) with
  | Ret (ptr, hp', m', e') =>
      rtc (page_try (head hp) (max_size hp)) (hsize hp, e) (hsize hp', e') /\
      exists bs' sz, allocated hp m bs (size + 8) (2 ^ k) (ptr - 16) hp' m' bs' sz
  | Fault f => alloc_fails k (size + 8) hp e bs f
  end.
Proof. apply heap_alloc_aligned_ok. Qed.

(** ** Running out of memory *)

(** No free block of [bs] has [need] bytes, header included. *)
Definition no_room (need : Z) (bs : list blk) : Prop :=
  Forall (fun b => b_alloc b = true \/ b_size b < need) bs.

(** The heap [hp] with the blocks [bs] has no free block of [need] bytes, and asking the
    environment [e] for the pages behind it either faults with [f] or ends, at the heap's
    maximal size or without a free frame, with still no free block of [need] bytes. *)
Definition out_of_memory {E : Type} `{PageEnv E} (hp : heap) (e : E) (bs : list blk) (need : Z)
    (f : fault) : Prop :=
  no_room need bs /\
  (growth_faults (head hp) (max_size hp) (hsize hp) e f \/
   (f = FMem /\ exists n e1, 0 <= n /\
      rtc (page_try (head hp) (max_size hp)) (hsize hp, e) (hsize hp + n, e1) /\
      no_growth (max_size hp) (hsize hp + n) e1 /\ no_room need (grown n bs))).

(** A first fit that finds nothing has seen only blocks shorter than request, header and a
    second header. *)
Lemma first_fit_no_room size al bs a : first_fit a bs size al = None -> no_room (size + 33) bs.
Proof.
  revert a. induction bs as [|b bs IH]; intros a Hff; [constructor|]. cbn [first_fit] in Hff.
  destruct (if b_alloc b then PNone else place a (b_size b) size al) eqn:Ep; try done.
  destruct (first_fit (a + b_size b) bs size al) as [[[[? ?] ?] ?]|] eqn:Er; [done|].
  constructor; [|by eapply IH]. destruct (b_alloc b); [by left|right].
  unfold place in Ep. repeat case_hyp Ep; try done; breflect; lia.
Qed.

(** Pages are added only below the maximal size, and sizes stay multiples of a page. *)
Lemma page_try_bound {E : Type} `{PageEnv E} hd mx (x y : Z * E) : page_try hd mx x y ->
  mx mod PAGE_SIZE = 0 -> x.1 mod PAGE_SIZE = 0 -> x.1 <= mx ->
  y.1 mod PAGE_SIZE = 0 /\ x.1 <= y.1 <= mx.
Proof.
  unfold PAGE_SIZE. intros Ht Hm Hx Hle. destruct Ht; simpl in *; unfold PAGE_SIZE in *;
    try (split; [done|lia]);
    (split; [rewrite Z.add_mod, Hx by lia; done|]); (split; [lia|]); by apply multiple_step.
Qed.

Lemma page_tries_bound {E : Type} `{PageEnv E} hd mx (x y : Z * E) : rtc (page_try hd mx) x y ->
  mx mod PAGE_SIZE = 0 -> x.1 mod PAGE_SIZE = 0 -> x.1 <= mx ->
  y.1 mod PAGE_SIZE = 0 /\ x.1 <= y.1 <= mx.
Proof.
  induction 1 as [x|x y z Ht _ IH]; intros Hm Hx Hle; [done|].
  destruct (page_try_bound _ _ _ _ Ht Hm Hx Hle) as [Hy ?]. destruct IH as [? ?]; [done..|lia|].
  split; [done|lia].
Qed.

Lemma grows_grown n bs : 0 <= n -> n mod PAGE_SIZE = 0 -> grows bs (grown n bs).
Proof.
  intros Hn Hm. unfold grown. destruct (n =? 0) eqn:E; breflect; [constructor|].
  apply (grows_step n); [lia|done|constructor].
Qed.

Lemma alloc_fails_oom {E : Type} `{PageEnv E} k size hp m (e : E) bs f need : heap_ok hp m bs ->
  (forall bs', grows bs bs' -> total bs' <= max_size hp ->
     first_fit (head hp) bs' size (2 ^ k) = None -> no_room need bs') ->
  alloc_fails k size hp e bs f -> out_of_memory hp e bs need f.
Proof.
  intros Hok Hroom [Hff Hf]. pose proof (hk_le _ _ _ Hok). pose proof (hk_total _ _ _ Hok) as Ht.
  split; [apply (Hroom bs); [constructor|lia|done]|].
  destruct Hf as [Hf|(-> & n & e1 & Hn & Hrt & Hng & Hff2)]; [by left|right].
  split; [done|]. exists n, e1. split_and!; try done.
  destruct (page_tries_bound _ _ _ _ Hrt) as [Hm ?]; [apply (hk_max _ _ _ Hok)|
    apply (hk_size _ _ _ Hok)|done|]. simpl in *.
  assert (n mod PAGE_SIZE = 0) as Hn0.
  { replace n with (hsize hp + n - hsize hp) by lia.
    rewrite Zminus_mod, Hm, (hk_size _ _ _ Hok). done. }
  apply Hroom; [by apply grows_grown| |done]. unfold grown. destruct (n =? 0); [lia|].
  destruct (grow_list_facts n 0 bs (hk_ne _ _ _ Hok)) as [-> _]. lia.
Qed.

(** ** Word-sized requests

    When every block size is a multiple of 8, 8-byte-aligned data addresses are
    always aligned already, and the carve branch of the code is never taken. *)
Definition words (bs : list blk) : Prop := Forall (fun b => b_size b mod 8 = 0) bs.

Lemma words_app bs1 bs2 : words (bs1 ++ bs2) <-> words bs1 /\ words bs2.
Proof. apply Forall_app. Qed.

Lemma words_total bs : words bs -> total bs mod 8 = 0.
Proof.
  induction 1 as [|b bs Hb _ IH]; simpl; [done|]. rewrite Z.add_mod, Hb, IH by lia. done.
Qed.

Lemma words_grow n bs : bs <> [] -> n mod 8 = 0 -> words bs -> words (grow_list n bs).
Proof.
  intros Hne Hn. destruct (exists_last Hne) as (l & b & ->). rewrite grow_list_snoc, !words_app.
  intros [Hl Hb]. split; [done|]. apply Forall_inv in Hb. unfold words.
  destruct (b_alloc b); constructor; try done; [by constructor|]. simpl.
  rewrite Z.add_mod, Hb, Hn by lia. done.
Qed.

Lemma words_grows bs bs' : grows bs bs' -> bs <> [] -> words bs -> words bs' /\ bs' <> [].
Proof.
  induction 1 as [bs|n bs bs' Hn Hm Hg IH]; intros Hne Hw; [done|].
  apply IH; [by apply grow_list_ne|]. apply words_grow; [done| |done].
  unfold PAGE_SIZE in Hm. pose proof (Z.div_mod n 4096). pose proof (Z.div_mod n 8).
  pose proof (Z.mod_pos_bound n 8). lia.
Qed.

Lemma place_words a sz size : 0 < a -> a + 40 < 2 ^ 32 -> a mod 8 = 0 ->
  place a sz size 8 = PTake \/ place a sz size 8 = PNone.
Proof.
  intros Ha Hb Hm. unfold place. destruct (size + 16 <=? sz); [|by right].
  assert ((a + 16) mod 8 = 0) by (rewrite Z.add_mod, Hm by lia; done).
  assert (ALIGN (a + 16) (2 ^ 3) = a + 16) as E by (apply ALIGN_id; (done || lia)).
  change (2 ^ 3) with 8 in E. rewrite E, Z.eqb_refl. by left.
Qed.

Lemma mins_total bs : Forall (fun b => 16 <= b_size b) bs -> 0 <= total bs.
Proof. induction 1; simpl; lia. Qed.

Lemma first_fit_words size : forall bs a, 0 < a -> words bs -> Forall (fun b => 16 <= b_size b) bs ->
  a mod 8 = 0 -> a + total bs + 40 < 2 ^ 32 -> misfit a bs size 8 = false.
Proof.
  unfold misfit.
  induction bs as [|b bs IH]; intros a Ha Hw Hmin Hm Hb; [done|]. cbn [first_fit].
  apply Forall_cons in Hw as [Hb8 Hw]. apply Forall_cons in Hmin as [Hb16 Hmin]. simpl in Hb.
  pose proof (mins_total _ Hmin).
  assert ((if b_alloc b then PNone else place a (b_size b) size 8) = PTake \/
          (if b_alloc b then PNone else place a (b_size b) size 8) = PNone) as [->| ->].
  { destruct (b_alloc b); [by right|]. apply place_words; [done|lia|done]. }
  - done.
  - specialize (IH (a + b_size b)). ospecialize* IH; [lia|done|done| |lia|].
    { rewrite Z.add_mod, Hm, Hb8 by lia. done. }
    by destruct (first_fit (a + b_size b) bs size 8) as [[[[? ?] []] ?]|].
Qed.

(** On word-sized blocks the first fit misses no block that is long enough. *)
Lemma first_fit_room size : forall bs a, 0 < a -> words bs -> Forall (fun b => 16 <= b_size b) bs ->
  a mod 8 = 0 -> a + total bs + 40 < 2 ^ 32 -> first_fit a bs size 8 = None ->
  no_room (size + 16) bs.
Proof.
  induction bs as [|b bs IH]; intros a Ha Hw Hmin Hm Hb Hff; [constructor|]. cbn [first_fit] in Hff.
  apply Forall_cons in Hw as [Hb8 Hw]. apply Forall_cons in Hmin as [Hb16 Hmin]. simpl in Hb.
  pose proof (mins_total _ Hmin).
  destruct (if b_alloc b then PNone else place a (b_size b) size 8) eqn:Ep; try done.
  destruct (first_fit (a + b_size b) bs size 8) as [[[[? ?] ?] ?]|] eqn:Er; [done|].
  constructor.
  - destruct (b_alloc b); [by left|right].
    destruct (place_words a (b_size b) size) as [E|_]; [lia|lia|done|congruence|].
    unfold place in Ep. assert (ALIGN (a + 16) (2 ^ 3) = a + 16) as Eal.
    { assert ((a + 16) mod 8 = 0) by (rewrite Z.add_mod, Hm by lia; done).
      apply ALIGN_id; (done || lia). }
    change (2 ^ 3) with 8 in Eal. rewrite Eal, Z.eqb_refl in Ep. case_hyp Ep; [done|]. breflect. lia.
  - apply (IH (a + b_size b)); [lia|done|done| |lia|done]. rewrite Z.add_mod, Hm, Hb8 by lia. done.
Qed.

Lemma take_words sz size : sz mod 8 = 0 -> size mod 8 = 0 -> words (take_blocks sz size).
Proof.
  intros H1 H2. unfold take_blocks. case_goal; repeat constructor; simpl; try done.
  - by rewrite Z.add_mod, H2.
  - rewrite Zminus_mod, H2, (Zminus_mod sz), H1. done.
Qed.

Lemma chain_mins m a bs nx : chain m a bs nx -> Forall (fun b => 16 <= b_size b) bs.
Proof.
  revert a. induction bs as [|b bs IH]; intros a Hc; constructor; destruct Hc as [Hb Hc]; [|eauto].
  apply (at_min _ _ _ _ Hb).
Qed.

Lemma grows_mins bs bs' : grows bs bs' -> bs <> [] ->
  Forall (fun b => 16 <= b_size b) bs -> Forall (fun b => 16 <= b_size b) bs'.
Proof.
  induction 1 as [bs|n bs bs' Hn Hm Hg IH]; intros Hne Hw; [done|].
  apply IH; [by apply grow_list_ne|]. destruct (exists_last Hne) as (l & b & ->).
  rewrite grow_list_snoc. apply Forall_app in Hw as [Hl Hb]. apply Forall_inv in Hb.
  apply Forall_app. split; [done|].
  unfold PAGE_SIZE in Hm. pose proof (Z.div_mod n 4096).
  destruct (b_alloc b); repeat (apply Forall_cons; split); simpl; try lia; constructor.
Qed.

Section words_proofs.
Context (hp : heap) (m : mem) (bs : list blk) (size : Z).
Context (Hok : heap_ok hp m bs) (Hw : words bs).

Lemma words_head : head hp mod 8 = 0 /\ 16 <= head hp.
Proof.
  destruct (hk_base _ _ _ Hok) as [Hm Hb]. unfold PAGE_SIZE in Hm. split; [|lia].
  pose proof (Z.div_mod (head hp - 16) 4096). pose proof (Z.div_mod (head hp) 8).
  pose proof (Z.mod_pos_bound (head hp) 8). lia.
Qed.

Lemma words_no_misfit : forall bs', grows bs bs' -> total bs' <= max_size hp ->
  misfit (head hp) bs' size 8 = false.
Proof.
  intros bs' Hg Ht. destruct words_head as [H8 Hpos].
  pose proof (hk_bound _ _ _ Hok) as Hb. unfold PAGE_SIZE in Hb.
  destruct (words_grows _ _ Hg (hk_ne _ _ _ Hok) Hw) as [Hw' _].
  apply first_fit_words; [lia|done| |done|lia].
  eapply grows_mins; [done|apply (hk_ne _ _ _ Hok)|]. eapply chain_mins, (hk_chain _ _ _ Hok).
Qed.

Lemma words_oom {E : Type} `{PageEnv E} (e : E) f : alloc_fails 3 size hp e bs f ->
  out_of_memory hp e bs (size + 16) f.
Proof.
  destruct words_head as [H8 Hpos]. pose proof (hk_bound _ _ _ Hok) as Hb. unfold PAGE_SIZE in Hb.
  apply (alloc_fails_oom _ _ _ m); [done|]. intros bs' Hg Ht. change (2 ^ 3) with 8.
  destruct (words_grows _ _ Hg (hk_ne _ _ _ Hok) Hw) as [Hw' _].
  apply first_fit_room; [lia|done| |done|lia].
  eapply grows_mins; [done|apply (hk_ne _ _ _ Hok)|]. eapply chain_mins, (hk_chain _ _ _ Hok).
Qed.

Lemma words_shape bs' : size mod 8 = 0 ->
  (exists bg pre s p post, grows bs bg /\ bg = pre ++ mkBlk s false :: post /\
     place (head hp + total pre) s size 8 = p /\ (p = PTake \/ exists g, p = PCarve g) /\
     bs' = pre ++ placed s size p ++ post) ->
  total bs' <= max_size hp -> words bs'.
Proof.
  intros Hs (bg & pre & s & p & post & Hg & -> & Hp & Hc & ->) Ht.
  destruct (words_grows _ _ Hg (hk_ne _ _ _ Hok) Hw) as [Hw' _].
  rewrite !words_app in *. destruct Hw' as [Hpre Hrest]. apply Forall_cons in Hrest as [Hs8 Hpost].
  repeat split; try done. destruct words_head as [H8 Hpos].
  pose proof (hk_bound _ _ _ Hok) as Hb. unfold PAGE_SIZE in Hb.
  pose proof (grows_mins _ _ Hg (hk_ne _ _ _ Hok) (chain_mins _ _ _ _ (hk_chain _ _ _ Hok))) as Hmin.
  apply Forall_app in Hmin as [Hmin1 Hmin2]. apply Forall_cons in Hmin2 as [Hs16 Hmin2].
  apply mins_total in Hmin1, Hmin2. simpl in Hs16.
  rewrite !total_app, (proj1 (placed_total s size p Hc)) in Ht.
  destruct (place_words (head hp + total pre) s size) as [E|E]; [lia|lia| | |].
  - rewrite Z.add_mod, H8, (words_total _ Hpre) by lia. done.
  - rewrite <- Hp, E. by apply take_words.
  - destruct Hc as [Hc|[g Hc]]; congruence.
Qed.
End words_proofs.

(** C1: On a heap whose block sizes are multiples of 8, [heap_alloc] of a multiple
    of 8 bytes needs no further condition: it returns a fresh, 8-byte aligned block
    holding the request and its canary, disjoint data untouched, the environment asked
    only for the pages by which the heap grew, and block sizes
    stay multiples of 8, so the property holds for every later request too. It fails only
    when this heap has no free block of [size + 24] bytes (request, canary and header) and
    asking the page environment for the pages behind it either faults or ends, at the
    maximal size or without a free frame, with still no such block. *)
Theorem heap_alloc_words_spec {E : Type} `{PageEnv E} (hp : heap) (m : mem) (e : E)
    (bs : list blk) (size : Z) :
  0 <= size -> size mod 8 = 0 -> heap_ok hp m bs -> words bs -> lock hp = SPINLOCK_INIT ->
  head hp + max_size hp + size + PAGE_SIZE + 48 < 2 ^ 32 ->
  match heap_alloc hp m e size with
  | Ret (ptr, hp', m', e') =>
      rtc (page_try (head hp) (max_size hp)) (hsize hp, e) (hsize hp', e') /\
      exists bs' sz, allocated hp m bs (size + 8) 8 (ptr - 16) hp' m' bs' sz /\ words bs'
  | Fault f => out_of_memory hp e bs (size + 24) f
  end.
Proof.
  intros Hs Hs8 Hok Hw Hlk Hb. unfold heap_alloc.
  pose proof (heap_alloc_aligned_ok hp m e bs 3 size) as Hp. change (2 ^ 3) with 8 in Hp.
  ospecialize* Hp; try (done || lia). { by apply (words_no_misfit hp m). }
  destruct (heap_alloc_aligned hp m e size 8) as [[[[ptr hp'] m'] e']|f].
  2: { replace (size + 24) with (size + 8 + 16) by lia. by apply (words_oom hp m). }
  destruct Hp as (Hrt & bs' & sz & Hal). split; [done|]. exists bs', sz. split; [done|].
  destruct Hal as [Hok' _ _ _ _ (_ & Hmx & _) Hsh].
  apply (words_shape hp m bs (size + 8)); [done|done| |done|].
  - rewrite Z.add_mod, Hs8 by lia. done.
  - rewrite (hk_total _ _ _ Hok'), <- Hmx. pose proof (hk_le _ _ _ Hok'). lia.
Qed.

(** ** Release *)

(** No two adjacent blocks are free. *)
Fixpoint coalesced (bs : list blk) : Prop :=
  match bs with
  | b :: ((c :: _) as rest) => (b_alloc b = true \/ b_alloc c = true) /\ coalesced rest
  | _ => True
  end.

Lemma coalesced_app bs1 b c bs2 : coalesced (bs1 ++ [b]) -> coalesced (c :: bs2) ->
  b_alloc b = true \/ b_alloc c = true -> coalesced (bs1 ++ b :: c :: bs2).
Proof.
  intros H1 H2 Hbc. induction bs1 as [|d bs1 IH]; [done|].
  destruct bs1 as [|d' bs1]; destruct H1 as [Hd H1]; (split; [done|]); auto.
Qed.

Lemma coalesced_inv bs1 bs2 : coalesced (bs1 ++ bs2) -> coalesced bs1 /\ coalesced bs2.
Proof.
  induction bs1 as [|b bs1 IH]; [done|]. destruct bs1 as [|c bs1]; simpl in *.
  - destruct bs2; [done|]. tauto.
  - tauto.
Qed.

Lemma coalesced_resize pre s s' :
  coalesced (pre ++ [mkBlk s false]) -> coalesced (pre ++ [mkBlk s' false]).
Proof.
  induction pre as [|d pre IH]; [done|]. destruct pre; intros [Hd Hr]; (split; [done|]); auto.
Qed.

Lemma merge_ok m a pre s1 s2 post : chain m a (pre ++ mkBlk s1 false :: mkBlk s2 false :: post) 0 ->
  0 < a -> a + total (pre ++ mkBlk s1 false :: mkBlk s2 false :: post) < 2 ^ 32 ->
  let x := a + total pre in
  exists m', merge_blocks m x (x + s1) = Ret m' /\
    chain m' a (pre ++ mkBlk (s1 + s2) false :: post) 0 /\ same_outside m m' x (x + 16).
Proof.
  intros Hc Ha He x. pose proof Hc as Hs. rewrite chain_app in Hs.
  destruct Hs as [Hpre [H1 [H2 Hpost]]]. fold x in H1, H2, Hpost. cbn [b_size] in *.
  pose proof (total_nonneg _ _ _ _ Hpre). pose proof (total_nonneg _ _ _ _ Hpost).
  pose proof (at_min _ _ _ _ H1) as Hm1. pose proof (at_min _ _ _ _ H2) as Hm2. simpl in Hm1, Hm2.
  rewrite total_app in He. cbn [total b_size] in He. assert (x = a + total pre) as Ex by done.
  clearbody x. apply block_at_hdr in H1, H2. cbn in H1, H2.
  unfold merge_blocks. rewrite (proj2 (Z.ltb_lt _ _)) by lia. hdr_rw. rewrite assert_eq by done.
  cbn [c_assert mbind outcome_bind]. rewrite (u32_small (s1 + s2)) by lia.
  assert (0 <= succ (x + s1) s2 post 0 < 2 ^ 32) by (destruct post; simpl; lia).
  do 2 hstep. eexists. split; [done|]. split; [|same_solve].
  apply (chain_replace m _ a pre [mkBlk s1 false; mkBlk s2 false] [mkBlk (s1 + s2) false] post);
    try done; cbn [total b_size]; rewrite <- ?Ex; [lia|same_solve|].
  cbn [chain succ b_size]. split; [|done]. apply block_at_free; [|lia].
  replace (link (x + (s1 + (s2 + 0))) post 0) with (succ (x + s1) s2 post 0); [done|].
  destruct post; simpl; [done|lia].
Qed.

Lemma words_merge pre s1 s2 post : words (pre ++ mkBlk s1 false :: mkBlk s2 false :: post) ->
  words (pre ++ mkBlk (s1 + s2) false :: post).
Proof.
  rewrite !words_app. intros [Hp Hr]. split; [done|].
  apply Forall_cons in Hr as [H1 Hr]. apply Forall_cons in Hr as [H2 Hr]. simpl in *.
  constructor; [|done]. simpl. rewrite Z.add_mod, H1, H2 by lia. done.
Qed.

Lemma prev_block_ok m b c post : forall pre a fuel, chain m a (pre ++ b :: c :: post) 0 -> 0 < a ->
  (length pre < fuel)%nat ->
  prev_block_from fuel m a (a + total pre + b_size b) = Ret (a + total pre).
Proof.
  induction pre as [|d pre IH]; intros a fuel Hc Ha Hf;
    (destruct fuel as [|fuel]; [simpl in Hf; lia|]); cbn [prev_block_from app] in *;
    destruct Hc as [Hb Hc]; rewrite (nz_true a) by lia; rewrite (at_next _ _ _ _ Hb); cbn [andb].
  - simpl. by rewrite Z.add_0_r, Z.eqb_refl.
  - pose proof (at_min _ _ _ _ Hb) as Hd.
    replace (succ a (b_size d) (pre ++ b :: c :: post) 0) with (a + b_size d) by (by destruct pre).
    pose proof Hc as Hc2. rewrite chain_app in Hc2. destruct Hc2 as [Hp [Hbb _]].
    pose proof (total_nonneg _ _ _ _ Hp). pose proof (at_min _ _ _ _ Hbb). cbn [total].
    rewrite (proj2 (Z.eqb_neq _ _)) by lia. cbn [negb].
    rewrite (chain_valid _ _ _ _ Hb). cbn [c_assert mbind outcome_bind].
    replace (a + (b_size d + total pre) + b_size b) with (a + b_size d + total pre + b_size b) by lia.
    simpl in Hf. rewrite IH by (done || lia). f_equal. lia.
Qed.

(** [heap_free_block] once the block is marked free: merge with the previous and
    the next block. *)
Definition merge_neighbours (hp : heap) (m : mem) (block : Z) : outcome mem :=
  prevh ← prev_block (walk_fuel hp) hp m block;
  pf ← (if nz prevh then heap_is_free m prevh else Ret false);
  '(block, m) ← (if (pf : bool)
                 then m ← merge_blocks m prevh block; Ret (prevh, m)
                 else Ret (block, m));
  nf ← (if nz (next m block) then heap_is_free m (next m block) else Ret false);
  if (nf : bool) then merge_blocks m block (next m block) else Ret m.

Lemma merge_next m a pre s post : chain m a (pre ++ mkBlk s false :: post) 0 -> 0 < a ->
  a + total (pre ++ mkBlk s false :: post) < 2 ^ 32 ->
  (coalesced (pre ++ [mkBlk s false])) -> coalesced post ->
  let x := a + total pre in
  exists m' s' post', (nf ← (if nz (next m x) then heap_is_free m (next m x) else Ret false);
     if (nf : bool) then merge_blocks m x (next m x) else Ret m) = Ret m' /\
    chain m' a (pre ++ mkBlk s' false :: post') 0 /\ same_outside m m' x (x + 16) /\
    s' + total post' = s + total post /\ allocs (x + s') post' = allocs (x + s) post /\
    coalesced (pre ++ mkBlk s' false :: post') /\
    (words (pre ++ mkBlk s false :: post) -> words (pre ++ mkBlk s' false :: post')).
Proof.
  intros Hc Ha He Hco1 Hco2 x. pose proof Hc as Hs. rewrite chain_app in Hs.
  destruct Hs as [Hpre [Hx Hpost]]. fold x in Hx, Hpost. rewrite (at_next _ _ _ _ Hx).
  pose proof (total_nonneg _ _ _ _ Hpre). pose proof (at_min _ _ _ _ Hx) as Hm1. simpl in Hm1.
  cbn [b_size] in *. destruct post as [|[s2 []] post]; cbn [succ] in *.
  - exists m, s, []. rewrite nz_false by done. cbn [mbind outcome_bind]. by repeat split.
  - rewrite nz_true by lia. destruct Hpost as [Hn Hpost].
    rewrite (hdr_is_free _ _ _ _ Hn). cbn [mbind outcome_bind b_alloc negb].
    exists m, s, (mkBlk s2 true :: post). repeat split; try done.
    apply coalesced_app; [done..|by right].
  - rewrite nz_true by lia. destruct Hpost as [Hn Hpost].
    rewrite (hdr_is_free _ _ _ _ Hn). cbn [mbind outcome_bind b_alloc negb].
    destruct (merge_ok m a pre s s2 post Hc Ha He) as (m' & E & Hc' & Hs'). fold x in E.
    exists m', (s + s2), post. repeat split; try done;
      [simpl; lia|cbn [allocs b_alloc b_size app]; f_equal; lia| |].
    + destruct post as [|c post]; [by eapply coalesced_resize|].
      apply coalesced_app; [by eapply coalesced_resize| |].
      * apply (coalesced_inv [mkBlk s2 false] _ Hco2).
      * destruct Hco2 as [[?|?] _]; [done|by right].
    + by apply words_merge.
Qed.

Lemma heap_ok_update hp m bs m' bs' : heap_ok hp m bs -> chain m' (head hp) bs' 0 -> bs' <> [] ->
  total bs' = total bs -> heap_ok hp m' bs'.
Proof. intros [] ? ? Ht. split; try done. by rewrite Ht. Qed.

Lemma heap_ok_end hp m bs : heap_ok hp m bs -> 0 < head hp /\ head hp + total bs < 2 ^ 32.
Proof.
  intros [[Hal Hh0] Hc Hne Ht Hsz Hmx Hle Hbd]. unfold PAGE_SIZE in *. lia.
Qed.

Lemma header_data m m' a pre s post : chain m a (pre ++ mkBlk s false :: post) 0 ->
  same_outside m m' (a + total pre) (a + total pre + 16) ->
  data_same m m' a (pre ++ mkBlk s false :: post).
Proof.
  intros Hc Hs. eapply (same_outside_data _ _ _ pre s post 0 (a + total pre) (a + total pre + s));
    [done| |done|done].
  rewrite chain_app in Hc. destruct Hc as [_ [Hx _]]. apply at_min in Hx. simpl in Hx.
  eapply same_outside_widen; [done|lia|lia].
Qed.

(** What both merges leave. *)
Definition released (hp : heap) (m : mem) (bs : list blk) (r : outcome mem) : Prop :=
  exists m' bs', r = Ret m' /\ heap_ok hp m' bs' /\
    allocs (head hp) bs' = allocs (head hp) bs /\ coalesced bs' /\ (words bs -> words bs') /\
    data_same m m' (head hp) bs.

Lemma merge_next_ok hp m pre s post : heap_ok hp m (pre ++ mkBlk s false :: post) ->
  coalesced (pre ++ [mkBlk s false]) -> coalesced post ->
  let x := head hp + total pre in
  released hp m (pre ++ mkBlk s false :: post)
    (nf ← (if nz (next m x) then heap_is_free m (next m x) else Ret false);
     if (nf : bool) then merge_blocks m x (next m x) else Ret m).
Proof.
  intros Hok Hco1 Hco2 x. destruct (heap_ok_end _ _ _ Hok) as [Hpos Hend].
  pose proof (hk_chain _ _ _ Hok) as Hc.
  destruct (merge_next m (head hp) pre s post Hc Hpos Hend Hco1 Hco2)
    as (m' & s' & post' & E & Hc' & Hs & Ht & Ha & Hco & Hwd). fold x in E, Hs, Ha.
  exists m', (pre ++ mkBlk s' false :: post'). split; [done|]. split.
  { eapply heap_ok_update; [done..|by destruct pre|]. rewrite !total_app. simpl. lia. }
  split; [|split; [done|split; [done|by apply header_data]]].
  rewrite !allocs_app. simpl. fold x. by rewrite Ha.
Qed.

Lemma merge_neighbours_ok hp m pre s post : heap_ok hp m (pre ++ mkBlk s false :: post) ->
  coalesced pre -> coalesced post ->
  released hp m (pre ++ mkBlk s false :: post) (merge_neighbours hp m (head hp + total pre)).
Proof.
  intros Hok Hco1 Hco2. destruct (heap_ok_end _ _ _ Hok) as [Hpos Hend].
  pose proof (hk_chain _ _ _ Hok) as Hc. pose proof (walk_fuel_ok _ _ _ Hok) as Hwf.
  unfold merge_neighbours, prev_block.
  pose proof Hc as Hs. rewrite chain_app in Hs. destruct Hs as [Hpre [Hx _]].
  rewrite (chain_valid _ _ _ _ Hx). cbn [c_assert mbind outcome_bind].
  destruct (decide (pre = [])) as [->|Hne].
  { cbn [total app] in *. rewrite Z.add_0_r, Z.eqb_refl. cbn [mbind outcome_bind nz Z.eqb negb].
    pose proof (merge_next_ok hp m [] s post Hok) as Hm. cbn [total app] in Hm.
    rewrite Z.add_0_r in Hm. by apply Hm. }
  destruct (exists_last Hne) as (l & b & ->). rewrite <- app_assoc in *. cbn [app] in *.
  rewrite total_app. cbn [total]. rewrite Z.add_0_r, Z.add_assoc.
  rewrite chain_app in Hpre. destruct Hpre as [Hl [Hb _]].
  pose proof (total_nonneg _ _ _ _ Hl). pose proof (at_min _ _ _ _ Hb).
  rewrite (proj2 (Z.eqb_neq _ _)) by lia. rewrite length_app in Hwf.
  rewrite prev_block_ok with (c := mkBlk s false) (post := post) by (done || lia).
  cbn [mbind outcome_bind]. rewrite nz_true by lia. rewrite (hdr_is_free _ _ _ _ Hb).
  cbn [mbind outcome_bind]. destruct b as [s0 []]; cbn [b_alloc b_size negb] in *.
  - cbn [mbind outcome_bind].
    pose proof (merge_next_ok hp m (l ++ [mkBlk s0 true]) s post) as Hm.
    rewrite <- !app_assoc in Hm. cbn [app] in Hm. rewrite total_app in Hm. cbn [total b_size] in Hm.
    rewrite Z.add_0_r, Z.add_assoc in Hm. apply Hm; try done.
    apply coalesced_app; [done|done|by left].
  - destruct (merge_ok m (head hp) l s0 s post Hc Hpos Hend) as (m1 & -> & Hc1 & Hs1).
    cbn [mbind outcome_bind].
    assert (heap_ok hp m1 (l ++ mkBlk (s0 + s) false :: post)) as Hok1.
    { eapply heap_ok_update; [done..|by destruct l|]. rewrite !total_app. simpl. lia. }
    destruct (merge_next_ok hp m1 l (s0 + s) post Hok1) as (m' & bs' & E & Hok' & Ha & Hco & Hwd & Hd);
      [by eapply coalesced_resize|done|].
    rewrite E. exists m', bs'. split; [done|]. split; [done|].
    assert (allocs (head hp) (l ++ mkBlk (s0 + s) false :: post) =
            allocs (head hp) (l ++ mkBlk s0 false :: mkBlk s false :: post)) as Ea.
    { rewrite !allocs_app. simpl. by rewrite Z.add_assoc. }
    split; [by rewrite Ha|]. split; [done|]. split; [intros; by apply Hwd, words_merge|].
    eapply data_same_trans; [by apply header_data|exact Ea|done].
Qed.

Lemma heap_free_unfold hp m h m1 : h <> 0 -> magic m h = MAGIC_ALLOCATED ->
  check_canary m h = Ret tt -> is_valid_block m h = true -> heap_is_allocated m h = Ret true ->
  set_free m h = Ret m1 -> lock hp = SPINLOCK_INIT ->
  heap_free_block hp m h = (m' ← merge_neighbours (set_lock hp 1) m1 h; Ret (hp, m')).
Proof.
  intros Hh Hmg Hcan Hv Hal Hfree Hlk. unfold heap_free_block, merge_neighbours.
  rewrite nz_true, Hmg by done. cbn [Z.eqb Pos.eqb MAGIC_ALLOCATED MAGIC_FREE negb].
  rewrite Hcan. cbn [mbind outcome_bind]. unfold heap_lock. rewrite Hlk.
  cbn [spinlock_try_lock cmpxchg Z.eqb SPINLOCK_INIT]. fold (set_lock hp 1).
  rewrite Hv, Hal, Hfree. cbn [mbind outcome_bind c_assert].
  destruct (prev_block _ _ _ _) as [p|]; cbn [mbind outcome_bind]; [|done].
  destruct (if nz p then _ else _) as [pf|]; cbn [mbind outcome_bind]; [|done].
  destruct (if pf then _ else _) as [[b2 m2]|]; cbn [mbind outcome_bind]; [|done].
  destruct (if nz (next m2 b2) then _ else _) as [nf|]; cbn [mbind outcome_bind]; [|done].
  destruct (if nf then _ else _) as [m3|]; cbn [mbind outcome_bind]; [|done].
  unfold heap_unlock. cbn [set_lock lock head hsize max_size spinlock_try_unlock cmpxchg Z.eqb
    Pos.eqb c_assert mbind outcome_bind].
  destruct hp. simpl in *. by subst.
Qed.

Lemma heap_free_allocated hp m bs l1 h sz l2 :
  heap_ok hp m bs -> lock hp = SPINLOCK_INIT -> coalesced bs ->
  allocs (head hp) bs = l1 ++ (h, sz) :: l2 ->
  exists m' bs', heap_free hp m (h + 16) = Ret (hp, m') /\ heap_ok hp m' bs' /\
    allocs (head hp) bs' = l1 ++ l2 /\ coalesced bs' /\ (words bs -> words bs') /\
    data_same m m' (head hp) bs'.
Proof.
  intros Hok Hlk Hco. destruct (heap_ok_end _ _ _ Hok) as [Hpos Hend].
  pose proof (hk_chain _ _ _ Hok) as Hc. unfold heap_free, sizeof_header.
  intros Ha. apply allocs_split in Ha as (pre & post & -> & -> & Hl1 & Hl2).
  pose proof Hc as Hs. rewrite chain_app in Hs. destruct Hs as [Hpre [Hx Hpost]].
  pose proof (total_nonneg _ _ _ _ Hpre). pose proof (total_nonneg _ _ _ _ Hpost).
  destruct (at_canary _ _ _ _ Hx eq_refl) as [Hmin Hcan]. cbn [b_size] in *.
  rewrite total_app in Hend. cbn [total b_size] in Hend.
  rewrite (u32_small (_ + 16 - 16)) by lia.
  replace (head hp + total pre + 16 - 16) with (head hp + total pre) by lia.
  set (x := head hp + total pre) in *.
  pose proof (block_at_hdr _ _ _ _ Hx) as Hh. cbn in Hh.
  destruct (set_free_ok _ _ _ _ _ _ Hh) as (m1 & Ef & Hh1 & Hs1); [by right|].
  rewrite (heap_free_unfold hp m x m1); [|lia|by apply (h_magic _ _ _ _ _ _ Hh)| | | |done|done].
  2: { unfold check_canary, canary_addr. rewrite (h_size _ _ _ _ _ _ Hh), u32_small by lia.
       by rewrite Hcan. }
  2: { by eapply hdr_valid_alloc. }
  2: { unfold heap_is_allocated. rewrite (hdr_valid_alloc _ _ _ _ Hh), (h_flags _ _ _ _ _ _ Hh).
       done. }
  assert (heap_ok hp m1 (pre ++ mkBlk sz false :: post)) as Hok1.
  { eapply heap_ok_update; [done| |by destruct pre|by rewrite !total_app].
    eapply (chain_replace m m1 (head hp) pre [mkBlk sz true] [mkBlk sz false] post); try done.
    - fold x. cbn [total b_size]. eapply same_outside_widen; [done|lia|lia].
    - fold x. cbn [chain total b_size succ]. split; [|done]. apply block_at_free; [|lia].
      replace (link (x + (sz + 0)) post 0) with (succ x sz post 0); [done|].
      destruct post; simpl; [done|lia]. }
  apply coalesced_inv in Hco as [Hco1 Hco2].
  apply (coalesced_inv [mkBlk sz true] post) in Hco2 as [_ Hco2].
  destruct (merge_neighbours_ok (set_lock hp 1) m1 pre sz post) as (m' & bs' & E & Hok' & Ha & Hco' & Hwd & Hd);
    [by apply heap_ok_set_lock|done|done|].
  cbn [head set_lock] in *. fold x in E. rewrite E. cbn [mbind outcome_bind].
  assert (allocs (head hp) bs' = l1 ++ l2) as Ea.
  { rewrite Ha, allocs_app. simpl. fold x. by rewrite Hl1, Hl2. }
  exists m', bs'. split; [done|]. split.
  { destruct Hok'. by split. }
  split; [done|]. split; [done|]. split.
  { rewrite !words_app in *. intros [Hw1 Hw2]. apply Hwd. split; [done|].
    apply Forall_cons in Hw2 as [? ?]. by constructor. }
  intros g gz Hin c Hcc.
  rewrite (Hd g gz); [|by rewrite <- Ha|done]. apply Hs1.
  rewrite Ha, allocs_app in Hin. simpl in Hin. fold x in Hin. apply elem_of_app in Hin as [Hin|Hin].
  + apply (allocs_range _ _ _ _ _ _ Hpre) in Hin. fold x in Hin. lia.
  + apply (allocs_range _ _ _ _ _ _ Hpost) in Hin. lia.
Qed.

Lemma heap_free_free hp m pre sz post : heap_ok hp m (pre ++ mkBlk sz false :: post) ->
  heap_free hp m (head hp + total pre + 16) = Fault FPanic.
Proof.
  intros Hok. destruct (heap_ok_end _ _ _ Hok) as [Hpos Hend].
  pose proof (hk_chain _ _ _ Hok) as Hs. unfold heap_free, sizeof_header.
  rewrite chain_app in Hs. destruct Hs as [Hpre [Hx Hpost]].
  pose proof (total_nonneg _ _ _ _ Hpre). pose proof (total_nonneg _ _ _ _ Hpost).
  pose proof (at_min _ _ _ _ Hx). cbn [b_size] in *.
  rewrite total_app in Hend. cbn [total b_size] in Hend.
  rewrite (u32_small (_ + 16 - 16)) by lia.
  replace (head hp + total pre + 16 - 16) with (head hp + total pre) by lia.
  unfold heap_free_block. rewrite nz_true by lia. by rewrite (at_magic _ _ _ _ Hx).
Qed.

(** C2: [heap_free] of the pointer of an allocated block [(h, sz)] always succeeds on
    a well-formed, unlocked heap: the block list stays well formed, exactly that block
    leaves the set of allocated blocks, the data of every remaining allocated block is
    unchanged, and no two adjacent blocks are free afterwards if none were before (the
    block is merged with its free neighbours). Freeing the data pointer of a block that
    is free (a double free) panics. *)
Theorem heap_free_spec (hp : heap) (m : mem) (bs : list blk) :
  heap_ok hp m bs -> lock hp = SPINLOCK_INIT -> coalesced bs ->
  (forall l1 h sz l2, allocs (head hp) bs = l1 ++ (h, sz) :: l2 ->
     exists m' bs', heap_free hp m (h + 16) = Ret (hp, m') /\ heap_ok hp m' bs' /\
       allocs (head hp) bs' = l1 ++ l2 /\ coalesced bs' /\ data_same m m' (head hp) bs') /\
  (forall pre sz post, bs = pre ++ mkBlk sz false :: post ->
     heap_free hp m (head hp + total pre + 16) = Fault FPanic).
Proof.
  intros Hok Hlk Hco. split.
  - intros l1 h sz l2 Ha.
    destruct (heap_free_allocated hp m bs l1 h sz l2 Hok Hlk Hco Ha)
      as (m' & bs' & E & Hok' & Ha' & Hco' & _ & Hd). eauto 10.
  - intros pre sz post ->. by eapply heap_free_free.
Qed.

(** Allocation keeps the list coalesced. *)
Lemma coalesced_grow n bs : bs <> [] -> coalesced bs -> coalesced (grow_list n bs).
Proof.
  intros Hne Hc. destruct (exists_last Hne) as (l & [sz []] & ->); rewrite grow_list_snoc;
    cbn [b_alloc b_size].
  - apply coalesced_app; [done|done|by left].
  - by eapply coalesced_resize.
Qed.

Lemma coalesced_grows bs bs' : grows bs bs' -> bs <> [] -> coalesced bs -> coalesced bs'.
Proof.
  induction 1 as [bs|n bs bs' Hn Hm Hg IH]; intros Hne Hc; [done|].
  apply IH; [by apply grow_list_ne|by apply coalesced_grow].
Qed.

Lemma coalesced_snoc bs b : coalesced bs -> b_alloc b = true -> coalesced (bs ++ [b]).
Proof.
  intros Hc Hb. induction bs as [|c bs IH]; [done|]. destruct bs as [|d bs].
  - split; [by right|done].
  - destruct Hc as [Hcd Hc]. split; [done|]. by apply IH.
Qed.

Lemma coalesced_join bs1 b bs2 : coalesced (bs1 ++ [b]) -> coalesced (b :: bs2) ->
  coalesced (bs1 ++ b :: bs2).
Proof.
  intros H1 H2. induction bs1 as [|c bs1 IH]; [done|]. destruct bs1 as [|d bs1];
    destruct H1 as [Hcd H1]; (split; [done|]); auto.
Qed.

Lemma coalesced_placed pre s post size p : coalesced (pre ++ mkBlk s false :: post) ->
  p = PTake \/ (exists g, p = PCarve g) -> coalesced (pre ++ placed s size p ++ post).
Proof.
  intros Hc Hp.
  assert (coalesced (pre ++ [mkBlk s false])) as Hl.
  { change (mkBlk s false :: post) with ([mkBlk s false] ++ post) in Hc. rewrite app_assoc in Hc.
    by apply coalesced_inv in Hc as [? _]. }
  apply coalesced_inv in Hc as [Hpre Hc].
  assert (coalesced post) as Hpost by (by apply (coalesced_inv [mkBlk s false] post)).
  assert (forall z, coalesced (mkBlk z true :: post)) as Hat.
  { intros z. destruct post; [done|]. split; [by left|done]. }
  assert (forall z y, coalesced (mkBlk z true :: mkBlk y false :: post)) as Haf.
  { intros z y. split; [by left|]. destruct post; [done|]. by destruct Hc as [Hc _]. }
  destruct Hp as [->|[g ->]]; cbn [placed]; unfold take_blocks, carve_blocks.
  - case_goal; cbn [app]; apply coalesced_join; auto; by apply coalesced_snoc.
  - cbn [app]. apply coalesced_join; [by eapply coalesced_resize|].
    case_goal; cbn [app]; (split; [by right|]); auto.
Qed.

Lemma allocated_coalesced hp m bs size al h hp' m' bs' sz : coalesced bs -> heap_ok hp m bs ->
  allocated hp m bs size al h hp' m' bs' sz -> coalesced bs'.
Proof.
  intros Hc Hok [_ _ _ _ _ _ (bg & pre & s & p & post & Hg & -> & _ & Hp & ->)].
  apply coalesced_placed; [|done]. eapply coalesced_grows; [done|apply (hk_ne _ _ _ Hok)|done].
Qed.

(** ** Initialisation *)
Lemma heap_init_ok m address size max : 0 <= address -> address mod PAGE_SIZE = 0 ->
  0 < size -> size mod PAGE_SIZE = 0 -> size <= max -> max mod PAGE_SIZE = 0 ->
  address + max + 2 * PAGE_SIZE < 2 ^ 32 ->
  exists m', heap_init m address size max = Ret (mkHeap (address + 16) size max SPINLOCK_INIT, m') /\
    heap_ok (mkHeap (address + 16) size max SPINLOCK_INIT) m' [mkBlk (size - 16) false] /\
    same_outside m m' (address + 16) (address + 32).
Proof.
  intros Ha Ham Hs Hsm Hle Hmm Hb. unfold heap_init, IS_ALIGNED. rewrite Ham, Hsm.
  cbn [c_assert Z.eqb mbind outcome_bind]. unfold sizeof_heap, PAGE_SIZE in *.
  pose proof (Z.div_mod size 4096).
  rewrite (u32_small (address + 16)), (u32_small (size - 16)) by lia.
  destruct (step_create m (address + 16) (size - 16)) as (m' & -> & Hh & Hso); [lia|].
  exists m'. split; [done|]. split.
  - split; cbn [head hsize max_size total b_size]; unfold PAGE_SIZE; try (done || lia).
    + split; [by replace (address + 16 - 16) with address by lia|lia].
    + cbn [chain succ b_size]. split; [|done]. apply block_at_free; [done|lia].
  - by replace (address + 32) with (address + 16 + 16) by lia.
Qed.

(** [heap_init] on page-aligned bounds establishes the heap invariant, with one
    free block covering the whole area behind [struct heap], nothing allocated, and
    only that block's header written; the blocks a heap in the invariant has allocated
    are pairwise disjoint and lie inside its area. *)
Theorem heap_init_spec (m : mem) (address size max : Z) :
  0 <= address -> address mod PAGE_SIZE = 0 -> 0 < size -> size mod PAGE_SIZE = 0 ->
  size <= max -> max mod PAGE_SIZE = 0 -> address + max + 2 * PAGE_SIZE < 2 ^ 32 ->
  exists hp m' bs, heap_init m address size max = Ret (hp, m') /\ heap_ok hp m' bs /\
    lock hp = SPINLOCK_INIT /\ words bs /\ coalesced bs /\
    allocs (head hp) bs = [] /\ same_outside m m' (address + 16) (address + 32) /\
    (forall m1 bs1 l1 h1 s1 l2 h2 s2 l3, heap_ok hp m1 bs1 ->
       allocs (head hp) bs1 = l1 ++ (h1, s1) :: l2 ++ (h2, s2) :: l3 ->
       address + 16 <= h1 /\ h1 + s1 <= h2 /\ h2 + s2 <= address + size).
Proof.
  intros Ha Ham Hs Hsm Hle Hmm Hb.
  destruct (heap_init_ok m address size max) as (m' & E & Hok & Hso); [done..|].
  eexists _, m', _. split; [exact E|]. split; [exact Hok|]. split; [done|].
  split; [|split; [done|split; [done|split; [done|]]]].
  { repeat constructor. simpl. unfold PAGE_SIZE in *. pose proof (Z.div_mod size 4096).
    pose proof (Z.div_mod (size - 16) 8). pose proof (Z.mod_pos_bound (size - 16) 8). lia. }
  intros m1 bs1 l1 h1 s1 l2 h2 s2 l3 Hok1 Hal. cbn [head] in Hal.
  pose proof (hk_chain _ _ _ Hok1) as Hc. cbn [head] in Hc.
  pose proof (hk_total _ _ _ Hok1) as Ht. cbn [hsize] in Ht.
  apply allocs_split in Hal as (pre & post & -> & -> & _ & Hpost).
  rewrite chain_app in Hc. destruct Hc as [Hpre [Hx Hc2]]. cbn [b_size] in Hc2.
  pose proof (total_nonneg _ _ _ _ Hpre).
  apply (allocs_range _ _ _ _ h2 s2) in Hc2 as (H1 & H2 & _).
  - rewrite total_app in Ht. cbn [total b_size] in Ht. lia.
  - rewrite Hpost. apply elem_of_app. right. left.
Qed.

Lemma heap_init_spec_witness : exists hp m' bs,
  heap_init ∅ 0x10000 0x4000 0x8000 = Ret (hp, m') /\ heap_ok hp m' bs.
Proof.
  destruct (heap_init_spec ∅ 0x10000 0x4000 0x8000) as (hp & m' & bs & E & Hok & _);
    [done..|]. exists hp, m', bs. split; [exact E|exact Hok].
Defined.

(** A concrete heap for the witnesses: one free block of four pages less 16 bytes. *)
Definition sample_heap : heap := mkHeap 0x10010 0x4000 0x8000 SPINLOCK_INIT.
Definition sample_mem : mem := create_block ∅ 0x10010 0x3FF0.

Lemma sample_heap_ok : heap_ok sample_heap sample_mem [mkBlk 0x3FF0 false].
Proof.
  destruct (heap_init_ok ∅ 0x10000 0x4000 0x8000) as (m' & E & Hok & _); [done..|].
  assert (m' = sample_mem) as <-; [|exact Hok].
  unfold heap_init in E. injection E as <-. done.
Qed.

Lemma grows_single s bs' : grows [mkBlk s false] bs' -> exists s', bs' = [mkBlk s' false].
Proof.
  intros Hg. remember [mkBlk s false] as bs eqn:Ebs. revert s Ebs.
  induction Hg as [bs|n bs bs' Hn Hm Hg IH]; intros s ->; [by eauto|].
  by apply (IH (s + n)).
Qed.

Lemma heap_alloc_aligned_spec_witness :
  exists ptr hp' m' e' bs' sz,
    heap_alloc_aligned sample_heap sample_mem pmm_start 100 (2 ^ 5) = Ret (ptr, hp', m', e') /\
    allocated sample_heap sample_mem [mkBlk 0x3FF0 false] 108 (2 ^ 5) (ptr - 16) hp' m' bs' sz.
Proof.
  pose proof (heap_alloc_aligned_spec sample_heap sample_mem pmm_start [mkBlk 0x3FF0 false] 5 100)
    as Hp.
  destruct (heap_alloc_aligned sample_heap sample_mem pmm_start 100 (2 ^ 5))
    as [[[[ptr hp'] m'] e']|f] eqn:Er.
  - destruct Hp as (_ & bs' & sz & Hal); [lia|lia|exact sample_heap_ok|done|done| |].
    + intros bs1 Hg _. apply grows_single in Hg as (s' & ->). unfold misfit. cbn [first_fit b_alloc].
      unfold place. change (ALIGN (head sample_heap + 16) (2 ^ 5) =? head sample_heap + 16) with true.
      by destruct (_ <=? _).
    + exists ptr, hp', m', e', bs', sz. split; [reflexivity|exact Hal].
  - vm_compute in Er. discriminate Er.
Defined.

Lemma heap_alloc_words_spec_witness :
  exists ptr hp' m' e' bs' sz, heap_alloc sample_heap sample_mem pmm_start 64 = Ret (ptr, hp', m', e') /\
    allocated sample_heap sample_mem [mkBlk 0x3FF0 false] 72 8 (ptr - 16) hp' m' bs' sz /\ words bs'.
Proof.
  pose proof (heap_alloc_words_spec sample_heap sample_mem pmm_start [mkBlk 0x3FF0 false] 64) as Hp.
  destruct (heap_alloc sample_heap sample_mem pmm_start 64) as [[[[ptr hp'] m'] e']|f] eqn:Er.
  - destruct Hp as (_ & bs' & sz & Hal & Hw); [lia|done|exact sample_heap_ok| |done|done|].
    + repeat constructor.
    + exists ptr, hp', m', e', bs', sz. split; [reflexivity|]. split; [exact Hal|exact Hw].
  - vm_compute in Er. discriminate Er.
Defined.

Lemma heap_free_spec_witness : exists m1 m' bs',
  take_block sample_mem 0x10010 72 = Ret m1 /\
  heap_free sample_heap m1 0x10020 = Ret (sample_heap, m') /\
  heap_ok sample_heap m' bs' /\ allocs 0x10010 bs' = [].
Proof.
  pose proof (hk_chain _ _ _ sample_heap_ok) as [Hb _]. apply block_at_hdr in Hb. cbn in Hb.
  destruct (take_block_ok _ _ _ _ 72 Hb) as (m1 & E & Hc & _); [lia..|].
  assert (heap_ok sample_heap m1 (take_blocks 0x3FF0 72)) as Hok.
  { eapply heap_ok_update; [apply sample_heap_ok|exact Hc|done|done]. }
  destruct (heap_free_spec sample_heap m1 (take_blocks 0x3FF0 72) Hok eq_refl) as [Hf _].
  { split; [by left|done]. }
  destruct (Hf [] 0x10010 88 [] eq_refl) as (m' & bs' & Ef & Hok' & Ha & _).
  exists m1, m', bs'. split; [exact E|]. split; [exact Ef|]. split; [exact Hok'|exact Ha].
Defined.

(** ** The alignment overrun *)

(** The test of [heap_alloc_block_aligned] before it carves an aligned block out of
    a free one ([total_size > 2 * sizeof(header) + size]) does not count the bytes
    skipped for alignment. When the block is longer than that but shorter than gap,
    header and request together, the code still carves it and hands out a block that
    ends before the requested bytes do, so the canary lies inside the area given to the
    user. *)
Theorem carve_overrun (m : mem) (a sz nx k size : Z) (fuel : nat) :
  block_at m a (mkBlk sz false) nx -> 0 < a -> a + sz + 2 ^ k + 32 < 2 ^ 32 -> 0 <= nx < 2 ^ 32 ->
  0 <= k < 32 -> 8 <= size -> (a + 16) mod 2 ^ k <> 0 -> 32 + size < sz ->
  gap_of a (2 ^ k) + 24 <= sz < gap_of a (2 ^ k) + 16 + size ->
  let h := a + gap_of a (2 ^ k) in
  exists m', scan_blocks (S fuel) m a size (2 ^ k) = Ret (Some (h, m')) /\
    block_at m' h (mkBlk (a + sz - h) true) nx /\
    a + sz < (h + 16) + size /\ canary_addr m' h < (h + 16) + (size - 8).
Proof.
  intros Hb Ha He Hnx Hk Hs Hal Hfit Hov h. destruct (bump_gap k a) as (Eb & Hg & Hm); [lia..|].
  destruct (carve_block_ok m a sz nx (gap_of a (2 ^ k)) size (block_at_hdr _ _ _ _ Hb))
    as (m' & E & Hc & _); [lia..|].
  unfold carve_blocks in Hc. rewrite (proj2 (Z.ltb_ge _ _)) in Hc by lia.
  destruct Hc as [_ [Hh _]]. cbn [b_size succ] in Hh. fold h in Hh.
  exists m'. split; [|split; [|split; [unfold h; lia|]]].
  - cbn [scan_blocks]. rewrite (nz_true a) by lia. rewrite (hdr_is_free _ _ _ _ Hb).
    cbn [mbind outcome_bind b_alloc negb andb]. rewrite (at_size _ _ _ _ Hb). cbn [b_size].
    unfold sizeof_header. change (16 * 2) with 32.
    rewrite (u32_small (sz - 16)), (u32_small (a + 16)), (u32_small (32 + size)) by lia.
    rewrite (proj2 (Z.leb_le _ _)) by lia.
    destruct (ALIGN (a + 16) (2 ^ k) =? a + 16) eqn:E2; breflect.
    { destruct (ALIGN_bounds k (a + 16)) as [Hm2 _]; [lia..|]. congruence. }
    rewrite Eb. cbn [mbind outcome_bind].
    rewrite (proj2 (Z.leb_le _ _)) by (rewrite u32_small; lia). cbn [c_assert].
    rewrite (proj2 (Z.ltb_lt _ _)) by lia. rewrite u32_small by lia.
    rewrite Z.add_simpl_r.
    fold h in E. fold h. by rewrite E.
  - by replace (a + sz - h) with (sz - gap_of a (2 ^ k)) by (unfold h; lia).
  - unfold canary_addr. rewrite (at_size _ _ _ _ Hh). cbn [b_size].
    rewrite u32_small; unfold h; lia.
Qed.

Lemma carve_overrun_witness : exists m',
  scan_blocks 1 (create_block ∅ 0xC0202008 8184) 0xC0202008 4104 (2 ^ 12)
    = Ret (Some (0xC0202FF0, m')) /\ canary_addr m' 0xC0202FF0 < 0xC0203000 + 4096.
Proof.
  destruct (carve_overrun (create_block ∅ 0xC0202008 8184) 0xC0202008 8184 0 12 4104 0)
    as (m' & E & _ & _ & Hc).
  - apply block_at_free; [apply hdr_create|]; lia.
  - lia.
  - lia.
  - lia.
  - lia.
  - lia.
  - vm_compute. discriminate.
  - lia.
  - vm_compute. split; [discriminate|reflexivity].
  - exists m'. split; [exact E|exact Hc].
Defined.
