(* ===== verification/Kmalloc.v ===== *)
(** [kernel/kmalloc.c]: the kernel's allocator, the heap behind critical sections. *)
From S2P Require Import Prelude Util Mem Pmm Locks Heap HeapSpec HeapProofs HeapClaims.

(** The static variables of the file, the memory they point into, the processor
    flags and the page environment. *)
Record kstate (E : Type) : Type := mkK {
  kernel_heap : heap;
  kmem : mem;
  kenv : E;
  keflags : Z;
  trace_enabled : bool
}.
Arguments mkK {E}.
Arguments kernel_heap {E}.
Arguments kmem {E}.
Arguments kenv {E}.
Arguments keflags {E}.
Arguments trace_enabled {E}.

Section ops.
Context {E : Type} `{PageEnv E}.

Definition kmalloc_init (s : kstate E) (start : Z) : outcome (kstate E) :=
  let heap_start := ALIGN start PAGE_SIZE in
  let max_size := u32 (0xC0400000 - heap_start) in
  '(hp, m) ← heap_init (kmem s) heap_start (PAGE_SIZE * 64) max_size;
  Ret (mkK hp m (kenv s) (keflags s) (trace_enabled s)).

(** [trace] only logs. *)
Definition kmalloc_a (s : kstate E) (size alignment : Z) : outcome (Z * kstate E) :=
  _ ← c_assert (nz size);
  let '(ifstate, eflags) := disable_if (keflags s) in
  '(result, hp, m, e) ← heap_alloc_aligned (kernel_heap s) (kmem s) (kenv s) size alignment;
  if nz result then
    Ret (result, mkK hp m e (restore_if eflags ifstate) (trace_enabled s))
  else Fault FPanic.

Definition kmalloc (s : kstate E) (size : Z) : outcome (Z * kstate E) :=
  _ ← c_assert (nz size);
  kmalloc_a s size 8.

Definition kfree (s : kstate E) (address : Z) : outcome (kstate E) :=
  let '(ifstate, eflags) := disable_if (keflags s) in
  '(hp, m) ← (if nz address then heap_free (kernel_heap s) (kmem s) address
              else Ret (kernel_heap s, kmem s));
  Ret (mkK hp m (kenv s) (restore_if eflags ifstate) (trace_enabled s)).

(** [struct kernel_heap_info]: the heap's start address and its size. *)
Definition kernel_heap_info (s : kstate E) : outcome ((Z * Z) * kstate E) :=
  let '(ifstate, eflags) := disable_if (keflags s) in
  '(address, size, _) ← heap_info (kernel_heap s) (kmem s);
  Ret ((address, size),
       mkK (kernel_heap s) (kmem s) (kenv s) (restore_if eflags ifstate) (trace_enabled s)).

Definition heap_trace_start (s : kstate E) : kstate E :=
  mkK (kernel_heap s) (kmem s) (kenv s) (keflags s) true.
Definition heap_trace_stop (s : kstate E) : kstate E :=
  mkK (kernel_heap s) (kmem s) (kenv s) (keflags s) false.
Definition kernel_heap_check (s : kstate E) : outcome unit :=
  heap_check (kernel_heap s) (kmem s).

(** ** Invariant *)

(** The kernel heap is well formed, unlocked, coalesced and inside the low 4 MiB of the
    kernel's half of the address space. *)
Record kstate_ok (s : kstate E) (bs : list blk) : Prop := {
  ks_ok : heap_ok (kernel_heap s) (kmem s) bs;
  ks_unlocked : lock (kernel_heap s) = SPINLOCK_INIT;
  ks_coalesced : coalesced bs;
  ks_end : head (kernel_heap s) - 16 + max_size (kernel_heap s) <= 0xC0400000
}.

(** Serving a request of [size] bytes does not meet the alignment overrun of [heap.c]: now
    and after growing, the first block that passes the allocator's tests can hold the
    request, its canary and the bytes skipped for alignment. *)
Definition no_overrun (s : kstate E) (bs : list blk) (size : Z) : Prop :=
  forall bs', grows bs bs' -> total bs' <= max_size (kernel_heap s) ->
    misfit (head (kernel_heap s)) bs' (size + 8) 8 = false.

(** The blocks in use. *)
Definition in_use (s : kstate E) (bs : list blk) : list (Z * Z) :=
  allocs (head (kernel_heap s)) bs.

(** The user's bytes of the allocated blocks of [bs] are the same in both states. *)
Definition users_kept (s s' : kstate E) (bs : list blk) : Prop :=
  data_same (kmem s) (kmem s') (head (kernel_heap s)) bs.

Lemma critical_id e : restore_if (snd (disable_if e)) (fst (disable_if e)) = e.
Proof.
  pose proof (critical_section_restores e) as H0. destruct (disable_if e) as [i e1].
  apply H0.
Qed.

(** The heap keeps its place and its limit, and the environment has been asked only for
    the pages by which the heap grew. *)
Definition kgrows (s s' : kstate E) : Prop :=
  head (kernel_heap s') = head (kernel_heap s) /\
  max_size (kernel_heap s') = max_size (kernel_heap s) /\
  rtc (page_try (head (kernel_heap s)) (max_size (kernel_heap s)))
    (hsize (kernel_heap s), kenv s) (hsize (kernel_heap s'), kenv s').

(** The outcome of [kmalloc] on a heap that does not meet the overrun. *)
Definition kmalloc_post (s : kstate E) (bs : list blk) (size : Z)
    (r : outcome (Z * kstate E)) : Prop :=
  match r with
  | Ret (ptr, s') => exists bs' sz l1 l2, kstate_ok s' bs' /\ kgrows s s' /\
      in_use s bs = l1 ++ l2 /\ in_use s' bs' = l1 ++ (ptr - 16, sz) :: l2 /\
      size + 24 <= sz /\ ptr mod 8 = 0 /\ users_kept s s' bs /\ keflags s' = keflags s /\
      (words bs -> size mod 8 = 0 -> words bs')
  | Fault f => out_of_memory (kernel_heap s) (kenv s) bs (size + 41) f
  end.

Lemma kmalloc_ok s bs size : kstate_ok s bs -> 0 < size <= 2 ^ 29 -> no_overrun s bs size ->
  kmalloc_post s bs size (kmalloc s size).
Proof.
  intros [Hok Hul Hco He] Hs Hno. unfold kmalloc, kmalloc_a.
  rewrite nz_true by lia. cbn [c_assert mbind outcome_bind].
  pose proof (critical_id (keflags s)) as Hcr. destruct (disable_if (keflags s)) as [i e1].
  simpl in Hcr.
  pose proof (heap_alloc_aligned_ok (kernel_heap s) (kmem s) (kenv s) bs 3 size) as Hp.
  change (2 ^ 3) with 8 in Hp.
  ospecialize* Hp; try (done || lia || (unfold PAGE_SIZE; lia)).
  destruct (heap_alloc_aligned _ _ _ _ _) as [[[[ptr hp'] m'] e']|f]; cbn [mbind outcome_bind].
  2: { eapply (alloc_fails_oom _ _ _ _ _ _ _ _ Hok); [|exact Hp]. intros bs' _ _ Hff.
       replace (size + 41) with (size + 8 + 33) by lia. by eapply first_fit_no_room. }
  destruct Hp as (Hrt & bs' & sz & Hal).
  pose proof Hal as [Hok' (l1 & l2 & Ha & Ha') Hf Hm Hd (Hhd & Hmx & Hsz & Hlk) Hsh].
  assert ((ptr - 16, sz) ∈ allocs (head hp') bs') as Hin.
  { rewrite Hhd, Ha'. apply elem_of_app. right. left. }
  pose proof (allocs_range _ _ _ _ _ _ (hk_chain _ _ _ Hok') Hin).
  pose proof (hk_base _ _ _ Hok') as [_ ?].
  rewrite nz_true by lia. exists bs', sz, l1, l2.
  replace (ptr - 16 + 16) with ptr in Hm by lia.
  split; [split; simpl; [done|by rewrite Hlk|by eapply allocated_coalesced|by rewrite Hhd, Hmx]|].
  split; [done|].
  unfold in_use, users_kept; simpl; rewrite ?Hhd; repeat (split; [done || lia|]).
  intros Hw Hs8. apply (words_shape (kernel_heap s) (kmem s) bs (size + 8)); [done|done| |done|].
  - rewrite Z.add_mod, Hs8 by lia. done.
  - rewrite (hk_total _ _ _ Hok'), <- Hmx. pose proof (hk_le _ _ _ Hok'). lia.
Qed.

(** Word-sized blocks and requests never meet the overrun. *)
Lemma words_no_overrun s bs size : kstate_ok s bs -> words bs -> no_overrun s bs size.
Proof. intros [Hok _ _ _] Hw bs' Hg Ht. by apply (words_no_misfit _ (kmem s) bs). Qed.

Lemma kfree_ok s bs l1 h sz l2 : kstate_ok s bs -> in_use s bs = l1 ++ (h, sz) :: l2 ->
  exists s' bs', kfree s (h + 16) = Ret s' /\ kstate_ok s' bs' /\ in_use s' bs' = l1 ++ l2 /\
    users_kept s s' bs' /\ keflags s' = keflags s /\ kernel_heap s' = kernel_heap s /\
    (words bs -> words bs').
Proof.
  intros [Hok Hul Hco He] Ha. unfold kfree.
  pose proof (critical_id (keflags s)) as Hcr. destruct (disable_if (keflags s)) as [i e1].
  simpl in Hcr.
  destruct (heap_free_allocated _ _ _ l1 h sz l2 Hok Hul Hco Ha)
    as (m' & bs' & E1 & Hok' & Ha' & Hco' & Hw' & Hd).
  assert (0 < h) as Hh.
  { assert ((h, sz) ∈ in_use s bs) as Hin by (rewrite Ha; apply elem_of_app; right; left).
    pose proof (allocs_range _ _ _ _ _ _ (hk_chain _ _ _ Hok) Hin).
    pose proof (hk_base _ _ _ Hok) as [_ ?]. lia. }
  rewrite nz_true by lia. rewrite E1. cbn [mbind outcome_bind].
  eexists _, bs'. split; [done|]. split; [split; simpl; auto|]. unfold in_use, users_kept. simpl.
  by rewrite Hcr.
Qed.

Lemma kmalloc_init_ok s start : 0 <= start -> start <= 0xC0400000 - 65 * PAGE_SIZE ->
  exists s' bs, kmalloc_init s start = Ret s' /\ kstate_ok s' bs /\ words bs /\ in_use s' bs = [] /\
    start <= head (kernel_heap s') - 16 /\ kenv s' = kenv s.
Proof.
  intros H0 H1. unfold kmalloc_init. unfold PAGE_SIZE in *.
  destruct (ALIGN_bounds 12 start) as [Hm Hr]; [lia..|]. change (2 ^ 12) with 4096 in *.
  set (hs := ALIGN start 4096) in *. clearbody hs.
  rewrite (u32_small (0xC0400000 - hs)) by lia.
  destruct (heap_init_ok (kmem s) hs (4096 * 64) (0xC0400000 - hs)) as (m' & -> & Hok & _);
    unfold PAGE_SIZE in *; try (done || lia).
  { rewrite Zminus_mod, Hm. done. }
  cbn [mbind outcome_bind]. eexists _, [mkBlk (4096 * 64 - 16) false].
  split; [done|]. split; [|split; [repeat constructor|]].
  2: { split; [done|]. split; [cbn [kernel_heap head]; lia|done]. }
  split; cbn [kernel_heap lock head max_size]; [exact Hok|done|done|lia].
Qed.
End ops.

(** C14: The kernel allocator. [kmalloc_init] on the end of the kernel image establishes the
    invariant of the kernel heap, above that end, with nothing in use. From any state in the invariant, for
    any request of 1 byte to 512 MiB that does not meet the alignment overrun of [heap.c],
    [kmalloc] either adds exactly one block, large enough and aligned, changes no byte of
    other users, restores the interrupt flag and keeps the invariant, and [kfree] of its
    pointer then succeeds and gives back exactly that block, so that the blocks in use and
    their contents are as before; or this heap has no free block of [size + 41] bytes and
    asking the page environment for more pages faults or ends with still no such block.
    The overrun is never met while all block sizes are multiples of 8, which a fresh heap
    satisfies and requests of multiples of 8 bytes and releases preserve; with other sizes
    the condition is a real one (a block up to 6 bytes too short is handed out). *)
Theorem kmalloc_kfree_spec {E : Type} `{PageEnv E} :
  (forall (s : kstate E) start, 0 <= start <= 0xC0400000 - 65 * PAGE_SIZE ->
     exists s' bs, kmalloc_init s start = Ret s' /\ kstate_ok s' bs /\ words bs /\ in_use s' bs = [] /\
       start <= head (kernel_heap s') - 16 /\ kenv s' = kenv s) /\
  (forall (s : kstate E) bs size, kstate_ok s bs -> words bs -> no_overrun s bs size) /\
  (forall (s : kstate E) bs size, kstate_ok s bs -> 0 < size <= 2 ^ 29 -> no_overrun s bs size ->
     match kmalloc s size with
     | Fault f => out_of_memory (kernel_heap s) (kenv s) bs (size + 41) f
     | Ret (ptr, s1) => exists bs1 sz l1 l2, kstate_ok s1 bs1 /\ kgrows s s1 /\
         in_use s bs = l1 ++ l2 /\ in_use s1 bs1 = l1 ++ (ptr - 16, sz) :: l2 /\
         size + 24 <= sz /\ ptr mod 8 = 0 /\ users_kept s s1 bs /\ keflags s1 = keflags s /\
         (words bs -> size mod 8 = 0 -> words bs1) /\
         exists s2 bs2, kfree s1 ptr = Ret s2 /\ kstate_ok s2 bs2 /\
           in_use s2 bs2 = in_use s bs /\ users_kept s s2 bs /\ keflags s2 = keflags s /\
           (words bs1 -> words bs2)
     end).
Proof.
  split; [intros s start [? ?]; by apply kmalloc_init_ok|].
  split; [intros; by apply words_no_overrun|].
  intros s bs size Hok Hs Hno. pose proof (kmalloc_ok s bs size Hok Hs Hno) as Hm.
  destruct (kmalloc s size) as [[ptr s1]|f]; [|done].
  destruct Hm as (bs1 & sz & l1 & l2 & Hok1 & Hkg & Ha & Ha1 & Hsz & Hal & Hu & Hfl & Hw).
  exists bs1, sz, l1, l2. repeat (split; [done|]).
  destruct (kfree_ok s1 bs1 l1 (ptr - 16) sz l2 Hok1 Ha1)
    as (s2 & bs2 & E2 & Hok2 & Ha2 & Hu2 & Hfl2 & Hkh & Hw2).
  replace (ptr - 16 + 16) with ptr in E2 by lia.
  exists s2, bs2. split; [done|]. split; [done|]. split; [by rewrite Ha2, Ha|].
  split; [|split; [by rewrite Hfl2|done]].
  intros h hsz Hin c Hc. unfold users_kept, in_use in *.
  rewrite (Hu2 h hsz); [by apply (Hu h hsz)| |done].
  rewrite <- Hkh, Ha2, <- Ha. done.
Qed.

Lemma kmalloc_kfree_spec_witness : exists s bs ptr s1 s2,
  kmalloc_init (mkK sample_heap ∅ pmm_start 0x202 false) 0xC0123456 = Ret s /\ kstate_ok s bs /\
  kmalloc s 116 = Ret (ptr, s1) /\ kfree s1 ptr = Ret s2 /\ keflags s2 = 0x202.
Proof.
  destruct (kmalloc_kfree_spec (E := pmm)) as (Hinit & Hno & Hspec).
  destruct (Hinit (mkK sample_heap ∅ pmm_start 0x202 false) 0xC0123456) as (s & bs & Es & Hok & Hw & _);
    [unfold PAGE_SIZE; lia|].
  specialize (Hspec s bs 116 Hok ltac:(lia) (Hno s bs 116 Hok Hw)).
  destruct (kmalloc s 116) as [[ptr s1]|f] eqn:Er.
  - destruct Hspec as (bs1 & sz & l1 & l2 & _ & _ & _ & _ & _ & _ & _ & _ & _ & s2 & bs2 & E2 & _ & _ & _ & Hfl & _).
    exists s, bs, ptr, s1, s2. split; [exact Es|]. split; [exact Hok|]. split; [exact Er|].
    split; [exact E2|]. rewrite Hfl. vm_compute in Es. injection Es as <-. reflexivity.
  - exfalso. vm_compute in Es. injection Es as <-. vm_compute in Er. discriminate Er.
Defined.
