(* ===== verification/Boot.v ===== *)
(** [kernel/kmain.c: kmain], the part that decides which physical memory the running
    kernel may hand out: the check on the end of the multiboot data, the initial heap,
    the heap's use by [load_symbols], [pmm_init] and [initrd_init], the frame allocator
    built from the memory map, and the four loops that reserve the frames already in use.
    The linker script's symbols [_KERNEL_START_] and [_KERNEL_END_] are parameters. *)
From S2P Require Import Prelude Util Mem Bitset Pmm Locks Heap HeapSpec HeapProofs HeapClaims Kmalloc.

(** ** The code *)

(** [for(page = first; page < limit; page += PAGE_SIZE) body], [page] a 32-bit
    unsigned value. *)
Fixpoint for_pages (fuel : nat) (body : pmm -> Z -> outcome pmm) (page limit : Z) (s : pmm)
    : outcome pmm :=
  match fuel with
  | O => Fault FFuel
  | S fuel =>
      if page <? limit then
        s' ← body s page;
        for_pages fuel body (u32 (page + PAGE_SIZE)) limit s'
      else Ret s
  end.

(** One step for each page between the bounds and one to see the end. *)
Definition pages_fuel (page limit : Z) : nat := S (Z.to_nat ((limit - page) / PAGE_SIZE + 1)).

(** [if(pmm_exists(page)) pmm_reserve(page)] *)
Definition reserve_existing (s : pmm) (page : Z) : outcome pmm :=
  e ← pmm_exists s page;
  if (e : bool) then pmm_reserve s page else Ret s.

(** [if(pmm_exists(page) && !pmm_reserved(page)) pmm_reserve(page)] *)
Definition reserve_unreserved (s : pmm) (page : Z) : outcome pmm :=
  e ← pmm_exists s page;
  if (e : bool) then
    r ← pmm_reserved s page;
    if (r : bool) then Ret s else pmm_reserve s page
  else Ret s.

Definition for_range (body : pmm -> Z -> outcome pmm) (page limit : Z) (s : pmm) : outcome pmm :=
  for_pages (pages_fuel page limit) body page limit s.

Section kmain.
Context {E : Type} `{PageEnv E}.
Context (_KERNEL_START_ _KERNEL_END_ : Z).

(** [if(multiboot_end >= 0xC0400000) panic(...)], then [kmalloc_init(multiboot_end)]. *)
Definition kmain_heap (k : kstate E) (multiboot_end : Z) : outcome (kstate E) :=
  if 0xC0400000 <=? multiboot_end then Fault FPanic
  else kmalloc_init k multiboot_end.

(** Conventional memory, then the kernel's code and data. *)
Definition kmain_reserve_image (s : pmm) : outcome pmm :=
  s ← for_range reserve_existing 0x00000000 0x00001000 s;
  s ← for_range reserve_existing 0x0009F000 0x000FFFFF s;
  for_range reserve_existing
    (TRUNCATE (u32 (_KERNEL_START_ - KERNEL_BASE_ADDR)) PAGE_SIZE)
    (u32 (_KERNEL_END_ - KERNEL_BASE_ADDR)) s.

End kmain.

(** The same kernel with another frame allocator, or another memory. *)
Definition with_env (k : kstate pmm) (s : pmm) : kstate pmm :=
  mkK (kernel_heap k) (kmem k) s (keflags k) (trace_enabled k).
Definition with_kmem (k : kstate pmm) (m : mem) : kstate pmm :=
  mkK (kernel_heap k) m (kenv k) (keflags k) (trace_enabled k).

(** The whole reservation: the loops above, then the kernel heap. The environment of the
    heap is the frame allocator itself, paging being off. *)
Definition kmain_reserve (_KERNEL_START_ _KERNEL_END_ : Z) (k : kstate pmm) : outcome (kstate pmm) :=
  '((heap_start, heap_size), k) ← kernel_heap_info k;
  s ← kmain_reserve_image _KERNEL_START_ _KERNEL_END_ (kenv k);
  s ← for_range reserve_unreserved
        (u32 (TRUNCATE heap_start PAGE_SIZE - KERNEL_BASE_ADDR))
        (u32 (heap_start + heap_size - KERNEL_BASE_ADDR)) s;
  Ret (with_env k s).

(** ** The loops *)

(** The pages a loop from [first] to [limit] visits. *)
Definition in_pages (first limit q : Z) : bool := (first <=? q) && (q <? limit).

(** A page that exists becomes reserved, an unmanaged one stays so. *)
Definition reserved_if (b : bool) (st : frame_state) : frame_state :=
  match st with Unmanaged => Unmanaged | _ => if b then Reserved else st end.

(** The outcome of a loop that visits the pages of [P]. *)
Definition frames_reserved (s s' : pmm) (P : Z -> bool) : Prop :=
  pmm_wf s' /\ forall q, q mod PAGE_SIZE = 0 -> frame s' q = reserved_if (P q) (frame s q).

Lemma reserved_if_compose b1 b2 st :
  reserved_if b2 (reserved_if b1 st) = reserved_if (b1 || b2) st.
Proof. by destruct st, b1, b2. Qed.

Lemma pmm_exists_eq s page : pmm_wf s -> page mod PAGE_SIZE = 0 ->
  pmm_exists s page = Ret (negb (bool_decide (frame s page = Unmanaged))).
Proof. intros Hs Hp. by destruct (pmm_reserve_free_spec s page Hs Hp) as [? _]. Qed.

Lemma pmm_reserved_eq s page : pmm_wf s -> page mod PAGE_SIZE = 0 ->
  pmm_reserved s page = Ret (negb (bool_decide (frame s page = Free))).
Proof. intros Hs Hp. by destruct (pmm_reserve_free_spec s page Hs Hp) as [_ [? _]]. Qed.

(** A page marked by itself. *)
Lemma frame_updated_reserved s s' page : pmm_wf s' -> frame s page = Free ->
  frame_updated s s' page Reserved -> frames_reserved s s' (Z.eqb page).
Proof.
  intros Hs Hf Hu. split; [done|]. intros q Hq. rewrite Hu by done. rewrite (Z.eqb_sym q page).
  destruct (page =? q) eqn:Eq; breflect; [subst q; by rewrite Hf|by destruct (frame s q)].
Qed.

Lemma frames_reserved_same s page : pmm_wf s -> frame s page <> Free -> frames_reserved s s (Z.eqb page).
Proof.
  intros Hs Hf. split; [done|]. intros q _. destruct (page =? q) eqn:Eq; breflect.
  - subst q. by destruct (frame s page).
  - by destruct (frame s q).
Qed.

Lemma reserve_existing_ok s page : pmm_wf s -> page mod PAGE_SIZE = 0 -> frame s page <> Reserved ->
  exists s', reserve_existing s page = Ret s' /\ frames_reserved s s' (Z.eqb page).
Proof.
  intros Hs Hp Hr. unfold reserve_existing. rewrite pmm_exists_eq by done. cbn [mbind outcome_bind].
  destruct (frame s page) eqn:Ef; [|clear Hr|done]; cbn.
  - exists s. split; [done|]. apply frames_reserved_same; [done|]. by rewrite Ef.
  - destruct (pmm_reserve_ret s page Hs Hp Ef) as (s' & E' & Hs' & _ & Hu). exists s'.
    split; [done|]. by apply frame_updated_reserved.
Qed.

Lemma reserve_unreserved_ok s page : pmm_wf s -> page mod PAGE_SIZE = 0 ->
  exists s', reserve_unreserved s page = Ret s' /\ frames_reserved s s' (Z.eqb page).
Proof.
  intros Hs Hp. unfold reserve_unreserved. rewrite pmm_exists_eq, pmm_reserved_eq by done.
  cbn [mbind outcome_bind]. destruct (frame s page) eqn:Ef; cbn.
  - exists s. split; [done|]. apply frames_reserved_same; [done|]. by rewrite Ef.
  - destruct (pmm_reserve_ret s page Hs Hp Ef) as (s' & E' & Hs' & _ & Hu). exists s'.
    split; [done|]. by apply frame_updated_reserved.
  - exists s. split; [done|]. apply frames_reserved_same; [done|]. by rewrite Ef.
Qed.

Section loops.
Context (body : pmm -> Z -> outcome pmm) (admissible : frame_state -> Prop).
Hypothesis body_ok : forall s page, pmm_wf s -> page mod PAGE_SIZE = 0 -> admissible (frame s page) ->
  exists s', body s page = Ret s' /\ frames_reserved s s' (Z.eqb page).

Lemma for_pages_ok fuel s page limit : pmm_wf s -> page mod PAGE_SIZE = 0 -> 0 <= page ->
  limit <= 2 ^ 32 - PAGE_SIZE -> limit - page <= PAGE_SIZE * (Z.of_nat fuel - 1) -> (0 < fuel)%nat ->
  (forall q, q mod PAGE_SIZE = 0 -> in_pages page limit q = true -> admissible (frame s q)) ->
  exists s', for_pages fuel body page limit s = Ret s' /\ frames_reserved s s' (in_pages page limit).
Proof.
  revert s page. induction fuel as [|fuel IH]; intros s page Hs Hp H0 Hl Hf Hf0 Hadm; [lia|].
  cbn [for_pages]. destruct (page <? limit) eqn:El; breflect.
  2: { exists s. split; [done|]. split; [done|]. intros q _.
       assert (in_pages page limit q = false) as ->; [|by destruct (frame s q)].
       unfold in_pages. apply andb_false_iff. rewrite Z.leb_gt, Z.ltb_ge. lia. }
  destruct (body_ok s page) as (s1 & -> & Hs1 & Hq1); [done|done| |].
  { apply Hadm; [done|]. unfold in_pages. rewrite andb_true_iff, Z.leb_le, Z.ltb_lt. lia. }
  cbn [mbind outcome_bind]. unfold PAGE_SIZE in *. rewrite u32_small by lia.
  assert (forall q, q mod 4096 = 0 -> in_pages page limit q = (page =? q) || in_pages (page + 4096) limit q)
    as Hin.
  { intros q Hq. apply Z.mod_divide in Hq as [j ->]; [|lia]. apply Z.mod_divide in Hp as [i ->]; [|lia].
    apply eq_bool_prop_intro. rewrite !Is_true_true. unfold in_pages.
    rewrite orb_true_iff, !andb_true_iff, !Z.leb_le, !Z.ltb_lt, Z.eqb_eq. lia. }
  destruct (IH s1 (page + 4096)) as (s' & E & Hs' & Hq'); [done| |lia|lia|lia|lia| |].
  { rewrite Z.add_mod, Hp by lia. done. }
  { intros q Hq Hi. rewrite Hq1 by done.
    assert ((page =? q) = false) as ->.
    { unfold in_pages in Hi. breflect. apply Z.eqb_neq. lia. }
    replace (reserved_if false (frame s q)) with (frame s q) by (by destruct (frame s q)).
    apply Hadm; [done|]. rewrite Hin, Hi by done. apply orb_true_r. }
  exists s'. split; [done|]. split; [done|]. intros q Hq.
  rewrite Hq', Hq1, reserved_if_compose, Hin by done. done.
Qed.

Lemma for_range_ok s page limit : pmm_wf s -> page mod PAGE_SIZE = 0 -> 0 <= page ->
  limit <= 2 ^ 32 - PAGE_SIZE ->
  (forall q, q mod PAGE_SIZE = 0 -> in_pages page limit q = true -> admissible (frame s q)) ->
  exists s', for_range body page limit s = Ret s' /\ frames_reserved s s' (in_pages page limit).
Proof.
  intros. apply for_pages_ok; try done; unfold pages_fuel; [|lia].
  pose proof (Z.mul_succ_div_gt (limit - page) PAGE_SIZE). unfold PAGE_SIZE in *. lia.
Qed.
End loops.

(** ** The heap's extent *)
Definition free_total (bs : list blk) : Z :=
  fold_right (fun b acc => (if b_alloc b then 0 else b_size b - 16) + acc) 0 bs.

Lemma free_total_range m a bs nx : chain m a bs nx -> 0 <= free_total bs <= total bs.
Proof.
  revert a. induction bs as [|b bs IH]; intros a Hc; [done|]. cbn [chain] in Hc.
  destruct Hc as [Hb Hc]. pose proof (at_min _ _ _ _ Hb). apply IH in Hc. cbn.
  destruct (b_alloc b); unfold free_total in *; lia.
Qed.

Lemma free_bytes_chain m bs fuel a acc : chain m a bs 0 -> bs <> [] -> 0 < a -> 0 <= acc ->
  acc + total bs < 2 ^ 32 -> (length bs < fuel)%nat ->
  free_bytes fuel m a acc = Ret (acc + free_total bs).
Proof.
  revert fuel a acc. induction bs as [|b bs IH]; intros fuel a acc Hc Hne Ha H0 Ht Hf; [done|].
  destruct fuel as [|fuel]; [cbn in Hf; lia|]. cbn [chain] in Hc. destruct Hc as [Hb Hc].
  pose proof (at_min _ _ _ _ Hb). pose proof (total_nonneg _ _ _ _ Hc). cbn [total] in Ht.
  cbn [free_bytes]. rewrite nz_true by lia. rewrite (hdr_is_free _ _ _ _ Hb). cbn [mbind outcome_bind].
  rewrite (at_next _ _ _ _ Hb), (at_size _ _ _ _ Hb). unfold sizeof_header.
  rewrite (u32_small (b_size b - 16)) by lia.
  assert ((if negb (b_alloc b) then u32 (acc + (b_size b - 16)) else acc)
          = acc + (if b_alloc b then 0 else b_size b - 16)) as ->.
  { destruct (b_alloc b); cbn; [lia|]. apply u32_small. lia. }
  destruct bs as [|b' bs]; cbn [succ].
  - destruct fuel; [cbn in Hf; lia|]. cbn. f_equal. lia.
  - rewrite IH; [f_equal; cbn; lia|done|done|lia| | |cbn in Hf |- *; lia];
      cbn [total] in *; destruct (b_alloc b); lia.
Qed.

Section heap_extent.
Context {E : Type} `{PageEnv E}.

(** First address of the kernel heap. *)
Definition heap_base (k : kstate E) : Z := head (kernel_heap k) - 16.
Definition heap_length (k : kstate E) : Z := hsize (kernel_heap k).

Lemma kernel_heap_info_ok (k : kstate E) bs : kstate_ok k bs ->
  kernel_heap_info k = Ret ((heap_base k, heap_length k), k).
Proof.
  intros [Hok _ _ He]. unfold kernel_heap_info.
  pose proof (critical_id (keflags k)) as Hcr. destruct (disable_if (keflags k)) as [i e1].
  cbn in Hcr. destruct (hk_base _ _ _ Hok) as [_ H0]. pose proof (hk_le _ _ _ Hok).
  pose proof (hk_total _ _ _ Hok). pose proof (hk_bound _ _ _ Hok).
  pose proof (total_nonneg _ _ _ _ (hk_chain _ _ _ Hok)). unfold heap_info, PAGE_SIZE in *.
  rewrite (free_bytes_chain _ bs); [|apply (hk_chain _ _ _ Hok)|apply (hk_ne _ _ _ Hok)|lia..|
    apply (walk_fuel_ok _ _ _ Hok)].
  cbn [mbind outcome_bind]. unfold sizeof_heap. rewrite u32_small by lia. rewrite Hcr.
  by destruct k.
Qed.

(** The heap's extent in the invariant. *)
Lemma heap_extent_ok (k : kstate E) bs : kstate_ok k bs ->
  heap_base k mod PAGE_SIZE = 0 /\ heap_length k mod PAGE_SIZE = 0 /\
  0 <= heap_length k /\ heap_base k + heap_length k <= 0xC0400000.
Proof.
  intros Hk. pose proof (ks_ok _ _ Hk) as Hok. pose proof (ks_end _ _ Hk). pose proof (hk_le _ _ _ Hok).
  pose proof (hk_total _ _ _ Hok). pose proof (total_nonneg _ _ _ _ (hk_chain _ _ _ Hok)).
  unfold heap_base, heap_length. split; [apply (hk_base _ _ _ Hok)|].
  split; [apply (hk_size _ _ _ Hok)|]. lia.
Qed.
End heap_extent.

(** ** The heap's use during the boot *)

(** A byte that a correct user of the heap may write: outside the heap, or among the bytes
    given to the owner of a block in use (behind its header, before its canary). *)
Definition writable (k : kstate pmm) (bs : list blk) (a : Z) : Prop :=
  a < head (kernel_heap k) \/ head (kernel_heap k) + total bs <= a \/
  exists h sz, (h, sz) ∈ in_use k bs /\ h + 16 <= a < h + sz - 8.

(** What [load_symbols], the region descriptors of [pmm_init] and [initrd_init] do to the
    kernel: requests to the heap, each returning and none meeting the alignment overrun,
    and stores to memory of their own. *)
Inductive heap_use : kstate pmm -> kstate pmm -> Prop :=
| use_done k : heap_use k k
| use_kmalloc k bs size ptr k1 k2 : kstate_ok k bs -> 0 < size <= 2 ^ 29 -> no_overrun k bs size ->
    kmalloc k size = Ret (ptr, k1) -> heap_use k1 k2 -> heap_use k k2
| use_store k bs a v k2 : kstate_ok k bs -> writable k bs a ->
    heap_use (with_kmem k (store8 (kmem k) a v)) k2 -> heap_use k k2.

(** A store between header and canary of an allocated block leaves the chain alone. *)
Lemma block_at_store m m' c a sz nx : same_outside m m' c (c + 1) -> a + 16 <= c < a + sz - 8 ->
  block_at m a (mkBlk sz true) nx -> block_at m' a (mkBlk sz true) nx.
Proof.
  intros Hs Hc [? ? ? ? Hmin Hcan]. unfold magic, flags, bsize, next in *.
  split; unfold magic, flags, bsize, next;
    rewrite ?(same_outside_load32 _ _ _ _ _ Hs) by lia; try done.
  intros Halloc. destruct (Hcan Halloc) as [H24 Hld]. split; [done|]. simpl in *.
  by rewrite (same_outside_load64 _ _ _ _ _ Hs) by lia.
Qed.

Lemma chain_store m m' c : same_outside m m' c (c + 1) -> forall bs a nx, chain m a bs nx ->
  c < a \/ a + total bs <= c \/ (exists h sz, (h, sz) ∈ allocs a bs /\ h + 16 <= c < h + sz - 8) ->
  chain m' a bs nx.
Proof.
  intros Hs. induction bs as [|b bs IH]; intros a nx Hc Hw; [done|].
  destruct Hc as [Hb Hc]. pose proof (total_nonneg _ _ _ _ Hc). pose proof (at_min _ _ _ _ Hb).
  cbn [total allocs] in Hw. destruct Hw as [Hw|[Hw|(h & sz & Hin & Hr)]].
  - split; [eapply block_at_frame; [done|lia|done]|]. apply IH; [done|left; lia].
  - split; [eapply block_at_frame; [done|lia|done]|]. apply IH; [done|right; left; lia].
  - apply elem_of_app in Hin as [Hin|Hin].
    + destruct b as [bz []]; cbn [b_alloc b_size] in *; [|by apply elem_of_nil in Hin].
      apply list_elem_of_singleton in Hin as [= -> ->].
      split; [by eapply block_at_store|]. apply IH; [done|left; cbn [b_size]; lia].
    + destruct (allocs_range _ _ _ _ _ _ Hc Hin) as (Hlo & Hhi & _).
      split; [eapply block_at_frame; [done|lia|done]|]. apply IH; [done|]. right; right. eauto.
Qed.

Lemma kstate_ok_env k bs s : kstate_ok k bs -> kstate_ok (with_env k s) bs.
Proof. by intros []. Qed.

Lemma kstate_ok_store k bs a v : kstate_ok k bs -> writable k bs a ->
  kstate_ok (with_kmem k (store8 (kmem k) a v)) bs.
Proof.
  intros [Hok Hul Hco He] Hw. split; simpl; [|done..].
  destruct Hok as [Hb Hc Hne Ht Hsz Hmx Hle Hbd]. split; try done.
  eapply chain_store; [|exact Hc|exact Hw]. intros c Hcc. rewrite load8_store8.
  rewrite (proj2 (Z.eqb_neq _ _)) by lia. done.
Qed.

(** ** What the boot leaves free *)

(** Page [q] holds a byte of the addresses from [lo] below [hi]. *)
Definition page_meets (lo hi q : Z) : bool := (lo <? q + PAGE_SIZE) && (q <? hi).

Lemma page_meets_truncate lo hi q : 0 <= lo -> q mod PAGE_SIZE = 0 ->
  in_pages (TRUNCATE lo PAGE_SIZE) hi q = page_meets lo hi q.
Proof.
  intros Hlo Hq. unfold in_pages, page_meets, TRUNCATE, PAGE_SIZE in *.
  apply Z.mod_divide in Hq as [j ->]; [|lia]. pose proof (Z.div_mod lo 4096).
  pose proof (Z.mod_pos_bound lo 4096). f_equal. apply eq_bool_prop_intro.
  rewrite !Is_true_true, Z.leb_le, Z.ltb_lt. lia.
Qed.

Lemma low_pages_eq q : q mod PAGE_SIZE = 0 ->
  in_pages 0 0x1000 q = page_meets 0 0x1000 q /\
  in_pages 0x9F000 0xFFFFF q = page_meets 0x9F000 0x100000 q.
Proof.
  intros Hq. unfold in_pages, page_meets, PAGE_SIZE in *. apply Z.mod_divide in Hq as [j ->]; [|lia].
  split; apply eq_bool_prop_intro;
    rewrite !Is_true_true, !andb_true_iff, ?Z.leb_le, !Z.ltb_lt; lia.
Qed.

(** A page that no earlier loop visited is not reserved. *)
Lemma not_yet_reserved b st : st <> Reserved -> b = false -> reserved_if b st <> Reserved.
Proof. by destruct st; intros ? ->. Qed.

Lemma kmain_reserve_image_ok (ks ke : Z) s : 0xC0100000 <= ks <= ke -> ke <= 0xC0400000 ->
  pmm_wf s ->
  (forall q, q mod PAGE_SIZE = 0 -> q < ke - KERNEL_BASE_ADDR -> frame s q <> Reserved) ->
  exists s', kmain_reserve_image ks ke s = Ret s' /\
    frames_reserved s s' (fun q => page_meets 0 0x1000 q || page_meets 0x9F000 0x100000 q ||
      page_meets (ks - KERNEL_BASE_ADDR) (ke - KERNEL_BASE_ADDR) q).
Proof.
  intros Hks Hke Hs Hfresh. unfold kmain_reserve_image, KERNEL_BASE_ADDR in *.
  rewrite (u32_small (ks - _)), (u32_small (ke - _)) by lia.
  destruct (for_range_ok reserve_existing (fun st => st <> Reserved) reserve_existing_ok s 0 0x1000)
    as (s1 & -> & Hs1 & Hf1); [done|done|lia|done| |].
  { intros q Hq Hi. apply Hfresh; [done|]. unfold in_pages in Hi. breflect. lia. }
  cbn [mbind outcome_bind].
  destruct (for_range_ok reserve_existing (fun st => st <> Reserved) reserve_existing_ok s1 0x9F000 0xFFFFF)
    as (s2 & -> & Hs2 & Hf2); [done|done|lia|done| |].
  { intros q Hq Hi. rewrite Hf1 by done. unfold in_pages in Hi |- *. breflect.
    apply not_yet_reserved; [apply Hfresh; [done|lia]|]. apply andb_false_iff. rewrite Z.ltb_ge. lia. }
  cbn [mbind outcome_bind]. set (a := ks - 0xC0000000). assert (0x100000 <= a) by lia.
  destruct (TRUNCATE_bounds PAGE_SIZE a) as (Htm & Ht0 & Ht1); [done|lia|].
  destruct (for_range_ok reserve_existing (fun st => st <> Reserved) reserve_existing_ok s2
              (TRUNCATE a PAGE_SIZE) (ke - 0xC0000000))
    as (s3 & -> & Hs3 & Hf3); [done|done|lia|unfold PAGE_SIZE; lia| |].
  { intros q Hq Hi. rewrite Hf2, Hf1, reserved_if_compose by done. unfold in_pages in Hi |- *. breflect.
    apply not_yet_reserved; [apply Hfresh; [done|lia]|]. unfold PAGE_SIZE in *. apply orb_false_iff. rewrite !andb_false_iff, !Z.ltb_ge.
    apply Z.mod_divide in Hq as [j ->]; lia. }
  exists s3. split; [done|]. split; [done|]. intros q Hq.
  rewrite Hf3, Hf2, Hf1, !reserved_if_compose by done. destruct (low_pages_eq q Hq) as [-> ->].
  rewrite page_meets_truncate by (done || lia). by rewrite orb_assoc.
Qed.

(** ** Growing while the frame allocator runs *)

Lemma in_pages_app a b c q : a <= b <= c -> in_pages a b q || in_pages b c q = in_pages a c q.
Proof.
  intros H. unfold in_pages. apply eq_bool_prop_intro.
  rewrite !Is_true_true, orb_true_iff, !andb_true_iff, !Z.leb_le, !Z.ltb_lt. lia.
Qed.

Lemma frames_reserved_empty s a : pmm_wf s -> frames_reserved s s (in_pages a a).
Proof.
  intros Hs. split; [done|]. intros q _. assert (in_pages a a q = false) as ->.
  { unfold in_pages. apply andb_false_iff. rewrite Z.leb_gt, Z.ltb_ge. lia. }
  by destruct (frame s q).
Qed.

Lemma frames_reserved_app s1 s2 s3 a b c : a <= b <= c ->
  frames_reserved s1 s2 (in_pages a b) -> frames_reserved s2 s3 (in_pages b c) ->
  frames_reserved s1 s3 (in_pages a c).
Proof.
  intros H [_ H12] [Hs3 H23]. split; [done|]. intros q Hq.
  by rewrite H23, H12, reserved_if_compose, in_pages_app by done.
Qed.

(** Before [pmm_init] growing does not touch the allocator; after it, every page the heap
    grows by is reserved. *)
Lemma page_tries_early hd mx (x y : Z * pmm) : rtc (page_try hd mx) x y ->
  pmm_initialized x.2 = false -> y.2 = x.2.
Proof.
  induction 1 as [x|x y z Ht _ IH]; intros Hi; [done|].
  destruct Ht; simpl in *; try congruence. by apply IH.
Qed.

Lemma page_tries_reserve hd mx (x y : Z * pmm) : rtc (page_try hd mx) x y ->
  KERNEL_BASE_ADDR <= heap_end hd x.1 -> heap_end hd mx <= 0xC0400000 ->
  mx mod PAGE_SIZE = 0 -> x.1 mod PAGE_SIZE = 0 -> heap_end hd 0 mod PAGE_SIZE = 0 -> x.1 <= mx ->
  pmm_wf x.2 -> pmm_initialized x.2 = true ->
  frames_reserved x.2 y.2
    (in_pages (heap_end hd x.1 - KERNEL_BASE_ADDR) (heap_end hd y.1 - KERNEL_BASE_ADDR)).
Proof.
  unfold heap_end, KERNEL_BASE_ADDR.
  induction 1 as [x|x y z Ht Hrt IH]; intros Hlo Hhi Hmx Hn Hb Hle Hs Hi.
  { by apply frames_reserved_empty. }
  destruct (page_try_bound _ _ _ _ Ht Hmx Hn Hle) as [Hny Hy].
  destruct (page_tries_bound _ _ _ _ Hrt Hmx Hny) as [_ Hz]; [lia|].
  destruct Ht as [n e e1 e2 frame0 Hlt Hp|n e e1 Hlt Hp|n e e1 Hlt Hp _ Hr|n e Hlt Hp Hi2];
    simpl in *; try congruence.
  unfold heap_end, KERNEL_BASE_ADDR in Hr. rewrite u32_small in Hr by lia.
  destruct (pmm_fa_reserve _ _ _ Hs Hr) as (Hs1 & Hq & Hf & Hu).
  destruct (pmm_reserve_ret _ _ Hs Hq Hf) as (s' & Er & _ & Hi1 & _).
  rewrite Hr in Er. injection Er as <-.
  unfold PAGE_SIZE in *.
  eapply (frames_reserved_app _ e1 _ _ (hd - 16 + (n + 4096) - 0xC0000000)); [lia| |].
  - split; [done|]. intros q Hq'. rewrite (proj2 (frame_updated_reserved _ _ _ Hs1 Hf Hu) q Hq').
    f_equal. unfold in_pages. apply eq_bool_prop_intro.
    rewrite !Is_true_true, !andb_true_iff, Z.leb_le, Z.ltb_lt, Z.eqb_eq.
    apply Z.mod_divide in Hq as [i Hi']; [|done]. apply Z.mod_divide in Hq' as [j ->]; [|done]. unfold PAGE_SIZE. lia.
  - assert (pmm_initialized e1 = true) by (unfold pmm_initialized in *; congruence).
    apply IH; (done || lia).
Qed.

(** ** The heap's use keeps the invariant *)

Record use_ok (k k2 : kstate pmm) (bs2 : list blk) : Prop := {
  uo_ok : kstate_ok k2 bs2;
  uo_base : heap_base k2 = heap_base k;
  uo_length : heap_length k <= heap_length k2;
  uo_early : pmm_initialized (kenv k) = false -> kenv k2 = kenv k;
  uo_frames : pmm_initialized (kenv k) = true -> pmm_wf (kenv k) ->
    KERNEL_BASE_ADDR <= heap_base k ->
    frames_reserved (kenv k) (kenv k2)
      (in_pages (heap_base k + heap_length k - KERNEL_BASE_ADDR)
                (heap_base k2 + heap_length k2 - KERNEL_BASE_ADDR))
}.

(** The requests of [heap_use], seen from the start: one run of growth. *)
Lemma heap_use_grows k k2 : heap_use k k2 -> forall bs, kstate_ok k bs ->
  exists bs2, kstate_ok k2 bs2 /\ kgrows k k2.
Proof.
  induction 1 as [k|k bs' size ptr k1 k2 Hk' Hs Hno E _ IH|k bs' a v k2 Hk' Hw _ IH]; intros bs Hk.
  - exists bs. done.
  - pose proof (kmalloc_ok k bs' size Hk' Hs Hno) as Hp. rewrite E in Hp.
    destruct Hp as (bs1 & _ & _ & _ & Hk1 & (Hh1 & Hm1 & Hg1) & _).
    destruct (IH bs1 Hk1) as (bs2 & Hk2 & Hh2 & Hm2 & Hg2). exists bs2. split; [done|].
    rewrite Hh1, Hm1 in *. split; [done|]. split; [done|]. by etrans.
  - destruct (IH bs') as (bs2 & Hk2 & Hg); [by apply kstate_ok_store|]. by exists bs2.
Qed.

Lemma heap_use_ok k k2 bs : heap_use k k2 -> kstate_ok k bs -> exists bs2, use_ok k k2 bs2.
Proof.
  intros Hu Hk. destruct (heap_use_grows _ _ Hu _ Hk) as (bs2 & Hk2 & Hh & Hm & Hg).
  pose proof (ks_ok _ _ Hk) as Hok. pose proof (ks_end _ _ Hk) as He.
  destruct (heap_extent_ok k bs Hk) as (Hal & Hlm & Hl0 & Hend).
  destruct (page_tries_bound _ _ _ _ Hg) as [_ Hb]; [apply (hk_max _ _ _ Hok)|
    apply (hk_size _ _ _ Hok)|apply (hk_le _ _ _ Hok)|]. simpl in Hb.
  exists bs2. split; unfold heap_base, heap_length in *; [done|by rewrite Hh|lia| |].
  - intros Hi. by apply (page_tries_early _ _ _ _ Hg).
  - intros Hi Hs Hlo. rewrite Hh.
    apply (page_tries_reserve _ _ _ _ Hg); simpl; unfold heap_end; try done; try lia;
      [apply (hk_max _ _ _ Hok)|by rewrite Z.add_0_r].
Qed.

(** ** The whole reservation *)

(** The physical pages the kernel already uses when it starts handing out frames:
    the interrupt vectors and BIOS data of page 0, the extended BIOS data, video memory
    and ROMs below 1 MiB, the kernel image and the heap. *)
Definition boot_used (_KERNEL_START_ _KERNEL_END_ : Z) (k : kstate pmm) (q : Z) : bool :=
  page_meets 0 0x1000 q || page_meets 0x9F000 0x100000 q ||
  page_meets (_KERNEL_START_ - KERNEL_BASE_ADDR) (_KERNEL_END_ - KERNEL_BASE_ADDR) q ||
  page_meets (heap_base k - KERNEL_BASE_ADDR) (heap_base k + heap_length k - KERNEL_BASE_ADDR) q.

(** The link addresses and the end of the multiboot data: the kernel is linked above
    0xC0100000, the data end above it and leave room for the first 256 KiB of the heap. *)
Record boot_layout (_KERNEL_START_ _KERNEL_END_ multiboot_end : Z) : Prop := {
  bl_start : 0xC0100000 <= _KERNEL_START_ <= _KERNEL_END_;
  bl_end : _KERNEL_END_ <= multiboot_end;
  bl_room : multiboot_end <= 0xC0400000 - 65 * PAGE_SIZE
}.

Lemma kmain_reserve_ok (ks ke : Z) (k : kstate pmm) bs : kstate_ok k bs ->
  0xC0100000 <= ks <= ke -> ke <= heap_base k -> pmm_wf (kenv k) ->
  (forall q, q mod PAGE_SIZE = 0 -> q < heap_base k - KERNEL_BASE_ADDR ->
     frame (kenv k) q <> Reserved) ->
  exists s', kmain_reserve ks ke k = Ret (with_env k s') /\
    frames_reserved (kenv k) s' (boot_used ks ke k).
Proof.
  intros Hk Hks Hke Hs Hfresh. unfold kmain_reserve. rewrite (kernel_heap_info_ok k bs Hk).
  cbn [mbind outcome_bind]. destruct (heap_extent_ok k bs Hk) as (Hal & _ & Hl0 & Hend).
  unfold boot_used.
  set (hb := heap_base k) in *. set (hl := heap_length k) in *. clearbody hb hl.
  destruct (kmain_reserve_image_ok ks ke (kenv k)) as (s1 & -> & Hs1 & Hf1); [done|lia|done| |].
  { intros q Hq Hlt. apply Hfresh; [done|]. lia. }
  cbn [mbind outcome_bind].
  unfold KERNEL_BASE_ADDR in *. rewrite (u32_small (hb + hl - _)) by lia.
  assert (u32 (TRUNCATE hb PAGE_SIZE - 0xC0000000) = TRUNCATE (hb - 0xC0000000) PAGE_SIZE) as ->.
  { unfold TRUNCATE, PAGE_SIZE in *. apply Z.mod_divide in Hal as [j ->]; [|lia].
    replace (j * 4096 - 0xC0000000) with ((j - 786432) * 4096) by lia. rewrite !Z.div_mul by lia.
    rewrite u32_small; lia. }
  destruct (TRUNCATE_bounds PAGE_SIZE (hb - 0xC0000000)) as (Htm & Ht0 & Ht1); [done|lia|].
  destruct (for_range_ok reserve_unreserved (fun _ => True)
              (fun s p Hs Hp _ => reserve_unreserved_ok s p Hs Hp) s1
              (TRUNCATE (hb - 0xC0000000) PAGE_SIZE) (hb + hl - 0xC0000000))
    as (s2 & -> & Hs2 & Hf2); [done|done|lia|unfold PAGE_SIZE; lia|done|].
  cbn [mbind outcome_bind]. exists s2. split; [done|]. split; [done|]. intros q Hq.
  rewrite Hf2, Hf1, reserved_if_compose by done. by rewrite page_meets_truncate by (done || lia).
Qed.

(** The heap that [kmain_heap] sets up lies above the multiboot data. *)
Lemma kmain_heap_ok (k : kstate pmm) ks ke mbe : boot_layout ks ke mbe ->
  exists k0 bs, kmain_heap k mbe = Ret k0 /\ kstate_ok k0 bs /\ mbe <= heap_base k0 /\
    kenv k0 = kenv k.
Proof.
  intros [Hks Hke Hroom]. unfold PAGE_SIZE in *. unfold kmain_heap.
  rewrite (proj2 (Z.leb_gt _ _)) by lia.
  destruct (kmalloc_init_ok k mbe) as (k0 & bs & E & Hk & _ & _ & Hlo & He);
    [lia|unfold PAGE_SIZE; lia|].
  by exists k0, bs.
Qed.

(** The reservation on a frame allocator that has only pages of the heap reserved. *)
Lemma boot_reserved ks ke k bs s0 len (usable_page : Z -> bool) : kstate_ok k bs ->
  0xC0100000 <= ks <= ke -> ke <= heap_base k -> 0 <= len -> pmm_wf (kenv k) ->
  (forall q, q mod PAGE_SIZE = 0 -> frame s0 q = if usable_page q then Free else Unmanaged) ->
  (forall q, q mod PAGE_SIZE = 0 -> frame (kenv k) q = reserved_if
     (in_pages (heap_base k + len - KERNEL_BASE_ADDR)
               (heap_base k + heap_length k - KERNEL_BASE_ADDR) q) (frame s0 q)) ->
  exists s, kmain_reserve ks ke k = Ret (with_env k s) /\ pmm_wf s /\
    forall q, q mod PAGE_SIZE = 0 -> frame s q =
      if usable_page q then (if boot_used ks ke k q then Reserved else Free) else Unmanaged.
Proof.
  intros Hk Hks Hke Hlen Hs Hf0 Hf.
  destruct (kmain_reserve_ok ks ke k bs) as (s & E & Hs' & Hf'); try done.
  { intros q Hq Hlt. rewrite Hf, Hf0 by done. apply not_yet_reserved; [by destruct (usable_page q)|].
    unfold in_pages. apply andb_false_iff. rewrite Z.leb_gt. lia. }
  exists s. split; [done|]. split; [done|]. intros q Hq. rewrite Hf', Hf, Hf0, reserved_if_compose by done.
  assert (in_pages (heap_base k + len - KERNEL_BASE_ADDR)
    (heap_base k + heap_length k - KERNEL_BASE_ADDR) q = true -> boot_used ks ke k q = true) as Hsub.
  { unfold in_pages, boot_used, page_meets, PAGE_SIZE. intros Hi. breflect.
    apply orb_true_iff. right. apply andb_true_iff. rewrite !Z.ltb_lt. lia. }
  destruct (in_pages _ _ q); [rewrite Hsub by done|]; by destruct (usable_page q), (boot_used _ _ _ q).
Qed.

(** ** Properties *)


(** One request on a kernel whose blocks have word sizes. *)
Lemma heap_use_words k bs size ptr k1 : kstate_ok k bs -> words bs -> 0 < size <= 2 ^ 29 ->
  size mod 8 = 0 -> kmalloc k size = Ret (ptr, k1) ->
  heap_use k k1 /\ exists bs1, kstate_ok k1 bs1 /\ words bs1.
Proof.
  intros Hk Hw Hs Hs8 E. pose proof (words_no_overrun k bs size Hk Hw) as Hno. split.
  - eapply use_kmalloc; [exact Hk|exact Hs|exact Hno|exact E|constructor].
  - pose proof (kmalloc_ok k bs size Hk Hs Hno) as Hp. rewrite E in Hp.
    destruct Hp as (bs1 & _ & _ & _ & Hk1 & _ & _ & _ & _ & _ & _ & _ & Hw1). eauto.
Qed.

(** Multiboot data that end at 0xC0150123, a kernel image of 256 KiB and a machine with
    640 KiB of low memory and 1 MiB above: a symbol table of 4 KiB, then a disk image of
    288 KiB, for which the heap grows from 256 KiB. *)
Definition boot_start : kstate pmm := mkK (mkHeap 0 0 0 0) ∅ pmm_start 0x202 false.

Definition kmalloc_of (k : kstate pmm) (size : Z) : Z * kstate pmm :=
  match kmalloc k size with Ret r => r | Fault _ => (0, k) end.

Definition boot_heap : kstate pmm :=
  match kmain_heap boot_start 0xC0150123 with Ret k => k | Fault _ => boot_start end.
Definition boot_symbols : kstate pmm := (kmalloc_of boot_heap 4096).2.
Definition boot_regions : pmm :=
  match pmm_init (fun n => replicate n 0xA5A5A5A5) pmm_start sample_mmap with
  | Ret s => s | Fault _ => pmm_start end.
Definition boot_initrd : kstate pmm := (kmalloc_of (with_env boot_symbols boot_regions) 0x48000).2.

Lemma boot_heap_words : exists bs, kstate_ok boot_heap bs /\ words bs.
Proof.
  destruct (kmalloc_init_ok boot_start 0xC0150123) as (k & bs & E & Hk & Hw & _);
    [lia|unfold PAGE_SIZE; lia|].
  exists bs. split; [|exact Hw]. unfold boot_heap, kmain_heap.
  cbn [Z.leb Z.compare Pos.compare Pos.compare_cont]. by rewrite E.
Qed.

Lemma boot_symbols_use : heap_use boot_heap boot_symbols /\
  exists bs, kstate_ok (with_env boot_symbols boot_regions) bs /\ words bs.
Proof.
  destruct boot_heap_words as (bs & Hk & Hw).
  destruct (heap_use_words boot_heap bs 4096 (kmalloc_of boot_heap 4096).1 boot_symbols)
    as (Hu & bs1 & Hk1 & Hw1); [exact Hk|exact Hw|lia|reflexivity|vm_compute; reflexivity|].
  split; [exact Hu|]. exists bs1. split; [|exact Hw1]. apply kstate_ok_env. exact Hk1.
Qed.

Lemma boot_initrd_use : heap_use (with_env boot_symbols boot_regions) boot_initrd.
Proof.
  destruct boot_symbols_use as (_ & bs & Hk & Hw).
  destruct (heap_use_words (with_env boot_symbols boot_regions) bs 0x48000
    (kmalloc_of (with_env boot_symbols boot_regions) 0x48000).1 boot_initrd)
    as (Hu & _); [exact Hk|exact Hw|lia|reflexivity|vm_compute; reflexivity|exact Hu].
Qed.

Lemma boot_heap_eq : kmain_heap boot_start 0xC0150123 = Ret boot_heap.
Proof. vm_compute. reflexivity. Qed.

Lemma boot_regions_eq :
  pmm_init (fun n => replicate n 0xA5A5A5A5) (kenv boot_symbols) sample_mmap = Ret boot_regions.
Proof. vm_compute. reflexivity. Qed.

Lemma Ret_inj {A} (x y : A) : Ret x = Ret y -> x = y.
Proof. congruence. Qed.

