(* ===== verification/Multiboot.v ===== *)
(** [kernel/multiboot.c]: the information the boot loader leaves in physical memory. The
    structures refer to each other by physical address; [multiboot_init] rewrites every
    pointer, in place, to the kernel's mapping of physical memory, and computes the end of
    the data. The structures are kept in byte memory, at the offsets the C compiler gives
    their fields; the code reads a field again each time it names it, after earlier
    pointers have been rewritten. *)
From S2P Require Import Prelude Mem Str Pmm.

Definition KERNEL_BASE_ADDR : Z := 0xC0000000.

(** [struct multiboot_info]. *)
Definition sizeof_multiboot_info : Z := 92.
Definition mb_flags (m : mem) (mi : Z) : Z := load32 m mi.
Definition mb_mem_lower (m : mem) (mi : Z) : Z := load32 m (mi + 4).
Definition mb_mem_upper (m : mem) (mi : Z) : Z := load32 m (mi + 8).
Definition mb_cmdline (m : mem) (mi : Z) : Z := load32 m (mi + 16).
Definition mb_mods_count (m : mem) (mi : Z) : Z := load32 m (mi + 20).
Definition mb_mods_addr (m : mem) (mi : Z) : Z := load32 m (mi + 24).
Definition mb_sym2_num (m : mem) (mi : Z) : Z := load32 m (mi + 28).
Definition mb_sym2_size (m : mem) (mi : Z) : Z := load32 m (mi + 32).
Definition mb_sym2_addr (m : mem) (mi : Z) : Z := load32 m (mi + 36).
Definition mb_sym2_shndx (m : mem) (mi : Z) : Z := load32 m (mi + 40).
Definition mb_mmap_len (m : mem) (mi : Z) : Z := load32 m (mi + 44).
Definition mb_mmap_addr (m : mem) (mi : Z) : Z := load32 m (mi + 48).

Definition MULTIBOOT_FLAG_MEMINFO : Z := Z.shiftl 1 0.
Definition MULTIBOOT_FLAG_CMDLINE : Z := Z.shiftl 1 2.
Definition MULTIBOOT_FLAG_MODINFO : Z := Z.shiftl 1 3.
Definition MULTIBOOT_FLAG_SYMBOLS1 : Z := Z.shiftl 1 4.
Definition MULTIBOOT_FLAG_SYMBOLS2 : Z := Z.shiftl 1 5.
Definition MULTIBOOT_FLAG_MMAP : Z := Z.shiftl 1 6.

Definition mb_has (m : mem) (mi flag : Z) : bool := nz (Z.land (mb_flags m mi) flag).

(** [struct multiboot_mod_entry]: start, end, str, reserved. *)
Definition sizeof_mod_entry : Z := 16.
(** [elf32_shdr_t]: ten words, [sh_name] first, [sh_addr] the fourth, [sh_size] the sixth. *)
Definition sizeof_shdr : Z := 40.
Definition sh_addr (m : mem) (shdr : Z) : Z := load32 m (shdr + 12).
Definition sh_size (m : mem) (shdr : Z) : Z := load32 m (shdr + 20).

(** ** The code *)

(** [if(p > end) end = p;] *)
Definition grow_end (end_ p : Z) : Z := if end_ <? p then p else end_.

Section code.
(** A bound on the lengths of the strings. *)
Context (fuel : nat).

(** The address after a string, its zero byte included. *)
Definition string_end (m : mem) (p : Z) : outcome Z :=
  l ← strlen fuel m p;
  Ret (u32 (p + l + 1)).

Definition init_cmdline (m : mem) (mi end_ : Z) : outcome (mem * Z) :=
  if mb_has m mi MULTIBOOT_FLAG_CMDLINE then
    let m := store32 m (mi + 16) (u32 (mb_cmdline m mi + KERNEL_BASE_ADDR)) in
    e ← string_end m (mb_cmdline m mi);
    Ret (m, grow_end end_ e)
  else Ret (m, end_).

(** The body of the loop over the modules. *)
Definition init_mod (m : mem) (entry end_ : Z) : outcome (mem * Z) :=
  let entry_start := u32 (load32 m entry + KERNEL_BASE_ADDR) in
  let entry_end := u32 (load32 m (entry + 4) + KERNEL_BASE_ADDR) in
  let m := store32 m entry entry_start in
  let m := store32 m (entry + 4) entry_end in
  let m := if nz (load32 m (entry + 8))
           then store32 m (entry + 8) (u32 (load32 m (entry + 8) + KERNEL_BASE_ADDR)) else m in
  let end_ := grow_end end_ entry_end in
  if nz (load32 m (entry + 8)) then
    e ← string_end m (load32 m (entry + 8));
    Ret (m, grow_end end_ e)
  else Ret (m, end_).

(** [for(int i = 0; i < mi->mods_count; i++)]; [n] bounds the iterations. *)
Fixpoint init_mods_loop (n : nat) (m : mem) (mi i end_ : Z) : outcome (mem * Z) :=
  match n with
  | O => Fault FFuel
  | S n =>
      if i <? mb_mods_count m mi then
        '(m, end_) ← init_mod m (u32 (mb_mods_addr m mi + sizeof_mod_entry * i)) end_;
        init_mods_loop n m mi (i + 1) end_
      else Ret (m, end_)
  end.

Definition init_mods (m : mem) (mi end_ : Z) : outcome (mem * Z) :=
  if mb_has m mi MULTIBOOT_FLAG_MODINFO then
    let m := store32 m (mi + 24) (u32 (mb_mods_addr m mi + KERNEL_BASE_ADDR)) in
    let end_ := grow_end end_ (u32 (mb_mods_addr m mi + sizeof_mod_entry * mb_mods_count m mi)) in
    init_mods_loop (S (Z.to_nat (mb_mods_count m mi))) m mi 0 end_
  else Ret (m, end_).

(** [for(int i = 0; i < mi->sym2.num; i++)] over the section headers. *)
Fixpoint init_shdrs_loop (n : nat) (m : mem) (mi shdrs i end_ : Z) : outcome (mem * Z) :=
  match n with
  | O => Fault FFuel
  | S n =>
      if i <? mb_sym2_num m mi then
        let shdr := u32 (shdrs + sizeof_shdr * i) in
        let m := store32 m (shdr + 12) (u32 (sh_addr m shdr + KERNEL_BASE_ADDR)) in
        let end_ := grow_end end_ (u32 (sh_addr m shdr + sh_size m shdr)) in
        init_shdrs_loop n m mi shdrs (i + 1) end_
      else Ret (m, end_)
  end.

(** [section_names] is only used for logging. *)
Definition init_symbols (m : mem) (mi end_ : Z) : outcome (mem * Z) :=
  if mb_has m mi MULTIBOOT_FLAG_SYMBOLS2 then
    let m := store32 m (mi + 36) (u32 (mb_sym2_addr m mi + KERNEL_BASE_ADDR)) in
    let end_ := grow_end end_
                  (u32 (mb_sym2_addr m mi + u32 (mb_sym2_size m mi * mb_sym2_num m mi))) in
    init_shdrs_loop (S (Z.to_nat (mb_sym2_num m mi))) m mi (mb_sym2_addr m mi) 0 end_
  else Ret (m, end_).

Definition init_mmap (m : mem) (mi end_ : Z) : mem * Z :=
  if mb_has m mi MULTIBOOT_FLAG_MMAP then
    let m := store32 m (mi + 48) (u32 (mb_mmap_addr m mi + KERNEL_BASE_ADDR)) in
    (m, grow_end end_ (u32 (mb_mmap_addr m mi + mb_mmap_len m mi)))
  else (m, end_).

(** Answers the static variable [multiboot_info], the memory and the returned end. *)
Definition multiboot_init (m : mem) (mi : Z) : outcome (Z * mem * Z) :=
  let mi := u32 (mi + KERNEL_BASE_ADDR) in
  let end_ := u32 (mi + sizeof_multiboot_info) in
  '(m, end_) ← init_cmdline m mi end_;
  '(m, end_) ← init_mods m mi end_;
  '(m, end_) ← init_symbols m mi end_;
  let '(m, end_) := init_mmap m mi end_ in
  Ret (mi, m, end_).
End code.

(** What [initrd_init] and [pmm_init] read through [multiboot_get_info]: the first module,
    and the entries of the memory map, packed structures of 24 bytes (size, 64-bit address
    and length, type). *)
Definition first_module (m : mem) (mi : Z) : Z * Z :=
  (load32 m (mb_mods_addr m mi), load32 m (mb_mods_addr m mi + 4)).
Definition mmap_entries_at (m : mem) (p len : Z) : list multiboot_mmap_entry :=
  map (fun i => let e := p + 24 * Z.of_nat i in
                mkMmapEntry (load64 m (e + 4)) (load64 m (e + 12)) (load32 m (e + 20)))
    (seq 0 (Z.to_nat (len / 24))).
Definition mmap_entries (m : mem) (mi : Z) : list multiboot_mmap_entry :=
  mmap_entries_at m (mb_mmap_addr m mi) (mb_mmap_len m mi).

(** ** What the function should do, read off the memory before it runs *)

(** One pointer rewritten. *)
Definition relocate (m : mem) (a : Z) : mem := store32 m a (u32 (load32 m a + KERNEL_BASE_ADDR)).
Definition relocate_all (m : mem) (l : list Z) : mem := fold_left relocate l m.
Definition highest (end_ : Z) (l : list Z) : Z := fold_left Z.max l end_.

Definition when {A} (b : bool) (l : list A) : list A := if b then l else [].

(** A pointer as the kernel sees it once rewritten. *)
Definition kptr (m : mem) (a : Z) : Z := u32 (load32 m a + KERNEL_BASE_ADDR).

Section expected.
Context (fuel : nat) (m : mem) (mi : Z).

Definition cstring_end (p : Z) : Z := match string_end fuel m p with Ret e => e | Fault _ => 0 end.

(** The module entries and the section headers, at their kernel addresses. *)
Definition mod_entries : list Z :=
  map (fun i => kptr m (mi + 24) + 16 * Z.of_nat i) (seq 0 (Z.to_nat (mb_mods_count m mi))).
Definition shdr_entries : list Z :=
  map (fun i => kptr m (mi + 36) + 40 * Z.of_nat i) (seq 0 (Z.to_nat (mb_sym2_num m mi))).

(** The words that hold pointers: [start], [end] and, unless null, [str] of a module. *)
Definition mod_pointers (e : Z) : list Z := [e; e + 4] ++ when (nz (load32 m (e + 8))) [e + 8].
Definition mod_ends (e : Z) : list Z :=
  kptr m (e + 4) :: when (nz (load32 m (e + 8)) && nz (kptr m (e + 8))) [cstring_end (kptr m (e + 8))].

Definition cmdline_pointers : list Z := when (mb_has m mi MULTIBOOT_FLAG_CMDLINE) [mi + 16].
Definition mods_pointers : list Z :=
  when (mb_has m mi MULTIBOOT_FLAG_MODINFO) (mi + 24 :: flat_map mod_pointers mod_entries).
Definition symbols_pointers : list Z :=
  when (mb_has m mi MULTIBOOT_FLAG_SYMBOLS2) (mi + 36 :: map (fun h => h + 12) shdr_entries).
Definition mmap_pointers : list Z := when (mb_has m mi MULTIBOOT_FLAG_MMAP) [mi + 48].
Definition pointers : list Z :=
  cmdline_pointers ++ mods_pointers ++ symbols_pointers ++ mmap_pointers.

Definition cmdline_ends : list Z :=
  when (mb_has m mi MULTIBOOT_FLAG_CMDLINE) [cstring_end (kptr m (mi + 16))].
Definition mods_ends : list Z :=
  when (mb_has m mi MULTIBOOT_FLAG_MODINFO)
    (u32 (kptr m (mi + 24) + 16 * mb_mods_count m mi) :: flat_map mod_ends mod_entries).
Definition symbols_ends : list Z :=
  when (mb_has m mi MULTIBOOT_FLAG_SYMBOLS2)
    (u32 (kptr m (mi + 36) + u32 (mb_sym2_size m mi * mb_sym2_num m mi)) ::
     map (fun h => u32 (kptr m (h + 12) + sh_size m h)) shdr_entries).
Definition mmap_ends : list Z :=
  when (mb_has m mi MULTIBOOT_FLAG_MMAP) [u32 (kptr m (mi + 48) + mb_mmap_len m mi)].
Definition ends : list Z := cmdline_ends ++ mods_ends ++ symbols_ends ++ mmap_ends.

(** The memory the pointers live in: the structure itself, the modules, the headers. *)
Definition tables : list (Z * Z) :=
  (mi, 92) :: when (mb_has m mi MULTIBOOT_FLAG_MODINFO) [(kptr m (mi + 24), 16 * mb_mods_count m mi)] ++
  when (mb_has m mi MULTIBOOT_FLAG_SYMBOLS2) [(kptr m (mi + 36), 40 * mb_sym2_num m mi)].
End expected.
