(* ===== verification/MultibootSpec.v ===== *)
(** [multiboot_init] rewrites the pointers of the boot loader's data and nothing else. The
    proof follows the code: at every point the memory is the original one with an initial
    part of the list of pointers rewritten, and what is read next lies outside that part. *)
From S2P Require Import Prelude Mem Str Multiboot.

(** ** Memory with some pointers rewritten *)
Definition apart (a n b k : Z) : Prop := a + n <= b \/ b + k <= a.

(** None of the words at [l] meets the [n] bytes at [b]. *)
Definition clear (l : list Z) (b n : Z) : Prop := Forall (fun a => apart a 4 b n) l.

Lemma clear_app l1 l2 b n : clear (l1 ++ l2) b n <-> clear l1 b n /\ clear l2 b n.
Proof. apply Forall_app. Qed.

Lemma clear_sub l b n b' n' : clear l b n -> b <= b' -> b' + n' <= b + n -> clear l b' n'.
Proof. intros Hc ? ?. eapply Forall_impl; [exact Hc|]. unfold apart. intros; simpl in *; lia. Qed.

Lemma relocate_all_app m l1 l2 : relocate_all m (l1 ++ l2) = relocate_all (relocate_all m l1) l2.
Proof. apply fold_left_app. Qed.

Lemma load8_relocate_all m l b : clear l b 1 -> load8 (relocate_all m l) b = load8 m b.
Proof.
  revert m. induction l as [|a l IH]; intros m Hc; [done|]. apply Forall_cons in Hc as [Ha Hc].
  change (relocate_all m (a :: l)) with (relocate_all (relocate m a) l). rewrite IH by done.
  unfold relocate, store32. apply load8_store_bytes_out. rewrite length_le_encode. unfold apart in Ha. lia.
Qed.

Lemma load_bytes_relocate_all m l b n : clear l b (Z.of_nat n) ->
  load_bytes (relocate_all m l) b n = load_bytes m b n.
Proof.
  intros Hc. apply load_bytes_ext. intros c Hr. apply load8_relocate_all.
  eapply clear_sub; [done|lia|lia].
Qed.

Lemma load32_relocate_all m l b : clear l b 4 -> load32 (relocate_all m l) b = load32 m b.
Proof. intros. unfold load32. by rewrite load_bytes_relocate_all. Qed.

Lemma str_at_relocate_all m l p s : str_at m p s -> clear l p (Z.of_nat (length s) + 1) ->
  str_at (relocate_all m l) p s.
Proof.
  intros [Hb Hc Hn] Hl. split; [|done|].
  - rewrite load_bytes_relocate_all; [done|]. eapply clear_sub; [done|lia|lia].
  - rewrite load8_relocate_all; [done|]. eapply clear_sub; [done|lia|lia].
Qed.

(** The next pointer of the list: it still holds its original value. *)
Lemma relocate_next m l a : clear l a 4 ->
  store32 (relocate_all m l) a (u32 (load32 (relocate_all m l) a + KERNEL_BASE_ADDR))
  = relocate_all m (l ++ [a]).
Proof. intros. rewrite relocate_all_app. done. Qed.

Lemma load32_relocated m l a r : clear l a 4 -> clear r a 4 ->
  load32 (relocate_all m (l ++ a :: r)) a = kptr m a.
Proof.
  intros Hl Hr. rewrite relocate_all_app.
  change (relocate_all (relocate_all m l) (a :: r)) with (relocate_all (relocate (relocate_all m l) a) r).
  rewrite load32_relocate_all by done. unfold relocate. rewrite load32_store32_eq by apply u32_range.
  unfold kptr. by rewrite load32_relocate_all.
Qed.

Lemma grow_end_max e p : grow_end e p = Z.max e p.
Proof. unfold grow_end. destruct (e <? p) eqn:E; breflect; lia. Qed.

Lemma highest_app e l1 l2 : highest e (l1 ++ l2) = highest (highest e l1) l2.
Proof. apply fold_left_app. Qed.

(** ** The layout the boot loader promises *)

(** A string that ends within [fuel] bytes, outside the tables. *)
Definition string_ok (fuel : nat) (m : mem) (ts : list (Z * Z)) (p : Z) : Prop :=
  exists s, str_at m p s /\ (length s < fuel)%nat /\ 0 <= p /\ p + Z.of_nat (length s) + 1 < 2 ^ 32 /\
    Forall (fun t => apart t.1 t.2 p (Z.of_nat (length s) + 1)) ts.

(** [mi] is the address of the structure in the kernel's mapping. *)
Record mb_layout (fuel : nat) (m : mem) (mi : Z) : Prop := {
  ly_mem : byte_mem m;
  ly_info : 0 <= mi /\ mi + 92 < 2 ^ 32;
  ly_cmdline : mb_has m mi MULTIBOOT_FLAG_CMDLINE = true ->
    string_ok fuel m (tables m mi) (kptr m (mi + 16));
  ly_mods : mb_has m mi MULTIBOOT_FLAG_MODINFO = true ->
    kptr m (mi + 24) + 16 * mb_mods_count m mi <= 2 ^ 32 /\
    apart mi 92 (kptr m (mi + 24)) (16 * mb_mods_count m mi);
  ly_names : mb_has m mi MULTIBOOT_FLAG_MODINFO = true ->
    Forall (fun e => load32 m (e + 8) <> 0 -> kptr m (e + 8) <> 0 ->
                     string_ok fuel m (tables m mi) (kptr m (e + 8))) (mod_entries m mi);
  ly_symbols : mb_has m mi MULTIBOOT_FLAG_SYMBOLS2 = true ->
    kptr m (mi + 36) + 40 * mb_sym2_num m mi <= 2 ^ 32 /\
    apart mi 92 (kptr m (mi + 36)) (40 * mb_sym2_num m mi);
  ly_apart : mb_has m mi MULTIBOOT_FLAG_MODINFO = true -> mb_has m mi MULTIBOOT_FLAG_SYMBOLS2 = true ->
    apart (kptr m (mi + 24)) (16 * mb_mods_count m mi) (kptr m (mi + 36)) (40 * mb_sym2_num m mi)
}.

Section proof.
Context (fuel : nat) (m : mem) (mi : Z).
Hypothesis Hly : mb_layout fuel m mi.

(** The words of [l] lie in the tables. *)
Definition in_tables (l : list Z) : Prop :=
  Forall (fun a => exists t, t ∈ tables m mi /\ t.1 <= a /\ a + 4 <= t.1 + t.2) l.

Lemma in_tables_clear l p n : in_tables l -> Forall (fun t => apart t.1 t.2 p n) (tables m mi) -> clear l p n.
Proof.
  intros Hl Ht. eapply Forall_impl; [exact Hl|]. intros a (t & Hin & ? & ?). rewrite Forall_forall in Ht.
  specialize (Ht t Hin). unfold apart in *. lia.
Qed.

Lemma in_tables_info l : Forall (fun a => mi <= a /\ a + 4 <= mi + 92) l -> in_tables l.
Proof.
  intros H. eapply Forall_impl; [exact H|]. intros a Ha. exists (mi, 92). split; [left|]. simpl in *. lia.
Qed.

(** The end of a string is computed as on the original memory. *)
Lemma string_end_ok l p : in_tables l -> string_ok fuel m (tables m mi) p ->
  string_end fuel (relocate_all m l) p = Ret (cstring_end fuel m p).
Proof.
  intros Hl (s & Hs & Hf & H0 & Hp & Ht). unfold cstring_end, string_end.
  rewrite (strlen_ok m p s) by (done || lia).
  rewrite (strlen_ok (relocate_all m l) p s); [done| |lia|done].
  apply str_at_relocate_all; [done|]. by apply in_tables_clear.
Qed.

(** Flags and counts are never rewritten. *)
Definition info_clear (l : list Z) (f : Z) : Prop := clear l (mi + f) 4.

Lemma mb_has_ok l flag : clear l mi 4 -> mb_has (relocate_all m l) mi flag = mb_has m mi flag.
Proof. intros. unfold mb_has, mb_flags. by rewrite load32_relocate_all. Qed.

Lemma init_cmdline_ok end_ : init_cmdline fuel m mi end_ =
  Ret (relocate_all m (cmdline_pointers m mi), highest end_ (cmdline_ends fuel m mi)).
Proof.
  unfold init_cmdline, cmdline_pointers, cmdline_ends.
  destruct (mb_has m mi MULTIBOOT_FLAG_CMDLINE) eqn:Eh; [|done]. cbn [when].
  unfold mb_cmdline.
  change (store32 m (mi + 16) (u32 (load32 m (mi + 16) + KERNEL_BASE_ADDR))) with (relocate_all m [mi + 16]).
  pose proof (load32_relocated m [] (mi + 16) [] (Forall_nil_2 _) (Forall_nil_2 _)) as Hk.
  cbn [app] in Hk. rewrite Hk.
  rewrite string_end_ok; [|apply in_tables_info; constructor; [lia|constructor]|by apply (ly_cmdline _ _ _ Hly)].
  cbn [mbind outcome_bind highest fold_left]. by rewrite grow_end_max.
Qed.

(** ** Modules *)

(** One iteration, on an entry none of whose words was rewritten yet. *)
Lemma init_mod_ok l e end_ : in_tables l -> in_tables (mod_pointers m e) -> clear l e 16 ->
  (load32 m (e + 8) <> 0 -> kptr m (e + 8) <> 0 -> string_ok fuel m (tables m mi) (kptr m (e + 8))) ->
  init_mod fuel (relocate_all m l) e end_ =
  Ret (relocate_all m (l ++ mod_pointers m e), highest end_ (mod_ends fuel m e)).
Proof.
  intros Hl Hp Hc Hs. unfold init_mod.
  assert (forall d, 0 <= d <= 12 -> clear l (e + d) 4) as Hcd by (intros; eapply clear_sub; [done|lia|lia]).
  assert (clear l e 4) as Hc0 by (eapply clear_sub; [done|lia|lia]).
  rewrite (load32_relocate_all m l (e + 4)) by (apply Hcd; lia). fold (kptr m (e + 4)).
  rewrite (relocate_next m l e) by done.
  assert (store32 (relocate_all m (l ++ [e])) (e + 4) (kptr m (e + 4)) = relocate_all m (l ++ [e; e + 4])) as ->.
  { unfold kptr. rewrite <- (load32_relocate_all m (l ++ [e]) (e + 4)).
    - rewrite relocate_next; [by rewrite <- app_assoc|].
      apply clear_app; split; [apply Hcd; lia|]. repeat constructor; unfold apart; lia.
    - apply clear_app; split; [apply Hcd; lia|]. repeat constructor; unfold apart; lia. }
  assert (clear (l ++ [e; e + 4]) (e + 8) 4) as Hc8.
  { apply clear_app; split; [apply Hcd; lia|]. repeat constructor; unfold apart; lia. }
  rewrite (load32_relocate_all m _ (e + 8)) by done. unfold mod_pointers, mod_ends in *.
  destruct (nz (load32 m (e + 8))) eqn:Es; cbn [when app andb] in *.
  - rewrite <- (load32_relocate_all m (l ++ [e; e + 4]) (e + 8)) by done.
    rewrite relocate_next by done. rewrite <- app_assoc. cbn [app].
    replace (l ++ [e; e + 4; e + 8]) with ((l ++ [e; e + 4]) ++ (e + 8) :: []) by (by rewrite <- app_assoc).
    rewrite load32_relocated by (done || constructor). apply nz_spec in Es.
    destruct (nz (kptr m (e + 8))) eqn:Ek; cbn [when highest fold_left];
      [|by rewrite grow_end_max].
    apply nz_spec in Ek. rewrite string_end_ok; [|by rewrite <- app_assoc; apply Forall_app|by apply Hs].
    cbn [mbind outcome_bind]. by rewrite !grow_end_max.
  - rewrite load32_relocate_all, Es by done. cbn [highest fold_left]. by rewrite grow_end_max.
Qed.

Definition mods_base : Z := kptr m (mi + 24).
Definition mod_entry (i : nat) : Z := mods_base + 16 * Z.of_nat i.

Section modules.
Hypothesis Hmods : mb_has m mi MULTIBOOT_FLAG_MODINFO = true.

Lemma mods_base_range : 0 <= mods_base /\ mods_base + 16 * mb_mods_count m mi <= 2 ^ 32 /\
  apart mi 92 mods_base (16 * mb_mods_count m mi).
Proof.
  destruct (ly_mods _ _ _ Hly Hmods) as [? ?]. split; [apply u32_range|]. by split.
Qed.

Lemma mod_pointers_range e a : a ∈ mod_pointers m e -> e <= a <= e + 8.
Proof.
  unfold mod_pointers. rewrite elem_of_app, !elem_of_cons, elem_of_nil. unfold when.
  destruct (nz _); rewrite ?elem_of_cons, ?elem_of_nil; intros; lia.
Qed.

Lemma mod_pointers_tables i : Z.of_nat i < mb_mods_count m mi -> in_tables (mod_pointers m (mod_entry i)).
Proof.
  intros Hi. apply Forall_forall. intros a Ha. apply mod_pointers_range in Ha. unfold mod_entry in Ha.
  exists (mods_base, 16 * mb_mods_count m mi). split; [|simpl; lia].
  right. apply elem_of_app. left. rewrite Hmods. left.
Qed.

Lemma mod_pointers_clear e b n : apart e 12 b n -> clear (mod_pointers m e) b n.
Proof. intros Hd. apply Forall_forall. intros a Ha%mod_pointers_range. unfold apart in *. lia. Qed.

Lemma init_mods_loop_S n m' i end_ : init_mods_loop fuel (S n) m' mi i end_ =
  if i <? mb_mods_count m' mi then
    '(m', end_) ← init_mod fuel m' (u32 (mb_mods_addr m' mi + sizeof_mod_entry * i)) end_;
    init_mods_loop fuel n m' mi (i + 1) end_
  else Ret (m', end_).
Proof. done. Qed.

Lemma init_mods_loop_ok n : forall k l end_, Z.of_nat (k + n) = mb_mods_count m mi -> in_tables l ->
  clear l (mod_entry k) (16 * Z.of_nat n) -> clear l (mi + 20) 4 ->
  load32 (relocate_all m l) (mi + 24) = mods_base ->
  init_mods_loop fuel (S n) (relocate_all m l) mi (Z.of_nat k) end_ =
  Ret (relocate_all m (l ++ flat_map (mod_pointers m) (map mod_entry (seq k n))),
       highest end_ (flat_map (mod_ends fuel m) (map mod_entry (seq k n)))).
Proof.
  destruct mods_base_range as (H0 & Hend & Hap).
  induction n as [|n IH]; intros k l end_ Hk Hl Hc H20 H24; rewrite init_mods_loop_S; unfold mb_mods_count at 1;
    rewrite (load32_relocate_all m l (mi + 20)) by done; fold (mb_mods_count m mi).
  { rewrite (proj2 (Z.ltb_ge _ _)) by lia. cbn. by rewrite app_nil_r. }
  rewrite (proj2 (Z.ltb_lt _ _)) by lia. unfold mb_mods_addr, sizeof_mod_entry. rewrite H24.
  rewrite u32_small by lia. fold (mod_entry k).
  rewrite init_mod_ok; [|done|apply mod_pointers_tables; lia|eapply clear_sub; [exact Hc|lia|lia]|].
  2: { pose proof (ly_names _ _ _ Hly Hmods) as Hn. rewrite Forall_forall in Hn. apply Hn.
       unfold mod_entries. apply list_elem_of_fmap. exists k. split; [done|]. apply elem_of_seq. lia. }
  cbn [mbind outcome_bind]. replace (Z.of_nat k + 1) with (Z.of_nat (S k)) by lia.
  assert (mod_entry (S k) = mod_entry k + 16) as HS by (unfold mod_entry; lia).
  rewrite IH; [|lia| | | |].
  - cbn [seq map flat_map]. by rewrite highest_app, <- app_assoc.
  - apply Forall_app. split; [done|]. apply mod_pointers_tables. lia.
  - apply clear_app. split; [eapply clear_sub; [exact Hc|lia|lia]|].
    apply mod_pointers_clear. unfold apart. lia.
  - apply clear_app. split; [done|]. apply mod_pointers_clear. unfold apart, mod_entry in *. lia.
  - rewrite relocate_all_app, load32_relocate_all; [done|].
    apply mod_pointers_clear. unfold apart, mod_entry in *. lia.
Qed.
End modules.

(** The words rewritten before the section headers: two of the structure's and words of
    the module table. *)
Definition word_of_mods (a : Z) : Prop :=
  mb_has m mi MULTIBOOT_FLAG_MODINFO = true /\ mods_base <= a /\ a + 4 <= mods_base + 16 * mb_mods_count m mi.

Lemma cmdline_pointers_in : Forall (fun a => a = mi + 16) (cmdline_pointers m mi).
Proof. unfold cmdline_pointers. destruct (mb_has _ _ _); repeat constructor. Qed.

Lemma mods_pointers_in : Forall (fun a => a = mi + 24 \/ word_of_mods a) (mods_pointers m mi).
Proof.
  unfold mods_pointers. destruct (mb_has m mi MULTIBOOT_FLAG_MODINFO) eqn:Eh; [|constructor].
  constructor; [by left|]. apply Forall_forall. intros a Ha. right. split; [done|].
  apply list_elem_of_In, in_flat_map in Ha as (e & He & Ha).
  apply list_elem_of_In, mod_pointers_range in Ha. apply in_map_iff in He as (i & <- & Hi).
  apply in_seq in Hi. fold mods_base in Ha. lia.
Qed.

(** Words outside a range, from what is known of their positions. *)
Ltac words_clear H :=
  eapply Forall_impl; [exact H|]; intros ? ?; unfold apart in *; simpl in *;
  repeat match goal with H : _ \/ _ |- _ => destruct H end; subst; try lia.

Lemma init_mods_ok end_ : init_mods fuel (relocate_all m (cmdline_pointers m mi)) mi end_ =
  Ret (relocate_all m (cmdline_pointers m mi ++ mods_pointers m mi), highest end_ (mods_ends fuel m mi)).
Proof.
  pose proof cmdline_pointers_in as Hl. set (l := cmdline_pointers m mi) in *. clearbody l.
  unfold init_mods. rewrite mb_has_ok by words_clear Hl. unfold mods_pointers, mods_ends.
  destruct (mb_has m mi MULTIBOOT_FLAG_MODINFO) eqn:Eh; cbn [when]; [|by rewrite app_nil_r].
  assert (clear l (mi + 24) 4) as H24 by words_clear Hl.
  cbv zeta. unfold mb_mods_addr. rewrite (relocate_next m l (mi + 24)) by done.
  pose proof (load32_relocated m l (mi + 24) [] H24 (Forall_nil_2 _)) as Ha.
  rewrite Ha.
  assert (Forall (fun a => a = mi + 16 \/ a = mi + 24) (l ++ [mi + 24])) as Hl'.
  { apply Forall_app. split; [eapply Forall_impl; [exact Hl|]; by left|].
    constructor; [by right|constructor]. }
  assert (clear (l ++ [mi + 24]) (mi + 20) 4) as H20 by words_clear Hl'.
  unfold mb_mods_count at 1 2. rewrite !(load32_relocate_all m _ (mi + 20)) by done.
  fold (mb_mods_count m mi). destruct (mods_base_range Eh) as (H0 & Hend & Hap).
  assert (0 <= mb_mods_count m mi) as Hcnt by apply (load32_range _ _ (ly_mem _ _ _ Hly)).
  change 0 with (Z.of_nat 0) at 1. rewrite init_mods_loop_ok; [|done|lia| | |done|done].
  - rewrite <- app_assoc. cbn [app]. rewrite grow_end_max. done.
  - apply in_tables_info. words_clear Hl'.
  - unfold mod_entry. words_clear Hl'.
Qed.

(** ** Section headers *)
Definition shdrs_base : Z := kptr m (mi + 36).
Definition shdr_entry (i : nat) : Z := shdrs_base + 40 * Z.of_nat i.
Definition shdr_end (h : Z) : Z := u32 (kptr m (h + 12) + sh_size m h).

Section headers.
Hypothesis Hsym : mb_has m mi MULTIBOOT_FLAG_SYMBOLS2 = true.

Lemma shdrs_base_range : 0 <= shdrs_base /\ shdrs_base + 40 * mb_sym2_num m mi <= 2 ^ 32 /\
  apart mi 92 shdrs_base (40 * mb_sym2_num m mi).
Proof.
  destruct (ly_symbols _ _ _ Hly Hsym) as [? ?]. split; [apply u32_range|]. by split.
Qed.

Lemma init_shdrs_loop_S n m' i end_ : init_shdrs_loop (S n) m' mi shdrs_base i end_ =
  if i <? mb_sym2_num m' mi then
    let shdr := u32 (shdrs_base + sizeof_shdr * i) in
    let m' := store32 m' (shdr + 12) (u32 (sh_addr m' shdr + KERNEL_BASE_ADDR)) in
    init_shdrs_loop n m' mi shdrs_base (i + 1) (grow_end end_ (u32 (sh_addr m' shdr + sh_size m' shdr)))
  else Ret (m', end_).
Proof. done. Qed.

Lemma init_shdrs_loop_ok n : forall k l end_, Z.of_nat (k + n) = mb_sym2_num m mi ->
  clear l (shdr_entry k) (40 * Z.of_nat n) -> clear l (mi + 28) 4 ->
  init_shdrs_loop (S n) (relocate_all m l) mi shdrs_base (Z.of_nat k) end_ =
  Ret (relocate_all m (l ++ map (fun h => h + 12) (map shdr_entry (seq k n))),
       highest end_ (map shdr_end (map shdr_entry (seq k n)))).
Proof.
  destruct shdrs_base_range as (H0 & Hend & Hap).
  induction n as [|n IH]; intros k l end_ Hk Hc H28; rewrite init_shdrs_loop_S; unfold mb_sym2_num at 1;
    rewrite (load32_relocate_all m l (mi + 28)) by done; fold (mb_sym2_num m mi).
  { rewrite (proj2 (Z.ltb_ge _ _)) by lia. cbn. by rewrite app_nil_r. }
  rewrite (proj2 (Z.ltb_lt _ _)) by lia. unfold sizeof_shdr. rewrite (u32_small (shdrs_base + _)) by lia.
  fold (shdr_entry k). cbv zeta. set (h := shdr_entry k) in *.
  assert (clear l (h + 12) 4 /\ clear l (h + 20) 4) as [H12 H20] by (split; (eapply clear_sub; [exact Hc|lia|lia])).
  unfold sh_addr, sh_size. rewrite !relocate_next by done.
  assert (clear [h + 12] (h + 20) 4) as Hh by (repeat constructor; unfold apart; lia).
  rewrite (load32_relocated m l (h + 12) []) by (done || constructor).
  rewrite (load32_relocate_all m (l ++ [h + 12]) (h + 20)) by (by apply clear_app).
  replace (Z.of_nat k + 1) with (Z.of_nat (S k)) by lia.
  assert (shdr_entry (S k) = h + 40) as HS by (unfold h, shdr_entry; lia).
  rewrite IH; [|lia| |].
  - cbn [seq map highest fold_left]. rewrite <- app_assoc, grow_end_max. done.
  - apply clear_app. split; [eapply clear_sub; [exact Hc|lia|lia]|]. repeat constructor. unfold apart. lia.
  - apply clear_app. split; [done|]. constructor; [|constructor]. unfold h, apart, shdr_entry in *. lia.
Qed.
End headers.

Definition word_of_shdrs (a : Z) : Prop :=
  mb_has m mi MULTIBOOT_FLAG_SYMBOLS2 = true /\ shdrs_base <= a /\ a + 4 <= shdrs_base + 40 * mb_sym2_num m mi.

Lemma symbols_pointers_in : Forall (fun a => a = mi + 36 \/ word_of_shdrs a) (symbols_pointers m mi).
Proof.
  unfold symbols_pointers. destruct (mb_has m mi MULTIBOOT_FLAG_SYMBOLS2) eqn:Eh; [|constructor].
  constructor; [by left|]. apply Forall_forall. intros a Ha. right. split; [done|].
  apply list_elem_of_In, in_map_iff in Ha as (h & <- & Hh).
  apply in_map_iff in Hh as (i & <- & Hi). apply in_seq in Hi. fold shdrs_base. lia.
Qed.

Lemma head_pointers_in : Forall (fun a => a = mi + 16 \/ a = mi + 24 \/ word_of_mods a)
  (cmdline_pointers m mi ++ mods_pointers m mi).
Proof.
  apply Forall_app. split; [eapply Forall_impl; [exact cmdline_pointers_in|]; by left|].
  eapply Forall_impl; [exact mods_pointers_in|]. by right.
Qed.

Lemma word_of_mods_info a : word_of_mods a -> apart a 4 mi 92.
Proof. intros (Hh & ? & ?). destruct (mods_base_range Hh) as (_ & _ & ?). unfold apart in *. lia. Qed.

Lemma word_of_shdrs_info a : word_of_shdrs a -> apart a 4 mi 92.
Proof. intros (Hh & ? & ?). destruct (shdrs_base_range Hh) as (_ & _ & ?). unfold apart in *. lia. Qed.

Lemma head_clear f : 0 <= f -> f + 4 <= 92 -> (f + 4 <= 16 \/ 20 <= f) -> (f + 4 <= 24 \/ 28 <= f) ->
  clear (cmdline_pointers m mi ++ mods_pointers m mi) (mi + f) 4.
Proof.
  intros. eapply Forall_impl; [exact head_pointers_in|].
  intros a [->|[->|Ha%word_of_mods_info]]; unfold apart in *; lia.
Qed.

Lemma head_clear_shdrs : mb_has m mi MULTIBOOT_FLAG_SYMBOLS2 = true ->
  clear (cmdline_pointers m mi ++ mods_pointers m mi) shdrs_base (40 * mb_sym2_num m mi).
Proof.
  intros Hs. destruct (shdrs_base_range Hs) as (_ & _ & Hap).
  eapply Forall_impl; [exact head_pointers_in|]. intros a [->|[->|(Hh & ? & ?)]]; unfold apart in *; [lia..|].
  pose proof (ly_apart _ _ _ Hly Hh Hs) as Ht. fold mods_base shdrs_base in Ht. unfold apart in Ht. lia.
Qed.

Lemma init_symbols_ok end_ :
  init_symbols (relocate_all m (cmdline_pointers m mi ++ mods_pointers m mi)) mi end_ =
  Ret (relocate_all m ((cmdline_pointers m mi ++ mods_pointers m mi) ++ symbols_pointers m mi),
       highest end_ (symbols_ends m mi)).
Proof.
  pose proof head_clear as Hcl. pose proof head_clear_shdrs as Hcs.
  set (l := cmdline_pointers m mi ++ mods_pointers m mi) in *. clearbody l.
  assert (clear l mi 4) as Hc0 by (rewrite <- (Z.add_0_r mi); apply Hcl; lia).
  unfold init_symbols. rewrite mb_has_ok by done. unfold symbols_pointers, symbols_ends.
  destruct (mb_has m mi MULTIBOOT_FLAG_SYMBOLS2) eqn:Eh; cbn [when]; [|by rewrite app_nil_r].
  specialize (Hcs eq_refl). assert (clear l (mi + 36) 4) as H36 by (apply Hcl; lia).
  cbv zeta. unfold mb_sym2_addr. rewrite (relocate_next m l (mi + 36)) by done.
  pose proof (load32_relocated m l (mi + 36) [] H36 (Forall_nil_2 _)) as Ha. rewrite Ha.
  assert (forall f, f = 28 \/ f = 32 -> clear (l ++ [mi + 36]) (mi + f) 4) as Hcf.
  { intros f Hf. apply clear_app. split; [apply Hcl; lia|]. constructor; [unfold apart; lia|constructor]. }
  unfold mb_sym2_num at 1 2. unfold mb_sym2_size at 1.
  rewrite !(load32_relocate_all m _ (mi + 28)) by (apply Hcf; by left).
  rewrite (load32_relocate_all m _ (mi + 32)) by (apply Hcf; by right).
  fold (mb_sym2_num m mi) (mb_sym2_size m mi) shdrs_base.
  destruct (shdrs_base_range Eh) as (H0 & Hend & Hap).
  assert (0 <= mb_sym2_num m mi) as Hcnt by apply (load32_range _ _ (ly_mem _ _ _ Hly)).
  change 0 with (Z.of_nat 0) at 1. rewrite init_shdrs_loop_ok; [|done|lia| |apply Hcf; by left].
  - rewrite <- app_assoc. cbn [app]. rewrite grow_end_max. done.
  - apply clear_app. unfold shdr_entry. rewrite Z.add_0_r, Z2Nat.id by done. split; [done|].
    constructor; [unfold apart in *; lia|constructor].
Qed.

Lemma init_mmap_ok end_ :
  let l := (cmdline_pointers m mi ++ mods_pointers m mi) ++ symbols_pointers m mi in
  init_mmap (relocate_all m l) mi end_ =
  (relocate_all m (l ++ mmap_pointers m mi), highest end_ (mmap_ends m mi)).
Proof.
  intros l. assert (forall f, f = 0 \/ f = 44 \/ f = 48 -> clear l (mi + f) 4) as Hc.
  { intros f Hf. apply clear_app. split; [apply head_clear; lia|].
    eapply Forall_impl; [exact symbols_pointers_in|].
    intros a [->|Ha%word_of_shdrs_info]; unfold apart in *; lia. }
  clearbody l. unfold init_mmap. rewrite mb_has_ok by (rewrite <- (Z.add_0_r mi); apply Hc; lia).
  unfold mmap_pointers, mmap_ends.
  destruct (mb_has m mi MULTIBOOT_FLAG_MMAP); cbn [when]; [|by rewrite app_nil_r].
  cbv zeta. unfold mb_mmap_addr. rewrite relocate_next by (apply Hc; lia).
  rewrite (load32_relocated m l (mi + 48) []) by (constructor || (apply Hc; lia)).
  unfold mb_mmap_len. rewrite load32_relocate_all; [by rewrite grow_end_max|].
  apply clear_app. split; [apply Hc; lia|]. constructor; [unfold apart; lia|constructor].
Qed.

Lemma multiboot_init_run mi0 : u32 (mi0 + KERNEL_BASE_ADDR) = mi ->
  multiboot_init fuel m mi0 = Ret (mi, relocate_all m (pointers m mi), highest (mi + 92) (ends fuel m mi)).
Proof.
  intros Hmi. unfold multiboot_init. rewrite Hmi. unfold sizeof_multiboot_info.
  destruct (ly_info _ _ _ Hly). rewrite (u32_small (mi + 92)) by lia.
  rewrite init_cmdline_ok. cbn [mbind outcome_bind]. rewrite init_mods_ok. cbn [mbind outcome_bind].
  rewrite init_symbols_ok. cbn [mbind outcome_bind]. rewrite init_mmap_ok.
  unfold pointers, ends. by rewrite !highest_app, <- !app_assoc.
Qed.
End proof.
