(* ===== verification/MultibootClaims.v ===== *)
(** The contract of [multiboot_init]: every pointer of the boot loader's data is moved to
    the kernel's mapping exactly once, nothing else changes, and the returned address is
    the highest end of the data; and what [kmain] makes of it. *)
From S2P Require Import Prelude Util Mem Str Pmm Locks Heap HeapSpec HeapProofs Kmalloc Boot Multiboot MultibootSpec.

(** ** Pointers are distinct words *)
Fixpoint spread (l : list Z) : Prop :=
  match l with [] => True | a :: l => clear l a 4 /\ spread l end.

Lemma apart_sym a n b k : apart a n b k -> apart b k a n.
Proof. unfold apart. lia. Qed.

Lemma spread_app l1 l2 : spread (l1 ++ l2) <-> spread l1 /\ spread l2 /\ forall a, a ∈ l1 -> clear l2 a 4.
Proof.
  induction l1 as [|a l1 IH]; simpl.
  - split; [|tauto]. intros Hs. split; [done|]. split; [done|]. intros a Ha. by apply not_elem_of_nil in Ha.
  - rewrite IH, clear_app. split.
    + intros ((? & ?) & ? & ? & Hx). split; [done|]. split; [done|].
      intros x [->|Hin]%elem_of_cons; [done|by apply Hx].
    + intros ((? & ?) & ? & Hx). split; [split; [done|]; apply Hx; left|]. split; [done|]. split; [done|].
      intros x Hin. apply Hx. by right.
Qed.

Lemma spread_one a : spread [a].
Proof. split; [constructor|done]. Qed.

Lemma load32_spread m l a : spread l -> a ∈ l -> load32 (relocate_all m l) a = kptr m a.
Proof.
  intros Hs Ha. apply list_elem_of_split in Ha as (l1 & l2 & ->).
  apply spread_app in Hs as (_ & [Hc _] & Hx). apply load32_relocated; [|done].
  apply Forall_forall. intros b Hb. apply Hx, Forall_cons in Hb as [Hb _]. by apply apart_sym.
Qed.

(** Consecutive groups of words, each inside its own slot of [size] bytes. *)
Lemma spread_slots (words : Z -> list Z) (base size : Z) n : 4 <= size -> forall k,
  (forall e, spread (words e)) -> (forall e a, a ∈ words e -> e <= a /\ a + 4 <= e + size) ->
  spread (flat_map words (map (fun i => base + size * Z.of_nat i) (seq k n))).
Proof.
  intros Hsz k Hw Hin. revert k. induction n as [|n IH]; intros k; [done|]. cbn [seq map flat_map].
  apply spread_app. split; [apply Hw|]. split; [apply IH|]. intros a Ha. apply Hin in Ha.
  apply Forall_forall. intros b Hb. apply list_elem_of_In, in_flat_map in Hb as (e & He & Hb).
  apply in_map_iff in He as (i & <- & Hi). apply in_seq in Hi.
  apply list_elem_of_In, Hin in Hb. unfold apart. nia.
Qed.

Lemma spread_mod_pointers m e : spread (mod_pointers m e).
Proof.
  unfold mod_pointers, when. destruct (nz _); simpl; split_and?; try done;
    repeat (apply Forall_cons; split); try apply Forall_nil_2; unfold apart; lia.
Qed.

Section distinct.
Context (fuel : nat) (m : mem) (mi : Z).
Hypothesis Hly : mb_layout fuel m mi.

Lemma spread_mods : spread (mods_pointers m mi).
Proof.
  pose proof (mods_pointers_in m mi) as Hin. unfold mods_pointers in *.
  destruct (mb_has m mi MULTIBOOT_FLAG_MODINFO) eqn:Eh; [|done]. cbn [when spread] in *. split.
  - apply Forall_forall. intros a Ha. apply list_elem_of_In, in_flat_map in Ha as (e & He & Ha).
    apply in_map_iff in He as (i & <- & Hi). apply in_seq in Hi.
    apply list_elem_of_In, mod_pointers_range in Ha.
    destruct (mods_base_range fuel m mi Hly Eh) as (? & ? & Hap). unfold mods_base, apart in *. lia.
  - apply spread_slots; [lia|apply spread_mod_pointers|]. intros e a Ha%mod_pointers_range. lia.
Qed.

Lemma spread_symbols : spread (symbols_pointers m mi).
Proof.
  unfold symbols_pointers. destruct (mb_has m mi MULTIBOOT_FLAG_SYMBOLS2) eqn:Eh; [|done].
  cbn [when spread]. unfold shdr_entries. split.
  - apply Forall_forall. intros a Ha. apply list_elem_of_In, in_map_iff in Ha as (h & <- & Hh).
    apply in_map_iff in Hh as (i & <- & Hi). apply in_seq in Hi.
    destruct (shdrs_base_range fuel m mi Hly Eh) as (? & ? & Hap). unfold shdrs_base, apart in *. lia.
  - pose proof (spread_slots (fun h => [h + 12]) (kptr m (mi + 36)) 40
                  (Z.to_nat (mb_sym2_num m mi)) ltac:(lia) 0) as Hs.
    replace (map (fun h => h + 12) (map (fun i => kptr m (mi + 36) + 40 * Z.of_nat i) _))
      with (flat_map (fun h => [h + 12]) (map (fun i => kptr m (mi + 36) + 40 * Z.of_nat i)
              (seq 0 (Z.to_nat (mb_sym2_num m mi))))).
    + apply Hs; [intros e; apply spread_one|]. intros e a Ha%list_elem_of_singleton. lia.
    + generalize (map (fun i => kptr m (mi + 36) + 40 * Z.of_nat i) (seq 0 (Z.to_nat (mb_sym2_num m mi)))).
      intros l. induction l as [|x l IH]; [done|]. cbn. by rewrite IH.
Qed.

Lemma word_of_shdrs_clear a : word_of_shdrs m mi a -> clear (cmdline_pointers m mi ++ mods_pointers m mi) a 4.
Proof.
  intros (Hh & ? & ?). eapply clear_sub; [apply (head_clear_shdrs fuel m mi Hly Hh)|lia|lia].
Qed.

Lemma spread_pointers : spread (pointers m mi).
Proof.
  unfold pointers. rewrite app_assoc. apply spread_app. split; [|split].
  - apply spread_app. split; [|split; [apply spread_mods|]].
    + unfold cmdline_pointers. destruct (mb_has _ _ _); [apply spread_one|done].
    + intros a Ha. pose proof (cmdline_pointers_in m mi) as Hc. rewrite Forall_forall in Hc.
      rewrite (Hc a Ha). eapply Forall_impl; [apply mods_pointers_in|].
      intros b [->|Hb%(word_of_mods_info fuel m mi Hly)]; unfold apart in *; lia.
  - apply spread_app. split; [apply spread_symbols|split].
    + unfold mmap_pointers. destruct (mb_has _ _ _); [apply spread_one|done].
    + intros a Ha. pose proof (symbols_pointers_in m mi) as Hs. rewrite Forall_forall in Hs.
      unfold mmap_pointers, when. destruct (mb_has _ _ _); [|constructor].
      constructor; [|constructor]. destruct (Hs a Ha) as [->|Hb%(word_of_shdrs_info fuel m mi Hly)];
        unfold apart in *; lia.
  - intros a Ha. pose proof (head_pointers_in m mi) as Hh. rewrite Forall_forall in Hh. specialize (Hh a Ha).
    apply clear_app. split.
    + eapply Forall_impl; [apply symbols_pointers_in|]. intros b [->|Hb].
      * destruct Hh as [->|[->|Hw%(word_of_mods_info fuel m mi Hly)]]; unfold apart in *; lia.
      * apply word_of_shdrs_clear in Hb. unfold clear in Hb. rewrite Forall_forall in Hb.
        apply apart_sym. by apply Hb.
    + unfold mmap_pointers, when. destruct (mb_has _ _ _); [|constructor]. constructor; [|constructor].
      destruct Hh as [->|[->|Hw%(word_of_mods_info fuel m mi Hly)]]; unfold apart in *; lia.
Qed.
End distinct.

Lemma highest_bound l : forall e, (forall x, x ∈ e :: l -> x <= highest e l) /\ highest e l ∈ e :: l.
Proof.
  induction l as [|y l IH]; intros e; cbn [highest fold_left].
  - split; [intros x Hx%list_elem_of_singleton; lia|left].
  - destruct (IH (Z.max e y)) as [Hle Hin]. unfold highest in *. split.
    + assert (Z.max e y <= fold_left Z.max l (Z.max e y)) by (apply Hle; left).
      intros x [->|[->|Hx]%elem_of_cons]%elem_of_cons; [lia|lia|]. apply Hle. by right.
    + apply elem_of_cons in Hin as [Hm|Hin]; [|by do 2 right]. rewrite Hm.
      destruct (Z.max_spec e y) as [[_ ->]|[_ ->]]; [right; left|left].
Qed.

(** ** What the later stages read *)
Section handover.
Context (fuel : nat) (m : mem) (mi : Z).
Hypothesis Hly : mb_layout fuel m mi.

Lemma pointers_tables : in_tables m mi (pointers m mi).
Proof.
  unfold pointers. rewrite app_assoc. apply Forall_app. split; [|apply Forall_app; split].
  - eapply Forall_impl; [apply head_pointers_in|]. intros a [->|[->|(Hh & ? & ?)]].
    1-2: exists (mi, 92); split; [left|simpl; lia].
    exists (mods_base m mi, 16 * mb_mods_count m mi). split; [|simpl; lia].
    right. apply elem_of_app. left. rewrite Hh. left.
  - eapply Forall_impl; [apply symbols_pointers_in|]. intros a [->|(Hh & ? & ?)].
    + exists (mi, 92). split; [left|simpl; lia].
    + exists (shdrs_base m mi, 40 * mb_sym2_num m mi). split; [|simpl; lia].
      right. apply elem_of_app. right. rewrite Hh. left.
  - unfold mmap_pointers, when. destruct (mb_has _ _ _); [|constructor]. constructor; [|constructor].
    exists (mi, 92). split; [left|simpl; lia].
Qed.

Lemma mmap_entries_at_relocated l p len : 0 <= len -> clear l p len ->
  mmap_entries_at (relocate_all m l) p len = mmap_entries_at m p len.
Proof.
  intros H0 Hc. unfold mmap_entries_at. apply map_ext_in. intros i Hi%in_seq. cbv zeta.
  pose proof (Z.mul_div_le len 24). pose proof (Z.div_pos len 24). unfold load64.
  rewrite load32_relocate_all by (eapply clear_sub; [exact Hc|lia|lia]).
  rewrite !load_bytes_relocate_all by (eapply clear_sub; [exact Hc|lia|lia]). done.
Qed.

(** The memory map that the frame allocator is initialised from is the boot loader's, read
    at its kernel address; the first module's bounds are the boot loader's, moved. *)
Lemma handover_ok : let m' := relocate_all m (pointers m mi) in
  (mb_has m mi MULTIBOOT_FLAG_MMAP = true ->
   Forall (fun t => apart t.1 t.2 (kptr m (mi + 48)) (mb_mmap_len m mi)) (tables m mi) ->
   mmap_entries m' mi = mmap_entries_at m (kptr m (mi + 48)) (mb_mmap_len m mi)) /\
  (mb_has m mi MULTIBOOT_FLAG_MODINFO = true -> 0 < mb_mods_count m mi ->
   let e := kptr m (mi + 24) in first_module m' mi = (kptr m e, kptr m (e + 4))).
Proof.
  intros m'. pose proof (spread_pointers fuel m mi Hly) as Hsp. split.
  - intros Hh Ht. unfold mmap_entries, mb_mmap_addr, mb_mmap_len at 1.
    assert (load32 m' (mi + 48) = kptr m (mi + 48)) as ->.
    { apply load32_spread; [done|]. unfold pointers, mmap_pointers. rewrite Hh, !elem_of_app. do 3 right. left. }
    assert (load32 m' (mi + 44) = mb_mmap_len m mi) as ->.
    { apply load32_relocate_all. unfold pointers. rewrite app_assoc. apply clear_app.
      split; [apply (head_clear fuel m mi Hly); lia|]. apply clear_app. split.
      - eapply Forall_impl; [apply symbols_pointers_in|].
        intros a [->|Ha%(word_of_shdrs_info fuel m mi Hly)]; unfold apart in *; lia.
      - unfold mmap_pointers, when. destruct (mb_has _ _ _); [|constructor].
        constructor; [unfold apart; lia|constructor]. }
    apply mmap_entries_at_relocated; [apply (load32_range _ _ (ly_mem _ _ _ Hly))|].
    apply (in_tables_clear m mi); [apply pointers_tables|exact Ht].
  - intros Hh Hn e. unfold first_module, mb_mods_addr.
    assert (forall a, a ∈ mods_pointers m mi -> load32 m' a = kptr m a) as Hp.
    { intros a Ha. apply load32_spread; [done|]. unfold pointers. rewrite !elem_of_app. right. by left. }
    unfold mods_pointers, mod_entries in Hp. rewrite Hh in Hp. cbn [when] in Hp.
    rewrite (Hp (mi + 24)) by left. fold e in Hp |- *.
    destruct (Z.to_nat (mb_mods_count m mi)) as [|n] eqn:En; [lia|]. cbn [seq map flat_map mod_pointers app] in Hp.
    rewrite Z.mul_0_r, Z.add_0_r in Hp. rewrite !Hp; [done|right; right; left|right; left].
Qed.
End handover.

(** ** The heap starts above the data *)
Section heap_start.
Context {E : Type} `{PageEnv E}.

Lemma kmain_heap_eq (k : kstate E) end_ : 0 <= end_ < 0xC0400000 ->
  exists k', kmain_heap k end_ = Ret k' /\ heap_base k' = ALIGN end_ PAGE_SIZE /\
    heap_length k' = 64 * PAGE_SIZE /\ max_size (kernel_heap k') = 0xC0400000 - heap_base k' /\
    end_ <= heap_base k' < end_ + PAGE_SIZE /\ heap_base k' mod PAGE_SIZE = 0.
Proof.
  intros He. unfold kmain_heap, kmalloc_init, heap_init, PAGE_SIZE.
  rewrite (proj2 (Z.leb_gt _ _)) by lia.
  destruct (ALIGN_bounds 12 end_) as [Hm Hr]; [lia..|]. change (2 ^ 12) with 4096 in *.
  set (hs := ALIGN end_ 4096) in *. clearbody hs. unfold IS_ALIGNED, PAGE_SIZE. rewrite Hm.
  cbn [c_assert mbind outcome_bind Z.eqb Z.modulo Z.mul Z.div_eucl Z.pos_div_eucl].
  eexists. split; [done|]. unfold heap_base, heap_length, sizeof_heap. cbn [kernel_heap head hsize max_size].
  rewrite (u32_small (hs + 16)) by lia. replace (hs + 16 - 16) with hs by lia.
  split; [done|]. split; [done|]. split; [|lia]. apply u32_small. apply Z.mod_divide in Hm as [j ->]; lia.
Qed.
End heap_start.

(** ** Properties *)

(** A word plus the kernel's base address, in 32 bits. *)
Lemma u32_add_base v : 0 <= v < 2 ^ 32 ->
  u32 (v + KERNEL_BASE_ADDR) = if v <? 0x40000000 then v + KERNEL_BASE_ADDR else v - 0x40000000.
Proof.
  intros Hv. unfold KERNEL_BASE_ADDR. destruct (v <? 0x40000000) eqn:E; breflect.
  - apply u32_small. lia.
  - rewrite (wrap_cong 32 _ (v - 0x40000000) 1) by lia. apply u32_small. lia.
Qed.

(** The end that counts for a section linked at a kernel address. *)
Lemma linked_section_end fuel m mi h : byte_mem m -> mb_has m mi MULTIBOOT_FLAG_SYMBOLS2 = true ->
  h ∈ shdr_entries m mi -> KERNEL_BASE_ADDR <= sh_addr m h -> sh_addr m h + sh_size m h < 2 ^ 32 ->
  sh_addr m h + sh_size m h - 0x40000000 ∈ ends fuel m mi.
Proof.
  intros Hm Hs Hh Hlo Hhi. unfold ends. apply elem_of_app; right. apply elem_of_app; right.
  apply elem_of_app; left. unfold symbols_ends. rewrite Hs. cbn [when]. right.
  apply list_elem_of_fmap. exists h. split; [|done]. unfold kptr.
  unfold sh_addr, sh_size, KERNEL_BASE_ADDR in *. pose proof (load32_range m (h + 12) Hm).
  pose proof (load32_range m (h + 20) Hm).
  rewrite u32_add_base by lia. rewrite (proj2 (Z.ltb_ge _ _)) by lia. rewrite u32_small; lia.
Qed.

(** C31: relocation of the boot loader's data. When the structure, the module table and
    the section headers are disjoint and every string ends outside them, [multiboot_init]
    returns; every pointer word then holds its old value plus the kernel's base address in
    32 bits, that is, [old + 0xC0000000] below 1 GiB and [old - 0x40000000] otherwise,
    rewritten exactly once although the code follows pointers it has just rewritten; no
    other byte of memory has changed; and the returned address is the maximum of the ends,
    computed from the rewritten pointers in 32 bits, of the structure, of the command line,
    of the modules and their names, of the section headers and sections and of the memory
    map. For a section whose header holds a link address in the kernel's half (0xC0100000 and
    above, as the kernel's own sections do) the end that counts is 1 GiB below the real one,
    contrary to the function's comment, so the returned address need not be the highest in
    use. [kmain] stops when that address reaches 0xC0400000, and otherwise starts the heap on
    a page boundary at or above every one of these ends. *)
Theorem multiboot_init_spec {E : Type} `{PageEnv E} (fuel : nat) (m : mem) (mi0 : Z) (k : kstate E)
    (Hly : mb_layout fuel m (u32 (mi0 + KERNEL_BASE_ADDR))) :
  let mi := u32 (mi0 + KERNEL_BASE_ADDR) in
  exists m' end_, multiboot_init fuel m mi0 = Ret (mi, m', end_) /\
    (forall a, a ∈ pointers m mi -> load32 m' a =
       if load32 m a <? 0x40000000 then load32 m a + KERNEL_BASE_ADDR else load32 m a - 0x40000000) /\
    (forall c, (forall a, a ∈ pointers m mi -> c < a \/ a + 4 <= c) -> load8 m' c = load8 m c) /\
    (forall e, e ∈ mi + 92 :: ends fuel m mi -> e <= end_) /\ end_ ∈ mi + 92 :: ends fuel m mi /\
    (mb_has m mi MULTIBOOT_FLAG_SYMBOLS2 = true -> forall h, h ∈ shdr_entries m mi ->
       KERNEL_BASE_ADDR <= sh_addr m h -> sh_addr m h + sh_size m h < 2 ^ 32 ->
       sh_addr m h + sh_size m h - 0x40000000 ∈ ends fuel m mi) /\
    (0xC0400000 <= end_ -> kmain_heap k end_ = Fault FPanic) /\
    (end_ < 0xC0400000 -> exists k', kmain_heap k end_ = Ret k' /\ heap_base k' mod PAGE_SIZE = 0 /\
       forall e, e ∈ mi + 92 :: ends fuel m mi -> e <= heap_base k').
Proof.
  intros mi. rewrite (multiboot_init_run fuel m mi Hly mi0 eq_refl). eexists _, _. split; [done|].
  destruct (highest_bound (ends fuel m mi) (mi + 92)) as [Hle Hin].
  split; [|split; [|split; [done|split; [done|split; [|split]]]]].
  - intros a Ha. rewrite load32_spread; [|by apply (spread_pointers fuel)|done].
    apply u32_add_base, load32_range, (ly_mem _ _ _ Hly).
  - intros c Hc. apply load8_relocate_all. apply Forall_forall. intros a Ha. specialize (Hc a Ha).
    unfold apart. lia.
  - intros Hs h Hh Hlo Hhi. apply linked_section_end; try done. apply (ly_mem _ _ _ Hly).
  - intros Hge. unfold kmain_heap. by rewrite (proj2 (Z.leb_le _ _)).
  - intros Hlt. destruct (kmain_heap_eq k (highest (mi + 92) (ends fuel m mi))) as (k' & -> & _ & _ & _ & Hb & Hm).
    { split; [|done]. etransitivity; [|apply Hle; left]. destruct (ly_info _ _ _ Hly). unfold mi. lia. }
    exists k'. split; [done|]. split; [done|]. intros e He. specialize (Hle e He). lia.
Qed.

(** A boot record with a command line, one named module, one section header and a memory
    map, at physical address 0x9000. *)
Definition mb_sample : mem :=
  let w m a v := store32 m (0xC0000000 + a) v in
  let m := w ∅ 0x9000 0x6C in
  let m := w m 0x9010 0x9100 in
  let m := w m 0x9014 1 in
  let m := w m 0x9018 0x9200 in
  let m := w m 0x901C 1 in
  let m := w m 0x9020 40 in
  let m := w m 0x9024 0x9300 in
  let m := w m 0x902C 24 in
  let m := w m 0x9030 0x9400 in
  let m := w m 0x9200 0x150000 in
  let m := w m 0x9204 0x151234 in
  let m := w m 0x9208 0x9110 in
  let m := w m 0x930C 0x152000 in
  let m := w m 0x9314 0x100 in
  let m := store_bytes m 0xC0009100 [107; 49; 0] in
  store_bytes m 0xC0009110 [109; 0].

Lemma mb_sample_byte : byte_mem mb_sample.
Proof. unfold mb_sample, store32. auto 30 with rasta. Qed.

Lemma mb_sample_string p s : load_bytes mb_sample p (length s) = s -> Forall is_char s ->
  load8 mb_sample (p + Z.of_nat (length s)) = 0 -> (length s < 8)%nat -> 0 <= p -> p + 9 < 2 ^ 32 ->
  Forall (fun t => apart t.1 t.2 p (Z.of_nat (length s) + 1)) (tables mb_sample 0xC0009000) ->
  string_ok 8 mb_sample (tables mb_sample 0xC0009000) p.
Proof. intros. exists s. split; [by split|]. split; [done|]. split; [done|]. split; [lia|done]. Qed.

Lemma sample_apart p n : apart 0xC0009000 92 p n -> apart 0xC0009200 16 p n -> apart 0xC0009300 40 p n ->
  Forall (fun t => apart t.1 t.2 p n) [(0xC0009000, 92); (0xC0009200, 16); (0xC0009300, 40)].
Proof.
  intros H1 H2 H3. apply Forall_cons; split; [exact H1|]. apply Forall_cons; split; [exact H2|].
  apply Forall_cons; split; [exact H3|constructor].
Qed.

Lemma mb_sample_layout : mb_layout 8 mb_sample (u32 (0x9000 + KERNEL_BASE_ADDR)).
Proof.
  change (u32 (0x9000 + KERNEL_BASE_ADDR)) with 0xC0009000.
  assert (tables mb_sample 0xC0009000 = [(0xC0009000, 92); (0xC0009200, 16); (0xC0009300, 40)]) as Ht
    by (vm_compute; reflexivity).
  assert (mod_entries mb_sample 0xC0009000 = [0xC0009200]) as He by (vm_compute; reflexivity).
  assert (kptr mb_sample (0xC0009000 + 24) = 0xC0009200) as H24 by (vm_compute; reflexivity).
  assert (kptr mb_sample (0xC0009000 + 36) = 0xC0009300) as H36 by (vm_compute; reflexivity).
  assert (mb_mods_count mb_sample 0xC0009000 = 1) as H20 by (vm_compute; reflexivity).
  assert (mb_sym2_num mb_sample 0xC0009000 = 1) as H28 by (vm_compute; reflexivity).
  assert (kptr mb_sample (0xC0009000 + 16) = 0xC0009100) as H16 by (vm_compute; reflexivity).
  split; rewrite ?H24, ?H36, ?H20, ?H28, ?H16, ?He; intros; unfold apart; try lia.
  - apply mb_sample_byte.
  - apply (mb_sample_string _ [107; 49]);
      [by vm_compute|repeat constructor; lia|by vm_compute|simpl; lia|done|done|].
    rewrite Ht. apply sample_apart; simpl; unfold apart; lia.
  - constructor; [|constructor]. intros _ _.
    replace (kptr mb_sample (0xC0009200 + 8)) with 0xC0009110 by (vm_compute; reflexivity).
    apply (mb_sample_string _ [109]);
      [by vm_compute|repeat constructor; lia|by vm_compute|simpl; lia|done|done|].
    rewrite Ht. apply sample_apart; simpl; unfold apart; lia.
Qed.

Lemma multiboot_init_spec_witness : exists m',
  multiboot_init 8 mb_sample 0x9000 = Ret (0xC0009000, m', 0xC0152100) /\
  load32 m' 0xC0009018 = 0xC0009200 /\ load32 m' 0xC0009208 = 0xC0009110 /\
  load32 m' 0xC000930C = 0xC0152000 /\
  exists k', kmain_heap (mkK (mkHeap 0 0 0 0) ∅ pmm_start 0x202 false) 0xC0152100 = Ret k' /\
    0xC0152100 <= heap_base k'.
Proof.
  destruct (multiboot_init_spec 8 mb_sample 0x9000 (mkK (mkHeap 0 0 0 0) ∅ pmm_start 0x202 false)
              mb_sample_layout) as (m' & end_ & E & Hp & _ & Hle & Hin & _ & _ & Hh).
  assert (end_ = 0xC0152100) as ->.
  { assert (match multiboot_init 8 mb_sample 0x9000 with Ret (_, _, e) => e | Fault _ => 0 end = 0xC0152100)
      as Hc by (vm_compute; reflexivity). rewrite E in Hc. exact Hc. }
  exists m'. split; [exact E|].
  split; [rewrite Hp; [vm_compute; reflexivity|apply (bool_decide_eq_true_1 _); vm_compute; reflexivity]|].
  split; [rewrite Hp; [vm_compute; reflexivity|apply (bool_decide_eq_true_1 _); vm_compute; reflexivity]|].
  split; [rewrite Hp; [vm_compute; reflexivity|apply (bool_decide_eq_true_1 _); vm_compute; reflexivity]|].
  destruct (Hh eq_refl) as (k' & Ek & _ & Hb). exists k'. split; [exact Ek|]. apply Hb, Hin.
Defined.

(** The check of [kmain] does not leave room for the heap. Multiboot data that ends in
    the last 256 KiB below 0xC0400000 passes it, and the initial heap of 64 pages then
    reaches past 0xC0400000, the end of the memory mapped at boot and the limit the heap
    itself is given. *)
Theorem kmain_heap_past_mapping {E : Type} `{PageEnv E} (k : kstate E) (end_ : Z)
    (Hlo : 0xC03C0000 < end_) (Hhi : end_ < 0xC0400000) :
  exists k', kmain_heap k end_ = Ret k' /\ 0xC0400000 < heap_base k' + heap_length k' /\
    max_size (kernel_heap k') < hsize (kernel_heap k').
Proof.
  destruct (kmain_heap_eq k end_) as (k' & Ek & _ & Hl & Hmax & Hr & _); [lia|]. exists k'.
  split; [done|]. rewrite Hmax. fold (heap_length k'). rewrite Hl. unfold PAGE_SIZE in *. lia.
Qed.

(** A section linked at a kernel address is moved out of the kernel's half of the address
    space: the addition of the base wraps around. *)
Theorem relocate_linked_section_wraps (m : mem) (shdr : Z)
    (Hlink : KERNEL_BASE_ADDR <= load32 m (shdr + 12)) (Hmem : byte_mem m) :
  load32 (relocate m (shdr + 12)) (shdr + 12) = load32 m (shdr + 12) - 0x40000000 /\
  load32 (relocate m (shdr + 12)) (shdr + 12) < KERNEL_BASE_ADDR.
Proof.
  pose proof (load32_range m (shdr + 12) Hmem). unfold relocate, KERNEL_BASE_ADDR in *.
  rewrite load32_store32_eq by apply u32_range.
  rewrite (wrap_cong 32 _ (load32 m (shdr + 12) - 0x40000000) 1) by lia. rewrite u32_small; lia.
Qed.
