(* ===== verification/DList.v ===== *)
(** [common/list.h]: intrusive doubly linked lists. The nodes live in a store indexed
    by the address of the element that embeds them; a list is a head and a tail
    pointer. The theorems relate the pointer operations to operations on sequences. *)
From S2P Require Import Prelude.

Record node : Type := mkNode { nnext : Z; nprev : Z }.
Record dlist : Type := mkDList { lhead : Z; ltail : Z }.

(** The embedded nodes; memory that was never written holds zeros ([bzero]). *)
Abbreviation nodes := (gmap Z node).
Definition node_of (st : nodes) (p : Z) : node := default (mkNode 0 0) (st !! p).

Definition list_init : dlist := mkDList 0 0.
Definition list_head (l : dlist) : Z := lhead l.
Definition list_tail (l : dlist) : Z := ltail l.
Definition list_next (st : nodes) (elem : Z) : Z := nnext (node_of st elem).
Definition list_prev (st : nodes) (elem : Z) : Z := nprev (node_of st elem).
Definition set_list_next (st : nodes) (elem v : Z) : nodes :=
  <[elem := mkNode v (nprev (node_of st elem))]> st.
Definition set_list_prev (st : nodes) (elem v : Z) : nodes :=
  <[elem := mkNode (nnext (node_of st elem)) v]> st.
Definition list_empty (l : dlist) : bool := lhead l =? 0.

Definition list_remove (st : nodes) (l : dlist) (elem : Z) : nodes * dlist :=
  let st := if nz (list_prev st elem)
            then set_list_next st (list_prev st elem) (list_next st elem) else st in
  let st := if nz (list_next st elem)
            then set_list_prev st (list_next st elem) (list_prev st elem) else st in
  let l := if list_head l =? elem then mkDList (list_next st elem) (ltail l) else l in
  let l := if list_tail l =? elem then mkDList (lhead l) (list_prev st elem) else l in
  let st := set_list_prev st elem 0 in
  let st := set_list_next st elem 0 in
  (st, l).

Definition list_append (st : nodes) (l : dlist) (elem : Z) : nodes * dlist :=
  if list_empty l then (st, mkDList elem elem)
  else
    let st := set_list_next st (ltail l) elem in
    let st := set_list_prev st elem (ltail l) in
    let st := set_list_next st elem 0 in
    (st, mkDList (lhead l) elem).

(** [list_foreach]: the successor is read before the body runs, so the body may
    remove the element it is given. The body works on the store, the list and a
    state of its own. *)
Section foreach.
Context {S : Type} (body : Z -> nodes * dlist * S -> nodes * dlist * S).

Fixpoint foreach_from (fuel : nat) (it nxt : Z) (s : nodes * dlist * S)
    : outcome (nodes * dlist * S) :=
  match fuel with
  | O => Fault FFuel
  | Datatypes.S fuel =>
      if nz it then
        let s := body it s in
        let '(st, _, _) := s in
        foreach_from fuel nxt (if nz nxt then list_next st nxt else 0) s
      else Ret s
  end.

Definition list_foreach (fuel : nat) (s : nodes * dlist * S) : outcome (nodes * dlist * S) :=
  let '(st, l, _) := s in
  let it := list_head l in
  foreach_from fuel it (if nz it then list_next st it else 0) s.
End foreach.

(** ** Representation *)

(** The nodes of [l] are linked: [prev] before the first, [nxt] after the last. *)
Fixpoint seg (st : nodes) (prev : Z) (l : list Z) (nxt : Z) : Prop :=
  match l with
  | [] => True
  | x :: l => list_prev st x = prev /\ list_next st x = hd nxt l /\ seg st x l nxt
  end.

Record rep (st : nodes) (d : dlist) (l : list Z) : Prop := {
  rep_head : lhead d = hd 0 l;
  rep_tail : ltail d = List.last l 0;
  rep_seg : seg st 0 l 0;
  rep_nodup : NoDup l;
  rep_nz : 0 ∉ l
}.

Definition detached (st : nodes) (x : Z) : Prop := list_next st x = 0 /\ list_prev st x = 0.

(** Nodes outside a set of elements are untouched. *)
Definition same_nodes (st st' : nodes) (l : list Z) : Prop :=
  forall x, x ∉ l -> node_of st' x = node_of st x.

Lemma next_set_next st e v x : list_next (set_list_next st e v) x = if e =? x then v else list_next st x.
Proof.
  unfold list_next, set_list_next, node_of. destruct (e =? x) eqn:E; breflect.
  - subst. by rewrite lookup_insert_eq.
  - by rewrite lookup_insert_ne.
Qed.
Lemma prev_set_next st e v x : list_prev (set_list_next st e v) x = list_prev st x.
Proof.
  unfold list_prev, set_list_next, node_of. destruct (Z.eq_dec e x) as [->|].
  - by rewrite lookup_insert_eq.
  - by rewrite lookup_insert_ne.
Qed.
Lemma prev_set_prev st e v x : list_prev (set_list_prev st e v) x = if e =? x then v else list_prev st x.
Proof.
  unfold list_prev, set_list_prev, node_of. destruct (e =? x) eqn:E; breflect.
  - subst. by rewrite lookup_insert_eq.
  - by rewrite lookup_insert_ne.
Qed.
Lemma next_set_prev st e v x : list_next (set_list_prev st e v) x = list_next st x.
Proof.
  unfold list_next, set_list_prev, node_of. destruct (Z.eq_dec e x) as [->|].
  - by rewrite lookup_insert_eq.
  - by rewrite lookup_insert_ne.
Qed.

#[export] Hint Rewrite next_set_next prev_set_next prev_set_prev next_set_prev : rasta_rw.

Lemma seg_ext st st' prev l nxt :
  (forall x, x ∈ l -> list_next st' x = list_next st x /\ list_prev st' x = list_prev st x) ->
  seg st prev l nxt -> seg st' prev l nxt.
Proof.
  revert prev. induction l as [|x l IH]; intros prev He Hs; [done|].
  destruct Hs as (Hp & Hn & Hs). destruct (He x) as [En Ep]; [left|].
  split; [by rewrite Ep|]. split; [by rewrite En|]. apply IH; [|done].
  intros y Hy. apply He. by right.
Qed.

Lemma seg_app st prev l1 l2 nxt :
  seg st prev (l1 ++ l2) nxt <-> seg st prev l1 (hd nxt l2) /\ seg st (List.last l1 prev) l2 nxt.
Proof.
  revert prev. induction l1 as [|x l1 IH]; intros prev; [by split; [|intros []]|].
  cbn [app seg]. rewrite IH.
  assert (hd nxt (l1 ++ l2) = hd (hd nxt l2) l1) as -> by (by destruct l1).
  assert (List.last (x :: l1) prev = List.last l1 x) as -> .
  { clear. revert x prev. induction l1 as [|y l1 IH]; intros x prev; [done|].
    change (List.last (x :: y :: l1) prev) with (List.last (y :: l1) prev).
    rewrite (IH y prev). symmetry. apply (IH y x). }
  tauto.
Qed.

Lemma last_app_cons {A} (l1 l2 : list A) x d : List.last (l1 ++ x :: l2) d = List.last (x :: l2) d.
Proof.
  induction l1 as [|y l1 IH]; [done|]. cbn [app]. rewrite <- IH. by destruct l1.
Qed.

Lemma last_default {A} (l : list A) d d' : l <> [] -> List.last l d = List.last l d'.
Proof.
  induction l as [|x l IH]; [done|]. intros _. destruct l as [|y l]; [done|]. by apply IH.
Qed.

Lemma last_in {A} (l : list A) d : l <> [] -> List.last l d ∈ l.
Proof.
  induction l as [|x l IH]; [done|]. intros _. destruct l as [|y l]; [left|]. right. by apply IH.
Qed.

Lemma hd_in {A} (l : list A) d : l <> [] -> hd d l ∈ l.
Proof. destruct l; [done|]. intros _. left. Qed.

(** Evaluate pointer reads after writes. *)
Ltac link_simpl := autorewrite with rasta_rw.
Ltac link_cases :=
  repeat (link_simpl; match goal with
  | |- context [?a =? ?b] => destruct (Z.eqb_spec a b); try (done || congruence)
  end); link_simpl; try (done || (simpl in *; congruence)).

(** [list_append] of a detached element appends to the sequence and touches only the old
    tail and the element. *)
Lemma list_append_rep st d l x : rep st d l -> detached st x -> x ∉ l -> x <> 0 ->
  let '(st', d') := list_append st d x in
  rep st' d' (l ++ [x]) /\ same_nodes st st' (x :: l).
Proof.
  intros [Hh Ht Hs Hnd Hnz] [Hxn Hxp] Hx Hx0. unfold list_append, list_empty. rewrite Hh, Ht.
  assert (NoDup (l ++ [x])) as Hnd'.
  { apply NoDup_app. split; [done|]. split; [|apply NoDup_singleton].
    intros y Hy Hyx. apply list_elem_of_singleton in Hyx. by subst. }
  assert (0 ∉ l ++ [x]) as Hnz'.
  { intros [H0|H0]%elem_of_app; [done|]. by apply list_elem_of_singleton in H0. }
  destruct (decide (l = [])) as [->|Hne].
  - cbn [hd Z.eqb]. split; [|done]. split; try done.
  - pose proof (hd_in l 0 Hne) as Hhd. pose proof (last_in l 0 Hne) as Hlast.
    rewrite (proj2 (Z.eqb_neq _ _)) by (intros E; by rewrite E in Hhd).
    set (t := List.last l 0) in *.
    assert (t <> x) as Htx by congruence.
    split.
    + split; try done; cbn [lhead ltail].
      * by destruct l.
      * by rewrite last_app_cons.
      * rewrite seg_app. split.
        -- destruct (exists_last Hne) as (l' & z & ->). unfold t in *. clear t.
           rewrite last_app_cons in *. cbn [List.last] in *.
           rewrite seg_app in *. destruct Hs as [Hs1 (Hz1 & Hz2 & _)]. split.
           ++ eapply seg_ext; [|exact Hs1]. intros y Hy.
              assert (y <> z) by (intros ->; apply NoDup_app in Hnd as (_ & Hd & _); apply (Hd z Hy); left).
              assert (y <> x) by (intros ->; apply Hx, elem_of_app; by left).
              split; link_cases.
           ++ split; [link_cases|]. split; [|done]. link_cases.
        -- fold t. repeat split; link_cases.
    + intros y Hy. unfold set_list_next, set_list_prev, node_of.
      apply not_elem_of_cons in Hy as [Hyx Hyl].
      rewrite !lookup_insert_ne by congruence. done.
Qed.

Lemma last_cons {A} (l : list A) x d : List.last (x :: l) d = List.last l x.
Proof.
  revert x d. induction l as [|y l IH]; intros x d; [done|].
  change (List.last (x :: y :: l) d) with (List.last (y :: l) d). by rewrite !IH.
Qed.

(** Relinking the neighbours of a removed element. *)
Lemma seg_unlink st st' l1 x l2 : seg st 0 (l1 ++ x :: l2) 0 -> NoDup (l1 ++ x :: l2) ->
  (forall y, y ∈ l1 ++ l2 ->
     list_next st' y = (if y =? List.last l1 0 then hd 0 l2 else list_next st y) /\
     list_prev st' y = (if y =? hd 0 l2 then List.last l1 0 else list_prev st y)) ->
  0 ∉ l1 ++ x :: l2 -> seg st' 0 (l1 ++ l2) 0.
Proof.
  intros Hs Hnd He Hnz. rewrite seg_app in Hs. destruct Hs as [Hs1 (Hxp & Hxn & Hs2)].
  apply NoDup_app in Hnd as (Hnd1 & Hd & Hnd2). apply NoDup_cons in Hnd2 as [Hx2 Hnd2].
  assert (forall y, y ∈ l1 -> y ∉ l2) as Hdis by (intros y H1 H2; apply (Hd y H1); by right).
  rewrite seg_app. split.
  - destruct (decide (l1 = [])) as [->|Hne]; [done|].
    destruct (exists_last Hne) as (l1' & z & ->). rewrite last_app_cons in He. cbn [List.last] in He.
    rewrite seg_app in *. destruct Hs1 as [Hs1 (Hz1 & Hz2 & _)].
    assert (forall y, y ∈ l1' ++ [z] -> y <> hd 0 l2) as Hh.
    { intros y Hy ->. destruct l2 as [|w l2]; [|by apply (Hdis w Hy); left].
      simpl in Hy. apply Hnz, elem_of_app. by left. }
    split; [|split; [|split; [|done]]].
    + eapply seg_ext; [|exact Hs1]. intros y Hy.
      assert (y ∈ l1' ++ [z]) as Hy' by (apply elem_of_app; by left).
      destruct (He y) as [-> ->]; [apply elem_of_app; by left|].
      assert (y <> z).
      { intros ->. apply NoDup_app in Hnd1 as (_ & Hd1 & _). apply (Hd1 z Hy). left. }
      rewrite !(proj2 (Z.eqb_neq _ _)) by auto. done.
    + assert (z ∈ l1' ++ [z]) as Hz by (apply elem_of_app; right; left).
      destruct (He z) as [_ ->]; [apply elem_of_app; by left|].
      by rewrite (proj2 (Z.eqb_neq _ _)) by auto.
    + assert (z ∈ l1' ++ [z]) as Hz by (apply elem_of_app; right; left).
      destruct (He z) as [-> _]; [apply elem_of_app; by left|]. by rewrite Z.eqb_refl.
  - destruct l2 as [|w l2]; [done|]. cbn [hd] in *. destruct Hs2 as (Hw1 & Hw2 & Hs2).
    assert (forall y, y ∈ w :: l2 -> y <> List.last l1 0) as Hl.
    { intros y Hy ->. destruct (decide (l1 = [])) as [->|Hne].
      - simpl in Hy. apply Hnz, elem_of_app. right. by right.
      - apply (Hdis (List.last l1 0)); [by apply last_in|done]. }
    destruct (He w) as [En Ep]; [apply elem_of_app; right; left|].
    split; [by rewrite Ep, Z.eqb_refl|]. split.
    { rewrite En, (proj2 (Z.eqb_neq _ _)); [done|]. apply Hl. left. }
    eapply seg_ext; [|exact Hs2]. intros y Hy.
    destruct (He y) as [-> ->]; [apply elem_of_app; right; by right|].
    apply NoDup_cons in Hnd2 as [Hw _].
    rewrite !(proj2 (Z.eqb_neq _ _)); [done|by intros ->|]. apply Hl. by right.
Qed.

(** [list_remove] removes the element from the sequence, detaches it, and touches only
    the nodes of the list. *)
Lemma list_remove_rep st d l1 x l2 : rep st d (l1 ++ x :: l2) ->
  let '(st', d') := list_remove st d x in
  rep st' d' (l1 ++ l2) /\ detached st' x /\ same_nodes st st' (l1 ++ x :: l2).
Proof.
  intros [Hh Ht Hs Hnd Hnz]. unfold list_remove.
  pose proof Hs as Hs0. rewrite seg_app in Hs0. destruct Hs0 as [_ (Hxp & Hxn & _)].
  assert (x <> 0) as Hx0 by (intros ->; apply Hnz, elem_of_app; right; left).
  pose proof Hnd as Hnd0. apply NoDup_app in Hnd0 as (Hnd1 & Hd & Hnd2).
  apply NoDup_cons in Hnd2 as [Hx2 Hnd2].
  assert (x ∉ l1) as Hx1 by (intros Hx; apply (Hd x Hx); left).
  assert (List.last l1 0 <> x) as Hlx.
  { intros E. destruct (decide (l1 = [])) as [->|Hne]; [done|].
    apply Hx1. rewrite <- E. by apply last_in. }
  assert (hd 0 l2 <> x) as Hhx.
  { intros E. destruct l2; [done|]. apply Hx2. simpl in E. subst. left. }
  rewrite Hxp, Hxn. remember (List.last l1 0) as p eqn:Ep0. remember (hd 0 l2) as n eqn:En0.
  set (st1 := if nz p then set_list_next st p n else st).
  assert (list_prev st1 x = p /\ list_next st1 x = n) as [Ep1 En1].
  { unfold st1. destruct (nz p); [|done]. split; link_cases. }
  rewrite En1, Ep1.
  set (st2 := if nz n then set_list_prev st1 n p else st1).
  assert (list_prev st2 x = p /\ list_next st2 x = n) as [Ep2 En2].
  { unfold st2. destruct (nz n); [|done]. split; link_cases. }
  rewrite Ep2, En2.
  set (st3 := set_list_next (set_list_prev st2 x 0) x 0).
  assert (forall y, y <> x -> y <> 0 -> list_next st3 y = (if y =? p then n else list_next st y) /\
            list_prev st3 y = (if y =? n then p else list_prev st y)) as Hlinks.
  { intros y Hy Hy0. unfold st3. link_simpl. rewrite !(proj2 (Z.eqb_neq x y)) by congruence.
    unfold st2, st1, nz. destruct (Z.eqb_spec p 0) as [E1|E1], (Z.eqb_spec n 0) as [E2|E2]; cbn [negb];
      split; link_cases. }
  split; [|split].
  - assert ((x ∉ l1 ++ l2) /\ (0 ∉ l1 ++ l2)) as [Hxl H0l].
    { split; intros [?|?]%elem_of_app; [done|done| |]; apply Hnz, elem_of_app; [by left|right; by right]. }
    split.
    + unfold list_head, list_tail. rewrite Hh. destruct l1 as [|a l1]; cbn [app hd].
      * rewrite Z.eqb_refl. destruct (ltail _ =? x); done.
      * rewrite (proj2 (Z.eqb_neq a x)) by (intros ->; apply Hx1; left).
        destruct (ltail d =? x); done.
    + unfold list_head, list_tail.
      assert (ltail (if lhead d =? x then mkDList n (ltail d) else d) = ltail d) as ->
        by (by destruct (lhead d =? x)).
      rewrite Ht, last_app_cons. destruct l2 as [|b l2].
      * cbn [List.last]. rewrite Z.eqb_refl. cbn [ltail]. by rewrite app_nil_r.
      * rewrite last_cons, last_app_cons.
        assert (List.last (b :: l2) x = List.last (b :: l2) 0) as E by (by apply last_default).
        assert (List.last (b :: l2) x <> x) as Hne.
        { intros E2. apply Hx2. rewrite <- E2. by apply last_in. }
        rewrite (proj2 (Z.eqb_neq _ _)) by done. destruct (lhead d =? x); cbn [ltail];
          [done|by rewrite Ht, last_app_cons, last_cons].
    + apply (seg_unlink st st3 l1 x l2 Hs Hnd); [|done].
      rewrite <- Ep0, <- En0. intros y Hy. apply Hlinks; congruence.
    + apply NoDup_app. split; [done|]. split; [|done]. intros y H1 H2. apply (Hd y H1). by right.
    + done.
  - split; unfold st3; link_cases.
  - intros y Hy.
    assert (y <> x /\ (y ∉ l1) /\ (y ∉ l2)) as (Hyx & Hy1 & Hy2).
    { split; [intros ->; apply Hy, elem_of_app; right; left|].
      split; intros ?; apply Hy, elem_of_app; [by left|right; by right]. }
    assert (nz p = true -> p <> y) as Hp.
    { intros Hp E. destruct (decide (l1 = [])) as [->|Hne]; [by rewrite Ep0 in Hp|].
      apply Hy1. rewrite <- E, Ep0. by apply last_in. }
    assert (nz n = true -> n <> y) as Hn.
    { intros Hn E. destruct (decide (l2 = [])) as [->|Hne]; [by rewrite En0 in Hn|].
      apply Hy2. rewrite <- E, En0. by apply hd_in. }
    unfold st3, st2, st1, set_list_next, set_list_prev, node_of.
    destruct (nz p), (nz n); rewrite !lookup_insert_ne by auto; done.
Qed.

(** A loop that removes the elements satisfying a predicate and collects them. *)
Definition remove_if (p : Z -> bool) (it : Z) (s : nodes * dlist * list Z)
    : nodes * dlist * list Z :=
  let '(st, d, out) := s in
  if p it then let '(st, d) := list_remove st d it in (st, d, out ++ [it]) else s.

Lemma rep_next st d l1 x l2 : rep st d (l1 ++ x :: l2) -> list_next st x = hd 0 l2.
Proof. intros [_ _ Hs _ _]. rewrite seg_app in Hs. by destruct Hs as [_ (_ & Hn & _)]. Qed.

Lemma foreach_remove_from p : forall r kept st d out fuel, rep st d (kept ++ r) ->
  (length r < fuel)%nat ->
  exists st' d', foreach_from (remove_if p) fuel (hd 0 r) (hd 0 (tail r)) (st, d, out)
      = Ret (st', d', out ++ filter (fun x => p x) r) /\
    rep st' d' (kept ++ filter (fun x => ~ p x) r) /\
    same_nodes st st' (kept ++ r) /\ (forall x, x ∈ r -> p x = true -> detached st' x).
Proof.
  induction r as [|x r IH]; intros kept st d out fuel Hr Hf;
    (destruct fuel as [|fuel]; [simpl in Hf; lia|]); cbn [foreach_from hd tail].
  { exists st, d. rewrite !filter_nil, !app_nil_r in *. split; [done|]. split; [done|].
    split; [done|]. intros x Hx. by apply elem_of_nil in Hx. }
  assert (x <> 0) as Hx0 by (intros ->; apply (rep_nz _ _ _ Hr), elem_of_app; right; left).
  rewrite nz_true by done. cbn [remove_if]. simpl in Hf.
  assert (forall st1 d1 k, rep st1 d1 (k ++ r) ->
            (if nz (hd 0 r) then list_next st1 (hd 0 r) else 0) = hd 0 (tail r)) as Hnext.
  { intros st1 d1 k H1. destruct r as [|y r]; [done|]. cbn [hd tail].
    rewrite nz_true; [by eapply rep_next|].
    intros ->. apply (rep_nz _ _ _ H1), elem_of_app. right. left. }
  destruct (p x) eqn:Ep.
  - pose proof (list_remove_rep st d kept x r Hr) as Hrm.
    destruct (list_remove st d x) as [st1 d1]. destruct Hrm as (Hr1 & Hdet & Hsame).
    rewrite (Hnext st1 d1 kept) by done.
    destruct (IH kept st1 d1 (out ++ [x]) fuel Hr1) as (st' & d' & E & Hr' & Hs' & Hd'); [lia|].
    exists st', d'. rewrite E. rewrite filter_cons_True, filter_cons_False by (rewrite Ep; simpl; tauto).
    rewrite <- app_assoc. split; [done|]. split; [done|]. split.
    + intros y Hy. rewrite Hs', Hsame; [done|done|].
      intros [?|?]%elem_of_app; apply Hy, elem_of_app; [by left|right; by right].
    + intros y [->|Hy]%elem_of_cons Hp; [|by apply Hd'].
      unfold detached, list_next, list_prev. rewrite Hs'; [apply Hdet|].
      pose proof (rep_nodup _ _ _ Hr) as Hnd. apply NoDup_app in Hnd as (_ & Hd & Hnd).
      apply NoDup_cons in Hnd as [Hn _]. intros [H1|H1]%elem_of_app; [|done]. apply (Hd _ H1). left.
  - rewrite (Hnext st d (kept ++ [x])) by (by rewrite <- app_assoc).
    destruct (IH (kept ++ [x]) st d out fuel) as (st' & d' & E & Hr' & Hs' & Hd');
      [by rewrite <- app_assoc|lia|].
    exists st', d'. rewrite E. rewrite filter_cons_False, filter_cons_True by (rewrite Ep; simpl; tauto).
    rewrite <- app_assoc in *. split; [done|]. split; [done|]. split; [done|].
    intros y [->|Hy]%elem_of_cons Hp; [congruence|by apply Hd'].
Qed.

(** C29: The macros of [list.h] implement sequences. On a list that represents [l]:
    appending a detached element yields [l ++ [x]]; removing an element takes exactly that
    element out and detaches it; a [list_foreach] whose body removes elements visits every
    element once, in order, and leaves exactly the others. None of them touches a node
    outside the list. *)
Theorem dlist_refines (st : nodes) (d : dlist) (l : list Z) : rep st d l ->
  (list_empty d = true <-> l = []) /\
  (forall x, detached st x -> x ∉ l -> x <> 0 ->
     let '(st', d') := list_append st d x in
     rep st' d' (l ++ [x]) /\ same_nodes st st' (x :: l)) /\
  (forall l1 x l2, l = l1 ++ x :: l2 ->
     let '(st', d') := list_remove st d x in
     rep st' d' (l1 ++ l2) /\ detached st' x /\ same_nodes st st' l) /\
  (forall p fuel, (length l < fuel)%nat -> exists st' d',
     list_foreach (remove_if p) fuel (st, d, []) = Ret (st', d', filter (fun x => p x) l) /\
     rep st' d' (filter (fun x => ~ p x) l) /\ same_nodes st st' l /\
     (forall x, x ∈ l -> p x = true -> detached st' x)).
Proof.
  intros Hr. split; [|split; [|split]].
  - unfold list_empty. rewrite (rep_head _ _ _ Hr). destruct l as [|x l]; [done|].
    cbn [hd]. split; [|done]. intros ->%Z.eqb_eq. destruct (rep_nz _ _ _ Hr). left.
  - intros. by apply list_append_rep.
  - intros l1 x l2 ->. by apply list_remove_rep.
  - intros p fuel Hf. unfold list_foreach, list_head. rewrite (rep_head _ _ _ Hr).
    destruct (foreach_remove_from p l [] st d [] fuel Hr Hf) as (st' & d' & E & Hr' & Hs & Hd).
    exists st', d'. split; [|done]. cbn [app] in E. rewrite <- E. f_equal.
    destruct l as [|x l]; [done|].
    cbn [hd tail]. rewrite nz_true; [by apply (rep_next st d [] x l)|].
    intros ->. apply (rep_nz _ _ _ Hr). left.
Qed.

Lemma dlist_refines_witness : exists st d,
  rep st d [8; 16; 24] /\
  (let '(st', d') := list_remove st d 16 in rep st' d' [8; 24] /\ detached st' 16).
Proof.
  exists (<[8 := mkNode 16 0]> (<[16 := mkNode 24 8]> (<[24 := mkNode 0 16]> ∅))), (mkDList 8 24).
  assert (rep (<[8 := mkNode 16 0]> (<[16 := mkNode 24 8]> (<[24 := mkNode 0 16]> ∅))) (mkDList 8 24)
            [8; 16; 24]) as Hr.
  { split; try reflexivity.
    - repeat split.
    - apply (bool_decide_unpack (NoDup [8; 16; 24])). vm_compute. exact I.
    - apply (bool_decide_unpack (0 ∉ [8; 16; 24])). vm_compute. exact I. }
  split; [exact Hr|].
  destruct (dlist_refines _ _ _ Hr) as (_ & _ & Hrm & _).
  specialize (Hrm [8] 16 [24] eq_refl). destruct (list_remove _ _ _) as [st' d'].
  split; [exact (proj1 Hrm)|exact (proj1 (proj2 Hrm))].
Defined.
