(* ===== verification/Sched.v ===== *)
(** [kernel/scheduler.c]: tasks, the three queues, task switching and the scheduling
    system calls. A queue is the sequence its linked list represents ([DList.v]); a
    task is addressed by the pointer [kmalloc] returned for it. [switch_context] never
    returns: an operation that ends in it answers the state the machine is switched
    with. *)
From S2P Require Import Prelude Util Pmm Locks.

Definition KERNEL_CODE_SEG : Z := 0x08.
Definition KERNEL_DATA_SEG : Z := 0x10.
Definition USER_CODE_SEG : Z := 0x18.
Definition USER_DATA_SEG : Z := 0x20.
Definition RPL3 : Z := 0x3.
Definition USER_STACK : Z := 0xBFFFC000.
Definition KERNEL_STACK : Z := 0xBFFFE000.
Definition TASK_NAME_MAX : Z := 32.
Definition INVALID_PID : Z := -1.
Definition INVALID_PORT : Z := -1.
Definition SLEEP_INFINITE : Z := 0xFFFFFFFF.
Definition DEBUG_PORT : Z := 0xE9.
Definition MAX_PID : Z := 64.
(** [sizeof(iomap)]: one bit per port. *)
Definition IOMAP_BYTES : nat := Z.to_nat (65536 / 8).

(** [struct context] *)
Record context : Type := mkCtx {
  c_cs : Z; c_ds : Z; c_ss : Z; c_cr3 : Z; c_esp : Z; c_eflags : Z; c_eip : Z;
  c_edi : Z; c_esi : Z; c_edx : Z; c_ecx : Z; c_ebx : Z; c_eax : Z; c_ebp : Z
}.
Definition zero_context : context := mkCtx 0 0 0 0 0 0 0 0 0 0 0 0 0 0.

(** [struct isr_regs] *)
Record isr_regs : Type := mkRegs {
  r_ds : Z; r_edi : Z; r_esi : Z; r_ebp : Z; r_esp : Z; r_ebx : Z; r_edx : Z; r_ecx : Z;
  r_eax : Z; r_int_no : Z; r_err_code : Z; r_eip : Z; r_cs : Z; r_eflags : Z; r_useresp : Z;
  r_ss : Z
}.

(** [struct task]; the list node is the task's place in a queue. *)
Record task : Type := mkTask {
  t_pid : Z;
  t_name : list Z;
  t_pagedir : Z;
  t_context : context;
  t_iomap : list Z;
  t_wait_canrecv_port : Z;
  t_wait_cansend_port : Z;
  t_sleep_deadline : Z
}.

Definition set_context (t : task) (c : context) : task :=
  mkTask (t_pid t) (t_name t) (t_pagedir t) c (t_iomap t) (t_wait_canrecv_port t)
    (t_wait_cansend_port t) (t_sleep_deadline t).
Definition set_name (t : task) (n : list Z) : task :=
  mkTask (t_pid t) n (t_pagedir t) (t_context t) (t_iomap t) (t_wait_canrecv_port t)
    (t_wait_cansend_port t) (t_sleep_deadline t).
Definition set_iomap (t : task) (m : list Z) : task :=
  mkTask (t_pid t) (t_name t) (t_pagedir t) (t_context t) m (t_wait_canrecv_port t)
    (t_wait_cansend_port t) (t_sleep_deadline t).
Definition set_wait (t : task) (canrecv cansend deadline : Z) : task :=
  mkTask (t_pid t) (t_name t) (t_pagedir t) (t_context t) (t_iomap t) canrecv cansend deadline.

(** What the scheduler calls in the rest of the kernel: the allocator for task
    structures ([kmalloc.c]), address spaces ([vmm.c]), frames ([pmm.c]), the initial
    ram disk and the ELF loader. *)
Class TaskEnv (E : Type) : Type := {
  kmalloc_task : E -> outcome (Z * E);
  kfree_task : E -> Z -> outcome E;
  vmm_clone_pagedir : E -> outcome (Z * E);
  vmm_destroy_pagedir : E -> Z -> outcome E;
  vmm_copy_kernel_mappings : E -> Z -> outcome E;
  vmm_get_physical : E -> Z -> Z;
  vmm_reset_current_pagedir : E -> outcome E;
  map_new_page : E -> Z -> Z -> outcome E;
  initrd_get_file : E -> list Z -> option Z;
  load_elf : E -> Z -> outcome (Z * E);
  (** The task structures currently allocated. *)
  owned : E -> Z -> Prop
}.

(** What it relies on: a new task structure is fresh, and the other operations do not
    touch the task structures. *)
Class TaskEnvLaws (E : Type) `{TaskEnv E} : Prop := {
  kmalloc_fresh e p e' : kmalloc_task e = Ret (p, e') ->
    p <> 0 /\ ~ owned e p /\ forall q, owned e' q <-> q = p \/ owned e q;
  kfree_drops e p e' : kfree_task e p = Ret e' -> forall q, owned e' q <-> owned e q /\ q <> p;
  clone_keeps e p e' : vmm_clone_pagedir e = Ret (p, e') -> forall q, owned e' q <-> owned e q;
  destroy_keeps e p e' : vmm_destroy_pagedir e p = Ret e' -> forall q, owned e' q <-> owned e q;
  copy_keeps e p e' : vmm_copy_kernel_mappings e p = Ret e' -> forall q, owned e' q <-> owned e q;
  reset_keeps e e' : vmm_reset_current_pagedir e = Ret e' -> forall q, owned e' q <-> owned e q;
  map_keeps e va fl e' : map_new_page e va fl = Ret e' -> forall q, owned e' q <-> owned e q;
  load_keeps e f p e' : load_elf e f = Ret (p, e') -> forall q, owned e' q <-> owned e q
}.

(** The static variables of the file, the flags register, what [task_switch] programs
    into the TSS, and the context the processor runs. *)
Record sched (E : Type) : Type := mkSched {
  tasks : gmap Z task;
  ready_queue : list Z;
  sleeping_queue : list Z;
  exited_queue : list Z;
  next_pid_value : Z;
  current_task : Z;
  idle_task : Z;
  s_eflags : Z;
  s_env : E;
  tss_esp0 : Z;
  tss_iomap : list Z;
  cpu : context
}.
Arguments mkSched {E}.
Arguments tasks {E}. Arguments ready_queue {E}. Arguments sleeping_queue {E}.
Arguments exited_queue {E}. Arguments next_pid_value {E}. Arguments current_task {E}.
Arguments idle_task {E}. Arguments s_eflags {E}. Arguments s_env {E}. Arguments tss_esp0 {E}.
Arguments tss_iomap {E}. Arguments cpu {E}.

(** How an operation that may not come back ends. *)
Inductive ending : Type :=
| Returns (value : Z)
| Switched
| Rebooted.

(** ** The I/O permission map *)
Definition task_iomap_set (iomap : list Z) (port allow : Z) : outcome (list Z) :=
  _ ← c_assert ((0 <=? port) && (port <? 65536));
  let idx := Z.to_nat (port / 8) in
  let mask := u8 (Z.shiftl 1 (port mod 8)) in
  b ← of_option FMem (iomap !! idx);
  Ret (<[idx := if nz allow then Z.land b (u8 (Z.lnot mask)) else Z.lor b mask]> iomap).

Definition task_iomap_test (iomap : list Z) (port : Z) : outcome bool :=
  _ ← c_assert ((0 <=? port) && (port <? 65536));
  let idx := Z.to_nat (port / 8) in
  let mask := u8 (Z.shiftl 1 (port mod 8)) in
  b ← of_option FMem (iomap !! idx);
  Ret (nz (Z.land b mask)).

Section scheduler.
Context {E : Type} `{TaskEnv E}.

Definition with_tasks (s : sched E) (ts : gmap Z task) : sched E :=
  mkSched ts (ready_queue s) (sleeping_queue s) (exited_queue s) (next_pid_value s)
    (current_task s) (idle_task s) (s_eflags s) (s_env s) (tss_esp0 s) (tss_iomap s) (cpu s).
Definition with_queues (s : sched E) (r sl ex : list Z) : sched E :=
  mkSched (tasks s) r sl ex (next_pid_value s)
    (current_task s) (idle_task s) (s_eflags s) (s_env s) (tss_esp0 s) (tss_iomap s) (cpu s).
Definition with_env (s : sched E) (e : E) : sched E :=
  mkSched (tasks s) (ready_queue s) (sleeping_queue s) (exited_queue s) (next_pid_value s)
    (current_task s) (idle_task s) (s_eflags s) e (tss_esp0 s) (tss_iomap s) (cpu s).
Definition with_current (s : sched E) (t : Z) : sched E :=
  mkSched (tasks s) (ready_queue s) (sleeping_queue s) (exited_queue s) (next_pid_value s)
    t (idle_task s) (s_eflags s) (s_env s) (tss_esp0 s) (tss_iomap s) (cpu s).
Definition with_idle (s : sched E) (t : Z) : sched E :=
  mkSched (tasks s) (ready_queue s) (sleeping_queue s) (exited_queue s) (next_pid_value s)
    (current_task s) t (s_eflags s) (s_env s) (tss_esp0 s) (tss_iomap s) (cpu s).
Definition with_pid (s : sched E) (n : Z) : sched E :=
  mkSched (tasks s) (ready_queue s) (sleeping_queue s) (exited_queue s) n
    (current_task s) (idle_task s) (s_eflags s) (s_env s) (tss_esp0 s) (tss_iomap s) (cpu s).
Definition with_tss (s : sched E) (esp0 : Z) (iomap : list Z) : sched E :=
  mkSched (tasks s) (ready_queue s) (sleeping_queue s) (exited_queue s) (next_pid_value s)
    (current_task s) (idle_task s) (s_eflags s) (s_env s) esp0 iomap (cpu s).
Definition with_cpu (s : sched E) (c : context) : sched E :=
  mkSched (tasks s) (ready_queue s) (sleeping_queue s) (exited_queue s) (next_pid_value s)
    (current_task s) (idle_task s) (s_eflags s) (s_env s) (tss_esp0 s) (tss_iomap s) c.

(** Dereference a task pointer. *)
Definition deref (s : sched E) (t : Z) : outcome task := of_option FMem (tasks s !! t).
Definition update (s : sched E) (t : Z) (f : task -> task) : outcome (sched E) :=
  tk ← deref s t; Ret (with_tasks s (<[t := f tk]> (tasks s))).

Definition append_ready (s : sched E) (t : Z) : sched E :=
  with_queues s (ready_queue s ++ [t]) (sleeping_queue s) (exited_queue s).
Definition append_sleeping (s : sched E) (t : Z) : sched E :=
  with_queues s (ready_queue s) (sleeping_queue s ++ [t]) (exited_queue s).
Definition append_exited (s : sched E) (t : Z) : sched E :=
  with_queues s (ready_queue s) (sleeping_queue s) (exited_queue s ++ [t]).
Definition remove_task (t : Z) (q : list Z) : list Z := filter (fun x => x <> t) q.

Definition irqs_off (s : sched E) : outcome unit :=
  c_assert (negb (interrupts_enabled (s_eflags s))).

(** ** Saving and switching *)
Definition save_context (c : context) (regs : isr_regs) : outcome context :=
  let mask := u32 (Z.lnot 0x3) in
  esp ← (if Z.land (r_cs regs) mask =? KERNEL_CODE_SEG then Ret (u32 (r_esp regs + 20))
         else if Z.land (r_cs regs) mask =? USER_CODE_SEG then Ret (r_useresp regs)
         else Fault FPanic);
  Ret (mkCtx (r_cs regs) (r_ds regs) (r_ds regs) (c_cr3 c) esp (r_eflags regs) (r_eip regs)
         (r_edi regs) (r_esi regs) (r_edx regs) (r_ecx regs) (r_ebx regs) (r_eax regs)
         (r_ebp regs)).

Definition save_task_state (s : sched E) (t : Z) (regs : isr_regs) : outcome (sched E) :=
  tk ← deref s t;
  c ← save_context (t_context tk) regs;
  update s t (fun tk => set_context tk c).

Definition save_current_task_state (s : sched E) (regs : isr_regs) : outcome (sched E) :=
  _ ← c_assert (nz (current_task s));
  _ ← irqs_off s;
  save_task_state s (current_task s) regs.

(** One queue of [scheduler_perform_checks]; the accumulator is [encountered_pids]. *)
Fixpoint check_queue (s : sched E) (q : list Z) (encountered_pids : Z) : outcome Z :=
  match q with
  | [] => Ret encountered_pids
  | t :: q =>
      tk ← deref s t;
      _ ← c_assert (negb (t =? current_task s) && negb (t =? idle_task s));
      _ ← c_assert (negb (BITTEST64 encountered_pids (t_pid tk)));
      check_queue s q (BITSET64 encountered_pids (t_pid tk))
  end.

Definition scheduler_perform_checks (s : sched E) : outcome unit :=
  p ← check_queue s (ready_queue s) 0;
  p ← check_queue s (sleeping_queue s) p;
  _ ← check_queue s (exited_queue s) p;
  Ret tt.

Definition task_switch (s : sched E) (t : Z) : outcome (sched E) :=
  _ ← c_assert (nz t);
  _ ← irqs_off s;
  let s := with_current s t in
  _ ← scheduler_perform_checks s;
  tk ← deref s t;
  e ← vmm_copy_kernel_mappings (s_env s) (t_pagedir tk);
  let s := with_tss (with_env s e) (KERNEL_STACK + PAGE_SIZE) (t_iomap tk) in
  Ret (with_cpu s (t_context tk)).

(** The first sleeping task whose deadline has passed. *)
Fixpoint find_expired (s : sched E) (now : Z) (q : list Z) : outcome Z :=
  match q with
  | [] => Ret 0
  | t :: q =>
      tk ← deref s t;
      if nz (t_sleep_deadline tk) && (t_sleep_deadline tk <=? now) then Ret t
      else find_expired s now q
  end.

Definition task_switch_next (s : sched E) (now : Z) : outcome (sched E) :=
  next_task ← find_expired s now (sleeping_queue s);
  let s := if nz next_task
           then with_queues s (ready_queue s) (remove_task next_task (sleeping_queue s))
                  (exited_queue s)
           else s in
  let '(next_task, s) :=
    if nz next_task then (next_task, s)
    else match ready_queue s with
         | [] => (0, s)
         | t :: _ => (t, with_queues s (remove_task t (ready_queue s)) (sleeping_queue s)
                           (exited_queue s))
         end in
  let next_task := if nz next_task then next_task else idle_task s in
  task_switch s next_task.

(** ** The timer *)
Fixpoint collect_exited (s : sched E) (q : list Z) : outcome (sched E) :=
  match q with
  | [] => Ret s
  | t :: q =>
      tk ← deref s t;
      let s := with_queues s (ready_queue s) (sleeping_queue s)
                 (remove_task t (exited_queue s)) in
      e ← vmm_destroy_pagedir (s_env s) (t_pagedir tk);
      e ← kfree_task e t;
      collect_exited (with_tasks (with_env s e) (delete t (tasks s))) q
  end.

(** The loop that looks for a deadline; it stores [false] in [may_wakeup] in any case. *)
Fixpoint may_wakeup_loop (s : sched E) (q : list Z) (may_wakeup : bool) : outcome bool :=
  match q with
  | [] => Ret may_wakeup
  | t :: q =>
      tk ← deref s t;
      if negb (t_sleep_deadline tk =? 0) then Ret false else may_wakeup_loop s q may_wakeup
  end.

Definition scheduler_timer (s : sched E) (regs : isr_regs) (now : Z)
    : outcome (sched E * ending) :=
  _ ← c_assert (nz (current_task s));
  s ← save_task_state s (current_task s) regs;
  _ ← scheduler_perform_checks s;
  let s := if negb (current_task s =? idle_task s)
           then append_ready s (current_task s) else s in
  s ← collect_exited s (exited_queue s);
  moretasks ←
    match ready_queue s, sleeping_queue s with
    | [], [] => Ret false
    | [], sq => may_wakeup ← may_wakeup_loop s sq false; Ret (may_wakeup : bool)
    | _, _ => Ret true
    end;
  if (moretasks : bool) then s ← task_switch_next s now; Ret (s, Switched)
  else Ret (s, Rebooted).

(** ** Tasks *)
Definition task_create (s : sched E) (name : list Z) : outcome (Z * sched E) :=
  '(t, e) ← kmalloc_task (s_env s);
  iomap ← task_iomap_set (replicate IOMAP_BYTES 0xFF) DEBUG_PORT 1;
  let pid := next_pid_value s in
  let s := with_pid s (s32 (pid + 1)) in
  _ ← c_assert (pid <? MAX_PID);
  '(pagedir, e) ← vmm_clone_pagedir e;
  let tk := mkTask pid (take (Z.to_nat (TASK_NAME_MAX - 1)) name) pagedir zero_context iomap 0 0 0 in
  Ret (t, with_env (with_tasks s (<[t := tk]> (tasks s))) e).

Fixpoint find_pid (s : sched E) (pid : Z) (q : list Z) : outcome Z :=
  match q with
  | [] => Ret 0
  | t :: q => tk ← deref s t; if t_pid tk =? pid then Ret t else find_pid s pid q
  end.

Definition task_get (s : sched E) (pid : Z) : outcome Z :=
  idle ← deref s (idle_task s);
  if pid =? t_pid idle then Ret (idle_task s)
  else
    cur ← deref s (current_task s);
    if pid =? t_pid cur then Ret (current_task s)
    else
      t ← find_pid s pid (ready_queue s);
      if nz t then Ret t else find_pid s pid (sleeping_queue s).

Definition task_wake (s : sched E) (pid : Z) : outcome (sched E) :=
  _ ← irqs_off s;
  t ← task_get s pid;
  _ ← c_assert (nz t);
  if decide (t ∈ sleeping_queue s) then
    let s := with_queues s (ready_queue s) (remove_task t (sleeping_queue s)) (exited_queue s) in
    Ret (append_ready s t)
  else if decide (t ∈ ready_queue s) then Ret s
  else
    cur ← deref s (current_task s);
    idle ← deref s (idle_task s);
    if (pid =? t_pid cur) || (pid =? t_pid idle) then Ret s else Fault FPanic.

(** The body of the loop over the sleeping queue; the iteration follows the queue as
    it was, since the successor is read before the body removes the task. *)
Fixpoint wake_waiting (s : sched E) (port_number : Z) (q : list Z) : outcome (sched E) :=
  match q with
  | [] => Ret s
  | t :: q =>
      tk ← deref s t;
      s ← (if t_wait_cansend_port tk =? port_number then task_wake s (t_pid tk) else Ret s);
      wake_waiting s port_number q
  end.
Definition wake_tasks_waiting_for_port (s : sched E) (port_number : Z) : outcome (sched E) :=
  _ ← irqs_off s;
  wake_waiting s port_number (sleeping_queue s).

Definition current_task_name (s : sched E) : outcome (option (list Z)) :=
  _ ← irqs_off s;
  if nz (current_task s) then tk ← deref s (current_task s); Ret (Some (t_name tk)) else Ret None.
Definition current_task_set_name (s : sched E) (name : list Z) : outcome (sched E) :=
  _ ← irqs_off s;
  update s (current_task s) (fun tk => set_name tk (take (Z.to_nat (TASK_NAME_MAX - 1)) name)).
Definition current_task_pid (s : sched E) : outcome Z :=
  _ ← irqs_off s;
  if nz (current_task s) then tk ← deref s (current_task s); Ret (t_pid tk) else Ret INVALID_PID.
(** [struct task_info]: the pid and the name. *)
Definition get_task_info (s : sched E) (pid : Z) : outcome (option (Z * list Z)) :=
  _ ← irqs_off s;
  t ← task_get s pid;
  if nz t then tk ← deref s t; Ret (Some (pid, take 63 (t_name tk))) else Ret None.

(** ** System calls *)
Definition syscall_yield_handler (s : sched E) (now : Z) : outcome (sched E * ending) :=
  s ← task_switch_next (append_ready s (current_task s)) now; Ret (s, Switched).

Definition syscall_fork_handler (s : sched E) (regs : isr_regs) : outcome (sched E * ending) :=
  cur ← deref s (current_task s);
  '(t, s) ← task_create s (t_name cur);
  s ← save_task_state s t regs;
  tk ← deref s t;
  let c := t_context tk in
  let cr3 := vmm_get_physical (s_env s) (t_pagedir tk) in
  s ← update s t (fun tk => set_context tk
    (mkCtx (c_cs c) (c_ds c) (c_ss c) cr3 (c_esp c) (c_eflags c) (c_eip c) (c_edi c) (c_esi c)
       (c_edx c) (c_ecx c) (c_ebx c) 0 (c_ebp c)));
  Ret (append_ready s t, Returns (t_pid tk)).

Definition syscall_exit_handler (s : sched E) (now : Z) : outcome (sched E * ending) :=
  s ← task_switch_next (append_exited s (current_task s)) now; Ret (s, Switched).

Definition syscall_block_handler (s : sched E) (now : Z) : outcome (sched E * ending) :=
  s ← task_switch_next (append_sleeping s (current_task s)) now; Ret (s, Switched).

(** [task_block]: the nested [syscall(SYSCALL_BLOCK)] saves the kernel-mode registers
    [regs] of the caller and runs the block handler. *)
Definition task_block (s : sched E) (canrecv_port cansend_port timeout now : Z)
    (regs : isr_regs) : outcome (sched E * ending) :=
  _ ← irqs_off s;
  let deadline := if negb (timeout =? SLEEP_INFINITE) then 0 else u64 (now + timeout) in
  s ← update s (current_task s) (fun tk => set_wait tk canrecv_port cansend_port deadline);
  s ← save_current_task_state s regs;
  syscall_block_handler s now.

Definition syscall_sleep_handler (s : sched E) (millis now : Z) (regs : isr_regs)
    : outcome (sched E * ending) :=
  task_block s INVALID_PORT INVALID_PORT millis now regs.

(** The file name is the string at [ebx]; the second component is the register frame
    the call returns with. *)
Definition syscall_exec_handler (s : sched E) (filename : list Z) (regs : isr_regs)
    : outcome (sched E * isr_regs * ending) :=
  _ ← c_assert (negb (bool_decide (filename = [])));
  match initrd_get_file (s_env s) filename with
  | None => Ret (s, regs, Returns 0)
  | Some file =>
      let filename_buf := take 63 filename in
      e ← vmm_reset_current_pagedir (s_env s);
      '(entry, e) ← load_elf e file;
      s ← current_task_set_name (with_env s e) filename_buf;
      let top := USER_STACK + PAGE_SIZE in
      let regs := mkRegs (r_ds regs) (r_edi regs) (r_esi regs) (r_ebp regs) top (r_ebx regs)
        (r_edx regs) (r_ecx regs) (r_eax regs) (r_int_no regs) (r_err_code regs) entry
        (r_cs regs) (Z.lor (s_eflags s) EFLAGS_IF) top (r_ss regs) in
      pid ← current_task_pid s;
      t ← task_get s pid;
      _ ← c_assert (t =? current_task s);
      tk ← deref s t;
      _ ← c_assert (bool_decide (t_name tk = filename_buf));
      Ret (s, regs, Returns 0)
  end.

Definition syscall_hwportopen_handler (s : sched E) (port : Z) : outcome (sched E * ending) :=
  tk ← deref s (current_task s);
  iomap ← task_iomap_set (t_iomap tk) (s32 port) 1;
  s ← update s (current_task s) (fun tk => set_iomap tk iomap);
  Ret (with_tss s (tss_esp0 s) iomap, Returns 0).

Definition jump_to_usermode (s : sched E) (user_entry : Z) : outcome (sched E * ending) :=
  tk ← deref s (current_task s);
  e ← map_new_page (s_env s) USER_STACK 7;
  let c := t_context tk in
  let ds := Z.lor USER_DATA_SEG RPL3 in
  let c := mkCtx (Z.lor USER_CODE_SEG RPL3) ds ds (c_cr3 c) (USER_STACK + PAGE_SIZE)
             (Z.lor (c_eflags c) EFLAGS_IF) user_entry (c_edi c) (c_esi c) (c_edx c) (c_ecx c)
             (c_ebx c) (c_eax c) (c_ebp c) in
  s ← update (with_env s e) (current_task s) (fun tk => set_context tk c);
  Ret (with_cpu s c, Switched).

(** The context of the tasks [scheduler_start] creates. *)
Definition kernel_context (cr3 eflags entry : Z) : context :=
  mkCtx KERNEL_CODE_SEG KERNEL_DATA_SEG KERNEL_DATA_SEG cr3 (KERNEL_STACK + PAGE_SIZE)
    (Z.lor eflags EFLAGS_IF) entry 0 0 0 0 0 0 0.

Definition scheduler_start (e : E) (eflags kernel_task_entry idle_task_entry : Z)
    (kernel_task_name idle_task_name : list Z) : outcome (sched E * ending) :=
  let s := mkSched ∅ [] [] [] 0 0 0 eflags e 0 (replicate IOMAP_BYTES 0xFF) zero_context in
  e ← map_new_page (s_env s) KERNEL_STACK 3;
  let s := with_tss (with_env s e) (KERNEL_STACK + PAGE_SIZE) (tss_iomap s) in
  '(t0, s) ← task_create s kernel_task_name;
  tk0 ← deref s t0;
  s ← update s t0 (fun tk => set_context tk
        (kernel_context (vmm_get_physical (s_env s) (t_pagedir tk0)) eflags kernel_task_entry));
  '(t1, s) ← task_create s idle_task_name;
  tk1 ← deref s t1;
  s ← update s t1 (fun tk => set_context tk
        (kernel_context (vmm_get_physical (s_env s) (t_pagedir tk1)) eflags idle_task_entry));
  s ← task_switch (with_idle s t1) t0;
  Ret (s, Switched).
End scheduler.
