(* ===== verification/SchedSpec.v ===== *)
(** Invariants and behaviour of the scheduler modelled in [Sched.v]. *)
From S2P Require Import Prelude Util Pmm Locks Sched.

(** ** The queue checks *)

(** The mask of [1 << pid], an [int] widened to 64 bits: bit 31 stands for all the high
    bits, and a shift by 32 or more wraps. *)
Definition pid_mask (pid : Z) : Z := u64 (int_bit pid).

Definition mask_table_ok (p n : nat) : bool :=
  Bool.eqb (Z.testbit (pid_mask (Z.of_nat p)) (Z.of_nat n))
    (Z.min (Z.of_nat n) 31 =? Z.of_nat p mod 32).

Lemma mask_table : forallb (fun p => forallb (mask_table_ok p) (seq 0 64)) (seq 0 64) = true.
Proof. vm_compute. reflexivity. Qed.

Lemma pid_mask_bits p n : 0 <= p < 64 -> 0 <= n < 64 ->
  Z.testbit (pid_mask p) n = (Z.min n 31 =? p mod 32).
Proof.
  intros Hp Hn. pose proof mask_table as H. rewrite forallb_forall in H.
  specialize (H (Z.to_nat p)). rewrite forallb_forall in H.
  assert (In (Z.to_nat p) (seq 0 64)) as Hi by (apply in_seq; lia).
  specialize (H Hi (Z.to_nat n)). assert (In (Z.to_nat n) (seq 0 64)) as Hj by (apply in_seq; lia).
  apply H in Hj. apply eqb_prop in Hj. by rewrite !Z2Nat.id in Hj by lia.
Qed.

(** The accumulator records the pids seen, modulo 32. *)
Definition seen_ok (enc : Z) (seen : list Z) : Prop :=
  0 <= enc < 2 ^ 64 /\ forall n, 0 <= n < 64 -> Z.testbit enc n = bool_decide (Z.min n 31 ∈ seen).

Lemma bittest_seen enc seen pid : seen_ok enc seen -> 0 <= pid < 64 ->
  BITTEST64 enc pid = bool_decide (pid mod 32 ∈ seen).
Proof.
  intros [Hr Hb] Hp. unfold BITTEST64. fold (pid_mask pid).
  pose proof (Z.mod_pos_bound pid 32 ltac:(lia)).
  case_bool_decide as Hin.
  - apply nz_true. intros H0.
    assert (Z.testbit (Z.land enc (pid_mask pid)) (pid mod 32) = false) as Hf by (by rewrite H0, Z.bits_0).
    rewrite Z.land_spec, Hb, pid_mask_bits in Hf by lia.
    rewrite Z.min_l, Z.eqb_refl, andb_true_r in Hf by lia. by rewrite bool_decide_eq_false in Hf.
  - apply nz_false. apply Z.bits_inj'. intros n Hn. rewrite Z.land_spec, Z.bits_0.
    destruct (Z.lt_ge_cases n 64).
    + rewrite Hb, pid_mask_bits by lia. destruct (Z.min n 31 =? pid mod 32) eqn:E; breflect.
      * rewrite E. rewrite bool_decide_eq_false_2 by done. done.
      * apply andb_false_r.
    + by rewrite (testbit_range enc 64) by lia.
Qed.

Lemma bitset_seen enc seen pid : seen_ok enc seen -> 0 <= pid < 64 ->
  seen_ok (BITSET64 enc pid) (pid mod 32 :: seen).
Proof.
  intros [Hr Hb] Hp. unfold BITSET64. fold (pid_mask pid). split.
  - apply lor_range; [lia|done|]. apply (wrap_range 64). lia.
  - intros n Hn. rewrite Z.lor_spec, Hb, pid_mask_bits by lia.
    destruct (Z.min n 31 =? pid mod 32) eqn:E; breflect.
    + rewrite orb_true_r. symmetry. apply bool_decide_eq_true_2. rewrite E. left.
    + rewrite orb_false_r. apply bool_decide_ext. split; [by right|].
      intros [?|?]%elem_of_cons; [lia|done].
Qed.

Section checks.
Context {E : Type} `{TaskEnv E}.
Implicit Types s : sched E.

Definition pid_of s (t : Z) : Z := from_option t_pid (-1) (tasks s !! t).
Definition queues s : list Z := ready_queue s ++ sleeping_queue s ++ exited_queue s.

Lemma check_queue_ok s : forall q enc seen, seen_ok enc seen ->
  (forall t, t ∈ q -> is_Some (tasks s !! t) /\ 0 <= pid_of s t < 64 /\
                      t <> current_task s /\ t <> idle_task s) ->
  NoDup seen ->
  if bool_decide (NoDup (map (fun t => pid_of s t mod 32) q ++ seen))
  then exists enc', check_queue s q enc = Ret enc' /\
         seen_ok enc' (reverse (map (fun t => pid_of s t mod 32) q) ++ seen)
  else check_queue s q enc = Fault FAssert.
Proof.
  induction q as [|t q IH]; intros enc seen Hs Hq Hnd; cbn [map app].
  - rewrite bool_decide_eq_true_2 by done. by exists enc.
  - cbn [check_queue]. destruct (Hq t) as ([tk Ht] & Hp & Hc & Hi); [left|].
    unfold deref. rewrite Ht. cbn [of_option mbind outcome_bind].
    rewrite (proj2 (Z.eqb_neq t _) Hc), (proj2 (Z.eqb_neq t _) Hi). cbn [negb andb c_assert].
    unfold pid_of in Hp. rewrite Ht in Hp. cbn [from_option] in Hp.
    rewrite (bittest_seen enc seen) by done.
    assert (pid_of s t = t_pid tk) as -> by (unfold pid_of; by rewrite Ht).
    destruct (decide (t_pid tk mod 32 ∈ seen)) as [Hin|Hin].
    + rewrite (bool_decide_eq_true_2 _ Hin).
      rewrite bool_decide_eq_false_2; [done|]. rewrite NoDup_cons, elem_of_app. tauto.
    + rewrite (bool_decide_eq_false_2 _ Hin). cbn [negb c_assert mbind outcome_bind].
      specialize (IH (BITSET64 enc (t_pid tk)) (t_pid tk mod 32 :: seen)).
      ospecialize* IH; [by apply bitset_seen|intros; apply Hq; by right|by constructor|].
      assert (NoDup (map (fun t => pid_of s t mod 32) q ++ t_pid tk mod 32 :: seen) <->
              NoDup (t_pid tk mod 32 :: map (fun t => pid_of s t mod 32) q ++ seen)) as Hiff.
      { by rewrite Permutation_middle. }
      rewrite (bool_decide_ext _ _ Hiff) in IH.
      case_bool_decide; [|done]. destruct IH as (enc' & E1 & Hs'). exists enc'. split; [done|].
      rewrite reverse_cons, <- app_assoc. done.
Qed.

Definition pids_mod32 s : list Z := map (fun t => pid_of s t mod 32) (queues s).

Lemma seen_nil : seen_ok 0 [].
Proof.
  split; [lia|]. intros n _. rewrite Z.bits_0. symmetry. apply bool_decide_eq_false_2, not_elem_of_nil.
Qed.

Lemma perform_checks_ok s :
  (forall t, t ∈ queues s -> is_Some (tasks s !! t) /\ 0 <= pid_of s t < 64 /\
                             t <> current_task s /\ t <> idle_task s) ->
  scheduler_perform_checks s =
    if bool_decide (NoDup (pids_mod32 s)) then Ret tt else Fault FAssert.
Proof.
  intros Hq. unfold scheduler_perform_checks, pids_mod32, queues in *. rewrite !map_app.
  assert (ready_queue s ⊆ ready_queue s ++ sleeping_queue s ++ exited_queue s) as Hi1
    by (clear; set_solver).
  assert (sleeping_queue s ⊆ ready_queue s ++ sleeping_queue s ++ exited_queue s) as Hi2
    by (clear; set_solver).
  assert (exited_queue s ⊆ ready_queue s ++ sleeping_queue s ++ exited_queue s) as Hi3
    by (clear; set_solver).
  set (P := map (fun t => pid_of s t mod 32)) in *.
  assert (forall q, q ⊆ ready_queue s ++ sleeping_queue s ++ exited_queue s ->
    forall enc seen, seen_ok enc seen -> NoDup seen ->
    if bool_decide (NoDup (P q ++ seen))
    then exists enc', check_queue s q enc = Ret enc' /\ seen_ok enc' (reverse (P q) ++ seen)
    else check_queue s q enc = Fault FAssert) as Hc.
  { intros q Hsub enc seen H1 H2. apply check_queue_ok; auto. }
  assert (forall a b : list Z, NoDup (reverse a ++ b) <-> NoDup (a ++ b)) as Hrev.
  { intros a b. by rewrite (reverse_Permutation a). }
  fold (P (ready_queue s)) (P (sleeping_queue s)) (P (exited_queue s)).
  pose proof (Hc (ready_queue s) Hi1 0 [] seen_nil (NoDup_nil_2)) as H1.
  rewrite app_nil_r in H1.
  case_bool_decide as Hn1; cycle 1.
  { rewrite H1. rewrite bool_decide_eq_false_2; [done|]. intros Hn. apply Hn1.
    by apply NoDup_app in Hn as [? _]. }
  destruct H1 as (e1 & -> & Hs1). cbn [mbind outcome_bind]. rewrite app_nil_r in Hs1.
  pose proof (Hc (sleeping_queue s) Hi2 e1 _ Hs1) as H2.
  ospecialize* H2. { by rewrite reverse_Permutation. }
  case_bool_decide as Hn2; cycle 1.
  { rewrite H2. rewrite bool_decide_eq_false_2; [done|]. intros Hn. apply Hn2.
    rewrite Permutation_app_comm. apply Hrev. rewrite app_assoc in Hn.
    by apply NoDup_app in Hn as [? _]. }
  destruct H2 as (e2 & -> & Hs2). cbn [mbind outcome_bind].
  pose proof (Hc (exited_queue s) Hi3 e2 _ Hs2) as H3.
  ospecialize* H3. { by apply Hrev. }
  assert (NoDup (P (exited_queue s) ++ reverse (P (sleeping_queue s)) ++ reverse (P (ready_queue s))) <->
          NoDup (P (ready_queue s) ++ P (sleeping_queue s) ++ P (exited_queue s))) as Hiff.
  { rewrite !reverse_Permutation. by rewrite (Permutation_app_comm (P (exited_queue s))),
      (Permutation_app_comm (P (sleeping_queue s)) (P (ready_queue s))), <- app_assoc. }
  rewrite (bool_decide_ext _ _ Hiff) in H3. case_bool_decide; [|by rewrite H3].
  destruct H3 as (e3 & -> & _). done.
Qed.

(** ** The invariant *)
Record base_ok s : Prop := {
  b_irq : interrupts_enabled (s_eflags s) = false;
  b_zero : tasks s !! 0 = None;
  b_owned : forall t, is_Some (tasks s !! t) -> owned (s_env s) t;
  b_pids : forall t1 t2 tk1 tk2, tasks s !! t1 = Some tk1 -> tasks s !! t2 = Some tk2 ->
    t_pid tk1 = t_pid tk2 -> t1 = t2;
  b_range : forall t tk, tasks s !! t = Some tk -> 0 <= t_pid tk < next_pid_value s;
  b_next : 0 <= next_pid_value s <= MAX_PID;
  b_iomap : forall t tk, tasks s !! t = Some tk -> length (t_iomap tk) = IOMAP_BYTES
}.

(** The task structures are exactly the tasks of [M], each listed once. *)
Definition tracked s (M : list Z) : Prop :=
  NoDup M /\ forall t, is_Some (tasks s !! t) <-> t ∈ M.

(** Where tasks can be: running, idle, or in one queue. *)
Definition members s : list Z :=
  if current_task s =? idle_task s then idle_task s :: queues s
  else current_task s :: idle_task s :: queues s.

Definition sched_ok s : Prop := base_ok s /\ tracked s (members s).

(** Between two tasks, when the one that ran has been queued. *)
Definition between_ok s : Prop := base_ok s /\ tracked s (idle_task s :: queues s).

Lemma tracked_perm s M M' : M ≡ₚ M' -> tracked s M -> tracked s M'.
Proof.
  intros Hp [Hn Hd]. split; [by rewrite <- Hp|]. intros t. rewrite Hd. by rewrite Hp.
Qed.

Lemma tracked_pids s M : base_ok s -> tracked s M -> NoDup (map (pid_of s) M).
Proof.
  intros Hb [Hn Hd]. apply NoDup_fmap_2_strong; [|done].
  intros t1 t2 H1 H2 Ep. apply Hd in H1 as [tk1 H1]. apply Hd in H2 as [tk2 H2].
  unfold pid_of in Ep. rewrite H1, H2 in Ep. by eapply (b_pids _ Hb).
Qed.

(** With at most 32 pids handed out, the check never fails. *)
Lemma pids_mod32_ok s M : base_ok s -> tracked s M -> queues s ⊆ M -> NoDup (queues s) ->
  next_pid_value s <= 32 -> NoDup (pids_mod32 s).
Proof.
  intros Hb Ht Hsub Hnd H32. unfold pids_mod32. apply NoDup_fmap_2_strong; [|done].
  intros t1 t2 H1 H2 Ep. apply Hsub, Ht in H1 as [tk1 H1]. apply Hsub, Ht in H2 as [tk2 H2].
  unfold pid_of in Ep. rewrite H1, H2 in Ep. cbn [from_option] in Ep.
  pose proof (b_range _ Hb _ _ H1). pose proof (b_range _ Hb _ _ H2).
  rewrite !Z.mod_small in Ep by lia. by eapply (b_pids _ Hb).
Qed.

(** A fault of [task_switch] to [t] is the check on the pids of the queued tasks, or comes from
    the copy of the kernel mappings into the directory of [t]. *)
Definition switch_faults s (t : Z) (f : fault) : Prop :=
  (f = FAssert /\ ~ NoDup (pids_mod32 s)) \/
  (NoDup (pids_mod32 s) /\ exists tk, tasks s !! t = Some tk /\
     vmm_copy_kernel_mappings (s_env s) (t_pagedir tk) = Fault f).

(** The state after switching to [t], the check on the pids having passed. *)
Definition switched s (t : Z) (s' : sched E) : Prop :=
  NoDup (pids_mod32 s) /\ current_task s' = t /\ tasks s' = tasks s /\ idle_task s' = idle_task s /\
  ready_queue s' = ready_queue s /\ sleeping_queue s' = sleeping_queue s /\
  exited_queue s' = exited_queue s /\ next_pid_value s' = next_pid_value s /\
  exists tk, tasks s !! t = Some tk /\ cpu s' = t_context tk /\ tss_iomap s' = t_iomap tk /\
    tss_esp0 s' = KERNEL_STACK + PAGE_SIZE.

Context `{!TaskEnvLaws E}.

Lemma task_switch_ok s t M : base_ok s -> tracked s M -> t <> 0 ->
  M = (if t =? idle_task s then idle_task s :: queues s else t :: idle_task s :: queues s) ->
  match task_switch s t with
  | Ret s' => sched_ok s' /\ switched s t s'
  | Fault f => switch_faults s t f
  end.
Proof.
  intros Hb Ht Hz HM. unfold task_switch, irqs_off. rewrite nz_true by done.
  rewrite (b_irq _ Hb). cbn [negb c_assert mbind outcome_bind].
  assert (forall x, x ∈ queues s -> x ∈ M /\ x <> t /\ x <> idle_task s) as Hq.
  { intros x Hx. destruct Ht as [Hn _]. subst M. destruct (t =? idle_task s) eqn:Et; breflect.
    - apply NoDup_cons in Hn as [Hn _]. split; [by right|]. split; intros ->; [by rewrite Et in *|done].
    - apply NoDup_cons in Hn as [Hn1 Hn]. apply NoDup_cons in Hn as [Hn2 _].
      split; [by right; right|]. split; intros ->; [|done]. apply Hn1. by right. }
  assert (t ∈ M) as HtM.
  { subst M. destruct (t =? idle_task s) eqn:Et; breflect; [rewrite Et|]; left. }
  pose proof (proj2 (proj2 Ht t) HtM) as [tk Htk].
  rewrite perform_checks_ok; cycle 1.
  { intros x Hx. change (queues (with_current s t)) with (queues s) in Hx.
    destruct (Hq x Hx) as (HxM & Hxt & Hxi). apply Ht in HxM as [xk Hxk]. cbn [with_current tasks].
    split; [by eauto|]. unfold pid_of. cbn [with_current tasks]. rewrite Hxk. cbn [from_option].
    pose proof (b_range _ Hb _ _ Hxk). pose proof (b_next _ Hb). unfold MAX_PID in *.
    split; [lia|done]. }
  change (pids_mod32 (with_current s t)) with (pids_mod32 s).
  case_bool_decide as Hp; cbn [mbind outcome_bind]; [|by left].
  unfold deref. cbn [with_current tasks s_env]. rewrite Htk. cbn [of_option mbind outcome_bind].
  destruct (vmm_copy_kernel_mappings (s_env s) (t_pagedir tk)) as [e|f] eqn:Ee;
    cbn [mbind outcome_bind]; [|right; by eauto].
  split.
  - split.
    + destruct Hb. split; cbn; try done. intros x Hx. apply (copy_keeps _ _ _ Ee). auto.
    + unfold members, tracked. cbn. by subst M.
  - split; [done|]. repeat split. cbn. by exists tk.
Qed.

(** ** Choosing the next task *)
Definition expired s (now t : Z) : bool :=
  match tasks s !! t with
  | Some tk => nz (t_sleep_deadline tk) && (t_sleep_deadline tk <=? now)
  | None => false
  end.

(** The scheduling policy: the first sleeper whose deadline has passed, else the head of
    the ready queue, else the idle task. *)
Definition pick s (now : Z) : Z * sched E :=
  match filter (fun t => expired s now t) (sleeping_queue s), ready_queue s with
  | t :: _, _ => (t, with_queues s (ready_queue s) (remove_task t (sleeping_queue s)) (exited_queue s))
  | [], t :: r => (t, with_queues s r (sleeping_queue s) (exited_queue s))
  | [], [] => (idle_task s, s)
  end.

Lemma find_expired_ok s now q : (forall t, t ∈ q -> is_Some (tasks s !! t)) ->
  find_expired s now q = Ret (hd 0 (filter (fun t => expired s now t) q)).
Proof.
  induction q as [|t q IH]; intros Hq; [done|]. cbn [find_expired]. unfold deref.
  destruct (Hq t) as [tk Ht]; [left|]. rewrite Ht. cbn [of_option mbind outcome_bind].
  assert (expired s now t = nz (t_sleep_deadline tk) && (t_sleep_deadline tk <=? now)) as Ee.
  { unfold expired. by rewrite Ht. }
  rewrite <- Ee. destruct (expired s now t) eqn:E1.
  - by rewrite filter_cons_True by (by rewrite E1).
  - rewrite filter_cons_False by (rewrite E1; simpl; tauto). apply IH. intros. apply Hq. by right.
Qed.

Lemma remove_task_notin t q : t ∉ q -> remove_task t q = q.
Proof.
  intros Hn. unfold remove_task. induction q as [|x q IH]; [done|].
  apply not_elem_of_cons in Hn as [Hx Hn]. rewrite filter_cons_True by congruence. by rewrite IH.
Qed.

Lemma remove_task_perm t q : NoDup q -> t ∈ q -> t :: remove_task t q ≡ₚ q.
Proof.
  intros Hnd Hin. apply list_elem_of_split in Hin as (l1 & l2 & ->). unfold remove_task.
  apply NoDup_app in Hnd as (_ & Hd & Hnd). apply NoDup_cons in Hnd as [Hn _].
  rewrite filter_app, filter_cons_False by tauto. fold (remove_task t l1) (remove_task t l2).
  rewrite !remove_task_notin; [by rewrite Permutation_middle|done|].
  intros Hin. apply (Hd t Hin). left.
Qed.

Lemma remove_task_head t q : NoDup (t :: q) -> remove_task t (t :: q) = q.
Proof.
  intros [Hn _]%NoDup_cons. unfold remove_task. rewrite filter_cons_False by tauto.
  by apply remove_task_notin.
Qed.

Lemma tracked_queue_parts s : tracked s (idle_task s :: queues s) ->
  NoDup (queues s) /\ NoDup (ready_queue s) /\ NoDup (sleeping_queue s) /\ NoDup (exited_queue s) /\
  (idle_task s ∉ queues s) /\ (forall t, t ∈ queues s -> is_Some (tasks s !! t)).
Proof.
  intros [Hn Hd]. apply NoDup_cons in Hn as [Hi Hn]. pose proof Hn as Hn'. unfold queues in Hn'.
  apply NoDup_app in Hn' as (H1 & _ & H2). apply NoDup_app in H2 as (H2 & _ & H3).
  repeat (split; [done|]). intros t Ht. apply Hd. by right.
Qed.

Lemma task_switch_next_ok s now : between_ok s ->
  match task_switch_next s now with
  | Ret s' => sched_ok s' /\ switched (snd (pick s now)) (fst (pick s now)) s'
  | Fault f => switch_faults (snd (pick s now)) (fst (pick s now)) f
  end.
Proof.
  intros [Hb Ht]. destruct (tracked_queue_parts s Ht) as (Hq & Hr & Hsl & Hex & Hi & Hdom).
  unfold task_switch_next, pick. rewrite find_expired_ok; cycle 1.
  { intros t Hin. apply Hdom. unfold queues. apply elem_of_app. right. apply elem_of_app. by left. }
  cbn [mbind outcome_bind].
  destruct (filter (fun t => expired s now t) (sleeping_queue s)) as [|t ts] eqn:Ef; cbn [hd].
  - cbn [nz Z.eqb negb]. destruct (ready_queue s) as [|t r] eqn:Er.
    + cbn [fst snd]. apply (task_switch_ok s (idle_task s) (idle_task s :: queues s)); try done.
      * intros Hz. destruct Ht as [_ Hd]. destruct (proj2 (Hd (idle_task s))) as [tk Hk]; [left|].
        by rewrite Hz, (b_zero _ Hb) in Hk.
      * by rewrite Z.eqb_refl.
    + cbn [fst snd]. rewrite remove_task_head by done.
      assert (t ∈ queues s) as Hin by (unfold queues; rewrite Er; left).
      assert (t <> 0) as Hz.
      { intros ->. destruct (Hdom _ Hin) as [tk Hk]. by rewrite (b_zero _ Hb) in Hk. }
      rewrite nz_true by done. assert (t <> idle_task s) as Hti by congruence.
      eapply task_switch_ok; [by destruct Hb| |done|done].
      cbn [idle_task with_queues]. rewrite (proj2 (Z.eqb_neq _ _)) by done.
      eapply (tracked_perm _ (idle_task s :: queues s)); [|done].
      unfold queues. rewrite Er. cbn. apply Permutation_swap.
  - assert (t ∈ sleeping_queue s) as Hin.
    { assert (t ∈ filter (fun t => expired s now t) (sleeping_queue s)) as Hf by (rewrite Ef; left).
      by apply list_elem_of_filter in Hf as [_ ?]. }
    assert (t ∈ queues s) as Hinq.
    { unfold queues. apply elem_of_app. right. apply elem_of_app. by left. }
    assert (t <> 0) as Hz.
    { intros ->. destruct (Hdom _ Hinq) as [tk Hk]. by rewrite (b_zero _ Hb) in Hk. }
    rewrite !nz_true by done. cbn [fst snd].
    assert (t <> idle_task s) as Hti by congruence.
    eapply task_switch_ok; [by destruct Hb| |done|done].
    cbn [idle_task with_queues]. rewrite (proj2 (Z.eqb_neq _ _)) by done.
    eapply (tracked_perm _ (idle_task s :: queues s)); [|done].
    unfold queues. cbn. rewrite Permutation_swap. apply perm_skip.
    rewrite <- (remove_task_perm t (sleeping_queue s)) at 1 by done. cbn.
    symmetry. apply Permutation_middle.
Qed.

Lemma task_switch_tasks s t s' : task_switch s t = Ret s' -> tasks s' = tasks s.
Proof. unfold task_switch. intros Hx. invert_ret. done. Qed.

Lemma task_switch_next_tasks s now s' : task_switch_next s now = Ret s' -> tasks s' = tasks s.
Proof.
  unfold task_switch_next. intros Hx. apply bind_ret_inv in Hx as (nt & _ & Hx).
  destruct (nz nt); [|destruct (ready_queue s)]; apply task_switch_tasks in Hx; done.
Qed.

(** ** Preservation *)
Lemma update_inv s t f s' : update s t f = Ret s' ->
  exists tk, tasks s !! t = Some tk /\ s' = with_tasks s (<[t := f tk]> (tasks s)).
Proof.
  unfold update, deref. intros Hu. destruct (tasks s !! t) as [tk|]; [|done].
  cbn in Hu. injection Hu as <-. eauto.
Qed.

Lemma update_ok s t f s' M : update s t f = Ret s' ->
  (forall tk, t_pid (f tk) = t_pid tk /\
              (length (t_iomap tk) = IOMAP_BYTES -> length (t_iomap (f tk)) = IOMAP_BYTES)) ->
  base_ok s -> tracked s M ->
  base_ok s' /\ tracked s' M /\ queues s' = queues s /\ current_task s' = current_task s /\
  idle_task s' = idle_task s.
Proof.
  intros (tk & Htk & ->)%update_inv Hf Hb [Hn Hd].
  assert (forall x xk, <[t := f tk]> (tasks s) !! x = Some xk -> exists yk, tasks s !! x = Some yk /\
    t_pid xk = t_pid yk /\ (length (t_iomap yk) = IOMAP_BYTES -> length (t_iomap xk) = IOMAP_BYTES)) as Hl.
  { intros x xk Hx. destruct (decide (t = x)) as [<-|Hne].
    - rewrite lookup_insert_eq in Hx. injection Hx as <-. destruct (Hf tk). eauto.
    - rewrite lookup_insert_ne in Hx by done. eauto. }
  assert (forall x, is_Some (<[t := f tk]> (tasks s) !! x) <-> is_Some (tasks s !! x)) as Hdom.
  { intros x. rewrite lookup_insert_is_Some. split; [intros [->|[_ ?]]; [by eauto|done]|].
    intros ?. destruct (decide (t = x)); [by left|by right]. }
  split; [|split; [|done]].
  - destruct Hb. split; cbn; try done.
    + destruct (<[t := f tk]> (tasks s) !! 0) eqn:E0; [|done].
      apply Hl in E0 as (yk & E0 & _). congruence.
    + intros x Hx. apply b_owned0. by apply Hdom.
    + intros t1 t2 k1 k2 H1 H2 Ep. apply Hl in H1 as (y1 & H1 & E1 & _).
      apply Hl in H2 as (y2 & H2 & E2 & _). apply (b_pids0 t1 t2 y1 y2); congruence.
    + intros x xk Hx. apply Hl in Hx as (yk & Hy & -> & _). eauto.
    + intros x xk Hx. apply Hl in Hx as (yk & Hy & _ & Hio). eauto.
  - split; [done|]. intros x. cbn. rewrite Hdom. apply Hd.
Qed.

Lemma save_task_state_ok s t regs s' M : save_task_state s t regs = Ret s' ->
  base_ok s -> tracked s M ->
  base_ok s' /\ tracked s' M /\ queues s' = queues s /\ current_task s' = current_task s /\
  idle_task s' = idle_task s.
Proof.
  unfold save_task_state. intros Hu. destruct (deref s t) as [tk|]; [|done].
  cbn [mbind outcome_bind] in Hu. destruct (save_context (t_context tk) regs) as [c|]; [|done].
  cbn [mbind outcome_bind] in Hu. intros. eapply update_ok; try done.
Qed.

Lemma members_same s s' : queues s' = queues s -> current_task s' = current_task s ->
  idle_task s' = idle_task s -> members s' = members s.
Proof. unfold members. by intros -> -> ->. Qed.

Lemma save_current_ok s regs s' : save_current_task_state s regs = Ret s' -> sched_ok s -> sched_ok s'.
Proof.
  unfold save_current_task_state. intros Hu [Hb Ht]. invert_ret.
  destruct (save_task_state_ok _ _ _ _ _ Hu Hb Ht) as (Hb' & Ht' & Eq & Ec & Ei).
  split; [done|]. by rewrite (members_same s s') by done.
Qed.

(** Queueing the running task. *)
Lemma queued_ok s s' : sched_ok s -> current_task s <> idle_task s -> base_ok s' ->
  tasks s' = tasks s -> idle_task s' = idle_task s -> queues s' ≡ₚ current_task s :: queues s ->
  between_ok s'.
Proof.
  intros [Hb Ht] Hci Hb' Etk Ei Hp. split; [done|]. unfold members in Ht.
  rewrite (proj2 (Z.eqb_neq _ _)) in Ht by done. unfold tracked in *. rewrite Etk, Ei.
  eapply (tracked_perm s); [|exact Ht]. rewrite Hp. apply Permutation_swap.
Qed.

Lemma append_ready_perm s t : queues (append_ready s t) ≡ₚ t :: queues s.
Proof. unfold queues. cbn. rewrite <- app_assoc. cbn. symmetry. apply Permutation_middle. Qed.
Lemma append_sleeping_perm s t : queues (append_sleeping s t) ≡ₚ t :: queues s.
Proof.
  unfold queues. cbn. rewrite <- app_assoc. cbn. rewrite app_assoc, (app_assoc _ (sleeping_queue s)).
  symmetry. apply Permutation_middle.
Qed.
Lemma append_exited_perm s t : queues (append_exited s t) ≡ₚ t :: queues s.
Proof.
  unfold queues. cbn. rewrite !app_assoc. symmetry. apply Permutation_cons_append.
Qed.

Lemma switch_handler_ok s s1 now r : sched_ok s -> current_task s <> idle_task s ->
  base_ok s1 -> tasks s1 = tasks s -> idle_task s1 = idle_task s ->
  queues s1 ≡ₚ current_task s :: queues s ->
  (s' ← task_switch_next s1 now; Ret (s', Switched)) = Ret r ->
  sched_ok (fst r) /\ switched (snd (pick s1 now)) (fst (pick s1 now)) (fst r).
Proof.
  intros Hok Hci Hb1 Et Ei Hp Hr.
  pose proof (task_switch_next_ok s1 now (queued_ok s s1 Hok Hci Hb1 Et Ei Hp)) as Hs.
  destruct (task_switch_next s1 now) as [s'|f]; cbn in Hr; [|done]. by injection Hr as <-.
Qed.

Lemma base_queues s r sl ex : base_ok s -> base_ok (with_queues s r sl ex).
Proof. by intros []. Qed.

Lemma iomap_set_length m port allow m' : task_iomap_set m port allow = Ret m' -> length m' = length m.
Proof.
  unfold task_iomap_set. intros Hm. invert_ret. by rewrite length_insert.
Qed.

Lemma task_create_ok s name t s' M : task_create s name = Ret (t, s') ->
  base_ok s -> tracked s M ->
  base_ok s' /\ tracked s' (t :: M) /\ queues s' = queues s /\ current_task s' = current_task s /\
  idle_task s' = idle_task s /\ t <> 0 /\ (t ∉ M) /\ pid_of s' t = next_pid_value s.
Proof.
  unfold task_create. intros Hc Hb [Hn Hd]. destruct (kmalloc_task (s_env s)) as [[p e]|] eqn:Ek; [|done].
  cbn [mbind outcome_bind] in Hc. invert_ret. destruct (vmm_clone_pagedir e) as [[pd e1]|] eqn:Ev; [|done].
  injection Hc2 as <-. apply iomap_set_length in Hc0. rewrite length_replicate in Hc0.
  injection Hc as -> <-. cbn [with_pid tasks]. destruct (kmalloc_fresh _ _ _ Ek) as (Hp0 & Hpn & Hpo).
  apply Z.ltb_lt in Hc1. pose proof (b_next _ Hb) as Hnx. unfold MAX_PID in *.
  assert (tasks s !! t = None) as Hnone.
  { destruct (tasks s !! t) eqn:Et; [|done]. destruct Hpn. apply (b_owned _ Hb). by rewrite Et. }
  assert (t ∉ M) as HtM.
  { intros Hin. apply Hd in Hin as [? Hin]. congruence. }
  rewrite s32_small by lia. set (tk := mkTask _ _ _ _ _ _ _ _).
  assert (forall x xk, <[t := tk]> (tasks s) !! x = Some xk ->
            (x = t /\ xk = tk) \/ (x <> t /\ tasks s !! x = Some xk)) as Hl.
  { intros x xk Hx. destruct (decide (t = x)) as [<-|Hne].
    - rewrite lookup_insert_eq in Hx. left. by injection Hx.
    - rewrite lookup_insert_ne in Hx by done. right. by split. }
  split; [|split; [|repeat (split; [done|])]].
  - split; cbn; try (by destruct Hb).
    + rewrite lookup_insert_ne by done. apply (b_zero _ Hb).
    + intros x [xk Hx]. apply (clone_keeps _ _ _ Ev), Hpo.
      apply Hl in Hx as [[-> _]|[_ Hx]]; [by left|]. right. apply (b_owned _ Hb). eauto.
    + intros t1 t2 k1 k2 H1 H2 Ep. apply Hl in H1 as [[-> ->]|[Hn1 H1]], H2 as [[-> ->]|[Hn2 H2]]; [done| | |].
      * pose proof (b_range _ Hb _ _ H2). cbn in Ep. lia.
      * pose proof (b_range _ Hb _ _ H1). cbn in Ep. lia.
      * by eapply (b_pids _ Hb).
    + intros x xk Hx. apply Hl in Hx as [[-> ->]|[_ Hx]]; cbn; [lia|].
      pose proof (b_range _ Hb _ _ Hx). lia.
    + unfold MAX_PID. lia.
    + intros x xk Hx. apply Hl in Hx as [[-> ->]|[_ Hx]]; cbn; [done|]. by apply (b_iomap _ Hb x).
  - split; [by constructor|]. intros x. cbn. rewrite lookup_insert_is_Some, elem_of_cons, Hd.
    split; [intros [->|[? ?]]; [by left|by right]|]. intros [->|?]; [by left|].
    right. split; [by intros ->|done].
  - unfold pid_of. cbn. by rewrite lookup_insert_eq.
Qed.

Lemma fork_ok s regs r : syscall_fork_handler s regs = Ret r -> sched_ok s ->
  sched_ok (fst r) /\ exists t, queues (fst r) ≡ₚ t :: queues s /\ (t ∉ members s) /\
    snd r = Returns (next_pid_value s).
Proof.
  unfold syscall_fork_handler. intros Hf [Hb Ht].
  destruct (deref s (current_task s)) as [cur|]; [|done]. cbn [mbind outcome_bind] in Hf.
  destruct (task_create s (t_name cur)) as [[t s1]|] eqn:Ec; [|done]. cbn [mbind outcome_bind] in Hf.
  destruct (task_create_ok _ _ _ _ _ Ec Hb Ht) as (Hb1 & Ht1 & Eq1 & Ec1 & Ei1 & Ht0 & Htn & Epid).
  destruct (save_task_state s1 t regs) as [s2|] eqn:Es; [|done]. cbn [mbind outcome_bind] in Hf.
  destruct (save_task_state_ok _ _ _ _ _ Es Hb1 Ht1) as (Hb2 & Ht2 & Eq2 & Ec2 & Ei2).
  destruct (deref s2 t) as [tk|] eqn:Ed; [|done]. cbn [mbind outcome_bind] in Hf.
  destruct (update s2 t _) as [s3|] eqn:Eu; [|done]. cbn [mbind outcome_bind] in Hf.
  eapply update_ok in Eu as (Hb3 & Ht3 & Eq3 & Ec3 & Ei3); [|by intros|done|done].
  injection Hf as <-. cbn [fst snd].
  assert (t_pid tk = next_pid_value s) as Hpid.
  { unfold save_task_state in Es. destruct (deref s1 t) as [tk1|] eqn:Ed1; [|done].
    cbn [mbind outcome_bind] in Es. destruct (save_context _ _); [|done]. cbn [mbind outcome_bind] in Es.
    apply update_inv in Es as (tk1' & Htk1 & ->). unfold deref in Ed. cbn in Ed.
    rewrite lookup_insert_eq in Ed. cbn in Ed. injection Ed as <-. cbn.
    unfold pid_of in Epid. by rewrite Htk1 in Epid. }
  split; [|exists t; split; [by rewrite append_ready_perm, Eq3, Eq2, Eq1|by rewrite Hpid]].
  split; [by apply base_queues|]. cbn in Ht3.
  eapply (tracked_perm (append_ready s3 t)); [|exact Ht3].
  unfold members. cbn [append_ready with_queues current_task idle_task].
  rewrite Ec3, Ei3, Ec2, Ei2, Ec1, Ei1.
  destruct (current_task s =? idle_task s); rewrite append_ready_perm, Eq3, Eq2, Eq1;
    [apply Permutation_swap|].
  etransitivity; [apply perm_swap|]. apply perm_skip, perm_swap.
Qed.

(** Collecting the exited tasks frees exactly their structures. *)
Definition env_faults (f : fault) : Prop :=
  (exists e p, vmm_copy_kernel_mappings e p = Fault f) \/
  (exists e p, vmm_destroy_pagedir e p = Fault f) \/ (exists e p, kfree_task e p = Fault f).

Lemma collect_exited_ok : forall q s, exited_queue s = q -> between_ok s ->
  match collect_exited s q with
  | Ret s' => between_ok s' /\ exited_queue s' = [] /\ ready_queue s' = ready_queue s /\
      sleeping_queue s' = sleeping_queue s /\ current_task s' = current_task s /\
      idle_task s' = idle_task s /\ next_pid_value s' = next_pid_value s /\
      (forall t, t ∉ q -> tasks s' !! t = tasks s !! t)
  | Fault f => env_faults f
  end.
Proof.
  induction q as [|t q IH]; intros s Hq [Hb Ht];
    [by split; [split|repeat (split; [done|])]|]. cbn [collect_exited].
  destruct (tracked_queue_parts s Ht) as (Hnq & _ & _ & Hnex & Hi & Hdom).
  assert (t ∈ queues s) as Hin.
  { unfold queues. rewrite Hq. apply elem_of_app. right. apply elem_of_app. right. left. }
  destruct (Hdom t Hin) as [tk Htk]. unfold deref. rewrite Htk. cbn [of_option mbind outcome_bind].
  rewrite Hq, remove_task_head by (by rewrite <- Hq).
  cbn [with_queues s_env tasks]. destruct (vmm_destroy_pagedir (s_env s) (t_pagedir tk)) as [e1|f] eqn:E1;
    cbn [mbind outcome_bind]; [|right; left; eauto].
  destruct (kfree_task e1 t) as [e2|f] eqn:E2; cbn [mbind outcome_bind]; [|right; right; eauto].
  set (s1 := with_tasks _ _).
  assert (t <> idle_task s) as Hti by congruence.
  assert (between_ok s1) as Hok1.
  { split.
    - destruct Hb. split; cbn; try done.
      + rewrite lookup_delete_ne by (intros ->; by rewrite b_zero0 in Htk). done.
      + intros x [xk Hx]. apply lookup_delete_Some in Hx as [Hne Hx].
        apply (kfree_drops _ _ _ E2). split; [|done]. apply (destroy_keeps _ _ _ E1). eauto.
      + intros t1 t2 k1 k2 [_ H1]%lookup_delete_Some [_ H2]%lookup_delete_Some. eauto.
      + intros x xk [_ Hx]%lookup_delete_Some. eauto.
      + intros x xk [_ Hx]%lookup_delete_Some. eauto.
    - destruct Ht as [Hn Hd].
      assert (idle_task s :: queues s ≡ₚ t :: idle_task s :: queues s1) as Hp.
      { rewrite perm_swap. apply perm_skip. unfold queues, s1. cbn. rewrite Hq, !app_assoc.
        symmetry. apply Permutation_middle. }
      rewrite Hp in Hn. apply NoDup_cons in Hn as [Htn Hn]. split; [done|]. intros x.
      change (tasks s1) with (delete t (tasks s)). rewrite lookup_delete_is_Some, Hd, Hp, elem_of_cons.
      split; [intros [? [?|?]]; [congruence|done]|]. intros Hx. split; [intros ->; done|by right]. }
  specialize (IH s1 eq_refl Hok1). destruct (collect_exited s1 q) as [s'|f]; [|done].
  destruct IH as (Hok' & Hex' & Hr' & Hsl' & Hc' & Hi' & Hp' & Htk').
  repeat (split; [done|]). intros x Hx. apply not_elem_of_cons in Hx as [Hxt Hx].
  rewrite Htk' by done. cbn. by rewrite lookup_delete_ne.
Qed.

Lemma find_pid_ok s pid q : (forall t, t ∈ q -> is_Some (tasks s !! t)) ->
  exists t, find_pid s pid q = Ret t /\
    ((t = 0 /\ forall x, x ∈ q -> pid_of s x <> pid) \/ (t ∈ q /\ pid_of s t = pid)).
Proof.
  induction q as [|x q IH]; intros Hq; cbn [find_pid].
  { exists 0. split; [done|]. left. split; [done|]. intros x Hx. by apply elem_of_nil in Hx. }
  destruct (Hq x) as [tk Hx]; [left|]. unfold deref. rewrite Hx. cbn [of_option mbind outcome_bind].
  assert (pid_of s x = t_pid tk) as Ep by (unfold pid_of; by rewrite Hx).
  destruct (t_pid tk =? pid) eqn:Epid; breflect.
  - exists x. split; [done|]. right. split; [left|congruence].
  - destruct IH as (t & -> & Ht); [intros; apply Hq; by right|]. exists t. split; [done|].
    destruct Ht as [[-> Ht]|[Ht Hp]]; [left|right].
    + split; [done|]. intros y [->|Hy]%elem_of_cons; [congruence|by apply Ht].
    + split; [by right|done].
Qed.

(** ** Waking *)
Lemma sched_parts s : sched_ok s ->
  NoDup (queues s) /\ (current_task s ∉ queues s) /\ (idle_task s ∉ queues s) /\
  is_Some (tasks s !! current_task s) /\ is_Some (tasks s !! idle_task s) /\
  (forall t, t ∈ queues s -> is_Some (tasks s !! t) /\ t <> 0).
Proof.
  intros [Hb [Hn Hd]]. unfold members in *.
  assert (forall t, is_Some (tasks s !! t) -> t <> 0) as Hz.
  { intros t [tk Ht] ->. by rewrite (b_zero _ Hb) in Ht. }
  destruct (current_task s =? idle_task s) eqn:Eci; breflect.
  - rewrite Eci. apply NoDup_cons in Hn as [Hi Hn].
    assert (is_Some (tasks s !! idle_task s)) by (apply Hd; left).
    repeat (split; [done|]). intros t Ht.
    assert (is_Some (tasks s !! t)) by (apply Hd; by right). auto.
  - apply NoDup_cons in Hn as [Hc Hn]. apply NoDup_cons in Hn as [Hi Hn].
    split; [done|]. split; [intros Hin; apply Hc; by right|]. split; [done|].
    split; [apply Hd; left|]. split; [apply Hd; right; left|]. intros t Ht.
    assert (is_Some (tasks s !! t)) by (apply Hd; right; by right). auto.
Qed.

Lemma pid_of_inj s t1 t2 : base_ok s -> is_Some (tasks s !! t1) -> is_Some (tasks s !! t2) ->
  pid_of s t1 = pid_of s t2 -> t1 = t2.
Proof.
  intros Hb [k1 H1] [k2 H2]. unfold pid_of. rewrite H1, H2. by apply (b_pids _ Hb).
Qed.

Lemma task_get_sleeping s t : sched_ok s -> t ∈ sleeping_queue s -> task_get s (pid_of s t) = Ret t.
Proof.
  intros Hok Hin. destruct (sched_parts s Hok) as (Hn & Hc & Hi & [ck Hck] & [ik Hik] & Hd).
  assert (t ∈ queues s) as Hq by (unfold queues; apply elem_of_app; right; apply elem_of_app; by left).
  destruct (Hd t Hq) as [Ht Hz]. destruct Hok as [Hb _].
  unfold task_get, deref. rewrite Hik. cbn [of_option mbind outcome_bind].
  assert (forall x xk, tasks s !! x = Some xk -> x <> t -> (pid_of s t =? t_pid xk) = false) as Hne.
  { intros x xk Hx Hxt. apply Z.eqb_neq. intros Ep. apply Hxt. apply (pid_of_inj s); [done|by eauto|done|].
    rewrite Ep. unfold pid_of. by rewrite Hx. }
  rewrite (Hne _ _ Hik) by congruence. rewrite Hck. cbn [of_option mbind outcome_bind].
  rewrite (Hne _ _ Hck) by congruence.
  destruct (find_pid_ok s (pid_of s t) (ready_queue s)) as (x & -> & Hx).
  { intros y Hy. apply Hd. unfold queues. apply elem_of_app. by left. }
  cbn [mbind outcome_bind].
  assert (x = 0) as ->.
  { destruct Hx as [[-> _]|[Hx Hp]]; [done|]. exfalso.
    assert (x ∈ queues s) as Hxq by (unfold queues; apply elem_of_app; by left).
    apply (pid_of_inj s) in Hp; [subst|done|by apply Hd|done].
    unfold queues in Hn. apply NoDup_app in Hn as (_ & Hdis & _). apply (Hdis t Hx).
    apply elem_of_app. by left. }
  cbn [nz Z.eqb negb].
  destruct (find_pid_ok s (pid_of s t) (sleeping_queue s)) as (y & -> & Hy).
  { intros y Hy. apply Hd. unfold queues. apply elem_of_app. right. apply elem_of_app. by left. }
  destruct Hy as [[_ Hy]|[Hy Hp]]; [by destruct (Hy t Hin)|].
  f_equal. apply (pid_of_inj s); [done| |done|done].
  apply Hd. unfold queues. apply elem_of_app. right. apply elem_of_app. by left.
Qed.

(** [t] moved from the sleeping to the ready queue. *)
Definition moved s (t : Z) : sched E :=
  with_queues s (ready_queue s ++ [t]) (remove_task t (sleeping_queue s)) (exited_queue s).

Lemma moved_ok s t : sched_ok s -> t ∈ sleeping_queue s -> sched_ok (moved s t).
Proof.
  intros Hok Hin. destruct (sched_parts s Hok) as (Hn & _). destruct Hok as [Hb Ht].
  split; [by apply base_queues|].
  assert (queues (moved s t) ≡ₚ queues s) as Hp.
  { unfold queues in *. cbn. apply NoDup_app in Hn as (_ & _ & Hn). apply NoDup_app in Hn as (Hn & _).
    rewrite <- (remove_task_perm t (sleeping_queue s)) at 2 by done. by rewrite <- app_assoc. }
  eapply (tracked_perm (moved s t)); [|exact Ht]. unfold members. cbn [moved with_queues current_task idle_task].
  destruct (_ =? _); by rewrite Hp.
Qed.

Lemma task_wake_sleeping s t : sched_ok s -> t ∈ sleeping_queue s ->
  task_wake s (pid_of s t) = Ret (moved s t).
Proof.
  intros Hok Hin. unfold task_wake, irqs_off. rewrite (b_irq _ (proj1 Hok)). cbn [negb c_assert mbind outcome_bind].
  rewrite task_get_sleeping by done. cbn [mbind outcome_bind].
  destruct (sched_parts s Hok) as (_ & _ & _ & _ & _ & Hd).
  rewrite nz_true; [|apply Hd; unfold queues; apply elem_of_app; right; apply elem_of_app; by left].
  cbn [c_assert mbind outcome_bind]. by rewrite decide_True.
Qed.

Definition waits_to_send s (port t : Z) : bool :=
  from_option (fun tk => t_wait_cansend_port tk =? port) false (tasks s !! t).

Lemma wake_waiting_ok port : forall q s, sched_ok s -> NoDup q -> (forall t, t ∈ q -> t ∈ sleeping_queue s) ->
  wake_waiting s port q = Ret (with_queues s
    (ready_queue s ++ filter (fun t => waits_to_send s port t) q)
    (filter (fun t => ~ (t ∈ q /\ waits_to_send s port t)) (sleeping_queue s)) (exited_queue s)) /\
  sched_ok (with_queues s
    (ready_queue s ++ filter (fun t => waits_to_send s port t) q)
    (filter (fun t => ~ (t ∈ q /\ waits_to_send s port t)) (sleeping_queue s)) (exited_queue s)).
Proof.
  induction q as [|t q IH]; intros s Hok Hnd Hsub.
  - rewrite filter_nil, app_nil_r. rewrite list_filter_all; cycle 1.
    { intros x _. intros [Hx _]. by apply elem_of_nil in Hx. }
    destruct s; split; [done|exact Hok].
  - cbn [wake_waiting]. apply NoDup_cons in Hnd as [Htq Hnd].
    assert (t ∈ sleeping_queue s) as Hts by (apply Hsub; left).
    destruct (sched_parts s Hok) as (_ & _ & _ & _ & _ & Hd).
    destruct (Hd t) as [[tk Htk] Hz]; [unfold queues; apply elem_of_app; right; apply elem_of_app; by left|].
    unfold deref. rewrite Htk. cbn [of_option mbind outcome_bind].
    assert (waits_to_send s port t = (t_wait_cansend_port tk =? port)) as Ew
      by (unfold waits_to_send; by rewrite Htk).
    rewrite <- Ew. destruct (waits_to_send s port t) eqn:Ewt.
    + assert (t_pid tk = pid_of s t) as -> by (unfold pid_of; by rewrite Htk).
      rewrite task_wake_sleeping by done. cbn [mbind outcome_bind].
      destruct (IH (moved s t)) as [-> Hok']; [by apply moved_ok|done| |].
      { intros x Hx. cbn. unfold remove_task. apply list_elem_of_filter. split; [by intros ->|].
        apply Hsub. by right. }
      assert (forall x, waits_to_send (moved s t) port x = waits_to_send s port x) as Hw by done.
      assert (with_queues (moved s t)
         (ready_queue (moved s t) ++ filter (fun x => waits_to_send (moved s t) port x) q)
         (filter (fun x => ~ (x ∈ q /\ waits_to_send (moved s t) port x)) (sleeping_queue (moved s t)))
         (exited_queue (moved s t)) =
       with_queues s
         (ready_queue s ++ filter (fun x => waits_to_send s port x) (t :: q))
         (filter (fun x => ~ (x ∈ t :: q /\ waits_to_send s port x)) (sleeping_queue s))
         (exited_queue s)) as Es.
      { unfold moved, with_queues. cbn [tasks ready_queue sleeping_queue exited_queue next_pid_value
          current_task idle_task s_eflags s_env tss_esp0 tss_iomap cpu]. f_equal.
        - rewrite filter_cons_True by (by rewrite Ewt). rewrite <- app_assoc. done.
        - unfold remove_task. rewrite list_filter_filter. apply list_filter_iff. intros x.
          unfold waits_to_send. cbn. rewrite elem_of_cons. split; [intros [? ?] [[->|?] ?]; tauto|].
          intros Hx. split; [tauto|]. intros ->. apply Hx. split; [by left|].
          unfold waits_to_send in Ewt. by rewrite Ewt. }
      by rewrite Es in *.
    + cbn [mbind outcome_bind]. destruct (IH s Hok Hnd) as [-> Hok']; [intros; apply Hsub; by right|].
      rewrite filter_cons_False by (rewrite Ewt; simpl; tauto).
      assert (filter (fun x => ~ (x ∈ t :: q /\ waits_to_send s port x)) (sleeping_queue s) =
              filter (fun x => ~ (x ∈ q /\ waits_to_send s port x)) (sleeping_queue s)) as ->; [|done].
      apply list_filter_iff. intros x. rewrite elem_of_cons. split; [tauto|].
      intros Hx [[->|?] Hw]; [by rewrite Ewt in Hw|tauto].
Qed.

Lemma checks_in_ok s : sched_ok s ->
  scheduler_perform_checks s = if bool_decide (NoDup (pids_mod32 s)) then Ret tt else Fault FAssert.
Proof.
  intros Hok. destruct (sched_parts s Hok) as (Hn & Hc & Hi & _ & _ & Hd). destruct Hok as [Hb Ht].
  apply perform_checks_ok. intros t Hin. destruct (Hd t Hin) as [[tk Htk] _].
  split; [by eauto|]. split; [|split; congruence]. unfold pid_of. rewrite Htk. cbn.
  pose proof (b_range _ Hb _ _ Htk). pose proof (b_next _ Hb). unfold MAX_PID in *. lia.
Qed.

Lemma save_task_state_inv s t regs s' : save_task_state s t regs = Ret s' ->
  exists tk c, tasks s !! t = Some tk /\ save_context (t_context tk) regs = Ret c /\
    s' = with_tasks s (<[t := set_context tk c]> (tasks s)).
Proof.
  unfold save_task_state. intros Hs. invert_ret. apply update_inv in Hs as (tk & Htk & ->).
  unfold deref in Hs0. apply of_option_ret in Hs0. rewrite Htk in Hs0. injection Hs0 as <-. eauto.
Qed.

Lemma pid_of_context s t tk c x : tasks s !! t = Some tk ->
  pid_of (with_tasks s (<[t := set_context tk c]> (tasks s))) x = pid_of s x.
Proof.
  intros Ht. unfold pid_of. cbn. destruct (decide (t = x)) as [<-|Hne].
  - by rewrite lookup_insert_eq, Ht.
  - by rewrite lookup_insert_ne.
Qed.

(** ** The scheduler as a transition system

    One step is one entry into the kernel that the scheduler handles. The idle task
    only executes [hlt], so the system calls come from other tasks. *)
Inductive sstep : sched E -> sched E -> Prop :=
| step_timer s regs now s' : scheduler_timer s regs now = Ret (s', Switched) -> sstep s s'
| step_yield s regs now s1 s' : current_task s <> idle_task s ->
    save_current_task_state s regs = Ret s1 ->
    syscall_yield_handler s1 now = Ret (s', Switched) -> sstep s s'
| step_exit s regs now s1 s' : current_task s <> idle_task s ->
    save_current_task_state s regs = Ret s1 ->
    syscall_exit_handler s1 now = Ret (s', Switched) -> sstep s s'
| step_block s canrecv cansend timeout now regs s' : current_task s <> idle_task s ->
    task_block s canrecv cansend timeout now regs = Ret (s', Switched) -> sstep s s'
| step_fork s regs s1 s' v : save_current_task_state s regs = Ret s1 ->
    syscall_fork_handler s1 regs = Ret (s', Returns v) -> sstep s s'
| step_exec s filename regs regs' s' v :
    syscall_exec_handler s filename regs = Ret (s', regs', Returns v) -> sstep s s'
| step_hwport s port s' v : syscall_hwportopen_handler s port = Ret (s', Returns v) -> sstep s s'
| step_wake s pid s' : task_wake s pid = Ret s' -> sstep s s'
| step_wake_port s port s' : wake_tasks_waiting_for_port s port = Ret s' -> sstep s s'
| step_usermode s entry s' : jump_to_usermode s entry = Ret (s', Switched) -> sstep s s'.

Lemma env_ok s e : base_ok s -> (forall q, owned e q <-> owned (s_env s) q) -> base_ok (with_env s e).
Proof. intros [] He. split; cbn; try done. intros t Ht. apply He. auto. Qed.

Lemma task_wake_ok s pid s' : task_wake s pid = Ret s' -> sched_ok s -> sched_ok s'.
Proof.
  unfold task_wake. intros Hw Hok. invert_ret. case_decide as Hin.
  - injection Hw as <-. by apply (moved_ok s).
  - case_decide; [by injection Hw as <-|]. invert_ret. case_hyp Hw; [|done]. by injection Hw as <-.
Qed.

Lemma timer_between s regs s1 : sched_ok s -> save_task_state s (current_task s) regs = Ret s1 ->
  between_ok (if negb (current_task s1 =? idle_task s1) then append_ready s1 (current_task s1) else s1).
Proof.
  intros [Hb Ht] Hs.
  destruct (save_task_state_ok _ _ _ _ _ Hs Hb Ht) as (Hb1 & Ht1 & Eq & Ec & Ei).
  assert (sched_ok s1) as Hok1 by (split; [done|by rewrite (members_same s s1)]).
  destruct (current_task s1 =? idle_task s1) eqn:Eci; cbn [negb]; breflect.
  - split; [done|]. destruct Hok1 as [_ H1]. unfold members in H1. by rewrite Eci, Z.eqb_refl in H1.
  - apply (queued_ok s1); try done; [by apply base_queues|apply append_ready_perm].
Qed.

Lemma timer_ok s regs now s' : scheduler_timer s regs now = Ret (s', Switched) -> sched_ok s -> sched_ok s'.
Proof.
  unfold scheduler_timer. intros Ht Hok. destruct (nz (current_task s)); [|done].
  cbn [c_assert mbind outcome_bind] in Ht.
  destruct (save_task_state s (current_task s) regs) as [s1|] eqn:Es; [|done].
  cbn [mbind outcome_bind] in Ht. destruct (scheduler_perform_checks s1); [|done].
  cbn [mbind outcome_bind] in Ht. pose proof (timer_between _ _ _ Hok Es) as Hbt.
  match type of Hbt with between_ok ?x => set (s2 := x) in * end. clearbody s2.
  pose proof (collect_exited_ok (exited_queue s2) s2 eq_refl Hbt) as Hc.
  destruct (collect_exited s2 (exited_queue s2)) as [s3|]; [|done]. cbn [mbind outcome_bind] in Ht.
  destruct Hc as (Hok3 & _). apply bind_ret_inv in Ht as (more & _ & Ht).
  destruct more; [|done]. pose proof (task_switch_next_ok s3 now Hok3) as Hsw.
  destruct (task_switch_next s3 now) as [s4|]; [|done]. cbn in Ht. injection Ht as <-. apply Hsw.
Qed.

Lemma usermode_ok s entry s' : jump_to_usermode s entry = Ret (s', Switched) -> sched_ok s -> sched_ok s'.
Proof.
  unfold jump_to_usermode. intros Hj [Hb Ht].
  destruct (deref s (current_task s)); [|done]. cbn [mbind outcome_bind] in Hj.
  destruct (map_new_page (s_env s) USER_STACK 7) as [e|] eqn:Em; [|done]. cbn [mbind outcome_bind] in Hj.
  destruct (update (with_env s e) _ _) as [s1|] eqn:Eu; [|done]. cbn in Hj. injection Hj as <-.
  eapply update_ok in Eu as (Hb1 & Ht1 & Eq & Ec & Ei);
    [|by intros|apply env_ok; [done|by apply (map_keeps _ _ _ _ Em)]|exact Ht].
  split; [by destruct Hb1|].
  pose proof (members_same s s1 Eq Ec Ei) as Hm. unfold tracked in *. by rewrite <- Hm in Ht1.
Qed.

Lemma set_name_ok s name s' : current_task_set_name s name = Ret s' -> sched_ok s -> sched_ok s'.
Proof.
  unfold current_task_set_name. intros Hn [Hb Ht]. invert_ret.
  eapply update_ok in Hn as (Hb1 & Ht1 & Eq & Ec & Ei); [|by intros|done|exact Ht].
  split; [done|]. by rewrite (members_same s s').
Qed.

Lemma exec_ok s filename regs s' regs' v :
  syscall_exec_handler s filename regs = Ret (s', regs', Returns v) -> sched_ok s -> sched_ok s'.
Proof.
  unfold syscall_exec_handler. intros Hx [Hb Ht]. apply bind_ret_inv in Hx as (u & _ & Hx).
  destruct (initrd_get_file (s_env s) filename) as [file|]; [|by injection Hx as <-].
  destruct (vmm_reset_current_pagedir (s_env s)) as [e1|] eqn:Er; [|done]. cbn [mbind outcome_bind] in Hx.
  destruct (load_elf e1 file) as [[entry e2]|] eqn:El; [|done]. cbn [mbind outcome_bind] in Hx.
  destruct (current_task_set_name (with_env s e2) _) as [s2|] eqn:En; [|done]. cbn [mbind outcome_bind] in Hx.
  apply bind_ret_inv in Hx as (pid & _ & Hx). apply bind_ret_inv in Hx as (t & _ & Hx).
  apply bind_ret_inv in Hx as (u2 & _ & Hx). apply bind_ret_inv in Hx as (tk & _ & Hx).
  apply bind_ret_inv in Hx as (u3 & _ & Hx). injection Hx as <- _ _.
  eapply set_name_ok; [done|]. split; [|done]. apply env_ok; [done|]. intros q.
  rewrite (load_keeps _ _ _ _ El), (reset_keeps _ _ Er). done.
Qed.

Lemma hwport_ok s port s' v : syscall_hwportopen_handler s port = Ret (s', Returns v) ->
  sched_ok s -> sched_ok s'.
Proof.
  unfold syscall_hwportopen_handler. intros Hh [Hb Ht].
  destruct (deref s (current_task s)) as [tk|] eqn:Ed; [|done]. cbn [mbind outcome_bind] in Hh.
  destruct (task_iomap_set (t_iomap tk) (s32 port) 1) as [m|] eqn:Em; [|done]. cbn [mbind outcome_bind] in Hh.
  destruct (update s _ _) as [s1|] eqn:Eu; [|done]. cbn in Hh. injection Hh as <- _.
  apply iomap_set_length in Em. unfold deref in Ed. apply of_option_ret in Ed.
  pose proof (b_iomap _ Hb _ _ Ed) as Hlen.
  eapply update_ok in Eu as (Hb1 & Ht1 & Eq & Ec & Ei); [| |done|exact Ht].
  2: { intros tk'. split; [done|]. cbn. intros _. congruence. }
  split; [by destruct Hb1|]. pose proof (members_same s s1 Eq Ec Ei) as Hm.
  unfold tracked in *. by rewrite <- Hm in Ht1.
Qed.

Lemma block_ok s canrecv cansend timeout now regs s' : current_task s <> idle_task s ->
  task_block s canrecv cansend timeout now regs = Ret (s', Switched) -> sched_ok s -> sched_ok s'.
Proof.
  unfold task_block. intros Hci Hk [Hb Ht]. apply bind_ret_inv in Hk as (u & _ & Hk).
  destruct (update s _ _) as [s1|] eqn:Eu; [|done]. cbn [mbind outcome_bind] in Hk.
  eapply update_ok in Eu as (Hb1 & Ht1 & Eq & Ec & Ei); [|by intros|done|exact Ht].
  assert (sched_ok s1) as Hok1 by (split; [done|by rewrite (members_same s s1)]).
  destruct (save_current_task_state s1 regs) as [s2|] eqn:Es; [|done]. cbn [mbind outcome_bind] in Hk.
  pose proof (save_current_ok _ _ _ Es Hok1) as Hok2.
  unfold save_current_task_state in Es. invert_ret.
  destruct (save_task_state_ok _ _ _ _ _ Es Hb1 Ht1) as (_ & _ & _ & Ec2 & Ei2).
  unfold syscall_block_handler in Hk.
  apply (switch_handler_ok s2) in Hk as [Hr _]; try done; [congruence|by apply base_queues; apply Hok2|].
  apply append_sleeping_perm.
Qed.

Lemma sstep_ok s s' : sstep s s' -> sched_ok s -> sched_ok s'.
Proof.
  assert (forall s regs s1, current_task s <> idle_task s -> save_current_task_state s regs = Ret s1 ->
            sched_ok s -> sched_ok s1 /\ current_task s1 <> idle_task s1) as Hsave.
  { intros s0 regs s1 Hci Hs Hok. split; [by eapply save_current_ok|].
    unfold save_current_task_state in Hs. invert_ret. destruct Hok as [Hb Ht].
    destruct (save_task_state_ok _ _ _ _ _ Hs Hb Ht) as (_ & _ & _ & Ec & Ei). congruence. }
  intros Hst Hok. destruct Hst as [s regs now s' Hx|s regs now s1 s' Hci Hs Hx|s regs now s1 s' Hci Hs Hx
    |s a b t now regs s' Hci Hx|s regs s1 s' v Hs Hx|s f regs regs' s' v Hx|s port s' v Hx
    |s pid s' Hx|s port s' Hx|s entry s' Hx].
  - by eapply timer_ok.
  - destruct (Hsave _ _ _ Hci Hs Hok) as [Hok1 Hci1]. unfold syscall_yield_handler in Hx.
    apply (switch_handler_ok s1) in Hx as [Hr _]; try done; [apply base_queues, Hok1|apply append_ready_perm].
  - destruct (Hsave _ _ _ Hci Hs Hok) as [Hok1 Hci1]. unfold syscall_exit_handler in Hx.
    apply (switch_handler_ok s1) in Hx as [Hr _]; try done; [apply base_queues, Hok1|apply append_exited_perm].
  - by eapply block_ok.
  - eapply save_current_ok in Hs; [|done]. by destruct (fork_ok _ _ _ Hx Hs).
  - by eapply exec_ok.
  - by eapply hwport_ok.
  - by eapply task_wake_ok.
  - unfold wake_tasks_waiting_for_port in Hx. apply bind_ret_inv in Hx as (u & _ & Hx).
    destruct (sched_parts s Hok) as (Hn & _). unfold queues in Hn.
    apply NoDup_app in Hn as (_ & _ & Hn). apply NoDup_app in Hn as (Hn & _).
    destruct (wake_waiting_ok port (sleeping_queue s) s Hok Hn) as [Ew Hok']; [done|].
    rewrite Ew in Hx. by injection Hx as <-.
  - by eapply usermode_ok.
Qed.
End checks.
