(* ===== verification/SchedClaims.v ===== *)
(** The properties of the scheduler ([kernel/scheduler.c]). *)
From S2P Require Import Prelude Util Pmm Locks Sched SchedSpec.

(** ** A concrete environment for the witnesses

    The environment is the set of the task structures; address spaces are not
    interpreted. *)
Definition toy_env : Type := gset Z.

Definition toy_fresh (e : toy_env) : Z := fresh ({[0]} ∪ (e : gset Z)).

#[export] Instance toy_task_env : TaskEnv toy_env := {
  kmalloc_task e := Ret (toy_fresh e, {[toy_fresh e]} ∪ (e : gset Z));
  kfree_task e p := Ret ((e : gset Z) ∖ {[p]});
  vmm_clone_pagedir e := Ret (0x5000, e);
  vmm_destroy_pagedir e _ := Ret e;
  vmm_copy_kernel_mappings e _ := Ret e;
  vmm_get_physical _ p := p;
  vmm_reset_current_pagedir e := Ret e;
  map_new_page e _ _ := Ret e;
  initrd_get_file _ _ := Some 1;
  load_elf e _ := Ret (0x1000, e);
  owned e p := p ∈ (e : gset Z)
}.

#[export] Instance toy_task_env_laws : TaskEnvLaws toy_env.
Proof.
  split; cbn; try (intros; by simplify_eq).
  - intros e p e' [= <- <-]. pose proof (is_fresh ({[0]} ∪ (e : gset Z))) as Hf.
    fold (toy_fresh e) in Hf. set (p := toy_fresh e) in *. clearbody p. set_solver.
  - intros e p e' [= <-]. set_solver.
Qed.

(** A start state. *)
Definition toy_start : outcome (sched toy_env * ending) :=
  scheduler_start (∅ : toy_env) 0 0xC0101000 0xC0102000 [107] [105].

(** ** Reachability *)
Section reach.
Context {E : Type} `{TaskEnv E, !TaskEnvLaws E}.

Lemma start_ok (e : E) eflags kt it kn inm r :
  interrupts_enabled eflags = false ->
  scheduler_start e eflags kt it kn inm = Ret r -> sched_ok (fst r).
Proof.
  intros Hi Hs. unfold scheduler_start in Hs.
  set (s0 := mkSched ∅ [] [] [] 0 0 0 eflags e 0 (replicate IOMAP_BYTES 255) zero_context) in *.
  cbn [s_env s0] in Hs. destruct (map_new_page e KERNEL_STACK 3) as [e1|] eqn:Em; [|done].
  cbn [mbind outcome_bind] in Hs. set (s1 := with_tss _ _ _) in Hs.
  destruct (task_create s1 kn) as [[t0 s2]|] eqn:E2; [|done]. cbn [mbind outcome_bind] in Hs.
  destruct (deref s2 t0) as [tk0|]; [|done]. cbn [mbind outcome_bind] in Hs.
  destruct (update s2 t0 _) as [s3|] eqn:E3; [|done]. cbn [mbind outcome_bind] in Hs.
  destruct (task_create s3 inm) as [[t1 s4]|] eqn:E4; [|done]. cbn [mbind outcome_bind] in Hs.
  destruct (deref s4 t1) as [tk1|]; [|done]. cbn [mbind outcome_bind] in Hs.
  destruct (update s4 t1 _) as [s5|] eqn:E5; [|done]. cbn [mbind outcome_bind] in Hs.
  assert (base_ok s1) as Hb1.
  { split; cbn; try done; try (unfold MAX_PID; lia); intros t Ht; rewrite lookup_empty in Ht;
      by destruct Ht. }
  assert (tracked s1 []) as Ht1.
  { split; [apply NoDup_nil_2|]. intros t. cbn. rewrite lookup_empty. split; [by intros [? ?]|].
    intros Hx. by apply elem_of_nil in Hx. }
  destruct (task_create_ok _ _ _ _ _ E2 Hb1 Ht1) as (Hb2 & Ht2 & Eq2 & _).
  eapply update_ok in E3 as (Hb3 & Ht3 & Eq3 & _); [|by intros|done|exact Ht2].
  destruct (task_create_ok _ _ _ _ _ E4 Hb3 Ht3) as (Hb4 & Ht4 & Eq4 & _ & _ & Ht1z & Ht1n & _).
  eapply update_ok in E5 as (Hb5 & Ht5 & Eq5 & _); [|by intros|done|exact Ht4].
  assert (queues (with_idle s5 t1) = []) as Hq.
  { change (queues (with_idle s5 t1)) with (queues s5). by rewrite Eq5, Eq4, Eq3, Eq2. }
  assert (t0 <> t1) as Hne by (intros ->; apply Ht1n; left).
  pose proof (task_switch_ok (with_idle s5 t1) t0 [t0; t1]) as Hsw. ospecialize* Hsw.
  - by destruct Hb5.
  - eapply (tracked_perm (with_idle s5 t1) [t1; t0]); [apply perm_swap|exact Ht5].
  - intros ->. destruct Ht2 as [_ Hd]. destruct (proj2 (Hd 0)) as [tk Hk]; [left|].
    by rewrite (b_zero _ Hb2) in Hk.
  - cbn [with_idle idle_task]. rewrite (proj2 (Z.eqb_neq _ _)) by done. by rewrite Hq.
  - destruct (task_switch (with_idle s5 t1) t0) as [s6|]; [|done]. cbn in Hs. injection Hs as <-.
    apply Hsw.
Qed.
End reach.

(** C3: Every state the kernel can reach from [scheduler_start] by scheduler ticks and
    system calls satisfies the scheduler invariant: each task structure is the running
    task, the idle task, or in exactly one queue, once (no task is lost, duplicated or
    queued while it runs); the structures are allocated; pids are distinct and below 64;
    interrupts are off in the kernel. *)
Theorem sched_reachable_ok {E : Type} `{TaskEnv E, !TaskEnvLaws E} (e : E) (eflags kt it : Z)
    (kn inm : list Z) (s0 s : sched E) (r : ending) :
  interrupts_enabled eflags = false ->
  scheduler_start e eflags kt it kn inm = Ret (s0, r) -> rtc sstep s0 s -> sched_ok s.
Proof.
  intros Hi Hs Hst. pose proof (start_ok e eflags kt it kn inm (s0, r) Hi Hs) as H0. cbn in H0.
  clear Hs. induction Hst as [|s1 s2 s3 H12 _ IH]; [done|]. apply IH. by eapply sstep_ok.
Qed.

(** The first task blocks. *)
Definition toy_regs : isr_regs := mkRegs 16 0 0 0 0 0 0 0 17 128 0 0 8 0 0 0.
Definition toy_run : bool :=
  match toy_start with
  | Ret (s0, _) =>
      negb (current_task s0 =? idle_task s0) &&
      match task_block s0 (-1) (-1) 10 0 toy_regs with
      | Ret (s1, Switched) => bool_decide (sleeping_queue s1 = [current_task s0])
      | _ => false
      end
  | _ => false
  end.
Lemma toy_run_true : toy_run = true.
Proof. vm_compute. reflexivity. Qed.

Lemma sched_reachable_ok_witness : exists s0 s1 r,
  toy_start = Ret (s0, r) /\ rtc sstep s0 s1 /\ sched_ok s1 /\
  sleeping_queue s1 = [current_task s0].
Proof.
  pose proof toy_run_true as Hrun. unfold toy_run in Hrun.
  destruct toy_start as [[s0 r]|f] eqn:E0; [|discriminate Hrun].
  apply andb_true_iff in Hrun as [Hci Hrun]. apply negb_true_iff, Z.eqb_neq in Hci.
  destruct (task_block s0 (-1) (-1) 10 0 toy_regs) as [[s1 []]|f] eqn:E1; try discriminate Hrun.
  apply bool_decide_eq_true in Hrun.
  assert (rtc sstep s0 s1) as Hst.
  { apply rtc_once. exact (step_block s0 (-1) (-1) 10 0 toy_regs s1 Hci E1). }
  exists s0, s1, r. split; [reflexivity|]. split; [exact Hst|]. split; [|exact Hrun].
  exact (sched_reachable_ok (∅ : toy_env) 0 0xC0101000 0xC0102000 [107] [105] s0 s1 r eq_refl E0 Hst).
Defined.

(** ** Choice of the next task *)

(** The tasks left in the queues by the policy have pids that differ modulo 32 if at most 32
    pids have been handed out. *)
Lemma pick_pids {E : Type} `{TaskEnv E, !TaskEnvLaws E} (s : sched E) (now : Z) : between_ok s ->
  next_pid_value s <= 32 -> NoDup (pids_mod32 (snd (pick s now))).
Proof.
  intros [Hb Ht] H32.
  destruct (tracked_queue_parts s Ht) as (Hnq & Hnr & Hns & Hne & _).
  assert (NoDup (pids_mod32 s)) as Hnd.
  { apply (pids_mod32_ok s (idle_task s :: queues s)); try done. intros x Hx. by right. }
  unfold pids_mod32 in *. unfold pick.
  destruct (filter _ (sleeping_queue s)) as [|t ts] eqn:Ef.
  - destruct (ready_queue s) as [|t r] eqn:Er; [done|]. cbn [snd].
    unfold queues in *. cbn. rewrite Er in Hnd. cbn in Hnd. by apply NoDup_cons in Hnd as [_ ?].
  - cbn [snd]. unfold queues in *. cbn.
    eapply (sublist_NoDup _ (map (fun t => pid_of s t mod 32) _)); [exact Hnd|].
    apply (fmap_sublist (fun t => pid_of s t mod 32)).
    apply sublist_app; [done|]. apply sublist_app; [|done]. apply sublist_filter.
Qed.


(** The start state of the toy kernel. *)
Lemma toy_start_ok : exists s0, toy_start = Ret (s0, Switched) /\ sched_ok s0 /\
  current_task s0 <> idle_task s0 /\ next_pid_value s0 = 2 /\ queues s0 = [].
Proof.
  assert (match toy_start with
          | Ret (s0, Switched) => negb (current_task s0 =? idle_task s0) &&
              (next_pid_value s0 =? 2) && bool_decide (queues s0 = [])
          | _ => false end = true) as Hrun by (vm_compute; reflexivity).
  destruct toy_start as [[s0 []]|] eqn:E0; try discriminate Hrun.
  apply andb_true_iff in Hrun as [Hrun Hq]. apply andb_true_iff in Hrun as [Hc Hn].
  exists s0. split; [done|]. split; [by eapply (start_ok (∅ : toy_env) 0) in E0|].
  breflect. apply bool_decide_eq_true in Hq. done.
Qed.


(** ** The consistency checks *)

(** In a state of the invariant, [scheduler_perform_checks] passes exactly when the pids
    of the queued tasks are pairwise distinct modulo 32: the set of encountered pids is
    kept with [1 << pid], an [int] shift, so two live tasks whose pids differ by 32 abort
    the kernel although nothing is wrong. With at most 32 pids handed out it always
    passes. *)
Theorem scheduler_perform_checks_spec {E : Type} `{TaskEnv E, !TaskEnvLaws E} (s : sched E) :
  sched_ok s ->
  scheduler_perform_checks s = (if bool_decide (NoDup (pids_mod32 s)) then Ret tt else Fault FAssert) /\
  (next_pid_value s <= 32 -> scheduler_perform_checks s = Ret tt) /\
  (forall t1 t2, t1 ∈ queues s -> t2 ∈ queues s -> pid_of s t2 = pid_of s t1 + 32 ->
     scheduler_perform_checks s = Fault FAssert).
Proof.
  intros Hok. pose proof (checks_in_ok s Hok) as Heq.
  destruct (sched_parts s Hok) as (Hn & _). destruct Hok as [Hb Ht].
  split; [done|]. split.
  - intros H32. rewrite Heq. rewrite bool_decide_eq_true_2; [done|].
    apply (pids_mod32_ok s (members s)); try done. intros x Hx. unfold members.
    destruct (_ =? _); [by right|by right; right].
  - intros t1 t2 H1 H2 Ep. rewrite Heq. rewrite bool_decide_eq_false_2; [done|]. intros Hnd.
    assert (t1 <> t2) as Hne by (intros ->; lia).
    apply list_elem_of_lookup in H1 as [i Hli]. apply list_elem_of_lookup in H2 as [j Hlj].
    unfold pids_mod32 in Hnd. rewrite NoDup_alt in Hnd.
    assert (i = j) as ->; [|congruence].
    apply (Hnd i j (pid_of s t1 mod 32)).
    + rewrite (list_lookup_fmap (fun t => pid_of s t mod 32)), Hli. done.
    + rewrite (list_lookup_fmap (fun t => pid_of s t mod 32)), Hlj. cbn. rewrite Ep. f_equal.
      by rewrite <- (Z.add_mod_idemp_r _ 32), Z.mod_same, Z.add_0_r by lia.
Qed.

Lemma scheduler_perform_checks_spec_witness : exists s0 : sched toy_env,
  toy_start = Ret (s0, Switched) /\ scheduler_perform_checks s0 = Ret tt.
Proof.
  destruct toy_start_ok as (s0 & E0 & Hok & _ & Hn & _). exists s0. split; [exact E0|].
  apply (scheduler_perform_checks_spec s0 Hok). lia.
Defined.

(** ** Sleeping *)

(** A task that blocks with a finite timeout never wakes by its deadline:
    [task_block] stores the deadline 0 for every timeout other than [SLEEP_INFINITE], and
    [task_switch_next] ignores deadline 0, so the task is not chosen at any later time
    until another task wakes it. With [SLEEP_INFINITE] it stores the deadline
    [now + 0xFFFFFFFF]. *)
Theorem task_block_deadline {E : Type} `{TaskEnv E, !TaskEnvLaws E} (s s' : sched E)
    (canrecv cansend timeout now : Z) (regs : isr_regs) :
  sched_ok s -> task_block s canrecv cansend timeout now regs = Ret (s', Switched) ->
  exists tk, tasks s' !! current_task s = Some tk /\
    t_wait_canrecv_port tk = canrecv /\ t_wait_cansend_port tk = cansend /\
    (timeout <> SLEEP_INFINITE -> t_sleep_deadline tk = 0 /\
       forall later, expired s' later (current_task s) = false) /\
    (timeout = SLEEP_INFINITE -> t_sleep_deadline tk = u64 (now + 0xFFFFFFFF)).
Proof.
  intros Hok Hk. destruct (sched_parts s Hok) as (_ & _ & _ & [tk Htk] & _).
  unfold task_block in Hk. apply bind_ret_inv in Hk as (u & _ & Hk).
  destruct (update s _ _) as [s1|] eqn:Eu; [|done]. cbn [mbind outcome_bind] in Hk.
  apply update_inv in Eu as (tk' & Htk' & ->). rewrite Htk in Htk'. injection Htk' as <-.
  set (tk1 := set_wait tk _ _ _) in Hk.
  destruct (save_current_task_state _ regs) as [s2|] eqn:Es; [|done]. cbn [mbind outcome_bind] in Hk.
  unfold save_current_task_state in Es. invert_ret. unfold save_task_state in Es.
  invert_ret. apply update_inv in Es as (tk2 & Htk2 & ->). cbn in Htk2. rewrite lookup_insert_eq in Htk2.
  injection Htk2 as <-. unfold syscall_block_handler in Hk.
  apply bind_ret_inv in Hk as (s3 & Hsw & Hk). injection Hk as <-.
  assert (tasks s3 !! current_task s = Some (set_context tk1 a2)) as Ht3.
  { apply task_switch_next_tasks in Hsw. rewrite Hsw. cbn. apply lookup_insert_eq. }
  exists (set_context tk1 a2). split; [done|]. cbn. split; [done|]. split; [done|]. split.
  - intros Hne. rewrite (proj2 (Z.eqb_neq _ _)) by done. split; [done|]. intros later.
    unfold expired. rewrite Ht3. cbn. by rewrite (proj2 (Z.eqb_neq _ _)).
  - intros ->. done.
Qed.

Lemma task_block_deadline_witness : exists s0 s1 tk,
  toy_start = Ret (s0, Switched) /\ task_block s0 (-1) (-1) 10 0 toy_regs = Ret (s1, Switched) /\
  tasks s1 !! current_task s0 = Some tk /\ t_sleep_deadline tk = 0.
Proof.
  destruct toy_start_ok as (s0 & E0 & Hok & _).
  pose proof toy_run_true as Hrun. unfold toy_run in Hrun. rewrite E0 in Hrun.
  apply andb_true_iff in Hrun as [_ Hrun].
  destruct (task_block s0 (-1) (-1) 10 0 toy_regs) as [[s1 []]|f] eqn:E1; try discriminate Hrun.
  destruct (task_block_deadline s0 s1 (-1) (-1) 10 0 toy_regs Hok E1) as (tk & Ht & _ & _ & Hd & _).
  exists s0, s1, tk. split; [exact E0|]. split; [exact E1|]. split; [exact Ht|].
  apply Hd. unfold SLEEP_INFINITE. lia.
Defined.

Lemma may_wakeup_false {E : Type} `{TaskEnv E} (s : sched E) : forall q,
  (forall t, t ∈ q -> is_Some (tasks s !! t)) -> may_wakeup_loop s q false = Ret false.
Proof.
  induction q as [|t q IH]; intros Hq; [done|]. cbn [may_wakeup_loop].
  destruct (Hq t) as [tk Ht]; [left|]. unfold deref. rewrite Ht. cbn [of_option mbind outcome_bind].
  destruct (negb _); [done|]. apply IH. intros. apply Hq. by right.
Qed.

(** When the idle task runs and the ready queue is empty, the scheduler tick reboots the
    machine, even if a task sleeps with a deadline that is still to come: the loop that
    looks for such a task stores [false] in [may_wakeup] where [true] is meant. The other
    outcomes are a register frame with an invalid code segment, the pid check, and faults
    while the exited tasks are collected. *)
Theorem scheduler_timer_reboots {E : Type} `{TaskEnv E, !TaskEnvLaws E} (s : sched E)
    (regs : isr_regs) (now : Z) :
  sched_ok s -> current_task s = idle_task s -> ready_queue s = [] ->
  match scheduler_timer s regs now with
  | Ret (_, e) => e = Rebooted
  | Fault f => (f = FPanic /\ save_context zero_context regs = Fault FPanic) \/
      (f = FAssert /\ ~ NoDup (pids_mod32 s)) \/ env_faults f
  end.
Proof.
  intros Hok Hci Hr. unfold scheduler_timer.
  destruct (sched_parts s Hok) as (_ & _ & _ & [tk Htk] & _).
  assert (current_task s <> 0) as Hz.
  { intros Hz. by rewrite Hz, (b_zero _ (proj1 Hok)) in Htk. }
  rewrite nz_true by done. cbn [c_assert mbind outcome_bind].
  destruct (save_task_state s (current_task s) regs) as [s1|f] eqn:Es; cbn [mbind outcome_bind]; cycle 1.
  { left. unfold save_task_state, deref, update, deref in Es. rewrite Htk in Es.
    cbn [of_option mbind outcome_bind] in Es. unfold save_context in *.
    destruct (Z.land _ _ =? KERNEL_CODE_SEG); [done|].
    destruct (Z.land _ _ =? USER_CODE_SEG); [done|]. cbn in *. by injection Es as <-. }
  destruct (save_task_state_ok _ _ _ _ _ Es (proj1 Hok) (proj2 Hok)) as (Hb1 & Ht1 & Eq & Ec & Ei).
  assert (sched_ok s1) as Hok1 by (split; [done|by rewrite (members_same s s1)]).
  rewrite checks_in_ok by done.
  apply save_task_state_inv in Es as (tk' & c & Htk' & _ & ->). set (s1 := with_tasks _ _) in *.
  assert (pids_mod32 s1 = pids_mod32 s) as ->.
  { unfold pids_mod32. rewrite Eq. apply (list_fmap_ext (fun t => pid_of s1 t mod 32)
      (fun t => pid_of s t mod 32)). intros i t _. unfold s1. by rewrite pid_of_context. }
  case_bool_decide as Hnd; cbn [mbind outcome_bind]; [|right; by left].
  rewrite Ec, Ei, Hci, Z.eqb_refl. cbn [negb].
  assert (between_ok s1) as Hbt.
  { split; [done|]. destruct Hok1 as [_ H1]. unfold members in H1.
    by rewrite Ec, Hci, Ei, Z.eqb_refl in H1; rewrite Ei. }
  pose proof (collect_exited_ok (exited_queue s1) s1 eq_refl Hbt) as Hc.
  destruct (collect_exited s1 (exited_queue s1)) as [s2|f]; cbn [mbind outcome_bind]; [|by right; right].
  destruct Hc as ([Hb2 Ht2] & _ & Hr2 & _). change (ready_queue s1) with (ready_queue s) in Hr2.
  rewrite Hr2, Hr. destruct (tracked_queue_parts s2 Ht2) as (_ & _ & _ & _ & _ & Hd2).
  destruct (sleeping_queue s2) as [|t q] eqn:Esl; [done|].
  rewrite may_wakeup_false; [done|]. intros x Hx. apply Hd2. unfold queues. rewrite Esl.
  apply elem_of_app. right. apply elem_of_app. by left.
Qed.

(** The kernel task blocked forever: the idle task runs, nothing is ready. *)
Definition toy_blocked (s0 : sched toy_env) : outcome (sched toy_env * ending) :=
  task_block s0 (-1) (-1) SLEEP_INFINITE 0 toy_regs.

Lemma toy_blocked_ok : exists s0 s1, toy_start = Ret (s0, Switched) /\
  toy_blocked s0 = Ret (s1, Switched) /\ sched_ok s1 /\ current_task s1 = idle_task s1 /\
  ready_queue s1 = [] /\ sleeping_queue s1 = [current_task s0].
Proof.
  destruct toy_start_ok as (s0 & E0 & Hok & Hci & _).
  assert (match toy_start with
          | Ret (s0, _) => match toy_blocked s0 with
              | Ret (s1, Switched) => (current_task s1 =? idle_task s1) && bool_decide (ready_queue s1 = [])
                  && bool_decide (sleeping_queue s1 = [current_task s0])
              | _ => false end
          | _ => false end = true) as Hrun by (vm_compute; reflexivity).
  rewrite E0 in Hrun. destruct (toy_blocked s0) as [[s1 []]|] eqn:E1; try discriminate Hrun.
  apply andb_true_iff in Hrun as [Hrun Hs]. apply andb_true_iff in Hrun as [Hc Hr].
  apply bool_decide_eq_true in Hs, Hr. apply Z.eqb_eq in Hc.
  exists s0, s1. split; [done|]. split; [done|]. split; [|done]. by eapply block_ok.
Qed.

Lemma scheduler_timer_reboots_witness : exists s1 s2,
  expired s1 0xFFFFFFFF (hd 0 (sleeping_queue s1)) = true /\
  scheduler_timer (E := toy_env) s1 toy_regs 50 = Ret (s2, Rebooted).
Proof.
  destruct toy_blocked_ok as (s0 & s1 & E0 & E1 & Hok & Hci & Hr & Hs).
  exists s1. pose proof (scheduler_timer_reboots s1 toy_regs 50 Hok Hci Hr) as Ht.
  assert (match toy_start with
          | Ret (s0, _) => match toy_blocked s0 with
              | Ret (s1, _) => expired s1 0xFFFFFFFF (hd 0 (sleeping_queue s1)) &&
                  is_ret (scheduler_timer s1 toy_regs 50)
              | _ => false end
          | _ => false end = true) as Hrun by (vm_compute; reflexivity).
  rewrite E0, E1 in Hrun. apply andb_true_iff in Hrun as [He Hrun].
  destruct (scheduler_timer s1 toy_regs 50) as [[s2 e]|f]; [|discriminate Hrun].
  exists s2. split; [exact He|]. by rewrite Ht.
Defined.

(** ** Waking *)

(** [wake_tasks_waiting_for_port] moves exactly the sleeping tasks that wait to send to
    the port to the end of the ready queue, in the order they slept, leaves the others
    asleep, and keeps the scheduler invariant. *)
Theorem wake_tasks_spec {E : Type} `{TaskEnv E, !TaskEnvLaws E} (s : sched E) (port : Z) :
  sched_ok s ->
  exists s', wake_tasks_waiting_for_port s port = Ret s' /\ sched_ok s' /\
    ready_queue s' = ready_queue s ++ filter (fun t => waits_to_send s port t) (sleeping_queue s) /\
    sleeping_queue s' = filter (fun t => ~ waits_to_send s port t) (sleeping_queue s) /\
    exited_queue s' = exited_queue s /\ tasks s' = tasks s /\ current_task s' = current_task s.
Proof.
  intros Hok. unfold wake_tasks_waiting_for_port, irqs_off. rewrite (b_irq _ (proj1 Hok)).
  cbn [negb c_assert mbind outcome_bind]. destruct (sched_parts s Hok) as (Hn & _). unfold queues in Hn.
  apply NoDup_app in Hn as (_ & _ & Hn). apply NoDup_app in Hn as (Hn & _).
  destruct (wake_waiting_ok port (sleeping_queue s) s Hok Hn) as [-> Hok']; [done|].
  eexists. split; [done|]. split; [exact Hok'|]. split; [done|]. split; [|done].
  cbn [with_queues sleeping_queue]. apply list_filter_ext_in. tauto.
Qed.

Lemma wake_tasks_spec_witness : exists (s1 s2 : sched toy_env),
  sched_ok s1 /\ sleeping_queue s1 <> [] /\
  wake_tasks_waiting_for_port s1 (-1) = Ret s2 /\ sched_ok s2.
Proof.
  destruct toy_blocked_ok as (s0 & s1 & E0 & E1 & Hok & _ & _ & Hs).
  destruct (wake_tasks_spec s1 (-1) Hok) as (s2 & E2 & Hok2 & _).
  exists s1, s2. split; [exact Hok|]. split; [rewrite Hs; discriminate|]. split; [exact E2|exact Hok2].
Defined.

(** ** Processes *)

(** C19: [fork] is total: with a valid register frame, a free pid, and memory for the task
    structure and the copy of the address space, it returns the next pid to the parent,
    appends one new task to the ready queue, changes no other task and keeps the scheduler
    invariant. The child has that pid, the parent's name, the copied page directory, and
    the registers of the parent at the system call except that its [eax] is 0, so [fork]
    returns 0 in the child. The 64th pid aborts the kernel. *)
Theorem fork_spec {E : Type} `{TaskEnv E, !TaskEnvLaws E} (s : sched E) (regs : isr_regs) (parent : task)
    (t pagedir : Z) (e e' : E) (c : context) :
  sched_ok s -> tasks s !! current_task s = Some parent -> save_context zero_context regs = Ret c ->
  kmalloc_task (s_env s) = Ret (t, e) -> vmm_clone_pagedir e = Ret (pagedir, e') ->
  (next_pid_value s < MAX_PID -> exists s' iomap,
     let child := mkTask (next_pid_value s) (take 31 (t_name parent)) pagedir
       (mkCtx (c_cs c) (c_ds c) (c_ss c) (vmm_get_physical e' pagedir)
          (c_esp c) (c_eflags c) (c_eip c) (c_edi c) (c_esi c) (c_edx c) (c_ecx c) (c_ebx c) 0 (c_ebp c))
       iomap 0 0 0 in
     syscall_fork_handler s regs = Ret (s', Returns (next_pid_value s)) /\ sched_ok s' /\
     tasks s !! t = None /\ tasks s' = <[t := child]> (tasks s) /\
     ready_queue s' = ready_queue s ++ [t] /\ s_env s' = e') /\
  (MAX_PID <= next_pid_value s -> syscall_fork_handler s regs = Fault FAssert).
Proof.
  intros Hok Hpar Hc Hk Hv.
  assert (exists io, task_iomap_set (replicate IOMAP_BYTES 0xFF) DEBUG_PORT 1 = Ret io) as [io Hio]
    by (eexists; vm_compute; reflexivity).
  assert (tasks s !! t = None) as Hnone.
  { destruct (kmalloc_fresh _ _ _ Hk) as (_ & Hno & _). destruct (tasks s !! t) eqn:Et; [|done].
    destruct Hno. apply (b_owned _ (proj1 Hok)). by rewrite Et. }
  assert (syscall_fork_handler s regs =
      (if next_pid_value s <? MAX_PID then
         Ret (append_ready (with_env (with_tasks (with_pid s (s32 (next_pid_value s + 1))) (<[t :=
           mkTask (next_pid_value s) (take 31 (t_name parent)) pagedir
             (mkCtx (c_cs c) (c_ds c) (c_ss c) (vmm_get_physical e' pagedir) (c_esp c) (c_eflags c) (c_eip c)
                (c_edi c) (c_esi c) (c_edx c) (c_ecx c) (c_ebx c) 0 (c_ebp c)) io 0 0 0]> (tasks s))) e') t,
           Returns (next_pid_value s))
       else Fault FAssert)) as Hrun.
  { unfold syscall_fork_handler, deref, task_create. rewrite Hpar. cbn [of_option mbind outcome_bind].
    rewrite Hk. cbn [mbind outcome_bind]. rewrite Hio. cbn [mbind outcome_bind].
    destruct (next_pid_value s <? MAX_PID); [|done]. cbn [c_assert mbind outcome_bind]. rewrite Hv.
    cbn [mbind outcome_bind]. unfold save_task_state, update, deref. cbn. repeat (rewrite lookup_insert_eq; cbn).
    rewrite Hc. cbn. repeat (rewrite lookup_insert_eq; cbn). by rewrite !insert_insert_eq. }
  split; intros Hp; [|rewrite Hrun; by rewrite (proj2 (Z.ltb_ge _ _)) by done].
  rewrite (proj2 (Z.ltb_lt _ _)) in Hrun by done. eexists _, io. split; [exact Hrun|].
  split; [by apply (fork_ok s regs _ Hrun Hok)|]. by repeat split.
Qed.

Lemma fork_spec_witness : exists (s0 s1 : sched toy_env),
  toy_start = Ret (s0, Switched) /\ syscall_fork_handler s0 toy_regs = Ret (s1, Returns 2).
Proof.
  destruct toy_start_ok as (s0 & E0 & Hok & _ & Hn & _).
  assert (match toy_start with
          | Ret (s0, _) => bool_decide (is_Some (tasks s0 !! current_task s0))
          | _ => false end = true) as Hp by (vm_compute; reflexivity).
  rewrite E0 in Hp. apply bool_decide_eq_true in Hp as [parent Hp].
  destruct (fork_spec s0 toy_regs parent (toy_fresh (s_env s0)) 0x5000 ({[toy_fresh (s_env s0)]} ∪ (s_env s0 : gset Z))
    ({[toy_fresh (s_env s0)]} ∪ (s_env s0 : gset Z)) _ Hok Hp eq_refl eq_refl eq_refl) as [H _].
  destruct H as (s1 & io & E1 & _); [rewrite Hn; reflexivity|]. rewrite Hn in E1.
  exists s0, s1. split; [exact E0|exact E1].
Defined.

(** C20: [exec] of a file of the ram disk whose name has at most 31 characters resumes the
    task at the entry point with a fresh user stack, interrupts enabled and the new name.
    With a longer name the kernel aborts: the name is cut to the 31 characters of the task
    structure and then compared with the longer copy by an assertion. *)
Theorem exec_spec {E : Type} `{TaskEnv E, !TaskEnvLaws E} (s : sched E) (filename : list Z)
    (regs : isr_regs) (file entry : Z) (e1 e2 : E) :
  sched_ok s -> filename <> [] -> initrd_get_file (s_env s) filename = Some file ->
  vmm_reset_current_pagedir (s_env s) = Ret e1 -> load_elf e1 file = Ret (entry, e2) ->
  ((length filename <= 31)%nat -> exists s' regs',
     syscall_exec_handler s filename regs = Ret (s', regs', Returns 0) /\ sched_ok s' /\
     r_eip regs' = entry /\ r_useresp regs' = USER_STACK + PAGE_SIZE /\
     interrupts_enabled (r_eflags regs') = true /\
     (exists tk, tasks s' !! current_task s = Some tk /\ t_name tk = filename)) /\
  ((31 < length filename)%nat -> syscall_exec_handler s filename regs = Fault FAssert).
Proof.
  intros Hok Hne Hfile Hreset Hload.
  destruct (sched_parts s Hok) as (_ & _ & _ & [ck Hck] & [ik Hik] & _). pose proof Hok as [Hb Ht].
  assert (current_task s <> 0) as Hz by (intros Hz; by rewrite Hz, (b_zero _ Hb) in Hck).
  set (nm := take 31 (take 63 filename)).
  set (s2 := with_tasks (with_env s e2) (<[current_task s := set_name ck nm]> (tasks s))).
  assert (current_task_set_name (with_env s e2) (take 63 filename) = Ret s2) as Hset.
  { unfold current_task_set_name, irqs_off, update, deref. cbn. rewrite (b_irq _ Hb). cbn. by rewrite Hck. }
  assert (current_task_pid s2 = Ret (t_pid ck)) as Hpid.
  { unfold current_task_pid, irqs_off, deref. cbn. rewrite (b_irq _ Hb). cbn. rewrite nz_true by done.
    by rewrite lookup_insert_eq. }
  assert (task_get s2 (t_pid ck) = Ret (current_task s)) as Hget.
  { unfold task_get, deref. cbn. rewrite lookup_insert_eq.
    destruct (decide (current_task s = idle_task s)) as [Eci|Hci].
    - rewrite <- Eci, lookup_insert_eq. cbn. by rewrite Z.eqb_refl.
    - rewrite lookup_insert_ne, Hik by done. cbn. rewrite (proj2 (Z.eqb_neq _ _)).
      + cbn. by rewrite Z.eqb_refl.
      + intros Ep. apply Hci. by eapply (b_pids _ Hb). }
  assert (forall P, syscall_exec_handler s filename regs = P <->
    (_ ← c_assert (bool_decide (nm = take 63 filename));
     Ret (s2, mkRegs (r_ds regs) (r_edi regs) (r_esi regs) (r_ebp regs) (USER_STACK + PAGE_SIZE) (r_ebx regs)
          (r_edx regs) (r_ecx regs) (r_eax regs) (r_int_no regs) (r_err_code regs) entry
          (r_cs regs) (Z.lor (s_eflags s) EFLAGS_IF) (USER_STACK + PAGE_SIZE) (r_ss regs), Returns 0)) = P) as Heq.
  { intros P. unfold syscall_exec_handler. rewrite bool_decide_eq_false_2 by done.
    cbn [negb c_assert mbind outcome_bind]. rewrite Hfile, Hreset. cbn [mbind outcome_bind].
    rewrite Hload. cbn [mbind outcome_bind]. rewrite Hset. cbn [mbind outcome_bind].
    rewrite Hpid. cbn [mbind outcome_bind]. rewrite Hget. cbn [mbind outcome_bind].
    change (current_task s2) with (current_task s). rewrite Z.eqb_refl. cbn [c_assert mbind outcome_bind].
    unfold deref. cbn [s2 with_tasks tasks]. rewrite lookup_insert_eq. done. }
  split; intros Hlen.
  - eexists s2, _. rewrite Heq. assert (nm = filename) as Enm.
    { unfold nm. rewrite !take_ge; [done|lia|rewrite take_ge; lia]. }
    rewrite bool_decide_eq_true_2 by (rewrite Enm, take_ge; [done|lia]). split; [done|].
    split; [|split; [done|split; [done|split]]].
    + eapply set_name_ok; [exact Hset|]. split; [|done]. apply env_ok; [done|]. intros q.
      by rewrite (load_keeps _ _ _ _ Hload), (reset_keeps _ _ Hreset).
    + cbn. fold (sti (s_eflags s)). rewrite (proj2 (EFLAGS_IF_bit (sti (s_eflags s)) 0 ltac:(lia))).
      by rewrite sti_bits by lia.
    + eexists. cbn. split; [apply lookup_insert_eq|]. done.
  - rewrite Heq. rewrite bool_decide_eq_false_2; [done|]. intros En.
    apply (f_equal length) in En. unfold nm in En. rewrite !length_take in En. lia.
Qed.

Lemma exec_spec_witness : exists (s0 s1 : sched toy_env) regs',
  toy_start = Ret (s0, Switched) /\
  syscall_exec_handler s0 [97; 98] toy_regs = Ret (s1, regs', Returns 0) /\
  r_eip regs' = 0x1000 /\
  syscall_exec_handler s0 (replicate 32 97) toy_regs = Fault FAssert.
Proof.
  destruct toy_start_ok as (s0 & E0 & Hok & _).
  destruct (exec_spec s0 [97; 98] toy_regs 1 0x1000 (s_env s0) (s_env s0) Hok) as [H1 _];
    [discriminate|reflexivity|reflexivity|reflexivity|].
  destruct (exec_spec s0 (replicate 32 97) toy_regs 1 0x1000 (s_env s0) (s_env s0) Hok) as [_ H2];
    [discriminate|reflexivity|reflexivity|reflexivity|].
  destruct H1 as (s1 & regs' & E1 & _ & He & _); [simpl; lia|].
  exists s0, s1, regs'. split; [exact E0|]. split; [exact E1|]. split; [exact He|].
  apply H2. simpl. lia.
Defined.
