(* ===== verification/KernelTask.v ===== *)
(** [kernel/kernel_task.c]: the requests the kernel itself serves. The message loop and the
    stubs are generated code ([RpcClaims]); [kernel_reboot] only reboots. *)
From S2P Require Import Prelude Util Pmm Locks Sched SchedSpec.

Section kernel_task.
Context {E : Type} `{TaskEnv E}.

Definition with_eflags (s : sched E) (f : Z) : sched E :=
  mkSched (tasks s) (ready_queue s) (sleeping_queue s) (exited_queue s) (next_pid_value s)
    (current_task s) (idle_task s) f (s_env s) (tss_esp0 s) (tss_iomap s) (cpu s).

Definition sizeof_task_info : Z := 68.

(** [handle_kernel_get_task_info]: the result, what is stored in the buffer, the new value
    of [*buffer_size]. *)
Definition handle_kernel_get_task_info (s : sched E) (pid buffer_size : Z)
    : outcome (Z * option (Z * list Z) * Z * sched E) :=
  if buffer_size <? sizeof_task_info then Ret (-1, None, buffer_size, s)
  else
    let '(ifstate, eflags) := disable_if (s_eflags s) in
    success ← get_task_info (with_eflags s eflags) pid;
    let s := with_eflags s (restore_if eflags ifstate) in
    match success with
    | None => Ret (-1, None, buffer_size, s)
    | Some ti => Ret (0, Some ti, sizeof_task_info, s)
    end.

(** The tasks that can be asked for: idle, running, ready or sleeping. *)
Definition known_task (s : sched E) (t : Z) : Prop :=
  t = idle_task s \/ t = current_task s \/ t ∈ ready_queue s \/ t ∈ sleeping_queue s.

Lemma task_get_cases s pid : sched_ok s ->
  exists t, task_get s pid = Ret t /\
    ((t = 0 /\ forall u, known_task s u -> pid_of s u <> pid) \/
     (t <> 0 /\ known_task s t /\ pid_of s t = pid)).
Proof.
  intros Hok. destruct (sched_parts s Hok) as (_ & _ & _ & [ck Hck] & [ik Hik] & Hd). destruct Hok as [Hb _].
  assert (forall t tk, tasks s !! t = Some tk -> t <> 0) as Hz.
  { intros t tk Ht ->. by rewrite (b_zero _ Hb) in Ht. }
  unfold task_get, deref. rewrite Hik. cbn [of_option mbind outcome_bind].
  assert (pid_of s (idle_task s) = t_pid ik) as Hpi by (unfold pid_of; by rewrite Hik).
  destruct (pid =? t_pid ik) eqn:Ei; breflect.
  { exists (idle_task s). split; [done|]. right. split; [by eapply Hz|]. split; [by left|congruence]. }
  rewrite Hck. cbn [of_option mbind outcome_bind].
  assert (pid_of s (current_task s) = t_pid ck) as Hpc by (unfold pid_of; by rewrite Hck).
  destruct (pid =? t_pid ck) eqn:Ec; breflect.
  { exists (current_task s). split; [done|]. right. split; [by eapply Hz|]. split; [by right; left|congruence]. }
  destruct (find_pid_ok s pid (ready_queue s)) as (x & -> & Hx).
  { intros y Hy. apply Hd. unfold queues. apply elem_of_app. by left. }
  cbn [mbind outcome_bind]. destruct (nz x) eqn:Ex.
  { apply nz_spec in Ex. destruct Hx as [[? _]|[Hx Hp]]; [done|]. exists x. split; [done|]. right.
    split; [done|]. split; [by do 2 right; left|done]. }
  assert (forall u, u ∈ ready_queue s -> pid_of s u <> pid) as Hnr.
  { destruct Hx as [[_ Hx]|[Hx _]]; [done|]. apply negb_false_iff, Z.eqb_eq in Ex. subst x.
    destruct (Hd 0) as [_ H0]; [unfold queues; apply elem_of_app; by left|done]. }
  destruct (find_pid_ok s pid (sleeping_queue s)) as (y & -> & Hy).
  { intros y Hy. apply Hd. unfold queues. apply elem_of_app. right. apply elem_of_app. by left. }
  exists y. split; [done|]. destruct Hy as [[-> Hy]|[Hy Hp]].
  - left. split; [done|]. intros u [->|[->|[Hu|Hu]]]; [congruence|congruence|by apply Hnr|by apply Hy].
  - right. split; [|by split; [do 3 right|]].
    apply Hd. unfold queues. apply elem_of_app. right. apply elem_of_app. by left.
Qed.

Lemma find_pid_eflags s f pid q : find_pid (with_eflags s f) pid q = find_pid s pid q.
Proof.
  induction q as [|x q IH]; [done|]. cbn [find_pid]. rewrite IH. done.
Qed.

Lemma task_get_eflags s f pid : task_get (with_eflags s f) pid = task_get s pid.
Proof. unfold task_get. by rewrite !find_pid_eflags. Qed.

(** A request for a task's information, on every branch, whatever the interrupt flag: a
    buffer that is too small and a pid no task has are refused; otherwise the answer is
    the pid and the name, cut at 63 characters, of the one task with that pid. The
    scheduler's state, the flags included, is unchanged. *)
Theorem get_task_info_spec (s : sched E) (pid buffer_size : Z) (Hok : sched_ok s) :
  (buffer_size < sizeof_task_info ->
   handle_kernel_get_task_info s pid buffer_size = Ret (-1, None, buffer_size, s)) /\
  (sizeof_task_info <= buffer_size ->
   (forall t tk, known_task s t -> tasks s !! t = Some tk -> t_pid tk = pid ->
      handle_kernel_get_task_info s pid buffer_size = Ret (0, Some (pid, take 63 (t_name tk)), sizeof_task_info, s)) /\
   ((forall t, known_task s t -> pid_of s t <> pid) ->
      handle_kernel_get_task_info s pid buffer_size = Ret (-1, None, buffer_size, s))).
Proof.
  unfold handle_kernel_get_task_info. pose proof (critical_section_restores (s_eflags s)) as Hcr.
  destruct (disable_if (s_eflags s)) as [i e1]. destruct Hcr as [Hoff Hres].
  split; [intros Hl; by rewrite (proj2 (Z.ltb_lt _ _))|]. intros Hge. rewrite (proj2 (Z.ltb_ge _ _)) by done.
  unfold get_task_info, irqs_off. cbn [with_eflags s_eflags]. rewrite Hoff. cbn [negb c_assert mbind outcome_bind].
  rewrite task_get_eflags.
  assert (with_eflags s (restore_if e1 i) = s) as Hs by (rewrite Hres; by destruct s).
  destruct (task_get_cases s pid Hok) as (t & -> & Ht). cbn [mbind outcome_bind]. split.
  - intros u uk Hu Huk Hp. destruct Ht as [[_ Hno]|(Hz & Hk & Hpt)].
    { destruct (Hno u Hu). unfold pid_of. by rewrite Huk. }
    assert (t = u) as ->.
    { assert (is_Some (tasks s !! t)) as Hts.
      { destruct (sched_parts s Hok) as (_ & _ & _ & Hc & Hi & Hd).
        destruct Hk as [->|[->|[Hk|Hk]]]; [done|done| |]; apply Hd; unfold queues;
          rewrite ?elem_of_app; auto. }
      destruct Hok as [Hb _]. apply (pid_of_inj s); [done|done|by eauto|]. rewrite Hpt. unfold pid_of. by rewrite Huk. }
    rewrite nz_true by done. unfold deref. cbn [with_eflags tasks]. rewrite Huk. cbn [of_option mbind outcome_bind].
    by rewrite Hs.
  - intros Hno. destruct Ht as [[-> _]|(_ & Hk & Hp)]; [|by destruct (Hno t Hk)]. cbn. by rewrite Hs.
Qed.
End kernel_task.
