(* ===== verification/Gdt.v ===== *)
(** [kernel/gdt.c]: segment descriptors, the task state segment and its I/O permission
    map. The descriptors are stored as the packed structure of the source; the
    definitions [desc_*] below are the processor's reading of it. *)
From S2P Require Import Prelude Util Locks Sched.

Definition GDT_ACCESSED : Z := 1.
Definition GDT_WRITABLE : Z := Z.shiftl 1 1.
Definition GDT_TYPE (t : Z) : Z := Z.shiftl (Z.land t 1) 4.
Definition GDT_DPL (d : Z) : Z := Z.shiftl (Z.land d 0x3) 5.
Definition GDT_PRESENT : Z := Z.shiftl 1 7.
Definition GDT_READABLE : Z := Z.shiftl 1 1.
Definition GDT_CODE : Z := Z.shiftl 1 3.
Definition GDT_32BIT : Z := Z.shiftl 1 6.
Definition GDT_GRAN4K : Z := Z.shiftl 1 7.
Definition TSS_SEG : Z := 0x28.
Definition IOMAP_SIZE : Z := 65536 / 8 + 1.

Record gdt_entry : Type := mkGdtEntry {
  limit_low : Z;
  base_low : Z;
  base_middle : Z;
  access : Z;
  granularity : Z;
  base_high : Z
}.
Definition zero_entry : gdt_entry := mkGdtEntry 0 0 0 0 0 0.

(** The fields of [struct tss_entry] that the kernel writes; the others stay zero.
    [iomap] is the trailing array of [IOMAP_SIZE] bytes. *)
Record tss_entry : Type := mkTss {
  ts_esp0 : Z;
  ts_ss0 : Z;
  ts_esp : Z;
  ts_cs : Z;
  ts_ss : Z;
  ts_es : Z;
  ts_ds : Z;
  ts_fs : Z;
  ts_gs : Z;
  ts_iomap_base : Z;
  ts_iomap : list Z
}.

(** [offsetof(struct tss_entry, iomap)] and [sizeof(struct tss_entry)]: 26 words, then the map. *)
Definition tss_iomap_offset : Z := 104.
Definition sizeof_tss : Z := tss_iomap_offset + IOMAP_SIZE.
Definition zero_tss : tss_entry := mkTss 0 0 0 0 0 0 0 0 0 0 (replicate (Z.to_nat IOMAP_SIZE) 0).

(** The static variables of the file. [gdtr] is the operand of [lgdt], [tr] the
    selector given to [ltr]. *)
Record gdt : Type := mkGdt {
  gdt_entries : list gdt_entry;
  gdt_ptr : Z * Z;
  tss : tss_entry;
  gdtr : option (Z * Z);
  tr : option Z;
  g_eflags : Z
}.

Definition set_descriptor (g : list gdt_entry) (num base limit access gran : Z)
    : outcome (list gdt_entry) :=
  _ ← of_option FMem (g !! Z.to_nat num);
  let granularity := u8 (Z.land (Z.shiftr limit 16) 0x0F) in
  Ret (<[Z.to_nat num := mkGdtEntry (Z.land limit 0xFFFF) (Z.land base 0xFFFF)
         (Z.land (Z.shiftr base 16) 0xFF) access
         (Z.lor granularity (Z.land gran 0xF0))
         (Z.land (Z.shiftr base 24) 0xFF)]> g).

(** [entries_addr], [tss_addr] and [initial_kernel_stack] are the addresses of the static
    objects. *)
Definition gdt_init (g : gdt) (entries_addr tss_addr initial_kernel_stack : Z) : outcome gdt :=
  let ptr := (8 * 6 - 1, entries_addr) in
  d ← set_descriptor (gdt_entries g) 0 0 0 0 0;
  d ← set_descriptor d 1 0 0xFFFFFFFF
        (Z.lor (Z.lor (Z.lor GDT_READABLE GDT_CODE) (GDT_TYPE 1)) GDT_PRESENT) (Z.lor GDT_32BIT GDT_GRAN4K);
  d ← set_descriptor d 2 0 0xFFFFFFFF
        (Z.lor (Z.lor GDT_WRITABLE (GDT_TYPE 1)) GDT_PRESENT) (Z.lor GDT_32BIT GDT_GRAN4K);
  d ← set_descriptor d 3 0 0xFFFFFFFF
        (Z.lor (Z.lor (Z.lor (Z.lor GDT_READABLE GDT_CODE) (GDT_TYPE 1)) (GDT_DPL 3)) GDT_PRESENT)
        (Z.lor GDT_32BIT GDT_GRAN4K);
  d ← set_descriptor d 4 0 0xFFFFFFFF
        (Z.lor (Z.lor (Z.lor GDT_WRITABLE (GDT_TYPE 1)) (GDT_DPL 3)) GDT_PRESENT) (Z.lor GDT_32BIT GDT_GRAN4K);
  let sel := Z.lor KERNEL_DATA_SEG 3 in
  let t := mkTss (u32 (initial_kernel_stack + 4096)) KERNEL_DATA_SEG 0 (Z.lor KERNEL_CODE_SEG 3)
             sel sel sel sel sel tss_iomap_offset (replicate (Z.to_nat IOMAP_SIZE) 0xFF) in
  d ← set_descriptor d 5 tss_addr sizeof_tss
        (Z.lor (Z.lor (Z.lor (GDT_DPL 3) GDT_CODE) GDT_ACCESSED) GDT_PRESENT) 0;
  _ ← c_assert (103 <=? sizeof_tss);
  let eflags := Z.land (g_eflags g) (u32 (Z.lnot (Z.shiftl 3 12))) in
  _ ← c_assert (Z.land eflags 0x3000 =? 0);
  Ret (mkGdt d ptr t (Some ptr) (Some 0x2b) eflags).

Definition with_tss_entry (g : gdt) (t : tss_entry) : gdt :=
  mkGdt (gdt_entries g) (gdt_ptr g) t (gdtr g) (tr g) (g_eflags g).

(** [buffer] is the memory given to [gdt_iomap_set], of [size] bytes. *)
Definition gdt_iomap_set (g : gdt) (buffer : list Z) : outcome gdt :=
  let size := Z.of_nat (length buffer) in
  _ ← c_assert (size <=? IOMAP_SIZE);
  let t := tss g in
  Ret (with_tss_entry g (mkTss (ts_esp0 t) (ts_ss0 t) (ts_esp t) (ts_cs t) (ts_ss t) (ts_es t) (ts_ds t)
         (ts_fs t) (ts_gs t) (ts_iomap_base t) (buffer ++ drop (length buffer) (ts_iomap t)))).

Definition tss_set_kernel_stack (g : gdt) (esp0 : Z) : gdt :=
  let '(ifstate, eflags) := disable_if (g_eflags g) in
  let t := tss g in
  let g := with_tss_entry g (mkTss esp0 (ts_ss0 t) (ts_esp t) (ts_cs t) (ts_ss t) (ts_es t) (ts_ds t)
             (ts_fs t) (ts_gs t) (ts_iomap_base t) (ts_iomap t)) in
  mkGdt (gdt_entries g) (gdt_ptr g) (tss g) (gdtr g) (tr g) (restore_if eflags ifstate).

Definition tss_get_kernel_stack (g : gdt) : Z * gdt :=
  let '(ifstate, eflags) := disable_if (g_eflags g) in
  (ts_esp (tss g),
   mkGdt (gdt_entries g) (gdt_ptr g) (tss g) (gdtr g) (tr g) (restore_if eflags ifstate)).

(** ** The processor's reading of a descriptor *)
Definition desc_base (e : gdt_entry) : Z :=
  Z.lor (Z.lor (Z.shiftl (base_high e) 24) (Z.shiftl (base_middle e) 16)) (base_low e).
Definition desc_limit20 (e : gdt_entry) : Z :=
  Z.lor (Z.shiftl (Z.land (granularity e) 0x0F) 16) (limit_low e).
(** The last byte offset of the segment, with the granularity bit. *)
Definition desc_limit (e : gdt_entry) : Z :=
  if Z.testbit (granularity e) 7 then Z.lor (Z.shiftl (desc_limit20 e) 12) 0xFFF else desc_limit20 e.
Definition desc_present (e : gdt_entry) : bool := Z.testbit (access e) 7.
Definition desc_dpl (e : gdt_entry) : Z := Z.land (Z.shiftr (access e) 5) 3.
Definition desc_code (e : gdt_entry) : bool := Z.testbit (access e) 4 && Z.testbit (access e) 3.
Definition desc_data_writable (e : gdt_entry) : bool :=
  Z.testbit (access e) 4 && negb (Z.testbit (access e) 3) && Z.testbit (access e) 1.
Definition desc_tss32 (e : gdt_entry) : bool :=
  negb (Z.testbit (access e) 4) && (Z.land (access e) 0xF =? 9).
(** The entry a selector names. *)
Definition desc_of (g : list gdt_entry) (selector : Z) : option gdt_entry :=
  g !! Z.to_nat (Z.shiftr selector 3).

(** Port access from ring 3: the processor reads the two bytes of the map at
    [port / 8] (both must exist) and tests the bit of the port. *)
Definition io_allowed (t : tss_entry) (port : Z) : bool :=
  match ts_iomap t !! Z.to_nat (port / 8), ts_iomap t !! Z.to_nat (port / 8 + 1) with
  | Some b, Some _ => negb (Z.testbit b (port mod 8))
  | _, _ => false
  end.

(** ** Descriptors *)
Lemma land_0xF0 x : 0 <= x -> Z.land (Z.land x 0xF0) 0x0F = 0.
Proof. intros. rewrite <- Z.land_assoc. apply Z.land_0_r. Qed.

Lemma set_descriptor_entry g num base limit acc gran :
  (Z.to_nat num < length g)%nat -> 0 <= base < 2 ^ 32 -> 0 <= limit < 2 ^ 32 -> 0 <= gran < 256 ->
  exists e, set_descriptor g num base limit acc gran = Ret (<[Z.to_nat num := e]> g) /\
    desc_base e = base /\ desc_limit20 e = limit mod 2 ^ 20 /\ access e = acc /\
    Z.land (granularity e) 0xF0 = Z.land gran 0xF0.
Proof.
  intros Hn Hb Hl Hg. unfold set_descriptor.
  destruct (lookup_lt_is_Some_2 _ _ Hn) as [x ->]. cbn [of_option mbind outcome_bind].
  eexists. split; [done|]. cbn [desc_base desc_limit20 base_high base_middle base_low granularity limit_low access].
  assert (u8 (Z.land (Z.shiftr limit 16) 0x0F) = Z.land (Z.shiftr limit 16) 0x0F) as ->.
  { apply u8_small. rewrite (land_ones_mod _ 4) by lia.
    pose proof (Z.mod_pos_bound (Z.shiftr limit 16) (2 ^ 4)). lia. }
  split; [|split; [|split; [done|]]].
  - apply Z.bits_inj'. intros n Hn'. unfold desc_base. cbn [base_high base_middle base_low].
    rewrite !Z.lor_spec.
    change 0xFFFF with (Z.ones 16). change 0xFF with (Z.ones 8).
    destruct (Z.lt_ge_cases n 16); [|destruct (Z.lt_ge_cases n 24); [|destruct (Z.lt_ge_cases n 32)]].
    + rewrite !Z.shiftl_spec_low, Z.land_spec, Z.ones_spec_low by lia. simpl. by rewrite andb_true_r.
    + rewrite (Z.shiftl_spec_low _ 24), Z.shiftl_spec, !Z.land_spec, Z.shiftr_spec by lia.
      rewrite (Z.ones_spec_high 16), (Z.ones_spec_low 8) by lia.
      rewrite andb_true_r, andb_false_r, orb_false_r. simpl. f_equal. lia.
    + rewrite !Z.shiftl_spec, !Z.land_spec, !Z.shiftr_spec by lia.
      rewrite (Z.ones_spec_high 16), (Z.ones_spec_low 8 (n - 24)), (Z.ones_spec_high 8 (n - 16)) by lia.
      rewrite andb_true_r, !andb_false_r, !orb_false_r. f_equal. lia.
    + rewrite !Z.shiftl_spec, !Z.land_spec by lia. rewrite !Z.ones_spec_high by lia.
      rewrite !andb_false_r. simpl. symmetry. by apply (testbit_range _ 32).
  - unfold desc_limit20. cbn [granularity limit_low].
    rewrite Z.land_lor_distr_l, land_0xF0, Z.lor_0_r, <- Z.land_assoc, Z.land_diag by lia.
    apply Z.bits_inj'. intros n Hn'. rewrite Z.lor_spec.
    change 0xFFFF with (Z.ones 16). change 0x0F with (Z.ones 4).
    destruct (Z.lt_ge_cases n 16); [|destruct (Z.lt_ge_cases n 20)].
    + rewrite Z.shiftl_spec_low, Z.land_spec, Z.ones_spec_low, Z.mod_pow2_bits_low by lia.
      simpl. by rewrite andb_true_r.
    + rewrite Z.shiftl_spec, !Z.land_spec, Z.shiftr_spec, Z.mod_pow2_bits_low by lia.
      rewrite Z.ones_spec_low, Z.ones_spec_high by lia. rewrite andb_true_r, andb_false_r, orb_false_r.
      f_equal. lia.
    + rewrite Z.shiftl_spec, !Z.land_spec, Z.mod_pow2_bits_high by lia.
      rewrite !Z.ones_spec_high by lia. by rewrite !andb_false_r.
  - cbn [granularity]. rewrite Z.land_lor_distr_l, <- !Z.land_assoc. change (Z.land 0x0F 0xF0) with 0.
    by rewrite Z.land_0_r, Z.land_diag, Z.lor_0_l.
Qed.

(** What the processor sees after [gdt_init]: flat 4 GiB code and data segments for
    rings 0 and 3 behind the selectors the scheduler loads, and a task state segment
    whose limit covers the whole I/O map. *)
Record flat_gdt (g : gdt) (tss_addr : Z) : Prop := {
  fg_null : desc_of (gdt_entries g) 0 = Some zero_entry;
  fg_kcode : exists e, desc_of (gdt_entries g) KERNEL_CODE_SEG = Some e /\ desc_present e = true /\
    desc_code e = true /\ desc_dpl e = 0 /\ desc_base e = 0 /\ desc_limit e = 0xFFFFFFFF;
  fg_kdata : exists e, desc_of (gdt_entries g) KERNEL_DATA_SEG = Some e /\ desc_present e = true /\
    desc_data_writable e = true /\ desc_dpl e = 0 /\ desc_base e = 0 /\ desc_limit e = 0xFFFFFFFF;
  fg_ucode : exists e, desc_of (gdt_entries g) (Z.lor USER_CODE_SEG RPL3) = Some e /\ desc_present e = true /\
    desc_code e = true /\ desc_dpl e = 3 /\ desc_base e = 0 /\ desc_limit e = 0xFFFFFFFF;
  fg_udata : exists e, desc_of (gdt_entries g) (Z.lor USER_DATA_SEG RPL3) = Some e /\ desc_present e = true /\
    desc_data_writable e = true /\ desc_dpl e = 3 /\ desc_base e = 0 /\ desc_limit e = 0xFFFFFFFF;
  fg_tss : exists e, desc_of (gdt_entries g) 0x2b = Some e /\ desc_present e = true /\ desc_tss32 e = true /\
    desc_base e = tss_addr /\ ts_iomap_base (tss g) + IOMAP_SIZE <= desc_limit e + 1;
  fg_loaded : gdtr g = Some (gdt_ptr g) /\ tr g = Some (Z.lor TSS_SEG 3)
}.

Lemma gdt_init_flat g entries_addr tss_addr stack :
  length (gdt_entries g) = 6%nat -> 0 <= tss_addr < 2 ^ 32 -> 0 <= g_eflags g < 2 ^ 32 ->
  exists g', gdt_init g entries_addr tss_addr stack = Ret g' /\ flat_gdt g' tss_addr /\
    Z.land (g_eflags g') 0x3000 = 0 /\
    (forall port, 0 <= port < 65536 -> io_allowed (tss g') port = false) /\
    ts_iomap (tss g') = replicate (Z.to_nat IOMAP_SIZE) 0xFF.
Proof.
  intros Hlen Ha He. unfold gdt_init.
  destruct (gdt_entries g) as [|x0 [|x1 [|x2 [|x3 [|x4 [|x5 [|]]]]]]]; try discriminate Hlen.
  set (t := mkTss _ _ _ _ _ _ _ _ _ _ _).
  repeat match goal with
  | |- context [set_descriptor ?l 5 tss_addr ?b ?c ?d] =>
      destruct (set_descriptor_entry l 5 tss_addr b c d) as (e & -> & Eb & El & Ea & Eg);
        [simpl; lia|lia|done|done|]
  | |- context [set_descriptor ?l ?n ?a ?b ?c ?d] =>
      let v := eval vm_compute in (set_descriptor l n a b c d) in
      change (set_descriptor l n a b c d) with v; cbn [mbind outcome_bind]
  end.
  cbn [mbind outcome_bind c_assert]. change (103 <=? sizeof_tss) with true. cbn [mbind outcome_bind c_assert].
  assert (Z.land (Z.land (g_eflags g) (u32 (Z.lnot (Z.shiftl 3 12)))) 0x3000 = 0) as Hiopl.
  { rewrite <- Z.land_assoc. apply Z.land_0_r. }
  rewrite Hiopl. cbn [Z.eqb c_assert mbind outcome_bind].
  eexists. split; [done|]. cbn [g_eflags tss]. split; [|split; [done|split]].
  - split; try (eexists; split; [reflexivity|vm_compute; repeat split; congruence]).
    + reflexivity.
    + exists e. split; [reflexivity|]. unfold desc_present, desc_tss32, desc_limit. rewrite Ea.
      split; [reflexivity|]. split; [reflexivity|]. split; [done|].
      assert (Z.testbit (granularity e) 7 = false) as ->.
      { assert (Z.testbit (Z.land (granularity e) 0xF0) 7 = false) as Hb by (by rewrite Eg).
        rewrite Z.land_spec in Hb. by rewrite andb_true_r in Hb. }
      rewrite El. vm_compute. congruence.
    + done.
  - intros port Hp. unfold io_allowed. cbn [t ts_iomap].
    assert (forall i, 0 <= i <= 8192 -> replicate (Z.to_nat IOMAP_SIZE) 0xFF !! Z.to_nat i = Some 0xFF) as Hr.
    { intros i Hi. apply lookup_replicate. split; [done|]. unfold IOMAP_SIZE. change (65536 / 8 + 1) with 8193. lia. }
    assert (0 <= port / 8 < 8192) by (split; [apply Z.div_pos|apply Z.div_lt_upper_bound]; lia).
    rewrite !Hr by lia. change 0xFF with (Z.ones 8). rewrite Z.ones_spec_low; [done|].
    apply Z.mod_pos_bound. lia.
  - done.
Qed.

(** ** I/O permissions *)
Lemma iomap_bit b i : 0 <= b < 256 -> 0 <= i < 8 ->
  (forall n, 0 <= n < 8 -> Z.testbit (Z.land b (u8 (Z.lnot (u8 (Z.shiftl 1 i))))) n
     = Z.testbit b n && negb (n =? i)) /\
  (forall n, 0 <= n < 8 -> Z.testbit (Z.lor b (u8 (Z.shiftl 1 i))) n = Z.testbit b n || (n =? i)).
Proof.
  intros Hb Hi.
  assert (forall n, 0 <= n < 8 -> Z.testbit (u8 (Z.shiftl 1 i)) n = (n =? i)) as Hm.
  { intros n Hn. rewrite wrap_testbit by lia. rewrite (proj2 (Z.ltb_lt n 8)), andb_true_r by lia.
    rewrite Z.shiftl_1_l, Z.pow2_bits_eqb by lia. apply Z.eqb_sym. }
  split; intros n Hn.
  - rewrite Z.land_spec. f_equal. rewrite wrap_testbit, Z.lnot_spec, Hm by lia.
    by rewrite (proj2 (Z.ltb_lt n 8)), andb_true_r by lia.
  - by rewrite Z.lor_spec, Hm.
Qed.

Lemma iomap_test_at iomap p b : 0 <= p < 65536 -> iomap !! Z.to_nat (p / 8) = Some b ->
  task_iomap_test iomap p = Ret (Z.testbit b (p mod 8)).
Proof.
  intros Hp Hb. unfold task_iomap_test.
  rewrite (proj2 (Z.leb_le 0 p)), (proj2 (Z.ltb_lt p 65536)) by lia.
  cbn [andb c_assert mbind outcome_bind]. rewrite Hb. cbn [of_option mbind outcome_bind]. f_equal.
  pose proof (Z.mod_pos_bound p 8 ltac:(lia)) as Hm. rewrite u8_small.
  - rewrite Z.shiftl_1_l. apply land_pow2_test. lia.
  - rewrite Z.shiftl_1_l. split; [lia|]. apply (Z.pow_lt_mono_r 2 _ 8); lia.
Qed.

Lemma IOMAP_BYTES_8192 : Z.of_nat IOMAP_BYTES = 8192.
Proof. unfold IOMAP_BYTES. change (65536 / 8) with 8192. lia. Qed.

Lemma port_byte p : 0 <= p < 65536 -> 0 <= p / 8 < 8192.
Proof. intros. split; [apply Z.div_pos|apply Z.div_lt_upper_bound]; lia. Qed.

Lemma iomap_lookup iomap p : length iomap = IOMAP_BYTES -> Forall (fun b => 0 <= b < 256) iomap ->
  0 <= p < 65536 -> exists b, iomap !! Z.to_nat (p / 8) = Some b /\ 0 <= b < 256.
Proof.
  intros Hlen Hby Hp. pose proof IOMAP_BYTES_8192. pose proof (port_byte p Hp).
  destruct (lookup_lt_is_Some_2 iomap (Z.to_nat (p / 8))) as [b Hb]; [lia|].
  exists b. split; [done|]. rewrite Forall_forall in Hby. apply Hby. by eapply list_elem_of_lookup_2.
Qed.

(** [task_iomap_set] changes exactly one port of the map: after it, [task_iomap_test]
    (true means forbidden) reports the port as forbidden exactly when it was not allowed,
    and every other port as before. *)
Lemma task_iomap_ok (iomap : list Z) (port allow : Z) :
  length iomap = IOMAP_BYTES -> Forall (fun b => 0 <= b < 256) iomap -> 0 <= port < 65536 ->
  exists iomap', task_iomap_set iomap port allow = Ret iomap' /\
    length iomap' = IOMAP_BYTES /\ Forall (fun b => 0 <= b < 256) iomap' /\
    forall p, 0 <= p < 65536 -> task_iomap_test iomap' p =
      if p =? port then Ret (negb (nz allow)) else task_iomap_test iomap p.
Proof.
  intros Hlen Hby Hp. destruct (iomap_lookup iomap port Hlen Hby Hp) as (b & Hb & Hbr).
  unfold task_iomap_set. rewrite (proj2 (Z.leb_le 0 port)), (proj2 (Z.ltb_lt port 65536)) by lia.
  cbn [andb c_assert mbind outcome_bind]. rewrite Hb. cbn [of_option mbind outcome_bind].
  pose proof (Z.mod_pos_bound port 8 ltac:(lia)) as Hm.
  destruct (iomap_bit b (port mod 8) Hbr Hm) as [Hand Hor].
  set (b' := if nz allow then _ else _).
  assert (0 <= b' < 256) as Hbr'.
  { unfold b'. destruct (nz allow); [by apply (land_range 8)|apply (lor_range 8); [lia|done|]].
    apply (wrap_range 8). lia. }
  assert (forall n, 0 <= n < 8 -> Z.testbit b' n = if n =? port mod 8 then negb (nz allow) else Z.testbit b n) as Hb'.
  { intros n Hn. unfold b'. destruct (nz allow); [rewrite Hand by done|rewrite Hor by done];
      destruct (n =? port mod 8); by rewrite ?andb_false_r, ?andb_true_r, ?orb_true_r, ?orb_false_r. }
  eexists. split; [done|]. split; [by rewrite length_insert|]. split; [by apply Forall_insert|].
  intros p Hpp. pose proof (Z.mod_pos_bound p 8 ltac:(lia)) as Hpm.
  destruct (Z.eq_dec (p / 8) (port / 8)) as [Eq|Hne].
  - rewrite (iomap_test_at _ p b'), Hb', (iomap_test_at iomap p b); try done; cycle 1.
    { by rewrite Eq. } { rewrite Eq, list_lookup_insert_eq; [done|]. by eapply lookup_lt_Some. }
    assert ((p =? port) = (p mod 8 =? port mod 8)) as ->; [|by destruct (_ =? _)].
    destruct (p mod 8 =? port mod 8) eqn:Em; breflect; [apply Z.eqb_eq|apply Z.eqb_neq; by intros ->].
    rewrite (Z.div_mod p 8), (Z.div_mod port 8) by lia. congruence.
  - destruct (iomap_lookup iomap p Hlen Hby Hpp) as (c & Hc & _).
    rewrite (proj2 (Z.eqb_neq p port)) by (by intros ->).
    rewrite !(iomap_test_at _ p c); try done.
    rewrite list_lookup_insert_ne; [done|]. pose proof (port_byte p Hpp). pose proof (port_byte port Hp). lia.
Qed.

(** The processor's decision agrees with [task_iomap_test] on a map copied into the TSS. *)
Lemma io_allowed_iomap t iomap port :
  length iomap = IOMAP_BYTES -> Forall (fun b => 0 <= b < 256) iomap ->
  ts_iomap t = iomap ++ [0xFF] -> 0 <= port < 65536 ->
  task_iomap_test iomap port = Ret (negb (io_allowed t port)).
Proof.
  intros Hlen Hby Et Hp. destruct (iomap_lookup iomap port Hlen Hby Hp) as (b & Hb & _).
  rewrite (iomap_test_at _ _ _ Hp Hb). unfold io_allowed. pose proof IOMAP_BYTES_8192.
  pose proof (port_byte port Hp). rewrite Et, (lookup_app_l_Some _ _ _ _ Hb).
  destruct (lookup_lt_is_Some_2 (iomap ++ [0xFF]) (Z.to_nat (port / 8 + 1))) as [c ->].
  { rewrite length_app. simpl. lia. }
  by rewrite negb_involutive.
Qed.

(** C35: [gdt_init] builds, behind the selectors the scheduler loads, flat 4 GiB segments of
    the right ring and type, a task state segment whose limit covers the I/O map, clears
    IOPL and forbids every port to ring 3. After [task_iomap_set] on a task's map and
    [gdt_iomap_set] of it, as the system call that opens a port does, the processor lets
    ring 3 use a port exactly when it is the one just allowed, or another one the task's
    map already allowed; the map's last byte, which the processor reads for port 65535, is
    not overwritten. *)
Theorem io_permission_spec (g : gdt) (entries_addr tss_addr stack : Z) (iomap : list Z) (port allow : Z) :
  length (gdt_entries g) = 6%nat -> 0 <= tss_addr < 2 ^ 32 -> 0 <= g_eflags g < 2 ^ 32 ->
  length iomap = IOMAP_BYTES -> Forall (fun b => 0 <= b < 256) iomap -> 0 <= port < 65536 ->
  exists g' iomap' g'',
    gdt_init g entries_addr tss_addr stack = Ret g' /\ flat_gdt g' tss_addr /\
    Z.land (g_eflags g') 0x3000 = 0 /\
    (forall p, 0 <= p < 65536 -> io_allowed (tss g') p = false) /\
    task_iomap_set iomap port allow = Ret iomap' /\ gdt_iomap_set g' iomap' = Ret g'' /\
    (forall p, 0 <= p < 65536 ->
       Ret (io_allowed (tss g'') p) =
       if p =? port then Ret (nz allow) else negb <$> task_iomap_test iomap p) /\
    last (ts_iomap (tss g'')) = Some 0xFF /\ flat_gdt g'' tss_addr.
Proof.
  intros Hg Ha He Hlen Hby Hp.
  destruct (gdt_init_flat g entries_addr tss_addr stack Hg Ha He) as (g' & E1 & Hf & Hio & Hno & Hmap).
  destruct (task_iomap_ok iomap port allow Hlen Hby Hp) as (iomap' & E2 & Hlen' & Hby' & Ht).
  exists g', iomap'. eexists. split; [exact E1|]. split; [exact Hf|]. split; [exact Hio|]. split; [exact Hno|].
  split; [exact E2|]. unfold gdt_iomap_set. pose proof IOMAP_BYTES_8192.
  rewrite (proj2 (Z.leb_le _ _)) by (unfold IOMAP_SIZE; change (65536 / 8) with 8192; lia).
  cbn [c_assert mbind outcome_bind]. split; [done|]. cbn [with_tss_entry tss].
  assert (drop (length iomap') (ts_iomap (tss g')) = [0xFF]) as ->.
  { rewrite Hmap, Hlen', drop_replicate. unfold IOMAP_SIZE.
    replace (Z.to_nat (65536 / 8 + 1) - IOMAP_BYTES)%nat with 1%nat; [done|].
    change (65536 / 8 + 1) with 8193. lia. }
  split; [|split; [apply last_snoc|by destruct Hf]].
  intros p Hpp. pose proof (Ht p Hpp) as Hpt.
  erewrite (io_allowed_iomap (mkTss _ _ _ _ _ _ _ _ _ _ (iomap' ++ [0xFF]))) in Hpt by done.
  destruct (p =? port).
  - injection Hpt as Hpt. f_equal. apply (f_equal negb) in Hpt. rewrite !negb_involutive in Hpt. exact Hpt.
  - rewrite <- Hpt. cbn. by rewrite negb_involutive.
Qed.

Lemma io_permission_spec_witness :
  exists g' m' g'', task_iomap_set (replicate IOMAP_BYTES 0xFF) 0xE9 1 = Ret m' /\
    gdt_iomap_set g' m' = Ret g'' /\ flat_gdt g'' 0x5000 /\
    Ret (io_allowed (tss g'') 0xE9) = Ret true.
Proof.
  destruct (io_permission_spec (mkGdt (replicate 6 zero_entry) (0, 0) zero_tss None None 2)
    0x4000 0x5000 0x6000 (replicate IOMAP_BYTES 0xFF) 0xE9 1)
    as (g' & m' & g'' & _ & _ & _ & _ & E2 & E3 & Hio & _ & Hf); [done|done|done|apply length_replicate| |done|].
  { apply Forall_replicate. lia. }
  exists g', m', g''. split; [exact E2|]. split; [exact E3|]. split; [exact Hf|].
  exact (Hio 0xE9 ltac:(lia)).
Defined.
