(* ===== verification/Irq.v ===== *)
(** Interrupt delivery: [kernel/idt.c] (gates and dispatch), [kernel/pic.c] (the two
    interrupt controllers) and [kernel/syscall_handler.c] (the system call table).
    A C function pointer is a [Z], 0 being NULL; what the functions do is a parameter. *)
From S2P Require Import Prelude Util Locks Sched.

(** ** Interrupt descriptor table *)
Definition IDT_PRESENT : Z := Z.shiftl 1 7.
Definition IDT_DPL0 : Z := 0.
Definition IDT_DPL3 : Z := Z.shiftl 3 5.
Definition IDT_INT_GATE_32 : Z := 14.

Record idt_entry : Type := mkIdtEntry {
  ie_base_lo : Z;
  ie_sel : Z;
  ie_always0 : Z;
  ie_flags : Z;
  ie_base_hi : Z
}.

Record idt : Type := mkIdt {
  idt_entries : list idt_entry;
  idt_ptr : Z * Z;
  isr_handlers : list Z;
  idtr : option (Z * Z);
  i_eflags : Z
}.

Definition set_gate (es : list idt_entry) (num base sel flags : Z) : outcome (list idt_entry) :=
  _ ← of_option FMem (es !! Z.to_nat num);
  Ret (<[Z.to_nat num := mkIdtEntry (Z.land base 0xFFFF) sel 0 flags
                           (Z.land (Z.shiftr base 16) 0xFFFF)]> es).

(** [for(int i=0; i<256; i++) set_gate(i, isr_stub_table[i], ...)] *)
Fixpoint set_gates (stubs : list Z) (i : Z) (es : list idt_entry) : outcome (list idt_entry) :=
  match stubs with
  | [] => Ret es
  | stub :: stubs =>
      es ← set_gate es i stub KERNEL_CODE_SEG (Z.lor (Z.lor IDT_PRESENT IDT_DPL0) IDT_INT_GATE_32);
      set_gates stubs (i + 1) es
  end.

Definition zero_gate : idt_entry := mkIdtEntry 0 0 0 0 0.

(** [bzero(isr_handlers, sizeof(isr_handler_t))] clears one pointer. [isr_stub_table] holds
    256 addresses. *)
Definition idt_init (s : idt) (isr_stub_table : list Z) (entries_addr : Z) : outcome idt :=
  es ← set_gates isr_stub_table 0 (replicate 256 zero_gate);
  Ret (mkIdt es (8 * 256 - 1, entries_addr) (<[0%nat := 0]> (isr_handlers s)) (idtr s) (i_eflags s)).

Definition idt_flush (s : idt) : idt :=
  mkIdt (idt_entries s) (idt_ptr s) (isr_handlers s) (Some (idt_ptr s)) (i_eflags s).

Definition idt_install (s : idt) (num handler : Z) (usermode : bool) : outcome idt :=
  let '(ifstate, eflags) := disable_if (i_eflags s) in
  _ ← of_option FMem (isr_handlers s !! Z.to_nat num);
  e ← of_option FMem (idt_entries s !! Z.to_nat num);
  let flags := if usermode then Z.lor (ie_flags e) IDT_DPL3
               else Z.land (ie_flags e) (u8 (Z.lnot IDT_DPL3)) in
  Ret (mkIdt (<[Z.to_nat num := mkIdtEntry (ie_base_lo e) (ie_sel e) (ie_always0 e) flags (ie_base_hi e)]>
                (idt_entries s)) (idt_ptr s) (<[Z.to_nat num := handler]> (isr_handlers s)) (idtr s)
         (restore_if eflags ifstate)).

Definition idt_get_handler (s : idt) (num : Z) : outcome (Z * idt) :=
  let '(ifstate, eflags) := disable_if (i_eflags s) in
  h ← of_option FMem (isr_handlers s !! Z.to_nat num);
  Ret (h, mkIdt (idt_entries s) (idt_ptr s) (isr_handlers s) (idtr s) (restore_if eflags ifstate)).

(** How a called handler ends: it comes back, or it resumes another context for good. *)
Inductive handler_end : Type := Returned | Left.

Section isr.
Context {W : Type}.
(** Calling a handler: the world, the saved registers it may change, and how it ended. *)
Variable call_isr : Z -> isr_regs -> W -> outcome (handler_end * isr_regs * W).

Definition isr_handler (s : idt) (regs : isr_regs) (w : W) : outcome (handler_end * isr_regs * W) :=
  h ← of_option FMem (isr_handlers s !! Z.to_nat (r_int_no regs));
  if nz h then call_isr h regs w else Fault FPanic.
End isr.

(** The processor's reading of a gate. *)
Definition gate_offset (e : idt_entry) : Z := Z.lor (Z.shiftl (ie_base_hi e) 16) (ie_base_lo e).
Definition gate_dpl (e : idt_entry) : Z := Z.land (Z.shiftr (ie_flags e) 5) 3.
Definition gate_present (e : idt_entry) : bool := Z.testbit (ie_flags e) 7.
Definition gate_interrupt (e : idt_entry) : bool := Z.land (ie_flags e) 0x1F =? 14.

(** ** Interrupt controllers *)
Definition PIC0_COMMAND : Z := 0x20.
Definition PIC0_DATA : Z := 0x21.
Definition PIC1_COMMAND : Z := 0xA0.
Definition PIC1_DATA : Z := 0xA1.
Definition COMMAND_EOI : Z := 0x20.
Definition COMMAND_ICW1_IC4 : Z := 0x01.
Definition COMMAND_ICW1_INIT : Z := 0x10.
Definition DATA_ICW4_8086 : Z := 0x01.

(** A write to an I/O port. *)
Inductive io_write : Type := Outb (port value : Z).
#[export] Instance io_write_eq_dec : EqDecision io_write.
Proof. solve_decision. Defined.

Record pic : Type := mkPic {
  irq_handlers : list Z;
  warn_unhandled : Z;
  p_eflags : Z
}.

Definition pic_reset : list io_write :=
  [Outb PIC0_COMMAND (Z.lor COMMAND_ICW1_IC4 COMMAND_ICW1_INIT);
   Outb PIC1_COMMAND (Z.lor COMMAND_ICW1_IC4 COMMAND_ICW1_INIT);
   Outb PIC0_DATA 0x20; Outb PIC1_DATA 0x28;
   Outb PIC0_DATA (Z.shiftl 1 2); Outb PIC1_DATA 0x2;
   Outb PIC0_DATA DATA_ICW4_8086; Outb PIC1_DATA DATA_ICW4_8086;
   Outb PIC0_DATA 0; Outb PIC1_DATA 0].

(** [for(unsigned irq = 0x20; irq < 0x31; irq++) idt_install(irq, irq_stub, false)] *)
Fixpoint install_stubs (n : nat) (irq : Z) (irq_stub : Z) (s : idt) : outcome idt :=
  match n with
  | O => Ret s
  | S n => s ← idt_install s irq irq_stub false; install_stubs n (irq + 1) irq_stub s
  end.

Definition pic_init (p : pic) (s : idt) (irq_stub : Z) : outcome (pic * idt * list io_write) :=
  s ← install_stubs (Z.to_nat (0x31 - 0x20)) 0x20 irq_stub s;
  Ret (mkPic (replicate 16 0) (warn_unhandled p) (p_eflags p), s, pic_reset).

Definition set_irq_handler (p : pic) (irq handler : Z) : outcome pic :=
  let '(ifstate, eflags) := disable_if (p_eflags p) in
  _ ← of_option FMem (irq_handlers p !! Z.to_nat irq);
  Ret (mkPic (<[Z.to_nat irq := handler]> (irq_handlers p)) (warn_unhandled p) (restore_if eflags ifstate)).

Definition pic_install (p : pic) (irq handler : Z) : outcome pic := set_irq_handler p irq handler.
Definition pic_remove (p : pic) (irq : Z) : outcome pic := set_irq_handler p irq 0.

Definition eoi (irq : Z) : outcome (list io_write) :=
  _ ← c_assert (irq <? 16);
  Ret ((if 8 <? irq then [Outb PIC1_COMMAND COMMAND_EOI] else []) ++ [Outb PIC0_COMMAND COMMAND_EOI]).

(** What an interrupt request does, in order. *)
Inductive irq_event : Type :=
| Port (o : io_write)
| Call (handler irq : Z).
#[export] Instance irq_event_eq_dec : EqDecision irq_event.
Proof. solve_decision. Defined.

Section irq.
Context {W : Type}.
Variable call_irq : Z -> Z -> isr_regs -> W -> outcome (handler_end * W).

Definition irq_stub (p : pic) (regs : isr_regs) (w : W)
    : outcome (list irq_event * handler_end * pic * W) :=
  _ ← c_assert (negb (interrupts_enabled (p_eflags p)));
  let irq := r_int_no regs - 0x20 in
  before ← (if irq =? 0 then eoi irq else Ret []);
  h ← of_option FMem (irq_handlers p !! Z.to_nat irq);
  '(called, ended, p, w) ←
    (if nz h then
       '(ended, w) ← call_irq h irq regs w;
       match ended with
       | Returned =>
           Ret ([Call h irq], Returned,
             mkPic (irq_handlers p) (Z.lor (warn_unhandled p) (u32 (int_bit irq))) (p_eflags p), w)
       | Left => Ret ([Call h irq], Left, p, w)
       end
     else
       let wu := if BITTEST32 (warn_unhandled p) irq
                 then Z.land (warn_unhandled p) (u32 (Z.lnot (int_bit irq))) else warn_unhandled p in
       Ret ([], Returned, mkPic (irq_handlers p) wu (p_eflags p), w));
  match ended with
  | Left => Ret (map Port before ++ called, Left, p, w)
  | Returned =>
      after ← (if nz irq then eoi irq else Ret []);
      Ret (map Port before ++ called ++ map Port after, Returned, p, w)
  end.
End irq.

(** ** System calls *)
Definition SYSCALL_COUNT : nat := 80.

Definition syscall_register (hs : list Z) (num handler : Z) : outcome (list Z) :=
  if num <? Z.of_nat SYSCALL_COUNT then Ret (<[Z.to_nat num := handler]> hs) else Fault FPanic.

Definition syscall_init (s : idt) (syscall_handler : Z) : outcome (list Z * idt) :=
  s ← idt_install s 0x80 syscall_handler true;
  Ret (replicate SYSCALL_COUNT 0, s).

Definition set_eax (regs : isr_regs) (v : Z) : isr_regs :=
  mkRegs (r_ds regs) (r_edi regs) (r_esi regs) (r_ebp regs) (r_esp regs) (r_ebx regs) (r_edx regs)
    (r_ecx regs) v (r_int_no regs) (r_err_code regs) (r_eip regs) (r_cs regs) (r_eflags regs)
    (r_useresp regs) (r_ss regs).

Section syscall.
Context {W : Type}.
Variable flags_of : W -> Z.
Variable save_state : isr_regs -> W -> outcome W.
Variable heap_check : W -> outcome unit.
(** A system call handler: [None] when it does not come back. *)
Variable call_handler : Z -> isr_regs -> W -> outcome (option Z * isr_regs * W).

Definition syscall_handler (hs : list Z) (regs : isr_regs) (w : W)
    : outcome (handler_end * isr_regs * W) :=
  _ ← c_assert (negb (interrupts_enabled (flags_of w)));
  let syscall_num := r_eax regs in
  handler ← (if syscall_num <? Z.of_nat SYSCALL_COUNT
             then of_option FMem (hs !! Z.to_nat syscall_num) else Ret 0);
  if nz handler then
    w ← save_state regs w;
    _ ← heap_check w;
    '(r, regs, w) ← call_handler handler regs w;
    match r with
    | Some v =>
        _ ← heap_check w;
        Ret (Returned, set_eax regs v, w)
    | None => Ret (Left, regs, w)
    end
  else Fault FPanic.
End syscall.

(** The interrupt set-up of [kmain], in its order: the gates, the page fault and general
    protection handlers, the controllers, the system calls. ([timer_init], between the last
    two, does not touch the gates.) *)
Definition interrupt_setup (s : idt) (p : pic) (isr_stub_table : list Z)
    (entries_addr pf_handler gpf_handler irq_stub syscall_handler : Z)
    : outcome (idt * pic * list Z * list io_write) :=
  s ← idt_init s isr_stub_table entries_addr;
  let s := idt_flush s in
  s ← idt_install s 14 pf_handler true;
  s ← idt_install s 13 gpf_handler true;
  '(p, s, writes) ← pic_init p s irq_stub;
  '(handlers, s) ← syscall_init s syscall_handler;
  Ret (s, p, handlers, writes).

(** ** Gates *)
Lemma gate_offset_split base sel fl : 0 <= base < 2 ^ 32 ->
  gate_offset (mkIdtEntry (Z.land base 0xFFFF) sel 0 fl (Z.land (Z.shiftr base 16) 0xFFFF)) = base.
Proof.
  intros Hb. unfold gate_offset. cbn [ie_base_hi ie_base_lo].
  rewrite !(land_ones_mod _ 16), Z.shiftr_div_pow2 by lia.
  rewrite lor_shiftl_add by (try apply Z.mod_pos_bound; lia).
  rewrite (Z.mod_small (base / 2 ^ 16)) by (split; [apply Z.div_pos|apply Z.div_lt_upper_bound]; lia).
  pose proof (Z.div_mod base (2 ^ 16)). lia.
Qed.

(** A gate as [idt_init] leaves it. *)
Definition kernel_gate (stub : Z) : idt_entry :=
  mkIdtEntry (Z.land stub 0xFFFF) KERNEL_CODE_SEG 0
    (Z.lor (Z.lor IDT_PRESENT IDT_DPL0) IDT_INT_GATE_32) (Z.land (Z.shiftr stub 16) 0xFFFF).

Lemma set_gates_ok stubs : forall i es, 0 <= i -> i + Z.of_nat (length stubs) <= Z.of_nat (length es) ->
  exists es', set_gates stubs i es = Ret es' /\ length es' = length es /\
    (forall j, es' !! j = if bool_decide (Z.to_nat i <= j < Z.to_nat i + length stubs)%nat
                          then kernel_gate <$> (stubs !! (j - Z.to_nat i)%nat) else es !! j).
Proof.
  induction stubs as [|st stubs IH]; intros i es Hi Hlen; simpl in Hlen |- *.
  - exists es. split; [done|]. split; [done|]. intros j. rewrite bool_decide_eq_false_2 by lia. done.
  - unfold set_gate at 1. destruct (lookup_lt_is_Some_2 es (Z.to_nat i)) as [e ->]; [lia|].
    cbn [of_option mbind outcome_bind]. fold (kernel_gate st).
    destruct (IH (i + 1) (<[Z.to_nat i := kernel_gate st]> es)) as (es' & E & Hl & Hlk);
      [lia|rewrite length_insert; lia|].
    exists es'. split; [exact E|]. rewrite length_insert in Hl. split; [done|]. intros j. rewrite Hlk.
    replace (Z.to_nat (i + 1)) with (S (Z.to_nat i)) by lia.
    destruct (decide (j = Z.to_nat i)) as [->|Hne].
    + rewrite bool_decide_eq_false_2, bool_decide_eq_true_2 by lia.
      rewrite list_lookup_insert_eq by lia. by rewrite Nat.sub_diag.
    + rewrite list_lookup_insert_ne by done.
      destruct (decide (S (Z.to_nat i) <= j < S (Z.to_nat i) + length stubs)%nat).
      * rewrite !bool_decide_eq_true_2 by lia. by replace (j - Z.to_nat i)%nat with (S (j - S (Z.to_nat i))) by lia.
      * by rewrite !bool_decide_eq_false_2 by lia.
Qed.

Definition set_privilege (e : idt_entry) (user : bool) : idt_entry :=
  mkIdtEntry (ie_base_lo e) (ie_sel e) (ie_always0 e)
    (if user then Z.lor (ie_flags e) IDT_DPL3 else Z.land (ie_flags e) (u8 (Z.lnot IDT_DPL3)))
    (ie_base_hi e).

(** [idt_install] changes one vector: its handler, and the privilege bits of its gate. *)
Lemma idt_install_ok s num h user e :
  0 <= num -> idt_entries s !! Z.to_nat num = Some e -> length (isr_handlers s) = length (idt_entries s) ->
  exists s', idt_install s num h user = Ret s' /\
    idt_entries s' = <[Z.to_nat num := set_privilege e user]> (idt_entries s) /\
    isr_handlers s' = <[Z.to_nat num := h]> (isr_handlers s).
Proof.
  intros Hn He Hl. unfold idt_install. destruct (disable_if _) as [ifs fl].
  destruct (lookup_lt_is_Some_2 (isr_handlers s) (Z.to_nat num)) as [h0 ->].
  { rewrite Hl. by eapply lookup_lt_Some. }
  cbn [of_option mbind outcome_bind]. rewrite He. cbn [of_option mbind outcome_bind].
  eexists. split; [done|]. done.
Qed.

(** Installing a run of kernel vectors over gates that are already kernel gates. *)
Lemma install_stubs_ok n : forall irq stub s, 0 <= irq ->
  irq + Z.of_nat n <= Z.of_nat (length (idt_entries s)) -> length (isr_handlers s) = length (idt_entries s) ->
  (forall j e, (Z.to_nat irq <= j < Z.to_nat irq + n)%nat -> idt_entries s !! j = Some e ->
     exists a, e = kernel_gate a) ->
  exists s', install_stubs n irq stub s = Ret s' /\ idt_entries s' = idt_entries s /\
    length (isr_handlers s') = length (isr_handlers s) /\
    (forall j, isr_handlers s' !! j =
       if bool_decide (Z.to_nat irq <= j < Z.to_nat irq + n)%nat then Some stub else isr_handlers s !! j).
Proof.
  induction n as [|n IH]; intros irq stub s Hi Hle Hl Hk.
  - exists s. split; [done|]. split; [done|]. split; [done|]. intros j. by rewrite bool_decide_eq_false_2 by lia.
  - simpl. destruct (lookup_lt_is_Some_2 (idt_entries s) (Z.to_nat irq)) as [e He]; [lia|].
    destruct (Hk (Z.to_nat irq) e ltac:(lia) He) as [a Ha].
    destruct (idt_install_ok s irq stub false e Hi He Hl) as (s1 & -> & He1 & Hh1).
    cbn [mbind outcome_bind].
    assert (idt_entries s1 = idt_entries s) as Hes.
    { rewrite He1. apply list_insert_id. by rewrite He, Ha. }
    destruct (IH (irq + 1) stub s1) as (s' & E & Hes' & Hl' & Hlk).
    { lia. } { rewrite Hes. lia. } { rewrite Hh1, Hes, length_insert. done. } { intros j e' Hj. rewrite Hes. apply Hk. lia. }
    exists s'. split; [done|]. split; [congruence|]. split; [by rewrite Hl', Hh1, length_insert|].
    intros j. rewrite Hlk, Hh1. replace (Z.to_nat (irq + 1)) with (S (Z.to_nat irq)) by lia.
    destruct (decide (j = Z.to_nat irq)) as [->|].
    + rewrite bool_decide_eq_false_2, bool_decide_eq_true_2, list_lookup_insert_eq by lia. done.
    + rewrite list_lookup_insert_ne by done.
      destruct (decide (S (Z.to_nat irq) <= j < S (Z.to_nat irq) + n)%nat).
      * by rewrite !bool_decide_eq_true_2 by lia.
      * by rewrite !bool_decide_eq_false_2 by lia.
Qed.

Lemma kernel_gate_reading a : 0 <= a < 2 ^ 32 -> forall user, let e := set_privilege (kernel_gate a) user in
  gate_offset e = a /\ ie_sel e = KERNEL_CODE_SEG /\ gate_present e = true /\ gate_interrupt e = true /\
  gate_dpl e = if user then 3 else 0.
Proof.
  intros Ha user. cbn zeta. split; [exact (gate_offset_split a KERNEL_CODE_SEG _ Ha)|]. by destruct user.
Qed.

(** What a run of installations leaves of a table of kernel gates: [user v] for the gates
    opened to ring 3, [handler v] the handlers. *)
Record table_is (s : idt) (stubs : list Z) (user : Z -> bool) (handler : Z -> Z) : Prop := {
  tb_gates v a : 0 <= v < 256 -> stubs !! Z.to_nat v = Some a ->
    idt_entries s !! Z.to_nat v = Some (if user v then set_privilege (kernel_gate a) true else kernel_gate a);
  tb_handlers v : 0 <= v < 256 -> isr_handlers s !! Z.to_nat v = Some (handler v);
  tb_lengths : length (idt_entries s) = 256%nat /\ length (isr_handlers s) = 256%nat
}.

Lemma table_install s stubs user handler num h : table_is s stubs user handler -> length stubs = 256%nat ->
  0 <= num < 256 -> user num = false ->
  exists s', idt_install s num h true = Ret s' /\
    table_is s' stubs (fun v => (v =? num) || user v) (fun v => if v =? num then h else handler v).
Proof.
  intros [Hg Hh [Hl1 Hl2]] Hst Hn Hu. destruct (lookup_lt_is_Some_2 stubs (Z.to_nat num)) as [a Ha]; [lia|].
  pose proof (Hg num a Hn Ha) as He. rewrite Hu in He.
  destruct (idt_install_ok s num h true (kernel_gate a)) as (s' & E & He' & Hh'); [lia|done|congruence|].
  exists s'. split; [done|]. split.
  - intros v b Hv Hb. rewrite He'. destruct (v =? num) eqn:Ev; breflect; cbn [orb].
    + subst v. rewrite list_lookup_insert_eq by lia. congruence.
    + rewrite list_lookup_insert_ne by lia. by apply Hg.
  - intros v Hv. rewrite Hh'. destruct (v =? num) eqn:Ev; breflect.
    + subst v. rewrite list_lookup_insert_eq by lia. done.
    + rewrite list_lookup_insert_ne by lia. by apply Hh.
  - by rewrite He', Hh', !length_insert.
Qed.

Lemma table_init s stubs addr : length stubs = 256%nat -> isr_handlers s = replicate 256 0 ->
  exists s', idt_init s stubs addr = Ret s' /\ table_is s' stubs (fun _ => false) (fun _ => 0).
Proof.
  intros Hst Hh. unfold idt_init.
  destruct (set_gates_ok stubs 0 (replicate 256 zero_gate)) as (es & -> & Hl & Hlk).
  { lia. } { rewrite length_replicate. lia. }
  rewrite length_replicate in Hl. cbn [mbind outcome_bind]. rewrite Hh. eexists. split; [done|].
  change (<[0%nat:=0]> (replicate 256 0)) with (replicate 256 0). split; cbn [idt_entries isr_handlers].
  - intros v a Hv Ha. rewrite Hlk, bool_decide_eq_true_2 by lia.
    change (Z.to_nat 0) with 0%nat. by rewrite Nat.sub_0_r, Ha.
  - intros v Hv. apply lookup_replicate. split; [done|lia].
  - by rewrite length_replicate.
Qed.

Lemma table_stubs s stubs user handler p stub : table_is s stubs user handler -> length stubs = 256%nat ->
  (forall v, 0x20 <= v <= 0x30 -> user v = false) ->
  exists p' s', pic_init p s stub = Ret (p', s', pic_reset) /\ table_is s' stubs user
    (fun v => if (0x20 <=? v) && (v <=? 0x30) then stub else handler v).
Proof.
  intros [Hg Hh [Hl1 Hl2]] Hst Hu.
  destruct (install_stubs_ok 17 0x20 stub s) as (s' & E & He & Hl & Hlk); [lia|lia|congruence| |].
  { intros j e Hj Hje. destruct (lookup_lt_is_Some_2 stubs j) as [a Ha]; [lia|].
    pose proof (Hg (Z.of_nat j) a ltac:(lia)) as Hg'. rewrite Nat2Z.id in Hg'. specialize (Hg' Ha).
    rewrite Hu in Hg' by lia. exists a. congruence. }
  eexists _, s'. split; [unfold pic_init; change (Z.to_nat (0x31 - 0x20)) with 17%nat; by rewrite E|].
  split; [by rewrite He| |by rewrite He, Hl].
  intros v Hv. rewrite Hlk. destruct ((0x20 <=? v) && (v <=? 0x30)) eqn:Er; breflect_cases.
  - by rewrite bool_decide_eq_true_2 by lia.
  - rewrite bool_decide_eq_false_2 by lia. by apply Hh.
  - rewrite bool_decide_eq_false_2 by lia. by apply Hh.
Qed.

(** C34: After the interrupt set-up of [kmain], all 256 gates are present interrupt gates
    (interrupts off on entry) into the kernel code segment at the stub of their vector. Ring 3
    may raise vector 0x80 and also the exceptions 13 and 14, which [kmain] installs with the
    user flag, and no other. Vector 14 dispatches to the page fault handler, 13 to the general
    protection handler, 0x20 to 0x30 to the interrupt controller's stub, 0x80 to the system
    call handler, and the vectors without a handler abort the kernel. *)
Theorem interrupt_setup_spec {W : Type} (call_isr : Z -> isr_regs -> W -> outcome (handler_end * isr_regs * W))
    (s : idt) (p : pic) (stubs : list Z) (addr pf gpf stub sysh : Z) :
  length stubs = 256%nat -> Forall (fun a => 0 <= a < 2 ^ 32) stubs ->
  isr_handlers s = replicate 256 0 -> pf <> 0 -> gpf <> 0 -> stub <> 0 -> sysh <> 0 ->
  exists s' p' hs, interrupt_setup s p stubs addr pf gpf stub sysh = Ret (s', p', hs, pic_reset) /\
    (forall v, 0 <= v < 256 -> exists e a, idt_entries s' !! Z.to_nat v = Some e /\ stubs !! Z.to_nat v = Some a /\
       gate_offset e = a /\ ie_sel e = KERNEL_CODE_SEG /\ gate_present e = true /\
       gate_interrupt e = true /\
       gate_dpl e = if (v =? 0x80) || (v =? 13) || (v =? 14) then 3 else 0) /\
    (forall regs w, 0 <= r_int_no regs < 256 -> isr_handler call_isr s' regs w =
       if r_int_no regs =? 0x80 then call_isr sysh regs w
       else if (0x20 <=? r_int_no regs) && (r_int_no regs <=? 0x30) then call_isr stub regs w
       else if r_int_no regs =? 13 then call_isr gpf regs w
       else if r_int_no regs =? 14 then call_isr pf regs w
       else Fault FPanic).
Proof.
  intros Hst Hr Hh Hpf Hgpf Hstub Hsys. unfold interrupt_setup.
  destruct (table_init s stubs addr Hst Hh) as (s0 & -> & T0). cbn [mbind outcome_bind].
  assert (table_is (idt_flush s0) stubs (fun _ => false) (fun _ => 0)) as T0' by (by destruct T0).
  destruct (table_install _ _ _ _ 14 pf T0' Hst ltac:(lia) eq_refl) as (s1 & -> & T1). cbn [mbind outcome_bind].
  destruct (table_install _ _ _ _ 13 gpf T1 Hst ltac:(lia) eq_refl) as (s2 & -> & T2). cbn [mbind outcome_bind].
  destruct (table_stubs _ _ _ _ p stub T2 Hst) as (p' & s3 & -> & T3).
  { intros v Hv. cbv beta. rewrite !(proj2 (Z.eqb_neq _ _)) by lia. done. }
  cbn [mbind outcome_bind]. unfold syscall_init.
  destruct (table_install _ _ _ _ 0x80 sysh T3 Hst ltac:(lia) eq_refl) as (s4 & -> & [Hg Hd _]).
  cbn [mbind outcome_bind]. eexists s4, p', _. split; [done|]. split.
  - intros v Hv. destruct (lookup_lt_is_Some_2 stubs (Z.to_nat v)) as [a Ha]; [lia|].
    assert (0 <= a < 2 ^ 32) as Hab.
    { rewrite Forall_forall in Hr. apply Hr. by eapply list_elem_of_lookup_2. }
    pose proof (Hg v a Hv Ha) as He. rewrite orb_false_r, orb_assoc in He.
    eexists _, a. split; [exact He|]. split; [done|].
    destruct ((v =? 0x80) || (v =? 13) || (v =? 14)).
    + exact (kernel_gate_reading a Hab true).
    + exact (kernel_gate_reading a Hab false).
  - intros regs w Hv. unfold isr_handler. rewrite Hd by done. cbn [of_option mbind outcome_bind].
    destruct (r_int_no regs =? 0x80); [by rewrite nz_true|].
    destruct (_ && _); [by rewrite nz_true|]. destruct (r_int_no regs =? 13); [by rewrite nz_true|].
    by destruct (r_int_no regs =? 14); [rewrite nz_true|].
Qed.

Lemma interrupt_setup_spec_witness : exists s' : idt,
  isr_handler (fun h regs (w : Z) => Ret (Returned, regs, h)) s'
    (mkRegs 0 0 0 0 0 0 0 0 0 0x80 0 0 0 0 0 0) 7 = Ret (Returned, mkRegs 0 0 0 0 0 0 0 0 0 0x80 0 0 0 0 0 0, 9) /\
  isr_handler (fun h regs (w : Z) => Ret (Returned, regs, h)) s'
    (mkRegs 0 0 0 0 0 0 0 0 0 14 0 0 0 0 0 0) 7 = Ret (Returned, mkRegs 0 0 0 0 0 0 0 0 0 14 0 0 0 0 0 0, 3) /\
  isr_handler (fun h regs (w : Z) => Ret (Returned, regs, h)) s'
    (mkRegs 0 0 0 0 0 0 0 0 0 12 0 0 0 0 0 0) 7 = Fault FPanic.
Proof.
  destruct (interrupt_setup_spec (fun h regs (w : Z) => Ret (Returned, regs, h))
    (mkIdt [] (0, 0) (replicate 256 0) None 2) (mkPic [] 0 2) (replicate 256 0x1000) 0x8000 3 4 5 9)
    as (s' & p' & hs & _ & _ & Hd).
  { apply length_replicate. } { apply Forall_replicate. lia. } { reflexivity. } { lia. } { lia. } { lia. } { lia. }
  exists s'. split; [|split]; rewrite Hd by (cbn; lia); reflexivity.
Defined.

(** ** Acknowledgement *)
Definition acks (irq : Z) : list irq_event :=
  (if 8 <? irq then [Port (Outb PIC1_COMMAND COMMAND_EOI)] else []) ++ [Port (Outb PIC0_COMMAND COMMAND_EOI)].

Lemma eoi_acks irq : irq < 16 -> exists l, eoi irq = Ret l /\ map Port l = acks irq.
Proof.
  intros Hi. unfold eoi, acks. rewrite (proj2 (Z.ltb_lt irq 16)) by done. eexists. split; [done|].
  by destruct (8 <? irq).
Qed.

(** An interrupt request is acknowledged exactly once, after its handler returned, and
    not at all when the handler leaves for another task; the timer, whose handler may
    leave, is acknowledged before its handler runs. The slave controller is acknowledged
    for requests 9 to 15 only: request 8, the first one the slave delivers, is
    acknowledged at the master alone. Vector 0x30, which [pic_init] also routes here,
    reads past the handler table. *)
Theorem irq_stub_spec {W : Type} (call_irq : Z -> Z -> isr_regs -> W -> outcome (handler_end * W))
    (p : pic) (regs : isr_regs) (w : W) (irq h : Z) :
  interrupts_enabled (p_eflags p) = false -> length (irq_handlers p) = 16%nat ->
  r_int_no regs = 0x20 + irq -> 0 <= irq -> irq_handlers p !! Z.to_nat irq = Some h ->
  (h = 0 -> exists p', irq_stub call_irq p regs w = Ret (acks irq, Returned, p', w) /\
     irq_handlers p' = irq_handlers p) /\
  (forall w', h <> 0 -> call_irq h irq regs w = Ret (Returned, w') ->
     exists p', irq_stub call_irq p regs w =
       Ret (if irq =? 0 then acks irq ++ [Call h irq] else [Call h irq] ++ acks irq, Returned, p', w') /\
     irq_handlers p' = irq_handlers p) /\
  (forall w', h <> 0 -> call_irq h irq regs w = Ret (Left, w') ->
     irq_stub call_irq p regs w =
       Ret (if irq =? 0 then acks irq ++ [Call h irq] else [Call h irq], Left, p, w')) /\
  (forall regs', r_int_no regs' = 0x30 -> irq_stub call_irq p regs' w = Fault FMem).
Proof.
  intros Hif Hlen Hno Hi Hh. pose proof (lookup_lt_Some _ _ _ Hh) as Hlt.
  destruct (eoi_acks irq) as (l & El & Hl); [lia|].
  assert (irq_stub call_irq p regs w = ('(called, ended, p', w) ←
      (if nz h then
         '(ended, w) ← call_irq h irq regs w;
         match ended with
         | Returned => Ret ([Call h irq], Returned,
             mkPic (irq_handlers p) (Z.lor (warn_unhandled p) (u32 (int_bit irq))) (p_eflags p), w)
         | Left => Ret ([Call h irq], Left, p, w)
         end
       else
         let wu := if BITTEST32 (warn_unhandled p) irq
                   then Z.land (warn_unhandled p) (u32 (Z.lnot (int_bit irq))) else warn_unhandled p in
         Ret ([], Returned, mkPic (irq_handlers p) wu (p_eflags p), w));
      match ended with
      | Left => Ret ((if irq =? 0 then acks irq else []) ++ called, Left, p', w)
      | Returned => Ret ((if irq =? 0 then acks irq else []) ++ called ++ (if irq =? 0 then [] else acks irq),
                         Returned, p', w)
      end)) as Heq.
  { unfold irq_stub. rewrite Hif, Hno. cbn [negb c_assert mbind outcome_bind].
    replace (0x20 + irq - 0x20) with irq by lia. rewrite El, Hh. assert (nz irq = negb (irq =? 0)) as -> by done. destruct (irq =? 0) eqn:E0; cbn;
      destruct (nz h); cbn; try (destruct (call_irq _ _ _ _) as [[[] ?]|]; cbn); rewrite ?Hl, ?app_nil_r; done. }
  split; [|split; [|split]].
  - intros Hz. eexists. split; [rewrite Heq, nz_false by done; cbn|].
    + destruct (irq =? 0); cbn; by rewrite ?app_nil_r.
    + done.
  - intros w' Hz Hc. eexists. split; [rewrite Heq, nz_true, Hc by done; cbn|].
    + destruct (irq =? 0); cbn; by rewrite ?app_nil_r.
    + done.
  - intros w' Hz Hc. rewrite Heq, nz_true, Hc by done. cbn. by destruct (irq =? 0).
  - intros regs' Hr. unfold irq_stub. rewrite Hif, Hr. cbn [negb c_assert mbind outcome_bind].
    change (0x30 - 0x20 =? 0) with false. cbn [mbind outcome_bind].
    change (Z.to_nat (0x30 - 0x20)) with 16%nat. rewrite lookup_ge_None_2 by lia. done.
Qed.

Lemma irq_stub_spec_witness : exists p',
  irq_stub (fun h irq regs (w : Z) => Ret (Returned, w + h)) (mkPic (replicate 16 4) 0 2)
    (mkRegs 0 0 0 0 0 0 0 0 0 0x28 0 0 0 0 0 0) 1 =
  Ret ([Call 4 8; Port (Outb PIC0_COMMAND COMMAND_EOI)], Returned, p', 5).
Proof.
  destruct (irq_stub_spec (fun h irq regs (w : Z) => Ret (Returned, w + h)) (mkPic (replicate 16 4) 0 2)
    (mkRegs 0 0 0 0 0 0 0 0 0 0x28 0 0 0 0 0 0) 1 8 4) as (_ & H & _); try reflexivity; [lia|].
  destruct (H 5) as (p' & E & _); [lia|reflexivity|]. exists p'. exact E.
Defined.
