(* ===== verification/Timer.v ===== *)
(** [kernel/timer.c]: the programmable interval timer, the millisecond clock and the table
    of timer callbacks. *)
From S2P Require Import Prelude Util Locks Sched Irq.

Definition PORT_COMMAND : Z := 0x43.
Definition PORT_DATA : Z := 0x40.
Definition ICW : Z := 0x36.
Definition INTERNAL_FREQ : Z := 1193180.
Definition FREQ : Z := 100.
Definition TICKS_PER_MS : Z := 1000 / FREQ.
Definition MAX_TIMERS : Z := 10.
Definition IRQ_TIMER : Z := 0.

Record timer_info : Type := mkTimer {
  ti_id : Z;
  ti_callback : Z;
  ti_data : Z;
  ti_period : Z;
  ti_recurring : bool;
  ti_last_triggered : Z
}.
Definition zero_timer : timer_info := mkTimer 0 0 0 0 false 0.

(** The static variables of the file and the flags register. *)
Record timer : Type := mkT {
  current_timestamp : Z;
  ticks : Z;
  timers : list timer_info;
  timer_count : Z;
  next_timer_id : Z;
  t_eflags : Z
}.
Definition timer_start (eflags : Z) : timer :=
  mkT 0 0 (replicate (Z.to_nat MAX_TIMERS) zero_timer) 0 0 eflags.

Definition timer_timestamp (t : timer) : Z := current_timestamp t.
Definition timer_ticks (t : timer) : Z := ticks t.

(** The ports written by [timer_init], and the handler it installs. *)
Definition timer_init (p : pic) (irq_handler : Z) : outcome (pic * list io_write) :=
  let divisor := INTERNAL_FREQ / FREQ in
  p ← pic_install p IRQ_TIMER irq_handler;
  Ret (p, [Outb PORT_COMMAND ICW; Outb PORT_DATA (LOBYTE divisor); Outb PORT_DATA (HIBYTE divisor)]).

(** [last_triggered] keeps the value the slot had. *)
Definition timer_schedule (t : timer) (callback data period : Z) (recurring : bool) : outcome (Z * timer) :=
  _ ← c_assert (timer_count t <? MAX_TIMERS - 1);
  let '(ifstate, eflags) := disable_if (t_eflags t) in
  let id := u32 (next_timer_id t) in
  slot ← of_option FMem (timers t !! Z.to_nat (timer_count t));
  Ret (id, mkT (current_timestamp t) (ticks t)
         (<[Z.to_nat (timer_count t) := mkTimer id callback data period recurring (ti_last_triggered slot)]> (timers t))
         (timer_count t + 1) (s32 (next_timer_id t + 1)) (restore_if eflags ifstate)).

(** The search loop: the first index below [timer_count] with this id, or -1. *)
Fixpoint find_timer (ts : list timer_info) (n : nat) (i id : Z) : Z :=
  match n, ts with
  | S n, x :: ts => if ti_id x =? id then i else find_timer ts n (i + 1) id
  | _, _ => -1
  end.

Definition timer_unschedule (t : timer) (id : Z) : outcome timer :=
  let '(ifstate, eflags) := disable_if (t_eflags t) in
  let index := find_timer (timers t) (Z.to_nat (timer_count t)) 0 id in
  if negb (index =? -1) then
    ts ← (if negb (index =? timer_count t) then
            x ← of_option FMem (timers t !! Z.to_nat (timer_count t));
            Ret (<[Z.to_nat index := x]> (timers t))
          else Ret (timers t));
    Ret (mkT (current_timestamp t) (ticks t) ts (timer_count t - 1) (next_timer_id t) (restore_if eflags ifstate))
  else Ret (mkT (current_timestamp t) (ticks t) (timers t) (timer_count t) (next_timer_id t)
              (restore_if eflags ifstate)).

(** [current_timestamp >= timers[i].last_triggered + timers[i].period] *)
Definition due (now : Z) (x : timer_info) : bool := u64 (ti_last_triggered x + ti_period x) <=? now.

Definition set_last (x : timer_info) (now : Z) : timer_info :=
  mkTimer (ti_id x) (ti_callback x) (ti_data x) (ti_period x) (ti_recurring x) now.

(** The first loop of the handler, over the first [n] entries: the table with the new
    times, and [triggered]. *)
Fixpoint mark_due (now : Z) (n : nat) (ts : list timer_info) : list timer_info * list timer_info :=
  match n, ts with
  | S n, x :: ts =>
      let '(ts', triggered) := mark_due now n ts in
      if due now x then (set_last x now :: ts', set_last x now :: triggered) else (x :: ts', triggered)
  | _, _ => (ts, [])
  end.

Section irq.
Context {W : Type}.
(** A callback may use the timer and may leave for another task. *)
Variable call_callback : Z -> Z -> isr_regs -> timer -> W -> outcome (handler_end * timer * W).

Fixpoint run_triggered (triggered : list timer_info) (regs : isr_regs) (t : timer) (w : W)
    : outcome (handler_end * timer * W) :=
  match triggered with
  | [] => Ret (Returned, t, w)
  | x :: rest =>
      '(e, t, w) ← call_callback (ti_callback x) (ti_data x) regs t w;
      match e with
      | Left => Ret (Left, t, w)
      | Returned =>
          t ← (if ti_recurring x then Ret t else timer_unschedule t (ti_id x));
          run_triggered rest regs t w
      end
  end.

Definition irq_handler (regs : isr_regs) (t : timer) (w : W) : outcome (handler_end * timer * W) :=
  let now := u64 (current_timestamp t + TICKS_PER_MS) in
  let '(ts, triggered) := mark_due now (Z.to_nat (timer_count t)) (timers t) in
  run_triggered triggered regs
    (mkT now (u64 (ticks t + 1)) ts (timer_count t) (next_timer_id t) (t_eflags t)) w.
End irq.

(** ** The table *)

(** The timers in use. *)
Definition live (t : timer) : list timer_info := take (Z.to_nat (timer_count t)) (timers t).

Record timer_ok (t : timer) : Prop := {
  to_len : length (timers t) = Z.to_nat MAX_TIMERS;
  to_count : 0 <= timer_count t < MAX_TIMERS
}.

Lemma find_timer_app ts1 x ts2 n i id : (forall y, y ∈ ts1 -> ti_id y <> id) -> ti_id x = id ->
  (length ts1 < n)%nat -> find_timer (ts1 ++ x :: ts2) n i id = i + Z.of_nat (length ts1).
Proof.
  revert n i. induction ts1 as [|y ts1 IH]; intros n i Hne Hx Hn; simpl in *.
  - destruct n; [lia|]. simpl. rewrite (proj2 (Z.eqb_eq _ _)) by done. lia.
  - destruct n; [lia|]. simpl. rewrite (proj2 (Z.eqb_neq _ _)) by (apply Hne; left).
    rewrite IH; [lia|intros; apply Hne; by right|done|lia].
Qed.

Lemma find_timer_none ts n i id : 0 <= i -> (forall y, y ∈ take n ts -> ti_id y <> id) ->
  find_timer ts n i id = -1.
Proof.
  revert ts i. induction n as [|n IH]; intros ts i Hi Hne; [by destruct ts|].
  destruct ts as [|x ts]; [done|]. simpl in *.
  rewrite (proj2 (Z.eqb_neq _ _)) by (apply Hne; left). apply IH; [lia|]. intros. apply Hne. by right.
Qed.

Lemma live_lookup t j : live t !! j = if bool_decide (j < Z.to_nat (timer_count t))%nat then timers t !! j else None.
Proof.
  unfold live. case_bool_decide; [by rewrite lookup_take_lt|].
  apply lookup_take_ge. lia.
Qed.

Lemma length_live t : timer_ok t -> Z.of_nat (length (live t)) = timer_count t.
Proof.
  intros [Hl Hc]. unfold live, MAX_TIMERS in *. rewrite length_take, Hl. lia.
Qed.

(** The timer table holds at most 9 timers and every operation stays inside it.
    [timer_schedule] appends a timer to the table, its first expiry counted from the time
    left in the slot by an earlier timer, or aborts when 9 are in use; an unknown id leaves
    the table alone. [timer_unschedule] removes the last timer of the table exactly, but
    for any other it overwrites the timer with the unused slot behind the table and loses
    the last timer of the table. *)
Theorem timer_table_spec (t : timer) (callback data period : Z) (recurring : bool) (id : Z)
    (before after : list timer_info) (x : timer_info) :
  timer_ok t -> live t = before ++ x :: after -> ti_id x = id -> (forall y, y ∈ before -> ti_id y <> id) ->
  (timer_count t < 9 -> exists t' slot, timers t !! Z.to_nat (timer_count t) = Some slot /\
     timer_schedule t callback data period recurring = Ret (u32 (next_timer_id t), t') /\ timer_ok t' /\
     live t' = live t ++ [mkTimer (u32 (next_timer_id t)) callback data period recurring (ti_last_triggered slot)]) /\
  (9 <= timer_count t -> timer_schedule t callback data period recurring = Fault FAssert) /\
  (exists t' slot, timer_unschedule t id = Ret t' /\ timer_ok t' /\
     timers t !! Z.to_nat (timer_count t) = Some slot /\
     live t' = match after with
               | [] => before
               | _ => before ++ slot :: removelast after
               end) /\
  (forall other, (forall y, y ∈ live t -> ti_id y <> other) ->
     exists t', timer_unschedule t other = Ret t' /\ timer_ok t' /\ timers t' = timers t /\ live t' = live t).
Proof.
  intros Hok Hlive Hid Hbefore. pose proof (length_live t Hok) as Hll. destruct Hok as [Hl Hc].
  unfold MAX_TIMERS in *. destruct (lookup_lt_is_Some_2 (timers t) (Z.to_nat (timer_count t))) as [slot Hslot]; [lia|].
  assert (timers t = before ++ x :: after ++ drop (Z.to_nat (timer_count t)) (timers t)) as Hts.
  { rewrite <- (take_drop (Z.to_nat (timer_count t)) (timers t)) at 1. fold (live t). rewrite Hlive.
    by rewrite <- app_assoc. }
  rewrite Hlive, length_app in Hll. cbn [length] in Hll.
  split; [|split; [|split]].
  - intros Hlt. unfold timer_schedule, MAX_TIMERS. rewrite (proj2 (Z.ltb_lt _ _)) by lia.
    cbn [c_assert mbind outcome_bind]. destruct (disable_if _) as [ifs fl]. rewrite Hslot.
    cbn [of_option mbind outcome_bind]. eexists _, slot. split; [done|]. split; [done|]. split.
    + split; cbn; [by rewrite length_insert|unfold MAX_TIMERS; lia].
    + unfold live. cbn. replace (Z.to_nat (timer_count t + 1)) with (S (Z.to_nat (timer_count t))) by lia.
      erewrite take_S_r by (apply list_lookup_insert_eq; lia). by rewrite take_insert_ge by lia.
  - intros Hge. unfold timer_schedule, MAX_TIMERS. by rewrite (proj2 (Z.ltb_ge _ _)) by lia.
  - unfold timer_unschedule. destruct (disable_if _) as [ifs fl].
    assert (find_timer (timers t) (Z.to_nat (timer_count t)) 0 id = Z.of_nat (length before)) as ->.
    { rewrite Hts at 1. rewrite find_timer_app; [lia|done|done|lia]. }
    rewrite (proj2 (Z.eqb_neq _ (-1))), (proj2 (Z.eqb_neq _ (timer_count t))) by lia. cbn [negb].
    rewrite Hslot. cbn [of_option mbind outcome_bind]. eexists _, slot. split; [done|].
    split; [split; cbn; [by rewrite length_insert|unfold MAX_TIMERS; lia]|]. split; [done|].
    unfold live. cbn. rewrite Nat2Z.id. rewrite Hts at 1.
    rewrite insert_app_r_alt, Nat.sub_diag by lia. cbn.
    destruct after as [|y after] using rev_ind.
    + rewrite take_app_le by (cbn in Hll; lia). apply take_ge. cbn in Hll. lia.
    + rewrite removelast_last. assert (after ++ [y] <> []) as Hne by (by destruct after).
      destruct (after ++ [y]) eqn:E; [done|]. rewrite <- E in *. rewrite length_app in Hll. cbn in Hll.
      rewrite <- app_assoc. change (before ++ slot :: after ++ [y] ++ ?r) with (before ++ (slot :: after) ++ [y] ++ r).
      rewrite (app_assoc before). rewrite take_app_le by (rewrite length_app; cbn; lia).
      apply take_ge. rewrite length_app. cbn. lia.
  - intros other Hother. unfold timer_unschedule. destruct (disable_if _) as [ifs fl].
    rewrite find_timer_none by (done || lia). cbn [Z.eqb negb]. eexists. split; [done|]. split; [done|]. done.
Qed.

Lemma timer_table_spec_witness : exists t',
  timer_unschedule (mkT 30 3 (mkTimer 0 11 0 50 true 0 :: mkTimer 1 12 0 20 true 0 :: replicate 8 zero_timer) 2 2 2) 0
    = Ret t' /\ live t' = [zero_timer].
Proof.
  destruct (timer_table_spec
    (mkT 30 3 (mkTimer 0 11 0 50 true 0 :: mkTimer 1 12 0 20 true 0 :: replicate 8 zero_timer) 2 2 2)
    0 0 0 false 0 [] [mkTimer 1 12 0 20 true 0] (mkTimer 0 11 0 50 true 0)) as (_ & _ & (t' & slot & E & _ & Es & El) & _).
  { split; cbn; unfold MAX_TIMERS; lia. } { reflexivity. } { reflexivity. } { intros y Hy. inversion Hy. }
  exists t'. split; [exact E|]. cbn in Es. injection Es as <-. exact El.
Defined.

(** ** Ticks *)
Definition tick_entry (now : Z) (x : timer_info) : timer_info := if due now x then set_last x now else x.
Definition call_of (x : timer_info) : Z * Z := (ti_callback x, ti_data x).

Lemma filter_due now x l : filter (fun x => due now x) (x :: l) =
  if due now x then x :: filter (fun x => due now x) l else filter (fun x => due now x) l.
Proof.
  destruct (due now x) eqn:E; [rewrite filter_cons_True|rewrite filter_cons_False]; rewrite ?E; done || tauto.
Qed.

Lemma mark_due_eq now n : forall ts, mark_due now n ts =
  (map (tick_entry now) (take n ts) ++ drop n ts,
   map (fun x => set_last x now) (filter (fun x => due now x) (take n ts))).
Proof.
  induction n as [|n IH]; intros [|x ts]; try done. cbn [mark_due take drop map]. rewrite IH.
  rewrite filter_due. unfold tick_entry. by destruct (due now x).
Qed.

(** Callbacks, each recorded in the order of the calls. [leaves cb w] says whether the callback
    [cb], called after the calls [w], leaves for another task instead of returning (as the
    scheduler's does); a callback does not change the table. *)
Section callbacks.
Variable leaves : Z -> list (Z * Z) -> bool.

Definition record_callback (cb data : Z) (regs : isr_regs) (t : timer) (w : list (Z * Z))
    : outcome (handler_end * timer * list (Z * Z)) :=
  Ret (if leaves cb w then Left else Returned, t, w ++ [(cb, data)]).

(** The calls made for the triggered timers [l] after the calls [w]: up to the first that
    leaves. *)
Fixpoint called (w : list (Z * Z)) (l : list timer_info) : list (Z * Z) :=
  match l with
  | [] => []
  | x :: l => call_of x :: if leaves (ti_callback x) w then [] else called (w ++ [call_of x]) l
  end.
Fixpoint some_leaves (w : list (Z * Z)) (l : list timer_info) : bool :=
  match l with
  | [] => false
  | x :: l => leaves (ti_callback x) w || some_leaves (w ++ [call_of x]) l
  end.

Lemma run_triggered_record l regs t w : (forall x, x ∈ l -> ti_recurring x = true) ->
  run_triggered record_callback l regs t w =
    Ret (if some_leaves w l then Left else Returned, t, w ++ called w l).
Proof.
  revert w. induction l as [|x l IH]; intros w Hrec; cbn; [by rewrite app_nil_r|].
  destruct (leaves (ti_callback x) w); [done|].
  rewrite Hrec by left. cbn. rewrite IH by (intros; apply Hrec; by right). by rewrite <- app_assoc.
Qed.

Lemma called_set_last now w l : called w (map (fun x => set_last x now) l) = called w l /\
  some_leaves w (map (fun x => set_last x now) l) = some_leaves w l.
Proof.
  revert w. induction l as [|x l IH]; intros w; [done|]. cbn. unfold call_of. cbn [set_last ti_callback ti_data].
  destruct (IH (w ++ [(ti_callback x, ti_data x)])) as [-> ->]. done.
Qed.

(** One tick: the clock advances by 10 ms, every due timer is marked as called now, and the
    due timers are called in the order of the table, up to the first that leaves. *)
Lemma irq_handler_record regs t w : timer_ok t -> (forall x, x ∈ live t -> ti_recurring x = true) ->
  let now := u64 (current_timestamp t + 10) in
  let l := filter (fun x => due now x) (live t) in
  exists t', irq_handler record_callback regs t w =
    Ret (if some_leaves w l then Left else Returned, t', w ++ called w l) /\
    timer_ok t' /\ current_timestamp t' = now /\ live t' = map (tick_entry now) (live t).
Proof.
  intros [Hl Hc] Hrec now l. unfold irq_handler. change TICKS_PER_MS with 10. fold now.
  rewrite mark_due_eq. fold (live t). fold l. rewrite run_triggered_record; cycle 1.
  { intros x Hx. apply list_elem_of_fmap in Hx as (y & -> & Hy). apply list_elem_of_filter in Hy as [_ Hy].
    cbn. by apply Hrec. }
  destruct (called_set_last now w l) as [-> ->]. eexists. split; [done|].
  pose proof (length_live t (Build_timer_ok _ Hl Hc)) as Hll. split; [|split; [done|]].
  - split; cbn; [|done]. rewrite length_app, length_map, length_drop. lia.
  - unfold live at 1. cbn. rewrite take_app_le by (rewrite length_map; lia).
    apply take_ge. rewrite length_map. lia.
Qed.

(** Ticks one after another, whether the handler returned or left. *)
Fixpoint run_ticks (n : nat) (regs : isr_regs) (t : timer) (w : list (Z * Z)) : outcome (timer * list (Z * Z)) :=
  match n with
  | O => Ret (t, w)
  | S n => '(_, t, w) ← irq_handler record_callback regs t w; run_ticks n regs t w
  end.

Lemma called_app w l1 l2 : some_leaves w l1 = false ->
  called w (l1 ++ l2) = map call_of l1 ++ called (w ++ map call_of l1) l2.
Proof.
  revert w. induction l1 as [|x l1 IH]; intros w Hs; cbn; [by rewrite app_nil_r|].
  cbn in Hs. apply orb_false_iff in Hs as [-> Hs]. rewrite IH by done. by rewrite <- app_assoc.
Qed.

Lemma never_leaves w l : (forall y, y ∈ l -> forall h, leaves (ti_callback y) h = false) ->
  some_leaves w l = false.
Proof.
  revert w. induction l as [|x l IH]; intros w Hl; [done|]. cbn. rewrite Hl by left.
  apply IH. intros y Hy. apply Hl. by right.
Qed.

Lemma called_sublist w l : called w l `sublist_of` map call_of l.
Proof.
  revert w. induction l as [|x l IH]; intros w; [constructor|]. cbn. apply sublist_skip.
  destruct (leaves _ _); [apply sublist_nil_l|apply IH].
Qed.
End callbacks.

(** The number of calls in [n] ticks of a timer of period [p] that was last called [e]
    milliseconds ago, tick by tick, and in closed form. *)
Fixpoint fires (n : nat) (p e : Z) : Z :=
  match n with
  | O => 0
  | S n => if p <=? e + 10 then 1 + fires n p 0 else fires n p (e + 10)
  end.

Definition ticks_until (p e : Z) : Z := Z.max 1 ((p - e + 9) / 10).
Definition calls (n p e : Z) : Z :=
  if n <? ticks_until p e then 0 else 1 + (n - ticks_until p e) / ticks_until p 0.

Lemma fires_calls n : forall p e, 0 <= p -> fires n p e = calls (Z.of_nat n) p e.
Proof.
  induction n as [|n IH]; intros p e Hp; unfold calls; simpl fires.
  - rewrite (proj2 (Z.ltb_lt _ _)); [done|]. unfold ticks_until. lia.
  - set (q := ticks_until p 0). assert (1 <= q) by (unfold q, ticks_until; lia).
    destruct (p <=? e + 10) eqn:E; breflect.
    + assert (ticks_until p e = 1) as ->.
      { unfold ticks_until. pose proof (Z.div_lt_upper_bound (p - e + 9) 10 2). lia. }
      rewrite (proj2 (Z.ltb_ge _ _)) by lia. rewrite IH by done. unfold calls. fold q. f_equal.
      replace (Z.of_nat (S n) - 1) with (Z.of_nat n) by lia.
      destruct (Z.of_nat n <? q) eqn:En; breflect; [by rewrite Z.div_small by lia|].
      replace (Z.of_nat n) with ((Z.of_nat n - q) + 1 * q) at 2 by lia. rewrite Z.div_add by lia. lia.
    + rewrite IH by done. unfold calls. fold q.
      assert (ticks_until p e = ticks_until p (e + 10) + 1) as ->.
      { unfold ticks_until. replace (p - e + 9) with (p - (e + 10) + 9 + 1 * 10) by lia.
        rewrite Z.div_add by lia. pose proof (Z.div_le_lower_bound (p - (e + 10) + 9) 10 1). lia. }
      replace (Z.of_nat (S n) - (ticks_until p (e + 10) + 1)) with (Z.of_nat n - ticks_until p (e + 10)) by lia.
      destruct (Z.of_nat n <? _) eqn:En; breflect.
      * by rewrite (proj2 (Z.ltb_lt _ _)) by lia.
      * by rewrite (proj2 (Z.ltb_ge _ _)) by lia.
Qed.

Definition count (c : Z * Z) (w : list (Z * Z)) : Z := Z.of_nat (length (filter (fun d => d = c) w)).

Lemma count_app c w1 w2 : count c (w1 ++ w2) = count c w1 + count c w2.
Proof. unfold count. rewrite filter_app, length_app. lia. Qed.

Lemma count_due now l i x : NoDup (map call_of l) -> l !! i = Some x ->
  count (call_of x) (map call_of (filter (fun y => due now y) l)) = if due now x then 1 else 0.
Proof.
  revert i. induction l as [|y l IH]; intros i Hnd Hi; [done|]. cbn in Hnd. apply NoDup_cons in Hnd as [Hy Hnd].
  assert (forall z, call_of z ∉ map call_of l -> count (call_of z) (map call_of (filter (fun y => due now y) l)) = 0) as H0.
  { intros z Hz. unfold count. rewrite list_filter_none; [done|].
    intros c Hc ->. apply Hz. apply list_elem_of_fmap in Hc as (u & -> & Hu).
    apply list_elem_of_filter in Hu as [_ Hu]. by apply list_elem_of_fmap_2. }
  destruct i as [|i]; cbn in Hi.
  - injection Hi as ->. rewrite filter_due. destruct (due now x); cbn [map].
    + change (call_of x :: ?l) with ([call_of x] ++ l). rewrite count_app, H0 by done.
      unfold count. by rewrite filter_cons_True.
    + by apply H0.
  - assert (call_of x <> call_of y) as Hne.
    { intros E. apply Hy. rewrite <- E. apply list_elem_of_fmap_2. by eapply list_elem_of_lookup_2. }
    rewrite <- (IH i Hnd Hi). rewrite filter_due. destruct (due now y); [|done]. cbn [map].
    change (call_of y :: ?l) with ([call_of y] ++ l). rewrite count_app. unfold count at 1.
    by rewrite filter_cons_False by congruence.
Qed.

Lemma count_sublist c l1 l2 : l1 `sublist_of` l2 -> count c l1 <= count c l2.
Proof.
  intros Hs. unfold count. assert (filter (fun d => d = c) l1 `sublist_of` filter (fun d => d = c) l2) as Hf.
  { induction Hs as [|x l1 l2 Hs IH|x l1 l2 Hs IH]; [constructor|..]; rewrite ?filter_cons;
      destruct (decide (x = c)); try (by constructor); done. }
  apply sublist_length in Hf. lia.
Qed.

(** A due timer is called unless a timer before it leaves. *)
Lemma count_called leaves now l i x w : NoDup (map call_of l) -> l !! i = Some x ->
  let c := count (call_of x) (called leaves w (filter (fun y => due now y) l)) in
  c <= (if due now x then 1 else 0) /\
  ((forall j y, (j < i)%nat -> l !! j = Some y -> forall h, leaves (ti_callback y) h = false) ->
   c = if due now x then 1 else 0).
Proof.
  intros Hnd Hi c. assert (c <= if due now x then 1 else 0) as Hle.
  { rewrite <- (count_due now l i x Hnd Hi). apply count_sublist, called_sublist. }
  split; [done|]. intros Hno. destruct (due now x) eqn:Ed; [|unfold c, count in *; lia].
  assert (1 <= c); [|lia]. unfold c.
  rewrite <- (take_drop_middle l i x Hi), filter_app.
  rewrite called_app.
  - rewrite count_app, filter_due, Ed. cbn [called]. unfold count at 2.
    rewrite filter_cons_True by done. cbn [length]. unfold count. lia.
  - apply never_leaves. intros y Hy. apply list_elem_of_filter in Hy as [_ Hy].
    apply list_elem_of_lookup in Hy as [j Hj]. apply lookup_take_Some in Hj as [Hj Hlt]. by apply (Hno j y).
Qed.

Lemma tick_entry_call now x : call_of (tick_entry now x) = call_of x.
Proof. unfold tick_entry. by destruct (due now x). Qed.

(** What a table must satisfy for the rate of its timers: recurring timers with distinct
    callbacks, none called in the future. *)
Record rate_ok (t : timer) : Prop := {
  ro_ok : timer_ok t;
  ro_now : 0 <= current_timestamp t;
  ro_rec x : x ∈ live t -> ti_recurring x = true;
  ro_period x : x ∈ live t -> 0 <= ti_period x < 2 ^ 32;
  ro_last x : x ∈ live t -> 0 <= ti_last_triggered x <= current_timestamp t;
  ro_distinct : NoDup (map call_of (live t))
}.

Lemma tick_rate_ok t now t' : rate_ok t -> timer_ok t' -> current_timestamp t <= now ->
  current_timestamp t' = now -> live t' = map (tick_entry now) (live t) -> rate_ok t'.
Proof.
  intros [Hok Hz Hr Hp Hl Hd] Hok' Hle Hnow Hlive.
  assert (forall x, x ∈ live t' -> exists y, y ∈ live t /\ x = tick_entry now y) as Hx.
  { intros x Hx. rewrite Hlive in Hx. apply list_elem_of_fmap in Hx as (y & -> & Hy). eauto. }
  split; [done|lia| | | |].
  - intros x (y & Hy & ->)%Hx. unfold tick_entry. destruct (due now y); exact (Hr y Hy).
  - intros x (y & Hy & ->)%Hx. unfold tick_entry. destruct (due now y); exact (Hp y Hy).
  - intros x (y & Hy & ->)%Hx. specialize (Hl y Hy). unfold tick_entry. destruct (due now y); cbn; lia.
  - rewrite Hlive, map_map. by rewrite (map_ext _ call_of (tick_entry_call now)).
Qed.

(** No timer before position [i] of the table ever leaves. *)
Definition first_to_leave (leaves : Z -> list (Z * Z) -> bool) (t : timer) (i : nat) : Prop :=
  forall j y, (j < i)%nat -> live t !! j = Some y -> forall h, leaves (ti_callback y) h = false.

Lemma run_ticks_ok leaves n : forall regs t w, rate_ok t -> current_timestamp t + 10 * Z.of_nat n + 2 ^ 32 < 2 ^ 64 ->
  exists t' w', run_ticks leaves n regs t w = Ret (t', w ++ w') /\ rate_ok t' /\
    current_timestamp t' = current_timestamp t + 10 * Z.of_nat n /\
    (forall i x, live t !! i = Some x ->
       let k := fires n (ti_period x) (current_timestamp t - ti_last_triggered x) in
       count (call_of x) w' <= k /\ (first_to_leave leaves t i -> count (call_of x) w' = k)).
Proof.
  induction n as [|n IH]; intros regs t w Hr Hov.
  - exists t, []. cbn. rewrite app_nil_r. split; [done|]. split; [done|]. split; [lia|]. done.
  - destruct (irq_handler_record leaves regs t w (ro_ok t Hr)) as (t1 & E1 & Hok1 & Hnow & Hl1); [apply (ro_rec t Hr)|].
    pose proof (ro_now t Hr) as Hz. rewrite u64_small in * by lia.
    assert (rate_ok t1) as Hr1 by (eapply tick_rate_ok; [exact Hr|done| |exact Hnow|done]; lia).
    set (c1 := called leaves w (filter (fun x => due (current_timestamp t + 10) x) (live t))) in *.
    destruct (IH regs t1 (w ++ c1) Hr1) as (t2 & w2 & E2 & Hr2 & Hnow2 & Hc2); [lia|].
    exists t2, (c1 ++ w2). cbn [run_ticks]. rewrite E1. cbn [mbind outcome_bind]. rewrite E2, <- app_assoc.
    split; [done|]. split; [done|]. split; [lia|]. intros i x Hi. cbv zeta.
    set (k := fires (S n) _ _). rewrite !count_app.
    destruct (count_called leaves (current_timestamp t + 10) (live t) i x w (ro_distinct t Hr) Hi) as [Hle1 Heq1].
    fold c1 in Hle1, Heq1.
    assert (live t1 !! i = Some (tick_entry (current_timestamp t + 10) x)) as Hi1.
    { rewrite Hl1, list_lookup_fmap, Hi. done. }
    destruct (Hc2 i _ Hi1) as [Hle2 Heq2]. rewrite tick_entry_call in Hle2, Heq2.
    assert (k = (if due (current_timestamp t + 10) x then 1 else 0) +
      fires n (ti_period (tick_entry (current_timestamp t + 10) x))
        (current_timestamp t1 - ti_last_triggered (tick_entry (current_timestamp t + 10) x))) as ->.
    { assert (x ∈ live t) as Hin by (by eapply list_elem_of_lookup_2).
      pose proof (ro_period t Hr x Hin). pose proof (ro_last t Hr x Hin). unfold k. cbn [fires].
      unfold tick_entry, due. rewrite u64_small by lia.
      destruct (ti_period x <=? _) eqn:E; breflect.
      + rewrite (proj2 (Z.leb_le _ _)) by lia. cbn [set_last ti_period ti_last_triggered]. by rewrite Hnow, Z.sub_diag.
      + rewrite (proj2 (Z.leb_gt _ _)) by lia. rewrite Hnow, Z.add_0_l. f_equal. lia. }
    split; [lia|]. intros Hno. rewrite Heq1 by exact Hno. rewrite Heq2; [done|].
    intros j y Hj Hy h. rewrite Hl1, list_lookup_fmap in Hy. destruct (live t !! j) as [z|] eqn:Ez; [|done].
    injection Hy as <-. assert (ti_callback (tick_entry (current_timestamp t + 10) z) = ti_callback z) as ->
      by (unfold tick_entry; by destruct (due _ z)). by apply (Hno j z).
Qed.

(** C36: The rate of the timers, on a table of recurring timers with distinct callbacks that
    return or leave for another task ([leaves]) and do not change the table. The clock advances
    by 10 ms per tick. A timer of period [p] last called [e] ms ago falls due first at tick
    max(1, ceil((p - e) / 10)) and then every max(1, ceil(p / 10)) ticks, whatever other timers
    there are. It is called at each of these ticks if no timer before it in the table leaves
    (the scheduler's 50 ms timer, the kernel's only one: every 5 ticks, although it leaves
    itself), and never more often. When in a tick a callback leaves, the due timers behind it
    are marked as called and are not called. *)
Theorem timer_rate_spec (leaves : Z -> list (Z * Z) -> bool) (n : nat) (regs : isr_regs) (t : timer) :
  rate_ok t -> current_timestamp t + 10 * Z.of_nat n + 2 ^ 32 < 2 ^ 64 ->
  (exists t' w, run_ticks leaves n regs t [] = Ret (t', w) /\ rate_ok t' /\
     current_timestamp t' = current_timestamp t + 10 * Z.of_nat n /\
     (forall i x, live t !! i = Some x ->
        let k := calls (Z.of_nat n) (ti_period x) (current_timestamp t - ti_last_triggered x) in
        count (call_of x) w <= k /\ (first_to_leave leaves t i -> count (call_of x) w = k))) /\
  (forall w before x after,
     filter (fun y => due (u64 (current_timestamp t + 10)) y) (live t) = before ++ x :: after ->
     some_leaves leaves w before = false -> leaves (ti_callback x) (w ++ map call_of before) = true ->
     exists t', irq_handler (record_callback leaves) regs t w =
       Ret (Left, t', w ++ map call_of before ++ [call_of x]) /\
       live t' = map (tick_entry (u64 (current_timestamp t + 10))) (live t)).
Proof.
  intros Hr Hov. split.
  - destruct (run_ticks_ok leaves n regs t [] Hr Hov) as (t' & w & E & Hr' & Hn & Hc).
    exists t', w. split; [done|]. split; [done|]. split; [done|]. intros i x Hi k.
    destruct (Hc i x Hi) as [Hle Heq]. unfold k. rewrite <- fires_calls; [done|].
    apply (ro_period t Hr). by eapply list_elem_of_lookup_2.
  - intros w before x after Hd Hs Hx.
    destruct (irq_handler_record leaves regs t w (ro_ok t Hr)) as (t1 & E1 & _ & _ & Hl1); [apply (ro_rec t Hr)|].
    exists t1. split; [|done]. rewrite E1, Hd, called_app by done. cbn [called]. rewrite Hx.
    assert (some_leaves leaves w (before ++ x :: after) = true) as ->; [|done].
    clear -Hs Hx. revert w Hs Hx. induction before as [|y l IH]; cbn; intros w Hs Hx.
    + rewrite app_nil_r in Hx. by rewrite Hx.
    + apply orb_false_iff in Hs as [-> Hs]. rewrite IH; [done|done|]. by rewrite <- app_assoc.
Qed.

(** A table with the scheduler's timer. *)
Definition sample_timer : timer :=
  mkT 0 0 (mkTimer 0 11 0 50 true 0 :: replicate 9 zero_timer) 1 1 2.

(** The scheduler's callback leaves at every call. *)
Lemma timer_rate_spec_witness : exists t' w,
  run_ticks (fun _ _ => true) 12 (mkRegs 0 0 0 0 0 0 0 0 0 0 0 0 0 0 0 0) sample_timer [] = Ret (t', w) /\
  count (11, 0) w = 2.
Proof.
  destruct (timer_rate_spec (fun _ _ => true) 12 (mkRegs 0 0 0 0 0 0 0 0 0 0 0 0 0 0 0 0) sample_timer)
    as [(t' & w & E & _ & _ & Hc) _].
  - split; cbn.
    + split; cbn; unfold MAX_TIMERS; lia.
    + lia.
    + intros x [->|H]%elem_of_cons; [done|inversion H].
    + intros x [->|H]%elem_of_cons; [cbn; lia|inversion H].
    + intros x [->|H]%elem_of_cons; [cbn; lia|inversion H].
    + repeat constructor. intros H; inversion H.
  - cbn. lia.
  - exists t', w. split; [exact E|]. apply (Hc 0%nat _ eq_refl). intros j y Hj. lia.
Defined.
