(* ===== verification/Ipc.v ===== *)
(** [kernel/ipc.c] and [common/port.c]: ports, messages and the system calls on them.
    A message is the structure of [common/port.h] with its [len] data bytes: the field [len] is
    the number of them, as it is for every message a stub or the kernel builds, so a message whose
    [len] disagrees with its data is outside the model of the system calls; [checksum_at] is the
    checksum with [len] and the bytes behind the header kept apart. A queued message is a kernel
    copy at an address, allocated and freed through the environment; its bytes are the record,
    not heap memory. A handler that blocks inside [task_block] ends
    with a [pending] point, at which [resume] continues when the task runs again. System
    calls run with interrupts disabled, so the critical sections of the file do not change
    the flags. *)
From S2P Require Import Prelude Util Mem Locks Sched SchedSpec.

(** ** Messages *)
Record message : Type := mkMsg {
  m_checksum : Z;
  m_sender : Z;
  m_reply_port : Z;
  m_code : Z;
  m_data : list Z
}.
Definition m_len (m : message) : Z := Z.of_nat (length (m_data m)).
Definition sizeof_message : Z := 28.

#[export] Instance message_eq_dec : EqDecision message.
Proof. solve_decision. Defined.

(** [bytes] are those behind the header, of which [len] are summed. *)
Definition checksum_at (sender reply_port code len : Z) (bytes : list Z) : Z :=
  let checksum := hash2 (le_encode 4 sender) 0 in
  let checksum := hash2 (le_encode 4 reply_port) checksum in
  let checksum := hash2 (le_encode 4 code) checksum in
  let checksum := hash2 (le_encode 4 len) checksum in
  hash2 (take (Z.to_nat len) bytes) checksum.
Definition message_checksum (m : message) : Z :=
  checksum_at (m_sender m) (m_reply_port m) (m_code m) (m_len m) (m_data m).

Definition set_sender (m : message) (pid : Z) : message :=
  mkMsg (m_checksum m) pid (m_reply_port m) (m_code m) (m_data m).
Definition set_checksum (m : message) (c : Z) : message :=
  mkMsg c (m_sender m) (m_reply_port m) (m_code m) (m_data m).

(** ** Ports *)
Record port : Type := mkPort {
  p_number : Z;
  p_receiver : Z;
  p_queue : list (Z * message);
  p_lock : Z
}.
Definition sizeof_port : Z := 28.

(** What the file uses of the kernel heap. *)
Class IpcEnv (E : Type) : Type := {
  kmalloc_buf : E -> Z -> outcome (Z * E);
  kfree_buf : E -> Z -> outcome E;
  heap_check : E -> outcome unit
}.
(** Buffers are not task structures. *)
Class IpcEnvLaws (E : Type) `{TaskEnv E, IpcEnv E} : Prop := {
  kmalloc_buf_keeps e n p e' : kmalloc_buf e n = Ret (p, e') -> forall q, owned e' q <-> owned e q;
  kfree_buf_keeps e p e' : kfree_buf e p = Ret e' -> forall q, owned e' q <-> owned e q
}.

Record ipc (E : Type) : Type := mkIpc {
  i_sched : sched E;
  port_list : list port;
  port_list_lock : Z;
  reserved_ports : Z;
  next_port_value : Z
}.
Arguments mkIpc {E}.
Arguments i_sched {E}.
Arguments port_list {E}.
Arguments port_list_lock {E}.
Arguments reserved_ports {E}.
Arguments next_port_value {E}.

(** Where a blocked handler continues. *)
Inductive pending : Type :=
| SendPort (number : Z) (msg : message)
| SendDone
| RecvEmpty (pi : nat) (number buffer_size : Z) (outsize : bool)
| WaitEmpty (pi : nat) (number : Z).

(** How a handler ends: its return value, for a receive also what it stored through
    [outsize] and in the buffer, or the point it blocked at. *)
Inductive ipc_end : Type :=
| Done (value : Z)
| Received (value : Z) (outsize : option Z) (copied : option message)
| Blocked (p : pending).

Section ops.
Context {E : Type} `{TaskEnv E, IpcEnv E}.

Definition with_sched (s : ipc E) (sc : sched E) : ipc E :=
  mkIpc sc (port_list s) (port_list_lock s) (reserved_ports s) (next_port_value s).
Definition with_ports (s : ipc E) (ps : list port) : ipc E :=
  mkIpc (i_sched s) ps (port_list_lock s) (reserved_ports s) (next_port_value s).
Definition with_port_lock (s : ipc E) (l : Z) : ipc E :=
  mkIpc (i_sched s) (port_list s) l (reserved_ports s) (next_port_value s).
Definition with_heap (s : ipc E) (e : E) : ipc E := with_sched s (with_env (i_sched s) e).
Definition heap_of (s : ipc E) : E := s_env (i_sched s).

Fixpoint find_port (ps : list port) (i : nat) (number : Z) : option nat :=
  match ps with
  | [] => None
  | p :: ps => if p_number p =? number then Some i else find_port ps (S i) number
  end.

(** A port is named by its position in [port_list]: ports are only ever appended. *)
Definition port_get (s : ipc E) (number : Z) : outcome (option nat * ipc E) :=
  if 0 <=? number then
    l ← checked_lock (port_list_lock s);
    let r := find_port (port_list s) 0 number in
    l ← checked_unlock l;
    Ret (r, with_port_lock s l)
  else Ret (None, s).

Definition port_at (s : ipc E) (pi : nat) : outcome port := of_option FMem (port_list s !! pi).
Definition set_port (s : ipc E) (pi : nat) (p : port) : ipc E := with_ports s (<[pi := p]> (port_list s)).

Definition syscall_portopen_handler (s : ipc E) (port_number : Z) : outcome (Z * ipc E) :=
  l ← checked_lock (port_list_lock s);
  let '(number, s) :=
    if port_number =? INVALID_PORT then
      (next_port_value s,
       mkIpc (i_sched s) (port_list s) l (reserved_ports s) (s32 (next_port_value s + 1)))
    else if BITTEST32 (reserved_ports s) port_number then (INVALID_PORT, with_port_lock s l)
    else (port_number,
          mkIpc (i_sched s) (port_list s) l (BITSET32 (reserved_ports s) port_number) (next_port_value s)) in
  l ← checked_unlock (port_list_lock s);
  let s := with_port_lock s l in
  if negb (number =? INVALID_PORT) then
    '(_, e) ← kmalloc_buf (heap_of s) sizeof_port;
    let s := with_heap s e in
    pid ← current_task_pid (i_sched s);
    l ← checked_lock (port_list_lock s);
    let s := with_ports s (port_list s ++ [mkPort number pid [] SPINLOCK_INIT]) in
    l ← checked_unlock l;
    Ret (number, with_port_lock s l)
  else Ret (number, s).

(** [task_block], ending the handler for now. *)
Definition block_at (s : ipc E) (canrecv cansend now : Z) (regs : isr_regs) (p : pending)
    : outcome (ipc_end * ipc E) :=
  '(sc, _) ← task_block (i_sched s) canrecv cansend SLEEP_INFINITE now regs;
  Ret (Blocked p, with_sched s sc).

(** [syscall_msgsend_handler] from the moment the port was found. *)
Definition msgsend_deliver (s : ipc E) (pi : nat) (msg : message) (now : Z) (regs : isr_regs)
    : outcome (ipc_end * ipc E) :=
  let checksum := message_checksum msg in
  let bufsize := u32 (sizeof_message + m_len msg) in
  _ ← heap_check (heap_of s);
  '(addr, e) ← kmalloc_buf (heap_of s) (u32 (bufsize + 64));
  let s := with_heap s e in
  _ ← heap_check e;
  let msg_copy := msg in
  _ ← c_assert (m_checksum msg_copy =? checksum);
  pid ← current_task_pid (i_sched s);
  let msg_copy := set_sender msg_copy pid in
  let msg_copy := set_checksum msg_copy (message_checksum msg_copy) in
  p ← port_at s pi;
  l ← checked_lock (p_lock p);
  let q := p_queue p ++ [(addr, msg_copy)] in
  l ← checked_unlock l;
  let s := set_port s pi (mkPort (p_number p) (p_receiver p) q l) in
  _ ← heap_check (heap_of s);
  sc ← task_wake (i_sched s) (p_receiver p);
  block_at (with_sched s sc) INVALID_PORT INVALID_PORT now regs SendDone.

(** The loop that waits for the port to be open. *)
Definition msgsend_wait (s : ipc E) (number : Z) (msg : message) (now : Z) (regs : isr_regs)
    : outcome (ipc_end * ipc E) :=
  '(r, s) ← port_get s number;
  match r with
  | None => block_at s INVALID_PORT number now regs (SendPort number msg)
  | Some pi => msgsend_deliver s pi msg now regs
  end.

Definition syscall_msgsend_handler (s : ipc E) (number : Z) (msg : message) (now : Z) (regs : isr_regs)
    : outcome (ipc_end * ipc E) :=
  _ ← irqs_off (i_sched s);
  _ ← c_assert (message_checksum msg =? m_checksum msg);
  msgsend_wait s number msg now regs.

(** [syscall_msgrecv_handler] from the moment the queue is not empty. *)
Definition msgrecv_take (s : ipc E) (pi : nat) (p : port) (addr : Z) (msg : message) (rest : list (Z * message))
    (buffer_size : Z) (outsize : bool) : outcome (ipc_end * ipc E) :=
  l ← checked_lock (p_lock p);
  let s := set_port s pi (mkPort (p_number p) (p_receiver p) (p_queue p) l) in
  if negb (message_checksum msg =? m_checksum msg) then Fault FPanic
  else
    let need := u32 (sizeof_message + m_len msg) in
    let out := if outsize then Some need else None in
    if need <=? buffer_size then
      let s := set_port s pi (mkPort (p_number p) (p_receiver p) rest l) in
      sc ← task_wake (i_sched s) (m_sender msg);
      let s := with_sched s sc in
      e ← kfree_buf (heap_of s) addr;
      let s := with_heap s e in
      l ← checked_unlock l;
      Ret (Received 0 out (Some msg), set_port s pi (mkPort (p_number p) (p_receiver p) rest l))
    else
      l ← checked_unlock l;
      Ret (Received 3 out None, set_port s pi (mkPort (p_number p) (p_receiver p) (p_queue p) l)).

(** The emptiness test under the port's lock. *)
Definition queue_empty (p : port) : outcome (bool * Z) :=
  l ← checked_lock (p_lock p);
  l ← checked_unlock l;
  Ret (bool_decide (p_queue p = []), l).

Definition msgrecv_loop (s : ipc E) (pi : nat) (number buffer_size : Z) (outsize : bool) (now : Z)
    (regs : isr_regs) : outcome (ipc_end * ipc E) :=
  p ← port_at s pi;
  '(_, l) ← queue_empty p;
  let s := set_port s pi (mkPort (p_number p) (p_receiver p) (p_queue p) l) in
  match p_queue p with
  | [] =>
      sc ← wake_tasks_waiting_for_port (i_sched s) number;
      block_at (with_sched s sc) number INVALID_PORT now regs (RecvEmpty pi number buffer_size outsize)
  | (addr, msg) :: rest =>
      msgrecv_take s pi (mkPort (p_number p) (p_receiver p) (p_queue p) l) addr msg rest buffer_size outsize
  end.

Definition syscall_msgrecv_handler (s : ipc E) (number buffer_size : Z) (outsize : bool) (now : Z)
    (regs : isr_regs) : outcome (ipc_end * ipc E) :=
  _ ← irqs_off (i_sched s);
  '(r, s) ← port_get s number;
  match r with
  | None => Ret (Received 1 None None, s)
  | Some pi =>
      p ← port_at s pi;
      pid ← current_task_pid (i_sched s);
      if negb (pid =? p_receiver p) then Ret (Received 2 None None, s)
      else msgrecv_loop s pi number buffer_size outsize now regs
  end.

Definition msgwait_loop (s : ipc E) (pi : nat) (number now : Z) (regs : isr_regs)
    : outcome (ipc_end * ipc E) :=
  p ← port_at s pi;
  '(empty, l) ← queue_empty p;
  let s := set_port s pi (mkPort (p_number p) (p_receiver p) (p_queue p) l) in
  if (empty : bool) then block_at s number INVALID_PORT now regs (WaitEmpty pi number)
  else Ret (Done 0, s).

Definition syscall_msgwait_handler (s : ipc E) (number now : Z) (regs : isr_regs)
    : outcome (ipc_end * ipc E) :=
  _ ← irqs_off (i_sched s);
  '(r, s) ← port_get s number;
  match r with
  | None => Ret (Done (u32 (-1)), s)
  | Some pi =>
      p ← port_at s pi;
      pid ← current_task_pid (i_sched s);
      if negb (pid =? p_receiver p) then Ret (Done (u32 (-1)), s) else msgwait_loop s pi number now regs
  end.

Definition syscall_msgpeek_handler (s : ipc E) (number : Z) : outcome (Z * ipc E) :=
  '(r, s) ← port_get s number;
  match r with
  | None => Ret (0, s)
  | Some pi =>
      p ← port_at s pi;
      l ← checked_lock (p_lock p);
      pid ← current_task_pid (i_sched s);
      let result := if (pid =? p_receiver p) && negb (bool_decide (p_queue p = [])) then 1 else 0 in
      l ← checked_unlock l;
      Ret (result, set_port s pi (mkPort (p_number p) (p_receiver p) (p_queue p) l))
  end.

(** The task that blocked at [p] runs again. *)
Definition resume (s : ipc E) (p : pending) (now : Z) (regs : isr_regs) : outcome (ipc_end * ipc E) :=
  match p with
  | SendPort number msg => msgsend_wait s number msg now regs
  | SendDone => Ret (Done 0, s)
  | RecvEmpty pi number buffer_size outsize =>
      _ ← irqs_off (i_sched s);
      _ ← heap_check (heap_of s);
      msgrecv_loop s pi number buffer_size outsize now regs
  | WaitEmpty pi number => msgwait_loop s pi number now regs
  end.

(** [list_init] of the port list; the registrations are in the system call table. *)
Definition ipc_init (sc : sched E) : ipc E := mkIpc sc [] SPINLOCK_INIT 0 32.
End ops.

(** ** The library side ([common/port.c]) *)
Definition msgsend_prepare (m : message) : message :=
  let m := set_sender m 0 in
  set_checksum m (message_checksum m).

(** The buffer after the system call returned: zeroed, then filled by a successful receive. *)
Definition zero_message : message := mkMsg 0 0 0 0 [].
Definition msgrecv_check (value : Z) (copied : option message) : outcome (Z * message) :=
  let buffer := default zero_message copied in
  _ ← c_assert (m_checksum buffer =? message_checksum buffer);
  Ret (s32 value, buffer).
