(* ===== verification/IpcSpec.v ===== *)
(** The invariant of the port table and its preservation ([kernel/ipc.c]). *)
From S2P Require Import Prelude Util Mem Locks Sched SchedSpec Ipc.

(** ** Checksums *)
Definition msg_ok (m : message) : Prop := message_checksum m = m_checksum m.

Lemma set_checksum_sum m c : message_checksum (set_checksum m c) = message_checksum m.
Proof. done. Qed.

Lemma msg_ok_set m : msg_ok (set_checksum m (message_checksum m)).
Proof. done. Qed.

Lemma prepared_ok m : msg_ok (msgsend_prepare m).
Proof. apply msg_ok_set. Qed.

(** The bytes the checksum covers. *)
Definition summed (m : message) : list Z :=
  le_encode 4 (m_sender m) ++ le_encode 4 (m_reply_port m) ++ le_encode 4 (m_code m) ++
  le_encode 4 (m_len m) ++ m_data m.

Lemma message_checksum_eq m : message_checksum m = hash2 (summed m) 0.
Proof.
  unfold message_checksum, checksum_at, summed, m_len. rewrite Nat2Z.id, take_ge by done. by rewrite !hash2_app.
Qed.

Section spec.
Context {E : Type} `{TaskEnv E, !TaskEnvLaws E, IpcEnv E, !IpcEnvLaws E}.
Implicit Types s : ipc E.

(** ** Scheduler operations seen from the handlers *)
Lemma task_block_switched (sc : sched E) a b t now regs sc' e :
  task_block sc a b t now regs = Ret (sc', e) -> e = Switched.
Proof.
  unfold task_block, syscall_block_handler. intros Hk. do 4 (apply bind_ret_inv in Hk as (? & _ & Hk)).
  by injection Hk as _ <-.
Qed.

Lemma task_wake_keeps (sc : sched E) pid sc' : task_wake sc pid = Ret sc' ->
  current_task sc' = current_task sc /\ idle_task sc' = idle_task sc /\ tasks sc' = tasks sc /\
  s_env sc' = s_env sc.
Proof.
  unfold task_wake. intros Hw. invert_ret. case_decide.
  - by injection Hw as <-.
  - case_decide; [by injection Hw as <-|]. invert_ret. case_hyp Hw; [|done]. by injection Hw as <-.
Qed.

Lemma with_env_ok (sc : sched E) e : sched_ok sc -> (forall q, owned e q <-> owned (s_env sc) q) ->
  sched_ok (with_env sc e).
Proof. intros [Hb Ht] He. split; [by apply env_ok|done]. Qed.

Lemma wake_port_ok (sc : sched E) n sc' : wake_tasks_waiting_for_port sc n = Ret sc' -> sched_ok sc ->
  sched_ok sc' /\ current_task sc' = current_task sc /\ idle_task sc' = idle_task sc.
Proof.
  intros Hw Hok. unfold wake_tasks_waiting_for_port in Hw. invert_ret.
  destruct (sched_parts sc Hok) as (Hn & _). unfold queues in Hn.
  apply NoDup_app in Hn as (_ & _ & Hn). apply NoDup_app in Hn as (Hn & _).
  destruct (wake_waiting_ok n (sleeping_queue sc) sc Hok Hn) as [Ew Hok']; [done|].
  rewrite Ew in Hw. injection Hw as <-. done.
Qed.

(** ** The invariant *)
Record port_ok (p : port) : Prop := {
  po_lock : p_lock p = SPINLOCK_INIT;
  po_msgs : Forall (fun am => msg_ok am.2) (p_queue p)
}.

(** Outside the handlers every lock is free, every queued message carries its checksum,
    and the scheduler's invariant holds. *)
Record ipc_ok s : Prop := {
  io_sched : sched_ok (i_sched s);
  io_lock : port_list_lock s = SPINLOCK_INIT;
  io_ports : Forall port_ok (port_list s)
}.

Lemma lock_free : checked_lock SPINLOCK_INIT = Ret 1.
Proof. done. Qed.
Lemma unlock_held : checked_unlock 1 = Ret SPINLOCK_INIT.
Proof. done. Qed.

Lemma port_get_ok s n : ipc_ok s ->
  port_get s n = Ret (if 0 <=? n then find_port (port_list s) 0 n else None, s).
Proof.
  intros Hok. unfold port_get. destruct (0 <=? n); [|done].
  rewrite (io_lock s Hok), lock_free. cbn [mbind outcome_bind]. rewrite unlock_held. cbn.
  f_equal. f_equal. destruct s. cbn in *. by rewrite <- (io_lock _ Hok).
Qed.

Lemma find_port_lookup ps : forall i n pi, find_port ps i n = Some pi ->
  (i <= pi)%nat /\ exists p, ps !! (pi - i)%nat = Some p /\ p_number p = n /\
  (forall j q, (j < pi - i)%nat -> ps !! j = Some q -> p_number q <> n).
Proof.
  induction ps as [|p ps IH]; intros i n pi Hf; [done|]. cbn in Hf.
  destruct (p_number p =? n) eqn:En; breflect.
  - injection Hf as <-. split; [lia|]. exists p. rewrite Nat.sub_diag. split; [done|]. split; [done|].
    intros j q Hj. lia.
  - apply IH in Hf as (Hle & q & Hq & Hn & Hbefore). split; [lia|]. exists q.
    replace (pi - i)%nat with (S (pi - S i)) by lia. split; [done|]. split; [done|].
    intros [|j] r Hj Hr; cbn in Hr; [by injection Hr as <-|]. by apply (Hbefore j r); [lia|].
Qed.

Lemma set_port_ok s pi p : ipc_ok s -> port_ok p -> ipc_ok (set_port s pi p).
Proof. intros [Hs Hl Hp] Hpo. split; cbn; [done|done|]. by apply Forall_insert. Qed.

Lemma with_sched_ok s sc : ipc_ok s -> sched_ok sc -> ipc_ok (with_sched s sc).
Proof. by intros [Hs Hl Hp] Hsc. Qed.

Lemma port_at_ok s pi p : ipc_ok s -> port_at s pi = Ret p -> port_ok p.
Proof.
  intros Hok Hp. unfold port_at in Hp. invert_ret. pose proof (io_ports s Hok) as Hf.
  rewrite Forall_forall in Hf. apply Hf. by eapply list_elem_of_lookup_2.
Qed.

Lemma block_at_ok s a b now regs p e s' : ipc_ok s -> current_task (i_sched s) <> idle_task (i_sched s) ->
  block_at s a b now regs p = Ret (e, s') -> ipc_ok s' /\ e = Blocked p.
Proof.
  intros Hok Hci Hb. unfold block_at in Hb. apply bind_ret_inv in Hb as ([sc en] & Ht & Hb).
  injection Hb as <- <-. split; [|done]. apply with_sched_ok; [done|].
  pose proof (task_block_switched _ _ _ _ _ _ _ _ Ht) as ->. eapply block_ok; [exact Hci|exact Ht|apply Hok].
Qed.

Lemma portopen_ok s n v s' : ipc_ok s -> syscall_portopen_handler s n = Ret (v, s') -> ipc_ok s'.
Proof.
  intros Hok Ho. pose proof Hok as [Hs Hl Hp]. unfold syscall_portopen_handler in Ho.
  rewrite Hl, lock_free in Ho. cbn [mbind outcome_bind] in Ho.
  destruct (if n =? INVALID_PORT then _ else _) as [number s1] eqn:E1.
  assert (i_sched s1 = i_sched s /\ port_list s1 = port_list s /\ port_list_lock s1 = 1) as (Es & Ep & El).
  { destruct (n =? INVALID_PORT); [by injection E1 as _ <-|].
    destruct (BITTEST32 _ _); by injection E1 as _ <-. }
  rewrite El, unlock_held in Ho. cbn [mbind outcome_bind] in Ho.
  destruct (negb (number =? INVALID_PORT)); cycle 1.
  { injection Ho as _ <-. split; cbn; [by rewrite Es|done|by rewrite Ep]. }
  apply bind_ret_inv in Ho as ([a e] & Ek & Ho). apply bind_ret_inv in Ho as (pid & _ & Ho).
  cbn in Ho. injection Ho as _ <-. split; cbn; [|done|].
  - rewrite Es. apply with_env_ok; [done|]. intros q. rewrite (kmalloc_buf_keeps _ _ _ _ Ek).
    unfold heap_of. cbn. by rewrite Es.
  - rewrite Ep. apply Forall_app. split; [done|]. by repeat constructor.
Qed.

Lemma deliver_ok s pi m now regs e s' : ipc_ok s -> current_task (i_sched s) <> idle_task (i_sched s) ->
  msgsend_deliver s pi m now regs = Ret (e, s') -> ipc_ok s' /\ e = Blocked SendDone.
Proof.
  intros Hok Hci Hd. unfold msgsend_deliver in Hd.
  apply bind_ret_inv in Hd as (u & _ & Hd). apply bind_ret_inv in Hd as ([a e1] & Ek & Hd).
  assert (ipc_ok (with_heap s e1)) as Hok1.
  { apply with_sched_ok; [done|]. apply with_env_ok; [apply Hok|]. by eapply kmalloc_buf_keeps. }
  apply bind_ret_inv in Hd as (u' & _ & Hd). apply bind_ret_inv in Hd as (u2 & _ & Hd).
  apply bind_ret_inv in Hd as (pid & _ & Hd). apply bind_ret_inv in Hd as (p & Hp & Hd).
  pose proof (port_at_ok _ _ _ Hok1 Hp) as Hpo. rewrite (po_lock p Hpo), lock_free in Hd.
  cbn [mbind outcome_bind] in Hd. rewrite unlock_held in Hd. cbn [mbind outcome_bind] in Hd.
  apply bind_ret_inv in Hd as (u3 & _ & Hd). apply bind_ret_inv in Hd as (sc & Hw & Hd).
  destruct (task_wake_keeps _ _ _ Hw) as (Hc & Hi & _).
  eapply block_at_ok; [| |exact Hd].
  - apply with_sched_ok; [apply set_port_ok; [done|]|eapply task_wake_ok; [exact Hw|apply Hok1]].
    split; cbn; [done|]. apply Forall_app. split; [apply Hpo|]. repeat constructor.
  - cbn. rewrite Hc, Hi. done.
Qed.

Lemma send_wait_ok s n m now regs e s' : ipc_ok s -> current_task (i_sched s) <> idle_task (i_sched s) ->
  msgsend_wait s n m now regs = Ret (e, s') -> ipc_ok s'.
Proof.
  intros Hok Hci Hs. unfold msgsend_wait in Hs. rewrite port_get_ok in Hs by done. cbn [mbind outcome_bind] in Hs.
  destruct (if 0 <=? n then _ else _) as [pi|].
  - by eapply deliver_ok.
  - by eapply block_at_ok.
Qed.

Lemma take_ok s pi p a m rest size out e s' : ipc_ok s -> port_ok p -> p_queue p = (a, m) :: rest ->
  msgrecv_take s pi p a m rest size out = Ret (e, s') -> ipc_ok s'.
Proof.
  intros Hok Hp Hq Ht. pose proof (po_msgs p Hp) as Hm. rewrite Hq in Hm. apply Forall_cons in Hm as [Hm Hrest].
  unfold msgrecv_take in Ht. rewrite (po_lock p Hp), lock_free in Ht. cbn [mbind outcome_bind] in Ht.
  destruct (negb (_ =? m_checksum m)); [done|]. destruct (_ <=? size).
  - apply bind_ret_inv in Ht as (sc & Hw & Ht). apply bind_ret_inv in Ht as (e1 & Hk & Ht).
    rewrite unlock_held in Ht. cbn in Ht. injection Ht as _ <-.
    destruct (task_wake_keeps _ _ _ Hw) as (_ & _ & _ & He). cbn in Hw, Hk, He.
    split; cbn.
    + apply with_env_ok; [eapply task_wake_ok; [exact Hw|apply Hok]|]. by eapply kfree_buf_keeps.
    + apply Hok.
    + rewrite !list_insert_insert_eq. apply Forall_insert; [apply Hok|]. by split.
  - rewrite unlock_held in Ht. cbn in Ht. injection Ht as _ <-. split; cbn; [apply Hok|apply Hok|].
    rewrite !list_insert_insert_eq. apply Forall_insert; [apply Hok|]. by split; [|rewrite Hq; constructor].
Qed.

Lemma recv_loop_ok s pi n size out now regs e s' : ipc_ok s -> current_task (i_sched s) <> idle_task (i_sched s) ->
  msgrecv_loop s pi n size out now regs = Ret (e, s') -> ipc_ok s'.
Proof.
  intros Hok Hci Hr. unfold msgrecv_loop in Hr. apply bind_ret_inv in Hr as (p & Hp & Hr).
  pose proof (port_at_ok _ _ _ Hok Hp) as Hpo. unfold queue_empty in Hr.
  rewrite (po_lock p Hpo), lock_free in Hr. cbn [mbind outcome_bind] in Hr.
  rewrite unlock_held in Hr. cbn [mbind outcome_bind] in Hr.
  assert (port_ok (mkPort (p_number p) (p_receiver p) (p_queue p) SPINLOCK_INIT)) as Hpo' by (split; [done|apply Hpo]).
  destruct (p_queue p) as [|[a m] rest] eqn:Eq.
  - apply bind_ret_inv in Hr as (sc & Hw & Hr). destruct (wake_port_ok _ _ _ Hw) as (Hsc & Hc & Hi); [apply Hok|].
    eapply block_at_ok; [| |exact Hr].
    + apply with_sched_ok; [by apply set_port_ok|done].
    + cbn. by rewrite Hc, Hi.
  - eapply take_ok; [| | |exact Hr]; [by apply set_port_ok|done|done].
Qed.

Lemma wait_loop_ok s pi n now regs e s' : ipc_ok s -> current_task (i_sched s) <> idle_task (i_sched s) ->
  msgwait_loop s pi n now regs = Ret (e, s') -> ipc_ok s'.
Proof.
  intros Hok Hci Hr. unfold msgwait_loop in Hr. apply bind_ret_inv in Hr as (p & Hp & Hr).
  pose proof (port_at_ok _ _ _ Hok Hp) as Hpo. unfold queue_empty in Hr.
  rewrite (po_lock p Hpo), lock_free in Hr. cbn [mbind outcome_bind] in Hr.
  rewrite unlock_held in Hr. cbn [mbind outcome_bind] in Hr.
  assert (port_ok (mkPort (p_number p) (p_receiver p) (p_queue p) SPINLOCK_INIT)) as Hpo' by (split; [done|apply Hpo]).
  destruct (bool_decide _).
  - eapply block_at_ok; [| |exact Hr]; [by apply set_port_ok|done].
  - injection Hr as _ <-. by apply set_port_ok.
Qed.

(** ** Steps *)
Inductive istep : ipc E -> ipc E -> Prop :=
| istep_open s n v s' : syscall_portopen_handler s n = Ret (v, s') -> istep s s'
| istep_send s n m now regs e s' : current_task (i_sched s) <> idle_task (i_sched s) ->
    syscall_msgsend_handler s n m now regs = Ret (e, s') -> istep s s'
| istep_recv s n size out now regs e s' : current_task (i_sched s) <> idle_task (i_sched s) ->
    syscall_msgrecv_handler s n size out now regs = Ret (e, s') -> istep s s'
| istep_wait s n now regs e s' : current_task (i_sched s) <> idle_task (i_sched s) ->
    syscall_msgwait_handler s n now regs = Ret (e, s') -> istep s s'
| istep_peek s n v s' : syscall_msgpeek_handler s n = Ret (v, s') -> istep s s'
| istep_resume s p now regs e s' : current_task (i_sched s) <> idle_task (i_sched s) ->
    resume s p now regs = Ret (e, s') -> istep s s'
| istep_sched s sc : sstep (i_sched s) sc -> istep s (with_sched s sc).

Lemma istep_ok s s' : istep s s' -> ipc_ok s -> ipc_ok s'.
Proof.
  intros Hst Hok. destruct Hst as [s n v s' Ho|s n m now regs e s' Hci Hs|s n size out now regs e s' Hci Hr
    |s n now regs e s' Hci Hr|s n v s' Hp|s p now regs e s' Hci Hr|s sc Hs].
  - by eapply portopen_ok.
  - unfold syscall_msgsend_handler in Hs. apply bind_ret_inv in Hs as (u & _ & Hs).
    apply bind_ret_inv in Hs as (u' & _ & Hs). by eapply send_wait_ok.
  - unfold syscall_msgrecv_handler in Hr. apply bind_ret_inv in Hr as (u & _ & Hr).
    rewrite port_get_ok in Hr by done. cbn [mbind outcome_bind] in Hr.
    destruct (if 0 <=? n then _ else _) as [pi|]; [|by injection Hr as _ <-].
    apply bind_ret_inv in Hr as (p & _ & Hr). apply bind_ret_inv in Hr as (pid & _ & Hr).
    destruct (negb _); [by injection Hr as _ <-|]. by eapply recv_loop_ok.
  - unfold syscall_msgwait_handler in Hr. apply bind_ret_inv in Hr as (u & _ & Hr).
    rewrite port_get_ok in Hr by done. cbn [mbind outcome_bind] in Hr.
    destruct (if 0 <=? n then _ else _) as [pi|]; [|by injection Hr as _ <-].
    apply bind_ret_inv in Hr as (p & _ & Hr). apply bind_ret_inv in Hr as (pid & _ & Hr).
    destruct (negb _); [by injection Hr as _ <-|]. by eapply wait_loop_ok.
  - unfold syscall_msgpeek_handler in Hp. rewrite port_get_ok in Hp by done. cbn [mbind outcome_bind] in Hp.
    destruct (if 0 <=? n then _ else _) as [pi|]; [|by injection Hp as _ <-].
    apply bind_ret_inv in Hp as (p & Hat & Hp). pose proof (port_at_ok _ _ _ Hok Hat) as Hpo.
    rewrite (po_lock p Hpo), lock_free in Hp. cbn [mbind outcome_bind] in Hp.
    apply bind_ret_inv in Hp as (pid & _ & Hp). rewrite unlock_held in Hp. cbn in Hp. injection Hp as _ <-.
    apply set_port_ok; [done|]. split; [done|apply Hpo].
  - destruct p; cbn in Hr.
    + by eapply send_wait_ok.
    + by injection Hr as _ <-.
    + apply bind_ret_inv in Hr as (u & _ & Hr). apply bind_ret_inv in Hr as (u' & _ & Hr). by eapply recv_loop_ok.
    + by eapply wait_loop_ok.
  - apply with_sched_ok; [done|]. by eapply sstep_ok; [|apply Hok].
Qed.
End spec.

(** The message a receiver gets: the sender's, with the pid the kernel filled in. *)
Definition stamped (m : message) (pid : Z) : message :=
  let m := set_sender m pid in set_checksum m (message_checksum m).

Lemma stamped_prepare m pid : stamped (msgsend_prepare m) pid = stamped m pid.
Proof. unfold stamped, msgsend_prepare, message_checksum, set_sender, set_checksum, m_len. by cbn -[hash2 le_encode]. Qed.
