(* ===== verification/IpcClaims.v ===== *)
(** The properties of the message system calls ([kernel/ipc.c], [common/port.c]). *)
From S2P Require Import Prelude Util Mem Locks Sched SchedSpec SchedClaims Ipc IpcSpec.

(** ** A concrete environment: the heap hands out one buffer and never fails. *)
#[export] Instance toy_ipc_env : IpcEnv toy_env := {
  kmalloc_buf e n := Ret (0x9000, e);
  kfree_buf e p := Ret e;
  heap_check e := Ret tt
}.
#[export] Instance toy_ipc_env_laws : IpcEnvLaws toy_env.
Proof. split; cbn; intros; by simplify_eq. Qed.

(** ** Invariant *)

(** C15: In every state the kernel can reach from its start by scheduler steps, message
    system calls and blocked calls that continue, the scheduler's invariant holds, every
    lock of the port table is free (so no system call ever sees a held lock and panics),
    and every queued message carries its checksum (so the receiver's corruption panic is
    unreachable). *)
Theorem ipc_reachable_ok {E : Type} `{TaskEnv E, !TaskEnvLaws E, IpcEnv E, !IpcEnvLaws E}
    (e : E) (eflags kt it : Z) (kn inm : list Z) (sc : sched E) (r : ending) (s : ipc E) :
  interrupts_enabled eflags = false -> scheduler_start e eflags kt it kn inm = Ret (sc, r) ->
  rtc istep (ipc_init sc) s ->
  sched_ok (i_sched s) /\ checked_lock (port_list_lock s) = Ret 1 /\
  forall pi p, port_list s !! pi = Some p -> checked_lock (p_lock p) = Ret 1 /\
    forall a m, (a, m) ∈ p_queue p -> message_checksum m = m_checksum m.
Proof.
  intros Hi Hs Hst.
  assert (ipc_ok (ipc_init sc)) as Hinit.
  { split; [|done|constructor]. exact (start_ok e eflags kt it kn inm (sc, r) Hi Hs). }
  assert (ipc_ok s) as Hok.
  { clear Hs. induction Hst as [|s1 s2 s3 H12 _ IH]; [done|]. apply IH. by eapply istep_ok. }
  split; [apply Hok|]. split; [by rewrite (io_lock s Hok)|]. intros pi p Hp.
  pose proof (io_ports s Hok) as Hf. rewrite Forall_forall in Hf.
  destruct (Hf p) as [Hl Hm]; [by eapply list_elem_of_lookup_2|]. split; [by rewrite Hl|].
  intros a m Ham. rewrite Forall_forall in Hm. exact (Hm (a, m) Ham).
Qed.

(** ** Delivery *)
Section delivery.
Context {E : Type} `{TaskEnv E, !TaskEnvLaws E, IpcEnv E, !IpcEnvLaws E}.
Implicit Types s : ipc E.

Lemma current_pid (sc : sched E) tk : sched_ok sc -> tasks sc !! current_task sc = Some tk ->
  current_task_pid sc = Ret (t_pid tk).
Proof.
  intros [Hb _] Ht. unfold current_task_pid, irqs_off. rewrite (b_irq _ Hb). cbn [negb c_assert mbind outcome_bind].
  rewrite nz_true; [|intros Hz; by rewrite Hz, (b_zero _ Hb) in Ht]. unfold deref. by rewrite Ht.
Qed.

Lemma zero_checked v : msgrecv_check v None = Ret (s32 v, zero_message).
Proof. done. Qed.

Lemma checked m : msg_ok m -> msgrecv_check 0 (Some m) = Ret (0, m).
Proof. intros Hm. unfold msgrecv_check. cbn. by rewrite (proj2 (Z.eqb_eq _ _)). Qed.

(** A pid that no live task has. *)
Definition dead (sc : sched E) (pid : Z) : Prop :=
  forall t, t ∈ current_task sc :: idle_task sc :: ready_queue sc ++ sleeping_queue sc -> pid_of sc t <> pid.

Lemma task_wake_dead (sc : sched E) pid : sched_ok sc -> dead sc pid -> task_wake sc pid = Fault FAssert.
Proof.
  intros Hok Hd. destruct (sched_parts sc Hok) as (_ & _ & _ & [ck Hck] & [ik Hik] & Hq).
  unfold task_wake, irqs_off. rewrite (b_irq _ (proj1 Hok)). cbn [negb c_assert mbind outcome_bind].
  assert (forall q, q ⊆ queues sc -> q ⊆ ready_queue sc ++ sleeping_queue sc -> find_pid sc pid q = Ret 0) as Hf.
  { intros q Hsub Hsub'. destruct (find_pid_ok sc pid q) as (x & -> & [[-> _]|[Hx Hp]]); [|done|].
    - intros t Ht. by apply Hq, Hsub.
    - exfalso. apply (Hd x); [|done]. right. right. by apply Hsub'. }
  assert (task_get sc pid = Ret 0) as ->; [|done].
  unfold task_get, deref. rewrite Hik. cbn [of_option mbind outcome_bind].
  rewrite (proj2 (Z.eqb_neq _ _)); cycle 1.
  { intros ->. apply (Hd (idle_task sc)); [right; left|]. unfold pid_of. by rewrite Hik. }
  rewrite Hck. cbn [of_option mbind outcome_bind]. rewrite (proj2 (Z.eqb_neq _ _)); cycle 1.
  { intros ->. apply (Hd (current_task sc)); [left|]. unfold pid_of. by rewrite Hck. }
  rewrite (Hf (ready_queue sc)); cycle 1.
  { intros x Hx. apply elem_of_app. by left. } { intros x Hx. apply elem_of_app. by left. }
  cbn [mbind outcome_bind nz Z.eqb negb].
  apply Hf; intros x Hx; apply elem_of_app; right; [apply elem_of_app; by left|done].
Qed.
End delivery.

(** C17: Sending a message prepared by the library to an open port: if the call gets as far
    as blocking the sender, the port's queue has grown by exactly one message at its end,
    with the payload, code and reply port of the original, the pid of the sender and a
    matching checksum; no other port changes. If the task that opened the port has exited,
    the kernel aborts, because a port outlives its receiver and waking it asserts that it
    exists. To a port that nobody has opened the sender blocks without queueing anything. *)
Theorem msgsend_spec {E : Type} `{TaskEnv E, !TaskEnvLaws E, IpcEnv E, !IpcEnvLaws E}
    (s : ipc E) (number : Z) (m : message) (now : Z) (regs : isr_regs) (tk : task) :
  ipc_ok s -> current_task (i_sched s) <> idle_task (i_sched s) ->
  tasks (i_sched s) !! current_task (i_sched s) = Some tk -> 0 <= number ->
  let send := syscall_msgsend_handler s number (msgsend_prepare m) now regs in
  match find_port (port_list s) 0 number with
  | Some pi => exists p, port_list s !! pi = Some p /\ p_number p = number /\
      (forall e s', send = Ret (e, s') -> e = Blocked SendDone /\ ipc_ok s' /\
         exists a, port_list s' = <[pi := mkPort number (p_receiver p)
           (p_queue p ++ [(a, stamped m (t_pid tk))]) SPINLOCK_INIT]> (port_list s)) /\
      (dead (i_sched s) (p_receiver p) ->
         (forall e, heap_check e = Ret tt) -> (forall n, exists a e, kmalloc_buf (heap_of s) n = Ret (a, e)) ->
         send = Fault FAssert)
  | None => forall e s', send = Ret (e, s') -> e = Blocked (SendPort number (msgsend_prepare m)) /\
      ipc_ok s' /\ port_list s' = port_list s
  end.
Proof.
  intros Hok Hci Htk Hn send.
  assert (send = msgsend_wait s number (msgsend_prepare m) now regs) as Hsend.
  { unfold send, syscall_msgsend_handler, irqs_off. rewrite (b_irq _ (proj1 (io_sched s Hok))).
    cbn [negb c_assert mbind outcome_bind]. assert ((message_checksum (msgsend_prepare m) =? m_checksum (msgsend_prepare m)) = true) as -> by apply Z.eqb_refl.
    done. }
  unfold msgsend_wait in Hsend. rewrite port_get_ok, (proj2 (Z.leb_le _ _)) in Hsend by done.
  cbn [mbind outcome_bind] in Hsend.
  destruct (find_port (port_list s) 0 number) as [pi|] eqn:Ef; cycle 1.
  { intros e s' Hs. rewrite Hsend in Hs. destruct (block_at_ok _ _ _ _ _ _ _ _ Hok Hci Hs) as [Hok' ->].
    split; [done|]. split; [done|]. unfold block_at in Hs. by apply bind_ret_inv in Hs as ([? ?] & _ & [= <-]). }
  apply find_port_lookup in Ef as (_ & p & Hp & Hnum & _). rewrite Nat.sub_0_r in Hp.
  exists p. split; [done|]. split; [done|].
  assert (port_ok p) as Hpo.
  { pose proof (io_ports s Hok) as Hf. rewrite Forall_forall in Hf. apply Hf. by eapply list_elem_of_lookup_2. }
  assert (forall e, current_task_pid (i_sched (with_heap s e)) = Ret (t_pid tk)) as Hpid.
  { intros e. unfold current_task_pid, irqs_off, deref. cbn.
    rewrite (b_irq _ (proj1 (io_sched s Hok))). cbn. rewrite nz_true, Htk; [done|].
    intros Hz. by rewrite Hz, (b_zero _ (proj1 (io_sched s Hok))) in Htk. }
  split.
  - intros e s' Hs. rewrite Hsend in Hs.
    destruct (deliver_ok _ _ _ _ _ _ _ Hok Hci Hs) as [Hok' ->]. split; [done|]. split; [done|].
    unfold msgsend_deliver in Hs. apply bind_ret_inv in Hs as (u & _ & Hs).
    apply bind_ret_inv in Hs as ([a e1] & _ & Hs). apply bind_ret_inv in Hs as (u1 & _ & Hs).
    apply bind_ret_inv in Hs as (u2 & _ & Hs). rewrite Hpid in Hs. cbn [mbind outcome_bind] in Hs.
    unfold port_at in Hs. cbn [with_heap with_sched port_list] in Hs. rewrite Hp in Hs.
    cbn [of_option mbind outcome_bind] in Hs. rewrite (po_lock p Hpo), lock_free in Hs.
    cbn [mbind outcome_bind] in Hs. rewrite unlock_held in Hs. cbn [mbind outcome_bind] in Hs.
    apply bind_ret_inv in Hs as (u3 & _ & Hs). apply bind_ret_inv in Hs as (sc & _ & Hs).
    unfold block_at in Hs. apply bind_ret_inv in Hs as ([sc' en] & _ & Hs). injection Hs as <-.
    exists a. cbn [with_sched set_port with_ports with_heap port_list]. rewrite Hnum, <- stamped_prepare. done.
  - intros Hd Hhc Hkm. rewrite Hsend. unfold msgsend_deliver. rewrite Hhc. cbn [mbind outcome_bind].
    destruct (Hkm (u32 (u32 (sizeof_message + m_len (msgsend_prepare m)) + 64))) as (a & e1 & Ek).
    rewrite Ek. cbn [mbind outcome_bind].
    rewrite Hhc. cbn [mbind outcome_bind]. assert ((m_checksum (msgsend_prepare m) =? message_checksum (msgsend_prepare m)) = true) as -> by apply Z.eqb_refl.
    cbn [c_assert mbind outcome_bind].
    rewrite Hpid. cbn [mbind outcome_bind]. unfold port_at. cbn [with_heap with_sched port_list]. rewrite Hp.
    cbn [of_option mbind outcome_bind]. rewrite (po_lock p Hpo), lock_free.
    cbn [mbind outcome_bind]. rewrite unlock_held. cbn [mbind outcome_bind]. rewrite Hhc. cbn [mbind outcome_bind].
    cbn [set_port with_ports with_heap with_sched i_sched]. rewrite task_wake_dead; [done| |exact Hd].
    apply with_env_ok; [apply Hok|]. by eapply kmalloc_buf_keeps.
Qed.

Definition toy_message : message := mkMsg 0 0 40 7 [1; 2; 3].


Lemma toy_portopen : exists s0 s1 v, toy_start = Ret (s0, Switched) /\
  syscall_portopen_handler (ipc_init s0) 3 = Ret (v, s1) /\ ipc_ok s1 /\
  current_task (i_sched s1) <> idle_task (i_sched s1) /\
  (exists tk, tasks (i_sched s1) !! current_task (i_sched s1) = Some tk) /\
  find_port (port_list s1) 0 3 = Some 0%nat /\ find_port (port_list s1) 0 4 = None.
Proof.
  destruct toy_start_ok as (s0 & E0 & Hok0 & Hci0 & _).
  assert (match toy_start with
          | Ret (s0, _) => match syscall_portopen_handler (ipc_init s0) 3 with
              | Ret (_, s) => (current_task (i_sched s) =? current_task s0) &&
                  (idle_task (i_sched s) =? idle_task s0) &&
                  bool_decide (find_port (port_list s) 0 3 = Some 0%nat) &&
                  bool_decide (find_port (port_list s) 0 4 = None)
              | _ => false end
          | _ => false end = true) as Hrun by (vm_compute; reflexivity).
  rewrite E0 in Hrun. destruct (syscall_portopen_handler (ipc_init s0) 3) as [[v s1]|] eqn:E1; [|discriminate Hrun].
  assert (ipc_ok s1) as Hok1.
  { eapply portopen_ok; [|exact E1]. split; [done|done|constructor]. }
  apply andb_true_iff in Hrun as [Hrun H4]. apply andb_true_iff in Hrun as [Hrun H3].
  apply andb_true_iff in Hrun as [Hc Hi]. apply bool_decide_eq_true in H3, H4. apply Z.eqb_eq in Hc, Hi.
  exists s0, s1, v. split; [done|]. split; [done|]. split; [done|]. split; [congruence|]. split; [|done].
  destruct (sched_parts _ (io_sched _ Hok1)) as (_ & _ & _ & [tk Ht] & _). by exists tk.
Qed.

Lemma msgsend_spec_witness : exists (s1 : ipc toy_env) p, port_list s1 !! 0%nat = Some p /\ p_number p = 3 /\
  ipc_ok s1 /\ current_task (i_sched s1) <> idle_task (i_sched s1).
Proof.
  destruct toy_portopen as (s0 & s1 & v & E0 & E1 & Hok & Hci & [tk Htk] & Hf & _).
  pose proof (msgsend_spec s1 3 toy_message 0 toy_regs tk Hok Hci Htk ltac:(lia)) as Hs. cbv zeta in Hs.
  rewrite Hf in Hs. destruct Hs as (p & Hp & Hn & _).
  exists s1, p. split; [exact Hp|]. split; [exact Hn|]. split; [exact Hok|exact Hci].
Defined.

(** C18: Receiving from a port whose queue starts with a message from a sleeping sender: with
    a buffer of at least 28 + len bytes the call copies exactly that message, removes it
    from the front of the queue, frees the kernel copy and moves the sender to the ready
    queue; with a smaller buffer it returns 3, reports the size needed, and changes nothing.
    A task that did not open the port gets 2 and an unknown port 1. In each case the
    library's check of the buffer it zeroed before the call succeeds. *)
Theorem msgrecv_spec {E : Type} `{TaskEnv E, !TaskEnvLaws E, IpcEnv E, !IpcEnvLaws E}
    (s : ipc E) (number size : Z) (out : bool) (now : Z) (regs : isr_regs) (tk : task) :
  ipc_ok s -> tasks (i_sched s) !! current_task (i_sched s) = Some tk -> 0 <= number ->
  let recv := syscall_msgrecv_handler s number size out now regs in
  match find_port (port_list s) 0 number with
  | None => recv = Ret (Received 1 None None, s)
  | Some pi => exists p, port_list s !! pi = Some p /\ p_number p = number /\
      (t_pid tk <> p_receiver p -> recv = Ret (Received 2 None None, s)) /\
      (forall a m rest t e, t_pid tk = p_receiver p -> p_queue p = (a, m) :: rest ->
         t ∈ sleeping_queue (i_sched s) -> pid_of (i_sched s) t = m_sender m ->
         kfree_buf (heap_of s) a = Ret e -> sizeof_message + m_len m < 2 ^ 32 ->
         let need := sizeof_message + m_len m in
         let outv := if out then Some need else None in
         if need <=? size then
           recv = Ret (Received 0 outv (Some m),
             with_ports (with_sched s (with_env (moved (i_sched s) t) e))
               (<[pi := mkPort number (p_receiver p) rest SPINLOCK_INIT]> (port_list s))) /\
           msgrecv_check 0 (Some m) = Ret (0, m)
         else recv = Ret (Received 3 outv None, s) /\ msgrecv_check 3 None = Ret (3, zero_message))
  end.
Proof.
  intros Hok Htk Hn recv.
  assert (recv = ('(r, s) ← Ret (find_port (port_list s) 0 number, s);
    match r with
    | None => Ret (Received 1 None None, s)
    | Some pi =>
        p ← port_at s pi;
        if negb (t_pid tk =? p_receiver p) then Ret (Received 2 None None, s)
        else msgrecv_loop s pi number size out now regs
    end)) as Hr.
  { unfold recv, syscall_msgrecv_handler, irqs_off. rewrite (b_irq _ (proj1 (io_sched s Hok))).
    cbn [negb c_assert mbind outcome_bind]. rewrite port_get_ok, (proj2 (Z.leb_le _ _)) by done.
    cbn [mbind outcome_bind]. destruct (find_port _ _ _) as [pi|]; [|done].
    destruct (port_at s pi) as [p|]; [|done]. cbn [mbind outcome_bind].
    rewrite (current_pid _ tk) by (done || apply Hok). done. }
  cbn [mbind outcome_bind] in Hr. destruct (find_port (port_list s) 0 number) as [pi|] eqn:Ef; [|done].
  apply find_port_lookup in Ef as (_ & p & Hp & Hnum & _). rewrite Nat.sub_0_r in Hp.
  unfold port_at in Hr. rewrite Hp in Hr. cbn [of_option mbind outcome_bind] in Hr.
  exists p. split; [done|]. split; [done|]. split.
  { intros Hne. by rewrite Hr, (proj2 (Z.eqb_neq _ _)). }
  intros a m rest t e Hrec Hq Ht Hsnd Hk Hlen need outv.
  rewrite (proj2 (Z.eqb_eq _ _)) in Hr by done. cbn [negb] in Hr.
  assert (port_ok p) as Hpo.
  { pose proof (io_ports s Hok) as Hf. rewrite Forall_forall in Hf. apply Hf. by eapply list_elem_of_lookup_2. }
  assert (msg_ok m) as Hm.
  { pose proof (po_msgs p Hpo) as Hf. rewrite Hq in Hf. by apply Forall_cons in Hf as [? _]. }
  assert (forall p', set_port s pi p' = with_ports s (<[pi := p']> (port_list s))) as Hsp by done.
  assert (mkPort (p_number p) (p_receiver p) (p_queue p) SPINLOCK_INIT = p) as Hpe.
  { destruct p as [n0 r0 q0 l0]. pose proof (po_lock _ Hpo) as Hl0. cbn in Hl0. by rewrite Hl0. }
  assert (set_port s pi p = s) as Hsid.
  { rewrite Hsp. unfold with_ports. rewrite list_insert_id by done. by destruct s. }
  unfold msgrecv_loop, port_at in Hr. rewrite Hp in Hr. cbn [of_option mbind outcome_bind] in Hr.
  unfold queue_empty in Hr. rewrite (po_lock p Hpo), lock_free in Hr. cbn [mbind outcome_bind] in Hr.
  rewrite unlock_held in Hr. cbn [mbind outcome_bind] in Hr. rewrite Hpe, Hsid, Hq in Hr.
  unfold msgrecv_take in Hr. rewrite (po_lock p Hpo), lock_free in Hr. cbn [mbind outcome_bind] in Hr.
  rewrite Hm, Z.eqb_refl in Hr. cbn [negb] in Hr.
  rewrite u32_small in Hr by (unfold m_len, sizeof_message in *; lia). fold need in Hr.
  destruct (need <=? size) eqn:Esz.
  - cbn [set_port with_ports i_sched] in Hr. rewrite <- Hsnd, task_wake_sleeping in Hr by (done || apply Hok).
    cbn [mbind outcome_bind] in Hr. unfold heap_of in Hr, Hk. cbn [with_sched i_sched moved with_queues s_env] in Hr.
    rewrite Hk in Hr. cbn [mbind outcome_bind] in Hr. rewrite unlock_held in Hr. cbn [mbind outcome_bind] in Hr.
    split; [|by apply checked]. rewrite Hr. unfold set_port, with_ports, with_heap, with_sched.
    cbn [port_list i_sched port_list_lock reserved_ports next_port_value].
    by rewrite !list_insert_insert_eq, Hnum.
  - rewrite unlock_held in Hr. cbn [mbind outcome_bind] in Hr. split; [|done].
    rewrite Hr. unfold set_port, with_ports. cbn [port_list i_sched port_list_lock reserved_ports next_port_value].
    rewrite list_insert_insert_eq. rewrite Hpe, list_insert_id by done. by destruct s.
Qed.

(** A scenario: the kernel task opens port 3, forks and blocks; the child sends it a
    message; the kernel task runs again. *)
Definition toy_fork : outcome (ipc toy_env) :=
  '(sc, _) ← toy_start;
  '(_, s) ← syscall_portopen_handler (ipc_init sc) 3;
  '(sc, _) ← syscall_fork_handler (i_sched s) toy_regs;
  Ret (with_sched s sc).
Definition toy_child (s : ipc toy_env) : outcome (ipc toy_env) :=
  '(sc, _) ← task_block (i_sched s) 3 (-1) SLEEP_INFINITE 0 toy_regs; Ret (with_sched s sc).
Definition toy_sent (s : ipc toy_env) : outcome (ipc_end * ipc toy_env) :=
  syscall_msgsend_handler s 3 (msgsend_prepare toy_message) 0 toy_regs.

Definition busy (s : ipc toy_env) : bool := negb (current_task (i_sched s) =? idle_task (i_sched s)).

(** What the receiver finds in the end. *)
Definition toy_ready (s : ipc toy_env) : bool :=
  match find_port (port_list s) 0 3, port_list s !! 0%nat, tasks (i_sched s) !! current_task (i_sched s),
        sleeping_queue (i_sched s) with
  | Some 0%nat, Some p, Some tk, t :: _ =>
      (t_pid tk =? p_receiver p) && bool_decide (p_queue p = [(0x9000, stamped toy_message 2)]) &&
      (pid_of (i_sched s) t =? 2)
  | _, _, _, _ => false
  end.

Definition toy_scenario : bool :=
  match toy_fork with
  | Ret s1 => busy s1 && match toy_child s1 with
      | Ret s2 => busy s2 && match toy_sent s2 with Ret (_, s3) => toy_ready s3 | _ => false end
      | _ => false end
  | _ => false end.

Lemma toy_scenario_ok : exists s : ipc toy_env, ipc_ok s /\ toy_ready s = true.
Proof.
  assert (toy_scenario = true) as Hrun by (vm_compute; reflexivity). unfold toy_scenario in Hrun.
  destruct toy_fork as [s1|] eqn:E1; [|discriminate Hrun]. apply andb_true_iff in Hrun as [Hb1 Hrun].
  destruct (toy_child s1) as [s2|] eqn:E2; [|discriminate Hrun]. apply andb_true_iff in Hrun as [Hb2 Hrun].
  destruct (toy_sent s2) as [[e s3]|] eqn:E3; [|discriminate Hrun].
  exists s3. split; [|exact Hrun].
  assert (ipc_ok s1) as Hok1.
  { unfold toy_fork in E1. destruct toy_start_ok as (s0 & E0 & Hok0 & _). rewrite E0 in E1.
    cbn [mbind outcome_bind] in E1. apply bind_ret_inv in E1 as ([v s0'] & Eo & E1).
    apply bind_ret_inv in E1 as ([sc r] & Ef & E1). injection E1 as <-.
    assert (ipc_ok s0') as Hok0' by (eapply portopen_ok; [|exact Eo]; split; [done|done|constructor]).
    apply with_sched_ok; [done|]. exact (proj1 (fork_ok _ _ _ Ef (io_sched _ Hok0'))). }
  assert (ipc_ok s2) as Hok2.
  { unfold toy_child in E2. apply bind_ret_inv in E2 as ([sc r] & Et & E2). injection E2 as <-.
    pose proof (task_block_switched _ _ _ _ _ _ _ _ Et) as ->. apply with_sched_ok; [done|].
    apply negb_true_iff, Z.eqb_neq in Hb1. eapply block_ok; [exact Hb1|exact Et|apply Hok1]. }
  apply negb_true_iff, Z.eqb_neq in Hb2. eapply istep_ok; [|exact Hok2]. eapply istep_send; [exact Hb2|exact E3].
Qed.

Lemma msgrecv_spec_witness : exists (s : ipc toy_env) s' m,
  syscall_msgrecv_handler s 3 64 true 0 toy_regs = Ret (Received 0 (Some 31) (Some m), s') /\
  m_data m = [1; 2; 3] /\ m_sender m = 2 /\ msgrecv_check 0 (Some m) = Ret (0, m).
Proof.
  destruct toy_scenario_ok as (s & Hok & Hr). unfold toy_ready in Hr.
  destruct (find_port (port_list s) 0 3) as [[|]|] eqn:Ef; try discriminate Hr.
  destruct (port_list s !! 0%nat) as [p|] eqn:Ep; [|discriminate Hr].
  destruct (tasks (i_sched s) !! _) as [tk|] eqn:Et; [|discriminate Hr].
  destruct (sleeping_queue (i_sched s)) as [|t q] eqn:Es; [discriminate Hr|].
  apply andb_true_iff in Hr as [Hr Hpid]. apply andb_true_iff in Hr as [Hrec Hq].
  apply bool_decide_eq_true in Hq. apply Z.eqb_eq in Hpid, Hrec.
  pose proof (msgrecv_spec s 3 64 true 0 toy_regs tk Hok Et ltac:(lia)) as H. cbv zeta in H. rewrite Ef in H.
  destruct H as (p' & Hp' & _ & _ & H). rewrite Ep in Hp'. injection Hp' as <-.
  specialize (H 0x9000 (stamped toy_message 2) [] t (heap_of s) Hrec Hq). 
  destruct H as [H1 H2].
  - rewrite Es. left.
  - exact Hpid.
  - reflexivity.
  - reflexivity.
  - exists s. eexists _, _. split; [exact H1|]. split; [reflexivity|]. split; [reflexivity|exact H2].
Defined.

Lemma ipc_reachable_ok_witness : exists sc (s : ipc toy_env) p, toy_start = Ret (sc, Switched) /\
  rtc istep (ipc_init sc) s /\ port_list s !! 0%nat = Some p /\ checked_lock (p_lock p) = Ret 1.
Proof.
  destruct toy_portopen as (s0 & s1 & v & E0 & E1 & Hok & Hci & Htk & Hf & _).
  assert (rtc istep (ipc_init s0) s1) as Hst by (eapply rtc_once, istep_open, E1).
  apply find_port_lookup in Hf as (_ & p & Hp & _). cbn in Hp.
  destruct (ipc_reachable_ok (∅ : toy_env) 0 0xC0101000 0xC0102000 [107] [105] s0 Switched s1) as (_ & _ & H).
  - reflexivity.
  - exact E0.
  - exact Hst.
  - exists s0, s1, p. split; [exact E0|]. split; [exact Hst|]. split; [exact Hp|]. exact (proj1 (H 0%nat p Hp)).
Defined.

(** ** Ports and checksums *)

(** Opening a port: with -1 the call returns the next dynamic number; with a number it
    fails exactly when the bit [number mod 32] is taken, although numbers of 32 and more
    are not rejected. So distinct requested numbers may collide, a requested number may
    alias a dynamic port, and then the port opened first receives the messages of both. *)
Theorem portopen_spec {E : Type} `{TaskEnv E, !TaskEnvLaws E, IpcEnv E, !IpcEnvLaws E}
    (s : ipc E) (number : Z) (tk : task) (a : Z) (e : E) :
  ipc_ok s -> tasks (i_sched s) !! current_task (i_sched s) = Some tk ->
  0 <= reserved_ports s < 2 ^ 32 -> next_port_value s <> -1 -> kmalloc_buf (heap_of s) sizeof_port = Ret (a, e) ->
  let opened n := exists s', syscall_portopen_handler s number = Ret (n, s') /\ ipc_ok s' /\
    port_list s' = port_list s ++ [mkPort n (t_pid tk) [] SPINLOCK_INIT] /\
    (forall k, find_port (port_list s') 0 k = match find_port (port_list s) 0 k with
       | Some pi => Some pi
       | None => if n =? k then Some (length (port_list s)) else None
       end) in
  (number = -1 -> opened (next_port_value s)) /\
  (number <> -1 -> Z.testbit (reserved_ports s) (number mod 32) = false -> opened number) /\
  (number <> -1 -> Z.testbit (reserved_ports s) (number mod 32) = true ->
     syscall_portopen_handler s number = Ret (-1, s)).
Proof.
  intros Hok Htk Hres Hnext Hk opened. pose proof Hok as [Hs Hl Hp].
  assert (BITTEST32 (reserved_ports s) number = Z.testbit (reserved_ports s) (number mod 32)) as Hbit.
  { unfold BITTEST32, int_bit. change 31 with (2 ^ 5 - 1). rewrite (land_ones_mod number 5) by lia. change (2 ^ 5) with 32.
    pose proof (Z.mod_pos_bound number 32 ltac:(lia)) as Hm.
    rewrite wrap_swrap, Z.shiftl_1_l by lia.
    rewrite u32_small by (split; [lia|apply (Z.pow_lt_mono_r 2 _ 32); lia]).
    apply land_pow2_test. lia. }
  assert (forall ps i n k, find_port (ps ++ [mkPort n (t_pid tk) [] SPINLOCK_INIT]) i k =
    match find_port ps i k with Some pi => Some pi | None => if n =? k then Some (i + length ps)%nat else None end) as Hfp.
  { induction ps as [|q ps IH]; intros i n k; cbn; [by rewrite Nat.add_0_r|].
    destruct (p_number q =? k); [done|]. rewrite IH. by rewrite Nat.add_succ_r. }
  assert (forall n res nx, n <> -1 ->
    syscall_portopen_handler s number = ('(_, e) ← kmalloc_buf (heap_of s) sizeof_port;
      let s := with_heap (mkIpc (i_sched s) (port_list s) SPINLOCK_INIT res nx) e in
      pid ← current_task_pid (i_sched s);
      Ret (n, with_ports s (port_list s ++ [mkPort n pid [] SPINLOCK_INIT]))) -> opened n) as Hopen.
  { intros n res nx Hn Eh. rewrite Hk in Eh. cbn [mbind outcome_bind] in Eh.
    rewrite (current_pid _ tk) in Eh; [|apply with_env_ok; [done|by eapply kmalloc_buf_keeps]|exact Htk].
    cbn [mbind outcome_bind] in Eh. eexists. split; [exact Eh|]. split; [by eapply portopen_ok|].
    split; [done|]. intros k. cbn. apply Hfp. }
  unfold syscall_portopen_handler in *. rewrite Hl, lock_free in *. cbn [mbind outcome_bind] in *.
  split; [|split].
  - intros ->. eapply (Hopen _ (reserved_ports s)); [done|]. cbn.
    by rewrite (proj2 (Z.eqb_neq _ _)).
  - intros Hne Hb. eapply (Hopen _ (BITSET32 (reserved_ports s) number)); [done|].
    unfold INVALID_PORT. rewrite (proj2 (Z.eqb_neq number (-1))), Hbit, Hb by done. cbn.
    rewrite (proj2 (Z.eqb_neq number (-1))) by done. done.
  - intros Hne Hb. unfold INVALID_PORT. rewrite (proj2 (Z.eqb_neq number (-1))), Hbit, Hb by done. cbn.
    destruct s. cbn in Hl |- *. by rewrite Hl.
Qed.

Lemma portopen_spec_witness : exists (s s' : ipc toy_env),
  syscall_portopen_handler s 33 = Ret (33, s') /\ reserved_ports s = 0.
Proof.
  destruct toy_start_ok as (s0 & E0 & Hok0 & _).
  destruct (sched_parts _ Hok0) as (_ & _ & _ & [tk Ht] & _).
  destruct (portopen_spec (ipc_init s0) 33 tk 0x9000 (s_env s0)) as (_ & H & _).
  - split; [exact Hok0|reflexivity|constructor].
  - exact Ht.
  - cbn. lia.
  - cbn. lia.
  - reflexivity.
  - destruct H as (s' & E & _); [lia|reflexivity|]. exists (ipc_init s0), s'. split; [exact E|reflexivity].
Defined.

(** The bytes of sender, reply port and code and the data: all the checksum covers but [len]. *)
Definition contents (m : message) : list Z :=
  (le_encode 4 (m_sender m) ++ le_encode 4 (m_reply_port m) ++ le_encode 4 (m_code m)) ++ m_data m.

Lemma differ_between (h h' l d d' a b : list Z) c c' : length h = length h' ->
  h ++ d = a ++ c :: b -> h' ++ d' = a ++ c' :: b ->
  exists a1 b1, h ++ l ++ d = a1 ++ c :: b1 /\ h' ++ l ++ d' = a1 ++ c' :: b1.
Proof.
  revert h' a. induction h as [|x h IH]; intros [|y h'] a L H1 H2; try discriminate L.
  - cbn [app] in *. subst. exists (l ++ a), b. by rewrite <- !app_assoc.
  - injection L as L. destruct a as [|z a]; cbn [app] in *.
    + injection H1 as -> H1. injection H2 as -> H2. rewrite <- H1 in H2. apply app_inj_1 in H2 as [-> ->]; [|done].
      by exists [], (h ++ l ++ d).
    + injection H1 as -> H1. injection H2 as -> H2. destruct (IH h' a L H1 H2) as (a1 & b1 & E1 & E2).
      exists (z :: a1), b1. by rewrite E1, E2.
Qed.

(** Two messages whose contents differ in one byte have as much data. *)
Lemma contents_summed m m' a b c c' : contents m = a ++ c :: b -> contents m' = a ++ c' :: b ->
  exists a1 b1, summed m = a1 ++ c :: b1 /\ summed m' = a1 ++ c' :: b1.
Proof.
  unfold contents. intros H1 H2. assert (m_len m = m_len m') as Hlen.
  { apply (f_equal length) in H1, H2. rewrite !length_app, !length_le_encode in H1, H2. cbn [length] in H1, H2. unfold m_len. lia. }
  set (h := le_encode 4 (m_sender m) ++ _) in H1. set (h' := le_encode 4 (m_sender m') ++ _) in H2.
  assert (length h = length h') as L by (unfold h, h'; by rewrite !length_app, !length_le_encode).
  destruct (differ_between h h' (le_encode 4 (m_len m)) (m_data m) (m_data m') a b c c' L H1 H2) as (a1 & b1 & E1 & E2).
  exists a1, b1. rewrite <- E1, <- E2. unfold summed, h, h'. by rewrite <- Hlen, <- !app_assoc.
Qed.

(** C33: The checksum detects every corruption of a single byte of sender, reply port, code or
    data: no message that differs in one such byte from a valid one, with the length unchanged, is
    accepted by the kernel, whatever the rest of the state. The field [len], which the sum also
    covers, is not protected: with these headers and bytes the sums for the lengths six and five
    agree, so a change of that one byte goes unnoticed. *)
Theorem checksum_detects {E : Type} `{TaskEnv E, IpcEnv E} (s : ipc E) (number now : Z) (regs : isr_regs)
    (m m' : message) (a b : list Z) (c c' : Z) :
  msg_ok m -> contents m = a ++ c :: b -> contents m' = a ++ c' :: b -> c <> c' ->
  Forall is_byte (m_data m) -> Forall is_byte (m_data m') -> m_checksum m' = m_checksum m ->
  interrupts_enabled (s_eflags (i_sched s)) = false ->
  syscall_msgsend_handler s number m' now regs = Fault FAssert /\
  checksum_at 0 40 7 6 [212; 93; 32; 0; 8; 39] = checksum_at 0 40 7 5 [212; 93; 32; 0; 8; 39].
Proof.
  intros Hm Ha Hb Hne Hd Hd' Hc Hi. split; [|vm_compute; reflexivity].
  destruct (contents_summed m m' a b c c' Ha Hb) as (a1 & b1 & Ha1 & Hb1). clear Ha Hb.
  unfold syscall_msgsend_handler, irqs_off. rewrite Hi. cbn [negb c_assert mbind outcome_bind].
  assert (forall x, Forall is_byte (m_data x) -> Forall is_byte (summed x)) as Hby.
  { intros x Hx. unfold summed. by repeat (apply Forall_app; split; [apply le_encode_bytes|]). }
  pose proof (Hby m Hd) as H1. pose proof (Hby m' Hd') as H2. rewrite Ha1 in H1. rewrite Hb1 in H2.
  apply Forall_app in H1 as [_ H1]. apply Forall_cons in H1 as [Hc1 H1].
  apply Forall_app in H2 as [_ H2]. apply Forall_cons in H2 as [Hc2 _].
  rewrite (proj2 (Z.eqb_neq _ _)); [done|]. rewrite Hc, <- Hm, !message_checksum_eq, Ha1, Hb1.
  intros Heq. symmetry in Heq. revert Heq. by apply hash2_one_byte.
Qed.

Lemma checksum_detects_witness : exists sc, toy_start = Ret (sc, Switched) /\
  syscall_msgsend_handler (ipc_init sc) 3
    (mkMsg (m_checksum (msgsend_prepare toy_message)) 0 40 7 [1; 2; 4]) 0 toy_regs = Fault FAssert /\
  checksum_at 0 40 7 6 [212; 93; 32; 0; 8; 39] = checksum_at 0 40 7 5 [212; 93; 32; 0; 8; 39].
Proof.
  destruct toy_start_ok as (sc & E0 & Hok & _). exists sc. split; [exact E0|].
  apply (checksum_detects (ipc_init sc) 3 0 toy_regs (msgsend_prepare toy_message)
    (mkMsg (m_checksum (msgsend_prepare toy_message)) 0 40 7 [1; 2; 4])
    (take 14 (contents (msgsend_prepare toy_message))) [] 3 4).
  - apply prepared_ok.
  - reflexivity.
  - reflexivity.
  - lia.
  - repeat constructor; unfold is_byte; lia.
  - repeat constructor; unfold is_byte; lia.
  - reflexivity.
  - exact (b_irq _ (proj1 Hok)).
Defined.
