(* ===== verification/Crc32.v ===== *)
(** [common/crc32.c], [common/crc32.h]: the table-driven CRC-32 and its equivalence with
    the bit-serial definition. [crc_t] is 32 bits wide on this machine. *)
From S2P Require Import Prelude Mem.

Definition crc_table : list Z :=
  [0x00000000; 0x77073096; 0xee0e612c; 0x990951ba;
   0x076dc419; 0x706af48f; 0xe963a535; 0x9e6495a3;
   0x0edb8832; 0x79dcb8a4; 0xe0d5e91e; 0x97d2d988;
   0x09b64c2b; 0x7eb17cbd; 0xe7b82d07; 0x90bf1d91;
   0x1db71064; 0x6ab020f2; 0xf3b97148; 0x84be41de;
   0x1adad47d; 0x6ddde4eb; 0xf4d4b551; 0x83d385c7;
   0x136c9856; 0x646ba8c0; 0xfd62f97a; 0x8a65c9ec;
   0x14015c4f; 0x63066cd9; 0xfa0f3d63; 0x8d080df5;
   0x3b6e20c8; 0x4c69105e; 0xd56041e4; 0xa2677172;
   0x3c03e4d1; 0x4b04d447; 0xd20d85fd; 0xa50ab56b;
   0x35b5a8fa; 0x42b2986c; 0xdbbbc9d6; 0xacbcf940;
   0x32d86ce3; 0x45df5c75; 0xdcd60dcf; 0xabd13d59;
   0x26d930ac; 0x51de003a; 0xc8d75180; 0xbfd06116;
   0x21b4f4b5; 0x56b3c423; 0xcfba9599; 0xb8bda50f;
   0x2802b89e; 0x5f058808; 0xc60cd9b2; 0xb10be924;
   0x2f6f7c87; 0x58684c11; 0xc1611dab; 0xb6662d3d;
   0x76dc4190; 0x01db7106; 0x98d220bc; 0xefd5102a;
   0x71b18589; 0x06b6b51f; 0x9fbfe4a5; 0xe8b8d433;
   0x7807c9a2; 0x0f00f934; 0x9609a88e; 0xe10e9818;
   0x7f6a0dbb; 0x086d3d2d; 0x91646c97; 0xe6635c01;
   0x6b6b51f4; 0x1c6c6162; 0x856530d8; 0xf262004e;
   0x6c0695ed; 0x1b01a57b; 0x8208f4c1; 0xf50fc457;
   0x65b0d9c6; 0x12b7e950; 0x8bbeb8ea; 0xfcb9887c;
   0x62dd1ddf; 0x15da2d49; 0x8cd37cf3; 0xfbd44c65;
   0x4db26158; 0x3ab551ce; 0xa3bc0074; 0xd4bb30e2;
   0x4adfa541; 0x3dd895d7; 0xa4d1c46d; 0xd3d6f4fb;
   0x4369e96a; 0x346ed9fc; 0xad678846; 0xda60b8d0;
   0x44042d73; 0x33031de5; 0xaa0a4c5f; 0xdd0d7cc9;
   0x5005713c; 0x270241aa; 0xbe0b1010; 0xc90c2086;
   0x5768b525; 0x206f85b3; 0xb966d409; 0xce61e49f;
   0x5edef90e; 0x29d9c998; 0xb0d09822; 0xc7d7a8b4;
   0x59b33d17; 0x2eb40d81; 0xb7bd5c3b; 0xc0ba6cad;
   0xedb88320; 0x9abfb3b6; 0x03b6e20c; 0x74b1d29a;
   0xead54739; 0x9dd277af; 0x04db2615; 0x73dc1683;
   0xe3630b12; 0x94643b84; 0x0d6d6a3e; 0x7a6a5aa8;
   0xe40ecf0b; 0x9309ff9d; 0x0a00ae27; 0x7d079eb1;
   0xf00f9344; 0x8708a3d2; 0x1e01f268; 0x6906c2fe;
   0xf762575d; 0x806567cb; 0x196c3671; 0x6e6b06e7;
   0xfed41b76; 0x89d32be0; 0x10da7a5a; 0x67dd4acc;
   0xf9b9df6f; 0x8ebeeff9; 0x17b7be43; 0x60b08ed5;
   0xd6d6a3e8; 0xa1d1937e; 0x38d8c2c4; 0x4fdff252;
   0xd1bb67f1; 0xa6bc5767; 0x3fb506dd; 0x48b2364b;
   0xd80d2bda; 0xaf0a1b4c; 0x36034af6; 0x41047a60;
   0xdf60efc3; 0xa867df55; 0x316e8eef; 0x4669be79;
   0xcb61b38c; 0xbc66831a; 0x256fd2a0; 0x5268e236;
   0xcc0c7795; 0xbb0b4703; 0x220216b9; 0x5505262f;
   0xc5ba3bbe; 0xb2bd0b28; 0x2bb45a92; 0x5cb36a04;
   0xc2d7ffa7; 0xb5d0cf31; 0x2cd99e8b; 0x5bdeae1d;
   0x9b64c2b0; 0xec63f226; 0x756aa39c; 0x026d930a;
   0x9c0906a9; 0xeb0e363f; 0x72076785; 0x05005713;
   0x95bf4a82; 0xe2b87a14; 0x7bb12bae; 0x0cb61b38;
   0x92d28e9b; 0xe5d5be0d; 0x7cdcefb7; 0x0bdbdf21;
   0x86d3d2d4; 0xf1d4e242; 0x68ddb3f8; 0x1fda836e;
   0x81be16cd; 0xf6b9265b; 0x6fb077e1; 0x18b74777;
   0x88085ae6; 0xff0f6a70; 0x66063bca; 0x11010b5c;
   0x8f659eff; 0xf862ae69; 0x616bffd3; 0x166ccf45;
   0xa00ae278; 0xd70dd2ee; 0x4e048354; 0x3903b3c2;
   0xa7672661; 0xd06016f7; 0x4969474d; 0x3e6e77db;
   0xaed16a4a; 0xd9d65adc; 0x40df0b66; 0x37d83bf0;
   0xa9bcae53; 0xdebb9ec5; 0x47b2cf7f; 0x30b5ffe9;
   0xbdbdf21c; 0xcabac28a; 0x53b39330; 0x24b4a3a6;
   0xbad03605; 0xcdd70693; 0x54de5729; 0x23d967bf;
   0xb3667a2e; 0xc4614ab8; 0x5d681b02; 0x2a6f2b94;
   0xb40bbe37; 0xc30c8ea1; 0x5a05df1b; 0x2d02ef8d].

(** [for(i = 1; i < data_len; i++) { data >>= 1; ret = (ret << 1) | (data & 1); }] *)
Fixpoint reflect_loop (n : nat) (data ret : Z) : Z :=
  match n with
  | O => ret
  | S n => let data := Z.shiftr data 1 in
           reflect_loop n data (u32 (Z.lor (Z.shiftl ret 1) (Z.land data 1)))
  end.
Definition crc_reflect (data data_len : Z) : Z :=
  reflect_loop (Z.to_nat (data_len - 1)) data (Z.land data 1).

Definition crc_init : Z := 0xffffffff.
Definition crc_finalize (crc : Z) : Z := Z.lxor crc 0xffffffff.

Definition crc_byte (crc d : Z) : outcome Z :=
  let tbl_idx := Z.land (Z.lxor crc d) 0xff in
  t ← of_option FMem (crc_table !! Z.to_nat tbl_idx);
  Ret (Z.land (Z.lxor t (Z.shiftr crc 8)) 0xffffffff).

Fixpoint crc_update (crc : Z) (data : list Z) : outcome Z :=
  match data with
  | [] => Ret (Z.land crc 0xffffffff)
  | d :: data => crc ← crc_byte crc d; crc_update crc data
  end.

(** ** The bit-serial definition

    The register is shifted right, and the reflected polynomial 0xEDB88320 (0x04C11DB7
    with its bits reversed) is added when a one falls out. *)
Definition POLY : Z := 0xEDB88320.
Definition crc_bit (x : Z) : Z := Z.lxor (Z.shiftr x 1) (if Z.testbit x 0 then POLY else 0).
Definition crc_shift8 (x : Z) : Z := Nat.iter 8 crc_bit x.
Definition crc_serial (crc : Z) (data : list Z) : Z :=
  fold_left (fun crc d => crc_shift8 (Z.lxor crc d)) data crc.

Lemma crc_table_ok : forallb (fun i => bool_decide (crc_table !! i = Some (crc_shift8 (Z.of_nat i)))) (seq 0 256) = true.
Proof. vm_compute. reflexivity. Qed.

Lemma crc_table_lookup i : 0 <= i < 256 -> crc_table !! Z.to_nat i = Some (crc_shift8 i).
Proof.
  intros Hi. pose proof crc_table_ok as H. rewrite forallb_forall in H.
  specialize (H (Z.to_nat i)). rewrite bool_decide_eq_true in H. rewrite H; [by rewrite Z2Nat.id by lia|].
  apply in_seq. lia.
Qed.

Lemma crc_bit_lxor x y : crc_bit (Z.lxor x y) = Z.lxor (crc_bit x) (crc_bit y).
Proof.
  unfold crc_bit. rewrite Z.shiftr_lxor, Z.lxor_spec. apply Z.bits_inj'. intros n Hn. rewrite !Z.lxor_spec.
  destruct (Z.testbit x 0), (Z.testbit y 0); cbn [xorb]; rewrite ?Z.bits_0;
    by destruct (Z.testbit (Z.shiftr x 1) n), (Z.testbit (Z.shiftr y 1) n), (Z.testbit POLY n).
Qed.

Lemma crc_iter_lxor k : forall x y, Nat.iter k crc_bit (Z.lxor x y) = Z.lxor (Nat.iter k crc_bit x) (Nat.iter k crc_bit y).
Proof. induction k as [|k IH]; intros x y; [done|]. by rewrite !Nat.iter_succ, IH, crc_bit_lxor. Qed.

Lemma crc_iter_shifted (k j : nat) : forall z, (k <= j)%nat ->
  Nat.iter k crc_bit (Z.shiftl z (Z.of_nat j)) = Z.shiftl z (Z.of_nat (j - k)).
Proof.
  induction k as [|k IH]; intros z Hk; [by rewrite Nat.sub_0_r|]. rewrite Nat.iter_succ, IH by lia. unfold crc_bit.
  rewrite Z.shiftl_spec_low, Z.lxor_0_r by lia. rewrite Z.shiftr_shiftl_l by lia. f_equal. lia.
Qed.

(** A byte falls out of the register at a time. *)
Lemma crc_shift8_split x : crc_shift8 x = Z.lxor (crc_shift8 (Z.land x 0xff)) (Z.shiftr x 8).
Proof.
  assert (x = Z.lxor (Z.land x 0xff) (Z.shiftl (Z.shiftr x 8) 8)) as Hx.
  { apply Z.bits_inj'. intros n Hn. rewrite Z.lxor_spec, Z.land_spec. change 0xff with (Z.ones 8).
    destruct (Z.lt_ge_cases n 8).
    - rewrite Z.ones_spec_low, Z.shiftl_spec_low, andb_true_r by lia. by rewrite xorb_false_r.
    - rewrite Z.ones_spec_high, Z.shiftl_spec, Z.shiftr_spec, andb_false_r by lia.
      rewrite xorb_false_l. f_equal. lia. }
  unfold crc_shift8. rewrite Hx at 1. rewrite crc_iter_lxor. f_equal.
  change 8 with (Z.of_nat 8) at 2. rewrite (crc_iter_shifted 8 8 (Z.shiftr x 8)) by lia. apply Z.shiftl_0_r.
Qed.

Lemma crc_bit_range x : 0 <= x < 2 ^ 32 -> 0 <= crc_bit x < 2 ^ 32.
Proof.
  intros Hx. unfold crc_bit. apply lxor_range; [lia| |destruct (Z.testbit x 0); unfold POLY; lia].
  rewrite Z.shiftr_div_pow2 by lia. split; [apply Z.div_pos; lia|]. apply Z.div_lt_upper_bound; lia.
Qed.

Lemma crc_shift8_range x : 0 <= x < 2 ^ 32 -> 0 <= crc_shift8 x < 2 ^ 32.
Proof. intros Hx. unfold crc_shift8. do 8 apply crc_bit_range. done. Qed.

Lemma crc_byte_ok crc d : 0 <= crc < 2 ^ 32 -> is_byte d -> crc_byte crc d = Ret (crc_shift8 (Z.lxor crc d)).
Proof.
  intros Hc Hd. unfold is_byte in Hd. unfold crc_byte.
  assert (0 <= Z.lxor crc d < 2 ^ 32) as Hx by (apply lxor_range; lia).
  rewrite crc_table_lookup; cycle 1.
  { rewrite Z.land_comm. apply (land_range 8); lia. }
  cbn [of_option mbind outcome_bind]. rewrite (crc_shift8_split (Z.lxor crc d)).
  assert (Z.shiftr (Z.lxor crc d) 8 = Z.shiftr crc 8) as ->.
  { rewrite Z.shiftr_lxor. rewrite (Z.shiftr_div_pow2 d), Z.div_small by lia. apply Z.lxor_0_r. }
  f_equal. change 0xffffffff with (2 ^ 32 - 1). rewrite land_ones_mod by lia. apply Z.mod_small.
  apply lxor_range; [lia| |].
  - apply crc_shift8_range. pose proof (land_range 8 0xff (Z.lxor crc d)). rewrite Z.land_comm. lia.
  - rewrite Z.shiftr_div_pow2 by lia. split; [apply Z.div_pos; lia|]. apply Z.div_lt_upper_bound; lia.
Qed.

(** ** Reflection *)
Lemma reflect_loop_bits n : forall data ret k, 0 <= data -> 0 <= ret < 2 ^ k -> 0 <= k -> k + Z.of_nat n <= 32 ->
  0 <= reflect_loop n data ret < 2 ^ (k + Z.of_nat n) /\
  (forall i, 0 <= i < k + Z.of_nat n -> Z.testbit (reflect_loop n data ret) i =
     if i <? Z.of_nat n then Z.testbit data (Z.of_nat n - i) else Z.testbit ret (i - Z.of_nat n)).
Proof.
  induction n as [|n IH]; intros data ret k Hd Hr Hk Hle.
  - cbn [reflect_loop]. rewrite Z.add_0_r. split; [done|]. intros i Hi.
    rewrite (proj2 (Z.ltb_ge _ _)) by lia. f_equal. lia.
  - cbn [reflect_loop]. set (d1 := Z.shiftr data 1). set (r1 := Z.lor (Z.shiftl ret 1) (Z.land d1 1)).
    assert (0 <= d1) as Hd1 by (apply Z.shiftr_nonneg; lia).
    assert (0 <= Z.land d1 1 < 2 ^ 1) as Hb.
    { rewrite Z.land_comm. by apply (land_range 1). }
    assert (0 <= r1 < 2 ^ (k + 1)) as Hr1.
    { unfold r1. rewrite lor_shiftl_add by (lia || done). rewrite Z.pow_add_r by lia. lia. }
    rewrite u32_small; [|split; [lia|]; eapply Z.lt_le_trans; [apply Hr1|]; apply (Z.pow_le_mono_r 2 _ 32); lia].
    destruct (IH d1 r1 (k + 1)) as [Hrg Hbits]; [done|done|lia|lia|].
    replace (k + Z.of_nat (S n)) with (k + 1 + Z.of_nat n) by lia. split; [done|]. intros i Hi.
    rewrite Hbits by lia.
    destruct (i <? Z.of_nat n) eqn:E; breflect.
    + rewrite (proj2 (Z.ltb_lt _ _)) by lia. unfold d1. rewrite Z.shiftr_spec by lia. f_equal. lia.
    + unfold r1. rewrite Z.lor_spec, Z.land_spec. 
      destruct (i <? Z.of_nat (S n)) eqn:E'; breflect.
      * assert (i - Z.of_nat n = 0) as -> by lia. rewrite Z.shiftl_spec_low by lia.
        change (Z.testbit 1 0) with true. rewrite andb_true_r, orb_false_l. unfold d1. rewrite Z.shiftr_spec by lia. f_equal. lia.
      * rewrite Z.shiftl_spec, (testbit_range 1 1) by lia. rewrite andb_false_r, orb_false_r. f_equal. lia.
Qed.

(** Reflecting [w] bits: bit [i] of the result is bit [w - 1 - i] of the argument. *)
Lemma crc_reflect_bits data w : 0 <= data < 2 ^ w -> 1 <= w <= 32 ->
  0 <= crc_reflect data w < 2 ^ w /\
  forall i, 0 <= i < w -> Z.testbit (crc_reflect data w) i = Z.testbit data (w - 1 - i).
Proof.
  intros Hd Hw. unfold crc_reflect.
  destruct (reflect_loop_bits (Z.to_nat (w - 1)) data (Z.land data 1) 1) as [Hr Hb]; [lia| |lia|lia|].
  { rewrite Z.land_comm. by apply (land_range 1). }
  rewrite Z2Nat.id in Hr, Hb by lia. replace (1 + (w - 1)) with w in Hr by lia. split; [done|].
  intros i Hi. rewrite Hb by lia. destruct (i <? w - 1) eqn:E; breflect; [done|].
  assert (i = w - 1) as -> by lia. rewrite !Z.sub_diag, Z.land_spec. apply andb_true_r.
Qed.

Lemma crc_update_ok data crc : Forall is_byte data -> 0 <= crc < 2 ^ 32 ->
  crc_update crc data = Ret (crc_serial crc data) /\ 0 <= crc_serial crc data < 2 ^ 32.
Proof.
  intros Hd. revert crc. induction Hd as [|d data Hb Hd IH]; intros crc Hc; cbn [crc_update].
  - split; [|done]. f_equal. change 0xffffffff with (2 ^ 32 - 1). rewrite land_ones_mod by lia.
    by apply Z.mod_small.
  - rewrite crc_byte_ok by done. cbn [mbind outcome_bind].
    change (crc_serial crc (d :: data)) with (crc_serial (crc_shift8 (Z.lxor crc d)) data).
    apply IH, crc_shift8_range, lxor_range; [lia|done|]. unfold is_byte in Hb. lia.
Qed.

(** C38: The table-driven [crc_update] computes the bit-serial CRC-32 of the data for the
    reflected polynomial 0xEDB88320, byte by byte, starting from any register value; it can
    be resumed on a split buffer; and [crc_reflect] reverses the low bits of a word, so
    applying it twice gives the word back. *)
Theorem crc_spec (crc : Z) (data rest : list Z) (word w : Z) :
  0 <= crc < 2 ^ 32 -> Forall is_byte data -> Forall is_byte rest -> 0 <= word < 2 ^ w -> 1 <= w <= 32 ->
  crc_update crc data = Ret (crc_serial crc data) /\ 0 <= crc_serial crc data < 2 ^ 32 /\
  crc_update crc (data ++ rest) = (c ← crc_update crc data; crc_update c rest) /\
  crc_reflect (crc_reflect word w) w = word.
Proof.
  intros Hc Hd Hrest Hw Hwr.
  destruct (crc_update_ok data crc Hd Hc) as [Eu Hr]. split; [done|]. split; [done|]. split.
  - rewrite Eu. cbn [mbind outcome_bind]. rewrite (proj1 (crc_update_ok rest _ Hrest Hr)).
    rewrite (proj1 (crc_update_ok (data ++ rest) crc (proj2 (Forall_app _ _ _) (conj Hd Hrest)) Hc)).
    unfold crc_serial. by rewrite fold_left_app.
  - destruct (crc_reflect_bits word w Hw Hwr) as [H1 B1].
    destruct (crc_reflect_bits _ w H1 Hwr) as [H2 B2]. apply Z.bits_inj'. intros n Hn.
    destruct (Z.lt_ge_cases n w).
    + rewrite B2, B1 by lia. f_equal. lia.
    + by rewrite !(testbit_range _ w) by done.
Qed.

(** The check value of the algorithm: the CRC of the ASCII digits 1 to 9. *)
Lemma crc_spec_witness :
  crc_update crc_init [49; 50; 51; 52; 53; 54; 55; 56; 57] = Ret (crc_finalize 0xcbf43926) /\
  crc_reflect (crc_reflect 0x04C11DB7 32) 32 = 0x04C11DB7.
Proof.
  destruct (crc_spec crc_init [49; 50; 51; 52; 53; 54; 55; 56; 57] [] 0x04C11DB7 32) as (E & _ & _ & Hr).
  - unfold crc_init. lia.
  - repeat constructor; unfold is_byte; lia.
  - constructor.
  - lia.
  - lia.
  - split; [rewrite E; vm_compute; reflexivity|exact Hr].
Defined.
