(* ===== verification/HostIo.v ===== *)
(** The programs that run on the development host: the transport of [tools/rpctest/rpctest.c],
    which carries RPC messages over a socket, and [tools/crc32/main.c]. The operating
    system decides how many bytes one [read] or [write] moves and when it is interrupted. *)
From S2P Require Import Prelude Mem Crc32.

(** ** Sockets *)

(** What the next system call does: move up to [n + 1] bytes, be interrupted, or fail. *)
Inductive io : Type := Bytes (n : nat) | Intr | Fail.

Record sock : Type := mkSock { incoming : list Z; outgoing : list Z; schedule : list io }.

Inductive answer : Type := Moved (n : nat) | Interrupted | Error.

(** [read(2)]: zero bytes at the end of the stream. *)
Definition sys_read (s : sock) (size : nat) : outcome (answer * list Z * sock) :=
  match schedule s with
  | [] => Fault FFuel
  | Bytes n :: r =>
      let k := Nat.min (S n) (Nat.min size (length (incoming s))) in
      Ret (Moved k, take k (incoming s), mkSock (drop k (incoming s)) (outgoing s) r)
  | Intr :: r => Ret (Interrupted, [], mkSock (incoming s) (outgoing s) r)
  | Fail :: r => Ret (Error, [], mkSock (incoming s) (outgoing s) r)
  end.

Definition sys_write (s : sock) (buffer : list Z) : outcome (answer * sock) :=
  match schedule s with
  | [] => Fault FFuel
  | Bytes n :: r =>
      let k := Nat.min (S n) (length buffer) in
      Ret (Moved k, mkSock (incoming s) (outgoing s ++ take k buffer) r)
  | Intr :: r => Ret (Interrupted, mkSock (incoming s) (outgoing s) r)
  | Fail :: r => Ret (Error, mkSock (incoming s) (outgoing s) r)
  end.

(** ** [rpctest.c] *)

(** [read_all]: the result, the bytes stored. [fuel] bounds the system calls. *)
Fixpoint read_all (fuel : nat) (s : sock) (size : nat) (buffer : list Z) (ret : Z) : outcome (Z * list Z * sock) :=
  match size with
  | O => Ret (ret, buffer, s)
  | _ =>
      match fuel with
      | O => Fault FFuel
      | S fuel =>
          '(a, bs, s) ← sys_read s size;
          match a with
          | Error => Ret (-1, buffer, s)
          | Moved O => Ret (0, buffer, s)
          | Moved n => read_all fuel s (size - n) (buffer ++ bs) (ret + Z.of_nat n)
          | Interrupted => read_all fuel s size buffer ret
          end
      end
  end.

Fixpoint write_all (fuel : nat) (s : sock) (buffer : list Z) (ret : Z) : outcome (Z * sock) :=
  match buffer with
  | [] => Ret (ret, s)
  | _ =>
      match fuel with
      | O => Fault FFuel
      | S fuel =>
          '(a, s) ← sys_write s buffer;
          match a with
          | Error => Ret (-1, s)
          | Moved n => write_all fuel s (drop n buffer) (ret + Z.of_nat n)
          | Interrupted => write_all fuel s buffer ret
          end
      end
  end.

Definition SIGNATURE : Z := 0xB16B00B5.
Definition sizeof_message : nat := 12.

(** The hosted [struct message]: reply port, code, length, then the data. *)
Definition msg_len (bytes : list Z) : nat := Z.to_nat (le_decode (take 4 (drop 8 bytes))).

Definition host_msgsend (fuel : nat) (s : sock) (msg : list Z) : outcome (Z * sock) :=
  '(ret, s) ← write_all fuel s (le_encode 4 SIGNATURE) 0;
  if ret =? -1 then Ret (-1, s)
  else
    '(ret, s) ← write_all fuel s (take (sizeof_message + msg_len msg) msg) 0;
    Ret (if ret =? -1 then -1 else 0, s).

Definition host_msgrecv (fuel : nat) (s : sock) (buffer_size : nat) : outcome (Z * list Z * sock) :=
  if (buffer_size <? sizeof_message)%nat then Ret (-1, [], s)
  else
    '(ret, sig, s) ← read_all fuel s 4 [] 0;
    if (ret =? -1) || (ret =? 0) then Ret (-1, [], s)
    else
      _ ← c_assert (le_decode sig =? SIGNATURE);
      '(ret, hdr, s) ← read_all fuel s sizeof_message [] 0;
      if (ret =? -1) || (ret =? 0) then Ret (-1, hdr, s)
      else
        let len := msg_len hdr in
        if (len =? 0)%nat then Ret (0, hdr, s)
        else if (buffer_size - sizeof_message <? len)%nat then Ret (-1, hdr, s)
        else
          '(ret, data, s) ← read_all fuel s len [] 0;
          Ret (if (ret =? -1) || (ret =? 0) then -1 else 0, hdr ++ data, s).

(** ** [tools/crc32/main.c] *)

Definition CRC_CHUNK : nat := Z.to_nat 32768.

(** The loop over [fread] of 32768 bytes at a time: [err] says at which call, if any, the
    stream reports an error. The result is the exit code and the checksum printed. *)
Fixpoint crc_tool (fuel : nat) (input : list Z) (err : option nat) (crc : Z) : outcome (Z * option Z) :=
  match fuel with
  | O => Fault FFuel
  | S fuel =>
      let chunk := take CRC_CHUNK input in
      let rest := drop CRC_CHUNK input in
      let feof := (length chunk <? CRC_CHUNK)%nat in
      match err with
      | Some O => Ret (1, None)
      | _ =>
          crc ← crc_update crc chunk;
          if feof then Ret (0, Some (crc_finalize crc))
          else crc_tool fuel rest (option_map pred err) crc
      end
  end.

(** ** Progress *)

(** Calls of a schedule that move bytes; a schedule without failures. *)
Fixpoint moves (l : list io) : nat :=
  match l with [] => 0 | Bytes _ :: l => S (moves l) | _ :: l => moves l end.
Definition healthy (l : list io) : Prop := Fail ∉ l.

Lemma healthy_cons x l : healthy (x :: l) -> x <> Fail /\ healthy l.
Proof. unfold healthy. rewrite not_elem_of_cons. intros [? ?]. by split. Qed.

Lemma read_all_S fuel s size buffer ret : (0 < size)%nat -> read_all (S fuel) s size buffer ret =
  ('(a, bs, s) ← sys_read s size;
   match a with
   | Error => Ret (-1, buffer, s)
   | Moved O => Ret (0, buffer, s)
   | Moved n => read_all fuel s (size - n) (buffer ++ bs) (ret + Z.of_nat n)
   | Interrupted => read_all fuel s size buffer ret
   end).
Proof. destruct size; [lia|done]. Qed.

Lemma read_all_0 fuel s buffer ret : read_all fuel s 0 buffer ret = Ret (ret, buffer, s).
Proof. by destruct fuel. Qed.

Lemma read_all_ok fuel : forall s size buffer ret, healthy (schedule s) -> (size <= moves (schedule s))%nat ->
  (size <= length (incoming s))%nat -> (length (schedule s) <= fuel)%nat ->
  exists s', read_all fuel s size buffer ret = Ret (ret + Z.of_nat size, buffer ++ take size (incoming s), s') /\
    incoming s' = drop size (incoming s) /\ outgoing s' = outgoing s /\ healthy (schedule s') /\
    (moves (schedule s) <= moves (schedule s') + size)%nat /\ (length (schedule s') <= length (schedule s))%nat.
Proof.
  induction fuel as [|fuel IH]; intros s size buffer ret Hh Hm Hi Hf;
    (destruct (decide (size = 0)%nat) as [->|Hs];
     [exists s; rewrite read_all_0; cbn; rewrite app_nil_r, Z.add_0_r; repeat split; done || lia|]).
  { destruct (schedule s); cbn in *; lia. }
  rewrite read_all_S by lia. unfold sys_read. destruct (schedule s) as [|[n| |] r] eqn:Er; [cbn in Hm; lia| | |].
  - apply healthy_cons in Hh as [_ Hh]. cbn in Hm, Hf. cbn [mbind outcome_bind].
    set (k := Nat.min (S n) (Nat.min size (length (incoming s)))).
    assert (1 <= k <= size)%nat as Hk by lia. destruct k as [|k'] eqn:Ek; [lia|]. rewrite <- Ek in *. clear Ek k'.
    destruct (IH (mkSock (drop k (incoming s)) (outgoing s) r) (size - k)%nat (buffer ++ take k (incoming s))
                (ret + Z.of_nat k)) as (s' & -> & H1 & H2 & H3 & H4 & H5); cbn [incoming outgoing schedule] in *;
      [done|lia|rewrite length_drop; lia|lia|].
    exists s'. split.
    { replace (ret + Z.of_nat k + Z.of_nat (size - k)) with (ret + Z.of_nat size) by lia. do 3 f_equal.
      rewrite <- app_assoc. f_equal.
      rewrite <- (take_drop k (take size (incoming s))), take_take, skipn_firstn_comm. do 2 f_equal. lia. }
    split; [rewrite H1, drop_drop; f_equal; lia|]. split; [done|]. split; [done|]. cbn. lia.
  - apply healthy_cons in Hh as [_ Hh]. cbn in Hm, Hf. cbn [mbind outcome_bind].
    destruct (IH (mkSock (incoming s) (outgoing s) r) size buffer ret) as (s' & -> & H1 & H2 & H3 & H4 & H5);
      cbn [incoming outgoing schedule] in *; [done|lia|lia|lia|].
    exists s'. split; [done|]. split; [done|]. split; [done|]. split; [done|]. cbn. lia.
  - by apply healthy_cons in Hh as [? _].
Qed.

Lemma write_all_S fuel s b buffer ret : write_all (S fuel) s (b :: buffer) ret =
  ('(a, s) ← sys_write s (b :: buffer);
   match a with
   | Error => Ret (-1, s)
   | Moved n => write_all fuel s (drop n (b :: buffer)) (ret + Z.of_nat n)
   | Interrupted => write_all fuel s (b :: buffer) ret
   end).
Proof. done. Qed.

Lemma write_all_ok fuel : forall s buffer ret, healthy (schedule s) -> (length buffer <= moves (schedule s))%nat ->
  (length (schedule s) <= fuel)%nat ->
  exists s', write_all fuel s buffer ret = Ret (ret + Z.of_nat (length buffer), s') /\
    outgoing s' = outgoing s ++ buffer /\ incoming s' = incoming s /\ healthy (schedule s') /\
    (moves (schedule s) <= moves (schedule s') + length buffer)%nat /\ (length (schedule s') <= length (schedule s))%nat.
Proof.
  induction fuel as [|fuel IH]; intros s buffer ret Hh Hm Hf;
    (destruct buffer as [|b buffer]; [exists s; cbn; rewrite app_nil_r, Z.add_0_r; repeat split; done || lia|]).
  { destruct (schedule s); cbn in *; lia. }
  rewrite write_all_S. unfold sys_write. destruct (schedule s) as [|[n| |] r] eqn:Er; [cbn in Hm; lia| | |].
  - apply healthy_cons in Hh as [_ Hh]. cbn [moves length] in Hm, Hf. cbn [mbind outcome_bind].
    set (l := b :: buffer) in *. change (S (length buffer)) with (length l) in Hm. set (k := Nat.min (S n) (length l)).
    assert (1 <= k <= length l)%nat as Hk by (unfold k, l; cbn [length]; lia). clearbody l k.
    destruct (IH (mkSock (incoming s) (outgoing s ++ take k l) r) (drop k l) (ret + Z.of_nat k))
      as (s' & -> & H1 & H2 & H3 & H4 & H5); cbn [incoming outgoing schedule] in *; rewrite ?length_drop in *;
      [done|lia|lia|].
    exists s'. split; [do 2 f_equal; lia|]. split; [by rewrite H1, <- app_assoc, take_drop|].
    split; [done|]. split; [done|]. cbn [moves length]. lia.
  - apply healthy_cons in Hh as [_ Hh]. cbn in Hm, Hf. cbn [mbind outcome_bind].
    destruct (IH (mkSock (incoming s) (outgoing s) r) (b :: buffer) ret) as (s' & -> & H1 & H2 & H3 & H4 & H5);
      cbn [incoming outgoing schedule] in *; [done|cbn; lia|lia|].
    exists s'. split; [done|]. split; [done|]. split; [done|]. split; [done|]. cbn in *. lia.
  - by apply healthy_cons in Hh as [? _].
Qed.

Lemma host_msgrecv_ok fuel b msg rest buffer_size : length msg = (12 + msg_len msg)%nat ->
  healthy (schedule b) -> (4 + length msg <= moves (schedule b))%nat -> (length (schedule b) <= fuel)%nat ->
  (length msg <= buffer_size)%nat -> incoming b = le_encode 4 SIGNATURE ++ msg ++ rest ->
  exists b', host_msgrecv fuel b buffer_size = Ret (0, msg, b') /\ incoming b' = rest.
Proof.
  intros Hlen Hh Hm Hf Hbuf Hin. unfold host_msgrecv, sizeof_message. rewrite (proj2 (Nat.ltb_ge _ _)) by lia.
  destruct (read_all_ok fuel b 4 [] 0) as (b1 & -> & Hi1 & _ & Hh1 & Hm1 & Hl1);
    [done|lia|rewrite Hin, !length_app, length_le_encode; lia|done|].
  cbn [mbind outcome_bind]. change ((0 + Z.of_nat 4 =? -1) || (0 + Z.of_nat 4 =? 0)) with false. cbv iota.
  rewrite Hin, take_app_length' by (by rewrite length_le_encode). cbn [app].
  rewrite le_decode_encode_small by (unfold SIGNATURE; lia). cbn [Z.eqb c_assert mbind outcome_bind].
  rewrite Z.eqb_refl. cbn [c_assert mbind outcome_bind].
  rewrite Hin, drop_app_length' in Hi1 by (by rewrite length_le_encode).
  destruct (read_all_ok fuel b1 12 [] 0) as (b2 & -> & Hi2 & _ & Hh2 & Hm2 & Hl2);
    [done|lia|rewrite Hi1, length_app; lia|lia|].
  cbn [mbind outcome_bind]. change ((0 + Z.of_nat 12 =? -1) || (0 + Z.of_nat 12 =? 0)) with false. cbv iota.
  rewrite Hi1, take_app_le in * by lia. rewrite drop_app_le in Hi2 by lia. cbn [app].
  assert (msg_len (take 12 msg) = msg_len msg) as ->.
  { unfold msg_len. rewrite skipn_firstn_comm, take_take. done. }
  destruct (msg_len msg =? 0)%nat eqn:E0.
  { apply Nat.eqb_eq in E0. exists b2. rewrite take_ge by lia. split; [done|].
    by rewrite Hi2, drop_ge by lia. }
  apply Nat.eqb_neq in E0. rewrite (proj2 (Nat.ltb_ge _ _)) by lia.
  destruct (read_all_ok fuel b2 (msg_len msg) [] 0) as (b3 & -> & Hi3 & _);
    [done|lia|rewrite Hi2, length_app, length_drop; lia|lia|].
  cbn [mbind outcome_bind]. rewrite (proj2 (Z.eqb_neq _ (-1))), (proj2 (Z.eqb_neq _ 0)) by lia. cbn [orb app].
  exists b3. rewrite Hi2, take_app_length' by (rewrite length_drop; lia). rewrite take_drop. split; [done|].
  by rewrite Hi3, Hi2, drop_app_length' by (rewrite length_drop; lia).
Qed.

(** ** Properties *)

(** A message sent over the socket of the test arrives: however the two ends' system calls
    divide the stream and are interrupted, as long as none fails, [msgsend] answers 0 and
    [msgrecv] into a large enough buffer answers 0 and stores exactly the message, leaving
    the bytes that follow it in the stream. *)
Theorem host_message_roundtrip (fuel : nat) (a b : sock) (msg rest : list Z) (buffer_size : nat)
    (Hlen : length msg = (12 + msg_len msg)%nat)
    (Ha : healthy (schedule a)) (Hma : (4 + length msg <= moves (schedule a))%nat) (Hfa : (length (schedule a) <= fuel)%nat)
    (Hb : healthy (schedule b)) (Hmb : (4 + length msg <= moves (schedule b))%nat) (Hfb : (length (schedule b) <= fuel)%nat)
    (Hout : outgoing a = []) (Hbuf : (length msg <= buffer_size)%nat) :
  exists a', host_msgsend fuel a msg = Ret (0, a') /\
    (incoming b = outgoing a' ++ rest ->
     exists b', host_msgrecv fuel b buffer_size = Ret (0, msg, b') /\ incoming b' = rest).
Proof.
  unfold host_msgsend.
  destruct (write_all_ok fuel a (le_encode 4 SIGNATURE) 0) as (a1 & -> & Ho1 & _ & Hh1 & Hm1 & Hl1);
    [done|rewrite length_le_encode; lia|done|]. cbn [mbind outcome_bind].
  rewrite length_le_encode in *. change (0 + Z.of_nat 4 =? -1) with false. cbv iota.
  rewrite (take_ge msg) by (unfold sizeof_message; lia).
  destruct (write_all_ok fuel a1 msg 0) as (a2 & -> & Ho2 & _); [done|lia|lia|]. cbn [mbind outcome_bind].
  rewrite (proj2 (Z.eqb_neq _ (-1))) by lia. rewrite Ho1, Hout in Ho2. cbn [app] in Ho2.
  exists a2. split; [done|]. intros Hin. rewrite Ho2, <- app_assoc in Hin. by apply host_msgrecv_ok.
Qed.

(** The command line tool prints the CRC-32 of its whole input, also when the length is a
    multiple of the buffer size, and exits with 1 after a read error. *)
Theorem crc_tool_spec (input : list Z) (fuel : nat) (Hd : Forall is_byte input)
    (Hf : (length input / CRC_CHUNK < fuel)%nat) :
  crc_tool fuel input None crc_init = Ret (0, Some (crc_finalize (crc_serial crc_init input))) /\
  crc_tool fuel input (Some 0%nat) crc_init = Ret (1, None).
Proof.
  split; [|destruct fuel; [lia|done]]. assert (0 <= crc_init < 2 ^ 32) as Hc by (unfold crc_init; lia).
  revert Hc. generalize crc_init. assert (0 < CRC_CHUNK)%nat as Hpos by (unfold CRC_CHUNK; lia).
  revert input Hd Hf. induction fuel as [|fuel IH]; intros input Hd Hf crc Hc; [lia|]. cbn [crc_tool].
  assert (Forall is_byte (take CRC_CHUNK input)) as Ht by (by apply Forall_take).
  destruct (crc_update_ok _ crc Ht Hc) as [-> Hr]. cbn [mbind outcome_bind option_map].
  rewrite length_take. destruct (Nat.min CRC_CHUNK (length input) <? CRC_CHUNK)%nat eqn:E.
  - apply Nat.ltb_lt in E. by rewrite take_ge by lia.
  - apply Nat.ltb_ge in E. rewrite IH; [|by apply Forall_drop| |done].
    + unfold crc_serial. by rewrite <- fold_left_app, take_drop.
    + rewrite length_drop. replace (length input) with (length input - CRC_CHUNK + 1 * CRC_CHUNK)%nat in Hf by lia.
      rewrite Nat.div_add in Hf by lia. lia.
Qed.
