(* ===== verification/Serializer.v ===== *)
(** [common/serializer.c]: writing the arguments of a remote call into a buffer and reading
    them back. The buffers are in byte memory. *)
From S2P Require Import Prelude Mem.

Record serializer : Type := mkSer { s_buffer : Z; s_size : Z; s_pos : Z; s_locked : Z }.
Record deserializer : Type := mkDes { d_buffer : Z; d_size : Z; d_pos : Z }.

Definition serializer_init (buffer buffer_size : Z) : serializer := mkSer buffer buffer_size 0 0.

(** Returns the address to write to and the room that is left. *)
Definition serialize_buffer (s : serializer) : outcome (Z * Z * serializer) :=
  _ ← c_assert (negb (nz (s_locked s)));
  let rem := u32 (s_size s - s_pos s) in
  _ ← c_assert (0 <? rem);
  Ret (s_buffer s + s_pos s, rem, mkSer (s_buffer s) (s_size s) (s_pos s) 1).

Definition serialize_buffer_finish (s : serializer) (size : Z) : outcome serializer :=
  _ ← c_assert (nz (s_locked s));
  _ ← c_assert (size <=? u32 (s_size s - s_pos s));
  Ret (mkSer (s_buffer s) (s_size s) (u32 (s_pos s + size)) 0).

(** The macro [SERIALIZE] for a type of [width] bytes. *)
Definition SERIALIZE (width : nat) (m : mem) (s : serializer) (val : Z) : outcome (mem * serializer) :=
  _ ← c_assert (negb (nz (s_locked s)));
  '(buf, max_size, s) ← serialize_buffer s;
  _ ← c_assert (nz buf && (Z.of_nat width <=? max_size));
  s ← serialize_buffer_finish s (Z.of_nat width);
  Ret (store_bytes m buf (le_encode width val), s).

Definition serialize_int := SERIALIZE 4.
Definition serialize_size_t := SERIALIZE 4.
Definition serialize_int64 := SERIALIZE 8.

Definition serializer_finish (s : serializer) : Z := s_pos s.

Definition deserializer_init (buffer buffer_size : Z) : deserializer := mkDes buffer buffer_size 0.

Definition deserialize_buffer (d : deserializer) (size : Z) : outcome (Z * deserializer) :=
  _ ← c_assert (size <=? u32 (d_size d - d_pos d));
  Ret (d_buffer d + d_pos d, mkDes (d_buffer d) (d_size d) (u32 (d_pos d + size))).

Definition deserialize_word (width : nat) (m : mem) (d : deserializer) : outcome (Z * deserializer) :=
  '(buf, d) ← deserialize_buffer d (Z.of_nat width);
  _ ← c_assert (nz buf);
  Ret (le_decode (load_bytes m buf width), d).

Definition deserialize_int (m : mem) (d : deserializer) : outcome (Z * deserializer) :=
  '(v, d) ← deserialize_word 4 m d; Ret (s32 v, d).
Definition deserialize_size_t (m : mem) (d : deserializer) : outcome (Z * deserializer) :=
  deserialize_word 4 m d.
Definition deserialize_int64 (m : mem) (d : deserializer) : outcome (Z * deserializer) :=
  '(v, d) ← deserialize_word 8 m d; Ret (s64 v, d).

(** ** Sequences of items

    The generated stubs write a sequence of integers and of byte blocks, each block
    through [serialize_buffer] and [serialize_buffer_finish]. *)
Inductive item : Type :=
| IInt (v : Z)
| ISize (v : Z)
| IInt64 (v : Z)
| IBytes (bs : list Z).

Definition item_ok (i : item) : Prop :=
  match i with
  | IInt v => - 2 ^ 31 <= v < 2 ^ 31
  | ISize v => 0 <= v < 2 ^ 32
  | IInt64 v => - 2 ^ 63 <= v < 2 ^ 63
  | IBytes bs => Forall is_byte bs
  end.

Definition encode (i : item) : list Z :=
  match i with
  | IInt v | ISize v => le_encode 4 v
  | IInt64 v => le_encode 8 v
  | IBytes bs => bs
  end.
Definition encode_all (l : list item) : list Z := mjoin (encode <$> l).

(** The bytes a buffer must have for the items: those of their encodings, and one more when the
    last item is an empty block, since [serialize_buffer] wants a byte of room even for it. *)
Fixpoint ends_empty (l : list item) : bool :=
  match l with
  | [] => false
  | [IBytes []] => true
  | _ :: l => ends_empty l
  end.
Definition room_for (l : list item) : Z :=
  Z.of_nat (length (encode_all l)) + (if ends_empty l then 1 else 0).

Definition write_item (m : mem) (s : serializer) (i : item) : outcome (mem * serializer) :=
  match i with
  | IInt v => serialize_int m s v
  | ISize v => serialize_size_t m s v
  | IInt64 v => serialize_int64 m s v
  | IBytes bs =>
      '(buf, max_size, s) ← serialize_buffer s;
      _ ← c_assert (Z.of_nat (length bs) <=? max_size);
      s ← serialize_buffer_finish s (Z.of_nat (length bs));
      Ret (store_bytes m buf bs, s)
  end.

(** The shape of an item, which the reader knows from the interface. *)
Definition read_item (m : mem) (d : deserializer) (i : item) : outcome (item * deserializer) :=
  match i with
  | IInt _ => '(v, d) ← deserialize_int m d; Ret (IInt v, d)
  | ISize _ => '(v, d) ← deserialize_size_t m d; Ret (ISize v, d)
  | IInt64 _ => '(v, d) ← deserialize_int64 m d; Ret (IInt64 v, d)
  | IBytes bs =>
      '(buf, d) ← deserialize_buffer d (Z.of_nat (length bs));
      Ret (IBytes (load_bytes m buf (length bs)), d)
  end.

Fixpoint write_items (m : mem) (s : serializer) (l : list item) : outcome (mem * serializer) :=
  match l with
  | [] => Ret (m, s)
  | i :: l => '(m, s) ← write_item m s i; write_items m s l
  end.

Fixpoint read_items (m : mem) (d : deserializer) (l : list item) : outcome (list item * deserializer) :=
  match l with
  | [] => Ret ([], d)
  | i :: l => '(i, d) ← read_item m d i; '(l, d) ← read_items m d l; Ret (i :: l, d)
  end.

(** ** Proofs *)
Lemma encode_bytes i : item_ok i -> Forall is_byte (encode i).
Proof. destruct i; cbn [item_ok encode]; intros Hi; [apply le_encode_bytes..|exact Hi]. Qed.

Lemma ends_empty_cons i l : ends_empty (i :: l) =
  match l with [] => bool_decide (encode i = []) | _ => ends_empty l end.
Proof. destruct i as [v|v|v|[|b bs]], l; done. Qed.

Lemma room_for_cons i l : room_for (i :: l) =
  Z.of_nat (length (encode i)) +
  match l with [] => if bool_decide (encode i = []) then 1 else 0 | _ => room_for l end.
Proof.
  unfold room_for. rewrite ends_empty_cons. change (encode_all (i :: l)) with (encode i ++ encode_all l).
  rewrite length_app. destruct l; [cbn; lia|]. lia.
Qed.

Lemma room_for_pos i l : 0 < room_for (i :: l).
Proof.
  revert i. induction l as [|j l IH]; intros i; rewrite room_for_cons.
  - case_bool_decide as E; [lia|]. destruct (encode i); [done|cbn; lia].
  - specialize (IH j). lia.
Qed.

(** A serializer that is not locked and whose position is inside its buffer. *)
Record ser_ok (s : serializer) : Prop := {
  so_unlocked : s_locked s = 0;
  so_pos : 0 <= s_pos s <= s_size s;
  so_size : s_size s < 2 ^ 32;
  so_buffer : 0 < s_buffer s
}.

Lemma write_word_eq width m s v : ser_ok s -> (0 < width)%nat ->
  SERIALIZE width m s v =
  if s_pos s + Z.of_nat width <=? s_size s
  then Ret (store_bytes m (s_buffer s + s_pos s) (le_encode width v),
            mkSer (s_buffer s) (s_size s) (s_pos s + Z.of_nat width) 0)
  else Fault FAssert.
Proof.
  intros [Hl Hp Hs Hb] Hw. unfold SERIALIZE, serialize_buffer, serialize_buffer_finish. rewrite Hl.
  cbn [nz Z.eqb negb c_assert mbind outcome_bind]. rewrite u32_small by lia.
  destruct (0 <? s_size s - s_pos s) eqn:E; breflect; cbn [c_assert mbind outcome_bind].
  - rewrite (nz_true (s_buffer s + s_pos s)) by lia. cbn [andb s_locked s_size s_pos s_buffer].
    destruct (Z.of_nat width <=? s_size s - s_pos s) eqn:E2; breflect; cbn [c_assert mbind outcome_bind].
    + rewrite (proj2 (Z.leb_le (s_pos s + Z.of_nat width) (s_size s))) by lia.
      cbn [nz Z.eqb negb c_assert mbind outcome_bind].
      rewrite (u32_small (s_size s - s_pos s)), (proj2 (Z.leb_le (Z.of_nat width) _)) by lia.
      cbn [c_assert mbind outcome_bind]. by rewrite u32_small by lia.
    + by rewrite (proj2 (Z.leb_gt (s_pos s + Z.of_nat width) (s_size s))) by lia.
  - by rewrite (proj2 (Z.leb_gt (s_pos s + Z.of_nat width) (s_size s))) by lia.
Qed.

Lemma write_item_eq m s i : ser_ok s ->
  write_item m s i =
  if s_pos s + room_for [i] <=? s_size s
  then Ret (store_bytes m (s_buffer s + s_pos s) (encode i),
            mkSer (s_buffer s) (s_size s) (s_pos s + Z.of_nat (length (encode i))) 0)
  else Fault FAssert.
Proof.
  intros Hs. rewrite room_for_cons. destruct i as [v|v|v|bs]; cbn [write_item encode].
  1-3: rewrite bool_decide_false, Z.add_0_r, length_le_encode by done; apply write_word_eq; [done|lia].
  destruct Hs as [Hl Hp Hsz Hb]. set (k := if bool_decide (bs = []) then 1 else 0).
  assert (0 <= k /\ 0 < Z.of_nat (length bs) + k /\ (k = 0 \/ Z.of_nat (length bs) = 0 /\ k = 1)) as (Hk & Hk1 & Hk2).
  { unfold k. case_bool_decide as E; [subst bs; cbn; lia|]. destruct bs; [done|cbn; lia]. }
  clearbody k. unfold serialize_buffer, serialize_buffer_finish. rewrite Hl. cbn [nz Z.eqb negb c_assert mbind outcome_bind].
  rewrite u32_small by lia. destruct (0 <? s_size s - s_pos s) eqn:E; breflect; cbn [c_assert mbind outcome_bind].
  - cbn [s_locked s_size s_pos s_buffer].
    destruct (Z.of_nat (length bs) <=? s_size s - s_pos s) eqn:E2; breflect; cbn [c_assert mbind outcome_bind].
    + rewrite (proj2 (Z.leb_le (s_pos s + (Z.of_nat (length bs) + k)) (s_size s))) by lia.
      cbn [nz Z.eqb negb c_assert mbind outcome_bind].
      rewrite (u32_small (s_size s - s_pos s)), (proj2 (Z.leb_le (Z.of_nat (length bs)) _)) by lia.
      cbn [c_assert mbind outcome_bind]. by rewrite u32_small by lia.
    + by rewrite (proj2 (Z.leb_gt (s_pos s + (Z.of_nat (length bs) + k)) (s_size s))) by lia.
  - by rewrite (proj2 (Z.leb_gt (s_pos s + (Z.of_nat (length bs) + k)) (s_size s))) by lia.
Qed.

Lemma write_items_eq l : forall m s, ser_ok s ->
  write_items m s l =
  if s_pos s + room_for l <=? s_size s
  then Ret (store_bytes m (s_buffer s + s_pos s) (encode_all l),
            mkSer (s_buffer s) (s_size s) (s_pos s + Z.of_nat (length (encode_all l))) 0)
  else Fault FAssert.
Proof.
  induction l as [|i l IH]; intros m s Hs.
  - unfold room_for. cbn. destruct Hs as [Hlk Hp _ _]. rewrite Z.add_0_r, (proj2 (Z.leb_le _ _)) by lia.
    destruct s. cbn in *. subst. change (Z.of_nat 0) with 0. by rewrite Z.add_0_r.
  - cbn [write_items]. rewrite write_item_eq by done. rewrite (room_for_cons i l), (room_for_cons i []).
    change (encode_all (i :: l)) with (encode i ++ encode_all l). rewrite length_app, Nat2Z.inj_add.
    set (k := if bool_decide (encode i = []) then 1 else 0). assert (0 <= k <= 1) by (unfold k; case_bool_decide; lia).
    assert (k = 1 -> length (encode i) = 0%nat) as Hk1 by (unfold k; case_bool_decide as E; [by rewrite E|done]).
    destruct l as [|j l].
    + clearbody k. destruct (_ <=? _); [|done]. cbn [mbind outcome_bind write_items]. change (encode_all []) with (@nil Z).
      change (Z.of_nat (length (@nil Z))) with 0. by rewrite app_nil_r, Z.add_0_r.
    + clearbody k. pose proof (room_for_pos j l) as Hpos.
      destruct (s_pos s + (Z.of_nat (length (encode i)) + k) <=? s_size s) eqn:E; breflect; cbn [mbind outcome_bind].
      * rewrite IH by (destruct Hs; split; cbn; lia). cbn [s_pos s_size s_buffer].
        rewrite <- Z.add_assoc. destruct (_ <=? _); [|done]. rewrite store_bytes_app. by rewrite !Z.add_assoc.
      * rewrite (proj2 (Z.leb_gt _ _)); [done|]. destruct (decide (k = 1)); [specialize (Hk1 ltac:(done))|]; lia.
Qed.

Record des_ok (d : deserializer) : Prop := {
  do_pos : 0 <= d_pos d <= d_size d;
  do_size : d_size d < 2 ^ 32;
  do_buffer : 0 < d_buffer d
}.

Lemma read_buffer_ok d n : des_ok d -> 0 <= n -> d_pos d + n <= d_size d ->
  deserialize_buffer d n = Ret (d_buffer d + d_pos d, mkDes (d_buffer d) (d_size d) (d_pos d + n)).
Proof.
  intros [Hp Hs Hb] Hn Hle. unfold deserialize_buffer. rewrite (u32_small (d_size d - d_pos d)), (proj2 (Z.leb_le n _)) by lia.
  cbn. by rewrite u32_small by lia.
Qed.

Lemma read_word_ok width m d v : des_ok d -> d_pos d + Z.of_nat width <= d_size d ->
  load_bytes m (d_buffer d + d_pos d) width = le_encode width v ->
  deserialize_word width m d =
    Ret (v mod 256 ^ Z.of_nat width, mkDes (d_buffer d) (d_size d) (d_pos d + Z.of_nat width)).
Proof.
  intros Hd Hle Hm. unfold deserialize_word. rewrite read_buffer_ok by (done || lia). cbn [mbind outcome_bind].
  destruct Hd. rewrite nz_true by lia. cbn. by rewrite Hm, le_decode_encode.
Qed.

Lemma read_item_ok m d i : des_ok d -> item_ok i ->
  d_pos d + Z.of_nat (length (encode i)) <= d_size d ->
  load_bytes m (d_buffer d + d_pos d) (length (encode i)) = encode i ->
  read_item m d i = Ret (i, mkDes (d_buffer d) (d_size d) (d_pos d + Z.of_nat (length (encode i)))).
Proof.
  intros Hd Hi. destruct i as [v|v|v|bs]; cbn [encode read_item item_ok] in *; rewrite ?length_le_encode; intros Hle Hm.
  - unfold deserialize_int. erewrite read_word_ok by done. cbn [mbind outcome_bind].
    change (v mod 256 ^ Z.of_nat 4) with (u32 v). by rewrite s32_u32 by lia.
  - unfold deserialize_size_t. erewrite read_word_ok by done. cbn [mbind outcome_bind].
    change (v mod 256 ^ Z.of_nat 4) with (u32 v). by rewrite u32_small by lia.
  - unfold deserialize_int64. erewrite read_word_ok by done. cbn [mbind outcome_bind].
    change (v mod 256 ^ Z.of_nat 8) with (u64 v). rewrite swrap_wrap, swrap_small by lia. done.
  - rewrite read_buffer_ok by (done || lia). cbn [mbind outcome_bind]. by rewrite Hm.
Qed.

Lemma read_items_ok l : forall m d, des_ok d -> Forall item_ok l ->
  d_pos d + Z.of_nat (length (encode_all l)) <= d_size d ->
  load_bytes m (d_buffer d + d_pos d) (length (encode_all l)) = encode_all l ->
  read_items m d l = Ret (l, mkDes (d_buffer d) (d_size d) (d_pos d + Z.of_nat (length (encode_all l)))).
Proof.
  induction l as [|i l IH]; intros m d Hd Hl Hle Hm.
  - cbn. rewrite Z.add_0_r. by destruct d.
  - apply Forall_cons in Hl as [Hi Hl]. change (encode_all (i :: l)) with (encode i ++ encode_all l) in *.
    rewrite length_app in Hle, Hm |- *. rewrite load_bytes_app in Hm.
    apply app_inj_1 in Hm as [Hm1 Hm2]; [|apply length_load_bytes].
    cbn [read_items]. rewrite read_item_ok by (done || lia). cbn [mbind outcome_bind].
    rewrite IH; cbn [d_pos d_size d_buffer]; [|destruct Hd; split; cbn; lia|done|lia|by rewrite Z.add_assoc].
    cbn. do 2 f_equal. f_equal. lia.
Qed.

(** C37: What a stub serializes, the other side deserializes: writing a list of integers and
    byte blocks, empty ones included, succeeds exactly when the buffer has room for their
    encodings, and one byte more if the last of them is an empty block; it stores exactly their
    little-endian encodings and nothing outside them, and never leaves the serializer locked;
    reading with the same types from a buffer of the reported length returns the same
    values and consumes all of it. Otherwise the writer aborts, before or after storing a
    prefix. *)
Theorem serialize_roundtrip (m : mem) (buffer size : Z) (l : list item) :
  0 < buffer -> 0 <= size < 2 ^ 32 -> Forall item_ok l ->
  (room_for l <= size -> exists m' s,
     write_items m (serializer_init buffer size) l = Ret (m', s) /\
     serializer_finish s = Z.of_nat (length (encode_all l)) /\ s_locked s = 0 /\
     same_outside m m' buffer (buffer + serializer_finish s) /\
     read_items m' (deserializer_init buffer (serializer_finish s)) l =
       Ret (l, mkDes buffer (serializer_finish s) (serializer_finish s))) /\
  (size < room_for l ->
     write_items m (serializer_init buffer size) l = Fault FAssert).
Proof.
  intros Hb Hs Hl.
  assert (ser_ok (serializer_init buffer size)) as Hok by (split; cbn; lia).
  rewrite write_items_eq by done. cbn [serializer_init s_pos s_size s_buffer]. rewrite !Z.add_0_l, Z.add_0_r. split.
  - intros Hle. rewrite (proj2 (Z.leb_le _ _)) by done. eexists _, _. split; [done|].
    assert (Z.of_nat (length (encode_all l)) <= room_for l) by (unfold room_for; destruct (ends_empty l); lia).
    cbn [serializer_finish s_pos s_locked]. split; [done|]. split; [done|]. split.
    + intros c Hc. apply load8_store_bytes_out. lia.
    + rewrite read_items_ok; cbn [deserializer_init d_pos d_size d_buffer]; [done|split; cbn; lia|done|lia|].
      rewrite Z.add_0_r. apply load_store_bytes_eq; [|done].
      clear -Hl. induction Hl as [|i l Hi Hl IH]; [constructor|].
      apply Forall_app. split; [by apply encode_bytes|done].
  - intros Hlt. by rewrite (proj2 (Z.leb_gt _ _)) by done.
Qed.

Lemma serialize_roundtrip_witness : exists m s,
  write_items ∅ (serializer_init 0x1000 64) [IInt (-5); IBytes []; ISize 3; IBytes [1; 2; 3]; IInt64 (-2 ^ 40)] = Ret (m, s) /\
  serializer_finish s = 19 /\
  write_items ∅ (serializer_init 0x1000 4) [IInt 5; IBytes []] = Fault FAssert.
Proof.
  destruct (serialize_roundtrip ∅ 0x1000 64 [IInt (-5); IBytes []; ISize 3; IBytes [1; 2; 3]; IInt64 (-2 ^ 40)])
    as [H _]; [lia|lia|repeat constructor; cbn; unfold is_byte; lia|].
  destruct (serialize_roundtrip ∅ 0x1000 4 [IInt 5; IBytes []])
    as [_ H2]; [lia|lia|repeat constructor; cbn; lia|].
  destruct H as (m & s & E & Hf & _); [vm_compute; discriminate|].
  exists m, s. split; [exact E|]. split; [exact Hf|]. apply H2. reflexivity.
Defined.
