(* ===== verification/Vmm.v ===== *)
(** [kernel/vmm.c]: the page tables. Physical memory is a store of 32-bit words; the kernel
    reads and writes through virtual addresses, which the definitions of the first section
    translate the way the i386 does. The page directory and the page tables of the running
    address space are reached through the recursive entry 1023 of the directory.

    Accesses go through the walk of the tables. That is what the processor does as long as
    its translation cache agrees with them: [vmm_map], [vmm_remap] and [vmm_unmap] reload
    [cr3] after they change an entry and before they use the page it maps, and
    [vmm_switch_pagedir] reloads it by switching. [vmm_reset_current_pagedir] changes entries
    and does not reload [cr3]; it does not use the pages it unmaps either. [tlb_walk] is the
    processor's translation with a cache in front of the walk, for what that leaves behind. *)
From S2P Require Import Prelude Util Pmm.

Definition VMM_PAGE_PRESENT : Z := 0x1.
Definition VMM_PAGE_WRITABLE : Z := 0x2.
Definition VMM_PAGE_USER : Z := 0x4.
Definition KERNEL_BASE_ADDR : Z := 0xC0000000.
Definition KERNEL_START : Z := 0xC0000000.
Definition USER_START : Z := 0x1000.
Definition USER_END : Z := 0xBFFFFFFF.

Definition PTE_PRESENT : Z := 1.
Definition PTE_FRAME : Z := 0xFFFFF000.
Definition PTE_FLAGS : Z := 0x00000FFF.
Definition PDE_PRESENT : Z := 1.
Definition PDE_WRITABLE : Z := Z.shiftl 1 1.
Definition PDE_USER : Z := Z.shiftl 1 2.
Definition PDE_FRAME : Z := 0xFFFFF000.
Definition PDE_FLAGS : Z := 0x00000FFF.

Definition PAGE_DIRECTORY_INDEX (x : Z) : Z := Z.land (Z.shiftr x 22) 0x3ff.
Definition PAGE_TABLE_INDEX (x : Z) : Z := Z.land (Z.shiftr x 12) 0x3ff.

Definition USER_PDE_START : Z := 0.
Definition USER_PDE_END : Z := PAGE_DIRECTORY_INDEX KERNEL_START - 1.
Definition KERNEL_PDE_START : Z := PAGE_DIRECTORY_INDEX KERNEL_START.
Definition KERNEL_PDE_END : Z := 1022.
Definition RECURSIVE_MAPPING_PDE : Z := 1023.

(** ** The memory management unit *)
Abbreviation pmem := (gmap Z Z).
Definition pload (p : pmem) (a : Z) : Z := default 0 (p !! a).
Definition pstore (p : pmem) (a v : Z) : pmem := <[a := u32 v]> p.

(** The two-level walk: the directory entry and the table entry of a virtual address. *)
Definition walk (p : pmem) (cr3 va : Z) : option (Z * Z) :=
  let pde := pload p (Z.land cr3 PDE_FRAME + 4 * PAGE_DIRECTORY_INDEX va) in
  if nz (Z.land pde PDE_PRESENT) then
    let pte := pload p (Z.land pde PDE_FRAME + 4 * PAGE_TABLE_INDEX va) in
    if nz (Z.land pte PTE_PRESENT) then Some (pde, pte) else None
  else None.

(** The translation cache: for some pages, the entries an earlier walk found. The processor
    uses them without looking at the tables until [cr3] is loaded, which empties it. *)
Abbreviation tlb := (gmap Z (Z * Z)).
Definition flush_tlb : tlb := ∅.
Definition tlb_walk (t : tlb) (p : pmem) (cr3 va : Z) : option (Z * Z) :=
  match t !! (va / 4096) with
  | Some e => Some e
  | None => walk p cr3 va
  end.

(** Everything cached is what the walk finds. *)
Definition tlb_coherent (t : tlb) (p : pmem) (cr3 : Z) : Prop :=
  forall va e, 0 <= va < 2 ^ 32 -> t !! (va / 4096) = Some e -> walk p cr3 va = Some e.

Definition phys_of (pte va : Z) : Z := Z.land pte PTE_FRAME + Z.land va 0xFFF.

Record transient_map : Type := mkTransient { tm_frame : Z; tm_flags : Z; tm_address : Z; tm_node : Z }.

Record vmm (F : Type) : Type := mkVmm {
  phys : pmem;
  cr3 : Z;
  cr0 : Z;
  frames : F;
  paging_enabled : bool;
  current_pagedir_va : Z;
  transient_maps : list transient_map
}.
Arguments mkVmm {F}. Arguments phys {F}. Arguments cr3 {F}. Arguments cr0 {F}. Arguments frames {F}.
Arguments paging_enabled {F}. Arguments current_pagedir_va {F}. Arguments transient_maps {F}.

Section vmm.
Context {F : Type} `{FrameAllocator F}.

Definition with_phys (s : vmm F) (p : pmem) : vmm F :=
  mkVmm p (cr3 s) (cr0 s) (frames s) (paging_enabled s) (current_pagedir_va s) (transient_maps s).
Definition with_frames (s : vmm F) (f : F) : vmm F :=
  mkVmm (phys s) (cr3 s) (cr0 s) f (paging_enabled s) (current_pagedir_va s) (transient_maps s).
Definition with_transient (s : vmm F) (l : list transient_map) : vmm F :=
  mkVmm (phys s) (cr3 s) (cr0 s) (frames s) (paging_enabled s) (current_pagedir_va s) l.

(** A kernel access to a 32-bit word. Before paging the segments of the boot code map
    [KERNEL_BASE_ADDR] to physical address 0. A write needs the writable bit of both
    entries, since the kernel sets [CR0_WP]. *)
Definition vload (s : vmm F) (va : Z) : outcome Z :=
  if paging_enabled s then
    match walk (phys s) (cr3 s) va with
    | Some (_, pte) => Ret (pload (phys s) (phys_of pte va))
    | None => Fault FMem
    end
  else Ret (pload (phys s) (u32 (va - KERNEL_BASE_ADDR))).

Definition vstore (s : vmm F) (va v : Z) : outcome (vmm F) :=
  if paging_enabled s then
    match walk (phys s) (cr3 s) va with
    | Some (pde, pte) =>
        if nz (Z.land pde PDE_WRITABLE) && nz (Z.land pte VMM_PAGE_WRITABLE)
        then Ret (with_phys s (pstore (phys s) (phys_of pte va) v)) else Fault FMem
    | None => Fault FMem
    end
  else Ret (with_phys s (pstore (phys s) (u32 (va - KERNEL_BASE_ADDR)) v)).

(** [bzero] of [n] words. *)
Fixpoint vzero (n : nat) (s : vmm F) (va : Z) : outcome (vmm F) :=
  match n with
  | O => Ret s
  | S n => s ← vstore s va 0; vzero n s (va + 4)
  end.

(** ** Entries of the running address space *)
Definition current_pagedir : Z := 0xFFFFF000.
Definition va_info (va : Z) : Z * Z := (PAGE_DIRECTORY_INDEX va, PAGE_TABLE_INDEX va).
Definition get_pagetable (dir_index : Z) : Z := 0xFFC00000 + dir_index * PAGE_SIZE.
Definition get_va (dir_index table_index : Z) : Z :=
  u32 (u32 (dir_index * (4 * 1024 * 1024)) + u32 (table_index * (4 * 1024))).

Record va_info_ex_t : Type := mkInfoEx { vx_pde : Z; vx_pte : Z; vx_frame : Z; vx_flags : Z }.

Definition va_info_ex (s : vmm F) (va : Z) : outcome va_info_ex_t :=
  _ ← c_assert (paging_enabled s);
  let '(dir_index, table_index) := va_info va in
  pde ← vload s (current_pagedir + 4 * dir_index);
  if nz (Z.land pde PDE_PRESENT) then
    pte ← vload s (get_pagetable dir_index + 4 * table_index);
    if nz (Z.land pte PTE_PRESENT)
    then Ret (mkInfoEx pde pte (Z.land pte PTE_FRAME) (Z.land pte PTE_FLAGS))
    else Ret (mkInfoEx pde 0 0 0)
  else Ret (mkInfoEx 0 0 0 0).

Definition pmm_alloc_frame (s : vmm F) : outcome (Z * vmm F) :=
  '(f, fs) ← fa_alloc (frames s); Ret (f, with_frames s fs).
Definition pmm_free_frame (s : vmm F) (f : Z) : outcome (vmm F) :=
  fs ← fa_free (frames s) f; Ret (with_frames s fs).

Definition vmm_map (s : vmm F) (va pa flags : Z) : outcome (vmm F) :=
  _ ← c_assert (paging_enabled s);
  _ ← c_assert (nz (Z.land flags VMM_PAGE_PRESENT));
  _ ← c_assert (IS_ALIGNED va PAGE_SIZE);
  _ ← c_assert (IS_ALIGNED pa PAGE_SIZE);
  let '(dir_index, table_index) := va_info va in
  pde ← vload s (current_pagedir + 4 * dir_index);
  if negb (nz (Z.land pde PDE_PRESENT)) then
    '(table_pa, s) ← pmm_alloc_frame s;
    _ ← c_assert (negb (table_pa =? INVALID_FRAME));
    s ← vstore s (current_pagedir + 4 * dir_index)
          (Z.lor (Z.lor (Z.lor table_pa PDE_PRESENT) PDE_USER) PDE_WRITABLE);
    pde ← vload s (current_pagedir + 4 * dir_index);
    _ ← c_assert (nz (Z.land pde PDE_PRESENT));
    s ← vzero 1024 s (get_pagetable dir_index);
    vstore s (get_pagetable dir_index + 4 * table_index) (Z.lor (Z.land pa PTE_FRAME) flags)
  else
    pte ← vload s (get_pagetable dir_index + 4 * table_index);
    if nz (Z.land pte PTE_PRESENT) then Fault FPanic
    else vstore s (get_pagetable dir_index + 4 * table_index) (Z.lor (Z.land pa PTE_FRAME) flags).

Definition vmm_remap (s : vmm F) (va flags : Z) : outcome (vmm F) :=
  _ ← c_assert (paging_enabled s);
  _ ← c_assert (IS_ALIGNED va PAGE_SIZE);
  _ ← c_assert (nz (Z.land flags VMM_PAGE_PRESENT));
  let '(dir_index, table_index) := va_info va in
  pde ← vload s (current_pagedir + 4 * dir_index);
  _ ← c_assert (nz (Z.land pde PDE_PRESENT));
  pte ← vload s (get_pagetable dir_index + 4 * table_index);
  _ ← c_assert (nz (Z.land pte PTE_PRESENT));
  let frame := Z.land pte PTE_FRAME in
  vstore s (get_pagetable dir_index + 4 * table_index) (Z.lor frame flags).

Definition vmm_unmap (s : vmm F) (va : Z) : outcome (vmm F) :=
  _ ← c_assert (paging_enabled s);
  _ ← c_assert (IS_ALIGNED va PAGE_SIZE);
  let '(dir_index, table_index) := va_info va in
  pde ← vload s (current_pagedir + 4 * dir_index);
  _ ← c_assert (nz (Z.land pde PDE_PRESENT));
  pte ← vload s (get_pagetable dir_index + 4 * table_index);
  _ ← c_assert (nz (Z.land pte PTE_PRESENT));
  vstore s (get_pagetable dir_index + 4 * table_index) (Z.land pte (u32 (Z.lnot PTE_PRESENT))).

Definition vmm_paging_enabled (s : vmm F) : bool := paging_enabled s.

Definition vmm_get_physical (s : vmm F) (va : Z) : outcome Z :=
  _ ← c_assert (IS_ALIGNED va PAGE_SIZE);
  info ← va_info_ex s va;
  Ret (vx_frame info).

Definition vmm_get_flags (s : vmm F) (va : Z) : outcome Z :=
  _ ← c_assert (IS_ALIGNED va PAGE_SIZE);
  info ← va_info_ex s va;
  Ret (vx_flags info).

(** ** Whole address spaces *)

(** [pagedir->entries[i] = current_pagedir->entries[i]] for [n] entries from [i]. *)
Fixpoint copy_entries (n : nat) (i : Z) (s : vmm F) (pagedir : Z) : outcome (vmm F) :=
  match n with
  | O => Ret s
  | S n =>
      e ← vload s (current_pagedir + 4 * i);
      s ← vstore s (pagedir + 4 * i) e;
      copy_entries n (i + 1) s pagedir
  end.
Definition kernel_pdes : nat := Z.to_nat (KERNEL_PDE_END - KERNEL_PDE_START + 1).
Definition user_pdes : nat := Z.to_nat (USER_PDE_END - USER_PDE_START + 1).

Definition vmm_copy_kernel_mappings (s : vmm F) (pagedir : Z) : outcome (vmm F) :=
  _ ← c_assert (IS_ALIGNED pagedir PAGE_SIZE);
  s ← copy_entries kernel_pdes KERNEL_PDE_START s pagedir;
  pa ← vmm_get_physical s pagedir;
  e ← vload s (pagedir + 4 * RECURSIVE_MAPPING_PDE);
  _ ← c_assert (Z.land e PDE_FRAME =? pa);
  _ ← c_assert (nz (Z.land e PDE_PRESENT));
  _ ← c_assert (nz (Z.land e PDE_WRITABLE));
  Ret s.

Definition vmm_switch_pagedir (s : vmm F) (pagedir : Z) : outcome (vmm F) :=
  _ ← c_assert (IS_ALIGNED pagedir PAGE_SIZE);
  s ← vmm_copy_kernel_mappings s pagedir;
  pa ← vmm_get_physical s pagedir;
  Ret (mkVmm (phys s) pa (cr0 s) (frames s) (paging_enabled s) pagedir (transient_maps s)).

Definition vmm_current_pagedir (s : vmm F) : outcome Z :=
  _ ← c_assert (paging_enabled s); Ret (current_pagedir_va s).

(** Free the frames of the present entries of the page table at [table], from [i] on. *)
Fixpoint free_table (n : nat) (i : Z) (s : vmm F) (table : Z) : outcome (vmm F) :=
  match n with
  | O => Ret s
  | S n =>
      e ← vload s (table + 4 * i);
      s ← (if nz (Z.land e PTE_PRESENT) then pmm_free_frame s (Z.land e PTE_FRAME) else Ret s);
      free_table n (i + 1) s table
  end.

Fixpoint reset_loop (n : nat) (i : Z) (s : vmm F) : outcome (vmm F) :=
  match n with
  | O => Ret s
  | S n =>
      e ← vload s (current_pagedir + 4 * i);
      s ← (if nz (Z.land e PDE_PRESENT) then
             s ← free_table 1024 0 s (get_pagetable i);
             s ← pmm_free_frame s (Z.land e PDE_FRAME);
             vstore s (current_pagedir + 4 * i) 0
           else Ret s);
      reset_loop n (i + 1) s
  end.

(** [for(i = USER_PDE_START; i < USER_PDE_END; i++)]: the last user entry, which holds the
    kernel stack, is kept. *)
Definition vmm_reset_current_pagedir (s : vmm F) : outcome (vmm F) :=
  reset_loop (Z.to_nat (USER_PDE_END - USER_PDE_START)) USER_PDE_START s.

Section heap.
(** The kernel heap, whose growth may itself map pages. *)
Variable kmalloc_a : vmm F -> Z -> Z -> outcome (Z * vmm F).
Variable kmalloc : vmm F -> Z -> outcome (Z * vmm F).
Variable kfree : vmm F -> Z -> outcome (vmm F).

Definition sizeof_transient_map : Z := 20.

Definition vmm_transient_map (s : vmm F) (frame flags : Z) : outcome (Z * vmm F) :=
  '(address, s) ← kmalloc_a s PAGE_SIZE PAGE_SIZE;
  '(map, s) ← kmalloc s sizeof_transient_map;
  old_frame ← vmm_get_physical s address;
  old_flags ← vmm_get_flags s address;
  s ← vmm_unmap s address;
  s ← vmm_map s address frame (Z.lor VMM_PAGE_PRESENT flags);
  Ret (address, with_transient s (transient_maps s ++ [mkTransient old_frame old_flags address map])).

(** The list around the first map of the address. *)
Fixpoint find_transient (l : list transient_map) (address : Z)
    : option (list transient_map * transient_map * list transient_map) :=
  match l with
  | [] => None
  | m :: l =>
      if tm_address m =? address then Some ([], m, l)
      else match find_transient l address with
           | Some (before, x, after) => Some (m :: before, x, after)
           | None => None
           end
  end.

Definition vmm_transient_unmap (s : vmm F) (address : Z) : outcome (vmm F) :=
  match find_transient (transient_maps s) address with
  | None => Fault FPanic
  | Some (before, m, after) =>
      s ← vmm_unmap s address;
      s ← vmm_map s address (tm_frame m) (tm_flags m);
      let s := with_transient s (before ++ after) in
      s ← kfree s (tm_node m);
      kfree s address
  end.

(** [memcpy] of [n] words. *)
Fixpoint copy_words (n : nat) (s : vmm F) (dst src : Z) : outcome (vmm F) :=
  match n with
  | O => Ret s
  | S n => v ← vload s src; s ← vstore s dst v; copy_words n s (dst + 4) (src + 4)
  end.

Fixpoint clone_entries (n : nat) (i : Z) (s : vmm F) (dst src : Z) : outcome (vmm F) :=
  match n with
  | O => Ret s
  | S n =>
      e ← vload s (src + 4 * i);
      s ← (if nz (Z.land e PTE_PRESENT) then
             '(new_frame, s) ← pmm_alloc_frame s;
             _ ← c_assert (negb (new_frame =? INVALID_FRAME));
             '(src_buf, s) ← vmm_transient_map s (Z.land e PTE_FRAME) VMM_PAGE_PRESENT;
             '(dst_buf, s) ← vmm_transient_map s new_frame (Z.lor VMM_PAGE_PRESENT VMM_PAGE_WRITABLE);
             s ← copy_words 1024 s dst_buf src_buf;
             s ← vmm_transient_unmap s dst_buf;
             s ← vmm_transient_unmap s src_buf;
             vstore s (dst + 4 * i) (Z.lor new_frame (Z.land e PTE_FLAGS))
           else Ret s);
      clone_entries n (i + 1) s dst src
  end.

Definition clone_pagetable (s : vmm F) (dst src : Z) : outcome (vmm F) :=
  s ← vzero 1024 s dst;
  clone_entries 1024 0 s dst src.

Fixpoint clone_user (n : nat) (i : Z) (s : vmm F) (result : Z) : outcome (vmm F) :=
  match n with
  | O => Ret s
  | S n =>
      e ← vload s (current_pagedir + 4 * i);
      s ← (if nz (Z.land e PDE_PRESENT) then
             let src := get_pagetable i in
             '(dst_frame, s) ← pmm_alloc_frame s;
             _ ← c_assert (negb (dst_frame =? INVALID_FRAME));
             '(dst, s) ← vmm_transient_map s dst_frame (Z.lor VMM_PAGE_PRESENT VMM_PAGE_WRITABLE);
             s ← clone_pagetable s dst src;
             s ← vmm_transient_unmap s dst;
             e ← vload s (current_pagedir + 4 * i);
             vstore s (result + 4 * i) (Z.lor dst_frame (Z.land e PDE_FLAGS))
           else Ret s);
      clone_user n (i + 1) s result
  end.

Definition vmm_clone_pagedir (s : vmm F) : outcome (Z * vmm F) :=
  '(result, s) ← kmalloc_a s 4096 PAGE_SIZE;
  s ← vzero 1024 s result;
  s ← clone_user user_pdes USER_PDE_START s result;
  s ← copy_entries kernel_pdes KERNEL_PDE_START s result;
  pa ← vmm_get_physical s result;
  s ← vstore s (result + 4 * RECURSIVE_MAPPING_PDE) (Z.lor (Z.lor pa PDE_PRESENT) PDE_WRITABLE);
  Ret (result, s).

Fixpoint destroy_loop (n : nat) (i : Z) (s : vmm F) (pagedir : Z) : outcome (vmm F) :=
  match n with
  | O => Ret s
  | S n =>
      e ← vload s (pagedir + 4 * i);
      s ← (if nz (Z.land e PDE_PRESENT) then
             '(table, s) ← vmm_transient_map s (Z.land e PDE_FRAME) (Z.lor VMM_PAGE_PRESENT VMM_PAGE_WRITABLE);
             s ← free_table 1024 0 s table;
             s ← vmm_transient_unmap s table;
             pmm_free_frame s (Z.land e PDE_FRAME)
           else Ret s);
      destroy_loop n (i + 1) s pagedir
  end.

Definition vmm_destroy_pagedir (s : vmm F) (pagedir : Z) : outcome (vmm F) :=
  s ← destroy_loop user_pdes USER_PDE_START s pagedir;
  kfree s pagedir.

(** ** Before paging *)
Definition vmm_map_linear (s : vmm F) (pagedir va pa flags : Z) : outcome (vmm F) :=
  _ ← c_assert (negb (paging_enabled s));
  _ ← c_assert (IS_ALIGNED va PAGE_SIZE);
  _ ← c_assert (IS_ALIGNED pa PAGE_SIZE);
  let '(dir_index, table_index) := va_info va in
  pde ← vload s (pagedir + 4 * dir_index);
  s ← (if negb (nz (Z.land pde PDE_PRESENT)) then
         '(table, s) ← kmalloc_a s 4096 PAGE_SIZE;
         _ ← c_assert (IS_ALIGNED table PAGE_SIZE);
         s ← vzero 1024 s table;
         vstore s (pagedir + 4 * dir_index)
           (Z.lor (Z.lor (Z.lor (u32 (table - KERNEL_BASE_ADDR)) PDE_PRESENT) PDE_USER) PDE_WRITABLE)
       else Ret s);
  pde ← vload s (pagedir + 4 * dir_index);
  let table := u32 (Z.land pde PDE_FRAME + KERNEL_BASE_ADDR) in
  pte ← vload s (table + 4 * table_index);
  if nz (Z.land pte PTE_PRESENT) then Fault FPanic
  else vstore s (table + 4 * table_index) (Z.lor (Z.land pa PTE_FRAME) flags).

(** [for(page = start; page < end; page += PAGE_SIZE) vmm_map_linear(...)] *)
Fixpoint map_section (n : nat) (s : vmm F) (pagedir page limit flags : Z) : outcome (vmm F) :=
  match n with
  | O => Fault FFuel
  | S n =>
      if page <? limit then
        s ← vmm_map_linear s pagedir page (u32 (page - KERNEL_BASE_ADDR)) flags;
        map_section n s pagedir (u32 (page + PAGE_SIZE)) limit flags
      else Ret s
  end.
Definition section_fuel : nat := Z.to_nat (2 ^ 20 + 1).

(** The bounds of the kernel's sections, given by the linker, and of the heap. *)
Record kernel_layout : Type := mkLayout {
  text : Z * Z;
  rodata : Z * Z;
  kdata : Z * Z;
  bss : Z * Z
}.

Definition CR0_PG : Z := Z.shiftl 1 31.
Definition CR0_WP : Z := Z.shiftl 1 16.

Definition vmm_init (s : vmm F) (pmm_initialized : bool) (k : kernel_layout)
    (kernel_heap_info : vmm F -> Z * Z) : outcome (vmm F) :=
  _ ← c_assert pmm_initialized;
  '(pagedir, s) ← kmalloc_a s 4096 PAGE_SIZE;
  _ ← c_assert (IS_ALIGNED pagedir PAGE_SIZE);
  s ← vzero 1024 s pagedir;
  _ ← c_assert (pagedir =? Z.land pagedir PDE_FRAME);
  s ← vstore s (pagedir + 4 * 1023)
        (Z.lor (Z.lor (u32 (pagedir - KERNEL_BASE_ADDR)) PDE_PRESENT) PDE_WRITABLE);
  s ← map_section section_fuel s pagedir (fst (text k)) (snd (text k)) VMM_PAGE_PRESENT;
  s ← map_section section_fuel s pagedir (fst (rodata k)) (snd (rodata k)) (Z.lor VMM_PAGE_PRESENT VMM_PAGE_USER);
  s ← map_section section_fuel s pagedir (fst (kdata k)) (snd (kdata k)) (Z.lor VMM_PAGE_PRESENT VMM_PAGE_WRITABLE);
  s ← map_section section_fuel s pagedir (fst (bss k)) (snd (bss k)) (Z.lor VMM_PAGE_PRESENT VMM_PAGE_WRITABLE);
  let '(heap_start, heap_size) := kernel_heap_info s in
  s ← map_section section_fuel s pagedir heap_start (u32 (heap_start + heap_size))
        (Z.lor VMM_PAGE_PRESENT VMM_PAGE_WRITABLE);
  Ret (mkVmm (phys s) (u32 (pagedir - KERNEL_BASE_ADDR)) (Z.lor (Z.lor (cr0 s) CR0_PG) CR0_WP) (frames s)
         true pagedir (transient_maps s)).
End heap.
End vmm.
