(* ===== verification/VmmSpec.v ===== *)
(** The invariant of the page tables and the operations on single pages ([kernel/vmm.c]). *)
From S2P Require Import Prelude Util Pmm Vmm.

(** ** Indices and entries *)
Lemma dir_index_eq x : PAGE_DIRECTORY_INDEX x = (x / 2 ^ 22) mod 1024.
Proof. unfold PAGE_DIRECTORY_INDEX. rewrite (land_ones_mod _ 10), Z.shiftr_div_pow2 by lia. done. Qed.

Lemma table_index_eq x : PAGE_TABLE_INDEX x = (x / 2 ^ 12) mod 1024.
Proof. unfold PAGE_TABLE_INDEX. rewrite (land_ones_mod _ 10), Z.shiftr_div_pow2 by lia. done. Qed.

Lemma dir_index_range x : 0 <= PAGE_DIRECTORY_INDEX x < 1024.
Proof. rewrite dir_index_eq. apply Z.mod_pos_bound. lia. Qed.

Lemma table_index_range x : 0 <= PAGE_TABLE_INDEX x < 1024.
Proof. rewrite table_index_eq. apply Z.mod_pos_bound. lia. Qed.

Lemma land_frame x : 0 <= x < 2 ^ 32 -> Z.land x PTE_FRAME = x - x mod 4096.
Proof.
  intros Hx. change 4096 with (2 ^ 12). rewrite <- (land_lnot_ones x 12) by lia. apply Z.bits_inj'. intros n Hn.
  rewrite !Z.land_spec, Z.lnot_spec by lia. change (2 ^ 12 - 1) with (Z.ones 12).
  change PTE_FRAME with (Z.shiftl (Z.ones 20) 12).
  destruct (Z.lt_ge_cases n 12); [|destruct (Z.lt_ge_cases n 32)].
  - rewrite Z.shiftl_spec_low, Z.ones_spec_low by lia. done.
  - rewrite Z.shiftl_spec, Z.ones_spec_low, Z.ones_spec_high by lia. done.
  - by rewrite (testbit_range x 32) by lia.
Qed.

Lemma land_frame_range x : 0 <= x < 2 ^ 32 -> 0 <= Z.land x PTE_FRAME < 2 ^ 32 /\ Z.land x PTE_FRAME mod 4096 = 0.
Proof.
  intros Hx. rewrite land_frame by done. pose proof (Z.mod_pos_bound x 4096 ltac:(lia)).
  pose proof (Z.mod_le x 4096 ltac:(lia) ltac:(lia)). split; [lia|].
  rewrite Zminus_mod, Z.mod_mod, Z.sub_diag by lia. done.
Qed.

Lemma land_flags x : Z.land x PTE_FLAGS = x mod 4096.
Proof. by apply (land_ones_mod x 12). Qed.

Lemma nz_bit0 x : nz (Z.land x 1) = Z.testbit x 0.
Proof. by apply (land_pow2_test x 0). Qed.

Lemma nz_bit1 x : nz (Z.land x 2) = Z.testbit x 1.
Proof. by apply (land_pow2_test x 1). Qed.

(** An entry is a frame and its flags. *)
Lemma entry_parts f fl : f mod 4096 = 0 -> 0 <= f < 2 ^ 32 -> 0 <= fl < 4096 ->
  Z.lor f fl = f + fl /\ 0 <= f + fl < 2 ^ 32 /\
  Z.land (f + fl) PTE_FRAME = f /\ Z.land (f + fl) PTE_FLAGS = fl.
Proof.
  intros Hf Hr Hfl. assert (f = f / 4096 * 4096) as Hd by (pose proof (Z.div_mod f 4096); lia).
  assert ((f + fl) mod 4096 = fl) as Hm.
  { rewrite Hd, Z.add_comm, Z.mod_add, Z.mod_small by lia. done. }
  assert (f / 4096 < 2 ^ 20) by (apply Z.div_lt_upper_bound; lia).
  assert (0 <= f + fl < 2 ^ 32) as Hs by lia.
  split; [|split; [done|split; [rewrite land_frame by done; lia|by rewrite land_flags]]].
  rewrite Hd at 1. rewrite <- (Z.shiftl_mul_pow2 _ 12), (lor_shiftl_add 12) by lia. lia.
Qed.

Lemma page_words_apart a b i j : a mod 4096 = 0 -> b mod 4096 = 0 -> 0 <= i < 1024 -> 0 <= j < 1024 ->
  a + 4 * i = b + 4 * j -> a = b /\ i = j.
Proof.
  intros Ha Hb Hi Hj E. pose proof (Z.div_mod a 4096). pose proof (Z.div_mod b 4096). nia.
Qed.

Lemma pload_pstore p a v b : pload (pstore p a v) b = if b =? a then u32 v else pload p b.
Proof.
  unfold pload, pstore. destruct (b =? a) eqn:E; breflect.
  - subst. by rewrite lookup_insert_eq.
  - by rewrite lookup_insert_ne by congruence.
Qed.

(** Two pages are the same page when both indices agree. *)
Lemma same_page va va' : 0 <= va < 2 ^ 32 -> 0 <= va' < 2 ^ 32 ->
  PAGE_DIRECTORY_INDEX va = PAGE_DIRECTORY_INDEX va' -> PAGE_TABLE_INDEX va = PAGE_TABLE_INDEX va' ->
  va / 4096 = va' / 4096.
Proof.
  rewrite !dir_index_eq, !table_index_eq. intros H1 H2 Hd Ht.
  change (2 ^ 22) with (4096 * 1024) in Hd. rewrite <- !Z.div_div in Hd by lia. change (2 ^ 12) with 4096 in Ht.
  rewrite !(Z.mod_small (_ / 1024)) in Hd
    by (split; [apply Z.div_pos; [apply Z.div_pos|]; lia|apply Z.div_lt_upper_bound; [lia|]; apply Z.div_lt_upper_bound; lia]).
  pose proof (Z.div_mod (va / 4096) 1024). pose proof (Z.div_mod (va' / 4096) 1024). lia.
Qed.

Section spec.
Context {F : Type} `{FrameAllocator F}.
Implicit Types s : vmm F.

(** The directory entry [d] of the running address space, and the table it names. *)
Definition pd s (d : Z) : Z := pload (phys s) (cr3 s + 4 * d).
Definition table_of s (d : Z) : Z := Z.land (pd s d) PDE_FRAME.
Definition present s (d : Z) : bool := Z.testbit (pd s d) 0.

(** What the running address space maps a page to: a frame and flags. *)
Definition entry s (va : Z) : option (Z * Z) :=
  match walk (phys s) (cr3 s) va with
  | Some (_, pte) => Some (Z.land pte PTE_FRAME, Z.land pte PTE_FLAGS)
  | None => None
  end.

Record vm_ok s : Prop := {
  vo_paging : paging_enabled s = true;
  vo_cr3 : 0 <= cr3 s < 2 ^ 32 /\ cr3 s mod 4096 = 0;
  vo_words a v : phys s !! a = Some v -> 0 <= v < 2 ^ 32;
  vo_self : table_of s 1023 = cr3 s /\ present s 1023 = true /\ Z.testbit (pd s 1023) 1 = true;
  vo_wf : fa_wf (frames s);
  vo_cr3_used : fa_frame (frames s) (cr3 s) <> Free;
  vo_writable d : 0 <= d < 1023 -> present s d = true -> Z.testbit (pd s d) 1 = true;
  vo_table d : 0 <= d < 1023 -> present s d = true ->
    table_of s d <> cr3 s /\ fa_frame (frames s) (table_of s d) <> Free;
  vo_distinct d d' : 0 <= d < 1023 -> 0 <= d' < 1023 -> present s d = true -> present s d' = true ->
    table_of s d = table_of s d' -> d = d'
}.

Lemma pload_range s a : vm_ok s -> 0 <= pload (phys s) a < 2 ^ 32.
Proof.
  intros Hok. unfold pload. destruct (phys s !! a) eqn:Ea; cbn; [by eapply vo_words|lia].
Qed.

Lemma table_range s d : vm_ok s -> 0 <= table_of s d < 2 ^ 32 /\ table_of s d mod 4096 = 0.
Proof. intros Hok. apply (land_frame_range (pd s d)). by apply pload_range. Qed.

Lemma entry_at s va : 0 <= cr3 s < 2 ^ 32 -> cr3 s mod 4096 = 0 ->
  let d := PAGE_DIRECTORY_INDEX va in
  let pte := pload (phys s) (table_of s d + 4 * PAGE_TABLE_INDEX va) in
  walk (phys s) (cr3 s) va = (if present s d then if Z.testbit pte 0 then Some (pd s d, pte) else None else None) /\
  entry s va = (if present s d
                then if Z.testbit pte 0 then Some (Z.land pte PTE_FRAME, Z.land pte PTE_FLAGS) else None else None).
Proof.
  intros Hr Hm d pte. unfold entry.
  assert (walk (phys s) (cr3 s) va = (if present s d then if Z.testbit pte 0 then Some (pd s d, pte) else None else None)) as ->.
  { unfold walk. change PDE_FRAME with PTE_FRAME. rewrite (land_frame (cr3 s)), Hm, Z.sub_0_r by done.
    change PDE_PRESENT with 1. change PTE_PRESENT with 1. by rewrite !nz_bit0. }
  split; [done|]. destruct (present s d); [|done]. by destruct (Z.testbit pte 0).
Qed.

Lemma walk_eq s va : vm_ok s -> walk (phys s) (cr3 s) va =
  let d := PAGE_DIRECTORY_INDEX va in
  if present s d then
    let pte := pload (phys s) (table_of s d + 4 * PAGE_TABLE_INDEX va) in
    if Z.testbit pte 0 then Some (pd s d, pte) else None
  else None.
Proof. intros Hok. destruct (vo_cr3 s Hok) as [Hr Hm]. by apply entry_at. Qed.

Lemma entry_eq s va : vm_ok s -> entry s va =
  let d := PAGE_DIRECTORY_INDEX va in
  if present s d then
    let pte := pload (phys s) (table_of s d + 4 * PAGE_TABLE_INDEX va) in
    if Z.testbit pte 0 then Some (Z.land pte PTE_FRAME, Z.land pte PTE_FLAGS) else None
  else None.
Proof. intros Hok. destruct (vo_cr3 s Hok) as [Hr Hm]. by apply entry_at. Qed.

(** ** The recursive window *)
Lemma window_index d t : 0 <= d < 1024 -> 0 <= t < 1024 ->
  let va := get_pagetable d + 4 * t in
  PAGE_DIRECTORY_INDEX va = 1023 /\ PAGE_TABLE_INDEX va = d /\ Z.land va 0xFFF = 4 * t.
Proof.
  intros Hd Ht va. unfold va, get_pagetable, PAGE_SIZE. rewrite dir_index_eq, table_index_eq.
  replace (0xFFC00000 + d * 4096 + 4 * t) with (4 * t + (0xFFC00 + d) * 4096) by lia.
  assert ((4 * t + (0xFFC00 + d) * 4096) / 2 ^ 12 = 0xFFC00 + d) as Hq.
  { rewrite Z.div_add by lia. rewrite Z.div_small by lia. lia. }
  split; [|split].
  - change (2 ^ 22) with (2 ^ 12 * 1024). rewrite <- Z.div_div, Hq by lia.
    replace (0xFFC00 + d) with (d + 1023 * 1024) by lia. rewrite Z.div_add, Z.div_small by lia. done.
  - rewrite Hq. replace (0xFFC00 + d) with (d + 1023 * 1024) by lia. rewrite Z.mod_add, Z.mod_small by lia. done.
  - change 0xFFF with (2 ^ 12 - 1). rewrite land_ones_mod by lia. change (2 ^ 12) with 4096.
    rewrite Z.mod_add, Z.mod_small by lia. done.
Qed.

Lemma window_walk s d t : vm_ok s -> 0 <= d < 1024 -> 0 <= t < 1024 -> present s d = true ->
  walk (phys s) (cr3 s) (get_pagetable d + 4 * t) = Some (pd s 1023, pd s d) /\
  phys_of (pd s d) (get_pagetable d + 4 * t) = table_of s d + 4 * t.
Proof.
  intros Hok Hd Ht Hp. destruct (window_index d t Hd Ht) as (H1 & H2 & H3).
  destruct (vo_self s Hok) as (Hs & Hsp & _). rewrite walk_eq by done. cbv zeta. rewrite H1, H2, Hsp, Hs.
  fold (pd s d). unfold present in Hp. rewrite Hp. split; [done|]. unfold phys_of. by rewrite H3.
Qed.

Lemma vload_window s d t : vm_ok s -> 0 <= d < 1024 -> 0 <= t < 1024 -> present s d = true ->
  vload s (get_pagetable d + 4 * t) = Ret (pload (phys s) (table_of s d + 4 * t)).
Proof.
  intros Hok Hd Ht Hp. destruct (window_walk s d t Hok Hd Ht Hp) as [Hw Ha].
  unfold vload. by rewrite (vo_paging s Hok), Hw, Ha.
Qed.

Lemma vstore_window s d t v : vm_ok s -> 0 <= d < 1024 -> 0 <= t < 1024 -> present s d = true ->
  vstore s (get_pagetable d + 4 * t) v = Ret (with_phys s (pstore (phys s) (table_of s d + 4 * t) v)).
Proof.
  intros Hok Hd Ht Hp. destruct (window_walk s d t Hok Hd Ht Hp) as [Hw Ha].
  unfold vstore. rewrite (vo_paging s Hok), Hw, Ha. change PDE_WRITABLE with 2. change VMM_PAGE_WRITABLE with 2.
  rewrite !nz_bit1. destruct (vo_self s Hok) as (_ & _ & ->).
  assert (Z.testbit (pd s d) 1 = true) as ->; [|done].
  destruct (Z.eq_dec d 1023) as [->|]; [apply (vo_self s Hok)|apply (vo_writable s Hok); [lia|done]].
Qed.

(** The directory is its own table 1023. *)
Lemma vload_dir s d : vm_ok s -> 0 <= d < 1024 -> vload s (current_pagedir + 4 * d) = Ret (pd s d).
Proof.
  intros Hok Hd. pose proof (vload_window s 1023 d Hok ltac:(lia) Hd) as Hv.
  destruct (vo_self s Hok) as (Hs & Hp & _). rewrite Hs in Hv. by apply Hv.
Qed.

Lemma vstore_dir s d v : vm_ok s -> 0 <= d < 1024 ->
  vstore s (current_pagedir + 4 * d) v = Ret (with_phys s (pstore (phys s) (cr3 s + 4 * d) v)).
Proof.
  intros Hok Hd. pose proof (vstore_window s 1023 d v Hok ltac:(lia) Hd) as Hv.
  destruct (vo_self s Hok) as (Hs & Hp & _). rewrite Hs in Hv. by apply Hv.
Qed.

(** ** Writing one table entry *)
Definition set_pte s (d t v : Z) : vmm F := with_phys s (pstore (phys s) (table_of s d + 4 * t) v).

Lemma set_pte_pd s d t v x : vm_ok s -> 0 <= d < 1023 -> 0 <= t < 1024 -> present s d = true -> 0 <= x < 1024 ->
  pd (set_pte s d t v) x = pd s x.
Proof.
  intros Hok Hd Ht Hp Hx. unfold pd, set_pte. cbn [phys cr3 with_phys]. rewrite pload_pstore.
  rewrite (proj2 (Z.eqb_neq _ _)); [done|]. intros Ea. destruct (vo_table s Hok d Hd Hp) as [Hne _].
  apply Hne. symmetry. destruct (table_range s d Hok) as [_ Hm]. destruct (vo_cr3 s Hok) as [_ Hcm].
  by apply (page_words_apart _ _ _ _ Hcm Hm Hx Ht) in Ea as [? _].
Qed.

Lemma set_pte_ok s d t v : vm_ok s -> 0 <= d < 1023 -> 0 <= t < 1024 -> present s d = true ->
  vm_ok (set_pte s d t v).
Proof.
  intros Hok Hd Ht Hp. pose proof (fun x => set_pte_pd s d t v x Hok Hd Ht Hp) as Hpd.
  unfold table_of, present in *.
  split; unfold table_of, present; cbn [set_pte with_phys paging_enabled cr3 phys frames].
  - apply Hok.
  - apply Hok.
  - intros a w Ha. unfold pstore in Ha. destruct (Z.eq_dec a (table_of s d + 4 * t)) as [->|].
    + rewrite lookup_insert_eq in Ha. injection Ha as <-. apply u32_range.
    + rewrite lookup_insert_ne in Ha by congruence. by eapply vo_words.
  - rewrite Hpd by lia. apply Hok.
  - apply Hok.
  - apply Hok.
  - intros x Hx Hpx. rewrite Hpd in * by lia. by apply (vo_writable s Hok).
  - intros x Hx Hpx. rewrite Hpd in * by lia. by apply (vo_table s Hok).
  - intros x y Hx Hy Hpx Hpy. rewrite !Hpd in * by lia. by apply (vo_distinct s Hok).
Qed.

Lemma set_pte_entry s d t v va : vm_ok s -> 0 <= d < 1023 -> 0 <= t < 1024 -> present s d = true ->
  PAGE_DIRECTORY_INDEX va < 1023 -> 0 <= v < 2 ^ 32 ->
  entry (set_pte s d t v) va =
  if (PAGE_DIRECTORY_INDEX va =? d) && (PAGE_TABLE_INDEX va =? t)
  then (if Z.testbit v 0 then Some (Z.land v PTE_FRAME, Z.land v PTE_FLAGS) else None)
  else entry s va.
Proof.
  intros Hok Hd Ht Hp Hva Hv. pose proof (set_pte_ok s d t v Hok Hd Ht Hp) as Hok'.
  pose proof (dir_index_range va) as Hdr. pose proof (table_index_range va) as Htr.
  rewrite !entry_eq by done. cbv zeta. unfold present, table_of.
  rewrite set_pte_pd by (done || lia). fold (present s (PAGE_DIRECTORY_INDEX va)) (table_of s (PAGE_DIRECTORY_INDEX va)).
  unfold set_pte. cbn [phys with_phys]. rewrite pload_pstore.
  destruct (present s (PAGE_DIRECTORY_INDEX va)) eqn:Epr; cycle 1.
  { destruct (PAGE_DIRECTORY_INDEX va =? d) eqn:Ed; breflect; [congruence|done]. }
  destruct (table_range s d Hok) as [_ Hm]. destruct (table_range s (PAGE_DIRECTORY_INDEX va) Hok) as [_ Hm'].
  destruct ((PAGE_DIRECTORY_INDEX va =? d) && (PAGE_TABLE_INDEX va =? t)) eqn:Eb; breflect.
  - subst d t. rewrite Z.eqb_refl, u32_small by done. done.
  - rewrite (proj2 (Z.eqb_neq _ _)); [done|]. intros Ea.
    apply (page_words_apart _ _ _ _ Hm' Hm Htr Ht) in Ea as [Et Ei].
    apply (vo_distinct s Hok) in Et; [|lia|lia|done|done]. breflect_cases; congruence.
Qed.

(** A frame that holds no part of the running address space's tables. *)
Definition data_frame s (f : Z) : Prop :=
  f mod 4096 = 0 /\ f <> cr3 s /\ forall d, 0 <= d < 1023 -> present s d = true -> table_of s d <> f.

(** Frames with data that are in use stay so and keep their contents. *)
Definition keeps_data s s' : Prop := forall f, data_frame s f -> fa_frame (frames s) f <> Free ->
  data_frame s' f /\ forall i, 0 <= i < 1024 -> pload (phys s') (f + 4 * i) = pload (phys s) (f + 4 * i).

Lemma set_pte_keeps s d t v : vm_ok s -> 0 <= d < 1023 -> 0 <= t < 1024 -> present s d = true ->
  keeps_data s (set_pte s d t v).
Proof.
  intros Hok Hd Ht Hp f (Hm & Hc & Htb) _. split.
  - split; [done|]. split; [done|]. intros x Hx Hpx. unfold present, table_of in *. rewrite set_pte_pd in * by (done || lia).
    by apply Htb.
  - intros i Hi. unfold set_pte. cbn [phys with_phys]. rewrite pload_pstore, (proj2 (Z.eqb_neq _ _)); [done|].
    intros E. apply (page_words_apart _ _ _ _ Hm (proj2 (table_range s d Hok)) Hi Ht) in E as [E _]. by apply (Htb d).
Qed.

(** ** Single pages *)
Lemma lookup_page s va : vm_ok s ->
  va_info_ex s va = Ret (match walk (phys s) (cr3 s) va with
    | Some (pde, pte) => mkInfoEx pde pte (Z.land pte PTE_FRAME) (Z.land pte PTE_FLAGS)
    | None => mkInfoEx (if present s (PAGE_DIRECTORY_INDEX va) then pd s (PAGE_DIRECTORY_INDEX va) else 0) 0 0 0
    end).
Proof.
  intros Hok. pose proof (dir_index_range va) as Hd. pose proof (table_index_range va) as Ht.
  unfold va_info_ex, va_info. rewrite (vo_paging s Hok). cbn [c_assert mbind outcome_bind].
  rewrite vload_dir by (done || lia). cbn [mbind outcome_bind]. change PDE_PRESENT with 1. rewrite nz_bit0.
  rewrite walk_eq by done. cbv zeta. fold (present s (PAGE_DIRECTORY_INDEX va)).
  destruct (present s (PAGE_DIRECTORY_INDEX va)) eqn:Ep; [|done].
  rewrite vload_window by (done || lia). cbn [mbind outcome_bind]. change PTE_PRESENT with 1. rewrite nz_bit0.
  by destruct (Z.testbit _ 0).
Qed.

Lemma get_physical_eq s va : vm_ok s -> va mod 4096 = 0 ->
  vmm_get_physical s va = Ret (from_option fst 0 (entry s va)) /\
  vmm_get_flags s va = Ret (from_option snd 0 (entry s va)).
Proof.
  intros Hok Ha. unfold vmm_get_physical, vmm_get_flags, IS_ALIGNED, PAGE_SIZE. rewrite Ha.
  cbn [Z.eqb c_assert mbind outcome_bind]. rewrite lookup_page by done. cbn [mbind outcome_bind]. unfold entry.
  by destruct (walk _ _ va) as [[pde pte]|].
Qed.

Lemma unmap_ok s va f fl : vm_ok s -> va mod 4096 = 0 -> PAGE_DIRECTORY_INDEX va < 1023 ->
  entry s va = Some (f, fl) ->
  exists s', vmm_unmap s va = Ret s' /\ vm_ok s' /\ frames s' = frames s /\ cr3 s' = cr3 s /\
    transient_maps s' = transient_maps s /\ keeps_data s s' /\
    forall va', PAGE_DIRECTORY_INDEX va' < 1023 -> entry s' va' =
      if (PAGE_DIRECTORY_INDEX va' =? PAGE_DIRECTORY_INDEX va) && (PAGE_TABLE_INDEX va' =? PAGE_TABLE_INDEX va)
      then None else entry s va'.
Proof.
  intros Hok Ha Hd He. pose proof (dir_index_range va) as Hdr. pose proof (table_index_range va) as Htr.
  unfold vmm_unmap, va_info, IS_ALIGNED, PAGE_SIZE. rewrite (vo_paging s Hok), Ha.
  cbn [Z.eqb c_assert mbind outcome_bind]. rewrite vload_dir by (done || lia). cbn [mbind outcome_bind].
  change PDE_PRESENT with 1. change PTE_PRESENT with 1. rewrite nz_bit0.
  rewrite entry_eq in He by done. cbv zeta in He. fold (present s (PAGE_DIRECTORY_INDEX va)).
  destruct (present s (PAGE_DIRECTORY_INDEX va)) eqn:Ep; [|done]. cbn [c_assert mbind outcome_bind].
  rewrite vload_window by (done || lia). cbn [mbind outcome_bind]. rewrite nz_bit0.
  set (pte := pload _ _) in *. destruct (Z.testbit pte 0) eqn:Et; [|done]. cbn [c_assert mbind outcome_bind].
  rewrite vstore_window by (done || lia). fold (set_pte s (PAGE_DIRECTORY_INDEX va) (PAGE_TABLE_INDEX va) (Z.land pte (u32 (Z.lnot 1)))).
  eexists. split; [done|]. split; [apply set_pte_ok; (done || lia)|]. split; [done|]. split; [done|]. split; [done|].
  split; [apply set_pte_keeps; (done || lia)|].
  intros va' Hva'. rewrite set_pte_entry by (done || lia || (apply (land_range 32); [lia|by apply pload_range])).
  rewrite Z.land_spec. change (Z.testbit (u32 (Z.lnot 1)) 0) with false. by rewrite andb_false_r.
Qed.

Lemma remap_ok s va f fl flags : vm_ok s -> va mod 4096 = 0 -> PAGE_DIRECTORY_INDEX va < 1023 ->
  entry s va = Some (f, fl) -> 0 <= flags < 4096 -> Z.testbit flags 0 = true ->
  exists s', vmm_remap s va flags = Ret s' /\ vm_ok s' /\ frames s' = frames s /\ cr3 s' = cr3 s /\ keeps_data s s' /\
    forall va', PAGE_DIRECTORY_INDEX va' < 1023 -> entry s' va' =
      if (PAGE_DIRECTORY_INDEX va' =? PAGE_DIRECTORY_INDEX va) && (PAGE_TABLE_INDEX va' =? PAGE_TABLE_INDEX va)
      then Some (f, flags) else entry s va'.
Proof.
  intros Hok Ha Hd He Hfl Hfp. pose proof (dir_index_range va) as Hdr. pose proof (table_index_range va) as Htr.
  unfold vmm_remap, va_info, IS_ALIGNED, PAGE_SIZE. rewrite (vo_paging s Hok), Ha.
  change VMM_PAGE_PRESENT with 1. rewrite nz_bit0, Hfp.
  cbn [Z.eqb c_assert mbind outcome_bind]. rewrite vload_dir by (done || lia). cbn [mbind outcome_bind].
  change PDE_PRESENT with 1. change PTE_PRESENT with 1. rewrite nz_bit0.
  rewrite entry_eq in He by done. cbv zeta in He. fold (present s (PAGE_DIRECTORY_INDEX va)).
  destruct (present s (PAGE_DIRECTORY_INDEX va)) eqn:Ep; [|done]. cbn [c_assert mbind outcome_bind].
  rewrite vload_window by (done || lia). cbn [mbind outcome_bind]. rewrite nz_bit0.
  pose proof (pload_range s (table_of s (PAGE_DIRECTORY_INDEX va) + 4 * PAGE_TABLE_INDEX va) Hok) as Hpr.
  set (pte := pload _ _) in *. destruct (Z.testbit pte 0) eqn:Et; [|done]. cbn [c_assert mbind outcome_bind].
  injection He as Hf _. rewrite Hf. destruct (land_frame_range pte Hpr) as [Hfr Hfm]. rewrite Hf in Hfr, Hfm.
  destruct (entry_parts f flags Hfm Hfr Hfl) as (Hlor & Hr & Hlf & Hlg). rewrite Hlor.
  rewrite vstore_window by (done || lia). fold (set_pte s (PAGE_DIRECTORY_INDEX va) (PAGE_TABLE_INDEX va) (f + flags)).
  eexists. split; [done|]. split; [apply set_pte_ok; (done || lia)|]. split; [done|]. split; [done|].
  split; [apply set_pte_keeps; (done || lia)|].
  intros va' Hva'. rewrite set_pte_entry by (done || lia). rewrite <- Hlor at 1.
  rewrite Z.lor_spec, Hfp, orb_true_r, Hlf, Hlg. done.
Qed.

(** ** A new page table *)
Fixpoint zero_range (n : nat) (p : pmem) (a : Z) : pmem :=
  match n with
  | O => p
  | S n => zero_range n (pstore p a 0) (a + 4)
  end.

Lemma pload_zero_out n : forall p a b, (forall i, 0 <= i < Z.of_nat n -> b <> a + 4 * i) ->
  pload (zero_range n p a) b = pload p b.
Proof.
  induction n as [|n IH]; intros p a b Hb; cbn [zero_range]; [done|].
  rewrite IH, pload_pstore.
  - rewrite (proj2 (Z.eqb_neq _ _)); [done|]. intros ->. apply (Hb 0); lia.
  - intros i Hi ->. apply (Hb (i + 1)); lia.
Qed.

Lemma pload_zero_in n : forall p a i, 0 <= i < Z.of_nat n -> pload (zero_range n p a) (a + 4 * i) = 0.
Proof.
  induction n as [|n IH]; intros p a i Hi; cbn [zero_range]; [lia|].
  destruct (Z.eq_dec i 0) as [->|].
  - rewrite pload_zero_out by (intros; lia). by rewrite Z.add_0_r, pload_pstore, Z.eqb_refl.
  - replace (a + 4 * i) with (a + 4 + 4 * (i - 1)) by lia. apply IH. lia.
Qed.

Lemma vzero_window n : forall s d t, vm_ok s -> 0 <= d < 1023 -> present s d = true ->
  0 <= t -> t + Z.of_nat n <= 1024 ->
  vzero n s (get_pagetable d + 4 * t) = Ret (with_phys s (zero_range n (phys s) (table_of s d + 4 * t))) /\
  vm_ok (with_phys s (zero_range n (phys s) (table_of s d + 4 * t))).
Proof.
  induction n as [|n IH]; intros s d t Hok Hd Hp Ht Hn; cbn [vzero zero_range].
  - by destruct s.
  - rewrite vstore_window by (done || lia). cbn [mbind outcome_bind]. fold (set_pte s d t 0).
    pose proof (set_pte_ok s d t 0 Hok Hd ltac:(lia) Hp) as Hok'.
    assert (table_of (set_pte s d t 0) d = table_of s d) as Ht'.
    { unfold table_of. rewrite set_pte_pd by (done || lia). done. }
    replace (get_pagetable d + 4 * t + 4) with (get_pagetable d + 4 * (t + 1)) by lia.
    destruct (IH (set_pte s d t 0) d (t + 1)) as [E1 E2]; [done|done| |lia|lia|].
    { unfold present. rewrite set_pte_pd by (done || lia). done. }
    rewrite Ht' in E1, E2. replace (table_of s d + 4 * (t + 1)) with (table_of s d + 4 * t + 4) in E1, E2 by lia.
    split; [exact E1|exact E2].
Qed.

(** The directory after a fresh frame was entered and its table cleared. *)
Definition new_table s (fs : F) (d f : Z) : vmm F :=
  with_phys (with_frames s fs) (zero_range 1024 (pstore (phys s) (cr3 s + 4 * d) (f + 7)) f).

Lemma new_table_spec s fs d f : vm_ok s -> 0 <= d < 1023 -> present s d = false ->
  fa_alloc (frames s) = Ret (f, fs) -> f <> INVALID_FRAME ->
  let s1 := with_phys (with_frames s fs) (pstore (phys s) (cr3 s + 4 * d) (f + 7)) in
  vm_ok s1 /\ present s1 d = true /\ table_of s1 d = f /\
  (forall x, 0 <= x < 1024 -> x <> d -> pd s1 x = pd s x).
Proof.
  intros Hok Hd Hp Hal Hinv s1. destruct (vo_cr3 s Hok) as [Hcr Hcm].
  destruct (fa_alloc_spec _ _ _ (vo_wf s Hok) Hal) as [Hwf' Hsp].
  rewrite (proj2 (Z.eqb_neq _ _)) in Hsp by done. destruct Hsp as (Hfm & Hfree & Hfr).
  change PAGE_SIZE with 4096 in *.
  assert (0 <= f < 2 ^ 32) as Hfrange by (apply (fa_range (frames s)); [apply Hok|congruence]).
  destruct (entry_parts f 7 Hfm Hfrange ltac:(lia)) as (Hlor & Hr7 & Hland & _).
  assert (pd s1 d = f + 7) as Hpd.
  { unfold pd, s1. cbn [phys cr3 with_phys with_frames]. rewrite pload_pstore, Z.eqb_refl. by apply u32_small. }
  assert (forall x, 0 <= x < 1024 -> x <> d -> pd s1 x = pd s x) as Hother.
  { intros x Hx Hne. unfold pd, s1. cbn [phys cr3 with_phys with_frames]. rewrite pload_pstore.
    by rewrite (proj2 (Z.eqb_neq _ _)) by lia. }
  assert (Z.testbit (f + 7) 0 = true /\ Z.testbit (f + 7) 1 = true) as [Hb0 Hb1].
  { rewrite <- Hlor, !Z.lor_spec. split; apply orb_true_r. }
  assert (table_of s1 d = f) as Htf by (unfold table_of; by rewrite Hpd).
  assert (forall x, 0 <= x < 1024 -> x <> d -> table_of s1 x = table_of s x /\ present s1 x = present s x) as Htx.
  { intros x Hx Hne. unfold table_of, present. by rewrite Hother. }
  assert (f <> cr3 s) as Hfc by (intros ->; by apply (vo_cr3_used s Hok)).
  assert (forall q, q mod 4096 = 0 -> fa_frame fs q = Free -> fa_frame (frames s) q = Free) as Hkeep.
  { intros q Hq Hqf. rewrite Hfr in Hqf by done. by destruct (q =? f). }
  split; [|split; [unfold present; by rewrite Hpd|split; [done|done]]].
  split; cbn [s1 with_phys with_frames paging_enabled cr3 phys frames].
  - apply Hok.
  - done.
  - intros a v Ha. unfold pstore in Ha. destruct (Z.eq_dec a (cr3 s + 4 * d)) as [->|].
    + rewrite lookup_insert_eq in Ha. injection Ha as <-. apply u32_range.
    + rewrite lookup_insert_ne in Ha by congruence. by eapply vo_words.
  - destruct (Htx 1023) as [-> ->]; [lia|lia|]. rewrite Hother by lia. apply (vo_self s Hok).
  - done.
  - intros Hc. by apply (vo_cr3_used s Hok), Hkeep.
  - intros x Hx Hpx. destruct (Z.eq_dec x d) as [->|Hne]; [by rewrite Hpd|].
    rewrite Hother by lia. apply (vo_writable s Hok); [done|]. by destruct (Htx x) as [_ <-]; [lia| |].
  - intros x Hx Hpx. destruct (Z.eq_dec x d) as [->|Hne].
    + rewrite Htf. split; [done|]. rewrite Hfr, Z.eqb_refl by done. done.
    + destruct (Htx x) as [Ht1 Hp1]; [lia|done|]. rewrite Ht1. rewrite Hp1 in Hpx.
      destruct (vo_table s Hok x Hx Hpx) as [H1 H2]. split; [done|]. intros Hc. apply H2, Hkeep; [|done].
      by apply table_range.
  - intros x y Hx Hy Hpx Hpy Het.
    assert (forall z, 0 <= z < 1023 -> z <> d -> present s1 z = true -> table_of s1 z <> f) as Hnf.
    { intros z Hz Hne Hpz. destruct (Htx z) as [Ht1 Hp1]; [lia|done|]. rewrite Ht1. rewrite Hp1 in Hpz.
      destruct (vo_table s Hok z Hz Hpz) as [_ H2]. congruence. }
    destruct (Z.eq_dec x d) as [->|Hnx], (Z.eq_dec y d) as [->|Hny]; [done| | |].
    + destruct (Hnf y Hy Hny Hpy). by rewrite <- Het.
    + destruct (Hnf x Hx Hnx Hpx). by rewrite Het.
    + destruct (Htx x) as [Ht1 Hp1]; [lia|done|]. destruct (Htx y) as [Ht2 Hp2]; [lia|done|].
      rewrite Ht1, Ht2 in Het. rewrite Hp1 in Hpx. rewrite Hp2 in Hpy. by apply (vo_distinct s Hok).
Qed.

Lemma new_table_ok s fs d f : vm_ok s -> 0 <= d < 1023 -> present s d = false ->
  fa_alloc (frames s) = Ret (f, fs) -> f <> INVALID_FRAME ->
  vm_ok (new_table s fs d f) /\ present (new_table s fs d f) d = true /\ table_of (new_table s fs d f) d = f /\
  (forall x, 0 <= x < 1024 -> x <> d -> pd (new_table s fs d f) x = pd s x) /\
  keeps_data s (new_table s fs d f) /\
  (forall va, PAGE_DIRECTORY_INDEX va < 1023 -> entry (new_table s fs d f) va = entry s va).
Proof.
  intros Hok Hd Hp Hal Hinv. destruct (new_table_spec s fs d f Hok Hd Hp Hal Hinv) as (Hok1 & Hp1 & Ht1 & Hpd1).
  set (s1 := with_phys (with_frames s fs) (pstore (phys s) (cr3 s + 4 * d) (f + 7))) in *.
  destruct (vzero_window 1024 s1 d 0 Hok1 Hd Hp1 ltac:(lia) ltac:(lia)) as [_ Hok2].
  rewrite Ht1, Z.mul_0_r, Z.add_0_r in Hok2. fold (new_table s fs d f) in Hok2.
  change (with_phys s1 (zero_range 1024 (phys s1) f)) with (new_table s fs d f) in Hok2.
  destruct (vo_cr3 s Hok) as [_ Hcm]. destruct (table_range s1 d Hok1) as [_ Hfm]. rewrite Ht1 in Hfm.
  assert (f <> cr3 s) as Hfc.
  { destruct (vo_table s1 Hok1 d Hd Hp1) as [Hne _]. by rewrite Ht1 in Hne. }
  assert (forall x, 0 <= x < 1024 -> pd (new_table s fs d f) x = pd s1 x) as Hpd2.
  { intros x Hx. unfold pd, new_table. cbn [phys cr3 with_phys with_frames]. rewrite pload_zero_out; [done|].
    intros i Hi Ea. apply Hfc. symmetry. by apply (page_words_apart _ _ x i Hcm Hfm) in Ea as [? _]; [|lia|lia]. }
  split; [done|]. split; [unfold present; rewrite Hpd2 by lia; done|].
  split; [unfold table_of; rewrite Hpd2 by lia; done|].
  split; [intros x Hx Hne; rewrite Hpd2 by lia; by apply Hpd1|]. split.
  { intros g (Hgm & Hgc & Hgt) Hgf. assert (g <> f) as Hgne.
    { intros ->. destruct (fa_alloc_spec _ _ _ (vo_wf s Hok) Hal) as [_ Hsp].
      rewrite (proj2 (Z.eqb_neq _ _)) in Hsp by done. by destruct Hsp as (_ & ? & _). }
    split.
    - split; [done|]. split; [done|]. intros x Hx Hpx. unfold present, table_of in *. rewrite Hpd2 in * by lia.
      destruct (Z.eq_dec x d) as [->|Hne]; [congruence|].
      rewrite Hpd1 in * by lia. by apply Hgt.
    - intros i Hi. unfold new_table. cbn [phys with_phys]. rewrite pload_zero_out, pload_pstore.
      + rewrite (proj2 (Z.eqb_neq _ _)); [done|]. intros Ea.
        by apply (page_words_apart _ _ _ _ Hgm Hcm Hi) in Ea as [Ea _]; [|lia].
      + intros j Hj Ea. by apply (page_words_apart _ _ _ _ Hgm Hfm Hi) in Ea as [Ea _]; [|lia]. }
  intros va Hva.
  pose proof (dir_index_range va) as Hdr. pose proof (table_index_range va) as Htr.
  rewrite !entry_eq by done. cbv zeta. unfold present, table_of. rewrite Hpd2 by lia.
  destruct (Z.eq_dec (PAGE_DIRECTORY_INDEX va) d) as [Ed|Hne].
  - rewrite Ed. fold (present s1 d) (present s d) (table_of s1 d). rewrite Hp, Hp1, Ht1.
    unfold new_table. cbn [phys with_phys]. rewrite pload_zero_in by lia. done.
  - rewrite Hpd1 by lia. fold (present s (PAGE_DIRECTORY_INDEX va)) (table_of s (PAGE_DIRECTORY_INDEX va)).
    destruct (present s (PAGE_DIRECTORY_INDEX va)) eqn:Epr; [|done].
    assert (pload (phys (new_table s fs d f)) (table_of s (PAGE_DIRECTORY_INDEX va) + 4 * PAGE_TABLE_INDEX va) =
            pload (phys s) (table_of s (PAGE_DIRECTORY_INDEX va) + 4 * PAGE_TABLE_INDEX va)) as ->; [|done].
    destruct (table_range s (PAGE_DIRECTORY_INDEX va) Hok) as [_ Hm].
    unfold new_table. cbn [phys with_phys]. rewrite pload_zero_out, pload_pstore.
    + rewrite (proj2 (Z.eqb_neq _ _)); [done|]. intros Ea.
      apply (page_words_apart _ _ _ _ Hm Hcm) in Ea as [Ea _]; [|done|lia].
      by destruct (vo_table s Hok (PAGE_DIRECTORY_INDEX va)) as [Hq _]; [lia|done|].
    + intros i Hi Ea. apply (page_words_apart _ _ _ _ Hm Hfm) in Ea as [Ea _]; [|done|lia].
      assert (present s1 (PAGE_DIRECTORY_INDEX va) = true) as Hpv.
      { unfold present. rewrite Hpd1 by lia. done. }
      apply Hne. apply (vo_distinct s1 Hok1); [lia|done|done|done|]. unfold table_of at 1. rewrite Hpd1 by lia.
      fold (table_of s (PAGE_DIRECTORY_INDEX va)). congruence.
Qed.

(** ** Mapping a page *)
Lemma map_ok s va pa flags : vm_ok s -> va mod 4096 = 0 -> PAGE_DIRECTORY_INDEX va < 1023 ->
  pa mod 4096 = 0 -> 0 <= pa < 2 ^ 32 -> 0 <= flags < 4096 -> Z.testbit flags 0 = true ->
  (entry s va <> None -> vmm_map s va pa flags = Fault FPanic) /\
  (entry s va = None -> (present s (PAGE_DIRECTORY_INDEX va) = true \/
       exists f fs, fa_alloc (frames s) = Ret (f, fs) /\ f <> INVALID_FRAME) ->
   exists s', vmm_map s va pa flags = Ret s' /\ vm_ok s' /\ cr3 s' = cr3 s /\
     transient_maps s' = transient_maps s /\
     (frames s' = frames s \/ exists f, fa_alloc (frames s) = Ret (f, frames s') /\ f <> INVALID_FRAME) /\
     (forall d, 0 <= d < 1023 -> present s' d = true ->
        (present s d = true /\ table_of s' d = table_of s d) \/ fa_frame (frames s) (table_of s' d) = Free) /\
     keeps_data s s' /\
     forall va', PAGE_DIRECTORY_INDEX va' < 1023 -> entry s' va' =
       if (PAGE_DIRECTORY_INDEX va' =? PAGE_DIRECTORY_INDEX va) && (PAGE_TABLE_INDEX va' =? PAGE_TABLE_INDEX va)
       then Some (pa, flags) else entry s va').
Proof.
  intros Hok Ha Hd Hpm Hpr Hfl Hfp. pose proof (dir_index_range va) as Hdr. pose proof (table_index_range va) as Htr.
  unfold vmm_map, va_info, IS_ALIGNED, PAGE_SIZE. rewrite (vo_paging s Hok), Ha, Hpm.
  change VMM_PAGE_PRESENT with 1. rewrite nz_bit0, Hfp. cbn [Z.eqb c_assert mbind outcome_bind].
  rewrite vload_dir by (done || lia). cbn [mbind outcome_bind].
  change PDE_PRESENT with 1. change PTE_PRESENT with 1. rewrite nz_bit0. fold (present s (PAGE_DIRECTORY_INDEX va)).
  rewrite (land_frame pa), Hpm, Z.sub_0_r by done.
  destruct (entry_parts pa flags Hpm Hpr Hfl) as (Hlor & Hr & Hlf & Hlg). rewrite Hlor.
  assert (Z.testbit (pa + flags) 0 = true) as Hb0 by (rewrite <- Hlor, Z.lor_spec, Hfp; apply orb_true_r).
  rewrite (entry_eq s va) by done. cbv zeta.
  destruct (present s (PAGE_DIRECTORY_INDEX va)) eqn:Ep; cbn [negb].
  - rewrite vload_window by (done || lia). cbn [mbind outcome_bind]. rewrite nz_bit0. split.
    { intros He. by destruct (Z.testbit (pload _ _) 0). }
    intros He _. destruct (Z.testbit (pload _ _) 0) eqn:Et; [done|].
    rewrite vstore_window by (done || lia). eexists. split; [done|].
    fold (set_pte s (PAGE_DIRECTORY_INDEX va) (PAGE_TABLE_INDEX va) (pa + flags)).
    split; [apply set_pte_ok; (done || lia)|]. split; [done|]. split; [done|]. split; [by left|].
    split.
    { intros d Hdd Hpd. left. unfold present, table_of in *. by rewrite set_pte_pd in * by (done || lia). }
    split; [apply set_pte_keeps; (done || lia)|].
    intros va' Hva'. rewrite set_pte_entry by (done || lia). by rewrite Hb0, Hlf, Hlg.
  - split; [done|]. intros _ [?|(f & fs & Hal & Hinv)]; [done|].
    unfold pmm_alloc_frame. rewrite Hal. cbn [mbind outcome_bind].
    rewrite (proj2 (Z.eqb_neq f _)) by done. cbn [negb c_assert mbind outcome_bind].
    destruct (new_table_spec s fs (PAGE_DIRECTORY_INDEX va) f Hok ltac:(lia) Ep Hal Hinv) as (Hok1 & Hp1 & Ht1 & Hpd1).
    destruct (new_table_ok s fs (PAGE_DIRECTORY_INDEX va) f Hok ltac:(lia) Ep Hal Hinv) as (Hok2 & Hp2 & Ht2 & Hx2 & Hkd2 & He2).
    set (d := PAGE_DIRECTORY_INDEX va) in *. set (t := PAGE_TABLE_INDEX va) in *.
    assert (0 <= f < 2 ^ 32 /\ f mod 4096 = 0) as [Hfr Hfm].
    { rewrite <- Ht1. by apply table_range. }
    destruct (entry_parts f 7 Hfm Hfr ltac:(lia)) as (Hlor7 & _).
    assert (Z.lor (Z.lor (Z.lor f 1) PDE_USER) PDE_WRITABLE = f + 7) as ->.
    { rewrite <- Hlor7, <- !Z.lor_assoc. done. }
    assert (vstore (with_frames s fs) (current_pagedir + 4 * d) (f + 7) =
      Ret (with_phys (with_frames s fs) (pstore (phys s) (cr3 s + 4 * d) (f + 7)))) as ->.
    { pose proof (vstore_dir s d (f + 7) Hok ltac:(lia)) as Hv. unfold vstore in *.
      cbn [paging_enabled phys cr3 with_frames]. rewrite (vo_paging s Hok) in *.
      destruct (walk _ _ _) as [[? ?]|]; [|done]. destruct (_ && _); [|done]. by injection Hv as ->. }
    cbn [mbind outcome_bind]. set (s1 := with_phys (with_frames s fs) _) in *.
    rewrite vload_dir by (done || lia). cbn [mbind outcome_bind]. rewrite nz_bit0. fold (present s1 d). rewrite Hp1.
    cbn [c_assert mbind outcome_bind].
    destruct (vzero_window 1024 s1 d 0 Hok1 ltac:(lia) Hp1 ltac:(lia) ltac:(lia)) as [Ez _].
    rewrite Ht1, Z.mul_0_r, !Z.add_0_r in Ez. rewrite Ez. cbn [mbind outcome_bind].
    change (with_phys s1 (zero_range 1024 (phys s1) f)) with (new_table s fs d f).
    assert (cr3 (new_table s fs d f) = cr3 s) as Hc2 by exact eq_refl.
    assert (transient_maps (new_table s fs d f) = transient_maps s) as Htm2 by exact eq_refl.
    assert (frames (new_table s fs d f) = fs) as Hf2 by exact eq_refl.
    revert Hok2 Hp2 Ht2 Hx2 Hkd2 He2 Hc2 Htm2 Hf2. generalize (new_table s fs d f).
    intros s2 Hok2 Hp2 Ht2 Hx2 Hkd2 He2 Hc2 Htm2 Hf2.
    rewrite vstore_window by (done || lia). eexists. split; [done|]. fold (set_pte s2 d t (pa + flags)).
    split; [apply set_pte_ok; (done || lia)|]. split; [done|]. split; [done|].
    split; [right; exists f; cbn [set_pte with_phys frames]; by rewrite Hf2|].
    split.
    { intros x Hx Hpx. unfold present, table_of in *. rewrite set_pte_pd in * by (done || lia).
      destruct (Z.eq_dec x d) as [->|Hne]; [right|left; by rewrite Hx2 in * by lia].
      rewrite Ht2. destruct (fa_alloc_spec _ _ _ (vo_wf s Hok) Hal) as [_ Hsp].
      rewrite (proj2 (Z.eqb_neq _ _)) in Hsp by done. apply Hsp. }
    split.
    { intros g Hg Hgf. destruct (Hkd2 g Hg Hgf) as [Hg2 Hw2].
      assert (fa_frame (frames s2) g <> Free) as Hgf2.
      { rewrite Hf2. intros Hc. apply Hgf. destruct (fa_alloc_spec _ _ _ (vo_wf s Hok) Hal) as [_ Hsp].
        rewrite (proj2 (Z.eqb_neq _ _)) in Hsp by done. destruct Hsp as (_ & _ & Hu). rewrite Hu in Hc by apply Hg.
        by destruct (g =? f). }
      destruct (set_pte_keeps s2 d t (pa + flags) Hok2 ltac:(lia) ltac:(lia) Hp2 g Hg2 Hgf2) as [Hg3 Hw3].
      split; [done|]. intros i Hi. by rewrite Hw3, Hw2. }
    intros va' Hva'. rewrite set_pte_entry by (done || lia). by rewrite Hb0, Hlf, Hlg, He2.
Qed.
End spec.
