(* ===== verification/Mmap.v ===== *)
(** [syscall_mmap_handler] of [kernel/scheduler.c], on the page tables of [Vmm]; and the
    page tables as the environment the kernel heap grows in. *)
From S2P Require Import Prelude Util Pmm Heap Vmm.

Section mmap.
Context {F : Type} `{FrameAllocator F}.

(** The validity loop: no page of the range is mapped or outside the user area. *)
Fixpoint check_pages (n : nat) (s : vmm F) (page limit : Z) : outcome bool :=
  match n with
  | O => Fault FFuel
  | S n =>
      if page <? limit then
        va_flags ← vmm_get_flags s page;
        if nz (Z.land va_flags VMM_PAGE_PRESENT) then Ret false
        else if (page <? USER_START) || (USER_END <? page) then Ret false
        else check_pages n s (u32 (page + PAGE_SIZE)) limit
      else Ret true
  end.

(** [for(page2 = addr; page2 < page; page2 += PAGE_SIZE) vmm_unmap(page2)] *)
Fixpoint unmap_pages (n : nat) (s : vmm F) (page2 page : Z) : outcome (vmm F) :=
  match n with
  | O => Fault FFuel
  | S n =>
      if page2 <? page then s ← vmm_unmap s page2; unmap_pages n s (u32 (page2 + PAGE_SIZE)) page
      else Ret s
  end.

(** The mapping loop; [false] when the frames ran out. *)
Fixpoint map_pages (n : nat) (s : vmm F) (addr page limit vmm_flags : Z) : outcome (bool * vmm F) :=
  match n with
  | O => Fault FFuel
  | S n =>
      if page <? limit then
        '(frame, s) ← pmm_alloc_frame s;
        if frame =? INVALID_FRAME then
          s ← unmap_pages (S (Z.to_nat ((page - addr) / PAGE_SIZE))) s addr page;
          Ret (false, s)
        else
          s ← vmm_map s page frame vmm_flags;
          map_pages n s addr (u32 (page + PAGE_SIZE)) limit vmm_flags
      else Ret (true, s)
  end.

Definition mmap_flags (flags : Z) : Z :=
  let vmm_flags := Z.lor VMM_PAGE_PRESENT VMM_PAGE_USER in
  if nz (Z.land flags 0x2) then Z.lor vmm_flags VMM_PAGE_WRITABLE else vmm_flags.

Definition syscall_mmap_handler (s : vmm F) (addr size flags : Z) : outcome (Z * vmm F) :=
  if negb (IS_ALIGNED addr PAGE_SIZE) || negb (IS_ALIGNED size PAGE_SIZE) then Ret (0, s)
  else if flags =? 0 then Ret (0, s)
  else
    let vmm_flags := mmap_flags flags in
    let limit := u32 (addr + size) in
    let fuel := S (Z.to_nat (size / PAGE_SIZE)) in
    valid ← check_pages fuel s addr limit;
    if (valid : bool) then
      '(done, s) ← map_pages fuel s addr addr limit vmm_flags;
      Ret (if (done : bool) then addr else 0, s)
    else Ret (0, s).

(** The heap of the running kernel grows by mapping frames. *)
#[export] Instance vmm_page_env : PageEnv (vmm F) := {
  Heap.vmm_paging_enabled := Vmm.vmm_paging_enabled;
  env_pmm_initialized _ := true;
  env_pmm_alloc := pmm_alloc_frame;
  env_pmm_reserve s page := fs ← fa_reserve (frames s) page; Ret (with_frames s fs);
  env_vmm_map := vmm_map
}.
End mmap.
