(* ===== verification/VmmClaims.v ===== *)
(** The properties of the virtual memory manager ([kernel/vmm.c], and the mmap system call
    of [kernel/scheduler.c]). *)
From S2P Require Import Prelude Util Bitset Pmm Vmm VmmSpec Mmap.

(** Pages below the recursive window. *)
Definition managed (va : Z) : Prop := 0 <= va < 0xFFC00000.

Lemma managed_dir va : managed va -> PAGE_DIRECTORY_INDEX va < 1023.
Proof.
  unfold managed. intros Hv. rewrite dir_index_eq, Z.mod_small.
  - apply Z.div_lt_upper_bound; lia.
  - split; [apply Z.div_pos; lia|]. apply Z.div_lt_upper_bound; lia.
Qed.

Lemma page_eqb va va' : managed va -> managed va' ->
  (PAGE_DIRECTORY_INDEX va' =? PAGE_DIRECTORY_INDEX va) && (PAGE_TABLE_INDEX va' =? PAGE_TABLE_INDEX va) =
  (va' / 4096 =? va / 4096).
Proof.
  unfold managed. intros Hv Hv'. destruct (va' / 4096 =? va / 4096) eqn:E; breflect.
  - rewrite !dir_index_eq, !table_index_eq. change (2 ^ 22) with (4096 * 1024). change (2 ^ 12) with 4096.
    rewrite <- !Z.div_div, E by lia. by rewrite !Z.eqb_refl.
  - destruct (_ && _) eqn:Eb; [|done]. breflect. destruct E. apply same_page; lia || done.
Qed.

(** The checks in front of the operations. *)
Section checks.
Context {F : Type} `{FrameAllocator F}.
Implicit Types s : vmm F.

(** The address is not page aligned, for the operations that take one. *)
Lemma unaligned_faults s va pa flags : va mod 4096 <> 0 ->
  vmm_map s va pa flags = Fault FAssert /\ vmm_remap s va flags = Fault FAssert /\
  vmm_unmap s va = Fault FAssert /\ vmm_get_physical s va = Fault FAssert /\
  vmm_get_flags s va = Fault FAssert.
Proof.
  intros Hva. unfold vmm_map, vmm_remap, vmm_unmap, vmm_get_physical, vmm_get_flags, IS_ALIGNED, PAGE_SIZE.
  rewrite (proj2 (Z.eqb_neq (va mod 4096) 0)) by done.
  destruct (paging_enabled s), (nz (Z.land flags VMM_PAGE_PRESENT)); by split_and!.
Qed.

Lemma bad_map_faults s va pa flags : pa mod 4096 <> 0 \/ Z.testbit flags 0 = false ->
  vmm_map s va pa flags = Fault FAssert.
Proof.
  intros Hb. unfold vmm_map, IS_ALIGNED, PAGE_SIZE. change VMM_PAGE_PRESENT with 1. rewrite nz_bit0.
  destruct (paging_enabled s); cbn [c_assert mbind outcome_bind]; [|done].
  destruct (Z.testbit flags 0); cbn [c_assert mbind outcome_bind]; [|done].
  destruct (va mod 4096 =? 0); cbn [c_assert mbind outcome_bind]; [|done].
  destruct Hb as [Hb|?]; [|done].
  rewrite (proj2 (Z.eqb_neq (pa mod 4096) 0)) by done. reflexivity.
Qed.

Lemma bad_remap_faults s va flags : Z.testbit flags 0 = false -> vmm_remap s va flags = Fault FAssert.
Proof.
  intros Hb. unfold vmm_remap, IS_ALIGNED, PAGE_SIZE. change VMM_PAGE_PRESENT with 1. rewrite nz_bit0, Hb.
  by destruct (paging_enabled s), (va mod 4096 =? 0).
Qed.

(** The page is not mapped. *)
Lemma unmapped_faults s va flags : vm_ok s -> va mod 4096 = 0 -> PAGE_DIRECTORY_INDEX va < 1023 ->
  Z.testbit flags 0 = true -> entry s va = None ->
  vmm_remap s va flags = Fault FAssert /\ vmm_unmap s va = Fault FAssert.
Proof.
  intros Hok Ha Hd Hfp He. pose proof (dir_index_range va) as Hdr. pose proof (table_index_range va) as Htr.
  unfold vmm_remap, vmm_unmap, va_info, IS_ALIGNED, PAGE_SIZE. rewrite (vo_paging s Hok), Ha.
  change VMM_PAGE_PRESENT with 1. rewrite nz_bit0, Hfp.
  cbn [Z.eqb c_assert mbind outcome_bind]. rewrite vload_dir by (done || lia). cbn [mbind outcome_bind].
  change PDE_PRESENT with 1. change PTE_PRESENT with 1. rewrite nz_bit0.
  rewrite entry_eq in He by done. cbv zeta in He. fold (present s (PAGE_DIRECTORY_INDEX va)).
  destruct (present s (PAGE_DIRECTORY_INDEX va)) eqn:Ep; [|done]. cbn [c_assert mbind outcome_bind].
  rewrite vload_window by (done || lia). cbn [mbind outcome_bind]. rewrite nz_bit0.
  by destruct (Z.testbit (pload _ _) 0).
Qed.

(** There is no page table and no frame for one. *)
Lemma map_no_frame s va pa flags : vm_ok s -> va mod 4096 = 0 -> PAGE_DIRECTORY_INDEX va < 1023 ->
  pa mod 4096 = 0 -> Z.testbit flags 0 = true -> present s (PAGE_DIRECTORY_INDEX va) = false ->
  (forall fs, fa_alloc (frames s) = Ret (INVALID_FRAME, fs) -> vmm_map s va pa flags = Fault FAssert) /\
  (forall f, fa_alloc (frames s) = Fault f -> vmm_map s va pa flags = Fault f).
Proof.
  intros Hok Ha Hd Hpm Hfp Ep. pose proof (dir_index_range va) as Hdr.
  unfold vmm_map, va_info, IS_ALIGNED, PAGE_SIZE. rewrite (vo_paging s Hok), Ha, Hpm.
  change VMM_PAGE_PRESENT with 1. rewrite nz_bit0, Hfp. cbn [Z.eqb c_assert mbind outcome_bind].
  rewrite vload_dir by (done || lia). cbn [mbind outcome_bind].
  change PDE_PRESENT with 1. rewrite nz_bit0. fold (present s (PAGE_DIRECTORY_INDEX va)). rewrite Ep.
  cbn [negb]. unfold pmm_alloc_frame. split; [intros fs Hal|intros f Hal]; by rewrite Hal.
Qed.
End checks.

(** C5: The page tables implement a map from pages to frames and flags, seen through the
    processor's own walk. On a well-formed address space and a page below the recursive
    window: [vmm_get_physical] and [vmm_get_flags] look the page up (0 when absent);
    [vmm_map] of a mapped page aborts, and of an unmapped page adds exactly that page when
    its page table exists or a frame for it is available, and otherwise fails an assertion
    (or with the frame allocator); [vmm_remap] changes exactly the flags of a mapped page
    and [vmm_unmap] removes exactly one page, and both fail an assertion on an unmapped one;
    all keep the address space well formed. An address or frame off the page boundary, or
    flags without the present bit, fail an assertion. *)
Theorem vmm_pages_spec {F : Type} `{FrameAllocator F} (s : vmm F) (va pa flags : Z) :
  vm_ok s -> managed va -> va mod 4096 = 0 -> pa mod 4096 = 0 -> 0 <= pa < 2 ^ 32 ->
  0 <= flags < 4096 -> Z.testbit flags 0 = true ->
  vmm_get_physical s va = Ret (from_option fst 0 (entry s va)) /\
  vmm_get_flags s va = Ret (from_option snd 0 (entry s va)) /\
  (entry s va <> None -> vmm_map s va pa flags = Fault FPanic) /\
  (entry s va = None ->
     present s (PAGE_DIRECTORY_INDEX va) = true \/
       (exists f fs, fa_alloc (frames s) = Ret (f, fs) /\ f <> INVALID_FRAME) ->
     exists s', vmm_map s va pa flags = Ret s' /\ vm_ok s' /\
       forall va', managed va' ->
         entry s' va' = if va' / 4096 =? va / 4096 then Some (pa, flags) else entry s va') /\
  (forall f fl, entry s va = Some (f, fl) ->
     (exists s', vmm_remap s va flags = Ret s' /\ vm_ok s' /\
       forall va', managed va' ->
         entry s' va' = if va' / 4096 =? va / 4096 then Some (f, flags) else entry s va') /\
     (exists s', vmm_unmap s va = Ret s' /\ vm_ok s' /\
       forall va', managed va' ->
         entry s' va' = if va' / 4096 =? va / 4096 then None else entry s va')) /\
  (entry s va = None -> vmm_remap s va flags = Fault FAssert /\ vmm_unmap s va = Fault FAssert) /\
  (present s (PAGE_DIRECTORY_INDEX va) = false ->
     (forall fs, fa_alloc (frames s) = Ret (INVALID_FRAME, fs) -> vmm_map s va pa flags = Fault FAssert) /\
     (forall f, fa_alloc (frames s) = Fault f -> vmm_map s va pa flags = Fault f)) /\
  (forall v p fl, v mod 4096 <> 0 ->
     vmm_map s v p fl = Fault FAssert /\ vmm_remap s v fl = Fault FAssert /\
     vmm_unmap s v = Fault FAssert /\ vmm_get_physical s v = Fault FAssert /\
     vmm_get_flags s v = Fault FAssert) /\
  (forall v p fl, p mod 4096 <> 0 \/ Z.testbit fl 0 = false -> vmm_map s v p fl = Fault FAssert) /\
  (forall v fl, Z.testbit fl 0 = false -> vmm_remap s v fl = Fault FAssert).
Proof.
  intros Hok Hm Ha Hpm Hpr Hfl Hfp. pose proof (managed_dir va Hm) as Hd.
  destruct (get_physical_eq s va Hok Ha) as [E1 E2]. split; [done|]. split; [done|].
  destruct (map_ok s va pa flags Hok Ha Hd Hpm Hpr Hfl Hfp) as [H1 H2]. split; [done|]. split; [|split].
  - intros He Hf. destruct (H2 He Hf) as (s' & E & Hok' & _ & _ & _ & _ & _ & Hent). exists s'. split; [done|].
    split; [done|]. intros va' Hva'. rewrite Hent by (by apply managed_dir). by rewrite page_eqb.
  - intros f fl He. split.
    + destruct (remap_ok s va f fl flags Hok Ha Hd He Hfl Hfp) as (s' & E & Hok' & _ & _ & _ & Hent). exists s'.
      split; [done|]. split; [done|]. intros va' Hva'. rewrite Hent by (by apply managed_dir). by rewrite page_eqb.
    + destruct (unmap_ok s va f fl Hok Ha Hd He) as (s' & E & Hok' & _ & _ & _ & _ & Hent). exists s'.
      split; [done|]. split; [done|]. intros va' Hva'. rewrite Hent by (by apply managed_dir). by rewrite page_eqb.
  - split; [intros He; by apply unmapped_faults|]. split; [intros Hp; by apply map_no_frame|].
    split; [intros; by apply unaligned_faults|]. split; [intros; by apply bad_map_faults|].
    intros; by apply bad_remap_faults.
Qed.

(** An address space with only the recursive entry, over a region of 32 frames. *)
Definition sample_vmm : vmm pmm :=
  mkVmm {[ 0x3000 + 4 * 1023 := 0x3003 ]} 0x3000 0 (mkPmm true [mkRegion 0x100000 0x20000 (mkBitset 32 1 [1])])
    true 0 [].

Lemma sample_vmm_ok : vm_ok sample_vmm.
Proof.
  assert (forall d, 0 <= d < 1023 -> pd sample_vmm d = 0) as Hpd.
  { intros d Hd. unfold pd, pload. cbn [phys cr3 sample_vmm]. rewrite lookup_singleton_ne by lia. done. }
  split.
  - done.
  - done.
  - intros a v Hv. cbn in Hv. apply lookup_singleton_Some in Hv as [_ <-]. lia.
  - vm_compute. done.
  - cbn. split; [|split; [constructor|done]]. split; cbn; try lia; try done. split; cbn; try lia; try done.
    repeat constructor; lia.
  - vm_compute. discriminate.
  - intros d Hd Hp. unfold present in Hp. by rewrite Hpd in Hp.
  - intros d Hd Hp. unfold present in Hp. by rewrite Hpd in Hp.
  - intros d d' Hd _ Hp. unfold present in Hp. by rewrite Hpd in Hp.
Qed.

Lemma vmm_pages_spec_witness : exists s', vmm_map sample_vmm 0x400000 0x9000 7 = Ret s' /\ vm_ok s' /\
  entry s' 0x400000 = Some (0x9000, 7).
Proof.
  destruct (vmm_pages_spec sample_vmm 0x400000 0x9000 7 sample_vmm_ok) as (_ & _ & _ & H & _);
    [unfold managed; lia|reflexivity|reflexivity|lia|lia|reflexivity|].
  destruct H as (s' & E & Hok & He); [vm_compute; reflexivity| |].
  - right. eexists _, _. split; [vm_compute; reflexivity|discriminate].
  - exists s'. split; [exact E|]. split; [exact Hok|]. exact (He 0x400000 ltac:(unfold managed; lia)).
Defined.
