(* ===== verification/MmapClaims.v ===== *)
(** The mmap system call ([syscall_mmap_handler] of [kernel/scheduler.c]) on a well-formed
    address space. *)
From S2P Require Import Prelude Util Bitset Pmm Vmm VmmSpec Mmap VmmClaims.

(** The [m] pages from [a] on contain the address. *)
Definition covers (a m va : Z) : bool := (a <=? va) && (va <? a + 4096 * m).

Lemma covers_iff a m va : covers a m va = true <-> a <= va < a + 4096 * m.
Proof. unfold covers. rewrite andb_true_iff, Z.leb_le, Z.ltb_lt. done. Qed.

Lemma covers_false a m va : covers a m va = false <-> ~ a <= va < a + 4096 * m.
Proof. rewrite <- covers_iff. by destruct (covers a m va). Qed.

Lemma covers_page va va' : va mod 4096 = 0 -> (va' / 4096 =? va / 4096) = covers va 1 va'.
Proof.
  intros Ha. apply eq_true_iff_eq. rewrite covers_iff, Z.eqb_eq.
  pose proof (Z.div_mod va 4096). pose proof (Z.div_mod va' 4096).
  pose proof (Z.mod_pos_bound va' 4096). lia.
Qed.

(** A user page that the mmap loops may visit. *)
Definition user_page (va : Z) : Prop := USER_START <= va <= USER_END.

Lemma user_managed va : user_page va -> managed va.
Proof. unfold user_page, managed, USER_START, USER_END. lia. Qed.

(** Frame allocators reachable by successful allocations. *)
Inductive allocs {F : Type} `{FrameAllocator F} (fs : F) : F -> Prop :=
  | allocs_none : allocs fs fs
  | allocs_one f fs1 fs2 : fa_alloc fs = Ret (f, fs1) -> f <> INVALID_FRAME -> allocs fs1 fs2 -> allocs fs fs2.

Section mmap.
Context {F : Type} `{FrameAllocator F}.
Implicit Types s : vmm F.

Lemma allocs_trans fs1 fs2 fs3 : allocs fs1 fs2 -> allocs fs2 fs3 -> allocs fs1 fs3.
Proof. intros Ha Hb. induction Ha; [done|]. by eapply allocs_one; eauto. Qed.

Lemma alloc_step fs f fs' : fa_wf fs -> fa_alloc fs = Ret (f, fs') -> f <> INVALID_FRAME ->
  fa_wf fs' /\ f mod 4096 = 0 /\ fa_frame fs f = Free /\ fa_frame fs' f = Reserved /\ 0 <= f < 2 ^ 32 /\
  (forall q, q mod 4096 = 0 -> fa_frame fs' q = Free -> fa_frame fs q = Free) /\
  (forall q, q mod 4096 = 0 -> fa_frame fs q = Reserved -> fa_frame fs' q = Reserved).
Proof.
  intros Hwf Ea Hne. destruct (fa_alloc_spec _ _ _ Hwf Ea) as [Hwf' Hsp].
  rewrite (proj2 (Z.eqb_neq _ _)) in Hsp by done. destruct Hsp as (Hm & Hf & Hu).
  change PAGE_SIZE with 4096 in *.
  split; [done|]. split; [done|]. split; [done|]. split; [by rewrite Hu, Z.eqb_refl by done|].
  split; [apply (fa_range fs); [done|congruence]|].
  split; intros q Hq Hqf; rewrite Hu in * by done; by destruct (q =? f).
Qed.

Lemma allocs_keep fs fs' : allocs fs fs' -> fa_wf fs -> fa_wf fs' /\
  (forall q, q mod 4096 = 0 -> fa_frame fs' q = Free -> fa_frame fs q = Free) /\
  (forall q, q mod 4096 = 0 -> fa_frame fs q = Reserved -> fa_frame fs' q = Reserved).
Proof.
  induction 1 as [|fs f fs1 fs2 Ea Hne _ IH]; intros Hwf; [done|].
  destruct (alloc_step _ _ _ Hwf Ea Hne) as (Hwf1 & _ & _ & _ & _ & H1 & H2).
  destruct (IH Hwf1) as (Hwf2 & H3 & H4). split; [done|]. split; eauto.
Qed.

Lemma frames_ok s f fs : vm_ok s -> fa_alloc (frames s) = Ret (f, fs) -> f <> INVALID_FRAME ->
  vm_ok (with_frames s fs).
Proof.
  intros Hok Ea Hne. destruct (alloc_step _ _ _ (vo_wf s Hok) Ea Hne) as (Hwf & _ & _ & _ & _ & Hk & _).
  destruct (vo_cr3 s Hok) as [_ Hcm].
  split; try apply Hok.
  - done.
  - intros Hc. by apply (vo_cr3_used s Hok), Hk.
  - intros d Hd Hp. destruct (vo_table s Hok d Hd Hp) as [H1 H2]. split; [done|]. intros Hc. apply H2, Hk; [|done].
    by apply table_range.
Qed.

Lemma entry_flags s va f fl : vm_ok s -> entry s va = Some (f, fl) -> Z.testbit fl 0 = true /\ 0 <= fl < 4096.
Proof.
  intros Hok. rewrite entry_eq by done. cbv zeta. destruct (present s _); [|done].
  destruct (Z.testbit (pload _ _) 0) eqn:Et; [|done]. intros [= _ <-]. rewrite land_flags.
  split; [by rewrite (Z.mod_pow2_bits_low _ 12) by lia|]. apply Z.mod_pos_bound. lia.
Qed.

Lemma entry_same_page s va va' : va / 4096 = va' / 4096 -> entry s va = entry s va'.
Proof.
  intros E. unfold entry, walk. rewrite !dir_index_eq, !table_index_eq. change (2 ^ 22) with (4096 * 1024).
  change (2 ^ 12) with 4096. by rewrite <- !Z.div_div, E by lia.
Qed.

(** ** The validity loop *)
Lemma check_pages_spec s : forall m n page, vm_ok s -> 0 <= page -> page mod 4096 = 0 ->
  page + 4096 * Z.of_nat m < 2 ^ 32 -> (m < n)%nat ->
  exists b, check_pages n s page (page + 4096 * Z.of_nat m) = Ret b /\
    (b = true <-> forall i, 0 <= i < Z.of_nat m -> entry s (page + 4096 * i) = None /\ user_page (page + 4096 * i)).
Proof.
  induction m as [|m IH]; intros [|n] page Hok H0 Ha Hl Hn; try lia; cbn [check_pages].
  - rewrite Z.mul_0_r, Z.add_0_r, Z.ltb_irrefl. exists true. split; [done|]. split; [lia|done].
  - rewrite (proj2 (Z.ltb_lt _ _)) by lia. destruct (get_physical_eq s page Hok Ha) as [_ ->].
    cbn [mbind outcome_bind]. change VMM_PAGE_PRESENT with 1. rewrite nz_bit0.
    destruct (entry s page) as [[f fl]|] eqn:Ee; cbn [from_option snd].
    { destruct (entry_flags s page f fl Hok Ee) as [-> _]. exists false. split; [done|]. split; [done|].
      intros Hall. destruct (Hall 0 ltac:(lia)) as [Hc _]. rewrite Z.mul_0_r, Z.add_0_r in Hc. congruence. }
    cbn [Z.testbit]. destruct ((page <? USER_START) || (USER_END <? page)) eqn:Eu.
    { exists false. split; [done|]. split; [done|]. intros Hall. destruct (Hall 0 ltac:(lia)) as [_ Hc].
      unfold user_page in Hc. rewrite Z.mul_0_r, Z.add_0_r in Hc. breflect_cases; lia. }
    assert (user_page page) as Hu by (unfold user_page; breflect_cases; lia).
    assert (u32 (page + PAGE_SIZE) = page + 4096) as -> by (apply u32_small; unfold PAGE_SIZE; lia).
    destruct (IH n (page + 4096)) as (b & E & Hb); [done|lia| |lia|lia|].
    { by rewrite <- (Z.mul_1_l 4096), Z.mod_add by lia. }
    exists b. split; [rewrite <- E; f_equal; lia|]. rewrite Hb. split.
    + intros Hall i Hi. destruct (Z.eq_dec i 0) as [->|]; [by rewrite Z.mul_0_r, Z.add_0_r|].
      replace (page + 4096 * i) with (page + 4096 + 4096 * (i - 1)) by lia. apply Hall. lia.
    + intros Hall i Hi. replace (page + 4096 + 4096 * i) with (page + 4096 * (i + 1)) by lia. apply Hall. lia.
Qed.

(** ** One page *)
Lemma unmap_page s va f fl : vm_ok s -> va mod 4096 = 0 -> managed va -> entry s va = Some (f, fl) ->
  exists s', vmm_unmap s va = Ret s' /\ vm_ok s' /\ frames s' = frames s /\
    forall va', managed va' -> entry s' va' = if covers va 1 va' then None else entry s va'.
Proof.
  intros Hok Ha Hm He. destruct (unmap_ok s va f fl Hok Ha (managed_dir va Hm) He) as (s' & E & Hok' & Hf & _ & _ & _ & Hent).
  exists s'. split; [done|]. split; [done|]. split; [done|]. intros va' Hva'.
  by rewrite Hent, page_eqb, covers_page by (done || by apply managed_dir).
Qed.

(** The allocation that ends an operation: it aborts, or reports exhaustion to an assertion. *)
Definition alloc_fails (fs : F) (e : fault) : Prop :=
  fa_alloc fs = Fault e \/ (e = FAssert /\ exists fs', fa_alloc fs = Ret (INVALID_FRAME, fs')).

Lemma map_page s va pa flags : vm_ok s -> va mod 4096 = 0 -> managed va -> entry s va = None ->
  pa mod 4096 = 0 -> 0 <= pa < 2 ^ 32 -> 0 <= flags < 4096 -> Z.testbit flags 0 = true ->
  match vmm_map s va pa flags with
  | Ret s' => vm_ok s' /\ allocs (frames s) (frames s') /\
      (forall d, 0 <= d < 1023 -> present s' d = true ->
         (present s d = true /\ table_of s' d = table_of s d) \/ fa_frame (frames s) (table_of s' d) = Free) /\
      keeps_data s s' /\ cr3 s' = cr3 s /\
      forall va', managed va' -> entry s' va' = if covers va 1 va' then Some (pa, flags) else entry s va'
  | Fault e => alloc_fails (frames s) e
  end.
Proof.
  intros Hok Ha Hm He Hpm Hpr Hfl Hfp. pose proof (managed_dir va Hm) as Hd.
  destruct (map_ok s va pa flags Hok Ha Hd Hpm Hpr Hfl Hfp) as [_ Hmap]. specialize (Hmap He).
  assert (present s (PAGE_DIRECTORY_INDEX va) = true \/
          (exists f fs, fa_alloc (frames s) = Ret (f, fs) /\ f <> INVALID_FRAME) \/
          present s (PAGE_DIRECTORY_INDEX va) = false /\ exists e, alloc_fails (frames s) e /\
            vmm_map s va pa flags = Fault e) as [Hp|[Hp|(_ & e & He' & ->)]]; [| | |done].
  - destruct (present s (PAGE_DIRECTORY_INDEX va)) eqn:Ep; [by left|right].
    destruct (fa_alloc (frames s)) as [[f fs]|e] eqn:Ea; [destruct (decide (f = INVALID_FRAME)) as [->|]|].
    2: { left. by exists f, fs. }
    all: right; split; [done|].
    1: exists FAssert; split; [right; split; [done|by exists fs]|].
    2: exists e; split; [by left|].
    all: pose proof (dir_index_range va) as Hdr; unfold vmm_map, va_info, IS_ALIGNED, PAGE_SIZE;
      rewrite (vo_paging s Hok), Ha, Hpm; change VMM_PAGE_PRESENT with 1; rewrite nz_bit0, Hfp;
      cbn [Z.eqb c_assert mbind outcome_bind]; rewrite vload_dir by (done || lia); cbn [mbind outcome_bind];
      change PDE_PRESENT with 1; rewrite nz_bit0; fold (present s (PAGE_DIRECTORY_INDEX va)); rewrite Ep;
      unfold pmm_alloc_frame; by rewrite Ea.
  - destruct (Hmap (or_introl Hp)) as (s' & -> & Hok' & Hcr & _ & Hfr & Htb & Hkd & Hent).
    split; [done|]. split; [destruct Hfr as [->|(f & Hf & Hne)]; [apply allocs_none|]|].
    { by eapply allocs_one; [done|done|apply allocs_none]. }
    split; [done|]. split; [done|]. split; [done|].
    intros va' Hva'. by rewrite Hent, page_eqb, covers_page by (done || by apply managed_dir).
  - destruct (Hmap (or_intror Hp)) as (s' & -> & Hok' & Hcr & _ & Hfr & Htb & Hkd & Hent).
    split; [done|]. split; [destruct Hfr as [->|(f & Hf & Hne)]; [apply allocs_none|]|].
    { by eapply allocs_one; [done|done|apply allocs_none]. }
    split; [done|]. split; [done|]. split; [done|].
    intros va' Hva'. by rewrite Hent, page_eqb, covers_page by (done || by apply managed_dir).
Qed.

(** ** The loops *)
Lemma unmap_pages_spec : forall k n s addr, vm_ok s -> 0 <= addr -> addr mod 4096 = 0 ->
  (forall i, 0 <= i < Z.of_nat k -> entry s (addr + 4096 * i) <> None /\ user_page (addr + 4096 * i)) -> (k < n)%nat ->
  exists s', unmap_pages n s addr (addr + 4096 * Z.of_nat k) = Ret s' /\ vm_ok s' /\ frames s' = frames s /\
    forall va', managed va' -> entry s' va' = if covers addr (Z.of_nat k) va' then None else entry s va'.
Proof.
  induction k as [|k IH]; intros [|n] s addr Hok H0 Ha Hall Hn; try lia; cbn [unmap_pages].
  - rewrite Z.mul_0_r, Z.add_0_r, Z.ltb_irrefl. exists s. split; [done|]. split; [done|]. split; [done|].
    intros va' _. rewrite (proj2 (covers_false _ _ _)) by lia. done.
  - rewrite (proj2 (Z.ltb_lt _ _)) by lia. destruct (Hall 0 ltac:(lia)) as [He Hu]. rewrite Z.mul_0_r, Z.add_0_r in He, Hu.
    destruct (entry s addr) as [[f fl]|] eqn:Ee; [|done].
    destruct (unmap_page s addr f fl Hok Ha (user_managed _ Hu) Ee) as (s1 & -> & Hok1 & Hf1 & Hent1).
    cbn [mbind outcome_bind].
    assert (u32 (addr + PAGE_SIZE) = addr + 4096) as ->.
    { apply u32_small. unfold user_page, USER_END, PAGE_SIZE in *. lia. }
    destruct (IH n s1 (addr + 4096)) as (s' & E & Hok' & Hf' & Hent'); [done|lia| | |lia|].
    { by rewrite <- (Z.mul_1_l 4096), Z.mod_add by lia. }
    { intros i Hi. replace (addr + 4096 + 4096 * i) with (addr + 4096 * (i + 1)) by lia.
      destruct (Hall (i + 1) ltac:(lia)) as [Hei Hui]. split; [|done].
      rewrite Hent1 by (by apply user_managed). by rewrite (proj2 (covers_false _ _ _)) by lia. }
    exists s'. split; [rewrite <- E; f_equal; lia|]. split; [done|]. split; [congruence|].
    intros va' Hva'. rewrite Hent', Hent1 by done.
    destruct (covers addr (Z.of_nat (S k)) va') eqn:Ec, (covers (addr + 4096) (Z.of_nat k) va') eqn:Ec1,
      (covers addr 1 va') eqn:Ec2; try done;
      rewrite ?covers_iff, ?covers_false in *; lia.
Qed.

(** What mapping [m] pages from [page] on did, when every frame was available. *)
Record mapped s s' (page : Z) (m : nat) (fl : Z) : Prop := {
  mp_allocs : allocs (frames s) (frames s');
  mp_pages i : 0 <= i < Z.of_nat m -> exists f, entry s' (page + 4096 * i) = Some (f, fl) /\
    fa_frame (frames s) f = Free /\ fa_frame (frames s') f = Reserved;
  mp_inj i j f : 0 <= i < Z.of_nat m -> 0 <= j < Z.of_nat m -> entry s' (page + 4096 * i) = Some (f, fl) ->
    entry s' (page + 4096 * j) = Some (f, fl) -> i = j;
  mp_tables d i f : 0 <= d < 1023 -> present s' d = true -> 0 <= i < Z.of_nat m ->
    entry s' (page + 4096 * i) = Some (f, fl) -> table_of s' d <> f;
  mp_new d : 0 <= d < 1023 -> present s' d = true ->
    (present s d = true /\ table_of s' d = table_of s d) \/ fa_frame (frames s) (table_of s' d) = Free;
  mp_other va : managed va -> covers page (Z.of_nat m) va = false -> entry s' va = entry s va
}.

Lemma mapped_none s page fl : mapped s s page 0 fl.
Proof.
  split; try (intros; cbn in *; lia).
  - apply allocs_none.
  - intros d Hd Hp. by left.
  - done.
Qed.

(** One more page in front. *)
Lemma mapped_cons s s2 s' page m fl f fs :
  vm_ok s -> vm_ok s2 -> vm_ok s' -> page mod 4096 = 0 -> 0 <= page -> user_page page ->
  fa_alloc (frames s) = Ret (f, fs) -> f <> INVALID_FRAME -> allocs fs (frames s2) ->
  (forall d, 0 <= d < 1023 -> present s2 d = true ->
     (present s d = true /\ table_of s2 d = table_of s d) \/ fa_frame fs (table_of s2 d) = Free) ->
  (forall va', managed va' -> entry s2 va' = if covers page 1 va' then Some (f, fl) else entry s va') ->
  mapped s2 s' (page + 4096) m fl -> mapped s s' page (S m) fl.
Proof.
  intros Hok Hok2 Hok' Ha H0 Hu Eal Hne Hal Htb Hent [Mal Mpg Minj Mtab Mnew Moth].
  destruct (alloc_step _ _ _ (vo_wf s Hok) Eal Hne) as (Hwf & Hfm & Hff & Hfr & _ & Hk1 & Hk1').
  destruct (allocs_keep _ _ Hal Hwf) as (Hwf2 & Hk2 & Hk2').
  destruct (allocs_keep _ _ Mal Hwf2) as (_ & Hk3 & Hk3').
  assert (entry s' page = Some (f, fl)) as Hpage.
  { rewrite Moth by (try apply covers_false; try apply user_managed; done || lia).
    rewrite Hent by (by apply user_managed). by rewrite (proj2 (covers_iff _ _ _)) by lia. }
  assert (forall va g, entry s' va = Some (g, fl) -> g mod 4096 = 0) as Hgm.
  { intros va g. rewrite entry_eq by done. cbv zeta. destruct (present s' _); [|done].
    destruct (Z.testbit (pload _ _) 0); [|done]. intros [= <- _]. apply land_frame_range. by apply pload_range. }
  assert (forall i, 0 < i -> page + 4096 * i = page + 4096 + 4096 * (i - 1)) as Hsh by lia.
  assert (forall i, 0 < i < Z.of_nat (S m) -> entry s' (page + 4096 * i) <> Some (f, fl)) as Hdiff.
  { intros i Hi Hc. rewrite Hsh in Hc by lia. destruct (Mpg (i - 1) ltac:(lia)) as (g & Hg & Hgf & _).
    rewrite Hg in Hc. injection Hc as ->. rewrite Hk2' in Hgf by done. done. }
  split.
  - eapply allocs_one; [done|done|]. by eapply allocs_trans.
  - intros i Hi. destruct (Z.eq_dec i 0) as [->|].
    + rewrite Z.mul_0_r, Z.add_0_r. exists f. split; [done|]. split; [done|]. by apply Hk3', Hk2'.
    + rewrite Hsh by lia. destruct (Mpg (i - 1) ltac:(lia)) as (g & Hg & Hgf & Hgr). exists g.
      split; [done|]. split; [|done]. pose proof (Hgm _ _ Hg). by apply Hk1, Hk2.
  - intros i j g Hi Hj Hei Hej. destruct (Z.eq_dec i 0) as [->|], (Z.eq_dec j 0) as [->|]; [done| | |].
    + rewrite Z.mul_0_r, Z.add_0_r, Hpage in Hei. injection Hei as <-. by destruct (Hdiff j ltac:(lia)).
    + rewrite Z.mul_0_r, Z.add_0_r, Hpage in Hej. injection Hej as <-. by destruct (Hdiff i ltac:(lia)).
    + rewrite Hsh in Hei, Hej by lia. pose proof (Minj (i - 1) (j - 1) g). lia || (specialize (Minj (i - 1) (j - 1) g ltac:(lia) ltac:(lia) Hei Hej); lia).
  - intros d i g Hd Hp Hi Hei. destruct (Z.eq_dec i 0) as [->|]; [|rewrite Hsh in Hei by lia; apply (Mtab d (i - 1)); [done|done|lia|done]].
    rewrite Z.mul_0_r, Z.add_0_r, Hpage in Hei. injection Hei as <-. intros Hc.
    destruct (Mnew d Hd Hp) as [[Hp2 Ht2]|Hfree]; [|rewrite Hc, Hk2' in Hfree by done; done].
    rewrite Ht2 in Hc. destruct (Htb d Hd Hp2) as [[Hp1 Ht1]|Hfree]; [|congruence].
    destruct (vo_table s Hok d Hd Hp1) as [_ Hnf]. congruence.
  - intros d Hd Hp. pose proof (table_range s' d Hok') as [_ Htm].
    destruct (Mnew d Hd Hp) as [[Hp2 Ht2]|Hfree]; [|right; by apply Hk1, Hk2].
    destruct (Htb d Hd Hp2) as [[Hp1 Ht1]|Hfree]; [left; split; [done|congruence]|].
    right. rewrite Ht2 in *. by apply Hk1.
  - intros va Hva Hc. rewrite Moth, Hent by (try done; apply covers_false; apply covers_false in Hc; lia).
    by rewrite (proj2 (covers_false page 1 va)) by (apply covers_false in Hc; lia).
Qed.

Lemma map_pages_spec fl : 0 <= fl < 4096 -> Z.testbit fl 0 = true ->
  forall m n k s addr, vm_ok s -> 0 <= addr -> addr mod 4096 = 0 -> addr + 4096 * Z.of_nat (k + m) < 2 ^ 32 ->
  (forall i, 0 <= i < Z.of_nat (k + m) -> user_page (addr + 4096 * i)) ->
  (forall i, 0 <= i < Z.of_nat k -> entry s (addr + 4096 * i) <> None) ->
  (forall i, Z.of_nat k <= i < Z.of_nat (k + m) -> entry s (addr + 4096 * i) = None) -> (m < n)%nat ->
  match map_pages n s addr (addr + 4096 * Z.of_nat k) (addr + 4096 * Z.of_nat (k + m)) fl with
  | Ret (true, s') => vm_ok s' /\ mapped s s' (addr + 4096 * Z.of_nat k) m fl
  | Ret (false, s') => vm_ok s' /\ allocs (frames s) (frames s') /\
      (exists fs, fa_alloc (frames s') = Ret (INVALID_FRAME, fs)) /\
      forall va, managed va -> entry s' va = if covers addr (Z.of_nat (k + m)) va then None else entry s va
  | Fault e => exists fs, allocs (frames s) fs /\ alloc_fails fs e
  end.
Proof.
  intros Hfl Hfp. induction m as [|m IH]; intros [|n] k s addr Hok H0 Ha Hl Hu Hdone Htodo Hn; try lia; cbn [map_pages].
  - rewrite Nat.add_0_r, Z.ltb_irrefl. split; [done|]. apply mapped_none.
  - rewrite (proj2 (Z.ltb_lt _ _)) by lia. unfold pmm_alloc_frame at 1.
    destruct (fa_alloc (frames s)) as [[f fs]|e] eqn:Eal; cbn [mbind outcome_bind]; cycle 1.
    { exists (frames s). split; [apply allocs_none|by left]. }
    set (page := addr + 4096 * Z.of_nat k) in *.
    assert (page mod 4096 = 0) as Hpm by (unfold page; by rewrite Z.mul_comm, Z.mod_add by lia).
    destruct (decide (f = INVALID_FRAME)) as [->|Hne].
    + rewrite Z.eqb_refl. destruct (fa_alloc_spec _ _ _ (vo_wf s Hok) Eal) as [_ Hfs].
      rewrite Z.eqb_refl in Hfs. subst fs. assert (with_frames s (frames s) = s) as -> by (by destruct s).
      replace ((page - addr) / PAGE_SIZE) with (Z.of_nat k)
        by (unfold page, PAGE_SIZE; replace (addr + 4096 * Z.of_nat k - addr) with (Z.of_nat k * 4096) by lia; by rewrite Z.div_mul by lia).
      rewrite Nat2Z.id. destruct (unmap_pages_spec k (S k) s addr Hok H0 Ha) as (s' & E & Hok' & Hf' & Hent'); [|lia|].
      { intros i Hi. split; [by apply Hdone|apply Hu; lia]. }
      fold page in E. rewrite E. cbn [mbind outcome_bind]. split; [done|]. rewrite Hf'. split; [apply allocs_none|].
      split; [by exists (frames s)|]. intros va Hva. rewrite Hent' by done.
      destruct (covers addr (Z.of_nat k) va) eqn:Ec, (covers addr (Z.of_nat (k + S m)) va) eqn:Ec2; try done;
        [rewrite ?covers_iff, ?covers_false in *; lia|].
      apply covers_iff in Ec2. apply covers_false in Ec.
      assert (entry s va = entry s (addr + 4096 * ((va - addr) / 4096))) as ->.
      { apply entry_same_page. pose proof (Z.div_mod addr 4096). 
        rewrite (Z.mul_comm 4096), Z.div_add by lia.
        replace (va - addr) with (va + (- (addr / 4096)) * 4096) by lia. rewrite Z.div_add by lia. lia. }
      apply Htodo. split; [apply Z.div_le_lower_bound; lia|apply Z.div_lt_upper_bound; lia].
    + rewrite (proj2 (Z.eqb_neq _ _)) by done.
      destruct (alloc_step _ _ _ (vo_wf s Hok) Eal Hne) as (_ & Hfm & _ & _ & Hfr & _ & _).
      pose proof (frames_ok s f fs Hok Eal Hne) as Hok1.
      assert (user_page page) as Hup by (apply Hu; lia).
      assert (entry s page = None) as Hep by (apply Htodo; lia).
      pose proof (map_page (with_frames s fs) page f fl Hok1 Hpm (user_managed _ Hup) Hep Hfm Hfr Hfl Hfp) as Hmap.
      destruct (vmm_map (with_frames s fs) page f fl) as [s2|e]; cbn [mbind outcome_bind].
      2: { exists fs. split; [|exact Hmap]. by eapply allocs_one; [done|done|apply allocs_none]. }
      destruct Hmap as (Hok2 & Hal2 & Htb & _ & _ & Hent). cbn [frames with_frames] in *.
      assert (u32 (page + PAGE_SIZE) = addr + 4096 * Z.of_nat (S k)) as ->.
      { unfold PAGE_SIZE. rewrite u32_small; unfold page; lia. }
      assert (forall i, 0 <= i < Z.of_nat (k + S m) -> i <> Z.of_nat k -> entry s2 (addr + 4096 * i) = entry s (addr + 4096 * i)) as Hsame.
      { intros i Hi Hik. rewrite Hent by (apply user_managed, Hu; lia).
        by rewrite (proj2 (covers_false _ _ _)) by (unfold page; lia). }
      specialize (IH n (S k) s2 addr Hok2 H0 Ha). replace (S k + m)%nat with (k + S m)%nat in IH by lia.
      destruct (map_pages n s2 addr _ _ fl) as [[[|] s']|e]; destruct IH as [H1 H2];
        [done|done| | |lia| |done|done| | |lia| |done|done| | |lia|].
      1,4,7: intros i Hi; destruct (Z.eq_dec i (Z.of_nat k)) as [->|]; [|rewrite Hsame by lia; apply Hdone; lia];
        fold page; rewrite Hent by (by apply user_managed); by rewrite (proj2 (covers_iff _ _ _)) by lia.
      1,3,5: intros i Hi; rewrite Hsame by lia; apply Htodo; lia.
      * split; [done|]. apply (mapped_cons s s2 s' page m fl f fs); try done; [lia|].
        replace (page + 4096) with (addr + 4096 * Z.of_nat (S k)) by lia. done.
      * destruct H2 as (Hal & Hex & Hent'). split; [done|].
        split; [eapply allocs_one; [done|done|by eapply allocs_trans]|]. split; [done|]. intros va Hva.
        rewrite Hent', Hent by done. destruct (covers addr _ va) eqn:Ec; [done|].
        apply covers_false in Ec. by rewrite (proj2 (covers_false page 1 va)) by (unfold page; lia).
      * destruct H2 as [H2 H3]. exists H1. split; [|done]. eapply allocs_one; [done|done|by eapply allocs_trans].
Qed.

Lemma mmap_flags_range flags : 0 <= mmap_flags flags < 4096 /\ Z.testbit (mmap_flags flags) 0 = true.
Proof. unfold mmap_flags. by destruct (nz _). Qed.

(** The pages of an aligned range, by address and by index. *)
Lemma range_pages (P : Z -> Prop) addr (m : nat) : addr mod 4096 = 0 ->
  (forall p, p mod 4096 = 0 -> addr <= p < addr + 4096 * Z.of_nat m -> P p) <->
  (forall i, 0 <= i < Z.of_nat m -> P (addr + 4096 * i)).
Proof.
  intros Ha. split.
  - intros Hp i Hi. apply Hp; [|lia]. by rewrite Z.mul_comm, Z.mod_add by lia.
  - intros Hi p Hp Hr. replace p with (addr + 4096 * ((p - addr) / 4096)); [apply Hi; split|].
    + apply Z.div_pos; lia.
    + apply Z.div_lt_upper_bound; lia.
    + pose proof (Z.div_mod (p - addr) 4096 ltac:(lia)) as Hd. rewrite Zminus_mod, Hp, Ha in Hd. change ((0 - 0) mod 4096) with 0 in Hd. lia.
Qed.

(** The system call past its alignment checks. *)
Lemma mmap_aligned s addr size flags : addr mod 4096 = 0 -> size mod 4096 = 0 -> flags <> 0 ->
  let n := S (Z.to_nat (size / 4096)) in
  syscall_mmap_handler s addr size flags =
    (valid ← check_pages n s addr (u32 (addr + size));
     if (valid : bool) then
       '(ok, s) ← map_pages n s addr addr (u32 (addr + size)) (mmap_flags flags);
       Ret (if (ok : bool) then addr else 0, s)
     else Ret (0, s)).
Proof.
  intros Ha Hs Hf. unfold syscall_mmap_handler, IS_ALIGNED, PAGE_SIZE. rewrite Ha, Hs.
  rewrite (proj2 (Z.eqb_neq _ _) Hf). done.
Qed.
End mmap.

(** Every branch of the mmap system call. *)
Lemma mmap_ok {F : Type} `{FrameAllocator F} (s : vmm F) (addr size flags : Z) :
  vm_ok s -> 0 <= addr < 2 ^ 32 -> 0 <= size < 2 ^ 32 ->
  let r := syscall_mmap_handler s addr size flags in
  let aligned := addr mod 4096 = 0 /\ size mod 4096 = 0 in
  let valid := forall p, p mod 4096 = 0 -> addr <= p < addr + size -> entry s p = None /\ user_page p in
  (~ aligned \/ flags = 0 -> r = Ret (0, s)) /\
  (aligned -> flags <> 0 -> 2 ^ 32 <= addr + size -> r = Ret (addr, s)) /\
  (aligned -> flags <> 0 -> addr + size < 2 ^ 32 -> ~ valid -> r = Ret (0, s)) /\
  (aligned -> flags <> 0 -> addr + size < 2 ^ 32 -> valid ->
     (exists s', r = Ret (addr, s') /\ vm_ok s' /\
        mapped s s' addr (Z.to_nat (size / 4096)) (if Z.testbit flags 1 then 7 else 5)) \/
     (exists s' fs, r = Ret (0, s') /\ vm_ok s' /\ (forall va, managed va -> entry s' va = entry s va) /\
        allocs (frames s) (frames s') /\ fa_alloc (frames s') = Ret (INVALID_FRAME, fs)) \/
     (exists e fs, r = Fault e /\ allocs (frames s) fs /\ alloc_fails fs e)).
Proof.
  intros Hok Har Hsr r aligned valid. split; [|split; [|split]].
  - intros Hbad. unfold r, syscall_mmap_handler, IS_ALIGNED. change PAGE_SIZE with 4096.
    destruct (addr mod 4096 =? 0) eqn:Ea; [|done]. destruct (size mod 4096 =? 0) eqn:Es; [|done].
    destruct (flags =? 0) eqn:Ef; [done|]. breflect. by destruct Hbad as [Hb|Hb]; [destruct Hb|].
  - intros [Ha Hs] Hf Hw. unfold r. rewrite mmap_aligned by done.
    assert (u32 (addr + size) = addr + size - 2 ^ 32) as ->.
    { unfold u32. rewrite <- (Z.mod_add _ (-1)), Z.mod_small by lia. lia. }
    cbn [check_pages map_pages]. rewrite (proj2 (Z.ltb_ge _ _)) by lia. done.
  - intros [Ha Hs] Hf Hw Hv. unfold r. rewrite mmap_aligned by done. rewrite u32_small by lia.
    assert (size = 4096 * Z.of_nat (Z.to_nat (size / 4096))) as Hsz.
    { rewrite Z2Nat.id by (apply Z.div_pos; lia). pose proof (Z.div_mod size 4096). lia. }
    set (m := Z.to_nat (size / 4096)) in *. unfold valid in Hv. rewrite Hsz in *.
    rewrite (range_pages (fun p => entry s p = None /\ user_page p)) in Hv by done.
    destruct (check_pages_spec s m (S m) addr Hok) as (b & -> & Hb); [lia|done|lia|lia|].
    cbn [mbind outcome_bind]. destruct b; [|done]. destruct Hv. by apply Hb.
  - intros [Ha Hs] Hf Hw Hv. unfold r. rewrite mmap_aligned by done. rewrite u32_small by lia.
    assert (size = 4096 * Z.of_nat (Z.to_nat (size / 4096))) as Hsz.
    { rewrite Z2Nat.id by (apply Z.div_pos; lia). pose proof (Z.div_mod size 4096). lia. }
    set (m := Z.to_nat (size / 4096)) in *. unfold valid in Hv. rewrite Hsz in *.
    rewrite (range_pages (fun p => entry s p = None /\ user_page p)) in Hv by done.
    destruct (check_pages_spec s m (S m) addr Hok) as (b & -> & Hb); [lia|done|lia|lia|].
    rewrite (proj2 Hb Hv). cbn [mbind outcome_bind].
    destruct (mmap_flags_range flags) as [Hfr Hfp].
    pose proof (map_pages_spec (mmap_flags flags) Hfr Hfp m (S m) 0 s addr Hok ltac:(lia) Ha) as Hmap.
    cbn [Nat.add] in Hmap. rewrite Z.mul_0_r, Z.add_0_r in Hmap.
    assert (mmap_flags flags = if Z.testbit flags 1 then 7 else 5) as Hfe.
    { unfold mmap_flags. change 0x2 with 2. rewrite nz_bit1. done. }
    specialize (Hmap ltac:(lia) ltac:(intros i Hi; by apply Hv) ltac:(lia) ltac:(intros i Hi; by apply Hv) ltac:(lia)).
    destruct (map_pages _ _ _ _ _ _) as [[[|] s']|e]; cbn [mbind outcome_bind].
    + left. exists s'. rewrite <- Hfe. done.
    + right. left. destruct Hmap as (Hok' & Hal & [fs Hfs] & Hent). exists s', fs. split; [done|]. split; [done|].
      split; [|done]. intros va Hva. rewrite Hent by done. destruct (covers addr _ va) eqn:Ec; [|done].
      apply covers_iff in Ec. symmetry.
      rewrite (entry_same_page s va (4096 * (va / 4096))) by (rewrite Z.mul_comm, Z.div_mul; lia).
      apply (range_pages (fun p => entry s p = None) addr m Ha); [intros i Hi; by apply Hv| |].
      * by rewrite Z.mul_comm, Z.mod_mul.
      * pose proof (Z.div_mod va 4096). pose proof (Z.mod_pos_bound va 4096). pose proof (Z.div_mod addr 4096). lia.
    + right. right. destruct Hmap as (fs & Hal & Hfail). by exists e, fs.
Qed.

(** C6: The mmap system call on a well-formed address space. A misaligned address or size, or
    no flags, is refused, and so is a range with a page already mapped or outside the user
    area, the address space unchanged. Otherwise, with enough frames, the address is
    returned: every page of the range is mapped, user accessible and writable exactly when
    bit 1 of the flags is set, to frames of its own that were free and are no page tables,
    and no other page changes. When the frames run out, 0 is returned with every page as
    before, but the frames allocated until then stay reserved; the call aborts only where a
    frame allocation does or a page table finds no frame. A range that wraps around the
    address space is reported as mapped although nothing happened. *)
Theorem mmap_spec {F : Type} `{FrameAllocator F} (s : vmm F) (addr size flags : Z) :
  vm_ok s -> 0 <= addr < 2 ^ 32 -> 0 <= size < 2 ^ 32 ->
  let r := syscall_mmap_handler s addr size flags in
  let aligned := addr mod 4096 = 0 /\ size mod 4096 = 0 in
  let valid := forall p, p mod 4096 = 0 -> addr <= p < addr + size -> entry s p = None /\ user_page p in
  (~ aligned \/ flags = 0 -> r = Ret (0, s)) /\
  (aligned -> flags <> 0 -> 2 ^ 32 <= addr + size -> r = Ret (addr, s)) /\
  (aligned -> flags <> 0 -> addr + size < 2 ^ 32 -> ~ valid -> r = Ret (0, s)) /\
  (aligned -> flags <> 0 -> addr + size < 2 ^ 32 -> valid ->
     (exists s', r = Ret (addr, s') /\ vm_ok s' /\
        mapped s s' addr (Z.to_nat (size / 4096)) (if Z.testbit flags 1 then 7 else 5)) \/
     (exists s' fs, r = Ret (0, s') /\ vm_ok s' /\ (forall va, managed va -> entry s' va = entry s va) /\
        allocs (frames s) (frames s') /\ fa_alloc (frames s') = Ret (INVALID_FRAME, fs)) \/
     (exists e fs, r = Fault e /\ allocs (frames s) fs /\ alloc_fails fs e)).
Proof. exact (mmap_ok s addr size flags). Qed.

Lemma sample_mmap :
  match syscall_mmap_handler sample_vmm 0x400000 0x2000 3 with Ret (r, _) => r =? 0x400000 | _ => false end = true.
Proof. vm_cast_no_check (eq_refl true). Qed.

Lemma mmap_spec_witness : exists s', syscall_mmap_handler sample_vmm 0x400000 0x2000 3 = Ret (0x400000, s') /\
  vm_ok s' /\ mapped sample_vmm s' 0x400000 2 7.
Proof.
  destruct (mmap_spec sample_vmm 0x400000 0x2000 3 sample_vmm_ok ltac:(lia) ltac:(lia)) as (_ & _ & _ & H).
  destruct H as [H|[H|H]]; [by split|done|lia| |exact H| |].
  - intros p Hp Hr. assert (p = 0x400000 \/ p = 0x401000) as [-> | ->] by (pose proof (Z.div_mod p 4096); lia).
    + split; [vm_compute; reflexivity|unfold user_page; vm_compute; split; discriminate].
    + split; [vm_compute; reflexivity|unfold user_page; vm_compute; split; discriminate].
  - exfalso. destruct H as (s' & fs & E & _). pose proof sample_mmap as E0. rewrite E in E0. discriminate.
  - exfalso. destruct H as (e & fs & E & _). pose proof sample_mmap as E0. rewrite E in E0. discriminate.
Defined.
