(* ===== verification/VmmSpaces.v ===== *)
(** Whole address spaces of [kernel/vmm.c]: giving back the frames of the user half
    ([vmm_reset_current_pagedir], on [exec]) and switching to another page directory
    ([vmm_copy_kernel_mappings], [vmm_switch_pagedir]). *)
From S2P Require Import Prelude Util Bitset Pmm Vmm VmmSpec VmmClaims.

(** The frames the present entries of the table at [t] name, from entry [i] on. *)
Fixpoint table_frames (n : nat) (i : Z) (p : pmem) (t : Z) : list Z :=
  match n with
  | O => []
  | S n =>
      let e := pload p (t + 4 * i) in
      (if Z.testbit e 0 then [Z.land e PTE_FRAME] else []) ++ table_frames n (i + 1) p t
  end.

Section spaces.
Context {F : Type} `{FrameAllocator F}.
Implicit Types s : vmm F.

(** Free the frames of a list. *)
Fixpoint free_all (fs : F) (l : list Z) : outcome F :=
  match l with
  | [] => Ret fs
  | f :: l => fs ← fa_free fs f; free_all fs l
  end.

Lemma free_all_app fs l1 l2 : free_all fs (l1 ++ l2) = (fs ← free_all fs l1; free_all fs l2).
Proof.
  revert fs. induction l1 as [|f l1 IH]; intros fs; cbn [free_all app]; [done|].
  destruct (fa_free fs f); cbn [mbind outcome_bind]; [apply IH|done].
Qed.

Lemma free_all_ok l : forall fs, fa_wf fs -> NoDup l -> Forall (fun f => f mod 4096 = 0 /\ fa_frame fs f = Reserved) l ->
  exists fs', free_all fs l = Ret fs' /\ fa_wf fs' /\
    forall q, q mod 4096 = 0 -> fa_frame fs' q = if bool_decide (q ∈ l) then Free else fa_frame fs q.
Proof.
  induction l as [|f l IH]; intros fs Hwf Hnd Hl; cbn [free_all].
  - exists fs. split; [done|]. split; [done|]. intros q _. by rewrite bool_decide_false by set_solver.
  - apply NoDup_cons in Hnd as [Hni Hnd]. apply Forall_cons in Hl as [[Hm Hr] Hl].
    destruct (fa_free_ok fs f Hwf Hm Hr) as [fs1 E]. rewrite E. cbn [mbind outcome_bind].
    destruct (fa_free_spec _ _ _ Hwf E) as (Hwf1 & _ & _ & Hu). change PAGE_SIZE with 4096 in Hu.
    destruct (IH fs1 Hwf1 Hnd) as (fs' & E' & Hwf' & Hq).
    { rewrite Forall_forall in *. intros x Hx. destruct (Hl x Hx) as [Hxm Hxr]. split; [done|].
      rewrite Hu by done. rewrite (proj2 (Z.eqb_neq x f)); [done|]. by intros ->. }
    exists fs'. split; [done|]. split; [done|]. intros q Hqm. rewrite Hq, Hu by done.
    destruct (decide (q ∈ l)) as [Hin|Hnin].
    + rewrite !bool_decide_true by (try (by right); done). done.
    + rewrite (bool_decide_false (q ∈ l)) by done. destruct (q =? f) eqn:Eq; breflect.
      * subst. rewrite bool_decide_true; [done|by left].
      * rewrite bool_decide_false; [done|]. intros Hc. by apply elem_of_cons in Hc as [?|?].
Qed.

(** Memory accesses do not look at the frame allocator. *)
Lemma vload_frames s fs va : vload (with_frames s fs) va = vload s va.
Proof. done. Qed.

Lemma vstore_frames s fs va v : vstore (with_frames s fs) va v = (s' ← vstore s va v; Ret (with_frames s' fs)).
Proof.
  unfold vstore. cbn [paging_enabled phys cr3 with_frames]. destruct (paging_enabled s); [|done].
  destruct (walk _ _ _) as [[pde pte]|]; [|done]. by destruct (_ && _).
Qed.

Lemma with_frames_twice s fs fs' : with_frames (with_frames s fs) fs' = with_frames s fs'.
Proof. done. Qed.

(** ** Resetting the user half *)
Lemma free_table_eq n : forall i s fs d, vm_ok s -> 0 <= d < 1024 -> present s d = true -> 0 <= i -> i + Z.of_nat n <= 1024 ->
  free_table n i (with_frames s fs) (get_pagetable d) =
    (fs ← free_all fs (table_frames n i (phys s) (table_of s d)); Ret (with_frames s fs)).
Proof.
  induction n as [|n IH]; intros i s fs d Hok Hd Hp Hi Hn; cbn [free_table table_frames free_all app]; [done|].
  rewrite vload_frames, vload_window by (done || lia). cbn [mbind outcome_bind].
  change PTE_PRESENT with 1. rewrite nz_bit0. destruct (Z.testbit _ 0); cbn [app free_all].
  - unfold pmm_free_frame. cbn [frames with_frames]. destruct (fa_free fs _) as [fs'|]; cbn [mbind outcome_bind]; [|done].
    rewrite with_frames_twice. apply IH; (done || lia).
  - cbn [mbind outcome_bind]. apply IH; (done || lia).
Qed.

(** What directory entry [d] owns: the frames it maps and its table. *)
Definition dir_frames s (d : Z) : list Z :=
  if present s d then table_frames 1024 0 (phys s) (table_of s d) ++ [table_of s d] else [].
Fixpoint user_frames (n : nat) (d : Z) s : list Z :=
  match n with
  | O => []
  | S n => dir_frames s d ++ user_frames n (d + 1) s
  end.

(** Directory entry [d] cleared. *)
Definition clear_dir s (d : Z) : vmm F := with_phys s (pstore (phys s) (cr3 s + 4 * d) 0).

Lemma clear_dir_pd s d x : pd (clear_dir s d) x = if x =? d then 0 else pd s x.
Proof.
  unfold pd, clear_dir. cbn [phys cr3 with_phys]. rewrite pload_pstore.
  destruct (x =? d) eqn:E; breflect; [subst; by rewrite Z.eqb_refl|].
  by rewrite (proj2 (Z.eqb_neq _ _)) by lia.
Qed.

Lemma clear_dir_ok s d : vm_ok s -> 0 <= d < 1023 -> vm_ok (clear_dir s d).
Proof.
  intros Hok Hd. assert (forall x, x <> d -> pd (clear_dir s d) x = pd s x) as Hpd.
  { intros x Hx. rewrite clear_dir_pd. by rewrite (proj2 (Z.eqb_neq _ _)) by done. }
  assert (forall x, present (clear_dir s d) x = true -> x <> d /\ present s x = true) as Hpr.
  { intros x Hx. unfold present in *. rewrite clear_dir_pd in Hx. destruct (x =? d) eqn:E; breflect; [done|]. done. }
  split; unfold table_of; cbn [clear_dir with_phys paging_enabled cr3 frames phys]; try apply Hok.
  - intros a v Ha. unfold pstore in Ha. destruct (Z.eq_dec a (cr3 s + 4 * d)) as [->|].
    + rewrite lookup_insert_eq in Ha. injection Ha as <-. apply u32_range.
    + rewrite lookup_insert_ne in Ha by congruence. by eapply vo_words.
  - unfold present. rewrite Hpd by lia. apply (vo_self s Hok).
  - intros x Hx Hp. destruct (Hpr x Hp) as [Hne Hp']. rewrite Hpd by done. by apply (vo_writable s Hok).
  - intros x Hx Hp. destruct (Hpr x Hp) as [Hne Hp']. rewrite Hpd by done. by apply (vo_table s Hok).
  - intros x y Hx Hy Hpx Hpy. destruct (Hpr x Hpx) as [? ?], (Hpr y Hpy) as [? ?]. rewrite !Hpd by done.
    by apply (vo_distinct s Hok).
Qed.

Lemma with_frames_ok s fs : vm_ok s -> fa_wf fs -> fa_frame fs (cr3 s) <> Free ->
  (forall d, 0 <= d < 1023 -> present s d = true -> fa_frame fs (table_of s d) <> Free) -> vm_ok (with_frames s fs).
Proof.
  intros Hok Hwf Hc Ht. split; try apply Hok; [done|done|].
  intros d Hd Hp. split; [by apply (vo_table s Hok)|by apply Ht].
Qed.

Lemma clear_dir_words s d x t : vm_ok s -> 0 <= d < 1023 -> 0 <= x < 1023 -> present s x = true -> 0 <= t < 1024 ->
  pload (phys (clear_dir s d)) (table_of s x + 4 * t) = pload (phys s) (table_of s x + 4 * t).
Proof.
  intros Hok Hd Hx Hp Ht. unfold clear_dir. cbn [phys with_phys]. rewrite pload_pstore.
  rewrite (proj2 (Z.eqb_neq _ _)); [done|]. intros E.
  destruct (table_range s x Hok) as [_ Hm]. destruct (vo_cr3 s Hok) as [_ Hcm].
  apply (page_words_apart _ _ _ _ Hm Hcm) in E as [E _]; [|done|lia]. by apply (vo_table s Hok) in E.
Qed.

Lemma table_frames_ext n : forall i p p' t, (forall j, i <= j < i + Z.of_nat n -> pload p (t + 4 * j) = pload p' (t + 4 * j)) ->
  table_frames n i p t = table_frames n i p' t.
Proof.
  induction n as [|n IH]; intros i p p' t Hj; cbn [table_frames]; [done|].
  rewrite (Hj i) by lia. f_equal. apply IH. intros j Hj'. apply Hj. lia.
Qed.

(** Clearing one directory entry changes what no other entry owns. *)
Lemma clear_dir_frames s d x fs : vm_ok s -> 0 <= d < 1023 -> 0 <= x < 1023 -> x <> d ->
  dir_frames (with_frames (clear_dir s d) fs) x = dir_frames s x.
Proof.
  intros Hok Hd Hx Hne. unfold dir_frames. change (present (with_frames (clear_dir s d) fs) x) with (present (clear_dir s d) x).
  change (table_of (with_frames (clear_dir s d) fs) x) with (table_of (clear_dir s d) x).
  cbn [phys with_frames].
  assert (pd (clear_dir s d) x = pd s x) as Hpd by (rewrite clear_dir_pd; by rewrite (proj2 (Z.eqb_neq _ _)) by done).
  assert (table_of (clear_dir s d) x = table_of s x) as -> by (unfold table_of; by rewrite Hpd).
  assert (present (clear_dir s d) x = present s x) as -> by (unfold present; by rewrite Hpd).
  destruct (present s x) eqn:Ep; [|done]. f_equal. apply table_frames_ext. intros j Hj.
  apply clear_dir_words; (done || lia).
Qed.

Lemma clear_user_frames n : forall e s d fs, vm_ok s -> 0 <= d < e -> e + Z.of_nat n <= 1023 ->
  user_frames n e (with_frames (clear_dir s d) fs) = user_frames n e s.
Proof.
  induction n as [|n IH]; intros e s d fs Hok Hd He; cbn [user_frames]; [done|].
  rewrite clear_dir_frames by (done || lia). f_equal. apply IH; (done || lia).
Qed.

Lemma clear_dir_entry s d fs va : vm_ok s -> vm_ok (with_frames (clear_dir s d) fs) -> 0 <= d < 1023 ->
  PAGE_DIRECTORY_INDEX va < 1023 ->
  entry (with_frames (clear_dir s d) fs) va = if PAGE_DIRECTORY_INDEX va =? d then None else entry s va.
Proof.
  intros Hok Hok' Hd Hva. pose proof (dir_index_range va) as Hdr. pose proof (table_index_range va) as Htr.
  rewrite !entry_eq by done. cbv zeta. set (x := PAGE_DIRECTORY_INDEX va) in *.
  change (present (with_frames (clear_dir s d) fs) x) with (present (clear_dir s d) x).
  change (table_of (with_frames (clear_dir s d) fs) x) with (table_of (clear_dir s d) x). cbn [phys with_frames].
  unfold present, table_of. rewrite clear_dir_pd. destruct (x =? d) eqn:E; [done|]. breflect.
  fold (present s x) (table_of s x). destruct (present s x) eqn:Ep; [|done].
  by rewrite clear_dir_words by (done || lia).
Qed.

Lemma reset_step s d : vm_ok s -> 0 <= d < 1023 -> NoDup (dir_frames s d) ->
  Forall (fun f => f mod 4096 = 0 /\ fa_frame (frames s) f = Reserved) (dir_frames s d) ->
  cr3 s ∉ dir_frames s d -> (forall x, 0 <= x < 1023 -> x <> d -> present s x = true -> table_of s x ∉ dir_frames s d) ->
  exists fs, (e ← vload s (current_pagedir + 4 * d);
      if nz (Z.land e PDE_PRESENT) then
        s ← free_table 1024 0 s (get_pagetable d);
        s ← pmm_free_frame s (Z.land e PDE_FRAME);
        vstore s (current_pagedir + 4 * d) 0
      else Ret s) = Ret (if present s d then with_frames (clear_dir s d) fs else s) /\
    (present s d = true -> vm_ok (with_frames (clear_dir s d) fs)) /\ (present s d = false -> fs = frames s) /\
    forall q, q mod 4096 = 0 ->
      fa_frame fs q = if bool_decide (q ∈ dir_frames s d) then Free else fa_frame (frames s) q.
Proof.
  intros Hok Hd Hnd Hres Hcr Htab. rewrite vload_dir by (done || lia). cbn [mbind outcome_bind].
  change PDE_PRESENT with 1. rewrite nz_bit0. fold (present s d) (table_of s d).
  destruct (free_all_ok _ _ (vo_wf s Hok) Hnd Hres) as (fs & Ef & Hwf & Hq). revert Ef Hnd Hres Hcr Htab Hq.
  unfold dir_frames. destruct (present s d) eqn:Ep; cycle 1.
  { intros _ _ _ _ _ Hq. exists (frames s). split; [done|]. split; [done|]. split; [done|].
    intros q _. by rewrite bool_decide_false by set_solver. }
  intros Ef Hnd Hres Hcr Htab Hq. exists fs. rewrite free_all_app in Ef. cbn [free_all] in Ef.
  assert (s = with_frames s (frames s)) as Hs by (by destruct s).
  rewrite Hs at 1. rewrite free_table_eq by (done || lia).
  destruct (free_all (frames s) _) as [fs1|]; [|done]. cbn [mbind outcome_bind] in Ef |- *.
  unfold pmm_free_frame. cbn [frames with_frames].
  destruct (fa_free fs1 (table_of s d)) as [fs2|]; [|done]. cbn [mbind outcome_bind] in Ef |- *.
  injection Ef as ->. rewrite with_frames_twice, vstore_frames, vstore_dir by (done || lia).
  cbn [mbind outcome_bind]. fold (clear_dir s d). split; [done|]. split; [intros _|split; [done|exact Hq]].
  apply with_frames_ok; [by apply clear_dir_ok|done| |].
  - cbn [cr3 clear_dir with_phys]. rewrite Hq by apply (vo_cr3 s Hok). rewrite bool_decide_false by done.
    apply (vo_cr3_used s Hok).
  - intros x Hx Hp. unfold present, table_of in *. rewrite clear_dir_pd in *. destruct (x =? d) eqn:E; [done|]. breflect.
    fold (table_of s x). rewrite Hq by (by apply table_range). rewrite bool_decide_false by (by apply Htab).
    by apply (vo_table s Hok).
Qed.

Lemma table_in_user n : forall d s x, d <= x < d + Z.of_nat n -> present s x = true -> table_of s x ∈ user_frames n d s.
Proof.
  induction n as [|n IH]; intros d s x Hx Hp; [lia|]. cbn [user_frames]. apply elem_of_app.
  destruct (Z.eq_dec x d) as [->|]; [left|right; apply IH; (done || lia)].
  unfold dir_frames. rewrite Hp. apply elem_of_app. right. by apply list_elem_of_singleton.
Qed.

(** The frames of the entries can be freed one after the other: each is reserved, none is
    owned twice, and none serves the rest of the address space. *)
Record exclusive (n : nat) (d : Z) s : Prop := {
  ex_nodup : NoDup (user_frames n d s);
  ex_reserved : Forall (fun f => f mod 4096 = 0 /\ fa_frame (frames s) f = Reserved) (user_frames n d s);
  ex_cr3 : cr3 s ∉ user_frames n d s;
  ex_tables x : 0 <= x < 1023 -> ~ d <= x < d + Z.of_nat n -> present s x = true ->
    table_of s x ∉ user_frames n d s
}.

Lemma exclusive_tail n d s fs : vm_ok s -> 0 <= d -> d + Z.of_nat (S n) <= 1023 -> exclusive (S n) d s ->
  (present s d = false -> fs = frames s) ->
  (forall q, q mod 4096 = 0 ->
     fa_frame fs q = if bool_decide (q ∈ dir_frames s d) then Free else fa_frame (frames s) q) ->
  exclusive n (d + 1) (if present s d then with_frames (clear_dir s d) fs else s).
Proof.
  intros Hok Hd Hn [Hnd Hres Hcr Htab] Hfs Hq. cbn [user_frames] in *.
  apply NoDup_app in Hnd as (_ & Hdis & Hnd). apply Forall_app in Hres as [_ Hres].
  destruct (present s d) eqn:Ep; cycle 1.
  { split; [done|done|set_solver|]. intros x Hx Hout Hp Hin.
    assert (x <> d) by congruence. apply (Htab x); [done|lia|done|]. apply elem_of_app. by right. }
  assert (user_frames n (d + 1) (with_frames (clear_dir s d) fs) = user_frames n (d + 1) s) as Hu
    by (apply clear_user_frames; (done || lia)).
  split; rewrite ?Hu.
  - done.
  - rewrite Forall_forall in *. intros q Hin. destruct (Hres q Hin) as [Hm Hr]. split; [done|].
    cbn [frames with_frames]. rewrite Hq by done. rewrite bool_decide_false; [done|]. intros Hc. by apply (Hdis q).
  - cbn [cr3 with_frames clear_dir with_phys]. intros Hc. apply Hcr, elem_of_app. by right.
  - intros x Hx Hout Hp Hin. unfold present, table_of in Hp, Hin. change (pd (with_frames (clear_dir s d) fs) x) with (pd (clear_dir s d) x) in *.
    rewrite clear_dir_pd in *. destruct (x =? d) eqn:E; [done|]. breflect.
    apply (Htab x); [done|lia|done|]. apply elem_of_app. by right.
Qed.

Lemma reset_loop_ok n : forall d s, vm_ok s -> 0 <= d -> d + Z.of_nat n <= 1023 -> exclusive n d s ->
  exists s', reset_loop n d s = Ret s' /\ vm_ok s' /\ cr3 s' = cr3 s /\
    (forall va, PAGE_DIRECTORY_INDEX va < 1023 ->
       entry s' va = if (d <=? PAGE_DIRECTORY_INDEX va) && (PAGE_DIRECTORY_INDEX va <? d + Z.of_nat n)
                     then None else entry s va) /\
    (forall q, q mod 4096 = 0 ->
       fa_frame (frames s') q = if bool_decide (q ∈ user_frames n d s) then Free else fa_frame (frames s) q).
Proof.
  induction n as [|n IH]; intros d s Hok Hd Hn Hex; cbn [reset_loop].
  - exists s. split; [done|]. split; [done|]. split; [done|]. split.
    + intros va _. by destruct ((d <=? _) && _) eqn:E; [breflect; lia|].
    + intros q _. rewrite bool_decide_false; [done|]. by intros Hc%elem_of_nil.
  - pose proof Hex as [Hnd Hres Hcr Htab]. cbn [user_frames] in Hnd, Hres, Hcr, Htab.
    apply NoDup_app in Hnd as (Hnd1 & Hdis & _). apply Forall_app in Hres as [Hres1 _].
    destruct (reset_step s d Hok ltac:(lia) Hnd1 Hres1) as (fs & Est & Hok1 & Hfs & Hq).
    { intros Hc. apply Hcr, elem_of_app. by left. }
    { intros x Hx Hne Hp Hc. destruct (Z.le_gt_cases d x); [destruct (Z.lt_ge_cases x (d + Z.of_nat (S n)))|].
      - apply (Hdis _ Hc). apply table_in_user; [lia|done].
      - apply (Htab x); [done|lia|done|]. apply elem_of_app. by left.
      - apply (Htab x); [done|lia|done|]. apply elem_of_app. by left. }
    pose proof (exclusive_tail n d s fs Hok Hd Hn Hex Hfs Hq) as Hex1.
    destruct (vload s (current_pagedir + 4 * d)) as [e|]; [|done]. cbn [mbind outcome_bind] in Est |- *.
    rewrite Est. cbn [mbind outcome_bind].
    set (s1 := if present s d then with_frames (clear_dir s d) fs else s) in *.
    assert (vm_ok s1 /\ cr3 s1 = cr3 s /\ user_frames n (d + 1) s1 = user_frames n (d + 1) s /\ frames s1 = fs /\
            (forall va, PAGE_DIRECTORY_INDEX va < 1023 ->
               entry s1 va = if PAGE_DIRECTORY_INDEX va =? d then None else entry s va))
      as (Hok1' & Hc1 & Hu1 & Hf1 & He1).
    { unfold s1. destruct (present s d) eqn:Ep.
      - split; [by apply Hok1|]. split; [done|]. split; [apply clear_user_frames; (done || lia)|]. split; [done|].
        intros va Hva. apply clear_dir_entry; (done || lia || by apply Hok1).
      - split; [done|]. split; [done|]. split; [done|]. split; [symmetry; by apply Hfs|].
        intros va Hva. destruct (PAGE_DIRECTORY_INDEX va =? d) eqn:E; [|done]. breflect.
        rewrite entry_eq by done. cbv zeta. by rewrite E, Ep. }
    destruct (IH (d + 1) s1 Hok1' ltac:(lia) ltac:(lia) Hex1) as (s' & E' & Hok' & Hc' & He' & Hq').
    exists s'. split; [done|]. split; [done|]. split; [congruence|]. split.
    + intros va Hva. rewrite He', He1 by done.
      destruct (PAGE_DIRECTORY_INDEX va =? d) eqn:E1, ((d + 1 <=? PAGE_DIRECTORY_INDEX va) && _) eqn:E2,
        ((d <=? PAGE_DIRECTORY_INDEX va) && _) eqn:E3; try done; breflect; breflect_cases; lia.
    + intros q Hqm. rewrite Hq', Hu1, Hf1, Hq by done. cbn [user_frames].
      destruct (decide (q ∈ user_frames n (d + 1) s)), (decide (q ∈ dir_frames s d));
        rewrite ?(bool_decide_true (q ∈ user_frames _ _ _)), ?(bool_decide_false (q ∈ user_frames _ _ _)),
          ?(bool_decide_true (q ∈ dir_frames _ _)), ?(bool_decide_false (q ∈ dir_frames _ _)) by done;
        rewrite ?bool_decide_true by (apply elem_of_app; auto); try done.
      rewrite bool_decide_false; [done|]. by intros [?|?]%elem_of_app.
Qed.
End spaces.

(** ** Frames behind the user half *)
Section user_entries.
Context {F : Type} `{FrameAllocator F}.
Implicit Types s : vmm F.

Lemma table_frame_in n : forall i p t j, i <= j < i + Z.of_nat n -> Z.testbit (pload p (t + 4 * j)) 0 = true ->
  Z.land (pload p (t + 4 * j)) PTE_FRAME ∈ table_frames n i p t.
Proof.
  induction n as [|n IH]; intros i p t j Hj Hb; [lia|]. cbn [table_frames]. apply elem_of_app.
  destruct (decide (j = i)) as [->|]; [left|right; apply IH; [lia|done]].
  rewrite Hb. by apply list_elem_of_singleton.
Qed.

Lemma dir_frames_user n : forall d s x f, d <= x < d + Z.of_nat n -> f ∈ dir_frames s x -> f ∈ user_frames n d s.
Proof.
  induction n as [|n IH]; intros d s x f Hx Hf; [lia|]. cbn [user_frames]. apply elem_of_app.
  destruct (decide (x = d)) as [->|]; [by left|right; apply (IH _ _ x); [lia|done]].
Qed.

(** The frame a walk of a page in the reset area finds is one of the user half. *)
Lemma walk_user_frame s va e : vm_ok s -> 0 <= va < 0xBFC00000 -> walk (phys s) (cr3 s) va = Some e ->
  Z.land e.2 PTE_FRAME ∈ user_frames 767 0 s /\ Z.land e.2 PTE_FRAME mod 4096 = 0.
Proof.
  intros Hok Hva Hw. rewrite walk_eq in Hw by done. cbv zeta in Hw.
  assert (0 <= PAGE_DIRECTORY_INDEX va < 767).
  { rewrite dir_index_eq, Z.mod_small by (split; [apply Z.div_pos; lia|apply Z.div_lt_upper_bound; lia]).
    split; [apply Z.div_pos; lia|apply Z.div_lt_upper_bound; lia]. }
  destruct (present s (PAGE_DIRECTORY_INDEX va)) eqn:Ep; [|done].
  destruct (Z.testbit (pload _ _) 0) eqn:Eb; [|done]. injection Hw as <-. cbn [snd].
  split; [|by apply land_frame_range, pload_range].
  apply (dir_frames_user _ _ _ (PAGE_DIRECTORY_INDEX va)); [lia|]. unfold dir_frames. rewrite Ep.
  apply elem_of_app. left. apply table_frame_in; [|done]. pose proof (table_index_range va). lia.
Qed.
End user_entries.

(** C7: [vmm_reset_current_pagedir], which [exec] runs before it loads a program, gives back
    exactly the frames of the user half: when they are reserved, owned once and not used by
    the rest of the address space, the call returns, in the page tables every page below the
    last 4 MiB of the user area (which holds the kernel stack) is unmapped and every page
    above is as before, the frames of the unmapped pages and of their page tables are free
    and no other frame changes. The code does not reload [cr3]: a translation of one of those
    pages cached before the call is still used by the processor afterwards, although the
    frame it leads to is free; once [cr3] is loaded (the next [vmm_map] does that) the
    processor translates none of them. *)
Theorem vmm_reset_spec {F : Type} `{FrameAllocator F} (s : vmm F) :
  vm_ok s -> exclusive 767 0 s ->
  exists s', vmm_reset_current_pagedir s = Ret s' /\ vm_ok s' /\ cr3 s' = cr3 s /\
    (forall va, managed va -> entry s' va = if va <? 0xBFC00000 then None else entry s va) /\
    (forall q, q mod 4096 = 0 ->
       fa_frame (frames s') q = if bool_decide (q ∈ user_frames 767 0 s) then Free else fa_frame (frames s) q) /\
    (forall t va e, tlb_coherent t (phys s) (cr3 s) -> 0 <= va < 0xBFC00000 -> t !! (va / 4096) = Some e ->
       tlb_walk t (phys s') (cr3 s') va = Some e /\
       fa_frame (frames s) (Z.land e.2 PTE_FRAME) = Reserved /\
       fa_frame (frames s') (Z.land e.2 PTE_FRAME) = Free) /\
    (forall va, 0 <= va < 0xBFC00000 -> tlb_walk flush_tlb (phys s') (cr3 s') va = None).
Proof.
  intros Hok Hex. destruct (reset_loop_ok 767 0 s Hok ltac:(lia) ltac:(lia) Hex) as (s' & E & Hok' & Hc & He & Hq).
  assert (forall va, managed va -> entry s' va = if va <? 0xBFC00000 then None else entry s va) as Hent.
  { intros va Hva. rewrite He by (by apply managed_dir). unfold managed in Hva.
    rewrite dir_index_eq, Z.mod_small by (split; [apply Z.div_pos; lia|apply Z.div_lt_upper_bound; lia]).
    assert ((0 <=? va / 2 ^ 22) && (va / 2 ^ 22 <? 0 + Z.of_nat 767) = (va <? 0xBFC00000)) as ->; [|done].
    apply eq_true_iff_eq. rewrite andb_true_iff, Z.leb_le, !Z.ltb_lt.
    pose proof (Z.div_mod va (2 ^ 22)). pose proof (Z.mod_pos_bound va (2 ^ 22)). lia. }
  exists s'. split; [exact E|]. split; [done|]. split; [done|]. split; [done|]. split; [exact Hq|]. split.
  - intros t va e Ht Hva Hte. split; [unfold tlb_walk; by rewrite Hte|].
    destruct (walk_user_frame s va e Hok Hva) as [Hin Hm]; [by apply Ht; [lia|]|].
    split; [|by rewrite Hq, bool_decide_true by done].
    pose proof (ex_reserved _ _ _ Hex) as Hres. rewrite Forall_forall in Hres. by apply Hres.
  - intros va Hva. unfold tlb_walk, flush_tlb. rewrite lookup_empty.
    specialize (Hent va ltac:(unfold managed; lia)). rewrite (proj2 (Z.ltb_lt _ _)) in Hent by lia.
    unfold entry in Hent. by destruct (walk (phys s') (cr3 s') va) as [[? ?]|].
Qed.

(** ** Words of mapped pages *)
Section pages.
Context {F : Type} `{FrameAllocator F}.
Implicit Types s : vmm F.

Lemma page_word_index va i : va mod 4096 = 0 -> 0 <= i < 1024 ->
  PAGE_DIRECTORY_INDEX (va + 4 * i) = PAGE_DIRECTORY_INDEX va /\
  PAGE_TABLE_INDEX (va + 4 * i) = PAGE_TABLE_INDEX va /\ Z.land (va + 4 * i) 0xFFF = 4 * i.
Proof.
  intros Ha Hi. assert (va = va / 4096 * 4096) as Hv by (pose proof (Z.div_mod va 4096); lia).
  assert ((va + 4 * i) / 4096 = va / 4096) as Hd.
  { rewrite Hv at 1. rewrite Z.add_comm, Z.div_add, Z.div_small by lia. lia. }
  rewrite !dir_index_eq, !table_index_eq. change (2 ^ 22) with (4096 * 1024). change (2 ^ 12) with 4096.
  rewrite <- !Z.div_div, Hd by lia. split; [done|]. split; [done|].
  change 0xFFF with (2 ^ 12 - 1). rewrite land_ones_mod by lia. change (2 ^ 12) with 4096.
  rewrite Hv, Z.add_comm, Z.mod_add, Z.mod_small by lia. done.
Qed.

Lemma walk_mapped s va f fl i : vm_ok s -> va mod 4096 = 0 -> 0 <= i < 1024 -> entry s va = Some (f, fl) ->
  exists pde pte, walk (phys s) (cr3 s) (va + 4 * i) = Some (pde, pte) /\ phys_of pte (va + 4 * i) = f + 4 * i /\
    pde = pd s (PAGE_DIRECTORY_INDEX va) /\ present s (PAGE_DIRECTORY_INDEX va) = true /\
    Z.testbit pte 1 = Z.testbit fl 1.
Proof.
  intros Hok Ha Hi He. destruct (page_word_index va i Ha Hi) as (H1 & H2 & H3).
  unfold entry in He. rewrite walk_eq in He by done. rewrite walk_eq by done. cbv zeta in *. rewrite H1, H2.
  destruct (present s _) eqn:Ep; [|done]. destruct (Z.testbit (pload _ _) 0); [|done].
  injection He as Hf Hfl. eexists _, _. split; [done|]. unfold phys_of. rewrite H3, Hf. split; [done|].
  split; [done|]. split; [done|]. rewrite <- Hfl, land_flags. by rewrite (Z.mod_pow2_bits_low _ 12) by lia.
Qed.

Lemma vload_mapped s va f fl i : vm_ok s -> va mod 4096 = 0 -> 0 <= i < 1024 -> entry s va = Some (f, fl) ->
  vload s (va + 4 * i) = Ret (pload (phys s) (f + 4 * i)).
Proof.
  intros Hok Ha Hi He. destruct (walk_mapped s va f fl i Hok Ha Hi He) as (pde & pte & Hw & Hp & _).
  unfold vload. by rewrite (vo_paging s Hok), Hw, Hp.
Qed.

Lemma vstore_mapped s va f fl i v : vm_ok s -> va mod 4096 = 0 -> managed va -> 0 <= i < 1024 ->
  entry s va = Some (f, fl) -> Z.testbit fl 1 = true ->
  vstore s (va + 4 * i) v = Ret (with_phys s (pstore (phys s) (f + 4 * i) v)).
Proof.
  intros Hok Ha Hm Hi He Hw. destruct (walk_mapped s va f fl i Hok Ha Hi He) as (pde & pte & Ew & Hp & -> & Hpr & Ht).
  unfold vstore. rewrite (vo_paging s Hok), Ew, Hp. change PDE_WRITABLE with 2. change VMM_PAGE_WRITABLE with 2.
  rewrite !nz_bit1, Ht, Hw. rewrite (vo_writable s Hok); [done| |done].
  pose proof (dir_index_range va). pose proof (managed_dir va Hm). lia.
Qed.

(** Physical memories that agree on the words of the tables are the same address space. *)
Definition same_tables s (p : pmem) : Prop :=
  (forall a v, p !! a = Some v -> 0 <= v < 2 ^ 32) /\
  (forall d, 0 <= d < 1024 -> pload p (cr3 s + 4 * d) = pd s d) /\
  (forall d t, 0 <= d < 1023 -> present s d = true -> 0 <= t < 1024 ->
     pload p (table_of s d + 4 * t) = pload (phys s) (table_of s d + 4 * t)).

Lemma same_tables_ok s p : vm_ok s -> same_tables s p ->
  vm_ok (with_phys s p) /\ (forall d, 0 <= d < 1024 -> pd (with_phys s p) d = pd s d) /\
  (forall va, PAGE_DIRECTORY_INDEX va < 1023 -> entry (with_phys s p) va = entry s va).
Proof.
  intros Hok (Hw & Hd & Ht).
  assert (forall d, 0 <= d < 1024 -> pd (with_phys s p) d = pd s d) as Hpd by (intros d Hd'; by apply Hd).
  assert (vm_ok (with_phys s p)) as Hok'.
  { split; unfold table_of, present; cbn [with_phys paging_enabled cr3 phys frames]; try apply Hok; [done| | | |].
    - rewrite Hpd by lia. apply (vo_self s Hok).
    - intros d Hdr Hp. rewrite Hpd in * by lia. by apply (vo_writable s Hok).
    - intros d Hdr Hp. rewrite Hpd in * by lia. by apply (vo_table s Hok).
    - intros d d' Hdr Hdr' Hp Hp'. rewrite !Hpd in * by lia. by apply (vo_distinct s Hok). }
  split; [done|]. split; [done|]. intros va Hva. rewrite !entry_eq by done. cbv zeta.
  pose proof (dir_index_range va) as Hdr. unfold present, table_of. rewrite Hpd by lia. cbn [phys with_phys].
  fold (present s (PAGE_DIRECTORY_INDEX va)) (table_of s (PAGE_DIRECTORY_INDEX va)).
  destruct (present s _) eqn:Ep; [|done]. rewrite Ht by (done || lia || apply table_index_range). done.
Qed.

Lemma data_store_same s f i v : vm_ok s -> data_frame s f -> 0 <= i < 1024 ->
  same_tables s (pstore (phys s) (f + 4 * i) v).
Proof.
  intros Hok (Hm & Hc & Ht) Hi. destruct (vo_cr3 s Hok) as [_ Hcm]. split; [|split].
  - intros a w Ha. unfold pstore in Ha. destruct (Z.eq_dec a (f + 4 * i)) as [->|].
    + rewrite lookup_insert_eq in Ha. injection Ha as <-. apply u32_range.
    + rewrite lookup_insert_ne in Ha by congruence. by eapply vo_words.
  - intros d Hd. rewrite pload_pstore, (proj2 (Z.eqb_neq _ _)); [done|]. intros E.
    apply (page_words_apart _ _ _ _ Hcm Hm Hd Hi) in E as [E _]. congruence.
  - intros d t Hd Hp Htr. rewrite pload_pstore, (proj2 (Z.eqb_neq _ _)); [done|]. intros E.
    apply (page_words_apart _ _ _ _ (proj2 (table_range s d Hok)) Hm Htr Hi) in E as [E _]. by apply (Ht d).
Qed.

(** ** Copying the kernel half into another directory *)
Fixpoint copied (n : nat) (i : Z) (e : Z -> Z) (p : pmem) (pa : Z) : pmem :=
  match n with
  | O => p
  | S n => copied n (i + 1) e (pstore p (pa + 4 * i) (e i)) pa
  end.

Lemma pload_copied_out n : forall i e p pa a, (forall j, i <= j < i + Z.of_nat n -> a <> pa + 4 * j) ->
  pload (copied n i e p pa) a = pload p a.
Proof.
  induction n as [|n IH]; intros i e p pa a Ha; cbn [copied]; [done|].
  rewrite IH, pload_pstore by (intros j Hj; apply Ha; lia).
  by rewrite (proj2 (Z.eqb_neq _ _)) by (apply Ha; lia).
Qed.

Lemma pload_copied_in n : forall i e p pa j, i <= j < i + Z.of_nat n ->
  pload (copied n i e p pa) (pa + 4 * j) = u32 (e j).
Proof.
  induction n as [|n IH]; intros i e p pa j Hj; cbn [copied]; [lia|].
  destruct (Z.eq_dec j i) as [->|]; [|apply IH; lia].
  rewrite pload_copied_out by (intros; lia). by rewrite pload_pstore, Z.eqb_refl.
Qed.

Lemma copied_ext n : forall i e e' p pa, (forall j, i <= j < i + Z.of_nat n -> e j = e' j) ->
  copied n i e p pa = copied n i e' p pa.
Proof.
  induction n as [|n IH]; intros i e e' p pa He; cbn [copied]; [done|].
  rewrite (He i) by lia. apply IH. intros j Hj. apply He. lia.
Qed.

Lemma copy_entries_ok n : forall i s pagedir pa fl, vm_ok s -> pagedir mod 4096 = 0 -> managed pagedir ->
  entry s pagedir = Some (pa, fl) -> Z.testbit fl 1 = true -> data_frame s pa -> 0 <= i -> i + Z.of_nat n <= 1024 ->
  copy_entries n i s pagedir = Ret (with_phys s (copied n i (pd s) (phys s) pa)) /\
  same_tables s (copied n i (pd s) (phys s) pa).
Proof.
  induction n as [|n IH]; intros i s pagedir pa fl Hok Ha Hm He Hw Hd Hi Hn; cbn [copy_entries copied].
  - split; [by destruct s|]. split; [apply Hok|done].
  - rewrite vload_dir by (done || lia). cbn [mbind outcome_bind].
    rewrite (vstore_mapped s pagedir pa fl) by (done || lia). cbn [mbind outcome_bind].
    set (p1 := pstore (phys s) (pa + 4 * i) (pd s i)).
    pose proof (data_store_same s pa i (pd s i) Hok Hd ltac:(lia)) as Hst. fold p1 in Hst.
    destruct (same_tables_ok s p1 Hok Hst) as (Hok1 & Hpd1 & He1).
    assert (forall d, 0 <= d < 1024 -> present (with_phys s p1) d = present s d /\ table_of (with_phys s p1) d = table_of s d) as Hpt.
    { intros d Hdr. unfold present, table_of. by rewrite Hpd1. }
    destruct (IH (i + 1) (with_phys s p1) pagedir pa fl) as [E Hst1]; try done; try lia.
    { by rewrite He1 by (by apply managed_dir). }
    { destruct Hd as (H1 & H2 & H3). split; [done|]. split; [done|]. intros d Hdr Hp.
      destruct (Hpt d ltac:(lia)) as [E1 E2]. rewrite E2. apply H3; [done|]. by rewrite <- E1. }
    assert (copied n (i + 1) (pd (with_phys s p1)) p1 pa = copied n (i + 1) (pd s) p1 pa) as Hcop.
    { apply copied_ext. intros j Hj. apply Hpd1. lia. }
    cbn [phys with_phys] in E, Hst1. rewrite Hcop in E, Hst1. split; [exact E|].
    destruct Hst1 as (W & D & T). split; [exact W|]. split.
    + intros d Hdr. rewrite <- (Hpd1 d Hdr). by apply (D d).
    + intros d t Hdr Hp Ht. destruct (Hpt d ltac:(lia)) as [E1 E2]. rewrite <- E2.
      rewrite (T d t) by (done || congruence). cbn [phys with_phys]. destruct Hst as (_ & _ & T0). rewrite E2. by apply T0.
Qed.
End pages.

(** ** Switching to another address space *)
Section switch.
Context {F : Type} `{FrameAllocator F}.
Implicit Types s : vmm F.

(** The processor with another page directory. *)
Definition in_space s (pa : Z) : vmm F :=
  mkVmm (phys s) pa (cr0 s) (frames s) (paging_enabled s) (current_pagedir_va s) (transient_maps s).

(** The directory at [pa] describes a user half that shares nothing with the kernel's, and
    names itself in its last entry. *)
Record space_ok s (pa : Z) : Prop := {
  so_used : fa_frame (frames s) pa <> Free;
  so_self : table_of (in_space s pa) 1023 = pa /\ present (in_space s pa) 1023 = true /\
    Z.testbit (pd (in_space s pa) 1023) 1 = true;
  so_user d : 0 <= d < 768 -> present (in_space s pa) d = true ->
    Z.testbit (pd (in_space s pa) d) 1 = true /\ table_of (in_space s pa) d <> pa /\
    fa_frame (frames s) (table_of (in_space s pa) d) <> Free /\
    forall k, 768 <= k < 1023 -> present s k = true -> table_of (in_space s pa) d <> table_of s k;
  so_distinct d d' : 0 <= d < 768 -> 0 <= d' < 768 -> present (in_space s pa) d = true ->
    present (in_space s pa) d' = true -> table_of (in_space s pa) d = table_of (in_space s pa) d' -> d = d'
}.

(** The state after the kernel half was copied, with the processor on the other directory. *)
Definition switched_space s (pa : Z) : vmm F :=
  in_space (with_phys s (copied kernel_pdes KERNEL_PDE_START (pd s) (phys s) pa)) pa.

Lemma switched_pd s pa d : vm_ok s -> 0 <= d < 1024 ->
  pd (switched_space s pa) d = if (768 <=? d) && (d <? 1023) then pd s d else pd (in_space s pa) d.
Proof.
  intros Hok Hd. unfold pd at 1. cbn [phys cr3 switched_space in_space with_phys].
  change kernel_pdes with 255%nat. change KERNEL_PDE_START with 768.
  destruct ((768 <=? d) && (d <? 1023)) eqn:E; breflect.
  - rewrite pload_copied_in by lia. apply u32_small. by apply pload_range.
  - rewrite pload_copied_out; [done|]. intros j Hj Ej. breflect_cases; lia.
Qed.

(** Words outside the directory at [pa] are not changed by the copy. *)
Lemma switched_word s pa t i : pa mod 4096 = 0 -> t mod 4096 = 0 -> t <> pa -> 0 <= i < 1024 ->
  pload (phys (switched_space s pa)) (t + 4 * i) = pload (phys s) (t + 4 * i).
Proof.
  intros Hpa Ht Hne Hi. cbn [phys switched_space in_space with_phys]. rewrite pload_copied_out; [done|].
  change kernel_pdes with 255%nat. change KERNEL_PDE_START with 768. intros j Hj E.
  apply (page_words_apart _ _ _ _ Ht Hpa Hi) in E as [? _]; [done|lia].
Qed.

Lemma switched_ok s pa : vm_ok s -> 0 <= pa < 2 ^ 32 -> data_frame s pa -> space_ok s pa ->
  same_tables s (copied kernel_pdes KERNEL_PDE_START (pd s) (phys s) pa) -> vm_ok (switched_space s pa).
Proof.
  intros Hok Hpr (Hpm & Hpc & Hpt) Hsp (Hw & _). pose proof (fun d => switched_pd s pa d Hok) as Hpd.
  assert (forall d, 0 <= d < 768 -> present (switched_space s pa) d = present (in_space s pa) d /\
    table_of (switched_space s pa) d = table_of (in_space s pa) d /\
    Z.testbit (pd (switched_space s pa) d) 1 = Z.testbit (pd (in_space s pa) d) 1) as Hu.
  { intros d Hd. unfold present, table_of. rewrite Hpd by lia.
    by rewrite (proj2 (andb_false_iff _ _)) by (left; apply Z.leb_gt; lia). }
  assert (forall d, 768 <= d < 1023 -> present (switched_space s pa) d = present s d /\
    table_of (switched_space s pa) d = table_of s d /\
    Z.testbit (pd (switched_space s pa) d) 1 = Z.testbit (pd s d) 1) as Hk.
  { intros d Hd. unfold present, table_of. rewrite Hpd by lia.
    by rewrite (proj2 (andb_true_iff _ _)) by (split; [apply Z.leb_le|apply Z.ltb_lt]; lia). }
  split.
  - apply Hok.
  - done.
  - exact Hw.
  - unfold table_of, present. rewrite Hpd by lia. apply (so_self s pa Hsp).
  - apply Hok.
  - apply (so_used s pa Hsp).
  - intros d Hd Hp. destruct (Z.lt_ge_cases d 768).
    + destruct (Hu d ltac:(lia)) as (E1 & _ & E3). rewrite E3. apply (so_user s pa Hsp); [lia|congruence].
    + destruct (Hk d ltac:(lia)) as (E1 & _ & E3). rewrite E3. apply (vo_writable s Hok); [lia|congruence].
  - intros d Hd Hp. change (cr3 (switched_space s pa)) with pa. change (frames (switched_space s pa)) with (frames s).
    destruct (Z.lt_ge_cases d 768).
    + destruct (Hu d ltac:(lia)) as (E1 & E2 & _). rewrite E2.
      destruct (so_user s pa Hsp d ltac:(lia) ltac:(congruence)) as (_ & ? & ? & _). done.
    + destruct (Hk d ltac:(lia)) as (E1 & E2 & _). rewrite E2. rewrite E1 in Hp. split; [apply Hpt; (done || lia)|].
      apply (vo_table s Hok); (done || lia).
  - intros d d' Hd Hd' Hp Hp' Het.
    destruct (Z.lt_ge_cases d 768), (Z.lt_ge_cases d' 768).
    + destruct (Hu d ltac:(lia)) as (E1 & E2 & _), (Hu d' ltac:(lia)) as (E1' & E2' & _).
      apply (so_distinct s pa Hsp); (lia || congruence).
    + destruct (Hu d ltac:(lia)) as (E1 & E2 & _), (Hk d' ltac:(lia)) as (E1' & E2' & _).
      destruct (so_user s pa Hsp d ltac:(lia) ltac:(congruence)) as (_ & _ & _ & Hx).
      destruct (Hx d'); [lia|congruence|congruence].
    + destruct (Hk d ltac:(lia)) as (E1 & E2 & _), (Hu d' ltac:(lia)) as (E1' & E2' & _).
      destruct (so_user s pa Hsp d' ltac:(lia) ltac:(congruence)) as (_ & _ & _ & Hx).
      destruct (Hx d); [lia|congruence|congruence].
    + destruct (Hk d ltac:(lia)) as (E1 & E2 & _), (Hk d' ltac:(lia)) as (E1' & E2' & _).
      apply (vo_distinct s Hok); (lia || congruence).
Qed.

Lemma switched_entry s pa va : vm_ok s -> 0 <= pa < 2 ^ 32 -> data_frame s pa -> space_ok s pa ->
  vm_ok (switched_space s pa) -> managed va ->
  entry (switched_space s pa) va = if va <? KERNEL_START then entry (in_space s pa) va else entry s va.
Proof.
  intros Hok Hpr (Hpm & Hpc & Hpt) Hsp Hok' Hva. pose proof (managed_dir va Hva) as Hd.
  pose proof (dir_index_range va) as Hdr. pose proof (table_index_range va) as Htr.
  assert ((768 <=? PAGE_DIRECTORY_INDEX va) && (PAGE_DIRECTORY_INDEX va <? 1023) = negb (va <? KERNEL_START)) as Hk.
  { unfold managed in Hva. rewrite dir_index_eq, Z.mod_small in * by (split; [apply Z.div_pos; lia|apply Z.div_lt_upper_bound; lia]).
    apply eq_true_iff_eq. rewrite andb_true_iff, negb_true_iff, Z.leb_le, Z.ltb_lt, Z.ltb_ge. unfold KERNEL_START.
    pose proof (Z.div_mod va (2 ^ 22)). pose proof (Z.mod_pos_bound va (2 ^ 22)). lia. }
  rewrite entry_eq by done. cbv zeta. unfold present, table_of. rewrite switched_pd by (done || lia).
  rewrite Hk. destruct (va <? KERNEL_START) eqn:Ev; cbn [negb].
  - destruct (entry_at (in_space s pa) va Hpr Hpm) as [_ ->]. fold (present (in_space s pa) (PAGE_DIRECTORY_INDEX va)).
    destruct (present (in_space s pa) (PAGE_DIRECTORY_INDEX va)) eqn:Ep; [|done].
    assert (PAGE_DIRECTORY_INDEX va < 768).
    { apply andb_false_iff in Hk as [Hk|Hk]; breflect; lia. }
    destruct (so_user s pa Hsp (PAGE_DIRECTORY_INDEX va)) as (_ & Hne & _); [lia|done|].
    fold (table_of (in_space s pa) (PAGE_DIRECTORY_INDEX va)). rewrite (switched_word s pa) by (done || apply (land_frame_range (pd (in_space s pa) _)); by apply (pload_range s)).
    done.
  - rewrite entry_eq by done. cbv zeta. fold (present s (PAGE_DIRECTORY_INDEX va)).
    destruct (present s (PAGE_DIRECTORY_INDEX va)) eqn:Ep; [|done].
    fold (table_of s (PAGE_DIRECTORY_INDEX va)). rewrite switched_word; [done|done| | |done].
    + by apply table_range.
    + apply Hpt; (done || lia).
Qed.
End switch.

(** C8: [vmm_switch_pagedir] to the directory mapped at a kernel page: the kernel half of the
    running address space is copied into it and the processor continues with it. The new
    address space is well formed, its kernel half maps what the old one mapped, its user
    half what the directory described before, and no frame changes its state. A directory
    that does not name itself in its last entry stops the kernel. *)
Theorem vmm_switch_spec {F : Type} `{FrameAllocator F} (s : vmm F) (pagedir pa fl : Z) :
  vm_ok s -> pagedir mod 4096 = 0 -> managed pagedir -> entry s pagedir = Some (pa, fl) -> Z.testbit fl 1 = true ->
  data_frame s pa ->
  (space_ok s pa -> exists s', vmm_switch_pagedir s pagedir = Ret s' /\ vm_ok s' /\ cr3 s' = pa /\
     vmm_current_pagedir s' = Ret pagedir /\ frames s' = frames s /\
     forall va, managed va -> entry s' va = if va <? KERNEL_START then entry (in_space s pa) va else entry s va) /\
  (let e := pload (phys s) (pa + 4 * 1023) in
   Z.land e PDE_FRAME <> pa \/ Z.testbit e 0 = false \/ Z.testbit e 1 = false ->
   vmm_switch_pagedir s pagedir = Fault FAssert).
Proof.
  intros Hok Ha Hm He Hw Hdf. pose proof (managed_dir _ Hm) as Hdir.
  destruct (copy_entries_ok kernel_pdes KERNEL_PDE_START s pagedir pa fl Hok Ha Hm He Hw Hdf ltac:(done) ltac:(done)) as [Ec Hst].
  destruct (same_tables_ok s _ Hok Hst) as (Hok1 & _ & He1).
  set (p := copied kernel_pdes KERNEL_PDE_START (pd s) (phys s) pa) in *.
  assert (entry (with_phys s p) pagedir = Some (pa, fl)) as He' by (by rewrite He1).
  assert (pload p (pa + 4 * 1023) = pload (phys s) (pa + 4 * 1023)) as H1023.
  { unfold p. rewrite pload_copied_out; [done|]. change kernel_pdes with 255%nat. change KERNEL_PDE_START with 768. lia. }
  assert (vmm_switch_pagedir s pagedir =
    (_ ← c_assert (Z.land (pload (phys s) (pa + 4 * 1023)) PDE_FRAME =? pa);
     _ ← c_assert (Z.testbit (pload (phys s) (pa + 4 * 1023)) 0);
     _ ← c_assert (Z.testbit (pload (phys s) (pa + 4 * 1023)) 1);
     Ret (mkVmm p pa (cr0 s) (frames s) (paging_enabled s) pagedir (transient_maps s)))) as Erun.
  { unfold vmm_switch_pagedir, vmm_copy_kernel_mappings, IS_ALIGNED. change PAGE_SIZE with 4096. rewrite Ha, Ec.
    cbn [Z.eqb c_assert mbind outcome_bind]. destruct (get_physical_eq (with_phys s p) pagedir Hok1 Ha) as [Eg _].
    rewrite Eg, He'. cbn [from_option fst mbind outcome_bind]. change RECURSIVE_MAPPING_PDE with 1023.
    rewrite (vload_mapped _ _ pa fl) by (done || lia).
    cbn [phys with_phys mbind outcome_bind]. rewrite H1023. change PDE_PRESENT with 1. change PDE_WRITABLE with 2.
    rewrite nz_bit0, nz_bit1. set (e := pload (phys s) (pa + 4 * 1023)).
    destruct (Z.land e PDE_FRAME =? pa); [|done]. destruct (Z.testbit e 0); [|done].
    destruct (Z.testbit e 1); [|done]. cbn [c_assert mbind outcome_bind]. by rewrite Eg, He'. }
  split.
  - intros Hsp. destruct (so_self s pa Hsp) as (S1 & S2 & S3). unfold present, table_of in S1, S2.
    unfold pd in S1, S2, S3. cbn [phys cr3 in_space] in S1, S2, S3. rewrite S1, Z.eqb_refl, S2, S3 in Erun.
    assert (0 <= pa < 2 ^ 32) as Hpr.
    { rewrite <- S1. apply land_frame_range. by apply pload_range. }
    pose proof (switched_ok s pa Hok Hpr Hdf Hsp Hst) as Hok2.
    eexists. split; [exact Erun|]. split; [destruct Hok2; by split|]. split; [done|].
    split; [unfold vmm_current_pagedir; cbn [paging_enabled]; by rewrite (vo_paging s Hok)|]. split; [done|].
    intros va Hva. by apply (switched_entry s pa va).
  - intros e [Hc|[Hc|Hc]]; rewrite Erun; fold e.
    + by rewrite (proj2 (Z.eqb_neq _ _)).
    + rewrite Hc. by destruct (_ =? pa).
    + rewrite Hc. destruct (_ =? pa); [|done]. by destruct (Z.testbit e 0).
Qed.

(** Two address spaces: one runs, with a user page, and maps the directory of the other at the
    first kernel page. *)
Definition sample_memory : pmem :=
  <[0x3000 + 4 * 1 := 0x100007]> (<[0x3000 + 4 * 768 := 0x4003]> (<[0x3000 + 4 * 1023 := 0x3003]>
  (<[0x5000 + 4 * 1 := 0x102007]> (<[0x5000 + 4 * 1023 := 0x5003]>
  (<[0x4000 := 0x5003]> (<[0x100000 := 0x101007]> (<[0x102000 := 0x103007]> ∅))))))).
Definition sample_space : vmm pmm :=
  mkVmm sample_memory 0x3000 0 (mkPmm true [mkRegion 0x100000 0x20000 (mkBitset 32 1 [15])]) true 0 [].

Lemma sample_pd d : 0 <= d < 1024 ->
  pd sample_space d = (if d =? 1 then 0x100007 else if d =? 768 then 0x4003 else if d =? 1023 then 0x3003 else 0) /\
  pd (in_space sample_space 0x5000) d = (if d =? 1 then 0x102007 else if d =? 1023 then 0x5003 else 0).
Proof.
  intros Hd. unfold pd, pload. cbn [phys cr3 sample_space in_space]. unfold sample_memory.
  destruct (d =? 1) eqn:E1; breflect; [by subst|]. destruct (d =? 768) eqn:E2; breflect; [by subst|].
  destruct (d =? 1023) eqn:E3; breflect; [by subst|]. rewrite !lookup_insert_ne by lia. by rewrite !lookup_empty.
Qed.

Lemma sample_pmm_fields : fa_wf (frames sample_space).
Proof.
  cbn. split; [|split; [constructor|done]]. split; cbn; try lia; try done. split; cbn; try lia; try done.
  repeat constructor; lia.
Qed.

Lemma sample_present d : 0 <= d < 1023 -> present sample_space d = true ->
  (d = 1 /\ table_of sample_space d = 0x100000) \/ (d = 768 /\ table_of sample_space d = 0x4000).
Proof.
  intros Hd. unfold present, table_of. destruct (sample_pd d ltac:(lia)) as [-> _].
  destruct (d =? 1) eqn:E1; breflect; [by left|]. destruct (d =? 768) eqn:E2; breflect; [by right|].
  by rewrite (proj2 (Z.eqb_neq d 1023)) by lia.
Qed.

Lemma sample_space_ok : vm_ok sample_space.
Proof.
  split.
  - done.
  - done.
  - intros a v. cbn [phys sample_space]. unfold sample_memory. rewrite !lookup_insert_Some, lookup_empty.
    intros Hv. repeat destruct Hv as [[_ <-]|[_ Hv]]; (lia || done).
  - vm_compute. done.
  - apply sample_pmm_fields.
  - vm_compute. discriminate.
  - intros d Hd Hp. by destruct (sample_present d Hd Hp) as [[-> _]|[-> _]].
  - intros d Hd Hp. destruct (sample_present d Hd Hp) as [[-> ->]|[-> ->]]; by vm_compute.
  - intros d d' Hd Hd' Hp Hp'.
    destruct (sample_present d Hd Hp) as [[-> ->]|[-> ->]], (sample_present d' Hd' Hp') as [[-> ->]|[-> ->]]; done.
Qed.

Lemma sample_frames : user_frames 767 0 sample_space = [0x101000; 0x100000].
Proof. vm_compute. reflexivity. Qed.

Lemma vmm_reset_spec_witness : exists s', vmm_reset_current_pagedir sample_space = Ret s' /\ vm_ok s' /\
  entry s' 0x400000 = None /\ entry s' 0xC0000000 = Some (0x5000, 3) /\ fa_frame (frames s') 0x101000 = Free.
Proof.
  destruct (vmm_reset_spec sample_space sample_space_ok) as (s' & E & Hok & _ & He & Hq & _).
  - split; rewrite ?sample_frames.
    + repeat constructor; set_solver.
    + repeat constructor.
    + set_solver.
    + intros x Hx Hout Hp. destruct (sample_present x Hx Hp) as [[-> _]|[_ ->]]; [lia|]. set_solver.
  - exists s'. split; [exact E|]. split; [exact Hok|]. split; [|split].
    + by rewrite He by (unfold managed; lia).
    + by rewrite He by (unfold managed; lia).
    + rewrite Hq by reflexivity. by rewrite sample_frames.
Defined.

Lemma vmm_switch_spec_witness : exists s', vmm_switch_pagedir sample_space 0xC0000000 = Ret s' /\ vm_ok s' /\
  entry s' 0x400000 = Some (0x103000, 7) /\ entry s' 0xC0000000 = Some (0x5000, 3).
Proof.
  destruct (vmm_switch_spec sample_space 0xC0000000 0x5000 3 sample_space_ok) as [H _];
    [reflexivity|unfold managed; lia|reflexivity|reflexivity| |].
  - split; [reflexivity|]. split; [discriminate|]. intros d Hd Hp.
    by destruct (sample_present d Hd Hp) as [[_ ->]|[_ ->]].
  - destruct H as (s' & E & Hok & _ & _ & _ & He).
    + assert (forall d, 0 <= d < 768 -> present (in_space sample_space 0x5000) d = true -> d = 1) as Hd1.
      { intros d Hd Hp. unfold present in Hp. destruct (sample_pd d ltac:(lia)) as [_ Hb]. rewrite Hb in Hp.
        destruct (d =? 1) eqn:E1; breflect; [done|]. by rewrite (proj2 (Z.eqb_neq d 1023)) in Hp by lia. }
      split.
      * vm_compute. discriminate.
      * vm_compute. done.
      * intros d Hd Hp. apply Hd1 in Hp as ->; [|done]. split; [reflexivity|]. split; [vm_compute; discriminate|].
        split; [vm_compute; discriminate|]. intros k Hk Hpk.
        destruct (sample_present k ltac:(lia) Hpk) as [[-> _]|[_ ->]]; [lia|]. vm_compute. discriminate.
      * intros d d' Hd Hd' Hp Hp' _. apply Hd1 in Hp as ->; [|done]. by apply Hd1 in Hp' as ->.
    + exists s'. split; [exact E|]. split; [exact Hok|].
      split; rewrite He by (unfold managed; lia); reflexivity.
Defined.
