(* ===== verification/VmmHeap.v ===== *)
(** The kernel heap as the virtual memory manager uses it ([kernel/vmm.c] calls [kmalloc_a],
    [kmalloc] and [kfree], whose growth may map pages), and the transient mappings built on
    it: a page of the heap is pointed at a frame for a while and pointed back
    ([vmm_transient_map], [vmm_transient_unmap]). *)
From S2P Require Import Prelude Util Bitset Pmm Vmm VmmSpec VmmClaims VmmSpaces.

(** Membership in and inclusion of small sets of pages. *)
Ltac pages :=
  lazymatch goal with |- _ ⊆ _ => apply elem_of_subseteq; intros ? | _ => idtac end;
  rewrite ?elem_of_difference, ?elem_of_union, ?elem_of_singleton, ?elem_of_empty; clear; intuition auto.

(** The addresses of the kernel heap. *)
Class HeapRange : Type := { kh_lo : Z; kh_hi : Z }.

Definition heap_page `{HeapRange} (va : Z) : Prop :=
  va mod 4096 = 0 /\ kh_lo <= va < kh_hi /\ KERNEL_START <= va < 0xFFC00000.

Lemma heap_managed `{HeapRange} va : heap_page va -> va mod 4096 = 0 /\ managed va.
Proof. unfold heap_page, managed, KERNEL_START. lia. Qed.

Lemma heap_dir `{HeapRange} va : heap_page va -> 768 <= PAGE_DIRECTORY_INDEX va < 1023.
Proof.
  intros (_ & _ & Hk). unfold KERNEL_START in Hk. rewrite dir_index_eq.
  assert (768 <= va / 2 ^ 22 < 1023) by (split; [apply Z.div_le_lower_bound|apply Z.div_lt_upper_bound]; lia).
  rewrite Z.mod_small; lia.
Qed.

Section evolution.
Context {F : Type} `{FrameAllocator F} `{HeapRange}.
Implicit Types s : vmm F.

(** A frame in use that holds no table of the running address space, and that no page of the
    heap maps, except the pages [T] the heap has handed out. *)
Definition foreign s (T : gset Z) (f : Z) : Prop :=
  data_frame s f /\ fa_frame (frames s) f <> Free /\
  forall va fl, heap_page va -> va ∉ T -> entry s va <> Some (f, fl).

(** What an operation of the kernel leaves alone while the pages [T] of the heap are handed
    out: only the pages [X] are mapped elsewhere, only the frames [W] are written and only the
    frames [R] released; everything else that changes was free, or belongs to the heap. *)
Record evolves (X W T : gset Z) (R : list Z) s s' : Prop := {
  ev_ok : vm_ok s';
  ev_cr3 : cr3 s' = cr3 s;
  ev_dirs d : 0 <= d < 1023 -> present s d = true -> pd s' d = pd s d;
  ev_new d : 0 <= d < 1023 -> present s d = false -> present s' d = true ->
    768 <= d /\ (fa_frame (frames s) (table_of s' d) = Free \/ table_of s' d ∈ R);
  ev_user d t : 0 <= d < 768 -> present s d = true -> 0 <= t < 1024 ->
    pload (phys s') (table_of s d + 4 * t) = pload (phys s) (table_of s d + 4 * t);
  ev_entry va : va mod 4096 = 0 -> managed va -> va ∉ X -> ~ heap_page va \/ entry s va <> None ->
    entry s' va = entry s va;
  ev_fresh va f fl : heap_page va -> va ∉ X -> entry s va = None -> entry s' va = Some (f, fl) ->
    fa_frame (frames s) f = Free \/ f ∈ R;
  ev_frames q : q mod 4096 = 0 -> fa_frame (frames s) q <> Free -> q ∉ R ->
    fa_frame (frames s') q = fa_frame (frames s) q;
  ev_data f i : foreign s T f -> f ∉ W -> f ∉ R -> 0 <= i < 1024 ->
    pload (phys s') (f + 4 * i) = pload (phys s) (f + 4 * i)
}.

Lemma entry_frame s va f fl : vm_ok s -> entry s va = Some (f, fl) ->
  0 <= f < 2 ^ 32 /\ f mod 4096 = 0 /\ 0 <= fl < 4096 /\ Z.testbit fl 0 = true.
Proof.
  intros Hok. rewrite entry_eq by done. cbv zeta. destruct (present s _); [|done].
  pose proof (pload_range s (table_of s (PAGE_DIRECTORY_INDEX va) + 4 * PAGE_TABLE_INDEX va) Hok) as Hr.
  destruct (Z.testbit (pload _ _) 0) eqn:Et; [|done]. intros [= <- <-].
  destruct (land_frame_range _ Hr) as [? ?]. split; [done|]. split; [done|]. rewrite land_flags.
  split; [apply Z.mod_pos_bound; lia|]. by rewrite (Z.mod_pow2_bits_low _ 12) by lia.
Qed.

Lemma foreign_mono s (T T' : gset Z) f : foreign s T f -> T ⊆ T' -> foreign s T' f.
Proof. intros (Hd & Hu & Hm) HT. split; [done|]. split; [done|]. intros va fl Hv Hn. apply Hm; [done|]. set_solver. Qed.

(** A page given back: the frames other than the one behind it stay foreign. *)
Lemma foreign_shrink s (T : gset Z) a f : foreign s ({[a]} ∪ T) f -> (forall fl, entry s a <> Some (f, fl)) -> foreign s T f.
Proof.
  intros (Hd & Hu & Hm) Ha. split; [done|]. split; [done|]. intros va fl Hv Hn.
  destruct (decide (va = a)) as [->|]; [apply Ha|]. apply Hm; [done|]. set_solver.
Qed.

Lemma evolves_refl s (T : gset Z) : vm_ok s -> evolves ∅ ∅ T [] s s.
Proof. intros Hok. split; try done; intros; congruence. Qed.

Lemma evolves_weaken (X W T X' W' T' : gset Z) R s s' : X ⊆ X' -> W ⊆ W' -> T' ⊆ T ->
  evolves X W T R s s' -> evolves X' W' T' R s s'.
Proof.
  intros HX HW HT [E1 E2 E3 E4 E5 E6 E7 E8 E9]. split; try done.
  - intros va Ha Hm Hn. apply E6; [done|done|set_solver].
  - intros va f fl Hh Hn. apply (E7 va f fl); [done|set_solver].
  - intros f i Hf Hn. apply E9; [|set_solver]. by eapply foreign_mono.
Qed.

Lemma evolves_foreign (X W T T' : gset Z) R s s' f : evolves X W T R s s' -> T ⊆ T' -> X ⊆ T' ->
  foreign s T f -> f ∉ R -> foreign s' T' f.
Proof.
  intros [_ E2 E3 E4 _ E6 E7 E8 _] HT HX ((Hm & Hc & Ht) & Hu & Hh) Hr.
  split; [split; [done|]; split; [congruence|]|split; [by rewrite E8|]].
  - intros d Hd Hp E. destruct (present s d) eqn:Ep.
    + apply (Ht d Hd Ep). unfold table_of in *. by rewrite <- (E3 d).
    + destruct (E4 d Hd Ep Hp) as (_ & [Hf|Hf]); congruence.
  - intros va fl Hv Hn E. destruct (heap_managed va Hv) as [Ha Hmg]. destruct (entry s va) as [[g gl]|] eqn:Es.
    + rewrite E6 in E; [|done|done|set_solver|right; congruence]. apply (Hh va fl Hv); [set_solver|congruence].
    + destruct (E7 va f fl Hv) as [?|?]; try done; set_solver.
Qed.

Lemma evolves_free (X W T : gset Z) R s s' q : evolves X W T R s s' -> q mod 4096 = 0 ->
  fa_frame (frames s') q = Free -> fa_frame (frames s) q = Free \/ q ∈ R.
Proof.
  intros He Hq Hf. destruct (decide (fa_frame (frames s) q = Free)); [by left|].
  destruct (decide (q ∈ R)); [by right|]. rewrite (ev_frames _ _ _ _ _ _ He) in Hf by done. done.
Qed.

Lemma evolves_trans (X X' W W' T T' : gset Z) R R' s s1 s2 : vm_ok s ->
  evolves X W T R s s1 -> evolves X' W' T' R' s1 s2 -> (forall f, foreign s T f -> f ∉ R -> foreign s1 T' f) ->
  evolves (X ∪ X') (W ∪ W') T (R ++ R') s s2.
Proof.
  intros Hok He He' Hfor. pose proof (fun q => evolves_free _ _ _ _ _ _ q He) as Hfree.
  pose proof He as [A1 A2 A3 A4 A5 A6 A7 A8 A9]. destruct He' as [B1 B2 B3 B4 B5 B6 B7 B8 B9].
  assert (forall d, 0 <= d < 1023 -> present s d = true -> present s1 d = true /\ table_of s1 d = table_of s d) as Hpt.
  { intros d Hd Hp. unfold present, table_of in *. by rewrite A3. }
  split; [done|congruence| | | | | | |].
  - intros d Hd Hp. rewrite B3, A3; [done|done|done|done|]. by apply Hpt.
  - intros d Hd Hp Hp2. destruct (present s1 d) eqn:E1.
    + destruct (A4 d Hd Hp E1) as [Hk Hf]. unfold table_of in *. rewrite (B3 d) by done. split; [done|].
      rewrite elem_of_app. tauto.
    + destruct (B4 d Hd E1 Hp2) as [Hk [Hf|Hf]]; (split; [done|]); rewrite elem_of_app; [|tauto].
      apply Hfree in Hf; [tauto|]. by apply table_range.
  - intros d t Hd Hp Ht. destruct (Hpt d ltac:(lia) Hp) as [Hp1 Ht1]. rewrite <- (A5 d t) by done.
    rewrite <- Ht1. by apply B5.
  - intros va Ha Hm [Hn Hn']%not_elem_of_union Hc. assert (entry s1 va = entry s va) as E by (by apply A6).
    rewrite B6, E; [done|done|done|done|]. by rewrite E.
  - intros va f fl Hh [Hn Hn']%not_elem_of_union En E2. destruct (heap_managed va Hh) as [Ha Hm]. rewrite elem_of_app.
    destruct (entry s1 va) as [[g gl]|] eqn:E1.
    + rewrite B6, E1 in E2; [|done|done|done|right; congruence]. simplify_eq.
      destruct (A7 va f fl Hh) as [?|?]; [done|done|done|tauto|tauto].
    + destruct (B7 va f fl Hh) as [Hf|?]; [done|done|done| |tauto].
      apply Hfree in Hf; [tauto|]. by eapply (entry_frame s2).
  - intros q Hq Hf Hr. rewrite elem_of_app in Hr. rewrite B8, A8; [done|done|done|tauto|done| |tauto].
    rewrite A8; [done|done|done|tauto].
  - intros f i Hf [Hw Hw']%not_elem_of_union Hr Hi. rewrite elem_of_app in Hr. rewrite B9, A9; try done; [tauto| |tauto].
    apply Hfor; tauto.
Qed.

(** A frame the kernel has for its heap: behind one of its pages, or a kernel page table. *)
Definition in_heap s (q : Z) : Prop :=
  (exists va fl, heap_page va /\ entry s va = Some (q, fl)) \/
  (exists d, 768 <= d < 1023 /\ present s d = true /\ table_of s d = q).

(** Free frames stay free, or are taken for the heap. *)
Definition takes s s' : Prop := forall q, q mod 4096 = 0 -> fa_frame (frames s) q = Free ->
  fa_frame (frames s') q = Free \/ in_heap s' q.

Lemma in_heap_kept (X W T : gset Z) R s s' q : evolves X W T R s s' -> (forall a fl, a ∈ X -> entry s a <> Some (q, fl)) ->
  in_heap s q -> in_heap s' q.
Proof.
  intros He HX [(va & fl & Hv & E)|(d & Hd & Hp & E)].
  - left. exists va, fl. split; [done|]. destruct (heap_managed va Hv). rewrite (ev_entry _ _ _ _ _ _ He); [done|done|done| |right; congruence].
    intros Hc. by apply (HX va fl).
  - right. exists d. unfold present, table_of in *. rewrite (ev_dirs _ _ _ _ _ _ He); [done|lia|done].
Qed.
End evolution.

(** The kernel heap, as a component that works on the memory of the running address space.
    [kh_rep s T M n]: the heap is well formed, the whole pages [T] and the smaller blocks [M]
    are handed out, and [n] more requests for a block or a frame can be served. *)
Class KernelHeap (F : Type) `{FrameAllocator F} `{HeapRange} : Type := {
  kh_malloc_a : vmm F -> Z -> Z -> outcome (Z * vmm F);
  kh_malloc : vmm F -> Z -> outcome (Z * vmm F);
  kh_free : vmm F -> Z -> outcome (vmm F);
  kh_rep : vmm F -> gset Z -> gset Z -> nat -> Prop;
  (** A page of the heap: new, mapped writable to a frame of its own. *)
  kh_malloc_a_ok s T M n : vm_ok s -> kh_rep s T M (S n) ->
    exists a s' f fl, kh_malloc_a s 4096 4096 = Ret (a, s') /\ heap_page a /\ a ∉ T /\
      evolves ∅ ∅ T [] s s' /\ takes s s' /\ transient_maps s' = transient_maps s /\ kh_rep s' ({[a]} ∪ T) M n /\
      entry s' a = Some (f, fl) /\ Z.testbit fl 1 = true /\ foreign s' ({[a]} ∪ T) f;
  kh_malloc_ok s T M n size : vm_ok s -> 0 < size <= 4096 -> kh_rep s T M (S n) ->
    exists m s', kh_malloc s size = Ret (m, s') /\ m ∉ M /\
      evolves ∅ ∅ T [] s s' /\ takes s s' /\ transient_maps s' = transient_maps s /\ kh_rep s' T ({[m]} ∪ M) n;
  (** A page comes back mapped writable to a frame that is not in use otherwise. *)
  kh_free_page s T M n a f fl : vm_ok s -> kh_rep s T M n -> a ∈ T ->
    entry s a = Some (f, fl) -> Z.testbit fl 1 = true -> foreign s T f ->
    exists s', kh_free s a = Ret s' /\ evolves ∅ ∅ (T ∖ {[a]}) [] s s' /\ frames s' = frames s /\
      transient_maps s' = transient_maps s /\ kh_rep s' (T ∖ {[a]}) M n;
  kh_free_block s T M n m : vm_ok s -> kh_rep s T M n -> m ∈ M ->
    exists s', kh_free s m = Ret s' /\ evolves ∅ ∅ T [] s s' /\ frames s' = frames s /\
      transient_maps s' = transient_maps s /\ kh_rep s' T (M ∖ {[m]}) n;
  (** The heap looks only at its own pages and at the directory. *)
  kh_local s s' T M n : kh_rep s T M n -> vm_ok s -> vm_ok s' -> cr3 s' = cr3 s -> frames s' = frames s ->
    (forall d, 0 <= d < 1024 -> pd s' d = pd s d) ->
    (forall va, heap_page va -> va ∉ T -> entry s' va = entry s va) ->
    (forall va f fl i, heap_page va -> va ∉ T -> entry s va = Some (f, fl) -> 0 <= i < 1024 ->
       pload (phys s') (f + 4 * i) = pload (phys s) (f + 4 * i)) ->
    kh_rep s' T M n;
  kh_used s T M n va f fl : vm_ok s -> kh_rep s T M n -> heap_page va -> va ∉ T -> entry s va = Some (f, fl) ->
    data_frame s f /\ fa_frame (frames s) f <> Free;
  kh_take s T M n : vm_ok s -> kh_rep s T M (S n) ->
    exists f fs, fa_alloc (frames s) = Ret (f, fs) /\ f <> INVALID_FRAME /\ kh_rep (with_frames s fs) T M n;
  kh_give s T M n f fs : vm_ok s -> kh_rep s T M n -> foreign s T f -> fa_free (frames s) f = Ret fs ->
    kh_rep (with_frames s fs) T M n
}.

Section steps.
Context {F : Type} `{FrameAllocator F} `{HeapRange} `{!KernelHeap F}.
Implicit Types s : vmm F.

(** ** Pointing a page of the heap at another frame *)
Definition repoint s (a v : Z) : vmm F := set_pte s (PAGE_DIRECTORY_INDEX a) (PAGE_TABLE_INDEX a) v.

Lemma entry_present s va e : vm_ok s -> entry s va = Some e -> present s (PAGE_DIRECTORY_INDEX va) = true.
Proof. intros Hok. rewrite entry_eq by done. cbv zeta. by destruct (present s _). Qed.

Lemma unmap_eq s a e : vm_ok s -> a mod 4096 = 0 -> managed a -> entry s a = Some e ->
  exists v, vmm_unmap s a = Ret (repoint s a v) /\ 0 <= v < 2 ^ 32 /\ Z.testbit v 0 = false.
Proof.
  intros Hok Ha Hm He. pose proof (managed_dir a Hm) as Hd.
  pose proof (dir_index_range a) as Hdr. pose proof (table_index_range a) as Htr.
  pose proof (entry_present s a e Hok He) as Ep.
  unfold vmm_unmap, va_info, IS_ALIGNED, PAGE_SIZE. rewrite (vo_paging s Hok), Ha.
  cbn [Z.eqb c_assert mbind outcome_bind]. rewrite vload_dir by (done || lia). cbn [mbind outcome_bind].
  change PDE_PRESENT with 1. change PTE_PRESENT with 1. rewrite nz_bit0. fold (present s (PAGE_DIRECTORY_INDEX a)).
  rewrite Ep. cbn [c_assert mbind outcome_bind]. rewrite vload_window by (done || lia). cbn [mbind outcome_bind].
  rewrite nz_bit0. rewrite entry_eq in He by done. cbv zeta in He. rewrite Ep in He.
  destruct (Z.testbit (pload _ _) 0) eqn:Et; [|done]. cbn [c_assert mbind outcome_bind].
  rewrite vstore_window by (done || lia). eexists. split; [done|]. split.
  - apply (land_range 32); [lia|by apply pload_range].
  - rewrite Z.land_spec. change (Z.testbit (u32 (Z.lnot 1)) 0) with false. apply andb_false_r.
Qed.

Lemma map_eq s a f fl : vm_ok s -> a mod 4096 = 0 -> managed a -> present s (PAGE_DIRECTORY_INDEX a) = true ->
  entry s a = None -> f mod 4096 = 0 -> 0 <= f < 2 ^ 32 -> 0 <= fl < 4096 -> Z.testbit fl 0 = true ->
  vmm_map s a f fl = Ret (repoint s a (f + fl)).
Proof.
  intros Hok Ha Hm Ep He Hfm Hfr Hfl Hb. pose proof (managed_dir a Hm) as Hd.
  pose proof (dir_index_range a) as Hdr. pose proof (table_index_range a) as Htr.
  unfold vmm_map, va_info, IS_ALIGNED, PAGE_SIZE. rewrite (vo_paging s Hok), Ha, Hfm.
  change VMM_PAGE_PRESENT with 1. rewrite nz_bit0, Hb. cbn [Z.eqb c_assert mbind outcome_bind].
  rewrite vload_dir by (done || lia). cbn [mbind outcome_bind].
  change PDE_PRESENT with 1. change PTE_PRESENT with 1. rewrite nz_bit0. fold (present s (PAGE_DIRECTORY_INDEX a)).
  rewrite Ep. cbn [negb]. rewrite vload_window by (done || lia). cbn [mbind outcome_bind]. rewrite nz_bit0.
  rewrite entry_eq in He by done. cbv zeta in He. rewrite Ep in He.
  destruct (Z.testbit (pload _ _) 0) eqn:Et; [done|]. rewrite vstore_window by (done || lia).
  rewrite (land_frame f), Hfm, Z.sub_0_r by done.
  destruct (entry_parts f fl Hfm Hfr Hfl) as (-> & _). done.
Qed.

Lemma repoint_twice s a v w : vm_ok s -> managed a -> present s (PAGE_DIRECTORY_INDEX a) = true ->
  repoint (repoint s a v) a w = repoint s a w.
Proof.
  intros Hok Hm Hp. pose proof (managed_dir a Hm). pose proof (dir_index_range a). pose proof (table_index_range a).
  unfold repoint. unfold set_pte at 1. unfold table_of at 1. rewrite set_pte_pd by (done || lia).
  fold (table_of s (PAGE_DIRECTORY_INDEX a)). unfold set_pte, with_phys, pstore. cbn [phys cr3 cr0 frames paging_enabled current_pagedir_va transient_maps].
  by rewrite insert_insert_eq.
Qed.

Lemma repoint_eq s a e f fl : vm_ok s -> a mod 4096 = 0 -> managed a -> entry s a = Some e ->
  f mod 4096 = 0 -> 0 <= f < 2 ^ 32 -> 0 <= fl < 4096 -> Z.testbit fl 0 = true ->
  exists s1, vmm_unmap s a = Ret s1 /\ vmm_map s1 a f fl = Ret (repoint s a (f + fl)).
Proof.
  intros Hok Ha Hm He Hfm Hfr Hfl Hb. destruct (unmap_eq s a e Hok Ha Hm He) as (v & Eu & Hv & Hv0).
  pose proof (managed_dir a Hm). pose proof (dir_index_range a). pose proof (table_index_range a).
  pose proof (entry_present s a e Hok He) as Ep. eexists. split; [exact Eu|].
  rewrite map_eq; [by rewrite repoint_twice| | | | | | | | |]; try done.
  - apply set_pte_ok; (done || lia).
  - unfold present, repoint. rewrite set_pte_pd by (done || lia). done.
  - unfold repoint. rewrite set_pte_entry by (done || lia). by rewrite !Z.eqb_refl, Hv0.
Qed.

Lemma repoint_ok s (T M : gset Z) n a e f fl : vm_ok s -> heap_page a -> a ∈ T -> entry s a = Some e ->
  f mod 4096 = 0 -> 0 <= f < 2 ^ 32 -> 0 <= fl < 4096 -> Z.testbit fl 0 = true -> kh_rep s T M n ->
  let s' := repoint s a (f + fl) in
  evolves {[a]} ∅ T [] s s' /\ kh_rep s' T M n /\ entry s' a = Some (f, fl) /\
  forall g, foreign s T g -> foreign s' T g /\
    forall i, 0 <= i < 1024 -> pload (phys s') (g + 4 * i) = pload (phys s) (g + 4 * i).
Proof.
  intros Hok Hh HaT He Hfm Hfr Hfl Hb Hrep s'. destruct (heap_managed a Hh) as [Ha Hm].
  pose proof (managed_dir a Hm) as Hd. pose proof (dir_index_range a). pose proof (table_index_range a).
  pose proof (entry_present s a e Hok He) as Ep. destruct (entry_parts f fl Hfm Hfr Hfl) as (Hlor & Hr & Hlf & Hlg).
  assert (vm_ok s') as Hok' by (apply set_pte_ok; (done || lia)).
  assert (forall d, 0 <= d < 1024 -> pd s' d = pd s d) as Hpd by (intros; apply set_pte_pd; (done || lia)).
  assert (forall va, managed va -> entry s' va = if va / 4096 =? a / 4096 then Some (f, fl) else entry s va) as Hent.
  { intros va Hva. unfold s', repoint. rewrite set_pte_entry by (done || lia || by apply managed_dir).
    rewrite page_eqb by done. rewrite <- Hlor at 1. by rewrite Z.lor_spec, Hb, orb_true_r, Hlf, Hlg. }
  assert (forall va, va mod 4096 = 0 -> managed va -> va <> a -> entry s' va = entry s va) as Hother.
  { intros va Hva Hvm Hne. rewrite Hent by done. rewrite (proj2 (Z.eqb_neq _ _)); [done|].
    pose proof (Z.div_mod va 4096). pose proof (Z.div_mod a 4096). lia. }
  assert (forall w, w <> table_of s (PAGE_DIRECTORY_INDEX a) + 4 * PAGE_TABLE_INDEX a -> pload (phys s') w = pload (phys s) w) as Hw.
  { intros w Hne. unfold s', repoint, set_pte. cbn [phys with_phys]. rewrite pload_pstore. by rewrite (proj2 (Z.eqb_neq _ _)). }
  assert (forall g, data_frame s g -> forall i, 0 <= i < 1024 -> pload (phys s') (g + 4 * i) = pload (phys s) (g + 4 * i)) as Hdata.
  { intros g (Hgm & _ & Hgt) i Hi. apply Hw. intros E.
    apply (page_words_apart _ _ _ _ Hgm (proj2 (table_range s _ Hok))) in E as [E _]; [|done|lia]. apply (Hgt (PAGE_DIRECTORY_INDEX a)); (done || lia). }
  assert (evolves {[a]} ∅ T [] s s') as Hev.
  { split; try done.
    - intros d Hd' _. apply Hpd. lia.
    - intros d Hd' Hp Hp'. unfold present in *. rewrite Hpd in Hp' by lia. congruence.
    - intros d t Hd' Hp Ht. apply Hw. intros E.
      apply (page_words_apart _ _ _ _ (proj2 (table_range s d Hok)) (proj2 (table_range s _ Hok)) Ht) in E as [E _]; [|lia].
      apply (vo_distinct s Hok) in E; [|lia|lia|done|done]. pose proof (heap_dir a Hh). lia.
    - intros va Hva Hvm Hn _. apply Hother; [done|done|]. intros ->. set_solver.
    - intros va g gl Hva Hn En E. destruct (heap_managed va Hva). rewrite Hother in E; [congruence|done|done|].
      intros ->. set_solver.
    - intros g i (Hg & _) _ _ Hi. by apply Hdata. }
  split; [done|]. split; [|split; [by rewrite Hent, Z.eqb_refl|]].
  - apply (kh_local s); try done.
    + intros va Hva Hn. destruct (heap_managed va Hva). apply Hother; [done|done|]. by intros ->.
    + intros va g gl i Hva Hn En Hi. apply Hdata; [|done]. by eapply kh_used.
  - intros g Hg. split; [|apply Hdata, Hg].
    apply (evolves_foreign _ _ _ _ _ _ _ _ Hev); [done|by apply singleton_subseteq_l|done|apply not_elem_of_nil].
Qed.

(** ** Writing a frame *)
Lemma same_tables_frame s p f : same_tables s p -> data_frame s f -> data_frame (with_phys s p) f.
Proof.
  intros (_ & Hd & _) (Hm & Hc & Ht). split; [done|]. split; [done|]. intros d Hdr Hp.
  assert (pd (with_phys s p) d = pd s d) as E by (apply Hd; lia). unfold present, table_of in *. rewrite E in *. by apply Ht.
Qed.

Lemma write_ok s (T M : gset Z) n f p : vm_ok s -> foreign s T f -> same_tables s p ->
  (forall w, (forall i, 0 <= i < 1024 -> w <> f + 4 * i) -> pload p w = pload (phys s) w) -> kh_rep s T M n ->
  evolves ∅ {[f]} T [] s (with_phys s p) /\ kh_rep (with_phys s p) T M n /\
  forall g, foreign s T g -> foreign (with_phys s p) T g.
Proof.
  intros Hok Hf Hst Hw Hrep. destruct (same_tables_ok s p Hok Hst) as (Hok' & Hpd & Hent).
  assert (forall g, g mod 4096 = 0 -> g <> f -> forall i, 0 <= i < 1024 -> pload p (g + 4 * i) = pload (phys s) (g + 4 * i)) as Hother.
  { intros g Hg Hne i Hi. apply Hw. intros j Hj E. apply (page_words_apart _ _ _ _ Hg) in E as [E _]; [done|apply Hf|done|done]. }
  assert (evolves ∅ {[f]} T [] s (with_phys s p)) as Hev.
  { split; try done.
    - intros d Hd _. apply Hpd. lia.
    - intros d Hd Hp Hp'. unfold present in *. rewrite Hpd in Hp' by lia. congruence.
    - intros d t Hd Hp Ht. apply Hother; [by apply table_range| |done]. apply Hf; (done || lia).
    - intros va _ Hm _ _. apply Hent. by apply managed_dir.
    - intros va g fl Hh _ En E. rewrite Hent in E by (apply managed_dir, heap_managed, Hh). congruence.
    - intros g i Hg Hn _ Hi. apply Hother; [apply Hg| |done]. intros ->. by apply Hn, elem_of_singleton. }
  split; [done|]. split.
  - apply (kh_local s); try done.
    + intros va Hh _. apply Hent. by apply managed_dir, heap_managed.
    + intros va g fl i Hh Hn En Hi. destruct (entry_frame s va g fl Hok En) as (_ & Hg & _).
      apply Hother; [done| |done]. intros ->. by apply (proj2 (proj2 Hf) va fl).
  - intros g Hg. apply (evolves_foreign _ _ _ _ _ _ _ _ Hev); [done|done|done|apply not_elem_of_nil].
Qed.

Lemma store_ok s (T M : gset Z) n va f fl i v : vm_ok s -> foreign s T f -> kh_rep s T M n ->
  va mod 4096 = 0 -> managed va -> entry s va = Some (f, fl) -> Z.testbit fl 1 = true -> 0 <= i < 1024 ->
  exists s', vstore s (va + 4 * i) v = Ret s' /\ evolves ∅ {[f]} T [] s s' /\ kh_rep s' T M n /\
    (forall d, 0 <= d < 1024 -> pd s' d = pd s d) /\ transient_maps s' = transient_maps s /\
    (forall g, foreign s T g -> foreign s' T g) /\
    forall j, 0 <= j < 1024 -> pload (phys s') (f + 4 * j) = if j =? i then u32 v else pload (phys s) (f + 4 * j).
Proof.
  intros Hok Hf Hrep Ha Hm He Hw Hi. rewrite (vstore_mapped s va f fl) by done. eexists. split; [done|].
  destruct (write_ok s T M n f (pstore (phys s) (f + 4 * i) v) Hok Hf) as (H1 & H2 & H3); [|..|].
  - by apply data_store_same; [|apply Hf|].
  - intros w Hne. rewrite pload_pstore. by rewrite (proj2 (Z.eqb_neq _ _)) by (by apply Hne).
  - done.
  - split; [done|]. split; [done|]. split; [exact (proj1 (proj2 (data_store_same s f i v Hok (proj1 Hf) Hi)))|].
    split; [done|]. split; [done|].     intros j Hj. cbn [phys with_phys]. rewrite pload_pstore. destruct (j =? i) eqn:E; breflect; [subst; by rewrite Z.eqb_refl|].
    by rewrite (proj2 (Z.eqb_neq _ _)) by lia.
Qed.

(** ** Filling a page, word by word *)
Lemma same_tables_trans s p p' : vm_ok s -> same_tables s p -> same_tables (with_phys s p) p' -> same_tables s p'.
Proof.
  intros Hok Hst (W1 & D1 & T1). destruct (same_tables_ok s p Hok Hst) as (_ & Hpd & _).
  destruct Hst as (_ & _ & T0). split; [done|]. split.
  - intros d Hd. rewrite <- Hpd by done. by apply D1.
  - intros d t Hd Hp Ht. assert (present (with_phys s p) d = true /\ table_of (with_phys s p) d = table_of s d) as [Hp1 Et].
    { unfold present, table_of. by rewrite Hpd by lia. }
    rewrite <- (T0 d t), <- Et by done. by apply T1.
Qed.

(** The state after the words of the frame [f] from [i] on were set to those of [e]. *)
Definition filled s (n : nat) (i : Z) (e : Z -> Z) (f : Z) : vmm F := with_phys s (copied n i e (phys s) f).

Lemma filled_S s n i e f :
  filled s (S n) i e f = filled (with_phys s (pstore (phys s) (f + 4 * i) (e i))) n (i + 1) e f.
Proof. done. Qed.

Lemma filled_same n : forall i s e f, vm_ok s -> data_frame s f -> 0 <= i -> i + Z.of_nat n <= 1024 ->
  same_tables s (copied n i e (phys s) f).
Proof.
  induction n as [|n IH]; intros i s e f Hok Hf Hi Hn; cbn [copied].
  - split; [apply Hok|done].
  - pose proof (data_store_same s f i (e i) Hok Hf ltac:(lia)) as Hst.
    destruct (same_tables_ok s _ Hok Hst) as (Hok1 & _ & _).
    apply (same_tables_trans s _ _ Hok Hst), IH; [done|by apply same_tables_frame|lia|lia].
Qed.

(** One store of the loop leaves what the next ones need. *)
Lemma store_next s va f fl i v : vm_ok s -> data_frame s f -> managed va -> entry s va = Some (f, fl) -> 0 <= i < 1024 ->
  let s1 := with_phys s (pstore (phys s) (f + 4 * i) v) in
  vm_ok s1 /\ data_frame s1 f /\ forall va', managed va' -> entry s1 va' = entry s va'.
Proof.
  intros Hok Hf Hm He Hi s1. pose proof (data_store_same s f i v Hok Hf Hi) as Hst.
  destruct (same_tables_ok s _ Hok Hst) as (Hok1 & _ & He1). split; [done|]. split; [by apply same_tables_frame|].
  intros va' Hm'. apply He1. by apply managed_dir.
Qed.

Lemma vzero_filled n : forall i s va f fl, vm_ok s -> data_frame s f -> va mod 4096 = 0 -> managed va ->
  entry s va = Some (f, fl) -> Z.testbit fl 1 = true -> 0 <= i -> i + Z.of_nat n <= 1024 ->
  vzero n s (va + 4 * i) = Ret (filled s n i (fun _ => 0) f).
Proof.
  induction n as [|n IH]; intros i s va f fl Hok Hf Ha Hm He Hw Hi Hn; [by destruct s|]. cbn [vzero].
  rewrite (vstore_mapped s va f fl) by (done || lia). cbn [mbind outcome_bind].
  destruct (store_next s va f fl i 0 Hok Hf Hm He ltac:(lia)) as (Hok1 & Hf1 & He1).
  rewrite filled_S. replace (va + 4 * i + 4) with (va + 4 * (i + 1)) by lia.
  apply (IH _ _ _ _ fl); (done || lia || by rewrite He1).
Qed.

Lemma copy_words_filled n : forall i s dst src f fl g gl, vm_ok s -> data_frame s f -> g mod 4096 = 0 -> g <> f ->
  dst mod 4096 = 0 -> managed dst -> entry s dst = Some (f, fl) -> Z.testbit fl 1 = true ->
  src mod 4096 = 0 -> managed src -> entry s src = Some (g, gl) -> 0 <= i -> i + Z.of_nat n <= 1024 ->
  copy_words n s (dst + 4 * i) (src + 4 * i) = Ret (filled s n i (fun j => pload (phys s) (g + 4 * j)) f).
Proof.
  induction n as [|n IH]; intros i s dst src f fl g gl Hok Hf Hg Hne Hd Hdm Hde Hw Hs Hsm Hse Hi Hn; [by destruct s|].
  cbn [copy_words]. rewrite (vload_mapped s src g gl) by (done || lia). cbn [mbind outcome_bind].
  rewrite (vstore_mapped s dst f fl) by (done || lia). cbn [mbind outcome_bind].
  destruct (store_next s dst f fl i (pload (phys s) (g + 4 * i)) Hok Hf Hdm Hde ltac:(lia)) as (Hok1 & Hf1 & He1).
  rewrite filled_S. replace (dst + 4 * i + 4) with (dst + 4 * (i + 1)) by lia.
  replace (src + 4 * i + 4) with (src + 4 * (i + 1)) by lia.
  rewrite (IH _ _ dst src f fl g gl) by (done || lia || by rewrite He1). unfold filled. do 2 f_equal.
  apply copied_ext. intros j Hj. cbn [phys with_phys]. rewrite pload_pstore, (proj2 (Z.eqb_neq _ _)); [done|].
  intros E. apply (page_words_apart _ _ _ _ Hg) in E as [E _]; [done|apply Hf|lia|lia].
Qed.

Lemma filled_ok s (T M : gset Z) n e f : vm_ok s -> foreign s T f -> kh_rep s T M n ->
  let s' := filled s 1024 0 e f in
  evolves ∅ {[f]} T [] s s' /\ kh_rep s' T M n /\ (forall g, foreign s T g -> foreign s' T g) /\
  forall j, 0 <= j < 1024 -> pload (phys s') (f + 4 * j) = u32 (e j).
Proof.
  intros Hok Hf Hrep s'. pose proof (filled_same 1024 0 s e f Hok (proj1 Hf) ltac:(lia) ltac:(lia)) as Hst.
  destruct (write_ok s T M n f _ Hok Hf Hst) as (H1 & H2 & H3); [|done|].
  - intros w Hne. apply pload_copied_out. intros i Hi. apply Hne. lia.
  - split; [done|]. split; [done|]. split; [done|]. intros j Hj. cbn [s' filled phys with_phys]. apply pload_copied_in. lia.
Qed.

(** ** Taking and giving back a frame *)
Lemma frames_evolve s (T : gset Z) R fs : vm_ok s -> vm_ok (with_frames s fs) ->
  (forall q, q mod 4096 = 0 -> fa_frame (frames s) q <> Free -> q ∉ R -> fa_frame fs q = fa_frame (frames s) q) ->
  evolves ∅ ∅ T R s (with_frames s fs).
Proof.
  intros Hok Hok' Hq. split; try done.
  - intros d _ Hp Hp'. change (present (with_frames s fs) d) with (present s d) in Hp'. congruence.
  - intros va f fl _ _ En E. change (entry (with_frames s fs) va) with (entry s va) in E. congruence.
Qed.

Lemma take_frame_ok s (T M : gset Z) n : vm_ok s -> kh_rep s T M (S n) ->
  exists f s', pmm_alloc_frame s = Ret (f, s') /\ f <> INVALID_FRAME /\ evolves ∅ ∅ T [] s s' /\ kh_rep s' T M n /\
    transient_maps s' = transient_maps s /\ phys s' = phys s /\ fa_frame (frames s) f = Free /\
    fa_frame (frames s') f = Reserved /\ foreign s' T f /\ 0 <= f < 2 ^ 32.
Proof.
  intros Hok Hrep. destruct (kh_take s T M n Hok Hrep) as (f & fs & Ea & Hne & Hrep').
  destruct (fa_alloc_spec _ _ _ (vo_wf s Hok) Ea) as [Hwf Hsp]. rewrite (proj2 (Z.eqb_neq _ _)) in Hsp by done.
  destruct Hsp as (Hm & Hfree & Hu). change PAGE_SIZE with 4096 in *.
  assert (forall q, q mod 4096 = 0 -> fa_frame (frames s) q <> Free -> fa_frame fs q = fa_frame (frames s) q) as Hkeep.
  { intros q Hq Hn. rewrite Hu by done. rewrite (proj2 (Z.eqb_neq _ _)); [done|]. congruence. }
  assert (data_frame s f) as Hdf.
  { split; [done|]. split; [intros ->; by apply (vo_cr3_used s Hok)|].
    intros d Hd Hp E. apply (vo_table s Hok d Hd Hp). by rewrite E. }
  assert (vm_ok (with_frames s fs)) as Hok'.
  { apply with_frames_ok; [done|done| |].
    - rewrite Hkeep; [by apply (vo_cr3_used s Hok)|apply Hok|by apply (vo_cr3_used s Hok)].
    - intros d Hd Hp. destruct (vo_table s Hok d Hd Hp) as [_ Ht]. by rewrite Hkeep; [|by apply table_range|]. }
  exists f, (with_frames s fs). unfold pmm_alloc_frame. rewrite Ea. split; [done|]. split; [done|].
  split.
  { apply frames_evolve; [done|done|]. intros q Hq Hn _. by apply Hkeep. }
  split; [done|]. split; [done|]. split; [done|]. split; [done|].
  split; [cbn [frames with_frames]; by rewrite Hu, Z.eqb_refl|].
  split; [|apply (fa_range (frames s)); [apply Hok|congruence]].
  split; [done|]. split; [cbn [frames with_frames]; by rewrite Hu, Z.eqb_refl|].
  intros va fl Hh Hn E. by destruct (kh_used s T M (S n) va f fl Hok Hrep Hh Hn E).
Qed.

Lemma give_frame_ok s (T M : gset Z) n f : vm_ok s -> kh_rep s T M n -> foreign s T f -> fa_frame (frames s) f = Reserved ->
  exists s', pmm_free_frame s f = Ret s' /\ evolves ∅ ∅ T [f] s s' /\ kh_rep s' T M n /\
    transient_maps s' = transient_maps s /\ phys s' = phys s /\
    forall q, q mod 4096 = 0 -> fa_frame (frames s') q = if q =? f then Free else fa_frame (frames s) q.
Proof.
  intros Hok Hrep Hf Hres. destruct Hf as ((Hm & Hc & Ht) & Hnf & Hh).
  destruct (fa_free_ok _ _ (vo_wf s Hok) Hm Hres) as [fs E].
  destruct (fa_free_spec _ _ _ (vo_wf s Hok) E) as (Hwf & _ & _ & Hu). change PAGE_SIZE with 4096 in *.
  assert (vm_ok (with_frames s fs)) as Hok'.
  { apply with_frames_ok; [done|done| |].
    - rewrite Hu, (proj2 (Z.eqb_neq _ _)) by (apply Hok || congruence). by apply (vo_cr3_used s Hok).
    - intros d Hd Hp. rewrite Hu, (proj2 (Z.eqb_neq _ _)) by (by apply table_range || by apply Ht).
      by apply (vo_table s Hok). }
  exists (with_frames s fs). unfold pmm_free_frame. rewrite E. split; [done|]. split.
  { apply frames_evolve; [done|done|]. intros q Hq Hn Hr. rewrite Hu by done.
    rewrite (proj2 (Z.eqb_neq _ _)); [done|]. intros ->. apply Hr. by apply list_elem_of_singleton. }
  split; [by eapply kh_give|]. done.
Qed.
End steps.
