(* ===== verification/VmmWindow.v ===== *)
(** Transient mappings ([vmm_transient_map], [vmm_transient_unmap] of [kernel/vmm.c]): a page
    of the heap is pointed at a frame, used, and pointed back before it is freed. Between the
    two calls the kernel may run anything that leaves the page alone; afterwards the address
    space is as if the window had not been opened, except for what was written through it. *)
From S2P Require Import Prelude Util Bitset Pmm Vmm VmmSpec VmmClaims VmmSpaces VmmHeap.

Section window.
Context {F : Type} `{FrameAllocator F} `{HeapRange} `{!KernelHeap F}.
Implicit Types s : vmm F.

(** The kernel between two operations: a well-formed address space and heap, and every
    transient mapping uses a page the heap has handed out. *)
Record inv s (T M : gset Z) (n : nat) : Prop := {
  in_ok : vm_ok s;
  in_rep : kh_rep s T M n;
  in_list : Forall (fun t => tm_address t ∈ T) (transient_maps s)
}.

Lemma with_transient_ok s l : vm_ok s -> vm_ok (with_transient s l).
Proof. intros [? ? ? ? ? ? ? ? ?]. by split. Qed.

Lemma evolves_transient (X W T : gset Z) R s s' l : evolves X W T R s s' -> evolves X W T R s (with_transient s' l).
Proof. intros [E1 E2 E3 E4 E5 E6 E7 E8 E9]. split; try done. by apply with_transient_ok. Qed.

Lemma kh_rep_transient s (T M : gset Z) n l : vm_ok s -> kh_rep s T M n -> kh_rep (with_transient s l) T M n.
Proof. intros Hok Hrep. apply (kh_local s); try done. by apply with_transient_ok. Qed.

(** A composition of steps in which no page stays pointed elsewhere. *)
Lemma evolves_then (X X' W W' T T' : gset Z) R R' s s1 s2 : vm_ok s ->
  evolves X W T R s s1 -> evolves X' W' T' R' s1 s2 -> T ⊆ T' -> X ⊆ T' -> evolves (X ∪ X') (W ∪ W') T (R ++ R') s s2.
Proof.
  intros Hok He He' HT HX. apply (evolves_trans _ _ _ _ _ _ _ _ _ _ _ Hok He He').
  intros f Hf Hr. by apply (evolves_foreign _ _ _ _ _ _ _ _ He).
Qed.

Lemma evolves_narrow (W T : gset Z) R s s' a : evolves {[a]} W T R s s' ->
  (entry s a <> None -> entry s' a = entry s a) ->
  (forall f fl, entry s a = None -> entry s' a = Some (f, fl) -> fa_frame (frames s) f = Free \/ f ∈ R) ->
  heap_page a -> evolves ∅ W T R s s'.
Proof.
  intros [E1 E2 E3 E4 E5 E6 E7 E8 E9] Hs Hn Ha. split; try done.
  - intros va Hm Hv _ Hc. destruct (decide (va = a)) as [->|Hne].
    + apply Hs. by destruct Hc.
    + apply E6; [done|done| |done]. by rewrite elem_of_singleton.
  - intros va f fl Hh _ En E. destruct (decide (va = a)) as [->|Hne]; [by eapply Hn|].
    apply (E7 va f fl); [done| |done|done]. by rewrite elem_of_singleton.
Qed.

(** The window at page [a] onto the frame [f]; [fb] is the frame behind the page. *)
Record opened s (T M : gset Z) (n : nat) (f fl : Z) s1 (a m fb flb : Z) : Prop := {
  op_page : heap_page a;
  op_new : a ∉ T;
  op_block : m ∉ M;
  op_ev : evolves {[a]} ∅ T [] s s1;
  op_rep : kh_rep s1 ({[a]} ∪ T) ({[m]} ∪ M) n;
  op_list : transient_maps s1 = transient_maps s ++ [mkTransient fb flb a m];
  op_entry : entry s1 a = Some (f, fl);
  op_back : foreign s1 ({[a]} ∪ T) fb;
  op_flags : 0 <= fb < 2 ^ 32 /\ 0 <= flb < 4096 /\ Z.testbit flb 0 = true /\ Z.testbit flb 1 = true;
  op_was : entry s a = Some (fb, flb) \/ (entry s a = None /\ fa_frame (frames s) fb = Free);
  op_takes q : q mod 4096 = 0 -> fa_frame (frames s) q = Free ->
    fa_frame (frames s1) q = Free \/ q = fb \/ in_heap s1 q
}.

Lemma op_distinct s T M n f fl s1 a m fb flb g : opened s T M n f fl s1 a m fb flb -> foreign s T g -> g <> fb.
Proof.
  intros Hop (_ & Hu & Hh) ->. destruct (op_was _ _ _ _ _ _ _ _ _ _ _ Hop) as [E|[_ E]]; [|done].
  by apply (Hh a flb); [apply Hop|apply Hop|].
Qed.

Lemma transient_map_ok s (T M : gset Z) n f fl : inv s T M (S (S n)) -> f mod 4096 = 0 -> 0 <= f < 2 ^ 32 -> 0 <= fl < 4096 ->
  exists a s1 m fb flb, vmm_transient_map kh_malloc_a kh_malloc s f fl = Ret (a, s1) /\
    opened s T M n f (Z.lor 1 fl) s1 a m fb flb /\ inv s1 ({[a]} ∪ T) ({[m]} ∪ M) n.
Proof.
  intros [Hok Hrep Hl] Hfm Hfr Hfl.
  destruct (kh_malloc_a_ok s T M (S n) Hok Hrep) as (a & sA & fb & flb & EA & Hpa & HaT & HevA & HkA & HtA & HrepA & HeA & HwA & HfA).
  pose proof (ev_ok _ _ _ _ _ _ HevA) as HokA.
  destruct (kh_malloc_ok sA _ _ n sizeof_transient_map HokA ltac:(done) HrepA) as (m & sB & EB & HmM & HevB & HkB & HtB & HrepB).
  pose proof (ev_ok _ _ _ _ _ _ HevB) as HokB. destruct (heap_managed a Hpa) as [Ham Hag].
  assert (entry sB a = Some (fb, flb)) as HeB.
  { rewrite (ev_entry _ _ _ _ _ _ HevB); [done|done|done|apply not_elem_of_empty|right; congruence]. }
  assert (foreign sB ({[a]} ∪ T) fb) as HfB.
  { apply (evolves_foreign _ _ _ _ _ _ _ _ HevB); [done|apply empty_subseteq|done|apply not_elem_of_nil]. }
  destruct (entry_frame sB a fb flb HokB HeB) as (Hbr & Hbm & Hbl & Hb0).
  assert (0 <= Z.lor 1 fl < 4096 /\ Z.testbit (Z.lor 1 fl) 0 = true) as [Hfl1 Hb1].
  { split; [apply (lor_range 12); lia|by rewrite Z.lor_spec]. }
  destruct (repoint_eq sB a _ f (Z.lor 1 fl) HokB Ham Hag HeB Hfm Hfr Hfl1 Hb1) as (sU & EU & EM).
  destruct (repoint_ok sB ({[a]} ∪ T) _ n a _ f (Z.lor 1 fl) HokB Hpa ltac:(pages) HeB Hfm Hfr Hfl1 Hb1 HrepB)
    as (HevC & HrepC & HeC & HfC).
  set (sC := repoint sB a (f + Z.lor 1 fl)) in *.
  assert (transient_maps sC = transient_maps s) as HtC.
  { transitivity (transient_maps sB); [done|congruence]. }
  exists a, (with_transient sC (transient_maps s ++ [mkTransient fb flb a m])), m, fb, flb. split; [|split; [|split]].
  - unfold vmm_transient_map. change PAGE_SIZE with 4096. rewrite EA. cbn [mbind outcome_bind]. rewrite EB. cbn [mbind outcome_bind].
    destruct (get_physical_eq sB a HokB Ham) as [-> ->]. rewrite HeB. cbn [from_option fst snd mbind outcome_bind].
    rewrite EU. cbn [mbind outcome_bind]. change VMM_PAGE_PRESENT with 1. rewrite EM. cbn [mbind outcome_bind]. by rewrite HtC.
  - split; try done.
    + apply evolves_transient. eapply (evolves_weaken (∅ ∪ ∅ ∪ {[a]}) (∅ ∪ ∅ ∪ ∅) T); [pages|pages|done|].
      apply (evolves_then _ _ _ _ _ ({[a]} ∪ T) [] [] s sB _ Hok); [|done|pages|pages].
      by apply (evolves_then _ _ _ _ _ ({[a]} ∪ T) [] [] s sA _ Hok); [| |pages|pages].
    + apply kh_rep_transient; [apply HevC|done].
    + apply (HfC fb HfB).
    + destruct (entry s a) as [[g gl]|] eqn:Es.
      * left. rewrite <- Es. symmetry. rewrite <- HeA. apply (ev_entry _ _ _ _ _ _ HevA); [done|done|apply not_elem_of_empty|right; congruence].
      * right. split; [done|]. destruct (ev_fresh _ _ _ _ _ _ HevA a fb flb Hpa) as [?|Hc]; [apply not_elem_of_empty|done|done|done|].
        by apply not_elem_of_nil in Hc.
    + intros q Hq Hfree. destruct (decide (q = fb)) as [->|Hqb]; [by right; left|].
      destruct (HkA q Hq Hfree) as [HfA'|HiA].
      * destruct (HkB q Hq HfA') as [?|HiB]; [by left|right; right].
        apply (in_heap_kept _ _ _ _ _ _ _ HevC) in HiB; [done|]. intros x fl' Hx%elem_of_singleton. congruence.
      * right. right. apply (in_heap_kept _ _ _ _ _ _ _ HevC).
        -- intros x fl' Hx%elem_of_singleton. congruence.
        -- apply (in_heap_kept _ _ _ _ _ _ _ HevB); [|done]. by intros x fl' ?%elem_of_empty.
  - apply with_transient_ok, HevC.
  - apply kh_rep_transient; [apply HevC|done].
  - cbn [transient_maps with_transient]. apply Forall_app. split; [|repeat constructor; pages].
    eapply Forall_impl; [exact Hl|]. intros t Ht. apply elem_of_union. by right.
Qed.

Lemma find_transient_last l t : (forall x, x ∈ l -> tm_address x <> tm_address t) ->
  find_transient (l ++ [t]) (tm_address t) = Some (l, t, []).
Proof.
  induction l as [|x l IH]; intros Hl; cbn [find_transient app]; [by rewrite Z.eqb_refl|].
  rewrite (proj2 (Z.eqb_neq _ _)) by (apply Hl; by left). rewrite IH; [done|]. intros y Hy. apply Hl. by right.
Qed.

Lemma transient_unmap_ok s (T M W : gset Z) n n' f fl s1 a m fb flb R s2 :
  inv s T M (S (S n)) -> opened s T M n f fl s1 a m fb flb ->
  evolves ∅ W ({[a]} ∪ T) R s1 s2 -> kh_rep s2 ({[a]} ∪ T) ({[m]} ∪ M) n' ->
  transient_maps s2 = transient_maps s1 -> fb ∉ R ->
  exists s3, vmm_transient_unmap kh_free s2 a = Ret s3 /\ evolves ∅ W T R s s3 /\ inv s3 T M n' /\
    transient_maps s3 = transient_maps s /\ frames s3 = frames s2 /\ entry s3 a = Some (fb, flb) /\
    (forall q, q <> f -> in_heap s2 q -> in_heap s3 q) /\
    forall g, foreign s2 ({[a]} ∪ T) g -> g <> fb -> foreign s3 T g /\ fa_frame (frames s3) g = fa_frame (frames s2) g /\
      forall i, 0 <= i < 1024 -> pload (phys s3) (g + 4 * i) = pload (phys s2) (g + 4 * i).
Proof.
  intros [Hok Hrep Hl] Hop Hev2 Hrep2 Ht2 HfbR.
  destruct Hop as [Hpa HaT HmM Hev1 Hrep1 Hlist He1 Hback (Hbr & Hbl & Hb0 & Hb1) Hwas Htk].
  destruct (heap_managed a Hpa) as [Ham Hag]. assert (a ∈ {[a]} ∪ T /\ {[a]} ⊆ {[a]} ∪ T /\ T ⊆ {[a]} ∪ T) as (HaT1 & HaS1 & HTS1) by (split; [pages|split; pages]).
  assert (m ∈ {[m]} ∪ M) as HmM1 by pages.
  assert (({[a]} ∪ T) ∖ {[a]} = T) as HT by (clear - HaT; set_solver).
  set (T1 := {[a]} ∪ T) in *.
  pose proof (ev_ok _ _ _ _ _ _ Hev2) as Hok2. pose proof (ev_ok _ _ _ _ _ _ Hev1) as Hok1.
  assert (entry s2 a = Some (f, fl)) as He2.
  { rewrite (ev_entry _ _ _ _ _ _ Hev2); [done|done|done|apply not_elem_of_empty|right; congruence]. }
  assert (foreign s2 T1 fb) as Hfb2.
  { apply (evolves_foreign _ _ _ _ _ _ _ _ Hev2); [done|apply empty_subseteq|done|done]. }
  assert (fb mod 4096 = 0) as Hbm by apply Hback.
  destruct (repoint_eq s2 a _ fb flb Hok2 Ham Hag He2 Hbm Hbr Hbl Hb0) as (sU & EU & EM).
  destruct (repoint_ok s2 T1 _ n' a _ fb flb Hok2 Hpa HaT1 He2 Hbm Hbr Hbl Hb0 Hrep2) as (HevC & HrepC & HeC & HfC).
  set (sC := repoint s2 a (fb + flb)) in *. set (sD := with_transient sC (transient_maps s)).
  pose proof (with_transient_ok sC (transient_maps s) (ev_ok _ _ _ _ _ _ HevC)) as HokD. fold sD in HokD.
  pose proof (kh_rep_transient sC _ _ _ (transient_maps s) (ev_ok _ _ _ _ _ _ HevC) HrepC) as HrepD. fold sD in HrepD.
  destruct (kh_free_block sD T1 _ n' m HokD HrepD HmM1) as (sE & EE & HevE & HfrE & HtE & HrepE).
  pose proof (ev_ok _ _ _ _ _ _ HevE) as HokE.
  assert (entry sE a = Some (fb, flb)) as HeE.
  { rewrite (ev_entry _ _ _ _ _ _ HevE); [done|done|done|apply not_elem_of_empty|right; change (entry sC a <> None); by rewrite HeC]. }
  assert (forall g, foreign s2 T1 g -> foreign sE T1 g) as HforE.
  { intros g Hg. apply (evolves_foreign _ _ _ _ _ _ _ _ HevE); [done|apply empty_subseteq| |apply not_elem_of_nil].
    by apply (HfC g Hg). }
  destruct (kh_free_page sE T1 _ n' a fb flb HokE HrepE HaT1 HeE Hb1 (HforE fb Hfb2)) as (s3 & E3 & Hev3 & Hfr3 & Ht3 & Hrep3).
  assert (({[m]} ∪ M) ∖ {[m]} = M) as HM by (clear - HmM; set_solver). rewrite HT in *. rewrite HM in *.
  assert (forall g, foreign s2 T1 g -> g <> fb -> foreign sE T g) as Hshrink.
  { intros g Hg Hne. apply (foreign_shrink sE T a); [by apply HforE|]. rewrite HeE. congruence. }
  assert (frames s3 = frames s2) as Hfr by (rewrite Hfr3, HfrE; done).
  assert (forall q, q <> f -> in_heap s2 q -> in_heap s3 q) as Hih.
  { intros q Hq Hi. apply (in_heap_kept _ _ _ _ _ _ _ Hev3); [by intros x fl' ?%elem_of_empty|].
    apply (in_heap_kept _ _ _ _ _ _ _ HevE); [by intros x fl' ?%elem_of_empty|].
    apply (in_heap_kept _ _ _ _ _ _ _ HevC); [|done]. intros x fl' Hx%elem_of_singleton. congruence. }
  assert (entry s3 a = Some (fb, flb)) as He3.
  { rewrite (ev_entry _ _ _ _ _ _ Hev3); [done|done|done|apply not_elem_of_empty|right; congruence]. }
  exists s3. split; [|split; [|split; [|split; [|split; [done|split; [done|split; [done|]]]]]]].
  - unfold vmm_transient_unmap. rewrite Ht2, Hlist. change a with (tm_address (mkTransient fb flb a m)) at 1.
    rewrite find_transient_last.
    + rewrite EU. cbn [mbind outcome_bind tm_frame tm_flags tm_node]. rewrite EM. cbn [mbind outcome_bind]. rewrite app_nil_r.
      fold sC sD. rewrite EE. cbn [mbind outcome_bind]. by rewrite E3.
    + intros x Hx. rewrite Forall_forall in Hl. cbn [tm_address]. intros Ec. apply HaT. rewrite <- Ec. by apply Hl.
  - apply (evolves_narrow W T R s s3 a).
    + eapply (evolves_weaken ({[a]} ∪ ∅ ∪ {[a]} ∪ ∅ ∪ ∅) (∅ ∪ W ∪ ∅ ∪ ∅ ∪ ∅) T); [pages|pages|done|].
      replace R with ((([] ++ R) ++ []) ++ [] ++ []) by (by rewrite !app_nil_r).
      assert (evolves ({[a]} ∪ ∅) (∅ ∪ W) T ([] ++ R) s s2) as H02 by (by apply (evolves_then _ _ _ _ _ T1 _ _ s s1 s2 Hok)).
      assert (evolves ({[a]} ∪ ∅ ∪ {[a]}) (∅ ∪ W ∪ ∅) T (([] ++ R) ++ []) s sD) as H0D.
      { apply evolves_transient. by apply (evolves_then _ _ _ _ _ T1 _ _ s s2 sC Hok); [| | |unfold T1; pages]. }
      rewrite app_assoc. apply (evolves_trans _ _ _ _ _ T _ _ s sE s3 Hok); [|done|].
      * by apply (evolves_then _ _ _ _ _ T1 _ _ s sD sE Hok); [| | |unfold T1; pages].
      * intros g Hg Hr. rewrite app_nil_r, app_nil_r in Hr. apply Hshrink.
        -- apply (evolves_foreign _ _ _ _ _ _ _ _ H02); [done|unfold T1; pages|done|done].
        -- destruct Hg as (_ & Hu & Hh). intros ->. destruct Hwas as [E|[_ E]]; [by apply (Hh a flb)|done].
    + intros Hn. rewrite (ev_entry _ _ _ _ _ _ Hev3), HeE; [|done|done|apply not_elem_of_empty|right; congruence].
      destruct Hwas as [E|[E _]]; congruence.
    + intros g gl Hn E. rewrite (ev_entry _ _ _ _ _ _ Hev3), HeE in E; [|done|done|apply not_elem_of_empty|right; congruence].
      left. destruct Hwas as [E'|[_ E']]; congruence.
    + done.
  - split; [apply Hev3|done|]. rewrite Ht3, HtE. exact Hl.
  - rewrite Ht3, HtE. done.
  - intros g Hg Hne. pose proof (Hshrink g Hg Hne) as HgE. pose proof (HfC g Hg) as [HgC HwC].
    split; [|split].
    + apply (evolves_foreign _ _ _ _ _ _ _ _ Hev3); [done|apply empty_subseteq|done|apply not_elem_of_nil].
    + rewrite (ev_frames _ _ _ _ _ _ Hev3), (ev_frames _ _ _ _ _ _ HevE); try done; try apply not_elem_of_nil; try apply HgE; apply Hg.
    + intros i Hi. rewrite (ev_data _ _ _ _ _ _ Hev3 g i), (ev_data _ _ _ _ _ _ HevE g i); try done;
        try apply not_elem_of_nil; try apply not_elem_of_empty. by apply HwC.
Qed.
End window.
