(* ===== verification/VmmClone.v ===== *)
(** Copying an address space ([clone_pagetable], [vmm_clone_pagedir] of [kernel/vmm.c], what
    [fork] runs): every page of the user half gets a frame of its own with the same contents. *)
From S2P Require Import Prelude Util Bitset Pmm Vmm VmmSpec VmmClaims VmmSpaces VmmHeap VmmWindow.

Section clone.
Context {F : Type} `{FrameAllocator F} `{HeapRange} `{!KernelHeap F}.
Implicit Types s : vmm F.

(** Word [i] of the frame [f]. *)
Definition word s (f i : Z) : Z := pload (phys s) (f + 4 * i).

(** A frame taken since [s0]. *)
Definition fresh s0 s (T : gset Z) (f : Z) : Prop :=
  fa_frame (frames s0) f = Free /\ fa_frame (frames s) f = Reserved /\ foreign s T f /\ 0 <= f < 2 ^ 32.

(** [nf] is a new frame with what [f] held in [s0]. *)
Definition copy_of s0 s (T : gset Z) (f nf : Z) : Prop :=
  fresh s0 s T nf /\ forall i, 0 <= i < 1024 -> word s nf i = word s0 f i.

Lemma fresh_step (W T : gset Z) s0 s s' f : evolves ∅ W T [] s s' -> fresh s0 s T f -> fresh s0 s' T f.
Proof.
  intros He (Hf & Hr & Hfor & Hrng). split; [done|]. split; [|split; [|done]].
  - rewrite (ev_frames _ _ _ _ _ _ He); [done|apply Hfor|congruence|apply not_elem_of_nil].
  - apply (evolves_foreign _ _ _ _ _ _ _ _ He); [done|apply empty_subseteq|done|apply not_elem_of_nil].
Qed.

Lemma fresh_base (X W T T' : gset Z) s0 s1 s f : evolves X W T [] s0 s1 -> fresh s1 s T' f -> fresh s0 s T' f.
Proof.
  intros He (Hf & Hrest). split; [|done]. destruct Hrest as (_ & ((Hm & _) & _) & _).
  by destruct (evolves_free _ _ _ _ _ _ f He Hm Hf) as [?|?%not_elem_of_nil].
Qed.

Lemma copy_of_step (W T : gset Z) s0 s s' f nf : evolves ∅ W T [] s s' -> nf ∉ W -> copy_of s0 s T f nf -> copy_of s0 s' T f nf.
Proof.
  intros He Hn [Hf Hw]. split; [by eapply fresh_step|]. intros i Hi. rewrite <- Hw by done.
  apply (ev_data _ _ _ _ _ _ He); [apply Hf|done|apply not_elem_of_nil|done].
Qed.

Lemma copy_of_base (X W T T' : gset Z) s0 s1 s f nf : evolves X W T [] s0 s1 -> foreign s0 T f -> f ∉ W ->
  copy_of s1 s T' f nf -> copy_of s0 s T' f nf.
Proof.
  intros He Hf Hn [Hfr Hw]. split; [by eapply fresh_base|]. intros i Hi. rewrite Hw by done.
  apply (ev_data _ _ _ _ _ _ He); [done|done|apply not_elem_of_nil|done].
Qed.

(** Frames that were free, or of the heap, hold nothing that had to be kept. *)
Lemma evolves_unwritten (X W T : gset Z) R s s' : evolves X W T R s s' ->
  (forall f, f ∈ W -> ~ foreign s T f) -> evolves X ∅ T R s s'.
Proof.
  intros [E1 E2 E3 E4 E5 E6 E7 E8 E9] Hw. split; try done. intros f i Hf _ Hr Hi. apply E9; [done| |done|done].
  intros Hc. by apply (Hw f).
Qed.

Lemma free_not_foreign s (T : gset Z) f : fa_frame (frames s) f = Free -> forall g, g ∈ ∅ ∪ ({[f]} : gset Z) -> ~ foreign s T g.
Proof.
  intros Hf g Hg (_ & Hu & _). apply elem_of_union in Hg as [Hg%elem_of_empty|Hg%elem_of_singleton]; [done|]. by subst.
Qed.

(** A step that keeps the pages handed out. *)
Lemma evolves_seq (W W' T : gset Z) R R' s s1 s2 : vm_ok s -> evolves ∅ W T R s s1 -> evolves ∅ W' T R' s1 s2 ->
  evolves ∅ (W ∪ W') T (R ++ R') s s2.
Proof.
  intros Hok H1 H2. apply (evolves_weaken (∅ ∪ ∅) (W ∪ W') T); [pages|done|done|].
  by apply (evolves_then _ _ _ _ _ T _ _ s s1 s2 Hok); [| |done|pages].
Qed.

Lemma keep_foreign (X W T T' : gset Z) s s' f : evolves X W T [] s s' -> T ⊆ T' -> X ⊆ T' -> foreign s T f -> foreign s' T' f.
Proof. intros He HT HX Hf. apply (evolves_foreign _ _ _ _ _ _ _ _ He); [done|done|done|apply not_elem_of_nil]. Qed.

(** ** One page *)
Lemma copy_page s (T M : gset Z) n f : inv s T M (5 + n) -> foreign s T f -> 0 <= f < 2 ^ 32 ->
  exists nf s0 sb s1 db s2 s3 s4 s5,
    pmm_alloc_frame s = Ret (nf, s0) /\ nf <> INVALID_FRAME /\
    vmm_transient_map kh_malloc_a kh_malloc s0 f VMM_PAGE_PRESENT = Ret (sb, s1) /\
    vmm_transient_map kh_malloc_a kh_malloc s1 nf (Z.lor VMM_PAGE_PRESENT VMM_PAGE_WRITABLE) = Ret (db, s2) /\
    copy_words 1024 s2 db sb = Ret s3 /\
    vmm_transient_unmap kh_free s3 db = Ret s4 /\ vmm_transient_unmap kh_free s4 sb = Ret s5 /\
    evolves ∅ ∅ T [] s s5 /\ inv s5 T M n /\ transient_maps s5 = transient_maps s /\ copy_of s s5 T f nf.
Proof.
  intros [Hok Hrep Hl] Hf Hfr.
  destruct (take_frame_ok s T M (4 + n) Hok Hrep) as (nf & s0 & E0 & Hinv & Hev0 & Hrep0 & Ht0 & Hp0 & Hfree & Hres & Hnf0 & Hnr).
  pose proof (ev_ok _ _ _ _ _ _ Hev0) as Hok0.
  assert (inv s0 T M (4 + n)) as Hinv0 by (split; [done|done|by rewrite Ht0]).
  assert (foreign s0 T f) as Hf0 by (apply (keep_foreign _ _ _ _ _ _ _ Hev0); [done|pages|done]).
  assert (f <> nf) as Hne by (intros ->; by destruct Hf as (_ & ? & _)).
  destruct (transient_map_ok s0 T M (2 + n) f 1 Hinv0) as (a1 & s1 & m1 & fb1 & flb1 & E1 & Hop1 & Hinv1); [apply Hf|done|lia|].
  pose proof (op_ev _ _ _ _ _ _ _ _ _ _ _ Hop1) as Hev1. set (T1 := {[a1]} ∪ T) in *. set (M1 := {[m1]} ∪ M) in *.
  assert (forall g, foreign s0 T g -> foreign s1 T1 g) as K1 by (intros g; apply (keep_foreign _ _ _ _ _ _ _ Hev1); unfold T1; pages).
  destruct (transient_map_ok s1 T1 M1 n nf 3 Hinv1) as (a2 & s2 & m2 & fb2 & flb2 & E2 & Hop2 & Hinv2); [apply Hnf0|done|lia|].
  pose proof (op_ev _ _ _ _ _ _ _ _ _ _ _ Hop2) as Hev2. set (T2 := {[a2]} ∪ T1) in *. set (M2 := {[m2]} ∪ M1) in *.
  assert (forall g, foreign s1 T1 g -> foreign s2 T2 g) as K2 by (intros g; apply (keep_foreign _ _ _ _ _ _ _ Hev2); unfold T2; pages).
  destruct Hinv2 as [Hok2 Hrep2 _].
  destruct (heap_managed a1 (op_page _ _ _ _ _ _ _ _ _ _ _ Hop1)) as [Ha1 Hm1].
  destruct (heap_managed a2 (op_page _ _ _ _ _ _ _ _ _ _ _ Hop2)) as [Ha2 Hm2].
  assert (entry s2 a1 = Some (f, 1)) as He1.
  { rewrite (ev_entry _ _ _ _ _ _ Hev2); [apply Hop1|done|done| |right; by rewrite (op_entry _ _ _ _ _ _ _ _ _ _ _ Hop1)].
    rewrite elem_of_singleton. intros ->. apply (op_new _ _ _ _ _ _ _ _ _ _ _ Hop2). unfold T1. pages. }
  pose proof (K2 _ (K1 _ Hnf0)) as Hnf2.
  pose proof (copy_words_filled 1024 0 s2 a2 a1 nf 3 f 1 Hok2 (proj1 Hnf2) (proj1 (proj1 Hf)) Hne Ha2 Hm2
    (op_entry _ _ _ _ _ _ _ _ _ _ _ Hop2) eq_refl Ha1 Hm1 He1 ltac:(lia) ltac:(lia)) as E3.
  rewrite !Z.mul_0_r, !Z.add_0_r in E3.
  destruct (filled_ok s2 T2 M2 n (fun j => pload (phys s2) (f + 4 * j)) nf Hok2 Hnf2 Hrep2) as (Hev3 & Hrep3 & K3 & Hw3).
  assert (transient_maps (filled s2 1024 0 (fun j => pload (phys s2) (f + 4 * j)) nf) = transient_maps s2 /\
    frames (filled s2 1024 0 (fun j => pload (phys s2) (f + 4 * j)) nf) = frames s2) as [Ht3 Hfr3] by done.
  revert E3 Hev3 Hrep3 K3 Hw3 Ht3 Hfr3. generalize (filled s2 1024 0 (fun j => pload (phys s2) (f + 4 * j)) nf).
  intros s3 E3 Hev3 Hrep3 K3 Hw3 Ht3 Hfr3.
  destruct (transient_unmap_ok s1 T1 M1 {[nf]} n n nf 3 s2 a2 m2 fb2 flb2 [] s3 Hinv1 Hop2 Hev3 Hrep3 Ht3
    (not_elem_of_nil _)) as (s4 & E4 & Hev4 & Hinv4 & Ht4 & _ & _ & _ & K4).
  destruct (transient_unmap_ok s0 T M {[nf]} (2 + n) n f 1 s1 a1 m1 fb1 flb1 [] s4 Hinv0 Hop1 Hev4 (in_rep _ _ _ _ Hinv4) Ht4
    (not_elem_of_nil _)) as (s5 & E5 & Hev5 & Hinv5 & Ht5 & _ & _ & _ & K5).
  destruct (K4 nf (K3 _ Hnf2)) as (Hnf4 & Hr4 & Hw4); [by apply (op_distinct _ _ _ _ _ _ _ _ _ _ _ _ Hop2), K1|].
  destruct (K5 nf Hnf4) as (Hnf5 & Hr5 & Hw5); [by apply (op_distinct _ _ _ _ _ _ _ _ _ _ _ _ Hop1)|].
  exists nf, s0, a1, s1, a2, s2, s3, s4, s5. do 7 (split; [done|]). split; [|split; [done|split; [by rewrite Ht5|]]].
  - apply (evolves_unwritten ∅ (∅ ∪ {[nf]})); [|by apply free_not_foreign].
    by apply (evolves_seq _ _ _ [] [] s s0 s5 Hok).
  - split; [split; [done|]; split; [|done]|].
    + rewrite Hr5, Hr4, Hfr3.
      assert (forall g, g mod 4096 = 0 -> fa_frame (frames s0) g = Reserved -> fa_frame (frames s2) g = Reserved) as Hfr2.
      { intros g Hg Hgr. rewrite (ev_frames _ _ _ _ _ _ Hev2), (ev_frames _ _ _ _ _ _ Hev1); try done; try apply not_elem_of_nil; try congruence.
        rewrite (ev_frames _ _ _ _ _ _ Hev1); try done; try apply not_elem_of_nil; congruence. }
      apply Hfr2; [apply Hnf0|done].
    + intros i Hi. unfold word. rewrite Hw5, Hw4, Hw3 by done. rewrite u32_small by (by apply pload_range).
      rewrite (ev_data _ _ _ _ _ _ Hev2 f i), (ev_data _ _ _ _ _ _ Hev1 f i); try done; try apply not_elem_of_nil; try apply not_elem_of_empty.
      * by rewrite Hp0.
      * by apply K1.
Qed.

(** ** One page table *)

(** Entry [e'] of a copied table against entry [e] of the original. *)
Definition pte_copy s0 s (T : gset Z) (e e' : Z) : Prop :=
  if Z.testbit e 0 then exists nf, e' = nf + e mod 4096 /\ copy_of s0 s T (Z.land e PTE_FRAME) nf else e' = 0.

Lemma pte_copy_map s0 s1 s s' (T T' : gset Z) e e' :
  (Z.testbit e 0 = true -> forall nf, copy_of s0 s T (Z.land e PTE_FRAME) nf -> copy_of s1 s' T' (Z.land e PTE_FRAME) nf) ->
  pte_copy s0 s T e e' -> pte_copy s1 s' T' e e'.
Proof.
  unfold pte_copy. destruct (Z.testbit e 0); [|done]. intros Hc (nf & -> & Hn). exists nf. split; [done|]. by apply Hc.
Qed.

Lemma new_pte e nf : nf mod 4096 = 0 -> 0 <= nf < 2 ^ 32 -> Z.testbit e 0 = true ->
  let e' := nf + e mod 4096 in
  Z.lor nf (Z.land e PTE_FLAGS) = e' /\ 0 <= e' < 2 ^ 32 /\ Z.land e' PTE_FRAME = nf /\ Z.land e' PTE_FLAGS = e mod 4096 /\
  Z.testbit e' 0 = true /\ Z.testbit e' 1 = Z.testbit e 1.
Proof.
  intros Hm Hr Hb e'. pose proof (Z.mod_pos_bound e 4096 ltac:(lia)) as He.
  destruct (entry_parts nf (e mod 4096) Hm Hr He) as (Hl & Hr' & Hf & Hg). rewrite land_flags.
  split; [done|]. split; [done|]. split; [done|]. split; [done|]. unfold e'. rewrite <- Hl, !Z.lor_spec.
  assert (forall k, 0 <= k < 12 -> Z.testbit nf k = false) as Hlow.
  { intros k Hk. rewrite <- (Z.mod_pow2_bits_low nf 12 k) by lia. change (2 ^ 12) with 4096. by rewrite Hm, Z.bits_0. }
  rewrite !Hlow by lia. change 4096 with (2 ^ 12). by rewrite !Z.mod_pow2_bits_low by lia.
Qed.

(** The table read through the recursive entry is not written by the copy. *)
Lemma source_kept (X W T : gset Z) R s s' d : evolves X W T R s s' -> 0 <= d < 768 -> present s d = true ->
  present s' d = true /\ table_of s' d = table_of s d /\
  forall j, 0 <= j < 1024 -> word s' (table_of s' d) j = word s (table_of s d) j.
Proof.
  intros He Hd Hp. assert (pd s' d = pd s d) as E by (apply (ev_dirs _ _ _ _ _ _ He); [lia|done]).
  unfold present, table_of in *. rewrite E. split; [done|]. split; [done|]. intros j Hj.
  by apply (ev_user _ _ _ _ _ _ He).
Qed.

(** The frames the entries of the source name are kept apart from the heap and from [df]. *)
Definition source_ok s (T : gset Z) (d df i : Z) (n : nat) : Prop :=
  forall j, i <= j < i + Z.of_nat n -> Z.testbit (word s (table_of s d) j) 0 = true ->
    foreign s T (Z.land (word s (table_of s d) j) PTE_FRAME) /\ Z.land (word s (table_of s d) j) PTE_FRAME <> df.

Lemma source_ok_step (W T : gset Z) s s' d df i n : evolves ∅ W T [] s s' -> 0 <= d < 768 -> present s d = true -> 0 <= i ->
  i + Z.of_nat n <= 1024 -> source_ok s T d df i n -> source_ok s' T d df i n.
Proof.
  intros He Hd Hp Hi Hn Hs j Hj. destruct (source_kept _ _ _ _ _ _ _ He Hd Hp) as (_ & _ & Hw). rewrite Hw by lia.
  intros Hb. destruct (Hs j Hj Hb) as [Hf Hne]. split; [|done]. by apply (keep_foreign _ _ _ _ _ _ _ He); [|pages|].
Qed.

Lemma table_frames_step (X W T : gset Z) s s' d i n : evolves X W T [] s s' -> 0 <= d < 768 -> present s d = true -> 0 <= i ->
  i + Z.of_nat n <= 1024 -> table_frames n i (phys s') (table_of s' d) = table_frames n i (phys s) (table_of s d).
Proof.
  intros He Hd Hp Hi Hn. destruct (source_kept _ _ _ _ _ _ _ He Hd Hp) as (_ & Et & Hw). rewrite Et in *.
  apply table_frames_ext. intros j Hj. apply Hw. lia.
Qed.

(** A present entry: a page is copied and the entry written. *)
Lemma clone_entry_ok (T M : gset Z) d dst df fl k i s : let e := word s (table_of s d) i in
  inv s T M (5 + k) -> 0 <= d < 768 -> present s d = true ->
  dst mod 4096 = 0 -> managed dst -> entry s dst = Some (df, fl) -> Z.testbit fl 1 = true -> foreign s T df ->
  0 <= i < 1024 -> Z.testbit e 0 = true -> foreign s T (Z.land e PTE_FRAME) ->
  exists nf s', 
    ('(new_frame, s) ← pmm_alloc_frame s;
     _ ← c_assert (negb (new_frame =? INVALID_FRAME));
     '(src_buf, s) ← vmm_transient_map kh_malloc_a kh_malloc s (Z.land e PTE_FRAME) VMM_PAGE_PRESENT;
     '(dst_buf, s) ← vmm_transient_map kh_malloc_a kh_malloc s new_frame (Z.lor VMM_PAGE_PRESENT VMM_PAGE_WRITABLE);
     s ← copy_words 1024 s dst_buf src_buf;
     s ← vmm_transient_unmap kh_free s dst_buf;
     s ← vmm_transient_unmap kh_free s src_buf;
     vstore s (dst + 4 * i) (Z.lor new_frame (Z.land e PTE_FLAGS))) = Ret s' /\
    evolves ∅ {[df]} T [] s s' /\ inv s' T M k /\ transient_maps s' = transient_maps s /\
    (forall j, 0 <= j < 1024 -> j <> i -> word s' df j = word s df j) /\
    word s' df i = nf + e mod 4096 /\ copy_of s s' T (Z.land e PTE_FRAME) nf /\ nf ∉ ({[df]} : gset Z).
Proof.
  intros e Hinv Hd Hp Ha Hm He Hw Hdf Hi Eb Hsf. pose proof (in_ok _ _ _ _ Hinv) as Hok.
  assert (0 <= Z.land e PTE_FRAME < 2 ^ 32) as Her by (apply land_frame_range; by apply pload_range).
  destruct (copy_page s T M k _ Hinv Hsf Her) as (nf & s0 & sb & s1 & db & s2 & s3 & s4 & s5 & E0 & Hne & E1 & E2 & E3 & E4 & E5 & Hev5 & Hinv5 & Ht5 & Hcp5).
  rewrite E0. cbn [mbind outcome_bind]. rewrite (proj2 (Z.eqb_neq _ _)) by done. cbn [negb c_assert mbind outcome_bind].
  rewrite E1. cbn [mbind outcome_bind]. rewrite E2. cbn [mbind outcome_bind]. rewrite E3. cbn [mbind outcome_bind].
  rewrite E4. cbn [mbind outcome_bind]. rewrite E5. cbn [mbind outcome_bind].
  pose proof Hcp5 as [(Hnfree & Hnres & Hnfor & Hnr) Hnw].
  destruct (new_pte e nf (proj1 (proj1 Hnfor)) Hnr Eb) as (-> & Her' & _).
  assert (foreign s5 T df) as Hdf5 by (apply (keep_foreign _ _ _ _ _ _ _ Hev5); [done|pages|done]).
  destruct (store_ok s5 T M _ dst df fl i (nf + e mod 4096) (in_ok _ _ _ _ Hinv5) Hdf5 (in_rep _ _ _ _ Hinv5) Ha Hm)
    as (s6 & E6 & Hev6 & Hrep6 & _ & Ht6 & K6 & Hw6); [|done|done|].
  { rewrite (ev_entry _ _ _ _ _ _ Hev5); [done|done|done|apply not_elem_of_empty|right; congruence]. }
  assert (nf ∉ ({[df]} : gset Z)) as Hnd.
  { rewrite elem_of_singleton. intros ->. by destruct Hdf as (_ & ? & _). }
  exists nf, s6. split; [done|]. split.
  { apply (evolves_weaken ∅ (∅ ∪ {[df]}) T); [done|pages|done|]. by apply (evolves_seq _ _ _ [] [] s s5 s6 Hok). }
  split; [split; [apply Hev6|done|rewrite Ht6; apply Hinv5]|]. split; [congruence|].
  split; [|split; [|split; [by apply (copy_of_step _ _ _ _ _ _ _ Hev6 Hnd)|done]]].
  - intros j Hj Hji. unfold word. rewrite Hw6, (proj2 (Z.eqb_neq _ _)) by done.
    apply (ev_data _ _ _ _ _ _ Hev5); [done|apply not_elem_of_empty|apply not_elem_of_nil|done].
  - unfold word at 1. rewrite Hw6, Z.eqb_refl by lia. by apply u32_small.
Qed.

Lemma clone_entries_ok (T M : gset Z) d dst df fl k n : forall i s,
  inv s T M (5 * length (table_frames n i (phys s) (table_of s d)) + k) -> 0 <= d < 768 -> present s d = true ->
  dst mod 4096 = 0 -> managed dst -> entry s dst = Some (df, fl) -> Z.testbit fl 1 = true -> foreign s T df ->
  source_ok s T d df i n -> 0 <= i -> i + Z.of_nat n <= 1024 ->
  (forall j, i <= j < i + Z.of_nat n -> word s df j = 0) ->
  exists s', clone_entries kh_malloc_a kh_malloc kh_free n i s dst (get_pagetable d) = Ret s' /\
    evolves ∅ {[df]} T [] s s' /\ inv s' T M k /\ transient_maps s' = transient_maps s /\
    (forall j, 0 <= j < i -> word s' df j = word s df j) /\
    (forall j, i <= j < i + Z.of_nat n -> pte_copy s s' T (word s (table_of s d) j) (word s' df j)) /\
    NoDup (table_frames n i (phys s') df) /\ Forall (fresh s s' T) (table_frames n i (phys s') df).
Proof.
  induction n as [|n IH]; intros i s Hinv Hd Hp Ha Hm He Hw Hdf Hsrc Hi Hn Hz; cbn [clone_entries table_frames] in *.
  { exists s. split; [done|]. split; [|split; [done|split; [done|split; [done|split; [lia|split; constructor]]]]].
    apply (evolves_weaken ∅ ∅ T); [done|apply empty_subseteq|done|]. apply evolves_refl, Hinv. }
  pose proof (in_ok _ _ _ _ Hinv) as Hok. rewrite vload_window by (done || lia). cbn [mbind outcome_bind].
  fold (word s (table_of s d) i) in *. set (e := word s (table_of s d) i) in *.
  change PTE_PRESENT with 1. rewrite nz_bit0.
  assert (source_ok s T d df (i + 1) n) as Hsrc1 by (intros j Hj; apply Hsrc; lia).
  destruct (Z.testbit e 0) eqn:Eb; cbn [app length] in Hinv; cycle 1.
  { cbn [mbind outcome_bind].
    destruct (IH (i + 1) s Hinv Hd Hp Ha Hm He Hw Hdf Hsrc1 ltac:(lia) ltac:(lia)) as (s' & E & Hev & Hinv' & Ht & Hlow & Hcp & Hnd & Hfr).
    { intros j Hj. apply Hz. lia. }
    exists s'. split; [done|]. split; [done|]. split; [done|]. split; [done|].
    assert (word s' df i = 0) as Hz0 by (rewrite Hlow by lia; apply Hz; lia).
    fold (word s' df i). rewrite Hz0. split; [intros j Hj; apply Hlow; lia|]. split; [|done].
    intros j Hj. destruct (Z.eq_dec j i) as [->|]; [|apply Hcp; lia]. unfold pte_copy. fold e. by rewrite Eb. }
  destruct (Hsrc i ltac:(lia) Eb) as [Hsf _]. set (rest := length (table_frames n (i + 1) (phys s) (table_of s d))) in *.
  replace (5 * S rest + k)%nat with (5 + (5 * rest + k))%nat in Hinv by lia.
  destruct (clone_entry_ok T M d dst df fl _ i s Hinv Hd Hp Ha Hm He Hw Hdf ltac:(lia) Eb Hsf) as (nf & s6 & E6 & Hev6 & Hinv6 & Ht6 & Hw6 & Hwi6 & Hcp6 & Hnd').
  fold e in E6, Hwi6, Hcp6. rewrite E6. cbn [mbind outcome_bind].
  destruct (source_kept _ _ _ _ _ _ _ Hev6 Hd Hp) as (Hp6 & Et6 & Hws6).
  destruct (IH (i + 1) s6) as (s' & E & Hev & Hinv' & Ht & Hlow & Hcp & Hnd & Hfr); try done; try lia.
  { by rewrite (table_frames_step _ _ _ _ _ _ _ _ Hev6) by (done || lia). }
  { rewrite (ev_entry _ _ _ _ _ _ Hev6); [done|done|done|apply not_elem_of_empty|right; congruence]. }
  { apply (keep_foreign _ _ _ _ _ _ _ Hev6); [done|pages|done]. }
  { apply (source_ok_step _ _ _ _ _ _ _ _ Hev6); (done || lia). }
  { intros j Hj. rewrite Hw6 by lia. apply Hz. lia. }
  pose proof (copy_of_step _ _ _ _ _ _ _ Hev Hnd' Hcp6) as Hcopy.
  assert (word s' df i = nf + e mod 4096) as Hwi by (rewrite Hlow by lia; exact Hwi6).
  destruct (new_pte e nf) as (_ & _ & Hlf & _ & Hb0 & _); [apply Hcopy|apply Hcopy|done|].
  exists s'. split; [done|]. split; [|split; [done|split; [congruence|split; [|split]]]].
  - apply (evolves_weaken ∅ ({[df]} ∪ {[df]}) T); [done|pages|done|]. by apply (evolves_seq _ _ _ [] [] s s6 s' Hok).
  - intros j Hj. rewrite Hlow by lia. apply Hw6; lia.
  - intros j Hj. destruct (Z.eq_dec j i) as [->|]; [fold e; rewrite Hwi; unfold pte_copy; rewrite Eb; by exists nf|].
    specialize (Hcp j ltac:(lia)). rewrite Hws6 in Hcp by lia. eapply pte_copy_map; [|exact Hcp]. intros Ej nj Hcj.
    destruct (Hsrc j ltac:(lia) Ej) as [Hsj Hnej]. apply (copy_of_base _ _ _ _ _ _ _ _ _ Hev6 Hsj); [by rewrite elem_of_singleton|done].
  - fold (word s' df i). rewrite Hwi, Hb0, Hlf. cbn [app]. split; [apply NoDup_cons; split; [|done]|constructor; [apply Hcopy|]].
    + intros Hin. rewrite Forall_forall in Hfr. destruct (Hfr nf Hin) as [Hc _], Hcp6 as [(_ & Hc' & _) _]. congruence.
    + eapply Forall_impl; [exact Hfr|]. intros g Hg. by apply (fresh_base _ _ _ _ _ _ _ _ Hev6).
Qed.

(** The copy of the page table [d], in the frame [df]. *)
Record table_copy s0 s (T : gset Z) (d df : Z) : Prop := {
  tc_fresh : fresh s0 s T df;
  tc_entry j : 0 <= j < 1024 -> pte_copy s0 s T (word s0 (table_of s0 d) j) (word s df j);
  tc_nodup : NoDup (table_frames 1024 0 (phys s) df ++ [df]);
  tc_frames : Forall (fresh s0 s T) (table_frames 1024 0 (phys s) df)
}.

Lemma table_copy_step (W T : gset Z) s0 s s' d df : evolves ∅ W T [] s s' -> (forall f, f ∈ W -> fa_frame (frames s0) f <> Free) ->
  table_copy s0 s T d df -> table_copy s0 s' T d df.
Proof.
  intros He HW [Hf Hc Hn Hfr].
  assert (forall f, fresh s0 s T f -> f ∉ W) as Hout by (intros f (Hfree & _) Hin; by apply (HW f)).
  assert (forall j, 0 <= j < 1024 -> word s' df j = word s df j) as Hw.
  { intros j Hj. apply (ev_data _ _ _ _ _ _ He); [apply Hf|by apply Hout|apply not_elem_of_nil|done]. }
  assert (table_frames 1024 0 (phys s') df = table_frames 1024 0 (phys s) df) as Et.
  { apply table_frames_ext. intros j Hj. apply Hw. lia. }
  split; [by eapply fresh_step| |by rewrite Et|rewrite Et].
  - intros j Hj. rewrite Hw by done. eapply pte_copy_map; [|by apply Hc]. intros _ nf Hnf.
    apply (copy_of_step _ _ _ _ _ _ _ He); [apply Hout, Hnf|done].
  - eapply Forall_impl; [exact Hfr|]. intros f Hff. by eapply fresh_step.
Qed.

(** The copy was made from a state [s1] in which the table and its pages were as in [s0]. *)
Lemma table_copy_base (W T T' : gset Z) s0 s1 s d df : evolves ∅ W T [] s0 s1 -> 0 <= d < 768 -> present s0 d = true ->
  (forall j, 0 <= j < 1024 -> Z.testbit (word s0 (table_of s0 d) j) 0 = true ->
     foreign s0 T (Z.land (word s0 (table_of s0 d) j) PTE_FRAME) /\ Z.land (word s0 (table_of s0 d) j) PTE_FRAME ∉ W) ->
  table_copy s1 s T' d df -> table_copy s0 s T' d df.
Proof.
  intros He Hd Hp Hsrc [Hf Hc Hn Hfr]. destruct (source_kept _ _ _ _ _ _ _ He Hd Hp) as (_ & _ & Hw).
  split; [by eapply fresh_base| |done|].
  - intros j Hj. rewrite <- Hw by done. eapply pte_copy_map; [|by apply Hc]. rewrite Hw by done. intros Hb nf Hnf.
    apply (copy_of_base _ _ _ _ _ _ _ _ _ He); [by apply Hsrc|by apply Hsrc|done].
  - eapply Forall_impl; [exact Hfr|]. intros f Hff. by eapply fresh_base.
Qed.

(** The window onto the new table is closed: what was copied through it stays. [fb] is the
    frame behind the window's page. *)
Lemma table_copy_close (X W T T1 : gset Z) s sz s2 s3 d df fb :
  evolves X W T [] s sz -> 0 <= d < 768 -> present s d = true ->
  (forall j, 0 <= j < 1024 -> Z.testbit (word s (table_of s d) j) 0 = true ->
     foreign s T (Z.land (word s (table_of s d) j) PTE_FRAME) /\ Z.land (word s (table_of s d) j) PTE_FRAME ∉ W) ->
  (forall j, 0 <= j < 1024 -> pte_copy sz s2 T1 (word sz (table_of sz d) j) (word s2 df j)) ->
  NoDup (table_frames 1024 0 (phys s2) df) -> Forall (fresh sz s2 T1) (table_frames 1024 0 (phys s2) df) ->
  fa_frame (frames sz) fb <> Free -> fa_frame (frames sz) df <> Free -> foreign s2 T1 df -> df <> fb -> fresh s s3 T df ->
  (forall g, foreign s2 T1 g -> g <> fb -> foreign s3 T g /\ fa_frame (frames s3) g = fa_frame (frames s2) g /\
     forall i, 0 <= i < 1024 -> pload (phys s3) (g + 4 * i) = pload (phys s2) (g + 4 * i)) ->
  table_copy s s3 T d df.
Proof.
  intros Hev Hd Hp Hsrc Hcp Hnd Hfr Hfb Hdfu Hdf Hdfb Hdff K. destruct (source_kept _ _ _ _ _ _ _ Hev Hd Hp) as (_ & _ & Hws).
  assert (forall g, fresh sz s2 T1 g -> foreign s2 T1 g /\ g <> fb) as Hgfb.
  { intros g (Hg & _ & Hgf & _). split; [done|]. congruence. }
  assert (forall g, fresh sz s2 T1 g -> fresh s s3 T g) as Hfresh.
  { intros g Hg. destruct (Hgfb g Hg) as [Hgf Hgn]. destruct (K g Hgf Hgn) as (Hg3 & Hr3 & _).
    apply (fresh_base _ _ _ _ _ _ _ _ Hev) in Hg as (Hg1 & Hg2 & _ & Hg4). split; [done|]. split; [congruence|done]. }
  destruct (K df Hdf Hdfb) as (_ & _ & Hdw).
  assert (table_frames 1024 0 (phys s3) df = table_frames 1024 0 (phys s2) df) as Etf.
  { apply table_frames_ext. intros j Hj. apply Hdw. lia. }
  split; [done| | |].
  - intros j Hj. unfold word at 2. rewrite Hdw by done. specialize (Hcp j Hj). rewrite Hws in Hcp by done.
    eapply pte_copy_map; [|exact Hcp]. intros Hb nf [Hnf Hnw]. destruct (Hgfb nf Hnf) as [Hgf Hgn], (Hsrc j Hj Hb) as [Hsf Hsw].
    split; [by apply Hfresh|]. intros i Hi. unfold word at 1. destruct (K nf Hgf Hgn) as (_ & _ & Hw3). rewrite Hw3 by done.
    fold (word s2 nf i). rewrite Hnw by done. apply (ev_data _ _ _ _ _ _ Hev); [done|done|apply not_elem_of_nil|done].
  - rewrite Etf. apply NoDup_app. split; [done|]. split; [|apply NoDup_singleton].
    intros g Hg Hgd%list_elem_of_singleton. subst g. rewrite Forall_forall in Hfr. by destruct (Hfr df Hg) as [Hc _].
  - rewrite Etf. eapply Forall_impl; [exact Hfr|]. exact Hfresh.
Qed.

Lemma clone_table s (T M : gset Z) d k :
  inv s T M (3 + (5 * length (table_frames 1024 0 (phys s) (table_of s d)) + k)) -> 0 <= d < 768 -> present s d = true ->
  (forall j, 0 <= j < 1024 -> Z.testbit (word s (table_of s d) j) 0 = true -> foreign s T (Z.land (word s (table_of s d) j) PTE_FRAME)) ->
  exists df s0 dst s1 s2 s3, pmm_alloc_frame s = Ret (df, s0) /\ df <> INVALID_FRAME /\
    vmm_transient_map kh_malloc_a kh_malloc s0 df (Z.lor VMM_PAGE_PRESENT VMM_PAGE_WRITABLE) = Ret (dst, s1) /\
    clone_pagetable kh_malloc_a kh_malloc kh_free s1 dst (get_pagetable d) = Ret s2 /\
    vmm_transient_unmap kh_free s2 dst = Ret s3 /\
    evolves ∅ ∅ T [] s s3 /\ inv s3 T M k /\ transient_maps s3 = transient_maps s /\ table_copy s s3 T d df.
Proof.
  intros [Hok Hrep Hl] Hd Hp Hsrc. set (need := (5 * length (table_frames 1024 0 (phys s) (table_of s d)) + k)%nat) in *.
  destruct (take_frame_ok s T M (2 + need) Hok Hrep) as (df & s0 & E0 & Hinvd & Hev0 & Hrep0 & Ht0 & Hp0 & Hfree & Hres & Hdf0 & Hdr).
  assert (inv s0 T M (2 + need)) as Hinv0 by (split; [apply Hev0|done|by rewrite Ht0]).
  destruct (transient_map_ok s0 T M need df 3 Hinv0) as (dst & s1 & m & fb & flb & E1 & Hop & Hinv1); [apply Hdf0|done|lia|].
  pose proof (op_ev _ _ _ _ _ _ _ _ _ _ _ Hop) as Hev1. set (T1 := {[dst]} ∪ T) in *. set (M1 := {[m]} ∪ M) in *.
  destruct (heap_managed dst (op_page _ _ _ _ _ _ _ _ _ _ _ Hop)) as [Ha Hm].
  assert (foreign s1 T1 df) as Hdf1 by (apply (keep_foreign _ _ _ _ _ _ _ Hev1); [unfold T1; pages|unfold T1; pages|done]).
  pose proof (op_entry _ _ _ _ _ _ _ _ _ _ _ Hop) as He1. change (Z.lor 1 3) with 3 in He1.
  pose proof (vzero_filled 1024 0 s1 dst df 3 (in_ok _ _ _ _ Hinv1) (proj1 Hdf1) Ha Hm He1 eq_refl ltac:(lia) ltac:(lia)) as Ez.
  rewrite Z.mul_0_r, Z.add_0_r in Ez.
  destruct (filled_ok s1 T1 M1 need (fun _ => 0) df (in_ok _ _ _ _ Hinv1) Hdf1 (in_rep _ _ _ _ Hinv1)) as (Hevz & Hrepz & Kz & Hwz).
  assert (transient_maps (filled s1 1024 0 (fun _ => 0) df) = transient_maps s1) as Htz by done.
  revert Ez Hevz Hrepz Kz Hwz Htz. generalize (filled s1 1024 0 (fun _ => 0) df). intros sz Ez Hevz Hrepz Kz Hwz Htz.
  assert (evolves ({[dst]} ∪ ∅) (∅ ∪ {[df]}) T [] s0 sz) as Hev0z.
  { apply (evolves_then _ _ _ _ _ T1 [] [] s0 s1 sz (in_ok _ _ _ _ Hinv0) Hev1 Hevz); unfold T1; pages. }
  assert (evolves (∅ ∪ ({[dst]} ∪ ∅)) (∅ ∪ (∅ ∪ {[df]})) T [] s sz) as Hevsz.
  { apply (evolves_then _ _ _ _ _ T [] [] s s0 sz Hok Hev0 Hev0z); pages. }
  destruct (source_kept _ _ _ _ _ _ _ Hevsz Hd Hp) as (Hpz & Etz & Hwsz).
  assert (forall j, 0 <= j < 1024 -> Z.testbit (word s (table_of s d) j) 0 = true -> Z.land (word s (table_of s d) j) PTE_FRAME <> df) as Hsd.
  { intros j Hj Hb E. destruct (Hsrc j Hj Hb) as (_ & Hu & _). congruence. }
  assert (source_ok sz T1 d df 0 1024) as Hsrcz.
  { intros j Hj. rewrite Hwsz by lia. intros Hb. split; [|apply Hsd; (lia || done)].
    apply (keep_foreign _ _ _ _ _ _ _ Hevsz); [unfold T1; pages|unfold T1; pages|apply Hsrc; (lia || done)]. }
  destruct (clone_entries_ok T1 M1 d dst df 3 k 1024 0 sz) as (s2 & E2 & Hev2 & Hinv2 & Ht2 & _ & Hcp2 & Hnd2 & Hfr2); try done; try lia.
  { rewrite (table_frames_step _ _ _ _ _ _ _ _ Hevsz) by (done || lia). fold need. split; [apply Hevz|done|rewrite Htz; apply Hinv1]. }
  { rewrite (ev_entry _ _ _ _ _ _ Hevz); [done|done|done|apply not_elem_of_empty|right; congruence]. }
  { by apply Kz. }
  assert (evolves ∅ {[df]} T1 [] s1 s2) as Hev12.
  { apply (evolves_weaken ∅ ({[df]} ∪ {[df]}) T1); [done|pages|done|]. by apply (evolves_seq _ _ _ [] [] s1 sz s2 (in_ok _ _ _ _ Hinv1)). }
  destruct (transient_unmap_ok s0 T M {[df]} need k df 3 s1 dst m fb flb [] s2 Hinv0 Hop Hev12 (in_rep _ _ _ _ Hinv2)
    ltac:(congruence) (not_elem_of_nil _)) as (s3 & E3 & Hev3 & Hinv3 & Ht3 & _ & _ & _ & K3).
  assert (fa_frame (frames sz) fb <> Free) as Hfbz.
  { assert (foreign sz T1 fb) as (_ & ? & _); [|done].
    apply (keep_foreign _ _ _ _ _ _ _ Hevz); [done|pages|apply Hop]. }
  assert (foreign s2 T1 df /\ df <> fb) as [Hdf2 Hdfb].
  { split; [apply (keep_foreign _ _ _ _ _ _ _ Hev12); [done|pages|done]|]. by apply (op_distinct _ _ _ _ _ _ _ _ _ _ _ _ Hop). }
  destruct (K3 df Hdf2 Hdfb) as (Hdf3 & Hdr3 & _).
  exists df, s0, dst, s1, s2, s3. do 3 (split; [done|]). split; [unfold clone_pagetable; by rewrite Ez|]. split; [done|].
  split; [|split; [done|split; [congruence|]]].
  { apply (evolves_unwritten ∅ (∅ ∪ {[df]})); [|by apply free_not_foreign].
    by apply (evolves_seq _ _ _ [] [] s s0 s3 Hok). }
  apply (table_copy_close _ _ T T1 s sz s2 s3 d df fb Hevsz); try done.
  - intros j Hj Hb. split; [by apply Hsrc|]. rewrite !elem_of_union, elem_of_singleton.
    intros [Hc%elem_of_empty|[Hc%elem_of_empty|Hc]]; [done|done|]. by apply (Hsd j).
  - by destruct (Kz df Hdf1) as (_ & ? & _).
  - split; [done|]. split; [|done].
    assert (fa_frame (frames s1) df = Reserved) as Hr1 by (rewrite (ev_frames _ _ _ _ _ _ Hev1); [done|apply Hdf0|congruence|apply not_elem_of_nil]).
    rewrite Hdr3, (ev_frames _ _ _ _ _ _ Hev12); [done|apply Hdf0|congruence|apply not_elem_of_nil].
Qed.

(** ** The user half *)

(** The requests to the allocators that copying costs: five for a page, three for a table. *)
Definition dir_cost s (d : Z) : nat :=
  if present s d then 3 + 5 * length (table_frames 1024 0 (phys s) (table_of s d)) else 0.
Fixpoint user_cost (n : nat) (d : Z) s : nat :=
  match n with
  | O => 0
  | S n => dir_cost s d + user_cost n (d + 1) s
  end.

Lemma user_present (X W T : gset Z) s s' d : evolves X W T [] s s' -> 0 <= d < 768 -> present s' d = present s d.
Proof.
  intros He Hd. destruct (present s d) eqn:Ep; [by apply (source_kept _ _ _ _ _ _ _ He)|].
  destruct (present s' d) eqn:Ep'; [|done]. apply (ev_new _ _ _ _ _ _ He) in Ep' as [? _]; [lia|lia|done].
Qed.

Lemma user_cost_step (X W T : gset Z) s s' n : evolves X W T [] s s' -> forall d, 0 <= d -> d + Z.of_nat n <= 768 ->
  user_cost n d s' = user_cost n d s.
Proof.
  intros He. induction n as [|n IH]; intros d Hd Hn; cbn [user_cost]; [done|]. rewrite IH by lia. f_equal.
  unfold dir_cost. rewrite (user_present _ _ _ _ _ _ He) by lia. destruct (present s d) eqn:Ep; [|done].
  by rewrite (table_frames_step _ _ _ _ _ _ _ _ He) by (done || lia).
Qed.

(** The frames of the user half are kept apart from the heap and from the new directory. *)
Definition users_ok s (T : gset Z) (pf d : Z) (n : nat) : Prop :=
  forall x, d <= x < d + Z.of_nat n -> present s x = true -> source_ok s T x pf 0 1024.

Lemma users_ok_step (X W T T' : gset Z) s s' pf d n : evolves X W T [] s s' -> T ⊆ T' -> X ⊆ T' -> 0 <= d -> d + Z.of_nat n <= 768 ->
  users_ok s T pf d n -> users_ok s' T' pf d n.
Proof.
  intros He HT HX Hd Hn Hu x Hx Hp j Hj Hb. rewrite (user_present _ _ _ _ _ _ He) in Hp by lia.
  destruct (source_kept _ _ _ _ _ _ x He ltac:(lia) Hp) as (_ & _ & Hw). rewrite Hw in * by lia.
  destruct (Hu x Hx Hp j Hj Hb). split; [|done]. by apply (keep_foreign _ _ _ _ _ _ _ He).
Qed.

(** Entry [x] of the new directory, in the frame [pf]. *)
Definition pde_copy s0 s (T : gset Z) (pf x : Z) : Prop :=
  if present s0 x then exists df, word s pf x = df + pd s0 x mod 4096 /\ table_copy s0 s T x df else word s pf x = 0.

Lemma dir_frames_copy s0 s (T : gset Z) pf x df : present s0 x = true -> word s pf x = df + pd s0 x mod 4096 -> table_copy s0 s T x df ->
  dir_frames (in_space s pf) x = table_frames 1024 0 (phys s) df ++ [df] /\ present (in_space s pf) x = true /\
  table_of (in_space s pf) x = df /\ Z.testbit (pd (in_space s pf) x) 1 = Z.testbit (pd s0 x) 1 /\ 0 <= word s pf x < 2 ^ 32.
Proof.
  intros Hp Hw [(_ & _ & ((Hm & _) & _) & Hr) _ _ _].
  destruct (new_pte (pd s0 x) df Hm Hr Hp) as (_ & Hr' & Hlf & _ & Hb0 & Hb1). rewrite <- Hw in *.
  unfold dir_frames, present, table_of. change (pd (in_space s pf) x) with (word s pf x). change PDE_FRAME with PTE_FRAME.
  rewrite Hb0, Hlf. done.
Qed.

(** A step that writes only the new directory keeps the entries copied so far. *)
Lemma pde_copy_step (T : gset Z) s0 s s' pf x : evolves ∅ {[pf]} T [] s s' -> fa_frame (frames s0) pf <> Free ->
  word s' pf x = word s pf x -> pde_copy s0 s T pf x -> pde_copy s0 s' T pf x.
Proof.
  intros He Hpf Hw. unfold pde_copy. rewrite Hw. destruct (present s0 x); [|done]. intros (df & Ed & Hc).
  exists df. split; [done|]. apply (table_copy_step _ _ _ _ _ _ _ He); [|done]. intros f Hf%elem_of_singleton. congruence.
Qed.

Lemma clone_dir (T M : gset Z) res pf fl d k s : inv s T M (dir_cost s d + k) ->
  res mod 4096 = 0 -> managed res -> entry s res = Some (pf, fl) -> Z.testbit fl 1 = true -> foreign s T pf ->
  users_ok s T pf d 1 -> 0 <= d < 768 -> word s pf d = 0 ->
  exists s',
    (e ← vload s (current_pagedir + 4 * d);
     if nz (Z.land e PDE_PRESENT) then
       let src := get_pagetable d in
       '(dst_frame, s) ← pmm_alloc_frame s;
       _ ← c_assert (negb (dst_frame =? INVALID_FRAME));
       '(dst, s) ← vmm_transient_map kh_malloc_a kh_malloc s dst_frame (Z.lor VMM_PAGE_PRESENT VMM_PAGE_WRITABLE);
       s ← clone_pagetable kh_malloc_a kh_malloc kh_free s dst src;
       s ← vmm_transient_unmap kh_free s dst;
       e ← vload s (current_pagedir + 4 * d);
       vstore s (res + 4 * d) (Z.lor dst_frame (Z.land e PDE_FLAGS))
     else Ret s) = Ret s' /\
    evolves ∅ {[pf]} T [] s s' /\ inv s' T M k /\ transient_maps s' = transient_maps s /\
    (forall x, 0 <= x < 1024 -> x <> d -> word s' pf x = word s pf x) /\ pde_copy s s' T pf d.
Proof.
  intros Hinv Ha Hm He Hw Hpf Hu Hd Hz. pose proof (in_ok _ _ _ _ Hinv) as Hok. unfold dir_cost in Hinv.
  rewrite vload_dir by (done || lia). cbn [mbind outcome_bind]. change PDE_PRESENT with 1. rewrite nz_bit0. fold (present s d).
  destruct (present s d) eqn:Ep; cycle 1.
  { exists s. split; [done|]. split; [|by unfold pde_copy; rewrite Ep].
    apply (evolves_weaken ∅ ∅ T); [done|apply empty_subseteq|done|by apply evolves_refl]. }
  rewrite <- Nat.add_assoc in Hinv.
  destruct (clone_table s T M d k Hinv Hd Ep) as (df & s0 & dst & s1 & s2 & s3 & E0 & Hne & E1 & E2 & E3 & Hev3 & Hinv3 & Ht3 & Htc).
  { intros j Hj Hb. by apply (Hu d ltac:(lia) Ep j). }
  cbv zeta. rewrite E0. cbn [mbind outcome_bind]. rewrite (proj2 (Z.eqb_neq _ _)) by done. cbn [negb c_assert mbind outcome_bind].
  rewrite E1. cbn [mbind outcome_bind]. rewrite E2. cbn [mbind outcome_bind]. rewrite E3. cbn [mbind outcome_bind].
  rewrite vload_dir by (apply Hev3 || lia). cbn [mbind outcome_bind].
  assert (pd s3 d = pd s d) as -> by (apply (ev_dirs _ _ _ _ _ _ Hev3); [lia|done]).
  pose proof Htc as [(Hdfree & Hdres & Hdfor & Hdr) _ _ _].
  destruct (new_pte (pd s d) df (proj1 (proj1 Hdfor)) Hdr Ep) as (Hlor & Her & _). change PDE_FLAGS with PTE_FLAGS. rewrite Hlor.
  assert (foreign s3 T pf) as Hpf3 by (apply (keep_foreign _ _ _ _ _ _ _ Hev3); [done|pages|done]).
  destruct (store_ok s3 T M _ res pf fl d (df + pd s d mod 4096) (in_ok _ _ _ _ Hinv3) Hpf3 (in_rep _ _ _ _ Hinv3) Ha Hm)
    as (s4 & E4 & Hev4 & Hrep4 & _ & Ht4 & K4 & Hw4); [|done|lia|].
  { rewrite (ev_entry _ _ _ _ _ _ Hev3); [done|done|done|apply not_elem_of_empty|right; congruence]. }
  assert (forall x, 0 <= x < 1024 -> word s3 pf x = word s pf x) as Hw3.
  { intros x Hx. apply (ev_data _ _ _ _ _ _ Hev3); [done|apply not_elem_of_empty|apply not_elem_of_nil|done]. }
  exists s4. split; [done|]. split.
  { apply (evolves_weaken ∅ (∅ ∪ {[pf]}) T); [done|pages|done|]. by apply (evolves_seq _ _ _ [] [] s s3 s4 Hok). }
  split; [split; [apply Hev4|done|rewrite Ht4; apply Hinv3]|]. split; [congruence|]. split.
  - intros x Hx Hxd. unfold word. rewrite Hw4, (proj2 (Z.eqb_neq _ _)) by done. by apply Hw3.
  - unfold pde_copy. rewrite Ep. exists df. split; [unfold word; rewrite Hw4, Z.eqb_refl, u32_small by (done || lia); done|].
    apply (table_copy_step _ _ _ _ _ _ _ Hev4); [|done]. intros f Hf%elem_of_singleton. subst f. apply Hpf.
Qed.

(** What a copied entry of the directory owns was taken since [s0]. *)
Lemma pde_copy_frames s0 s (T : gset Z) pf x : pde_copy s0 s T pf x ->
  NoDup (dir_frames (in_space s pf) x) /\ Forall (fresh s0 s T) (dir_frames (in_space s pf) x).
Proof.
  unfold pde_copy. destruct (present s0 x) eqn:Ep.
  - intros (df & Ew & Hc). destruct (dir_frames_copy s0 s T pf x df Ep Ew Hc) as (-> & _). split; [apply Hc|].
    apply Forall_app. split; [apply Hc|]. repeat constructor; apply Hc.
  - intros Ew. unfold dir_frames, present. change (pd (in_space s pf) x) with (word s pf x). rewrite Ew. cbn. split; constructor.
Qed.

Lemma pde_copy_kept s0 s s' (T : gset Z) pf x : evolves ∅ {[pf]} T [] s s' -> fa_frame (frames s0) pf <> Free ->
  word s' pf x = word s pf x -> pde_copy s0 s T pf x -> dir_frames (in_space s pf) x = dir_frames (in_space s' pf) x.
Proof.
  intros He Hpf Hw Hc. pose proof (pde_copy_step T s0 s s' pf x He Hpf Hw Hc) as Hc'. unfold pde_copy in Hc, Hc'.
  destruct (present s0 x) eqn:Ep.
  - destruct Hc as (df & Ew & Hc), Hc' as (df' & Ew' & Hc').
    destruct (dir_frames_copy s0 s T pf x df Ep Ew Hc) as (-> & _ & Ht & _).
    destruct (dir_frames_copy s0 s' T pf x df' Ep Ew' Hc') as (-> & _ & Ht' & _).
    assert (df' = df) as -> by (unfold table_of, pd in Ht, Ht'; cbn [phys cr3 in_space] in Ht, Ht'; unfold word in Hw; congruence).
    f_equal. apply table_frames_ext. intros j Hj. symmetry.
    apply (ev_data _ _ _ _ _ _ He); [apply (tc_fresh _ _ _ _ _ Hc)| |apply not_elem_of_nil|lia].
    rewrite elem_of_singleton. intros ->. by destruct (tc_fresh _ _ _ _ _ Hc) as [? _].
  - unfold dir_frames, present. change (pd (in_space s pf) x) with (word s pf x).
    change (pd (in_space s' pf) x) with (word s' pf x). rewrite Hw. by rewrite Hc.
Qed.

Lemma clone_user_ok (T M : gset Z) res pf fl k n : forall d s, inv s T M (user_cost n d s + k) ->
  res mod 4096 = 0 -> managed res -> entry s res = Some (pf, fl) -> Z.testbit fl 1 = true -> foreign s T pf ->
  users_ok s T pf d n -> 0 <= d -> d + Z.of_nat n <= 768 -> (forall x, d <= x < d + Z.of_nat n -> word s pf x = 0) ->
  exists s', clone_user kh_malloc_a kh_malloc kh_free n d s res = Ret s' /\
    evolves ∅ {[pf]} T [] s s' /\ inv s' T M k /\ transient_maps s' = transient_maps s /\
    (forall x, 0 <= x < 1024 -> ~ d <= x < d + Z.of_nat n -> word s' pf x = word s pf x) /\
    (forall x, d <= x < d + Z.of_nat n -> pde_copy s s' T pf x) /\
    NoDup (user_frames n d (in_space s' pf)) /\ Forall (fresh s s' T) (user_frames n d (in_space s' pf)).
Proof.
  induction n as [|n IH]; intros d s Hinv Ha Hm He Hw Hpf Hu Hd Hn Hz; cbn [clone_user user_frames user_cost] in *.
  { exists s. split; [done|]. split; [|split; [done|split; [done|split; [done|split; [lia|split; constructor]]]]].
    apply (evolves_weaken ∅ ∅ T); [done|apply empty_subseteq|done|]. apply evolves_refl, Hinv. }
  pose proof (in_ok _ _ _ _ Hinv) as Hok. rewrite <- Nat.add_assoc in Hinv.
  destruct (clone_dir T M res pf fl d _ s Hinv Ha Hm He Hw Hpf) as (s1 & E1 & Hev1 & Hinv1 & Ht1 & Hw1 & Hc1).
  { intros x Hx. apply Hu. lia. }
  { lia. }
  { apply Hz. lia. }
  destruct (vload s (current_pagedir + 4 * d)) as [e|]; [|done]. cbn [mbind outcome_bind] in E1 |- *. rewrite E1. cbn [mbind outcome_bind].
  destruct (IH (d + 1) s1) as (s' & E & Hev & Hinv' & Ht & Hlow & Hcp & Hnd & Hfr); try done; try lia.
  { by rewrite (user_cost_step _ _ _ _ _ _ Hev1) by lia. }
  { rewrite (ev_entry _ _ _ _ _ _ Hev1); [done|done|done|apply not_elem_of_empty|right; congruence]. }
  { apply (keep_foreign _ _ _ _ _ _ _ Hev1); [done|pages|done]. }
  { apply (users_ok_step _ _ _ _ _ _ _ _ _ Hev1); [done|pages|lia|lia|]. intros x Hx. apply Hu. lia. }
  { intros x Hx. rewrite Hw1 by lia. apply Hz. lia. }
  assert (evolves ∅ {[pf]} T [] s s') as Hev0.
  { apply (evolves_weaken ∅ ({[pf]} ∪ {[pf]}) T); [done|pages|done|]. by apply (evolves_seq _ _ _ [] [] s s1 s' Hok). }
  assert (pde_copy s s' T pf d) as Hcd.
  { apply (pde_copy_step _ _ _ _ _ _ Hev); [apply Hpf|apply Hlow; lia|done]. }
  exists s'. split; [done|]. split; [done|]. split; [done|]. split; [congruence|]. split; [|split].
  - intros x Hx Hout. rewrite Hlow by lia. apply Hw1; [done|]. lia.
  - intros x Hx. destruct (Z.eq_dec x d) as [->|]; [done|]. specialize (Hcp x ltac:(lia)). unfold pde_copy in Hcp |- *.
    rewrite (user_present _ _ _ _ _ _ Hev1) in Hcp by lia. destruct (present s x) eqn:Ep; [|done].
    destruct Hcp as (df & Ed & Hc). exists df. split; [rewrite Ed; do 2 f_equal; apply (ev_dirs _ _ _ _ _ _ Hev1); [lia|done]|].
    apply (table_copy_base _ _ _ _ _ _ _ _ Hev1); [lia|done| |done]. intros j Hj Hb.
    destruct (Hu x ltac:(lia) Ep j ltac:(lia) Hb). split; [done|]. by rewrite elem_of_singleton.
  - destruct (pde_copy_frames s s' T pf d Hcd) as [Hn1 Hf1]. split.
    + apply NoDup_app. split; [done|]. split; [|done]. intros q Hq1 Hq2.
      rewrite Forall_forall in Hfr. destruct (Hfr q Hq2) as [Hqf _].
      destruct (pde_copy_frames s s1 T pf d Hc1) as [_ Hf1'].
      pose proof (pde_copy_kept s s1 s' T pf d Hev ltac:(apply Hpf) ltac:(apply Hlow; lia) Hc1) as Edf.
      rewrite <- Edf in Hq1. rewrite Forall_forall in Hf1'. destruct (Hf1' q Hq1) as (_ & Hqr & _). congruence.
    + apply Forall_app. split; [done|]. eapply Forall_impl; [exact Hfr|]. intros q Hq. by apply (fresh_base _ _ _ _ _ _ _ _ Hev1).
Qed.
End clone.
