(* ===== verification/VmmCloneSpec.v ===== *)
(** The whole of [vmm_clone_pagedir] ([kernel/vmm.c]): the new directory, word by word, and the
    address space it describes. *)
From S2P Require Import Prelude Util Bitset Pmm Vmm VmmSpec VmmClaims VmmSpaces VmmHeap VmmWindow VmmClone.

Section whole.
Context {F : Type} `{FrameAllocator F} `{HeapRange} `{!KernelHeap F}.
Implicit Types s : vmm F.

(** The page a task sees at [va]: its frame is not of the heap, and in use. *)
Definition user_pages_ok s (T : gset Z) : Prop :=
  forall va f fl, va mod 4096 = 0 -> 0 <= va < KERNEL_START -> entry s va = Some (f, fl) -> foreign s T f.

Lemma user_index d j : 0 <= d < 768 -> 0 <= j < 1024 ->
  let va := d * 2 ^ 22 + j * 4096 in
  va mod 4096 = 0 /\ 0 <= va < KERNEL_START /\ PAGE_DIRECTORY_INDEX va = d /\ PAGE_TABLE_INDEX va = j.
Proof.
  intros Hd Hj va. unfold va, KERNEL_START. rewrite dir_index_eq, table_index_eq.
  replace (d * 2 ^ 22 + j * 4096) with ((d * 1024 + j) * 4096) by lia.
  split; [apply Z.mod_mul; lia|]. split; [lia|]. change (2 ^ 22) with (4096 * 1024). change (2 ^ 12) with 4096.
  rewrite <- Z.div_div, Z.div_mul by lia. rewrite (Z.add_comm (d * 1024)), Z.div_add, Z.div_small, Z.mod_add by lia.
  split; [rewrite Z.mod_small; lia|]. rewrite Z.mod_small; lia.
Qed.

Lemma user_va_index va : va mod 4096 = 0 -> 0 <= va < KERNEL_START ->
  0 <= PAGE_DIRECTORY_INDEX va < 768 /\ 0 <= PAGE_TABLE_INDEX va < 1024.
Proof.
  intros Ha Hv. unfold KERNEL_START in Hv. split; [|apply table_index_range]. rewrite dir_index_eq.
  assert (0 <= va / 2 ^ 22 < 768) by (split; [apply Z.div_pos|apply Z.div_lt_upper_bound]; lia).
  rewrite Z.mod_small; lia.
Qed.

Lemma user_pages_source s (T : gset Z) d j : vm_ok s -> user_pages_ok s T -> 0 <= d < 768 -> present s d = true -> 0 <= j < 1024 ->
  Z.testbit (word s (table_of s d) j) 0 = true -> foreign s T (Z.land (word s (table_of s d) j) PTE_FRAME).
Proof.
  intros Hok Hu Hd Hp Hj Hb. destruct (user_index d j Hd Hj) as (Ha & Hv & Ed & Et).
  eapply Hu; [exact Ha|exact Hv|]. rewrite entry_eq by done. cbv zeta. rewrite Ed, Et, Hp. unfold word in Hb. by rewrite Hb.
Qed.

(** A page the heap hands out is behind no page that was in use. *)
Lemma new_page_distinct s s1 (T : gset Z) a f fl g : evolves ∅ ∅ T [] s s1 -> heap_page a -> a ∉ T ->
  entry s1 a = Some (f, fl) -> foreign s T g -> g <> f.
Proof.
  intros He Hpa HaT Ea (_ & Hu & Hh) ->. destruct (heap_managed a Hpa) as [Ha Hm]. destruct (entry s a) as [[h hl]|] eqn:Es.
  - rewrite (ev_entry _ _ _ _ _ _ He) in Ea; [|done|done|apply not_elem_of_empty|right; congruence].
    apply (Hh a fl); [done|done|congruence].
  - destruct (ev_fresh _ _ _ _ _ _ He a f fl) as [?|?%not_elem_of_nil]; [done|apply not_elem_of_empty|done|done|done|done].
Qed.

Lemma user_frames_tables n : forall d s x y, NoDup (user_frames n d s) -> d <= x < y -> y < d + Z.of_nat n ->
  present s x = true -> present s y = true -> table_of s x <> table_of s y.
Proof.
  induction n as [|n IH]; intros d s x y Hnd Hx Hy Hpx Hpy; [lia|]. cbn [user_frames] in Hnd.
  apply NoDup_app in Hnd as (_ & Hdis & Hnd). destruct (Z.eq_dec x d) as [->|]; [|apply (IH (d + 1)); (done || lia)].
  intros E. apply (Hdis (table_of s d)).
  - unfold dir_frames. rewrite Hpx. apply elem_of_app. right. by apply list_elem_of_singleton.
  - rewrite E. apply table_in_user; [lia|done].
Qed.

Lemma user_frames_ext n : forall d s s', (forall x, d <= x < d + Z.of_nat n -> dir_frames s x = dir_frames s' x) ->
  user_frames n d s = user_frames n d s'.
Proof.
  induction n as [|n IH]; intros d s s' Hx; cbn [user_frames]; [done|]. rewrite (Hx d) by lia. f_equal.
  apply IH. intros x Hx'. apply Hx. lia.
Qed.

(** ** The words of the new directory *)
Record clone_ok s s' (T : gset Z) (pf : Z) : Prop := {
  ck_user x : 0 <= x < 768 -> pde_copy s s' T pf x;
  ck_kernel x : 768 <= x < 1023 -> word s' pf x = pd s' x;
  ck_self : word s' pf 1023 = pf + 3;
  ck_nodup : NoDup (user_frames 768 0 (in_space s' pf));
  ck_fresh : Forall (fresh s s' T) (user_frames 768 0 (in_space s' pf));
  ck_frame : foreign s' T pf /\ 0 <= pf < 2 ^ 32
}.

(** [s1] is the state with an empty directory in [pf], mapped at [res]. *)
Lemma clone_words (T M : gset Z) n s1 res pf fl : inv s1 T M (user_cost 768 0 s1 + n) ->
  res mod 4096 = 0 -> managed res -> entry s1 res = Some (pf, fl) -> Z.testbit fl 1 = true -> foreign s1 T pf ->
  users_ok s1 T pf 0 768 -> (forall x, 0 <= x < 1024 -> word s1 pf x = 0) ->
  exists s2 s3 s4, clone_user kh_malloc_a kh_malloc kh_free user_pdes USER_PDE_START s1 res = Ret s2 /\
    copy_entries kernel_pdes KERNEL_PDE_START s2 res = Ret s3 /\ vmm_get_physical s3 res = Ret pf /\
    vstore s3 (res + 4 * RECURSIVE_MAPPING_PDE) (Z.lor (Z.lor pf PDE_PRESENT) PDE_WRITABLE) = Ret s4 /\
    evolves ∅ {[pf]} T [] s1 s4 /\ inv s4 T M n /\ transient_maps s4 = transient_maps s1 /\ clone_ok s1 s4 T pf.
Proof.
  intros Hinv Ha Hm He Hw Hpf Hu Hz. pose proof (in_ok _ _ _ _ Hinv) as Hok.
  destruct (clone_user_ok T M res pf fl n 768 0 s1 Hinv) as (s2 & E2 & Hev2 & Hinv2 & Ht2 & Hlow2 & Hcp2 & Hnd2 & Hfr2); try done; try lia.
  { intros x Hx. apply Hz. lia. }
  pose proof (in_ok _ _ _ _ Hinv2) as Hok2.
  assert (entry s2 res = Some (pf, fl)) as He2.
  { rewrite (ev_entry _ _ _ _ _ _ Hev2); [done|done|done|apply not_elem_of_empty|right; congruence]. }
  assert (foreign s2 T pf) as Hpf2 by (apply (keep_foreign _ _ _ _ _ _ _ Hev2); [done|pages|done]).
  destruct (copy_entries_ok kernel_pdes KERNEL_PDE_START s2 res pf fl Hok2 Ha Hm He2 Hw (proj1 Hpf2) ltac:(done) ltac:(done)) as [E3 Hst3].
  destruct (write_ok s2 T M n pf _ Hok2 Hpf2 Hst3) as (Hev3 & Hrep3 & K3); [|apply Hinv2|].
  { intros w Hne. apply pload_copied_out. change kernel_pdes with 255%nat. change KERNEL_PDE_START with 768. intros j Hj. apply Hne. lia. }
  assert (forall x, 0 <= x < 1024 -> word (with_phys s2 (copied kernel_pdes KERNEL_PDE_START (pd s2) (phys s2) pf)) pf x =
    if (768 <=? x) && (x <? 1023) then pd s2 x else word s2 pf x) as Hw3.
  { intros x Hx. unfold word. cbn [phys with_phys]. change kernel_pdes with 255%nat. change KERNEL_PDE_START with 768.
    destruct ((768 <=? x) && (x <? 1023)) eqn:E; breflect.
    - rewrite pload_copied_in by lia. apply u32_small. by apply pload_range.
    - apply pload_copied_out. intros j Hj Ej. breflect_cases; lia. }
  assert (forall x, 0 <= x < 1024 -> pd (with_phys s2 (copied kernel_pdes KERNEL_PDE_START (pd s2) (phys s2) pf)) x = pd s2 x) as Hpd3
    by (intros x Hx; by apply Hst3).
  assert (transient_maps (with_phys s2 (copied kernel_pdes KERNEL_PDE_START (pd s2) (phys s2) pf)) = transient_maps s2) as Ht3 by done.
  revert E3 Hev3 Hrep3 K3 Hw3 Hpd3 Ht3. generalize (with_phys s2 (copied kernel_pdes KERNEL_PDE_START (pd s2) (phys s2) pf)).
  intros s3 E3 Hev3 Hrep3 K3 Hw3 Hpd3 Ht3. pose proof (ev_ok _ _ _ _ _ _ Hev3) as Hok3.
  assert (entry s3 res = Some (pf, fl)) as He3.
  { rewrite (ev_entry _ _ _ _ _ _ Hev3); [done|done|done|apply not_elem_of_empty|right; congruence]. }
  destruct (entry_frame s3 res pf fl Hok3 He3) as (Hpr & Hpm & _).
  destruct (entry_parts pf 3 Hpm Hpr ltac:(lia)) as (Hlor & Hpr3 & _).
  destruct (store_ok s3 T M n res pf fl 1023 (pf + 3) Hok3 (K3 _ Hpf2) Hrep3 Ha Hm He3 Hw ltac:(lia)) as (s4 & E4 & Hev4 & Hrep4 & Hpd4 & Ht4 & K4 & Hw4).
  assert (evolves ∅ {[pf]} T [] s2 s4) as Hev24.
  { apply (evolves_weaken ∅ ({[pf]} ∪ {[pf]}) T); [done|pages|done|]. by apply (evolves_seq _ _ _ [] [] s2 s3 s4 Hok2). }
  assert (forall x, 0 <= x < 768 -> word s4 pf x = word s2 pf x) as Hlow4.
  { intros x Hx. unfold word. rewrite Hw4, (proj2 (Z.eqb_neq _ _)) by lia. fold (word s3 pf x). rewrite Hw3 by lia.
    by rewrite (proj2 (Z.leb_gt 768 x)) by lia. }
  assert (user_frames 768 0 (in_space s2 pf) = user_frames 768 0 (in_space s4 pf)) as Euf.
  { apply user_frames_ext. intros x Hx. apply (pde_copy_kept s1 _ _ T); [done|apply Hpf|apply Hlow4; lia|apply Hcp2; lia]. }
  exists s2, s3, s4. split; [exact E2|]. split; [exact E3|].
  split; [destruct (get_physical_eq s3 res Hok3 Ha) as [-> _]; by rewrite He3|].
  split; [rewrite <- Z.lor_assoc; change (Z.lor PDE_PRESENT PDE_WRITABLE) with 3; by rewrite Hlor|].
  split; [apply (evolves_weaken ∅ ({[pf]} ∪ {[pf]}) T); [done|pages|done|]; by apply (evolves_seq _ _ _ [] [] s1 s2 s4 Hok)|].
  split; [split; [apply Hev4|done|rewrite Ht4, Ht3; apply Hinv2]|]. split; [congruence|].
  split; [| | | | |split; [by apply K4, K3|done]].
  - intros x Hx. apply (pde_copy_step _ _ s2 _ _ _ Hev24); [apply Hpf|by apply Hlow4|apply Hcp2; lia].
  - intros x Hx. unfold word. rewrite Hw4, (proj2 (Z.eqb_neq _ _)) by lia. fold (word s3 pf x). rewrite Hw3 by lia.
    rewrite (proj2 (Z.leb_le 768 x)), (proj2 (Z.ltb_lt x 1023)) by lia. cbn [andb]. by rewrite Hpd4, Hpd3 by lia.
  - unfold word. rewrite Hw4, Z.eqb_refl by lia. by apply u32_small.
  - by rewrite <- Euf.
  - rewrite <- Euf. eapply Forall_impl; [exact Hfr2|]. intros q Hq. by apply (fresh_step _ _ _ _ _ _ Hev24).
Qed.

(** ** The new address space *)
Lemma clone_dirs s1 s' (T : gset Z) pf : clone_ok s1 s' T pf ->
  (forall x, 0 <= x < 768 -> present (in_space s' pf) x = present s1 x) /\
  (forall x, 0 <= x < 768 -> present s1 x = true -> table_copy s1 s' T x (table_of (in_space s' pf) x) /\
     Z.testbit (pd (in_space s' pf) x) 1 = Z.testbit (pd s1 x) 1) /\
  (forall x, 768 <= x < 1023 -> pd (in_space s' pf) x = pd s' x) /\
  table_of (in_space s' pf) 1023 = pf /\ present (in_space s' pf) 1023 = true /\ Z.testbit (pd (in_space s' pf) 1023) 1 = true.
Proof.
  intros [Hu Hk Hs _ _ [Hpf Hpr]].
  assert (forall x, 0 <= x < 768 -> present s1 x = true -> present (in_space s' pf) x = true /\
    table_copy s1 s' T x (table_of (in_space s' pf) x) /\ Z.testbit (pd (in_space s' pf) x) 1 = Z.testbit (pd s1 x) 1) as Hcp.
  { intros x Hx Hp. specialize (Hu x Hx). unfold pde_copy in Hu. rewrite Hp in Hu. destruct Hu as (df & Ew & Hc).
    destruct (dir_frames_copy s1 s' T pf x df Hp Ew Hc) as (_ & H1' & H2' & H3' & _). by rewrite H2'. }
  split; [|split; [|split; [exact Hk|]]].
  - intros x Hx. destruct (present s1 x) eqn:Ep; [by apply Hcp|]. specialize (Hu x Hx). unfold pde_copy in Hu. rewrite Ep in Hu.
    unfold present. change (pd (in_space s' pf) x) with (word s' pf x). by rewrite Hu.
  - intros x Hx Hp. by apply Hcp.
  - unfold table_of, present. change (pd (in_space s' pf) 1023) with (word s' pf 1023). rewrite Hs.
    destruct (entry_parts pf 3 (proj1 (proj1 Hpf)) Hpr ltac:(lia)) as (Hl & _ & Hf & _). change PDE_FRAME with PTE_FRAME. rewrite Hf.
    split; [done|]. rewrite <- Hl, !Z.lor_spec. by rewrite !orb_true_r.
Qed.

Lemma clone_space_ok s1 s' (T : gset Z) pf : vm_ok s1 -> foreign s1 T pf -> clone_ok s1 s' T pf -> space_ok s' pf.
Proof.
  intros Hok Hpf1 Hc. destruct (clone_dirs s1 s' T pf Hc) as (Hp & Ht & Hk & Hself). destruct (ck_frame _ _ _ _ Hc) as [Hpf Hpr].
  split.
  - apply Hpf.
  - exact Hself.
  - intros d Hd Hpd. rewrite Hp in Hpd by done. destruct (Ht d Hd Hpd) as [[(Hfree & Hres & ((Hm & Hcr & Htab) & Hu & _) & _) _ _ _] ->].
    split; [apply (vo_writable s1 Hok); (done || lia)|]. split; [|split; [done|]].
    + intros E. rewrite E in Hfree. by destruct Hpf1 as (_ & ? & _).
    + intros k Hkk Hpk E. by apply (Htab k); [lia| |].
  - intros d d' Hd Hd' Hpd Hpd' E. destruct (Z.lt_trichotomy d d') as [Hlt|[?|Hlt]]; [|done|]; exfalso.
    + by apply (user_frames_tables 768 0 (in_space s' pf) d d' (ck_nodup _ _ _ _ Hc)); [lia|lia| | |].
    + by apply (user_frames_tables 768 0 (in_space s' pf) d' d (ck_nodup _ _ _ _ Hc)); [lia|lia| | |].
Qed.

(** A page of the user half and its copy. *)
Lemma clone_user_entry s1 s' (T : gset Z) pf va : vm_ok s1 -> clone_ok s1 s' T pf -> va mod 4096 = 0 -> 0 <= va < KERNEL_START ->
  match entry s1 va with
  | None => entry (in_space s' pf) va = None
  | Some (f, fl) => exists nf, entry (in_space s' pf) va = Some (nf, fl) /\ copy_of s1 s' T f nf
  end.
Proof.
  intros Hok Hc Ha Hv. destruct (clone_dirs s1 s' T pf Hc) as (Hp & Ht & _). destruct (ck_frame _ _ _ _ Hc) as [[[Hm _] _] Hpr].
  destruct (user_va_index va Ha Hv) as [Hd Hj]. destruct (entry_at (in_space s' pf) va Hpr Hm) as [_ ->].
  rewrite entry_eq by done. cbv zeta. rewrite Hp by done. destruct (present s1 _) eqn:Ep; [|done].
  destruct (Ht _ Hd Ep) as [[_ Hcp _ _] _]. specialize (Hcp _ Hj). unfold pte_copy in Hcp.
  fold (word s1 (table_of s1 (PAGE_DIRECTORY_INDEX va)) (PAGE_TABLE_INDEX va)).
  change (pload (phys (in_space s' pf)) ?a) with (pload (phys s') a).
  set (e := word s1 _ _) in *. set (tb := table_of (in_space s' pf) _) in *. fold (word s' tb (PAGE_TABLE_INDEX va)).
  destruct (Z.testbit e 0) eqn:Eb; [|by rewrite Hcp]. destruct Hcp as (nf & -> & Hcp). exists nf. split; [|done].
  destruct Hcp as [(_ & _ & ((Hnm & _) & _) & Hnr) _].
  destruct (new_pte e nf Hnm Hnr Eb) as (_ & _ & Hlf & Hlg & Hb0 & _). by rewrite Hb0, Hlf, Hlg, land_flags.
Qed.

Lemma clone_kernel_entry s1 s' (T : gset Z) pf va : vm_ok s' -> clone_ok s1 s' T pf -> managed va -> KERNEL_START <= va ->
  entry (in_space s' pf) va = entry s' va.
Proof.
  intros Hok Hc Hm Hk. destruct (clone_dirs s1 s' T pf Hc) as (_ & _ & Hpd & _). destruct (ck_frame _ _ _ _ Hc) as [[[Hpm _] _] Hpr].
  destruct (entry_at (in_space s' pf) va Hpr Hpm) as [_ ->]. rewrite entry_eq by done. cbv zeta.
  assert (768 <= PAGE_DIRECTORY_INDEX va < 1023) as Hd.
  { pose proof (managed_dir va Hm). split; [|done]. unfold managed, KERNEL_START in *. rewrite dir_index_eq.
    assert (768 <= va / 2 ^ 22 < 1024) by (split; [apply Z.div_le_lower_bound|apply Z.div_lt_upper_bound]; lia).
    rewrite Z.mod_small; lia. }
  unfold present, table_of. by rewrite Hpd.
Qed.

(** The empty directory: a page of the heap, cleared. *)
Lemma new_directory s (T M : gset Z) n : inv s T M (S n) -> user_pages_ok s T ->
  exists res s0 s1 pf fl, kh_malloc_a s 4096 4096 = Ret (res, s0) /\ vzero 1024 s0 res = Ret s1 /\
    heap_page res /\ res ∉ T /\ entry s1 res = Some (pf, fl) /\ Z.testbit fl 1 = true /\ foreign s1 ({[res]} ∪ T) pf /\
    evolves ∅ ∅ T [] s s1 /\ inv s1 ({[res]} ∪ T) M n /\ transient_maps s1 = transient_maps s /\
    users_ok s1 ({[res]} ∪ T) pf 0 768 /\ (forall g, foreign s T g -> g <> pf) /\ forall x, 0 <= x < 1024 -> word s1 pf x = 0.
Proof.
  intros [Hok Hrep Hl] Hu.
  destruct (kh_malloc_a_ok s T M n Hok Hrep) as (res & s0 & pf & fl & E0 & Hpa & HaT & Hev0 & _ & Ht0 & Hrep0 & He0 & Hw0 & Hpf0).
  destruct (heap_managed res Hpa) as [Ha Hm]. pose proof (ev_ok _ _ _ _ _ _ Hev0) as Hok0. set (T1 := {[res]} ∪ T) in *.
  pose proof (vzero_filled 1024 0 s0 res pf fl Hok0 (proj1 Hpf0) Ha Hm He0 Hw0 ltac:(lia) ltac:(lia)) as E1.
  rewrite Z.mul_0_r, Z.add_0_r in E1.
  destruct (filled_ok s0 T1 M n (fun _ => 0) pf Hok0 Hpf0 Hrep0) as (Hev1 & Hrep1 & K1 & Hz1).
  assert (transient_maps (filled s0 1024 0 (fun _ => 0) pf) = transient_maps s0) as Ht1 by done.
  revert E1 Hev1 Hrep1 K1 Hz1 Ht1. generalize (filled s0 1024 0 (fun _ => 0) pf). intros s1 E1 Hev1 Hrep1 K1 Hz1 Ht1.
  assert (forall g, foreign s T g -> g <> pf) as Hne by (intros g; by apply (new_page_distinct s s0 T res pf fl)).
  assert (evolves ∅ (∅ ∪ {[pf]}) T [] s s1) as Hev01.
  { apply (evolves_weaken (∅ ∪ ∅) (∅ ∪ {[pf]}) T); [pages|done|done|].
    apply (evolves_then _ _ _ _ _ T1 [] [] s s0 s1 Hok Hev0 Hev1); unfold T1; pages. }
  exists res, s0, s1, pf, fl. split; [done|]. split; [done|]. split; [done|]. split; [done|].
  split; [rewrite (ev_entry _ _ _ _ _ _ Hev1); [done|done|done|apply not_elem_of_empty|right; congruence]|].
  split; [done|]. split; [by apply K1|]. split; [|split; [|split; [congruence|split; [|split; [done|]]]]].
  - apply (evolves_unwritten _ _ _ _ _ _ Hev01). intros f Hf Hfor. apply elem_of_union in Hf as [Hf%elem_of_empty|Hf%elem_of_singleton]; [done|].
    subst f. by apply (Hne pf Hfor).
  - split; [apply Hev1|done|]. rewrite Ht1, Ht0. eapply Forall_impl; [exact Hl|]. intros t Ht. apply elem_of_union. by right.
  - apply (users_ok_step _ _ _ T1 _ _ _ _ _ Hev01); [unfold T1; pages|pages|lia|lia|].
    intros x Hx Hp j Hj Hb. pose proof (user_pages_source s T x j Hok Hu ltac:(lia) Hp ltac:(lia) Hb) as Hf. split; [done|by apply Hne].
  - intros x Hx. by apply Hz1.
Qed.
End whole.
