(* ===== verification/VmmDestroy.v ===== *)
(** Giving back an address space ([vmm_destroy_pagedir] of [kernel/vmm.c], what the end of a
    task runs): each table is looked at through a window, its frames are freed, then the table
    and at last the directory. *)
From S2P Require Import Prelude Util Bitset Pmm Vmm VmmSpec VmmClaims VmmSpaces VmmHeap VmmWindow VmmClone.

Section destroy.
Context {F : Type} `{FrameAllocator F} `{HeapRange} `{!KernelHeap F}.
Implicit Types s : vmm F.

(** The frames of [L] are free, or the heap has taken them since. *)
Definition gives (L : list Z) s s' : Prop := forall q, q mod 4096 = 0 -> fa_frame (frames s) q = Free \/ q ∈ L ->
  fa_frame (frames s') q = Free \/ in_heap s' q.

Lemma gives_seq (W T : gset Z) R L L' s s1 s2 : gives L s s1 -> gives L' s1 s2 -> evolves ∅ W T R s1 s2 -> gives (L ++ L') s s2.
Proof.
  intros G1 G2 He q Hq Hc. rewrite elem_of_app in Hc.
  assert (q ∈ L' \/ fa_frame (frames s1) q = Free \/ in_heap s1 q) as [Hl|[Hf|Hi]].
  { destruct Hc as [Hf|[Hl|Hl]]; [right; apply G1; tauto|right; apply G1; tauto|by left]. }
  - apply G2; tauto.
  - apply G2; tauto.
  - right. apply (in_heap_kept _ _ _ _ _ _ _ He); [by intros x fl ?%elem_of_empty|done].
Qed.

(** A frame that can be given back. *)
Definition owned s (T : gset Z) (f : Z) : Prop := foreign s T f /\ fa_frame (frames s) f = Reserved.

Lemma owned_step (X W T T' : gset Z) R s s' f : evolves X W T R s s' -> T ⊆ T' -> X ⊆ T' -> owned s T f -> f ∉ R -> owned s' T' f.
Proof.
  intros He HT HX [Hf Hr] Hn. split; [by apply (evolves_foreign _ _ _ _ _ _ _ _ He)|].
  rewrite (ev_frames _ _ _ _ _ _ He); [done|apply Hf|congruence|done].
Qed.

(** ** The frames of one table *)
Lemma free_window (T M : gset Z) k va tf fl n : forall i s, vm_ok s -> kh_rep s T M k ->
  va mod 4096 = 0 -> managed va -> entry s va = Some (tf, fl) -> 0 <= i -> i + Z.of_nat n <= 1024 ->
  let L := table_frames n i (phys s) tf in NoDup L -> Forall (owned s T) L ->
  exists s', free_table n i s va = Ret s' /\ evolves ∅ ∅ T L s s' /\ kh_rep s' T M k /\
    transient_maps s' = transient_maps s /\ phys s' = phys s /\
    forall q, q mod 4096 = 0 -> fa_frame (frames s') q = if bool_decide (q ∈ L) then Free else fa_frame (frames s) q.
Proof.
  induction n as [|n IH]; intros i s Hok Hrep Ha Hm He Hi Hn; cbn [free_table table_frames]; intros Hnd Hown.
  { exists s. split; [done|]. split; [by apply evolves_refl|]. split; [done|]. split; [done|]. split; [done|].
    intros q _. rewrite bool_decide_false; [done|apply not_elem_of_nil]. }
  rewrite (vload_mapped s va tf fl) by (done || lia). cbn [mbind outcome_bind]. change PTE_PRESENT with 1. rewrite nz_bit0.
  destruct (Z.testbit (pload (phys s) (tf + 4 * i)) 0); cbn [app] in *; cbn [mbind outcome_bind]; [|apply IH; (done || lia)].
  set (f := Z.land _ PTE_FRAME) in *. apply NoDup_cons in Hnd as [Hni Hnd]. apply Forall_cons in Hown as [[Hf Hres] Hown].
  destruct (give_frame_ok s T M k f Hok Hrep Hf Hres) as (s1 & E1 & Hev1 & Hrep1 & Ht1 & Hp1 & Hq1).
  rewrite E1. cbn [mbind outcome_bind].
  destruct (IH (i + 1) s1) as (s' & E & Hev & Hrep' & Ht & Hp & Hq); rewrite ?Hp1; try done; try lia.
  { apply Hev1. }
  { rewrite (ev_entry _ _ _ _ _ _ Hev1); [done|done|done|apply not_elem_of_empty|right; congruence]. }
  { rewrite Forall_forall in *. intros g Hg. apply (owned_step _ _ _ _ _ _ _ _ Hev1); [done|pages|by apply Hown|].
    rewrite list_elem_of_singleton. by intros ->. }
  rewrite Hp1 in *. exists s'. split; [done|]. split.
  { apply (evolves_weaken ∅ (∅ ∪ ∅) T); [done|pages|done|]. by apply (evolves_seq _ _ _ [f] _ s s1 s' Hok). }
  split; [done|]. split; [congruence|]. split; [congruence|]. intros q Hqm. rewrite Hq, Hq1 by done.
  destruct (decide (q ∈ table_frames n (i + 1) (phys s) tf)) as [Hin|Hout].
  - rewrite !bool_decide_true; [done|by right|done].
  - rewrite (bool_decide_false (q ∈ table_frames n (i + 1) (phys s) tf)) by done. destruct (q =? f) eqn:E'; breflect.
    + subst q. rewrite bool_decide_true; [done|by left].
    + rewrite bool_decide_false; [done|]. by intros [?|?]%elem_of_cons.
Qed.

(** ** One entry of the directory *)
Lemma destroy_table (T M : gset Z) k tf s : let L := table_frames 1024 0 (phys s) tf ++ [tf] in
  inv s T M (S (S k)) -> 0 <= tf < 2 ^ 32 -> NoDup L -> Forall (owned s T) L ->
  exists va s1 s2 s3 s4, vmm_transient_map kh_malloc_a kh_malloc s tf (Z.lor VMM_PAGE_PRESENT VMM_PAGE_WRITABLE) = Ret (va, s1) /\
    free_table 1024 0 s1 va = Ret s2 /\ vmm_transient_unmap kh_free s2 va = Ret s3 /\ pmm_free_frame s3 tf = Ret s4 /\
    evolves ∅ ∅ T L s s4 /\ inv s4 T M k /\ transient_maps s4 = transient_maps s /\ gives L s s4.
Proof.
  intros L Hinv Hr Hnd Hown. pose proof (in_ok _ _ _ _ Hinv) as Hok.
  apply NoDup_app in Hnd as (Hnd & Hdis & _). apply Forall_app in Hown as [Hown [Htf _]%Forall_cons].
  set (L0 := table_frames 1024 0 (phys s) tf) in *.
  assert (tf ∉ L0) as HtL by (intros Hc; apply (Hdis tf Hc); by apply list_elem_of_singleton).
  destruct (transient_map_ok s T M k tf 3 Hinv) as (va & s1 & m & fb & flb & E1 & Hop & Hinv1); [apply Htf|done|lia|].
  pose proof (op_ev _ _ _ _ _ _ _ _ _ _ _ Hop) as Hev1. set (T1 := {[va]} ∪ T) in *. set (M1 := {[m]} ∪ M) in *.
  destruct (heap_managed va (op_page _ _ _ _ _ _ _ _ _ _ _ Hop)) as [Ha Hm].
  assert (forall f, owned s T f -> owned s1 T1 f) as K1
    by (intros f Hf; apply (owned_step _ _ _ _ _ _ _ _ Hev1); [unfold T1; pages|unfold T1; pages|done|apply not_elem_of_nil]).
  assert (table_frames 1024 0 (phys s1) tf = L0) as EL.
  { apply table_frames_ext. intros j Hj. apply (ev_data _ _ _ _ _ _ Hev1); [apply Htf|apply not_elem_of_empty|apply not_elem_of_nil|lia]. }
  destruct (free_window T1 M1 k va tf _ 1024 0 s1 (in_ok _ _ _ _ Hinv1) (in_rep _ _ _ _ Hinv1) Ha Hm (op_entry _ _ _ _ _ _ _ _ _ _ _ Hop))
    as (s2 & E2 & Hev2 & Hrep2 & Ht2 & Hp2 & Hq2); rewrite ?EL; try done; try lia.
  { eapply Forall_impl; [exact Hown|]. exact K1. }
  rewrite EL in *.
  assert (forall f, owned s T f -> f <> fb) as Hfb by (intros f [Hf _]; by apply (op_distinct _ _ _ _ _ _ _ _ _ _ _ _ Hop)).
  destruct (transient_unmap_ok s T M ∅ k k tf (Z.lor 1 3) s1 va m fb flb L0 s2 Hinv Hop Hev2 Hrep2 Ht2)
    as (s3 & E3 & Hev3 & Hinv3 & Ht3 & Hfr3 & He3 & Hih3 & K3).
  { intros Hc. rewrite Forall_forall in Hown. by apply (Hfb fb (Hown fb Hc)). }
  assert (owned s3 T tf) as [Htf3 Hres3] by (apply (owned_step _ _ _ _ _ _ _ _ Hev3); [done|pages|done|done]).
  destruct (give_frame_ok s3 T M k tf (in_ok _ _ _ _ Hinv3) (in_rep _ _ _ _ Hinv3) Htf3 Hres3) as (s4 & E4 & Hev4 & Hrep4 & Ht4 & Hp4 & Hq4).
  exists va, s1, s2, s3, s4. do 4 (split; [done|]). split; [|split; [|split; [congruence|]]].
  { apply (evolves_weaken ∅ (∅ ∪ ∅) T); [done|pages|done|]. by apply (evolves_seq _ _ _ L0 [tf] s s3 s4 Hok). }
  { split; [apply Hev4|done|rewrite Ht4; apply Hinv3]. }
  intros q Hq Hc. rewrite Hq4 by done. destruct (q =? tf) eqn:Eq; [by left|]. breflect.
  assert (fa_frame (frames s3) q = Free \/ in_heap s3 q) as [?|Hi]; [|by left|right].
  { rewrite Hfr3, Hq2 by done. destruct (decide (q ∈ L0)) as [Hin|Hout]; [left; by rewrite bool_decide_true|].
    rewrite bool_decide_false by done. destruct Hc as [Hfree|Hc]; [|apply elem_of_app in Hc as [?|?%list_elem_of_singleton]; [done|done]].
    destruct (op_takes _ _ _ _ _ _ _ _ _ _ _ Hop q Hq Hfree) as [?|[->|Hi]]; [by left| |].
    - right. left. exists va, flb. split; [apply Hop|done].
    - right. apply Hih3; [done|]. apply (in_heap_kept _ _ _ _ _ _ _ Hev2); [by intros x fl ?%elem_of_empty|done]. }
  apply (in_heap_kept _ _ _ _ _ _ _ Hev4); [by intros x fl ?%elem_of_empty|done].
Qed.

(** ** The loop over the user half *)
Fixpoint dir_count (n : nat) (d : Z) s : nat :=
  match n with
  | O => 0
  | S n => (if present s d then 1 else 0) + dir_count n (d + 1) s
  end.

(** Giving back other frames changes nothing of what a directory entry owns. *)
Lemma dir_frames_kept (T : gset Z) R s s' pf x : evolves ∅ ∅ T R s s' -> foreign s T pf -> pf ∉ R -> 0 <= x < 1024 ->
  Forall (fun q => foreign s T q /\ q ∉ R) (dir_frames (in_space s pf) x) ->
  dir_frames (in_space s' pf) x = dir_frames (in_space s pf) x /\ present (in_space s' pf) x = present (in_space s pf) x.
Proof.
  intros He Hpf Hn Hx Hall.
  assert (pd (in_space s' pf) x = pd (in_space s pf) x) as Epd
    by (apply (ev_data _ _ _ _ _ _ He); [done|apply not_elem_of_empty|done|done]).
  unfold dir_frames, present, table_of in *. rewrite Epd. split; [|done].
  destruct (Z.testbit (pd (in_space s pf) x) 0); [|done]. apply Forall_app in Hall as [_ [[Hf Hr] _]%Forall_cons]. f_equal.
  apply table_frames_ext. intros j Hj. apply (ev_data _ _ _ _ _ _ He); [done|apply not_elem_of_empty|done|lia].
Qed.

Lemma user_frames_kept (T : gset Z) R s s' pf n : evolves ∅ ∅ T R s s' -> foreign s T pf -> pf ∉ R -> forall d, 0 <= d ->
  d + Z.of_nat n <= 768 -> Forall (fun q => foreign s T q /\ q ∉ R) (user_frames n d (in_space s pf)) ->
  user_frames n d (in_space s' pf) = user_frames n d (in_space s pf) /\ dir_count n d (in_space s' pf) = dir_count n d (in_space s pf).
Proof.
  intros He Hpf Hn. induction n as [|n IH]; intros d Hd Hdn; cbn [user_frames dir_count]; [done|]. intros [Hd1 Hd2]%Forall_app.
  destruct (dir_frames_kept T R s s' pf d He Hpf Hn ltac:(lia) Hd1) as [-> ->].
  destruct (IH (d + 1) ltac:(lia) ltac:(lia) Hd2) as [-> ->]. done.
Qed.

Lemma destroy_loop_ok (T M : gset Z) pagedir pf fl k n : forall d s,
  inv s T M (2 * dir_count n d (in_space s pf) + k) -> pagedir mod 4096 = 0 -> managed pagedir ->
  entry s pagedir = Some (pf, fl) -> foreign s T pf -> 0 <= d -> d + Z.of_nat n <= 768 ->
  let L := user_frames n d (in_space s pf) in pf ∉ L -> NoDup L -> Forall (owned s T) L ->
  exists s', destroy_loop kh_malloc_a kh_malloc kh_free n d s pagedir = Ret s' /\
    evolves ∅ ∅ T L s s' /\ inv s' T M k /\ transient_maps s' = transient_maps s /\ gives L s s'.
Proof.
  induction n as [|n IH]; intros d s Hinv Ha Hm He Hpf Hd Hn; cbn [destroy_loop user_frames dir_count] in *; intros Hnin Hnd Hown.
  { exists s. split; [done|]. split; [apply evolves_refl, Hinv|]. split; [done|]. split; [done|].
    intros q _ [?|?%not_elem_of_nil]; [by left|done]. }
  pose proof (in_ok _ _ _ _ Hinv) as Hok. rewrite (vload_mapped s pagedir pf fl) by (done || lia). cbn [mbind outcome_bind].
  change PDE_PRESENT with 1. rewrite nz_bit0. change (pload (phys s) (pf + 4 * d)) with (pd (in_space s pf) d).
  fold (present (in_space s pf) d). fold (table_of (in_space s pf) d).
  apply NoDup_app in Hnd as (Hnd1 & Hdis & Hnd2). apply Forall_app in Hown as [Hown1 Hown2].
  rewrite elem_of_app in Hnin. unfold dir_frames in Hnin, Hnd1, Hdis, Hown1 |- *.
  destruct (present (in_space s pf) d) eqn:Ep; cbn [Nat.add app] in *; [|cbn [mbind outcome_bind]; apply IH; (done || lia || tauto)].
  set (tf := table_of (in_space s pf) d) in *. change (phys (in_space s pf)) with (phys s) in *.
  set (L1 := table_frames 1024 0 (phys s) tf ++ [tf]) in *.
  replace (2 * S (dir_count n (d + 1) (in_space s pf)) + k)%nat with (S (S (2 * dir_count n (d + 1) (in_space s pf) + k))) in Hinv by lia.
  destruct (destroy_table T M _ tf s Hinv) as (va & s1 & s2 & s3 & s4 & E1 & E2 & E3 & E4 & Hev4 & Hinv4 & Ht4 & Hg4); try done.
  { apply land_frame_range. by apply (pload_range s). }
  rewrite E1. cbn [mbind outcome_bind]. rewrite E2. cbn [mbind outcome_bind]. rewrite E3. cbn [mbind outcome_bind]. rewrite E4. cbn [mbind outcome_bind].
  destruct (user_frames_kept T L1 s s4 pf n Hev4 Hpf ltac:(tauto) (d + 1) ltac:(lia) ltac:(lia)) as [Euf Edc].
  { rewrite Forall_forall in Hown2 |- *. intros q Hq. split; [by apply Hown2|]. intros Hc. by apply (Hdis q). }
  destruct (IH (d + 1) s4) as (s' & E & Hev & Hinv' & Ht & Hg); rewrite ?Euf, ?Edc; try done; try lia; try tauto.
  { rewrite (ev_entry _ _ _ _ _ _ Hev4); [done|done|done|apply not_elem_of_empty|right; congruence]. }
  { apply (evolves_foreign _ _ _ _ _ _ _ _ Hev4); [done|pages|done|tauto]. }
  { rewrite Forall_forall in Hown2 |- *. intros q Hq. apply (owned_step _ _ _ _ _ _ _ _ Hev4); [done|pages|by apply Hown2|].
    intros Hc. by apply (Hdis q). }
  rewrite Euf in *. exists s'. split; [done|]. split.
  { apply (evolves_weaken ∅ (∅ ∪ ∅) T); [done|pages|done|]. by apply (evolves_seq _ _ _ L1 _ s s4 s' Hok). }
  split; [done|]. split; [congruence|]. by apply (gives_seq ∅ T _ _ _ s s4 s' Hg4 Hg Hev).
Qed.
End destroy.
