(* ===== verification/VmmPool.v ===== *)
(** A concrete machine for the theorems on address spaces: frames are handed out from a free
    list, and the kernel heap is a stack of pages whose height is the first word of its first
    page. Both meet the interfaces [FrameAllocator] and [KernelHeap]. *)
From S2P Require Import Prelude Util Bitset Pmm Vmm VmmSpec VmmClaims VmmSpaces VmmHeap.

(** ** A free list of frames *)
Definition in_pool (q : Z) : bool := (0x100000 <=? q) && (q <? 0x200000) && (q mod 4096 =? 0).
Record free_list : Type := mkFree { fl_free : list Z }.

Definition fl_wf (l : free_list) : Prop := NoDup (fl_free l) /\ Forall (fun q => in_pool q = true) (fl_free l).
Definition fl_frame (l : free_list) (q : Z) : frame_state :=
  if in_pool q then if bool_decide (q ∈ fl_free l) then Free else Reserved else Unmanaged.
Definition fl_alloc (l : free_list) : outcome (Z * free_list) :=
  match fl_free l with
  | [] => Ret (INVALID_FRAME, l)
  | q :: r => Ret (q, mkFree r)
  end.
Definition fl_reserve (l : free_list) (q : Z) : outcome free_list :=
  _ ← c_assert (bool_decide (q ∈ fl_free l)); Ret (mkFree (filter (fun x => x <> q) (fl_free l))).
Definition fl_give (l : free_list) (q : Z) : outcome free_list :=
  _ ← c_assert (in_pool q && bool_decide (q ∉ fl_free l)); Ret (mkFree (q :: fl_free l)).

Lemma in_pool_mod q : in_pool q = true -> q mod 4096 = 0 /\ 0x100000 <= q < 0x200000.
Proof. unfold in_pool. intros. breflect. lia. Qed.

Lemma fl_alloc_spec l f l' : fl_wf l -> fl_alloc l = Ret (f, l') ->
  fl_wf l' /\
  if f =? INVALID_FRAME then l' = l
  else f mod PAGE_SIZE = 0 /\ fl_frame l f = Free /\
       forall q, q mod PAGE_SIZE = 0 -> fl_frame l' q = if q =? f then Reserved else fl_frame l q.
Proof.
  destruct l as [[|x r]]; unfold fl_alloc, fl_wf, fl_frame; cbn [fl_free]; intros [Hnd Hp] [= <- <-]; [done|].
  cbn [fl_free]. apply NoDup_cons in Hnd as [Hx Hnd]. apply Forall_cons in Hp as [Hxp Hp]. split; [done|].
  destruct (in_pool_mod x Hxp) as [Hxm Hxr]. rewrite (proj2 (Z.eqb_neq x INVALID_FRAME)) by (unfold INVALID_FRAME; lia).
  split; [done|]. rewrite Hxp. rewrite bool_decide_true by left. split; [done|]. intros q Hq.
  destruct (q =? x) eqn:E; breflect; [subst; by rewrite Hxp, bool_decide_false|]. destruct (in_pool q); [|done].
  by rewrite (bool_decide_ext (q ∈ x :: r) (q ∈ r)) by (rewrite elem_of_cons; tauto).
Qed.

Lemma fl_reserve_spec l q l' : fl_wf l -> fl_reserve l q = Ret l' ->
  fl_wf l' /\ q mod PAGE_SIZE = 0 /\ fl_frame l q = Free /\
  forall p, p mod PAGE_SIZE = 0 -> fl_frame l' p = if p =? q then Reserved else fl_frame l p.
Proof.
  unfold fl_reserve, fl_wf, fl_frame. intros [Hnd Hp] E. invert_ret. apply bool_decide_eq_true in E0. cbn [fl_free].
  rewrite Forall_forall in Hp. pose proof (Hp q E0) as Hqp. split; [split; [by apply NoDup_filter|]|].
  { apply Forall_forall. intros x [_ Hx]%list_elem_of_filter. by apply Hp. }
  split; [by apply in_pool_mod|]. rewrite Hqp, bool_decide_true by done. split; [done|]. intros p Hpm.
  destruct (p =? q) eqn:E; breflect.
  - subst p. rewrite Hqp, bool_decide_false; [done|]. by intros [? _]%list_elem_of_filter.
  - destruct (in_pool p); [|done]. by rewrite (bool_decide_ext _ (p ∈ fl_free l)) by (rewrite list_elem_of_filter; tauto).
Qed.

Lemma fl_give_spec l q l' : fl_wf l -> fl_give l q = Ret l' ->
  fl_wf l' /\ q mod PAGE_SIZE = 0 /\ fl_frame l q = Reserved /\
  forall p, p mod PAGE_SIZE = 0 -> fl_frame l' p = if p =? q then Free else fl_frame l p.
Proof.
  unfold fl_give, fl_wf, fl_frame. intros [Hnd Hp] E. invert_ret. apply andb_true_iff in E0 as [Hq Hn].
  apply bool_decide_eq_true in Hn. cbn [fl_free]. split; [split; [by apply NoDup_cons|by apply Forall_cons]|].
  split; [by apply in_pool_mod|]. rewrite Hq, bool_decide_false by done. split; [done|]. intros p Hpm.
  destruct (p =? q) eqn:E; breflect.
  - subst p. by rewrite Hq, bool_decide_true by left.
  - destruct (in_pool p); [|done]. by rewrite (bool_decide_ext _ (p ∈ fl_free l)) by (rewrite elem_of_cons; tauto).
Qed.

#[export] Instance free_list_allocator : FrameAllocator free_list.
Proof.
  refine {| fa_wf := fl_wf; fa_frame := fl_frame; fa_alloc := fl_alloc; fa_reserve := fl_reserve; fa_free := fl_give;
            fa_alloc_spec := fl_alloc_spec; fa_reserve_spec := fl_reserve_spec; fa_free_spec := fl_give_spec |}.
  - intros l q _ Hq. unfold fl_frame in Hq. destruct (in_pool q) eqn:E; [|done]. apply in_pool_mod in E. lia.
  - intros l q _ _ Hq. unfold fl_frame in Hq. destruct (in_pool q) eqn:E; [|done].
    destruct (bool_decide (q ∈ fl_free l)) eqn:Eb; [done|]. apply bool_decide_eq_false in Eb.
    unfold fl_give. rewrite E, bool_decide_true by done. by eexists.
Defined.

(** ** A stack of pages *)
#[export] Instance stack_range : HeapRange := {| kh_lo := 0xC0000000; kh_hi := 0xC0010000 |}.

Definition stack_base : Z := 0xC0000000.
Definition stack_page (k : Z) : Z := stack_base + 4096 * (k + 1).
Definition stack_size : Z := 15.

Definition stack_alloc (s : vmm free_list) : outcome (Z * vmm free_list) :=
  c ← vload s stack_base;
  if c <? stack_size then s ← vstore s stack_base (c + 1); Ret (stack_page c, s) else Fault FPanic.
Definition stack_free (s : vmm free_list) (a : Z) : outcome (vmm free_list) :=
  c ← vload s stack_base;
  if a =? stack_page (c - 1) then vstore s stack_base (c - 1) else Ret s.

(** The height [c] of the stack, in the first word of the frame [f]. *)
Record height (s : vmm free_list) (T M : gset Z) (n : nat) (c f fl : Z) : Prop := {
  ht_entry : entry s stack_base = Some (f, fl);
  ht_word : pload (phys s) (f + 4 * 0) = c;
  ht_room : 0 <= c /\ c + Z.of_nat n <= stack_size;
  ht_below a : a ∈ T \/ a ∈ M -> exists k, 0 <= k < c /\ a = stack_page k
}.

Record stack_rep (s : vmm free_list) (T M : gset Z) (n : nat) : Prop := {
  sr_page va : heap_page va -> va ∉ T ->
    exists f fl, entry s va = Some (f, fl) /\ Z.testbit fl 1 = true /\ data_frame s f /\ fa_frame (frames s) f <> Free;
  sr_inj va va' f fl fl' : heap_page va -> heap_page va' -> va ∉ T -> va' ∉ T ->
    entry s va = Some (f, fl) -> entry s va' = Some (f, fl') -> va = va';
  sr_height : exists c f fl, height s T M n c f fl;
  sr_apart a : a ∈ T -> a ∉ M;
  sr_frames : (n <= length (fl_free (frames s)))%nat
}.

Section stack.
Implicit Types s : vmm free_list.

Lemma stack_page_heap k : 0 <= k < stack_size -> heap_page (stack_page k).
Proof. unfold heap_page, stack_page, stack_base, stack_size, KERNEL_START, kh_lo, kh_hi, stack_range. intros. split; [|lia].
  replace (0xC0000000 + 4096 * (k + 1)) with ((0xC0000 + k + 1) * 4096) by lia. apply Z.mod_mul. lia. Qed.

Lemma stack_base_heap : heap_page stack_base.
Proof. unfold heap_page, stack_base, KERNEL_START, kh_lo, kh_hi, stack_range. split; [done|lia]. Qed.

Lemma stack_page_inj k k' : stack_page k = stack_page k' -> k = k'.
Proof. unfold stack_page. lia. Qed.

Lemma stack_base_out s T M n : stack_rep s T M n -> stack_base ∉ T.
Proof.
  intros Hr Hc. destruct (sr_height _ _ _ _ Hr) as (c & f & fl & Hh). destruct (ht_below _ _ _ _ _ _ _ Hh stack_base (or_introl Hc)) as (k & Hk & E).
  unfold stack_page in E. lia.
Qed.

(** Changing the height writes only the first frame of the heap. *)
Lemma stack_store s (T M : gset Z) n v c f fl : vm_ok s -> stack_rep s T M n -> height s T M n c f fl -> 0 <= v < 2 ^ 32 ->
  exists s', vstore s stack_base v = Ret s' /\ evolves ∅ ∅ T [] s s' /\ frames s' = frames s /\
    transient_maps s' = transient_maps s /\ pload (phys s') (f + 4 * 0) = v /\
    (forall g, data_frame s g -> data_frame s' g) /\ (forall va, managed va -> entry s' va = entry s va).
Proof.
  intros Hok Hr Hh Hv. pose proof (stack_base_out _ _ _ _ Hr) as Hb. pose proof stack_base_heap as Hbh.
  destruct (heap_managed _ Hbh) as [Ha Hm]. pose proof (ht_entry _ _ _ _ _ _ _ Hh) as He.
  destruct (sr_page _ _ _ _ Hr _ Hbh Hb) as (f' & fl' & E' & Hw & Hd & Hu). rewrite He in E'. injection E' as <- <-.
  pose proof (vstore_mapped s stack_base f fl 0 v Hok Ha Hm ltac:(lia) He Hw) as Es. rewrite Z.mul_0_r, Z.add_0_r in Es at 1.
  pose proof (data_store_same s f 0 v Hok Hd ltac:(lia)) as Hst. destruct (same_tables_ok s _ Hok Hst) as (Hok' & Hpd & Hent).
  set (s' := with_phys s (pstore (phys s) (f + 4 * 0) v)) in *. exists s'. split; [exact Es|].
  assert (forall va, managed va -> entry s' va = entry s va) as Hent' by (intros va Hva; by apply Hent, managed_dir).
  assert (forall g i, g mod 4096 = 0 -> g <> f -> 0 <= i < 1024 -> pload (phys s') (g + 4 * i) = pload (phys s) (g + 4 * i)) as Hw'.
  { intros g i Hg Hne Hi. cbn [s' phys with_phys]. rewrite pload_pstore, (proj2 (Z.eqb_neq _ _)); [done|]. intros E.
    apply (page_words_apart _ _ _ _ Hg (proj1 Hd)) in E as [E _]; [done|done|lia]. }
  split; [|split; [done|split; [done|split; [|split; [|done]]]]].
  - split; try done.
    + intros d Hdd _. apply Hpd. lia.
    + intros d Hdd Hp Hp'. unfold present in *. rewrite Hpd in Hp' by lia. congruence.
    + intros d t Hdd Hp Ht. apply Hw'; [by apply table_range| |done]. apply Hd; (done || lia).
    + intros va _ Hvm _ _. by apply Hent'.
    + intros va g gl Hvh _ En E. rewrite Hent' in E by (by apply heap_managed). congruence.
    + intros g i (Hgd & _ & Hgh) _ _ Hi. apply Hw'; [apply Hgd| |done]. intros ->. by apply (Hgh stack_base fl).
  - cbn [s' phys with_phys]. rewrite pload_pstore, Z.eqb_refl. by apply u32_small.
  - intros g Hg. by apply same_tables_frame.
Qed.

Lemma stack_load s (T M : gset Z) n c f fl : vm_ok s -> height s T M n c f fl -> vload s stack_base = Ret c.
Proof.
  intros Hok Hh. pose proof (vload_mapped s stack_base f fl 0 Hok ltac:(done) ltac:(lia) (ht_entry _ _ _ _ _ _ _ Hh)) as E.
  rewrite (ht_word _ _ _ _ _ _ _ Hh), Z.mul_0_r, Z.add_0_r in E. exact E.
Qed.

(** The pages of the heap after the height changed, when the pages handed out become [T']. *)
Lemma stack_rep_next s s' (T T' M M' : gset Z) n n' c f fl : stack_rep s T M n -> height s' T' M' n' c f fl ->
  frames s' = frames s -> (forall g, data_frame s g -> data_frame s' g) -> (forall va, managed va -> entry s' va = entry s va) ->
  (forall va, heap_page va -> va ∉ T' -> va ∉ T) -> (forall a, a ∈ T' -> a ∉ M') -> (n' <= length (fl_free (frames s)))%nat -> stack_rep s' T' M' n'.
Proof.
  intros [Hp Hi _ _ _] Hh Hf Hd He HT Hap Hn. split; [| |by eexists _, _, _|done|by rewrite Hf].
  - intros va Hv Hvt. rewrite He, Hf by (by apply heap_managed). destruct (Hp va Hv (HT va Hv Hvt)) as (g & gl & E & Hw & Hdf & Hu).
    exists g, gl. split; [done|]. split; [done|]. split; [by apply Hd|done].
  - intros va va' g gl gl' Hv Hv' Hvt Hvt'. rewrite !He by (by apply heap_managed). apply Hi; auto.
Qed.

Lemma stack_alloc_ok s (T M : gset Z) n : vm_ok s -> stack_rep s T M (S n) ->
  exists a s', stack_alloc s = Ret (a, s') /\ heap_page a /\ a ∉ T /\ a ∉ M /\ evolves ∅ ∅ T [] s s' /\ frames s' = frames s /\
    transient_maps s' = transient_maps s /\ stack_rep s' ({[a]} ∪ T) M n /\ stack_rep s' T ({[a]} ∪ M) n.
Proof.
  intros Hok Hr. destruct (sr_height _ _ _ _ Hr) as (c & f & fl & Hh). destruct (ht_room _ _ _ _ _ _ _ Hh) as [Hc0 Hc].
  unfold stack_size in Hc. pose proof (sr_frames _ _ _ _ Hr) as Hlen.
  destruct (stack_store s T M _ (c + 1) c f fl Hok Hr Hh ltac:(lia)) as (s' & Es & Hev & Hfr & Ht & Hw & Hd & He).
  assert (stack_page c ∉ T /\ stack_page c ∉ M) as [HaT HaM].
  { split; intros Hin; [destruct (ht_below _ _ _ _ _ _ _ Hh _ (or_introl Hin)) as (k & Hk & E)|
      destruct (ht_below _ _ _ _ _ _ _ Hh _ (or_intror Hin)) as (k & Hk & E)]; apply stack_page_inj in E; lia. }
  assert (forall T' M' : gset Z, (forall a, a ∈ T' \/ a ∈ M' -> a = stack_page c \/ a ∈ T \/ a ∈ M) -> height s' T' M' n (c + 1) f fl) as Hh'.
  { intros T' M' Hsub. split.
    - rewrite He by (by apply heap_managed, stack_base_heap). apply Hh.
    - done.
    - unfold stack_size. lia.
    - intros a Ha. destruct (Hsub a Ha) as [->|Ha']; [exists c; lia|]. destruct (ht_below _ _ _ _ _ _ _ Hh a Ha') as (k & Hk & E). exists k. split; [lia|done]. }
  exists (stack_page c), s'. split; [unfold stack_alloc; rewrite (stack_load s T M _ c f fl Hok Hh); cbn [mbind outcome_bind];
    rewrite (proj2 (Z.ltb_lt c stack_size)) by (unfold stack_size; lia); by rewrite Es|].
  split; [apply stack_page_heap; unfold stack_size; lia|]. do 5 (split; [done|]).
  pose proof (sr_apart _ _ _ _ Hr) as Hap.
  split; (eapply (stack_rep_next s s' T); [exact Hr| |done|done|done| | |lia]).
  - apply (Hh' ({[stack_page c]} ∪ T) M). intros a. rewrite elem_of_union, elem_of_singleton. tauto.
  - intros va _. rewrite elem_of_union. tauto.
  - intros a. rewrite elem_of_union, elem_of_singleton. intros [->|?]; [done|by apply Hap].
  - apply (Hh' T ({[stack_page c]} ∪ M)). intros a. rewrite elem_of_union, elem_of_singleton. tauto.
  - done.
  - intros a Ha. rewrite elem_of_union, elem_of_singleton. intros [->|?]; [done|by apply (Hap a)].
Qed.

Lemma stack_free_ok s (T M : gset Z) n a : vm_ok s -> stack_rep s T M n -> a ∈ M ->
  exists s', stack_free s a = Ret s' /\ evolves ∅ ∅ T [] s s' /\ frames s' = frames s /\
    transient_maps s' = transient_maps s /\ stack_rep s' T (M ∖ {[a]}) n.
Proof.
  intros Hok Hr Ha. destruct (sr_height _ _ _ _ Hr) as (c & f & fl & Hh). destruct (ht_room _ _ _ _ _ _ _ Hh) as [Hc0 Hc].
  unfold stack_size in Hc. pose proof (sr_frames _ _ _ _ Hr) as Hlen. pose proof (sr_apart _ _ _ _ Hr) as Hap.
  unfold stack_free. rewrite (stack_load s T M _ c f fl Hok Hh). cbn [mbind outcome_bind].
  assert (forall x, x ∈ T -> x ∉ M ∖ {[a]}) as Hap' by (intros x Hx [? _]%elem_of_difference; by apply (Hap x)).
  destruct (a =? stack_page (c - 1)) eqn:E; breflect.
  - destruct (ht_below _ _ _ _ _ _ _ Hh a (or_intror Ha)) as (k & Hk & _).
    destruct (stack_store s T M _ (c - 1) c f fl Hok Hr Hh ltac:(lia)) as (s' & Es & Hev & Hfr & Ht & Hw & Hd & He).
    exists s'. rewrite Es. do 4 (split; [done|]). eapply (stack_rep_next s s' T); try done. split.
    + rewrite He by (by apply heap_managed, stack_base_heap). apply Hh.
    + exact Hw.
    + unfold stack_size. lia.
    + intros x Hx. assert (x ∈ T \/ x ∈ M) as Hx' by (rewrite elem_of_difference in Hx; tauto).
      destruct (ht_below _ _ _ _ _ _ _ Hh x Hx') as (j & Hj & Ej). exists j. split; [|done].
      assert (j <> c - 1); [|lia]. intros ->. assert (x = a) as -> by congruence.
      rewrite elem_of_difference, elem_of_singleton in Hx. destruct Hx as [Hx|[_ Hx]]; [by apply (Hap a)|done].
  - exists s. split; [done|]. split; [by apply evolves_refl|]. do 2 (split; [done|]). eapply (stack_rep_next s s T); try done.
    destruct Hh as [H1 H2 H3 H4]. split; [exact H1|exact H2|exact H3|]. intros x Hx. apply H4. rewrite elem_of_difference in Hx. tauto.
Qed.

(** A page given back is a block given back, once its frame is its own again. *)
Lemma stack_return s (T M : gset Z) n a f fl : stack_rep s T M n -> a ∈ T -> heap_page a -> entry s a = Some (f, fl) ->
  Z.testbit fl 1 = true -> foreign s T f -> stack_rep s (T ∖ {[a]}) ({[a]} ∪ M) n.
Proof.
  intros [Hp Hi (c & g & gl & [H1 H2 H3 H4]) Hap Hn] Ha Hh He Hw (Hd & Hu & Hf).
  assert (forall va, va ∉ T ∖ {[a]} -> va = a \/ va ∉ T) as Hout.
  { intros va Hv. rewrite elem_of_difference, elem_of_singleton in Hv. destruct (decide (va = a)); [by left|right; tauto]. }
  split; [| | | |done].
  - intros va Hv [->|Hvt]%Hout; [by exists f, fl|by apply Hp].
  - intros va va' x xl xl' Hv Hv' [->|Hvt]%Hout [->|Hvt']%Hout E E'; [done| | |by eapply Hi].
    + rewrite He in E. injection E as <- <-. by destruct (Hf va' xl').
    + rewrite He in E'. injection E' as <- <-. by destruct (Hf va xl).
  - exists c, g, gl. split; [done|done|done|]. intros x Hx. apply H4. rewrite elem_of_difference, elem_of_union, elem_of_singleton in Hx.
    destruct Hx as [[? _]|[->|?]]; tauto.
  - intros x [Hx Hne]%elem_of_difference. rewrite elem_of_singleton in Hne. rewrite elem_of_union, elem_of_singleton.
    intros [?|?]; [done|]. by apply (Hap x).
Qed.
End stack.

#[export] Instance stack_heap : KernelHeap free_list.
Proof.
  refine {| kh_malloc_a := fun s _ _ => stack_alloc s; kh_malloc := fun s _ => stack_alloc s; kh_free := stack_free;
            kh_rep := stack_rep |}.
  - intros s T M n Hok Hr. destruct (stack_alloc_ok s T M n Hok Hr) as (a & s' & E & Hh & HaT & HaM & Hev & Hfr & Ht & Hr1 & Hr2).
    destruct (sr_page _ _ _ _ Hr2 a Hh HaT) as (f & fl & He & Hw & Hd & Hu).
    exists a, s', f, fl. split; [done|]. split; [done|]. split; [done|]. split; [done|].
    split; [intros q _ Hq; left; by rewrite Hfr|]. split; [done|]. split; [done|]. split; [done|]. split; [done|].
    split; [done|]. split; [done|]. intros va gl Hv Hn E'. apply not_elem_of_union in Hn as [Hne Hvt]. apply Hne, elem_of_singleton.
    by apply (sr_inj _ _ _ _ Hr2 va a f gl fl).
  - intros s T M n size Hok _ Hr. destruct (stack_alloc_ok s T M n Hok Hr) as (a & s' & E & Hh & HaT & HaM & Hev & Hfr & Ht & Hr1 & Hr2).
    exists a, s'. split; [done|]. split; [done|]. split; [done|]. split; [intros q _ Hq; left; by rewrite Hfr|]. done.
  - intros s T M n a f fl Hok Hr Ha He Hw Hf. assert (heap_page a) as Hh.
    { destruct (sr_height _ _ _ _ Hr) as (c & g & gl & Hht). destruct (ht_below _ _ _ _ _ _ _ Hht a (or_introl Ha)) as (k & Hk & ->).
      apply stack_page_heap. destruct (ht_room _ _ _ _ _ _ _ Hht). lia. }
    pose proof (sr_apart _ _ _ _ Hr a Ha) as HaM.
    destruct (stack_free_ok s _ _ n a Hok (stack_return s T M n a f fl Hr Ha Hh He Hw Hf)) as (s' & E & Hev & Hfr & Ht & Hr').
    { apply elem_of_union. left. by apply elem_of_singleton. }
    exists s'. do 4 (split; [done|]). assert (({[a]} ∪ M) ∖ {[a]} = M) as HM by (clear - HaM; set_solver). by rewrite HM in Hr'.
  - intros s T M n m Hok Hr Hm. destruct (stack_free_ok s T M n m Hok Hr Hm) as (s' & E & Hev & Hfr & Ht & Hr'). by exists s'.
  - intros s s' T M n Hr Hok Hok' Hc Hf Hpd He Hw.
    assert (forall g, data_frame s g -> data_frame s' g) as Hd.
    { intros g (Hgm & Hgc & Hgt). split; [done|]. split; [congruence|]. intros d Hdr Hp. unfold present, table_of in *. rewrite Hpd in * by lia. by apply Hgt. }
    pose proof (stack_base_out _ _ _ _ Hr) as Hb. destruct (sr_height _ _ _ _ Hr) as (c & g & gl & [H1 H2 H3 H4]).
    destruct Hr as [Hp Hi _ Hap Hn]. split; [| | |done|by rewrite Hf].
    + intros va Hv Hvt. rewrite He, Hf by done. destruct (Hp va Hv Hvt) as (x & xl & E & ? & ? & ?). exists x, xl. auto.
    + intros va va' x xl xl' Hv Hv' Hvt Hvt'. rewrite !He by done. by apply Hi.
    + exists c, g, gl. split; [by rewrite He by (done || apply stack_base_heap)| |done|done].
      rewrite (Hw stack_base g gl 0); [done|apply stack_base_heap|done|done|lia].
  - intros s T M n va f fl Hok Hr Hv Hvt E. destruct (sr_page _ _ _ _ Hr va Hv Hvt) as (x & xl & E' & _ & Hd & Hu).
    rewrite E in E'. by injection E' as <- <-.
  - intros s T M n Hok Hr. destruct (vo_wf s Hok) as [Hnd Hpool]. pose proof (sr_frames _ _ _ _ Hr) as Hlen.
    unfold fa_alloc, free_list_allocator, fl_alloc. destruct (fl_free (frames s)) as [|q r] eqn:El; [cbn in Hlen; lia|].
    apply Forall_cons in Hpool as [Hq _]. apply in_pool_mod in Hq. exists q, (mkFree r). split; [done|].
    split; [unfold INVALID_FRAME; lia|]. destruct Hr as [Hp Hi (c & g & gl & [H1 H2 H3 H4]) Hap Hn].
    split; [|exact Hi| |done|cbn in Hlen |- *; lia].
    + intros va Hv Hvt. destruct (Hp va Hv Hvt) as (x & xl & E & Hw & Hd & Hu). exists x, xl. do 3 (split; [done|]).
      cbn [frames with_frames]. unfold fa_frame, free_list_allocator, fl_frame in *. rewrite El in Hu. cbn [fl_free] in *.
      destruct (in_pool x); [|done]. destruct (bool_decide (x ∈ r)) eqn:Eb; [|done]. exfalso. apply Hu.
      apply bool_decide_eq_true in Eb. rewrite bool_decide_true; [done|by right].
    + exists c, g, gl. split; [done|done|lia|done].
  - intros s T M n f fs Hok Hr Hf E. destruct (fl_give_spec _ _ _ (vo_wf s Hok) E) as (_ & _ & _ & Hq).
    assert (length (fl_free (frames s)) <= length (fl_free fs))%nat as Hlen.
    { cbn [fa_free free_list_allocator] in E. unfold fl_give in E. invert_ret. cbn. lia. }
    destruct Hr as [Hp Hi (c & g & gl & [H1 H2 H3 H4]) Hap Hn].
    split; [|exact Hi|by exists c, g, gl|done|cbn [frames with_frames]; lia].
    intros va Hv Hvt. destruct (Hp va Hv Hvt) as (x & xl & Ex & Hw & Hd & Hu). exists x, xl. do 3 (split; [done|]).
    cbn [frames with_frames]. change (fl_frame fs x <> Free). rewrite Hq by apply Hd. rewrite (proj2 (Z.eqb_neq _ _)); [done|].
    intros ->. by destruct Hf as (_ & _ & Hf); apply (Hf va xl).
Defined.
