(* ===== verification/VmmMachine.v ===== *)
(** A machine with a running address space and a second page directory in its heap: the
    theorems on cloning and destroying address spaces apply to it. *)
From S2P Require Import Prelude Util Bitset Pmm Vmm VmmSpec VmmClaims VmmSpaces VmmHeap VmmWindow VmmClone VmmPool VmmCloneSpec VmmDestroy.

(** The running directory is at 0x3000: one page of a task at 4 MiB, and the heap. The pages
    of the heap have the frames from 0x10000 on; the first page holds the height of the stack,
    the second page a directory that maps one page too. *)
Definition machine_words : list (Z * Z) :=
  [ (0x3000 + 4 * 1, 0x100007); (0x3000 + 4 * 768, 0x4003); (0x3000 + 4 * 1023, 0x3003);
    (0x100000 + 4 * 0, 0x101007); (0x101000 + 4 * 0, 42);
    (0x10000 + 4 * 0, 1);
    (0x11000 + 4 * 1, 0x102007); (0x11000 + 4 * 1023, 0x11003);
    (0x102000 + 4 * 0, 0x103007) ] ++
  ((fun k => (0x4000 + 4 * k, 0x10003 + 4096 * k)) <$> seqZ 0 16).
Definition machine_frames : free_list := mkFree ((fun k => 0x104000 + 4096 * k) <$> seqZ 0 20).
Definition machine : vmm free_list := mkVmm (list_to_map machine_words) 0x3000 0 machine_frames true 0 [].
Definition machine_pages : gset Z := {[ stack_page 0 ]}.

Lemma machine_word a v : pload (phys machine) a = v -> v <> 0 -> (a, v) ∈ machine_words.
Proof.
  unfold pload. cbn [phys machine]. intros E Hv. destruct (list_to_map machine_words !! a) as [w|] eqn:El; cbn in E; [|congruence].
  apply elem_of_list_to_map_2 in El. by subst.
Qed.

Lemma machine_dir d : 0 <= d < 1023 -> present machine d = true ->
  (d = 1 /\ table_of machine d = 0x100000) \/ (d = 768 /\ table_of machine d = 0x4000).
Proof.
  intros Hd Hp. assert (pd machine d <> 0) as Hnz by (intros E; unfold present in Hp; by rewrite E in Hp).
  unfold table_of. set (v := pd machine d) in *. pose proof (machine_word _ v eq_refl Hnz) as Hin. clearbody v. cbn [cr3 machine] in Hin.
  unfold machine_words in Hin. apply elem_of_app in Hin as [Hin|Hin].
  - repeat (apply elem_of_cons in Hin as [Hin|Hin]; [injection Hin as E ->; try lia|]); [left|right|by apply not_elem_of_nil in Hin].
    + split; [lia|done].
    + split; [lia|done].
  - apply list_elem_of_fmap in Hin as (k & [= E _] & Hk%elem_of_seqZ). lia.
Qed.

Lemma machine_heap k : 0 <= k < 16 -> entry machine (0xC0000000 + 4096 * k) = Some (0x10000 + 4096 * k, 3).
Proof.
  intros Hk. assert (k = 0 \/ k = 1 \/ k = 2 \/ k = 3 \/ k = 4 \/ k = 5 \/ k = 6 \/ k = 7 \/ k = 8 \/ k = 9 \/ k = 10 \/ k = 11 \/
    k = 12 \/ k = 13 \/ k = 14 \/ k = 15) as Hc by lia.
  repeat (destruct Hc as [->|Hc]; [vm_compute; reflexivity|]). subst k. vm_compute. reflexivity.
Qed.

Lemma machine_heap_page va : heap_page va -> exists k, 0 <= k < 16 /\ va = 0xC0000000 + 4096 * k.
Proof.
  unfold heap_page, kh_lo, kh_hi, stack_range. intros (Hm & Hv & _). exists ((va - 0xC0000000) / 4096).
  assert ((va - 0xC0000000) mod 4096 = 0) by (rewrite Zminus_mod, Hm; done).
  pose proof (Z.div_mod (va - 0xC0000000) 4096). lia.
Qed.

Lemma machine_ok : vm_ok machine.
Proof.
  split.
  - done.
  - done.
  - intros a v Hv%elem_of_list_to_map_2. assert (Forall (fun w => 0 <= w.2 < 2 ^ 32) machine_words) as Hall.
    { apply (bool_decide_eq_true_1 _). vm_compute. reflexivity. }
    rewrite Forall_forall in Hall. apply (Hall _ Hv).
  - vm_compute. done.
  - split; apply (bool_decide_eq_true_1 _); vm_compute; reflexivity.
  - vm_compute. discriminate.
  - intros d Hd Hp. by destruct (machine_dir d Hd Hp) as [[-> _]|[-> _]].
  - intros d Hd Hp. destruct (machine_dir d Hd Hp) as [[-> ->]|[-> ->]]; by vm_compute.
  - intros d d' Hd Hd' Hp Hp'.
    destruct (machine_dir d Hd Hp) as [[-> ->]|[-> ->]], (machine_dir d' Hd' Hp') as [[-> ->]|[-> ->]]; done.
Qed.

Lemma machine_foreign f : data_frame machine f -> fa_frame machine_frames f <> Free -> ~ (0x10000 <= f < 0x20000 /\ f <> 0x11000) ->
  foreign machine machine_pages f.
Proof.
  intros Hd Hu Hr. split; [done|]. split; [done|]. intros va fl Hv Hn E.
  destruct (machine_heap_page va Hv) as (k & Hk & ->). rewrite machine_heap in E by done. injection E as E _.
  apply Hn, elem_of_singleton. unfold stack_page, stack_base. lia.
Qed.

Lemma machine_data f : f mod 4096 = 0 -> f <> 0x3000 -> f <> 0x4000 -> f <> 0x100000 -> data_frame machine f.
Proof.
  intros Hm H1 H2 H3. split; [done|]. split; [done|]. intros d Hd Hp. destruct (machine_dir d Hd Hp) as [[_ ->]|[_ ->]]; congruence.
Qed.

Lemma machine_height : height machine machine_pages ∅ 14 1 0x10000 3.
Proof.
  split; [by vm_compute|by vm_compute|by vm_compute|]. intros a [Ha%elem_of_singleton|Ha%elem_of_empty]; [|done]. by exists 0.
Qed.

Lemma machine_inv : inv machine machine_pages ∅ 14.
Proof.
  split; [apply machine_ok| |constructor]. split.
  - intros va Hv Hn. destruct (machine_heap_page va Hv) as (k & Hk & ->). exists (0x10000 + 4096 * k), 3.
    split; [by apply machine_heap|]. split; [done|]. split.
    + apply machine_data; [|lia|lia|lia]. replace (0x10000 + 4096 * k) with ((16 + k) * 4096) by lia. apply Z.mod_mul. lia.
    + unfold fa_frame, free_list_allocator, fl_frame. cbn [frames machine]. unfold in_pool.
      rewrite (proj2 (Z.leb_gt 0x100000 _)) by lia. done.
  - intros va va' f fl fl' Hv Hv' _ _ E E'. destruct (machine_heap_page va Hv) as (k & Hk & ->).
    destruct (machine_heap_page va' Hv') as (k' & Hk' & ->). rewrite machine_heap in E, E' by done. injection E as E _. injection E' as E' _. lia.
  - exists 1, 0x10000, 3. apply machine_height.
  - intros a _. apply not_elem_of_empty.
  - apply (bool_decide_eq_true_1 _). vm_compute. reflexivity.
Qed.

Lemma machine_user_pages : user_pages_ok machine machine_pages.
Proof.
  intros va f fl Ha Hv E. destruct (user_va_index va Ha Hv) as [Hd Hj]. rewrite entry_eq in E by apply machine_ok. cbv zeta in E.
  destruct (present machine _) eqn:Ep; [|done]. destruct (machine_dir (PAGE_DIRECTORY_INDEX va) ltac:(lia) Ep) as [[E1 Et]|[E1 _]]; [|lia].
  rewrite Et in E. set (v := pload _ _) in E. destruct (Z.testbit v 0) eqn:Eb; [|done].
  pose proof (machine_word _ v eq_refl ltac:(intros Ev; by rewrite Ev in Eb)) as Hin. clearbody v.
  unfold machine_words in Hin. apply elem_of_app in Hin as [Hin|Hin].
  - assert (v = 0x101007) as ->.
    { repeat (apply elem_of_cons in Hin as [Hin|Hin]; [injection Hin as Ex ->; try lia; try done|]). by apply not_elem_of_nil in Hin. }
    vm_compute in E. injection E as <- _. apply machine_foreign; [by apply machine_data|vm_compute; discriminate|lia].
  - apply list_elem_of_fmap in Hin as (k & [= Ex _] & Hk%elem_of_seqZ). lia.
Qed.
