(* ===== verification/VmmForkClaims.v ===== *)
(** [vmm_clone_pagedir] and [vmm_destroy_pagedir] of [kernel/vmm.c]: what [fork] and the end of
    a task do to memory. *)
From S2P Require Import Prelude Util Bitset Pmm Vmm VmmSpec VmmClaims VmmSpaces VmmHeap VmmWindow VmmClone VmmCloneSpec VmmDestroy VmmPool VmmMachine.

(** C9: [vmm_clone_pagedir], which [fork] runs: when the allocators can serve the requests it
    makes (one for the directory, three for each page table and five for each page), the call
    returns a new page directory, and the running address space is as before. The new address
    space is one that can be switched to: every page of the task is mapped in it with the same
    flags to a frame that was free, with the same contents, pages that were not mapped are not,
    the kernel half is the running one's, and no frame of the new user half is used twice. *)
Theorem vmm_clone_spec {F : Type} `{FrameAllocator F} `{HeapRange} `{!KernelHeap F} (s : vmm F) (T M : gset Z) (n : nat) :
  inv s T M (S (user_cost 768 0 s + n)) -> user_pages_ok s T ->
  exists result s' pa fl, vmm_clone_pagedir kh_malloc_a kh_malloc kh_free s = Ret (result, s') /\
    inv s' ({[result]} ∪ T) M n /\ result ∉ T /\ transient_maps s' = transient_maps s /\ cr3 s' = cr3 s /\
    entry s' result = Some (pa, fl) /\ Z.testbit fl 1 = true /\ foreign s' ({[result]} ∪ T) pa /\ space_ok s' pa /\
    (forall va, va mod 4096 = 0 -> 0 <= va < KERNEL_START ->
       entry s' va = entry s va /\
       match entry s va with
       | None => entry (in_space s' pa) va = None
       | Some (f, fl) => exists nf, entry (in_space s' pa) va = Some (nf, fl) /\
           fa_frame (frames s) nf = Free /\ fa_frame (frames s') nf = Reserved /\
           forall i, 0 <= i < 1024 -> word s' f i = word s f i /\ word s' nf i = word s f i
       end) /\
    (forall va, KERNEL_START <= va < 0xFFC00000 -> entry (in_space s' pa) va = entry s' va) /\
    pa ∉ user_frames 768 0 (in_space s' pa) /\ NoDup (user_frames 768 0 (in_space s' pa)) /\
    Forall (fresh s s' ({[result]} ∪ T)) (user_frames 768 0 (in_space s' pa)).
Proof.
  intros Hinv Hu. pose proof (in_ok _ _ _ _ Hinv) as Hok.
  destruct (new_directory s T M _ Hinv Hu) as (res & s0 & s1 & pf & fl & E0 & E1 & Hpa & HaT & He1 & Hw1 & Hpf1 & Hev1 & Hinv1 & Ht1 & Hus1 & Hne & Hz1).
  destruct (heap_managed res Hpa) as [Ha Hm]. set (T1 := {[res]} ∪ T) in *.
  rewrite <- (user_cost_step _ _ _ _ _ 768 Hev1 0) in Hinv1 by lia.
  destruct (clone_words T1 M n s1 res pf fl Hinv1 Ha Hm He1 Hw1 Hpf1 Hus1 Hz1)
    as (s2 & s3 & s4 & E2 & E3 & E4 & E5 & Hev4 & Hinv4 & Ht4 & Hc).
  pose proof (in_ok _ _ _ _ Hinv1) as Hok1. pose proof (in_ok _ _ _ _ Hinv4) as Hok4.
  assert (evolves ∅ ({[pf]}) T [] s s4) as Hev.
  { apply (evolves_weaken (∅ ∪ ∅) (∅ ∪ {[pf]}) T); [pages|pages|done|].
    apply (evolves_then _ _ _ _ _ T1 [] [] s s1 s4 Hok Hev1 Hev4); unfold T1; pages. }
  exists res, s4, pf, fl. split; [|split; [done|split; [done|split; [congruence|split; [apply (ev_cr3 _ _ _ _ _ _ Hev)|]]]]].
  { unfold vmm_clone_pagedir. change PAGE_SIZE with 4096. rewrite E0. cbn [mbind outcome_bind]. rewrite E1. cbn [mbind outcome_bind].
    rewrite E2. cbn [mbind outcome_bind]. rewrite E3. cbn [mbind outcome_bind]. rewrite E4. cbn [mbind outcome_bind]. by rewrite E5. }
  split; [rewrite (ev_entry _ _ _ _ _ _ Hev4); [done|done|done|apply not_elem_of_empty|right; congruence]|].
  split; [done|]. split; [apply Hc|]. split; [by apply (clone_space_ok s1 s4 T1)|].
  split; [|split; [intros va Hva; apply (clone_kernel_entry s1 s4 T1); [done|done|unfold managed, KERNEL_START in *; lia|lia]|]].
  - intros va Hva Hvr. assert (managed va /\ ~ heap_page va) as [Hvm Hvh] by (unfold managed, heap_page, KERNEL_START in *; lia).
    split; [apply (ev_entry _ _ _ _ _ _ Hev); [done|done|apply not_elem_of_empty|by left]|].
    assert (entry s1 va = entry s va) as Ee by (apply (ev_entry _ _ _ _ _ _ Hev1); [done|done|apply not_elem_of_empty|by left]).
    pose proof (clone_user_entry s1 s4 T1 pf va Hok1 Hc Hva Hvr) as Hce. rewrite Ee in Hce.
    destruct (entry s va) as [[f gl]|] eqn:Es; [|done]. destruct Hce as (nf & En & Hcp).
    pose proof (Hu va f gl Hva Hvr Es) as Hf.
    destruct (copy_of_base _ _ _ _ _ _ _ _ _ Hev1 Hf (not_elem_of_empty _) Hcp) as [(Hfree & Hres & _) Hwd].
    exists nf. split; [done|]. split; [done|]. split; [done|]. intros i Hi. split; [|by apply Hwd].
    apply (ev_data _ _ _ _ _ _ Hev); [done| |apply not_elem_of_nil|done]. rewrite elem_of_singleton. by apply Hne.
  - split; [|split; [apply Hc|]].
    { intros Hin. pose proof (ck_fresh _ _ _ _ Hc) as Hfr. rewrite Forall_forall in Hfr. destruct (Hfr pf Hin) as [Hfree _].
      by destruct Hpf1 as (_ & ? & _). }
    eapply Forall_impl; [apply (ck_fresh _ _ _ _ Hc)|]. intros q Hq. by apply (fresh_base _ _ _ _ _ _ _ _ Hev1).
Qed.

(** C10: [vmm_destroy_pagedir], which the end of a task runs on a directory that is not in use:
    when the kernel heap has room for two requests for each page table of its user half (a
    window to look at it and the record of that window; the kernel aborts when one of them
    cannot be served) and no frame of the user half is in use twice, the call returns, every frame of the user
    half and of its page tables is free again (or the kernel heap has taken it since), the
    page of the directory is back in the heap, and nothing else changes: the running address
    space maps what it mapped, and all other frames in use stay in use and keep their contents. *)
Theorem vmm_destroy_spec {F : Type} `{FrameAllocator F} `{HeapRange} `{!KernelHeap F} (s : vmm F) (T M : gset Z) (n : nat)
    (pagedir pa fl : Z) :
  let L := user_frames 768 0 (in_space s pa) in
  inv s T M (2 * dir_count 768 0 (in_space s pa) + n) ->
  heap_page pagedir -> pagedir ∈ T -> Forall (fun t => tm_address t <> pagedir) (transient_maps s) ->
  entry s pagedir = Some (pa, fl) -> Z.testbit fl 1 = true -> foreign s T pa -> pa ∉ L -> NoDup L -> Forall (owned s T) L ->
  exists s', vmm_destroy_pagedir kh_malloc_a kh_malloc kh_free s pagedir = Ret s' /\
    inv s' (T ∖ {[pagedir]}) M n /\ transient_maps s' = transient_maps s /\ cr3 s' = cr3 s /\
    (forall q, q ∈ L -> fa_frame (frames s') q = Free \/ in_heap s' q) /\
    (forall va, va mod 4096 = 0 -> managed va -> ~ heap_page va \/ entry s va <> None -> entry s' va = entry s va) /\
    (forall f, foreign s T f -> f ∉ L -> f <> pa ->
       fa_frame (frames s') f = fa_frame (frames s) f /\ forall i, 0 <= i < 1024 -> word s' f i = word s f i).
Proof.
  intros L Hinv Hh HpT Hlt He Hw Hpf Hnin Hnd Hown. destruct (heap_managed pagedir Hh) as [Ha Hm].
  pose proof (in_ok _ _ _ _ Hinv) as Hok.
  destruct (destroy_loop_ok T M pagedir pa fl n 768 0 s Hinv Ha Hm He Hpf ltac:(lia) ltac:(lia) Hnin Hnd Hown)
    as (s1 & E1 & Hev1 & Hinv1 & Ht1 & Hg1). fold L in Hev1, Hg1.
  assert (entry s1 pagedir = Some (pa, fl)) as He1.
  { rewrite (ev_entry _ _ _ _ _ _ Hev1); [done|done|done|apply not_elem_of_empty|right; congruence]. }
  assert (foreign s1 T pa) as Hpf1 by (apply (evolves_foreign _ _ _ _ _ _ _ _ Hev1); [done|pages|done|done]).
  destruct (kh_free_page s1 T M n pagedir pa fl (in_ok _ _ _ _ Hinv1) (in_rep _ _ _ _ Hinv1) HpT He1 Hw Hpf1)
    as (s2 & E2 & Hev2 & Hfr2 & Ht2 & Hrep2).
  assert (forall va, entry s1 va <> None -> va mod 4096 = 0 -> managed va -> entry s2 va = entry s1 va) as Hent2.
  { intros va Hn Hva Hvm. apply (ev_entry _ _ _ _ _ _ Hev2); [done|done|apply not_elem_of_empty|by right]. }
  exists s2. split; [unfold vmm_destroy_pagedir; change user_pdes with 768%nat; change USER_PDE_START with 0; by rewrite E1|].
  split; [split; [apply Hev2|done|]|split; [congruence|split; [rewrite (ev_cr3 _ _ _ _ _ _ Hev2); apply (ev_cr3 _ _ _ _ _ _ Hev1)|split; [|split]]]].
  - rewrite Ht2, Ht1. pose proof (in_list _ _ _ _ Hinv) as Hl. rewrite Forall_forall in Hl, Hlt |- *. intros t Hti.
    apply elem_of_difference. split; [by apply Hl|]. rewrite elem_of_singleton. by apply Hlt.
  - intros q Hq. rewrite Hfr2. rewrite Forall_forall in Hown. destruct (Hown q Hq) as [[[Hqm _] _] _].
    destruct (Hg1 q Hqm (or_intror Hq)) as [?|Hi]; [by left|right].
    apply (in_heap_kept _ _ _ _ _ _ _ Hev2); [by intros x gl ?%elem_of_empty|done].
  - intros va Hva Hvm Hc. assert (entry s1 va = entry s va) as Ee by (apply (ev_entry _ _ _ _ _ _ Hev1); [done|done|apply not_elem_of_empty|done]).
    rewrite <- Ee. apply (ev_entry _ _ _ _ _ _ Hev2); [done|done|apply not_elem_of_empty|]. by rewrite Ee.
  - intros f Hf HfL Hfp. assert (foreign s1 T f) as Hf1 by (apply (evolves_foreign _ _ _ _ _ _ _ _ Hev1); [done|pages|done|done]).
    assert (foreign s1 (T ∖ {[pagedir]}) f) as Hf2.
    { apply (foreign_shrink s1 _ pagedir); [|congruence]. apply (foreign_mono s1 T); [done|].
      apply elem_of_subseteq. intros x Hx. rewrite elem_of_union, elem_of_difference, elem_of_singleton.
      destruct (decide (x = pagedir)); tauto. }
    rewrite Hfr2. split; [apply (ev_frames _ _ _ _ _ _ Hev1); [apply Hf|apply Hf|done]|]. intros i Hi. unfold word.
    rewrite (ev_data _ _ _ _ _ _ Hev2 f i), (ev_data _ _ _ _ _ _ Hev1 f i); try done; try apply not_elem_of_empty; apply not_elem_of_nil.
Qed.

Lemma vmm_clone_spec_witness : exists result s' pa nf,
  vmm_clone_pagedir kh_malloc_a kh_malloc kh_free machine = Ret (result, s') /\ space_ok s' pa /\
  entry (in_space s' pa) 0x400000 = Some (nf, 7) /\ word s' nf 0 = 42.
Proof.
  assert (14%nat = S (user_cost 768 0 machine + 5)) as Ec by (vm_compute; reflexivity).
  destruct (vmm_clone_spec machine machine_pages ∅ 5) as (result & s' & pa & fl & E & _ & _ & _ & _ & _ & _ & _ & Hs & Hu & _).
  - rewrite <- Ec. apply machine_inv.
  - apply machine_user_pages.
  - destruct (Hu 0x400000 eq_refl ltac:(unfold KERNEL_START; lia)) as [_ Hp].
    assert (entry machine 0x400000 = Some (0x101000, 7)) as Ee by (vm_compute; reflexivity). rewrite Ee in Hp.
    destruct Hp as (nf & En & _ & _ & Hw). exists result, s', pa, nf. split; [exact E|]. split; [exact Hs|]. split; [exact En|].
    destruct (Hw 0 ltac:(lia)) as [_ ->]. vm_compute. reflexivity.
Defined.

Lemma vmm_destroy_spec_witness : exists s', vmm_destroy_pagedir kh_malloc_a kh_malloc kh_free machine (stack_page 0) = Ret s' /\
  entry s' 0x400000 = Some (0x101000, 7) /\ (fa_frame (frames s') 0x103000 = Free \/ in_heap s' 0x103000).
Proof.
  assert (user_frames 768 0 (in_space machine 0x11000) = [0x103000; 0x102000]) as El by (vm_compute; reflexivity).
  assert (14%nat = (2 * dir_count 768 0 (in_space machine 0x11000) + 12)%nat) as Ec by (vm_compute; reflexivity).
  assert (forall f, f ∈ [0x103000; 0x102000] \/ f = 0x11000 -> foreign machine machine_pages f) as Hf.
  { intros f Hf. rewrite !elem_of_cons, elem_of_nil in Hf. assert (f = 0x103000 \/ f = 0x102000 \/ f = 0x11000) as Hc by tauto.
    destruct Hc as [->|[->| ->]]; (apply machine_foreign; [by apply machine_data|vm_compute; discriminate|lia]). }
  destruct (vmm_destroy_spec machine machine_pages ∅ 12 (stack_page 0) 0x11000 3) as (s' & E & _ & _ & _ & Hl & Hent & _).
  - rewrite <- Ec. apply machine_inv.
  - apply stack_page_heap. unfold stack_size. lia.
  - by apply elem_of_singleton.
  - constructor.
  - vm_compute. reflexivity.
  - reflexivity.
  - apply Hf. by right.
  - rewrite El. apply (bool_decide_eq_true_1 _). vm_compute. reflexivity.
  - rewrite El. apply (bool_decide_eq_true_1 _). vm_compute. reflexivity.
  - rewrite El. apply Forall_forall. intros f Hin. split; [apply Hf; by left|]. rewrite !elem_of_cons, elem_of_nil in Hin.
    assert (f = 0x103000 \/ f = 0x102000) as [->| ->] by tauto; vm_compute; reflexivity.
  - exists s'. split; [exact E|]. split.
    + rewrite Hent; [vm_compute; reflexivity|reflexivity|unfold managed; lia|].
      left. unfold heap_page, KERNEL_START. lia.
    + apply Hl. rewrite El. by left.
Defined.
