(* ===== verification/Initrd.v ===== *)
(** [kernel/initrd.c]: the initial ram disk, a tar archive that the boot loader left in memory.
    Every file is copied into structures allocated from the kernel heap. The structures live
    in memory; the list of them is the sequence its links represent ([DList]). *)
From S2P Require Import Prelude Util Mem Str StrSpec.

(** What the ram disk needs of the kernel's allocator: [kmalloc] on a memory, the addresses
    given out and not returned ([ka_live]), and the area the allocator may write to
    ([ka_arena]). *)
Class KernelAlloc (E : Type) : Type := {
  ka_malloc : E -> mem -> Z -> outcome (Z * E * mem);
  ka_live : E -> Z -> Prop;
  ka_arena : Z -> Prop;
  ka_malloc_spec : forall e m n p e' m', 0 <= n -> ka_malloc e m n = Ret (p, e', m') ->
    0 < p /\ p + n < 2 ^ 32 /\
    (forall a, p <= a < p + n -> ka_arena a /\ ~ ka_live e a) /\
    (forall a, ka_live e' a <-> ka_live e a \/ p <= a < p + n) /\
    (forall a, ka_live e a \/ ~ ka_arena a -> load8 m' a = load8 m a) /\
    (byte_mem m -> byte_mem m')
}.

(** Offsets of [struct tar_header]. *)
Definition tar_filename : Z := 0.
Definition tar_size : Z := 100 + 8 + 8 + 8.

(** [struct initrd_file]: a name of 100 bytes, a data pointer, a size and the list node. *)
Definition sizeof_initrd_file : Z := 116.
Definition file_name (f : Z) : Z := f.
Definition file_data (m : mem) (f : Z) : Z := load32 m (f + 100).
Definition file_size (m : mem) (f : Z) : Z := load32 m (f + 104).

(** [struct multiboot_info], as far as it is read here. *)
Record multiboot_info : Type := mkMi { mi_flags : Z; mi_mods_count : Z; mi_mods_addr : Z }.
Definition MULTIBOOT_FLAG_MODINFO : Z := Z.shiftl 1 3.

(** The static variables. *)
Record initrd : Type := mkInitrd { files : list Z; initrd_size : Z; initrd_data : Z }.
Definition initrd_start : initrd := mkInitrd [] 0 0.

(** [for(j = 11; j > 0; j--, count *= 8) size += (in[j - 1] - '0') * count] *)
Fixpoint getsize_loop (j : nat) (m : mem) (inp count size : Z) : Z :=
  match j with
  | O => size
  | S j' =>
      getsize_loop j' m inp (u32 (count * 8))
        (u32 (size + u32 ((s8 (load8 m (inp + Z.of_nat j')) - 48) * count)))
  end.
Definition getsize (m : mem) (inp : Z) : Z := getsize_loop 11 m inp 1 0.

Section initrd.
Context {E : Type} `{KernelAlloc E}.

(** The body of the loop: the file structure for the header, its name and its data;
    [fuel] bounds the length of the name. *)
Definition load_file (fuel : nat) (e : E) (m : mem) (hdr size : Z) : outcome (Z * E * mem) :=
  '(file, e, m) ← ka_malloc e m sizeof_initrd_file;
  let m := bzero m file sizeof_initrd_file in
  m ← strlcpy fuel m (file_name file) (hdr + tar_filename) 100;
  let m := store32 m (file + 104) size in
  '(data, e, m) ← ka_malloc e m size;
  let m := store32 m (file + 100) data in
  let m := memcpy m data (hdr + 512) size in
  Ret (file, e, m).

(** The loop over the headers. *)
Fixpoint load_files (n fuel : nat) (e : E) (m : mem) (fs : list Z) (hdr : Z) : outcome (list Z * E * mem) :=
  match n with
  | O => Fault FFuel
  | S n =>
      if load8 m (hdr + tar_filename) =? 0 then Ret (fs, e, m)
      else
        let size := getsize m (hdr + tar_size) in
        '(file, e, m) ← load_file fuel e m hdr size;
        load_files n fuel e m (fs ++ [file]) (u32 (hdr + 512 + ALIGN size 512))
  end.

Definition initrd_init (n fuel : nat) (st : initrd) (e : E) (m : mem) (mi : multiboot_info)
    : outcome (initrd * E * mem) :=
  if nz (Z.land (mi_flags mi) MULTIBOOT_FLAG_MODINFO) then
    if 0 <? mi_mods_count mi then
      let start := load32 m (mi_mods_addr mi) in
      let end_ := load32 m (mi_mods_addr mi + 4) in
      let size := u32 (end_ - start) in
      '(data, e, m) ← ka_malloc e m size;
      let m := memcpy m data start size in
      '(fs, e, m) ← load_files n fuel e m (files st) start;
      Ret (mkInitrd fs size data, e, m)
    else Ret (st, e, m)
  else Ret (st, e, m).
End initrd.

(** [list_foreach] over the files until a name compares equal; 0 when there is none. *)
Fixpoint find_file (fuel : nat) (m : mem) (fs : list Z) (name : Z) : outcome Z :=
  match fs with
  | [] => Ret 0
  | f :: fs => r ← strcmp fuel m (file_name f) name; if r =? 0 then Ret f else find_file fuel m fs name
  end.
Definition initrd_get_file (fuel : nat) (st : initrd) (m : mem) (name : Z) : outcome Z :=
  find_file fuel m (files st) name.

Definition initrd_get_size (st : initrd) : Z := initrd_size st.

Definition initrd_read (st : initrd) (m : mem) (buffer size offset : Z) : Z * mem :=
  if initrd_size st <? offset then (-1, m)
  else
    let rem := u32 (initrd_size st - offset) in
    if rem =? 0 then (0, m)
    else
      let size := if rem <? size then rem else size in
      (s32 size, memcpy m buffer (initrd_data st + offset) size).

Definition syscall_initrd_get_size_handler (st : initrd) : Z := initrd_size st.

Definition syscall_initrd_copy_handler (st : initrd) (m : mem) (dest size : Z) : Z * mem :=
  if size <? initrd_size st then (u32 (-1), m)
  else (initrd_size st, memcpy m dest (initrd_data st) (initrd_size st)).
