(* ===== verification/InitrdClaims.v ===== *)
(** The properties of the initial ram disk ([kernel/initrd.c]). *)
From S2P Require Import Prelude Util Mem Str StrSpec Initrd.

(** ** The archive format *)

(** Eleven octal digits. *)
Definition octal11 (n : Z) : list Z := (fun k => 48 + (n / 8 ^ k) mod 8) <$> [10; 9; 8; 7; 6; 5; 4; 3; 2; 1; 0].

Definition blocks (n : Z) : Z := 512 + ALIGN n 512.

(** The bytes from [a] on are a tar archive of the files, name and contents, closed by an
    empty header. *)
Fixpoint tar_at (m : mem) (a : Z) (fs : list (list Z * list Z)) : Prop :=
  match fs with
  | [] => load8 m a = 0
  | (name, data) :: fs =>
      name <> [] /\ (length name <= 99)%nat /\ str_at m a name /\
      load_bytes m (a + 124) 11 = octal11 (Z.of_nat (length data)) /\
      load_bytes m (a + 512) (length data) = data /\
      tar_at m (a + blocks (Z.of_nat (length data))) fs
  end.
Fixpoint tar_len (fs : list (list Z * list Z)) : Z :=
  match fs with
  | [] => 1
  | (_, data) :: fs => blocks (Z.of_nat (length data)) + tar_len fs
  end.

Lemma blocks_range n : 0 <= n < 2 ^ 32 - 512 -> 512 + n <= blocks n < 1024 + n.
Proof. intros Hn. unfold blocks. change 512 with (2 ^ 9). destruct (ALIGN_bounds 9 n) as [_ Hr]; lia. Qed.

Lemma tar_len_pos fs : Forall (fun f => Z.of_nat (length (snd f)) < 2 ^ 32 - 512) fs -> 1 <= tar_len fs.
Proof.
  induction 1 as [|[name data] fs Hd _ IH]; cbn [tar_len]; [lia|]. cbn [snd] in Hd.
  pose proof (blocks_range (Z.of_nat (length data))). lia.
Qed.

Lemma digit_lookup m inp n j : load_bytes m inp 11 = octal11 n -> (j < 11)%nat ->
  load8 m (inp + Z.of_nat j) = 48 + (n / 8 ^ (10 - Z.of_nat j)) mod 8.
Proof.
  intros Hl Hj. assert (load_bytes m inp 11 !! j = Some (load8 m (inp + Z.of_nat j))) as Hlk.
  { by rewrite load_bytes_lookup. }
  rewrite Hl in Hlk. unfold octal11 in Hlk.
  do 11 (destruct j as [|j]; [cbn in Hlk; injection Hlk as <-; reflexivity|]). lia.
Qed.

Lemma getsize_octal m inp n : load_bytes m inp 11 = octal11 n -> 0 <= n < 2 ^ 32 -> getsize m inp = n.
Proof.
  intros Hl Hn. unfold getsize. change 1 with (u32 (8 ^ 0)). replace 0 with (n mod 8 ^ 0) at 2 by (by rewrite Z.mod_1_r).
  assert (forall j k, 0 <= k -> k + Z.of_nat j = 11 -> getsize_loop j m inp (u32 (8 ^ k)) (n mod 8 ^ k) = n) as Hgen.
  { induction j as [|j IH]; intros k Hk Hs; cbn [getsize_loop].
    - replace k with 11 by lia. apply Z.mod_small. lia.
    - rewrite (digit_lookup m inp n j Hl) by lia. replace (10 - Z.of_nat j) with k by lia.
      assert (0 < 8 ^ k <= 8 ^ 10) as Hp by (split; [apply Z.pow_pos_nonneg; lia|apply Z.pow_le_mono_r; lia]).
      change (8 ^ 10) with (2 ^ 30) in Hp.
      pose proof (Z.mod_pos_bound (n / 8 ^ k) 8 ltac:(lia)) as Hd.
      pose proof (Z.mod_pos_bound n (8 ^ k) ltac:(lia)) as Hm.
      assert (n mod 8 ^ (k + 1) = n mod 8 ^ k + (n / 8 ^ k) mod 8 * 8 ^ k) as Hsplit.
      { rewrite Z.pow_add_r by lia. change (8 ^ 1) with 8. rewrite Z.rem_mul_r by lia. lia. }
      pose proof (Z.mod_le n (8 ^ (k + 1)) ltac:(lia) ltac:(apply Z.pow_pos_nonneg; lia)) as Hle.
      assert (s8 (48 + (n / 8 ^ k) mod 8) = 48 + (n / 8 ^ k) mod 8) as -> by (apply swrap_small; lia).
      rewrite (u32_small (8 ^ k)) by lia.
      replace (48 + (n / 8 ^ k) mod 8 - 48) with ((n / 8 ^ k) mod 8) by lia.
      rewrite (u32_small (_ * 8 ^ k)) by nia. rewrite <- Hsplit. rewrite (u32_small (n mod _)) by (pose proof (Z.mod_pos_bound n (8 ^ (k + 1)) ltac:(apply Z.pow_pos_nonneg; lia)); lia).
      replace (u32 (8 ^ k * 8)) with (u32 (8 ^ (k + 1))) by (by rewrite Z.pow_add_r by lia).
      apply IH; lia. }
  apply Hgen; lia.
Qed.

(** ** Memory *)
Lemma bzero_ok m a n : byte_mem m -> 0 <= n -> byte_mem (bzero m a n) /\ same_outside m (bzero m a n) a (a + n).
Proof.
  intros Hm Hn. unfold bzero, memset. replace (a + n) with (a + Z.of_nat (Z.to_nat n)) by lia.
  generalize (Z.to_nat n). clear Hn n. intros n. revert m a Hm.
  induction n as [|n IH]; intros m a Hm; cbn [memset_loop]; [by split|].
  destruct (IH (store8 m a 0) (a + 1)) as [H1 H2]; [by apply store8_byte_mem|]. split; [done|].
  intros c Hc. rewrite H2 by lia. rewrite load8_store8. by rewrite (proj2 (Z.eqb_neq _ _)) by lia.
Qed.

Lemma strlcpy_byte_mem fuel m dst src siz m' : byte_mem m -> strlcpy fuel m dst src siz = Ret m' -> byte_mem m'.
Proof.
  unfold strlcpy. intros Hm E. destruct (strlcpy_loop fuel m dst src siz) as [[m1 d1]|] eqn:El; [|done].
  injection E as <-. apply store8_byte_mem. revert m dst src siz Hm El.
  induction fuel as [|fuel IH]; intros m dst src siz Hm El; cbn [strlcpy_loop] in El; [done|].
  destruct (_ && _); [|by injection El as <- _]. eapply IH; [|done]. by apply store8_byte_mem.
Qed.

Lemma str_at_ext m m' p s : (forall b, p <= b <= p + Z.of_nat (length s) -> load8 m' b = load8 m b) ->
  str_at m p s -> str_at m' p s.
Proof.
  revert p. induction s as [|c s IH]; intros p Hb Hs.
  - rewrite str_at_nil in *. rewrite Hb; [done|]. cbn [length]. lia.
  - cbn [length] in Hb. rewrite str_at_cons in *. destruct Hs as (H1 & H2 & H3).
    split; [rewrite Hb by lia; done|]. split; [done|]. apply IH; [|done]. intros b Hr. apply Hb. lia.
Qed.

Lemma load_bytes_shift m m' a b n : (forall i, 0 <= i < Z.of_nat n -> load8 m (a + i) = load8 m' (b + i)) ->
  load_bytes m a n = load_bytes m' b n.
Proof.
  revert a b. induction n as [|n IH]; intros a b Hi; cbn [load_bytes]; [done|]. f_equal.
  - specialize (Hi 0 ltac:(lia)). by rewrite !Z.add_0_r in Hi.
  - apply IH. intros i Hr. rewrite <- !Z.add_assoc. apply Hi. lia.
Qed.

Lemma load32_ext m m' a : (forall b, a <= b < a + 4 -> load8 m' b = load8 m b) -> load32 m' a = load32 m a.
Proof. intros Hb. unfold load32. f_equal. apply load_bytes_ext. intros b Hr. apply Hb. lia. Qed.

Lemma tar_at_ext m m' fs : forall a, Forall (fun f => Z.of_nat (length (snd f)) < 2 ^ 32 - 512) fs ->
  (forall b, a <= b < a + tar_len fs -> load8 m' b = load8 m b) -> tar_at m a fs -> tar_at m' a fs.
Proof.
  induction fs as [|[name data] fs IH]; intros a Hsz Hb; cbn [tar_at tar_len] in *; [intros <-; apply Hb; lia|].
  apply Forall_cons in Hsz as [Hd Hsz]. cbn [snd] in Hd. pose proof (tar_len_pos fs Hsz).
  pose proof (blocks_range (Z.of_nat (length data)) ltac:(lia)).
  intros (H1 & H2 & H3 & H4 & H5 & H6). split; [done|]. split; [done|].
  split; [apply (str_at_ext m); [|done]; intros b Hr; apply Hb; lia|].
  split; [rewrite <- H4; apply load_bytes_ext; intros b Hr; apply Hb; lia|].
  split; [transitivity (load_bytes m (a + 512) (length data)); [|done]; apply load_bytes_ext; intros b Hr; apply Hb; lia|].
  apply IH; [done| |done]. intros b Hr. apply Hb. lia.
Qed.

(** ** Loading *)
Section load.
Context {E : Type} `{KernelAlloc E}.
Implicit Types (e : E) (m : mem).

(** Bytes in use, and bytes outside the allocator's area, are the same. *)
Definition kept e m m' : Prop := forall a, ka_live e a \/ ~ ka_arena a -> load8 m' a = load8 m a.

Lemma kept_trans e1 e2 m1 m2 m3 : (forall a, ka_live e1 a -> ka_live e2 a) -> kept e1 m1 m2 -> kept e2 m2 m3 ->
  kept e1 m1 m3.
Proof. intros Hl H1 H2 a Ha. rewrite H2 by (destruct Ha; auto). by apply H1. Qed.

(** A write into a new block. *)
Lemma kept_fresh e m m' p n : (forall a, p <= a < p + n -> ka_arena a /\ ~ ka_live e a) ->
  same_outside m m' p (p + n) -> kept e m m'.
Proof.
  intros Hf Hs a Ha. apply Hs. destruct (Z.lt_ge_cases a p); [by left|]. destruct (Z.lt_ge_cases a (p + n)); [|by right].
  destruct (Hf a ltac:(lia)). by destruct Ha.
Qed.

(** A loaded file: its structure and its data are in use and hold the file. *)
Record stored e m (f : Z) (x : list Z * list Z) : Prop := {
  st_name : str_at m f (fst x);
  st_short : (length (fst x) <= 99)%nat;
  st_size : file_size m f = Z.of_nat (length (snd x));
  st_data : load_bytes m (file_data m f) (length (snd x)) = snd x;
  st_live a : f <= a < f + 116 -> ka_live e a;
  st_live_data a : file_data m f <= a < file_data m f + Z.of_nat (length (snd x)) -> ka_live e a;
  st_ptr : f <> 0
}.

Lemma stored_kept e m e' m' f x : (forall a, ka_live e a -> ka_live e' a) -> kept e m m' ->
  stored e m f x -> stored e' m' f x.
Proof.
  intros Hl Hk [H1 H2 H3 H4 H5 H6 H7].
  assert (file_data m' f = file_data m f) as Hd.
  { apply load32_ext. intros b Hb. apply Hk. left. apply H5. lia. }
  split; [|done| | | | |done].
  - apply (str_at_ext m); [|done]. intros b Hb. apply Hk. left. apply H5. lia.
  - rewrite <- H3. apply load32_ext. intros b Hb. apply Hk. left. apply H5. lia.
  - rewrite Hd. transitivity (load_bytes m (file_data m f) (length (snd x))); [|done].
    apply load_bytes_ext. intros b Hb. apply Hk. left. apply H6. lia.
  - intros a Ha. by apply Hl, H5.
  - rewrite Hd. intros a Ha. by apply Hl, H6.
Qed.

Lemma load_file_ok fuel e m hdr name data fs : byte_mem m -> 0 <= hdr -> tar_at m hdr ((name, data) :: fs) -> (100 <= fuel)%nat ->
  Z.of_nat (length data) < 2 ^ 32 - 512 ->
  (forall b, hdr <= b < hdr + blocks (Z.of_nat (length data)) -> ~ ka_arena b) ->
  match load_file fuel e m hdr (Z.of_nat (length data)) with
  | Ret (file, e', m') => stored e' m' file (name, data) /\ kept e m m' /\ byte_mem m' /\
      (forall a, ka_live e a -> ka_live e' a)
  | Fault f => exists e m n, ka_malloc e m n = Fault f
  end.
Proof.
  intros Hm Hh (Hne & Hlen & Hname & Hsize & Hdata & _) Hfu Hsz Hout. cbn [tar_at] in *.
  pose proof (blocks_range (Z.of_nat (length data)) ltac:(lia)) as Hbl.
  unfold load_file, tar_filename, file_name, sizeof_initrd_file. rewrite Z.add_0_r.
  destruct (ka_malloc e m 116) as [[[file e1] m1]|f] eqn:E1; [|by exists e, m, 116]. cbn [mbind outcome_bind].
  destruct (ka_malloc_spec _ _ 116 _ _ _ ltac:(lia) E1) as (Hp & Hpe & Hfresh & Hlive1 & Hk1 & Hbm1). specialize (Hbm1 Hm).
  destruct (bzero_ok m1 file 116 Hbm1 ltac:(lia)) as [Hbm2 Hs2]. set (m2 := bzero m1 file 116) in *.
  assert (kept e m m2) as Hk2.
  { eapply kept_trans; [done|exact Hk1|]. by eapply kept_fresh. }
  assert (str_at m2 hdr name) as Hname2.
  { apply (str_at_ext m); [|done]. intros b Hb. apply Hk2. right. apply Hout. lia. }
  assert (hdr + Z.of_nat (length name) < file \/ file + 116 <= hdr) as Hapart.
  { destruct (Z.lt_ge_cases (hdr + Z.of_nat (length name)) file); [by left|]. right.
    destruct (Z.lt_ge_cases hdr (file + 116)); [|lia]. exfalso.
    apply (Hout (Z.max hdr file)); [lia|]. apply Hfresh. lia. }
  destruct (strlcpy_ok m2 file hdr 100 name fuel) as (m3 & E3 & Hstr3 & Hs3); [done|done|lia|lia|lia|].
  rewrite E3. cbn [mbind outcome_bind]. pose proof (strlcpy_byte_mem _ _ _ _ _ _ Hbm2 E3) as Hbm3.
  rewrite take_ge in Hstr3 by lia.
  set (m4 := store32 m3 (file + 104) (Z.of_nat (length data))).
  assert (byte_mem m4) as Hbm4 by (by apply store_bytes_byte_mem).
  assert (same_outside m2 m4 file (file + 116)) as Hs4.
  { apply same_outside_32; [|lia|lia]. eapply same_outside_widen; [exact Hs3|lia|lia]. }
  destruct (ka_malloc e1 m4 (Z.of_nat (length data))) as [[[dp e2] m5]|f] eqn:E5; [|by exists e1, m4, (Z.of_nat (length data))].
  cbn [mbind outcome_bind].
  destruct (ka_malloc_spec _ _ (Z.of_nat (length data)) _ _ _ ltac:(lia) E5) as (Hdp & Hdpe & Hfresh2 & Hlive2 & Hk5 & Hbm5). specialize (Hbm5 Hbm4).
  assert (forall a, file <= a < file + 116 -> ka_live e1 a) as Hfl by (intros a Ha; apply Hlive1; by right).
  assert (forall a, dp <= a < dp + Z.of_nat (length data) -> ~ file <= a < file + 116) as Hdis.
  { intros a Ha Hc. destruct (Hfresh2 a Ha) as [_ Hn]. by apply Hn, Hfl. }
  set (m6 := store32 m5 (file + 100) dp).
  assert (byte_mem m6) as Hbm6 by (by apply store_bytes_byte_mem).
  destruct (memcpy_load8 m6 dp (hdr + 512) (Z.of_nat (length data)) Hbm6 ltac:(lia)) as [Hbm7 Hl7].
  set (m7 := memcpy m6 dp (hdr + 512) (Z.of_nat (length data))) in *.
  assert (forall a, file <= a < file + 116 -> ~ file + 100 <= a < file + 104 -> load8 m7 a = load8 m4 a) as Hfile.
  { intros a Ha Hn. rewrite Hl7. destruct (_ && _) eqn:Eb; breflect; [by destruct (Hdis a)|].
    unfold m6. unfold store32. rewrite load8_store_bytes_out by (rewrite length_le_encode; lia). apply Hk5. left. by apply Hfl. }
  assert (file_data m7 file = dp) as Hfd.
  { unfold file_data. transitivity (load32 m6 (file + 100)); [|by apply load32_store32_eq; lia].
    apply load32_ext. intros b Hb. rewrite Hl7. destruct (_ && _) eqn:Eb; breflect; [|done]. destruct (Hdis b); lia. }
  assert (forall a, ka_live e a \/ ~ ka_arena a -> ~ file <= a < file + 116) as Hnf.
  { intros a Ha Hc. destruct (Hfresh a Hc). by destruct Ha. }
  assert (forall a, ka_live e a \/ ~ ka_arena a -> ka_live e1 a \/ ~ ka_arena a) as He1.
  { intros a [Ha|Ha]; [left; apply Hlive1; by left|by right]. }
  assert (kept e m m7) as Hk7.
  { intros a Ha. pose proof (Hnf a Ha) as Ho. rewrite Hl7. destruct (_ && _) eqn:Eb; breflect.
    { destruct (Hfresh2 a ltac:(lia)). by destruct (He1 a Ha). }
    unfold m6, store32. rewrite load8_store_bytes_out by (rewrite length_le_encode; lia).
    rewrite Hk5 by (by apply He1). rewrite Hs4 by lia. by apply Hk2. }
  split; [|split; [done|split; [done|]]].
  - split; cbn [fst snd]; rewrite ?Hfd.
    + apply (str_at_ext m3); [|done]. intros b Hb. rewrite Hfile by lia.
      unfold m4, store32. by rewrite load8_store_bytes_out by (rewrite length_le_encode; lia).
    + done.
    + unfold file_size. transitivity (load32 m4 (file + 104)); [|apply load32_store32_eq; lia].
      apply load32_ext. intros b Hb. apply Hfile; lia.
    + transitivity (load_bytes m (hdr + 512) (length data)); [|done].
      rewrite <- (load_bytes_shift m7 m dp (hdr + 512)); [done|]. intros i Hi. rewrite Hl7.
      rewrite (proj2 (andb_true_iff _ _)) by (split; [apply Z.leb_le|apply Z.ltb_lt]; lia).
      replace (hdr + 512 + (dp + i - dp)) with (hdr + 512 + i) by lia.
      assert (~ ka_arena (hdr + 512 + i)) as Hna by (apply Hout; lia). pose proof (Hnf _ (or_intror Hna)) as Ho.
      unfold m6, store32. rewrite load8_store_bytes_out by (rewrite length_le_encode; lia).
      rewrite Hk5 by (by right). rewrite Hs4 by lia. apply Hk2. by right.
    + intros a Ha. apply Hlive2. left. by apply Hfl.
    + intros a Ha. apply Hlive2. by right.
    + lia.
  - intros a Ha. apply Hlive2. left. apply Hlive1. by left.
Qed.

Lemma load_files_ok fuel fs : forall n e m ptrs before hdr, (100 <= fuel)%nat -> (length fs < n)%nat ->
  byte_mem m -> 0 <= hdr -> hdr + tar_len fs <= 2 ^ 32 ->
  Forall (fun f => Z.of_nat (length (snd f)) < 2 ^ 32 - 512) fs -> tar_at m hdr fs ->
  (forall b, hdr <= b < hdr + tar_len fs -> ~ ka_arena b) -> Forall2 (stored e m) ptrs before ->
  match load_files n fuel e m ptrs hdr with
  | Ret (ptrs', e', m') => Forall2 (stored e' m') ptrs' (before ++ fs) /\ kept e m m' /\ byte_mem m' /\
      (forall a, ka_live e a -> ka_live e' a)
  | Fault f => exists e m n, ka_malloc e m n = Fault f
  end.
Proof.
  induction fs as [|[name data] fs IH]; intros [|n] e m ptrs before hdr Hfu Hn Hm Hh Hend Hsz Ht Hout Hst;
    cbn [length] in Hn; try lia; cbn [load_files]; unfold tar_filename; rewrite Z.add_0_r.
  - cbn [tar_at] in Ht. rewrite Ht. cbn [Z.eqb]. by rewrite app_nil_r.
  - pose proof Hsz as Hsz'. apply Forall_cons in Hsz' as [Hd Hsz']. cbn [snd] in Hd. cbn [tar_len] in Hend, Hout.
    pose proof (tar_len_pos fs Hsz') as Hpos. pose proof (blocks_range (Z.of_nat (length data)) ltac:(lia)) as Hbl.
    pose proof Ht as (Hne & _ & Hname & Hsize & _ & Htail).
    destruct name as [|c name]; [done|]. pose proof Hname as Hc. apply str_at_cons in Hc as (Hc & Hch & _).
    rewrite Hc. rewrite (proj2 (Z.eqb_neq c 0)) by (by intros ->; apply char_nz in Hch).
    change tar_size with 124. rewrite (getsize_octal m _ _ Hsize) by lia.
    pose proof (load_file_ok fuel e m hdr (c :: name) data fs Hm Hh Ht Hfu Hd) as Hone.
    destruct (load_file fuel e m hdr _) as [[[file e1] m1]|f]; cbn [mbind outcome_bind]; [|apply Hone; intros b Hb; apply Hout; lia].
    destruct Hone as (Hs1 & Hk1 & Hm1 & Hl1); [intros b Hb; apply Hout; lia|].
    replace (u32 (hdr + 512 + ALIGN (Z.of_nat (length data)) 512)) with (hdr + blocks (Z.of_nat (length data)))
      by (rewrite <- Z.add_assoc; fold (blocks (Z.of_nat (length data))); rewrite u32_small; lia).
    specialize (IH n e1 m1 (ptrs ++ [file]) (before ++ [(c :: name, data)]) (hdr + blocks (Z.of_nat (length data)))).
    rewrite <- app_assoc in IH. cbn [app] in IH.
    assert (Forall2 (stored e1 m1) (ptrs ++ [file]) (before ++ [(c :: name, data)])) as Hst1.
    { apply Forall2_app; [|by constructor]. eapply Forall2_impl; [exact Hst|]. intros x y Hxy.
      by eapply (stored_kept e m). }
    assert (tar_at m1 (hdr + blocks (Z.of_nat (length data))) fs) as Htail1.
    { eapply tar_at_ext; [done| |exact Htail]. intros b Hb. apply Hk1. right. apply Hout. lia. }
    specialize (IH Hfu ltac:(lia) Hm1 ltac:(lia) ltac:(lia) Hsz' Htail1 ltac:(intros b Hb; apply Hout; lia) Hst1).
    destruct (load_files n fuel e1 m1 _ _) as [[[ptrs' e'] m']|f]; [|done].
    destruct IH as (H1 & H2 & H3 & H4). split; [done|]. split; [by eapply (kept_trans e e1 m m1)|]. split; [done|].
    intros a Ha. by apply H4, Hl1.
Qed.

Lemma find_file_ok fuel e m q qa : byte_mem m -> str_at m qa q -> (100 <= fuel)%nat ->
  forall ptrs fs, Forall2 (stored e m) ptrs fs ->
  (q ∉ fs.*1 -> find_file fuel m ptrs qa = Ret 0) /\
  (forall i x f, fs !! i = Some x -> fst x = q -> (forall j y, (j < i)%nat -> fs !! j = Some y -> fst y <> q) ->
     ptrs !! i = Some f -> find_file fuel m ptrs qa = Ret f).
Proof.
  intros Hm Hq Hfu. induction 1 as [|f x ptrs fs Hst _ IH]; cbn [find_file].
  - split; [done|]. intros i x f Hi. by rewrite lookup_nil in Hi.
  - change (file_name f) with f. destruct (strcmp_ok m Hm (fst x) q f qa fuel) as (r & -> & Hr); [apply Hst|done| |].
    { pose proof (st_short _ _ _ _ Hst). lia. }
    cbn [mbind outcome_bind]. destruct IH as [IH1 IH2]. split.
    + rewrite fmap_cons, elem_of_cons. intros Hni. rewrite (proj2 (Z.eqb_neq r 0)); [apply IH1; tauto|].
      intros Hc%Hr. apply Hni. left. done.
    + intros [|i] y g Hi Hy Hfirst Hg; cbn in Hi, Hg.
      * simplify_eq. by rewrite (proj2 (Z.eqb_eq r 0)) by (by apply Hr).
      * rewrite (proj2 (Z.eqb_neq r 0)); [|intros Hc%Hr; by apply (Hfirst 0%nat x); [lia| |]].
        apply (IH2 i y g); [done|done| |done]. intros j z Hj Hz. apply (Hfirst (S j) z); [lia|done].
Qed.
End load.

(** C13: The ram disk holds the boot archive. When the boot loader passed a module that is a tar
    archive, [initrd_init] loads every file, in order, with its name and its contents, and the
    raw image, without touching memory that is in use or outside the allocator's area; it
    fails only when an allocation fails. Afterwards [initrd_get_file] finds the first file of
    the name (0 when there is none) and [initrd_read] copies the part of the image asked for,
    cut at its end, and answers -1 beyond it. Without a module nothing happens. *)
Theorem initrd_spec {E : Type} `{KernelAlloc E} (n fuel : nat) (e : E) (m : mem) (mi : multiboot_info)
    (start size : Z) (fs : list (list Z * list Z)) :
  byte_mem m -> (100 <= fuel)%nat -> (length fs < n)%nat ->
  load32 m (mi_mods_addr mi) = start -> load32 m (mi_mods_addr mi + 4) = start + size ->
  0 <= start -> tar_len fs <= size -> start + size < 2 ^ 31 ->
  Forall (fun f => Z.of_nat (length (snd f)) <= size) fs ->
  tar_at m start fs -> (forall b, start <= b < start + size -> ~ ka_arena b) ->
  let run := initrd_init n fuel initrd_start e m mi in
  (Z.testbit (mi_flags mi) 3 = false \/ mi_mods_count mi = 0 -> run = Ret (initrd_start, e, m)) /\
  (Z.testbit (mi_flags mi) 3 = true -> 0 < mi_mods_count mi ->
   match run with
   | Fault f => exists e m n, ka_malloc e m n = Fault f
   | Ret (st, e', m') =>
       Forall2 (stored e' m') (files st) fs /\ kept e m m' /\
       initrd_get_size st = size /\
       (forall k q qa, (100 <= k)%nat -> str_at m' qa q ->
          (q ∉ fs.*1 -> initrd_get_file k st m' qa = Ret 0) /\
          (forall i x f, fs !! i = Some x -> fst x = q -> (forall j y, (j < i)%nat -> fs !! j = Some y -> fst y <> q) ->
             files st !! i = Some f -> initrd_get_file k st m' qa = Ret f)) /\
       (forall buffer len offset, 0 <= len -> 0 <= offset ->
          let k := Z.min len (size - offset) in
          (size < offset -> initrd_read st m' buffer len offset = (-1, m')) /\
          (offset <= size -> exists m'', initrd_read st m' buffer len offset = (k, m'') /\
             load_bytes m'' buffer (Z.to_nat k) = load_bytes m (start + offset) (Z.to_nat k) /\
             same_outside m' m'' buffer (buffer + k)))
   end).
Proof.
  intros Hm Hfu Hn Hst Hen H0 Hlen Hend Hall Htar Hout run.
  assert (Forall (fun f => Z.of_nat (length (snd f)) < 2 ^ 32 - 512) fs) as Hsz.
  { eapply Forall_impl; [exact Hall|]. intros x Hx. cbn in Hx. lia. }
  pose proof (tar_len_pos fs Hsz) as Hpos. split.
  - intros Hno. unfold run, initrd_init. change MULTIBOOT_FLAG_MODINFO with (2 ^ 3). rewrite land_pow2_test by lia.
    destruct Hno as [-> | ->]; [done|]. by destruct (Z.testbit _ 3).
  - intros Hf Hc. unfold run, initrd_init. change MULTIBOOT_FLAG_MODINFO with (2 ^ 3). rewrite land_pow2_test, Hf by lia.
    rewrite (proj2 (Z.ltb_lt _ _)), Hst, Hen by done.
    replace (start + size - start) with size by lia. rewrite u32_small by lia.
    destruct (ka_malloc e m size) as [[[data e1] m1]|f] eqn:E1; [|by exists e, m, size]. cbn [mbind outcome_bind].
    destruct (ka_malloc_spec _ _ size _ _ _ ltac:(lia) E1) as (Hp & Hpe & Hfresh & Hlive1 & Hk1 & Hbm1). specialize (Hbm1 Hm).
    destruct (memcpy_load8 m1 data start size Hbm1 ltac:(lia)) as [Hbm2 Hl2]. set (m2 := memcpy m1 data start size) in *.
    assert (kept e m m2) as Hk2.
    { intros a Ha. rewrite Hl2. destruct (_ && _) eqn:Eb; breflect; [|by apply Hk1].
      destruct (Hfresh a ltac:(lia)). by destruct Ha. }
    assert (tar_at m2 start fs) as Htar2.
    { eapply tar_at_ext; [done| |exact Htar]. intros b Hb. apply Hk2. right. apply Hout. lia. }
    pose proof (load_files_ok fuel fs n e1 m2 [] [] start Hfu Hn Hbm2 H0 ltac:(lia) Hsz Htar2
      ltac:(intros b Hb; apply Hout; lia) ltac:(constructor)) as Hload. cbn [app files initrd_start] in *.
    destruct (load_files n fuel e1 m2 [] start) as [[[ptrs e'] m']|f]; cbn [mbind outcome_bind]; [|done].
    destruct Hload as (Hfiles & Hk' & Hbm' & Hl'). cbn [files initrd_get_size initrd_size].
    split; [done|]. split; [by eapply (kept_trans e e1 m m2); [intros a Ha; apply Hlive1; left| |]|]. split; [done|]. split.
    + intros k q qa Hk Hq. by apply (find_file_ok k e' m' q qa).
    + intros buffer len offset Hl Ho. set (k := Z.min len (size - offset)). unfold initrd_read. cbn [initrd_size initrd_data]. split.
      { intros Hgt. by rewrite (proj2 (Z.ltb_lt _ _)) by done. }
      intros Hle. rewrite (proj2 (Z.ltb_ge _ _)) by done. rewrite u32_small by lia.
      destruct (size - offset =? 0) eqn:Erem; breflect.
      { exists m'. replace k with 0 by lia. by split. }
      replace (if size - offset <? len then size - offset else len) with k
        by (unfold k; destruct (size - offset <? len) eqn:El; breflect; lia).
      destruct (memcpy_load8 m' buffer (data + offset) k Hbm' ltac:(lia)) as [_ Hl3].
      eexists. split; [by rewrite s32_small by lia|]. split.
      * apply load_bytes_shift. intros i Hi. rewrite Hl3.
        rewrite (proj2 (andb_true_iff _ _)) by (split; [apply Z.leb_le|apply Z.ltb_lt]; lia).
        rewrite Hk' by (left; apply Hlive1; right; lia). rewrite Hl2.
        rewrite (proj2 (andb_true_iff _ _)) by (split; [apply Z.leb_le|apply Z.ltb_lt]; lia).
        rewrite Hk1 by (right; apply Hout; lia). f_equal. lia.
      * intros c Hcc. rewrite Hl3. destruct (_ && _) eqn:Eb; breflect; [lia|done].
Qed.

(** A bump allocator over a fixed area. *)
Definition bump_malloc (e : Z) (m : mem) (n : Z) : outcome (Z * Z * mem) :=
  if (0x10000 <=? e) && (e + n <=? 0x20000) then Ret (e, e + n, m) else Fault FPanic.

Lemma bump_malloc_spec e m n p e' m' : 0 <= n -> bump_malloc e m n = Ret (p, e', m') ->
  0 < p /\ p + n < 2 ^ 32 /\
  (forall a, p <= a < p + n -> 0x10000 <= a < 0x20000 /\ ~ 0x10000 <= a < e) /\
  (forall a, 0x10000 <= a < e' <-> 0x10000 <= a < e \/ p <= a < p + n) /\
  (forall a, 0x10000 <= a < e \/ ~ 0x10000 <= a < 0x20000 -> load8 m' a = load8 m a) /\
  (byte_mem m -> byte_mem m').
Proof.
  unfold bump_malloc. intros Hn E. destruct (_ && _) eqn:Eb; breflect; [|done]. injection E as <- <- <-.
  split; [lia|]. split; [lia|]. split; [lia|]. split; [lia|]. done.
Qed.

#[export] Instance bump_alloc : KernelAlloc Z := {
  ka_malloc := bump_malloc;
  ka_live e a := 0x10000 <= a < e;
  ka_arena a := 0x10000 <= a < 0x20000;
  ka_malloc_spec := bump_malloc_spec
}.

(** A module of three blocks at 0x1000 with one file, ["a"] with the contents ["hi"]. *)
Definition sample_module : mem :=
  store32 (store32 (store_bytes (store_bytes (store_bytes ∅ 0x1000 [97]) 0x107C (octal11 2)) 0x1200 [104; 105])
    0x800 0x1000) 0x804 0x1600.
Definition sample_mi : multiboot_info := mkMi 8 1 0x800.

Lemma sample_init :
  match initrd_init 2 100 initrd_start 0x10000 sample_module sample_mi with
  | Ret (st, _, _) => bool_decide (files st = [0x10600]) | Fault _ => false end = true.
Proof. vm_cast_no_check (eq_refl true). Qed.

Lemma initrd_spec_witness : exists st e' m', initrd_init 2 100 initrd_start 0x10000 sample_module sample_mi = Ret (st, e', m') /\
  files st = [0x10600] /\ initrd_get_size st = 0x600 /\ stored e' m' 0x10600 ([97], [104; 105]).
Proof.
  destruct (initrd_spec 2 100 0x10000 sample_module sample_mi 0x1000 0x600 [([97], [104; 105])]) as [_ H].
  - unfold sample_module. repeat apply store_bytes_byte_mem. apply empty_byte_mem.
  - lia.
  - cbn. lia.
  - vm_compute. reflexivity.
  - vm_compute. reflexivity.
  - lia.
  - vm_compute. discriminate.
  - lia.
  - constructor; [cbn; lia|constructor].
  - cbn [tar_at]. split; [discriminate|]. split; [cbn; lia|].
    split; [rewrite str_at_cons, str_at_nil; split; [reflexivity|]; split; [unfold is_char; lia|vm_compute; reflexivity]|].
    split; [vm_compute; reflexivity|]. split; vm_compute; reflexivity.
  - intros b Hb. cbn. lia.
  - specialize (H eq_refl ltac:(cbn; lia)). pose proof sample_init as Hs.
    destruct (initrd_init 2 100 initrd_start 0x10000 sample_module sample_mi) as [[[st e'] m']|f]; [|discriminate Hs].
    apply bool_decide_eq_true in Hs. destruct H as (Hf & _ & Hsz & _).
    exists st, e', m'. split; [reflexivity|]. split; [exact Hs|]. split; [exact Hsz|].
    rewrite Hs in Hf. by inversion Hf.
Defined.
