(* ===== verification/Kdebug.v ===== *)
(** [kernel/kdebug.c]: the kernel's log on the debug port, the table of the kernel's
    symbols copied from the boot loader's section headers, the lookup of the function that
    contains an address, and the stack walk printed when the kernel stops. *)
From S2P Require Import Prelude Util Mem Str Pmm Locks Multiboot Initrd.

(** ** The code *)

(** The static variables of the file. A [struct debug_sym] takes 12 bytes: name, start,
    end. *)
Record kdebug : Type := mkKdebug {
  debug_syms_count : Z;
  debug_syms : Z;
  debug_strings : Z;
  tsc_freq : Z;
  tsc_start : Z
}.
Definition kdebug_zero : kdebug := mkKdebug 0 0 0 0 0.
Definition sizeof_debug_sym : Z := 12.

(** [kdebug_init]: [tsc0], [tsc1] and [tsc2] are the counter's values at its three reads. *)
Definition kdebug_init (d : kdebug) (tsc0 tsc1 tsc2 : Z) : kdebug :=
  mkKdebug (debug_syms_count d) (debug_syms d) (debug_strings d) (u64 (tsc1 - tsc0)) tsc2.

(** *** Logging *)

(** [while(basename >= file && *basename != '/') basename--;] *)
Fixpoint back_to_slash (fuel : nat) (m : mem) (file basename : Z) : outcome Z :=
  match fuel with
  | O => Fault FFuel
  | S fuel =>
      if (file <=? basename) && negb (load8 m basename =? 47)
      then back_to_slash fuel m file (basename - 1)
      else Ret basename
  end.

(** "strip path from file". *)
Definition strip_path (fuel : nat) (m : mem) (file : Z) : outcome Z :=
  l ← strlen fuel m file;
  basename ← back_to_slash (S (S (Z.to_nat l))) m file (file + l);
  Ret (if load8 m basename =? 47 then basename + 1
       else if negb (nz (load8 m basename)) then file
       else basename).

(** [outb(DEBUG_PORT, ch)]: the bytes written to the port, in order. *)
Definition log_callback (ch : Z) (port : list Z) : list Z := port ++ [u8 ch].

Definition debug_printf (fmt : list Z) (args : list va_arg) (port : list Z) : outcome (list Z) :=
  '(port, _) ← format log_callback fmt args port;
  Ret port.

(** ["%06lld [%s:%d][%s] "] *)
Definition log_prefix : list Z :=
  [37; 48; 54; 108; 108; 100; 32; 91; 37; 115; 58; 37; 100; 93; 91; 37; 115; 93; 32].

Definition log_timestamp (d : kdebug) (now : Z) : Z :=
  let ts := u64 (now - tsc_start d) in
  if nz (tsc_freq d) then ts / tsc_freq d else 0.

(** [__log]: [now] is the counter's value; the result holds the flags register, as the
    output is written inside a critical section. *)
Definition klog (fuel : nat) (m : mem) (d : kdebug) (now eflags : Z) (func : list Z) (file line : Z)
    (fmt : list Z) (args : list va_arg) (port : list Z) : outcome (list Z * Z) :=
  basename ← strip_path fuel m file;
  let '(ifstate, eflags) := disable_if eflags in
  '(port, _) ← format log_callback log_prefix
      [ALong (log_timestamp d now); AStr (buffer_string fuel m basename); AInt line; AStr func] port;
  port ← debug_printf fmt args port;
  let port := log_callback 10 port in
  Ret (port, restore_if eflags ifstate).

(** *** Symbols *)
Definition sym_entry (d : kdebug) (i : Z) : Z := debug_syms d + sizeof_debug_sym * i.

(** The loop of [lookup_function] from index [i], [n] entries to go; 0 is [NULL]. *)
Fixpoint lookup_from (n : nat) (m : mem) (d : kdebug) (i address : Z) : Z :=
  match n with
  | O => 0
  | S n =>
      if (load32 m (sym_entry d i + 4) <=? address) && (address <? load32 m (sym_entry d i + 8))
      then load32 m (sym_entry d i)
      else lookup_from n m d (i + 1) address
  end.
Definition lookup_function (m : mem) (d : kdebug) (address : Z) : Z :=
  lookup_from (Z.to_nat (debug_syms_count d)) m d 0 address.

Definition SHT_SYMTAB : Z := 2.
Definition STT_OBJECT : Z := 1.
Definition STT_FUNC : Z := 2.
Definition ELF32_ST_TYPE (i : Z) : Z := Z.land i 0xF.
Definition sizeof_elf32_sym : Z := 16.

(** [elf32_sym_t]: name, value, size, info. *)
Definition st_name (m : mem) (p : Z) : Z := load32 m p.
Definition st_value (m : mem) (p : Z) : Z := load32 m (p + 4).
Definition st_size (m : mem) (p : Z) : Z := load32 m (p + 8).
Definition st_info (m : mem) (p : Z) : Z := load8 m (p + 12).
Definition is_code_or_data (m : mem) (p : Z) : bool :=
  (ELF32_ST_TYPE (st_info m p) =? STT_FUNC) || (ELF32_ST_TYPE (st_info m p) =? STT_OBJECT).

(** "Find relevant sections": the headers of the symbol table and of [.strtab], 0 when not
    found; [strtab] is the address of the literal. *)
Fixpoint find_sections (n fuel : nat) (m : mem) (strtab names hdr sym_hdr strtab_hdr : Z)
    : outcome (Z * Z) :=
  match n with
  | O => Ret (sym_hdr, strtab_hdr)
  | S n =>
      '(sym_hdr, strtab_hdr) ←
        (if load32 m (hdr + 4) =? SHT_SYMTAB then Ret (hdr, strtab_hdr)
         else r ← strcmp fuel m (names + load32 m hdr) strtab;
              Ret (sym_hdr, if r =? 0 then hdr else strtab_hdr));
      if nz sym_hdr && nz strtab_hdr then Ret (sym_hdr, strtab_hdr)
      else find_sections n fuel m strtab names (hdr + sizeof_shdr) sym_hdr strtab_hdr
  end.

(** The loop that fills the table. *)
Fixpoint copy_syms (n : nat) (m : mem) (d : kdebug) (sym : Z) : mem * kdebug :=
  match n with
  | O => (m, d)
  | S n =>
      if is_code_or_data m sym then
        let entry := sym_entry d (debug_syms_count d) in
        let m := store32 m entry (u32 (debug_strings d + st_name m sym)) in
        let m := store32 m (entry + 4) (st_value m sym) in
        let m := store32 m (entry + 8) (u32 (st_value m sym + st_size m sym)) in
        copy_syms n m
          (mkKdebug (u32 (debug_syms_count d + 1)) (debug_syms d) (debug_strings d) (tsc_freq d) (tsc_start d))
          (sym + sizeof_elf32_sym)
      else copy_syms n m d (sym + sizeof_elf32_sym)
  end.

Section load_symbols.
Context {E : Type} `{KernelAlloc E}.

Definition load_symbols (fuel : nat) (strtab : Z) (d : kdebug) (e : E) (m : mem) (mi : Z)
    : outcome (kdebug * E * mem) :=
  let hdrs := mb_sym2_addr m mi in
  let shstr_hdr := hdrs + sizeof_shdr * mb_sym2_shndx m mi in
  let section_names := sh_addr m shstr_hdr in
  '(sym_hdr, strtab_hdr) ← find_sections (Z.to_nat (mb_sym2_num m mi)) fuel m strtab section_names hdrs 0 0;
  if nz sym_hdr && nz strtab_hdr then
    '(strings, e, m) ← ka_malloc e m (sh_size m strtab_hdr);
    let m := memcpy m strings (sh_addr m strtab_hdr) (sh_size m strtab_hdr) in
    let sym_count := sh_size m sym_hdr / sizeof_elf32_sym in
    '(syms, e, m) ← ka_malloc e m (u32 (sym_count * sizeof_debug_sym));
    let '(m, d) := copy_syms (Z.to_nat sym_count) m
                     (mkKdebug (debug_syms_count d) syms strings (tsc_freq d) (tsc_start d))
                     (sh_addr m sym_hdr) in
    Ret (d, e, m)
  else Ret (d, e, m).
End load_symbols.

(** *** Backtrace *)
Definition BACKTRACE_MAX : nat := 255.

(** [data[index++] = v] on the local array of 255 words. *)
Definition push_frame (data : list Z) (v : Z) : outcome (list Z) :=
  if (length data <? BACKTRACE_MAX)%nat then Ret (data ++ [v]) else Fault FMem.

(** [(uint32_t)ebp <= stack_start || (uint32_t)ebp + 8 >= stack_end] *)
Definition off_stack (stack_start ebp : Z) : bool :=
  (ebp <=? stack_start) || (u32 (stack_start + PAGE_SIZE) <=? u32 (ebp + 8)).

Fixpoint walk_frames (fuel : nat) (m : mem) (stack_start ebp : Z) (data : list Z) : outcome (list Z) :=
  match fuel with
  | O => Fault FFuel
  | S fuel =>
      if off_stack stack_start ebp then Ret data
      else
        let prev_ebp := load32 m ebp in
        if off_stack stack_start prev_ebp then Ret data
        else
          data ← push_frame data (load32 m (u32 (prev_ebp + 4)));
          walk_frames fuel m stack_start prev_ebp data
  end.

(** The return addresses that [backtrace] collects, given the two registers; each is then
    logged with the name [lookup_function] answers for it. *)
Definition backtrace (m : mem) (ebp esp : Z) : outcome (list Z) :=
  let stack_start := TRUNCATE esp PAGE_SIZE in
  data ← push_frame [] (load32 m (u32 (ebp + 4)));
  walk_frames (S BACKTRACE_MAX) m stack_start ebp data.

Definition backtrace_names (m : mem) (d : kdebug) (data : list Z) : list (Z * Z) :=
  map (fun a => (a, lookup_function m d a)) data.
