(* ===== verification/KdebugClaims.v ===== *)
(** What the kernel's log prints, what the symbol table answers, and the bounds of the
    stack walk. *)
From S2P Require Import Prelude Util Mem Str StrSpec LogText Pmm Locks Multiboot Initrd InitrdClaims Kdebug.

(** ** The name of the source file *)
Lemma back_to_slash_skip m file n : forall fuel p,
  (forall c, p - Z.of_nat n < c <= p -> file <= c /\ load8 m c <> 47) -> (n <= fuel)%nat ->
  back_to_slash fuel m file p = back_to_slash (fuel - n) m file (p - Z.of_nat n).
Proof.
  induction n as [|n IH]; intros fuel p Hc Hf; [by rewrite Nat.sub_0_r, Z.sub_0_r|].
  destruct fuel as [|fuel]; [lia|]. cbn [back_to_slash]. destruct (Hc p) as [Hp H47]; [lia|].
  rewrite (proj2 (Z.leb_le _ _)), (proj2 (Z.eqb_neq _ _)) by done. cbn [andb negb].
  rewrite IH; [|intros c Hr; apply Hc; lia|lia]. f_equal. lia.
Qed.

Lemma str_at_app_inv m p a b : str_at m p (a ++ b) ->
  load_bytes m p (length a) = a /\ str_at m (p + Z.of_nat (length a)) b.
Proof.
  revert p. induction a as [|c a IH]; intros p Hs; [by rewrite Z.add_0_r|].
  cbn [app] in Hs. apply str_at_cons in Hs as (Hc & _ & Hs). apply IH in Hs as [Hb Hs].
  cbn [length load_bytes]. rewrite Hc, Hb. split; [done|].
  replace (p + Z.of_nat (S (length a))) with (p + 1 + Z.of_nat (length a)) by lia. done.
Qed.

(** A string's bytes, its terminator included. *)
Lemma str_at_no_slash m p s : str_at m p s -> 47 ∉ s ->
  forall c, p <= c <= p + Z.of_nat (length s) -> load8 m c <> 47.
Proof.
  revert p. induction s as [|x s IH]; intros p Hs Hn c Hc; cbn [length] in Hc.
  - apply str_at_nil in Hs. replace c with p by lia. by rewrite Hs.
  - apply str_at_cons in Hs as (Hx & _ & Hs). apply not_elem_of_cons in Hn as [Hx' Hn].
    destruct (Z.eq_dec c p) as [->|]; [by rewrite Hx|]. apply (IH (p + 1)); [done|done|lia].
Qed.

(** The loop stops one byte before the part of the name without a slash. *)
Lemma back_to_slash_end m file a b : str_at m file (a ++ b) -> 47 ∉ b ->
  (a = [] \/ exists d, a = d ++ [47]) ->
  back_to_slash (S (S (length (a ++ b)))) m file (file + Z.of_nat (length (a ++ b)))
  = Ret (file + Z.of_nat (length a) - 1).
Proof.
  intros Hs Hb Ha. apply str_at_app_inv in Hs as [Hl Hs]. pose proof (str_at_no_slash _ _ _ Hs Hb) as Hno.
  rewrite length_app in *.
  rewrite (back_to_slash_skip m file (S (length b))); [|intros c Hc; split; [lia|apply Hno; lia]|lia].
  replace (S (S (length a + length b)) - S (length b))%nat with (S (length a)) by lia. cbn [back_to_slash].
  replace (file + Z.of_nat (length a + length b) - Z.of_nat (S (length b)))
    with (file + Z.of_nat (length a) - 1) by lia.
  destruct Ha as [->|(d & ->)].
  - rewrite (proj2 (Z.leb_gt _ _)) by (cbn; lia). done.
  - rewrite length_app in *. cbn [length] in *.
    assert (load8 m (file + Z.of_nat (length d + 1) - 1) = 47) as ->.
    { rewrite load_bytes_app in Hl. apply app_inj_1 in Hl as [_ Hl]; [|by rewrite length_load_bytes].
      cbn in Hl. injection Hl as Hl. rewrite <- Hl. f_equal. lia. }
    by rewrite andb_false_r.
Qed.

Lemma strip_path_slash m file fuel d b : str_at m file (d ++ 47 :: b) -> 47 ∉ b ->
  Z.of_nat (length (d ++ 47 :: b)) < 2 ^ 32 -> (length (d ++ 47%Z :: b) < fuel)%nat ->
  strip_path fuel m file = Ret (file + Z.of_nat (length d) + 1) /\
  str_at m (file + Z.of_nat (length d) + 1) b.
Proof.
  intros Hs Hb Hl Hf. unfold strip_path. rewrite (strlen_ok _ _ _ _ Hs Hl Hf). cbn [mbind outcome_bind].
  replace (d ++ 47 :: b) with ((d ++ [47]) ++ b) in * by (by rewrite <- app_assoc).
  rewrite Nat2Z.id, back_to_slash_end by (eauto || done). cbn [mbind outcome_bind].
  apply str_at_app_inv in Hs as [Hl' Hs]. rewrite length_app in *. cbn [length] in *.
  assert (load8 m (file + Z.of_nat (length d + 1) - 1) = 47) as ->.
  { rewrite load_bytes_app in Hl'. apply app_inj_1 in Hl' as [_ Hl']; [|by rewrite length_load_bytes].
    cbn in Hl'. injection Hl' as Hl'. rewrite <- Hl'. f_equal. lia. }
  cbn. replace (file + Z.of_nat (length d) + 1) with (file + Z.of_nat (length d + 1)) by lia.
  split; [|done]. f_equal. lia.
Qed.

Lemma strip_path_plain m file fuel s : str_at m file s -> 47 ∉ s -> Z.of_nat (length s) < 2 ^ 32 ->
  (length s < fuel)%nat ->
  strip_path fuel m file =
  Ret (if (load8 m (file - 1) =? 47) || (load8 m (file - 1) =? 0) then file else file - 1).
Proof.
  intros Hs Hn Hl Hf. unfold strip_path. rewrite (strlen_ok _ _ _ _ Hs Hl Hf). cbn [mbind outcome_bind].
  rewrite Nat2Z.id. pose proof (back_to_slash_end m file [] s Hs Hn (or_introl eq_refl)) as Hb.
  cbn [app] in Hb. rewrite Hb. cbn [mbind outcome_bind length].
  replace (file + Z.of_nat 0 - 1) with (file - 1) by lia. unfold nz. rewrite negb_involutive.
  destruct (load8 m (file - 1) =? 47); cbn [orb]; [f_equal; lia|].
  by destruct (load8 m (file - 1) =? 0).
Qed.

(** ** Log lines *)
Lemma log_callbacks t : forall port, Forall is_char t ->
  fold_left (fun port c => log_callback (s8 c) port) t port = port ++ t.
Proof.
  induction t as [|c t IH]; intros port Ht; [by rewrite app_nil_r|]. apply Forall_cons in Ht as [Hc Ht].
  cbn [fold_left]. rewrite IH by done. unfold log_callback. rewrite (wrap_swrap 8) by lia.
  unfold is_char in Hc. rewrite u8_small by lia. by rewrite <- app_assoc.
Qed.

Lemma log_format fmt args port t : Forall arg_ok args -> text_of fmt args = Some t -> Forall is_char t ->
  format log_callback fmt args port = Ret (port ++ t, Z.of_nat (length t)).
Proof.
  intros Ha Ht Hc. unfold format. rewrite formatv_ok by (done || lia). unfold text_of in Ht. rewrite Ht.
  unfold emit_all. rewrite log_callbacks by done. done.
Qed.

(** The start of a line: a timestamp of at least six digits, then
    ["[file:line][function] "]. *)
Definition log_header (ts : Z) (name : list Z) (line : Z) (func : list Z) : list Z :=
  pad 1 6 (Z.of_nat (length (number_string 10 ts))) ++ number_string 10 ts ++ [32; 91] ++ name ++ [58] ++
  number_string 10 line ++ [93; 91] ++ func ++ [93; 32].

Lemma log_prefix_text ts name line func :
  text_of log_prefix [ALong ts; AStr name; AInt line; AStr func] = Some (log_header ts name line func).
Proof. unfold log_prefix. text_of_literal. unfold log_header. by rewrite <- !app_assoc. Qed.

Lemma log_header_chars ts name line func : 0 <= ts < 2 ^ 64 -> 0 <= line < 2 ^ 32 -> Forall is_char name ->
  Forall is_char func -> Forall is_char (log_header ts name line func).
Proof. intros Hts Hl Hn Hf. unfold log_header. chars. Qed.

Lemma log_timestamp_range d now : 0 <= tsc_freq d -> 0 <= log_timestamp d now < 2 ^ 64.
Proof.
  intros Hf. unfold log_timestamp. pose proof (u64_range (now - tsc_start d)). destruct (nz (tsc_freq d)) eqn:E; [|lia].
  apply nz_spec in E. split; [apply Z.div_pos; lia|].
  eapply Z.le_lt_trans; [apply Z.div_le_upper_bound with (q := u64 (now - tsc_start d))|]; nia.
Qed.

Lemma klog_line fuel m d now eflags func file line fmt args port p name t :
  strip_path fuel m file = Ret p -> buffer_string fuel m p = name -> Forall is_char name ->
  0 <= tsc_freq d -> 0 <= line < 2 ^ 32 -> Forall is_char func -> Forall arg_ok args ->
  text_of fmt args = Some t -> Forall is_char t ->
  klog fuel m d now eflags func file line fmt args port =
  Ret (port ++ log_header (log_timestamp d now) name line func ++ t ++ [10], eflags).
Proof.
  intros Hp Hb Hname Hfr Hline Hfunc Ha Ht Hc. unfold klog. rewrite Hp. cbn [mbind outcome_bind].
  pose proof (critical_section_restores eflags) as Hcr. destruct (disable_if eflags) as [i e1].
  destruct Hcr as [_ Hcr]. pose proof (log_timestamp_range d now Hfr) as Hts. rewrite Hb.
  assert (Forall arg_ok [ALong (log_timestamp d now); AStr name; AInt line; AStr func]) as Hargs.
  { repeat (apply Forall_cons; split); [exact Hts|exact Hname|exact Hline|exact Hfunc|apply Forall_nil_2]. }
  rewrite (log_format _ _ port _ Hargs (log_prefix_text (log_timestamp d now) name line func)
             (log_header_chars _ _ _ _ Hts Hline Hname Hfunc)).
  cbn [mbind outcome_bind]. unfold debug_printf. rewrite (log_format fmt args _ t) by done.
  cbn [mbind outcome_bind]. rewrite Hcr. unfold log_callback. do 2 f_equal.
  rewrite <- !app_assoc. done.
Qed.

(** ** The stack walk *)

(** The return addresses of the frames linked from [ebp], innermost first. *)
Inductive stack_frames (m : mem) (stack_start : Z) : Z -> list Z -> Prop :=
| frames_off ebp : off_stack stack_start ebp = true -> stack_frames m stack_start ebp []
| frames_last ebp : off_stack stack_start (load32 m ebp) = true -> stack_frames m stack_start ebp []
| frames_next ebp l : off_stack stack_start ebp = false -> off_stack stack_start (load32 m ebp) = false ->
    stack_frames m stack_start (load32 m ebp) l ->
    stack_frames m stack_start ebp (load32 m (u32 (load32 m ebp + 4)) :: l).

(** Saved frame pointers that stay on the page lead upwards, over frames of at least five
    words. *)
Definition frames_ascend (m : mem) (ss : Z) : Prop :=
  forall ebp, ss < ebp < ss + 4088 ->
    off_stack ss (load32 m ebp) = true \/ ebp + 20 <= load32 m ebp < ss + 4088.

Lemma off_stack_page ss ebp : 0 <= ss -> ss + 4096 < 2 ^ 32 -> ss < ebp < ss + 4088 ->
  off_stack ss ebp = false.
Proof.
  intros. unfold off_stack, PAGE_SIZE. rewrite !u32_small by lia.
  apply orb_false_iff. rewrite !Z.leb_gt. lia.
Qed.

Lemma push_frame_ok data v : (length data < 255)%nat -> push_frame data v = Ret (data ++ [v]).
Proof. intros. unfold push_frame, BACKTRACE_MAX. by rewrite (proj2 (Nat.ltb_lt _ _)). Qed.

Lemma walk_frames_ok m ss : 0 <= ss -> ss + 4096 < 2 ^ 32 -> frames_ascend m ss ->
  forall k fuel ebp data, ss < ebp < ss + 4088 -> ss + 4088 - ebp <= 20 * Z.of_nat k ->
  (length data + k <= 255)%nat -> (k < fuel)%nat ->
  exists l, walk_frames fuel m ss ebp data = Ret (data ++ l) /\ stack_frames m ss ebp l /\ (length l <= k)%nat.
Proof.
  intros H0 H1 Hasc k. induction k as [|k IH]; intros fuel ebp data He Hk Hd Hf; [lia|].
  destruct fuel as [|fuel]; [lia|]. cbn [walk_frames]. rewrite off_stack_page by done.
  destruct (off_stack ss (load32 m ebp)) eqn:Eo.
  { exists []. rewrite app_nil_r. split; [done|]. split; [by apply frames_last|cbn; lia]. }
  destruct (Hasc ebp He) as [Hoff|Hup]; [congruence|].
  rewrite push_frame_ok by lia. cbn [mbind outcome_bind].
  destruct (IH fuel (load32 m ebp) (data ++ [load32 m (u32 (load32 m ebp + 4))])) as (l & -> & Hl & Hlen);
    [lia|lia|rewrite length_app; cbn; lia|lia|].
  exists (load32 m (u32 (load32 m ebp + 4)) :: l). rewrite <- app_assoc. split; [done|].
  split; [apply frames_next; [by apply off_stack_page|done|done]|cbn; lia].
Qed.

Lemma walk_frames_loop m ss ebp : off_stack ss ebp = false -> load32 m ebp = ebp ->
  forall k fuel data, (length data + k = 255)%nat -> (k < fuel)%nat ->
  walk_frames fuel m ss ebp data = Fault FMem.
Proof.
  intros Ho Hl k. induction k as [|k IH]; intros fuel data Hd Hf; (destruct fuel as [|fuel]; [lia|]);
    cbn [walk_frames]; rewrite Hl, Ho.
  - unfold push_frame, BACKTRACE_MAX. by rewrite (proj2 (Nat.ltb_ge _ _)) by lia.
  - rewrite push_frame_ok by lia. cbn [mbind outcome_bind]. apply IH; [rewrite length_app; cbn; lia|lia].
Qed.

(** The walk that [abort] prints terminates inside its array of 255 entries on a stack
    whose frame pointers ascend, and the entries are the return addresses of the linked
    frames; but nothing in the loop bounds it: a frame that links to itself makes it write
    past the end of the array. *)
Theorem backtrace_bounds (m : mem) (ebp esp : Z) (H0 : 0 <= esp) (H1 : esp + 4096 < 2 ^ 32) :
  let ss := TRUNCATE esp PAGE_SIZE in
  (frames_ascend m ss -> off_stack ss ebp = true \/ ss < ebp < ss + 4088 ->
   exists l, backtrace m ebp esp = Ret (load32 m (u32 (ebp + 4)) :: l) /\ stack_frames m ss ebp l /\
     (length l <= 205)%nat) /\
  (off_stack ss ebp = false -> load32 m ebp = ebp -> backtrace m ebp esp = Fault FMem).
Proof.
  intros ss. destruct (TRUNCATE_bounds PAGE_SIZE esp) as (_ & Ht & _); [done|done|]. fold ss in Ht.
  unfold backtrace. fold ss. rewrite push_frame_ok by (cbn; lia). cbn [mbind outcome_bind app]. split.
  - intros Hasc [Ho|He].
    + exists []. cbn [walk_frames]. rewrite Ho. split; [done|]. split; [by apply frames_off|cbn; lia].
    + destruct (walk_frames_ok m ss ltac:(lia) ltac:(lia) Hasc 205 (S BACKTRACE_MAX) ebp
                  [load32 m (u32 (ebp + 4))]) as (l & -> & ? & ?); [done|lia|cbn; lia|unfold BACKTRACE_MAX; lia|].
      by exists l.
  - intros Ho Hl. apply (walk_frames_loop m ss ebp Ho Hl 254); [done|unfold BACKTRACE_MAX; lia].
Qed.
