(* ===== verification/KdebugSyms.v ===== *)
(** The kernel's symbol table: [load_symbols] copies the names and the bounds of the
    functions and objects, and [lookup_function] answers for every address what a search
    of the boot loader's symbol section would. *)
From S2P Require Import Prelude Util Mem Str StrSpec Pmm Locks Multiboot Initrd InitrdClaims Kdebug.

(** ** Specification *)

(** The symbols of the section at [p], and those the kernel keeps. *)
Definition symbols_at (p : Z) (n : nat) : list Z := map (fun i => p + 16 * Z.of_nat i) (seq 0 n).
Definition kept_symbols (m : mem) (l : list Z) : list Z := List.filter (is_code_or_data m) l.

Definition sym_covers (m : mem) (address p : Z) : bool :=
  (st_value m p <=? address) && (address <? u32 (st_value m p + st_size m p)).

(** The first kept symbol that covers an address. *)
Definition symbol_of (m : mem) (l : list Z) (address : Z) : option Z :=
  List.find (sym_covers m address) (kept_symbols m l).

(** ** The copy *)
Lemma symbols_at_S p n : symbols_at p (S n) = p :: symbols_at (p + 16) n.
Proof.
  unfold symbols_at. cbn [seq map]. rewrite Z.add_0_r. f_equal. rewrite <- seq_shift, map_map.
  apply map_ext. intros i. lia.
Qed.

(** The reads of a symbol depend on its 16 bytes. *)
Lemma symbol_ext m m' p : (forall c, p <= c < p + 16 -> load8 m' c = load8 m c) ->
  Kdebug.st_name m' p = Kdebug.st_name m p /\ st_value m' p = st_value m p /\
  Kdebug.st_size m' p = Kdebug.st_size m p /\ is_code_or_data m' p = is_code_or_data m p.
Proof.
  intros Hs. unfold Kdebug.st_name, st_value, Kdebug.st_size, is_code_or_data, st_info.
  rewrite !(load32_ext m m') by (intros; apply Hs; lia). rewrite (Hs (p + 12)) by lia. done.
Qed.

Definition sym_row (m : mem) (strings p : Z) : Z * Z * Z :=
  (u32 (strings + Kdebug.st_name m p), st_value m p, u32 (st_value m p + Kdebug.st_size m p)).
Definition table_row (m : mem) (d : kdebug) (i : Z) : Z * Z * Z :=
  (load32 m (sym_entry d i), load32 m (sym_entry d i + 4), load32 m (sym_entry d i + 8)).

Lemma sym_rows_ext m m' strings p n :
  (forall c, p <= c < p + 16 * Z.of_nat n -> load8 m' c = load8 m c) ->
  map (sym_row m' strings) (kept_symbols m' (symbols_at p n)) = map (sym_row m strings) (kept_symbols m (symbols_at p n)).
Proof.
  revert p. induction n as [|n IH]; intros p Hs; [done|]. rewrite !symbols_at_S.
  unfold kept_symbols in *. cbn [List.filter].
  destruct (symbol_ext m m' p) as (E1 & E2 & E3 & E4); [intros c Hc; apply Hs; lia|].
  specialize (IH (p + 16) ltac:(intros c Hc; apply Hs; lia)). rewrite E4.
  destruct (is_code_or_data m p); [|done]. cbn [map]. rewrite IH. f_equal. unfold sym_row.
  by rewrite E1, E2, E3.
Qed.

(** One row written. *)
Lemma row_written m d v1 v2 v3 c : 0 <= v1 < 2 ^ 32 -> 0 <= v2 < 2 ^ 32 -> 0 <= v3 < 2 ^ 32 ->
  let a := sym_entry d c in
  let m' := store32 (store32 (store32 m a v1) (a + 4) v2) (a + 8) v3 in
  table_row m' d c = (v1, v2, v3) /\ same_outside m m' a (a + 12).
Proof.
  intros H1 H2 H3 a m'. split.
  - unfold table_row. fold a.
    assert (load32 m' (a + 8) = v3) as -> by (by apply load32_store32_eq).
    assert (load32 m' (a + 4) = v2) as ->.
    { unfold m'. rewrite load32_store32_ne by lia. by apply load32_store32_eq. }
    assert (load32 m' a = v1) as ->; [|done].
    unfold m'. rewrite !load32_store32_ne by lia. by apply load32_store32_eq.
  - unfold m'. repeat apply same_outside_32; try lia. done.
Qed.

Definition with_count (d : kdebug) (c : Z) : kdebug :=
  mkKdebug c (debug_syms d) (debug_strings d) (tsc_freq d) (tsc_start d).

(** The body of the loop on a kept symbol, with its reads taken from the memory before. *)
Lemma copy_sym_step n m d p : byte_mem m -> is_code_or_data m p = true -> 0 <= debug_syms_count d < 2 ^ 32 - 1 ->
  let a := sym_entry d (debug_syms_count d) in
  p + 16 <= a \/ a + 12 <= p ->
  exists m1, copy_syms (S n) m d p = copy_syms n m1 (with_count d (debug_syms_count d + 1)) (p + 16) /\
    byte_mem m1 /\ table_row m1 d (debug_syms_count d) = sym_row m (debug_strings d) p /\
    same_outside m m1 a (a + 12).
Proof.
  intros Hm Hk Hc a Hd. cbn [copy_syms]. rewrite Hk. fold a. cbv zeta.
  set (v1 := u32 (debug_strings d + Kdebug.st_name m p)). set (ma := store32 m a v1).
  assert (same_outside m ma a (a + 12)) as Ha by (apply same_outside_32; [done|lia|lia]).
  destruct (symbol_ext m ma p) as (_ & -> & _); [intros c Hr; apply Ha; lia|].
  set (mb := store32 ma (a + 4) (st_value m p)).
  assert (same_outside m mb a (a + 12)) as Hb by (apply same_outside_32; [done|lia|lia]).
  destruct (symbol_ext m mb p) as (_ & -> & -> & _); [intros c Hr; apply Hb; lia|].
  rewrite (u32_small (debug_syms_count d + 1)) by lia. eexists. split; [done|]. split; [unfold mb, ma, store32; auto with rasta|].
  apply row_written; [apply u32_range|by apply load32_range|apply u32_range].
Qed.

Lemma table_row_frame m m' d lo hi c : same_outside m m' lo hi ->
  sym_entry d c + 12 <= lo \/ hi <= sym_entry d c -> table_row m' d c = table_row m d c.
Proof. intros Hs Hd. unfold table_row. by rewrite !(same_outside_load32 m m' lo hi) by (done || lia). Qed.

(** The loop appends the rows of the kept symbols to the table. *)
Lemma copy_syms_ok n : forall m d p, byte_mem m -> 0 <= debug_syms_count d ->
  debug_syms_count d + Z.of_nat n < 2 ^ 32 ->
  (p + 16 * Z.of_nat n <= sym_entry d (debug_syms_count d) \/
   sym_entry d (debug_syms_count d + Z.of_nat n) <= p) ->
  let rows := map (sym_row m (debug_strings d)) (kept_symbols m (symbols_at p n)) in
  let count := debug_syms_count d + Z.of_nat (length rows) in
  exists m', copy_syms n m d p = (m', with_count d count) /\ (length rows <= n)%nat /\
    map (fun i => table_row m' d (debug_syms_count d + Z.of_nat i)) (seq 0 (length rows)) = rows /\
    same_outside m m' (sym_entry d (debug_syms_count d)) (sym_entry d count).
Proof.
  induction n as [|n IH]; intros m d p Hm H0 Hc Hd.
  { cbn. exists m. rewrite Z.add_0_r. split; [by destruct d|]. split; [lia|]. done. }
  rewrite symbols_at_S. unfold kept_symbols. cbn [List.filter].
  assert (sym_entry d (debug_syms_count d + Z.of_nat (S n)) = sym_entry d (debug_syms_count d) + 12 * Z.of_nat (S n))
    as Hse by (unfold sym_entry, sizeof_debug_sym; lia).
  destruct (is_code_or_data m p) eqn:Ek; cbn zeta.
  - destruct (copy_sym_step n m d p Hm Ek) as (m1 & -> & Hm1 & Hrow & Hs1); [lia|lia|].
    set (d1 := with_count d (debug_syms_count d + 1)).
    assert (sym_entry d1 (debug_syms_count d1) = sym_entry d (debug_syms_count d) + 12) as He1
      by (unfold d1, sym_entry, sizeof_debug_sym; cbn; lia).
    destruct (IH m1 d1 (p + 16)) as (m' & E & Hl & Hr & Hs); [done|cbn; lia|cbn; lia| |].
    { rewrite He1. replace (sym_entry d1 (debug_syms_count d1 + Z.of_nat n))
        with (sym_entry d (debug_syms_count d + Z.of_nat (S n)))
        by (unfold d1, sym_entry, sizeof_debug_sym; cbn; lia). lia. }
    assert (map (sym_row m1 (debug_strings d1)) (kept_symbols m1 (symbols_at (p + 16) n))
            = map (sym_row m (debug_strings d)) (kept_symbols m (symbols_at (p + 16) n))) as Hrows.
    { apply sym_rows_ext. intros c Hcr. apply Hs1. lia. }
    rewrite Hrows in Hl, Hr, Hs, E. clear Hrows. unfold kept_symbols in *. cbn [map length].
    set (rows := map (sym_row m (debug_strings d)) (List.filter (is_code_or_data m) (symbols_at (p + 16) n))) in *.
    rewrite He1 in Hs. exists m'. split; [|split; [lia|split]].
    + rewrite E. unfold d1, with_count. cbn. do 2 f_equal. lia.
    + cbn [seq map]. rewrite <- seq_shift, map_map. f_equal.
      * rewrite Z.add_0_r, <- Hrow. eapply table_row_frame; [exact Hs|]. left. lia.
      * rewrite <- Hr at 2. apply map_ext. intros i. unfold table_row, sym_entry. cbn.
        by replace (debug_syms_count d + Z.of_nat (S i)) with (debug_syms_count d + 1 + Z.of_nat i) by lia.
    + assert (sym_entry d (debug_syms_count d + Z.of_nat (S (length rows))) =
              sym_entry d1 (debug_syms_count d1 + Z.of_nat (length rows))) as ->
        by (unfold d1, sym_entry, sizeof_debug_sym; cbn; lia).
      assert (sym_entry d1 (debug_syms_count d1 + Z.of_nat (length rows))
              = sym_entry d (debug_syms_count d) + 12 + 12 * Z.of_nat (length rows)) as He2
        by (unfold d1, sym_entry, sizeof_debug_sym; cbn; lia).
      apply (same_outside_trans m m1); (eapply same_outside_widen; [eassumption|lia|lia]).
  - cbn [copy_syms]. rewrite Ek. unfold sizeof_elf32_sym.
    destruct (IH m d (p + 16) Hm H0 ltac:(lia)) as (m' & E & Hl & Hr & Hs).
    { replace (sym_entry d (debug_syms_count d + Z.of_nat n))
        with (sym_entry d (debug_syms_count d + Z.of_nat (S n)) - 12) by (unfold sym_entry, sizeof_debug_sym; lia). lia. }
    exists m'. split; [exact E|]. split; [unfold kept_symbols in Hl; lia|]. by split.
Qed.

(** ** The lookup *)
Definition row_covers (address : Z) (r : Z * Z * Z) : bool :=
  (r.1.2 <=? address) && (address <? r.2).

Lemma lookup_from_rows m d address n : forall i,
  lookup_from n m d i address =
  match List.find (row_covers address) (map (fun j => table_row m d (i + Z.of_nat j)) (seq 0 n)) with
  | Some r => r.1.1
  | None => 0
  end.
Proof.
  induction n as [|n IH]; intros i; [done|]. cbn [lookup_from seq map List.find]. rewrite Z.add_0_r.
  change (row_covers address (table_row m d i)) with
    ((load32 m (sym_entry d i + 4) <=? address) && (address <? load32 m (sym_entry d i + 8))).
  destruct (_ && _); [done|]. rewrite IH.
  rewrite <- seq_shift, map_map.
  assert (map (fun j => table_row m d (i + 1 + Z.of_nat j)) (seq 0 n)
          = map (fun j => table_row m d (i + Z.of_nat (S j))) (seq 0 n)) as ->; [|done].
  apply map_ext. intros j. f_equal. lia.
Qed.

Lemma find_sym_row m strings address l :
  List.find (row_covers address) (map (sym_row m strings) l)
  = option_map (sym_row m strings) (List.find (sym_covers m address) l).
Proof.
  induction l as [|p l IH]; [done|]. cbn [map List.find].
  change (row_covers address (sym_row m strings p)) with (sym_covers m address p).
  destruct (sym_covers m address p); [done|exact IH].
Qed.

(** A table whose rows are those of the kept symbols. *)
Lemma lookup_rows m0 m d l strings address : debug_syms_count d = Z.of_nat (length (kept_symbols m0 l)) ->
  map (fun i => table_row m d (0 + Z.of_nat i)) (seq 0 (length (kept_symbols m0 l)))
    = map (sym_row m0 strings) (kept_symbols m0 l) ->
  lookup_function m d address =
  match symbol_of m0 l address with Some p => u32 (strings + Kdebug.st_name m0 p) | None => 0 end.
Proof.
  intros Hc Hr. unfold lookup_function. rewrite Hc, Nat2Z.id, lookup_from_rows, Hr, find_sym_row.
  unfold symbol_of. by destruct (List.find _ _).
Qed.

(** ** Loading *)
Section load.
Context {E : Type} `{KernelAlloc E}.

(** The symbol table's header at [sym_hdr] and the names' at [strtab_hdr]: they and their
    sections lie outside the allocator's area. *)
Record sections_ok (m : mem) (sym_hdr strtab_hdr : Z) : Prop := {
  so_sym_hdr a : sym_hdr <= a < sym_hdr + 40 -> ~ ka_arena a;
  so_strtab_hdr a : strtab_hdr <= a < strtab_hdr + 40 -> ~ ka_arena a;
  so_syms a : sh_addr m sym_hdr <= a < sh_addr m sym_hdr + sh_size m sym_hdr -> ~ ka_arena a;
  so_strings a : sh_addr m strtab_hdr <= a < sh_addr m strtab_hdr + sh_size m strtab_hdr -> ~ ka_arena a
}.

Lemma shdr_ext m m' h : (forall a, h <= a < h + 40 -> load8 m' a = load8 m a) ->
  sh_addr m' h = sh_addr m h /\ sh_size m' h = sh_size m h.
Proof. intros Hs. unfold sh_addr, sh_size. by rewrite !(load32_ext m m') by (intros; apply Hs; lia). Qed.

(** The first half: the names are copied into a new block. *)
Lemma strings_copied (e : E) m src n strings e1 m1 : byte_mem m -> 0 <= n ->
  (forall a, src <= a < src + n -> ~ ka_arena a) -> ka_malloc e m n = Ret (strings, e1, m1) ->
  let m2 := memcpy m1 strings src n in
  byte_mem m2 /\ kept e m m2 /\ (forall a, ka_live e a -> ka_live e1 a) /\
  (forall a, strings <= a < strings + n -> ka_live e1 a) /\
  load_bytes m2 strings (Z.to_nat n) = load_bytes m src (Z.to_nat n).
Proof.
  intros Hm Hn Hsrc E1 m2. destruct (ka_malloc_spec _ _ _ _ _ _ Hn E1) as (_ & _ & Hf1 & Hl1 & Hk1 & Hbm1).
  specialize (Hbm1 Hm). destruct (memcpy_load8 m1 strings src n Hbm1 Hn) as [Hbm2 _].
  destruct (memcpy_spec m1 strings src n Hbm1 Hn) as [Hb2 Hso2].
  split; [done|]. split; [eapply (kept_trans e e m m1); [done|exact Hk1|by eapply kept_fresh]|].
  split; [intros a Ha; apply Hl1; by left|]. split; [intros a Ha; apply Hl1; by right|].
  unfold m2. rewrite Hb2. apply load_bytes_ext. intros b Hb. apply Hk1. right. apply Hsrc. lia.
Qed.

(** Two ranges without a common address. *)
Lemma ranges_apart p n b k : 0 <= n -> 0 <= k -> (forall a, b <= a < b + k -> ~ p <= a < p + n) ->
  p + n <= b \/ b + k <= p \/ n = 0 \/ k = 0.
Proof.
  intros Hn Hk Hd. destruct (Z.lt_ge_cases b (p + n)); [|by left]. destruct (Z.lt_ge_cases p (b + k)); [|by right; left].
  destruct (Z.eq_dec n 0); [by do 2 right; left|]. destruct (Z.eq_dec k 0); [by do 3 right|].
  exfalso. apply (Hd (Z.max p b)); lia.
Qed.

(** The second half: the rows of the table in a new block. *)
Lemma rows_copied (e : E) m p size syms e1 m1 d : byte_mem m -> 0 <= size < 2 ^ 32 ->
  (forall a, p <= a < p + size -> ~ ka_arena a) -> debug_syms_count d = 0 -> debug_syms d = syms ->
  ka_malloc e m (u32 (size / 16 * 12)) = Ret (syms, e1, m1) ->
  let kept_syms := kept_symbols m (symbols_at p (Z.to_nat (size / 16))) in
  exists m2, copy_syms (Z.to_nat (size / 16)) m1 d p = (m2, with_count d (Z.of_nat (length kept_syms))) /\
    kept e m m2 /\
    map (fun i => table_row m2 d (0 + Z.of_nat i)) (seq 0 (length kept_syms)) = map (sym_row m (debug_strings d)) kept_syms.
Proof.
  intros Hm Hsz Hsrc Hd0 Hds E1 ks. pose proof (Z.mul_div_le size 16). pose proof (Z.div_pos size 16).
  assert (size / 16 <= 2 ^ 28) by (apply Z.div_le_upper_bound; lia). rewrite u32_small in E1 by lia.
  destruct (ka_malloc_spec _ _ (size / 16 * 12) _ _ _ ltac:(lia) E1) as (_ & _ & Hf1 & _ & Hk1 & Hbm1). specialize (Hbm1 Hm).
  set (n := Z.to_nat (size / 16)) in *.
  assert (map (sym_row m1 (debug_strings d)) (kept_symbols m1 (symbols_at p n)) = map (sym_row m (debug_strings d)) ks) as Hrows.
  { apply sym_rows_ext. intros c Hc. apply Hk1. right. apply Hsrc. lia. }
  pose proof (copy_syms_ok n m1 d p Hbm1) as Hcs. cbv zeta in Hcs. rewrite Hd0, Hrows, length_map in Hcs.
  assert (sym_entry d 0 = syms) as Hbase by (unfold sym_entry, sizeof_debug_sym; lia).
  destruct Hcs as (m2 & E2 & Hl & Hr & Hs); [lia|lia| |].
  { rewrite Hbase. replace (sym_entry d (0 + Z.of_nat n)) with (syms + 12 * Z.of_nat n)
      by (unfold sym_entry, sizeof_debug_sym; lia).
    destruct (ranges_apart p (16 * Z.of_nat n) syms (12 * Z.of_nat n)) as [?|[?|[?|?]]]; try lia.
    intros a Ha Hp. apply (Hsrc a); [lia|]. apply Hf1. lia. }
  exists m2. split; [done|]. split; [|done].
  apply (kept_trans e e m m1); [done|exact Hk1|]. eapply kept_fresh; [exact Hf1|].
  eapply same_outside_widen; [exact Hs|lia|]. unfold sym_entry, sizeof_debug_sym. lia.
Qed.

Lemma load_symbols_ok fuel strtab d (e : E) m mi sym_hdr strtab_hdr :
  byte_mem m -> debug_syms_count d = 0 ->
  find_sections (Z.to_nat (mb_sym2_num m mi)) fuel m strtab
    (sh_addr m (mb_sym2_addr m mi + sizeof_shdr * mb_sym2_shndx m mi)) (mb_sym2_addr m mi) 0 0
    = Ret (sym_hdr, strtab_hdr) ->
  sym_hdr <> 0 -> strtab_hdr <> 0 -> sections_ok m sym_hdr strtab_hdr ->
  let syms := symbols_at (sh_addr m sym_hdr) (Z.to_nat (sh_size m sym_hdr / 16)) in
  match load_symbols fuel strtab d e m mi with
  | Fault f => exists e m n, ka_malloc (E := E) e m n = Fault f
  | Ret (d', e', m') =>
      kept e m m' /\ debug_syms_count d' = Z.of_nat (length (kept_symbols m syms)) /\
      map (fun i => table_row m' d' (0 + Z.of_nat i)) (seq 0 (length (kept_symbols m syms)))
        = map (sym_row m (debug_strings d')) (kept_symbols m syms) /\
      load_bytes m' (debug_strings d') (Z.to_nat (sh_size m strtab_hdr))
        = load_bytes m (sh_addr m strtab_hdr) (Z.to_nat (sh_size m strtab_hdr))
  end.
Proof.
  intros Hm Hd0 Hfind Hs Ht [Hs1 Ht1 Hs2 Ht2] syms. unfold load_symbols. rewrite Hfind. cbn [mbind outcome_bind].
  rewrite !nz_true by done. cbn [andb].
  pose proof (load32_range m (strtab_hdr + 20) Hm) as Hr1. fold (sh_size m strtab_hdr) in Hr1.
  pose proof (load32_range m (sym_hdr + 20) Hm) as Hr2. fold (sh_size m sym_hdr) in Hr2.
  destruct (ka_malloc e m (sh_size m strtab_hdr)) as [[[strings e1] m1]|f] eqn:E1; [|by eexists _, _, _].
  cbn [mbind outcome_bind].
  destruct (shdr_ext m m1 strtab_hdr) as [-> ->].
  { destruct (ka_malloc_spec _ _ _ _ _ _ (proj1 Hr1) E1) as (_ & _ & _ & _ & Hk1 & _). intros a Ha. apply Hk1. auto. }
  destruct (strings_copied e m _ _ strings e1 m1 Hm (proj1 Hr1) Ht2 E1) as (Hm2 & Hk2 & Hlive & Hls & Hb2).
  set (m2 := memcpy m1 strings _ _) in *. clearbody m2.
  destruct (shdr_ext m m2 sym_hdr) as [Ha2 Hz2]; [intros a Ha; apply Hk2; auto|]. rewrite Hz2.
  unfold sizeof_elf32_sym, sizeof_debug_sym.
  destruct (ka_malloc e1 m2 (u32 (sh_size m sym_hdr / 16 * 12))) as [[[st e2] m3]|f] eqn:E2; [|by eexists _, _, _].
  cbn [mbind outcome_bind].
  destruct (ka_malloc_spec _ _ _ _ _ _ (proj1 (u32_range _)) E2) as (_ & _ & _ & _ & Hk3 & _).
  destruct (shdr_ext m2 m3 sym_hdr) as [-> _]; [intros a Ha; apply Hk3; auto|]. rewrite Ha2.
  destruct (rows_copied e1 m2 (sh_addr m sym_hdr) (sh_size m sym_hdr) st e2 m3
              (mkKdebug (debug_syms_count d) st strings (tsc_freq d) (tsc_start d)) Hm2 Hr2 Hs2 Hd0 eq_refl E2)
    as (m4 & -> & Hk4 & Hrows). cbn [debug_strings] in Hrows. fold syms in Hrows |- *.
  assert (map (sym_row m2 strings) (kept_symbols m2 syms) = map (sym_row m strings) (kept_symbols m syms)) as Hsame.
  { apply sym_rows_ext. pose proof (Z.mul_div_le (sh_size m sym_hdr) 16). pose proof (Z.div_pos (sh_size m sym_hdr) 16).
    intros c Hc. apply Hk2. right. apply Hs2. lia. }
  assert (length (kept_symbols m2 syms) = length (kept_symbols m syms)) as Hlen
    by (rewrite <- (length_map (sym_row m2 strings)), Hsame; apply length_map).
  cbn [debug_syms_count debug_strings with_count]. rewrite <- Hlen, <- Hsame.
  split; [by apply (kept_trans e e1 m m2)|]. split; [done|]. split; [exact Hrows|].
  rewrite <- Hb2. apply load_bytes_ext. intros b Hb. apply Hk4. left. apply Hls. lia.
Qed.
End load.

Lemma str_at_shift m m' p q s : (forall i, 0 <= i <= Z.of_nat (length s) -> load8 m' (q + i) = load8 m (p + i)) ->
  str_at m p s -> str_at m' q s.
Proof.
  intros Hi [Hb Hc Hn]. split; [|done|].
  - rewrite <- Hb at 2. apply load_bytes_shift. intros i Hr. apply Hi. lia.
  - rewrite Hi by lia. done.
Qed.

(** The headers [find_sections] settles on are headers of the table: one of type [SHT_SYMTAB], and
    one of another type whose name compares equal to [".strtab"]. *)
Definition in_table (hdr : Z) (n : nat) (x : Z) : Prop := exists i, (i < n)%nat /\ x = hdr + sizeof_shdr * Z.of_nat i.
Lemma in_table_head hdr n : in_table hdr (S n) hdr.
Proof. exists 0%nat. lia. Qed.
Lemma in_table_tail hdr n x : in_table (hdr + sizeof_shdr) n x -> in_table hdr (S n) x.
Proof. intros (i & Hi & ->). exists (S i). lia. Qed.

Lemma find_sections_found fuel m strtab names : forall n hdr sym0 str0 sym_hdr strtab_hdr,
  find_sections n fuel m strtab names hdr sym0 str0 = Ret (sym_hdr, strtab_hdr) ->
  (sym_hdr = sym0 \/ in_table hdr n sym_hdr /\ load32 m (sym_hdr + 4) = SHT_SYMTAB) /\
  (strtab_hdr = str0 \/ in_table hdr n strtab_hdr /\ load32 m (strtab_hdr + 4) <> SHT_SYMTAB /\
     strcmp fuel m (names + load32 m strtab_hdr) strtab = Ret 0).
Proof.
  induction n as [|n IH]; intros hdr sym0 str0 sym_hdr strtab_hdr E; cbn [find_sections] in E.
  { injection E as <- <-. split; by left. }
  pose proof (in_table_head hdr n) as H0. pose proof (in_table_tail hdr n) as Ht.
  destruct (load32 m (hdr + 4) =? SHT_SYMTAB) eqn:Et; breflect; cbn [mbind outcome_bind] in E.
  - destruct (nz hdr && nz str0); [injection E as <- <-; split; [by right|by left]|]. apply IH in E. naive_solver.
  - apply bind_ret_inv in E as (p & Ep & E). apply bind_ret_inv in Ep as (r & Er & Ep). injection Ep as <-. cbn beta iota in E.
    destruct (r =? 0) eqn:E0; breflect; [subst r|];
      (destruct (nz sym0 && nz _); [injection E as <- <-; split; [by left|]; naive_solver|]; apply IH in E; naive_solver).
Qed.

(** ** Properties *)

(** C32: the kernel's symbol table refines the boot loader's symbol section. When the two
    sections are found and lie outside the allocator's area, [load_symbols] fails only if
    an allocation does; memory in use or outside the allocator's area is untouched; and
    [lookup_function] then answers, for every address, the name of the first function or
    object of the section, in its order, whose bounds contain the address, and [NULL] when
    there is none. The name it answers is a copy of the symbol's name. *)
Theorem load_symbols_spec {E : Type} `{KernelAlloc E} (fuel : nat) (strtab : Z) (d : kdebug) (e : E) (m : mem)
    (mi sym_hdr strtab_hdr : Z) (Hm : byte_mem m) (Hd : debug_syms_count d = 0)
    (Hfind : find_sections (Z.to_nat (mb_sym2_num m mi)) fuel m strtab
       (sh_addr m (mb_sym2_addr m mi + sizeof_shdr * mb_sym2_shndx m mi)) (mb_sym2_addr m mi) 0 0
       = Ret (sym_hdr, strtab_hdr))
    (Hs : sym_hdr <> 0) (Ht : strtab_hdr <> 0) (Hok : sections_ok m sym_hdr strtab_hdr) :
  let syms := symbols_at (sh_addr m sym_hdr) (Z.to_nat (sh_size m sym_hdr / 16)) in
  match load_symbols fuel strtab d e m mi with
  | Fault f => exists e m n, ka_malloc (E := E) e m n = Fault f
  | Ret (d', e', m') =>
      kept e m m' /\
      forall address,
        match symbol_of m syms address with
        | None => lookup_function m' d' address = 0
        | Some p => exists q, lookup_function m' d' address = u32 q /\ q = debug_strings d' + Kdebug.st_name m p /\
            forall s, str_at m (sh_addr m strtab_hdr + Kdebug.st_name m p) s ->
              Kdebug.st_name m p + Z.of_nat (length s) < sh_size m strtab_hdr -> str_at m' q s
        end
  end.
Proof.
  intros syms. pose proof (load_symbols_ok fuel strtab d e m mi sym_hdr strtab_hdr Hm Hd Hfind Hs Ht Hok) as Hl.
  cbv zeta in Hl. fold syms in Hl. destruct (load_symbols _ _ _ _ _ _) as [[[d' e'] m']|f]; [|done].
  destruct Hl as (Hk & Hc & Hrows & Hb). split; [done|]. intros address.
  rewrite (lookup_rows m m' d' syms (debug_strings d') address Hc Hrows).
  destruct (symbol_of m syms address) as [p|]; [|done]. eexists. split; [done|]. split; [done|].
  intros s Hstr Hlen. pose proof (load32_range m p Hm) as Hp. fold (Kdebug.st_name m p) in Hp.
  apply (str_at_shift m m' (sh_addr m strtab_hdr + Kdebug.st_name m p)); [|done]. intros i Hi.
  assert (forall a, 0 <= a < sh_size m strtab_hdr ->
    load8 m' (debug_strings d' + a) = load8 m (sh_addr m strtab_hdr + a)) as Hbytes.
  { intros a Ha. apply (f_equal (fun l => l !! Z.to_nat a)) in Hb.
    rewrite !load_bytes_lookup in Hb by lia. rewrite Z2Nat.id in Hb by lia. by injection Hb. }
  rewrite <- !Z.add_assoc. apply Hbytes. lia.
Qed.

(** Three headers at 0x200 (section names at 0x400, two symbols at 0x500, names at 0x600),
    the boot record at 0x100 and the literal [".strtab"] at 0x700. *)
Definition syms_sample : mem :=
  let w m a v := store32 m a v in
  let m := w (w (w ∅ 0x11C 3) 0x124 0x200) 0x128 0 in
  let m := w (w (w m 0x204 3) 0x20C 0x400) 0x214 9 in
  let m := w (w (w m 0x22C 2) 0x234 0x500) 0x23C 32 in
  let m := w (w (w (w m 0x250 1) 0x254 3) 0x25C 0x600) 0x264 6 in
  let m := store_bytes m 0x400 [0; 46; 115; 116; 114; 116; 97; 98; 0] in
  let m := store8 (w (w (w m 0x500 1) 0x504 0x1000) 0x508 16) 0x50C 0x12 in
  let m := store8 (w (w (w m 0x510 3) 0x514 0x1008) 0x518 256) 0x51C 0x11 in
  let m := store_bytes m 0x600 [0; 97; 0; 98; 99; 0] in
  store_bytes m 0x700 [46; 115; 116; 114; 116; 97; 98; 0].

Lemma syms_sample_byte : byte_mem syms_sample.
Proof. unfold syms_sample, store32. auto 60 with rasta. Qed.

Lemma syms_sample_loads :
  is_ret (load_symbols 16 0x700 kdebug_zero 0x10000 syms_sample 0x100) = true.
Proof. vm_compute. reflexivity. Qed.

Lemma syms_sample_found :
  find_sections (Z.to_nat (mb_sym2_num syms_sample 0x100)) 16 syms_sample 0x700
    (sh_addr syms_sample (mb_sym2_addr syms_sample 0x100 + sizeof_shdr * mb_sym2_shndx syms_sample 0x100))
    (mb_sym2_addr syms_sample 0x100) 0 0 = Ret (0x228, 0x250).
Proof. vm_compute. reflexivity. Qed.

Lemma syms_sample_sections : sections_ok (E := Z) syms_sample 0x228 0x250.
Proof.
  assert (sh_addr syms_sample 0x228 = 0x500) as H1 by (vm_compute; reflexivity).
  assert (sh_size syms_sample 0x228 = 32) as H2 by (vm_compute; reflexivity).
  assert (sh_addr syms_sample 0x250 = 0x600) as H3 by (vm_compute; reflexivity).
  assert (sh_size syms_sample 0x250 = 6) as H4 by (vm_compute; reflexivity).
  split; intros a; rewrite ?H1, ?H2, ?H3, ?H4; cbn [ka_arena bump_alloc]; lia.
Qed.

Lemma load_symbols_spec_witness : exists d' e' m',
  load_symbols 16 0x700 kdebug_zero 0x10000 syms_sample 0x100 = Ret (d', e', m') /\
  (exists q, lookup_function m' d' 0x1009 = u32 q /\ str_at m' q [97]) /\
  (exists q, lookup_function m' d' 0x1010 = u32 q /\ str_at m' q [98; 99]) /\
  lookup_function m' d' 0x2000 = 0.
Proof.
  pose proof (load_symbols_spec 16 0x700 kdebug_zero 0x10000 syms_sample 0x100 0x228 0x250
                syms_sample_byte eq_refl syms_sample_found ltac:(discriminate) ltac:(discriminate)
                syms_sample_sections) as H.
  cbv zeta in H.
  pose proof syms_sample_loads as Hret.
  destruct (load_symbols 16 0x700 kdebug_zero 0x10000 syms_sample 0x100) as [[[d' e'] m']|f]; [|discriminate Hret].
  destruct H as [_ H]. exists d', e', m'. split; [reflexivity|].
  pose proof (H 0x1009) as H1. pose proof (H 0x1010) as H2. pose proof (H 0x2000) as H3.
  replace (symbol_of _ _ 0x1009) with (Some 0x500) in H1 by (vm_compute; reflexivity).
  replace (symbol_of _ _ 0x1010) with (Some 0x510) in H2 by (vm_compute; reflexivity).
  replace (symbol_of _ _ 0x2000) with (@None Z) in H3 by (vm_compute; reflexivity).
  destruct H1 as (q1 & E1 & _ & Hs1). destruct H2 as (q2 & E2 & _ & Hs2).
  split; [exists q1; split; [exact E1|apply Hs1; [|vm_compute; reflexivity]]|].
  { split; [vm_compute; reflexivity| |vm_compute; reflexivity]. repeat constructor. }
  split; [exists q2; split; [exact E2|apply Hs2; [|vm_compute; reflexivity]]|exact H3].
  split; [vm_compute; reflexivity| |vm_compute; reflexivity]. repeat constructor.
Defined.
