(* ===== verification/Runtime.v ===== *)
(** The user side of the system: the runtime library ([userland/runtime]), the requests of
    [common/port.c], the logger ([userland/logger/logger.c]) and the init program
    ([userland/init/init.c]). A program is a computation over the state [S] of the system;
    a system call that does not come back ([exit], a successful [exec]) ends it. The
    client stubs are generated code: they are parameters of the functions that call them,
    answering the stub's result code and its out parameters. *)
From S2P Require Import Prelude Util Mem Str Pmm Kdebug Crc32.

(** ** Programs *)
Section programs.
Context {S : Type}.

(** [None]: the program has ended. *)
Definition prog (A : Type) : Type := S -> outcome (option A * S).
Definition pret {A} (a : A) : prog A := fun s => Ret (Some a, s).
Definition pfault {A} (f : fault) : prog A := fun _ => Fault f.
Definition pbind {A B} (p : prog A) (k : A -> prog B) : prog B := fun s =>
  '(r, s) ← p s;
  match r with Some a => k a s | None => Ret (None, s) end.
Definition passert (b : bool) : prog unit := if b then pret tt else pfault FAssert.
End programs.
Arguments prog S A : clear implicits.

Declare Scope prog_scope.
Delimit Scope prog_scope with prog.
Notation "x ⇐ p ; k" := (pbind p (fun x => k))
  (at level 20, p at level 100, k at level 200, right associativity) : prog_scope.
#[local] Open Scope prog_scope.

Definition SYSCALL_EXIT : Z := 0.
Definition SYSCALL_PORTOPEN : Z := 1.
Definition SYSCALL_MSGWAIT : Z := 4.
Definition SYSCALL_MSGPEEK : Z := 5.
Definition SYSCALL_YIELD : Z := 6.
Definition SYSCALL_FORK : Z := 7.
Definition SYSCALL_SLEEP : Z := 9.
Definition SYSCALL_EXEC : Z := 11.
Definition SYSCALL_MMAP : Z := 13.
Definition SYSCALL_MUNMAP : Z := 14.
Definition SYSCALL_HWPORTOPEN : Z := 15.

Definition PROT_READ : Z := 1.
Definition PROT_WRITE : Z := 2.
Definition O_RDONLY : Z := 1.
Definition RPC_OK : Z := 0.
Definition RPC_FAIL_SEND : Z := 1.
Definition RPC_FAIL_RECV : Z := 2.

(** The static variables of [runtime.c]. *)
Record rt : Type := mkRt { ack_port : Z; program_break : Z }.
Definition rt_start : rt := mkRt 0 0.

Section runtime.
Context {S : Type}.
(** [common/syscall.asm]: number, then the five argument registers. *)
Context (syscall : Z -> Z -> Z -> Z -> Z -> Z -> prog S Z).

(** *** [common/port.c] *)
Definition msgwait (port : Z) : prog S unit :=
  _ ⇐ syscall SYSCALL_MSGWAIT port 0 0 0 0; pret tt.
Definition port_open (port_number : Z) : prog S Z :=
  result ⇐ syscall SYSCALL_PORTOPEN (u32 port_number) 0 0 0 0; pret (s32 result).
Definition msgpeek (port : Z) : prog S bool :=
  ret ⇐ syscall SYSCALL_MSGPEEK port 0 0 0 0; pret (nz ret).

(** *** [runtime.c] *)
Definition yield : prog S unit := _ ⇐ syscall SYSCALL_YIELD 0 0 0 0 0; pret tt.
Definition fork (r : rt) : prog S (Z * rt) :=
  pid ⇐ syscall SYSCALL_FORK 0 0 0 0 0;
  if pid =? 0 then
    p ⇐ port_open (-1); pret (s32 pid, mkRt p (program_break r))
  else pret (s32 pid, r).
Definition sleep (ms : Z) : prog S unit := _ ⇐ syscall SYSCALL_SLEEP ms 0 0 0 0; pret tt.
Definition exit : prog S unit := _ ⇐ syscall SYSCALL_EXIT 0 0 0 0 0; pret tt.
(** A system call that comes back has failed. *)
Definition exec {A} (filename : Z) : prog S A := _ ⇐ syscall SYSCALL_EXEC filename 0 0 0 0; pfault FPanic.
Definition mmap (addr size flags : Z) : prog S Z := syscall SYSCALL_MMAP addr size flags 0 0.
Definition munmap (addr : Z) : prog S Z :=
  result ⇐ syscall SYSCALL_MUNMAP addr 0 0 0 0; pret (s32 result).
Definition hwportopen (port : Z) : prog S Z :=
  ret ⇐ syscall SYSCALL_HWPORTOPEN (u32 port) 0 0 0 0; pret (s32 ret).

(** [sbrk]: [_END_] is the end of the program's image; [incr] a signed number. *)
Definition sbrk (_END_ : Z) (r : rt) (incr : Z) : prog S (Z * rt) :=
  let brk := if nz (program_break r) then program_break r else ALIGN _END_ 4096 in
  let r := mkRt (ack_port r) brk in
  if incr =? 0 then pret (brk, r)
  else if incr <? 0 then pfault FPanic
  else
    let incr := s32 (ALIGN (u32 incr) 4096) in
    result ⇐ mmap brk (u32 incr) (Z.lor PROT_READ PROT_WRITE);
    _ ⇐ passert (nz result);
    pret (result, mkRt (ack_port r) (u32 (brk + incr))).

Definition runtime_entry (main : rt -> prog S unit) : prog S unit :=
  p ⇐ port_open (-1);
  _ ⇐ main (mkRt p 0);
  exit.

(** The macro [handle_rpc_ret]. *)
Definition handle_rpc_ret (ret : Z) : prog S unit :=
  if (ret =? RPC_FAIL_SEND) || (ret =? RPC_FAIL_RECV) then pfault FPanic else pret tt.

(** *** The wrappers of the stubs: [open.c], [read.c], [close.c], [get_task_info.c]

    A stub answers its result code and what it stored in [ret]; 0 stands for a variable it
    has not stored to. *)
Definition open (vfs_open : Z -> Z -> Z -> prog S (Z * Z)) (filename mode perm : Z) : prog S Z :=
  _ ⇐ passert (nz filename);
  _ ⇐ passert (mode =? O_RDONLY);
  x ⇐ vfs_open filename mode perm;
  _ ⇐ handle_rpc_ret (fst x);
  pret (snd x).

(** [vfs_read] stores the bytes read at [buffer]. *)
Definition read (vfs_read : Z -> Z -> Z -> prog S (Z * Z)) (fd buffer size : Z) : prog S Z :=
  if size =? 0 then pret 0
  else if fd =? -1 then pret (-1)
  else if buffer =? 0 then pret (-1)
  else
    x ⇐ vfs_read buffer fd size;
    _ ⇐ handle_rpc_ret (fst x);
    pret (snd x).

Definition close (vfs_close : Z -> prog S (Z * Z)) (fd : Z) : prog S Z :=
  if fd =? -1 then pret (-1)
  else
    x ⇐ vfs_close fd;
    _ ⇐ handle_rpc_ret (fst x);
    pret (snd x).

Definition sizeof_task_info : Z := 68.

(** The stub answers the result code, [ret], and the size stored in [buffer_size]. *)
Definition get_task_info (kernel_get_task_info : Z -> Z -> Z -> prog S (Z * Z * Z)) (pid buffer : Z) : prog S bool :=
  x ⇐ kernel_get_task_info pid buffer sizeof_task_info;
  let '(rpc_ret, ret, buffer_size) := x in
  pret (if negb (rpc_ret =? RPC_OK) then false
        else if nz ret then false
        else negb (buffer_size <? sizeof_task_info)).

(** [blk_read.c], [blk_read_sector.c]; the latter hands [ret], not [rpc_ret], to the check. *)
Definition INT_MAX : Z := 2147483647.
Definition blk_read (blkimpl_read : Z -> Z -> Z -> prog S (Z * Z)) (buffer size offset : Z) : prog S Z :=
  _ ⇐ passert (offset <? INT_MAX);
  x ⇐ blkimpl_read buffer size offset;
  _ ⇐ handle_rpc_ret (fst x);
  pret (snd x).
Definition blk_read_sector (blkimpl_read_sector : Z -> Z -> Z -> prog S (Z * Z)) (buffer size sector : Z) : prog S Z :=
  _ ⇐ passert (512 <=? size);
  x ⇐ blkimpl_read_sector buffer size sector;
  _ ⇐ handle_rpc_ret (snd x);
  pret (snd x).

Definition blk_sector_count (blkimpl_sector_count : prog S (Z * Z)) : prog S Z :=
  x ⇐ blkimpl_sector_count;
  _ ⇐ handle_rpc_ret (fst x);
  pret (u32 (snd x)).
Definition blk_total_size (blkimpl_total_size : prog S (Z * Z)) : prog S Z :=
  x ⇐ blkimpl_total_size;
  _ ⇐ handle_rpc_ret (fst x);
  pret (u64 (snd x)).

(** [reboot.c]: a oneway call to the kernel task; [abort] does the same. *)
Definition reboot (kernel_reboot : prog S Z) : prog S unit := _ ⇐ kernel_reboot; pret tt.
Definition abort (kernel_reboot : prog S Z) : prog S unit := reboot kernel_reboot.

(** *** [init.c] *)

(** The loop of [test_fat_read]: [memory] is the memory of the program, where [read] stores
    to the buffer. *)
Fixpoint read_crc (fuel : nat) (memory : S -> mem) (read_fd : prog S Z) (buffer crc : Z) : prog S Z :=
  match fuel with
  | O => pfault FFuel
  | Datatypes.S fuel =>
      read_bytes ⇐ read_fd;
      if read_bytes =? -1 then pfault FPanic
      else if read_bytes =? 0 then pret crc
      else fun s =>
        c ← crc_update crc (load_bytes (memory s) buffer (Z.to_nat read_bytes));
        read_crc fuel memory read_fd buffer c s
  end.

(** The checksum that is logged; [None] when the file could not be opened. *)
Definition test_fat_read (fuel : nat) (memory : S -> mem) (open_file : prog S Z)
    (read_file : Z -> Z -> Z -> prog S Z) (close_file : Z -> prog S Z) (buffer : Z) : prog S (option Z) :=
  fd ⇐ open_file;
  if negb (fd =? -1) then
    crc ⇐ read_crc fuel memory (read_file fd buffer 512) buffer crc_init;
    ret ⇐ close_file fd;
    _ ⇐ passert (ret =? 0);
    pret (Some (crc_finalize crc))
  else pret None.

(** [main] of the init program: the three servers, then the tests. The arguments are the
    addresses of the names of the programs. *)
Definition init_main (logger blk vfs : Z) (run_tests : rt -> prog S unit) (r : rt) : prog S unit :=
  x ⇐ fork r;
  if fst x =? 0 then exec logger
  else
    x ⇐ fork (snd x);
    if fst x =? 0 then exec blk
    else
      x ⇐ fork (snd x);
      if fst x =? 0 then exec vfs
      else run_tests (snd x).

(** *** [logger.c: main] *)
Definition LoggerPort : Z := 1.
Definition logger_main (rpc_dispatch : Z -> prog S unit) : prog S unit :=
  ret ⇐ port_open LoggerPort;
  if ret <? 0 then pfault FPanic else rpc_dispatch LoggerPort.
End runtime.

(** ** Logging *)

(** [debug_writen] and [debug_write]: bytes to port 0xE9. *)
Fixpoint debug_writen (count : nat) (m : mem) (str : Z) (port : list Z) : list Z :=
  match count with
  | O => port
  | S count => debug_writen count m (str + 1) (port ++ [load8 m str])
  end.
Fixpoint debug_write (fuel : nat) (m : mem) (str : Z) (port : list Z) : outcome (list Z) :=
  match fuel with
  | O => Fault FFuel
  | S fuel => if nz (load8 m str) then debug_write fuel m (str + 1) (port ++ [load8 m str]) else Ret port
  end.

(** ["[%s:%d] "] *)
Definition ulog_prefix : list Z := [91; 37; 115; 58; 37; 100; 93; 32].

(** [userland/runtime/log.c: __log], up to the call of the stub: the local array [buffer]
    of 128 bytes at an address of the stack. *)
Definition ulog (fuel : nat) (m : mem) (buffer file line : Z) (fmt : list Z) (args : list va_arg) : outcome mem :=
  basename ← strip_path fuel m file;
  '(m, _) ← snprintf m buffer 128 ulog_prefix [AStr (buffer_string fuel m basename); AInt line];
  len ← strlen fuel m buffer;
  '(m, _) ← vsnprintf m (buffer + len) (u32 (128 - len)) fmt args;
  Ret m.

(** ["[emergency log] "] *)
Definition emergency : list Z := [91; 101; 109; 101; 114; 103; 101; 110; 99; 121; 32; 108; 111; 103; 93; 32].

(** What is printed when the stub fails. *)
Definition ulog_fallback (fuel : nat) (m : mem) (rpc_ret buffer : Z) (port : list Z) : outcome (list Z) :=
  if rpc_ret =? RPC_OK then Ret port
  else port ← debug_write fuel m buffer (port ++ emergency); Ret (port ++ [10]).

(** ["[%s (%d)] "] *)
Definition logger_prefix : list Z := [91; 37; 115; 32; 40; 37; 100; 41; 93; 32].

(** [logger.c: handle_logger_trace]: [info] is what [get_task_info] answered, the pid and
    the name; [prefix] the local array of 96 bytes. *)
Definition handle_logger_trace (fuel : nat) (m : mem) (prefix : Z) (info : option (Z * list Z)) (msg : Z)
    (port : list Z) : outcome (mem * list Z) :=
  let port := port ++ replicate 7 32 in
  '(m, port) ← match info with
               | Some (pid, name) =>
                   '(m, _) ← snprintf m prefix 96 logger_prefix [AStr name; AInt pid];
                   port ← debug_write fuel m prefix port;
                   Ret (m, port)
               | None => Ret (m, port)
               end;
  port ← debug_write fuel m msg port;
  Ret (m, port ++ [10]).
