(* ===== verification/RuntimeClaims.v ===== *)
(** What the user programs may rely on: the growth of the heap area by [sbrk] on the
    kernel's [mmap], the checksum the init program computes, the start of the servers, and
    the bounds of the log buffers. *)
From S2P Require Import Prelude Util Mem Str StrSpec FormatSpec LogText Pmm Bitset Vmm VmmSpec Mmap VmmClaims MmapClaims Crc32 Multiboot Initrd InitrdClaims Kdebug KdebugClaims Runtime.

(** ** Log lines *)

(** ["[file:line] "] *)
Definition ulog_header (name : list Z) (line : Z) : list Z :=
  [91] ++ name ++ [58] ++ number_string 10 line ++ [93; 32].

Lemma ulog_prefix_text name line : text_of ulog_prefix [AStr name; AInt line] = Some (ulog_header name line).
Proof. unfold ulog_prefix. text_of_literal. unfold ulog_header. by rewrite <- ?app_assoc. Qed.

Lemma ulog_header_chars name line : Forall is_char name -> 0 <= line < 2 ^ 32 -> Forall is_char (ulog_header name line).
Proof. intros. unfold ulog_header. chars. Qed.

Lemma ulog_header_args name line : Forall is_char name -> 0 <= line < 2 ^ 32 -> Forall arg_ok [AStr name; AInt line].
Proof. intros Hn Hl. apply Forall_cons. split; [exact Hn|]. apply Forall_cons. split; [exact Hl|apply Forall_nil_2]. Qed.

Lemma number_string_length v : 0 <= v < 2 ^ 32 -> (length (number_string 10 v) <= 10)%nat.
Proof.
  intros Hv. unfold number_string. rewrite length_reverse, length_map.
  apply (digits_le_length 10 ltac:(lia) 9). cbn. lia.
Qed.

(** The text of [logger.c]. *)
Definition logger_header (name : list Z) (pid : Z) : list Z :=
  [91] ++ name ++ [32; 40] ++ number_string 10 pid ++ [41; 93; 32].

Lemma logger_prefix_text name pid : text_of logger_prefix [AStr name; AInt pid] = Some (logger_header name pid).
Proof. unfold logger_prefix. text_of_literal. unfold logger_header. by rewrite <- ?app_assoc. Qed.

Lemma debug_write_ok m : forall s p fuel port, str_at m p s -> (length s < fuel)%nat ->
  debug_write fuel m p port = Ret (port ++ s).
Proof.
  induction s as [|c s IH]; intros p fuel port Hs Hf; (destruct fuel as [|fuel]; [cbn in Hf; lia|]);
    cbn [debug_write].
  - apply str_at_nil in Hs. rewrite Hs. cbn. by rewrite app_nil_r.
  - apply str_at_cons in Hs as (-> & Hc & Hs). rewrite char_nz by done.
    rewrite IH by (done || (cbn in Hf; lia)). by rewrite <- app_assoc.
Qed.

Lemma load_bytes_same m m' lo hi p n : same_outside m m' lo hi ->
  p + Z.of_nat n <= lo \/ hi <= p -> load_bytes m' p n = load_bytes m p n.
Proof. intros Hs Hd. apply load_bytes_ext. intros b Hb. apply Hs. lia. Qed.

(** The logger's own array is large enough: the name of a task has at most 63 characters
    and a pid at most ten digits. *)
Lemma handle_logger_trace_ok fuel m prefix name pid msg s port :
  (length name <= 63)%nat -> Forall is_char name -> 0 <= pid < 2 ^ 32 -> (128 <= fuel)%nat ->
  str_at m msg s -> (length s < fuel)%nat -> msg + Z.of_nat (length s) < prefix \/ prefix + 96 <= msg ->
  exists m', handle_logger_trace fuel m prefix (Some (pid, name)) msg port =
    Ret (m', port ++ replicate 7 32 ++ logger_header name pid ++ s ++ [10]) /\
    same_outside m m' prefix (prefix + 96).
Proof.
  intros Hl Hn Hp Hf Hs Hsl Hd. unfold handle_logger_trace, snprintf.
  assert (Forall is_char (logger_header name pid)) as Hc by (unfold logger_header; chars).
  assert (length (logger_header name pid) <= 80)%nat as Hlen.
  { unfold logger_header. rewrite !length_app. cbn [length]. pose proof (number_string_length pid Hp). lia. }
  destruct (vsnprintf_spec m prefix 96 logger_prefix [AStr name; AInt pid] (logger_header name pid)
              (ulog_header_args name pid Hn Hp) ltac:(lia) (logger_prefix_text name pid) Hc)
    as (m' & E & Hfit & _). destruct Hfit as [Hpre Hout]; [lia|]. rewrite E. cbn [mbind outcome_bind].
  rewrite (debug_write_ok m' _ _ _ _ Hpre) by lia. cbn [mbind outcome_bind].
  assert (same_outside m m' prefix (prefix + 96)) as Ho by (eapply same_outside_widen; [exact Hout|lia|lia]).
  rewrite (debug_write_ok m' s); [|by eapply str_at_frame|done]. cbn [mbind outcome_bind].
  exists m'. split; [|done]. do 2 f_equal. by rewrite <- !app_assoc.
Qed.

(** ** Properties *)

Lemma user_log_text (fuel : nat) (m : mem) (buffer file p line : Z) (name fmt t : list Z) (args : list va_arg)
    (Hfuel : (128 <= fuel)%nat) (Hp : strip_path fuel m file = Ret p) (Hname : str_at m p name)
    (Hlen : (length name < fuel)%nat) (Hline : 0 <= line < 2 ^ 32) (Hargs : Forall arg_ok args)
    (Ht : text_of fmt args = Some t) (Hc : Forall is_char t)
    (Hh : (length (ulog_header name line) < 128)%nat) :
  let h := ulog_header name line in
  let total := Z.of_nat (length h + length t) in
  exists m', ulog fuel m buffer file line fmt args = Ret m' /\
    (total < 128 -> str_at m' buffer (h ++ t) /\ same_outside m m' buffer (buffer + 128)) /\
    (128 <= total -> load8 m' (buffer + total) = 0 /\
       (forall c, c < buffer \/ buffer + 128 <= c -> c <> buffer + total -> load8 m' c = load8 m c) /\
       load_bytes m' buffer 127 = take 127 (h ++ t)).
Proof.
  intros h total. unfold ulog, snprintf. rewrite Hp. cbn [mbind outcome_bind].
  rewrite (buffer_string_ok m name p fuel Hname Hlen).
  pose proof (sa_chars _ _ _ Hname) as Hnc. pose proof (ulog_header_chars name line Hnc Hline) as Hhc.
  destruct (vsnprintf_spec m buffer 128 ulog_prefix [AStr name; AInt line] h
              (ulog_header_args name line Hnc Hline) ltac:(lia) (ulog_prefix_text name line) Hhc)
    as (m1 & E1 & Hfit & _). fold h in Hh, Hhc. destruct Hfit as [Hs1 Ho1]; [lia|].
  rewrite E1. cbn [mbind outcome_bind]. rewrite (strlen_ok m1 buffer h) by (done || lia). cbn [mbind outcome_bind].
  rewrite u32_small by lia.
  destruct (vsnprintf_spec m1 (buffer + Z.of_nat (length h)) (128 - Z.of_nat (length h)) fmt args t Hargs
              ltac:(lia) Ht Hc) as (m2 & E2 & Hin & Hover).
  rewrite E2. cbn [mbind outcome_bind]. exists m2. split; [done|]. split.
  - intros Htot. destruct Hin as [Hs2 Ho2]; [lia|]. split.
    + apply str_at_app; [|done|done]. rewrite (load_bytes_same m1 m2 _ _ _ _ Ho2) by lia. apply (sa_bytes _ _ _ Hs1).
    + intros c Hcc. rewrite Ho2, Ho1 by lia. done.
  - intros Htot. destruct Hover as [-> _]; [lia|].
    replace (buffer + Z.of_nat (length h) + Z.of_nat (length t)) with (buffer + total) by lia.
    split; [by rewrite load8_store8, Z.eqb_refl|]. split.
    + intros c Hcc Hne. rewrite load8_store8, (proj2 (Z.eqb_neq _ _)) by lia.
      rewrite load8_store_bytes_out by (rewrite length_take; lia). apply Ho1. lia.
    + replace 127%nat with (length h + (127 - length h))%nat at 1 by lia. rewrite load_bytes_app.
      rewrite take_app_ge by lia. f_equal.
      * etransitivity; [apply load_bytes_ext|apply (sa_bytes _ _ _ Hs1)]. intros b Hb.
        rewrite load8_store8, (proj2 (Z.eqb_neq _ _)) by lia. by rewrite load8_store_bytes_out by lia.
      * etransitivity; [apply load_bytes_ext; intros b Hb;
          by rewrite load8_store8, (proj2 (Z.eqb_neq _ _)) by lia|].
        replace (Z.to_nat (128 - Z.of_nat (length h) - 1)) with (127 - length h)%nat by lia.
        apply load_store_bytes_eq; [|rewrite length_take; lia]. apply Forall_take.
        eapply Forall_impl; [exact Hc|]. unfold is_char, is_byte. intros; lia.
Qed.

(** The bytes of a header of 128 characters or more that [snprintf] leaves: 127 copied ones, then
    what was there. *)
Lemma long_header m m1 buffer h : Forall is_char h -> (128 <= length h)%nat ->
  m1 = store8 (store_bytes m buffer (take (Z.to_nat (128 - 1)) h)) (buffer + Z.of_nat (length h)) 0 ->
  (forall c, buffer + 127 <= c < buffer + Z.of_nat (length h) -> is_char (load8 m c)) ->
  str_at m1 buffer (load_bytes m1 buffer (length h)).
Proof.
  intros Hhc Hh Em1 Hbehind. split; rewrite ?length_load_bytes; [done| |subst m1; by rewrite load8_store8, Z.eqb_refl].
  replace (length h) with (127 + (length h - 127))%nat at 1 by lia. rewrite load_bytes_app. apply Forall_app. split.
  - assert (load_bytes m1 buffer 127 = take 127 h) as ->; [|by apply Forall_take].
    etransitivity; [|apply (load_store_bytes_eq m buffer (take 127 h) 127)].
    + apply load_bytes_ext. intros b Hb. subst m1. by rewrite load8_store8, (proj2 (Z.eqb_neq _ _)) by lia.
    + apply Forall_take. eapply Forall_impl; [exact Hhc|]. unfold is_char, is_byte. intros; lia.
    + rewrite length_take. lia.
  - apply Forall_lookup_2. intros i x Hx. pose proof (lookup_lt_Some _ _ _ Hx) as Hi. rewrite length_load_bytes in Hi.
    rewrite load_bytes_lookup in Hx by done. injection Hx as <-. subst m1.
    rewrite load8_store8, (proj2 (Z.eqb_neq _ _)) by lia. rewrite load8_store_bytes_out by (rewrite length_take; lia).
    apply Hbehind. lia.
Qed.

Lemma user_log_header (fuel : nat) (m : mem) (buffer file p line : Z) (name fmt t : list Z) (args : list va_arg) :
  let h := ulog_header name line in
  (length h < fuel)%nat -> strip_path fuel m file = Ret p -> str_at m p name -> (length name < fuel)%nat -> 0 <= line < 2 ^ 32 ->
  Forall arg_ok args -> text_of fmt args = Some t -> Forall is_char t ->
  (128 <= length h)%nat -> Z.of_nat (length h) < 2 ^ 31 ->
  (forall c, buffer + 127 <= c < buffer + Z.of_nat (length h) -> is_char (load8 m c)) ->
  exists m', ulog fuel m buffer file line fmt args = Ret m' /\ str_at m' (buffer + Z.of_nat (length h)) t.
Proof.
  intros h Hfuel Hp Hname Hlen Hline Hargs Ht Hc Hh Hsmall Hbehind. unfold ulog, snprintf. rewrite Hp. cbn [mbind outcome_bind].
  rewrite (buffer_string_ok m name p fuel Hname Hlen).
  pose proof (sa_chars _ _ _ Hname) as Hnc. pose proof (ulog_header_chars name line Hnc Hline) as Hhc. fold h in Hhc.
  destruct (vsnprintf_spec m buffer 128 ulog_prefix [AStr name; AInt line] h
              (ulog_header_args name line Hnc Hline) ltac:(lia) (ulog_prefix_text name line) Hhc)
    as (m1 & E1 & _ & Hover). rewrite E1. cbn [mbind outcome_bind]. destruct Hover as [Em1 _]; [lia|].
  pose proof (long_header m m1 buffer h Hhc Hh Em1 Hbehind) as Hs1.
  rewrite (strlen_ok m1 buffer _ _ Hs1) by (rewrite length_load_bytes; lia). rewrite length_load_bytes. cbn [mbind outcome_bind].
  destruct (vsnprintf_wrapped m1 (buffer + Z.of_nat (length h)) (u32 (128 - Z.of_nat (length h))) fmt args t Hargs) as (m2 & -> & Hs2 & _);
    [|done|done|by exists m2].
  replace (s32 (u32 (128 - Z.of_nat (length h)) - 1)) with (s32 (127 - Z.of_nat (length h))); [rewrite s32_small; lia|].
  rewrite <- (swrap_wrap 32 (127 - _)), <- (swrap_wrap 32 (u32 _ - 1)) by lia. f_equal. unfold wrap.
  rewrite Zminus_mod_idemp_l. f_equal. lia.
Qed.


(** A string ["/a.c"] and the line 7 at the stack address 0x8000. *)
Definition ulog_sample : mem := store_bytes ∅ 0x1000 [47; 97; 46; 99; 0].


(** ** The program break *)
Section break.
Context {F : Type} `{FrameAllocator F}.
Context (syscall : Z -> Z -> Z -> Z -> Z -> Z -> prog (vmm F) Z).

(** The system call reaches the kernel's handler. *)
Hypothesis syscall_mmap : forall addr size flags s,
  syscall SYSCALL_MMAP addr size flags 0 0 s =
  ('(r, s) ← syscall_mmap_handler s addr size flags; Ret (Some r, s)).

Definition break_of (_END_ : Z) (r : rt) : Z :=
  if nz (program_break r) then program_break r else ALIGN _END_ 4096.

(** The pages from the break on, as many as asked for, are free user pages. *)
Definition room (s : vmm F) (brk size : Z) : Prop :=
  forall p, p mod 4096 = 0 -> brk <= p < brk + size -> entry s p = None /\ user_page p.

Lemma sbrk_grow _END_ r incr s : let brk := break_of _END_ r in let size := ALIGN incr 4096 in
  vm_ok s -> 0 < brk -> brk mod 4096 = 0 -> 0 < incr <= 2 ^ 30 -> brk + size < 2 ^ 32 -> room s brk size ->
  match sbrk syscall _END_ r incr s with
  | Ret (None, _) => False
  | Ret (Some (p, r'), s') => p = brk /\ r' = mkRt (ack_port r) (brk + size) /\ vm_ok s' /\
      mapped s s' brk (Z.to_nat (size / 4096)) 7
  | Fault e => exists fs, allocs (frames s) fs /\ (alloc_fails fs e \/
      (e = FAssert /\ exists fs', fa_alloc fs = Ret (INVALID_FRAME, fs')))
  end.
Proof.
  intros brk size Hok Hb0 Hba Hi Hend Hroom. unfold sbrk. fold (break_of _END_ r). fold brk.
  rewrite (proj2 (Z.eqb_neq incr 0)), (proj2 (Z.ltb_ge incr 0)) by lia.
  rewrite (u32_small incr) by lia. fold size.
  destruct (ALIGN_bounds 12 incr) as [Hm Hr]; [lia..|]. change (2 ^ 12) with 4096 in *. fold size in Hm, Hr.
  rewrite (s32_small size) by lia. rewrite (u32_small size) by lia. unfold mmap, pbind. rewrite syscall_mmap.
  destruct (mmap_ok s brk size (Z.lor PROT_READ PROT_WRITE) Hok ltac:(lia) ltac:(lia)) as (_ & _ & _ & Hmap).
  destruct Hmap as [(s' & -> & Hok' & Hmapd)|[(s' & fs & -> & Hok' & _ & Hal & Hex)|(e & fs & -> & Hal & Hf)]];
    [by split|done|done|done| | |]; cbn [mbind outcome_bind].
  - rewrite nz_true by lia. cbn [passert]. unfold pret. cbn [mbind outcome_bind]. rewrite u32_small by lia.
    split; [done|]. split; [done|]. split; [done|]. exact Hmapd.
  - cbn. exists (frames s'). split; [done|]. right. by eauto.
  - exists fs. split; [done|]. by left.
Qed.
End break.

(** ** The checksum of a file *)
Section checksum.
Context {S : Type} (memory : S -> mem) (offset : S -> nat).

(** [read_fd] reads the file [data] into [buffer], onwards from where the last read ended:
    between one and 512 bytes, and none only at the end. *)
Definition reads_file (read_fd : prog S Z) (buffer : Z) (data : list Z) : Prop :=
  forall s, (offset s <= length data)%nat ->
    exists n s', read_fd s = Ret (Some (Z.of_nat n), s') /\ (n <= 512)%nat /\
      offset s' = (offset s + n)%nat /\ (offset s' <= length data)%nat /\
      (n = 0%nat -> offset s = length data) /\
      load_bytes (memory s') buffer n = take n (drop (offset s) data).

Lemma read_crc_ok read_fd buffer data : reads_file read_fd buffer data -> Forall is_byte data ->
  forall fuel s crc, (offset s <= length data)%nat -> (length data - offset s < fuel)%nat -> 0 <= crc < 2 ^ 32 ->
  exists s', read_crc fuel memory read_fd buffer crc s = Ret (Some (crc_serial crc (drop (offset s) data)), s') /\
    offset s' = length data.
Proof.
  intros Hread Hd fuel. induction fuel as [|fuel IH]; intros s crc Ho Hf Hc; [lia|]. cbn [read_crc]. unfold pbind.
  destruct (Hread s Ho) as (n & s1 & -> & Hn & Ho1 & Hle & Hz & Hb). cbn [mbind outcome_bind].
  rewrite (proj2 (Z.eqb_neq _ (-1))) by lia. destruct (Z.of_nat n =? 0) eqn:E0; breflect.
  - assert (n = 0%nat) as -> by lia. specialize (Hz eq_refl). exists s1.
    rewrite drop_ge by lia. split; [done|lia].
  - rewrite Nat2Z.id, Hb. assert (Forall is_byte (take n (drop (offset s) data))) as Ht
      by (by apply Forall_take, Forall_drop).
    destruct (crc_update_ok _ crc Ht Hc) as [-> Hr]. cbn [mbind outcome_bind].
    destruct (IH s1 (crc_serial crc (take n (drop (offset s) data)))) as (s' & -> & He); [done|lia|done|].
    exists s'. split; [|done]. do 3 f_equal. unfold crc_serial. rewrite <- fold_left_app. f_equal.
    rewrite Ho1, <- drop_drop. apply take_drop.
Qed.
End checksum.

(** Growing a program's heap area through the kernel. [sbrk(0)] answers the break and
    changes nothing, a negative increment stops the program. An increment up to 1 GiB is
    rounded up to pages; when the pages above the break are free user pages, [sbrk]
    answers the old break, moves the break by exactly the rounded size, so that the next
    area continues this one, and every page of the area is mapped to a frame of its own,
    user accessible and writable, no other page changing. Otherwise it stops, and then the
    frames had run out. *)
Theorem sbrk_spec {F : Type} `{FrameAllocator F} (syscall : Z -> Z -> Z -> Z -> Z -> Z -> prog (vmm F) Z)
    (Hsys : forall addr size flags s, syscall SYSCALL_MMAP addr size flags 0 0 s =
       ('(r, s) ← syscall_mmap_handler s addr size flags; Ret (Some r, s)))
    (_END_ : Z) (r : rt) (incr : Z) (s : vmm F) :
  let brk := break_of _END_ r in let size := ALIGN incr 4096 in
  sbrk syscall _END_ r 0 s = Ret (Some (brk, mkRt (ack_port r) brk), s) /\
  (incr < 0 -> sbrk syscall _END_ r incr s = Fault FPanic) /\
  (vm_ok s -> 0 < brk -> brk mod 4096 = 0 -> 0 < incr <= 2 ^ 30 -> brk + size < 2 ^ 32 -> room s brk size ->
   match sbrk syscall _END_ r incr s with
   | Ret (None, _) => False
   | Ret (Some (p, r'), s') => p = brk /\ break_of _END_ r' = brk + size /\ vm_ok s' /\
       mapped s s' brk (Z.to_nat (size / 4096)) 7
   | Fault e => exists fs, allocs (frames s) fs /\ (alloc_fails fs e \/
       (e = FAssert /\ exists fs', fa_alloc fs = Ret (INVALID_FRAME, fs')))
   end).
Proof.
  intros brk size. split; [done|]. split.
  - intros Hn. unfold sbrk. rewrite (proj2 (Z.eqb_neq incr 0)), (proj2 (Z.ltb_lt incr 0)) by lia. done.
  - intros Hok Hb0 Hba Hi Hend Hroom.
    pose proof (sbrk_grow syscall Hsys _END_ r incr s Hok Hb0 Hba Hi Hend Hroom) as Hg. cbv zeta in Hg.
    destruct (sbrk syscall _END_ r incr s) as [[[[p r']|] s']|e]; [|done|done].
    destruct Hg as (-> & -> & Hok' & Hm). split; [done|]. split; [|done].
    destruct (ALIGN_bounds 12 incr) as [_ Hr]; [lia..|]. change (2 ^ 12) with 4096 in Hr.
    unfold break_of at 1. cbn [program_break]. rewrite nz_true; [done|]. unfold size, brk in *. lia.
Qed.

(** The kernel's handler as the only system call, on the sample address space: a program
    that ends at 0x3FF123 asks for 5000 bytes. *)
Definition mmap_only (n addr size flags _ _ : Z) : prog (vmm pmm) Z := fun s =>
  '(r, s) ← syscall_mmap_handler s addr size flags; Ret (Some r, s).

Lemma sample_sbrk :
  match sbrk mmap_only 0x3FF123 rt_start 5000 sample_vmm with
  | Ret (Some (p, r), _) => (p =? 0x400000) && (program_break r =? 0x402000) | _ => false end = true.
Proof. vm_cast_no_check (eq_refl true). Qed.

Lemma sbrk_spec_witness : exists r' s', sbrk mmap_only 0x3FF123 rt_start 5000 sample_vmm = Ret (Some (0x400000, r'), s') /\
  break_of 0x3FF123 r' = 0x402000 /\ mapped sample_vmm s' 0x400000 2 7.
Proof.
  destruct (sbrk_spec mmap_only ltac:(reflexivity) 0x3FF123 rt_start 5000 sample_vmm) as (_ & _ & H).
  specialize (H sample_vmm_ok eq_refl eq_refl ltac:(lia) ltac:(vm_compute; reflexivity)).
  ospecialize* H.
  { intros p Hp Hr. change (break_of 0x3FF123 rt_start) with 0x400000 in Hr. change (ALIGN 5000 4096) with 0x2000 in Hr.
    assert (p = 0x400000 \/ p = 0x401000) as [-> | ->] by (pose proof (Z.div_mod p 4096); lia).
    - split; [vm_compute; reflexivity|unfold user_page; vm_compute; split; discriminate].
    - split; [vm_compute; reflexivity|unfold user_page; vm_compute; split; discriminate]. }
  pose proof sample_sbrk as E0.
  destruct (sbrk mmap_only 0x3FF123 rt_start 5000 sample_vmm) as [[[[p r']|] s']|e]; [|done|discriminate E0].
  destruct H as (-> & Hb & _ & Hm). exists r', s'. split; [reflexivity|]. split; [exact Hb|exact Hm].
Defined.

(** The init program's file test computes the CRC-32 of the whole file, however the reads
    divide it. *)
Theorem test_fat_read_spec {S : Type} (memory : S -> mem) (offset : S -> nat) (open_file : prog S Z)
    (read_file : Z -> Z -> Z -> prog S Z) (close_file : Z -> prog S Z) (buffer fd : Z) (data : list Z)
    (fuel : nat) (s s1 : S)
    (Hopen : open_file s = Ret (Some fd, s1)) (Hfd : fd <> -1) (Hstart : offset s1 = 0%nat)
    (Hread : reads_file memory offset (read_file fd buffer 512) buffer data) (Hd : Forall is_byte data)
    (Hclose : forall s, exists s', close_file fd s = Ret (Some 0, s')) (Hfuel : (length data < fuel)%nat) :
  exists s', test_fat_read fuel memory open_file read_file close_file buffer s =
    Ret (Some (Some (crc_finalize (crc_serial crc_init data))), s').
Proof.
  unfold test_fat_read, pbind. rewrite Hopen. cbn [mbind outcome_bind].
  rewrite (proj2 (Z.eqb_neq fd (-1))) by done. cbn [negb].
  destruct (read_crc_ok memory offset _ buffer data Hread Hd fuel s1 crc_init) as (s2 & -> & _);
    [lia|lia|unfold crc_init; lia|]. cbn [mbind outcome_bind].
  destruct (Hclose s2) as (s3 & ->). cbn. exists s3. by rewrite Hstart.
Qed.

(** ** The start of the servers *)

(** A kernel that answers the calls of one process from a script and records them: number
    and first argument. [None] does not come back. *)
Definition scripted (n a _ _ _ _ : Z) : prog (list (Z * Z) * list (option Z)) Z := fun '(calls, answers) =>
  match answers with
  | [] => Fault FFuel
  | x :: answers => Ret (x, (calls ++ [(n, a)], answers))
  end.

(** [init] runs the tests as the parent of three forks; each child opens its acknowledge
    port and executes its server and nothing else; an [exec] that comes back stops it. *)
Theorem init_main_spec (logger blk vfs port p1 p2 p3 v : Z) (run_tests : rt -> prog _ unit) (r : rt)
    (H1 : p1 <> 0) (H2 : p2 <> 0) (Hr1 : 0 <= p1 < 2 ^ 31) (Hr2 : 0 <= p2 < 2 ^ 31) (H3 : p3 <> 0) (Hr3 : 0 <= p3 < 2 ^ 31) :
  let run answers := init_main scripted logger blk vfs run_tests r ([], answers) in
  let child name := [(SYSCALL_FORK, 0); (SYSCALL_PORTOPEN, 0xFFFFFFFF); (SYSCALL_EXEC, name)] in
  run [Some p1; Some p2; Some p3] = run_tests r ([(SYSCALL_FORK, 0); (SYSCALL_FORK, 0); (SYSCALL_FORK, 0)], []) /\
  run [Some 0; Some port; None] = Ret (None, (child logger, [])) /\
  run [Some p1; Some 0; Some port; None] = Ret (None, ((SYSCALL_FORK, 0) :: child blk, [])) /\
  run [Some p1; Some p2; Some 0; Some port; None] = Ret (None, ((SYSCALL_FORK, 0) :: (SYSCALL_FORK, 0) :: child vfs, [])) /\
  run [Some 0; Some port; Some v] = Fault FPanic.
Proof.
  assert (forall p, 0 <= p < 2 ^ 31 -> p <> 0 -> forall c a, fork scripted r (c, Some p :: a) =
    Ret (Some (p, r), (c ++ [(SYSCALL_FORK, 0)], a))) as Hpar.
  { intros p Hp Hne c a. unfold fork, pbind. cbn -[s32]. destruct (p =? 0) eqn:E; breflect; [done|]. unfold pret. by rewrite s32_small by lia. }
  intros run child. unfold run, init_main, pbind.
  repeat (first [rewrite (Hpar p1 Hr1 H1) | rewrite (Hpar p2 Hr2 H2) | rewrite (Hpar p3 Hr3 H3)];
          cbn [mbind outcome_bind fst snd];
          rewrite ?(proj2 (Z.eqb_neq p1 0) H1), ?(proj2 (Z.eqb_neq p2 0) H2), ?(proj2 (Z.eqb_neq p3 0) H3)).
  done.
Qed.
