(* ===== verification/Elf.v ===== *)
(** [kernel/elf.c]: the loader of executables. The file lies in kernel memory and the segments
    are written through the page tables of the running address space, so every byte goes
    through the translation of [Vmm]. *)
From S2P Require Import Prelude Util Mem Pmm Vmm.

Definition EI_MAG0 : Z := 0.
Definition EI_MAG1 : Z := 1.
Definition EI_MAG2 : Z := 2.
Definition EI_MAG3 : Z := 3.
Definition EI_CLASS : Z := 4.
Definition EI_DATA : Z := 5.
Definition ELFCLASS32 : Z := 1.
Definition ELFDATA2LSB : Z := 1.
Definition ET_EXEC : Z := 2.
Definition EM_386 : Z := 3.
Definition EV_CURRENT : Z := 1.
Definition PT_LOAD : Z := 1.
Definition PF_W : Z := 2.

(** Offsets of the fields of [Elf32_Ehdr] and [Elf32_Phdr]. *)
Definition e_type : Z := 16.
Definition e_machine : Z := 18.
Definition e_version : Z := 20.
Definition e_entry : Z := 24.
Definition e_phoff : Z := 28.
Definition e_phentsize : Z := 42.
Definition e_phnum : Z := 44.
Definition p_type : Z := 0.
Definition p_offset : Z := 4.
Definition p_vaddr : Z := 8.
Definition p_filesz : Z := 16.
Definition p_memsz : Z := 20.
Definition p_flags : Z := 24.
Definition sizeof_phdr : Z := 32.

Section elf.
Context {F : Type} `{FrameAllocator F}.

(** A byte of the word that contains it. *)
Definition word_byte (w i : Z) : Z := Z.land (Z.shiftr w (8 * i)) 0xFF.
Definition word_set_byte (w i b : Z) : Z :=
  Z.lor (Z.land w (u32 (Z.lnot (Z.shiftl 0xFF (8 * i))))) (Z.shiftl (u8 b) (8 * i)).

Definition vload8 (s : vmm F) (va : Z) : outcome Z :=
  w ← vload s (va - va mod 4); Ret (word_byte w (va mod 4)).
Definition vstore8 (s : vmm F) (va b : Z) : outcome (vmm F) :=
  w ← vload s (va - va mod 4); vstore s (va - va mod 4) (word_set_byte w (va mod 4) b).

Fixpoint vload_bytes (n : nat) (s : vmm F) (va : Z) : outcome (list Z) :=
  match n with
  | O => Ret []
  | S n => b ← vload8 s va; bs ← vload_bytes n s (u32 (va + 1)); Ret (b :: bs)
  end.
(** A little-endian field of [n] bytes. *)
Definition vfield (n : nat) (s : vmm F) (va : Z) : outcome Z := bs ← vload_bytes n s va; Ret (le_decode bs).

(** [bzero] and [memcpy] (whose direction depends on how the ranges overlap). *)
Fixpoint vbzero (n : nat) (s : vmm F) (va : Z) : outcome (vmm F) :=
  match n with
  | O => Ret s
  | S n => s ← vstore8 s va 0; vbzero n s (u32 (va + 1))
  end.
Fixpoint vcopy_up (n : nat) (s : vmm F) (dst src : Z) : outcome (vmm F) :=
  match n with
  | O => Ret s
  | S n => b ← vload8 s src; s ← vstore8 s dst b; vcopy_up n s (u32 (dst + 1)) (u32 (src + 1))
  end.
Fixpoint vcopy_down (n : nat) (s : vmm F) (dst src : Z) : outcome (vmm F) :=
  match n with
  | O => Ret s
  | S n => b ← vload8 s (u32 (src - 1)); s ← vstore8 s (u32 (dst - 1)) b; vcopy_down n s (u32 (dst - 1)) (u32 (src - 1))
  end.
Definition vmemcpy (s : vmm F) (dst src n : Z) : outcome (vmm F) :=
  if (src <? dst) && (dst <? u32 (src + n))
  then vcopy_down (Z.to_nat n) s (u32 (dst + n)) (u32 (src + n))
  else vcopy_up (Z.to_nat n) s dst src.

(** [for(page = segment_start; page < segment_end; page += PAGE_SIZE)]: a new frame for
    each page. *)
Fixpoint map_segment (n : nat) (s : vmm F) (page segment_end : Z) : outcome (vmm F) :=
  match n with
  | O => Fault FFuel
  | S n =>
      if page <? segment_end then
        '(frame, s) ← pmm_alloc_frame s;
        _ ← c_assert (negb (frame =? INVALID_FRAME));
        s ← vmm_map s page frame (Z.lor VMM_PAGE_PRESENT VMM_PAGE_WRITABLE);
        map_segment n s (u32 (page + PAGE_SIZE)) segment_end
      else Ret s
  end.
(** The same loop with [vmm_remap]. *)
Fixpoint protect_segment (n : nat) (s : vmm F) (page segment_end page_flags : Z) : outcome (vmm F) :=
  match n with
  | O => Fault FFuel
  | S n =>
      if page <? segment_end then
        s ← vmm_remap s page page_flags;
        protect_segment n s (u32 (page + PAGE_SIZE)) segment_end page_flags
      else Ret s
  end.
(** One step per page of the segment, and one to leave the loop. *)
Definition segment_fuel (segment_start segment_end : Z) : nat :=
  S (Z.to_nat ((segment_end - segment_start + 4095) / 4096)).

Definition load_segment (s : vmm F) (file_data phdr : Z) : outcome (vmm F) :=
  ty ← vfield 4 s (u32 (phdr + p_type));
  if negb (ty =? PT_LOAD) then Ret s
  else
    memsz ← vfield 4 s (u32 (phdr + p_memsz));
    _ ← c_assert (nz memsz);
    flags ← vfield 4 s (u32 (phdr + p_flags));
    let page_flags :=
      if nz (Z.land flags PF_W) then Z.lor (Z.lor VMM_PAGE_PRESENT VMM_PAGE_USER) VMM_PAGE_WRITABLE
      else Z.lor VMM_PAGE_PRESENT VMM_PAGE_USER in
    segment_start ← vfield 4 s (u32 (phdr + p_vaddr));
    let segment_end := u32 (segment_start + memsz) in
    _ ← c_assert (USER_START <=? segment_start);
    _ ← c_assert (segment_end <=? USER_END);
    s ← map_segment (segment_fuel segment_start segment_end) s segment_start segment_end;
    memsz ← vfield 4 s (u32 (phdr + p_memsz));
    s ← vbzero (Z.to_nat memsz) s segment_start;
    filesz ← vfield 4 s (u32 (phdr + p_filesz));
    s ← (if nz filesz then
           offset ← vfield 4 s (u32 (phdr + p_offset));
           vmemcpy s segment_start (u32 (file_data + offset)) filesz
         else Ret s);
    protect_segment (segment_fuel segment_start segment_end) s segment_start segment_end page_flags.

(** [for(i = 0; i < ehdr->e_phnum; i++)], the number read again each time. *)
Fixpoint load_segments (n : nat) (i : Z) (s : vmm F) (file_data phdrs : Z) : outcome (vmm F) :=
  match n with
  | O => Fault FFuel
  | S n =>
      phnum ← vfield 2 s (u32 (file_data + e_phnum));
      if i <? phnum then
        s ← load_segment s file_data (u32 (phdrs + i * sizeof_phdr));
        load_segments n (i + 1) s file_data phdrs
      else Ret s
  end.

Definition check_ident (s : vmm F) (file_data : Z) : outcome unit :=
  m0 ← vfield 1 s (u32 (file_data + EI_MAG0)); _ ← c_assert (m0 =? 0x7F);
  m1 ← vfield 1 s (u32 (file_data + EI_MAG1)); _ ← c_assert (m1 =? 69);
  m2 ← vfield 1 s (u32 (file_data + EI_MAG2)); _ ← c_assert (m2 =? 76);
  m3 ← vfield 1 s (u32 (file_data + EI_MAG3)); _ ← c_assert (m3 =? 70);
  cl ← vfield 1 s (u32 (file_data + EI_CLASS)); _ ← c_assert (cl =? ELFCLASS32);
  da ← vfield 1 s (u32 (file_data + EI_DATA)); c_assert (da =? ELFDATA2LSB).

(** The body, with fuel for the loop over the program headers. *)
Definition load_elf_run (n : nat) (s : vmm F) (file_data : Z) : outcome (Z * vmm F) :=
  _ ← check_ident s file_data;
  ty ← vfield 2 s (u32 (file_data + e_type)); _ ← c_assert (ty =? ET_EXEC);
  ma ← vfield 2 s (u32 (file_data + e_machine)); _ ← c_assert (ma =? EM_386);
  ve ← vfield 4 s (u32 (file_data + e_version)); _ ← c_assert (ve =? EV_CURRENT);
  en ← vfield 4 s (u32 (file_data + e_entry)); _ ← c_assert (nz en);
  phoff ← vfield 4 s (u32 (file_data + e_phoff));
  pe ← vfield 2 s (u32 (file_data + e_phentsize)); _ ← c_assert (pe =? sizeof_phdr);
  s ← load_segments n 0 s file_data (u32 (file_data + phoff));
  entry ← vfield 4 s (u32 (file_data + e_entry));
  Ret (entry, s).
(** The number of program headers is a 16-bit field. *)
Definition load_elf (s : vmm F) (file_data : Z) : outcome (Z * vmm F) := load_elf_run (Z.to_nat 65536) s file_data.
End elf.
