(* ===== verification/ElfSpec.v ===== *)
(** Bytes of virtual memory: what the loader of executables reads and writes through the page
    tables ([kernel/elf.c] on [kernel/vmm.c]). *)
From S2P Require Import Prelude Util Mem Pmm Vmm VmmSpec VmmClaims VmmSpaces MmapClaims Elf.

(** ** Bytes of words *)
Lemma word_byte_testbit w i n : 0 <= i -> 0 <= n ->
  Z.testbit (word_byte w i) n = (n <? 8) && Z.testbit w (n + 8 * i).
Proof.
  intros Hi Hn. unfold word_byte. rewrite Z.land_spec, Z.shiftr_spec by lia. change 0xFF with (Z.ones 8).
  destruct (n <? 8) eqn:E; breflect.
  - rewrite Z.ones_spec_low by lia. by rewrite andb_true_r.
  - rewrite Z.ones_spec_high by lia. by rewrite andb_false_r.
Qed.

Lemma word_byte_range w i : 0 <= i -> is_byte (word_byte w i).
Proof.
  intros Hi. unfold word_byte, is_byte. change 0xFF with (2 ^ 8 - 1). rewrite land_ones_mod by lia.
  apply Z.mod_pos_bound. lia.
Qed.

Lemma word_set_byte_testbit w i b n : 0 <= i < 4 -> 0 <= w < 2 ^ 32 -> 0 <= n ->
  Z.testbit (word_set_byte w i b) n =
    if (8 * i <=? n) && (n <? 8 * i + 8) then Z.testbit (u8 b) (n - 8 * i) else Z.testbit w n.
Proof.
  intros Hi Hw Hn. unfold word_set_byte. rewrite Z.lor_spec, Z.land_spec, Z.shiftl_spec by lia.
  assert (Z.testbit (u8 b) (n - 8 * i) = (8 * i <=? n) && (n <? 8 * i + 8) && Z.testbit (u8 b) (n - 8 * i)) as Hb.
  { destruct ((8 * i <=? n) && (n <? 8 * i + 8)) eqn:E; [done|]. breflect.
    destruct (Z.lt_ge_cases n (8 * i)); [by rewrite Z.testbit_neg_r by lia|].
    rewrite (testbit_range _ 8); [done|apply u8_range|]. breflect_cases; lia. }
  assert (Z.testbit (u32 (Z.lnot (Z.shiftl 255 (8 * i)))) n = (n <? 32) && negb ((8 * i <=? n) && (n <? 8 * i + 8))) as ->.
  { rewrite wrap_testbit, andb_comm by lia. f_equal. rewrite Z.lnot_spec, Z.shiftl_spec by lia. f_equal. change 255 with (Z.ones 8).
    destruct ((8 * i <=? n) && (n <? 8 * i + 8)) eqn:E; breflect.
    - apply Z.ones_spec_low. lia.
    - destruct (Z.lt_ge_cases n (8 * i)); [by rewrite Z.testbit_neg_r by lia|]. apply Z.ones_spec_high. breflect_cases; lia. }
  rewrite Hb. destruct ((8 * i <=? n) && (n <? 8 * i + 8)) eqn:E; cbn [negb andb].
  - by rewrite andb_false_r, andb_false_r, orb_false_l.
  - rewrite orb_false_r, andb_true_r. destruct (n <? 32) eqn:E2; [by rewrite andb_true_r|]. breflect.
    by rewrite (testbit_range w 32) by lia.
Qed.

Lemma word_byte_set w i b j : 0 <= i < 4 -> 0 <= j < 4 -> 0 <= w < 2 ^ 32 ->
  word_byte (word_set_byte w i b) j = if j =? i then u8 b else word_byte w j.
Proof.
  intros Hi Hj Hw. apply Z.bits_inj'. intros n Hn. rewrite word_byte_testbit by lia.
  rewrite word_set_byte_testbit by lia. destruct (j =? i) eqn:E; breflect.
  - subst j. destruct (n <? 8) eqn:E8; breflect; cbn [andb].
    + rewrite (proj2 (andb_true_iff _ _)) by (split; [apply Z.leb_le|apply Z.ltb_lt]; lia). f_equal. lia.
    + by rewrite (testbit_range _ 8) by (apply u8_range || lia).
  - rewrite word_byte_testbit by lia. destruct (n <? 8) eqn:E8; breflect; cbn [andb]; [|done].
    destruct ((8 * i <=? n + 8 * j) && _) eqn:E9; breflect; [lia|done].
Qed.

Lemma word_set_byte_range w i b : 0 <= i < 4 -> 0 <= w < 2 ^ 32 -> 0 <= word_set_byte w i b < 2 ^ 32.
Proof.
  intros Hi Hw. apply range_of_testbit; [lia| |].
  { unfold word_set_byte. apply Z.lor_nonneg. split; [apply Z.land_nonneg; by left; lia|].
    apply Z.shiftl_nonneg, u8_range. }
  intros n Hn. rewrite word_set_byte_testbit by lia.
  rewrite (proj2 (andb_false_iff _ _)) by (right; apply Z.ltb_ge; lia). by apply (testbit_range w 32).
Qed.

(** ** Bytes of physical memory *)
Definition pbyte (p : pmem) (a : Z) : Z := word_byte (pload p (a - a mod 4)) (a mod 4).
Definition pset8 (p : pmem) (a b : Z) : pmem :=
  pstore p (a - a mod 4) (word_set_byte (pload p (a - a mod 4)) (a mod 4) b).

Lemma pbyte_pset8 p a b c : 0 <= pload p (a - a mod 4) < 2 ^ 32 ->
  pbyte (pset8 p a b) c = if c =? a then u8 b else pbyte p c.
Proof.
  intros Hw. unfold pbyte, pset8. rewrite pload_pstore.
  pose proof (Z.mod_pos_bound a 4 ltac:(lia)). pose proof (Z.mod_pos_bound c 4 ltac:(lia)).
  destruct (c - c mod 4 =? a - a mod 4) eqn:E; breflect.
  - rewrite u32_small by (by apply word_set_byte_range). rewrite word_byte_set by done. rewrite E.
    destruct (c mod 4 =? a mod 4) eqn:E4, (c =? a) eqn:E5; breflect; try done; lia.
  - destruct (c =? a) eqn:E5; breflect; [congruence|done].
Qed.

Section bytes.
Context {F : Type} `{FrameAllocator F}.
Implicit Types s : vmm F.

(** The physical address of a virtual one. *)
Definition paddr s (va : Z) : option Z :=
  match entry s va with Some (f, _) => Some (f + va mod 4096) | None => None end.

Lemma page_split va : va = (va - va mod 4096) + va mod 4096 /\ (va - va mod 4096) mod 4096 = 0 /\
  va - va mod 4 = (va - va mod 4096) + 4 * (va mod 4096 / 4) /\ 0 <= va mod 4096 / 4 < 1024 /\
  (va mod 4096) mod 4 = va mod 4.
Proof.
  pose proof (Z.mod_pos_bound va 4096 ltac:(lia)) as Hr.
  assert ((va mod 4096) mod 4 = va mod 4) as Hm.
  { change 4096 with (4 * 1024). rewrite Z.rem_mul_r by lia. rewrite Z.mul_comm, Z.mod_add, Z.mod_mod by lia. done. }
  pose proof (Z.div_mod (va mod 4096) 4 ltac:(lia)) as Hd.
  split; [lia|]. split; [by rewrite Zminus_mod, Z.mod_mod, Z.sub_diag by lia|]. split; [lia|].
  split; [|done]. split; [apply Z.div_pos; lia|apply Z.div_lt_upper_bound; lia].
Qed.

Lemma entry_page s va : entry s (va - va mod 4096) = entry s va.
Proof.
  apply entry_same_page. pose proof (Z.div_mod va 4096 ltac:(lia)) as Hd.
  replace (va - va mod 4096) with (va / 4096 * 4096) by lia. by rewrite Z.div_mul.
Qed.

Lemma frame_aligned s va f fl : vm_ok s -> entry s va = Some (f, fl) -> f mod 4096 = 0 /\ 0 <= f < 2 ^ 32.
Proof.
  intros Hok. rewrite entry_eq by done. cbv zeta. destruct (present s _); [|done].
  destruct (Z.testbit (pload _ _) 0); [|done]. intros [= <- _].
  destruct (land_frame_range _ (pload_range s (table_of s (PAGE_DIRECTORY_INDEX va) + 4 * PAGE_TABLE_INDEX va) Hok)). done.
Qed.

Lemma paddr_mod4 s va f fl : vm_ok s -> entry s va = Some (f, fl) ->
  (f + va mod 4096) mod 4 = va mod 4 /\ f + va mod 4096 - va mod 4 = f + 4 * (va mod 4096 / 4).
Proof.
  intros Hok He. destruct (frame_aligned s va f fl Hok He) as [Hm _].
  destruct (page_split va) as (_ & _ & _ & _ & H4). pose proof (Z.div_mod (va mod 4096) 4 ltac:(lia)).
  split; [|lia]. apply Z.mod_divide in Hm as [k Hk]; [|lia]. subst f.
  replace (k * 4096 + va mod 4096) with (va mod 4096 + k * 1024 * 4) by lia. by rewrite Z.mod_add by lia.
Qed.

Lemma vload8_eq s va a : vm_ok s -> paddr s va = Some a -> vload8 s va = Ret (pbyte (phys s) a).
Proof.
  intros Hok Hp. unfold paddr in Hp. destruct (entry s va) as [[f fl]|] eqn:He; [|done]. injection Hp as <-.
  destruct (page_split va) as (_ & Hm & Hw & Hi & _). destruct (paddr_mod4 s va f fl Hok He) as [H4 Hb].
  unfold vload8. rewrite Hw, (vload_mapped s _ f fl) by (done || by rewrite entry_page).
  cbn [mbind outcome_bind]. unfold pbyte. by rewrite H4, Hb.
Qed.

Lemma vstore8_eq s va f fl b : vm_ok s -> managed va -> entry s va = Some (f, fl) -> Z.testbit fl 1 = true ->
  vstore8 s va b = Ret (with_phys s (pset8 (phys s) (f + va mod 4096) b)).
Proof.
  intros Hok Hm He Hw1. destruct (page_split va) as (_ & Ha & Hw & Hi & _). destruct (paddr_mod4 s va f fl Hok He) as [H4 Hb].
  assert (managed (va - va mod 4096)) as Hm'.
  { unfold managed in *. pose proof (Z.mod_pos_bound va 4096 ltac:(lia)). pose proof (Z.mod_le va 4096 ltac:(lia) ltac:(lia)). lia. }
  unfold vstore8. rewrite Hw, (vload_mapped s _ f fl) by (done || by rewrite entry_page). cbn [mbind outcome_bind].
  rewrite (vstore_mapped s _ f fl) by (done || by rewrite entry_page). unfold pset8. by rewrite H4, Hb.
Qed.

Lemma store8_same s va f fl b : vm_ok s -> entry s va = Some (f, fl) -> data_frame s f ->
  same_tables s (pset8 (phys s) (f + va mod 4096) b).
Proof.
  intros Hok He Hd. destruct (page_split va) as (_ & _ & _ & Hi & _). destruct (paddr_mod4 s va f fl Hok He) as [H4 Hb].
  unfold pset8. rewrite H4, Hb. by apply data_store_same.
Qed.

(** ** Writing to mapped pages *)

(** The same address space: only the contents of data frames may differ. *)
Record same_space s s' : Prop := {
  ss_ok : vm_ok s';
  ss_frames : frames s' = frames s;
  ss_cr3 : cr3 s' = cr3 s;
  ss_pd d : 0 <= d < 1024 -> pd s' d = pd s d;
  ss_entry va : managed va -> entry s' va = entry s va
}.

Lemma same_space_refl s : vm_ok s -> same_space s s.
Proof. by split. Qed.

Lemma same_space_trans s1 s2 s3 : same_space s1 s2 -> same_space s2 s3 -> same_space s1 s3.
Proof.
  intros [A1 A2 A3 A4 A5] [B1 B2 B3 B4 B5]. split; [done|congruence|congruence| |].
  - intros d Hd. by rewrite B4, A4.
  - intros va Hva. by rewrite B5, A5.
Qed.

Lemma same_space_data s s' f : same_space s s' -> data_frame s f -> data_frame s' f.
Proof.
  intros Hs (H1 & H2 & H3). split; [done|]. split; [by rewrite (ss_cr3 _ _ Hs)|].
  intros d Hd Hp. unfold present, table_of in *. rewrite (ss_pd _ _ Hs) in * by lia. by apply H3.
Qed.

Lemma same_space_paddr s s' va : same_space s s' -> managed va -> paddr s' va = paddr s va.
Proof. intros Hs Hm. unfold paddr. by rewrite (ss_entry _ _ Hs). Qed.

(** A range of writable user or kernel pages that hold data. *)
Definition writable s (va n : Z) : Prop := forall k, 0 <= k < n ->
  managed (va + k) /\ exists f fl, entry s (va + k) = Some (f, fl) /\ Z.testbit fl 1 = true /\ data_frame s f.

Lemma writable_same s s' va n : same_space s s' -> writable s va n -> writable s' va n.
Proof.
  intros Hs Hw k Hk. destruct (Hw k Hk) as (Hm & f & fl & He & Hb & Hd). split; [done|]. exists f, fl.
  split; [by rewrite (ss_entry _ _ Hs)|]. split; [done|]. by eapply same_space_data.
Qed.

Lemma writable_tail s va n : writable s va (n + 1) -> 0 <= n -> writable s (va + 1) n.
Proof. intros Hw Hn k Hk. replace (va + 1 + k) with (va + (k + 1)) by lia. apply Hw. lia. Qed.

Lemma write8_ok s va n b : vm_ok s -> 0 < n -> writable s va n ->
  exists s' c, vstore8 s va b = Ret s' /\ same_space s s' /\ paddr s va = Some c /\
    forall a, pbyte (phys s') a = if a =? c then u8 b else pbyte (phys s) a.
Proof.
  intros Hok Hn Hw. destruct (Hw 0 ltac:(lia)) as (Hm & f & fl & He & Hb & Hd). rewrite Z.add_0_r in Hm, He.
  rewrite (vstore8_eq s va f fl b Hok Hm He Hb). pose proof (store8_same s va f fl b Hok He Hd) as Hst.
  destruct (same_tables_ok s _ Hok Hst) as (Hok' & Hpd & Hent). eexists _, (f + va mod 4096). split; [done|].
  split; [split; try done; intros va' Hva'; by apply Hent, managed_dir|].
  split; [unfold paddr; by rewrite He|]. intros a. cbn [phys with_phys]. apply pbyte_pset8. by apply pload_range.
Qed.

(** Distinct addresses of the range are distinct bytes of memory. *)
Definition unaliased s (va n : Z) : Prop := forall j k c, 0 <= j < n -> 0 <= k < n ->
  paddr s (va + j) = Some c -> paddr s (va + k) = Some c -> j = k.

Fixpoint vwrite s (va : Z) (bs : list Z) : outcome (vmm F) :=
  match bs with
  | [] => Ret s
  | b :: bs => s ← vstore8 s va b; vwrite s (u32 (va + 1)) bs
  end.

Lemma vwrite_ok bs : forall s va, vm_ok s -> writable s va (Z.of_nat (length bs)) ->
  unaliased s va (Z.of_nat (length bs)) ->
  exists s', vwrite s va bs = Ret s' /\ same_space s s' /\
    (forall k b c, bs !! k = Some b -> paddr s (va + Z.of_nat k) = Some c -> pbyte (phys s') c = u8 b) /\
    (forall c, (forall k, 0 <= k < Z.of_nat (length bs) -> paddr s (va + k) <> Some c) ->
       pbyte (phys s') c = pbyte (phys s) c).
Proof.
  induction bs as [|b bs IH]; intros s va Hok Hw Hinj; cbn [vwrite length] in *.
  - exists s. split; [done|]. split; [by apply same_space_refl|]. by split.
  - destruct (write8_ok s va (Z.of_nat (S (length bs))) b Hok ltac:(lia) Hw) as (s1 & c1 & -> & Hs1 & Hc1 & Hb1).
    cbn [mbind outcome_bind]. destruct (Hw 0 ltac:(lia)) as [Hm0 _]. rewrite Z.add_0_r in Hm0.
    rewrite u32_small by (unfold managed in Hm0; lia).
    assert (writable s1 (va + 1) (Z.of_nat (length bs))) as Hw1.
    { eapply writable_same; [exact Hs1|]. apply writable_tail; [|lia].
      by replace (Z.of_nat (length bs) + 1) with (Z.of_nat (S (length bs))) by lia. }
    assert (forall k, 0 <= k < Z.of_nat (length bs) -> paddr s1 (va + 1 + k) = paddr s (va + (k + 1))) as Hpa.
    { intros k Hk. replace (va + 1 + k) with (va + (k + 1)) by lia.
      apply same_space_paddr; [done|]. by apply (Hw (k + 1)); lia. }
    destruct (IH s1 (va + 1) (ss_ok _ _ Hs1) Hw1) as (s' & -> & Hs' & Hin & Hout).
    { intros j k c Hj Hk. rewrite !Hpa by lia. intros H1 H2. pose proof (Hinj (j + 1) (k + 1) c ltac:(lia) ltac:(lia) H1 H2). lia. }
    exists s'. split; [done|]. split; [by eapply same_space_trans|]. split.
    + intros [|k] b' c Hk Hc; cbn in Hk.
      * injection Hk as <-. rewrite Z.add_0_r in Hc. rewrite Hc1 in Hc. injection Hc as <-. rewrite Hout, Hb1, Z.eqb_refl; [done|].
        intros k Hk. rewrite Hpa by done. intros Hc.
        pose proof (Hinj 0 (k + 1) c1 ltac:(lia) ltac:(lia)) as H0. rewrite Z.add_0_r in H0. specialize (H0 Hc1 Hc). lia.
      * apply (Hin k b' c Hk). apply lookup_lt_Some in Hk. rewrite Hpa by lia. rewrite <- Hc. f_equal. lia.
    + intros c Hc. rewrite Hout, Hb1.
      * rewrite (proj2 (Z.eqb_neq _ _)); [done|]. intros ->. apply (Hc 0); [lia|]. by rewrite Z.add_0_r.
      * intros k Hk. rewrite Hpa by done. apply Hc. lia.
Qed.

Lemma vbzero_eq n : forall s va, vbzero n s va = vwrite s va (replicate n 0).
Proof.
  induction n as [|n IH]; intros s va; cbn [vbzero replicate vwrite]; [done|].
  destruct (vstore8 s va 0); cbn [mbind outcome_bind]; [apply IH|done].
Qed.

(** Bytes readable at an address. *)
Definition bytes_at s (va : Z) (bs : list Z) : Prop := forall k b, bs !! k = Some b ->
  managed (va + Z.of_nat k) /\ exists c, paddr s (va + Z.of_nat k) = Some c /\ pbyte (phys s) c = b.

Lemma bytes_at_cons s va b bs : bytes_at s va (b :: bs) -> bytes_at s (va + 1) bs.
Proof.
  intros Hb k b' Hk. replace (va + 1 + Z.of_nat k) with (va + Z.of_nat (S k)) by lia. by apply (Hb (S k)).
Qed.

Lemma vload_bytes_ok bs : forall s va, vm_ok s -> bytes_at s va bs -> vload_bytes (length bs) s va = Ret bs.
Proof.
  induction bs as [|b bs IH]; intros s va Hok Hb; cbn [vload_bytes length]; [done|].
  destruct (Hb 0%nat b eq_refl) as (Hm & c & Hc & Hv). rewrite Z.add_0_r in Hm, Hc.
  rewrite (vload8_eq s va c Hok Hc), Hv. cbn [mbind outcome_bind]. rewrite u32_small by (unfold managed in Hm; lia).
  by rewrite IH by (done || by eapply bytes_at_cons).
Qed.

Lemma vcopy_up_eq bs : forall s dst src, vm_ok s -> writable s dst (Z.of_nat (length bs)) -> bytes_at s src bs ->
  (forall j k, 0 <= j < Z.of_nat (length bs) -> 0 <= k < Z.of_nat (length bs) -> paddr s (dst + j) <> paddr s (src + k)) ->
  vcopy_up (length bs) s dst src = vwrite s dst bs.
Proof.
  induction bs as [|b bs IH]; intros s dst src Hok Hw Hb Hdis; cbn [vcopy_up vwrite length] in *; [done|].
  destruct (Hb 0%nat b eq_refl) as (Hm & c & Hc & Hv). rewrite Z.add_0_r in Hm, Hc.
  rewrite (vload8_eq s src c Hok Hc), Hv. cbn [mbind outcome_bind].
  destruct (write8_ok s dst (Z.of_nat (S (length bs))) b Hok ltac:(lia) Hw) as (s1 & c1 & -> & Hs1 & Hc1 & Hb1).
  cbn [mbind outcome_bind]. destruct (Hw 0 ltac:(lia)) as [Hm0 _]. rewrite Z.add_0_r in Hm0.
  rewrite !u32_small by (unfold managed in Hm, Hm0; lia).
  assert (forall k, 0 <= k < Z.of_nat (length bs) -> paddr s1 (dst + 1 + k) = paddr s (dst + (k + 1))) as Hpa.
  { intros k Hk. replace (dst + 1 + k) with (dst + (k + 1)) by lia.
    apply same_space_paddr; [done|]. by apply (Hw (k + 1)); lia. }
  assert (forall k, 0 <= k < Z.of_nat (length bs) -> managed (src + (k + 1)) /\ paddr s1 (src + 1 + k) = paddr s (src + (k + 1))) as Hps.
  { intros k Hk. replace (src + 1 + k) with (src + (k + 1)) by lia.
    destruct (lookup_lt_is_Some_2 bs (Z.to_nat k)) as [b' Hk']; [lia|].
    destruct (Hb (S (Z.to_nat k)) b' Hk') as [Hmk _]. replace (src + Z.of_nat (S (Z.to_nat k))) with (src + (k + 1)) in Hmk by lia.
    split; [done|]. by apply same_space_paddr. }
  apply IH.
  - apply (ss_ok _ _ Hs1).
  - eapply writable_same; [exact Hs1|]. apply writable_tail; [|lia].
    by replace (Z.of_nat (length bs) + 1) with (Z.of_nat (S (length bs))) by lia.
  - intros k b' Hk. pose proof (lookup_lt_Some _ _ _ Hk). destruct (Hb (S k) b' Hk) as (Hmk & ck & Hck & Hvk).
    replace (src + Z.of_nat (S k)) with (src + 1 + Z.of_nat k) in * by lia. split; [done|]. exists ck.
    split; [by rewrite (same_space_paddr _ _ _ Hs1 Hmk)|]. rewrite Hb1, (proj2 (Z.eqb_neq _ _)); [done|]. intros ->.
    apply (Hdis 0 (Z.of_nat k + 1)); [lia|lia|]. rewrite Z.add_0_r, Hc1. rewrite <- Hck. f_equal. lia.
  - intros j k Hj Hk. rewrite Hpa by done. destruct (Hps k Hk) as [_ ->]. apply Hdis; lia.
Qed.

(** ** Bytes that stay *)

(** Bytes readable at an address, in frames that are in use and hold data. *)
Definition holds s (va : Z) (bs : list Z) : Prop := forall k b, bs !! k = Some b ->
  managed (va + Z.of_nat k) /\ exists f fl, entry s (va + Z.of_nat k) = Some (f, fl) /\ data_frame s f /\
    fa_frame (frames s) f <> Free /\ pbyte (phys s) (f + (va + Z.of_nat k) mod 4096) = b.

Lemma holds_bytes_at s va bs : holds s va bs -> bytes_at s va bs.
Proof.
  intros Hh k b Hk. destruct (Hh k b Hk) as (Hm & f & fl & He & _ & _ & Hb). split; [done|].
  exists (f + (va + Z.of_nat k) mod 4096). split; [unfold paddr; by rewrite He|done].
Qed.

Lemma holds_byte s va bs : holds s va bs -> Forall is_byte bs.
Proof.
  intros Hh. apply Forall_lookup. intros k b Hk. destruct (Hh k b Hk) as (_ & f & fl & _ & _ & _ & <-).
  apply word_byte_range. apply Z.mod_pos_bound. lia.
Qed.

Lemma holds_slice s va bs (o n : nat) : holds s va bs -> holds s (va + Z.of_nat o) (take n (drop o bs)).
Proof.
  intros Hh k b Hk. apply lookup_take_Some in Hk as [Hk _]. rewrite lookup_drop in Hk.
  replace (va + Z.of_nat o + Z.of_nat k) with (va + Z.of_nat (o + k)) by lia. by apply Hh.
Qed.

(** Words of data frames in use keep their bytes. *)
Lemma keeps_byte s s' f o : keeps_data s s' -> data_frame s f -> fa_frame (frames s) f <> Free -> 0 <= o < 4096 ->
  pbyte (phys s') (f + o) = pbyte (phys s) (f + o).
Proof.
  intros Hk Hd Hf Ho. destruct (Hk f Hd Hf) as [_ Hw]. destruct Hd as (Hm & _). unfold pbyte.
  assert (f mod 4 = 0) as Hm4.
  { apply Z.mod_divide in Hm as [q Hq]; [|lia]. subst f. replace (q * 4096) with (q * 1024 * 4) by lia. by apply Z.mod_mul. }
  assert ((f + o) mod 4 = o mod 4) as -> by (rewrite Zplus_mod, Hm4, Z.add_0_l, Z.mod_mod by lia; done).
  pose proof (Z.div_mod o 4 ltac:(lia)). pose proof (Z.mod_pos_bound o 4 ltac:(lia)).
  replace (f + o - o mod 4) with (f + 4 * (o / 4)) by lia. rewrite Hw; [done|].
  split; [apply Z.div_pos; lia|apply Z.div_lt_upper_bound; lia].
Qed.

Lemma holds_keep s s' va bs : vm_ok s -> keeps_data s s' ->
  (forall q, q mod 4096 = 0 -> fa_frame (frames s') q = Free -> fa_frame (frames s) q = Free) ->
  (forall k, 0 <= k < Z.of_nat (length bs) -> exists f fl fl', entry s (va + k) = Some (f, fl) /\ entry s' (va + k) = Some (f, fl')) ->
  holds s va bs -> holds s' va bs.
Proof.
  intros Hok Hk Hfr Hent Hh k b Hlk. pose proof (lookup_lt_Some _ _ _ Hlk).
  destruct (Hh k b Hlk) as (Hm & f & fl & He & Hd & Hf & Hb). split; [done|].
  destruct (Hent (Z.of_nat k) ltac:(lia)) as (f' & fl1 & fl2 & He1 & He2). rewrite He in He1. injection He1 as <- _.
  exists f, fl2. split; [done|]. split; [by apply Hk|]. split; [intros Hc; apply Hf, Hfr; [apply Hd|done]|].
  rewrite keeps_byte with (s := s); [done|done|done|done|]. apply Z.mod_pos_bound. lia.
Qed.

Lemma keeps_trans s1 s2 s3 : keeps_data s1 s2 -> keeps_data s2 s3 ->
  (forall q, q mod 4096 = 0 -> fa_frame (frames s2) q = Free -> fa_frame (frames s1) q = Free) -> keeps_data s1 s3.
Proof.
  intros H1 H2 Hf f Hd Hn. destruct (H1 f Hd Hn) as [Hd2 Hw2].
  assert (fa_frame (frames s2) f <> Free) as Hn2 by (intros Hc; apply Hn, Hf; [apply Hd|done]).
  destruct (H2 f Hd2 Hn2) as [Hd3 Hw3]. split; [done|]. intros i Hi. by rewrite Hw3, Hw2.
Qed.

Lemma keeps_refl s : keeps_data s s.
Proof. intros f Hd _. by split. Qed.

(** ** The loops over the pages of a segment *)

(** [m] pages from [page] on reach [limit]. *)
Definition page_count (m : nat) (page limit : Z) : Prop :=
  limit <= page + 4096 * Z.of_nat m /\ (m <> 0%nat -> page + 4096 * (Z.of_nat m - 1) < limit).

Lemma page_count_S m page limit : page_count (S m) page limit -> page < limit /\ page_count m (page + 4096) limit.
Proof.
  intros [H1 H2]. specialize (H2 ltac:(done)). split; [lia|]. split; [lia|]. intros Hm. lia.
Qed.

Lemma map_segment_ok : forall m n s page limit, vm_ok s -> 0 <= page -> page mod 4096 = 0 -> page_count m page limit ->
  page + 4096 * Z.of_nat m < 2 ^ 32 ->
  (forall i, 0 <= i < Z.of_nat m -> entry s (page + 4096 * i) = None /\ user_page (page + 4096 * i)) -> (m < n)%nat ->
  match map_segment n s page limit with
  | Ret s' => vm_ok s' /\ mapped s s' page m 3 /\ keeps_data s s' /\ cr3 s' = cr3 s
  | Fault e => exists fs, allocs (frames s) fs /\ alloc_fails fs e
  end.
Proof.
  induction m as [|m IH]; intros [|n] s page limit Hok H0 Ha Hc Hl Hp Hn; try lia; cbn [map_segment].
  - destruct Hc as [Hc _]. rewrite (proj2 (Z.ltb_ge _ _)) by lia. split; [done|]. split; [apply mapped_none|].
    split; [apply keeps_refl|done].
  - apply page_count_S in Hc as [Hlt Hc]. rewrite (proj2 (Z.ltb_lt _ _)) by done. unfold pmm_alloc_frame at 1.
    destruct (fa_alloc (frames s)) as [[f fs]|e] eqn:Eal; cbn [mbind outcome_bind]; cycle 1.
    { exists (frames s). split; [apply allocs_none|by left]. }
    destruct (decide (f = INVALID_FRAME)) as [->|Hne].
    { rewrite Z.eqb_refl. exists (frames s). split; [apply allocs_none|]. right. split; [done|by exists fs]. }
    rewrite (proj2 (Z.eqb_neq _ _)) by done. cbn [negb c_assert mbind outcome_bind].
    destruct (alloc_step _ _ _ (vo_wf s Hok) Eal Hne) as (Hwf & Hfm & _ & _ & Hfr & Hkf & _).
    pose proof (frames_ok s f fs Hok Eal Hne) as Hok1.
    destruct (Hp 0 ltac:(lia)) as [He0 Hu0]. rewrite Z.mul_0_r, Z.add_0_r in He0, Hu0.
    pose proof (map_page (with_frames s fs) page f 3 Hok1 Ha (user_managed _ Hu0) He0 Hfm Hfr ltac:(lia) eq_refl) as Hmap.
    change (Z.lor VMM_PAGE_PRESENT VMM_PAGE_WRITABLE) with 3.
    destruct (vmm_map (with_frames s fs) page f 3) as [s2|e]; cbn [mbind outcome_bind].
    2: { exists fs. split; [|exact Hmap]. by eapply allocs_one; [done|done|apply allocs_none]. }
    destruct Hmap as (Hok2 & Hal2 & Htb & Hkd & Hcr & Hent). cbn [frames with_frames cr3] in *.
    destruct (allocs_keep _ _ Hal2 Hwf) as (_ & Hkf2 & _).
    assert (keeps_data s s2) as Hkd1.
    { intros g Hg Hgf. apply (Hkd g Hg). intros Hcc. apply Hgf, Hkf; [apply Hg|done]. }
    assert (u32 (page + PAGE_SIZE) = page + 4096) as -> by (unfold PAGE_SIZE; apply u32_small; lia).
    specialize (IH n s2 (page + 4096) limit Hok2 ltac:(lia) ltac:(by rewrite <- (Z.mul_1_l 4096), Z.mod_add by lia) Hc ltac:(lia)).
    destruct (map_segment n s2 (page + 4096) limit) as [s'|e].
    + destruct IH as (Hok' & Hmp & Hkd' & Hcr'); [|lia|].
      { intros i Hi. replace (page + 4096 + 4096 * i) with (page + 4096 * (i + 1)) by lia.
        destruct (Hp (i + 1) ltac:(lia)) as [He Hu]. split; [|done]. rewrite Hent by (by apply user_managed).
        by rewrite (proj2 (covers_false _ _ _)) by lia. }
      split; [done|]. split; [by eapply (mapped_cons s s2 s' page m 3 f fs)|]. split; [|congruence].
      eapply keeps_trans; [exact Hkd1|exact Hkd'|]. intros q Hq Hqf. by apply Hkf, Hkf2.
    + destruct IH as (fs2 & Ha2 & Hf2); [|lia|].
      { intros i Hi. replace (page + 4096 + 4096 * i) with (page + 4096 * (i + 1)) by lia.
        destruct (Hp (i + 1) ltac:(lia)) as [He Hu]. split; [|done]. rewrite Hent by (by apply user_managed).
        by rewrite (proj2 (covers_false _ _ _)) by lia. }
      exists fs2. split; [|done]. eapply allocs_one; [done|done|by eapply allocs_trans].
Qed.

Lemma protect_segment_ok fl : 0 <= fl < 4096 -> Z.testbit fl 0 = true ->
  forall m n s page limit, vm_ok s -> 0 <= page -> page mod 4096 = 0 -> page_count m page limit ->
  page + 4096 * Z.of_nat m < 2 ^ 32 ->
  (forall i, 0 <= i < Z.of_nat m -> entry s (page + 4096 * i) <> None /\ user_page (page + 4096 * i)) -> (m < n)%nat ->
  exists s', protect_segment n s page limit fl = Ret s' /\ vm_ok s' /\ frames s' = frames s /\ cr3 s' = cr3 s /\
    keeps_data s s' /\ forall va, managed va -> entry s' va =
      if covers page (Z.of_nat m) va then (p ← entry s va; Some (p.1, fl)) else entry s va.
Proof.
  intros Hfl Hfp. induction m as [|m IH]; intros [|n] s page limit Hok H0 Ha Hc Hl Hp Hn; try lia; cbn [protect_segment].
  - destruct Hc as [Hc _]. rewrite (proj2 (Z.ltb_ge _ _)) by lia. exists s. split; [done|]. split; [done|].
    split; [done|]. split; [done|]. split; [apply keeps_refl|]. intros va _. by rewrite (proj2 (covers_false _ _ _)) by lia.
  - apply page_count_S in Hc as [Hlt Hc]. rewrite (proj2 (Z.ltb_lt _ _)) by done.
    destruct (Hp 0 ltac:(lia)) as [He0 Hu0]. rewrite Z.mul_0_r, Z.add_0_r in He0, Hu0.
    destruct (entry s page) as [[f fl0]|] eqn:Ee; [|done].
    destruct (remap_ok s page f fl0 fl Hok Ha (managed_dir _ (user_managed _ Hu0)) Ee Hfl Hfp)
      as (s1 & -> & Hok1 & Hf1 & Hc1 & Hkd1 & Hent1). cbn [mbind outcome_bind].
    assert (forall va, managed va -> entry s1 va = if covers page 1 va then Some (f, fl) else entry s va) as He1.
    { intros va Hva. rewrite Hent1 by (by apply managed_dir). rewrite page_eqb, covers_page by (done || by apply user_managed). done. }
    assert (u32 (page + PAGE_SIZE) = page + 4096) as -> by (unfold PAGE_SIZE; apply u32_small; lia).
    destruct (IH n s1 (page + 4096) limit) as (s' & -> & Hok' & Hf' & Hc' & Hkd' & Hent'); [done|lia| |done|lia| |lia|].
    { by rewrite <- (Z.mul_1_l 4096), Z.mod_add by lia. }
    { intros i Hi. replace (page + 4096 + 4096 * i) with (page + 4096 * (i + 1)) by lia.
      destruct (Hp (i + 1) ltac:(lia)) as [He Hu]. split; [|done]. rewrite He1 by (by apply user_managed).
      by rewrite (proj2 (covers_false _ _ _)) by lia. }
    exists s'. split; [done|]. split; [done|]. split; [congruence|]. split; [congruence|].
    split; [eapply keeps_trans; [exact Hkd1|exact Hkd'|by rewrite Hf1]|].
    intros va Hva. rewrite Hent', He1 by done.
    destruct (covers page 1 va) eqn:E1.
    + apply covers_iff in E1. rewrite (proj2 (covers_false (page + 4096) _ _)) by lia.
      rewrite (proj2 (covers_iff page _ _)) by lia.
      rewrite (entry_same_page s va page); [by rewrite Ee|].
      pose proof (Z.div_mod page 4096). pose proof (Z.div_mod va 4096). pose proof (Z.mod_pos_bound va 4096). lia.
    + apply covers_false in E1. destruct (covers (page + 4096) (Z.of_nat m) va) eqn:E2, (covers page (Z.of_nat (S m)) va) eqn:E3; try done;
        rewrite ?covers_iff, ?covers_false in *; lia.
Qed.
End bytes.
