(* ===== verification/ElfClaims.v ===== *)
(** What [load_elf] leaves in memory ([kernel/elf.c]). *)
From S2P Require Import Prelude Util Mem Bitset Pmm Vmm VmmSpec VmmClaims VmmSpaces MmapClaims Elf ElfSpec.

(** Words with the same bytes are equal. *)
Lemma word_ext v w : 0 <= v < 2 ^ 32 -> 0 <= w < 2 ^ 32 ->
  (forall i, 0 <= i < 4 -> word_byte v i = word_byte w i) -> v = w.
Proof.
  intros Hv Hw Hb. apply Z.bits_inj'. intros n Hn. destruct (Z.lt_ge_cases n 32); cycle 1.
  { by rewrite !(testbit_range _ 32) by lia. }
  pose proof (Z.div_mod n 8 ltac:(lia)). pose proof (Z.mod_pos_bound n 8 ltac:(lia)).
  assert (0 <= n / 8 < 4) by (split; [apply Z.div_pos; lia|apply Z.div_lt_upper_bound; lia]).
  assert (forall x, Z.testbit x n = Z.testbit (word_byte x (n / 8)) (n mod 8)) as Hx.
  { intros x. rewrite word_byte_testbit, (proj2 (Z.ltb_lt _ _)) by lia. cbn [andb]. f_equal. lia. }
  by rewrite (Hx v), (Hx w), Hb.
Qed.

Lemma frame_bytes_apart f f' o o' : f mod 4096 = 0 -> f' mod 4096 = 0 -> 0 <= o < 4096 -> 0 <= o' < 4096 ->
  f + o = f' + o' -> f = f' /\ o = o'.
Proof. intros Hf Hf' Ho Ho' E. pose proof (Z.div_mod f 4096). pose proof (Z.div_mod f' 4096). nia. Qed.

(** ** The file *)

(** A little-endian field of [n] bytes of the file. *)
Definition field (img : list Z) (o : Z) (n : nat) : Z := le_decode (take n (drop (Z.to_nat o) img)).

(** The program header at offset [p] of the file: whether it is loaded, where, what, how. *)
Definition seg_load (img : list Z) (p : Z) : bool := field img (p + p_type) 4 =? PT_LOAD.
Definition seg_start (img : list Z) (p : Z) : Z := field img (p + p_vaddr) 4.
Definition seg_memsz (img : list Z) (p : Z) : Z := field img (p + p_memsz) 4.
Definition seg_filesz (img : list Z) (p : Z) : Z := field img (p + p_filesz) 4.
Definition seg_offset (img : list Z) (p : Z) : Z := field img (p + p_offset) 4.
Definition seg_pages (img : list Z) (p : Z) : nat := Z.to_nat ((seg_memsz img p + 4095) / 4096).
Definition seg_flags (img : list Z) (p : Z) : Z := if Z.testbit (field img (p + p_flags) 4) 1 then 7 else 5.
(** The bytes of the file, then zeros. *)
Definition seg_data (img : list Z) (p : Z) : list Z :=
  take (Z.to_nat (seg_filesz img p)) (drop (Z.to_nat (seg_offset img p)) img) ++
  replicate (Z.to_nat (seg_memsz img p - seg_filesz img p)) 0.
(** The address belongs to a page of the segment. *)
Definition in_segment (img : list Z) (p va : Z) : bool :=
  covers (seg_start img p) (Z.of_nat (seg_pages img p)) va.

Record seg_ok (img : list Z) (p : Z) : Prop := {
  so_memsz : seg_memsz img p <> 0;
  so_aligned : seg_start img p mod 4096 = 0;
  so_low : USER_START <= seg_start img p;
  so_high : seg_start img p + seg_memsz img p <= USER_END;
  so_filesz : seg_filesz img p <= seg_memsz img p;
  so_inside : seg_offset img p + seg_filesz img p <= Z.of_nat (length img)
}.

Lemma field_range img o n : Forall is_byte img -> 0 <= field img o n < 256 ^ Z.of_nat n.
Proof.
  intros Hb. unfold field. pose proof (le_decode_range (take n (drop (Z.to_nat o) img))) as Hr.
  rewrite length_take in Hr. pose proof (Z.pow_le_mono_r 256 (Z.of_nat (n `min` length (drop (Z.to_nat o) img))) (Z.of_nat n)).
  specialize (Hr ltac:(by apply Forall_take, Forall_drop)). lia.
Qed.

Lemma field_range4 img o : Forall is_byte img -> 0 <= field img o 4 < 2 ^ 32.
Proof. intros Hb. by apply (field_range img o 4). Qed.

Lemma seg_pages_count img p : Forall is_byte img -> seg_ok img p ->
  page_count (seg_pages img p) (seg_start img p) (seg_start img p + seg_memsz img p) /\
  seg_start img p + 4096 * Z.of_nat (seg_pages img p) <= KERNEL_START /\
  seg_memsz img p <= 4096 * Z.of_nat (seg_pages img p) /\
  segment_fuel (seg_start img p) (seg_start img p + seg_memsz img p) = S (seg_pages img p).
Proof.
  intros Hb [H1 H2 H3 H4 _ _]. pose proof (field_range4 img (p + p_memsz) Hb) as Hm. fold (seg_memsz img p) in Hm.
  unfold seg_pages, segment_fuel, page_count, USER_START, USER_END, KERNEL_START in *.
  replace (seg_start img p + seg_memsz img p - seg_start img p + 4095) with (seg_memsz img p + 4095) by lia.
  pose proof (Z.div_mod (seg_memsz img p + 4095) 4096 ltac:(lia)). pose proof (Z.mod_pos_bound (seg_memsz img p + 4095) 4096 ltac:(lia)).
  rewrite !Z2Nat.id by (apply Z.div_pos; lia). pose proof (Z.div_mod (seg_start img p) 4096 ltac:(lia)).
  split; [|split; [lia|split; [lia|done]]]. split; [lia|]. lia.
Qed.

Lemma seg_data_length img p : Forall is_byte img -> seg_ok img p ->
  Z.of_nat (length (seg_data img p)) = seg_memsz img p /\ Forall is_byte (seg_data img p).
Proof.
  intros Hb [_ _ _ _ H5 H6]. pose proof (field_range4 img (p + p_filesz) Hb) as Hf. fold (seg_filesz img p) in Hf.
  pose proof (field_range4 img (p + p_offset) Hb) as Ho. fold (seg_offset img p) in Ho. unfold seg_data.
  rewrite length_app, length_take, length_drop, length_replicate. split; [lia|].
  apply Forall_app. split; [by apply Forall_take, Forall_drop|]. apply Forall_replicate. done.
Qed.

Section claims.
Context {F : Type} `{FrameAllocator F}.
Implicit Types s : vmm F.

Lemma holds_limit s fd img : holds s fd img -> img <> [] -> 0 <= fd -> fd + Z.of_nat (length img) <= 0xFFC00000.
Proof.
  intros Hh Hne Hfd. destruct (last img) as [b|] eqn:El; [|by apply last_None in El].
  rewrite last_lookup in El. destruct (Hh _ _ El) as [Hm _]. unfold managed in Hm.
  assert (length img <> 0%nat) by (by destruct img). lia.
Qed.

Lemma vfield_ok s fd img o (n : nat) : vm_ok s -> holds s fd img -> 0 <= fd -> 0 <= o -> (0 < n)%nat ->
  o + Z.of_nat n <= Z.of_nat (length img) -> vfield n s (u32 (fd + o)) = Ret (field img o n).
Proof.
  intros Hok Hh Hfd Ho Hn Hl. assert (img <> []) as Hne by (destruct img; [cbn in Hl; lia|done]).
  pose proof (holds_limit s fd img Hh Hne Hfd). rewrite u32_small by lia. unfold vfield, field.
  pose proof (holds_slice s fd img (Z.to_nat o) n Hh) as Hs. rewrite Z2Nat.id in Hs by done.
  pose proof (vload_bytes_ok _ s (fd + o) Hok (holds_bytes_at _ _ _ Hs)) as Hv.
  rewrite length_take, length_drop, Nat.min_l in Hv by lia. by rewrite Hv.
Qed.

(** ** Filling the pages of a segment *)
Lemma pbyte_word (m : pmem) f i j : f mod 4096 = 0 -> 0 <= i -> 0 <= j < 4 ->
  pbyte m (f + (4 * i + j)) = word_byte (pload m (f + 4 * i)) j.
Proof.
  intros Hf Hi Hj. unfold pbyte. pose proof (Z.div_mod f 4096 ltac:(lia)) as Hd. rewrite Hf in Hd.
  replace (f + (4 * i + j)) with (j + (1024 * (f / 4096) + i) * 4) by lia. rewrite Z.mod_add, Z.mod_small by lia.
  do 2 f_equal. lia.
Qed.

Lemma keeps_written s1 s2 s3 : vm_ok s2 -> keeps_data s1 s2 -> same_space s2 s3 ->
  (forall f o, data_frame s1 f -> fa_frame (frames s1) f <> Free -> 0 <= o < 4096 ->
     pbyte (phys s3) (f + o) = pbyte (phys s2) (f + o)) -> keeps_data s1 s3.
Proof.
  intros Hok Hk Hs Hb f Hd Hf. destruct (Hk f Hd Hf) as [Hd2 Hw]. split; [by eapply same_space_data|].
  intros i Hi. rewrite <- Hw by done. apply word_ext; [apply pload_range, (ss_ok _ _ Hs)|by apply pload_range|].
  intros j Hj. rewrite <- !(pbyte_word _ f i j) by (apply Hd || lia). apply Hb; (done || lia).
Qed.

(** The bytes of a range lie in frames that were free in [s] and are taken in [s1]. *)
Definition fresh_range s s1 (va n : Z) : Prop := forall k, 0 <= k < n -> managed (va + k) /\
  exists f, entry s1 (va + k) = Some (f, 3) /\ f mod 4096 = 0 /\ fa_frame (frames s) f = Free /\
    fa_frame (frames s1) f = Reserved.

Lemma mapped_range s s1 va m n : vm_ok s -> vm_ok s1 -> mapped s s1 va m 3 -> cr3 s1 = cr3 s -> va mod 4096 = 0 -> 0 <= va ->
  va + 4096 * Z.of_nat m <= KERNEL_START -> n <= 4096 * Z.of_nat m ->
  fresh_range s s1 va n /\ writable s1 va n /\ unaliased s1 va n.
Proof.
  intros Hok Hok1 Hm Hc Ha H0 Hl Hn. unfold KERNEL_START in Hl.
  assert (forall k, 0 <= k < n -> 0 <= k / 4096 < Z.of_nat m /\ entry s1 (va + k) = entry s1 (va + 4096 * (k / 4096)) /\
    (va + k) mod 4096 = k mod 4096) as Hp.
  { intros k Hk. split; [split; [apply Z.div_pos; lia|apply Z.div_lt_upper_bound; lia]|].
    pose proof (Z.div_mod va 4096 ltac:(lia)) as Hd. rewrite Ha in Hd. split.
    - apply entry_same_page. rewrite (Z.mul_comm 4096 (k / 4096)), Z.div_add by lia.
      replace (va + k) with (k + (va / 4096) * 4096) by lia. rewrite Z.div_add by lia. lia.
    - replace (va + k) with (k + (va / 4096) * 4096) by lia. by rewrite Z.mod_add by lia. }
  assert (fresh_range s s1 va n) as Hfr.
  { intros k Hk. destruct (Hp k Hk) as (Hi & He & _). split; [unfold managed; lia|].
    destruct (mp_pages _ _ _ _ _ Hm _ Hi) as (f & Hf & H1 & H2). exists f. rewrite He. split; [done|].
    split; [by eapply (frame_aligned s1)|done]. }
  split; [done|]. split.
  - intros k Hk. destruct (Hfr k Hk) as (Hmk & f & He & Hfm & Hf1 & _). split; [done|]. exists f, 3. split; [done|].
    split; [done|]. split; [done|]. split; [intros ->; by apply (vo_cr3_used s Hok); rewrite <- Hc|].
    intros d Hd Hpd. destruct (Hp k Hk) as (Hi & He' & _). rewrite He' in He. by eapply (mp_tables _ _ _ _ _ Hm).
  - intros j k c Hj Hk. unfold paddr. destruct (Hfr j Hj) as (_ & f & He & Hfm & _), (Hfr k Hk) as (_ & g & Hg & Hgm & _).
    rewrite He, Hg. destruct (Hp j Hj) as (Hij & Hej & Hmj), (Hp k Hk) as (Hik & Hek & Hmk). intros [= E1] [= E2].
    destruct (frame_bytes_apart f g ((va + j) mod 4096) ((va + k) mod 4096)) as [-> Eo]; [done|done| | |lia|];
      try (apply Z.mod_pos_bound; lia). rewrite Hej in He. rewrite Hek in Hg.
    pose proof (mp_inj _ _ _ _ _ Hm _ _ g Hij Hik He Hg). pose proof (Z.div_mod j 4096). pose proof (Z.div_mod k 4096). lia.
Qed.

Lemma fresh_apart s s1 va n f o k : fresh_range s s1 va n -> f mod 4096 = 0 -> fa_frame (frames s) f <> Free ->
  0 <= o < 4096 -> 0 <= k < n -> paddr s1 (va + k) <> Some (f + o).
Proof.
  intros Hfr Hf Hn Ho Hk. unfold paddr. destruct (Hfr k Hk) as (_ & g & He & Hg & Hgf & _). rewrite He. intros [= E].
  destruct (frame_bytes_apart g f ((va + k) mod 4096) o) as [-> _]; [done|done| |done|done|done].
  apply Z.mod_pos_bound. lia.
Qed.

Lemma holds_same s s2 va bs : same_space s s2 -> holds s va bs ->
  (forall f o, data_frame s f -> 0 <= o < 4096 -> (exists k fl, 0 <= k < Z.of_nat (length bs) /\ entry s (va + k) = Some (f, fl)) ->
     pbyte (phys s2) (f + o) = pbyte (phys s) (f + o)) -> holds s2 va bs.
Proof.
  intros Hs Hh Hb k b Hk. pose proof (lookup_lt_Some _ _ _ Hk). destruct (Hh k b Hk) as (Hm & f & fl & He & Hd & Hf & Hv).
  split; [done|]. exists f, fl. split; [by rewrite (ss_entry _ _ Hs)|]. split; [by eapply same_space_data|].
  split; [by rewrite (ss_frames _ _ Hs)|]. rewrite Hb; [done|done|apply Z.mod_pos_bound; lia|].
  exists (Z.of_nat k), fl. split; [lia|done].
Qed.

(** [memcpy] from the file, which lies above the segment. *)
Lemma copy_segment s va fd img off fsz : vm_ok s -> writable s va fsz -> holds s fd img -> KERNEL_START <= fd ->
  va < KERNEL_START -> 0 <= fsz -> 0 <= off -> off + fsz <= Z.of_nat (length img) ->
  (forall j k, 0 <= j < fsz -> 0 <= k < fsz -> managed (fd + off + k) -> paddr s (va + j) <> paddr s (fd + off + k)) ->
  (if nz fsz then vmemcpy s va (u32 (fd + off)) fsz else Ret s) =
  vwrite s va (take (Z.to_nat fsz) (drop (Z.to_nat off) img)).
Proof.
  intros Hok Hw Hh Hfd Hva Hf0 Hoff Hin Hap. set (bs := take (Z.to_nat fsz) (drop (Z.to_nat off) img)).
  assert (Z.of_nat (length bs) = fsz) as Hbl by (unfold bs; rewrite length_take, length_drop; lia).
  destruct (nz fsz) eqn:Ez; cycle 1.
  { destruct bs; [done|]. unfold nz in Ez. breflect. cbn in Hbl. lia. }
  assert (img <> []) as Hne by (unfold nz in Ez; breflect; intros ->; cbn in Hin; lia).
  pose proof (holds_limit s fd img Hh Hne ltac:(unfold KERNEL_START in *; lia)) as Hlim.
  assert (0 < fsz) by (unfold nz in Ez; breflect; lia).
  rewrite (u32_small (fd + off)) by (unfold KERNEL_START in *; lia). unfold vmemcpy.
  rewrite (proj2 (Z.ltb_ge (fd + off) va)) by lia. cbn [andb].
  assert (holds s (fd + off) bs) as Hhb.
  { pose proof (holds_slice s fd img (Z.to_nat off) (Z.to_nat fsz) Hh) as Hs. by rewrite Z2Nat.id in Hs by lia. }
  replace (Z.to_nat fsz) with (length bs) by lia.
  apply vcopy_up_eq; [done|by rewrite Hbl|by apply holds_bytes_at|]. rewrite Hbl. intros j k Hj Hk. apply Hap; [done|done|].
  destruct (lookup_lt_is_Some_2 bs (Z.to_nat k)) as [b Hb]; [lia|]. destruct (Hhb _ _ Hb) as [Hmk _]. by rewrite Z2Nat.id in Hmk by lia.
Qed.

(** [bzero] of the segment, then [memcpy] of its bytes in the file. *)
Lemma fill_ok s s1 va n fd img off fsz : vm_ok s1 -> fresh_range s s1 va n -> writable s1 va n -> unaliased s1 va n ->
  holds s fd img -> holds s1 fd img -> (forall k, 0 <= k < Z.of_nat (length img) -> entry s1 (fd + k) = entry s (fd + k)) ->
  KERNEL_START <= fd -> 0 <= va < KERNEL_START -> 0 <= fsz <= n -> 0 <= off -> off + fsz <= Z.of_nat (length img) ->
  exists s2 s3, vbzero (Z.to_nat n) s1 va = Ret s2 /\ vm_ok s2 /\ holds s2 fd img /\
    (if nz fsz then vmemcpy s2 va (u32 (fd + off)) fsz else Ret s2) = Ret s3 /\ same_space s1 s3 /\
    (forall k b c, (take (Z.to_nat fsz) (drop (Z.to_nat off) img) ++ replicate (Z.to_nat (n - fsz)) 0) !! k = Some b ->
       paddr s1 (va + Z.of_nat k) = Some c -> pbyte (phys s3) c = b) /\
    (forall f o, f mod 4096 = 0 -> fa_frame (frames s) f <> Free -> 0 <= o < 4096 ->
       pbyte (phys s3) (f + o) = pbyte (phys s1) (f + o)).
Proof.
  intros Hok1 Hfr Hw Hun Hh Hh1 Hsame Hfd Hva Hfsz Hoff Hin. rewrite vbzero_eq.
  set (bs := take (Z.to_nat fsz) (drop (Z.to_nat off) img)).
  assert (Z.of_nat (length bs) = fsz) as Hbl by (unfold bs; rewrite length_take, length_drop; lia).
  destruct (vwrite_ok (replicate (Z.to_nat n) 0) s1 va Hok1) as (s2 & -> & Hs2 & Hin2 & Hout2);
    [by rewrite length_replicate, Z2Nat.id by lia..|]. rewrite length_replicate, Z2Nat.id in Hout2 by lia.
  assert (forall f k fl, 0 <= k < Z.of_nat (length img) -> entry s1 (fd + k) = Some (f, fl) ->
    f mod 4096 = 0 /\ fa_frame (frames s) f <> Free) as Himg.
  { intros f k fl Hk He. rewrite Hsame in He by done. destruct (lookup_lt_is_Some_2 img (Z.to_nat k)) as [b Hb]; [lia|].
    destruct (Hh _ _ Hb) as (_ & g & gl & Hg & Hd & Hgf & _). rewrite Z2Nat.id in Hg by lia.
    rewrite He in Hg. injection Hg as <- <-. split; [apply Hd|done]. }
  assert (holds s2 fd img) as Hh2.
  { eapply holds_same; [exact Hs2|exact Hh1|]. intros f o Hd Ho (k & fl & Hk & He). destruct (Himg f k fl Hk He).
    apply Hout2. intros j Hj. by apply (fresh_apart s s1 va n). }
  assert (writable s2 va fsz) as Hw2 by (eapply writable_same; [exact Hs2|]; intros k Hk; apply Hw; lia).
  assert (unaliased s2 va fsz) as Hun2.
  { intros j k c Hj Hk. rewrite !(same_space_paddr s1 s2) by (done || by apply Hw; lia). apply Hun; lia. }
  destruct (vwrite_ok bs s2 va (ss_ok _ _ Hs2)) as (s3 & Ew & Hs3 & Hin3 & Hout3); [by rewrite Hbl..|].
  assert ((if nz fsz then vmemcpy s2 va (u32 (fd + off)) fsz else Ret s2) = Ret s3) as E3.
  { rewrite <- Ew. apply copy_segment; try (done || lia); [apply (ss_ok _ _ Hs2)|].
    intros j k Hj Hk Hmk. rewrite (same_space_paddr s1 s2) by (done || by apply Hw; lia). unfold paddr at 2.
    rewrite (ss_entry _ _ Hs2) by done. rewrite <- Z.add_assoc. destruct (entry s1 (fd + (off + k))) as [[g gl]|] eqn:Hg.
    - destruct (Himg g (off + k) gl) as [? ?]; [lia|done|].
      apply (fresh_apart s s1 va n); [done|done|done|apply Z.mod_pos_bound; lia|lia].
    - unfold paddr. destruct (Hfr j ltac:(lia)) as (_ & f & -> & _). done. }
  exists s2, s3. split; [done|]. split; [apply (ss_ok _ _ Hs2)|]. split; [done|]. split; [done|].
  split; [by eapply same_space_trans|]. split.
  - intros k b c Hk Hc. destruct (Z.lt_ge_cases (Z.of_nat k) fsz).
    + rewrite lookup_app_l in Hk by lia. rewrite (Hin3 k b c Hk).
      * apply u8_small. pose proof (holds_byte _ _ _ Hh) as Hall. rewrite Forall_forall in Hall. apply Hall.
        apply list_elem_of_lookup_2 in Hk. apply elem_of_take in Hk as (i & Hk & _). rewrite lookup_drop in Hk. by eapply list_elem_of_lookup_2.
      * rewrite (same_space_paddr s1 s2); [done|done|]. apply Hw. lia.
    + rewrite lookup_app_r in Hk by lia. apply lookup_replicate in Hk as [-> Hk].
      rewrite Hout3.
      * rewrite (Hin2 k 0 c); [done| |done]. apply lookup_replicate. split; [done|lia].
      * intros j Hj. rewrite (same_space_paddr s1 s2) by (done || by apply Hw; lia). intros Hc'.
        pose proof (Hun j (Z.of_nat k) c ltac:(lia) ltac:(lia) Hc' Hc). lia.
  - intros f o Hf Hnf Ho. rewrite Hout3, Hout2; [done| |].
    + intros j Hj. by apply (fresh_apart s s1 va n).
    + intros j Hj. rewrite (same_space_paddr s1 s2) by (done || by apply Hw; lia). apply (fresh_apart s s1 va n); (done || lia).
Qed.

(** ** Segments *)
Record seg_loaded s s' (img : list Z) (p : Z) : Prop := {
  sl_pages i : 0 <= i < Z.of_nat (seg_pages img p) -> exists f,
    entry s' (seg_start img p + 4096 * i) = Some (f, seg_flags img p) /\ fa_frame (frames s) f = Free;
  sl_data : holds s' (seg_start img p) (seg_data img p)
}.

(** What loading the program headers at the offsets [ps] does to the address space. *)
Record loads s s' (img : list Z) (ps : list Z) : Prop := {
  ld_ok : vm_ok s';
  ld_allocs : allocs (frames s) (frames s');
  ld_cr3 : cr3 s' = cr3 s;
  ld_keeps : keeps_data s s';
  ld_seg p : p ∈ ps -> seg_load img p = true -> seg_loaded s s' img p;
  ld_other va : managed va -> (forall p, p ∈ ps -> seg_load img p = true -> in_segment img p va = false) ->
    entry s' va = entry s va
}.

Lemma loads_skip s img ps : vm_ok s -> (forall p, p ∈ ps -> seg_load img p = false) -> loads s s img ps.
Proof.
  intros Hok Hp. split; [done|apply allocs_none|done|apply keeps_refl| |done].
  intros p Hin Hl. rewrite Hp in Hl; done.
Qed.

(** A segment's first bytes and pages are those of its page range. *)
Lemma in_segment_user img p va : Forall is_byte img -> seg_ok img p -> in_segment img p va = true -> 0 <= va < KERNEL_START.
Proof.
  intros Hb Hso Hi. destruct (seg_pages_count img p Hb Hso) as (_ & Hk & _). apply covers_iff in Hi.
  pose proof (so_low _ _ Hso). unfold USER_START in *. lia.
Qed.

Lemma loads_image s s' fd img ps : vm_ok s -> loads s s' img ps -> holds s fd img -> KERNEL_START <= fd ->
  (forall p, p ∈ ps -> seg_load img p = true -> seg_ok img p) -> holds s' fd img.
Proof.
  intros Hok Hl Hh Hfd Hso. pose proof (holds_byte _ _ _ Hh) as Hb.
  destruct (allocs_keep _ _ (ld_allocs _ _ _ _ Hl) (vo_wf s Hok)) as (_ & Hk & _).
  eapply holds_keep; [exact Hok|apply Hl|exact Hk| |exact Hh].
  intros k Hlk. destruct (lookup_lt_is_Some_2 img (Z.to_nat k)) as [b Hbk]; [lia|].
  destruct (Hh _ _ Hbk) as (Hm & f & fl & He & _). rewrite Z2Nat.id in Hm, He by lia. exists f, fl, fl. split; [done|].
  rewrite (ld_other _ _ _ _ Hl); [done|done|]. intros p Hp Hld.
  destruct (in_segment img p (fd + k)) eqn:Ei; [|done]. apply in_segment_user in Ei; [lia|done|by apply Hso].
Qed.

(** Two segments share no page. *)
Definition seg_apart (img : list Z) (p q : Z) : Prop :=
  forall va, in_segment img p va = true -> in_segment img q va = false.

Lemma loads_cons s s1 s2 img p ps : vm_ok s -> Forall is_byte img -> loads s s1 img [p] -> loads s1 s2 img ps ->
  (seg_load img p = true -> seg_ok img p) ->
  (forall q, q ∈ ps -> seg_load img p = true -> seg_load img q = true -> seg_apart img p q) -> loads s s2 img (p :: ps).
Proof.
  intros Hok Hb H1 H2 Hso Hap. pose proof (ld_ok _ _ _ _ H1) as Hok1.
  destruct (allocs_keep _ _ (ld_allocs _ _ _ _ H1) (vo_wf s Hok)) as (_ & Hk1 & _).
  destruct (allocs_keep _ _ (ld_allocs _ _ _ _ H2) (vo_wf s1 Hok1)) as (_ & Hk2 & _).
  assert (forall va, seg_load img p = true -> in_segment img p va = true -> entry s2 va = entry s1 va) as Hp.
  { intros va Hlp Hin. apply (ld_other _ _ _ _ H2).
    - apply in_segment_user in Hin; [|done|by apply Hso]. unfold managed, KERNEL_START in *. lia.
    - intros q Hq Hlq. by apply (Hap q). }
  split.
  - apply H2.
  - eapply allocs_trans; [apply H1|apply H2].
  - by rewrite (ld_cr3 _ _ _ _ H2), (ld_cr3 _ _ _ _ H1).
  - by eapply keeps_trans; [apply (ld_keeps _ _ _ _ H1)|apply (ld_keeps _ _ _ _ H2)|].
  - intros q Hq Hlq. apply elem_of_cons in Hq as [->|Hq].
    + destruct (ld_seg _ _ _ _ H1 p ltac:(by apply list_elem_of_singleton) Hlq) as [Hpg Hda].
      destruct (seg_pages_count img p Hb (Hso Hlq)) as (_ & _ & Hms & _).
      destruct (seg_data_length img p Hb (Hso Hlq)) as [Hdl _]. split.
      * intros i Hi. rewrite Hp; [by apply Hpg|done|]. apply covers_iff. lia.
      * eapply holds_keep; [exact Hok1|apply H2|exact Hk2| |exact Hda]. intros k Hk.
        destruct (lookup_lt_is_Some_2 (seg_data img p) (Z.to_nat k)) as [b Hbk]; [lia|].
        destruct (Hda _ _ Hbk) as (_ & f & fl & He & _). rewrite Z2Nat.id in He by lia. exists f, fl, fl.
        split; [done|]. rewrite Hp; [done|done|]. apply covers_iff. lia.
    + destruct (ld_seg _ _ _ _ H2 q Hq Hlq) as [Hpg Hda]. split; [|done]. intros i Hi.
      destruct (Hpg i Hi) as (f & He & Hf). exists f. split; [done|]. apply Hk1; [|done].
      by eapply (frame_aligned s2); [apply H2|].
  - intros va Hva Hn. rewrite (ld_other _ _ _ _ H2), (ld_other _ _ _ _ H1); [done|done| |done|].
    + intros q Hq%list_elem_of_singleton. subst q. apply Hn. by left.
    + intros q Hq. apply Hn. by right.
Qed.

(** A field of the program header at offset [p]. *)
Lemma phdr_field s fd img p o : vm_ok s -> holds s fd img -> 0 <= fd -> 0 <= p -> 0 <= o <= 28 ->
  p + sizeof_phdr <= Z.of_nat (length img) -> vfield 4 s (u32 (u32 (fd + p) + o)) = Ret (field img (p + o) 4).
Proof.
  intros Hok Hh Hfd Hp Ho Hl. unfold sizeof_phdr in Hl. replace (u32 (u32 (fd + p) + o)) with (u32 (fd + (p + o)))
    by (unfold u32; rewrite Zplus_mod_idemp_l; f_equal; lia).
  apply vfield_ok; (done || lia).
Qed.

(** Protecting the pages of a filled segment. *)
Lemma protect_loaded s s1 s3 img p : vm_ok s -> Forall is_byte img -> seg_ok img p ->
  vm_ok s1 -> mapped s s1 (seg_start img p) (seg_pages img p) 3 -> cr3 s1 = cr3 s -> keeps_data s s3 ->
  fresh_range s s1 (seg_start img p) (seg_memsz img p) -> writable s1 (seg_start img p) (seg_memsz img p) ->
  same_space s1 s3 ->
  (forall k b c, seg_data img p !! k = Some b -> paddr s1 (seg_start img p + Z.of_nat k) = Some c -> pbyte (phys s3) c = b) ->
  exists s', protect_segment (S (seg_pages img p)) s3 (seg_start img p) (seg_start img p + seg_memsz img p) (seg_flags img p) = Ret s' /\
    (seg_load img p = true -> loads s s' img [p]).
Proof.
  intros Hok Hb Hso Hok1 Hm Hc Hk3 Hfr Hw Hs3 Hdat.
  destruct (seg_pages_count img p Hb Hso) as (Hpc & Hend & Hms & _). destruct (seg_data_length img p Hb Hso) as [Hdl _].
  pose proof (so_low _ _ Hso) as Hlow. unfold USER_START, KERNEL_START in *.
  assert (forall i, 0 <= i < Z.of_nat (seg_pages img p) -> user_page (seg_start img p + 4096 * i)) as Hup.
  { intros i Hi. unfold user_page, USER_START, USER_END. lia. }
  destruct (protect_segment_ok (seg_flags img p) ltac:(unfold seg_flags; destruct (Z.testbit _ 1); lia)
    ltac:(unfold seg_flags; by destruct (Z.testbit _ 1)) (seg_pages img p) (S (seg_pages img p)) s3 (seg_start img p)
    (seg_start img p + seg_memsz img p)) as (s' & E & Hok' & Hf' & Hc' & Hk' & Hent);
    [apply (ss_ok _ _ Hs3)|lia|apply Hso|done|lia| |lia|].
  { intros i Hi. split; [|by apply Hup]. rewrite (ss_entry _ _ Hs3) by (by apply user_managed, Hup).
    destruct (mp_pages _ _ _ _ _ Hm i Hi) as (f & -> & _). done. }
  exists s'. split; [exact E|]. intros Hld. destruct (allocs_keep _ _ (mp_allocs _ _ _ _ _ Hm) (vo_wf s Hok)) as (_ & Hkf & _).
  assert (forall va, managed va -> in_segment img p va = true -> entry s' va = (q ← entry s1 va; Some (q.1, seg_flags img p))) as Hin.
  { intros va Hva Hi. rewrite Hent by done. unfold in_segment in Hi. by rewrite Hi, (ss_entry _ _ Hs3). }
  split.
  - done.
  - rewrite Hf', (ss_frames _ _ Hs3). apply Hm.
  - by rewrite Hc', (ss_cr3 _ _ Hs3).
  - eapply keeps_trans; [exact Hk3|exact Hk'|]. by rewrite (ss_frames _ _ Hs3).
  - intros q ->%list_elem_of_singleton _. split.
    + intros i Hi. destruct (mp_pages _ _ _ _ _ Hm i Hi) as (f & He & Hf & _). exists f. split; [|done].
      rewrite Hin, He; [done|by apply user_managed, Hup|]. apply covers_iff. lia.
    + intros k b Hlk. pose proof (lookup_lt_Some _ _ _ Hlk). destruct (Hfr (Z.of_nat k) ltac:(lia)) as (Hmk & f & He & Hfm & _ & Hres).
      destruct (Hw (Z.of_nat k) ltac:(lia)) as (_ & f' & fl' & He' & _ & Hd). rewrite He in He'. injection He' as <- <-.
      assert (data_frame s3 f) as Hd3 by (by eapply same_space_data).
      assert (fa_frame (frames s3) f <> Free) as Hn3 by (rewrite (ss_frames _ _ Hs3), Hres; done).
      split; [done|]. exists f, (seg_flags img p). split; [rewrite Hin, He; [done|done|apply covers_iff; lia]|].
      split; [by apply (Hk' f)|]. split; [by rewrite Hf'|].
      rewrite (keeps_byte s3 s') by (done || apply Z.mod_pos_bound; lia). apply (Hdat k b); [done|]. unfold paddr. by rewrite He.
  - intros va Hva Hn. specialize (Hn p ltac:(by apply list_elem_of_singleton) Hld). unfold in_segment in Hn.
    rewrite Hent, Hn, (ss_entry _ _ Hs3) by done. by apply (mp_other _ _ _ _ _ Hm).
Qed.

(** Mapping user pages leaves the file in kernel memory alone. *)
Lemma mapped_image s s1 fd img page m : vm_ok s -> mapped s s1 page m 3 -> keeps_data s s1 -> holds s fd img ->
  KERNEL_START <= fd -> page + 4096 * Z.of_nat m <= KERNEL_START ->
  holds s1 fd img /\ forall k, 0 <= k < Z.of_nat (length img) -> entry s1 (fd + k) = entry s (fd + k).
Proof.
  intros Hok Hm Hk1 Hh Hfd Hend. destruct (allocs_keep _ _ (mp_allocs _ _ _ _ _ Hm) (vo_wf s Hok)) as (_ & Hkf & _).
  assert (forall k, 0 <= k < Z.of_nat (length img) -> entry s1 (fd + k) = entry s (fd + k) /\ entry s (fd + k) <> None) as Hmi.
  { intros k Hk. destruct (lookup_lt_is_Some_2 img (Z.to_nat k)) as [b Hbk]; [lia|].
    destruct (Hh _ _ Hbk) as (Hmk & f & fl & He & _). rewrite Z2Nat.id in Hmk, He by lia. rewrite He. split; [|done].
    rewrite <- He. apply (mp_other _ _ _ _ _ Hm); [done|]. apply covers_false. lia. }
  split; [|apply Hmi]. eapply holds_keep; [exact Hok|exact Hk1|exact Hkf| |exact Hh]. intros k Hk.
  destruct (Hmi k Hk) as [-> Hnn]. destruct (entry s (fd + k)) as [[f fl]|]; [|done]. by exists f, fl, fl.
Qed.

Lemma load_segment_ok s fd img p : vm_ok s -> holds s fd img -> KERNEL_START <= fd -> 0 <= p ->
  p + sizeof_phdr <= Z.of_nat (length img) -> (seg_load img p = true -> seg_ok img p) ->
  (seg_load img p = true -> forall va, in_segment img p va = true -> entry s va = None) ->
  match load_segment s fd (u32 (fd + p)) with
  | Ret s' => loads s s' img [p]
  | Fault e => exists fs, allocs (frames s) fs /\ alloc_fails fs e
  end.
Proof.
  intros Hok Hh Hfd Hp Hl Hso Hun. pose proof (holds_byte _ _ _ Hh) as Hb.
  assert (0 <= fd) as Hfd0 by (unfold KERNEL_START in Hfd; lia).
  assert (forall s o, vm_ok s -> holds s fd img -> 0 <= o <= 28 -> vfield 4 s (u32 (u32 (fd + p) + o)) = Ret (field img (p + o) 4)) as Hfld
    by (intros; by apply phdr_field). unfold load_segment.
  rewrite (Hfld s p_type) by (done || unfold p_type; lia). cbn [mbind outcome_bind]. fold (seg_load img p).
  destruct (seg_load img p) eqn:El; cbn [negb]; cycle 1.
  { apply loads_skip; [done|]. by intros q ->%list_elem_of_singleton. }
  specialize (Hso eq_refl). specialize (Hun eq_refl). destruct (seg_pages_count img p Hb Hso) as (Hpc & Hend & Hms & Hfu).
  pose proof Hso as [G1 G2 G3 G4 G5 G6].
  pose proof (field_range4 img (p + p_memsz) Hb) as R1. pose proof (field_range4 img (p + p_filesz) Hb) as R2.
  pose proof (field_range4 img (p + p_offset) Hb) as R3.
  fold (seg_memsz img p) in R1. fold (seg_filesz img p) in R2. fold (seg_offset img p) in R3.
  rewrite (Hfld s p_memsz) by (done || unfold p_memsz; lia). fold (seg_memsz img p). cbn [mbind outcome_bind].
  assert (nz (seg_memsz img p) = true) as -> by (by rewrite nz_true). cbn [c_assert mbind outcome_bind].
  rewrite (Hfld s p_flags) by (done || unfold p_flags; lia). cbn [mbind outcome_bind]. rewrite (Hfld s p_vaddr) by (done || unfold p_vaddr; lia). fold (seg_start img p). cbn [mbind outcome_bind].
  rewrite (u32_small (seg_start img p + seg_memsz img p)) by (unfold USER_START, USER_END in *; lia).
  rewrite (proj2 (Z.leb_le _ _) G3), (proj2 (Z.leb_le _ _) G4), Hfu. cbn [c_assert mbind outcome_bind].
  assert ((if nz (Z.land (field img (p + p_flags) 4) PF_W) then Z.lor (Z.lor VMM_PAGE_PRESENT VMM_PAGE_USER) VMM_PAGE_WRITABLE
      else Z.lor VMM_PAGE_PRESENT VMM_PAGE_USER) = seg_flags img p) as ->.
  { unfold seg_flags. change PF_W with 2. rewrite nz_bit1. by destruct (Z.testbit _ 1). }
  pose proof (map_segment_ok (seg_pages img p) (S (seg_pages img p)) s (seg_start img p) (seg_start img p + seg_memsz img p)
    Hok ltac:(unfold USER_START in *; lia) G2 Hpc ltac:(unfold KERNEL_START in *; lia)) as Hmap.
  destruct (map_segment _ s _ _) as [s1|e]; cbn [mbind outcome_bind]; cycle 1.
  { apply Hmap; [|lia]. intros i Hi. split; [apply Hun, covers_iff; lia|unfold user_page, USER_START, USER_END, KERNEL_START in *; lia]. }
  destruct Hmap as (Hok1 & Hm & Hk1 & Hc1); [|lia|].
  { intros i Hi. split; [apply Hun, covers_iff; lia|unfold user_page, USER_START, USER_END, KERNEL_START in *; lia]. }
  destruct (mapped_range s s1 (seg_start img p) (seg_pages img p) (seg_memsz img p)) as (Hfr & Hw & Hal); try done;
    [unfold USER_START in *; lia|].
  destruct (mapped_image s s1 fd img (seg_start img p) (seg_pages img p)) as [Hh1 Hsame]; try done.
  rewrite (Hfld s1 p_memsz) by (done || unfold p_memsz; lia). fold (seg_memsz img p). cbn [mbind outcome_bind].
  destruct (fill_ok s s1 (seg_start img p) (seg_memsz img p) fd img (seg_offset img p) (seg_filesz img p))
    as (s2 & s3 & -> & Hok2 & Hh2 & E3 & Hs3 & Hdat & Hold); try done; try lia.
  { unfold USER_START, USER_END, KERNEL_START in *. lia. }
  cbn [mbind outcome_bind]. rewrite (Hfld s2 p_filesz) by (done || unfold p_filesz; lia). fold (seg_filesz img p). cbn [mbind outcome_bind].
  assert ((if nz (seg_filesz img p) then offset ← vfield 4 s2 (u32 (u32 (fd + p) + p_offset));
      vmemcpy s2 (seg_start img p) (u32 (fd + offset)) (seg_filesz img p) else Ret s2) = Ret s3) as ->.
  { by rewrite (Hfld s2 p_offset) by (done || unfold p_offset; lia). }
  cbn [mbind outcome_bind].
  destruct (protect_loaded s s1 s3 img p) as (s' & -> & Hld); try done; [|by apply Hld].
  eapply (keeps_written s s1 s3); [done|done|done|]. intros f o Hd Hf Ho. apply Hold; [apply Hd|done|done].
Qed.

(** ** The program *)
Definition hdr (img : list Z) (j : nat) : Z := field img e_phoff 4 + Z.of_nat j * sizeof_phdr.

Lemma load_segments_ok fd img : KERNEL_START <= fd ->
  let phnum := Z.to_nat (field img e_phnum 2) in
  field img e_phoff 4 + Z.of_nat phnum * sizeof_phdr <= Z.of_nat (length img) -> 52 <= Z.of_nat (length img) ->
  (forall j, (j < phnum)%nat -> seg_load img (hdr img j) = true -> seg_ok img (hdr img j)) ->
  (forall j k, (j < k < phnum)%nat -> seg_load img (hdr img j) = true -> seg_load img (hdr img k) = true ->
     seg_apart img (hdr img j) (hdr img k)) ->
  forall m n i s, vm_ok s -> holds s fd img -> (i + m = phnum)%nat -> (m < n)%nat ->
  (forall j va, (i <= j < phnum)%nat -> seg_load img (hdr img j) = true -> in_segment img (hdr img j) va = true -> entry s va = None) ->
  match load_segments n (Z.of_nat i) s fd (u32 (fd + field img e_phoff 4)) with
  | Ret s' => loads s s' img (hdr img <$> seq i m)
  | Fault e => exists fs, allocs (frames s) fs /\ alloc_fails fs e
  end.
Proof.
  intros Hfd phnum Hph Hlen Hso Hap. induction m as [|m IH]; intros [|n] i s Hok Hh Hi Hn Hun; try lia; cbn [load_segments seq fmap list_fmap].
  all: pose proof (holds_byte _ _ _ Hh) as Hb; pose proof (field_range img e_phnum 2 Hb) as Hpr; pose proof (field_range4 img e_phoff Hb) as Hpo.
  all: rewrite (vfield_ok s fd img e_phnum 2) by (done || unfold e_phnum, KERNEL_START in *; lia); cbn [mbind outcome_bind].
  - rewrite (proj2 (Z.ltb_ge _ _)) by lia. apply loads_skip; [done|]. by intros p Hp%not_elem_of_nil.
  - rewrite (proj2 (Z.ltb_lt _ _)) by lia.
    replace (u32 (u32 (fd + field img e_phoff 4) + Z.of_nat i * sizeof_phdr)) with (u32 (fd + hdr img i))
      by (unfold u32, hdr; rewrite Zplus_mod_idemp_l; f_equal; lia).
    assert (0 <= hdr img i /\ hdr img i + sizeof_phdr <= Z.of_nat (length img)) as [Hh0 Hh1] by (unfold hdr, sizeof_phdr in *; lia).
    pose proof (load_segment_ok s fd img (hdr img i) Hok Hh Hfd Hh0 Hh1 (Hso i ltac:(lia)) ltac:(intros Hl va Hva; apply (Hun i); (lia || done))) as Hseg.
    destruct (load_segment s fd (u32 (fd + hdr img i))) as [s1|e]; cbn [mbind outcome_bind]; [|done].
    pose proof (ld_ok _ _ _ _ Hseg) as Hok1.
    assert (holds s1 fd img) as Hhs1.
    { eapply loads_image; [exact Hok|exact Hseg|done|done|]. intros p ->%list_elem_of_singleton. apply Hso. lia. }
    replace (Z.of_nat i + 1) with (Z.of_nat (S i)) by lia.
    specialize (IH n (S i) s1 Hok1 Hhs1 ltac:(lia) ltac:(lia)).
    assert (forall j va, (S i <= j < phnum)%nat -> seg_load img (hdr img j) = true -> in_segment img (hdr img j) va = true ->
      entry s1 va = None) as Hun1.
    { intros j va Hj Hl Hva. rewrite (ld_other _ _ _ _ Hseg).
      - apply (Hun j); (lia || done).
      - apply in_segment_user in Hva; [|done|apply Hso; (lia || done)]. unfold managed, KERNEL_START in *. lia.
      - intros p Hp%list_elem_of_singleton Hlp. subst p. destruct (in_segment img (hdr img i) va) eqn:Ei; [|done].
        by rewrite (Hap i j ltac:(lia) Hlp Hl va Ei) in Hva. }
    specialize (IH Hun1). destruct (load_segments n _ s1 _ _) as [s'|e].
    + apply (loads_cons s s1 s'); [done|done|done|done|apply Hso; lia|].
      intros q (j & -> & Hj%elem_of_seq)%list_elem_of_fmap Hl Hlq. apply Hap; (done || lia).
    + destruct IH as (fs & Ha & Hfl). exists fs. split; [|done]. eapply allocs_trans; [apply Hseg|done].
Qed.
End claims.

(** An executable for this machine, with program headers of the known size. *)
Definition elf_header (img : list Z) : bool :=
  bool_decide (take 6 img = [0x7F; 69; 76; 70; ELFCLASS32; ELFDATA2LSB]) && (field img e_type 2 =? ET_EXEC) &&
  (field img e_machine 2 =? EM_386) && (field img e_version 4 =? EV_CURRENT) && nz (field img e_entry 4) &&
  (field img e_phentsize 2 =? sizeof_phdr).
Definition program_headers (img : list Z) : list Z := hdr img <$> seq 0 (Z.to_nat (field img e_phnum 2)).

Lemma field_byte img o : field img o 1 = nth (Z.to_nat o) img 0.
Proof.
  unfold field. generalize (Z.to_nat o). intros n. revert img. induction n as [|n IH]; intros [|b img]; try done.
  - change (b + 256 * 0 = b). lia.
  - apply IH.
Qed.

Lemma check_ident_eq {F : Type} `{FrameAllocator F} (s : vmm F) fd img : vm_ok s -> KERNEL_START <= fd -> holds s fd img ->
  52 <= Z.of_nat (length img) ->
  check_ident s fd = c_assert (bool_decide (take 6 img = [0x7F; 69; 76; 70; ELFCLASS32; ELFDATA2LSB])).
Proof.
  intros Hok Hfd Hh Hl. unfold KERNEL_START in Hfd.
  assert (forall o, 0 <= o < 52 -> vfield 1 s (u32 (fd + o)) = Ret (field img o 1)) as Hf by (intros; apply vfield_ok; (done || lia)).
  unfold check_ident. rewrite !Hf by (unfold EI_MAG0, EI_MAG1, EI_MAG2, EI_MAG3, EI_CLASS, EI_DATA; lia).
  do 6 (destruct img as [|? img]; [cbn in Hl; lia|]).
  rewrite !field_byte. change (Z.to_nat EI_MAG0) with 0%nat. change (Z.to_nat EI_MAG1) with 1%nat.
  change (Z.to_nat EI_MAG2) with 2%nat. change (Z.to_nat EI_MAG3) with 3%nat. change (Z.to_nat EI_CLASS) with 4%nat.
  change (Z.to_nat EI_DATA) with 5%nat. cbn [nth mbind outcome_bind]. cbn [take]. rewrite take_0.
  repeat match goal with |- context [?a =? ?b] => let E := fresh in destruct (a =? b) eqn:E; breflect; cbn [c_assert mbind outcome_bind] end.
  1: { rewrite bool_decide_true; [done|]. congruence. }
  all: rewrite bool_decide_false by congruence; done.
Qed.

Lemma load_elf_run_ok {F : Type} `{FrameAllocator F} (n : nat) (s : vmm F) (fd : Z) (img : list Z) :
  (Z.to_nat (field img e_phnum 2) < n)%nat ->
  vm_ok s -> KERNEL_START <= fd -> holds s fd img -> 52 <= Z.of_nat (length img) ->
  (elf_header img = false -> load_elf_run n s fd = Fault FAssert) /\
  let phnum := Z.to_nat (field img e_phnum 2) in
  (elf_header img = true ->
   field img e_phoff 4 + Z.of_nat phnum * sizeof_phdr <= Z.of_nat (length img) ->
   (forall j, (j < phnum)%nat -> seg_load img (hdr img j) = true -> seg_ok img (hdr img j) /\
      forall va, in_segment img (hdr img j) va = true -> entry s va = None) ->
   (forall j k, (j < k < phnum)%nat -> seg_load img (hdr img j) = true -> seg_load img (hdr img k) = true ->
      seg_apart img (hdr img j) (hdr img k)) ->
   match load_elf_run n s fd with
   | Ret (e, s') => e = field img e_entry 4 /\ loads s s' img (program_headers img) /\ holds s' fd img
   | Fault e => exists fs, allocs (frames s) fs /\ alloc_fails fs e
   end).
Proof.
  intros Hn Hok Hfd Hh Hl. pose proof (holds_byte _ _ _ Hh) as Hb.
  assert (forall s o k, vm_ok s -> holds s fd img -> 0 <= o <= 48 -> (0 < k <= 4)%nat -> vfield k s (u32 (fd + o)) = Ret (field img o k)) as Hf.
  { intros. apply vfield_ok; (done || unfold KERNEL_START in *; lia). }
  assert (load_elf_run n s fd = (_ ← c_assert (elf_header img);
    s' ← load_segments n 0 s fd (u32 (fd + field img e_phoff 4));
    entry ← vfield 4 s' (u32 (fd + e_entry)); Ret (entry, s'))) as ->.
  { unfold load_elf_run. generalize (load_segments n 0 s fd). intros run.
    rewrite (check_ident_eq s fd img) by done.
    rewrite (Hf s e_type), (Hf s e_machine), (Hf s e_version), (Hf s e_entry), (Hf s e_phoff), (Hf s e_phentsize)
      by (done || unfold e_type, e_machine, e_version, e_entry, e_phoff, e_phentsize; lia).
    unfold elf_header. destruct (bool_decide _); [|done]. cbn [c_assert mbind outcome_bind andb].
    destruct (field img e_type 2 =? ET_EXEC); [|done]. destruct (field img e_machine 2 =? EM_386); [|done].
    destruct (field img e_version 4 =? EV_CURRENT); [|done]. destruct (nz (field img e_entry 4)); [|done].
    by destruct (field img e_phentsize 2 =? sizeof_phdr). }
  split; [by intros ->|]. intros phnum -> Hph Hso Hap. cbn [c_assert mbind outcome_bind].
  pose proof (load_segments_ok fd img Hfd Hph Hl (fun j Hj Hlj => proj1 (Hso j Hj Hlj)) Hap phnum n 0 s Hok Hh eq_refl Hn
    ltac:(intros j va Hj Hlj Hva; apply (proj2 (Hso j (proj2 Hj) Hlj)); done)) as Hseg.
  change (Z.of_nat 0) with 0 in Hseg. destruct (load_segments n 0 s fd _) as [s'|e]; cbn [mbind outcome_bind]; [|done].
  assert (holds s' fd img) as Hh'.
  { eapply loads_image; [exact Hok|exact Hseg|done|done|].
    intros p (j & -> & Hj%elem_of_seq)%list_elem_of_fmap Hlj. apply (Hso j); [lia|done]. }
  rewrite (Hf s' e_entry) by (done || apply Hseg || unfold e_entry; lia). done.
Qed.

(** C12: [load_elf] on an executable that lies in kernel memory. A file whose header is not that
    of a 32-bit little-endian executable for this machine is refused by an assertion. When
    the program headers lie in the file, every segment to be loaded is page aligned, lies in
    the user area, takes no more from the file than it has and is not mapped yet, and no two
    of them share a page, the loader returns the entry point, or stops where frames run out.
    Then each segment is in memory, its bytes from the file followed by zeros, on frames that
    were free, writable by the user exactly when the segment says so; no other page changes,
    frames in use keep their contents, and the address space stays well formed. *)
Theorem load_elf_spec {F : Type} `{FrameAllocator F} (s : vmm F) (fd : Z) (img : list Z) :
  vm_ok s -> KERNEL_START <= fd -> holds s fd img -> 52 <= Z.of_nat (length img) ->
  (elf_header img = false -> load_elf s fd = Fault FAssert) /\
  let phnum := Z.to_nat (field img e_phnum 2) in
  (elf_header img = true ->
   field img e_phoff 4 + Z.of_nat phnum * sizeof_phdr <= Z.of_nat (length img) ->
   (forall j, (j < phnum)%nat -> seg_load img (hdr img j) = true -> seg_ok img (hdr img j) /\
      forall va, in_segment img (hdr img j) va = true -> entry s va = None) ->
   (forall j k, (j < k < phnum)%nat -> seg_load img (hdr img j) = true -> seg_load img (hdr img k) = true ->
      seg_apart img (hdr img j) (hdr img k)) ->
   match load_elf s fd with
   | Ret (e, s') => e = field img e_entry 4 /\ loads s s' img (program_headers img) /\ holds s' fd img
   | Fault e => exists fs, allocs (frames s) fs /\ alloc_fails fs e
   end).
Proof.
  intros Hok Hfd Hh. pose proof (field_range img e_phnum 2 (holds_byte _ _ _ Hh)) as [H0 H1].
  apply load_elf_run_ok; try done. by apply Z2Nat.inj_lt.
Qed.

(** An executable of one segment of eight bytes, half of them in the file, at the first kernel page. *)
Definition sample_elf : list Z :=
  [0x7F; 0x45; 0x4C; 0x46; 1; 1; 0; 0; 0; 0; 0; 0; 0; 0; 0; 0; 2; 0; 3; 0; 1; 0; 0; 0; 0; 0; 0x40; 0;
   52; 0; 0; 0; 0; 0; 0; 0; 0; 0; 0; 0; 52; 0; 32; 0; 1; 0; 0; 0; 0; 0; 0; 0;
   1; 0; 0; 0; 84; 0; 0; 0; 0; 0; 0x40; 0; 0; 0; 0; 0; 4; 0; 0; 0; 8; 0; 0; 0; 5; 0; 0; 0; 0; 16; 0; 0; 1; 2; 3; 4].
Fixpoint words_at (a : Z) (bs : list Z) (m : pmem) : pmem :=
  match bs with
  | b0 :: b1 :: b2 :: b3 :: bs => <[a := le_decode [b0; b1; b2; b3]]> (words_at (a + 4) bs m)
  | _ => m
  end.
Definition elf_memory : pmem :=
  <[0x3000 + 4 * 768 := 0x4003]> (<[0x3000 + 4 * 1023 := 0x3003]> (<[0x4000 := 0x6003]> (words_at 0x6000 sample_elf ∅))).
Definition elf_space : vmm pmm :=
  mkVmm elf_memory 0x3000 0 (mkPmm true [mkRegion 0x100000 0x20000 (mkBitset 32 1 [1])]) true 0 [].

Lemma elf_memory_words : map_Forall (fun _ v => 0 <= v < 2 ^ 32) elf_memory.
Proof.
  apply (bool_decide_unpack (map_Forall (fun _ v => 0 <= v < 2 ^ 32) elf_memory)). vm_compute. done.
Qed.

Lemma elf_pd d : 0 <= d < 1024 -> pd elf_space d = if d =? 768 then 0x4003 else if d =? 1023 then 0x3003 else 0.
Proof.
  intros Hd. assert (forallb (fun d => pd elf_space d =? if d =? 768 then 0x4003 else if d =? 1023 then 0x3003 else 0) (seqZ 0 1024) = true) as Hall
    by (vm_compute; done).
  rewrite forallb_forall in Hall. apply Z.eqb_eq, Hall. apply list_elem_of_In, elem_of_seqZ. lia.
Qed.

Lemma elf_present d : 0 <= d < 1023 -> present elf_space d = true -> d = 768 /\ table_of elf_space d = 0x4000.
Proof.
  intros Hd. unfold present, table_of. rewrite elf_pd by lia. destruct (d =? 768) eqn:E; breflect; [by subst|].
  by rewrite (proj2 (Z.eqb_neq d 1023)) by lia.
Qed.

Lemma elf_space_ok : vm_ok elf_space.
Proof.
  split.
  - done.
  - done.
  - intros a v Hv. by apply (elf_memory_words a v).
  - vm_compute. done.
  - cbn. split; [|split; [constructor|done]]. split; cbn; try lia; try done. split; cbn; try lia; try done.
    repeat constructor; lia.
  - vm_compute. discriminate.
  - intros d Hd Hp. by destruct (elf_present d Hd Hp) as [-> _].
  - intros d Hd Hp. destruct (elf_present d Hd Hp) as [-> ->]. by vm_compute.
  - intros d d' Hd Hd' Hp Hp' _. by destruct (elf_present d Hd Hp) as [-> _], (elf_present d' Hd' Hp') as [-> _].
Qed.

Lemma elf_space_holds : holds elf_space 0xC0000000 sample_elf.
Proof.
  intros k b Hk. pose proof (lookup_lt_Some _ _ _ Hk) as Hlt. change (length sample_elf) with 88%nat in Hlt.
  split; [unfold managed; lia|]. exists 0x6000, 3. split; [|split; [|split]].
  - rewrite (entry_same_page _ _ 0xC0000000); [by vm_compute|].
    replace (0xC0000000 + Z.of_nat k) with (Z.of_nat k + 0xC0000 * 4096) by lia. rewrite Z.div_add, Z.div_small by lia. done.
  - split; [done|]. split; [done|]. intros d Hd Hp. by destruct (elf_present d Hd Hp) as [_ ->].
  - by vm_compute.
  - assert (forallb (fun k => pbyte elf_memory (0x6000 + (0xC0000000 + Z.of_nat k) mod 4096) =? nth k sample_elf 0) (seq 0 88) = true) as Hall
      by (vm_compute; done).
    rewrite forallb_forall in Hall. specialize (Hall k ltac:(apply in_seq; lia)). apply Z.eqb_eq in Hall.
    rewrite <- nth_lookup_Some with (d := 0) (1 := Hk). exact Hall.
Qed.

Lemma sample_load : match load_elf elf_space 0xC0000000 with Ret (e, _) => e =? 0x400000 | _ => false end = true.
Proof. vm_cast_no_check (eq_refl true). Qed.

Lemma load_elf_spec_witness : exists s', load_elf elf_space 0xC0000000 = Ret (0x400000, s') /\ vm_ok s' /\
  holds s' 0x400000 [1; 2; 3; 4; 0; 0; 0; 0] /\ exists f, entry s' 0x400000 = Some (f, 5).
Proof.
  destruct (load_elf_spec elf_space 0xC0000000 sample_elf elf_space_ok ltac:(done) elf_space_holds ltac:(vm_compute; discriminate)) as [_ H].
  specialize (H ltac:(vm_compute; reflexivity) ltac:(vm_compute; discriminate)).
  pose proof sample_load as E. destruct (load_elf elf_space 0xC0000000) as [[e s']|e]; [|discriminate].
  apply Z.eqb_eq in E. subst e. destruct H as (_ & Hl & _).
  - intros j Hj _. assert (j = 0%nat) as -> by (change (Z.to_nat (field sample_elf e_phnum 2)) with 1%nat in Hj; lia). split.
    + split; vm_compute; discriminate || reflexivity.
    + intros va Hva. apply covers_iff in Hva. change (seg_start sample_elf (hdr sample_elf 0)) with 0x400000 in Hva.
      change (Z.of_nat (seg_pages sample_elf (hdr sample_elf 0))) with 1 in Hva.
      rewrite (entry_same_page _ va 0x400000); [by vm_compute|]. pose proof (Z.div_mod va 4096). pose proof (Z.mod_pos_bound va 4096).
      change (0x400000 / 4096) with 0x400. lia.
  - intros j k Hj. change (Z.to_nat (field sample_elf e_phnum 2)) with 1%nat in Hj. lia.
  - exists s'. split; [reflexivity|]. split; [apply (ld_ok _ _ _ _ Hl)|].
    destruct (ld_seg _ _ _ _ Hl 52) as [Hp Hd]; [vm_compute; left|reflexivity|].
    split; [exact Hd|]. destruct (Hp 0) as (f & Hf & _); [vm_compute; split; [discriminate|reflexivity]|].
    exists f. exact Hf.
Defined.
