(* ===== verification/Blk.v ===== *)
(** [userland/blk/blockdrv.c]: the block driver, which reads an ATA disk by programmed input
    and output. The processor's port instructions and the drive behind them are a parameter
    ([PortIO]); every polling loop takes fuel. Buffers are ranges of the driver's memory. *)
From S2P Require Import Prelude Mem Str.

Class PortIO (D : Type) := {
  inb : D -> Z -> Z * D;
  outb : D -> Z -> Z -> D;
  inw : D -> Z -> Z * D
}.

Definition ATA0_BASE : Z := 0x1F0.
Definition ATA_PORT_DATA : Z := 0x000.
Definition ATA_PORT_ERRINFO : Z := 0x001.
Definition ATA_PORT_SECTORCOUNT : Z := 0x002.
Definition ATA_PORT_LBALO : Z := 0x003.
Definition ATA_PORT_LBAMID : Z := 0x004.
Definition ATA_PORT_LBAHI : Z := 0x005.
Definition ATA_PORT_SELECT : Z := 0x006.
Definition ATA_PORT_COMMAND : Z := 0x007.
Definition ATA_PORT_STATUS : Z := 0x007.
Definition ATA_PORT_DEVCTRL : Z := 0x206.
Definition ATA_PORT_ALTSTATUS : Z := 0x206.
Definition ATA_CMD_IDENTIFY : Z := 0xEC.
Definition ATA_CMD_READ : Z := 0x20.
Definition ATA_STATUS_ERR : Z := 1.
Definition ATA_STATUS_DRQ : Z := Z.shiftl 1 3.
Definition ATA_STATUS_DF : Z := Z.shiftl 1 5.
Definition ATA_STATUS_RDY : Z := Z.shiftl 1 6.
Definition ATA_STATUS_BSY : Z := Z.shiftl 1 7.
Definition ATA_CTRL_SRST : Z := Z.shiftl 1 2.
Definition SECTOR_SIZE : Z := 512.

(** What the drive reports about itself. *)
Record ata_identify_data : Type := mkId {
  removable : Z;
  lba48 : Z;
  udma : Z;
  maxlba28 : Z;
  maxlba48 : Z
}.

Definition store16 (m : mem) (a v : Z) : mem := store_bytes m a (le_encode 2 v).

Section driver.
Context {D : Type} `{PortIO D}.

(** [n] reads of a port whose value is not used. *)
Fixpoint delay (n : nat) (d : D) (port : Z) : D :=
  match n with O => d | S n => delay n (inb d port).2 port end.

(** [while(true)] until a status register satisfies a condition. *)
Fixpoint poll (n : nat) (d : D) (port : Z) (stop : Z -> bool) : outcome (Z * D) :=
  match n with
  | O => Fault FFuel
  | S n => let '(status, d) := inb d port in if stop status then Ret (status, d) else poll n d port stop
  end.

Definition ata_soft_reset (n : nat) (d : D) (base : Z) : outcome D :=
  let dcr := base + ATA_PORT_DEVCTRL in
  let d := outb d dcr ATA_CTRL_SRST in
  let d := outb d dcr 0 in
  let d := delay 4 d dcr in
  '(_, d) ← poll n d dcr (fun status => negb (nz (Z.land status ATA_STATUS_BSY)) && nz (Z.land status ATA_STATUS_RDY));
  Ret d.

(** [k] words from the data port. *)
Fixpoint read_words (k : nat) (d : D) (base : Z) : list Z * D :=
  match k with
  | O => ([], d)
  | S k => let '(w, d) := inw d (base + ATA_PORT_DATA) in let '(ws, d) := read_words k d base in (u16 w :: ws, d)
  end.

(** [None] when there is no ATA drive. *)
Definition identify (n : nat) (d : D) (base drive : Z) : outcome (option ata_identify_data * D) :=
  _ ← c_assert ((drive =? 0) || (drive =? 1));
  d ← ata_soft_reset n d base;
  let d := outb d (base + ATA_PORT_SELECT) (if nz drive then 0xB0 else 0xA0) in
  let d := delay 4 d (base + ATA_PORT_DEVCTRL) in
  let d := outb d (base + ATA_PORT_SECTORCOUNT) 0 in
  let d := outb d (base + ATA_PORT_LBALO) 0 in
  let d := outb d (base + ATA_PORT_LBAMID) 0 in
  let d := outb d (base + ATA_PORT_LBAHI) 0 in
  let d := outb d (base + ATA_PORT_COMMAND) ATA_CMD_IDENTIFY in
  let dcr := base + ATA_PORT_DEVCTRL in
  let '(status, d) := inb d dcr in
  if status =? 0 then Ret (None, d)
  else
    '(_, d) ← poll n d dcr (fun status => negb (nz (Z.land status ATA_STATUS_BSY)));
    let '(mid, d) := inb d (base + ATA_PORT_LBAMID) in
    if nz mid then Ret (None, d)
    else
      let '(hi, d) := inb d (base + ATA_PORT_LBAHI) in
      if nz hi then Ret (None, d)
      else
        '(status, d) ← poll n d dcr (fun status => nz (Z.land status (Z.lor ATA_STATUS_DRQ ATA_STATUS_ERR)));
        if nz (Z.land (Z.land status (Z.lor ATA_STATUS_DRQ ATA_STATUS_ERR)) ATA_STATUS_ERR) then Ret (None, d)
        else
          let '(buffer, d) := read_words 256 d base in
          let word i := nth i buffer 0 in
          Ret (Some (mkId (Z.land (word 0%nat) (Z.shiftl 1 7)) (Z.land (word 83%nat) (Z.shiftl 1 10)) (word 88%nat)
                 (word 60%nat + 65536 * word 61%nat)
                 (word 100%nat + 65536 * word 101%nat + 2 ^ 32 * word 102%nat + 2 ^ 48 * word 103%nat)), d).

(** The wait for a sector: BSY clear and DRQ set, or an error that counts. *)
Fixpoint wait_sector (n : nat) (d : D) (base i : Z) (ignore_error : bool) : outcome (Z * bool * D) :=
  match n with
  | O => Fault FFuel
  | S n =>
      let ignore_error := if ignore_error && (4 <=? i) then false else ignore_error in
      let '(status, d) := inb d (base + ATA_PORT_ALTSTATUS) in
      if negb (nz (Z.land status ATA_STATUS_BSY)) then
        if nz (Z.land status ATA_STATUS_DRQ) then Ret (status, ignore_error, d)
        else if negb ignore_error && nz (Z.land status (Z.lor ATA_STATUS_ERR ATA_STATUS_DF))
        then Ret (status, ignore_error, d)
        else wait_sector n d base (i + 1) ignore_error
      else wait_sector n d base (i + 1) ignore_error
  end.

(** [k] words from the data port into memory. *)
Fixpoint store_words (k : nat) (d : D) (m : mem) (base wbuffer : Z) : D * mem :=
  match k with
  | O => (d, m)
  | S k => let '(w, d) := inw d (base + ATA_PORT_DATA) in store_words k d (store16 m wbuffer w) base (wbuffer + 2)
  end.

(** [while(sectors)]: the number of sectors read. *)
Fixpoint read_sectors (n sectors : nat) (d : D) (m : mem) (base wbuffer result : Z) (ignore_error : bool) : outcome (Z * D * mem) :=
  match sectors with
  | O => Ret (result, d, m)
  | S sectors =>
      '(status, _, d) ← wait_sector n d base 0 ignore_error;
      if nz (Z.land status (Z.lor ATA_STATUS_ERR ATA_STATUS_DF)) then Ret (result, d, m)
      else
        let '(d, m) := store_words 256 d m base wbuffer in
        let d := delay 4 d (base + ATA_PORT_ALTSTATUS) in
        read_sectors n sectors d m base (wbuffer + SECTOR_SIZE) (result + 1) false
  end.

Definition ata_read_lba28 (n : nat) (d : D) (m : mem) (buffer buffer_size sectors base slave sector : Z) : outcome (Z * D * mem) :=
  _ ← c_assert (0 <? sectors);
  _ ← c_assert ((slave =? 0) || (slave =? 1));
  if buffer_size <? u32 (SECTOR_SIZE * sectors) then Ret (-1, d, m)
  else
    let dcr := base + ATA_PORT_DEVCTRL in
    let '(status, d) := inb d dcr in
    d ← (if nz (Z.land status (Z.lor ATA_STATUS_BSY ATA_STATUS_DRQ)) then ata_soft_reset n d base else Ret d);
    let d := outb d (base + ATA_PORT_SELECT) (u8 (Z.lor (Z.lor 0xE0 (Z.shiftl slave 4)) (Z.land (Z.shiftr sector 24) 0xF))) in
    let d := outb d (base + ATA_PORT_ERRINFO) 0x00 in
    let d := outb d (base + ATA_PORT_SECTORCOUNT) (u8 sectors) in
    let d := outb d (base + ATA_PORT_LBALO) (Z.land sector 0xFF) in
    let d := outb d (base + ATA_PORT_LBAMID) (Z.land (Z.shiftr sector 8) 0xFF) in
    let d := outb d (base + ATA_PORT_LBAHI) (Z.land (Z.shiftr sector 16) 0xFF) in
    let d := outb d (base + ATA_PORT_COMMAND) ATA_CMD_READ in
    read_sectors n (Z.to_nat sectors) d m base buffer 0 true.

(** The variables of the copy loop; [stopped] when a transfer failed. *)
Record copy_state : Type := mkCopy {
  stopped : bool; c_dev : D; c_mem : mem; c_buffer : Z; c_buffer_size : Z; c_offset : Z; c_byte_count : Z; c_read_bytes : Z
}.
Definition stop (c : copy_state) (d : D) (m : mem) : copy_state :=
  mkCopy true d m (c_buffer c) (c_buffer_size c) (c_offset c) (c_byte_count c) (c_read_bytes c).
Definition advance (c : copy_state) (d : D) (m : mem) (data_size : Z) : copy_state :=
  mkCopy false d m (c_buffer c + data_size) (u32 (c_buffer_size c - data_size)) (u64 (c_offset c + data_size))
    (c_byte_count c - data_size) (c_read_bytes c + data_size).

(** An unaligned or short piece, by way of the local sector buffer at [tmp]. *)
Definition read_part (n : nat) (tmp : Z) (c : copy_state) : outcome copy_state :=
  if nz (c_offset c mod SECTOR_SIZE) || (c_byte_count c <? SECTOR_SIZE) then
    let sector := u32 (c_offset c / SECTOR_SIZE) in
    let offset_in_sector := c_offset c mod SECTOR_SIZE in
    let data_size := SECTOR_SIZE - offset_in_sector in
    let data_size := if c_buffer_size c <? data_size then c_buffer_size c else data_size in
    let data_size := if c_byte_count c <? data_size then c_byte_count c else data_size in
    '(ret, d, m) ← ata_read_lba28 n (c_dev c) (c_mem c) tmp SECTOR_SIZE 1 ATA0_BASE 0 sector;
    if negb (ret =? 1) then Ret (stop c d m)
    else Ret (advance c d (memcpy m (c_buffer c) (tmp + offset_in_sector) data_size) data_size)
  else Ret c.

(** As many whole sectors as are asked for, straight into the buffer. *)
Definition read_whole (n : nat) (c : copy_state) : outcome copy_state :=
  if SECTOR_SIZE <=? c_byte_count c then
    let wholesectors := c_byte_count c / SECTOR_SIZE in
    let start_sector := u32 (c_offset c / SECTOR_SIZE) in
    '(ret, d, m) ← ata_read_lba28 n (c_dev c) (c_mem c) (c_buffer c) (c_buffer_size c) wholesectors ATA0_BASE 0 start_sector;
    if ret <=? 0 then Ret (stop c d m) else Ret (advance c d m (wholesectors * SECTOR_SIZE))
  else Ret c.

(** [while(byte_count)]: [k] bounds the rounds. *)
Fixpoint read_loop (k n : nat) (tmp : Z) (c : copy_state) : outcome (Z * D * mem) :=
  match k with
  | O => Fault FFuel
  | S k =>
      if c_byte_count c =? 0 then Ret (c_read_bytes c, c_dev c, c_mem c)
      else
        c ← read_part n tmp c;
        if stopped c then Ret (c_read_bytes c, c_dev c, c_mem c)
        else
          c ← read_whole n c;
          if stopped c then Ret (c_read_bytes c, c_dev c, c_mem c)
          else
            _ ← c_assert (0 <=? c_byte_count c);
            read_loop k n tmp c
  end.

Definition perform_read (k n : nat) (d : D) (m : mem) (tmp buffer buffer_size offset byte_count device_size : Z) : outcome (Z * D * mem) :=
  if (byte_count <? 0) || (buffer_size =? 0) then Ret (-1, d, m)
  else if byte_count =? 0 then Ret (0, d, m)
  else if device_size <=? offset then Ret (0, d, m)
  else
    let byte_count := if u64 (device_size - offset) <? byte_count then s32 (u64 (device_size - offset)) else byte_count in
    read_loop k n tmp (mkCopy false d m buffer buffer_size offset byte_count 0).

(** The request handlers: the result, the size written back and the driver's state. *)
Definition handle_blkimpl_read_sector (n : nat) (d : D) (m : mem) (buffer buffer_size sector : Z) : outcome (Z * Z * D * mem) :=
  if buffer_size <? SECTOR_SIZE then Ret (-1, 0, d, m)
  else
    '(read_ret, d, m) ← ata_read_lba28 n d m buffer buffer_size 1 ATA0_BASE 0 (u32 sector);
    if negb (read_ret =? 1) then Ret (-1, 0, d, m) else Ret (0, SECTOR_SIZE, d, m).

Definition handle_blkimpl_sector_count (id : ata_identify_data) : Z := s32 (maxlba28 id).
Definition handle_blkimpl_total_size (id : ata_identify_data) : Z := maxlba28 id * SECTOR_SIZE.

Definition handle_blkimpl_read (k n : nat) (id : ata_identify_data) (d : D) (m : mem) (tmp buffer buffer_size offset : Z) : outcome (Z * Z * D * mem) :=
  let device_size := maxlba28 id * SECTOR_SIZE in
  '(result, d, m) ← perform_read k n d m tmp buffer buffer_size (u64 offset) (s32 buffer_size) device_size;
  Ret (result, if 0 <=? result then result else 0, d, m).
End driver.

(** The start of the program: [port_open] and [hwportopen] are system calls, in a state [W] that
    includes the ports. *)
Section start.
Context {W : Type} (port_open : W -> Z -> Z * W) (hwportopen : W -> Z -> Z * W).
Definition BlkPort : Z := 3.

Fixpoint open_range (n : nat) (w : W) (port : Z) : outcome W :=
  match n with
  | O => Ret w
  | S n => let '(ret, w) := hwportopen w port in if nz ret then Fault FPanic else open_range n w (port + 1)
  end.
Definition openports (w : W) (base : Z) : outcome W :=
  w ← open_range (Z.to_nat (ATA_PORT_STATUS - ATA_PORT_DATA + 1)) w (base + ATA_PORT_DATA);
  let '(ret, w) := hwportopen w (base + ATA_PORT_DEVCTRL) in
  if nz ret then Fault FPanic else Ret w.

(** [main] up to the message loop. *)
Definition main `{PortIO W} (n : nat) (w : W) : outcome (ata_identify_data * W) :=
  let '(ret, w) := port_open w BlkPort in
  if ret <? 0 then Fault FPanic
  else
    w ← openports w ATA0_BASE;
    '(id, w) ← identify n w ATA0_BASE 0;
    match id with None => Fault FPanic | Some id => Ret (id, w) end.
End start.
