(* ===== verification/BlkClaims.v ===== *)
(** The block driver against a disk that follows the ATA protocol ([userland/blk/blockdrv.c]). *)
From S2P Require Import Prelude Mem Str StrSpec Blk.

(** ** The drive *)

(** The command registers, and what the drive is doing. *)
Record ata_regs : Type := mkRegs { r_select : Z; r_count : Z; r_lo : Z; r_mid : Z; r_hi : Z }.
Inductive ata_phase : Type :=
| Idle (r : ata_regs) (err : bool)             (** no command; the last one failed or not *)
| Busy (lba : Z) (left wait : nat)             (** fetching a sector, [left] to come with it *)
| Data (lba : Z) (left k : nat).               (** [k] words of the sector were taken *)

Definition flag (status bit : Z) : bool := nz (Z.land status bit).
Definition faulty (status : Z) : bool := flag status (Z.lor ATA_STATUS_ERR ATA_STATUS_DF).

(** The address and the number of sectors that the registers of the first drive name. *)
Definition regs_lba (r : ata_regs) : Z :=
  r_lo r + 2 ^ 8 * r_mid r + 2 ^ 16 * r_hi r + 2 ^ 24 * Z.land (r_select r) 0xF.
Definition regs_count (r : ata_regs) : nat := if r_count r =? 0 then 256 else Z.to_nat (r_count r).
Definition write_reg (r : ata_regs) (reg v : Z) : ata_regs :=
  if reg =? ATA_PORT_SELECT then mkRegs v (r_count r) (r_lo r) (r_mid r) (r_hi r)
  else if reg =? ATA_PORT_SECTORCOUNT then mkRegs (r_select r) v (r_lo r) (r_mid r) (r_hi r)
  else if reg =? ATA_PORT_LBALO then mkRegs (r_select r) (r_count r) v (r_mid r) (r_hi r)
  else if reg =? ATA_PORT_LBAMID then mkRegs (r_select r) (r_count r) (r_lo r) v (r_hi r)
  else if reg =? ATA_PORT_LBAHI then mkRegs (r_select r) (r_count r) (r_lo r) (r_mid r) v
  else r.

(** The documented behaviour of a drive on the primary channel. [sector] is the contents of a
    sector as words, [None] when it cannot be read. *)
Class AtaDisk (D : Type) `{PortIO D} := {
  phase : D -> ata_phase;
  sector : D -> Z -> option (list Z);
  max_wait : nat;
  sector_words d l ws : sector d l = Some ws -> length ws = 256%nat /\ Forall (fun w => 0 <= w < 2 ^ 16) ws;
  disk_inb d p : sector (inb d p).2 = sector d;
  disk_inw d p : sector (inw d p).2 = sector d;
  disk_outb d p v : sector (outb d p v) = sector d;
  busy_wait d l n w : phase d = Busy l n w -> (w <= max_wait)%nat;
  (** The status register. *)
  status_idle d r e : phase d = Idle r e -> let '(st, d') := inb d (ATA0_BASE + ATA_PORT_ALTSTATUS) in
    flag st ATA_STATUS_BSY = false /\ flag st ATA_STATUS_DRQ = false /\ faulty st = e /\ phase d' = Idle r e;
  status_busy d l n w : phase d = Busy l n w -> let '(st, d') := inb d (ATA0_BASE + ATA_PORT_ALTSTATUS) in
    (exists w', phase d' = Busy l n w' /\ (w' < w)%nat /\
       (flag st ATA_STATUS_BSY = true \/ (flag st ATA_STATUS_DRQ = false /\ faulty st = false))) \/
    (exists ws, sector d l = Some ws /\ phase d' = Data l n 0 /\ flag st ATA_STATUS_BSY = false /\
       flag st ATA_STATUS_DRQ = true /\ faulty st = false) \/
    (exists r, sector d l = None /\ phase d' = Idle r true /\ flag st ATA_STATUS_BSY = false /\
       flag st ATA_STATUS_DRQ = false /\ faulty st = true);
  status_data d l n : phase d = Data l n 0 -> let '(st, d') := inb d (ATA0_BASE + ATA_PORT_ALTSTATUS) in
    phase d' = Data l n 0 /\ flag st ATA_STATUS_BSY = false /\ flag st ATA_STATUS_DRQ = true /\ faulty st = false;
  (** The data register: after the last word the next sector is fetched, or the command ends. *)
  data_word d l n k ws w : phase d = Data l n k -> sector d l = Some ws -> ws !! k = Some w ->
    let '(v, d') := inw d (ATA0_BASE + ATA_PORT_DATA) in v = w /\
    if (k <? 255)%nat then phase d' = Data l n (S k)
    else if (n <=? 1)%nat then exists r, phase d' = Idle r false
    else exists w', phase d' = Busy (l + 1) (n - 1) w';
  (** The command registers. *)
  write_idle d r e reg v : phase d = Idle r e -> 1 <= reg < ATA_PORT_COMMAND ->
    phase (outb d (ATA0_BASE + reg) v) = Idle (write_reg r reg v) e;
  command_read d r e : phase d = Idle r e -> Z.land (r_select r) 0xF0 = 0xE0 ->
    exists w, phase (outb d (ATA0_BASE + ATA_PORT_COMMAND) ATA_CMD_READ) = Busy (regs_lba r) (regs_count r) w
}.

(** A sector as bytes, and the sectors from [l] on up to the first that cannot be read. *)
Definition sector_bytes (ws : list Z) : list Z := mjoin (le_encode 2 <$> ws).
Fixpoint readable (c : Z -> option (list Z)) (l : Z) (n : nat) : list (list Z) :=
  match n with
  | O => []
  | S n => match c l with Some ws => ws :: readable c (l + 1) n | None => [] end
  end.

Lemma length_sector_bytes ws : length (sector_bytes ws) = (2 * length ws)%nat.
Proof.
  induction ws as [|w ws IH]; [done|]. change (sector_bytes (w :: ws)) with (le_encode 2 w ++ sector_bytes ws).
  rewrite length_app, length_le_encode, IH. cbn [length]. lia.
Qed.

Section disk.
Context {D : Type} `{AtaDisk D}.
Implicit Types d : D.

Lemma delay_sector k : forall d p, sector (delay k d p) = sector d.
Proof. induction k as [|k IH]; intros d p; cbn [delay]; [done|]. by rewrite IH, disk_inb. Qed.

Lemma delay_idle k r e : forall d, phase d = Idle r e -> phase (delay k d (ATA0_BASE + ATA_PORT_ALTSTATUS)) = Idle r e.
Proof.
  induction k as [|k IH]; intros d Hd; cbn [delay]; [done|]. apply IH.
  pose proof (status_idle d r e Hd) as Hs. destruct (inb d _) as [st d']. apply Hs.
Qed.

(** The read command has arrived at sector [l], with [n] to come. *)
Definition at_sector d (l : Z) (n : nat) : Prop :=
  (exists w, phase d = Busy l n w) \/ (phase d = Data l n 0 /\ sector d l <> None) \/
  (exists r, phase d = Idle r true /\ sector d l = None).

Lemma delay_at k l n : forall d, at_sector d l n -> at_sector (delay k d (ATA0_BASE + ATA_PORT_ALTSTATUS)) l n.
Proof.
  induction k as [|k IH]; intros d Hd; cbn [delay]; [done|]. apply IH.
  unfold at_sector. rewrite disk_inb. destruct Hd as [[w Hw]|[[Hd Hs]|[r [Hr Hs]]]].
  - pose proof (status_busy d l n w Hw) as Hb. destruct (inb d _) as [st d'].
    destruct Hb as [(w' & Hp & _)|[(ws & Hs & Hp & _)|(r & Hs & Hp & _)]].
    + left. by exists w'.
    + right. left. split; [done|]. by rewrite Hs.
    + right. right. by exists r.
  - pose proof (status_data d l n Hd) as Hb. destruct (inb d _) as [st d']. right. left. by destruct Hb.
  - pose proof (status_idle d r true Hr) as Hb. destruct (inb d _) as [st d']. right. right. exists r. split; [apply Hb|done].
Qed.

(** What the wait ends with. *)
Definition waited d (l : Z) (n : nat) (status : Z) (d' : D) : Prop := sector d' = sector d /\
  match sector d l with
  | Some _ => faulty status = false /\ phase d' = Data l n 0
  | None => faulty status = true /\ exists r, phase d' = Idle r true
  end.

Lemma wait_error l r : forall n i ie d, phase d = Idle r true -> sector d l = None -> (Z.to_nat (4 - i) < n)%nat ->
  exists st ie' d', wait_sector n d ATA0_BASE i ie = Ret (st, ie', d') /\ forall left, waited d l left st d'.
Proof.
  induction n as [|n IH]; intros i ie d Hd Hs Hn; [lia|]. cbn [wait_sector].
  pose proof (status_idle d r true Hd) as Hst. pose proof (disk_inb d (ATA0_BASE + ATA_PORT_ALTSTATUS)) as Hsec.
  destruct (inb d _) as [st d'] eqn:Ei. destruct Hst as (Hb & Hq & Hf & Hp). cbn [snd] in Hsec.
  unfold flag, faulty in Hb, Hq, Hf. fold (flag st ATA_STATUS_BSY) in Hb. unfold flag in Hb. rewrite Hb, Hq. cbn [negb].
  unfold flag in Hf. rewrite Hf.
  destruct (negb (if ie && (4 <=? i) then false else ie)) eqn:Ee; cbn [andb].
  - eexists _, _, d'. split; [done|]. intros left. split; [done|]. rewrite Hs. split; [done|]. by exists r.
  - destruct ie; cbn [andb] in *; [|done]. destruct (4 <=? i) eqn:E4; [done|]. breflect.
    destruct (IH (i + 1) true d' Hp) as (st' & ie' & d2 & E & Hw); [by rewrite Hsec|lia|]. exists st', ie', d2.
    split; [done|]. intros left. specialize (Hw left). unfold waited in *. by rewrite Hsec in Hw.
Qed.

Lemma wait_ok l left : forall n i ie d, at_sector d l left -> 0 <= i -> (max_wait + 6 <= n)%nat ->
  exists st ie' d', wait_sector n d ATA0_BASE i ie = Ret (st, ie', d') /\ waited d l left st d'.
Proof.
  intros n i ie d [[w Hw]|[[Hd Hs]|[r [Hr Hs]]]] Hi Hn.
  - assert (w + 6 <= n)%nat as Hn' by (pose proof (busy_wait _ _ _ _ Hw); lia). clear Hn.
    revert n i ie d Hw Hi Hn'. induction w as [w IH] using lt_wf_ind. intros [|n] i ie d Hw Hi Hn; [lia|]. cbn [wait_sector].
    pose proof (status_busy d l left w Hw) as Hst. pose proof (disk_inb d (ATA0_BASE + ATA_PORT_ALTSTATUS)) as Hsec.
    destruct (inb d _) as [st d'] eqn:Ei. cbn [snd] in Hsec. set (ie1 := if ie && (4 <=? i) then false else ie).
    destruct Hst as [(w' & Hp & Hlt & Hst)|[(ws & Hs & Hp & Hb & Hq & Hf)|(r & Hs & Hp & Hb & Hq & Hf)]].
    + destruct (IH w' Hlt n (i + 1) ie1 d' Hp ltac:(lia) ltac:(lia)) as (st' & ie' & d2 & E & Hwt).
      exists st', ie', d2. unfold waited in *. rewrite Hsec in Hwt. split; [|done].
      destruct Hst as [Hb|[Hq Hf]]; unfold flag, faulty, flag in *; [by rewrite Hb|]. rewrite Hq, Hf, andb_false_r.
      by destruct (nz (Z.land st ATA_STATUS_BSY)).
    + exists st, ie1, d'. unfold flag in Hb, Hq. rewrite Hb, Hq. split; [done|]. unfold waited. by rewrite Hs.
    + unfold flag, faulty, flag in Hb, Hq, Hf. rewrite Hb, Hq, Hf. cbn [negb]. destruct (negb ie1); cbn [andb].
      * exists st, ie1, d'. split; [done|]. unfold waited. rewrite Hs. split; [done|]. split; [done|]. by exists r.
      * destruct (wait_error l r n (i + 1) ie1 d' Hp) as (st' & ie' & d2 & E & Hwt); [by rewrite Hsec|lia|].
        exists st', ie', d2. split; [done|]. specialize (Hwt left). unfold waited in *. by rewrite Hsec in Hwt.
  - destruct n as [|n]; [lia|]. cbn [wait_sector]. pose proof (status_data d l left Hd) as Hst.
    pose proof (disk_inb d (ATA0_BASE + ATA_PORT_ALTSTATUS)) as Hsec. destruct (inb d _) as [st d'] eqn:Ei.
    destruct Hst as (Hp & Hb & Hq & Hf). unfold flag in Hb, Hq. rewrite Hb, Hq. eexists _, _, d'. split; [done|].
    split; [done|]. by destruct (sector d l).
  - destruct (wait_error l r n i ie d Hr Hs) as (st & ie' & d' & E & Hwt); [lia|]. by exists st, ie', d'.
Qed.

(** The drive after the last word of a sector. *)
Definition after_sector d (l : Z) (n : nat) : Prop :=
  if (n <=? 1)%nat then exists r, phase d = Idle r false else exists w, phase d = Busy (l + 1) (n - 1) w.

Lemma store_words_ok l n ws : forall j k d m a, phase d = Data l n k -> sector d l = Some ws -> (k + S j = 256)%nat ->
  exists d', store_words (S j) d m ATA0_BASE a = (d', store_bytes m a (sector_bytes (drop k ws))) /\
    sector d' = sector d /\ after_sector d' l n.
Proof.
  induction j as [|j IH]; intros k d m a Hp Hs Hk; destruct (sector_words d l ws Hs) as [Hlen _].
  all: destruct (lookup_lt_is_Some_2 ws k) as [w Hw]; [lia|].
  all: pose proof (data_word d l n k ws w Hp Hs Hw) as Hd; pose proof (disk_inw d (ATA0_BASE + ATA_PORT_DATA)) as Hsec.
  all: rewrite (drop_S ws w k Hw); change (sector_bytes (w :: drop (S k) ws)) with (le_encode 2 w ++ sector_bytes (drop (S k) ws)).
  all: rewrite store_bytes_app, length_le_encode; change (a + Z.of_nat 2) with (a + 2).
  - cbn [store_words]. destruct (inw d _) as [v d'] eqn:Ei. destruct Hd as [-> Hd]. exists d'. rewrite (proj2 (Nat.ltb_ge k 255)) in Hd by lia.
    split; [|by split]. rewrite drop_ge by lia. done.
  - change (store_words (S (S j)) d m ATA0_BASE a) with
      (let '(w, d) := inw d (ATA0_BASE + ATA_PORT_DATA) in store_words (S j) d (store16 m a w) ATA0_BASE (a + 2)).
    destruct (inw d _) as [v d'] eqn:Ei. destruct Hd as [-> Hd]. rewrite (proj2 (Nat.ltb_lt k 255)) in Hd by lia.
    cbn [snd] in Hsec. destruct (IH (S k) d' (store16 m a w) (a + 2) Hd) as (d2 & E & Hs2 & Ha); [by rewrite Hsec|lia|].
    exists d2. split; [done|]. split; [congruence|done].
Qed.

Lemma read_sectors_ok n : (max_wait + 6 <= n)%nat -> forall k l d m a res ie,
  match k with O => exists r, phase d = Idle r false | S _ => at_sector d l k end ->
  let got := readable (sector d) l k in
  exists d' r, read_sectors n k d m ATA0_BASE a res ie =
    Ret (res + Z.of_nat (length got), d', store_bytes m a (mjoin (sector_bytes <$> got))) /\
    sector d' = sector d /\ phase d' = Idle r (length got <? k)%nat.
Proof.
  intros Hn. induction k as [|k IH]; intros l d m a res ie Hat; cbn [readable].
  - destruct Hat as [r Hr]. exists d, r. cbn [read_sectors length]. by rewrite Z.add_0_r.
  - cbn [read_sectors]. destruct (wait_ok l (S k) n 0 ie d Hat ltac:(lia) Hn) as (st & ie' & d1 & -> & Hsec & Hw).
    cbn [mbind outcome_bind]. destruct (sector d l) as [ws|] eqn:Hs.
    + destruct Hw as [Hf Hp]. unfold faulty, flag in Hf. rewrite Hf.
      destruct (store_words_ok l (S k) ws 255 0 d1 m a Hp ltac:(by rewrite Hsec) eq_refl) as (d2 & E & Hs2 & Ha).
      rewrite drop_0 in E. rewrite E. cbv beta iota zeta. set (d3 := delay 4 d2 _). destruct (sector_words d l ws Hs) as [Hlen _].
      assert (sector d3 = sector d) as Hs3 by (unfold d3; rewrite delay_sector; congruence).
      destruct (IH (l + 1) d3 (store_bytes m a (sector_bytes ws)) (a + SECTOR_SIZE) (res + 1) false) as (d' & r & E' & Hs' & Hp').
      { unfold after_sector in Ha. destruct k as [|k].
        - destruct Ha as [r Hr]. exists r. by apply delay_idle.
        - destruct Ha as [w Hwb]. apply delay_at. left. exists w. by rewrite Hwb. }
      rewrite Hs3 in *. exists d', r. rewrite E'. split; [|done]. f_equal. f_equal.
      * f_equal. cbn [length]. lia.
      * cbn [fmap list_fmap]. change (mjoin (sector_bytes ws :: ?x)) with (sector_bytes ws ++ mjoin x).
        rewrite store_bytes_app, length_sector_bytes, Hlen. done.
    + destruct Hw as [Hf [r Hp]]. unfold faulty, flag in Hf. rewrite Hf. exists d1, r. cbn [length]. by rewrite Z.add_0_r.
Qed.

Lemma lba_regs x sectors : 0 <= x < 2 ^ 28 -> 0 < sectors <= 256 ->
  let r := mkRegs (u8 (Z.lor (Z.lor 0xE0 (Z.shiftl 0 4)) (Z.land (Z.shiftr x 24) 0xF))) (u8 sectors) (Z.land x 0xFF)
    (Z.land (Z.shiftr x 8) 0xFF) (Z.land (Z.shiftr x 16) 0xFF) in
  Z.land (r_select r) 0xF0 = 0xE0 /\ regs_lba r = x /\ regs_count r = Z.to_nat sectors.
Proof.
  intros Hx Hn r. unfold r, regs_lba, regs_count. cbn [r_select r_count r_lo r_mid r_hi].
  change 0xFF with (2 ^ 8 - 1). rewrite !(land_ones_mod _ 8), !Z.shiftr_div_pow2 by lia.
  assert (0 <= x / 2 ^ 24 < 16) as Hh by (split; [apply Z.div_pos; lia|apply Z.div_lt_upper_bound; lia]).
  assert (forall h, 0 <= h < 16 -> Z.land (u8 (Z.lor (Z.lor 0xE0 (Z.shiftl 0 4)) (Z.land h 0xF))) 0xF0 = 0xE0 /\
    Z.land (u8 (Z.lor (Z.lor 0xE0 (Z.shiftl 0 4)) (Z.land h 0xF))) 0xF = h) as Hall.
  { intros h Hhr. assert (In h (map Z.of_nat (seq 0 16))) as Hin.
    { apply in_map_iff. exists (Z.to_nat h). split; [lia|]. apply in_seq. lia. }
    revert Hin. cbn [seq map]. intros Hin. repeat destruct Hin as [<-|Hin]; done. }
  destruct (Hall _ Hh) as [-> ->]. split; [done|]. split.
  - assert (x / 2 ^ 16 = x / 2 ^ 8 / 2 ^ 8) as E1 by (by rewrite Z.div_div by lia).
    assert (x / 2 ^ 24 = x / 2 ^ 8 / 2 ^ 8 / 2 ^ 8) as E2 by (by rewrite !Z.div_div by lia). rewrite E1, E2.
    pose proof (Z.div_mod x (2 ^ 8) ltac:(lia)). pose proof (Z.div_mod (x / 2 ^ 8) (2 ^ 8) ltac:(lia)).
    pose proof (Z.div_mod (x / 2 ^ 8 / 2 ^ 8) (2 ^ 8) ltac:(lia)). lia.
  - destruct (Z.eq_dec sectors 256) as [->|]; [done|]. rewrite u8_small by lia. by rewrite (proj2 (Z.eqb_neq _ _)) by lia.
Qed.

Lemma ata_read_ok n d m buffer buffer_size sectors x r e : phase d = Idle r e -> 0 < sectors <= 256 -> 0 <= x ->
  x + sectors <= 2 ^ 28 -> (max_wait + 6 <= n)%nat ->
  let got := readable (sector d) x (Z.to_nat sectors) in
  if buffer_size <? SECTOR_SIZE * sectors then ata_read_lba28 n d m buffer buffer_size sectors ATA0_BASE 0 x = Ret (-1, d, m)
  else exists d' r', ata_read_lba28 n d m buffer buffer_size sectors ATA0_BASE 0 x =
    Ret (Z.of_nat (length got), d', store_bytes m buffer (mjoin (sector_bytes <$> got))) /\
    sector d' = sector d /\ phase d' = Idle r' (length got <? Z.to_nat sectors)%nat.
Proof.
  intros Hp Hs Hx Hx2 Hn got. unfold ata_read_lba28. rewrite (proj2 (Z.ltb_lt 0 sectors)) by lia. cbn [c_assert mbind outcome_bind orb Z.eqb].
  rewrite u32_small by (unfold SECTOR_SIZE; lia). destruct (buffer_size <? SECTOR_SIZE * sectors); [done|].
  pose proof (status_idle d r e Hp) as Hst. pose proof (disk_inb d (ATA0_BASE + ATA_PORT_ALTSTATUS)) as Hsec.
  change ATA_PORT_DEVCTRL with ATA_PORT_ALTSTATUS. destruct (inb d _) as [st d0] eqn:Ei.
  destruct Hst as (Hb & Hq & _ & Hp0). cbn [snd] in Hsec.
  assert (nz (Z.land st (Z.lor ATA_STATUS_BSY ATA_STATUS_DRQ)) = false) as ->.
  { unfold flag, nz in *. breflect. rewrite Z.land_lor_distr_r, Hb, Hq. done. }
  cbn [mbind outcome_bind]. set (d1 := outb _ (_ + ATA_PORT_LBAHI) _).
  destruct (lba_regs x sectors) as (Hsel & Hlba & Hcnt); [lia|done|]. set (rg := mkRegs _ _ _ _ _) in *.
  assert (phase d1 = Idle rg e) as Hp1.
  { eassert (phase d1 = Idle _ e) as -> by (unfold d1; do 6 (eapply write_idle; [|vm_compute; by split]); exact Hp0). done. }
  destruct (command_read d1 rg e Hp1 Hsel) as [w Hw]. rewrite Hlba, Hcnt in Hw.
  assert (sector d1 = sector d) as Hs1 by (unfold d1; by rewrite !disk_outb).
  set (d2 := outb d1 _ _) in *. assert (sector d2 = sector d) as Hs2 by (unfold d2; by rewrite disk_outb).
  destruct (read_sectors_ok n Hn (Z.to_nat sectors) x d2 m buffer 0 true) as (d' & r' & E & Hs' & Hp').
  { destruct (Z.to_nat sectors) as [|k] eqn:Ek; [lia|]. left. by exists w. }
  rewrite Hs2 in *. exists d', r'. split; [done|]. by split.
Qed.

(** ** Reading bytes *)
Definition disk_byte d (p : Z) : Z := nth (Z.to_nat (p mod 512)) (sector_bytes (default [] (sector d (p / 512)))) 0.

Lemma readable_all (c : Z -> option (list Z)) k : forall l, (forall j, l <= j < l + Z.of_nat k -> c j <> None) ->
  length (readable c l k) = k.
Proof.
  induction k as [|k IH]; intros l Hl; [done|]. cbn [readable]. destruct (c l) eqn:E; [|exfalso; apply (Hl l); [lia|done]].
  cbn [length]. f_equal. apply IH. intros j Hj. apply Hl. lia.
Qed.

Lemma readable_bytes d k : forall l o, (forall j, l <= j < l + Z.of_nat k -> sector d j <> None) -> 0 <= o < 512 * Z.of_nat k ->
  mjoin (sector_bytes <$> readable (sector d) l k) !! Z.to_nat o = Some (disk_byte d (512 * l + o)).
Proof.
  induction k as [|k IH]; intros l o Hl Ho; [lia|]. cbn [readable].
  destruct (sector d l) as [ws|] eqn:E; [|exfalso; apply (Hl l); [lia|done]]. destruct (sector_words d l ws E) as [Hlen _].
  cbn [fmap list_fmap]. change (mjoin (sector_bytes ws :: ?x)) with (sector_bytes ws ++ mjoin x).
  pose proof (length_sector_bytes ws) as Hb. rewrite Hlen in Hb.
  destruct (Z.lt_ge_cases o 512).
  - rewrite lookup_app_l by lia. unfold disk_byte. rewrite (Z.mul_comm 512 l), Z.add_comm, Z.mod_add, Z.mod_small by lia.
    rewrite Z.div_add, Z.div_small, Z.add_0_l, E by lia. change (default [] (Some ws)) with ws. rewrite nth_lookup.
    destruct (lookup_lt_is_Some_2 (sector_bytes ws) (Z.to_nat o)) as [b Hbb]; [lia|]. by rewrite Hbb.
  - rewrite lookup_app_r, Hb by lia. replace (Z.to_nat o - 2 * 256)%nat with (Z.to_nat (o - 512)) by lia.
    replace (512 * l + o) with (512 * (l + 1) + (o - 512)) by lia. apply IH; [intros j Hj; apply Hl; lia|lia].
Qed.

Lemma length_read d k : forall l,
  length (mjoin (sector_bytes <$> readable (sector d) l k)) = (512 * length (readable (sector d) l k))%nat.
Proof.
  induction k as [|k IH]; intros l; cbn [readable]; [done|]. destruct (sector d l) as [ws|] eqn:E; [|done].
  destruct (sector_words d l ws E) as [Hlen _]. cbn [fmap list_fmap length].
  change (mjoin (sector_bytes ws :: ?x)) with (sector_bytes ws ++ mjoin x). rewrite length_app, length_sector_bytes, IH. lia.
Qed.

Lemma read_byte (wss : list (list Z)) : Forall is_byte (mjoin (sector_bytes <$> wss)).
Proof.
  apply Forall_join, Forall_fmap, Forall_forall. intros ws _. apply Forall_join, Forall_fmap, Forall_forall. intros w _. apply le_encode_bytes.
Qed.

(** [n] bytes at [a] are those of the disk from [off] on; nothing else changed but [tmp]. *)
Definition filled d (m m' : mem) (tmp a off n : Z) : Prop :=
  (forall k, 0 <= k < n -> load8 m' (a + k) = disk_byte d (off + k)) /\
  forall c, ~ a <= c < a + n -> ~ tmp <= c < tmp + 512 -> load8 m' c = load8 m c.

Lemma filled_trans d d1 m m1 m2 tmp a off n1 n2 : 0 <= n1 -> 0 <= n2 -> sector d1 = sector d ->
  tmp + 512 <= a \/ a + n1 + n2 <= tmp ->
  filled d m m1 tmp a off n1 -> filled d1 m1 m2 tmp (a + n1) (off + n1) n2 -> filled d m m2 tmp a off (n1 + n2).
Proof.
  intros H1 H2 Hs Hd [A1 A2] [B1 B2]. split.
  - intros k Hk. destruct (Z.lt_ge_cases k n1).
    + rewrite B2 by lia. apply A1. lia.
    + replace (a + k) with (a + n1 + (k - n1)) by lia. rewrite B1 by lia. unfold disk_byte. rewrite Hs.
      by replace (off + n1 + (k - n1)) with (off + k) by lia.
  - intros c Hc Ht. rewrite B2 by lia. apply A2; lia.
Qed.

Lemma filled_none d m tmp a off : filled d m m tmp a off 0.
Proof. split; [intros; lia|done]. Qed.

Lemma filled_store d m tmp a l (k : nat) : (forall j, l <= j < l + Z.of_nat k -> sector d j <> None) ->
  filled d m (store_bytes m a (mjoin (sector_bytes <$> readable (sector d) l k))) tmp a (512 * l) (512 * Z.of_nat k).
Proof.
  intros Hl. set (bs := mjoin _).
  assert (length bs = 512 * k)%nat as Hlen by (unfold bs; by rewrite length_read, readable_all).
  split; [|intros c Hc _; apply load8_store_bytes_out; lia]. intros o Ho. unfold load8.
  pose proof (readable_bytes d k l o Hl Ho) as Hr. fold bs in Hr.
  assert (load_bytes (store_bytes m a bs) a (length bs) !! Z.to_nat o = Some (disk_byte d (512 * l + o))) as Hb.
  { rewrite load_store_bytes_eq; [done|apply read_byte|done]. }
  rewrite load_bytes_lookup in Hb by lia. rewrite Z2Nat.id in Hb by lia. by injection Hb as Hb.
Qed.

Context (nsect : Z) (tmp : Z) (n : nat).

(** The driver between two requests, on a disk whose first [nsect] sectors can be read. *)
Definition disk_ready d : Prop := (exists r e, phase d = Idle r e) /\ forall l, 0 <= l < nsect -> sector d l <> None.

(** One transfer of whole sectors. *)
Lemma whole_read d m a bs off w : nsect <= 2 ^ 28 -> (max_wait + 6 <= n)%nat -> disk_ready d -> byte_mem m ->
  0 <= off -> off mod 512 = 0 -> 0 < w <= 256 -> off + 512 * w <= 512 * nsect -> 512 * w <= bs ->
  exists d' m', ata_read_lba28 n d m a bs w ATA0_BASE 0 (u32 (off / SECTOR_SIZE)) = Ret (w, d', m') /\
    disk_ready d' /\ sector d' = sector d /\ byte_mem m' /\ filled d m m' tmp a off (512 * w).
Proof.
  intros Hns Hn [(r & e & Hp) Hg] Hm Hoff Ha Hw Hend Hbs. pose proof (Z.div_mod off 512 ltac:(lia)) as Hd. rewrite Ha in Hd.
  unfold SECTOR_SIZE. rewrite u32_small by lia. pose proof (ata_read_ok n d m a bs w (off / 512) r e Hp Hw ltac:(lia) ltac:(lia) Hn) as Hr.
  rewrite (proj2 (Z.ltb_ge _ _)) in Hr by (unfold SECTOR_SIZE; lia).
  assert (forall j, off / 512 <= j < off / 512 + Z.of_nat (Z.to_nat w) -> sector d j <> None) as Hgw by (intros j Hj; apply Hg; lia).
  destruct Hr as (d' & r' & E & Hs & Hp'). rewrite readable_all, Z2Nat.id in E by (done || lia).
  eexists d', _. split; [exact E|]. split; [split; [by eexists _, _|by rewrite Hs]|]. split; [done|].
  split; [by apply store_bytes_byte_mem|]. pose proof (filled_store d m tmp a (off / 512) (Z.to_nat w) Hgw) as Hf.
  rewrite Z2Nat.id in Hf by lia. by replace (512 * (off / 512)) with off in Hf by lia.
Qed.

(** One sector through the local buffer. *)
Lemma part_read d m a off ds : nsect <= 2 ^ 28 -> (max_wait + 6 <= n)%nat -> disk_ready d -> byte_mem m ->
  0 <= off -> off < 512 * nsect -> 0 <= ds <= 512 - off mod 512 -> tmp + 512 <= a \/ a + ds <= tmp ->
  exists d' m', ata_read_lba28 n d m tmp SECTOR_SIZE 1 ATA0_BASE 0 (u32 (off / SECTOR_SIZE)) = Ret (1, d', m') /\
    disk_ready d' /\ sector d' = sector d /\ byte_mem (memcpy m' a (tmp + off mod SECTOR_SIZE) ds) /\
    filled d m (memcpy m' a (tmp + off mod SECTOR_SIZE) ds) tmp a off ds.
Proof.
  intros Hns Hn Hr Hm Hoff Hend Hds Hap. pose proof (Z.div_mod off 512 ltac:(lia)) as Hd. pose proof (Z.mod_pos_bound off 512 ltac:(lia)).
  destruct (whole_read d m tmp SECTOR_SIZE (512 * (off / 512)) 1) as (d' & m' & E & Hr' & Hs & Hm' & [Hf1 Hf2]); try (done || lia).
  { by rewrite Z.mul_comm, Z.mod_mul. }
  replace (512 * (off / 512) / SECTOR_SIZE) with (off / SECTOR_SIZE) in E by (unfold SECTOR_SIZE; by rewrite Z.mul_comm, Z.div_mul).
  exists d', m'. split; [done|]. split; [done|]. split; [done|]. unfold SECTOR_SIZE.
  destruct (memcpy_load8 m' a (tmp + off mod 512) ds Hm' ltac:(lia)) as [Hmc Hl]. split; [done|]. split.
  - intros k Hk. rewrite Hl, (proj2 (andb_true_iff _ _)) by (split; [apply Z.leb_le|apply Z.ltb_lt]; lia).
    replace (tmp + off mod 512 + (a + k - a)) with (tmp + (off mod 512 + k)) by lia. rewrite Hf1 by lia. f_equal. lia.
  - intros c Hc Ht. rewrite Hl. destruct ((a <=? c) && (c <? a + ds)) eqn:Ec; breflect; [lia|]. apply Hf2; lia.
Qed.

(** Rounds of the loop that a request needs. *)
Definition rounds (off bc : Z) : nat :=
  if bc =? 0 then 0 else if off mod 512 =? 0 then (if bc <? 512 then 1 else 2) else 3.

(** The loop's variables between two transfers. *)
Record copying (c : copy_state) : Prop := {
  co_run : stopped c = false;
  co_ready : disk_ready (c_dev c);
  co_mem : byte_mem (c_mem c);
  co_offset : 0 <= c_offset c;
  co_count : 0 <= c_byte_count c < 2 ^ 31 /\ c_byte_count c / 512 <= 256;
  co_disk : c_offset c + c_byte_count c <= 512 * nsect;
  co_buffer : c_byte_count c <= c_buffer_size c < 2 ^ 32;
  co_apart : tmp + 512 <= c_buffer c \/ c_buffer c + c_byte_count c <= tmp
}.

(** [c'] is [c] after [ds] more bytes. *)
Definition advanced (c c' : copy_state) (ds : Z) : Prop :=
  copying c' /\ sector (c_dev c') = sector (c_dev c) /\ c_buffer c' = c_buffer c + ds /\ c_offset c' = c_offset c + ds /\
  c_byte_count c' = c_byte_count c - ds /\ c_read_bytes c' = c_read_bytes c + ds /\
  filled (c_dev c) (c_mem c) (c_mem c') tmp (c_buffer c) (c_offset c) ds.

Lemma advance_ok c d m ds : nsect <= 2 ^ 28 -> copying c -> 0 <= ds <= c_byte_count c -> disk_ready d -> byte_mem m ->
  sector d = sector (c_dev c) -> filled (c_dev c) (c_mem c) m tmp (c_buffer c) (c_offset c) ds -> advanced c (advance c d m ds) ds.
Proof.
  intros Hns [H1 H2 H3 H4 [H5 H5'] H6 H7 H8] Hds Hr Hm Hs Hf.
  assert (u32 (c_buffer_size c - ds) = c_buffer_size c - ds) as E1 by (apply u32_small; lia).
  assert (u64 (c_offset c + ds) = c_offset c + ds) as E2 by (apply u64_small; lia).
  assert ((c_byte_count c - ds) / 512 <= c_byte_count c / 512) by (apply Z.div_le_mono; lia).
  split; [split; cbn [advance stopped c_dev c_mem c_offset c_byte_count c_buffer_size c_buffer]; rewrite ?E1, ?E2; (done || lia)|].
  cbn [advance c_dev c_buffer c_offset c_byte_count c_read_bytes c_mem]. by rewrite E2.
Qed.

Lemma advanced_none c : copying c -> advanced c c 0.
Proof.
  intros Hc. split; [done|]. split; [done|]. split; [lia|]. split; [lia|]. split; [lia|]. split; [lia|]. apply filled_none.
Qed.

Lemma advanced_trans c c1 c2 (d1 d2 : Z) : 0 <= d1 -> 0 <= d2 -> copying c -> d1 + d2 <= c_byte_count c ->
  advanced c c1 d1 -> advanced c1 c2 d2 -> advanced c c2 (d1 + d2).
Proof.
  intros H1 H2 Hc Hd (A1 & A2 & A3 & A4 & A5 & A6 & A7) (B1 & B2 & B3 & B4 & B5 & B6 & B7).
  split; [done|]. split; [congruence|]. split; [lia|]. split; [lia|]. split; [lia|]. split; [lia|].
  eapply filled_trans; [done|done|exact A2| |exact A7|by rewrite <- A3, <- A4]. destruct (co_apart _ Hc); lia.
Qed.

Lemma read_part_ok c : nsect <= 2 ^ 28 -> (max_wait + 6 <= n)%nat -> copying c -> 0 < c_byte_count c ->
  exists c' ds, read_part n tmp c = Ret c' /\ advanced c c' ds /\ 0 <= ds <= c_byte_count c /\
    if nz (c_offset c mod 512) || (c_byte_count c <? 512) then ds = Z.min (512 - c_offset c mod 512) (c_byte_count c) else ds = 0.
Proof.
  intros Hns Hn Hc Hb. unfold read_part. change SECTOR_SIZE with 512 at 1 2.
  destruct (nz (c_offset c mod 512) || (c_byte_count c <? 512)) eqn:Ec.
  2: { exists c, 0. split; [done|]. split; [by apply advanced_none|]. split; [lia|done]. }
  cbv zeta. set (ds := if c_byte_count c <? _ then _ else _). pose proof (Z.mod_pos_bound (c_offset c) 512 ltac:(lia)).
  pose proof Hc as [C1 C2 C3 C4 [C5 C6] C7 C8 C9].
  assert (ds = Z.min (512 - c_offset c mod 512) (c_byte_count c)) as Hds.
  { clear Ec. unfold ds. clear ds. unfold SECTOR_SIZE. destruct (c_buffer_size c <? _) eqn:E1; destruct (c_byte_count c <? _) eqn:E2; breflect; lia. }
  destruct (part_read (c_dev c) (c_mem c) (c_buffer c) (c_offset c) ds) as (d' & m' & -> & Hr & Hs & Hm & Hf); try (done || lia).
  cbn [mbind outcome_bind negb Z.eqb Pos.eqb]. eexists _, ds. split; [done|]. split; [|split; [lia|done]].
  apply advance_ok; (done || lia).
Qed.

Lemma read_whole_ok c : nsect <= 2 ^ 28 -> (max_wait + 6 <= n)%nat -> copying c ->
  (512 <= c_byte_count c -> c_offset c mod 512 = 0) ->
  exists c' ds, read_whole n c = Ret c' /\ advanced c c' ds /\ ds = 512 * (c_byte_count c / 512).
Proof.
  intros Hns Hn Hc Ha. pose proof Hc as [C1 C2 C3 C4 [C5 C6] C7 C8 C9]. unfold read_whole, SECTOR_SIZE.
  pose proof (Z.div_mod (c_byte_count c) 512 ltac:(lia)). pose proof (Z.mod_pos_bound (c_byte_count c) 512 ltac:(lia)).
  destruct (512 <=? c_byte_count c) eqn:E; breflect; cycle 1.
  { exists c, 0. split; [done|]. split; [by apply advanced_none|]. by rewrite Z.div_small by lia. }
  cbv zeta. assert (0 < c_byte_count c / 512) by (apply Z.div_str_pos; lia).
  destruct (whole_read (c_dev c) (c_mem c) (c_buffer c) (c_buffer_size c) (c_offset c) (c_byte_count c / 512))
    as (d' & m' & E' & Hr & Hs & Hm & Hf); try (done || lia || by apply Ha).
  unfold SECTOR_SIZE in E'. rewrite E'.
  cbn [mbind outcome_bind]. rewrite (proj2 (Z.leb_gt _ _)) by lia. eexists _, _. split; [done|]. split; [|done].
  rewrite Z.mul_comm. apply advance_ok; (done || lia).
Qed.

Lemma read_loop_ok : nsect <= 2 ^ 28 -> (max_wait + 6 <= n)%nat -> forall k c, copying c ->
  (rounds (c_offset c) (c_byte_count c) < k)%nat ->
  exists d' m', read_loop k n tmp c = Ret (c_read_bytes c + c_byte_count c, d', m') /\ disk_ready d' /\
    sector d' = sector (c_dev c) /\ filled (c_dev c) (c_mem c) m' tmp (c_buffer c) (c_offset c) (c_byte_count c).
Proof.
  intros Hns Hn. induction k as [|k IH]; intros c Hc Hk; [lia|]. cbn [read_loop].
  destruct (c_byte_count c =? 0) eqn:E0; breflect.
  { rewrite E0, Z.add_0_r. eexists _, _. split; [done|]. split; [by apply co_ready|]. split; [done|apply filled_none]. }
  pose proof (co_count _ Hc) as [Hcr _]. pose proof (Z.mod_pos_bound (c_offset c) 512 ltac:(lia)) as Hom.
  destruct (read_part_ok c Hns Hn Hc ltac:(lia)) as (c1 & d1 & -> & Ha1 & Hd1 & Hpart). cbn [mbind outcome_bind].
  pose proof Ha1 as (Hc1 & _ & _ & Ho1 & Hb1 & _). rewrite (co_run _ Hc1).
  assert (0 < c_byte_count c - d1 -> (c_offset c + d1) mod 512 = 0) as Hal.
  { intros Hrest. destruct (nz (c_offset c mod 512) || (c_byte_count c <? 512)) eqn:Ec.
    - assert (d1 = 512 - c_offset c mod 512) as -> by lia. pose proof (Z.div_mod (c_offset c) 512 ltac:(lia)).
      replace (c_offset c + (512 - c_offset c mod 512)) with ((c_offset c / 512 + 1) * 512) by lia. by apply Z.mod_mul.
    - subst d1. rewrite Z.add_0_r. unfold nz in Ec. breflect. done. }
  destruct (read_whole_ok c1 Hns Hn Hc1) as (c2 & d2 & -> & Ha2 & Hd2).
  { intros Hb. rewrite Ho1. apply Hal. lia. }
  cbn [mbind outcome_bind]. pose proof Ha2 as (Hc2 & _ & _ & Ho2 & Hb2 & _). rewrite (co_run _ Hc2).
  pose proof (co_count _ Hc2) as [Hcr2 _]. rewrite (proj2 (Z.leb_le 0 _)) by lia. cbn [c_assert mbind outcome_bind].
  pose proof (co_count _ Hc1) as [Hcr1 _].
  pose proof (Z.div_mod (c_byte_count c1) 512 ltac:(lia)). pose proof (Z.mod_pos_bound (c_byte_count c1) 512 ltac:(lia)).
  assert (0 <= d2) by (rewrite Hd2; pose proof (Z.div_pos (c_byte_count c1) 512); lia).
  pose proof (advanced_trans c c1 c2 d1 d2 ltac:(lia) ltac:(lia) Hc ltac:(lia) Ha1 Ha2) as Ha.
  destruct (IH c2 Hc2) as (d' & m' & -> & Hr & Hs & Hf).
  { unfold rounds in *. rewrite (proj2 (Z.eqb_neq _ _) E0) in Hk. destruct (c_byte_count c2 =? 0) eqn:E2; breflect.
    - destruct (c_offset c mod 512 =? 0); [|lia]. destruct (c_byte_count c <? 512); lia.
    - assert (c_offset c2 mod 512 = 0) as ->.
      { rewrite Ho2, Hd2, Ho1, Z.mul_comm, Z.mod_add by lia. apply Hal. lia. }
      cbn [Z.eqb]. rewrite (proj2 (Z.ltb_lt (c_byte_count c2) 512)) by lia.
      destruct (c_offset c mod 512 =? 0) eqn:Em; [|lia]. destruct (c_byte_count c <? 512) eqn:Eb; [|lia]. exfalso. breflect.
      rewrite orb_true_r in Hpart. lia. }
  destruct Ha as (_ & As & Ab & Ao & Ac & Ar & Af). exists d', m'. split; [do 3 f_equal; lia|]. split; [done|]. split; [congruence|].
  replace (c_byte_count c) with (d1 + d2 + c_byte_count c2) by lia. eapply filled_trans; [lia|lia|exact As| |exact Af|by rewrite <- Ab, <- Ao].
  destruct (co_apart _ Hc); lia.
Qed.

(** A request for whole sectors is one transfer, and any positive answer counts as all of it. *)
Lemma read_loop_aligned k nf tm c w g d' m' : stopped c = false -> 1 <= w -> c_offset c mod 512 = 0 -> c_byte_count c = 512 * w ->
  ata_read_lba28 nf (c_dev c) (c_mem c) (c_buffer c) (c_buffer_size c) w ATA0_BASE 0 (u32 (c_offset c / SECTOR_SIZE)) = Ret (g, d', m') ->
  0 < g -> read_loop (S (S k)) nf tm c = Ret (c_read_bytes c + 512 * w, d', m').
Proof.
  intros Hst Hw Ho Hb Er Hg.
  assert (read_part nf tm c = Ret c) as Ep.
  { unfold read_part. change SECTOR_SIZE with 512 at 1 2. rewrite Ho, Hb, (proj2 (Z.ltb_ge _ _)) by lia. done. }
  assert (read_whole nf c = Ret (advance c d' m' (512 * w))) as Ew.
  { unfold read_whole. rewrite Hb. change SECTOR_SIZE with 512 at 1 2 4. rewrite (proj2 (Z.leb_le _ _)) by lia.
    rewrite (Z.mul_comm 512 w), Z.div_mul by lia. rewrite Er. cbn [mbind outcome_bind].
    by rewrite (proj2 (Z.leb_gt _ _)) by lia. }
  change (read_loop (S (S k)) nf tm c) with
    (if c_byte_count c =? 0 then Ret (c_read_bytes c, c_dev c, c_mem c)
     else c ← read_part nf tm c; if stopped c then Ret (c_read_bytes c, c_dev c, c_mem c) else
       c ← read_whole nf c; if stopped c then Ret (c_read_bytes c, c_dev c, c_mem c) else
       _ ← c_assert (0 <=? c_byte_count c); read_loop (S k) nf tm c).
  rewrite Ep. cbn [mbind outcome_bind]. rewrite Hst, Ew, Hb, (proj2 (Z.eqb_neq _ _)) by lia.
  cbn [mbind outcome_bind stopped advance c_byte_count]. rewrite Hb, Z.sub_diag. cbn [Z.leb Z.compare c_assert mbind outcome_bind read_loop c_byte_count Z.eqb advance].
  rewrite Hb, Z.sub_diag. done.
Qed.
End disk.

(** C21: The read request of the block driver on a disk that answers and whose sectors can all
    be read, for up to 256 whole sectors: the reply gives the number of bytes, the request
    cut at the end of the disk, and the buffer holds exactly the bytes of the disk from the
    offset on, whatever the alignment of the offset and the size; no other memory but the
    local sector buffer changes, and the drive is idle again. Past the end, or for a negative
    offset, nothing is read; an empty buffer is an error. Four rounds of the copy loop and,
    per sector, six status reads more than the drive may take are enough. *)
Theorem blk_read_spec {D : Type} `{AtaDisk D} (n : nat) (id : ata_identify_data) (d : D) (m : mem) (tmp buffer size offset : Z) :
  let nsect := maxlba28 id in
  0 <= nsect <= 2 ^ 28 -> disk_ready nsect d -> byte_mem m -> (max_wait + 6 <= n)%nat ->
  0 <= size < 2 ^ 31 -> size / 512 <= 256 -> - 2 ^ 31 <= offset < 2 ^ 31 -> tmp + 512 <= buffer \/ buffer + size <= tmp ->
  let r := handle_blkimpl_read 4 n id d m tmp buffer size offset in
  (size = 0 -> r = Ret (-1, 0, d, m)) /\
  (0 < size -> offset < 0 \/ 512 * nsect <= offset -> r = Ret (0, 0, d, m)) /\
  (0 < size -> 0 <= offset < 512 * nsect ->
     let got := Z.min size (512 * nsect - offset) in
     exists d' m', r = Ret (got, got, d', m') /\ disk_ready nsect d' /\ sector d' = sector d /\
       filled d m m' tmp buffer offset got).
Proof.
  intros nsect Hns Hr Hm Hn Hs Hs2 Ho Hap r. unfold r, handle_blkimpl_read, perform_read, SECTOR_SIZE. fold nsect.
  rewrite (s32_small size) by lia. rewrite (proj2 (Z.ltb_ge size 0)) by lia. cbn [orb]. split; [|split].
  - intros ->. done.
  - intros Hp Hb. rewrite (proj2 (Z.eqb_neq size 0)) by lia.
    assert (nsect * 512 <= u64 offset) as Hu.
    { destruct Hb; [|rewrite u64_small by lia; lia]. unfold u64. rewrite <- (Z.mod_add _ 1), Z.mod_small by lia. lia. }
    by rewrite (proj2 (Z.leb_le _ _) Hu).
  - intros Hp Hin. set (got := Z.min size (512 * nsect - offset)). rewrite (proj2 (Z.eqb_neq size 0)) by lia. rewrite (u64_small offset) by lia.
    rewrite (proj2 (Z.leb_gt (nsect * 512) offset)) by lia. rewrite (u64_small (nsect * 512 - offset)) by lia.
    assert ((if nsect * 512 - offset <? size then s32 (nsect * 512 - offset) else size) = got) as ->.
    { unfold got. destruct (_ <? size) eqn:E; breflect; [rewrite s32_small by lia|]; lia. }
    assert (got / 512 <= 256) as Hg by (etransitivity; [apply (Z.div_le_mono got size 512); lia|done]).
    destruct (read_loop_ok nsect tmp n ltac:(lia) Hn 4 (mkCopy false d m buffer size offset got 0)) as (d' & m' & -> & Hr' & Hsec & Hf).
    { split; cbn [stopped c_dev c_mem c_offset c_byte_count c_buffer_size c_buffer]; (done || lia). }
    { unfold rounds. repeat case_goal; lia. }
    cbn [c_read_bytes c_byte_count c_dev c_mem c_buffer c_offset mbind outcome_bind] in *. rewrite Z.add_0_l.
    rewrite (proj2 (Z.leb_le 0 got)) by lia. exists d', m'. by split.
Qed.

(** C22: The block driver when a sector cannot be read. A request for one sector reports the
    failure and leaves the buffer alone, as it does when the buffer is too small; a sector
    that can be read arrives whole. A request for several sectors that fails after the first
    of them is reported as complete: the reply counts the bytes asked for, but only the
    sectors before the failure were stored. *)
Theorem blk_error_spec {D : Type} `{AtaDisk D} (n : nat) (id : ata_identify_data) (d : D) (m : mem) (tmp buffer size lba : Z) r e :
  phase d = Idle r e -> (max_wait + 6 <= n)%nat -> 0 <= lba < 2 ^ 28 -> 0 <= size < 2 ^ 31 ->
  (size < 512 -> handle_blkimpl_read_sector n d m buffer size lba = Ret (-1, 0, d, m)) /\
  (512 <= size -> exists d', handle_blkimpl_read_sector n d m buffer size lba =
     match sector d lba with
     | Some ws => Ret (0, 512, d', store_bytes m buffer (sector_bytes ws))
     | None => Ret (-1, 0, d', m)
     end) /\
  (forall w, 1 <= w <= 256 -> size = 512 * w -> lba + w <= maxlba28 id <= 2 ^ 28 -> 512 * lba < 2 ^ 31 ->
     let got := readable (sector d) lba (Z.to_nat w) in
     (0 < length got)%nat -> exists d',
     handle_blkimpl_read 4 n id d m tmp buffer size (512 * lba) =
       Ret (size, size, d', store_bytes m buffer (mjoin (sector_bytes <$> got)))).
Proof.
  intros Hp Hn Hl Hs. unfold handle_blkimpl_read_sector. split; [|split].
  - intros Hlt. by rewrite (proj2 (Z.ltb_lt _ _)).
  - intros Hge. rewrite (proj2 (Z.ltb_ge _ _)) by done. rewrite (u32_small lba) by lia.
    pose proof (ata_read_ok n d m buffer size 1 lba r e Hp ltac:(lia) ltac:(lia) ltac:(lia) Hn) as Hr.
    rewrite (proj2 (Z.ltb_ge _ _)) in Hr by (unfold SECTOR_SIZE; lia). destruct Hr as (d' & r' & -> & _).
    cbn [mbind outcome_bind]. change (Z.to_nat 1) with 1%nat. cbn [readable]. exists d'. destruct (sector d lba) as [ws|]; [|done].
    cbn. by rewrite app_nil_r.
  - intros w Hw -> Hend Hoff Hgot. set (got := readable (sector d) lba (Z.to_nat w)) in *. unfold handle_blkimpl_read, perform_read.
    rewrite (s32_small (512 * w)) by lia. rewrite (u64_small (512 * lba)) by lia.
    rewrite (proj2 (Z.ltb_ge (512 * w) 0)) by lia. rewrite (proj2 (Z.eqb_neq (512 * w) 0)) by lia. cbn [orb].
    unfold SECTOR_SIZE at 1 2 3. rewrite (proj2 (Z.leb_gt (maxlba28 id * 512) _)) by lia.
    rewrite u64_small by lia. rewrite (proj2 (Z.ltb_ge _ (512 * w))) by lia.
    pose proof (ata_read_ok n d m buffer (512 * w) w lba r e Hp ltac:(lia) ltac:(lia) ltac:(lia) Hn) as Hr.
    rewrite (proj2 (Z.ltb_ge _ _)) in Hr by (unfold SECTOR_SIZE; lia). destruct Hr as (d' & r' & Er & _). fold got in Er.
    rewrite (read_loop_aligned 2 n tmp (mkCopy false d m buffer (512 * w) (512 * lba) (512 * w) 0) w (Z.of_nat (length got)) d'
      (store_bytes m buffer (mjoin (sector_bytes <$> got)))); cbn [stopped c_offset c_byte_count c_dev c_mem c_buffer c_buffer_size c_read_bytes]; try (done || lia).
    + cbn [mbind outcome_bind]. rewrite Z.add_0_l, (proj2 (Z.leb_le 0 _)) by lia. by exists d'.
    + by rewrite Z.mul_comm, Z.mod_mul.
    + unfold SECTOR_SIZE. by rewrite (Z.mul_comm 512 lba), Z.div_mul, u32_small by lia.
Qed.

(** ** A simulated drive *)

(** It needs one more status read per sector; word [i] of sector [l] is [data l i], and the
    sectors of [bad] cannot be read. *)
Inductive sim_phase : Type :=
| SIdle (r : ata_regs) (err : bool)
| SBusy (lba : Z) (left : nat) (waiting : bool)
| SData (lba : Z) (left k : nat).
Record sim : Type := mkSim { s_phase : sim_phase; s_data : Z -> Z -> Z; s_bad : Z -> bool }.
Definition sim_to (d : sim) (p : sim_phase) : sim := mkSim p (s_data d) (s_bad d).
Definition sim_words (d : sim) (l : Z) : list Z := (fun i => u16 (s_data d l (Z.of_nat i))) <$> seq 0 256.
Definition sim_sector (d : sim) (l : Z) : option (list Z) := if s_bad d l then None else Some (sim_words d l).

Definition sim_inb (d : sim) (p : Z) : Z * sim :=
  if p =? ATA0_BASE + ATA_PORT_ALTSTATUS then
    match s_phase d with
    | SIdle r e => (if e then 0x41 else 0x40, d)
    | SBusy l n true => (0x80, sim_to d (SBusy l n false))
    | SBusy l n false =>
        if s_bad d l then (0x41, sim_to d (SIdle (mkRegs 0 0 0 0 0) true)) else (0x48, sim_to d (SData l n 0))
    | SData _ _ _ => (0x48, d)
    end
  else (0, d).
Definition sim_outb (d : sim) (p v : Z) : sim :=
  match s_phase d with
  | SIdle r e =>
      let reg := p - ATA0_BASE in
      if (1 <=? reg) && (reg <? ATA_PORT_COMMAND) then sim_to d (SIdle (write_reg r reg v) e)
      else if (reg =? ATA_PORT_COMMAND) && (v =? ATA_CMD_READ) then sim_to d (SBusy (regs_lba r) (regs_count r) true)
      else d
  | _ => d
  end.
Definition sim_inw (d : sim) (p : Z) : Z * sim :=
  match s_phase d with
  | SData l n k =>
      (u16 (s_data d l (Z.of_nat k)),
       sim_to d (if (k <? 255)%nat then SData l n (S k)
                 else if (n <=? 1)%nat then SIdle (mkRegs 0 0 0 0 0) false else SBusy (l + 1) (n - 1) true))
  | _ => (0, d)
  end.
#[export] Instance sim_ports : PortIO sim := {| inb := sim_inb; outb := sim_outb; inw := sim_inw |}.

Definition sim_view (p : sim_phase) : ata_phase :=
  match p with
  | SIdle r e => Idle r e
  | SBusy l n w => Busy l n (if w then 1 else 0)
  | SData l n k => Data l n k
  end.

#[export] Program Instance sim_disk : AtaDisk sim :=
  {| phase d := sim_view (s_phase d); sector := sim_sector; max_wait := 1 |}.
Next Obligation.
  intros d l ws. unfold sim_sector. destruct (s_bad d l); [done|]. intros [= <-]. unfold sim_words. rewrite length_fmap, length_seq. split; [done|].
  apply Forall_fmap, Forall_forall. intros i _. apply u16_range.
Qed.
Next Obligation.
  intros d p. cbn [inb sim_ports]. unfold sim_inb, sim_sector. destruct (p =? _); [|done]. destruct (s_phase d) as [| ? ? []|]; try done.
  by destruct (s_bad d _).
Qed.
Next Obligation. intros d p. cbn [inw sim_ports]. unfold sim_inw, sim_sector. by destruct (s_phase d). Qed.
Next Obligation.
  intros d p v. cbn [outb sim_ports]. unfold sim_outb, sim_sector. destruct (s_phase d); try done.
  cbv zeta. destruct (_ && _); [done|]. by destruct (_ && _).
Qed.
Next Obligation. intros d l n w Hp. cbn beta in Hp. destruct (s_phase d) as [|? ? b|]; try done. injection Hp as _ _ <-. destruct b; lia. Qed.
Next Obligation.
  intros d r e Hp. cbn beta in Hp. cbn beta. cbn [inb sim_ports]. unfold sim_inb. rewrite Z.eqb_refl. destruct (s_phase d) eqn:E; try done.
  injection Hp as <- <-. rewrite E. by destruct err.
Qed.
Next Obligation.
  intros d l n w Hp. cbn beta in Hp. cbn beta. cbn [inb sim_ports]. unfold sim_inb. rewrite Z.eqb_refl. destruct (s_phase d) as [|l' n' []|] eqn:E; try done.
  - injection Hp as <- <- <-. left. exists 0%nat. split; [done|]. split; [lia|by left].
  - injection Hp as <- <- <-. unfold sim_sector. destruct (s_bad d l'); right.
    + right. by eexists.
    + left. by eexists.
Qed.
Next Obligation.
  intros d l n Hp. cbn beta in Hp. cbn beta. cbn [inb sim_ports]. unfold sim_inb. rewrite Z.eqb_refl. destruct (s_phase d) as [|l' n' []|] eqn:E; try done.
  cbn in Hp. rewrite E. done.
Qed.
Next Obligation.
  intros d l n k ws w Hp Hs Hw. cbn beta in Hp. cbn beta. cbn [inw sim_ports]. unfold sim_inw. destruct (s_phase d) as [|l' n' []|] eqn:E; try done.
  injection Hp as -> -> ->. unfold sim_sector in Hs. destruct (s_bad d l); [done|]. injection Hs as <-. unfold sim_words in Hw.
  apply list_lookup_fmap_Some in Hw as (i & -> & Hi). apply lookup_seq in Hi as [-> Hi]. split; [done|].
  destruct (k <? 255)%nat; [done|]. destruct (n <=? 1)%nat; by eexists.
Qed.
Next Obligation.
  intros d r e reg v Hp Hr. cbn beta in Hp. cbn beta. cbn [outb sim_ports]. unfold sim_outb. destruct (s_phase d) eqn:E; try done. injection Hp as -> ->. cbv zeta.
  replace (ATA0_BASE + reg - ATA0_BASE) with reg by lia. rewrite (proj2 (Z.leb_le 1 reg)), (proj2 (Z.ltb_lt reg _)) by lia. done.
Qed.
Next Obligation.
  intros d r e Hp Hsel. cbn beta in Hp. cbn beta. cbn [outb sim_ports]. unfold sim_outb. destruct (s_phase d) eqn:E; try done. injection Hp as -> ->. by exists 1%nat.
Qed.

(** A disk of four sectors; the third is unreadable in the second example. *)
Definition sim_start (bad : Z -> bool) : sim := mkSim (SIdle (mkRegs 0 0 0 0 0) false) (fun l i => l * 256 + i) bad.

Lemma blk_read_spec_witness : exists d' m', handle_blkimpl_read 4 7 (mkId 0 0 0 4 4) (sim_start (fun _ => false)) ∅ 0x8000 0x1000 10 510 =
  Ret (10, 10, d', m') /\ load8 m' 0x1002 = disk_byte (sim_start (fun _ => false)) 512.
Proof.
  destruct (blk_read_spec 7 (mkId 0 0 0 4 4) (sim_start (fun _ => false)) ∅ 0x8000 0x1000 10 510) as (_ & _ & H).
  - cbn. lia.
  - split; [by eexists _, _|]. intros l _. discriminate.
  - exact empty_byte_mem.
  - apply le_n.
  - lia.
  - vm_compute. discriminate.
  - lia.
  - lia.
  - destruct H as (d' & m' & E & _ & _ & [Hf _]); [lia|cbn; lia|]. exists d', m'. split; [exact E|]. apply (Hf 2). vm_compute. by split.
Defined.

Lemma blk_error_spec_witness : exists d', handle_blkimpl_read 4 7 (mkId 0 0 0 4 4) (sim_start (fun l => l =? 2)) ∅ 0x8000 0x1000 1024 512 =
  Ret (1024, 1024, d', store_bytes ∅ 0x1000 (sector_bytes ((fun i => u16 (256 + Z.of_nat i)) <$> seq 0 256) ++ [])).
Proof.
  destruct (blk_error_spec 7 (mkId 0 0 0 4 4) (sim_start (fun l => l =? 2)) ∅ 0x8000 0x1000 1024 1 (mkRegs 0 0 0 0 0) false) as (_ & _ & H).
  - reflexivity.
  - apply le_n.
  - lia.
  - lia.
  - apply (H 2); [lia|lia|cbn; lia|lia|apply Nat.lt_0_1].
Defined.
