(* ===== verification/Rpcgen.v ===== *)
(** [tools/rpcgen/rpcgen.c]: the front end of the generator of remote procedure calls, from the
    characters of an interface file to its list of functions. The stream is the rest of the
    buffer, which ends with a NUL; tokens and lists linked by [next] are lists. *)
From Stdlib Require Import Ascii String.
From stdpp Require Import list strings.
From S2P Require Import Prelude.

Inductive TokenType : Type :=
| NullToken | TypenameToken | ModifierToken | IdentifierToken | NumberToken
| LBraceToken | RBraceToken | LBracketToken | RBracketToken | SemicolonToken | ColonToken.
Inductive TypeName : Type := NullType | VoidType | IntType | StringType | LongType | BlobType.
Inductive Modifier : Type := NullModifier | OneWayModifier | OutModifier.
#[export] Instance TokenType_eq_dec : EqDecision TokenType.
Proof. solve_decision. Defined.
#[export] Instance TypeName_eq_dec : EqDecision TypeName.
Proof. solve_decision. Defined.
#[export] Instance Modifier_eq_dec : EqDecision Modifier.
Proof. solve_decision. Defined.

Record token : Type := mkToken { tok_type : TokenType; text : string; tok_type_name : TypeName; tok_modifier : Modifier }.
Record RPCType : Type := mkType { type : TypeName; modifier : Modifier }.
Record RPCArgument : Type := mkArg { arg_name : string; arg_type : RPCType }.
Record RPCFunction : Type := mkFn { fn_name : string; return_type : RPCType; args : list RPCArgument }.

(** ** Characters *)

(** A [char] as an [int]: signed on the host. *)
Definition code (c : ascii) : Z := s8 (Z.of_N (N_of_ascii c)).

Definition peek_char (s : string) : Z := match s with EmptyString => 0 | String c _ => code c end.
Definition next_char (s : string) : Z * string :=
  match s with
  | EmptyString => (0, s)
  | String c s' => if nz (code c) then (code c, s') else (0, s)
  end.

(** [while((ch = next_char(s)))] up to the end of a comment: the last character read. *)
Fixpoint skip_comment (s : string) : Z * string :=
  match s with
  | EmptyString => (0, s)
  | String c s' =>
      if nz (code c) then
        if (code c =? 42) && (peek_char s' =? 47) then (code c, s') else skip_comment s'
      else (0, s)
  end.

Fixpoint skip_whitespace (n : nat) (s : string) : outcome string :=
  match n with
  | O => Fault FFuel
  | S n =>
      let ch := peek_char s in
      if ch =? 47 then
        let s1 := (next_char s).2 in
        if peek_char s1 =? 42 then
          let '(ch, s2) := skip_comment s1 in
          let s3 := if ch =? 42 then (next_char s2).2 else s2 in
          skip_whitespace n (next_char s3).2
        else Ret s
      else if 32 <? ch then Ret s
      else if ch =? 0 then Ret s
      else skip_whitespace n (next_char s).2
  end.

(** ** Tokens *)
Definition word_char (ch : Z) : bool :=
  ((48 <=? ch) && (ch <=? 57)) || ((97 <=? ch) && (ch <=? 122)) || ((65 <=? ch) && (ch <=? 90)) || (ch =? 95).

(** [while((size > 1) && (ch = peek_char(s)))] *)
Fixpoint word_rest (size : nat) (s : string) : string * string :=
  match size, s with
  | S (S size), String c s' =>
      if nz (code c) && word_char (code c)
      then let '(w, r) := word_rest (S size) s' in (String c w, r) else (EmptyString, s)
  | _, _ => (EmptyString, s)
  end.

(** [(] [)] [{] [}] [;] [,] *)
Definition is_punct (ch : Z) : bool := existsb (Z.eqb ch) [40; 41; 123; 125; 59; 44].

(** [None] at the end of the input; [size] is that of the buffer. *)
Definition next_word (n : nat) (s : string) (size : nat) : outcome (option string * string) :=
  s ← skip_whitespace n s;
  match s with
  | EmptyString => Ret (None, s)
  | String c s' =>
      if is_punct (code c) then Ret (Some (String c EmptyString), s')
      else if code c =? 0 then Ret (None, s)
      else let '(w, r) := word_rest (size - 1) s' in Ret (Some (String c w), r)
  end.

Definition classify (w : string) : token :=
  if decide (w = "(") then mkToken LBraceToken w NullType NullModifier
  else if decide (w = ")") then mkToken RBraceToken w NullType NullModifier
  else if decide (w = "{") then mkToken LBracketToken w NullType NullModifier
  else if decide (w = "}") then mkToken RBracketToken w NullType NullModifier
  else if decide (w = ";") then mkToken SemicolonToken w NullType NullModifier
  else if decide (w = ",") then mkToken ColonToken w NullType NullModifier
  else if decide (w = "oneway") then mkToken ModifierToken w NullType OneWayModifier
  else if decide (w = "out") then mkToken ModifierToken w NullType OutModifier
  else if decide (w = "void") then mkToken TypenameToken w VoidType NullModifier
  else if decide (w = "int") then mkToken TypenameToken w IntType NullModifier
  else if decide (w = "string") then mkToken TypenameToken w StringType NullModifier
  else if decide (w = "long") then mkToken TypenameToken w LongType NullModifier
  else if decide (w = "blob") then mkToken TypenameToken w BlobType NullModifier
  else mkToken IdentifierToken w NullType NullModifier.

(** [sizeof(tok->text)] *)
Definition text_size : nat := 64.
Definition next_token (n : nat) (s : string) : outcome (option token * string) :=
  '(w, s) ← next_word n s text_size;
  Ret (option_map classify w, s).

(** The loop of [main] that reads all tokens. *)
Fixpoint read_tokens (k n : nat) (s : string) : outcome (list token) :=
  match k with
  | O => Fault FFuel
  | S k =>
      '(t, s) ← next_token n s;
      match t with None => Ret [] | Some t => ts ← read_tokens k n s; Ret (t :: ts) end
  end.

(** ** Statements *)
Definition is_type (t : token) : bool :=
  bool_decide (tok_type t = TypenameToken) || bool_decide (tok_type t = ModifierToken).

(** [read_token] and [assert(token)]. *)
Definition read_token (ts : list token) : outcome (token * list token) :=
  match ts with [] => Fault FAssert | t :: ts => Ret (t, ts) end.
(** A token of a given type. *)
Definition expect (ty : TokenType) (ts : list token) : outcome (token * list token) :=
  '(t, ts) ← read_token ts;
  _ ← c_assert (bool_decide (tok_type t = ty));
  Ret (t, ts).

(** The loop of [read_type]: the tokens end with the first that is no part of a type. *)
Fixpoint read_type_loop (ts : list token) (r : RPCType) : outcome (RPCType * list token) :=
  match ts with
  | [] => Fault FAssert
  | t :: ts' =>
      if decide (tok_type t = TypenameToken) then
        _ ← c_assert (bool_decide (type r = NullType));
        read_type_loop ts' (mkType (tok_type_name t) (modifier r))
      else if decide (tok_type t = ModifierToken) then
        _ ← c_assert (bool_decide (modifier r = NullModifier));
        read_type_loop ts' (mkType (type r) (tok_modifier t))
      else Ret (r, ts)
  end.
Definition read_type (ts : list token) : outcome (RPCType * list token) :=
  '(r, ts) ← read_type_loop ts (mkType NullType NullModifier);
  _ ← c_assert (negb (bool_decide (type r = NullType)));
  Ret (r, ts).

Definition read_function_param (ts : list token) : outcome (RPCArgument * list token) :=
  '(ty, ts) ← read_type ts;
  '(t, ts) ← expect IdentifierToken ts;
  Ret (mkArg (text t) ty, ts).

Fixpoint read_function_param_list (n : nat) (ts : list token) : outcome (list RPCArgument * list token) :=
  match n with
  | O => Fault FFuel
  | S n =>
      match ts with
      | [] => Fault FAssert
      | t :: _ =>
          if is_type t then
            '(arg, ts) ← read_function_param ts;
            match ts with
            | [] => Fault FMem
            | t :: ts' =>
                if decide (tok_type t = ColonToken) then
                  '(rest, ts) ← read_function_param_list n ts';
                  Ret (arg :: rest, ts)
                else Ret ([arg], ts)
            end
          else Ret ([], ts)
      end
  end.

Definition read_function (n : nat) (ts : list token) : outcome (RPCFunction * list token) :=
  '(ret, ts) ← read_type ts;
  '(name, ts) ← expect IdentifierToken ts;
  '(_, ts) ← expect LBraceToken ts;
  '(args, ts) ← read_function_param_list n ts;
  '(_, ts) ← expect RBraceToken ts;
  '(_, ts) ← expect SemicolonToken ts;
  Ret (mkFn (text name) ret args, ts).

Fixpoint read_statements (k n : nat) (ts : list token) : outcome (list RPCFunction) :=
  match k with
  | O => Fault FFuel
  | S k =>
      match ts with
      | [] => Ret []
      | _ => '(fn, ts) ← read_function n ts; fns ← read_statements k n ts; Ret (fn :: fns)
      end
  end.

(** The front end of [main]: every loop consumes a character or a token per round. *)
Definition front_end (s : string) : outcome (list RPCFunction) :=
  let n := S (String.length s) in
  ts ← read_tokens n n s;
  read_statements (S (length ts)) (S (length ts)) ts.

(** ** Printing *)
Definition modifier_text (m : Modifier) : string :=
  match m with OneWayModifier => "oneway" | OutModifier => "out" | NullModifier => "" end.
Definition type_text (t : TypeName) : string :=
  match t with
  | NullType => "null" | VoidType => "void" | IntType => "int" | StringType => "string" | LongType => "long" | BlobType => "blob"
  end.
Definition stringify_type (t : RPCType) : string :=
  let r := modifier_text (modifier t) in
  (if decide (r = "") then r else r +:+ " ") +:+ type_text (type t).

Definition strupper (s : string) : string :=
  String.string_of_list_ascii ((fun c => if (97 <=? code c) && (code c <=? 122) then ascii_of_N (N_of_ascii c - 32) else c) <$> String.list_ascii_of_string s).
