(* ===== verification/RpcgenClaims.v ===== *)
(** The front end of the interface generator accepts exactly its grammar
    ([tools/rpcgen/rpcgen.c], [tools/rpcgen/Grammar.txt]). *)
From Stdlib Require Import Ascii String.
From stdpp Require Import list strings.
From S2P Require Import Prelude Rpcgen.

Lemma length_append (a b : string) : String.length (a +:+ b) = (String.length a + String.length b)%nat.
Proof. induction a as [|c a IH]; [done|]. change (S (String.length (a +:+ b)) = S (String.length a + String.length b)%nat). by rewrite IH. Qed.

Lemma append_assoc (a b c : string) : (a +:+ b) +:+ c = a +:+ (b +:+ c).
Proof. induction a as [|x a IH]; [done|]. change (String x ((a +:+ b) +:+ c) = String x (a +:+ (b +:+ c))). by rewrite IH. Qed.

(** ** Layout *)

(** The inside of a comment that began with a star: no NUL, no end of comment. *)
Fixpoint no_close (s : string) : bool :=
  match s with
  | EmptyString => true
  | String c s' => nz (code c) && negb ((code c =? 42) && (peek_char s' =? 47)) && no_close s'
  end.

Lemma skip_comment_close x r : no_close x = true -> skip_comment (x +:+ String "*" (String "/" r)) = (42, String "/" r).
Proof.
  induction x as [|c x IH]; intros Hx; [done|]. change (String c x +:+ ?t) with (String c (x +:+ t)).
  cbn [no_close] in Hx. apply andb_true_iff in Hx as [Hx Hx']. apply andb_true_iff in Hx as [Hc Hn].
  cbn [skip_comment]. rewrite Hc. specialize (IH Hx'). destruct x as [|c' x].
  - change (EmptyString +:+ ?t) with t. cbn [peek_char]. change (code "*" =? 47) with false. rewrite andb_false_r. done.
  - change (String c' x +:+ ?t) with (String c' (x +:+ t)) in *. cbn [peek_char] in Hn |- *. apply negb_true_iff in Hn. by rewrite Hn.
Qed.

(** A comment swallows the character behind it, whatever it is. *)
Lemma skip_comment_swallows n body c r : no_close (String "*" body) = true -> code c <> 0 ->
  skip_whitespace (S n) (String "/" (String "*" body) +:+ String "*" (String "/" (String c r))) = skip_whitespace n r.
Proof.
  intros Hb Hc. set (x := String "*" body) in *. change (String "/" x +:+ ?t) with (String "/" (x +:+ t)).
  cbn [skip_whitespace]. change (peek_char (String "/" ?t) =? 47) with true. change ((next_char (String "/" ?t)).2) with t. cbn beta iota zeta.
  change (peek_char (x +:+ ?t) =? 42) with true. cbn beta iota. rewrite skip_comment_close by done. cbn beta iota zeta.
  change (42 =? 42) with true. change ((next_char (String "/" ?t)).2) with t. cbn beta iota. cbn [next_char].
  by rewrite nz_true.
Qed.

(** White space and comments, each comment followed by white space. *)
Definition space (c : ascii) : bool := (code c <=? 32) && nz (code c).
Inductive blank : string -> Prop :=
| blank_nil : blank EmptyString
| blank_space c s : space c = true -> blank s -> blank (String c s)
| blank_comment body c s : no_close (String "*" body) = true -> space c = true -> blank s ->
    blank (String "/" (String "*" body) +:+ String "*" (String "/" (String c s))).

(** A word begins here, or the text ends. *)
Definition starts (s : string) : Prop := match s with EmptyString => True | String c _ => 32 < code c /\ code c <> 47 end.

Lemma skip_blank b s : blank b -> starts s -> forall n, (String.length b < n)%nat -> skip_whitespace n (b +:+ s) = Ret s.
Proof.
  intros Hb Hs. induction Hb as [|c b Hc Hb IH|body c b Hbody Hc Hb IH]; intros [|n] Hn; try (cbn in Hn; lia).
  - change (EmptyString +:+ s) with s. cbn [skip_whitespace]. destruct s as [|c s]; [done|]. destruct Hs as [H1 H2]. cbn [peek_char].
    rewrite (proj2 (Z.eqb_neq _ _) H2). cbv zeta. by rewrite (proj2 (Z.ltb_lt _ _)).
  - change (String c b +:+ s) with (String c (b +:+ s)). unfold space in Hc. apply andb_true_iff in Hc as [H1 H2]. breflect.
    cbn [skip_whitespace peek_char]. cbv zeta. rewrite (proj2 (Z.eqb_neq _ _)) by lia. rewrite (proj2 (Z.ltb_ge _ _)) by lia.
    unfold nz in H2. apply negb_true_iff in H2. rewrite H2. cbn [next_char]. unfold nz. rewrite H2. cbn [negb snd].
    apply IH. cbn in Hn. lia.
  - rewrite append_assoc. change (String "*" (String "/" (String c b)) +:+ s) with (String "*" (String "/" (String c (b +:+ s)))).
    unfold space in Hc. apply andb_true_iff in Hc as [H1 H2]. apply nz_spec in H2. rewrite skip_comment_swallows by done.
    apply IH. rewrite length_append in Hn. cbn [String.length] in Hn. lia.
Qed.

(** ** Words *)
Fixpoint all_word (s : string) : bool :=
  match s with EmptyString => true | String c s => word_char (code c) && all_word s end.
(** A punctuation mark, or up to 63 letters, digits and underscores. *)
Definition word_ok (w : string) : bool :=
  match w with
  | EmptyString => false
  | String c w' => (is_punct (code c) && String.eqb w' EmptyString) ||
                   (all_word w && (String.length w <=? 63)%nat)
  end.

Lemma word_char_range ch : word_char ch = true -> 48 <= ch <= 122.
Proof. unfold word_char. rewrite !orb_true_iff, !andb_true_iff, !Z.leb_le, Z.eqb_eq. lia. Qed.

Lemma punct_range ch : is_punct ch = true -> ch = 40 \/ ch = 41 \/ ch = 123 \/ ch = 125 \/ ch = 59 \/ ch = 44.
Proof.
  unfold is_punct. cbn [existsb]. rewrite !orb_true_iff, !Z.eqb_eq.
  intros [E|[E|[E|[E|[E|[E|E]]]]]]; (lia || done).
Qed.

Lemma punct_not_word ch : is_punct ch = true -> word_char ch = false.
Proof. intros Hp. apply punct_range in Hp. by destruct Hp as [->|[->|[->|[->|[->| ->]]]]]. Qed.

Lemma word_starts w s : word_ok w = true -> starts (w +:+ s).
Proof.
  destruct w as [|c w]; [done|]. change (starts (String c w +:+ s)) with (32 < code c /\ code c <> 47). cbn [word_ok all_word].
  rewrite orb_true_iff, !andb_true_iff. intros [[Hp _]|[[Hw _] _]].
  - apply punct_range in Hp. lia.
  - pose proof (word_char_range _ Hw) as Hr. split; [lia|]. intros E. by rewrite E in Hw.
Qed.

(** [ws] are the words of [s]. *)
Inductive layout : list string -> string -> Prop :=
| layout_nil b : blank b -> layout [] b
| layout_cons b w ws s : blank b -> layout ws s -> word_ok w = true -> (all_word w = true -> word_char (peek_char s) = false) ->
    layout (w :: ws) (b +:+ (w +:+ s)).

Lemma word_rest_ok w s : forall size, all_word w = true -> word_char (peek_char s) = false -> (String.length w < size)%nat ->
  word_rest size (w +:+ s) = (w, s).
Proof.
  induction w as [|c w IH]; intros size Hw Hs Hn; cbn in Hn.
  - change (EmptyString +:+ s) with s. destruct size as [|[|size]]; [lia|by destruct s|].
    destruct s as [|c s]; [done|]. cbn [word_rest].
    cbn [peek_char] in Hs. by rewrite Hs, andb_false_r.
  - destruct size as [|[|size]]; [lia|lia|]. change (String c w +:+ s) with (String c (w +:+ s)). cbn [word_rest]. cbn [all_word] in Hw.
    apply andb_true_iff in Hw as [Hc Hw]. pose proof (word_char_range _ Hc). rewrite nz_true by lia. rewrite Hc. cbn [andb].
    by rewrite IH by (done || lia).
Qed.

Lemma next_token_layout n b w s : blank b -> word_ok w = true -> (all_word w = true -> word_char (peek_char s) = false) ->
  (String.length b < n)%nat -> next_token n (b +:+ (w +:+ s)) = Ret (Some (classify w), s).
Proof.
  intros Hb Hw Hs Hn. unfold next_token, next_word. rewrite skip_blank by (done || by apply word_starts). cbn [mbind outcome_bind].
  destruct w as [|c w]; [done|]. change (String c w +:+ s) with (String c (w +:+ s)). cbn [word_ok] in Hw.
  apply orb_true_iff in Hw as [Hw|Hw]; apply andb_true_iff in Hw as [H1 H2].
  - rewrite H1. apply String.eqb_eq in H2. subst w. done.
  - specialize (Hs H1). cbn [all_word] in H1. apply andb_true_iff in H1 as [Hc Hw]. pose proof (word_char_range _ Hc).
    destruct (is_punct (code c)) eqn:Ep; [apply punct_not_word in Ep; congruence|].
    rewrite (proj2 (Z.eqb_neq _ _)) by lia. apply Nat.leb_le in H2. cbn in H2. change (text_size - 1)%nat with 63%nat.
    by rewrite word_rest_ok by (done || lia).
Qed.

Lemma next_token_end n b : blank b -> (String.length b < n)%nat -> next_token n b = Ret (None, EmptyString).
Proof.
  intros Hb Hn. pose proof (skip_blank b EmptyString Hb I n Hn) as Hs.
  assert (forall x : string, x +:+ EmptyString = x) as He.
  { induction x as [|c x IH]; [done|]. change (String c (x +:+ EmptyString) = String c x). by rewrite IH. }
  rewrite He in Hs. unfold next_token, next_word. by rewrite Hs.
Qed.

Lemma read_tokens_layout ws s : layout ws s -> forall k n, (length ws < k)%nat -> (String.length s < n)%nat ->
  read_tokens k n s = Ret (classify <$> ws).
Proof.
  induction 1 as [b Hb|b w ws s Hb Hl IH Hw Hs]; intros [|k] n Hk Hn; cbn in Hk; try lia; cbn [read_tokens].
  - by rewrite next_token_end.
  - rewrite !length_append in Hn. rewrite next_token_layout by (done || lia). cbn [mbind outcome_bind].
    rewrite IH by lia. done.
Qed.

Lemma layout_length ws s : layout ws s -> (length ws <= String.length s)%nat.
Proof.
  induction 1 as [|b w ws s Hb Hl IH Hw Hs]; cbn [length]; [lia|]. rewrite !length_append. destruct w as [|c w]; [done|]. cbn [String.length]. lia.
Qed.

(** ** The grammar on tokens *)
Inductive t_type : RPCType -> list token -> Prop :=
| t_plain t : tok_type t = TypenameToken -> t_type (mkType (tok_type_name t) NullModifier) [t]
| t_suffix t m : tok_type t = TypenameToken -> tok_type m = ModifierToken -> t_type (mkType (tok_type_name t) (tok_modifier m)) [t; m]
| t_prefix m t : tok_type t = TypenameToken -> tok_type m = ModifierToken -> t_type (mkType (tok_type_name t) (tok_modifier m)) [m; t].

Inductive t_param : RPCArgument -> list token -> Prop :=
| t_arg ty ts x : t_type ty ts -> tok_type x = IdentifierToken -> t_param (mkArg (text x) ty) (ts ++ [x]).

Inductive t_params : list RPCArgument -> list token -> Prop :=
| t_none : t_params [] []
| t_last a ts : t_param a ts -> t_params [a] ts
| t_more a ts c l ts' : t_param a ts -> tok_type c = ColonToken -> t_params l ts' -> t_params (a :: l) (ts ++ c :: ts').

Inductive t_function : RPCFunction -> list token -> Prop :=
| t_fn ty ts x lb l ps rb sc : t_type ty ts -> tok_type x = IdentifierToken -> tok_type lb = LBraceToken -> t_params l ps ->
    tok_type rb = RBraceToken -> tok_type sc = SemicolonToken ->
    t_function (mkFn (text x) ty l) (ts ++ x :: lb :: ps ++ [rb; sc]).

Inductive t_file : list RPCFunction -> list token -> Prop :=
| t_empty : t_file [] []
| t_statement f ts l ts' : t_function f ts -> t_file l ts' -> t_file (f :: l) (ts ++ ts').

(** What the lexer guarantees of a token. *)
Definition tok_ok (t : token) : Prop :=
  (tok_type t = TypenameToken -> tok_type_name t <> NullType) /\ (tok_type t = ModifierToken -> tok_modifier t <> NullModifier).

Lemma classify_ok w : tok_ok (classify w).
Proof. unfold classify. repeat case_decide; by split. Qed.

Lemma is_type_iff t : is_type t = true <-> tok_type t = TypenameToken \/ tok_type t = ModifierToken.
Proof. unfold is_type. rewrite orb_true_iff, !bool_decide_eq_true. done. Qed.

Lemma is_type_false t : is_type t = false <-> tok_type t <> TypenameToken /\ tok_type t <> ModifierToken.
Proof. unfold is_type. rewrite orb_false_iff, !bool_decide_eq_false. done. Qed.

(** ** Types *)
Lemma type_loop_stop t ts r : is_type t = false -> read_type_loop (t :: ts) r = Ret (r, t :: ts).
Proof. intros [H1 H2]%is_type_false. cbn [read_type_loop]. by rewrite !decide_False. Qed.

Lemma type_loop_name t ts m : tok_type t = TypenameToken ->
  read_type_loop (t :: ts) (mkType NullType m) = read_type_loop ts (mkType (tok_type_name t) m).
Proof. intros E. cbn [read_type_loop]. by rewrite decide_True. Qed.

Lemma type_loop_mod t ts n : tok_type t = ModifierToken ->
  read_type_loop (t :: ts) (mkType n NullModifier) = read_type_loop ts (mkType n (tok_modifier t)).
Proof. intros E. cbn [read_type_loop]. rewrite decide_False by congruence. by rewrite decide_True. Qed.

Lemma read_type_complete r ts t rest : Forall tok_ok ts -> t_type r ts -> is_type t = false ->
  read_type (ts ++ t :: rest) = Ret (r, t :: rest).
Proof.
  intros Hok Hg Ht. unfold read_type. destruct Hg as [x Hx|x m Hx Hm|m x Hx Hm]; cbn [app].
  - rewrite type_loop_name, type_loop_stop by done. cbn [mbind outcome_bind type].
    apply Forall_singleton in Hok as [Hn _]. by rewrite bool_decide_eq_false_2 by auto.
  - rewrite type_loop_name, type_loop_mod, type_loop_stop by done. cbn [mbind outcome_bind type].
    apply Forall_cons in Hok as [[Hn _] _]. by rewrite bool_decide_eq_false_2 by auto.
  - rewrite type_loop_mod, type_loop_name, type_loop_stop by done. cbn [mbind outcome_bind type].
    apply Forall_cons in Hok as [_ [[Hn _] _]%Forall_cons]. by rewrite bool_decide_eq_false_2 by auto.
Qed.

(** A type has one name and one modifier. *)
Lemma type_loop_full t ts r : is_type t = true -> (tok_type t = TypenameToken -> type r <> NullType) ->
  (tok_type t = ModifierToken -> modifier r <> NullModifier) -> read_type_loop (t :: ts) r = Fault FAssert.
Proof.
  intros Ht Hn Hm. cbn [read_type_loop]. apply is_type_iff in Ht as [Ht|Ht].
  - rewrite decide_True by done. by rewrite bool_decide_eq_false_2 by auto.
  - rewrite decide_False, decide_True by congruence. by rewrite bool_decide_eq_false_2 by auto.
Qed.

Lemma read_type_sound ts r rest : Forall tok_ok ts -> read_type ts = Ret (r, rest) ->
  exists pre t rest', ts = pre ++ rest /\ rest = t :: rest' /\ is_type t = false /\ t_type r pre.
Proof.
  intros Hok E. unfold read_type in E. destruct (read_type_loop ts _) as [[r0 ts0]|e] eqn:El; [|done]. cbn [mbind outcome_bind] in E.
  destruct (bool_decide (type r0 = NullType)) eqn:En; [done|]. injection E as <- <-. apply bool_decide_eq_false in En.
  destruct ts as [|x ts]; [done|]. destruct (is_type x) eqn:Ex.
  2: { rewrite type_loop_stop in El by done. by injection El as <- <-. }
  apply Forall_cons in Hok as [[Hxn Hxm] Hok]. apply is_type_iff in Ex as [Hx|Hx].
  - rewrite type_loop_name in El by done. destruct ts as [|y ts]; [done|]. destruct (is_type y) eqn:Ey.
    2: { rewrite type_loop_stop in El by done. injection El as <- <-. exists [x], y, ts. repeat (split; [done|]). by constructor. }
    apply is_type_iff in Ey as [Hy|Hy].
    { rewrite type_loop_full in El; cbn [type modifier]; [done|by apply is_type_iff; left|auto|congruence]. }
    rewrite type_loop_mod in El by done. apply Forall_cons in Hok as [[_ Hym] _]. destruct ts as [|z ts]; [done|].
    destruct (is_type z) eqn:Ez.
    2: { rewrite type_loop_stop in El by done. injection El as <- <-. exists [x; y], z, ts. repeat (split; [done|]). by constructor. }
    rewrite type_loop_full in El; cbn [type modifier]; auto. done.
  - rewrite type_loop_mod in El by done. destruct ts as [|y ts]; [done|]. destruct (is_type y) eqn:Ey.
    2: { rewrite type_loop_stop in El by done. injection El as <- <-. done. }
    apply Forall_cons in Hok as [[Hyn _] _]. apply is_type_iff in Ey as [Hy|Hy].
    2: { rewrite type_loop_full in El; cbn [type modifier]; [done|by apply is_type_iff; right|congruence|auto]. }
    rewrite type_loop_name in El by done. destruct ts as [|z ts]; [done|]. destruct (is_type z) eqn:Ez.
    2: { rewrite type_loop_stop in El by done. injection El as <- <-. exists [x; y], z, ts. repeat (split; [done|]). by constructor. }
    rewrite type_loop_full in El; cbn [type modifier]; auto. done.
Qed.

(** ** Parameters and functions *)
Lemma expect_eq ty t ts : expect ty (t :: ts) = if decide (tok_type t = ty) then Ret (t, ts) else Fault FAssert.
Proof. unfold expect. cbn [read_token mbind outcome_bind]. destruct (decide (tok_type t = ty)); [by rewrite bool_decide_eq_true_2|by rewrite bool_decide_eq_false_2]. Qed.

Lemma expect_sound ty ts t rest : expect ty ts = Ret (t, rest) -> ts = t :: rest /\ tok_type t = ty.
Proof. destruct ts as [|x ts]; [done|]. rewrite expect_eq. case_decide; [|done]. by intros [= -> ->]. Qed.

Lemma t_type_head r ts : t_type r ts -> exists t ts', ts = t :: ts' /\ is_type t = true.
Proof. intros Hg. destruct Hg; eexists _, _; (split; [done|]); apply is_type_iff; auto. Qed.

Lemma ident_no_type x : tok_type x = IdentifierToken -> is_type x = false.
Proof. intros E. apply is_type_false. rewrite E. done. Qed.

Lemma read_param_complete a ts rest : Forall tok_ok ts -> t_param a ts -> read_function_param (ts ++ rest) = Ret (a, rest).
Proof.
  intros Hok Hg. destruct Hg as [ty ts x Hty Hx]. apply Forall_app in Hok as [Hok _]. unfold read_function_param.
  rewrite <- app_assoc. cbn [app]. rewrite (read_type_complete ty) by (done || by apply ident_no_type). cbn [mbind outcome_bind].
  rewrite expect_eq, decide_True by done. done.
Qed.

Lemma read_param_sound ts a rest : Forall tok_ok ts -> read_function_param ts = Ret (a, rest) ->
  exists pre, ts = pre ++ rest /\ t_param a pre.
Proof.
  intros Hok E. unfold read_function_param in E. destruct (read_type ts) as [[ty ts1]|] eqn:E1; [|done]. cbn [mbind outcome_bind] in E.
  destruct (expect IdentifierToken ts1) as [[x ts2]|] eqn:E2; [|done]. injection E as <- <-.
  destruct (read_type_sound _ _ _ Hok E1) as (pre & t & rest' & -> & -> & _ & Hg). apply expect_sound in E2 as [[= -> ->] Hx].
  exists (pre ++ [x]). split; [by rewrite <- app_assoc|]. by constructor.
Qed.

Lemma t_param_head a ts : t_param a ts -> exists t ts', ts = t :: ts' /\ is_type t = true.
Proof. intros Hg. destruct Hg as [ty ts x Hty Hx]. destruct (t_type_head _ _ Hty) as (t & ts' & -> & Ht). by eexists _, _. Qed.

(** A token that ends a parameter list. *)
Definition ends_params (t : token) : Prop := is_type t = false /\ tok_type t <> ColonToken.

Lemma read_params_complete l ts t rest : Forall tok_ok ts -> t_params l ts -> ends_params t ->
  forall n, (length ts < n)%nat -> read_function_param_list n (ts ++ t :: rest) = Ret (l, t :: rest).
Proof.
  intros Hok Hg [Ht Hc]. induction Hg as [|a ts Ha|a ts c l ts' Ha Hcol Hl IH]; intros [|n] Hn; cbn in Hn; try lia; cbn [read_function_param_list].
  - cbn [app]. by rewrite Ht.
  - destruct (t_param_head _ _ Ha) as (x & ts0 & E0 & Hx). assert (exists y, ts ++ t :: rest = x :: y) as [y Ey] by (rewrite E0; by eexists).
    rewrite Ey, Hx, <- Ey, (read_param_complete a) by done. cbn [mbind outcome_bind]. by rewrite decide_False.
  - apply Forall_app in Hok as [Hok1 [Hok2 Hok3]%Forall_cons].
    destruct (t_param_head _ _ Ha) as (x & ts0 & E0 & Hx). rewrite length_app in Hn. cbn [length] in Hn.
    assert (exists y, (ts ++ c :: ts') ++ t :: rest = x :: y) as [y Ey] by (rewrite E0; by eexists).
    rewrite Ey, Hx, <- Ey, <- app_assoc, (read_param_complete a) by done. cbn [mbind outcome_bind app]. rewrite decide_True by done.
    rewrite IH by (done || lia). done.
Qed.

Lemma read_params_sound n : forall ts l rest, Forall tok_ok ts -> read_function_param_list n ts = Ret (l, rest) ->
  exists pre, ts = pre ++ rest /\ t_params l pre.
Proof.
  induction n as [|n IH]; intros ts l rest Hok E; [done|]. cbn [read_function_param_list] in E. destruct ts as [|t ts]; [done|].
  destruct (is_type t) eqn:Ht.
  2: { injection E as <- <-. exists []. split; [done|constructor]. }
  destruct (read_function_param (t :: ts)) as [[a ts1]|] eqn:E1; [|done]. cbn [mbind outcome_bind] in E.
  destruct (read_param_sound _ _ _ Hok E1) as (pre & Epre & Ha). rewrite Epre in *. clear Epre.
  destruct ts1 as [|c ts2]; [done|]. case_decide as Hc.
  - destruct (read_function_param_list n ts2) as [[l' ts3]|] eqn:E2; [|done]. injection E as <- <-.
    apply Forall_app in Hok as [_ [_ Hok]%Forall_cons]. destruct (IH _ _ _ Hok E2) as (pre2 & -> & Hl).
    exists (pre ++ c :: pre2). split; [by rewrite <- app_assoc|]. by constructor.
  - injection E as <- <-. exists pre. split; [done|]. by constructor.
Qed.

Lemma read_function_complete f ts rest n : Forall tok_ok ts -> t_function f ts -> (length ts < n)%nat ->
  read_function n (ts ++ rest) = Ret (f, rest).
Proof.
  intros Hok Hg Hn. destruct Hg as [ty ts x lb l ps rb sc Hty Hx Hlb Hps Hrb Hsc]. unfold read_function.
  rewrite length_app in Hn. cbn [length] in Hn. rewrite length_app in Hn. cbn [length] in Hn.
  apply Forall_app in Hok as [Hok1 Hok2]. apply Forall_cons in Hok2 as [_ [_ Hok2]%Forall_cons]. apply Forall_app in Hok2 as [Hok2 _].
  rewrite <- app_assoc. cbn [app]. rewrite (read_type_complete ty) by (done || by apply ident_no_type). cbn [mbind outcome_bind].
  rewrite expect_eq, decide_True by done. cbn [mbind outcome_bind]. rewrite expect_eq, decide_True by done. cbn [mbind outcome_bind].
  rewrite <- app_assoc. cbn [app].
  rewrite (read_params_complete l) by (done || lia || (split; [apply is_type_false; rewrite Hrb|rewrite Hrb]; done)).
  cbn [mbind outcome_bind]. rewrite expect_eq, decide_True by done. cbn [mbind outcome_bind]. by rewrite expect_eq, decide_True by done.
Qed.

Lemma read_function_sound n ts f rest : Forall tok_ok ts -> read_function n ts = Ret (f, rest) ->
  exists pre, ts = pre ++ rest /\ t_function f pre.
Proof.
  intros Hok E. unfold read_function in E. destruct (read_type ts) as [[ty ts1]|] eqn:E1; [|done]. cbn [mbind outcome_bind] in E.
  destruct (read_type_sound _ _ _ Hok E1) as (pre & t & rest' & -> & _ & _ & Hty). apply Forall_app in Hok as [_ Hok].
  destruct (expect IdentifierToken ts1) as [[x ts2]|] eqn:E2; [|done]. cbn [mbind outcome_bind] in E. apply expect_sound in E2 as [-> Hx].
  destruct (expect LBraceToken ts2) as [[lb ts3]|] eqn:E3; [|done]. cbn [mbind outcome_bind] in E. apply expect_sound in E3 as [-> Hlb].
  destruct (read_function_param_list n ts3) as [[l ts4]|] eqn:E4; [|done]. cbn [mbind outcome_bind] in E.
  apply Forall_cons in Hok as [_ [_ Hok]%Forall_cons]. destruct (read_params_sound _ _ _ _ Hok E4) as (ps & -> & Hps).
  destruct (expect RBraceToken ts4) as [[rb ts5]|] eqn:E5; [|done]. cbn [mbind outcome_bind] in E. apply expect_sound in E5 as [-> Hrb].
  destruct (expect SemicolonToken ts5) as [[sc ts6]|] eqn:E6; [|done]. injection E as <- <-. apply expect_sound in E6 as [-> Hsc].
  exists (pre ++ x :: lb :: ps ++ [rb; sc]). split; [|by constructor]. rewrite <- app_assoc. cbn [app]. by rewrite <- app_assoc.
Qed.

Lemma t_function_nonempty f ts : t_function f ts -> (0 < length ts)%nat.
Proof. intros Hg. destruct Hg. rewrite length_app. cbn [length]. lia. Qed.

Lemma read_statements_iff k : forall n ts fns, Forall tok_ok ts -> (length ts < k)%nat -> (length ts < n)%nat ->
  read_statements k n ts = Ret fns <-> t_file fns ts.
Proof.
  induction k as [|k IH]; intros n ts fns Hok Hk Hn; [lia|]. cbn [read_statements]. split.
  - intros E. destruct ts as [|t ts]; [injection E as <-; constructor|].
    destruct (read_function n (t :: ts)) as [[f ts1]|] eqn:E1; [|done]. cbn [mbind outcome_bind] in E.
    destruct (read_statements k n ts1) as [fns1|] eqn:E2; [|done]. injection E as <-.
    destruct (read_function_sound _ _ _ _ Hok E1) as (pre & Epre & Hf). rewrite Epre in *. clear Epre.
    pose proof (t_function_nonempty _ _ Hf). rewrite length_app in Hk, Hn. apply Forall_app in Hok as [_ Hok].
    apply (IH n) in E2; [by constructor|done|lia|lia].
  - intros Hg. destruct Hg as [|f ts l ts' Hf Hl]; [done|]. pose proof (t_function_nonempty _ _ Hf) as Hne.
    rewrite length_app in Hk, Hn. apply Forall_app in Hok as [Hok1 Hok2]. rewrite (read_function_complete f) by (done || lia).
    destruct (ts ++ ts') as [|t rest] eqn:Et; [destruct ts; [cbn in Hne; lia|done]|]. cbn [mbind outcome_bind].
    rewrite (proj2 (IH n ts' l Hok2 ltac:(lia) ltac:(lia)) Hl). done.
Qed.

(** A printed type is read back. *)
Lemma stringify_read t : type t <> NullType ->
  (ts ← read_tokens 64 64 (stringify_type t +:+ " x"); read_type ts) = Ret (t, [classify "x"%string]).
Proof. destruct t as [[] []]; done. Qed.

(** ** Termination *)
Lemma next_char_length s : (String.length (next_char s).2 <= String.length s)%nat /\
  (peek_char s <> 0 -> (String.length (next_char s).2 < String.length s)%nat).
Proof.
  destruct s as [|c s]; [done|]. cbn [next_char peek_char]. destruct (nz (code c)) eqn:E; cbn [snd String.length]; [lia|].
  split; [lia|]. intros Hc. by rewrite nz_true in E.
Qed.

Lemma skip_comment_length s : (String.length (skip_comment s).2 <= String.length s)%nat.
Proof.
  induction s as [|c s IH]; [done|]. cbn [skip_comment]. destruct (nz (code c)); [|done]. destruct (_ && _); cbn [snd String.length] in *; lia.
Qed.

Lemma skip_whitespace_total n : forall s, (String.length s < n)%nat ->
  exists s', skip_whitespace n s = Ret s' /\ (String.length s' <= String.length s)%nat.
Proof.
  induction n as [|n IH]; intros s Hn; [lia|]. cbn [skip_whitespace]. cbv zeta. destruct (next_char_length s) as [_ Hnc].
  destruct (peek_char s =? 47) eqn:E1; breflect.
  - destruct (peek_char _ =? 42); [|by exists s]. pose proof (skip_comment_length (next_char s).2) as Hc.
    destruct (skip_comment (next_char s).2) as [ch s2]. cbn [snd] in Hc. specialize (Hnc ltac:(lia)).
    set (s3 := if ch =? 42 then (next_char s2).2 else s2).
    assert (String.length s3 <= String.length s2)%nat by (unfold s3; destruct (ch =? 42); [apply next_char_length|done]).
    pose proof (proj1 (next_char_length s3)). destruct (IH (next_char s3).2) as (s' & -> & Hs'); [lia|]. exists s'. split; [done|lia].
  - destruct (32 <? peek_char s); [by exists s|]. destruct (peek_char s =? 0) eqn:E2; breflect; [by exists s|].
    specialize (Hnc E2). destruct (IH (next_char s).2) as (s' & -> & Hs'); [lia|]. exists s'. split; [done|lia].
Qed.

Lemma word_rest_length s : forall size, (String.length (word_rest size s).2 <= String.length s)%nat.
Proof.
  induction s as [|c s IH]; intros [|[|size]]; try done. cbn [word_rest]. destruct (_ && _); [|done].
  specialize (IH (S size)). destruct (word_rest (S size) s) as [w r]. cbn [snd String.length] in *. lia.
Qed.

Lemma next_token_total n s : (String.length s < n)%nat -> exists o s', next_token n s = Ret (o, s') /\
  match o with Some t => tok_ok t /\ (String.length s' < String.length s)%nat | None => True end.
Proof.
  intros Hn. unfold next_token, next_word. destruct (skip_whitespace_total n s Hn) as (s1 & -> & Hs1). cbn [mbind outcome_bind].
  destruct s1 as [|c s1]; [by eexists _, _|]. cbn [String.length] in Hs1. destruct (is_punct (code c)).
  - eexists _, _. split; [done|]. split; [apply classify_ok|lia].
  - destruct (code c =? 0); [by eexists _, _|]. pose proof (word_rest_length s1 (text_size - 1)). destruct (word_rest _ s1) as [w r].
    eexists _, _. split; [done|]. split; [apply classify_ok|]. cbn [snd] in *. lia.
Qed.

Lemma read_tokens_total k : forall n s, (String.length s < k)%nat -> (String.length s < n)%nat ->
  exists ts, read_tokens k n s = Ret ts /\ Forall tok_ok ts.
Proof.
  induction k as [|k IH]; intros n s Hk Hn; [lia|]. cbn [read_tokens].
  destruct (next_token_total n s Hn) as ([t|] & s' & -> & Ho); cbn [mbind outcome_bind]; [|by exists []].
  destruct Ho as [Ht Hl]. destruct (IH n s') as (ts & -> & Hts); [lia|lia|]. exists (t :: ts). split; [done|]. by constructor.
Qed.

Lemma type_loop_fuel ts : forall r, read_type_loop ts r <> Fault FFuel.
Proof.
  induction ts as [|t ts IH]; intros r; [done|]. cbn [read_type_loop]. destruct (decide (tok_type t = TypenameToken)).
  - destruct (bool_decide _); [apply IH|done].
  - destruct (decide (tok_type t = ModifierToken)); [|done]. destruct (bool_decide _); [apply IH|done].
Qed.

Lemma expect_fuel ty ts : expect ty ts <> Fault FFuel.
Proof. destruct ts as [|t ts]; [done|]. rewrite expect_eq. by case_decide. Qed.

Lemma read_type_fuel ts : read_type ts <> Fault FFuel.
Proof.
  unfold read_type. pose proof (type_loop_fuel ts (mkType NullType NullModifier)) as Hf.
  destruct (read_type_loop ts _) as [[r ts1]|e]; cbn [mbind outcome_bind]; [|by intros [= ->]]. by destruct (bool_decide _).
Qed.

Lemma read_params_fuel n : forall ts, Forall tok_ok ts -> (length ts < n)%nat -> read_function_param_list n ts <> Fault FFuel.
Proof.
  induction n as [|n IH]; intros ts Hok Hn; [lia|]. cbn [read_function_param_list]. destruct ts as [|t ts]; [done|].
  destruct (is_type t); [|done].
  destruct (read_function_param (t :: ts)) as [[a ts1]|e] eqn:E; cbn [mbind outcome_bind].
  - destruct (read_param_sound _ _ _ Hok E) as (pre & Epre & Ha). rewrite Epre in *. clear Epre E.
    destruct ts1 as [|c ts2]; [done|]. case_decide; [|done]. rewrite length_app in Hn. cbn [length] in Hn.
    apply Forall_app in Hok as [_ [_ Hok]%Forall_cons]. specialize (IH ts2 Hok ltac:(lia)).
    destruct (read_function_param_list n ts2) as [[l ts3]|e]; [done|]. by intros [= ->].
  - intros [= ->]. unfold read_function_param in E. pose proof (read_type_fuel (t :: ts)) as Hf.
    destruct (read_type (t :: ts)) as [[ty ts1]|e]; cbn [mbind outcome_bind] in E; [|by injection E as ->].
    pose proof (expect_fuel IdentifierToken ts1) as He. destruct (expect IdentifierToken ts1) as [[x ts2]|e]; [done|by injection E as ->].
Qed.

Lemma read_function_fuel n ts : Forall tok_ok ts -> (length ts < n)%nat -> read_function n ts <> Fault FFuel.
Proof.
  intros Hok Hn E. unfold read_function in E. pose proof (read_type_fuel ts) as Hf.
  destruct (read_type ts) as [[ty ts1]|e] eqn:E1; cbn [mbind outcome_bind] in E; [|by injection E as ->].
  destruct (read_type_sound _ _ _ Hok E1) as (pre & t & rest' & -> & _ & _ & _). apply Forall_app in Hok as [_ Hok]. rewrite length_app in Hn.
  pose proof (expect_fuel IdentifierToken ts1) as He1. destruct (expect IdentifierToken ts1) as [[x ts2]|e] eqn:E2; cbn [mbind outcome_bind] in E; [|by injection E as ->].
  apply expect_sound in E2 as [-> _]. apply Forall_cons in Hok as [_ Hok]. cbn [length] in Hn.
  pose proof (expect_fuel LBraceToken ts2) as He2. destruct (expect LBraceToken ts2) as [[lb ts3]|e] eqn:E3; cbn [mbind outcome_bind] in E; [|by injection E as ->].
  apply expect_sound in E3 as [-> _]. apply Forall_cons in Hok as [_ Hok]. cbn [length] in Hn.
  pose proof (read_params_fuel n ts3 Hok ltac:(lia)) as Hp. destruct (read_function_param_list n ts3) as [[l ts4]|e]; cbn [mbind outcome_bind] in E; [|by injection E as ->].
  pose proof (expect_fuel RBraceToken ts4) as He3. destruct (expect RBraceToken ts4) as [[rb ts5]|e]; cbn [mbind outcome_bind] in E; [|by injection E as ->].
  pose proof (expect_fuel SemicolonToken ts5) as He4. destruct (expect SemicolonToken ts5) as [[sc ts6]|e]; [done|by injection E as ->].
Qed.

Lemma read_statements_fuel k : forall n ts, Forall tok_ok ts -> (length ts < k)%nat -> (length ts < n)%nat -> read_statements k n ts <> Fault FFuel.
Proof.
  induction k as [|k IH]; intros n ts Hok Hk Hn; [lia|]. cbn [read_statements]. destruct ts as [|t ts]; [done|].
  pose proof (read_function_fuel n (t :: ts) Hok Hn) as Hf.
  destruct (read_function n (t :: ts)) as [[f ts1]|e] eqn:E; cbn [mbind outcome_bind]; [|by intros [= ->]].
  destruct (read_function_sound _ _ _ _ Hok E) as (pre & Epre & Hg). rewrite Epre in *. clear Epre. pose proof (t_function_nonempty _ _ Hg).
  rewrite length_app in Hk, Hn. apply Forall_app in Hok as [_ Hok]. specialize (IH n ts1 Hok ltac:(lia) ltac:(lia)).
  destruct (read_statements k n ts1); [done|]. by intros [= ->].
Qed.

Lemma front_end_fuel s : front_end s <> Fault FFuel.
Proof.
  unfold front_end. destruct (read_tokens_total (S (String.length s)) (S (String.length s)) s) as (ts & -> & Hok); [lia|lia|].
  cbn [mbind outcome_bind]. apply read_statements_fuel; (done || lia).
Qed.

(** ** The grammar on words *)

(** The rules of Grammar.txt, for a table of type names and a class of identifiers. *)
Definition modifiers : list (string * Modifier) := [("oneway", OneWayModifier); ("out", OutModifier)]%string.

Section grammar.
Variable typenames : list (string * TypeName).
Variable identifier : string -> Prop.

Inductive g_type : RPCType -> list string -> Prop :=
| g_plain t ty : (t, ty) ∈ typenames -> g_type (mkType ty NullModifier) [t]
| g_suffix t ty m md : (t, ty) ∈ typenames -> (m, md) ∈ modifiers -> g_type (mkType ty md) [t; m]
| g_prefix t ty m md : (t, ty) ∈ typenames -> (m, md) ∈ modifiers -> g_type (mkType ty md) [m; t].

Inductive g_params : list RPCArgument -> list string -> Prop :=
| g_none : g_params [] []
| g_last ty ws x : g_type ty ws -> identifier x -> g_params [mkArg x ty] (ws ++ [x])
| g_more ty ws x l ws' : g_type ty ws -> identifier x -> g_params l ws' ->
    g_params (mkArg x ty :: l) ((ws ++ [x]) ++ ","%string :: ws').

Inductive g_function : RPCFunction -> list string -> Prop :=
| g_fn ty ws x l ps : g_type ty ws -> identifier x -> g_params l ps ->
    g_function (mkFn x ty l) (ws ++ x :: "("%string :: ps ++ [")"; ";"]%string).

Inductive g_file : list RPCFunction -> list string -> Prop :=
| g_empty : g_file [] []
| g_statement f ws l ws' : g_function f ws -> g_file l ws' -> g_file (f :: l) (ws ++ ws').
End grammar.

(** The terminals as Grammar.txt has them ([IDENTIFIER] is [[a-zA-Z_][a-zA-Z0-9_]+]; a word of
    the tables is no identifier) and as the generator takes them: [void] is a type name, and any
    letters, digits and underscores are an identifier, one character or a leading digit too. *)
Definition letters : list ascii := list_ascii_of_string "abcdefghijklmnopqrstuvwxyzABCDEFGHIJKLMNOPQRSTUVWXYZ_".
Definition digits : list ascii := list_ascii_of_string "0123456789".
Definition doc_typenames : list (string * TypeName) :=
  [("int", IntType); ("string", StringType); ("long", LongType); ("blob", BlobType)]%string.
Definition typenames : list (string * TypeName) := ("void"%string, VoidType) :: doc_typenames.
Definition keywords : list string := typenames.*1 ++ modifiers.*1.

Definition identifier (w : string) : Prop :=
  w <> EmptyString /\ Forall (fun c => c ∈ letters ++ digits) (list_ascii_of_string w) /\ w ∉ keywords.
Definition doc_identifier (w : string) : Prop :=
  exists c w', w = String c w' /\ w' <> EmptyString /\ c ∈ letters /\ identifier w.

(** What the generator takes for a file, and what Grammar.txt describes. *)
Definition accepted : list RPCFunction -> list string -> Prop := g_file typenames identifier.
Definition documented : list RPCFunction -> list string -> Prop := g_file doc_typenames doc_identifier.

Lemma word_char_chars c : word_char (code c) = true <-> c ∈ letters ++ digits.
Proof.
  rewrite <- (bool_decide_eq_true (c ∈ letters ++ digits)).
  enough (word_char (code c) = bool_decide (c ∈ letters ++ digits)) as -> by done.
  destruct c as [[] [] [] [] [] [] [] []]; vm_compute; reflexivity.
Qed.

Lemma all_word_chars w : all_word w = true <-> Forall (fun c => c ∈ letters ++ digits) (list_ascii_of_string w).
Proof.
  induction w as [|c w IH]; [split; [constructor|done]|]. cbn [all_word list_ascii_of_string].
  by rewrite andb_true_iff, Forall_cons, IH, word_char_chars.
Qed.

(** ** The words of the tokens *)
Lemma text_classify w : text (classify w) = w.
Proof. unfold classify. by repeat case_decide. Qed.

Lemma classify_typename w ty : (w, ty) ∈ typenames <-> tok_type (classify w) = TypenameToken /\ tok_type_name (classify w) = ty.
Proof.
  split.
  - unfold typenames, doc_typenames. rewrite !elem_of_cons, elem_of_nil. intros Hw.
    repeat (destruct Hw as [[= -> ->]|Hw]; [done|]). done.
  - unfold classify. repeat case_decide; subst; cbn [tok_type tok_type_name]; intros [E <-]; try discriminate E;
      unfold typenames, doc_typenames; rewrite !elem_of_cons; tauto.
Qed.

Lemma classify_modifier w md : (w, md) ∈ modifiers <-> tok_type (classify w) = ModifierToken /\ tok_modifier (classify w) = md.
Proof.
  split.
  - unfold modifiers. rewrite !elem_of_cons, elem_of_nil. intros Hw. repeat (destruct Hw as [[= -> ->]|Hw]; [done|]). done.
  - unfold classify. repeat case_decide; subst; cbn [tok_type tok_modifier]; intros [E <-]; try discriminate E;
      unfold modifiers; rewrite !elem_of_cons; tauto.
Qed.

Lemma classify_mark w : (tok_type (classify w) = LBraceToken <-> w = "("%string) /\ (tok_type (classify w) = RBraceToken <-> w = ")"%string) /\
  (tok_type (classify w) = SemicolonToken <-> w = ";"%string) /\ (tok_type (classify w) = ColonToken <-> w = ","%string).
Proof. unfold classify. repeat case_decide; subst; cbn [tok_type]; repeat split; congruence. Qed.

Lemma classify_identifier w : word_ok w = true -> tok_type (classify w) = IdentifierToken <-> identifier w.
Proof.
  intros Hw. unfold identifier. rewrite <- all_word_chars. split.
  - intros E. assert (w <> EmptyString) as Hne by (by destruct w). split; [done|]. split.
    + destruct w as [|c w]; [done|]. cbn [word_ok] in Hw. apply orb_true_iff in Hw as [Hp|Hw]; [|by apply andb_true_iff in Hw as [? _]].
      apply andb_true_iff in Hp as [Hp He]. apply String.eqb_eq in He. subst w. exfalso. revert Hp E.
      by destruct c as [[] [] [] [] [] [] [] []].
    + intros Hk. revert E. unfold keywords, typenames, doc_typenames, modifiers in Hk. cbn in Hk. rewrite !elem_of_cons, elem_of_nil in Hk.
      repeat (destruct Hk as [->|Hk]; [done|]). done.
  - intros (_ & Ha & Hk). unfold keywords, typenames, doc_typenames, modifiers in Hk. cbn in Hk. rewrite !elem_of_cons in Hk.
    unfold classify. repeat case_decide; subst; cbn [tok_type]; try done; exfalso; (discriminate Ha || tauto).
Qed.

Definition words_ok (ws : list string) : Prop := Forall (fun w => word_ok w = true) ws.

Lemma type_words r ws : t_type r (classify <$> ws) <-> g_type typenames r ws.
Proof.
  split.
  - intros Ht. inversion Ht as [t Hn E|t m Hn Hm E|m t Hn Hm E]; subst; symmetry in H.
    + destruct ws as [|w [|]]; [done| |done]. injection H as <-. apply g_plain. by apply classify_typename.
    + destruct ws as [|w [|w' [|]]]; [done|done| |done]. injection H as <- <-. apply g_suffix; [by apply classify_typename|by apply classify_modifier].
    + destruct ws as [|w [|w' [|]]]; [done|done| |done]. injection H as <- <-. apply g_prefix; [by apply classify_typename|by apply classify_modifier].
  - intros Hg. destruct Hg as [t ty Ht|t ty m md Ht Hm|t ty m md Ht Hm]; cbn [fmap list_fmap];
      apply classify_typename in Ht as [Ht <-]; try (apply classify_modifier in Hm as [Hm <-]); by constructor.
Qed.

Lemma words_snoc ts y ws : classify <$> ws = ts ++ [y] -> exists ws' x, ws = ws' ++ [x] /\ ts = classify <$> ws' /\ y = classify x.
Proof.
  intros E. apply fmap_app_inv in E as (ws1 & ws2 & -> & E & ->). destruct ws2 as [|x [|]]; [done| |done].
  injection E as ->. by exists ws1, x.
Qed.

Lemma param_words a ws : words_ok ws -> t_param a (classify <$> ws) ->
  exists ws' x ty, a = mkArg x ty /\ ws = ws' ++ [x] /\ g_type typenames ty ws' /\ identifier x.
Proof.
  intros Hok Hp. inversion Hp as [ty ts y Hty Hy Ea E]. symmetry in E. apply words_snoc in E as (ws' & x & -> & -> & ->).
  rewrite text_classify. exists ws', x, ty. split; [done|]. split; [done|]. split; [by apply type_words|].
  apply classify_identifier; [|done]. by apply Forall_app in Hok as [_ [Hok _]%Forall_cons].
Qed.

Lemma params_words l ts : t_params l ts -> forall ws, ts = classify <$> ws -> words_ok ws -> g_params typenames identifier l ws.
Proof.
  induction 1 as [|a ts Ha|a ts c l ts' Ha Hc Hl IH]; intros ws E Hok.
  - destruct ws; [constructor|done].
  - subst ts. destruct (param_words a ws Hok Ha) as (ws' & x & ty & -> & -> & Hty & Hx). by constructor.
  - symmetry in E. apply fmap_app_inv in E as (ws1 & ws2 & -> & E & ->). apply Forall_app in Hok as [Hok1 Hok2].
    destruct ws2 as [|w ws2]; [done|]. injection E as -> ->. apply Forall_cons in Hok2 as [_ Hok2].
    destruct (param_words a ws1 Hok1 Ha) as (ws' & x & ty & -> & -> & Hty & Hx).
    assert (w = ","%string) as -> by (by apply classify_mark). apply g_more; [done|done|by apply IH].
Qed.

Lemma function_words f ws : words_ok ws -> t_function f (classify <$> ws) -> g_function typenames identifier f ws.
Proof.
  intros Hok Hf. inversion Hf as [ty ts x lb l ps rb sc Hty Hx Hlb Hps Hrb Hsc Ef E]. symmetry in E.
  apply fmap_app_inv in E as (ws1 & ws2 & -> & E & ->). apply Forall_app in Hok as [_ Hok].
  destruct ws2 as [|w [|wl ws2]]; [done|done|]. injection E as -> -> E. apply Forall_cons in Hok as [Hw [_ Hok]%Forall_cons].
  symmetry in E. apply fmap_app_inv in E as (ws3 & ws4 & -> & E & ->). apply Forall_app in Hok as [Hok _].
  destruct ws4 as [|wr [|ws5 [|]]]; [done|done| |done]. injection E as -> ->. rewrite text_classify.
  assert (wl = "("%string) as -> by (by apply classify_mark). assert (wr = ")"%string) as -> by (by apply classify_mark).
  assert (ws5 = ";"%string) as -> by (by apply classify_mark).
  apply g_fn; [by apply type_words|by apply classify_identifier|]. by eapply params_words.
Qed.

Lemma file_words fns ts : t_file fns ts -> forall ws, ts = classify <$> ws -> words_ok ws -> accepted fns ws.
Proof.
  induction 1 as [|f ts l ts' Hf Hl IH]; intros ws E Hok; [destruct ws; [constructor|done]|].
  symmetry in E. apply fmap_app_inv in E as (ws1 & ws2 & -> & -> & ->). apply Forall_app in Hok as [Hok1 Hok2].
  apply g_statement; [by apply function_words|by apply IH].
Qed.

Lemma identifier_token x : identifier x -> tok_type (classify x) = IdentifierToken.
Proof.
  intros (_ & Ha & Hk). apply all_word_chars in Ha. unfold keywords, typenames, doc_typenames, modifiers in Hk. cbn in Hk.
  rewrite !elem_of_cons in Hk. unfold classify. repeat case_decide; subst; cbn [tok_type]; try done; exfalso; (discriminate Ha || tauto).
Qed.

Lemma param_tokens ty ws x : g_type typenames ty ws -> identifier x -> t_param (mkArg x ty) (classify <$> ws ++ [x]).
Proof.
  intros Ht Hx. rewrite fmap_app. rewrite <- (text_classify x) at 1. apply (t_arg ty (classify <$> ws) (classify x)); [by apply type_words|].
  by apply identifier_token.
Qed.

Lemma params_tokens l ws : g_params typenames identifier l ws -> t_params l (classify <$> ws).
Proof.
  induction 1 as [|ty ws x Ht Hx|ty ws x l ws' Ht Hx Hl IH]; [constructor|apply t_last; by apply param_tokens|].
  rewrite fmap_app. apply (t_more _ _ (classify ","%string)); [by apply param_tokens|done|done].
Qed.

Lemma file_tokens fns ws : accepted fns ws -> t_file fns (classify <$> ws).
Proof.
  induction 1 as [|f ws l ws' Hf Hl IH]; [constructor|]. rewrite fmap_app. apply t_statement; [|done].
  destruct Hf as [ty ws x l0 ps Ht Hx Hps]. rewrite fmap_app. cbn [fmap list_fmap]. rewrite fmap_app. rewrite <- (text_classify x) at 1.
  apply (t_fn ty (classify <$> ws) (classify x) (classify "("%string) l0 (classify <$> ps) (classify ")"%string) (classify ";"%string));
    [by apply type_words|by apply identifier_token|done|by apply params_tokens|done|done].
Qed.

(** The documented files are among the accepted ones. *)
Lemma doc_type_accepted ty ws : g_type doc_typenames ty ws -> g_type typenames ty ws.
Proof. intros Ht. destruct Ht; constructor; try done; by right. Qed.
Lemma doc_identifier_accepted x : doc_identifier x -> identifier x.
Proof. by intros (c & w & _ & _ & _ & Hx). Qed.
Lemma doc_params_accepted l ws : g_params doc_typenames doc_identifier l ws -> g_params typenames identifier l ws.
Proof. induction 1; constructor; auto using doc_type_accepted, doc_identifier_accepted. Qed.
Lemma doc_accepted fns ws : documented fns ws -> accepted fns ws.
Proof.
  induction 1 as [|f ws l ws' Hf Hl IH]; [constructor|]. apply g_statement; [|done].
  destruct Hf. constructor; auto using doc_type_accepted, doc_identifier_accepted, doc_params_accepted.
Qed.

Lemma layout_words ws s : layout ws s -> words_ok ws.
Proof. induction 1; [constructor|by constructor]. Qed.

Lemma front_end_layout ws s fns : layout ws s -> front_end s = Ret fns <-> accepted fns ws.
Proof.
  intros Hl. unfold front_end. pose proof (layout_length ws s Hl).
  rewrite (read_tokens_layout ws s Hl) by lia. cbn [mbind outcome_bind]. rewrite length_fmap.
  rewrite read_statements_iff; [|apply Forall_fmap, Forall_forall; intros w _; apply classify_ok|rewrite length_fmap; lia|rewrite length_fmap; lia].
  split; [|apply file_tokens]. intros Hf. eapply file_words; [done|done|by eapply layout_words].
Qed.

(** ** How it stops *)
(** An assertion, or the token behind the last parameter read when there is none. *)
Definition stops {A} (c : outcome A) : Prop := match c with Ret _ => True | Fault e => e = FAssert \/ e = FMem \/ e = FFuel end.
Lemma stops_bind {A B} (c : outcome A) (k : A -> outcome B) : stops c -> (forall a, stops (k a)) -> stops (a ← c; k a).
Proof. intros Hc Hk. destruct c; [apply Hk|done]. Qed.
Lemma expect_stops ty ts : stops (expect ty ts).
Proof. destruct ts as [|t ts]; [by left|]. rewrite expect_eq. case_decide; [done|by left]. Qed.
Lemma read_type_stops ts : stops (read_type ts).
Proof.
  apply stops_bind; [|intros [r ts']; apply stops_bind; [destruct (negb _); [done|by left]|done]].
  generalize (mkType NullType NullModifier). induction ts as [|t ts IH]; intros r; [by left|]. cbn [read_type_loop].
  repeat case_decide; [apply stops_bind; [destruct (bool_decide _); [done|by left]|intros; apply IH]..|done].
Qed.
Lemma read_params_stops n : forall ts, stops (read_function_param_list n ts).
Proof.
  induction n as [|n IH]; intros ts; [by right; right|]. cbn [read_function_param_list]. destruct ts as [|t ts]; [by left|].
  destruct (is_type t); [|done]. apply stops_bind.
  - apply stops_bind; [apply read_type_stops|intros [ty ts']; apply stops_bind; [apply expect_stops|by intros []]].
  - intros [a [|c ts']]; [by right; left|]. case_decide; [|done]. apply stops_bind; [apply IH|by intros []].
Qed.
Lemma read_statements_stops k n : forall ts, stops (read_statements k n ts).
Proof.
  induction k as [|k IH]; intros ts; [by right; right|]. cbn [read_statements]. destruct ts as [|t ts]; [done|].
  apply stops_bind; [|intros [f ts']; apply stops_bind; [apply IH|done]].
  unfold read_function. repeat (apply stops_bind; [apply expect_stops || apply read_type_stops || apply read_params_stops|intros []]). done.
Qed.

Lemma front_end_stops s e : front_end s = Fault e -> e = FAssert \/ e = FMem.
Proof.
  intros E. pose proof (front_end_fuel s) as Hf. assert (stops (front_end s)) as Hs; [|rewrite E in Hs, Hf; destruct Hs as [?|[?| ->]]; [auto..|by destruct Hf]].
  unfold front_end. destruct (read_tokens_total (S (String.length s)) (S (String.length s)) s) as (ts & -> & _); [lia|lia|].
  apply read_statements_stops.
Qed.

(** A type name comes first in every documented function, alone or behind a modifier. *)
Lemma void_undocumented ws fns : ~ documented fns ("void"%string :: ws).
Proof.
  intros Hd. inversion Hd as [|f ws1 l ws2 Hf Hl E1 E2]. subst. destruct Hf as [ty ws3 x l0 ps Ht _ _].
  rewrite <- app_assoc in E2. destruct Ht as [t ty Ht|t ty m md Ht Hm|t ty m md Ht Hm]; injection E2 as -> _.
  1-2: unfold doc_typenames in Ht; rewrite !elem_of_cons, elem_of_nil in Ht; by repeat (destruct Ht as [[=]|Ht]).
  unfold modifiers in Hm. rewrite !elem_of_cons, elem_of_nil in Hm. by repeat (destruct Hm as [[=]|Hm]).
Qed.

(** C23: The front end of the interface generator. It ends on every text: it returns functions,
    stops at one of its assertions, or reads the token behind a parameter that is the end of the
    text through a null pointer, as in [int f(int x]. A text laid out as words, separated where
    needed by white space and by comments that white space follows, is accepted exactly when its
    words form a file of the rules of Grammar.txt with the terminals the generator takes
    ([accepted]), and then the functions are those the rules assign. Everything Grammar.txt
    describes with words of at most 63 characters is accepted, and more is: [void] is a type
    name, and an identifier may be one character or begin with a digit. The character behind a
    comment is dropped, whatever it is. *)
Theorem rpc_front_end_spec (s : string) :
  (forall e, front_end s = Fault e -> e = FAssert \/ e = FMem) /\
  (forall ws fns, layout ws s -> front_end s = Ret fns <-> accepted fns ws) /\
  (forall ws fns, layout ws s -> documented fns ws -> front_end s = Ret fns) /\
  front_end "void f(int 9);" = Ret [mkFn "f" (mkType VoidType NullModifier) [mkArg "9" (mkType IntType NullModifier)]] /\
  (forall fns, ~ documented fns ["void"; "f"; "("; "int"; "9"; ")"; ";"]%string) /\
  front_end "int f(int x" = Fault FMem /\
  (forall n body c, no_close (String "*" body) = true -> code c <> 0 ->
     skip_whitespace (S n) (String "/" (String "*" body) +:+ String "*" (String "/" (String c s))) = skip_whitespace n s).
Proof.
  split; [apply front_end_stops|]. split; [intros ws fns; apply front_end_layout|]. split.
  { intros ws fns Hl Hd. apply (front_end_layout ws); [done|]. by apply doc_accepted. }
  split; [reflexivity|]. split; [intros fns; apply void_undocumented|]. split; [reflexivity|].
  intros n body c Hb Hc. by apply skip_comment_swallows.
Qed.

(** One space behind every word is a layout. *)
Definition spaced (ws : list string) : string := foldr (fun w s => w +:+ String " " s) EmptyString ws.

Lemma layout_spaced ws : Forall (fun w => word_ok w = true) ws -> layout ws (spaced ws).
Proof.
  induction 1 as [|w ws Hw Hws IH]; [repeat constructor|]. change (spaced (w :: ws)) with (EmptyString +:+ (w +:+ String " " (spaced ws))).
  apply layout_cons; [constructor| |done|done].
  destruct IH as [b Hb|b w' ws s Hb Hl Hw' Hs].
  - apply layout_nil. by constructor.
  - change (String " " (b +:+ ?t)) with ((String " " b) +:+ t). apply layout_cons; [|done|done|done]. by constructor.
Qed.

Definition sample_words : list string :=
  ["int"; "vfs_read"; "("; "out"; "blob"; "buffer"; ","; "int"; "fd"; ")"; ";"]%string.

Lemma sample_accepted : accepted
  [mkFn "vfs_read" (mkType IntType NullModifier)
     [mkArg "buffer" (mkType BlobType OutModifier); mkArg "fd" (mkType IntType NullModifier)]] sample_words.
Proof.
  assert (forall x, bool_decide (x <> EmptyString) && forallb (fun c => bool_decide (c ∈ letters ++ digits)) (list_ascii_of_string x) &&
    bool_decide (x ∉ keywords) = true -> identifier x) as Hid.
  { intros x [[H1 H2]%andb_true_iff H3]%andb_true_iff. apply bool_decide_eq_true in H1, H3. split; [done|]. split; [|done].
    apply Forall_forall. intros c Hc. rewrite forallb_forall in H2. eapply bool_decide_eq_true_1, H2. by apply list_elem_of_In. }
  apply (g_statement _ _ _ sample_words [] []); [|constructor].
  apply (g_fn _ _ (mkType IntType NullModifier) ["int"]%string "vfs_read" _ ["out"; "blob"; "buffer"; ","; "int"; "fd"]%string).
  - apply g_plain. unfold typenames, doc_typenames. rewrite !elem_of_cons. tauto.
  - apply Hid. vm_compute. reflexivity.
  - apply (g_more _ _ (mkType BlobType OutModifier) ["out"; "blob"]%string "buffer" _ ["int"; "fd"]%string).
    + apply g_prefix; [unfold typenames, doc_typenames|unfold modifiers]; rewrite !elem_of_cons; tauto.
    + apply Hid. vm_compute. reflexivity.
    + apply (g_last _ _ _ ["int"]%string); [|apply Hid; vm_compute; reflexivity].
      apply g_plain. unfold typenames, doc_typenames. rewrite !elem_of_cons. tauto.
Qed.

Lemma rpc_front_end_spec_witness : front_end (spaced sample_words) =
  Ret [mkFn "vfs_read" (mkType IntType NullModifier)
         [mkArg "buffer" (mkType BlobType OutModifier); mkArg "fd" (mkType IntType NullModifier)]].
Proof.
  destruct (rpc_front_end_spec (spaced sample_words)) as (_ & H & _). apply (H sample_words).
  - apply layout_spaced. repeat constructor.
  - apply sample_accepted.
Defined.
