(* ===== verification/Cgen.v ===== *)
(** The C programs that [tools/rpcgen] writes. The generator prints statements with [fprintf];
    here it builds them as data, with [lines_text] the characters it prints and [exec] what they
    do when they are compiled for the target (i386: [int], [size_t] and pointers have 4 bytes,
    [long long] has 8). [memcpy] and [strlen] are those of [common/string.c]; a call of another
    function is answered by a parameter. *)
From Stdlib Require Import Ascii String.
From stdpp Require Import pretty.
From S2P Require Import Prelude Mem Str Rpcgen.

(** ** Syntax *)
Inductive cty : Type :=
| CVoid | CChar | CUchar | CInt | CUnsigned | CSize | CLong | CMessage
| CPtr (t : cty) | CConstPtr (t : cty).

Inductive expr : Type :=
| ENum (n : Z)
| EChar (c : ascii)
| EConst (x : string)
| EVar (x : string)
| EAddr (x : string)
| ESizeof (t : cty)
| EAdd (a b : expr)
| ESub (a b : expr)
| EStrlen (x : string)
| EDeref (x : string)
| ELoad (t : cty) (x : string)
| ECast (t : cty) (x : string)
| EField (x f : string).

Inductive cmp : Type := Ge | Eq.

(** Where the result of a call goes. *)
Inductive dest : Type := Drop | Into (x : string) | New (t : cty) (x : string).

Inductive stmt : Type :=
| SComment (c : string)
| SDecl (t : cty) (x : string) (e : expr)
| SDeclare (t : cty) (x : string)
| SAssign (x : string) (e : expr)
| SAdd (x : string) (e : expr)
| SSub (x : string) (e : expr)
| SIncr (x : string)
| SDecr (x : string)
| SAssert (op : cmp) (a b : expr)
| SStore (t : cty) (x : string) (e : expr)
| SStoreVar (x : string) (e : expr)
| SSetField (x f : string) (e : expr)
| SMemcpy (d s n : expr)
| SMalloc (t : cty) (x : string) (e : expr)
| SFree (x : string)
| SReturn (e : expr)
| SCall (d : dest) (f : string) (args : list expr)
| SPanic (msg : string) (args : list expr).

Inductive cond : Type := IsNz (x : string) | NeZero (x : string) | NeMinusOne (x : string).

Inductive line : Type :=
| Blank
| Line (s : stmt)
| Note (s : stmt) (note : string)
| CallLines (d : dest) (f : string) (groups : list (list expr))
| If (c : cond) (body : list line)
| IfBlock (c : cond) (body : list line)
| Switch (e : expr) (cases : list (string * list line)) (default : list line).

(** ** Text *)
Definition nl : string := String (ascii_of_nat 10) EmptyString.
Definition tab : string := String (ascii_of_nat 9) EmptyString.
Definition quote : string := String (ascii_of_nat 34) EmptyString.
Definition cat (l : list string) : string := foldr String.append EmptyString l.
Definition tabs (n : nat) : string := cat (repeat tab n).
(** Texts separated by [sep]. *)
Fixpoint join (sep : string) (l : list string) : string :=
  match l with
  | [] => EmptyString
  | [x] => x
  | x :: l => x +:+ sep +:+ join sep l
  end.

Fixpoint ty_text (t : cty) : string :=
  match t with
  | CVoid => "void" | CChar => "char" | CUchar => "unsigned char" | CInt => "int" | CUnsigned => "unsigned"
  | CSize => "size_t" | CLong => "long long" | CMessage => "struct message"
  | CPtr t => ty_text t +:+ "*"
  | CConstPtr t => "const " +:+ ty_text t +:+ "*"
  end.

Fixpoint expr_text (e : expr) : string :=
  match e with
  | ENum n => pretty n
  | EChar c => "'" +:+ String c "'"
  | EConst x | EVar x => x
  | EAddr x => "&" +:+ x
  | ESizeof t => "sizeof(" +:+ ty_text t +:+ ")"
  | EAdd a b => expr_text a +:+ " + " +:+ expr_text b
  | ESub a b => expr_text a +:+ " - " +:+ expr_text b
  | EStrlen x => "strlen(" +:+ x +:+ ")"
  | EDeref x => "*" +:+ x
  | ELoad t x => "*((const " +:+ ty_text t +:+ "*)" +:+ x +:+ ")"
  | ECast t x => "(" +:+ ty_text t +:+ ")" +:+ x
  | EField x f => x +:+ "->" +:+ f
  end.

Definition cmp_text (op : cmp) : string := match op with Ge => " >= " | Eq => " == " end.
Definition dest_text (d : dest) : string :=
  match d with Drop => "" | Into x => x +:+ " = " | New t x => ty_text t +:+ " " +:+ x +:+ " = " end.
Definition exprs_text (l : list expr) : string := join ", " (expr_text <$> l).

Definition stmt_text (s : stmt) : string :=
  match s with
  | SComment c => "/* " +:+ c +:+ " */"
  | SDecl t x e => ty_text t +:+ " " +:+ x +:+ " = " +:+ expr_text e +:+ ";"
  | SDeclare t x => ty_text t +:+ " " +:+ x +:+ ";"
  | SAssign x e => x +:+ " = " +:+ expr_text e +:+ ";"
  | SAdd x e => x +:+ " += " +:+ expr_text e +:+ ";"
  | SSub x e => x +:+ " -= " +:+ expr_text e +:+ ";"
  | SIncr x => x +:+ "++;"
  | SDecr x => x +:+ "--;"
  | SAssert op a b => "assert(" +:+ expr_text a +:+ cmp_text op +:+ expr_text b +:+ ");"
  | SStore t x e => "*((" +:+ ty_text t +:+ "*)" +:+ x +:+ ") = " +:+ expr_text e +:+ ";"
  | SStoreVar x e => "*" +:+ x +:+ " = " +:+ expr_text e +:+ ";"
  | SSetField x f e => x +:+ "->" +:+ f +:+ " = " +:+ expr_text e +:+ ";"
  | SMemcpy d s n => "memcpy(" +:+ exprs_text [d; s; n] +:+ ");"
  | SMalloc t x e => ty_text t +:+ " " +:+ x +:+ " = malloc(" +:+ expr_text e +:+ ");"
  | SFree x => "free(" +:+ x +:+ ");"
  | SReturn e => "return " +:+ expr_text e +:+ ";"
  | SCall d f args => dest_text d +:+ f +:+ "(" +:+ exprs_text args +:+ ");"
  | SPanic msg args => "panic(" +:+ join ", " ((quote +:+ msg +:+ quote) :: (expr_text <$> args)) +:+ ");"
  end.

Definition cond_text (c : cond) : string :=
  match c with IsNz x => x | NeZero x => x +:+ " != 0" | NeMinusOne x => x +:+ " != -1" end.

(** A line at [n] levels of indentation. *)
Fixpoint line_text (n : nat) (l : line) : string :=
  match l with
  | Blank => nl
  | Line s => tabs n +:+ stmt_text s +:+ nl
  | Note s c => tabs n +:+ stmt_text s +:+ " /* " +:+ c +:+ " */" +:+ nl
  | CallLines d f groups =>
      tabs n +:+ dest_text d +:+ f +:+ "(" +:+ nl +:+
      join ("," +:+ nl) ((fun g => tabs (S n) +:+ exprs_text g) <$> groups) +:+ ");" +:+ nl
  | If c body =>
      tabs n +:+ "if(" +:+ cond_text c +:+ ")" +:+ nl +:+ cat (line_text (S n) <$> body)
  | IfBlock c body =>
      tabs n +:+ "if(" +:+ cond_text c +:+ ") {" +:+ nl +:+ cat (line_text (S n) <$> body) +:+ tabs n +:+ "}" +:+ nl
  | Switch e cases default =>
      tabs n +:+ "switch(" +:+ expr_text e +:+ ") {" +:+ nl +:+
      cat ((fun c => tabs (S n) +:+ "case " +:+ c.1 +:+ ":" +:+ nl +:+
                     cat (line_text (S (S n)) <$> c.2) +:+ tabs (S (S n)) +:+ "break;" +:+ nl) <$> cases) +:+
      tabs (S n) +:+ "default:" +:+ nl +:+ cat (line_text (S (S n)) <$> default) +:+ tabs n +:+ "}" +:+ nl
  end.
Definition lines_text (n : nat) (l : list line) : string := cat (line_text n <$> l).

(** ** Meaning *)
Definition sizeof (t : cty) : Z :=
  match t with
  | CVoid | CChar | CUchar => 1
  | CLong => 8
  | CMessage => 28
  | _ => 4
  end.

(** Conversion of a value to a type. *)
Definition conv (t : cty) (z : Z) : Z :=
  match t with
  | CChar => s8 z
  | CUchar => u8 z
  | CInt => s32 z
  | CLong => s64 z
  | _ => u32 z
  end.

(** The members of [struct message] ([common/port.h]). *)
Definition offset (f : string) : option (cty * Z) :=
  if decide (f = "sender") then Some (CInt, 12)
  else if decide (f = "reply_port") then Some (CInt, 16)
  else if decide (f = "code") then Some (CUnsigned, 20)
  else if decide (f = "len") then Some (CUnsigned, 24)
  else None.

Definition load_ty (t : cty) (m : mem) (a : Z) : Z := conv t (le_decode (load_bytes m a (Z.to_nat (sizeof t)))).
Definition store_ty (t : cty) (m : mem) (a v : Z) : mem := store_bytes m a (le_encode (Z.to_nat (sizeof t)) v).

(** A running function: its variables with their types ([None] before the first assignment), the
    memory, and the answers that calls of [malloc] will get. [W] is what the called functions keep. *)
Record cstate (W : Type) : Type := mkC {
  vars : gmap string (cty * option Z);
  cmem : mem;
  answers : list Z;
  world : W
}.
Arguments mkC {W}. Arguments vars {W}. Arguments cmem {W}. Arguments answers {W}. Arguments world {W}.

(** An argument of a call: a value, or the address of a variable. *)
Inductive carg : Type := AVal (z : Z) | ARef (x : string).

Section meaning.
Context {W : Type}.
Variable fuel : nat.
Variable defines : string -> option Z.
Variable ext : string -> list carg -> cstate W -> outcome (Z * cstate W).

Definition set_var (st : cstate W) (x : string) (t : cty) (z : Z) : cstate W :=
  mkC (<[x := (t, Some (conv t z))]> (vars st)) (cmem st) (answers st) (world st).
Definition set_mem (st : cstate W) (m : mem) : cstate W := mkC (vars st) m (answers st) (world st).
Definition var (st : cstate W) (x : string) : outcome (cty * Z) :=
  match vars st !! x with Some (t, Some v) => Ret (t, v) | _ => Fault FMem end.
Definition ty_of (st : cstate W) (x : string) : outcome cty := of_option FMem (fst <$> vars st !! x).

Definition pointee (t : cty) : option cty :=
  match t with CPtr t | CConstPtr t => Some t | _ => None end.

Fixpoint eval (st : cstate W) (e : expr) : outcome Z :=
  match e with
  | ENum n => Ret n
  | EChar c => Ret (code c)
  | EConst x => of_option FMem (defines x)
  | EVar x => '(_, v) ← var st x; Ret v
  | EAddr x => Fault FMem
  | ESizeof t => Ret (sizeof t)
  | EAdd a b => a ← eval st a; b ← eval st b; Ret (u32 (a + b))
  | ESub a b => a ← eval st a; b ← eval st b; Ret (u32 (a - b))
  | EStrlen x => '(_, p) ← var st x; strlen fuel (cmem st) p
  | EDeref x => '(t, p) ← var st x; t ← of_option FMem (pointee t); Ret (load_ty t (cmem st) p)
  | ELoad t x => '(_, p) ← var st x; Ret (load_ty t (cmem st) p)
  | ECast _ x => '(_, v) ← var st x; Ret v
  | EField x f =>
      '(_, p) ← var st x;
      if decide (f = "data") then Ret (u32 (p + sizeof CMessage))
      else '(t, o) ← of_option FMem (offset f); Ret (load_ty t (cmem st) (p + o))
  end.

Definition eval_arg (st : cstate W) (e : expr) : outcome carg :=
  match e with
  | EAddr x => Ret (ARef x)
  | e => v ← eval st e; Ret (AVal v)
  end.
Fixpoint eval_args (st : cstate W) (l : list expr) : outcome (list carg) :=
  match l with
  | [] => Ret []
  | e :: l => a ← eval_arg st e; r ← eval_args st l; Ret (a :: r)
  end.

Definition call (st : cstate W) (d : dest) (f : string) (args : list expr) : outcome (cstate W) :=
  l ← eval_args st args;
  '(r, st) ← ext f l st;
  match d with
  | Drop => Ret st
  | Into x => t ← ty_of st x; Ret (set_var st x t r)
  | New t x => Ret (set_var st x t r)
  end.

(** Add to a variable. *)
Definition bump (st : cstate W) (x : string) (k : Z) : outcome (cstate W) :=
  '(t, v) ← var st x; Ret (set_var st x t (v + k)).

(** The value of a [return], or the state the next statement starts in. *)
Definition exec_stmt (st : cstate W) (s : stmt) : outcome (option Z * cstate W) :=
  match s with
  | SComment _ => Ret (None, st)
  | SDecl t x e => v ← eval st e; Ret (None, set_var st x t v)
  | SDeclare t x => Ret (None, mkC (<[x := (t, None)]> (vars st)) (cmem st) (answers st) (world st))
  | SAssign x e => v ← eval st e; t ← ty_of st x; Ret (None, set_var st x t v)
  | SAdd x e => v ← eval st e; st ← bump st x v; Ret (None, st)
  | SSub x e => v ← eval st e; st ← bump st x (- v); Ret (None, st)
  | SIncr x => st ← bump st x 1; Ret (None, st)
  | SDecr x => st ← bump st x (-1); Ret (None, st)
  | SAssert op a b =>
      a ← eval st a; b ← eval st b;
      _ ← c_assert (match op with Ge => b <=? a | Eq => a =? b end);
      Ret (None, st)
  | SStore t x e => v ← eval st e; '(_, p) ← var st x; Ret (None, set_mem st (store_ty t (cmem st) p v))
  | SStoreVar x e =>
      v ← eval st e; '(t, p) ← var st x; t ← of_option FMem (pointee t);
      Ret (None, set_mem st (store_ty t (cmem st) p v))
  | SSetField x f e =>
      v ← eval st e; '(_, p) ← var st x; '(t, o) ← of_option FMem (offset f);
      Ret (None, set_mem st (store_ty t (cmem st) (p + o) v))
  | SMemcpy d s n =>
      d ← eval st d; s ← eval st s; n ← eval st n;
      Ret (None, set_mem st (memcpy (cmem st) d s n))
  | SMalloc t x e =>
      _ ← eval st e;
      match answers st with
      | a :: l => Ret (None, set_var (mkC (vars st) (cmem st) l (world st)) x t a)
      | [] => Fault FMem
      end
  | SFree x => '(_, _) ← var st x; Ret (None, st)
  | SReturn e => v ← eval st e; Ret (Some v, st)
  | SCall d f args => st ← call st d f args; Ret (None, st)
  | SPanic _ _ => Fault FPanic
  end.

Definition test (st : cstate W) (c : cond) : outcome bool :=
  match c with
  | IsNz x | NeZero x => '(_, v) ← var st x; Ret (nz v)
  | NeMinusOne x => '(t, v) ← var st x; Ret (negb (v =? conv t (-1)))
  end.

Fixpoint exec_line (st : cstate W) (l : line) : outcome (option Z * cstate W) :=
  let exec_body := (fix go (st : cstate W) (ls : list line) : outcome (option Z * cstate W) :=
    match ls with
    | [] => Ret (None, st)
    | l :: ls => '(r, st) ← exec_line st l; match r with Some v => Ret (Some v, st) | None => go st ls end
    end) in
  match l with
  | Blank => Ret (None, st)
  | Line s | Note s _ => exec_stmt st s
  | CallLines d f groups => st ← call st d f (concat groups); Ret (None, st)
  | If c body | IfBlock c body => b ← test st c; if b : bool then exec_body st body else Ret (None, st)
  | Switch e cases default =>
      v ← eval st e;
      (fix pick (cs : list (string * list line)) : outcome (option Z * cstate W) :=
         match cs with
         | [] => exec_body st default
         | (k, body) :: cs => c ← of_option FMem (defines k); if v =? c then exec_body st body else pick cs
         end) cases
  end.

Fixpoint exec (st : cstate W) (ls : list line) : outcome (option Z * cstate W) :=
  match ls with
  | [] => Ret (None, st)
  | l :: ls => '(r, st) ← exec_line st l; match r with Some v => Ret (Some v, st) | None => exec st ls end
  end.

Lemma exec_app st l1 l2 : exec st (l1 ++ l2) =
  ('(r, st) ← exec st l1; match r with Some v => Ret (Some v, st) | None => exec st l2 end).
Proof.
  revert st. induction l1 as [|l l1 IH]; intros st; [done|]. cbn [app exec].
  destruct (exec_line st l) as [[[v|] st1]|]; cbn [mbind outcome_bind]; [done|apply IH|done].
Qed.
End meaning.
