(* ===== verification/Rpcstub.v ===== *)
(** [tools/rpcgen/gen_comm.c], [gen_client.c], [gen_server.c]: the back end of the generator of
    remote procedure calls. Every [generate_] function of the source is the definition of the
    statements it prints; [generate] is what [main] prints to its files, up to the check that
    stops it if one does. *)
From Stdlib Require Import Ascii String.
From S2P Require Import Prelude Mem Str Rpcgen Cgen.

(** [assert(!"Invalid code path")] and [abort()]; [panic] of the generator is [FPanic]. *)
Definition invalid_path {A} : outcome A := Fault FAssert.

(** [x_size] and [x typecode], the names and notes derived from an argument. *)
Definition size_name (x : string) : string := x +:+ "_size".
Definition typecode_note (x : string) : string := x +:+ " typecode".

Definition concat_lines (l : list (list line)) : list line := concat l.

(** What a loop has printed when it stops: the texts of the items before the one it stops in,
    and the part [cut] of that one. *)
Fixpoint until {A} (f : A -> outcome string) (cut : A -> string) (l : list A) : string :=
  match l with
  | [] => ""
  | x :: l => match f x with Ret t => t +:+ until f cut l | Fault _ => cut x end
  end.

(** ** [gen_comm.c] *)
Fixpoint spaces (n : nat) : string := match n with O => EmptyString | S n => String (ascii_of_nat 32) (spaces n) end.
(** [%-*s] *)
Definition pad (n : nat) (s : string) : string := s +:+ spaces (n - String.length s).

Definition hex_digit (d : Z) : ascii := ascii_of_N (Z.to_N (if d <? 10 then 48 + d else 55 + d)).
Fixpoint hex_digits (n : nat) (v : Z) (acc : string) : string :=
  match n with
  | O => acc
  | S n => if v =? 0 then acc else hex_digits n (v / 16) (String (hex_digit (v mod 16)) acc)
  end.
Fixpoint zeros (n : nat) : string := match n with O => EmptyString | S n => String (ascii_of_nat 48) (zeros n) end.
(** [%04X] of an [int] *)
Definition hex4 (v : Z) : string :=
  let s := hex_digits 8 (u32 v) EmptyString in zeros (4 - String.length s) +:+ s.

(** The widest name, at least [NULL]. *)
Definition max_width (fns : list RPCFunction) : nat :=
  foldl (fun w fn => if (w <? String.length (fn_name fn))%nat then String.length (fn_name fn) else w) 4%nat fns.

Fixpoint messagecode_lines (width : nat) (idx : Z) (fns : list RPCFunction) : string :=
  match fns with
  | [] => EmptyString
  | fn :: fns =>
      "#define MSG_" +:+ pad width (strupper (fn_name fn)) +:+ " 0x" +:+ hex4 idx +:+ nl +:+
      messagecode_lines width (idx + 1) fns
  end.

Definition generate_messagecodes (fns : list RPCFunction) : string :=
  let width := (max_width fns + 4)%nat in
  cat ["/* Message codes */"; nl;
       "#ifndef MSG_NULL"; nl; "#define MSG_"; pad width "NULL"; " 0x0000"; nl; "#endif"; nl; nl;
       messagecode_lines width 1 fns; nl].

(** The value the compiler gives to a name defined by these lines. *)
Fixpoint messagecode (idx : Z) (fns : list RPCFunction) (name : string) : option Z :=
  match fns with
  | [] => if decide (name = "MSG_NULL") then Some 0 else None
  | fn :: fns => if decide (name = "MSG_" +:+ strupper (fn_name fn)) then Some idx else messagecode (idx + 1) fns name
  end.

Definition generate_commonside (fns : list RPCFunction) : string :=
  cat [generate_messagecodes fns;
       "#if __STDC_HOSTED__"; nl;
       "struct message {"; nl;
       tab; "int reply_port;             /* Port number to send response to */"; nl;
       tab; "unsigned code;              /* Message code, interpretation depends on receiver */"; nl;
       tab; "unsigned len;               /* Length of data[] (i.e. the header is not included) */"; nl;
       tab; "unsigned char data[];"; nl;
       "};"; nl;
       "int msgsend(int port, struct message* msg);"; nl;
       "int msgrecv(int port, struct message* buffer, unsigned buffer_size, unsigned* outsize);"; nl;
       "#define INVALID_PORT 0"; nl;
       "#else /* __STDC_HOSTED__ */"; nl;
       "#include <port.h>"; nl;
       "#endif"; nl; nl].

(** ** [gen_client.c] *)

(** A parameter of a declaration, with the comment in front of it. *)
Record param : Type := mkParam { p_note : string; p_type : cty; p_name : string }.
Definition param_text (p : param) : string := p_note p +:+ ty_text (p_type p) +:+ " " +:+ p_name p.

Definition client_result_params (fn : RPCFunction) : outcome (list param) :=
  let ports := [mkParam "" CInt "rpc_port"; mkParam "" CInt "rpc_reply_port"] in
  match type (return_type fn) with
  | VoidType => Ret ports
  | IntType => Ret (mkParam "" (CPtr CInt) "rpc_result" :: ports)
  | StringType => Fault FPanic
  | LongType => Ret (mkParam "" (CPtr CLong) "rpc_result" :: ports)
  | BlobType => Fault FPanic
  | NullType => invalid_path
  end.

Definition client_arg_params (arg : RPCArgument) : outcome (list param) :=
  let x := arg_name arg in
  if decide (modifier (arg_type arg) <> OutModifier) then
    match type (arg_type arg) with
    | IntType => Ret [mkParam "" CInt x]
    | StringType => Ret [mkParam "" (CConstPtr CChar) x]
    | LongType => Ret [mkParam "" CLong x]
    | BlobType => Ret [mkParam "" (CConstPtr CVoid) x; mkParam "" CSize (size_name x)]
    | _ => invalid_path
    end
  else
    match type (arg_type arg) with
    | IntType => Ret [mkParam "/* out */ " (CPtr CInt) x]
    | StringType => Ret [mkParam "/* out */ " (CPtr CChar) x; mkParam "/* in */ " CSize (size_name x)]
    | LongType => Ret [mkParam "/* out */ " (CPtr CLong) x]
    | BlobType => Ret [mkParam "/* out */ " (CPtr CVoid) x; mkParam "/* in, out */ " (CPtr CSize) (size_name x)]
    | _ => invalid_path
    end.

Definition generate_client_marshaller_declaration (fn : RPCFunction) : outcome string :=
  ps ← client_result_params fn;
  groups ← mapM client_arg_params (args fn);
  Ret (cat ["int "; fn_name fn; "("; nl;
            join ("," +:+ nl) ((fun p => tab +:+ param_text p) <$> ps);
            cat ((fun g => ", " +:+ nl +:+ tab +:+ join ", " (param_text <$> g)) <$> groups);
            ")"; if decide (modifier (return_type fn) = OneWayModifier) then " /* oneway */" else ""]).

(** The statements that determine the size of an argument on the wire. *)
Definition client_arg_size (arg : RPCArgument) : outcome (list line) :=
  let x := arg_name arg in
  let typecode := Note (SAdd "sndbuf_size" (ENum 1)) (typecode_note x) in
  if decide (modifier (arg_type arg) <> OutModifier) then
    match type (arg_type arg) with
    | IntType => Ret [typecode; Note (SAdd "sndbuf_size" (ESizeof CInt)) x]
    | StringType =>
        Ret [typecode;
             Note (SDecl CSize (x +:+ "_strlen") (EStrlen x)) x;
             Note (SAdd "sndbuf_size" (ESizeof CSize)) x;
             Note (SAdd "sndbuf_size" (EAdd (EVar (x +:+ "_strlen")) (ENum 1))) x]
    | LongType => Ret [typecode; Note (SAdd "sndbuf_size" (ESizeof CLong)) x]
    | BlobType =>
        Ret [typecode;
             Note (SAdd "sndbuf_size" (ESizeof CSize)) x;
             Note (SAdd "sndbuf_size" (EVar (size_name x))) x]
    | _ => invalid_path
    end
  else
    match type (arg_type arg) with
    | IntType | LongType => Ret []
    | StringType | BlobType => Ret [typecode; Note (SAdd "sndbuf_size" (ESizeof CSize)) (x +:+ " size")]
    | _ => invalid_path
    end.

(** One character at the send pointer. *)
Definition put_typecode (x : string) (c : ascii) : list line :=
  [Note (SAssert Ge (EVar "snd_rem") (ENum 1)) (typecode_note x);
   Note (SStore CChar "snd_ptr" (EChar c)) (typecode_note x);
   Note (SIncr "snd_ptr") (typecode_note x);
   Note (SDecr "snd_rem") (typecode_note x)].
(** A value of type [t] at the send pointer. *)
Definition put_value (t : cty) (e : expr) : list line :=
  [Line (SAssert Ge (EVar "snd_rem") (ESizeof t));
   Line (SStore t "snd_ptr" e);
   Line (SAdd "snd_ptr" (ESizeof t));
   Line (SSub "snd_rem" (ESizeof t));
   Blank].
(** The bytes at [x] with their number [n] in front. *)
Definition put_bytes (x : string) (n : expr) (total : expr) : list line :=
  [Line (SAssert Ge (EVar "snd_rem") total);
   Line (SStore CSize "snd_ptr" n);
   Line (SMemcpy (EAdd (EVar "snd_ptr") (ESizeof CSize)) (EVar x) n);
   Line (SAdd "snd_ptr" total);
   Line (SSub "snd_rem" total);
   Blank].

Definition client_arg_serializer (arg : RPCArgument) : outcome (list line) :=
  let x := arg_name arg in
  let strlen := EVar (x +:+ "_strlen") in
  let size := EVar (size_name x) in
  if decide (modifier (arg_type arg) <> OutModifier) then
    match type (arg_type arg) with
    | IntType => Ret (put_typecode x "i" ++ put_value CInt (EVar x))
    | StringType =>
        Ret (put_typecode x "s" ++
             put_bytes x (EAdd strlen (ENum 1)) (EAdd (EAdd (ESizeof CSize) strlen) (ENum 1)))
    | LongType => Ret (put_typecode x "l" ++ put_value CLong (EVar x))
    | BlobType => Ret (put_typecode x "b" ++ put_bytes x size (EAdd (ESizeof CSize) size))
    | _ => invalid_path
    end
  else
    match type (arg_type arg) with
    | IntType | LongType => Ret []
    | StringType => Ret (put_typecode x "S" ++ put_value CSize size)
    | BlobType => Ret (put_typecode x "B" ++ put_value CSize (EDeref (size_name x)))
    | _ => invalid_path
    end.

Definition generate_client_marshaller_argserializer (fn : RPCFunction) : outcome (list line) :=
  sizes ← mapM client_arg_size (args fn);
  sers ← mapM client_arg_serializer (args fn);
  Ret ([Line (SComment "Determine send buffer size");
        Line (SDecl CSize "sndbuf_size" (ESizeof CMessage))] ++
       concat_lines sizes ++
       [Blank;
        Line (SComment "Allocate buffer and serialize args");
        Line (SMalloc (CPtr CMessage) "sndbuf" (EVar "sndbuf_size"));
        Line (SDecl (CPtr CUchar) "snd_ptr" (EField "sndbuf" "data"));
        Line (SDecl CSize "snd_rem" (ESub (EVar "sndbuf_size") (ESizeof CMessage)));
        Blank] ++
       concat_lines sers ++
       [Blank;
        Line (SSetField "sndbuf" "reply_port" (EVar "rpc_reply_port"));
        Line (SSetField "sndbuf" "code" (EConst ("MSG_" +:+ strupper (fn_name fn))));
        Line (SSetField "sndbuf" "len" (ESub (EVar "sndbuf_size") (ESizeof CMessage)))]).

Definition client_result_size (fn : RPCFunction) : outcome (list line) :=
  let typecode := Note (SAdd "rcvbuf_size" (ENum 1)) "rpc_result typecode" in
  match type (return_type fn) with
  | VoidType => Ret []
  | IntType => Ret [typecode; Note (SAdd "rcvbuf_size" (ESizeof CInt)) "rpc_result"]
  | LongType => Ret [typecode; Note (SAdd "rcvbuf_size" (ESizeof CLong)) "rpc_result"]
  | _ => Fault FPanic
  end.

Definition client_out_size (arg : RPCArgument) : outcome (list line) :=
  let x := arg_name arg in
  let typecode := Note (SAdd "rcvbuf_size" (ENum 1)) (typecode_note x) in
  if decide (modifier (arg_type arg) = OutModifier) then
    match type (arg_type arg) with
    | IntType => Ret [typecode; Note (SAdd "rcvbuf_size" (ESizeof CInt)) x]
    | StringType =>
        Ret [typecode; Note (SAdd "rcvbuf_size" (ESizeof CSize)) x;
             Note (SAdd "rcvbuf_size" (EVar (size_name x))) (x +:+ " size")]
    | LongType => Ret [typecode; Note (SAdd "rcvbuf_size" (ESizeof CLong)) x]
    | BlobType =>
        Ret [typecode; Note (SAdd "rcvbuf_size" (ESizeof CSize)) x;
             Note (SAdd "rcvbuf_size" (EDeref (size_name x))) (x +:+ " size")]
    | _ => Fault FPanic
    end
  else Ret [].

(** Read and check one character at the receive pointer. *)
Definition get_typecode (c : ascii) : list line :=
  [Line (SAssert Ge (EVar "rcvbuf_rem") (ENum 1));
   Line (SAssign "rpc_typecode" (ELoad CChar "rcvbuf_ptr"));
   Line (SAssert Eq (EVar "rpc_typecode") (EChar c));
   Line (SIncr "rcvbuf_ptr");
   Line (SDecr "rcvbuf_rem")].
Definition get_value (t : cty) (x : string) : list line :=
  [Line (SAssert Ge (EVar "rcvbuf_rem") (ESizeof t));
   Line (SStoreVar x (ELoad t "rcvbuf_ptr"));
   Line (SAdd "rcvbuf_ptr" (ESizeof t));
   Line (SSub "rcvbuf_rem" (ESizeof t));
   Blank].
(** The number of bytes that follow, into a new variable. *)
Definition get_size (n : string) : list line :=
  [Line (SAssert Ge (EVar "rcvbuf_rem") (ESizeof CSize));
   Line (SDecl CSize n (ELoad CSize "rcvbuf_ptr"));
   Line (SAdd "rcvbuf_ptr" (ESizeof CSize));
   Line (SSub "rcvbuf_rem" (ESizeof CSize))].
Definition get_copy (x n : string) : list line :=
  [Line (SMemcpy (EVar x) (ECast (CConstPtr CChar) "rcvbuf_ptr") (EVar n));
   Line (SAdd "rcvbuf_ptr" (EVar n));
   Line (SSub "rcvbuf_rem" (EVar n))].

Definition client_out_deserializer (arg : RPCArgument) : outcome (list line) :=
  let x := arg_name arg in
  if decide (modifier (arg_type arg) = OutModifier) then
    match type (arg_type arg) with
    | IntType => Ret (get_typecode "I" ++ get_value CInt x)
    | StringType =>
        let n := x +:+ "_outsize" in
        Ret (get_typecode "S" ++ get_size n ++
             [Line (SAssert Ge (EVar (size_name x)) (EVar n));
              Line (SAssert Ge (EVar "rcvbuf_rem") (EVar n))] ++
             get_copy x n ++ [Blank])
    | LongType => Ret (get_typecode "L" ++ get_value CLong x)
    | BlobType =>
        let n := "received_" +:+ x +:+ "_size" in
        Ret (get_typecode "B" ++ get_size n ++
             [Line (SAssert Ge (EVar "rcvbuf_rem") (EVar n));
              Line (SAssert Ge (EDeref (size_name x)) (EVar n))] ++
             get_copy x n ++ [Line (SStoreVar (size_name x) (EVar n)); Blank])
    | _ => Fault FPanic
    end
  else Ret [].

Definition client_result_deserializer (fn : RPCFunction) : outcome (list line) :=
  if decide (type (return_type fn) <> VoidType) then
    l ← (match type (return_type fn) with
         | IntType => Ret (get_typecode "I" ++ get_value CInt "rpc_result")
         | LongType => Ret (get_typecode "L" ++ get_value CLong "rpc_result")
         | _ => Fault FPanic
         end);
    Ret (Line (SComment "deserialize result") :: l)
  else Ret [].

Definition generate_client_marshaller_resultdeserializer (fn : RPCFunction) : outcome (list line) :=
  rsize ← client_result_size fn;
  sizes ← mapM client_out_size (args fn);
  let head := [Line (SComment "Determine buffer size for results");
               Line (SDecl CSize "rcvbuf_size" (ESizeof CMessage))] ++ rsize ++ concat_lines sizes in
  if decide (modifier (return_type fn) <> OneWayModifier) then
    result ← client_result_deserializer fn;
    outs ← mapM client_out_deserializer (args fn);
    Ret (head ++
         [Blank;
          Line (SComment "Receive results");
          Line (SMalloc (CPtr CMessage) "rcvbuf" (EVar "rcvbuf_size"));
          Line (SCall (Into "ret") "msgrecv" [EVar "rpc_reply_port"; EVar "rcvbuf"; EVar "rcvbuf_size"; EConst "NULL"]);
          If (NeZero "ret") [Line (SReturn (EConst "RPC_FAIL_RECV"))];
          Blank;
          Line (SDecl (CConstPtr CUchar) "rcvbuf_ptr" (EField "rcvbuf" "data"));
          Line (SDecl CSize "rcvbuf_rem" (EField "rcvbuf" "len"));
          Line (SDeclare CChar "rpc_typecode");
          Blank] ++
         result ++ concat_lines outs ++
         [Line (SFree "rcvbuf"); Blank])
  else Ret head.

Definition client_send : list line :=
  [Blank;
   Line (SCall (New CInt "ret") "msgsend" [EVar "rpc_port"; EVar "sndbuf"]);
   If (NeZero "ret") [Line (SReturn (EConst "RPC_FAIL_SEND"))];
   Blank;
   Line (SFree "sndbuf");
   Blank].

Definition client_body (fn : RPCFunction) : outcome (list line) :=
  ser ← generate_client_marshaller_argserializer fn;
  des ← (if decide (modifier (return_type fn) <> OneWayModifier)
         then generate_client_marshaller_resultdeserializer fn
         else if decide (type (return_type fn) <> VoidType) then Fault FPanic else Ret []);
  Ret (ser ++ client_send ++ des ++ [Line (SReturn (EConst "RPC_OK"))]).

(** The text for the source and for the header. *)
Definition generate_client_marshaller (fn : RPCFunction) : outcome (string * string) :=
  decl ← generate_client_marshaller_declaration fn;
  body ← client_body fn;
  Ret (cat [decl; nl; "{"; nl; lines_text 1 body; "}"; nl; nl], cat [decl; ";"; nl]).

(** What is in the source when the result of a oneway function stops the generator. *)
Definition client_cut (fn : RPCFunction) : string :=
  match generate_client_marshaller_declaration fn, generate_client_marshaller_argserializer fn with
  | Ret decl, Ret ser => cat [decl; nl; "{"; nl; lines_text 1 (ser ++ client_send)]
  | _, _ => ""
  end.

Definition include (name : string) : string := cat ["#include "; quote; name; quote; nl].

Definition client_head (comm_h clt_h : string) : string :=
  cat ["#include <stddef.h>"; nl; include comm_h; include clt_h; nl;
       "#if __STDC_HOSTED__"; nl; "#include <stdlib.h>"; nl; "#include <assert.h>"; nl; "#include <string.h>"; nl;
       "#define panic(s) assert(!(s))"; nl; "#else"; nl; "#include <string.h>"; nl; "#include <malloc.h>"; nl;
       "#include <runtime.h>"; nl; "#include <debug.h>"; nl; "#endif"; nl; nl; nl].

(** The text printed to the source and to the header, and the check that stopped it, if any. *)
Definition generate_clientside (comm_h clt_h : string) (fns : list RPCFunction) : string * string * option fault :=
  let text := (fun fn => fst <$> generate_client_marshaller fn) in
  let decl := (fun fn => snd <$> generate_client_marshaller fn) in
  match mapM generate_client_marshaller fns with
  | Ret texts =>
      (cat [client_head comm_h clt_h; cat (fst <$> texts); nl],
       cat [cat (snd <$> texts); nl;
            "/* Rpc client result codes */"; nl; "#ifndef RPC_OK"; nl; "#  define RPC_OK           0"; nl;
            "#  define RPC_FAIL_SEND    1"; nl; "#  define RPC_FAIL_RECV    2"; nl; "#endif"; nl; nl; nl], None)
  | Fault e => (client_head comm_h clt_h +:+ until text client_cut fns, until decl (fun _ => "") fns, Some e)
  end.

(** ** [gen_server.c] *)
Definition out_name (x : string) : string := "out_" +:+ x.
Definition out_size_name (x : string) : string := "out_" +:+ x +:+ "_size".
Definition in_name (x : string) : string := "arg_" +:+ x.
Definition in_size_name (x : string) : string := "arg_" +:+ x +:+ "_size".

Definition is_out (arg : RPCArgument) : bool :=
  match modifier (arg_type arg) with OutModifier => true | _ => false end.
(** [has_result] *)
Definition has_result (fn : RPCFunction) : bool :=
  bool_decide (type (return_type fn) <> VoidType) || existsb is_out (args fn).

(** One character at the result pointer; the note goes with the assertion. *)
Definition res_typecode (c : ascii) : list line :=
  [Line (SStore CChar "result_ptr" (EChar c)); Line (SIncr "result_ptr"); Line (SDecr "avail")].
(** A value stored as [t]; the pointer moves by the size of [step]. *)
Definition res_value (t step : cty) (e : expr) : list line :=
  [Line (SAssert Ge (EVar "avail") (ESizeof step));
   Line (SStore t "result_ptr" e);
   Line (SAdd "result_ptr" (ESizeof step));
   Line (SSub "avail" (ESizeof step));
   Blank].

Definition result_serializer (fn : RPCFunction) : outcome (list line) :=
  let typecode := Note (SAssert Ge (EVar "avail") (ENum 1)) "result typecode" in
  match type (return_type fn) with
  | VoidType => Ret []
  | IntType => Ret (typecode :: res_typecode "I" ++ res_value CInt CInt (EVar "fn_result"))
  | LongType => Ret (typecode :: res_typecode "L" ++ res_value CInt CLong (EVar "fn_result"))
  | _ => invalid_path
  end.

(** The bytes at [out_x], [out_x_size] of them, with their number in front, then [free(out_x)]. *)
Definition res_bytes (x : string) : list line :=
  [Line (SStore CSize "result_ptr" (EVar (out_size_name x)));
   Line (SAdd "result_ptr" (ESizeof CSize));
   Line (SSub "avail" (ESizeof CSize));
   Line (SAssert Ge (EVar "avail") (EVar (out_size_name x)));
   Line (SMemcpy (EVar "result_ptr") (EVar (out_name x)) (EVar (out_size_name x)));
   Line (SAdd "result_ptr" (EVar (out_size_name x)));
   Line (SSub "avail" (EVar (out_size_name x)));
   Line (SFree (out_name x));
   Blank].

Definition out_serializer (arg : RPCArgument) : outcome (list line) :=
  let x := arg_name arg in
  let head c :=
    [Line (SComment ("Serialize " +:+ typecode_note x)); Line (SAssert Ge (EVar "avail") (ENum 1))] ++
    res_typecode c ++ [Blank; Line (SComment ("Serialize " +:+ x))] in
  let has_size := Line (SAssert Ge (EVar "avail") (ESizeof CSize)) in
  if is_out arg then
    match type (arg_type arg) with
    | IntType => Ret (head "I"%char ++ res_value CInt CInt (EVar (out_name x)))
    | StringType =>
        Ret (head "S"%char ++
             [has_size; Line (SAssign (out_size_name x) (EAdd (EStrlen (out_name x)) (ENum 1)))] ++ res_bytes x)
    | LongType => Ret (head "L"%char ++ res_value CLong CLong (EVar (out_name x)))
    | BlobType => Ret (head "B"%char ++ [has_size] ++ res_bytes x)
    | _ => invalid_path
    end
  else Ret [].

Definition generate_result_serializer (fn : RPCFunction) : outcome (list line) :=
  if has_result fn then
    result ← result_serializer fn;
    outs ← mapM out_serializer (args fn);
    Ret ([Line (SComment "Serialize result");
          Line (SDecl (CPtr CUchar) "result_ptr" (ECast (CPtr CUchar) "resbuf"));
          Line (SDecl CSize "avail" (EVar "resbuf_size"));
          Blank] ++
         result ++ concat_lines outs ++
         [Line (SDecl CSize "result" (ESub (EVar "resbuf_size") (EVar "avail")));
          Line (SReturn (EVar "result"))])
  else if decide (modifier (return_type fn) = OneWayModifier) then Ret [Line (SReturn (ENum (-1)))]
  else Ret [Line (SReturn (ENum 0))].

(** The variable an out parameter is collected in. *)
Definition out_declaration (arg : RPCArgument) : outcome (list line) :=
  let x := arg_name arg in
  if is_out arg then
    match type (arg_type arg) with
    | IntType => Ret [Line (SDecl CInt (out_name x) (ENum 0))]
    | StringType => Ret [Line (SMalloc (CPtr CChar) (out_name x) (EVar (out_size_name x)))]
    | LongType => Ret [Line (SDecl CLong (out_name x) (ENum 0))]
    | BlobType => Ret [Line (SMalloc (CPtr CVoid) (out_name x) (EVar (out_size_name x)))]
    | _ => invalid_path
    end
  else Ret [].

(** What the handler gets for a parameter; nothing between the commas for another modifier. *)
Definition handler_arg (arg : RPCArgument) : outcome (list expr) :=
  let x := arg_name arg in
  match modifier (arg_type arg) with
  | NullModifier =>
      match type (arg_type arg) with
      | IntType | LongType | StringType => Ret [EVar (in_name x)]
      | BlobType => Ret [EVar (in_name x); EVar (in_size_name x)]
      | _ => Fault FPanic
      end
  | OutModifier =>
      match type (arg_type arg) with
      | IntType | LongType => Ret [EAddr (out_name x)]
      | StringType => Ret [EVar (out_name x); EVar (out_size_name x)]
      | BlobType => Ret [EVar (out_name x); EAddr (out_size_name x)]
      | _ => invalid_path
      end
  | OneWayModifier => Ret [EConst ""]
  end.

Definition handler_dest (fn : RPCFunction) : outcome dest :=
  match type (return_type fn) with
  | VoidType => Ret Drop
  | IntType => Ret (New CInt "fn_result")
  | LongType => Ret (New CLong "fn_result")
  | _ => invalid_path
  end.

Definition generate_handler_call (fn : RPCFunction) : outcome (list line) :=
  decls ← mapM out_declaration (args fn);
  d ← handler_dest fn;
  exprs ← mapM handler_arg (args fn);
  Ret ([Line (SComment "Call handler")] ++ concat_lines decls ++
       [Line (SCall d ("handle_" +:+ fn_name fn) (EVar "sender_pid" :: concat exprs)); Blank]).

(** Read and check one character at the argument pointer. *)
Definition arg_typecode (x : string) (c : ascii) : list line :=
  [Note (SAssert Ge (EVar "in_size") (ENum 1)) (typecode_note x);
   Line (SAssign "typecode" (ELoad CChar "in_ptr"));
   Line (SAssert Eq (EVar "typecode") (EChar c));
   Line (SIncr "in_ptr");
   Line (SDecr "in_size");
   Blank].
Definition arg_value (t : cty) (y : string) : list line :=
  [Line (SAssert Ge (EVar "in_size") (ESizeof t));
   Line (SDecl t y (ELoad t "in_ptr"));
   Line (SAdd "in_ptr" (ESizeof t));
   Line (SSub "in_size" (ESizeof t))].
(** Bytes in place: their number and a pointer to them. *)
Definition arg_bytes (t : cty) (x : string) : list line :=
  arg_value CSize (in_size_name x) ++
  [Line (SAssert Ge (EVar "in_size") (EVar (in_size_name x)));
   Line (SDecl (CConstPtr t) (in_name x) (ECast (CConstPtr t) "in_ptr"));
   Line (SAdd "in_ptr" (EVar (in_size_name x)));
   Line (SSub "in_size" (EVar (in_size_name x)));
   Blank].

Definition arg_deserializer (arg : RPCArgument) : outcome (list line) :=
  let x := arg_name arg in
  if decide (modifier (arg_type arg) = NullModifier) then
    l ← (match type (arg_type arg) with
         | IntType => Ret (arg_typecode x "i" ++ arg_value CInt (in_name x) ++ [Blank])
         | StringType => Ret (arg_typecode x "s" ++ arg_bytes CChar x)
         | LongType => Ret (arg_typecode x "l" ++ arg_value CLong (in_name x) ++ [Blank])
         | BlobType => Ret (arg_typecode x "b" ++ arg_bytes CVoid x)
         | _ => invalid_path
         end);
    Ret (Line (SComment ("Deserialize " +:+ x)) :: l)
  else
    match type (arg_type arg) with
    | IntType | LongType => Ret []
    | StringType =>
        Ret (arg_typecode x "S" ++ [Line (SComment ("Deserialize buffer size for string " +:+ x))] ++
             arg_value CSize (out_size_name x) ++ [Blank])
    | BlobType =>
        Ret (arg_typecode x "B" ++ [Line (SComment ("Deserialize buffer size for blob " +:+ x))] ++
             arg_value CSize (out_size_name x) ++ [Blank])
    | _ => Fault FPanic
    end.

Definition arg_head : list line :=
  [Line (SComment "Deserialize arguments");
   Line (SDecl (CConstPtr CUchar) "in_ptr" (EVar "argbuf"));
   Line (SDecl CSize "in_size" (EVar "argbuf_size"));
   Line (SDeclare CChar "typecode");
   Blank].
Definition generate_arg_deserializer (fn : RPCFunction) : outcome (list line) :=
  match args fn with
  | [] => Ret []
  | _ =>
      l ← mapM arg_deserializer (args fn);
      Ret (arg_head ++ concat_lines l ++ [Blank])
  end.

Definition generate_marshaller_decl (fn : RPCFunction) : string :=
  cat ["static size_t marshall_"; fn_name fn;
       "(int sender_pid, void* resbuf, size_t resbuf_size, const void* argbuf, size_t argbuf_size)"; nl].

(** The body of [marshall_] of a function. *)
Definition marshaller_body (fn : RPCFunction) : outcome (list line) :=
  des ← generate_arg_deserializer fn;
  call ← generate_handler_call fn;
  ser ← generate_result_serializer fn;
  Ret (des ++ call ++ ser).

Definition generate_marshaller (fn : RPCFunction) : outcome string :=
  body ← marshaller_body fn;
  Ret (cat [generate_marshaller_decl fn; "{"; nl; lines_text 1 body; "}"; nl; nl]).
Definition generate_marshallers (fns : list RPCFunction) : outcome string :=
  texts ← mapM generate_marshaller fns; Ret (cat texts).

(** What is in the source when an argument stops the generator. *)
Fixpoint deserializers_cut (l : list RPCArgument) : list line :=
  match l with
  | [] => []
  | a :: l =>
      match arg_deserializer a with
      | Ret t => t ++ deserializers_cut l
      | Fault _ => if decide (modifier (arg_type a) = NullModifier) then [Line (SComment ("Deserialize " +:+ arg_name a))] else []
      end
  end.
Definition marshaller_cut (fn : RPCFunction) : string :=
  cat [generate_marshaller_decl fn; "{"; nl; lines_text 1 (arg_head ++ deserializers_cut (args fn))].

Definition dispatch_prologue : list line :=
  [Line (SMalloc (CPtr CMessage) "snd_buf" (ENum 4096));
   Line (SMalloc (CPtr CMessage) "rcv_buf" (ENum 4096));
   Line (SDecl CSize "snd_buf_size" (ESub (ENum 4096) (ESizeof CMessage)));
   Line (SDeclare CUnsigned "outsize");
   Blank].

Definition dispatch_case (fn : RPCFunction) : string * list line :=
  ("MSG_" +:+ strupper (fn_name fn),
   [CallLines (Into "result") ("marshall_" +:+ fn_name fn)
      [[EField "rcv_buf" "sender"];
       [EField "snd_buf" "data"; EVar "snd_buf_size"];
       [EField "rcv_buf" "data"; EField "rcv_buf" "len"]]]).

(** The body of the endless loop of [rpc_dispatch]. *)
Definition dispatch_body (fns : list RPCFunction) : list line :=
  [Line (SCall (New CInt "ret") "msgrecv" [EVar "port"; EVar "rcv_buf"; ENum 4096; EAddr "outsize"]);
   If (IsNz "ret") [Line (SPanic "msgrecv() failed" [])];
   Blank;
   Line (SDeclare CSize "result");
   Switch (EField "rcv_buf" "code") (dispatch_case <$> fns)
     [Line (SPanic "Invalid message code 0x%X from %d" [EField "rcv_buf" "code"; EField "rcv_buf" "sender"])];
   Blank;
   IfBlock (NeMinusOne "result")
     [Line (SSetField "snd_buf" "len" (EVar "result"));
      Line (SSetField "snd_buf" "reply_port" (EConst "INVALID_PORT"));
      Line (SSetField "snd_buf" "code" (EConst "MSG_NULL"));
      Line (SCall (Into "ret") "msgsend" [EField "rcv_buf" "reply_port"; EVar "snd_buf"]);
      If (IsNz "ret") [Line (SPanic "msgsend() failed" [])]]].

Definition generate_dispatcher (fns : list RPCFunction) : string :=
  cat ["void rpc_dispatch(int port)"; nl; "{"; nl; lines_text 1 dispatch_prologue;
       tab; "while(1) {"; nl; lines_text 2 (dispatch_body fns); tab; "}"; nl; "}"; nl; nl].

Definition handler_result (fn : RPCFunction) : outcome string :=
  match type (return_type fn) with
  | VoidType => Ret "void"
  | IntType => Ret "int"
  | LongType => Ret "long long"
  | StringType | BlobType => Fault FPanic
  | NullType => invalid_path
  end.
Definition handler_params (arg : RPCArgument) : outcome (list param) :=
  let x := arg_name arg in
  match modifier (arg_type arg) with
  | NullModifier =>
      match type (arg_type arg) with
      | IntType => Ret [mkParam "" CInt x]
      | StringType => Ret [mkParam "" (CConstPtr CChar) x]
      | LongType => Ret [mkParam "" CLong x]
      | BlobType => Ret [mkParam "" (CConstPtr CVoid) x; mkParam "" CSize (size_name x)]
      | _ => invalid_path
      end
  | OutModifier =>
      match type (arg_type arg) with
      | IntType => Ret [mkParam "/* out */ " (CPtr CInt) x]
      | StringType => Ret [mkParam "/* out */ " (CPtr CChar) x; mkParam "/* in */ " CSize (size_name x)]
      | LongType => Ret [mkParam "/* out */ " (CPtr CLong) x]
      | BlobType => Ret [mkParam "/* out */ " (CPtr CVoid) x; mkParam "/* in, out */ " (CPtr CSize) (size_name x)]
      | _ => invalid_path
      end
  | OneWayModifier => Ret []
  end.

Definition generate_declaration (fn : RPCFunction) : outcome string :=
  r ← handler_result fn;
  groups ← mapM handler_params (args fn);
  Ret (cat [r; " handle_"; fn_name fn; "(int sender_pid";
            cat ((fun g => ", " +:+ join ", " (param_text <$> g)) <$> groups); ");"; nl]).

(** What is in the header when a parameter stops the generator; nothing of the function when its
    result does. *)
Fixpoint params_cut (l : list RPCArgument) : string :=
  match l with
  | [] => ""
  | a :: l => ", " +:+ match handler_params a with Ret g => join ", " (param_text <$> g) +:+ params_cut l | Fault _ => "" end
  end.
Definition declaration_cut (fn : RPCFunction) : string :=
  match handler_result fn with
  | Ret r => cat [r; " handle_"; fn_name fn; "(int sender_pid"; params_cut (args fn)]
  | Fault _ => ""
  end.

Definition declarations_head : string := cat ["/* Handlers */"; nl].
Definition generate_declarations (fns : list RPCFunction) : outcome string :=
  texts ← mapM generate_declaration fns;
  Ret (cat [declarations_head; cat texts; nl; "/* dispatcher */"; nl; "void rpc_dispatch(int);"; nl; nl]).

Definition server_head (comm_h srv_h : string) : string :=
  cat ["#include <stddef.h>"; nl; include comm_h; include srv_h; nl;
       "#if __STDC_HOSTED__"; nl; "#  include <stdlib.h>"; nl; "#  include <assert.h>"; nl;
       "#  include <string.h>"; nl; "#  define panic(s) assert(!(s))"; nl; "#else"; nl;
       "#  include <debug.h>"; nl; "#  include <port.h>"; nl; "#  include <string.h>"; nl; "#  include <util.h>"; nl;
       "#  ifdef KERNEL"; nl; "#      include "; quote; "kmalloc.h"; quote; nl;
       "#      define malloc(s) kmalloc(s)"; nl; "#      define free(s) kfree(s)"; nl; "#  else"; nl;
       "#      include <malloc.h>"; nl; "#      include <runtime.h>"; nl; "#  endif"; nl; "#endif"; nl; nl].

(** The text printed to the source and to the header, and the check that stopped it, if any. *)
Definition generate_serverside (comm_h srv_h : string) (fns : list RPCFunction) : string * string * option fault :=
  match generate_declarations fns with
  | Fault e => ("", declarations_head +:+ until generate_declaration declaration_cut fns, Some e)
  | Ret decls =>
      match generate_marshallers fns with
      | Fault e => (server_head comm_h srv_h +:+ until generate_marshaller marshaller_cut fns, decls, Some e)
      | Ret marshallers => (cat [server_head comm_h srv_h; marshallers; generate_dispatcher fns], decls, None)
      end
  end.

(** ** [main] *)
Record files : Type := mkFiles
  { comm_h : string; comm_c : string; srv_h : string; srv_c : string; clt_h : string; clt_c : string }.

(** What a run has printed to its files, [None] before they are opened, and what stopped it.
    [panic] ends in [exit], which writes out what was printed, as the [fclose]s at the end do;
    after an assertion or [abort] the library may have written out only a beginning of it. *)
Record run : Type := mkRun { printed : option files; stopped : option fault }.

Definition pragma : string := cat ["#pragma once"; nl; nl].

(** The output files, with [names] the names of the headers the sources include. *)
Definition generate (names : string * string * string) (fns : list RPCFunction) : run :=
  let '(comm_hf, srv_hf, clt_hf) := names in
  let comm := pragma +:+ generate_commonside fns in
  let '(sc, sh, e) := generate_serverside comm_hf srv_hf fns in
  match e with
  | Some e => mkRun (Some (mkFiles comm "" (pragma +:+ sh) sc pragma "")) (Some e)
  | None =>
      let '(cc, ch, e) := generate_clientside comm_hf clt_hf fns in
      mkRun (Some (mkFiles comm "" (pragma +:+ sh) sc (pragma +:+ ch) cc)) e
  end.

(** [main] on the text of an interface; the front end runs before a file is opened. *)
Definition rpcgen (names : string * string * string) (input : string) : run :=
  match front_end input with
  | Ret fns => generate names fns
  | Fault e => mkRun None (Some e)
  end.
