(* ===== verification/RpcWire.v ===== *)
(** What the generated stubs do ([tools/rpcgen/gen_client.c], [gen_server.c]): the statements that
    write to a buffer and those that read from one, executed. *)
From Stdlib Require Import Ascii String.
From S2P Require Import Prelude Mem Str StrSpec Rpcgen Cgen Rpcstub.

(** Membership in lists of names, from the memberships of the context. *)
Ltac notin :=
  repeat match goal with
  | H : _ ∉ _ :: _ |- _ => apply not_elem_of_cons in H as [? ?]
  | H : _ ∉ _ ++ _ |- _ => apply not_elem_of_app in H as [? ?]
  | H : Forall _ (_ :: _) |- _ => apply Forall_cons in H as [? ?]
  | H : NoDup (_ :: _) |- _ => apply NoDup_cons in H as [? ?]
  end; cbv beta in *;
  repeat match goal with H : _ ∉ _ :: _ |- _ => apply not_elem_of_cons in H as [? ?] end;
  repeat (rewrite not_elem_of_cons || rewrite not_elem_of_app); repeat split;
  (done || apply not_elem_of_nil || congruence || assumption).

(** Membership in an explicit list, and inclusion of explicit lists. *)
Ltac subset_in := repeat ((by left) || (apply elem_of_cons; right)).
Ltac subset :=
  clear; let z := fresh in let Hz := fresh in intros z Hz;
  repeat (apply elem_of_cons in Hz as [->|Hz]; [solve [repeat ((by left) || (apply elem_of_cons; right))]|]);
  by apply not_elem_of_nil in Hz.

Lemma mapM_cons_ret {A B} (f : A -> outcome B) x l r : mapM f (x :: l) = Ret r ->
  exists y ys, f x = Ret y /\ mapM f l = Ret ys /\ r = y :: ys.
Proof.
  cbn [mapM]. intros E. invert_ret. eexists _, _. split; [done|]. split; [done|]. by injection E as <-.
Qed.

Lemma elem_concat {A B} (f : A -> list B) l x y : x ∈ l -> y ∈ f x -> y ∈ concat (f <$> l).
Proof.
  intros Hx Hy. induction Hx as [x l|x z l Hx IH]; rewrite fmap_cons; cbn [concat]; apply elem_of_app; [by left|right; by apply IH].
Qed.

Lemma Forall2_impl_l {A B} (P Q : A -> B -> Prop) l k : Forall2 P l k ->
  (forall x y, x ∈ l -> P x y -> Q x y) -> Forall2 Q l k.
Proof.
  induction 1 as [|x y l k Hxy _ IH]; intros HQ; constructor.
  - apply HQ; [by left|done].
  - apply IH. intros a b Ha. apply HQ. by right.
Qed.

(** ** Memories with the same bytes *)
Definition meq (m m' : mem) : Prop := forall a, load8 m a = load8 m' a.
#[export] Instance meq_equiv : Equivalence meq.
Proof.
  split; [by intros m a|by intros m m' E a|intros m1 m2 m3 E1 E2 a; by rewrite E1, E2].
Qed.

Lemma meq_bytes m m' a n : meq m m' -> load_bytes m a n = load_bytes m' a n.
Proof. intros E. apply load_bytes_ext. intros. apply E. Qed.

Lemma load8_store_bytes m a bs c : Forall is_byte bs ->
  load8 (store_bytes m a bs) c =
    if (a <=? c) && (c <? a + Z.of_nat (length bs)) then nth (Z.to_nat (c - a)) bs 0 else load8 m c.
Proof.
  intros Hb. destruct ((a <=? c) && _) eqn:E; breflect.
  - pose proof (load_store_bytes_eq m a bs _ Hb eq_refl) as Hl.
    apply (f_equal (fun l => nth (Z.to_nat (c - a)) l 0)) in Hl. rewrite <- Hl.
    assert (load_bytes (store_bytes m a bs) a (length bs) !! Z.to_nat (c - a) = Some (load8 (store_bytes m a bs) c)) as Hn.
    { rewrite load_bytes_lookup by lia. do 2 f_equal. lia. }
    symmetry. by apply nth_lookup_Some.
  - apply load8_store_bytes_out. breflect_cases; lia.
Qed.

Lemma store_bytes_meq m m' a bs : meq m m' -> meq (store_bytes m a bs) (store_bytes m' a bs).
Proof.
  intros E c. revert m m' a E. induction bs as [|b bs IH]; intros m m' a E; [apply E|].
  rewrite !store_bytes_cons. apply IH. intros d. rewrite !load8_store8. by destruct (a =? d).
Qed.

(** Writing what is already there. *)
Lemma store_same m a n : byte_mem m -> meq (store_bytes m a (load_bytes m a n)) m.
Proof.
  intros Hm c. rewrite load8_store_bytes by (by apply load_bytes_byte). rewrite length_load_bytes.
  destruct ((a <=? c) && _) eqn:E; [|done]. breflect. apply nth_lookup_Some.
  rewrite load_bytes_lookup by lia. do 2 f_equal. lia.
Qed.

Lemma memcpy_store m d s n : byte_mem m -> 0 <= n ->
  byte_mem (memcpy m d s n) /\ meq (memcpy m d s n) (store_bytes m d (load_bytes m s (Z.to_nat n))).
Proof.
  intros Hm Hn. destruct (memcpy_load8 m d s n Hm Hn) as [Hb Hl]. split; [done|]. intros c.
  rewrite Hl, load8_store_bytes by (by apply load_bytes_byte). rewrite length_load_bytes, Z2Nat.id by done.
  destruct ((d <=? c) && _) eqn:E; [|done]. breflect. symmetry. apply nth_lookup_Some.
  rewrite load_bytes_lookup by lia. do 2 f_equal. lia.
Qed.

(** ** Values and their types *)
Lemma conv_ptr t z : 0 <= z < 2 ^ 32 -> conv (CPtr t) z = z.
Proof. apply u32_small. Qed.
Lemma conv_cptr t z : 0 <= z < 2 ^ 32 -> conv (CConstPtr t) z = z.
Proof. apply u32_small. Qed.
Lemma conv_size z : 0 <= z < 2 ^ 32 -> conv CSize z = z.
Proof. apply u32_small. Qed.

Lemma swrap_swrap w z : 0 < w -> swrap w (swrap w z) = swrap w z.
Proof. intros. rewrite <- (swrap_wrap w (swrap w z)), wrap_swrap by done. by apply swrap_wrap. Qed.
Lemma conv_conv t z : conv t (conv t z) = conv t z.
Proof. destruct t; cbn [conv]; (apply swrap_swrap || apply wrap_wrap); lia. Qed.

Section stubs.
Context {W : Type}.
Variable fuel : nat.
Variable defines : string -> option Z.
Variable ext : string -> list carg -> cstate W -> outcome (Z * cstate W).
Implicit Types st : cstate W.
Local Abbreviation exec := (exec fuel defines ext).
Local Abbreviation eval := (eval fuel defines).

Lemma var_eq st x t v : vars st !! x = Some (t, Some v) -> var st x = Ret (t, v).
Proof. intros E. unfold var. by rewrite E. Qed.

Lemma bump_eq st x t v k : vars st !! x = Some (t, Some v) -> bump st x k = Ret (set_var st x t (v + k)).
Proof. intros E. unfold bump. by rewrite (var_eq st x t v). Qed.

Lemma exec_next st l ls st1 : exec_line fuel defines ext st l = Ret (None, st1) -> exec st (l :: ls) = exec st1 ls.
Proof. intros E. cbn [Cgen.exec]. by rewrite E. Qed.

(** ** Writing through a cursor *)
Section cursor.
Variables ptr rem : string.
Variable tp : cty.
Hypothesis ptr_rem : ptr <> rem.
Hypothesis tp_ptr : forall z, 0 <= z < 2 ^ 32 -> conv tp z = z.

(** A pointer into a buffer and the number of bytes that remain. *)
Definition cursor st (p r : Z) : Prop :=
  vars st !! ptr = Some (tp, Some p) /\ vars st !! rem = Some (CSize, Some r) /\ 0 <= p /\ 0 <= r /\ p + r < 2 ^ 32.

(** From [st] to [st'] the bytes [bs] were written at the cursor. *)
Record wrote (p r : Z) (bs : list Z) st st' : Prop := {
  wr_cursor : cursor st' (p + Z.of_nat (length bs)) (r - Z.of_nat (length bs));
  wr_mem : meq (cmem st') (store_bytes (cmem st) p bs);
  wr_byte : byte_mem (cmem st) -> byte_mem (cmem st');
  wr_rest : answers st' = answers st /\ world st' = world st;
  wr_vars x : x <> ptr -> x <> rem -> vars st' !! x = vars st !! x
}.

Lemma wrote_nil p r st : cursor st p r -> wrote p r [] st st.
Proof. intros H. split; try done. cbn. by rewrite Z.add_0_r, Z.sub_0_r. Qed.

Lemma wrote_app p r b1 b2 st st1 st2 : wrote p r b1 st st1 ->
  wrote (p + Z.of_nat (length b1)) (r - Z.of_nat (length b1)) b2 st1 st2 -> wrote p r (b1 ++ b2) st st2.
Proof.
  intros [C1 M1 B1 [A1 W1] V1] [C2 M2 B2 [A2 W2] V2]. split.
  - rewrite length_app, Nat2Z.inj_add, Z.add_assoc, Z.sub_add_distr. done.
  - rewrite store_bytes_app, M2. by apply store_bytes_meq.
  - auto.
  - split; congruence.
  - intros x Hp Hr. by rewrite V2, V1.
Qed.

(** The cursor after [n] bytes. *)
Definition moved st (p r n : Z) : cstate W :=
  mkC (<[rem := (CSize, Some (r - n))]> (<[ptr := (tp, Some (p + n))]> (vars st))) (cmem st) (answers st) (world st).

Lemma moved_wrote st p r n m bs : cursor st p r -> n = Z.of_nat (length bs) -> n <= r ->
  meq m (store_bytes (cmem st) p bs) -> (byte_mem (cmem st) -> byte_mem m) ->
  wrote p r bs st (set_mem (moved st p r n) m).
Proof.
  intros (H1 & H2 & H3 & H4 & H5) -> Hn Hm Hb. split; unfold cursor; cbn [moved set_mem vars cmem answers world]; [|done|done|done|].
  - split; [by rewrite lookup_insert_ne, lookup_insert_eq|]. split; [by rewrite lookup_insert_eq|]. lia.
  - intros x Hp Hr. by rewrite !lookup_insert_ne.
Qed.

(** Moving the cursor: [ptr += n; rem -= n;] *)
Lemma exec_move st p r e n : cursor st p r -> 0 <= n <= r -> eval st e = Ret n ->
  (forall t v, eval (set_var st ptr t v) e = eval st e) ->
  exec st [Line (SAdd ptr e); Line (SSub rem e)] = Ret (None, moved st p r n).
Proof.
  intros (H1 & H2 & H3 & H4 & H5) Hn He Hst.
  erewrite exec_next; cycle 1.
  { cbn [exec_line exec_stmt]. rewrite He. cbn [mbind outcome_bind]. by rewrite (bump_eq st ptr tp p). }
  erewrite exec_next; cycle 1.
  { cbn [exec_line exec_stmt]. rewrite Hst, He. cbn [mbind outcome_bind].
    rewrite (bump_eq _ rem CSize r); [done|]. cbn [vars set_var]. by rewrite lookup_insert_ne. }
  cbn [Cgen.exec]. unfold moved, set_var. cbn [vars cmem answers world]. rewrite tp_ptr, conv_size by lia. done.
Qed.

Lemma exec_step st p r : cursor st p r -> 1 <= r ->
  exec st [Line (SIncr ptr); Line (SDecr rem)] = Ret (None, moved st p r 1).
Proof.
  intros Hc Hr. rewrite <- (exec_move st p r (ENum 1) 1 Hc); [done|lia|done|done].
Qed.

Lemma exec_assert st op a b va vb : eval st a = Ret va -> eval st b = Ret vb ->
  (match op with Ge => vb <=? va | Eq => va =? vb end) = true ->
  exec_line fuel defines ext st (Line (SAssert op a b)) = Ret (None, st).
Proof. intros Ha Hb E. cbn [exec_line exec_stmt]. rewrite Ha, Hb. cbn [mbind outcome_bind]. by rewrite E. Qed.

Lemma eval_var st x t v : vars st !! x = Some (t, Some v) -> eval st (EVar x) = Ret v.
Proof. intros E. cbn [Cgen.eval]. by rewrite (var_eq st x t v). Qed.

Lemma exec_store st t x e tx p v : eval st e = Ret v -> vars st !! x = Some (tx, Some p) ->
  exec_line fuel defines ext st (Line (SStore t x e)) = Ret (None, set_mem st (store_ty t (cmem st) p v)).
Proof. intros He Hx. cbn [exec_line exec_stmt]. rewrite He. cbn [mbind outcome_bind]. by rewrite (var_eq st x tx p). Qed.

Lemma cursor_mem st p r m : cursor st p r -> cursor (set_mem st m) p r.
Proof. done. Qed.

(** One character. *)
Lemma write_char st p r c : cursor st p r -> 1 <= r ->
  exists st', exec st [Line (SAssert Ge (EVar rem) (ENum 1)); Line (SStore CChar ptr (EChar c));
                       Line (SIncr ptr); Line (SDecr rem)] = Ret (None, st') /\ wrote p r [u8 (code c)] st st'.
Proof.
  intros Hc Hr. pose proof Hc as (H1 & H2 & _).
  erewrite exec_next by (eapply exec_assert; [by eapply eval_var|done|by apply Z.leb_le]).
  erewrite exec_next by (by eapply exec_store).
  rewrite (exec_step _ p r) by done. eexists. split; [done|].
  apply (moved_wrote st p r 1 (store_ty CChar (cmem st) p (code c)) [u8 (code c)]); [done|done|done|..].
  - change (store_ty CChar (cmem st) p (code c)) with (store_bytes (cmem st) p [u8 (code c)]). done.
  - apply store_bytes_byte_mem.
Qed.

(** A value of type [t]; the cursor moves by the size of [step]. *)
Lemma write_value st p r t step e v : cursor st p r -> byte_mem (cmem st) -> eval st e = Ret v ->
  0 <= sizeof t <= sizeof step -> sizeof step <= r ->
  exists st', exec st [Line (SAssert Ge (EVar rem) (ESizeof step)); Line (SStore t ptr e);
                       Line (SAdd ptr (ESizeof step)); Line (SSub rem (ESizeof step))] = Ret (None, st') /\
    wrote p r (le_encode (Z.to_nat (sizeof t)) v ++
               load_bytes (cmem st) (p + sizeof t) (Z.to_nat (sizeof step - sizeof t))) st st'.
Proof.
  intros Hc Hb He Ht Hr. pose proof Hc as (H1 & H2 & _).
  erewrite exec_next by (eapply exec_assert; [by eapply eval_var|done|by apply Z.leb_le]).
  erewrite exec_next by (by eapply exec_store).
  rewrite (exec_move _ p r _ (sizeof step)) by (done || lia).
  eexists. split; [done|]. apply (moved_wrote st p r (sizeof step) (store_ty t (cmem st) p v)); [done|..].
  - rewrite length_app, length_le_encode, length_load_bytes. lia.
  - lia.
  - unfold store_ty. rewrite store_bytes_app, length_le_encode, Z2Nat.id by lia.
    set (m1 := store_bytes (cmem st) p (le_encode (Z.to_nat (sizeof t)) v)).
    assert (load_bytes (cmem st) (p + sizeof t) (Z.to_nat (sizeof step - sizeof t)) =
            load_bytes m1 (p + sizeof t) (Z.to_nat (sizeof step - sizeof t))) as ->.
    { unfold m1. rewrite load_store_bytes_ne; [done|]. rewrite length_le_encode. lia. }
    symmetry. apply store_same. unfold m1. by apply store_bytes_byte_mem.
  - intros. unfold store_ty. by apply store_bytes_byte_mem.
Qed.

(** The case where the cursor moves by the size of the value. *)
Lemma write_exact st p r t e v : cursor st p r -> byte_mem (cmem st) -> eval st e = Ret v -> 0 <= sizeof t <= r ->
  exists st', exec st [Line (SAssert Ge (EVar rem) (ESizeof t)); Line (SStore t ptr e);
                       Line (SAdd ptr (ESizeof t)); Line (SSub rem (ESizeof t))] = Ret (None, st') /\
    wrote p r (le_encode (Z.to_nat (sizeof t)) v) st st'.
Proof.
  intros Hc Hb He Ht. destruct (write_value st p r t t e v Hc Hb He) as (st' & E & Hw); [lia|lia|].
  exists st'. split; [done|]. rewrite Z.sub_diag in Hw. by rewrite app_nil_r in Hw.
Qed.

Lemma exec_memcpy st d a n vd va vn : eval st d = Ret vd -> eval st a = Ret va -> eval st n = Ret vn ->
  exec_line fuel defines ext st (Line (SMemcpy d a n)) = Ret (None, set_mem st (memcpy (cmem st) vd va vn)).
Proof.
  intros Hd Ha Hn. cbn [exec_line exec_stmt]. rewrite Hd. cbn [mbind outcome_bind]. rewrite Ha. cbn [mbind outcome_bind].
  by rewrite Hn.
Qed.

(** An expression whose value does not depend on the cursor or on memory. *)
Definition steady st (e : expr) (v : Z) : Prop :=
  forall st', (forall x, x <> ptr -> x <> rem -> vars st' !! x = vars st !! x) -> eval st' e = Ret v.

Lemma steady_var st x t v : x <> ptr -> x <> rem -> vars st !! x = Some (t, Some v) -> steady st (EVar x) v.
Proof. intros Hp Hr E st' Hst. apply (eval_var st' x t). by rewrite Hst. Qed.
Lemma steady_add st a b va vb : steady st a va -> steady st b vb -> steady st (EAdd a b) (u32 (va + vb)).
Proof. intros Ha Hb st' Hst. cbn [Cgen.eval]. by rewrite Ha, Hb. Qed.
Lemma steady_num st n : steady st (ENum n) n.
Proof. done. Qed.
Lemma steady_sizeof st t : steady st (ESizeof t) (sizeof t).
Proof. done. Qed.
Lemma steady_wrote st st1 e v p r bs : steady st e v -> wrote p r bs st st1 -> steady st1 e v.
Proof. intros He Hw st' Hst. apply He. intros x Hp Hr. rewrite Hst by done. by apply (wr_vars _ _ _ _ _ Hw). Qed.

Lemma steady_set st e v t z m : steady st e v -> eval (set_mem (set_var st ptr t z) m) e = Ret v.
Proof. intros He. apply He. intros x Hp Hr. cbn [set_mem set_var vars]. by rewrite lookup_insert_ne. Qed.

Lemma steady_mem st e v m : steady st e v -> eval (set_mem st m) e = Ret v.
Proof. intros He. by apply He. Qed.

Lemma steady_move st p r e n m : cursor st p r -> 0 <= n <= r -> steady st e n ->
  exec (set_mem st m) [Line (SAdd ptr e); Line (SSub rem e)] = Ret (None, set_mem (moved st p r n) m).
Proof.
  intros Hc Hn He. rewrite (exec_move (set_mem st m) p r e n); [done|done|lia|by apply steady_mem|].
  intros t v. rewrite (steady_mem st e n m He).
  apply (steady_set st e n t v m He).
Qed.

(** Bytes copied to the cursor. *)
Lemma write_copy st p r y ty q e k : cursor st p r -> byte_mem (cmem st) ->
  vars st !! y = Some (ty, Some q) -> steady st e k -> 0 <= k <= r ->
  exists st', exec st [Line (SAssert Ge (EVar rem) e); Line (SMemcpy (EVar ptr) (EVar y) e);
                       Line (SAdd ptr e); Line (SSub rem e)] = Ret (None, st') /\
    wrote p r (load_bytes (cmem st) q (Z.to_nat k)) st st'.
Proof.
  intros Hc Hb Hy He Hk. pose proof Hc as (H1 & H2 & _).
  erewrite exec_next by (eapply exec_assert; [by eapply eval_var|by apply He|apply Z.leb_le; lia]).
  erewrite exec_next by (eapply exec_memcpy; [by eapply eval_var|by eapply eval_var|by apply He]).
  rewrite (steady_move st p r e k) by done. eexists. split; [done|].
  destruct (memcpy_store (cmem st) p q k Hb ltac:(lia)) as [Hb' Hm'].
  apply moved_wrote; [done| |lia|done|done]. rewrite length_load_bytes. lia.
Qed.

(** Bytes with their number in front, as the client sends them. *)
Lemma write_bytes st p r y ty q n total k : cursor st p r -> byte_mem (cmem st) ->
  vars st !! y = Some (ty, Some q) -> steady st n k -> steady st total (4 + k) -> 0 <= k -> 4 + k <= r ->
  q + k <= p \/ p + 4 + k <= q ->
  exists st', exec st [Line (SAssert Ge (EVar rem) total); Line (SStore CSize ptr n);
                       Line (SMemcpy (EAdd (EVar ptr) (ESizeof CSize)) (EVar y) n);
                       Line (SAdd ptr total); Line (SSub rem total)] = Ret (None, st') /\
    wrote p r (le_encode 4 k ++ load_bytes (cmem st) q (Z.to_nat k)) st st'.
Proof.
  intros Hc Hb Hy Hn Ht Hk Hr Hd. pose proof Hc as (H1 & H2 & H3 & H4 & H5).
  erewrite exec_next by (eapply exec_assert; [by eapply eval_var|by apply Ht|apply Z.leb_le; lia]).
  erewrite exec_next by (eapply exec_store; [by apply Hn|done]).
  set (m1 := store_ty CSize (cmem st) p k).
  erewrite exec_next; cycle 1.
  { apply (exec_memcpy (set_mem st m1) _ _ _ (p + 4) q k).
    - cbn [Cgen.eval]. rewrite (var_eq _ ptr tp p) by done. cbn [mbind outcome_bind sizeof]. by rewrite u32_small by lia.
    - by apply (eval_var (set_mem st m1) y ty).
    - by apply steady_mem. }
  cbn [cmem set_mem]. change (set_mem (set_mem st m1) (memcpy m1 (p + 4) q k)) with (set_mem st (memcpy m1 (p + 4) q k)).
  rewrite (steady_move st p r total (4 + k)) by (done || lia).
  eexists. split; [done|].
  assert (byte_mem m1) as Hb1 by (by apply store_bytes_byte_mem).
  destruct (memcpy_store m1 (p + 4) q k Hb1 ltac:(lia)) as [Hb' Hm'].
  apply moved_wrote; [done| |lia| |done].
  - rewrite length_app, length_le_encode, length_load_bytes. lia.
  - rewrite store_bytes_app, length_le_encode, Hm'. change (Z.of_nat 4) with 4.
    assert (load_bytes m1 q (Z.to_nat k) = load_bytes (cmem st) q (Z.to_nat k)) as ->; [|done].
    unfold m1, store_ty. apply load_store_bytes_ne. rewrite length_le_encode. change (Z.of_nat (Z.to_nat (sizeof CSize))) with 4. lia.
Qed.

(** ** Reading through a cursor *)

(** The bytes that remain. *)
Definition rest st (p r : Z) (bs : list Z) : Prop :=
  cursor st p r /\ byte_mem (cmem st) /\ load_bytes (cmem st) p (Z.to_nat r) = bs.

Lemma rest_length st p r bs : rest st p r bs -> Z.of_nat (length bs) = r.
Proof. intros ((_ & _ & _ & Hr & _) & _ & <-). rewrite length_load_bytes. lia. Qed.

Lemma rest_take st p r bs n : rest st p r bs -> 0 <= n <= r ->
  load_bytes (cmem st) p (Z.to_nat n) = take (Z.to_nat n) bs /\
  load_bytes (cmem st) (p + n) (Z.to_nat (r - n)) = drop (Z.to_nat n) bs.
Proof.
  intros (_ & _ & <-) Hn. replace (Z.to_nat r) with (Z.to_nat n + Z.to_nat (r - n))%nat by lia.
  rewrite load_bytes_app, Z2Nat.id by lia.
  rewrite take_app_length' by (by rewrite length_load_bytes). by rewrite drop_app_length' by (by rewrite length_load_bytes).
Qed.

(** From [st] to [st'] the cursor moved over [n] bytes, and only the variables of [X] changed. *)
Record took (p r n : Z) (X : list string) st st' : Prop := {
  tk_cursor : cursor st' (p + n) (r - n);
  tk_mem : cmem st' = cmem st;
  tk_rest : answers st' = answers st /\ world st' = world st;
  tk_vars x : x <> ptr -> x <> rem -> x ∉ X -> vars st' !! x = vars st !! x
}.

Lemma moved_took st (f : gmap string (cty * option Z) -> gmap string (cty * option Z)) p r n X :
  let st1 := mkC (f (vars st)) (cmem st) (answers st) (world st) in
  cursor st1 p r -> 0 <= n <= r -> (forall x, x ∉ X -> vars st1 !! x = vars st !! x) ->
  took p r n X st (moved st1 p r n).
Proof.
  intros st1 (H1 & H2 & H3 & H4 & H5) Hn Hv. split; [|done|done|].
  - split; [|split; [|lia]]; cbn [moved vars]; [by rewrite lookup_insert_ne, lookup_insert_eq|by rewrite lookup_insert_eq].
  - intros x Hp Hr Hx. cbn [moved vars]. rewrite !lookup_insert_ne by done. by apply Hv.
Qed.

Lemma took_none p r X st : cursor st p r -> took p r 0 X st st.
Proof. intros H. split; [by rewrite Z.add_0_r, Z.sub_0_r|done|done|done]. Qed.

Lemma took_trans p r n k X Y st st1 st2 : took p r n X st st1 -> took (p + n) (r - n) k Y st1 st2 ->
  took p r (n + k) (X ++ Y) st st2.
Proof.
  intros [C1 M1 [A1 W1] V1] [C2 M2 [A2 W2] V2]. split.
  - by rewrite Z.add_assoc, Z.sub_add_distr.
  - congruence.
  - split; congruence.
  - intros x Hp Hr [Hx Hy]%not_elem_of_app. by rewrite V2, V1.
Qed.

Lemma took_rest p r n X st st' bs : rest st p r bs -> took p r n X st st' -> 0 <= n <= r ->
  rest st' (p + n) (r - n) (drop (Z.to_nat n) bs).
Proof.
  intros Hr [C M _ _] Hn. split; [done|]. destruct (rest_take st p r bs n Hr Hn) as [_ E]. destruct Hr as (_ & Hb & _).
  rewrite M. done.
Qed.

Lemma exec_fault st l ls f : exec_line fuel defines ext st l = Fault f -> exec st (l :: ls) = Fault f.
Proof. intros E. cbn [Cgen.exec]. by rewrite E. Qed.

Lemma assert_fault st op a b va vb : eval st a = Ret va -> eval st b = Ret vb ->
  (match op with Ge => vb <=? va | Eq => va =? vb end) = false ->
  exec_line fuel defines ext st (Line (SAssert op a b)) = Fault FAssert.
Proof. intros Ha Hb E. cbn [exec_line exec_stmt]. rewrite Ha, Hb. cbn [mbind outcome_bind]. by rewrite E. Qed.

Lemma code_byte c b : is_byte b -> (s8 b =? code c) = (b =? u8 (code c)).
Proof.
  intros Hb. unfold code. set (z := Z.of_N (N_of_ascii c)).
  assert (0 <= z < 256) as Hz by (unfold z; pose proof (N_ascii_bounded c); lia).
  rewrite wrap_swrap, u8_small by lia. unfold is_byte in Hb.
  assert (forall y, 0 <= y < 256 -> s8 y = if y <? 128 then y else y - 256) as Hs.
  { intros y Hy. unfold swrap. change (2 ^ (8 - 1)) with 128. change (2 ^ 8) with 256. destruct (y <? 128) eqn:E; breflect.
    - rewrite Z.mod_small; lia.
    - replace (y + 128) with (y - 128 + 1 * 256) by lia. rewrite Z.mod_add, Z.mod_small; lia. }
  rewrite !Hs by done. apply eq_true_iff_eq. rewrite !Z.eqb_eq.
  destruct (b <? 128) eqn:E1, (z <? 128) eqn:E2; breflect; lia.
Qed.

(** One character, compared with the expected one. *)
Lemma read_char st p r bs tc o c : rest st p r bs -> tc <> ptr -> tc <> rem -> vars st !! tc = Some (CChar, o) ->
  let ls := [Line (SAssert Ge (EVar rem) (ENum 1)); Line (SAssign tc (ELoad CChar ptr));
             Line (SAssert Eq (EVar tc) (EChar c)); Line (SIncr ptr); Line (SDecr rem)] in
  match bs with
  | b :: _ =>
      if b =? u8 (code c)
      then exists st' v, exec st ls = Ret (None, st') /\ took p r 1 [tc] st st' /\ vars st' !! tc = Some (CChar, v)
      else exec st ls = Fault FAssert
  | [] => exec st ls = Fault FAssert
  end.
Proof.
  intros Hrest Htp Htr Htc ls. pose proof (rest_length _ _ _ _ Hrest) as Hlen. destruct Hrest as (Hc & Hb & Hbs).
  pose proof Hc as (H1 & H2 & H3 & H4 & H5). destruct bs as [|b bs]; cbn [length] in Hlen.
  - apply exec_fault. eapply assert_fault; [by eapply eval_var|done|apply Z.leb_gt; lia].
  - assert (load8 (cmem st) p = b) as Hl.
    { replace (Z.to_nat r) with (S (length bs)) in Hbs by lia. cbn [load_bytes] in Hbs. congruence. }
    set (st1 := set_var st tc CChar (load_ty CChar (cmem st) p)).
    assert (vars st1 !! tc = Some (CChar, Some (s8 b))) as Hv1.
    { unfold st1. cbn [set_var vars]. rewrite lookup_insert_eq. unfold load_ty. change (Z.to_nat (sizeof CChar)) with 1%nat.
      cbn [conv load_bytes le_decode]. rewrite Hl, Z.mul_0_r, Z.add_0_r. rewrite <- (swrap_wrap 8 (s8 b)), wrap_swrap by lia. by rewrite swrap_wrap. }
    assert (cursor st1 p r) as Hc1.
    { unfold cursor, st1. cbn [set_var vars]. rewrite !lookup_insert_ne by done. done. }
    assert (exec st ls = exec st1 [Line (SAssert Eq (EVar tc) (EChar c)); Line (SIncr ptr); Line (SDecr rem)]) as Eq1.
    { unfold ls. erewrite exec_next by (eapply exec_assert; [by eapply eval_var|done|apply Z.leb_le; lia]).
      erewrite exec_next; [done|]. cbn [exec_line exec_stmt Cgen.eval]. rewrite (var_eq st ptr tp p) by done.
      cbn [mbind outcome_bind]. unfold ty_of. rewrite Htc. cbn. done. }
    assert (is_byte b) as Hbb by (rewrite <- Hl; by apply load8_byte).
    pose proof (code_byte c b Hbb) as Hcb. destruct (b =? u8 (code c)).
    + exists (moved st1 p r 1), (Some (s8 b)). rewrite Eq1. split; [|split].
      * erewrite exec_next by (eapply exec_assert; [by eapply eval_var|done|done]). apply exec_step; [done|lia].
      * apply (moved_took st (insert _ _)); [done|lia|].
        intros x Hx. unfold st1. cbn [set_var vars]. rewrite lookup_insert_ne; [done|]. notin.
      * cbn [moved vars]. by rewrite !lookup_insert_ne.
    + rewrite Eq1. apply exec_fault. by eapply assert_fault; [by eapply eval_var|done|].
Qed.

(** A value, into a new variable. *)
Lemma read_value st p r bs t y : rest st p r bs -> y <> ptr -> y <> rem -> 0 <= sizeof t ->
  let ls := [Line (SAssert Ge (EVar rem) (ESizeof t)); Line (SDecl t y (ELoad t ptr));
             Line (SAdd ptr (ESizeof t)); Line (SSub rem (ESizeof t))] in
  if sizeof t <=? r
  then exists st', exec st ls = Ret (None, st') /\ took p r (sizeof t) [y] st st' /\
         vars st' !! y = Some (t, Some (conv t (le_decode (take (Z.to_nat (sizeof t)) bs))))
  else exec st ls = Fault FAssert.
Proof.
  intros Hrest Hyp Hyr Ht ls. pose proof Hrest as (Hc & Hb & _). pose proof Hc as (H1 & H2 & H3 & H4 & H5).
  destruct (sizeof t <=? r) eqn:Er; cycle 1.
  { apply exec_fault. eapply assert_fault; [by eapply eval_var|done|done]. }
  breflect. destruct (rest_take st p r bs (sizeof t) Hrest ltac:(lia)) as [Htk _].
  set (st1 := set_var st y t (load_ty t (cmem st) p)).
  assert (cursor st1 p r) as Hc1.
  { unfold cursor, st1. cbn [set_var vars]. rewrite !lookup_insert_ne by done. done. }
  exists (moved st1 p r (sizeof t)). split; [|split].
  - unfold ls. erewrite exec_next by (eapply exec_assert; [by eapply eval_var|done|apply Z.leb_le; lia]).
    erewrite exec_next; cycle 1.
    { cbn [exec_line exec_stmt Cgen.eval]. rewrite (var_eq st ptr tp p) by done. cbn [mbind outcome_bind]. done. }
    by apply exec_move.
  - apply (moved_took st (insert _ _)); [done|lia|].
    intros x Hx. unfold st1. cbn [set_var vars]. rewrite lookup_insert_ne; [done|]. notin.
  - cbn [moved vars]. rewrite !lookup_insert_ne by done. unfold st1. cbn [set_var vars]. rewrite lookup_insert_eq.
    unfold load_ty. by rewrite Htk, conv_conv.
Qed.

(** Bytes left in place: a pointer to them, into a new variable. *)
Lemma read_here st p r n k t y : cursor st p r -> y <> ptr -> y <> rem -> n <> ptr -> n <> rem -> n <> y ->
  vars st !! n = Some (CSize, Some k) -> 0 <= k ->
  let ls := [Line (SAssert Ge (EVar rem) (EVar n)); Line (SDecl (CConstPtr t) y (ECast (CConstPtr t) ptr));
             Line (SAdd ptr (EVar n)); Line (SSub rem (EVar n))] in
  if k <=? r
  then exists st', exec st ls = Ret (None, st') /\ took p r k [y] st st' /\ vars st' !! y = Some (CConstPtr t, Some p)
  else exec st ls = Fault FAssert.
Proof.
  intros Hc Hyp Hyr Hnp Hnr Hny Hn Hk ls. pose proof Hc as (H1 & H2 & H3 & H4 & H5).
  destruct (k <=? r) eqn:Er; cycle 1.
  { apply exec_fault. eapply assert_fault; [by eapply eval_var|by eapply eval_var|done]. }
  breflect. set (st1 := set_var st y (CConstPtr t) p).
  assert (cursor st1 p r) as Hc1.
  { unfold cursor, st1. cbn [set_var vars]. rewrite !lookup_insert_ne by done. done. }
  exists (moved st1 p r k). split; [|split].
  - unfold ls. erewrite exec_next by (eapply exec_assert; [by eapply eval_var|by eapply eval_var|by apply Z.leb_le]).
    erewrite exec_next; cycle 1.
    { cbn [exec_line exec_stmt Cgen.eval]. rewrite (var_eq st ptr tp p) by done. cbn [mbind outcome_bind]. done. }
    assert (vars st1 !! n = Some (CSize, Some k)) as Hn1 by (unfold st1; cbn [set_var vars]; by rewrite lookup_insert_ne).
    apply (steady_move st1 p r (EVar n) k (cmem st1)); [done|lia|]. by apply (steady_var st1 n CSize k).
  - apply (moved_took st (insert _ _)); [done|lia|].
    intros x Hx. unfold st1. cbn [set_var vars]. rewrite lookup_insert_ne; [done|]. notin.
  - cbn [moved vars]. rewrite !lookup_insert_ne by done. unfold st1. cbn [set_var vars]. rewrite lookup_insert_eq.
    by rewrite conv_cptr by lia.
Qed.
End cursor.
End stubs.
