(* ===== verification/RpcgenOut.v ===== *)
(** The generator as a whole ([main] of [tools/rpcgen/rpcgen.c]): when it succeeds, and the files
    of the logger as it writes them. *)
From Stdlib Require Import Ascii String.
From S2P Require Import Prelude Mem Str Rpcgen RpcgenClaims Cgen Rpcstub RpcWire.

Lemma mapM_ret {A B} (f : A -> outcome B) l : (exists r, mapM f l = Ret r) <-> Forall (fun x => exists y, f x = Ret y) l.
Proof.
  induction l as [|x l IH]; [split; [constructor|by exists []]|]. rewrite Forall_cons, <- IH. split.
  - intros [r E]. apply mapM_cons_ret in E as (y & ys & E1 & E2 & _). split; by eexists.
  - intros [[y E1] [r E2]]. exists (y :: r). cbn [mapM]. rewrite E1. cbn [mbind outcome_bind]. by rewrite E2.
Qed.
Lemma mapM_fuel {A B} (f : A -> outcome B) l : (forall x, f x <> Fault FFuel) -> mapM f l <> Fault FFuel.
Proof.
  intros Hf. induction l as [|x l IH]; [done|]. cbn [mapM]. specialize (Hf x). destruct (f x); cbn [mbind outcome_bind]; [|by intros [= ->]].
  destruct (mapM f l); cbn [mbind outcome_bind]; [done|]. by intros [= ->].
Qed.
Lemma bind_fuel {A B} (c : outcome A) (k : A -> outcome B) : c <> Fault FFuel -> (forall a, k a <> Fault FFuel) -> (a ← c; k a) <> Fault FFuel.
Proof. intros Hc Hk. destruct c; [apply Hk|]. by intros [= ->]. Qed.
Lemma bind_ret {A B} (c : outcome A) (k : A -> outcome B) : (exists a, c = Ret a) -> (forall a, exists b, k a = Ret b) -> exists b, (a ← c; k a) = Ret b.
Proof. intros [a ->] Hk. apply Hk. Qed.

(** The functions the generator has code for: parameters with a value, a result of type void, int
    or long, no result when oneway. *)
Definition arg_typed (a : RPCArgument) : bool := match type (arg_type a) with NullType | VoidType => false | _ => true end.
Definition fn_ok (fn : RPCFunction) : bool :=
  forallb arg_typed (args fn) &&
  match type (return_type fn) with
  | VoidType => true
  | IntType | LongType => bool_decide (modifier (return_type fn) <> OneWayModifier)
  | _ => false
  end.

(** The stages in the order of [main]: the declarations of the handlers, the server's
    marshallers, the client. *)
Definition result_ok (fn : RPCFunction) : bool :=
  match type (return_type fn) with VoidType | IntType | LongType => true | _ => false end.
Definition declared (fn : RPCFunction) : bool :=
  result_ok fn && forallb (fun a => arg_typed a || bool_decide (modifier (arg_type a) = OneWayModifier)) (args fn).
Definition typed (fn : RPCFunction) : bool := forallb arg_typed (args fn).
Definition answered (fn : RPCFunction) : bool :=
  bool_decide (modifier (return_type fn) = OneWayModifier -> type (return_type fn) = VoidType).

Lemma fn_ok_stages fn : fn_ok fn = declared fn && typed fn && answered fn.
Proof.
  unfold fn_ok, declared, typed, answered, result_ok. destruct (forallb arg_typed (args fn)) eqn:E; cbn [andb].
  - rewrite (proj2 (forallb_forall _ (args fn))); [|intros a Ha; rewrite forallb_forall in E; by rewrite E].
    rewrite !andb_true_r. destruct (type (return_type fn)), (modifier (return_type fn)); done.
  - by rewrite andb_false_r.
Qed.

Ltac by_arg := intros [? [[] []]]; (done || (intros _; by eexists) || (intros [? [=]])).
Ltac fuelled := repeat first [done|apply mapM_fuel; intros [? [[] []]]; done|apply bind_fuel; [|intros ?]].
Lemma args_ret {B} (f : RPCArgument -> outcome B) l : (forall a, arg_typed a = true -> exists y, f a = Ret y) -> forallb arg_typed l = true -> exists r, mapM f l = Ret r.
Proof. intros Hf Hl. apply mapM_ret. rewrite forallb_forall in Hl. apply Forall_forall. intros a Ha. apply Hf, Hl. by apply list_elem_of_In. Qed.

Lemma client_parts_ok fn : typed fn = true -> result_ok fn = true ->
  (exists d, generate_client_marshaller_declaration fn = Ret d) /\ exists l, generate_client_marshaller_argserializer fn = Ret l.
Proof.
  destruct fn as [name [rt rm] l]. unfold typed, result_ok. cbn [args return_type type modifier]. intros Hl Hr. split.
  - unfold generate_client_marshaller_declaration. apply bind_ret; [by destruct rt; try discriminate Hr; eexists|intros ps].
    apply bind_ret; [|by eexists]. apply args_ret; [by_arg|done].
  - unfold generate_client_marshaller_argserializer. apply bind_ret; [apply args_ret; [by_arg|done]|intros]. apply bind_ret; [|by eexists].
    apply args_ret; [by_arg|done].
Qed.

Lemma generate_client_ok fn : fn_ok fn = true -> exists r, generate_client_marshaller fn = Ret r.
Proof.
  intros Hfn. rewrite fn_ok_stages, !andb_true_iff in Hfn. destruct Hfn as [[[Hr _]%andb_true_iff Ht] Ha].
  destruct (client_parts_ok fn Ht Hr) as [[d Ed] [l El]]. unfold generate_client_marshaller, client_body. rewrite Ed, El. cbn [mbind outcome_bind].
  clear Ed El. apply bind_ret; [apply bind_ret; [|by eexists]|by eexists]. destruct fn as [name [rt rm] l0].
  unfold typed, result_ok, answered in *. apply bool_decide_eq_true in Ha. cbn [args return_type type modifier] in *.
  destruct (decide (rm <> OneWayModifier)) as [Hm|Hm]; cycle 1.
  { rewrite decide_False; [by eexists|]. intros Hv. apply Hv, Ha. by apply dec_stable. }
  unfold generate_client_marshaller_resultdeserializer. apply bind_ret; [by destruct rt; try discriminate Hr; eexists|intros].
  apply bind_ret; [apply args_ret; [by_arg|done]|intros]. cbn [return_type modifier]. rewrite decide_True by done.
  apply bind_ret; [by destruct rt; try discriminate Hr; eexists|intros]. apply bind_ret; [apply args_ret; [by_arg|done]|by eexists].
Qed.

Lemma generate_server_ok fn : typed fn = true -> result_ok fn = true -> exists r, generate_marshaller fn = Ret r.
Proof.
  destruct fn as [name [rt rm] l]. unfold typed, result_ok. cbn [args return_type type modifier]. intros Hl Hr.
  unfold generate_marshaller. apply bind_ret; [|by eexists]. unfold marshaller_body.
  apply bind_ret; [|intros des; apply bind_ret; [|intros call; apply bind_ret; [|by eexists]]].
  - unfold generate_arg_deserializer. cbn [args]. destruct l as [|a l']; [by eexists|].
    apply bind_ret; [|by eexists]. apply args_ret; [by_arg|done].
  - unfold generate_handler_call. apply bind_ret; [apply args_ret; [by_arg|done]|intros].
    apply bind_ret; [by destruct rt; try discriminate Hr; eexists|intros]. apply bind_ret; [|by eexists]. apply args_ret; [by_arg|done].
  - unfold generate_result_serializer. destruct (has_result _); [|destruct (decide _); by eexists].
    apply bind_ret; [by destruct rt; try discriminate Hr; eexists|intros]. apply bind_ret; [|by eexists]. apply args_ret; [by_arg|done].
Qed.

Lemma marshaller_ok fn : fn_ok fn = true -> exists body, marshaller_body fn = Ret body.
Proof.
  intros Hfn. rewrite fn_ok_stages, !andb_true_iff in Hfn. destruct Hfn as [[[Hr _]%andb_true_iff Ht] _].
  destruct (generate_server_ok fn Ht Hr) as [r E]. unfold generate_marshaller in E. invert_ret. by eexists.
Qed.

(** What fails for the other functions is the client side. *)
Lemma generate_client_only fn r : generate_client_marshaller fn = Ret r -> fn_ok fn = true.
Proof.
  destruct fn as [name [rt rm] l]. unfold generate_client_marshaller, fn_ok. intros E. invert_ret. rename a into decl, a0 into body.
  unfold generate_client_marshaller_declaration in E0. invert_ret. cbn [args return_type type modifier] in *. apply andb_true_iff. split.
  - assert (exists gs, mapM client_arg_params l = Ret gs) as Hm by (by eexists). apply mapM_ret in Hm. apply forallb_forall. intros x Hx.
    rewrite Forall_forall in Hm. destruct (Hm x) as [y Hy]; [by apply list_elem_of_In|]. revert Hy. by destruct x as [? [[] []]].
  - destruct rt; try done; unfold client_body in E1; invert_ret; cbn [return_type type modifier] in *;
      apply bool_decide_eq_true; intros ->; rewrite decide_False in *; try done; intros Hc; by apply Hc.
Qed.

(** ** Where the generator stops *)

(** The first item a loop stops at, and what it has printed by then. *)
Lemma until_stops {A} (f : A -> outcome string) cut pre x post ts e :
  mapM f pre = Ret ts -> f x = Fault e -> until f cut (pre ++ x :: post) = cat ts +:+ cut x.
Proof.
  intros Hp Hx. revert ts Hp. induction pre as [|y pre IH]; intros ts Hp; cbn [app until].
  - injection Hp as <-. by rewrite Hx.
  - apply mapM_cons_ret in Hp as (t & ts' & Ey & Ep & ->). rewrite Ey, (IH ts') by done.
    change (cat (t :: ts')) with (t +:+ cat ts'). by rewrite append_assoc.
Qed.

Lemma mapM_stops {A B} (f : A -> outcome B) pre x post ts e :
  mapM f pre = Ret ts -> f x = Fault e -> mapM f (pre ++ x :: post) = Fault e.
Proof.
  intros Hp Hx. revert ts Hp. induction pre as [|y pre IH]; intros ts Hp; cbn [app mapM]; [by rewrite Hx|].
  apply mapM_cons_ret in Hp as (t & ts' & -> & Ep & _). cbn [mbind outcome_bind]. by rewrite (IH ts').
Qed.

Lemma mapM_fst {A B C} (f : A -> outcome (B * C)) (l : list A) (ts : list (B * C)) : mapM f l = Ret ts ->
  mapM (fun x => fst <$> f x : outcome B) l = Ret ts.*1 /\ mapM (fun x => snd <$> f x : outcome C) l = Ret ts.*2.
Proof.
  revert ts. induction l as [|x l IH]; intros ts E; [by injection E as <-|].
  apply mapM_cons_ret in E as (t & ts' & Ex & El & ->). destruct (IH _ El) as [H1 H2]. cbn [mapM]. rewrite Ex.
  cbn [fmap outcome_fmap mbind outcome_bind]. by rewrite H1, H2.
Qed.

(** The check a loop over the arguments stops at. *)
Lemma args_stop {B} (f : RPCArgument -> outcome B) (P : RPCArgument -> bool) e l :
  (forall a, if P a then exists y, f a = Ret y else f a = Fault e) ->
  (exists r, mapM f l = Ret r) /\ forallb P l = true \/ mapM f l = Fault e /\ forallb P l = false.
Proof.
  intros Hf. induction l as [|a l IH]; [by left; split; [exists []|]|]. cbn [mapM forallb]. specialize (Hf a).
  destruct (P a); [|right; by rewrite Hf]. destruct Hf as [y ->]. cbn [mbind outcome_bind andb].
  destruct IH as [[[r ->] ->]|[-> ->]]; [left; split; [by eexists|done]|by right].
Qed.

Lemma declaration_stage fn : if declared fn then exists r, generate_declaration fn = Ret r
  else generate_declaration fn = Fault (match type (return_type fn) with StringType | BlobType => FPanic | _ => FAssert end).
Proof.
  unfold generate_declaration, declared, result_ok, handler_result.
  pose proof (args_stop handler_params (fun a => arg_typed a || bool_decide (modifier (arg_type a) = OneWayModifier)) FAssert (args fn)) as Ha.
  destruct Ha as [[[r E] ->]|[E ->]]; [intros [? [[] []]]; cbn; done || by eexists| |];
    destruct (type (return_type fn)); cbn [andb mbind outcome_bind]; rewrite ?E; try done; by eexists.
Qed.

(** Past the declarations only a parameter [oneway void] is left to stop the server's side. *)
Lemma oneway_void l : forallb (fun a => arg_typed a || bool_decide (modifier (arg_type a) = OneWayModifier)) l = true ->
  (exists r, mapM arg_deserializer l = Ret r) /\ forallb arg_typed l = true \/ mapM arg_deserializer l = Fault FPanic /\ forallb arg_typed l = false.
Proof.
  induction l as [|a l IH]; [by left; split; [exists []|]|]. cbn [mapM forallb]. intros [Ha Hl]%andb_true_iff. specialize (IH Hl).
  destruct (arg_typed a) eqn:Ea; cbn [andb].
  - assert (exists y, arg_deserializer a = Ret y) as [y ->] by (clear -Ea; revert a Ea; by_arg). cbn [mbind outcome_bind].
    destruct IH as [[[r ->] ->]|[-> ->]]; [left; split; [by eexists|done]|by right].
  - right. apply bool_decide_eq_true in Ha. destruct a as [x [[] []]]; done.
Qed.

Lemma marshaller_stage fn : declared fn = true ->
  if typed fn then exists r, generate_marshaller fn = Ret r else generate_marshaller fn = Fault FPanic.
Proof.
  intros [Hr Hl]%andb_true_iff. destruct (oneway_void _ Hl) as [[_ Ht]|[E Ht]]; fold (typed fn) in Ht; rewrite Ht; [by apply generate_server_ok|].
  unfold generate_marshaller, marshaller_body, generate_arg_deserializer. unfold typed in Ht. destruct (args fn); [done|]. by rewrite E.
Qed.

Lemma client_stage fn : declared fn = true -> typed fn = true ->
  if answered fn then exists r, generate_client_marshaller fn = Ret r else generate_client_marshaller fn = Fault FPanic.
Proof.
  intros Hd Ht. destruct (answered fn) eqn:Ha; [apply generate_client_ok; by rewrite fn_ok_stages, Hd, Ht, Ha|].
  apply andb_true_iff in Hd as [Hr _]. destruct (client_parts_ok fn Ht Hr) as [[d Ed] [l El]].
  unfold generate_client_marshaller, client_body. rewrite Ed, El. cbn [mbind outcome_bind]. apply bool_decide_eq_false in Ha.
  destruct (decide (modifier (return_type fn) = OneWayModifier)) as [Hm|Hm]; [|by destruct Ha].
  rewrite decide_False by (intros Hn; by apply Hn). by rewrite decide_True by (intros Hv; by destruct Ha).
Qed.

(** A stage that passes, and one that stops. *)
Lemma stage_passes {B} (f : RPCFunction -> outcome B) (P : RPCFunction -> bool) fns :
  (forall fn, fn ∈ fns -> P fn = true -> exists r, f fn = Ret r) -> Forall (fun fn => P fn = true) fns -> exists r, mapM f fns = Ret r.
Proof. intros Hf HP. apply mapM_ret. rewrite Forall_forall in HP |- *. intros fn Hin. by apply Hf, HP. Qed.

Lemma declarations_pass fns : Forall (fun fn => declared fn = true) fns -> exists r, mapM generate_declaration fns = Ret r.
Proof. intros HP. apply (stage_passes _ declared); [|done]. intros fn _ Hd. pose proof (declaration_stage fn) as H. by rewrite Hd in H. Qed.
Lemma marshallers_pass fns : Forall (fun fn => declared fn = true) fns -> Forall (fun fn => typed fn = true) fns ->
  exists r, mapM generate_marshaller fns = Ret r.
Proof.
  intros HD HT. apply (stage_passes _ typed); [|done]. intros fn Hin Ht. rewrite Forall_forall in HD.
  pose proof (marshaller_stage fn (HD fn Hin)) as H. by rewrite Ht in H.
Qed.
Lemma clients_pass fns : Forall (fun fn => declared fn = true) fns -> Forall (fun fn => typed fn = true) fns ->
  Forall (fun fn => answered fn = true) fns -> exists r, mapM generate_client_marshaller fns = Ret r.
Proof.
  intros HD HT HA. apply (stage_passes _ answered); [|done]. intros fn Hin Ha. rewrite Forall_forall in HD, HT.
  pose proof (client_stage fn (HD fn Hin) (HT fn Hin)) as H. by rewrite Ha in H.
Qed.

(** The run on functions of which [fn] is the first that fails a stage. *)
Section stages.
Variables (comm_hf srv_hf clt_hf : string) (pre : list RPCFunction) (fn : RPCFunction) (post : list RPCFunction).
Abbreviation fns := (pre ++ fn :: post).
Abbreviation result := (generate (comm_hf, srv_hf, clt_hf) fns).

Lemma stops_declaring ts : mapM generate_declaration pre = Ret ts -> declared fn = false ->
  result = mkRun (Some (mkFiles (pragma +:+ generate_commonside fns) "" (pragma +:+ (declarations_head +:+ (cat ts +:+ declaration_cut fn))) "" pragma ""))
    (Some (match type (return_type fn) with StringType | BlobType => FPanic | _ => FAssert end)).
Proof.
  intros Hp Hd. pose proof (declaration_stage fn) as Hs. rewrite Hd in Hs. unfold generate, generate_serverside, generate_declarations.
  rewrite (mapM_stops _ _ _ _ ts _ Hp Hs). cbn [mbind outcome_bind]. by rewrite (until_stops _ _ _ _ _ ts _ Hp Hs).
Qed.

Lemma stops_marshalling ds ts : mapM generate_declaration fns = Ret ds -> mapM generate_marshaller pre = Ret ts ->
  declared fn = true -> typed fn = false ->
  exists sh, generate_declarations fns = Ret sh /\
  result = mkRun (Some (mkFiles (pragma +:+ generate_commonside fns) "" (pragma +:+ sh)
    (server_head comm_hf srv_hf +:+ (cat ts +:+ marshaller_cut fn)) pragma "")) (Some FPanic).
Proof.
  intros HD Hp Hd Ht. pose proof (marshaller_stage fn Hd) as Hs. rewrite Ht in Hs. unfold generate, generate_serverside, generate_declarations, generate_marshallers.
  rewrite HD. cbn [mbind outcome_bind]. eexists. split; [done|]. rewrite (mapM_stops _ _ _ _ ts _ Hp Hs). cbn [mbind outcome_bind].
  by rewrite (until_stops _ _ _ _ _ ts _ Hp Hs).
Qed.

Lemma stops_in_client ds ms ts : mapM generate_declaration fns = Ret ds -> mapM generate_marshaller fns = Ret ms ->
  mapM generate_client_marshaller pre = Ret ts -> declared fn = true -> typed fn = true -> answered fn = false ->
  exists sh, generate_declarations fns = Ret sh /\
  result = mkRun (Some (mkFiles (pragma +:+ generate_commonside fns) "" (pragma +:+ sh)
    (cat [server_head comm_hf srv_hf; cat ms; generate_dispatcher fns]) (pragma +:+ (cat ts.*2 +:+ ""))
    (client_head comm_hf clt_hf +:+ (cat ts.*1 +:+ client_cut fn)))) (Some FPanic).
Proof.
  intros HD HM Hp Hd Ht Ha. pose proof (client_stage fn Hd Ht) as Hs. rewrite Ha in Hs.
  unfold generate, generate_serverside, generate_declarations, generate_marshallers. rewrite HD, HM. cbn [mbind outcome_bind].
  eexists. split; [done|]. unfold generate_clientside. rewrite (mapM_stops _ _ _ _ ts _ Hp Hs).
  apply mapM_fst in Hp as [Hp1 Hp2].
  rewrite (until_stops (fun x => fst <$> generate_client_marshaller x) _ _ _ _ _ FPanic Hp1), (until_stops (fun x => snd <$> generate_client_marshaller x) _ _ _ _ _ FPanic Hp2)
    by (by rewrite Hs).
  done.
Qed.
End stages.

(** The stages passed by all functions, or by those before the first that fails. *)
Lemma first_failure (P : RPCFunction -> bool) fns : Forall (fun fn => P fn = true) fns \/
  exists pre fn post, fns = pre ++ fn :: post /\ Forall (fun fn => P fn = true) pre /\ P fn = false.
Proof.
  induction fns as [|fn fns IH]; [left; constructor|]. destruct (P fn) eqn:E; [|right; by exists [], fn, fns].
  destruct IH as [H|(pre & fn' & post & -> & H & E')]; [left; by constructor|]. right. exists (fn :: pre), fn', post. split; [done|]. by split; [constructor|].
Qed.

Lemma fns_ok_stages fns : Forall (fun fn => fn_ok fn = true) fns <->
  Forall (fun fn => declared fn = true) fns /\ Forall (fun fn => typed fn = true) fns /\ Forall (fun fn => answered fn = true) fns.
Proof.
  rewrite <- !Forall_and. apply Forall_proper; [|done]. intros fn. rewrite fn_ok_stages, !andb_true_iff. tauto.
Qed.

Lemma generate_complete comm_hf srv_hf clt_hf fns : Forall (fun fn => fn_ok fn = true) fns -> exists ds ms cs,
  generate_declarations fns = Ret ds /\ mapM generate_marshaller fns = Ret ms /\ mapM generate_client_marshaller fns = Ret cs /\
  generate (comm_hf, srv_hf, clt_hf) fns =
    mkRun (Some (mkFiles (pragma +:+ generate_commonside fns) "" (pragma +:+ ds) (cat [server_head comm_hf srv_hf; cat ms; generate_dispatcher fns])
      (pragma +:+ (generate_clientside comm_hf clt_hf fns).1.2) (cat [client_head comm_hf clt_hf; cat cs.*1; nl]))) None.
Proof.
  intros (HD & HT & HA)%fns_ok_stages. destruct (declarations_pass _ HD) as [ds Eds]. destruct (marshallers_pass _ HD HT) as [ms Ems].
  destruct (clients_pass _ HD HT HA) as [cs Ecs]. unfold generate, generate_serverside, generate_declarations, generate_marshallers, generate_clientside.
  rewrite Eds, Ems, Ecs. cbn [mbind outcome_bind]. by eexists _, ms, cs.
Qed.

Lemma generate_finishes comm_hf srv_hf clt_hf fns :
  stopped (generate (comm_hf, srv_hf, clt_hf) fns) = None <-> Forall (fun fn => fn_ok fn = true) fns.
Proof.
  split; [|intros Hf; by destruct (generate_complete comm_hf srv_hf clt_hf fns Hf) as (? & ? & ? & _ & _ & _ & ->)].
  intros E. apply fns_ok_stages. destruct (first_failure declared fns) as [HD|(pre & fn & post & -> & HD & Hd)]; cycle 1.
  { destruct (declarations_pass pre HD) as [ds Eds]. by rewrite (stops_declaring comm_hf srv_hf clt_hf pre fn post ds) in E. }
  split; [done|]. destruct (declarations_pass _ HD) as [ds Eds]. destruct (first_failure typed fns) as [HT|(pre & fn & post & -> & HT & Ht)]; cycle 1.
  { apply Forall_app in HD as [HD [Hd _]%Forall_cons]. destruct (marshallers_pass pre HD HT) as [ms Ems].
    destruct (stops_marshalling comm_hf srv_hf clt_hf pre fn post ds ms) as (sh & _ & Er); [done..|]. by rewrite Er in E. }
  split; [done|]. destruct (marshallers_pass _ HD HT) as [ms Ems]. destruct (first_failure answered fns) as [HA|(pre & fn & post & -> & HA & Ha)]; [done|].
  apply Forall_app in HD as [HD [Hd _]%Forall_cons]. apply Forall_app in HT as [HT [Ht _]%Forall_cons].
  destruct (clients_pass pre HD HT HA) as [cs Ecs].
  destruct (stops_in_client comm_hf srv_hf clt_hf pre fn post ds ms cs) as (sh & _ & Er); [done..|]. by rewrite Er in E.
Qed.


(** ** The files of the logger *)

(** Lines of a file, with ~ for a tabulator and a back quote for a quotation mark. *)
Fixpoint unescape (s : string) : string :=
  match s with
  | EmptyString => EmptyString
  | String c s => String (if decide (c = "~"%char) then ascii_of_nat 9 else if decide (c = "`"%char) then ascii_of_nat 34 else c) (unescape s)
  end.
Definition file_text (l : list string) : string := cat ((fun x => unescape x +:+ nl) <$> l).

(** [userland/logger/logger.rpc], [logger_server.c] and [logger_server.h] *)
Definition logger_rpc : string := file_text ["oneway void logger_trace(string msg);"; ""].
Definition logger_server_c : string := file_text
  ["#include <stddef.h>";
   "#include `logger_common.h`";
   "#include `logger_server.h`";
   "";
   "#if __STDC_HOSTED__";
   "#  include <stdlib.h>";
   "#  include <assert.h>";
   "#  include <string.h>";
   "#  define panic(s) assert(!(s))";
   "#else";
   "#  include <debug.h>";
   "#  include <port.h>";
   "#  include <string.h>";
   "#  include <util.h>";
   "#  ifdef KERNEL";
   "#      include `kmalloc.h`";
   "#      define malloc(s) kmalloc(s)";
   "#      define free(s) kfree(s)";
   "#  else";
   "#      include <malloc.h>";
   "#      include <runtime.h>";
   "#  endif";
   "#endif";
   "";
   "static size_t marshall_logger_trace(int sender_pid, void* resbuf, size_t resbuf_size, const void* argbuf, size_t argbuf_size)";
   "{";
   "~/* Deserialize arguments */";
   "~const unsigned char* in_ptr = argbuf;";
   "~size_t in_size = argbuf_size;";
   "~char typecode;";
   "";
   "~/* Deserialize msg */";
   "~assert(in_size >= 1); /* msg typecode */";
   "~typecode = *((const char*)in_ptr);";
   "~assert(typecode == 's');";
   "~in_ptr++;";
   "~in_size--;";
   "";
   "~assert(in_size >= sizeof(size_t));";
   "~size_t arg_msg_size = *((const size_t*)in_ptr);";
   "~in_ptr += sizeof(size_t);";
   "~in_size -= sizeof(size_t);";
   "~assert(in_size >= arg_msg_size);";
   "~const char* arg_msg = (const char*)in_ptr;";
   "~in_ptr += arg_msg_size;";
   "~in_size -= arg_msg_size;";
   "";
   "";
   "~/* Call handler */";
   "~handle_logger_trace(sender_pid, arg_msg);";
   "";
   "~return -1;";
   "}";
   "";
   "void rpc_dispatch(int port)";
   "{";
   "~struct message* snd_buf = malloc(4096);";
   "~struct message* rcv_buf = malloc(4096);";
   "~size_t snd_buf_size = 4096 - sizeof(struct message);";
   "~unsigned outsize;";
   "";
   "~while(1) {";
   "~~int ret = msgrecv(port, rcv_buf, 4096, &outsize);";
   "~~if(ret)";
   "~~~panic(`msgrecv() failed`);";
   "";
   "~~size_t result;";
   "~~switch(rcv_buf->code) {";
   "~~~case MSG_LOGGER_TRACE:";
   "~~~~result = marshall_logger_trace(";
   "~~~~~rcv_buf->sender,";
   "~~~~~snd_buf->data, snd_buf_size,";
   "~~~~~rcv_buf->data, rcv_buf->len);";
   "~~~~break;";
   "~~~default:";
   "~~~~panic(`Invalid message code 0x%X from %d`, rcv_buf->code, rcv_buf->sender);";
   "~~}";
   "";
   "~~if(result != -1) {";
   "~~~snd_buf->len = result;";
   "~~~snd_buf->reply_port = INVALID_PORT;";
   "~~~snd_buf->code = MSG_NULL;";
   "~~~ret = msgsend(rcv_buf->reply_port, snd_buf);";
   "~~~if(ret)";
   "~~~~panic(`msgsend() failed`);";
   "~~}";
   "~}";
   "}";
   ""].
Definition logger_server_h : string := file_text
  ["#pragma once";
   "";
   "/* Handlers */";
   "void handle_logger_trace(int sender_pid, const char* msg);";
   "";
   "/* dispatcher */";
   "void rpc_dispatch(int);";
   ""].

(** From the interface of the logger the generator writes exactly the server stub and the
    header that the repository keeps for it, character by character. *)
Theorem rpcgen_logger : let r := rpcgen ("logger_common.h", "logger_server.h", "logger_client.h") logger_rpc in
  stopped r = None /\ (fun f => (srv_c f, srv_h f)) <$> printed r = Some (logger_server_c, logger_server_h).
Proof. vm_compute. split; reflexivity. Qed.

