(* ===== verification/RpcServer.v ===== *)
(** The server side of the generated stubs ([tools/rpcgen/gen_server.c]): [marshall_] of a function
    reads the arguments of a request, calls the handler and writes the reply. *)
From Stdlib Require Import Ascii String.
From S2P Require Import Prelude Mem Str StrSpec Rpcgen Cgen Rpcstub RpcWire.

(** ** The wire format *)

(** What travels for a parameter: a value of its type, or the capacity of the buffer of an
    out parameter of variable size, or nothing. *)
Inductive wval : Type := VInt (z : Z) | VLong (z : Z) | VBytes (l : list Z) | VCap (n : Z) | VNone.
#[export] Instance wval_eq_dec : EqDecision wval.
Proof. solve_decision. Defined.

Definition parse_code (c : ascii) (bs : list Z) : option (list Z) :=
  match bs with b :: bs => if b =? u8 (code c) then Some bs else None | [] => None end.
Definition parse_num (n : nat) (bs : list Z) : option (Z * list Z) :=
  if (n <=? length bs)%nat then Some (le_decode (take n bs), drop n bs) else None.
Definition parse_bytes (bs : list Z) : option (list Z * list Z) :=
  '(n, bs) ← parse_num 4 bs;
  if (Z.to_nat n <=? length bs)%nat then Some (take (Z.to_nat n) bs, drop (Z.to_nat n) bs) else None.

(** A parameter of a request: a type character and a value. *)
Definition parse_arg (arg : RPCArgument) (bs : list Z) : option (wval * list Z) :=
  if is_out arg then
    match type (arg_type arg) with
    | StringType => bs ← parse_code "S" bs; '(n, bs) ← parse_num 4 bs; Some (VCap (u32 n), bs)
    | BlobType => bs ← parse_code "B" bs; '(n, bs) ← parse_num 4 bs; Some (VCap (u32 n), bs)
    | _ => Some (VNone, bs)
    end
  else
    match type (arg_type arg) with
    | IntType => bs ← parse_code "i" bs; '(n, bs) ← parse_num 4 bs; Some (VInt (s32 n), bs)
    | LongType => bs ← parse_code "l" bs; '(n, bs) ← parse_num 8 bs; Some (VLong (s64 n), bs)
    | StringType => bs ← parse_code "s" bs; '(l, bs) ← parse_bytes bs; Some (VBytes l, bs)
    | BlobType => bs ← parse_code "b" bs; '(l, bs) ← parse_bytes bs; Some (VBytes l, bs)
    | _ => None
    end.
Fixpoint parse_args (args : list RPCArgument) (bs : list Z) : option (list wval * list Z) :=
  match args with
  | [] => Some ([], bs)
  | arg :: args => '(v, bs) ← parse_arg arg bs; '(vs, bs) ← parse_args args bs; Some (v :: vs, bs)
  end.

(** ** Names *)

(** The variables [marshall_] declares for a parameter. *)
Definition server_names (arg : RPCArgument) : list string :=
  let x := arg_name arg in
  match is_out arg, type (arg_type arg) with
  | false, (StringType | BlobType) => [in_name x; in_size_name x]
  | false, _ => [in_name x]
  | true, (StringType | BlobType) => [out_name x; out_size_name x]
  | true, _ => [out_name x]
  end.
Definition server_fixed : list string :=
  ["sender_pid"; "resbuf"; "resbuf_size"; "argbuf"; "argbuf_size"; "in_ptr"; "in_size"; "typecode"; "fn_result";
   "result_ptr"; "avail"; "result"].

(** A parameter is an in parameter without modifier or an out parameter, and has a value. *)
Definition arg_ok (arg : RPCArgument) : bool :=
  match modifier (arg_type arg), type (arg_type arg) with
  | OneWayModifier, _ | _, (NullType | VoidType) => false
  | _, _ => true
  end.

(** What a reply carries for an out parameter. *)
Definition wire_out (arg : RPCArgument) (v : wval) : list Z :=
  match is_out arg, type (arg_type arg), v with
  | true, IntType, VInt z => u8 (code "I") :: le_encode 4 z
  | true, LongType, VLong z => u8 (code "L") :: le_encode 8 z
  | true, StringType, VBytes l => u8 (code "S") :: le_encode 4 (Z.of_nat (length l) + 1) ++ l ++ [0]
  | true, BlobType, VBytes l => u8 (code "B") :: le_encode 4 (Z.of_nat (length l)) ++ l
  | _, _, _ => []
  end.
(** The result of the function. For a [long] only the low half of the value is written: [stale]
    is what the reply buffer held before. *)
Definition wire_result (fn : RPCFunction) (r : Z) (stale : list Z) : list Z :=
  match type (return_type fn) with
  | IntType => u8 (code "I") :: le_encode 4 r
  | LongType => u8 (code "L") :: le_encode 4 r ++ stale
  | _ => []
  end.

Definition wire_outs (l : list RPCArgument) (vs : list wval) : list Z := concat (zip_with wire_out l vs).

Section server.
Context {W : Type}.
Variable fuel : nat.
Variable defines : string -> option Z.
Variable ext : string -> list carg -> cstate W -> outcome (Z * cstate W).
Implicit Types st : cstate W.
Local Abbreviation exec := (exec fuel defines ext).

Local Abbreviation took := (took "in_ptr" "in_size" (CConstPtr CUchar)).
Local Abbreviation rest := (rest "in_ptr" "in_size" (CConstPtr CUchar)).

(** The variables of a parameter hold a value; bytes are inside the buffer from [lo] to [hi]. *)
Definition bound st (lo hi : Z) (arg : RPCArgument) (v : wval) : Prop :=
  let x := arg_name arg in
  match is_out arg, type (arg_type arg), v with
  | false, IntType, VInt z => vars st !! in_name x = Some (CInt, Some z)
  | false, LongType, VLong z => vars st !! in_name x = Some (CLong, Some z)
  | false, StringType, VBytes l => exists q,
      vars st !! in_name x = Some (CConstPtr CChar, Some q) /\
      vars st !! in_size_name x = Some (CSize, Some (Z.of_nat (length l))) /\
      lo <= q /\ q + Z.of_nat (length l) <= hi /\ load_bytes (cmem st) q (length l) = l
  | false, BlobType, VBytes l => exists q,
      vars st !! in_name x = Some (CConstPtr CVoid, Some q) /\
      vars st !! in_size_name x = Some (CSize, Some (Z.of_nat (length l))) /\
      lo <= q /\ q + Z.of_nat (length l) <= hi /\ load_bytes (cmem st) q (length l) = l
  | true, (StringType | BlobType), VCap n => vars st !! out_size_name x = Some (CSize, Some n) /\ 0 <= n < 2 ^ 32
  | true, (IntType | LongType), VNone => True
  | _, _, _ => False
  end.

(** The type character is declared, with or without a value. *)
Definition code_var st : Prop := exists o, vars st !! "typecode" = Some (CChar, o).

Lemma exec_fault_app st l k f : exec st l = Fault f -> exec st (l ++ k) = Fault f.
Proof. intros E. by rewrite exec_app, E. Qed.
Lemma exec_then st l k st1 : exec st l = Ret (None, st1) -> exec st (l ++ k) = exec st1 k.
Proof. intros E. by rewrite exec_app, E. Qed.

Lemma in_cursor : "in_ptr" <> "in_size" /\ forall z, 0 <= z < 2 ^ 32 -> conv (CConstPtr CUchar) z = z.
Proof. split; [done|apply conv_cptr]. Qed.

Lemma typecode_then st p r bs x c k : rest st p r bs -> code_var st ->
  match parse_code c bs with
  | Some bs1 => exists st1, exec st (arg_typecode x c ++ k) = exec st1 k /\ took p r 1 ["typecode"] st st1 /\
      rest st1 (p + 1) (r - 1) bs1 /\ 1 <= r /\ code_var st1
  | None => exec st (arg_typecode x c ++ k) = Fault FAssert
  end.
Proof.
  intros Hr [o Ho]. destruct in_cursor as [Hne Hcv].
  pose proof (read_char fuel defines ext "in_ptr" "in_size" (CConstPtr CUchar) Hne Hcv st p r bs "typecode" o c
    Hr ltac:(done) ltac:(done) Ho) as H. cbv zeta in H.
  pose proof (rest_length _ _ _ _ _ _ _ Hr) as Hlen. destruct bs as [|b bs]; cbn [parse_code].
  - apply (exec_fault_app st (arg_typecode x c)). exact H.
  - cbn [length] in Hlen. destruct (b =? u8 (code c)); [|apply (exec_fault_app st (arg_typecode x c)); exact H].
    destruct H as (st1 & v & E & Ht & Hv). exists st1.
    split; [apply (exec_then st (arg_typecode x c)); exact E|]. split; [done|].
    split; [|split; [lia|by exists v]]. pose proof (took_rest _ _ _ p r 1 _ st st1 _ Hr Ht ltac:(lia)) as H1.
    done.
Qed.

Lemma value_then st p r bs t y k : rest st p r bs -> y <> "in_ptr" -> y <> "in_size" -> 0 <= sizeof t ->
  match parse_num (Z.to_nat (sizeof t)) bs with
  | Some (n, bs1) => exists st1, exec st (arg_value t y ++ k) = exec st1 k /\ took p r (sizeof t) [y] st st1 /\
      rest st1 (p + sizeof t) (r - sizeof t) bs1 /\ sizeof t <= r /\ vars st1 !! y = Some (t, Some (conv t n))
  | None => exec st (arg_value t y ++ k) = Fault FAssert
  end.
Proof.
  intros Hr Hp Hs Ht. destruct in_cursor as [Hne Hcv].
  pose proof (read_value fuel defines ext "in_ptr" "in_size" (CConstPtr CUchar) Hne Hcv st p r bs t y Hr Hp Hs Ht) as H.
  cbv zeta in H. pose proof (rest_length _ _ _ _ _ _ _ Hr) as Hlen. unfold parse_num.
  destruct (Z.to_nat (sizeof t) <=? length bs)%nat eqn:E.
  - apply Nat.leb_le in E. rewrite (proj2 (Z.leb_le _ _)) in H by lia. destruct H as (st1 & E1 & Htk & Hv). exists st1.
    split; [by apply (exec_then st (arg_value t y))|]. split; [done|]. split; [|split; [lia|done]].
    apply (took_rest _ _ _ p r (sizeof t) [y] st st1); [done|done|lia].
  - apply Nat.leb_gt in E. rewrite (proj2 (Z.leb_gt _ _)) in H by lia. by apply exec_fault_app.
Qed.

Lemma parse_u32 st p r bs n bs1 : rest st p r bs -> parse_num 4 bs = Some (n, bs1) -> n = u32 n.
Proof.
  intros (_ & Hb & <-) E. unfold parse_num in E. destruct (4 <=? _)%nat eqn:El; [|done]. injection E as <- _.
  apply Nat.leb_le in El. symmetry. apply u32_small.
  assert (Forall is_byte (take 4 (load_bytes (cmem st) p (Z.to_nat r)))) as Hf by (by apply Forall_take, load_bytes_byte).
  apply le_decode_range in Hf. rewrite length_take, Nat.min_l in Hf by done. done.
Qed.

(** The number of bytes and a pointer to them. *)
Lemma bytes_then st p r bs t x k : rest st p r bs ->
  in_name x ∉ ["in_ptr"; "in_size"; in_size_name x] -> in_size_name x ∉ ["in_ptr"; "in_size"] ->
  match parse_bytes bs with
  | Some (l, bs1) => exists st1 q, exec st (arg_bytes t x ++ k) = exec st1 k /\
      took p r (4 + Z.of_nat (length l)) [in_size_name x; in_name x] st st1 /\
      rest st1 (p + (4 + Z.of_nat (length l))) (r - (4 + Z.of_nat (length l))) bs1 /\ 4 + Z.of_nat (length l) <= r /\
      vars st1 !! in_name x = Some (CConstPtr t, Some q) /\
      vars st1 !! in_size_name x = Some (CSize, Some (Z.of_nat (length l))) /\
      q = p + 4 /\ load_bytes (cmem st1) q (length l) = l
  | None => exec st (arg_bytes t x ++ k) = Fault FAssert
  end.
Proof.
  intros Hr Hx Hsx. destruct in_cursor as [Hne Hcv]. unfold arg_bytes, parse_bytes. rewrite <- app_assoc.
  pose proof (value_then st p r bs CSize (in_size_name x)
    ([Line (SAssert Ge (EVar "in_size") (EVar (in_size_name x)));
      Line (SDecl (CConstPtr t) (in_name x) (ECast (CConstPtr t) "in_ptr"));
      Line (SAdd "in_ptr" (EVar (in_size_name x))); Line (SSub "in_size" (EVar (in_size_name x))); Blank] ++ k)
    Hr ltac:(notin) ltac:(notin) ltac:(done)) as H1.
  change (Z.to_nat (sizeof CSize)) with 4%nat in H1. change (sizeof CSize) with 4 in H1.
  destruct (parse_num 4 bs) as [[n bs1]|] eqn:En; cbn [mbind option_bind]; [|done].
  destruct H1 as (st1 & E1 & T1 & R1 & L1 & V1). rewrite E1.
  assert (0 <= u32 n < 2 ^ 32) as Hn by apply u32_range. cbn [conv] in V1.
  pose proof (rest_length _ _ _ _ _ _ _ R1) as Hlen1.
  assert (in_name x <> "in_ptr" /\ in_name x <> "in_size" /\ in_name x <> in_size_name x) as (N1 & N2 & N3) by notin.
  pose proof (read_here fuel defines ext "in_ptr" "in_size" (CConstPtr CUchar) Hne Hcv st1 (p + 4) (r - 4) (in_size_name x) (u32 n) t
    (in_name x) ltac:(apply R1) N1 N2 ltac:(notin) ltac:(notin) ltac:(done) V1 ltac:(lia)) as H2.
  cbv zeta in H2.
  rewrite <- (parse_u32 st p r bs n bs1) in * by done.
  change [Line (SAssert Ge (EVar "in_size") (EVar (in_size_name x)));
      Line (SDecl (CConstPtr t) (in_name x) (ECast (CConstPtr t) "in_ptr"));
      Line (SAdd "in_ptr" (EVar (in_size_name x))); Line (SSub "in_size" (EVar (in_size_name x))); Blank]
    with ([Line (SAssert Ge (EVar "in_size") (EVar (in_size_name x)));
      Line (SDecl (CConstPtr t) (in_name x) (ECast (CConstPtr t) "in_ptr"));
      Line (SAdd "in_ptr" (EVar (in_size_name x))); Line (SSub "in_size" (EVar (in_size_name x)))] ++ [Blank]).
  rewrite <- app_assoc.
  destruct (Z.to_nat n <=? length bs1)%nat eqn:E; cycle 1.
  { apply Nat.leb_gt in E. rewrite (proj2 (Z.leb_gt _ _)) in H2 by lia. by apply exec_fault_app. }
  apply Nat.leb_le in E. rewrite (proj2 (Z.leb_le _ _)) in H2 by lia. destruct H2 as (st2 & E2 & T2 & V2).
  exists st2, (p + 4). rewrite length_take, Nat.min_l, Z2Nat.id by lia.
  split; [by rewrite (exec_then _ _ _ _ E2)|]. split; [eapply (took_trans _ _ _ p r 4 n [in_size_name x] [in_name x]); [exact T1|exact T2]|].
  split; [|split; [lia|split; [done|]]].
  - rewrite Z.add_assoc, Z.sub_add_distr. by apply (took_rest _ _ _ _ _ _ [in_name x] st1); [..|lia].
  - split; [|split; [done|]].
    + rewrite (tk_vars _ _ _ _ _ _ _ _ _ T2); [done|notin..].
    + rewrite (tk_mem _ _ _ _ _ _ _ _ _ T2). apply (rest_take _ _ _ st1 (p + 4) (r - 4) bs1 n R1). lia.
Qed.

Lemma took_weaken p r n X Y st st1 : took p r n X st st1 -> X ⊆ Y -> took p r n Y st st1.
Proof. intros [C M R V] H. split; [done|done|done|]. intros x Hp Hr Hx. apply V; [done|done|]. by intros Hc%H. Qed.

Lemma code_var_keep p r n X st st1 : took p r n X st st1 -> "typecode" ∉ X -> code_var st -> code_var st1.
Proof. intros [_ _ _ V] HX [o Ho]. exists o. by rewrite V. Qed.

(** A type character and a number, with lines between them that do nothing. *)
Lemma scalar_then st p r bs x c mid t y k : rest st p r bs -> code_var st ->
  (forall st k, exec st (mid ++ k) = exec st k) -> y ∉ ["in_ptr"; "in_size"; "typecode"] -> 0 <= sizeof t ->
  match (bs ← parse_code c bs; parse_num (Z.to_nat (sizeof t)) bs) with
  | Some (n, bs1) => exists st1, exec st (arg_typecode x c ++ mid ++ arg_value t y ++ k) = exec st1 k /\
      took p r (1 + sizeof t) ["typecode"; y] st st1 /\ rest st1 (p + (1 + sizeof t)) (r - (1 + sizeof t)) bs1 /\
      1 + sizeof t <= r /\ code_var st1 /\ vars st1 !! y = Some (t, Some (conv t n))
  | None => exec st (arg_typecode x c ++ mid ++ arg_value t y ++ k) = Fault FAssert
  end.
Proof.
  intros Hr Hc Hmid Hy Ht. pose proof (typecode_then st p r bs x c (mid ++ arg_value t y ++ k) Hr Hc) as H1.
  destruct (parse_code c bs) as [bs1|]; cbn [mbind option_bind]; [|done].
  destruct H1 as (st1 & E1 & T1 & R1 & L1 & C1). rewrite E1, Hmid.
  pose proof (value_then st1 _ _ bs1 t y k R1 ltac:(notin) ltac:(notin) Ht) as H2.
  destruct (parse_num _ bs1) as [[n bs2]|]; [|done]. destruct H2 as (st2 & E2 & T2 & R2 & L2 & V2). exists st2.
  split; [done|]. split; [exact (took_trans _ _ _ _ _ _ _ _ _ _ _ _ T1 T2)|].
  rewrite Z.add_assoc, Z.sub_add_distr. split; [done|]. split; [lia|].
  split; [|done]. eapply code_var_keep; [exact T2|notin|done].
Qed.

(** A type character and bytes. *)
Lemma blob_then st p r bs x c t k : rest st p r bs -> code_var st ->
  in_name x ∉ ["in_ptr"; "in_size"; "typecode"; in_size_name x] -> in_size_name x ∉ ["in_ptr"; "in_size"; "typecode"] ->
  match (bs ← parse_code c bs; parse_bytes bs) with
  | Some (l, bs1) => exists st1 q, exec st (arg_typecode x c ++ arg_bytes t x ++ k) = exec st1 k /\
      took p r (5 + Z.of_nat (length l)) ["typecode"; in_size_name x; in_name x] st st1 /\
      rest st1 (p + (5 + Z.of_nat (length l))) (r - (5 + Z.of_nat (length l))) bs1 /\ 5 + Z.of_nat (length l) <= r /\
      code_var st1 /\ vars st1 !! in_name x = Some (CConstPtr t, Some q) /\
      vars st1 !! in_size_name x = Some (CSize, Some (Z.of_nat (length l))) /\
      p <= q /\ q + Z.of_nat (length l) <= p + r /\ load_bytes (cmem st1) q (length l) = l
  | None => exec st (arg_typecode x c ++ arg_bytes t x ++ k) = Fault FAssert
  end.
Proof.
  intros Hr Hc Hx Hsx. pose proof (typecode_then st p r bs x c (arg_bytes t x ++ k) Hr Hc) as H1.
  destruct (parse_code c bs) as [bs1|]; cbn [mbind option_bind]; [|done].
  destruct H1 as (st1 & E1 & T1 & R1 & L1 & C1). rewrite E1.
  pose proof (bytes_then st1 _ _ bs1 t x k R1 ltac:(notin) ltac:(notin)) as H2.
  destruct (parse_bytes bs1) as [[l bs2]|]; [|done].
  destruct H2 as (st2 & q & E2 & T2 & R2 & L2 & V2 & W2 & Hq & Hl). exists st2, q.
  split; [done|]. replace (5 + Z.of_nat (length l)) with (1 + (4 + Z.of_nat (length l))) by lia.
  split; [exact (took_trans _ _ _ _ _ _ _ _ _ _ _ _ T1 T2)|].
  rewrite Z.add_assoc, Z.sub_add_distr. split; [done|]. split; [lia|].
  split; [eapply code_var_keep; [exact T2|notin|done]|]. split; [done|]. split; [done|]. subst q. split; [lia|]. split; [lia|done].
Qed.

(** The names of a parameter are its own. *)
Definition names_ok (arg : RPCArgument) : Prop :=
  NoDup (server_names arg) /\ Forall (fun x => x ∉ server_fixed) (server_names arg).

Ltac parsed H :=
  let n := fresh "n" in let b := fresh "b" in
  destruct (parse_code _ _) as [b|]; cbn [mbind option_bind] in H |- *; [|exact H];
  first [destruct (parse_num _ b) as [[n ?]|] eqn:?| destruct (parse_bytes b) as [[n ?]|]];
  cbn [mbind option_bind] in H |- *; [|exact H].
Lemma arg_then st p r bs lo hi arg ls k : arg_ok arg = true -> arg_deserializer arg = Ret ls -> rest st p r bs ->
  lo <= p -> p + r <= hi -> code_var st -> names_ok arg ->
  match parse_arg arg bs with
  | Some (v, bs1) => exists st1 n, exec st (ls ++ k) = exec st1 k /\ took p r n ("typecode" :: server_names arg) st st1 /\
      rest st1 (p + n) (r - n) bs1 /\ 0 <= n <= r /\ code_var st1 /\ bound st1 lo hi arg v
  | None => exec st (ls ++ k) = Fault FAssert
  end.
Proof.
  intros Ha Hls Hr Hlo Hhi Hc [Hnd Hfix]. destruct arg as [x [ty md]].
  pose proof (rest_length _ _ _ _ _ _ _ Hr) as Hlen.
  assert (ls = [] -> exists st1 n, exec st (ls ++ k) = exec st1 k /\
    took p r n ("typecode" :: server_names (mkArg x (mkType ty md))) st st1 /\ rest st1 (p + n) (r - n) bs /\ 0 <= n <= r /\
    code_var st1 /\ True) as Hnone.
  { intros ->. exists st, 0. split; [done|]. split; [apply took_none, Hr|]. rewrite Z.add_0_r, Z.sub_0_r.
    split; [done|]. split; [lia|]. by split. }
  destruct md, ty; try discriminate Ha; cbn in Hls; injection Hls as <-;
    unfold server_names, parse_arg, bound, server_fixed in *; cbn [is_out arg_type modifier type arg_name] in *.
  - pose proof (scalar_then st p r bs x "i" [] CInt (in_name x) ([Blank] ++ k) Hr Hc ltac:(done) ltac:(notin) ltac:(done)) as H.
    change (Z.to_nat (sizeof CInt)) with 4%nat in H. parsed H. destruct H as (st1 & E & T & R & L & C & V).
    exists st1, 5. split; [exact E|]. by split.
  - pose proof (blob_then st p r bs x "s" CChar k Hr Hc ltac:(notin) ltac:(notin)) as H. parsed H.
    destruct H as (st1 & q & E & T & R & L & C & V & S & Q1 & Q2 & Q3). exists st1, (5 + Z.of_nat (length n)).
    split; [exact E|]. split; [eapply took_weaken; [exact T|subset]|]. split; [done|]. split; [lia|]. split; [done|].
    exists q. repeat split; (done || lia).
  - pose proof (scalar_then st p r bs x "l" [] CLong (in_name x) ([Blank] ++ k) Hr Hc ltac:(done) ltac:(notin) ltac:(done)) as H.
    change (Z.to_nat (sizeof CLong)) with 8%nat in H. parsed H. destruct H as (st1 & E & T & R & L & C & V).
    exists st1, 9. split; [exact E|]. by split.
  - pose proof (blob_then st p r bs x "b" CVoid k Hr Hc ltac:(notin) ltac:(notin)) as H. parsed H.
    destruct H as (st1 & q & E & T & R & L & C & V & S & Q1 & Q2 & Q3). exists st1, (5 + Z.of_nat (length n)).
    split; [exact E|]. split; [eapply took_weaken; [exact T|subset]|]. split; [done|]. split; [lia|]. split; [done|].
    exists q. repeat split; (done || lia).
  - exact (Hnone eq_refl).
  - pose proof (scalar_then st p r bs x "S" [Line (SComment ("Deserialize buffer size for string " +:+ x))] CSize (out_size_name x)
      ([Blank] ++ k) Hr Hc ltac:(done) ltac:(notin) ltac:(done)) as H.
    change (Z.to_nat (sizeof CSize)) with 4%nat in H. parsed H. destruct H as (st1 & E & T & R & L & C & V).
    exists st1, 5. split; [exact E|]. split; [eapply took_weaken; [exact T|subset]|]. cbn [sizeof] in L.
    split; [done|]. split; [lia|]. split; [done|]. split; [done|apply u32_range].
  - exact (Hnone eq_refl).
  - pose proof (scalar_then st p r bs x "B" [Line (SComment ("Deserialize buffer size for blob " +:+ x))] CSize (out_size_name x)
      ([Blank] ++ k) Hr Hc ltac:(done) ltac:(notin) ltac:(done)) as H.
    change (Z.to_nat (sizeof CSize)) with 4%nat in H. parsed H. destruct H as (st1 & E & T & R & L & C & V).
    exists st1, 5. split; [exact E|]. split; [eapply took_weaken; [exact T|subset]|]. cbn [sizeof] in L.
    split; [done|]. split; [lia|]. split; [done|]. split; [done|apply u32_range].
Qed.

(** ** The reply *)
Local Abbreviation wrote := (wrote "result_ptr" "avail" (CPtr CUchar)).
Local Abbreviation reply_at := (cursor "result_ptr" "avail" (CPtr CUchar)).

(** The variables of an out parameter hold a value, and its bytes avoid the buffer from [lo] to [hi]. *)
Definition filled (lo hi : Z) st (arg : RPCArgument) (v : wval) : Prop :=
  let x := arg_name arg in
  match is_out arg, type (arg_type arg), v with
  | true, IntType, VInt z => vars st !! out_name x = Some (CInt, Some z)
  | true, LongType, VLong z => vars st !! out_name x = Some (CLong, Some z)
  | true, StringType, VBytes l => exists q o,
      vars st !! out_name x = Some (CPtr CChar, Some q) /\ vars st !! out_size_name x = Some (CSize, o) /\
      str_at (cmem st) q l /\ Z.of_nat (length l) + 1 < 2 ^ 32 /\ (length l < fuel)%nat /\
      (q + Z.of_nat (length l) < lo \/ hi <= q)
  | true, BlobType, VBytes l => exists q,
      vars st !! out_name x = Some (CPtr CVoid, Some q) /\
      vars st !! out_size_name x = Some (CSize, Some (Z.of_nat (length l))) /\
      load_bytes (cmem st) q (length l) = l /\ Forall is_byte l /\ (q + Z.of_nat (length l) <= lo \/ hi <= q)
  | false, _, _ => True
  | _, _, _ => False
  end.

Lemma filled_keep lo hi st st1 arg v : filled lo hi st arg v ->
  (forall x, x ∈ server_names arg -> vars st1 !! x = vars st !! x) -> same_outside (cmem st) (cmem st1) lo hi ->
  filled lo hi st1 arg v.
Proof.
  destruct arg as [x [ty md]]. unfold filled, server_names. cbn [is_out arg_type modifier type arg_name].
  destruct md, ty, v; try done; intros Hf Hv Hm.
  - by rewrite Hv by subset_in.
  - destruct Hf as (q & o & H1 & H2 & H3 & H4 & H5 & H6). exists q, o. rewrite !Hv by subset_in.
    split; [done|]. split; [done|]. split; [|done]. by eapply str_at_frame.
  - by rewrite Hv by subset_in.
  - destruct Hf as (q & H1 & H2 & H3 & H4 & H5). exists q. rewrite !Hv by subset_in.
    split; [done|]. split; [done|]. split; [|done].
    transitivity (load_bytes (cmem st) q (length l)); [|done]. apply load_bytes_ext. intros b Hb. apply Hm. lia.
Qed.

Lemma reply_cursor : "result_ptr" <> "avail" /\ forall z, 0 <= z < 2 ^ 32 -> conv (CPtr CUchar) z = z.
Proof. split; [done|apply conv_ptr]. Qed.

Lemma reply_char st p r c k : reply_at st p r -> 1 <= r ->
  exists st1, exec st (Line (SAssert Ge (EVar "avail") (ENum 1)) :: res_typecode c ++ k) = exec st1 k /\
    wrote p r [u8 (code c)] st st1.
Proof.
  intros Hc Hr. destruct reply_cursor as [Hne Hcv].
  destruct (write_char fuel defines ext "result_ptr" "avail" (CPtr CUchar) Hne Hcv st p r c Hc Hr) as (st1 & E & Hw).
  exists st1. split; [|done]. exact (exec_then st _ k st1 E).
Qed.

Lemma reply_value st p r t e v k : reply_at st p r -> byte_mem (cmem st) -> eval fuel defines st e = Ret v ->
  0 <= sizeof t <= r -> exists st1, exec st (res_value t t e ++ k) = exec st1 k /\
    wrote p r (le_encode (Z.to_nat (sizeof t)) v) st st1.
Proof.
  intros Hc Hb He Hr. destruct reply_cursor as [Hne Hcv].
  destruct (write_exact fuel defines ext "result_ptr" "avail" (CPtr CUchar) Hne Hcv st p r t e v Hc Hb He Hr) as (st1 & E & Hw).
  exists st1. split; [|done]. exact (exec_then st _ ([Blank] ++ k) st1 E).
Qed.

(** Bytes were written at the cursor; apart from it only variables of [X] changed. *)
Record replied (p r : Z) (bs : list Z) (X : list string) st st1 : Prop := {
  rp_cursor : reply_at st1 (p + Z.of_nat (length bs)) (r - Z.of_nat (length bs));
  rp_mem : meq (cmem st1) (store_bytes (cmem st) p bs);
  rp_byte : byte_mem (cmem st) -> byte_mem (cmem st1);
  rp_rest : answers st1 = answers st /\ world st1 = world st;
  rp_vars x : x <> "result_ptr" -> x <> "avail" -> x ∉ X -> vars st1 !! x = vars st !! x
}.

Lemma wrote_replied p r bs X st st1 : wrote p r bs st st1 -> replied p r bs X st st1.
Proof. intros [C M B R V]. split; [done|done|done|done|]. intros x Hp Ha _. by apply V. Qed.

Lemma replied_app p r b1 b2 X Y st st1 st2 : replied p r b1 X st st1 ->
  replied (p + Z.of_nat (length b1)) (r - Z.of_nat (length b1)) b2 Y st1 st2 -> replied p r (b1 ++ b2) (X ++ Y) st st2.
Proof.
  intros [C1 M1 B1 [A1 W1] V1] [C2 M2 B2 [A2 W2] V2]. split.
  - by rewrite length_app, Nat2Z.inj_add, Z.add_assoc, Z.sub_add_distr.
  - rewrite store_bytes_app, M2. by apply store_bytes_meq.
  - auto.
  - split; congruence.
  - intros x Hp Hr [Hx Hy]%not_elem_of_app. by rewrite V2, V1.
Qed.

Lemma replied_same p r bs X st st1 lo hi : replied p r bs X st st1 -> lo <= p -> p + Z.of_nat (length bs) <= hi ->
  same_outside (cmem st) (cmem st1) lo hi.
Proof. intros [_ M _ _ _] Hlo Hhi c Hc. rewrite (M c). apply load8_store_bytes_out. lia. Qed.

Lemma str_at_bytes m q l : str_at m q l -> load_bytes m q (Z.to_nat (Z.of_nat (length l) + 1)) = l ++ [0].
Proof.
  intros [H1 _ H3]. replace (Z.to_nat (Z.of_nat (length l) + 1)) with (length l + 1)%nat by lia.
  rewrite load_bytes_app, H1. cbn [load_bytes]. by rewrite H3.
Qed.

(** Bytes with their number in front. *)
Lemma reply_bytes st p r x tx q n k : reply_at st p r -> byte_mem (cmem st) -> 0 <= n -> 4 + n <= r ->
  vars st !! out_name x = Some (tx, Some q) -> vars st !! out_size_name x = Some (CSize, Some n) ->
  out_name x ∉ ["result_ptr"; "avail"] -> out_size_name x ∉ ["result_ptr"; "avail"] -> q + n <= p \/ p + r <= q ->
  exists st1, exec st (res_bytes x ++ k) = exec st1 k /\
    wrote p r (le_encode 4 n ++ load_bytes (cmem st) q (Z.to_nat n)) st st1.
Proof.
  intros Hc Hb Hn Hr Hx Hs Nx Ns Hd. destruct reply_cursor as [Hne Hcv]. pose proof Hc as (H1 & H2 & _).
  destruct (write_exact fuel defines ext "result_ptr" "avail" (CPtr CUchar) Hne Hcv st p r CSize (EVar (out_size_name x)) n Hc Hb)
    as (st1 & E1 & Hw1); [by eapply eval_var|cbn; lia|].
  change (Z.to_nat (sizeof CSize)) with 4%nat in Hw1.
  pose proof (wr_cursor _ _ _ _ _ _ _ _ Hw1) as Hc1. rewrite length_le_encode in Hc1.
  destruct (write_copy fuel defines ext "result_ptr" "avail" (CPtr CUchar) Hne Hcv st1 _ _ (out_name x) tx q (EVar (out_size_name x)) n Hc1)
    as (st2 & E2 & Hw2).
  - by apply (wr_byte _ _ _ _ _ _ _ _ Hw1).
  - by rewrite (wr_vars _ _ _ _ _ _ _ _ Hw1) by notin.
  - apply (steady_var _ _ _ _ _ _ CSize); [notin|notin|]. by rewrite (wr_vars _ _ _ _ _ _ _ _ Hw1) by notin.
  - lia.
  - exists st2. split.
    + set (l1 := [Line (SStore CSize "result_ptr" (EVar (out_size_name x))); Line (SAdd "result_ptr" (ESizeof CSize));
                  Line (SSub "avail" (ESizeof CSize))]).
      assert (exec st l1 = Ret (None, st1)) as E0.
      { rewrite <- E1. symmetry. apply exec_next. eapply exec_assert; [by eapply eval_var|done|]. apply Z.leb_le. cbn. lia. }
      assert (vars st2 !! out_name x = Some (tx, Some q)) as Hx2.
      { rewrite (wr_vars _ _ _ _ _ _ _ _ Hw2), (wr_vars _ _ _ _ _ _ _ _ Hw1) by notin. done. }
      etransitivity; [exact (exec_then st l1 _ st1 E0)|]. etransitivity; [exact (exec_then st1 _ ([Line (SFree (out_name x)); Blank] ++ k) st2 E2)|].
      transitivity (exec st2 ([Blank] ++ k)); [|done].
      apply (exec_next _ _ _ st2 _ _ st2). cbn [exec_line exec_stmt]. by rewrite (var_eq _ _ _ _ Hx2).
    + apply (wrote_app _ _ _ _ _ _ _ _ st1); [done|]. rewrite length_le_encode.
      rewrite (load_bytes_ext (cmem st) (cmem st1)); [done|]. intros c Hcc. rewrite (wr_mem _ _ _ _ _ _ _ _ Hw1).
      symmetry. apply load8_store_bytes_out. rewrite length_le_encode. lia.
Qed.

Lemma replied_weaken p r bs X Y st st1 : replied p r bs X st st1 -> X ⊆ Y -> replied p r bs Y st st1.
Proof. intros [C M B R V] H. split; [done|done|done|done|]. intros x Hp Ha Hx. apply V; [done|done|]. by intros Hc%H. Qed.

Lemma replied_nil p r X st : reply_at st p r -> replied p r [] X st st.
Proof. intros H. apply wrote_replied. by apply wrote_nil. Qed.

(** A type character, then what [l] writes. *)
Lemma coded_then st p r c l k bs X : reply_at st p r -> 1 + Z.of_nat (length bs) <= r -> byte_mem (cmem st) ->
  (forall st1, wrote p r [u8 (code c)] st st1 -> reply_at st1 (p + 1) (r - 1) -> byte_mem (cmem st1) ->
     exists st2, exec st1 (l ++ k) = exec st2 k /\ replied (p + 1) (r - 1) bs X st1 st2) ->
  exists st2, exec st (Line (SAssert Ge (EVar "avail") (ENum 1)) :: res_typecode c ++ l ++ k) = exec st2 k /\
    replied p r (u8 (code c) :: bs) X st st2.
Proof.
  intros Hc Hr Hb Hl. destruct (reply_char st p r c (l ++ k) Hc ltac:(lia)) as (st1 & E1 & Hw1).
  destruct (Hl st1 Hw1) as (st2 & E2 & Hw2); [exact (wr_cursor _ _ _ _ _ _ _ _ Hw1)|by apply (wr_byte _ _ _ _ _ _ _ _ Hw1)|].
  exists st2. split; [by rewrite E1|].
  apply (replied_app p r [u8 (code c)] bs [] X st st1 st2); [by apply wrote_replied|exact Hw2].
Qed.

Lemma out_then st p r lo hi arg ls v k : arg_ok arg = true -> out_serializer arg = Ret ls -> reply_at st p r ->
  byte_mem (cmem st) -> lo <= p -> p + r <= hi -> filled lo hi st arg v -> names_ok arg ->
  Z.of_nat (length (wire_out arg v)) <= r ->
  exists st1, exec st (ls ++ k) = exec st1 k /\ replied p r (wire_out arg v) (server_names arg) st st1.
Proof.
  intros Ha Hls Hc Hb Hlo Hhi Hf [Hnd Hfix] Hr. destruct arg as [x [ty md]].
  destruct md, ty; try discriminate Ha; cbn in Hls; injection Hls as <-;
    unfold server_names, wire_out, filled, server_fixed in *; cbn [is_out arg_type modifier type arg_name] in *.
  1-4: exists st; split; [done|by apply replied_nil].
  all: destruct v as [z|z|l|n|]; try done; cbn [length] in Hr; rewrite ?length_app, ?length_le_encode in Hr; cbn [length] in Hr.
  - destruct (coded_then st p r "I" ([Blank; Line (SComment ("Serialize " +:+ x))] ++ res_value CInt CInt (EVar (out_name x))) k
      (le_encode 4 z) [out_name x] Hc) as (st2 & E & Hw); [rewrite length_le_encode; lia|done| |exists st2; by split].
    intros st1 Hw1 Hc1 Hb1. destruct (reply_value st1 (p + 1) (r - 1) CInt (EVar (out_name x)) z k Hc1 Hb1) as (st2 & E2 & Hw2).
    + apply (eval_var _ _ _ _ CInt). by rewrite (wr_vars _ _ _ _ _ _ _ _ Hw1) by notin.
    + cbn. lia.
    + exists st2. split; [exact E2|by apply wrote_replied].
  - destruct Hf as (q & o & H1 & H2 & H3 & H4 & H5 & H6).
    destruct (coded_then st p r "S" ([Blank; Line (SComment ("Serialize " +:+ x))] ++ [Line (SAssert Ge (EVar "avail") (ESizeof CSize)); Line (SAssign (out_size_name x) (EAdd (EStrlen (out_name x)) (ENum 1)))] ++ res_bytes x) k
      (le_encode 4 (Z.of_nat (length l) + 1) ++ l ++ [0]) [out_name x; out_size_name x] Hc) as (st2 & E & Hw);
      [rewrite !length_app, length_le_encode; cbn [length]; lia|done| |exists st2; by split].
    intros st1 Hw1 Hc1 Hb1. pose proof (replied_same p r _ [] st st1 lo hi (wrote_replied _ _ _ _ _ _ Hw1) Hlo ltac:(cbn; lia)) as Hs1.
    set (st2 := set_var st1 (out_size_name x) CSize (Z.of_nat (length l) + 1)).
    assert (forall y, y <> out_size_name x -> vars st2 !! y = vars st1 !! y) as Hv2.
    { intros y Hy. unfold st2. cbn [set_var vars]. by rewrite lookup_insert_ne. }
    assert (reply_at st2 (p + 1) (r - 1)) as Hc2.
    { destruct Hc1 as (C1 & C2 & C3). split; [rewrite Hv2; [done|notin]|]. split; [rewrite Hv2; [done|notin]|done]. }
    assert (str_at (cmem st1) q l) as Hstr by (by eapply str_at_frame).
    assert (vars st1 !! out_name x = Some (CPtr CChar, Some q)) as Hx1 by (by rewrite (wr_vars _ _ _ _ _ _ _ _ Hw1) by notin).
    destruct (reply_bytes st2 (p + 1) (r - 1) x (CPtr CChar) q (Z.of_nat (length l) + 1) k Hc2 Hb1) as (st3 & E3 & Hw3);
      [lia|lia|rewrite Hv2; [done|notin]| |notin|notin|lia|].
    { unfold st2. cbn [set_var vars]. by rewrite lookup_insert_eq, conv_size by lia. }
    exists st3. split.
    + rewrite <- E3. etransitivity; [apply (exec_next _ _ _ st1 Blank _ st1); done|].
      etransitivity; [apply (exec_next _ _ _ st1 (Line (SComment _)) _ st1); done|].
      etransitivity; [apply (exec_next _ _ _ st1 (Line (SAssert _ _ _)) _ st1)|].
      { eapply exec_assert; [eapply eval_var; apply Hc1|done|]. apply Z.leb_le. cbn. lia. }
      apply (exec_next _ _ _ st1 _ _ st2). cbn [exec_line exec_stmt Cgen.eval]. rewrite (var_eq _ _ _ _ Hx1).
      cbn [mbind outcome_bind]. rewrite (strlen_ok _ _ l) by (done || lia). cbn [mbind outcome_bind].
      rewrite u32_small by lia. unfold ty_of. rewrite (wr_vars _ _ _ _ _ _ _ _ Hw1) by notin. by rewrite H2.
    + apply wrote_replied with (X := []) in Hw3. destruct Hw3 as [C3 M3 B3 R3 V3].
      assert (load_bytes (cmem st2) q (Z.to_nat (Z.of_nat (length l) + 1)) = l ++ [0]) as El by (by apply str_at_bytes).
      rewrite El in C3, M3. split; [done|done|done|done|]. intros y Hp Hq Hy. rewrite V3 by notin. apply Hv2. notin.
  - destruct (coded_then st p r "L" ([Blank; Line (SComment ("Serialize " +:+ x))] ++ res_value CLong CLong (EVar (out_name x))) k
      (le_encode 8 z) [out_name x] Hc) as (st2 & E & Hw); [rewrite length_le_encode; lia|done| |exists st2; by split].
    intros st1 Hw1 Hc1 Hb1. destruct (reply_value st1 (p + 1) (r - 1) CLong (EVar (out_name x)) z k Hc1 Hb1) as (st2 & E2 & Hw2).
    + apply (eval_var _ _ _ _ CLong). by rewrite (wr_vars _ _ _ _ _ _ _ _ Hw1) by notin.
    + cbn. lia.
    + exists st2. split; [exact E2|by apply wrote_replied].
  - destruct Hf as (q & H1 & H2 & H3 & H4 & H5).
    destruct (coded_then st p r "B" ([Blank; Line (SComment ("Serialize " +:+ x))] ++ [Line (SAssert Ge (EVar "avail") (ESizeof CSize))] ++ res_bytes x) k
      (le_encode 4 (Z.of_nat (length l)) ++ l) [out_name x; out_size_name x] Hc) as (st2 & E & Hw);
      [rewrite !length_app, length_le_encode; cbn [length]; lia|done| |exists st2; by split].
    intros st1 Hw1 Hc1 Hb1. pose proof (replied_same p r _ [] st st1 lo hi (wrote_replied _ _ _ _ _ _ Hw1) Hlo ltac:(cbn; lia)) as Hs1.
    destruct (reply_bytes st1 (p + 1) (r - 1) x (CPtr CVoid) q (Z.of_nat (length l)) k Hc1 Hb1) as (st3 & E3 & Hw3);
      [lia|lia|by rewrite (wr_vars _ _ _ _ _ _ _ _ Hw1) by notin|by rewrite (wr_vars _ _ _ _ _ _ _ _ Hw1) by notin|notin|notin|lia|].
    exists st3. split.
    + rewrite <- E3. etransitivity; [apply (exec_next _ _ _ st1 Blank _ st1); done|].
      etransitivity; [apply (exec_next _ _ _ st1 (Line (SComment _)) _ st1); done|].
      apply (exec_next _ _ _ st1 (Line (SAssert _ _ _)) _ st1).
      eapply exec_assert; [eapply eval_var; apply Hc1|done|]. apply Z.leb_le. cbn. lia.
    + apply wrote_replied. rewrite Nat2Z.id in Hw3. rewrite <- H3 at 2.
      rewrite (load_bytes_ext (cmem st) (cmem st1)); [done|]. intros c Hcc. symmetry. apply Hs1. lia.
Qed.

Lemma bound_keep st st1 lo hi arg v : (forall x, x ∈ server_names arg -> vars st1 !! x = vars st !! x) ->
  cmem st1 = cmem st -> bound st lo hi arg v -> bound st1 lo hi arg v.
Proof.
  intros Hv Hm. unfold bound. destruct arg as [x [ty md]]. revert Hv. unfold server_names. cbn [is_out arg_type modifier type arg_name].
  rewrite Hm.
  destruct md, ty, v; try done; intros Hv; rewrite !Hv by (repeat ((by left) || (apply elem_of_cons; right))); done.
Qed.

Lemma args_then (l : list RPCArgument) : forall st p r bs lo hi lss k, Forall (fun a => arg_ok a = true) l ->
  mapM arg_deserializer l = Ret lss -> rest st p r bs -> lo <= p -> p + r <= hi -> code_var st ->
  NoDup (concat (server_names <$> l)) -> Forall (fun x => x ∉ server_fixed) (concat (server_names <$> l)) ->
  match parse_args l bs with
  | Some (vs, bs1) => exists st1 n, exec st (concat lss ++ k) = exec st1 k /\
      took p r n ("typecode" :: concat (server_names <$> l)) st st1 /\ Forall2 (bound st1 lo hi) l vs
  | None => exec st (concat lss ++ k) = Fault FAssert
  end.
Proof.
  induction l as [|arg l IH]; intros st p r bs lo hi lss k Hok Hls Hr Hlo Hhi Hc Hnd Hfix.
  - injection Hls as <-. exists st, 0. split; [done|]. split; [apply took_none, Hr|constructor].
  - apply mapM_cons_ret in Hls as (a & a0 & Hls0 & Hls1 & ->). apply Forall_cons in Hok as [Ha Hok]. rewrite fmap_cons in Hnd, Hfix. cbn [concat] in Hnd, Hfix.
    apply NoDup_app in Hnd as (Hnd1 & Hdis & Hnd2). apply Forall_app in Hfix as [Hf1 Hf2]. cbn [concat parse_args].
    rewrite <- app_assoc.
    pose proof (arg_then st p r bs lo hi arg a (concat a0 ++ k) Ha Hls0 Hr Hlo Hhi Hc (conj Hnd1 Hf1)) as H1.
    destruct (parse_arg arg bs) as [[v bs1]|]; cbn [mbind option_bind]; [|done].
    destruct H1 as (st1 & n & E1 & T1 & R1 & L1 & C1 & B1). rewrite E1.
    pose proof (IH st1 (p + n) (r - n) bs1 lo hi a0 k Hok Hls1 R1 ltac:(lia) ltac:(lia) C1 Hnd2 Hf2) as H2.
    destruct (parse_args l bs1) as [[vs bs2]|]; cbn [mbind option_bind]; [|done].
    destruct H2 as (st2 & n2 & E2 & T2 & B2). exists st2, (n + n2). split; [done|]. split.
    + eapply took_weaken; [exact (took_trans _ _ _ _ _ _ _ _ _ _ _ _ T1 T2)|].
      rewrite fmap_cons. cbn [concat]. intros z. rewrite !elem_of_app, !elem_of_cons, !elem_of_app. clear. tauto.
    + constructor; [|done]. apply (bound_keep st1); [|apply (tk_mem _ _ _ _ _ _ _ _ _ T2)|done].
      rewrite Forall_forall in Hf1. intros x Hx. specialize (Hf1 x Hx) as Hxf. unfold server_fixed in Hxf.
      apply (tk_vars _ _ _ _ _ _ _ _ _ T2); [by intros ->; apply Hxf; subset_in..|].
      apply not_elem_of_cons. split; [intros ->; apply Hxf; subset_in|]. by apply Hdis.
Qed.

Lemma outs_then (l : list RPCArgument) : forall st p r lo hi lss vs k, Forall (fun a => arg_ok a = true) l ->
  mapM out_serializer l = Ret lss -> reply_at st p r -> byte_mem (cmem st) -> lo <= p -> p + r <= hi ->
  Forall2 (filled lo hi st) l vs -> NoDup (concat (server_names <$> l)) ->
  Forall (fun x => x ∉ server_fixed) (concat (server_names <$> l)) -> Z.of_nat (length (wire_outs l vs)) <= r ->
  exists st1, exec st (concat lss ++ k) = exec st1 k /\ replied p r (wire_outs l vs) (concat (server_names <$> l)) st st1.
Proof.
  induction l as [|arg l IH]; intros st p r lo hi lss vs k Hok Hls Hc Hb Hlo Hhi Hf Hnd Hfix Hr.
  - injection Hls as <-. apply Forall2_nil_inv_l in Hf as ->. exists st. split; [done|by apply replied_nil].
  - apply mapM_cons_ret in Hls as (ls & lss' & Hls0 & Hls1 & ->). apply Forall_cons in Hok as [Ha Hok].
    rewrite fmap_cons in Hnd, Hfix. cbn [concat] in Hnd, Hfix. apply Forall2_cons_inv_l in Hf as (v & vs' & Hfv & Hf & ->).
    apply NoDup_app in Hnd as (Hnd1 & Hdis & Hnd2). apply Forall_app in Hfix as [Hf1 Hf2]. cbn [concat]. rewrite <- app_assoc.
    unfold wire_outs in *. cbn [zip_with concat] in *. rewrite length_app in Hr.
    destruct (out_then st p r lo hi arg ls v (concat lss' ++ k) Ha Hls0 Hc Hb Hlo Hhi Hfv (conj Hnd1 Hf1) ltac:(lia)) as (st1 & E1 & R1).
    destruct (IH st1 (p + Z.of_nat (length (wire_out arg v))) (r - Z.of_nat (length (wire_out arg v))) lo hi lss' vs' k) as (st2 & E2 & R2).
    + done.
    + done.
    + apply (rp_cursor _ _ _ _ _ _ R1).
    + by apply (rp_byte _ _ _ _ _ _ R1).
    + lia.
    + lia.
    + eapply Forall2_impl_l; [exact Hf|]. intros a w Hin Hfa. apply (filled_keep lo hi st); [done| |].
      * intros x Hx. assert (x ∈ concat (server_names <$> l)) as Hxl by (by eapply elem_concat).
        rewrite Forall_forall in Hf2. specialize (Hf2 x Hxl). unfold server_fixed in Hf2.
        apply (rp_vars _ _ _ _ _ _ R1); [by intros ->; apply Hf2; subset_in..|]. intros Hc'. by apply (Hdis x).
      * eapply replied_same; [exact R1|done|lia].
    + done.
    + done.
    + lia.
    + exists st2. split; [by rewrite E1|]. rewrite fmap_cons. cbn [concat]. by apply (replied_app p r _ _ _ _ st st1 st2).
Qed.

(** The value of the function; a [long] is stored as an [int] but takes eight bytes. *)
Lemma result_then st p r fn ls rv k : result_serializer fn = Ret ls -> reply_at st p r -> byte_mem (cmem st) ->
  let stale := load_bytes (cmem st) (p + 5) 4 in
  (type (return_type fn) <> VoidType -> exists t, vars st !! "fn_result" = Some (t, Some rv)) ->
  Z.of_nat (length (wire_result fn rv stale)) <= r ->
  exists st1, exec st (ls ++ k) = exec st1 k /\ replied p r (wire_result fn rv stale) [] st st1.
Proof.
  intros Hls Hc Hb stale Hfn Hr. unfold result_serializer in Hls. unfold wire_result in *. destruct reply_cursor as [Hne Hcv].
  destruct (type (return_type fn)) eqn:Et; try discriminate Hls; injection Hls as <-.
  - exists st. split; [done|by apply replied_nil].
  - destruct (Hfn ltac:(done)) as [t Ht]. cbn [length] in Hr. rewrite length_le_encode in Hr.
    destruct (coded_then st p r "I" (res_value CInt CInt (EVar "fn_result")) k (le_encode 4 rv) [] Hc) as (st2 & E & Hw);
      [rewrite length_le_encode; lia|done| |exists st2; by split].
    intros st1 Hw1 Hc1 Hb1. destruct (reply_value st1 (p + 1) (r - 1) CInt (EVar "fn_result") rv k Hc1 Hb1) as (st2 & E2 & Hw2).
    + apply (eval_var _ _ _ _ t). by rewrite (wr_vars _ _ _ _ _ _ _ _ Hw1).
    + cbn. lia.
    + exists st2. split; [exact E2|by apply wrote_replied].
  - destruct (Hfn ltac:(done)) as [t Ht]. cbn [length] in Hr. rewrite length_app, length_le_encode in Hr.
    unfold stale in Hr. rewrite length_load_bytes in Hr.
    destruct (coded_then st p r "L" (res_value CInt CLong (EVar "fn_result")) k (le_encode 4 rv ++ stale) [] Hc) as (st2 & E & Hw);
      [rewrite length_app, length_le_encode; unfold stale; rewrite length_load_bytes; lia|done| |exists st2; by split].
    intros st1 Hw1 Hc1 Hb1.
    destruct (write_value fuel defines ext "result_ptr" "avail" (CPtr CUchar) Hne Hcv st1 (p + 1) (r - 1) CInt CLong (EVar "fn_result") rv
      Hc1 Hb1) as (st2 & E2 & Hw2).
    + apply (eval_var _ _ _ _ t). by rewrite (wr_vars _ _ _ _ _ _ _ _ Hw1).
    + cbn. lia.
    + cbn. lia.
    + exists st2. split; [exact (exec_then st1 _ ([Blank] ++ k) st2 E2)|]. apply wrote_replied.
      cbn [sizeof] in Hw2. change (Z.to_nat 4) with 4%nat in Hw2. change (Z.to_nat (8 - 4)) with 4%nat in Hw2.
      replace stale with (load_bytes (cmem st1) (p + 1 + 4) 4); [done|]. unfold stale.
      replace (p + 5) with (p + 1 + 4) by lia. apply load_bytes_ext. intros c Hcc. rewrite (wr_mem _ _ _ _ _ _ _ _ Hw1).
      apply load8_store_bytes_out. cbn. lia.
Qed.

Lemma no_outs l vs : existsb is_out l = false -> wire_outs l vs = [].
Proof.
  revert vs. induction l as [|a l IH]; intros [|v vs]; try done. cbn [existsb]. intros [Ha Hl]%orb_false_iff.
  unfold wire_outs in *. cbn [zip_with concat]. rewrite IH by done. unfold wire_out. by rewrite Ha.
Qed.

(** What a reply holds, on top of the bytes [old] of its buffer. *)
Definition reply_data (fn : RPCFunction) (rv : Z) (outs : list wval) (old : list Z) : list Z :=
  wire_result fn rv (take 4 (drop 5 old)) ++ wire_outs (args fn) outs.
(** What [marshall_] returns: the length of the reply, or -1 when there is none. *)
Definition reply_code (fn : RPCFunction) (reply : list Z) : Z :=
  if has_result fn then Z.of_nat (length reply)
  else if decide (modifier (return_type fn) = OneWayModifier) then -1 else 0.

Lemma serialize_ok st fn ls ta a n outs rv : generate_result_serializer fn = Ret ls ->
  vars st !! "resbuf" = Some (ta, Some a) -> vars st !! "resbuf_size" = Some (CSize, Some n) ->
  0 <= a -> 9 <= n -> a + n < 2 ^ 32 -> byte_mem (cmem st) -> Forall (fun a => arg_ok a = true) (args fn) ->
  Forall2 (filled a (a + n) st) (args fn) outs -> NoDup (concat (server_names <$> args fn)) ->
  Forall (fun x => x ∉ server_fixed) (concat (server_names <$> args fn)) ->
  (type (return_type fn) <> VoidType -> exists t, vars st !! "fn_result" = Some (t, Some rv)) ->
  let reply := reply_data fn rv outs (load_bytes (cmem st) a (Z.to_nat n)) in
  Z.of_nat (length reply) <= n ->
  exists st1, exec st ls = Ret (Some (reply_code fn reply), st1) /\ meq (cmem st1) (store_bytes (cmem st) a reply) /\
    byte_mem (cmem st1) /\ answers st1 = answers st /\ world st1 = world st.
Proof.
  intros Hls Ha Hn Ha0 Hn0 Han Hb Hok Hf Hnd Hfix Hfn reply Hlen. unfold generate_result_serializer in Hls. unfold reply_code.
  destruct (has_result fn) eqn:Eh; cycle 1.
  { unfold has_result in Eh. apply orb_false_iff in Eh as [Ev Eo]. apply bool_decide_eq_false in Ev.
    assert (reply = []) as ->.
    { unfold reply, reply_data. rewrite no_outs by done. unfold wire_result. destruct (type (return_type fn)) eqn:Et; try done; by destruct Ev. }
    exists st. destruct (decide _); injection Hls as <-; cbn; done. }
  invert_ret. rename a0 into l1. rename a1 into l2. cbn [concat_lines] in *.
  set (st0 := set_var (set_var st "result_ptr" (CPtr CUchar) a) "avail" CSize n).
  assert (forall x, x <> "result_ptr" -> x <> "avail" -> vars st0 !! x = vars st !! x) as Hv0.
  { intros x Hx Hy. unfold st0. cbn [set_var vars]. by rewrite !lookup_insert_ne. }
  assert (reply_at st0 a n) as Hc0.
  { unfold reply_at, st0. cbn [set_var vars]. rewrite lookup_insert_ne, !lookup_insert_eq by done.
    rewrite conv_ptr, conv_size by lia. split; [done|]. split; [done|]. lia. }
  assert (load_bytes (cmem st0) (a + 5) 4 = take 4 (drop 5 (load_bytes (cmem st) a (Z.to_nat n)))) as Hst.
  { replace (Z.to_nat n) with (5 + (4 + Z.to_nat (n - 9)))%nat by lia. rewrite !load_bytes_app.
    rewrite drop_app_length' by (by rewrite length_load_bytes). by rewrite take_app_length' by (by rewrite length_load_bytes). }
  unfold reply, reply_data in *. rewrite <- Hst in *. rewrite length_app in Hlen.
  destruct (result_then st0 a n fn l1 rv (concat l2 ++ [Line (SDecl CSize "result" (ESub (EVar "resbuf_size") (EVar "avail"))); Line (SReturn (EVar "result"))])
    Hls0 Hc0 Hb) as (st1 & E1 & R1); [by rewrite Hv0|lia|].
  set (w1 := wire_result fn rv (load_bytes (cmem st0) (a + 5) 4)) in *.
  destruct (outs_then (args fn) st1 (a + Z.of_nat (length w1)) (n - Z.of_nat (length w1)) a (a + n) l2 outs
    [Line (SDecl CSize "result" (ESub (EVar "resbuf_size") (EVar "avail"))); Line (SReturn (EVar "result"))]) as (st2 & E2 & R2);
    [done|done|apply (rp_cursor _ _ _ _ _ _ R1)|by apply (rp_byte _ _ _ _ _ _ R1)|lia|lia| |done|done|lia|].
  { eapply Forall2_impl_l; [exact Hf|]. intros g w Hin Hfa. apply (filled_keep a (a + n) st); [done| |].
    - intros x Hx. rewrite Forall_forall in Hfix. specialize (Hfix x (elem_concat _ _ _ _ Hin Hx)). unfold server_fixed in Hfix.
      rewrite (rp_vars _ _ _ _ _ _ R1), Hv0; [done|notin..].
    - eapply (replied_same a n _ [] st0 st1); [exact R1|lia|lia]. }
  pose proof (replied_app a n w1 _ _ _ st0 st1 st2 R1 R2) as [C2 M2 B2 [A2 W2] V2].
  destruct C2 as (C2a & C2b & _). rewrite length_app in C2b.
  assert (vars st2 !! "resbuf_size" = Some (CSize, Some n)) as Hn2.
  { rewrite V2; [by rewrite Hv0|done|done|]. cbn [app]. intros Hc. rewrite Forall_forall in Hfix. specialize (Hfix _ Hc).
    unfold server_fixed in Hfix. apply Hfix. subset_in. }
  set (k := n - (Z.of_nat (length w1) + Z.of_nat (length (wire_outs (args fn) outs)))) in *.
  exists (set_var st2 "result" CSize (n - k)).
  split; [|split; [exact M2|split; [by apply B2|done]]].
  replace (n - Z.of_nat (length w1 + length (wire_outs (args fn) outs))) with k in C2b by lia.
  transitivity (exec st0 (l1 ++ concat l2 ++ [Line (SDecl CSize "result" (ESub (EVar "resbuf_size") (EVar "avail"))); Line (SReturn (EVar "result"))])).
  - etransitivity; [apply (exec_next _ _ _ st (Line (SComment _)) _ st); done|].
    etransitivity; [apply (exec_next _ _ _ st _ _ (set_var st "result_ptr" (CPtr CUchar) a))|].
    { cbn [exec_line exec_stmt Cgen.eval]. by rewrite (var_eq _ _ _ _ Ha). }
    etransitivity; [apply (exec_next _ _ _ (set_var st "result_ptr" (CPtr CUchar) a) _ _ st0)|].
    { cbn [exec_line exec_stmt Cgen.eval]. erewrite var_eq; [done|]. cbn [set_var vars]. by rewrite lookup_insert_ne. }
    apply (exec_next _ _ _ st0 Blank _ st0). done.
  - rewrite E1, E2. etransitivity; [apply (exec_next _ _ _ st2 _ _ (set_var st2 "result" CSize (n - k)))|].
    { cbn [exec_line exec_stmt Cgen.eval]. rewrite (var_eq _ _ _ _ Hn2). cbn [mbind outcome_bind]. rewrite (var_eq _ _ _ _ C2b).
      cbn [mbind outcome_bind]. by rewrite u32_small by lia. }
    cbn [Cgen.exec exec_line exec_stmt Cgen.eval]. erewrite var_eq; [|cbn [set_var vars]; apply lookup_insert_eq].
    cbn [mbind outcome_bind]. rewrite conv_size by lia. do 3 f_equal. rewrite length_app. lia.
Qed.
End server.
