(* ===== verification/RpcCall.v ===== *)
(** A remote call from end to end: the generated client stub ([gen_client.c]) sends a request, the
    generated dispatcher ([gen_server.c]) runs the handler and sends the reply. *)
From Stdlib Require Import Ascii String.
From S2P Require Import Prelude Mem Str StrSpec Ipc Rpcgen Cgen Rpcstub RpcWire RpcServer.

(** ** Handlers *)

(** What a server does for a function: from the caller and the values of its parameters (capacities
    for out parameters of variable size) the result and the values of the out parameters. *)
Definition handler : Type := string -> Z -> list wval -> Z * list wval.

(** A process: the calls its handlers got, the messages queued at its ports, the messages it sent
    with the ports they went to. *)
Record sworld : Type := mkSW {
  calls : list (string * Z * list wval);
  inbox : list (Z * message);
  outbox : list (Z * message)
}.
Abbreviation sstate := (cstate sworld).

Section handlers.
Variable fuel : nat.

(** The value a handler sees for a parameter, and the arguments left. *)
Definition read_arg (st : sstate) (arg : RPCArgument) (l : list carg) : outcome (wval * list carg) :=
  match is_out arg, type (arg_type arg), l with
  | false, IntType, AVal z :: l => Ret (VInt z, l)
  | false, LongType, AVal z :: l => Ret (VLong z, l)
  | false, StringType, AVal q :: l =>
      n ← strlen fuel (cmem st) q; Ret (VBytes (load_bytes (cmem st) q (Z.to_nat n)), l)
  | false, BlobType, AVal q :: AVal n :: l => Ret (VBytes (load_bytes (cmem st) q (Z.to_nat n)), l)
  | true, (IntType | LongType), ARef _ :: l => Ret (VNone, l)
  | true, StringType, AVal _ :: AVal n :: l => Ret (VCap n, l)
  | true, BlobType, AVal _ :: ARef y :: l => '(_, n) ← var st y; Ret (VCap n, l)
  | _, _, _ => Fault FMem
  end.
Fixpoint read_args (st : sstate) (args : list RPCArgument) (l : list carg) : outcome (list wval) :=
  match args with
  | [] => Ret []
  | arg :: args => '(v, l) ← read_arg st arg l; vs ← read_args st args l; Ret (v :: vs)
  end.

(** The handler sets an out parameter; it must respect the capacity of a buffer. *)
Definition fill_arg (st : sstate) (arg : RPCArgument) (l : list carg) (v : wval) : outcome (sstate * list carg) :=
  match is_out arg, type (arg_type arg), l, v with
  | false, (IntType | LongType | StringType), AVal _ :: l, _ => Ret (st, l)
  | false, BlobType, AVal _ :: AVal _ :: l, _ => Ret (st, l)
  | true, IntType, ARef y :: l, VInt z => Ret (set_var st y CInt z, l)
  | true, LongType, ARef y :: l, VLong z => Ret (set_var st y CLong z, l)
  | true, StringType, AVal q :: AVal n :: l, VBytes s =>
      if Z.of_nat (length s) <? n then Ret (set_mem st (store_bytes (cmem st) q (s ++ [0])), l) else Fault FMem
  | true, BlobType, AVal q :: ARef y :: l, VBytes s =>
      '(_, n) ← var st y;
      if Z.of_nat (length s) <=? n
      then Ret (set_var (set_mem st (store_bytes (cmem st) q s)) y CSize (Z.of_nat (length s)), l) else Fault FMem
  | _, _, _, _ => Fault FMem
  end.
Fixpoint fill_args (st : sstate) (args : list RPCArgument) (l : list carg) (vs : list wval) : outcome sstate :=
  match args, vs with
  | [], [] => Ret st
  | arg :: args, v :: vs => '(st, l) ← fill_arg st arg l v; fill_args st args l vs
  | _, _ => Fault FMem
  end.

Definition log_call (st : sstate) (c : string * Z * list wval) : sstate :=
  mkC (vars st) (cmem st) (answers st) (mkSW (calls (world st) ++ [c]) (inbox (world st)) (outbox (world st))).

(** A call of [handle_] of a function of the interface. *)
Definition handle_ext (fns : list RPCFunction) (H : handler) (f : string) (l : list carg) (st : sstate) : outcome (Z * sstate) :=
  match find (fun fn => bool_decide (f = "handle_" +:+ fn_name fn)) fns, l with
  | Some fn, AVal pid :: l =>
      ins ← read_args st (args fn) l;
      let '(r, outs) := H (fn_name fn) pid ins in
      st ← fill_args st (args fn) l outs;
      Ret (r, log_call st (fn_name fn, pid, ins))
  | _, _ => Fault FMem
  end.

(** What the handler sees of the value of a request: a string ends with its first NUL. *)
Fixpoint cstring (l : list Z) : list Z :=
  match l with [] => [] | c :: l => if c =? 0 then [] else c :: cstring l end.
Definition seen (arg : RPCArgument) (v : wval) : wval :=
  match is_out arg, type (arg_type arg), v with
  | false, StringType, VBytes l => VBytes (cstring l)
  | _, _, _ => v
  end.
(** A string argument that ends inside its bytes. *)
Definition terminated (arg : RPCArgument) (v : wval) : Prop :=
  match is_out arg, type (arg_type arg), v with
  | false, StringType, VBytes l => 0 ∈ l
  | _, _, _ => True
  end.

(** One parameter of a call: its value, the buffer of an out parameter of variable size, the value
    the handler gives it. *)
Record item : Type := mkItem { i_arg : RPCArgument; i_in : wval; i_buf : Z; i_out : wval }.
Definition cap (v : wval) : Z := match v with VCap n => n | _ => 0 end.

(** The handler's value fits its parameter. *)
Definition out_fits (i : item) : Prop :=
  match is_out (i_arg i), type (arg_type (i_arg i)), i_out i with
  | false, _, _ => True
  | true, IntType, VInt z => - 2 ^ 31 <= z < 2 ^ 31
  | true, LongType, VLong z => - 2 ^ 63 <= z < 2 ^ 63
  | true, StringType, VBytes l => Forall is_char l /\ Z.of_nat (length l) < cap (i_in i) /\ (length l < fuel)%nat
  | true, BlobType, VBytes l => Forall is_byte l /\ Z.of_nat (length l) <= cap (i_in i)
  | _, _, _ => False
  end.

Definition needs_buffer (arg : RPCArgument) : bool :=
  match is_out arg, type (arg_type arg) with true, (StringType | BlobType) => true | _, _ => false end.
(** The buffer of the parameter avoids the bytes from [lo] to [hi]. *)
Definition avoids (lo hi : Z) (i : item) : Prop :=
  needs_buffer (i_arg i) = true -> i_buf i + cap (i_in i) <= lo \/ hi <= i_buf i.
Fixpoint apart (l : list item) : Prop :=
  match l with
  | [] => True
  | i :: l => (needs_buffer (i_arg i) = true -> Forall (avoids (i_buf i) (i_buf i + cap (i_in i))) l) /\ apart l
  end.
(** The buffers, in the order [malloc] returns them. *)
Definition buffers (l : list item) : list Z := i_buf <$> filter (fun i => needs_buffer (i_arg i) = true) l.
Definition buffer_ok (i : item) : Prop :=
  needs_buffer (i_arg i) = true -> 0 <= i_buf i /\ i_buf i + cap (i_in i) < 2 ^ 32.
End handlers.

Section marshal.
Variable fuel : nat.
Variable defines : string -> option Z.
Variable fns : list RPCFunction.
Variable H : handler.
Implicit Types st : sstate.
Local Abbreviation ext := (handle_ext fuel fns H).
Local Abbreviation exec := (exec fuel defines ext).

(** The variables of a parameter before the call of the handler. *)
Definition declared (lo hi : Z) st (i : item) : Prop :=
  let x := arg_name (i_arg i) in
  match is_out (i_arg i), type (arg_type (i_arg i)) with
  | false, _ => bound st lo hi (i_arg i) (i_in i)
  | true, IntType => vars st !! out_name x = Some (CInt, Some 0) /\ i_in i = VNone
  | true, LongType => vars st !! out_name x = Some (CLong, Some 0) /\ i_in i = VNone
  | true, StringType =>
      vars st !! out_name x = Some (CPtr CChar, Some (i_buf i)) /\
      vars st !! out_size_name x = Some (CSize, Some (cap (i_in i))) /\ i_in i = VCap (cap (i_in i)) /\ 0 <= cap (i_in i)
  | true, BlobType =>
      vars st !! out_name x = Some (CPtr CVoid, Some (i_buf i)) /\
      vars st !! out_size_name x = Some (CSize, Some (cap (i_in i))) /\ i_in i = VCap (cap (i_in i)) /\ 0 <= cap (i_in i)
  | true, _ => False
  end.

Lemma declared_keep lo hi st st1 i : declared lo hi st i ->
  (forall x, x ∈ server_names (i_arg i) -> vars st1 !! x = vars st !! x) -> cmem st1 = cmem st -> declared lo hi st1 i.
Proof.
  destruct i as [[x [ty md]] v q o]. unfold declared, server_names. cbn [is_out arg_type modifier type arg_name i_arg i_in i_buf].
  intros Hd Hv Hm. destruct md, ty; try done; try (by eapply bound_keep); rewrite !Hv by subset_in; done.
Qed.

Lemma declare_one st lo hi i ls k ans : arg_ok (i_arg i) = true -> out_declaration (i_arg i) = Ret ls ->
  bound st lo hi (i_arg i) (i_in i) -> answers st = buffers [i] ++ ans -> buffer_ok i -> NoDup (server_names (i_arg i)) ->
  exists st1, exec st (ls ++ k) = exec st1 k /\ cmem st1 = cmem st /\ world st1 = world st /\ answers st1 = ans /\
    (forall x, x ∉ server_names (i_arg i) -> vars st1 !! x = vars st !! x) /\ declared lo hi st1 i.
Proof.
  destruct i as [[x [ty md]] v q o]. unfold server_names, buffers, buffer_ok, needs_buffer. rewrite filter_cons, filter_nil.
  unfold declared, bound, out_declaration. cbn [is_out arg_type modifier type arg_name i_arg i_in i_buf i_out].
  intros Ha Hls Hbd Hans Hbuf Hnd.
  assert (forall (X : list string) t z, out_name x ∈ X -> forall y, y ∉ X -> vars (set_var st (out_name x) t z) !! y = vars st !! y) as Hv.
  { intros X t z HX y Hy. cbn [set_var vars]. rewrite lookup_insert_ne; [done|]. by intros <-. }
  destruct md, ty; try discriminate Ha; injection Hls as <-; cbn [app fmap list_fmap] in Hans.
  1-4: exists st; repeat split; try done; by rewrite Hans.
  all: destruct v; try done.
  - exists (set_var st (out_name x) CInt 0). split; [done|]. do 3 (split; [done|]). split; [apply Hv; by left|].
    cbn [set_var vars]. by rewrite lookup_insert_eq.
  - destruct Hbd as [Hs Hn]. set (st0 := mkC (vars st) (cmem st) ans (world st)).
    exists (set_var st0 (out_name x) (CPtr CChar) q). split; [|split; [done|split; [done|split; [done|split; [apply Hv; by left|]]]]].
    + apply exec_next. cbn [exec_line exec_stmt eval]. rewrite (var_eq _ _ _ _ Hs). cbn [mbind outcome_bind]. by rewrite Hans.
    + cbn [set_var vars st0]. specialize (Hbuf eq_refl). cbn [cap] in *.
      rewrite lookup_insert_eq, lookup_insert_ne by (apply NoDup_cons in Hnd as [Hnd _]; notin). rewrite conv_ptr by lia. split_and!; (done || lia).
  - exists (set_var st (out_name x) CLong 0). split; [done|]. do 3 (split; [done|]). split; [apply Hv; by left|].
    cbn [set_var vars]. by rewrite lookup_insert_eq.
  - destruct Hbd as [Hs Hn]. set (st0 := mkC (vars st) (cmem st) ans (world st)).
    exists (set_var st0 (out_name x) (CPtr CVoid) q). split; [|split; [done|split; [done|split; [done|split; [apply Hv; by left|]]]]].
    + apply exec_next. cbn [exec_line exec_stmt eval]. rewrite (var_eq _ _ _ _ Hs). cbn [mbind outcome_bind]. by rewrite Hans.
    + cbn [set_var vars st0]. specialize (Hbuf eq_refl). cbn [cap] in *.
      rewrite lookup_insert_eq, lookup_insert_ne by (apply NoDup_cons in Hnd as [Hnd _]; notin). rewrite conv_ptr by lia. split_and!; (done || lia).
Qed.

Definition names (l : list item) : list string := concat (server_names <$> (i_arg <$> l)).

Lemma buffers_cons i l : buffers (i :: l) = buffers [i] ++ buffers l.
Proof. unfold buffers. rewrite !filter_cons, filter_nil. by destruct (decide _). Qed.

Lemma declare_all (l : list item) : forall st lo hi lss k ans, Forall (fun i => arg_ok (i_arg i) = true) l ->
  mapM out_declaration (i_arg <$> l) = Ret lss -> Forall (fun i => bound st lo hi (i_arg i) (i_in i)) l ->
  answers st = buffers l ++ ans -> Forall buffer_ok l -> NoDup (names l) ->
  exists st1, exec st (concat lss ++ k) = exec st1 k /\ cmem st1 = cmem st /\ world st1 = world st /\ answers st1 = ans /\
    (forall x, x ∉ names l -> vars st1 !! x = vars st !! x) /\ Forall (declared lo hi st1) l.
Proof.
  induction l as [|i l IH]; intros st lo hi lss k ans Hok Hls Hbd Hans Hbuf Hnd.
  - injection Hls as <-. exists st. by split_and!.
  - rewrite fmap_cons in Hls. apply mapM_cons_ret in Hls as (ls & lss' & Hls0 & Hls1 & ->).
    apply Forall_cons in Hok as [Ho1 Ho2]. apply Forall_cons in Hbd as [Hb1 Hb2]. apply Forall_cons in Hbuf as [Hf1 Hf2].
    unfold names in Hnd. rewrite !fmap_cons in Hnd. cbn [concat] in Hnd. apply NoDup_app in Hnd as (Hn1 & Hdis & Hn2).
    rewrite buffers_cons, <- app_assoc in Hans. cbn [concat]. rewrite <- app_assoc.
    destruct (declare_one st lo hi i ls (concat lss' ++ k) _ Ho1 Hls0 Hb1 Hans Hf1 Hn1) as (st1 & E1 & M1 & W1 & A1 & V1 & D1).
    destruct (IH st1 lo hi lss' k ans Ho2 Hls1) as (st2 & E2 & M2 & W2 & A2 & V2 & D2); [|done|done|done|].
    { eapply Forall_impl; [|intros j Hj; exact Hj]. rewrite Forall_forall in Hb2 |- *. intros j Hj. specialize (Hb2 j Hj).
      apply (bound_keep st); [|done|done]. intros x Hx. apply V1. intros Hc. apply (Hdis x Hc).
      apply (elem_concat server_names _ (i_arg j)); [by apply list_elem_of_fmap_2|done]. }
    exists st2. split; [by rewrite E1|]. split; [congruence|]. split; [congruence|]. split; [done|]. split.
    + unfold names. rewrite !fmap_cons. cbn [concat]. intros x [Hx1 Hx2]%not_elem_of_app. rewrite V2, V1 by done. done.
    + constructor; [|done]. apply (declared_keep lo hi st1); [done| |done]. intros x Hx. apply V2. by apply Hdis.
Qed.

Lemma cstring_at m q l : Forall is_byte l -> load_bytes m q (length l) = l -> 0 ∈ l ->
  str_at m q (cstring l) /\ (length (cstring l) < length l)%nat.
Proof.
  revert q. induction l as [|c l IH]; intros q Hb Hl Hz; [by apply not_elem_of_nil in Hz|].
  apply Forall_cons in Hb as [Hc Hb]. cbn [length load_bytes] in Hl. injection Hl as Hl1 Hl2. cbn [cstring].
  destruct (c =? 0) eqn:E; breflect.
  - split; [|cbn; lia]. apply str_at_nil. congruence.
  - apply elem_of_cons in Hz as [Hz|Hz]; [congruence|]. destruct (IH (q + 1) Hb Hl2 Hz) as [Hs Hlen].
    split; [|cbn; lia]. apply str_at_cons. split; [done|]. split; [|done]. unfold is_byte, is_char in *. lia.
Qed.

(** The arguments of the handler: how they read, and where the out values go. *)
Definition passes (i : item) (cs : list carg) : Prop :=
  let x := arg_name (i_arg i) in
  match is_out (i_arg i), type (arg_type (i_arg i)) with
  | false, _ => forall st l w, fill_arg st (i_arg i) (cs ++ l) w = Ret (st, l)
  | true, StringType => cs = [AVal (i_buf i); AVal (cap (i_in i))]
  | true, BlobType => cs = [AVal (i_buf i); ARef (out_size_name x)]
  | true, _ => cs = [ARef (out_name x)]
  end.

(** The fuel covers the strings of a request. *)
Definition fueled (i : item) : Prop := match i_in i with VBytes l => (length l <= fuel)%nat | _ => True end.

Lemma pass_one st lo hi i es : arg_ok (i_arg i) = true -> handler_arg (i_arg i) = Ret es -> declared lo hi st i ->
  terminated (i_arg i) (i_in i) -> fueled i -> byte_mem (cmem st) -> 0 <= lo -> hi < 2 ^ 32 ->
  exists cs, eval_args fuel defines st es = Ret cs /\
    (forall l, read_arg fuel st (i_arg i) (cs ++ l) = Ret (seen (i_arg i) (i_in i), l)) /\ passes i cs.
Proof.
  destruct i as [[x [ty md]] v q o]. unfold declared, terminated, fueled, passes, seen, read_arg, fill_arg, bound.
  cbn [is_out arg_type modifier type arg_name i_arg i_in i_buf i_out].
  intros Ha Hes Hd Ht Hfu Hb Hlo Hhi.
  destruct md, ty; try discriminate Ha; cbn in Hes; injection Hes as <-;
    [destruct v as [z|z|l|n|]; try done..|destruct Hd as [H1 ->]|destruct Hd as (H1 & H2 & Hv & H4)|destruct Hd as [H1 ->]|
     destruct Hd as (H1 & H2 & Hv & H4)].
  - exists [AVal z]. split; [|done]. cbn [eval_args eval_arg eval]. by rewrite (var_eq _ _ _ _ Hd).
  - destruct Hd as (p & H1 & H2 & H3 & H4 & H5).
    assert (Forall is_byte l) as Hbl by (rewrite <- H5; by apply load_bytes_byte).
    destruct (cstring_at (cmem st) p l Hbl H5 Ht) as [Hs Hlen].
    exists [AVal p]. split; [cbn [eval_args eval_arg eval]; by rewrite (var_eq _ _ _ _ H1)|]. split; [|done].
    intros l'. cbn [app]. rewrite (strlen_ok _ _ (cstring l)) by (done || lia). cbn [mbind outcome_bind]. rewrite Nat2Z.id.
    by rewrite (sa_bytes _ _ _ Hs).
  - exists [AVal z]. split; [|done]. cbn [eval_args eval_arg eval]. by rewrite (var_eq _ _ _ _ Hd).
  - destruct Hd as (p & H1 & H2 & H3 & H4 & H5). exists [AVal p; AVal (Z.of_nat (length l))].
    split; [cbn [eval_args eval_arg eval]; rewrite (var_eq _ _ _ _ H1); cbn [mbind outcome_bind]; by rewrite (var_eq _ _ _ _ H2)|].
    split; [|done]. intros l'. cbn [app]. by rewrite Nat2Z.id, H5.
  - by exists [ARef (out_name x)].
  - exists [AVal q; AVal (cap v)]. split; [|split; [intros l; cbn [app]; by rewrite <- Hv|done]].
    cbn [eval_args eval_arg eval]; rewrite (var_eq _ _ _ _ H1); cbn [mbind outcome_bind]; by rewrite (var_eq _ _ _ _ H2).
  - by exists [ARef (out_name x)].
  - exists [AVal q; ARef (out_size_name x)].
    split; [cbn [eval_args eval_arg eval]; by rewrite (var_eq _ _ _ _ H1)|]. split; [|done].
    intros l. cbn [app]. rewrite (var_eq _ _ _ _ H2). cbn [mbind outcome_bind]. by rewrite <- Hv.
Qed.

Lemma eval_args_app st l1 l2 : eval_args fuel defines st (l1 ++ l2) =
  (a ← eval_args fuel defines st l1; b ← eval_args fuel defines st l2; Ret (a ++ b)).
Proof.
  induction l1 as [|e l1 IH]; cbn [app eval_args mbind outcome_bind]; [by destruct (eval_args _ _ st l2)|].
  rewrite IH. destruct (eval_arg _ _ st e); [|done]. cbn [mbind outcome_bind]. destruct (eval_args _ _ st l1); [|done].
  cbn [mbind outcome_bind]. by destruct (eval_args _ _ st l2).
Qed.

Lemma pass_all (l : list item) : forall st lo hi ess, Forall (fun i => arg_ok (i_arg i) = true) l ->
  mapM handler_arg (i_arg <$> l) = Ret ess -> Forall (declared lo hi st) l ->
  Forall (fun i => terminated (i_arg i) (i_in i)) l -> Forall fueled l -> byte_mem (cmem st) -> 0 <= lo -> hi < 2 ^ 32 ->
  exists css, eval_args fuel defines st (concat ess) = Ret (concat css) /\
    read_args fuel st (i_arg <$> l) (concat css) = Ret ((fun i => seen (i_arg i) (i_in i)) <$> l) /\ Forall2 passes l css.
Proof.
  induction l as [|i l IH]; intros st lo hi ess Hok Hes Hd Ht Hf Hb Hlo Hhi.
  - injection Hes as <-. by exists [].
  - rewrite fmap_cons in Hes. apply mapM_cons_ret in Hes as (es & ess' & He0 & He1 & ->).
    apply Forall_cons in Hok as [Ho1 Ho2]. apply Forall_cons in Hd as [Hd1 Hd2]. apply Forall_cons in Ht as [Ht1 Ht2].
    apply Forall_cons in Hf as [Hf1 Hf2].
    destruct (pass_one st lo hi i es Ho1 He0 Hd1 Ht1 Hf1 Hb Hlo Hhi) as (cs & E1 & R1 & P1).
    destruct (IH st lo hi ess' Ho2 He1 Hd2 Ht2 Hf2 Hb Hlo Hhi) as (css & E2 & R2 & P2).
    exists (cs :: css). cbn [concat]. split; [by rewrite eval_args_app, E1, E2|]. split; [|by constructor].
    rewrite !fmap_cons. cbn [read_args]. rewrite R1. cbn [mbind outcome_bind]. by rewrite R2.
Qed.

(** The variables of an out parameter, open for the handler. *)
Definition open st (i : item) : Prop := is_out (i_arg i) = true -> declared 0 0 st i.

Lemma open_keep st st1 i : open st i -> (forall x, x ∈ server_names (i_arg i) -> vars st1 !! x = vars st !! x) -> open st1 i.
Proof.
  destruct i as [[x [ty md]] v q o]. unfold open, declared, server_names. cbn [is_out arg_type modifier type arg_name i_arg i_in i_buf].
  destruct md; try done. intros Hd Hv _. specialize (Hd eq_refl). destruct ty; try done; rewrite !Hv by subset_in; done.
Qed.

(** Memory outside the buffers of the items. *)
Definition outside (l : list item) (c : Z) : Prop :=
  Forall (fun i => needs_buffer (i_arg i) = true -> c < i_buf i \/ i_buf i + cap (i_in i) <= c) l.

Record handled (l : list item) st st1 : Prop := {
  hd_mem c : outside l c -> load8 (cmem st1) c = load8 (cmem st) c;
  hd_byte : byte_mem (cmem st) -> byte_mem (cmem st1);
  hd_rest : answers st1 = answers st /\ world st1 = world st;
  hd_vars x : x ∉ names l -> vars st1 !! x = vars st !! x
}.

Lemma fill_one st i cs l lo hi : arg_ok (i_arg i) = true -> open st i -> passes i cs -> out_fits fuel i -> buffer_ok i ->
  NoDup (server_names (i_arg i)) -> avoids lo hi i ->
  exists st1, fill_arg st (i_arg i) (cs ++ l) (i_out i) = Ret (st1, l) /\ handled [i] st st1 /\
    filled fuel lo hi st1 (i_arg i) (i_out i) /\
    (needs_buffer (i_arg i) = true -> vars st1 !! out_name (arg_name (i_arg i)) = vars st !! out_name (arg_name (i_arg i))).
Proof.
  destruct i as [[x [ty md]] v q o]. unfold open, declared, passes, out_fits, buffer_ok, avoids, filled, names.
  cbn [is_out arg_type modifier type arg_name i_arg i_in i_buf i_out].
  intros Ha Hd Hp Hf Hb Hnd Hav. destruct md; [|done|].
  { exists st. unfold fill_arg in Hp |- *. cbn [is_out arg_type modifier type arg_name] in *. by rewrite Hp. }
  specialize (Hd eq_refl). unfold fill_arg, needs_buffer, server_names in *. cbn [is_out arg_type modifier type arg_name] in *.
  destruct ty; try done; subst cs; destruct o as [z|z|s|n|]; try done; cbn [app].
  - exists (set_var st (out_name x) CInt z). split; [done|]. split.
    + split; [done|done|done|]. intros y Hy. cbn [set_var vars]. rewrite lookup_insert_ne; [done|]. intros <-. apply Hy. by left.
    + cbn [set_var vars conv]. rewrite lookup_insert_eq, s32_small by done. done.
  - destruct Hd as (H1 & H2 & Hv & H4). destruct Hf as (Hc & Hl & Hfu). specialize (Hav eq_refl). specialize (Hb eq_refl).
    rewrite (proj2 (Z.ltb_lt _ _)) by done. eexists. split; [done|]. split.
    + split; [|intros; by apply store_bytes_byte_mem|done|done]. intros c Hcc. apply Forall_cons in Hcc as [Hcc _].
      specialize (Hcc eq_refl). cbn [i_buf i_in cmem set_mem] in *. apply load8_store_bytes_out. rewrite length_app. cbn [length]. lia.
    + split; [|done]. exists q, (Some (cap v)). cbn [set_mem vars cmem]. split; [done|]. split; [done|]. split; [|split; [lia|split; [done|lia]]].
      rewrite store_bytes_app. by apply (str_at_store (cmem st) q s).
  - exists (set_var st (out_name x) CLong z). split; [done|]. split.
    + split; [done|done|done|]. intros y Hy. cbn [set_var vars]. rewrite lookup_insert_ne; [done|]. intros <-. apply Hy. by left.
    + cbn [set_var vars conv]. rewrite lookup_insert_eq. rewrite (swrap_small 64) by lia. done.
  - destruct Hd as (H1 & H2 & Hv & H4). destruct Hf as (Hc & Hl). specialize (Hav eq_refl). specialize (Hb eq_refl).
    rewrite (var_eq _ _ _ _ H2). cbn [mbind outcome_bind]. rewrite (proj2 (Z.leb_le _ _)) by done. eexists. split; [done|]. split.
    + split; [|intros; by apply store_bytes_byte_mem|done|].
      * intros c Hcc. apply Forall_cons in Hcc as [Hcc _].
        specialize (Hcc eq_refl). cbn [i_buf i_in cmem set_mem set_var] in *. apply load8_store_bytes_out. lia.
      * intros y Hy. cbn [set_var set_mem vars]. rewrite lookup_insert_ne; [done|]. intros <-. apply Hy. subset_in.
    + cbn [set_var set_mem vars cmem]. rewrite lookup_insert_eq, lookup_insert_ne by (apply NoDup_cons in Hnd as [Hnd _]; notin).
      split; [|done]. exists q. rewrite conv_size by lia. split; [done|]. split; [done|]. split; [by apply load_store_bytes_eq|]. split; [done|lia].
Qed.

(** A filled parameter stays so while its own buffer does. *)
Lemma filled_still lo hi st st1 i : open st i -> out_fits fuel i -> filled fuel lo hi st1 (i_arg i) (i_out i) -> handled [i] st st1 ->
  forall st2, (forall x, x ∈ server_names (i_arg i) -> vars st2 !! x = vars st1 !! x) ->
  (needs_buffer (i_arg i) = true -> vars st1 !! out_name (arg_name (i_arg i)) = vars st !! out_name (arg_name (i_arg i))) ->
  (needs_buffer (i_arg i) = true -> forall c, i_buf i <= c < i_buf i + cap (i_in i) -> load8 (cmem st2) c = load8 (cmem st1) c) ->
  filled fuel lo hi st2 (i_arg i) (i_out i).
Proof.
  destruct i as [[x [ty md]] v q o]. unfold open, declared, out_fits, filled, server_names, needs_buffer.
  cbn [is_out arg_type modifier type arg_name i_arg i_in i_buf i_out]. destruct md; [done|done|].
  intros Hd Hf Hfl _ st2 Hv Hx Hm. specialize (Hd eq_refl).
  destruct ty; try done; destruct o as [z|z|s|n|]; try done; rewrite ?Hv by subset_in.
  - done.
  - destruct Hd as (H1 & H2 & _). destruct Hf as (Hc & Hl & _). specialize (Hx eq_refl). specialize (Hm eq_refl).
    destruct Hfl as (q' & o' & F1 & F2 & F3 & F4). rewrite Hx, H1 in F1. injection F1 as <-. exists q, o'.
    rewrite Hx, H1. split; [done|]. split; [done|]. split; [|done]. destruct F3 as [S1 S2 S3]. split; [|done|].
    + transitivity (load_bytes (cmem st1) q (length s)); [|done]. apply load_bytes_ext. intros c Hcc. apply Hm. lia.
    + rewrite Hm by lia. done.
  - done.
  - destruct Hd as (H1 & H2 & _). destruct Hf as (Hc & Hl). specialize (Hx eq_refl). specialize (Hm eq_refl).
    destruct Hfl as (q' & F1 & F2 & F3 & F4). rewrite Hx, H1 in F1. injection F1 as <-. exists q.
    rewrite Hx, H1. split; [done|]. split; [done|]. split; [|done].
    transitivity (load_bytes (cmem st1) q (length s)); [|done]. apply load_bytes_ext. intros c Hcc. apply Hm. lia.
Qed.

Lemma fill_all (l : list item) : forall st css lo hi, Forall (fun i => arg_ok (i_arg i) = true) l -> Forall (open st) l ->
  Forall2 passes l css -> Forall (out_fits fuel) l -> Forall buffer_ok l -> apart l -> NoDup (names l) -> Forall (avoids lo hi) l ->
  exists st1, fill_args st (i_arg <$> l) (concat css) (i_out <$> l) = Ret st1 /\ handled l st st1 /\
    Forall2 (filled fuel lo hi st1) (i_arg <$> l) (i_out <$> l).
Proof.
  induction l as [|i l IH]; intros st css lo hi Hok Hop Hp Hf Hb Hap Hnd Hav.
  - exists st. apply Forall2_nil_inv_l in Hp as ->. by split_and!.
  - apply Forall2_cons_inv_l in Hp as (cs & css' & Hp1 & Hp2 & ->).
    apply Forall_cons in Hok as [Ho1 Ho2]. apply Forall_cons in Hop as [Hop1 Hop2]. apply Forall_cons in Hf as [Hf1 Hf2].
    apply Forall_cons in Hb as [Hb1 Hb2]. apply Forall_cons in Hav as [Hav1 Hav2]. destruct Hap as [Hap1 Hap2].
    unfold names in Hnd. rewrite !fmap_cons in Hnd. cbn [concat] in Hnd. apply NoDup_app in Hnd as (Hn1 & Hdis & Hn2).
    cbn [concat]. destruct (fill_one st i cs (concat css') lo hi Ho1 Hop1 Hp1 Hf1 Hb1 Hn1 Hav1) as (st1 & E1 & H1 & F1 & N1).
    destruct (IH st1 css' lo hi Ho2) as (st2 & E2 & H2 & F2); try done.
    { rewrite Forall_forall in Hop2 |- *. intros j Hj. apply (open_keep st); [by apply Hop2|]. intros x Hx.
      apply (hd_vars _ _ _ H1). unfold names. rewrite fmap_cons. cbn. rewrite app_nil_r. intros Hc. apply (Hdis x Hc).
      apply (elem_concat server_names _ (i_arg j)); [by apply list_elem_of_fmap_2|done]. }
    exists st2. rewrite !fmap_cons. cbn [fill_args]. rewrite E1. cbn [mbind outcome_bind]. split; [done|]. split.
    + destruct H1 as [M1 B1 [A1 W1] V1], H2 as [M2 B2 [A2 W2] V2]. split.
      * intros c [Hc1 Hc2]%Forall_cons. rewrite M2, M1; [done| |done]. apply Forall_cons. split; [done|constructor].
      * auto.
      * split; congruence.
      * unfold names in *. rewrite !fmap_cons in *. cbn [concat] in *. intros x [Hx1 Hx2]%not_elem_of_app.
        rewrite V2, V1; [done| |done]. by rewrite app_nil_r.
    + constructor; [|done].
      apply (filled_still lo hi st st1 i Hop1 Hf1 F1 H1 st2).
      * intros x Hx. apply (hd_vars _ _ _ H2). by apply Hdis.
      * done.
      * intros Hnb c Hc. apply (hd_mem _ _ _ H2). specialize (Hap1 Hnb). eapply Forall_impl; [exact Hap1|]. intros j Hj Hnj.
        specialize (Hj Hnj). lia.
Qed.

(** The parameters of [marshall_]. *)
Definition entered st (pid a n b m : Z) : Prop :=
  vars st !! "sender_pid" = Some (CInt, Some pid) /\ vars st !! "resbuf" = Some (CPtr CVoid, Some a) /\
  vars st !! "resbuf_size" = Some (CSize, Some n) /\ vars st !! "argbuf" = Some (CConstPtr CVoid, Some b) /\
  vars st !! "argbuf_size" = Some (CSize, Some m).

Definition own_names (fn : RPCFunction) : Prop :=
  Forall (fun a => arg_ok a = true) (args fn) /\ NoDup (concat (server_names <$> args fn)) /\
  Forall (fun x => x ∉ server_fixed) (concat (server_names <$> args fn)).

Lemma deserialize_ok (hx : string -> list carg -> sstate -> outcome (Z * sstate)) st fn ls k pid a n b m : generate_arg_deserializer fn = Ret ls -> own_names fn ->
  entered st pid a n b m -> 0 <= b -> 0 <= m -> b + m < 2 ^ 32 -> byte_mem (cmem st) ->
  match parse_args (args fn) (load_bytes (cmem st) b (Z.to_nat m)) with
  | Some (vs, _) => exists st1, Cgen.exec fuel defines hx st (ls ++ k) = Cgen.exec fuel defines hx st1 k /\ cmem st1 = cmem st /\ answers st1 = answers st /\
      world st1 = world st /\ Forall2 (bound st1 b (b + m)) (args fn) vs /\
      (forall x, x ∉ ["in_ptr"; "in_size"; "typecode"] -> x ∉ concat (server_names <$> args fn) -> vars st1 !! x = vars st !! x)
  | None => Cgen.exec fuel defines hx st (ls ++ k) = Fault FAssert
  end.
Proof.
  intros Hls (Hok & Hnd & Hfix) (_ & _ & _ & Hb1 & Hm1) Hb0 Hm0 Hbm Hbyte. unfold generate_arg_deserializer in Hls.
  destruct (args fn) as [|arg rest] eqn:Eargs; [injection Hls as <-; by exists st; split_and!|]. rewrite <- Eargs in *. clear Eargs.
  invert_ret. rename a0 into lss. unfold concat_lines.
  set (st0 := mkC (<["typecode" := (CChar, None)]> (vars (set_var (set_var st "in_ptr" (CConstPtr CUchar) b) "in_size" CSize m)))
    (cmem st) (answers st) (world st)).
  assert (RpcWire.rest "in_ptr" "in_size" (CConstPtr CUchar) st0 b m (load_bytes (cmem st) b (Z.to_nat m))) as Hr0.
  { split; [|by split]. unfold cursor, st0. cbn [set_var vars]. rewrite lookup_insert_ne by done. rewrite lookup_insert_ne by done.
    rewrite lookup_insert_eq, lookup_insert_ne, lookup_insert_eq by done. rewrite conv_cptr, conv_size by lia.
    split; [done|]. split; [done|]. lia. }
  pose proof (args_then fuel defines hx (args fn) st0 b m _ b (b + m) lss ([Blank] ++ k) Hok Hls0 Hr0 ltac:(lia) ltac:(lia)
    ltac:(exists None; apply lookup_insert_eq) Hnd Hfix) as Ht.
  assert (Cgen.exec fuel defines hx st (([Line (SComment "Deserialize arguments"); Line (SDecl (CConstPtr CUchar) "in_ptr" (EVar "argbuf"));
    Line (SDecl CSize "in_size" (EVar "argbuf_size")); Line (SDeclare CChar "typecode"); Blank] ++ concat lss ++ [Blank]) ++ k) =
    Cgen.exec fuel defines hx st0 (concat lss ++ [Blank] ++ k)) as E0.
  { rewrite <- !app_assoc. etransitivity; [apply (exec_next _ _ _ st (Line (SComment _)) _ st); done|].
    etransitivity; [apply (exec_next _ _ _ st _ _ (set_var st "in_ptr" (CConstPtr CUchar) b))|].
    { cbn [exec_line exec_stmt eval]. by rewrite (var_eq _ _ _ _ Hb1). }
    etransitivity; [apply (exec_next _ _ _ _ _ _ (set_var (set_var st "in_ptr" (CConstPtr CUchar) b) "in_size" CSize m))|].
    { cbn [exec_line exec_stmt eval]. erewrite var_eq; [done|]. cbn [set_var vars]. by rewrite lookup_insert_ne. }
    etransitivity; [apply (exec_next _ _ _ _ _ _ st0); done|]. by apply (exec_next _ _ _ st0 Blank _ st0). }
  cbn [app] in E0 |- *. rewrite E0. destruct (parse_args _ _) as [[vs r]|]; [|done]. destruct Ht as (st1 & c & E1 & T1 & B1).
  exists st1. split; [exact E1|]. split; [apply (tk_mem _ _ _ _ _ _ _ _ _ T1)|].
  destruct (tk_rest _ _ _ _ _ _ _ _ _ T1) as [? ?]. split; [done|]. split; [done|]. split; [done|].
  intros x Hx Hn. rewrite (tk_vars _ _ _ _ _ _ _ _ _ T1) by notin. unfold st0. cbn [set_var vars]. by rewrite !lookup_insert_ne by notin.
Qed.

(** The conditions of a call with the reply buffer from [a] to [a + n]. *)
Record call_ok (fn : RPCFunction) (l : list item) (a n : Z) : Prop := {
  co_args : i_arg <$> l = args fn;
  co_terminated : Forall (fun i => terminated (i_arg i) (i_in i)) l;
  co_fueled : Forall fueled l;
  co_fits : Forall (out_fits fuel) l;
  co_buffers : Forall buffer_ok l;
  co_apart : apart l;
  co_avoids : Forall (avoids a (a + n)) l
}.

(** The result of a function is in the range of its type. *)
Definition result_fits (fn : RPCFunction) (rv : Z) : Prop :=
  match type (return_type fn) with
  | VoidType => True
  | IntType => - 2 ^ 31 <= rv < 2 ^ 31
  | LongType => - 2 ^ 63 <= rv < 2 ^ 63
  | _ => False
  end.

Definition seen_by (l : list item) : list wval := (fun i => seen (i_arg i) (i_in i)) <$> l.

Lemma handler_ok st fn l k pid rv ls lo hi a n ans : generate_handler_call fn = Ret ls -> own_names fn -> call_ok fn l a n ->
  find (fun f => bool_decide ("handle_" +:+ fn_name fn = "handle_" +:+ fn_name f)) fns = Some fn ->
  vars st !! "sender_pid" = Some (CInt, Some pid) -> Forall (fun i => bound st lo hi (i_arg i) (i_in i)) l ->
  answers st = buffers l ++ ans -> byte_mem (cmem st) -> 0 <= lo -> hi < 2 ^ 32 ->
  H (fn_name fn) pid (seen_by l) = (rv, i_out <$> l) -> result_fits fn rv ->
  exists st1, exec st (ls ++ k) = exec st1 k /\ Forall2 (filled fuel a (a + n) st1) (args fn) (i_out <$> l) /\
    (forall c, outside l c -> load8 (cmem st1) c = load8 (cmem st) c) /\ byte_mem (cmem st1) /\ answers st1 = ans /\
    world st1 = mkSW (calls (world st) ++ [(fn_name fn, pid, seen_by l)]) (inbox (world st)) (outbox (world st)) /\
    (forall x, x <> "fn_result" -> x ∉ names l -> vars st1 !! x = vars st !! x) /\
    (type (return_type fn) <> VoidType -> exists t, vars st1 !! "fn_result" = Some (t, Some rv)).
Proof.
  intros Hls (Hok & Hnd & Hfix) [Cargs Cterm Cfu Cfit Cbuf Cap Cav] Hfind Hpid Hbd Hans Hb Hlo Hhi HH Hrv.
  unfold generate_handler_call in Hls. rewrite <- Cargs in *. invert_ret. rename a0 into lss, a1 into d, a2 into ess.
  assert (Forall (fun i => arg_ok (i_arg i) = true) l) as Hok' by (by apply Forall_fmap in Hok).
  assert ("sender_pid" ∉ names l) as Hpn.
  { intros Hc. unfold names in Hc. rewrite Forall_forall in Hfix. apply (Hfix _ Hc). unfold server_fixed. subset_in. }
  assert ("fn_result" ∉ names l) as Hrn.
  { intros Hc. unfold names in Hc. rewrite Forall_forall in Hfix. apply (Hfix _ Hc). unfold server_fixed. subset_in. }
  destruct (declare_all l st lo hi lss ([Line (SCall d ("handle_" +:+ fn_name fn) (EVar "sender_pid" :: concat ess)); Blank] ++ k) ans
    Hok' Hls0 Hbd Hans Cbuf Hnd) as (st1 & E1 & M1 & W1 & A1 & V1 & D1).
  destruct (pass_all l st1 lo hi ess Hok' Hls2 D1 Cterm Cfu) as (css & E2 & R2 & P2); [by rewrite M1|done|done|].
  destruct (fill_all l st1 css a (a + n) Hok') as (st2 & E3 & H3 & F3); [|done|done|done|done|done|done|].
  { eapply Forall_impl; [exact D1|]. intros i Hi Ho. unfold declared in *. by rewrite Ho in *. }
  set (st3 := log_call st2 (fn_name fn, pid, seen_by l)).
  set (st4 := match d with New t x => set_var st3 x t rv | _ => st3 end).
  assert (call fuel defines ext st1 d ("handle_" +:+ fn_name fn) (EVar "sender_pid" :: concat ess) = Ret st4) as Ecall.
  { unfold call. cbn [eval_args eval_arg eval]. rewrite (var_eq st1 "sender_pid" CInt pid) by (by rewrite V1).
    cbn [mbind outcome_bind]. rewrite E2. cbn [mbind outcome_bind]. unfold handle_ext. rewrite Hfind, <- Cargs, R2.
    cbn [mbind outcome_bind]. fold (seen_by l). rewrite HH, E3. cbn [mbind outcome_bind]. fold st3. unfold st4.
    destruct d; [done| |done]. unfold handler_dest in Hls1. by destruct (type (return_type fn)). }
  destruct H3 as [M3 B3 [A3 W3] V3]. exists st4.
  assert (cmem st4 = cmem st2 /\ answers st4 = answers st2 /\ world st4 = world st3) as (M4 & A4 & W4) by (by unfold st4; destruct d).
  assert (forall x, x <> "fn_result" -> vars st4 !! x = vars st2 !! x) as V4.
  { intros x Hx. unfold st4. unfold handler_dest in Hls1. destruct (type (return_type fn)); try discriminate Hls1; injection Hls1 as <-;
      cbn [set_var vars]; rewrite ?lookup_insert_ne by done; done. }
  split_and!.
  - unfold concat_lines. rewrite <- app_comm_cons, <- app_assoc.
    etransitivity; [apply (exec_next _ _ _ st (Line (SComment _)) _ st); done|]. rewrite E1.
    etransitivity; [apply (exec_next _ _ _ st1 _ _ st4)|by apply (exec_next _ _ _ st4 Blank _ st4)].
    cbn [exec_line exec_stmt]. by rewrite Ecall.
  - eapply Forall2_impl_l; [exact F3|]. intros g w Hg Hw. apply (filled_keep _ _ _ st2); [done| |intros c _; by rewrite M4].
    intros x Hx. apply V4. intros ->. apply Hrn. unfold names. by eapply elem_concat.
  - intros c Hc. by rewrite M4, M3, M1.
  - rewrite M4. apply B3. by rewrite M1.
  - congruence.
  - rewrite W4. unfold st3, log_call. cbn [world]. by rewrite W3, W1.
  - intros x Hx Hn. by rewrite V4, V3, V1.
  - unfold st4, result_fits in *. unfold handler_dest in Hls1. intros Hv.
    destruct (type (return_type fn)); try discriminate Hls1; try done; injection Hls1 as <-; cbn [set_var vars]; rewrite lookup_insert_eq;
      eexists; cbn [conv]; rewrite ?s32_small, ?(swrap_small 64) by lia; done.
Qed.

Lemma zip_bound st lo hi (l : list item) : Forall2 (bound st lo hi) (i_arg <$> l) (i_in <$> l) ->
  Forall (fun i => bound st lo hi (i_arg i) (i_in i)) l.
Proof.
  induction l as [|i l IH]; [done|]. rewrite !fmap_cons. intros [Hi Hl]%Forall2_cons. constructor; [done|by apply IH].
Qed.

Lemma wire_out_bytes i : out_fits fuel i -> Forall is_byte (wire_out (i_arg i) (i_out i)).
Proof.
  unfold out_fits, wire_out. destruct (is_out (i_arg i)); [|constructor].
  destruct (type (arg_type (i_arg i))), (i_out i) as [z|z|s|n|]; try done; intros Hf; (constructor; [apply u8_range|]);
    try apply le_encode_bytes; apply Forall_app; (split; [apply le_encode_bytes|]).
  - apply Forall_app. split; [|by repeat constructor]. eapply Forall_impl; [apply Hf|]. unfold is_char, is_byte. intros. lia.
  - apply Hf.
Qed.
Lemma wire_outs_bytes l : Forall (out_fits fuel) l -> Forall is_byte (wire_outs (i_arg <$> l) (i_out <$> l)).
Proof.
  induction 1 as [|i l Hi Hl IH]; [constructor|]. rewrite !fmap_cons. unfold wire_outs. cbn [zip_with concat].
  apply Forall_app. split; [by apply wire_out_bytes|done].
Qed.
Lemma reply_bytes_ok fn rv l old : i_arg <$> l = args fn -> Forall (out_fits fuel) l -> Forall is_byte old ->
  Forall is_byte (reply_data fn rv (i_out <$> l) old).
Proof.
  intros Ha Hf Ho. unfold reply_data. apply Forall_app. rewrite <- Ha. split; [|by apply wire_outs_bytes].
  unfold wire_result. destruct (type (return_type fn)); try constructor; try apply u8_range; try apply le_encode_bytes.
  apply Forall_app. split; [apply le_encode_bytes|]. by apply Forall_take, Forall_drop.
Qed.

Lemma marshal_ok st fn body l pid rv a n b m ans rest : marshaller_body fn = Ret body -> own_names fn -> call_ok fn l a n ->
  find (fun f => bool_decide ("handle_" +:+ fn_name fn = "handle_" +:+ fn_name f)) fns = Some fn ->
  entered st pid a n b m -> 0 <= a -> 9 <= n -> a + n < 2 ^ 32 -> 0 <= b -> 0 <= m -> b + m < 2 ^ 32 -> byte_mem (cmem st) ->
  parse_args (args fn) (load_bytes (cmem st) b (Z.to_nat m)) = Some (i_in <$> l, rest) ->
  answers st = buffers l ++ ans -> H (fn_name fn) pid (seen_by l) = (rv, i_out <$> l) -> result_fits fn rv ->
  let reply := reply_data fn rv (i_out <$> l) (load_bytes (cmem st) a (Z.to_nat n)) in
  Z.of_nat (length reply) <= n ->
  exists st1, exec st body = Ret (Some (reply_code fn reply), st1) /\ load_bytes (cmem st1) a (length reply) = reply /\
    (forall c, outside l c -> c < a \/ a + n <= c -> load8 (cmem st1) c = load8 (cmem st) c) /\ byte_mem (cmem st1) /\
    answers st1 = ans /\
    world st1 = mkSW (calls (world st) ++ [(fn_name fn, pid, seen_by l)]) (inbox (world st)) (outbox (world st)).
Proof.
  intros Hbody Hown Hcall Hfind Hent Ha Hn Han Hb Hm Hbm Hbyte Hparse Hans HH Hrv reply Hlen.
  unfold marshaller_body in Hbody. invert_ret. rename a0 into des, a1 into call, a2 into ser.
  pose proof (deserialize_ok ext st fn des (call ++ ser) pid a n b m Hbody0 Hown Hent Hb Hm Hbm Hbyte) as H1.
  rewrite Hparse in H1. destruct H1 as (st1 & E1 & M1 & A1 & W1 & B1 & V1). destruct Hent as (N1 & N2 & N3 & _).
  pose proof Hown as (Hok & Hnd & Hfix).
  assert (forall x, x ∈ server_fixed -> x ∉ concat (server_names <$> args fn)) as Hfx.
  { intros x Hx Hc. rewrite Forall_forall in Hfix. by apply (Hfix x Hc). }
  destruct (handler_ok st1 fn l ser pid rv call b (b + m) a n ans Hbody1 Hown Hcall Hfind) as (st2 & E2 & F2 & M2 & By2 & A2 & W2 & V2 & R2);
    [| |congruence|by rewrite M1|done|done|done|done|].
  { rewrite V1; [done|notin|]. apply Hfx. unfold server_fixed. subset_in. }
  { apply zip_bound. by rewrite (co_args _ _ _ _ Hcall). }
  assert (names l = concat (server_names <$> args fn)) as Hnm by (unfold names; by rewrite (co_args _ _ _ _ Hcall)).
  assert (load_bytes (cmem st2) a (Z.to_nat n) = load_bytes (cmem st) a (Z.to_nat n)) as Hold.
  { apply load_bytes_ext. intros c Hc. rewrite M2; [by rewrite M1|]. eapply Forall_impl; [exact (co_avoids _ _ _ _ Hcall)|].
    intros i Hi Hnb. specialize (Hi Hnb). lia. }
  destruct (serialize_ok fuel defines ext st2 fn ser (CPtr CVoid) a n (i_out <$> l) rv Hbody2) as (st3 & E3 & M3 & By3 & A3 & W3);
    [| |done|done|done|done|done|done|done|done|done| |].
  { rewrite V2, V1; [done|notin| |done|rewrite Hnm]; apply Hfx; unfold server_fixed; subset_in. }
  { rewrite V2, V1; [done|notin| |done|rewrite Hnm]; apply Hfx; unfold server_fixed; subset_in. }
  { by rewrite Hold. }
  rewrite Hold in *. fold reply in E3, M3. exists st3. split_and!.
  - by rewrite E1, E2.
  - rewrite (meq_bytes _ _ _ _ M3). apply load_store_bytes_eq; [|done].
    apply reply_bytes_ok; [apply Hcall|apply Hcall|by apply load_bytes_byte].
  - intros c Hc1 Hc2. rewrite (M3 c), load8_store_bytes_out by lia. by rewrite M2, M1.
  - done.
  - congruence.
  - by rewrite W3, W2, W1.
Qed.
End marshal.
