(* ===== verification/RpcNet.v ===== *)
(** Messages of the generated stubs: [msgsend] and [msgrecv] of [common/port.c] on a process's
    memory, the calls the stubs make, and one turn of the generated dispatcher. *)
From Stdlib Require Import Ascii String.
From S2P Require Import Prelude Mem Str StrSpec Ipc IpcSpec Rpcgen Cgen Rpcstub RpcWire RpcServer RpcCall.

(** ** A message in memory ([struct message]) *)
Definition read_message (m : mem) (a : Z) : message :=
  mkMsg (load32 m (a + 8)) (s32 (load32 m (a + 12))) (s32 (load32 m (a + 16))) (load32 m (a + 20))
    (load_bytes m (a + 28) (Z.to_nat (load32 m (a + 24)))).
(** The bytes of a message, after its list links. *)
Definition header (msg : message) : list Z :=
  le_encode 4 (m_checksum msg) ++ le_encode 4 (m_sender msg) ++ le_encode 4 (m_reply_port msg) ++
  le_encode 4 (m_code msg) ++ le_encode 4 (m_len msg).
Definition image (links : list Z) (msg : message) : list Z := links ++ header msg ++ m_data msg.

(** [msgsend] before the system call: the links and the sender are cleared, the checksum is set. *)
Definition msgsend_lib (m : mem) (a : Z) : mem * message :=
  let m := memset m a 0 8 in
  let m := store32 m (a + 12) 0 in
  let m := store32 m (a + 8) (message_checksum (read_message m a)) in
  (m, read_message m a).

(** The first message queued at a port. *)
Fixpoint first_at (port : Z) (l : list (Z * message)) : option (message * list (Z * message)) :=
  match l with
  | [] => None
  | (p, m) :: l => if p =? port then Some (m, l) else '(x, r) ← first_at port l; Some (x, (p, m) :: r)
  end.

(** [msgrecv]: the buffer is cleared, filled if the message fits, and its checksum verified. *)
Definition msgrecv_lib (links : list Z) (m : mem) (a size : Z) (msg : message) : outcome (Z * mem) :=
  let m := bzero m a size in
  let fits := sizeof_message + m_len msg <=? size in
  '(v, _) ← msgrecv_check (if fits then 0 else 3) (if fits then Some msg else None);
  Ret (v, if fits then store_bytes m a (image links msg) else m).

(** ** The constants of the generated files *)
Definition rpc_defines (fns : list RPCFunction) (x : string) : option Z :=
  if decide (x = "RPC_OK") then Some 0
  else if decide (x = "RPC_FAIL_SEND") then Some 1
  else if decide (x = "RPC_FAIL_RECV") then Some 2
  else if decide (x = "NULL") then Some 0
  else if decide (x = "INVALID_PORT") then Some (-1)
  else messagecode 1 fns x.

Section net.
Variable fuel : nat.
Variable fns : list RPCFunction.
(** What a call of [handle_] of a function does. *)
Variable hx : string -> list carg -> sstate -> outcome (Z * sstate).
(** The links that the kernel's queue leaves in a message. *)
Variable links : list Z.
(** The process that runs, and what arrives at its ports when it has sent a message. *)
Variable pid : Z.
Variable peer : Z -> message -> list (Z * message).

Definition with_net (st : sstate) (m : mem) (w : sworld) : sstate := mkC (vars st) m (answers st) w.

(** A call of the message library. A receive from an empty port does not return. *)
Definition net_ext (f : string) (l : list carg) (st : sstate) : outcome (Z * sstate) :=
  let w := world st in
  if decide (f = "msgsend") then
    match l with
    | [AVal port; AVal a] =>
        let '(m, msg) := msgsend_lib (cmem st) a in
        let msg := stamped msg pid in
        Ret (0, with_net st m (mkSW (calls w) (inbox w ++ peer port msg) (outbox w ++ [(port, msg)])))
    | _ => Fault FMem
    end
  else if decide (f = "msgrecv") then
    match l with
    | [AVal port; AVal a; AVal size; out] =>
        match first_at port (inbox w) with
        | None => Fault FFuel
        | Some (msg, rest) =>
            '(v, m) ← msgrecv_lib links (cmem st) a size msg;
            let need := sizeof_message + m_len msg in
            let w := mkSW (calls w) (if need <=? size then rest else inbox w) (outbox w) in
            let st := with_net st m w in
            Ret (v, match out with ARef y => set_var st y CUnsigned need | AVal _ => st end)
        end
    | _ => Fault FMem
    end
  else Fault FMem.

(** ** The server *)
Definition marshall_params (who a n b m : Z) : gmap string (cty * option Z) :=
  <["sender_pid" := (CInt, Some (conv CInt who))]>
  (<["resbuf" := (CPtr CVoid, Some (conv (CPtr CVoid) a))]>
  (<["resbuf_size" := (CSize, Some (conv CSize n))]>
  (<["argbuf" := (CConstPtr CVoid, Some (conv (CConstPtr CVoid) b))]>
  (<["argbuf_size" := (CSize, Some (conv CSize m))]> ∅)))).

(** A call of [marshall_] of a function: its body runs with variables of its own. *)
Definition marshall_ext (f : string) (l : list carg) (st : sstate) : outcome (Z * sstate) :=
  match find (fun fn => bool_decide (f = "marshall_" +:+ fn_name fn)) fns, l with
  | Some fn, [AVal who; AVal a; AVal n; AVal b; AVal m] =>
      body ← marshaller_body fn;
      '(r, st1) ← exec fuel (rpc_defines fns) hx
        (mkC (marshall_params who a n b m) (cmem st) (answers st) (world st)) body;
      match r with
      | Some v => Ret (v, mkC (vars st) (cmem st1) (answers st1) (world st1))
      | None => Fault FMem
      end
  | _, _ => Fault FMem
  end.

Definition server_ext (f : string) (l : list carg) (st : sstate) : outcome (Z * sstate) :=
  if decide (f = "msgsend" \/ f = "msgrecv") then net_ext f l st else marshall_ext f l st.

(** One turn of the loop of [rpc_dispatch], whatever the calls of the handlers do. *)
Definition dispatch_with (st : sstate) : outcome (option Z * sstate) :=
  exec fuel (rpc_defines fns) server_ext st (dispatch_body fns).
End net.

(** One turn with handlers that return. *)
Definition dispatch_turn (fuel : nat) (fns : list RPCFunction) (H : handler) (links : list Z) (pid : Z)
    (peer : Z -> message -> list (Z * message)) (st : sstate) : outcome (option Z * sstate) :=
  dispatch_with fuel fns (handle_ext fuel fns H) links pid peer st.
