(* ===== verification/RpcMsg.v ===== *)
(** What the message library does to the memory of the stubs ([common/port.c]). *)
From Stdlib Require Import Ascii String.
From S2P Require Import Prelude Mem Util Str StrSpec Ipc IpcSpec Rpcgen Cgen Rpcstub RpcWire RpcServer RpcCall RpcNet.

Lemma memset_zero m a n : memset m a 0 n = store_bytes m a (repeat 0 (Z.to_nat n)).
Proof.
  unfold memset. generalize (Z.to_nat n) as k. intros k. revert m a.
  induction k as [|k IH]; intros m a; [done|]. cbn [memset_loop repeat]. by rewrite store_bytes_cons, IH.
Qed.

Lemma load_slice m a k n bs : load_bytes m a (length bs) = bs -> (k + n <= length bs)%nat ->
  load_bytes m (a + Z.of_nat k) n = take n (drop k bs).
Proof.
  intros E Hk. rewrite <- E at 1. replace (length bs) with (k + (n + (length bs - k - n)))%nat by lia.
  rewrite load_bytes_app, drop_app_length' by (symmetry; apply length_load_bytes).
  rewrite load_bytes_app, take_app_length' by (symmetry; apply length_load_bytes). done.
Qed.

(** The numbers of a message are in the range of their members. *)
Record msg_wf (msg : message) : Prop := {
  wf_checksum : 0 <= m_checksum msg < 2 ^ 32;
  wf_sender : - 2 ^ 31 <= m_sender msg < 2 ^ 31;
  wf_reply_port : - 2 ^ 31 <= m_reply_port msg < 2 ^ 31;
  wf_code : 0 <= m_code msg < 2 ^ 32;
  wf_len : m_len msg < 2 ^ 32;
  wf_data : Forall is_byte (m_data msg)
}.

Lemma le4 z : le_decode (le_encode 4 z) = u32 z.
Proof. rewrite le_decode_encode. done. Qed.
Lemma s32_le4 z : - 2 ^ 31 <= z < 2 ^ 31 -> s32 (le_decode (le_encode 4 z)) = z.
Proof. intros Hz. rewrite le4. rewrite swrap_wrap by lia. by apply s32_small. Qed.

Lemma length_image links msg : length links = 8%nat -> length (image links msg) = (28 + length (m_data msg))%nat.
Proof. intros Hl. unfold image, header. rewrite !length_app, !length_le_encode. lia. Qed.

(** Reading back a message that lies in memory. *)
Lemma read_image m a links msg : length links = 8%nat -> msg_wf msg ->
  load_bytes m a (length (image links msg)) = image links msg -> read_message m a = msg.
Proof.
  intros Hl [W1 W2 W3 W4 W5 W6] E. pose proof (length_image links msg Hl) as Hlen.
  destruct links as [|l0 [|l1 [|l2 [|l3 [|l4 [|l5 [|l6 [|l7 [|]]]]]]]]]; try discriminate Hl.
  assert (forall k, (k + 4 <= 28)%nat -> load32 m (a + Z.of_nat k) = le_decode (take 4 (drop k (image [l0; l1; l2; l3; l4; l5; l6; l7] msg)))) as Hf.
  { intros k Hk. unfold load32. f_equal. apply load_slice; [done|lia]. }
  pose proof (Hf 8%nat ltac:(lia)) as F1. pose proof (Hf 12%nat ltac:(lia)) as F2. pose proof (Hf 16%nat ltac:(lia)) as F3.
  pose proof (Hf 20%nat ltac:(lia)) as F4. pose proof (Hf 24%nat ltac:(lia)) as F5.
  pose proof (load_slice m a 28 (length (m_data msg)) _ E ltac:(lia)) as F6.
  change (take 4 (drop 8 _)) with (le_encode 4 (m_checksum msg)) in F1.
  change (take 4 (drop 12 _)) with (le_encode 4 (m_sender msg)) in F2.
  change (take 4 (drop 16 _)) with (le_encode 4 (m_reply_port msg)) in F3.
  change (take 4 (drop 20 _)) with (le_encode 4 (m_code msg)) in F4.
  change (take 4 (drop 24 _)) with (le_encode 4 (m_len msg)) in F5.
  change (drop 28 _) with (m_data msg) in F6. rewrite firstn_all in F6.
  change (Z.of_nat 8) with 8 in F1. change (Z.of_nat 12) with 12 in F2. change (Z.of_nat 16) with 16 in F3.
  change (Z.of_nat 20) with 20 in F4. change (Z.of_nat 24) with 24 in F5. change (Z.of_nat 28) with 28 in F6.
  unfold read_message. rewrite F1, F2, F3, F4, F5, !s32_le4, !le4, !u32_small by (unfold m_len in *; lia).
  unfold m_len. rewrite Nat2Z.id, F6. by destruct msg.
Qed.

(** [msgrecv] with a buffer that is large enough. *)
Lemma msgrecv_ok links m a size msg : length links = 8%nat -> Forall is_byte links -> byte_mem m -> msg_wf msg -> msg_ok msg ->
  28 + m_len msg <= size ->
  exists m', msgrecv_lib links m a size msg = Ret (0, m') /\ read_message m' a = msg /\ byte_mem m' /\
    same_outside m m' a (a + size).
Proof.
  intros Hl Hlb Hb Hw Hok Hs. pose proof (length_image links msg Hl) as Hlen.
  assert (Forall is_byte (image links msg)) as Hib.
  { unfold image, header. rewrite !Forall_app. repeat split; try apply le_encode_bytes; [done|apply Hw]. }
  exists (store_bytes (bzero m a size) a (image links msg)). split_and!.
  - unfold msgrecv_lib. change sizeof_message with 28. rewrite (proj2 (Z.leb_le _ _)) by done. unfold msgrecv_check.
    cbn [default]. unfold msg_ok in Hok. rewrite (proj2 (Z.eqb_eq _ _)) by done. done.
  - apply (read_image _ _ links); [done|done|]. by apply load_store_bytes_eq.
  - unfold bzero. rewrite memset_zero. by do 2 apply store_bytes_byte_mem.
  - unfold bzero. rewrite memset_zero. unfold m_len in Hs. intros c Hc. rewrite !load8_store_bytes_out; [done|rewrite repeat_length; lia|lia].
Qed.

(** [msgsend] sends the message its buffer holds. *)
Lemma msgsend_ok m a : byte_mem m -> 0 <= a ->
  exists m', msgsend_lib m a = (m', msgsend_prepare (read_message m a)) /\ byte_mem m' /\ same_outside m m' a (a + 16).
Proof.
  intros Hb Ha. unfold msgsend_lib. rewrite memset_zero.
  set (m1 := store_bytes m a (repeat 0 (Z.to_nat 8))). set (m2 := store32 m1 (a + 12) 0).
  set (sum := message_checksum (read_message m2 a)). set (m3 := store32 m2 (a + 8) sum).
  assert (forall c, a + 16 <= c \/ c < a -> load8 m3 c = load8 m c) as Ho.
  { intros c Hc. unfold m3, m2, m1, store32. rewrite !load8_store_bytes_out; [done|..]; rewrite ?length_le_encode, ?repeat_length; lia. }
  assert (forall c n, a + 16 <= c -> load_bytes m3 c n = load_bytes m c n) as Hl.
  { intros c n Hc. apply load_bytes_ext. intros d Hd. apply Ho. lia. }
  assert (forall c n, a + 16 <= c -> load_bytes m2 c n = load_bytes m c n) as Hl2.
  { intros c n Hc. apply load_bytes_ext. intros d Hd. unfold m2, m1, store32.
    rewrite !load8_store_bytes_out; [done|..]; rewrite ?length_le_encode, ?repeat_length; lia. }
  assert (read_message m2 a = set_sender (read_message m2 a) 0) as Hs2.
  { unfold set_sender, read_message. cbn [m_checksum m_reply_port m_code m_data]. f_equal.
    unfold m2. by rewrite load32_store32_eq. }
  assert (sum = message_checksum (set_sender (read_message m a) 0)) as Hsum.
  { unfold sum. rewrite Hs2. unfold message_checksum, checksum_at, set_sender, read_message, m_len. cbn [m_sender m_reply_port m_code m_data m_checksum].
    unfold load32. by rewrite !Hl2 by lia. }
  assert (0 <= sum < 2 ^ 32) as Hr by (unfold sum, message_checksum, checksum_at; apply hash2_range, hash2_range, hash2_range, hash2_range, hash2_range; lia).
  exists m3. split; [|split].
  - f_equal. unfold msgsend_prepare. rewrite <- Hsum. unfold set_checksum, set_sender.
    cbn [m_sender m_reply_port m_code m_data m_checksum]. unfold read_message. f_equal.
    + unfold m3. by apply load32_store32_eq.
    + unfold m3. rewrite load32_store32_ne by lia. unfold m2. by rewrite load32_store32_eq.
    + unfold load32. by rewrite Hl by lia.
    + unfold load32. by rewrite Hl by lia.
    + unfold load32. by rewrite !Hl by lia.
  - unfold m3, m2, m1, store32. by do 3 apply store_bytes_byte_mem.
  - intros c Hc. apply Ho. lia.
Qed.

(** The members of a message that a stub sets. *)
Lemma load32_stored m a v : load32 (store32 m a v) a = u32 v.
Proof. unfold load32, store32. rewrite (load_store_bytes_eq _ _ (le_encode 4 v)); [apply le4|apply le_encode_bytes|apply length_le_encode]. Qed.

Definition addressed (m : mem) (a rp c : Z) (data : list Z) : Prop :=
  load32 m (a + 16) = u32 rp /\ load32 m (a + 20) = u32 c /\ load32 m (a + 24) = Z.of_nat (length data) /\
  load_bytes m (a + 28) (length data) = data.

Lemma addressed_read m a rp c data : addressed m a rp c data -> - 2 ^ 31 <= rp < 2 ^ 31 -> 0 <= c < 2 ^ 32 ->
  exists x y, read_message m a = mkMsg x y rp c data.
Proof.
  intros (H1 & H2 & H3 & H4) Hr Hc. eexists _, _. unfold read_message. rewrite H1, H2, H3, Nat2Z.id, H4.
  rewrite (swrap_wrap 32 rp), (s32_small rp), (u32_small c) by lia. done.
Qed.
Lemma stamped_eq x y rp c data pid : stamped (mkMsg x y rp c data) pid = stamped (mkMsg 0 0 rp c data) pid.
Proof. done. Qed.

Lemma message_checksum_range msg : 0 <= message_checksum msg < 2 ^ 32.
Proof. unfold message_checksum, checksum_at. apply hash2_range, hash2_range, hash2_range, hash2_range, hash2_range. lia. Qed.
Lemma stamped_wf rp c data pid : - 2 ^ 31 <= rp < 2 ^ 31 -> 0 <= c < 2 ^ 32 -> - 2 ^ 31 <= pid < 2 ^ 31 ->
  Z.of_nat (length data) < 2 ^ 32 -> Forall is_byte data ->
  msg_wf (stamped (mkMsg 0 0 rp c data) pid) /\ msg_ok (stamped (mkMsg 0 0 rp c data) pid).
Proof. intros. split; [split; try done|done]. apply message_checksum_range. Qed.
