(* ===== verification/RpcDispatch.v ===== *)
(** One turn of the generated dispatcher ([generate_dispatcher] of [tools/rpcgen/gen_server.c]). *)
From Stdlib Require Import Ascii String.
From S2P Require Import Prelude Mem Str StrSpec Ipc IpcSpec Rpcgen Cgen Rpcstub RpcWire RpcServer RpcCall RpcNet RpcMsg.

(** ** Message codes *)

(** The names of an interface are different, also in capitals, and none is NULL. *)
Definition codes_ok (fns : list RPCFunction) : Prop :=
  NoDup ("NULL" :: ((fun fn => strupper (fn_name fn)) <$> fns)) /\ Z.of_nat (length fns) < 2 ^ 31.
Definition msg_name (fn : RPCFunction) : string := "MSG_" +:+ strupper (fn_name fn).

Lemma msg_inj a b : "MSG_" +:+ a = "MSG_" +:+ b -> a = b.
Proof. intros E. by injection E. Qed.

Lemma messagecode_at fns : forall k i fn, NoDup ((fun fn => strupper (fn_name fn)) <$> fns) -> fns !! i = Some fn ->
  messagecode k fns (msg_name fn) = Some (k + Z.of_nat i).
Proof.
  induction fns as [|g fns IH]; intros k i fn Hnd Hi; [done|]. rewrite fmap_cons in Hnd. apply NoDup_cons in Hnd as [Hg Hnd].
  cbn [messagecode]. destruct i as [|i]; cbn [lookup list_lookup] in Hi.
  - injection Hi as ->. rewrite decide_True by done. f_equal. lia.
  - rewrite decide_False, (IH (k + 1) i fn Hnd Hi) by (intros E%msg_inj; apply Hg; rewrite <- E;
      apply (list_elem_of_fmap_2 (fun fn => strupper (fn_name fn))); by eapply list_elem_of_lookup_2). f_equal. lia.
Qed.

Lemma messagecode_null fns k : "NULL" ∉ ((fun fn => strupper (fn_name fn)) <$> fns) -> messagecode k fns "MSG_NULL" = Some 0.
Proof.
  revert k. induction fns as [|g fns IH]; intros k Hn; [done|]. rewrite fmap_cons in Hn. apply not_elem_of_cons in Hn as [Hg Hn].
  cbn [messagecode]. rewrite decide_False; [by apply IH|]. intros E. apply Hg. by apply (msg_inj "NULL").
Qed.

Lemma defines_msg fns x : rpc_defines fns ("MSG_" +:+ x) = messagecode 1 fns ("MSG_" +:+ x).
Proof. unfold rpc_defines. by rewrite !decide_False by done. Qed.

Lemma defines_at fns i fn : codes_ok fns -> fns !! i = Some fn -> rpc_defines fns (msg_name fn) = Some (1 + Z.of_nat i).
Proof. intros [[_ Hnd]%NoDup_cons _] Hi. unfold msg_name. rewrite defines_msg. by apply messagecode_at. Qed.
Lemma defines_null fns : codes_ok fns -> rpc_defines fns "MSG_NULL" = Some 0.
Proof. intros [[Hn _]%NoDup_cons _]. etransitivity; [exact (defines_msg fns "NULL")|]. by apply messagecode_null. Qed.

Section turn.
Context {W : Type}.
Variable fuel : nat.
Variable defines : string -> option Z.
Variable ext : string -> list carg -> cstate W -> outcome (Z * cstate W).
Implicit Types st : cstate W.
Local Abbreviation exec := (exec fuel defines ext).
Local Abbreviation exec_line := (exec_line fuel defines ext).

Lemma exec_if st c body b : test st c = Ret b -> exec_line st (If c body) = if b then exec st body else Ret (None, st).
Proof. intros E. cbn [Cgen.exec_line]. rewrite E. cbn [mbind outcome_bind]. by destruct b. Qed.
Lemma exec_ifblock st c body b : test st c = Ret b -> exec_line st (IfBlock c body) = if b then exec st body else Ret (None, st).
Proof. intros E. cbn [Cgen.exec_line]. rewrite E. cbn [mbind outcome_bind]. by destruct b. Qed.

Lemma exec_switch st e v cases d : forall i k body, eval fuel defines st e = Ret v -> cases !! i = Some (k, body) ->
  defines k = Some v -> (forall j kj bj, (j < i)%nat -> cases !! j = Some (kj, bj) -> exists c, defines kj = Some c /\ c <> v) ->
  exec_line st (Switch e cases d) = exec st body.
Proof.
  induction cases as [|[k0 b0] cases IH]; intros i k body He Hi Hk Hj; [done|]. destruct i as [|i].
  - injection Hi as -> ->. cbn [Cgen.exec_line]. rewrite He. cbn [mbind outcome_bind]. rewrite Hk. cbn [of_option mbind outcome_bind].
    by rewrite Z.eqb_refl.
  - destruct (Hj 0%nat k0 b0 ltac:(lia) eq_refl) as (c & Hc & Hne).
    rewrite <- (IH i k body He Hi Hk) by (intros j kj bj Hlt Hb; apply (Hj (S j) kj bj); [lia|done]).
    cbn [Cgen.exec_line]. rewrite He. cbn [mbind outcome_bind]. rewrite Hc. cbn [of_option mbind outcome_bind].
    by rewrite (proj2 (Z.eqb_neq _ _)) by congruence.
Qed.

Lemma exec_switch_default st e v cases d : eval fuel defines st e = Ret v ->
  Forall (fun c => exists k, defines c.1 = Some k /\ k <> v) cases -> exec_line st (Switch e cases d) = exec st d.
Proof.
  intros He. induction 1 as [|[k0 b0] cases (c & Hc & Hne) _ IH].
  - cbn [Cgen.exec_line]. by rewrite He.
  - rewrite <- IH. cbn [Cgen.exec_line Datatypes.fst] in *. rewrite He. cbn [mbind outcome_bind]. rewrite Hc. cbn [of_option mbind outcome_bind].
    by rewrite (proj2 (Z.eqb_neq _ _)) by congruence.
Qed.

Lemma exec_call st d f es l r st1 : eval_args fuel defines st es = Ret l -> ext f l st = Ret (r, st1) ->
  call fuel defines ext st d f es =
    match d with
    | Drop => Ret st1
    | Into x => t ← ty_of st1 x; Ret (set_var st1 x t r)
    | New t x => Ret (set_var st1 x t r)
    end.
Proof. intros E1 E2. unfold call. rewrite E1. cbn [mbind outcome_bind]. rewrite E2. by destruct d. Qed.

Lemma exec_setfield st x f e t tf o p v : eval fuel defines st e = Ret v -> vars st !! x = Some (t, Some p) ->
  offset f = Some (tf, o) ->
  exec_line st (Line (SSetField x f e)) = Ret (None, set_mem st (store_ty tf (cmem st) (p + o) v)).
Proof.
  intros He Hx Hf. cbn [Cgen.exec_line exec_stmt]. rewrite He. cbn [mbind outcome_bind]. rewrite (var_eq _ _ _ _ Hx).
  cbn [mbind outcome_bind]. by rewrite Hf.
Qed.
End turn.

Lemma find_named pre fns i fn : NoDup ((fun fn => strupper (fn_name fn)) <$> fns) -> fns !! i = Some fn ->
  find (fun f => bool_decide (pre +:+ fn_name fn = pre +:+ fn_name f)) fns = Some fn.
Proof.
  revert i. induction fns as [|g fns IH]; intros i Hnd Hi; [done|]. rewrite fmap_cons in Hnd. apply NoDup_cons in Hnd as [Hg Hnd].
  cbn [find]. destruct i as [|i]; cbn [lookup list_lookup] in Hi.
  - injection Hi as ->. by rewrite bool_decide_true.
  - rewrite bool_decide_false; [by apply (IH i)|]. intros E%(inj _). apply Hg. rewrite <- E.
    apply (list_elem_of_fmap_2 (fun fn => strupper (fn_name fn))). by eapply list_elem_of_lookup_2.
Qed.

Section dispatch.
Variable fuel : nat.
Variable fns : list RPCFunction.
Variable H : handler.
Variable hx : string -> list carg -> sstate -> outcome (Z * sstate).
Variable links : list Z.
Variable pid : Z.
Variable peer : Z -> message -> list (Z * message).
Hypothesis links8 : length links = 8%nat /\ Forall is_byte links.
Implicit Types st : sstate.
Local Abbreviation ext := (server_ext fuel fns hx links pid peer).
Local Abbreviation exec := (exec fuel (rpc_defines fns) ext).
Local Abbreviation exec_line := (exec_line fuel (rpc_defines fns) ext).
Local Abbreviation eval := (eval fuel (rpc_defines fns)).

(** The variables of [rpc_dispatch] inside its loop. *)
Record server_at st (port snd rcv : Z) : Prop := {
  sa_port : vars st !! "port" = Some (CInt, Some port);
  sa_snd : vars st !! "snd_buf" = Some (CPtr CMessage, Some snd);
  sa_rcv : vars st !! "rcv_buf" = Some (CPtr CMessage, Some rcv);
  sa_size : vars st !! "snd_buf_size" = Some (CSize, Some 4068);
  sa_range : 0 <= snd /\ snd + 4096 < 2 ^ 32 /\ 0 <= rcv /\ rcv + 4096 < 2 ^ 32;
  sa_apart : snd + 4096 <= rcv \/ rcv + 4096 <= snd
}.

Lemma server_keep st st1 port snd rcv : server_at st port snd rcv ->
  (forall x, x ∈ ["port"; "snd_buf"; "rcv_buf"; "snd_buf_size"] -> vars st1 !! x = vars st !! x) -> server_at st1 port snd rcv.
Proof. intros [H1 H2 H3 H4 H5 H6] Hv. by split; rewrite ?Hv by subset_in. Qed.

Lemma turn_recv st k port snd rcv msg rest : server_at st port snd rcv -> byte_mem (cmem st) ->
  first_at port (inbox (world st)) = Some (msg, rest) -> msg_wf msg -> msg_ok msg -> 28 + m_len msg <= 4096 ->
  exists st1, exec st (Line (SCall (New CInt "ret") "msgrecv" [EVar "port"; EVar "rcv_buf"; ENum 4096; EAddr "outsize"]) ::
      If (IsNz "ret") [Line (SPanic "msgrecv() failed" [])] :: Blank :: Line (SDeclare CSize "result") :: k) = exec st1 k /\
    server_at st1 port snd rcv /\ read_message (cmem st1) rcv = msg /\ byte_mem (cmem st1) /\
    same_outside (cmem st) (cmem st1) rcv (rcv + 4096) /\ answers st1 = answers st /\
    world st1 = mkSW (calls (world st)) rest (outbox (world st)) /\ vars st1 !! "result" = Some (CSize, None) /\
    vars st1 !! "ret" = Some (CInt, Some 0).
Proof.
  intros Hs Hb Hf Hw Hok Hsz. destruct Hs as [S1 S2 S3 S4 S5 S6] eqn:Es.
  destruct (msgrecv_ok links (cmem st) rcv 4096 msg (proj1 links8) (proj2 links8) Hb Hw Hok Hsz) as (m1 & E1 & R1 & B1 & O1).
  set (sta := set_var (with_net st m1 (mkSW (calls (world st)) rest (outbox (world st)))) "outsize" CUnsigned (28 + m_len msg)).
  set (stb := set_var sta "ret" CInt 0).
  exists (mkC (<["result" := (CSize, None)]> (vars stb)) (cmem stb) (answers stb) (world stb)).
  assert (forall x, x ∈ ["port"; "snd_buf"; "rcv_buf"; "snd_buf_size"] ->
    vars (mkC (<["result" := (CSize, None)]> (vars stb)) (cmem stb) (answers stb) (world stb)) !! x = vars st !! x) as Hv.
  { intros x Hx. cbn [vars stb sta set_var with_net]. rewrite !lookup_insert_ne; [done|..]; intros <-;
      repeat (apply elem_of_cons in Hx as [Hx|Hx]; [discriminate Hx|]); by apply not_elem_of_nil in Hx. }
  split_and!; [|by eapply server_keep|done|done|done|done|done|cbn [vars]; by rewrite lookup_insert_eq|];
    [|cbn [vars stb set_var]; by rewrite lookup_insert_ne, lookup_insert_eq by done].
  etransitivity; [apply (exec_next _ _ _ st _ _ stb)|].
  { cbn [Cgen.exec_line exec_stmt].
    rewrite (exec_call _ _ _ _ _ _ _ [AVal port; AVal rcv; AVal 4096; ARef "outsize"] 0 sta); [done|..].
    - cbn [eval_args eval_arg Cgen.eval]. by rewrite (var_eq _ _ _ _ S1), (var_eq _ _ _ _ S3).
    - unfold server_ext. rewrite decide_True by by right. unfold net_ext. rewrite decide_False, decide_True by done.
      rewrite Hf, E1. cbn [mbind outcome_bind]. change sizeof_message with 28. by rewrite (proj2 (Z.leb_le _ _)) by done. }
  etransitivity; [apply (exec_next _ _ _ stb _ _ stb)|].
  { rewrite (exec_if _ _ _ _ _ _ false); [done|]. cbn [test].
    rewrite (var_eq _ "ret" CInt 0); [done|]. cbn [vars stb set_var]. by rewrite lookup_insert_eq. }
  etransitivity; [by apply (exec_next _ _ _ stb Blank _ stb)|]. by apply exec_next.
Qed.

(** The request that lies in the receive buffer. *)
Record request_at (m : mem) (rcv : Z) (msg : message) : Prop := {
  ra_msg : read_message m rcv = msg;
  ra_byte : byte_mem m;
  ra_len : 28 + m_len msg <= 4096
}.

Lemma request_fields st snd rcv port msg : server_at st port snd rcv -> request_at (cmem st) rcv msg ->
  eval st (EField "rcv_buf" "sender") = Ret (m_sender msg) /\ eval st (EField "rcv_buf" "code") = Ret (m_code msg) /\
  eval st (EField "rcv_buf" "len") = Ret (m_len msg) /\ eval st (EField "rcv_buf" "reply_port") = Ret (m_reply_port msg) /\
  load_bytes (cmem st) (rcv + 28) (Z.to_nat (m_len msg)) = m_data msg.
Proof.
  intros [S1 S2 S3 S4 S5 S6] [<- Hb _]. cbn [Cgen.eval]. rewrite !(var_eq _ _ _ _ S3). cbn [mbind outcome_bind].
  assert (m_len (read_message (cmem st) rcv) = load32 (cmem st) (rcv + 24)) as Hl.
  { unfold m_len. cbn [read_message m_data]. rewrite length_load_bytes. pose proof (load32_range _ (rcv + 24) Hb). lia. }
  assert (forall a, u32 (load32 (cmem st) a) = load32 (cmem st) a) as Hu by (intros a; apply u32_small; by apply load32_range).
  split_and!; try done.
  - change (Ret (u32 (load32 (cmem st) (rcv + 20))) = Ret (load32 (cmem st) (rcv + 20))). by rewrite Hu.
  - rewrite Hl. change (Ret (u32 (load32 (cmem st) (rcv + 24))) = Ret (load32 (cmem st) (rcv + 24))). by rewrite Hu.
  - by rewrite Hl.
Qed.

Lemma dispatch_args st snd rcv port msg : server_at st port snd rcv -> request_at (cmem st) rcv msg ->
  eval_args fuel (rpc_defines fns) st [EField "rcv_buf" "sender"; EField "snd_buf" "data"; EVar "snd_buf_size"; EField "rcv_buf" "data";
    EField "rcv_buf" "len"] = Ret [AVal (m_sender msg); AVal (snd + 28); AVal 4068; AVal (rcv + 28); AVal (m_len msg)].
Proof.
  intros Hs Hreq. destruct (request_fields st snd rcv port msg Hs Hreq) as (F1 & _ & F3 & _).
  destruct Hs as [S1 S2 S3 S4 (S51 & S52 & S53 & S54) S6].
  cbn [eval_args eval_arg]. rewrite F1, F3. cbn [mbind outcome_bind Cgen.eval].
  rewrite (var_eq _ _ _ _ S2), (var_eq _ _ _ _ S3), (var_eq _ _ _ _ S4). cbn [mbind outcome_bind].
  rewrite !decide_True by done. cbn [mbind outcome_bind]. change (sizeof CMessage) with 28. by rewrite !u32_small by lia.
Qed.

(** A call of a handler through the table of the dispatcher. *)
Record served (fn : RPCFunction) (msg : message) (l : list item) (rv snd rcv : Z) (old : list Z) : Prop := {
  sv_names : own_names fn;
  sv_call : call_ok fuel fn l (snd + 28) 4068;
  sv_avoids : Forall (avoids rcv (rcv + 4096)) l;
  sv_parse : exists extra, parse_args (args fn) (m_data msg) = Some (i_in <$> l, extra);
  sv_handler : H (fn_name fn) (m_sender msg) (seen_by l) = (rv, i_out <$> l);
  sv_result : result_fits fn rv;
  sv_fits : Z.of_nat (length (reply_data fn rv (i_out <$> l) old)) <= 4068
}.

Lemma marshall_entered who a n b m mm ans w : - 2 ^ 31 <= who < 2 ^ 31 -> 0 <= a < 2 ^ 32 -> 0 <= n < 2 ^ 32 -> 0 <= b < 2 ^ 32 ->
  0 <= m < 2 ^ 32 -> entered (mkC (marshall_params who a n b m) mm ans w) who a n b m.
Proof.
  intros Hw Ha Hn Hb Hm. unfold entered, marshall_params. cbn [vars].
  rewrite !(conv_ptr CVoid), !(conv_cptr CVoid), !conv_size by lia. change (conv CInt who) with (s32 who). rewrite s32_small by lia.
  split_and!; rewrite ?lookup_insert_ne by done; by rewrite lookup_insert_eq.
Qed.

Lemma turn_call (Hhx : hx = handle_ext fuel fns H) st port snd rcv msg i fn body l rv ans def : server_at st port snd rcv -> request_at (cmem st) rcv msg ->
  (exists t, vars st !! "result" = Some (CSize, t)) -> codes_ok fns -> fns !! i = Some fn -> m_code msg = 1 + Z.of_nat i ->
  marshaller_body fn = Ret body -> served fn msg l rv snd rcv (load_bytes (cmem st) (snd + 28) 4068) -> answers st = buffers l ++ ans ->
  let reply := reply_data fn rv (i_out <$> l) (load_bytes (cmem st) (snd + 28) 4068) in
  exists st1, exec_line st (Switch (EField "rcv_buf" "code") (dispatch_case <$> fns) def) = Ret (None, st1) /\
    server_at st1 port snd rcv /\ vars st1 = <["result" := (CSize, Some (u32 (reply_code fn reply)))]> (vars st) /\
    load_bytes (cmem st1) (snd + 28) (length reply) = reply /\ request_at (cmem st1) rcv msg /\
    answers st1 = ans /\ world st1 = mkSW (calls (world st) ++ [(fn_name fn, m_sender msg, seen_by l)]) (inbox (world st)) (outbox (world st)).
Proof.
  intros Hs Hreq [t Ht] Hcodes Hi Hcode Hbody [V1 V2 V3 [extra V4] V5 V6 V7] Hans reply.
  destruct (request_fields st snd rcv port msg Hs Hreq) as (F1 & F2 & F3 & F4 & F5). pose proof Hreq as [Hmsg Hbyte Hlen].
  pose proof Hs as [S1 S2 S3 S4 (S51 & S52 & S53 & S54) S6].
  assert (- 2 ^ 31 <= m_sender msg < 2 ^ 31) as Hwho by (rewrite <- Hmsg; exact (swrap_range 32 _ eq_refl)).
  assert (0 <= m_len msg) as Hl0 by (unfold m_len; lia).
  pose proof Hcodes as [[_ Hnd]%NoDup_cons Hcount].
  set (stm := mkC (marshall_params (m_sender msg) (snd + 28) 4068 (rcv + 28) (m_len msg)) (cmem st) (answers st) (world st)).
  destruct (marshal_ok fuel (rpc_defines fns) fns H stm fn body l (m_sender msg) rv (snd + 28) 4068 (rcv + 28) (m_len msg) ans extra
    Hbody V1 V2) as (st1 & E1 & L1 & O1 & B1 & A1 & W1); try done; try lia.
  { by apply (find_named "handle_" fns i). }
  { apply marshall_entered; lia. }
  { cbn [stm cmem]. by rewrite F5. }
  fold reply in E1, L1. set (st2 := mkC (vars st) (cmem st1) (answers st1) (world st1)).
  exists (set_var st2 "result" CSize (reply_code fn reply)).
  assert (exec_line st (Switch (EField "rcv_buf" "code") (dispatch_case <$> fns) def) =
    Ret (None, set_var st2 "result" CSize (reply_code fn reply))) as Esw.
  { rewrite (exec_switch _ _ _ _ _ (m_code msg) _ _ i (msg_name fn) (dispatch_case fn).2); [|done|by rewrite list_lookup_fmap, Hi|..].
    - cbn [dispatch_case Datatypes.snd]. etransitivity; [apply (exec_next _ _ _ st _ _ (set_var st2 "result" CSize (reply_code fn reply)))|done].
      cbn [Cgen.exec_line concat app].
      rewrite (exec_call _ _ _ _ _ _ _ [AVal (m_sender msg); AVal (snd + 28); AVal 4068; AVal (rcv + 28); AVal (m_len msg)]
        (reply_code fn reply) st2).
      + cbn [mbind outcome_bind]. unfold ty_of. cbn [st2 vars]. by rewrite Ht.
      + by apply (dispatch_args st snd rcv port msg).
      + unfold server_ext. rewrite decide_False by (intros [Hc|Hc]; discriminate Hc). unfold marshall_ext.
        rewrite (find_named "marshall_" fns i fn Hnd Hi), Hbody. cbn [mbind outcome_bind]. fold stm. by rewrite Hhx, E1.
    - rewrite Hcode. by apply defines_at.
    - intros j kj bj Hj Hb. rewrite list_lookup_fmap in Hb. destruct (fns !! j) as [g|] eqn:Eg; [|done]. injection Hb as <- <-.
      exists (1 + Z.of_nat j). split; [by apply defines_at|lia]. }
  split_and!; try done.
  - eapply server_keep; [exact Hs|]. intros x Hx. cbn [set_var vars st2]. rewrite lookup_insert_ne; [done|]. intros <-.
    repeat (apply elem_of_cons in Hx as [Hx|Hx]; [discriminate Hx|]). by apply not_elem_of_nil in Hx.
  - assert (forall a n, rcv <= a -> a + Z.of_nat n <= rcv + 4096 -> load_bytes (cmem st1) a n = load_bytes (cmem st) a n) as Hk.
    { intros a n Ha Hn. apply load_bytes_ext. intros c Hc. apply O1; [|lia]. eapply Forall_impl; [exact V3|].
      intros j Hj Hnb. specialize (Hj Hnb). lia. }
    assert (m_len msg = load32 (cmem st) (rcv + 24)) as Hll.
    { rewrite <- Hmsg. unfold m_len. cbn [read_message m_data]. rewrite length_load_bytes. pose proof (load32_range _ (rcv + 24) Hbyte). lia. }
    split; [|done|done]. cbn [set_var cmem st2]. etransitivity; [|exact Hmsg]. unfold read_message, load32 in *.
    rewrite (Hk (rcv + 8)), (Hk (rcv + 12)), (Hk (rcv + 16)), (Hk (rcv + 20)), (Hk (rcv + 24)) by (cbn; lia).
    rewrite (Hk (rcv + 28)) by (rewrite <- ?Hll; lia). done.
Qed.

(** A function answers when it has a result or is not oneway. *)
Definition replies (fn : RPCFunction) : bool :=
  has_result fn || bool_decide (modifier (return_type fn) <> OneWayModifier).

Lemma reply_code_eq fn rv outs old : reply_code fn (reply_data fn rv outs old) =
  if replies fn then Z.of_nat (length (reply_data fn rv outs old)) else -1.
Proof.
  unfold reply_code, replies. destruct (has_result fn) eqn:Eh; [done|]. cbn [orb].
  destruct (decide (modifier (return_type fn) = OneWayModifier)) as [E|E].
  - rewrite bool_decide_false by (intros Hc; by apply Hc). done.
  - rewrite bool_decide_true by done. unfold has_result in Eh. apply orb_false_iff in Eh as [Ev Eo].
    apply bool_decide_eq_false in Ev. unfold reply_data. rewrite no_outs, app_nil_r by done. unfold wire_result.
    destruct (type (return_type fn)); try done; exfalso; by apply Ev.
Qed.

Lemma turn_reply st port snd rcv msg fn rv outs old reply t : codes_ok fns -> server_at st port snd rcv -> request_at (cmem st) rcv msg ->
  reply = reply_data fn rv outs old -> Z.of_nat (length reply) <= 4068 ->
  vars st !! "result" = Some (CSize, Some (u32 (reply_code fn reply))) -> vars st !! "ret" = Some (CInt, t) ->
  load_bytes (cmem st) (snd + 28) (length reply) = reply ->
  let answer := stamped (mkMsg 0 0 (-1) 0 reply) pid in
  exists st1, exec st [Blank; IfBlock (NeMinusOne "result")
     [Line (SSetField "snd_buf" "len" (EVar "result"));
      Line (SSetField "snd_buf" "reply_port" (EConst "INVALID_PORT"));
      Line (SSetField "snd_buf" "code" (EConst "MSG_NULL"));
      Line (SCall (Into "ret") "msgsend" [EField "rcv_buf" "reply_port"; EVar "snd_buf"]);
      If (IsNz "ret") [Line (SPanic "msgsend() failed" [])]]] = Ret (None, st1) /\
    server_at st1 port snd rcv /\ byte_mem (cmem st1) /\ answers st1 = answers st /\
    world st1 = if replies fn then mkSW (calls (world st)) (inbox (world st) ++ peer (m_reply_port msg) answer)
                                        (outbox (world st) ++ [(m_reply_port msg, answer)])
                else world st.
Proof.
  intros Hcodes Hs Hreq Hrep Hlen Hres Hret Hdata answer. rewrite Hrep, reply_code_eq, <- Hrep in Hres.
  destruct (replies fn) eqn:Er; cycle 1.
  { exists st. split_and!; try done; [|apply Hreq]. etransitivity; [by apply (exec_next _ _ _ st Blank _ st)|].
    etransitivity; [apply (exec_next _ _ _ st _ _ st)|done]. erewrite exec_ifblock by (cbn [test]; by rewrite (var_eq _ _ _ _ Hres)). done. }
  rewrite u32_small in Hres by lia.
  destruct (request_fields st snd rcv port msg Hs Hreq) as (F1 & F2 & F3 & F4 & F5).
  pose proof Hs as [S1 S2 S3 S4 (S51 & S52 & S53 & S54) S6]. destruct Hreq as [Hmsg Hbyte Hrl].
  set (m1 := store32 (cmem st) (snd + 24) (Z.of_nat (length reply))). set (m2 := store32 m1 (snd + 16) (-1)).
  set (m3 := store32 m2 (snd + 20) 0).
  assert (byte_mem m3) as Hb3 by (unfold m3, m2, m1, store32; by do 3 apply store_bytes_byte_mem).
  assert (addressed m3 snd (-1) 0 reply) as Had.
  { split_and!.
    - unfold m3. rewrite load32_store32_ne by lia. apply load32_stored.
    - apply load32_stored.
    - unfold m3, m2. rewrite !load32_store32_ne by lia. unfold m1. rewrite load32_stored. apply u32_small. lia.
    - etransitivity; [|exact Hdata]. apply load_bytes_ext. intros c Hc. unfold m3, m2, m1, store32. rewrite !load8_store_bytes_out; [done|..]; rewrite length_le_encode; lia. }
  destruct (addressed_read _ _ _ _ _ Had ltac:(lia) ltac:(lia)) as (x & y & Hrd).
  destruct (msgsend_ok m3 snd Hb3 S51) as (m4 & E4 & B4 & O4). rewrite Hrd in E4.
  set (w := mkSW (calls (world st)) (inbox (world st) ++ peer (m_reply_port msg) answer) (outbox (world st) ++ [(m_reply_port msg, answer)])).
  set (st4 := set_var (with_net st m4 w) "ret" CInt 0). exists st4. split_and!; try done.
  - etransitivity; [by apply (exec_next _ _ _ st Blank _ st)|]. etransitivity; [apply (exec_next _ _ _ st _ _ st4)|done].
    erewrite exec_ifblock by (cbn [test]; by rewrite (var_eq _ _ _ _ Hres)). change (conv CSize (-1)) with (2 ^ 32 - 1).
    rewrite (proj2 (Z.eqb_neq _ _)) by lia. cbn [negb].
    etransitivity; [eapply exec_next, exec_setfield; [by eapply eval_var|exact S2|done]|].
    etransitivity; [eapply exec_next, exec_setfield; [done|exact S2|done]|].
    etransitivity; [eapply exec_next, exec_setfield; [cbn [Cgen.eval]; by rewrite defines_null|exact S2|done]|].
    cbn [set_mem cmem]. change (store_ty _ (store_ty _ (store_ty _ _ _ _) _ _) _ _) with m3.
    match goal with |- Cgen.exec _ _ _ ?s _ = _ => change s with (set_mem st m3) end.
    etransitivity; [apply (exec_next _ _ _ (set_mem st m3) _ _ st4)|].
    { cbn [Cgen.exec_line exec_stmt].
      rewrite (exec_call _ _ _ _ _ _ _ [AVal (m_reply_port msg); AVal snd] 0 (with_net st m4 w)).
      - cbn [mbind outcome_bind]. unfold ty_of. cbn [with_net vars]. by rewrite Hret.
      - cbn [eval_args eval_arg].
        assert (eval (set_mem st m3) (EField "rcv_buf" "reply_port") = Ret (m_reply_port msg)) as ->.
        { rewrite <- F4. cbn [Cgen.eval]. unfold var. cbn [set_mem vars]. rewrite S3. cbn [mbind outcome_bind].
          change (Ret (load_ty CInt m3 (rcv + 16)) = Ret (load_ty CInt (cmem st) (rcv + 16))). f_equal. unfold load_ty. do 2 f_equal.
          apply load_bytes_ext. intros c Hc. cbn in Hc. unfold m3, m2, m1, store32.
          rewrite !load8_store_bytes_out; [done|..]; rewrite length_le_encode; lia. }
        cbn [mbind outcome_bind Cgen.eval]. by rewrite (var_eq (set_mem st m3) "snd_buf" _ _ S2).
      - unfold server_ext. rewrite decide_True by by left. unfold net_ext. rewrite decide_True by done. cbn [set_mem cmem]. rewrite E4.
        rewrite stamped_prepare, stamped_eq. done. }
    etransitivity; [apply (exec_next _ _ _ st4 _ _ st4)|done].
    rewrite (exec_if _ _ _ _ _ _ false); [done|]. cbn [test].
    rewrite (var_eq _ "ret" CInt 0); [done|]. cbn [vars st4 set_var]. by rewrite lookup_insert_eq.
  - eapply server_keep; [exact Hs|]. intros z Hz. cbn [set_var vars st4 with_net]. rewrite lookup_insert_ne; [done|]. intros <-.
    repeat (apply elem_of_cons in Hz as [Hz|Hz]; [discriminate Hz|]). by apply not_elem_of_nil in Hz.
Qed.

(** A whole turn: the request is taken, its handler called once with its values, the reply sent. *)
Lemma dispatch_ok (Hhx : hx = handle_ext fuel fns H) st port snd rcv msg rest i fn body l rv ans : codes_ok fns -> server_at st port snd rcv -> byte_mem (cmem st) ->
  first_at port (inbox (world st)) = Some (msg, rest) -> msg_wf msg -> msg_ok msg -> 28 + m_len msg <= 4096 ->
  fns !! i = Some fn -> m_code msg = 1 + Z.of_nat i -> marshaller_body fn = Ret body ->
  served fn msg l rv snd rcv (load_bytes (cmem st) (snd + 28) 4068) -> answers st = buffers l ++ ans ->
  let answer := stamped (mkMsg 0 0 (-1) 0 (reply_data fn rv (i_out <$> l) (load_bytes (cmem st) (snd + 28) 4068))) pid in
  let called := calls (world st) ++ [(fn_name fn, m_sender msg, seen_by l)] in
  exists st1, dispatch_with fuel fns hx links pid peer st = Ret (None, st1) /\
    server_at st1 port snd rcv /\ byte_mem (cmem st1) /\ answers st1 = ans /\
    world st1 = if replies fn then mkSW called (rest ++ peer (m_reply_port msg) answer) (outbox (world st) ++ [(m_reply_port msg, answer)])
                else mkSW called rest (outbox (world st)).
Proof.
  intros Hcodes Hs Hb Hf Hw Hok Hlen Hi Hcode Hbody Hsv Hans answer called.
  pose proof (sa_apart _ _ _ _ Hs) as Hap.
  destruct (turn_recv st (Switch (EField "rcv_buf" "code") (dispatch_case <$> fns)
     [Line (SPanic "Invalid message code 0x%X from %d" [EField "rcv_buf" "code"; EField "rcv_buf" "sender"])] ::
   [Blank; IfBlock (NeMinusOne "result")
     [Line (SSetField "snd_buf" "len" (EVar "result"));
      Line (SSetField "snd_buf" "reply_port" (EConst "INVALID_PORT"));
      Line (SSetField "snd_buf" "code" (EConst "MSG_NULL"));
      Line (SCall (Into "ret") "msgsend" [EField "rcv_buf" "reply_port"; EVar "snd_buf"]);
      If (IsNz "ret") [Line (SPanic "msgsend() failed" [])]]]) port snd rcv msg rest Hs Hb Hf Hw Hok Hlen)
    as (st1 & E1 & S1 & R1 & B1 & O1 & A1 & W1 & V1 & T1).
  assert (load_bytes (cmem st1) (snd + 28) 4068 = load_bytes (cmem st) (snd + 28) 4068) as Hold.
  { apply load_bytes_ext. intros c Hc. apply O1. lia. }
  destruct (turn_call Hhx st1 port snd rcv msg i fn body l rv ans
    [Line (SPanic "Invalid message code 0x%X from %d" [EField "rcv_buf" "code"; EField "rcv_buf" "sender"])] S1)
    as (st2 & E2 & S2 & V2 & L2 & R2 & A2 & W2); [done|by exists None|done|done|done|done|by rewrite Hold|congruence|].
  rewrite Hold in *. pose proof (sv_fits _ _ _ _ _ _ _ Hsv) as Hfit.
  destruct (turn_reply st2 port snd rcv msg fn rv (i_out <$> l) (load_bytes (cmem st) (snd + 28) 4068) _ (Some 0) Hcodes S2 R2 eq_refl Hfit)
    as (st3 & E3 & S3 & B3 & A3 & W3); [by rewrite V2, lookup_insert_eq|by rewrite V2, lookup_insert_ne|done|].
  exists st3. split; [|split; [done|split; [done|split; [congruence|]]]].
  - unfold dispatch_with, dispatch_body. etransitivity; [exact E1|]. etransitivity; [apply (exec_next _ _ _ _ _ _ st2); exact E2|exact E3].
  - rewrite W3, W2, W1. by destruct (replies fn).
Qed.

(** ** Requests the server does not survive *)
Lemma turn_panics st port snd rcv msg rest : server_at st port snd rcv -> first_at port (inbox (world st)) = Some (msg, rest) ->
  4096 < 28 + m_len msg -> dispatch_with fuel fns hx links pid peer st = Fault FPanic.
Proof.
  intros [S1 S2 S3 S4 S5 S6] Hf Hsz. unfold dispatch_with, dispatch_body.
  set (sta := set_var (with_net st (bzero (cmem st) rcv 4096) (mkSW (calls (world st)) (inbox (world st)) (outbox (world st)))) "outsize" CUnsigned (28 + m_len msg)).
  set (stb := set_var sta "ret" CInt 3).
  etransitivity; [apply (exec_next _ _ _ st _ _ stb)|].
  { cbn [Cgen.exec_line exec_stmt].
    rewrite (exec_call _ _ _ _ _ _ _ [AVal port; AVal rcv; AVal 4096; ARef "outsize"] 3 sta); [done|..].
    - cbn [eval_args eval_arg Cgen.eval]. by rewrite (var_eq _ _ _ _ S1), (var_eq _ _ _ _ S3).
    - unfold server_ext. rewrite decide_True by by right. unfold net_ext. rewrite decide_False, decide_True by done.
      rewrite Hf. unfold msgrecv_lib. change sizeof_message with 28. rewrite !(proj2 (Z.leb_gt _ _)) by done. done. }
  apply exec_fault. rewrite (exec_if _ _ _ _ _ _ true); [done|]. cbn [test].
  rewrite (var_eq _ "ret" CInt 3); [done|]. cbn [vars stb set_var]. by rewrite lookup_insert_eq.
Qed.

Lemma turn_rejects st port snd rcv msg rest f : server_at st port snd rcv -> byte_mem (cmem st) ->
  first_at port (inbox (world st)) = Some (msg, rest) -> msg_wf msg -> msg_ok msg -> 28 + m_len msg <= 4096 ->
  (forall st1 def, server_at st1 port snd rcv -> request_at (cmem st1) rcv msg -> (forall st2, exec st2 def = Fault FPanic) ->
     exec_line st1 (Switch (EField "rcv_buf" "code") (dispatch_case <$> fns) def) = Fault f) ->
  dispatch_with fuel fns hx links pid peer st = Fault f.
Proof.
  intros Hs Hb Hf Hw Hok Hl Hsw. unfold dispatch_with, dispatch_body.
  match goal with |- exec st (_ :: _ :: _ :: _ :: ?k) = _ =>
    destruct (turn_recv st k port snd rcv msg rest Hs Hb Hf Hw Hok Hl) as (st1 & E1 & S1 & R1 & B1 & _) end.
  etransitivity; [exact E1|]. apply exec_fault. by apply Hsw.
Qed.

Lemma turn_unknown st port snd rcv msg def : server_at st port snd rcv -> request_at (cmem st) rcv msg -> codes_ok fns ->
  (forall i fn, fns !! i = Some fn -> m_code msg <> 1 + Z.of_nat i) -> (forall st2, exec st2 def = Fault FPanic) ->
  exec_line st (Switch (EField "rcv_buf" "code") (dispatch_case <$> fns) def) = Fault FPanic.
Proof.
  intros Hs Hr Hcodes Hno Hdef. destruct (request_fields st snd rcv port msg Hs Hr) as (_ & F2 & _).
  rewrite (exec_switch_default _ _ _ _ _ _ _ _ F2); [apply Hdef|]. apply Forall_fmap, Forall_forall. intros g Hg.
  apply list_elem_of_lookup_1 in Hg as [j Hj]. exists (1 + Z.of_nat j). split; [by apply (defines_at fns j)|]. intros E. by apply (Hno j g Hj).
Qed.

Lemma turn_malformed st port snd rcv msg i fn body def : server_at st port snd rcv -> request_at (cmem st) rcv msg -> codes_ok fns ->
  fns !! i = Some fn -> m_code msg = 1 + Z.of_nat i -> marshaller_body fn = Ret body -> own_names fn ->
  parse_args (args fn) (m_data msg) = None ->
  exec_line st (Switch (EField "rcv_buf" "code") (dispatch_case <$> fns) def) = Fault FAssert.
Proof.
  intros Hs Hreq Hcodes Hi Hcode Hbody Hown Hparse.
  destruct (request_fields st snd rcv port msg Hs Hreq) as (F1 & F2 & F3 & F4 & F5). pose proof Hreq as [Hmsg Hbyte Hlen].
  pose proof Hs as [S1 S2 S3 S4 (S51 & S52 & S53 & S54) S6]. pose proof Hcodes as [[_ Hnd]%NoDup_cons Hcount].
  assert (- 2 ^ 31 <= m_sender msg < 2 ^ 31) as Hwho by (rewrite <- Hmsg; exact (swrap_range 32 _ eq_refl)).
  assert (0 <= m_len msg) as Hl0 by (unfold m_len; lia).
  set (stm := mkC (marshall_params (m_sender msg) (snd + 28) 4068 (rcv + 28) (m_len msg)) (cmem st) (answers st) (world st)).
  assert (Cgen.exec fuel (rpc_defines fns) hx stm body = Fault FAssert) as Eb.
  { clear Hmsg Hreq. unfold marshaller_body in Hbody. invert_ret. rename a into des, a0 into call, a1 into ser.
    pose proof (deserialize_ok fuel (rpc_defines fns) hx stm fn des (call ++ ser) (m_sender msg) (snd + 28) 4068 (rcv + 28) (m_len msg) Hbody0 Hown
      ltac:(apply marshall_entered; lia) ltac:(lia) Hl0 ltac:(lia) Hbyte) as Hd. cbn [stm cmem] in Hd. rewrite F5, Hparse in Hd. exact Hd. }
  rewrite (exec_switch _ _ _ _ _ (m_code msg) _ _ i (msg_name fn) (dispatch_case fn).2); [|done|by rewrite list_lookup_fmap, Hi|..].
  - cbn [dispatch_case Datatypes.snd]. apply exec_fault. cbn [Cgen.exec_line concat app]. unfold call.
    rewrite (dispatch_args st snd rcv port msg Hs Hreq).
    cbn [mbind outcome_bind]. unfold server_ext. rewrite decide_False by (intros [Hc|Hc]; discriminate Hc). unfold marshall_ext.
    rewrite (find_named "marshall_" fns i fn Hnd Hi), Hbody. cbn [mbind outcome_bind]. fold stm. by rewrite Eb.
  - rewrite Hcode. by apply defines_at.
  - intros j kj bj Hj Hb. rewrite list_lookup_fmap in Hb. destruct (fns !! j) as [g|] eqn:Eg; [|done]. injection Hb as <- <-.
    exists (1 + Z.of_nat j). split; [by apply defines_at|lia].
Qed.
End dispatch.
