(* ===== verification/RpcClient.v ===== *)
(** The client side of the generated stubs ([tools/rpcgen/gen_client.c]): the request that a stub
    sends, and what it makes of the reply. *)
From Stdlib Require Import Ascii String.
From S2P Require Import Prelude Mem Str StrSpec Rpcgen Cgen Rpcstub RpcWire RpcServer RpcMsg RpcDispatch.

(** ** Parameters *)

(** What a request carries for a parameter. *)
Definition wire_in (arg : RPCArgument) (v : wval) : list Z :=
  match is_out arg, type (arg_type arg), v with
  | false, IntType, VInt z => u8 (code "i") :: le_encode 4 z
  | false, LongType, VLong z => u8 (code "l") :: le_encode 8 z
  | false, StringType, VBytes l => u8 (code "s") :: le_encode 4 (Z.of_nat (length l) + 1) ++ l ++ [0]
  | false, BlobType, VBytes l => u8 (code "b") :: le_encode 4 (Z.of_nat (length l)) ++ l
  | true, StringType, VCap n => u8 (code "S") :: le_encode 4 n
  | true, BlobType, VCap n => u8 (code "B") :: le_encode 4 n
  | _, _, _ => []
  end.

(** A parameter of a call of the stub: the value given, the buffer it points to, the address of the
    size of an out blob, and the value the server answers for an out parameter. *)
Record citem : Type := mkCI { c_arg : RPCArgument; c_in : wval; c_buf : Z; c_size : Z; c_out : wval }.
Definition wire_item (c : citem) : list Z := wire_in (c_arg c) (c_in c).
Definition wire_ins (cs : list citem) : list Z := concat (wire_item <$> cs).

(** The variables the stub has for a parameter. *)
Definition client_names (arg : RPCArgument) : list string :=
  let x := arg_name arg in
  match is_out arg, type (arg_type arg) with
  | false, StringType => [x; x +:+ "_strlen"]
  | false, BlobType => [x; size_name x]
  | true, StringType => [x; size_name x; x +:+ "_outsize"]
  | true, BlobType => [x; size_name x; "received_" +:+ x +:+ "_size"]
  | _, _ => [x]
  end.
Definition client_fixed : list string :=
  ["rpc_result"; "rpc_port"; "rpc_reply_port"; "sndbuf_size"; "sndbuf"; "snd_ptr"; "snd_rem"; "ret"; "rcvbuf_size"; "rcvbuf";
   "rcvbuf_ptr"; "rcvbuf_rem"; "rpc_typecode"].
Definition cnames_ok (arg : RPCArgument) : Prop :=
  NoDup (client_names arg) /\ Forall (fun x => x ∉ client_fixed) (client_names arg).

(** The bytes a stub reads for a parameter before it sends, and those it writes on the reply. *)
Definition reads (c : citem) : list (Z * Z) :=
  match is_out (c_arg c), type (arg_type (c_arg c)), c_in c with
  | false, StringType, VBytes l => [(c_buf c, Z.of_nat (length l) + 1)]
  | false, BlobType, VBytes l => [(c_buf c, Z.of_nat (length l))]
  | true, BlobType, _ => [(c_size c, 4)]
  | _, _, _ => []
  end.
Definition clear_of (lo hi : Z) (s : Z * Z) : Prop := s.1 + s.2 <= lo \/ hi <= s.1.

Lemma str_at_keep m m1 q l : str_at m q l ->
  (forall b, q <= b < q + Z.of_nat (length l) + 1 -> load8 m1 b = load8 m b) -> str_at m1 q l.
Proof.
  intros [E1 E2 E3] Hm. split; [|done|].
  - etransitivity; [|exact E1]. apply load_bytes_ext. intros b Hb. apply Hm. lia.
  - rewrite Hm by lia. done.
Qed.

Section client.
Context {W : Type}.
Variable fuel : nat.
Variable defines : string -> option Z.
Variable ext : string -> list carg -> cstate W -> outcome (Z * cstate W).
Implicit Types st : cstate W.
Local Abbreviation exec := (exec fuel defines ext).
Local Abbreviation exec_line := (exec_line fuel defines ext).
Local Abbreviation eval := (eval fuel defines).

(** The variables of a parameter hold its value. *)
Definition held st (c : citem) : Prop :=
  let x := arg_name (c_arg c) in
  match is_out (c_arg c), type (arg_type (c_arg c)), c_in c with
  | false, IntType, VInt z => vars st !! x = Some (CInt, Some z) /\ - 2 ^ 31 <= z < 2 ^ 31
  | false, LongType, VLong z => vars st !! x = Some (CLong, Some z) /\ - 2 ^ 63 <= z < 2 ^ 63
  | false, StringType, VBytes l =>
      vars st !! x = Some (CConstPtr CChar, Some (c_buf c)) /\ str_at (cmem st) (c_buf c) l /\ (length l < fuel)%nat
  | false, BlobType, VBytes l =>
      vars st !! x = Some (CConstPtr CVoid, Some (c_buf c)) /\
      vars st !! size_name x = Some (CSize, Some (Z.of_nat (length l))) /\ load_bytes (cmem st) (c_buf c) (length l) = l
  | true, IntType, VNone => vars st !! x = Some (CPtr CInt, Some (c_buf c))
  | true, LongType, VNone => vars st !! x = Some (CPtr CLong, Some (c_buf c))
  | true, StringType, VCap n =>
      vars st !! x = Some (CPtr CChar, Some (c_buf c)) /\ vars st !! size_name x = Some (CSize, Some n) /\ 0 <= n < 2 ^ 32
  | true, BlobType, VCap n =>
      vars st !! x = Some (CPtr CVoid, Some (c_buf c)) /\ vars st !! size_name x = Some (CPtr CSize, Some (c_size c)) /\
      load_ty CSize (cmem st) (c_size c) = n /\ 0 <= n < 2 ^ 32
  | _, _, _ => False
  end.
(** The length of a string is known. *)
Definition measured st (c : citem) : Prop :=
  match is_out (c_arg c), type (arg_type (c_arg c)), c_in c with
  | false, StringType, VBytes l => vars st !! (arg_name (c_arg c) +:+ "_strlen") = Some (CSize, Some (Z.of_nat (length l)))
  | _, _, _ => True
  end.

Lemma held_keep st st1 c : held st c -> (forall x, x ∈ client_names (c_arg c) -> vars st1 !! x = vars st !! x) ->
  (forall s b, s ∈ reads c -> s.1 <= b < s.1 + s.2 -> load8 (cmem st1) b = load8 (cmem st) b) -> held st1 c.
Proof.
  destruct c as [[x [ty md]] v q s o]. unfold held, client_names, reads. cbn [is_out arg_type modifier type arg_name c_arg c_in c_buf c_size].
  intros Hh Hv Hm. assert (forall a n, (a, n) ∈ reads (mkCI (mkArg x (mkType ty md)) v q s o) -> load_bytes (cmem st1) a (Z.to_nat n) =
    load_bytes (cmem st) a (Z.to_nat n)) as Hl.
  { intros a n Ha. apply load_bytes_ext. intros b Hb. apply (Hm (a, n)); [done|]. cbn. lia. }
  unfold reads in Hl. cbn [is_out arg_type modifier type arg_name c_arg c_in c_buf c_size] in Hl.
  destruct md, ty, v as [z|z|l|n|]; try done; rewrite !Hv by subset_in; try done.
  1, 3: destruct Hh as (H1 & H2 & H3); split; [done|]; split; [|done]; apply (str_at_keep (cmem st)); [done|]; intros b Hb;
    apply (Hm (q, Z.of_nat (length l) + 1)); [subset_in|cbn; lia].
  1, 2: destruct Hh as (H1 & H2 & H3); split; [done|]; split; [done|]; specialize (Hl q (Z.of_nat (length l)) ltac:(subset_in));
    rewrite Nat2Z.id in Hl; by rewrite Hl.
  destruct Hh as (H1 & H2 & H3 & H4). split; [done|]. split; [done|]. split; [|done].
  unfold load_ty in *. change (Z.to_nat (sizeof CSize)) with (Z.to_nat 4) in *. by rewrite (Hl s 4) by subset_in.
Qed.

Lemma measured_keep st st1 c : measured st c -> (forall x, x ∈ client_names (c_arg c) -> vars st1 !! x = vars st !! x) -> measured st1 c.
Proof.
  destruct c as [[x [ty md]] v q s o]. unfold measured, client_names. cbn [is_out arg_type modifier type arg_name c_arg c_in].
  intros Hh Hv. destruct md, ty, v; try done; by rewrite !Hv by subset_in.
Qed.

(** ** Sizes *)

(** The variable [x] has become [n]; apart from it only variables of [X] changed. *)
Record grew (x : string) (n : Z) (X : list string) st st1 : Prop := {
  gr_var : vars st1 !! x = Some (CSize, Some n);
  gr_mem : cmem st1 = cmem st;
  gr_rest : answers st1 = answers st /\ world st1 = world st;
  gr_vars y : y <> x -> y ∉ X -> vars st1 !! y = vars st !! y
}.
Lemma grew_trans x n k X Y st st1 st2 : grew x n X st st1 -> grew x k Y st1 st2 -> grew x k (X ++ Y) st st2.
Proof.
  intros [_ M1 [A1 W1] V1] [C2 M2 [A2 W2] V2]. split; [done|congruence|split; congruence|].
  intros y Hy [Hx1 Hx2]%not_elem_of_app. by rewrite V2, V1.
Qed.
Lemma grew_weaken x n X Y st st1 : grew x n X st st1 -> X ⊆ Y -> grew x n Y st st1.
Proof. intros [C M R V] H. split; [done..|]. intros y Hy HY. apply V; [done|]. by intros Hc%H. Qed.

(** An expression that does not depend on [x]. *)
Definition apart_from (x : string) st (e : expr) (v : Z) : Prop :=
  forall st', (forall y, y <> x -> vars st' !! y = vars st !! y) -> cmem st' = cmem st -> eval st' e = Ret v.

Lemma grow x st es vs n k : vars st !! x = Some (CSize, Some n) -> 0 <= n ->
  Forall2 (fun '(e, _) v => 0 <= v /\ apart_from x st e v) es vs -> n + foldr Z.add 0 vs < 2 ^ 32 ->
  exists st1, exec st (((fun '(e, c) => Note (SAdd x e) c) <$> es) ++ k) = exec st1 k /\ grew x (n + foldr Z.add 0 vs) [] st st1.
Proof.
  intros Hx Hn Hes. revert st n Hx Hn Hes. revert vs. induction es as [|[e c] es IH]; intros vs st n Hx Hn Hes Hr.
  - apply Forall2_nil_inv_l in Hes as ->. exists st. split; [done|]. cbn. rewrite Z.add_0_r. by split.
  - apply Forall2_cons_inv_l in Hes as (v & vs' & [Hv He] & Hes & ->). cbn [foldr] in *.
    assert (0 <= foldr Z.add 0 vs') as Hpos.
    { clear -Hes. induction Hes as [|[e c] v es vs [Hv _] _ IH]; cbn; lia. }
    set (st1 := set_var st x CSize (n + v)).
    assert (vars st1 !! x = Some (CSize, Some (n + v))) as Hx1.
    { cbn [st1 set_var vars]. rewrite lookup_insert_eq, conv_size by lia. done. }
    assert (forall y, y <> x -> vars st1 !! y = vars st !! y) as Ho by (intros y Hy; cbn [st1 set_var vars]; by rewrite lookup_insert_ne).
    destruct (IH vs' st1 (n + v) Hx1 ltac:(lia)) as (st2 & E2 & G2); [|lia|].
    { eapply Forall2_impl; [exact Hes|]. intros [e' c'] v' [Hv' He']. split; [done|]. intros st' Hs' Hm'. apply He'; [|done].
      intros y Hy. by rewrite Hs', Ho. }
    exists st2. split.
    + etransitivity; [|exact E2]. rewrite fmap_cons, <- app_comm_cons. apply exec_next. cbn [Cgen.exec_line exec_stmt].
      rewrite (He st); [|done|done]. cbn [mbind outcome_bind]. by rewrite (bump_eq _ _ _ _ _ Hx).
    + rewrite <- Z.add_assoc in G2. apply (grew_trans x (n + v) _ [] [] st st1 st2); [|exact G2]. split; [done|done|done|]. intros y Hy _. by apply Ho.
Qed.

Lemma apart_num x st n : apart_from x st (ENum n) n.
Proof. done. Qed.
Lemma apart_sizeof x st t : apart_from x st (ESizeof t) (sizeof t).
Proof. done. Qed.
Lemma apart_var x st y t v : y <> x -> vars st !! y = Some (t, Some v) -> apart_from x st (EVar y) v.
Proof. intros Hy Hv st' Hs _. apply (eval_var _ _ _ _ t). by rewrite Hs. Qed.
Lemma apart_add x st a b va vb : apart_from x st a va -> apart_from x st b vb -> apart_from x st (EAdd a b) (u32 (va + vb)).
Proof. intros Ha Hb st' Hs Hm. cbn [Cgen.eval]. by rewrite Ha, Hb. Qed.

Ltac plain H es vs :=
  let st1 := fresh "st1" in let E := fresh "E" in let G := fresh "G" in let Hh := fresh "Hh" in
  edestruct (H es vs) as (st1 & E & G & Hh);
  [done|repeat constructor; (done || lia || (eapply apart_var; [notin|match goal with H : _ /\ _ /\ _ |- _ => apply H end]))|cbn [foldr]; lia|exists st1; split; [exact E|]; split; [exact G|done]].
Lemma size_one st c ls k n : arg_ok (c_arg c) = true -> client_arg_size (c_arg c) = Ret ls -> held st c -> cnames_ok (c_arg c) ->
  vars st !! "sndbuf_size" = Some (CSize, Some n) -> 0 <= n -> n + Z.of_nat (length (wire_item c)) < 2 ^ 32 ->
  exists st1, exec st (ls ++ k) = exec st1 k /\
    grew "sndbuf_size" (n + Z.of_nat (length (wire_item c))) (client_names (c_arg c)) st st1 /\ held st1 c /\ measured st1 c.
Proof.
  destruct c as [[x [ty md]] v q s o]. intros Ha Hls Hh [Hnd Hfix] Hn Hn0 Hr.
  assert (forall es vs X, ls = (fun '(e, c) => Note (SAdd "sndbuf_size" e) c) <$> es ->
    Forall2 (fun '(e, _) v => 0 <= v /\ apart_from "sndbuf_size" st e v) es vs ->
    foldr Z.add 0 vs = Z.of_nat (length (wire_item (mkCI (mkArg x (mkType ty md)) v q s o))) ->
    exists st1, exec st (ls ++ k) = exec st1 k /\
      grew "sndbuf_size" (n + Z.of_nat (length (wire_item (mkCI (mkArg x (mkType ty md)) v q s o)))) X st st1 /\
      held st1 (mkCI (mkArg x (mkType ty md)) v q s o)) as Hplain.
  { intros es vs X -> Hes Hsum. destruct (grow "sndbuf_size" st es vs n k Hn Hn0 Hes ltac:(lia)) as (st1 & E1 & G1).
    exists st1. split; [done|]. rewrite Hsum in G1. split; [eapply grew_weaken; [exact G1|apply list_subseteq_nil]|].
    eapply held_keep; [exact Hh| |intros; by rewrite (gr_mem _ _ _ _ _ G1)]. intros y Hy. apply (gr_vars _ _ _ _ _ G1); [|apply not_elem_of_nil].
    intros ->. rewrite Forall_forall in Hfix. apply (Hfix _ Hy). unfold client_fixed. subset_in. }
  destruct md, ty; try discriminate Ha; cbn in Hls; injection Hls as <-;
    unfold held, measured, client_names, wire_item, wire_in, client_fixed in *;
    cbn [is_out arg_type modifier type arg_name c_arg c_in c_buf c_size] in *; destruct v as [z|z|l|cap|]; try done;
    cbn [length] in *; rewrite ?length_app, ?length_le_encode in *; cbn [length] in *.
  - plain Hplain [(ENum 1, typecode_note x); (ESizeof CInt, x)] [1; 4].
  - destruct Hh as (H1 & H2 & H3).
    assert (x +:+ "_strlen" <> "sndbuf_size" /\ x <> "sndbuf_size" /\ x <> x +:+ "_strlen") as (N1 & N2 & N3) by notin.
    destruct (grow "sndbuf_size" st [(ENum 1, typecode_note x)] [1] n
      (Note (SDecl CSize (x +:+ "_strlen") (EStrlen x)) x :: [Note (SAdd "sndbuf_size" (ESizeof CSize)) x;
       Note (SAdd "sndbuf_size" (EAdd (EVar (x +:+ "_strlen")) (ENum 1))) x] ++ k) Hn Hn0) as (st1 & E1 & G1); [by repeat constructor|cbn; lia|].
    set (st2 := set_var st1 (x +:+ "_strlen") CSize (Z.of_nat (length l))).
    assert (vars st2 !! (x +:+ "_strlen") = Some (CSize, Some (Z.of_nat (length l)))) as Hs2.
    { cbn [st2 set_var vars]. rewrite lookup_insert_eq, conv_size by lia. done. }
    destruct (grow "sndbuf_size" st2 [(ESizeof CSize, x); (EAdd (EVar (x +:+ "_strlen")) (ENum 1), x)] [4; Z.of_nat (length l) + 1] (n + 1) k)
      as (st3 & E3 & G3).
    + cbn [st2 set_var vars]. rewrite lookup_insert_ne by done. apply G1.
    + lia.
    + constructor; [by split|]. constructor; [|constructor]. split; [lia|].
      rewrite <- (u32_small (Z.of_nat (length l) + 1)) by lia. apply apart_add; [by eapply apart_var|apply apart_num].
    + cbn. lia.
    + assert (grew "sndbuf_size" (n + 1) [x +:+ "_strlen"] st1 st2) as G2.
      { split; [|done|done|].
        - cbn [st2 set_var vars]. rewrite lookup_insert_ne by done. apply G1.
        - intros y Hy Hyx. cbn [st2 set_var vars]. rewrite lookup_insert_ne; [done|]. notin. }
      assert (grew "sndbuf_size" (n + (1 + (4 + (Z.of_nat (length l) + 1)))) [x +:+ "_strlen"] st st3) as G.
      { pose proof (grew_trans _ _ _ _ _ _ _ _ (grew_trans _ _ _ _ _ _ _ _ G1 G2) G3) as G. cbn [foldr app] in G.
        replace (n + 1 + (4 + (Z.of_nat (length l) + 1 + 0))) with (n + (1 + (4 + (Z.of_nat (length l) + 1)))) in G by lia. exact G. }
      exists st3. split; [|split; [|split]].
      * etransitivity; [exact E1|]. etransitivity; [apply (exec_next _ _ _ st1 _ _ st2)|exact E3]. cbn [Cgen.exec_line exec_stmt Cgen.eval].
        rewrite (var_eq st1 x (CConstPtr CChar) q) by (by rewrite (gr_vars _ _ _ _ _ G1) by notin). cbn [mbind outcome_bind].
        rewrite (gr_mem _ _ _ _ _ G1), (strlen_ok (cmem st) q l fuel) by (done || lia). done.
      * replace (Z.of_nat (S (4 + (length l + 1)))) with (1 + (4 + (Z.of_nat (length l) + 1))) by lia. eapply grew_weaken; [exact G|subset].
      * rewrite (gr_vars _ _ _ _ _ G) by notin. by rewrite (gr_mem _ _ _ _ _ G).
      * by rewrite (gr_vars _ _ _ _ _ G3) by notin.
  - plain Hplain [(ENum 1, typecode_note x); (ESizeof CLong, x)] [1; 8].
  - plain Hplain [(ENum 1, typecode_note x); (ESizeof CSize, x); (EVar (size_name x), x)] [1; 4; Z.of_nat (length l)].
  - plain Hplain (@nil (expr * string)) (@nil Z).
  - plain Hplain [(ENum 1, typecode_note x); (ESizeof CSize, x +:+ " size")] [1; 4].
  - plain Hplain (@nil (expr * string)) (@nil Z).
  - plain Hplain [(ENum 1, typecode_note x); (ESizeof CSize, x +:+ " size")] [1; 4].
Qed.

Definition cnames (cs : list citem) : list string := concat (client_names <$> (c_arg <$> cs)).
Definition cowned (cs : list citem) : Prop :=
  Forall (fun c => arg_ok (c_arg c) = true) cs /\ NoDup (cnames cs) /\ Forall (fun x => x ∉ client_fixed) (cnames cs).

Lemma cnames_cons c cs : cnames (c :: cs) = client_names (c_arg c) ++ cnames cs.
Proof. done. Qed.
Lemma cnames_in c cs x : c ∈ cs -> x ∈ client_names (c_arg c) -> x ∈ cnames cs.
Proof. intros Hc Hx. apply (elem_concat client_names _ (c_arg c)); [by apply list_elem_of_fmap_2|done]. Qed.
Lemma cowned_cons c cs : cowned (c :: cs) -> arg_ok (c_arg c) = true /\ cnames_ok (c_arg c) /\ cowned cs /\
  (forall d x, d ∈ cs -> x ∈ client_names (c_arg d) -> x ∉ client_names (c_arg c)).
Proof.
  intros (Hok & Hnd & Hfix). rewrite cnames_cons in Hnd, Hfix. apply NoDup_app in Hnd as (Hn1 & Hdis & Hn2).
  apply Forall_app in Hfix as [Hf1 Hf2]. apply Forall_cons in Hok as [Ho1 Ho2]. split_and!; try done.
  intros d x Hd Hx Hc. apply (Hdis x Hc). by eapply cnames_in.
Qed.
Lemma cowned_fixed cs c x y : cowned cs -> c ∈ cs -> x ∈ client_names (c_arg c) -> y ∈ client_fixed -> x <> y.
Proof. intros (_ & _ & Hf) Hc Hx Hy ->. rewrite Forall_forall in Hf. apply (Hf y); [by eapply cnames_in|done]. Qed.
Lemma cowned_fixed_out cs y : cowned cs -> y ∈ client_fixed -> y ∉ cnames cs.
Proof. intros (_ & _ & Hf) Hy Hc. rewrite Forall_forall in Hf. by apply (Hf y). Qed.

Lemma wire_ins_cons c cs : wire_ins (c :: cs) = wire_item c ++ wire_ins cs.
Proof. done. Qed.

Lemma size_all (cs : list citem) : forall st lss k n, cowned cs -> mapM client_arg_size (c_arg <$> cs) = Ret lss -> Forall (held st) cs ->
  vars st !! "sndbuf_size" = Some (CSize, Some n) -> 0 <= n -> n + Z.of_nat (length (wire_ins cs)) < 2 ^ 32 ->
  exists st1, exec st (concat lss ++ k) = exec st1 k /\ grew "sndbuf_size" (n + Z.of_nat (length (wire_ins cs))) (cnames cs) st st1 /\
    Forall (held st1) cs /\ Forall (measured st1) cs.
Proof.
  induction cs as [|c cs IH]; intros st lss k n Hown Hls Hh Hn Hn0 Hr.
  - injection Hls as <-. exists st. cbn. rewrite Z.add_0_r. by split_and!.
  - rewrite fmap_cons in Hls. apply mapM_cons_ret in Hls as (ls & lss' & Hls0 & Hls1 & ->). apply Forall_cons in Hh as [Hh1 Hh2].
    pose proof Hown as Hown0. apply cowned_cons in Hown as (Hok & Hnm & Hown & Hdis). rewrite wire_ins_cons, length_app in Hr.
    cbn [concat]. rewrite <- app_assoc.
    destruct (size_one st c ls (concat lss' ++ k) n Hok Hls0 Hh1 Hnm Hn Hn0 ltac:(lia)) as (st1 & E1 & G1 & D1 & M1).
    destruct (IH st1 lss' k (n + Z.of_nat (length (wire_item c))) Hown Hls1) as (st2 & E2 & G2 & D2 & M2); [|apply G1|lia|lia|].
    { rewrite Forall_forall in Hh2 |- *. intros d Hd. apply (held_keep st); [by apply Hh2| |intros; by rewrite (gr_mem _ _ _ _ _ G1)].
      intros x Hx. apply (gr_vars _ _ _ _ _ G1); [|by eapply Hdis]. eapply cowned_fixed; [exact Hown|exact Hd|exact Hx|unfold client_fixed; subset_in]. }
    assert (forall x, x ∈ client_names (c_arg c) -> vars st2 !! x = vars st1 !! x) as Hk.
    { intros x Hx. apply (gr_vars _ _ _ _ _ G2).
      - eapply cowned_fixed; [exact Hown0|by left|exact Hx|unfold client_fixed; subset_in].
      - intros Hc. destruct Hown0 as (_ & Hnd & _). rewrite cnames_cons in Hnd. apply NoDup_app in Hnd as (_ & Hd & _). by apply (Hd x). }
    exists st2. split; [by rewrite E1|]. split; [|split; (constructor; [|done])].
    + rewrite wire_ins_cons, length_app, Nat2Z.inj_add, Z.add_assoc, cnames_cons. by eapply grew_trans.
    + apply (held_keep st1); [done|done|]. intros. by rewrite (gr_mem _ _ _ _ _ G2).
    + by apply (measured_keep st1).
Qed.

(** ** The arguments in the send buffer *)
Local Abbreviation send_at := (cursor "snd_ptr" "snd_rem" (CPtr CUchar)).
Local Abbreviation wrote := (wrote "snd_ptr" "snd_rem" (CPtr CUchar)).

Lemma send_cursor : "snd_ptr" <> "snd_rem" /\ forall z, 0 <= z < 2 ^ 32 -> conv (CPtr CUchar) z = z.
Proof. split; [done|apply conv_ptr]. Qed.

(** A type character, then what [l] writes. *)
Lemma send_coded st p r x c l k bs : send_at st p r -> 1 + Z.of_nat (length bs) <= r -> byte_mem (cmem st) ->
  (forall st1, wrote p r [u8 (code c)] st st1 -> send_at st1 (p + 1) (r - 1) -> byte_mem (cmem st1) ->
     exists st2, exec st1 (l ++ k) = exec st2 k /\ wrote (p + 1) (r - 1) bs st1 st2) ->
  exists st2, exec st ((put_typecode x c ++ l) ++ k) = exec st2 k /\ wrote p r (u8 (code c) :: bs) st st2.
Proof.
  intros Hc Hr Hb Hl. destruct send_cursor as [Hne Hcv].
  destruct (write_char fuel defines ext "snd_ptr" "snd_rem" (CPtr CUchar) Hne Hcv st p r c Hc ltac:(lia)) as (st1 & E1 & Hw1).
  destruct (Hl st1 Hw1) as (st2 & E2 & Hw2); [exact (wr_cursor _ _ _ _ _ _ _ _ Hw1)|by apply (wr_byte _ _ _ _ _ _ _ _ Hw1)|].
  exists st2. split; [|exact (wrote_app _ _ _ p r [u8 (code c)] bs st st1 st2 Hw1 Hw2)].
  rewrite <- app_assoc, <- E2. apply exec_then. exact E1.
Qed.

Lemma put_number st p r t e v k : send_at st p r -> byte_mem (cmem st) -> eval st e = Ret v -> 0 <= sizeof t <= r ->
  exists st1, exec st (put_value t e ++ k) = exec st1 k /\ wrote p r (le_encode (Z.to_nat (sizeof t)) v) st st1.
Proof.
  intros Hc Hb He Hr. destruct send_cursor as [Hne Hcv].
  destruct (write_exact fuel defines ext "snd_ptr" "snd_rem" (CPtr CUchar) Hne Hcv st p r t e v Hc Hb He Hr) as (st1 & E & Hw).
  exists st1. split; [|done]. exact (exec_then fuel defines ext st _ ([Blank] ++ k) st1 E).
Qed.

Lemma put_counted st p r x tx q n total len k : send_at st p r -> byte_mem (cmem st) -> vars st !! x = Some (tx, Some q) ->
  steady fuel defines "snd_ptr" "snd_rem" st n len -> steady fuel defines "snd_ptr" "snd_rem" st total (4 + len) -> 0 <= len -> 4 + len <= r ->
  q + len <= p \/ p + r <= q ->
  exists st1, exec st (put_bytes x n total ++ k) = exec st1 k /\ wrote p r (le_encode 4 len ++ load_bytes (cmem st) q (Z.to_nat len)) st st1.
Proof.
  intros Hc Hb Hx Hn Ht Hl Hr Hd. destruct send_cursor as [Hne Hcv].
  destruct (write_bytes fuel defines ext "snd_ptr" "snd_rem" (CPtr CUchar) Hne Hcv st p r x tx q n total len Hc Hb Hx Hn Ht Hl Hr ltac:(lia))
    as (st1 & E & Hw).
  exists st1. split; [|done]. exact (exec_then fuel defines ext st _ ([Blank] ++ k) st1 E).
Qed.

Lemma wrote_held st st1 p r bs lo hi c : wrote p r bs st st1 -> held st c -> measured st c -> lo <= p -> p + Z.of_nat (length bs) <= hi ->
  Forall (clear_of lo hi) (reads c) -> (forall x, x ∈ client_names (c_arg c) -> x ∉ client_fixed) -> held st1 c /\ measured st1 c.
Proof.
  intros Hw Hh Hm Hlo Hhi Hcl Hn.
  assert (forall x, x ∈ client_names (c_arg c) -> vars st1 !! x = vars st !! x) as Hv.
  { intros x Hx. apply (wr_vars _ _ _ _ _ _ _ _ Hw); intros ->; apply (Hn _ Hx); unfold client_fixed; subset_in. }
  split; [|by apply (measured_keep st)]. apply (held_keep st); [done|done|]. intros a b Ha Hb.
  rewrite (wr_mem _ _ _ _ _ _ _ _ Hw b). apply load8_store_bytes_out. rewrite Forall_forall in Hcl. specialize (Hcl a Ha). unfold clear_of in Hcl. lia.
Qed.

Lemma put_one st p r lo hi c ls k : arg_ok (c_arg c) = true -> client_arg_serializer (c_arg c) = Ret ls -> send_at st p r ->
  byte_mem (cmem st) -> lo <= p -> p + r <= hi -> held st c -> measured st c -> cnames_ok (c_arg c) ->
  Forall (clear_of lo hi) (reads c) -> Z.of_nat (length (wire_item c)) <= r ->
  exists st1, exec st (ls ++ k) = exec st1 k /\ wrote p r (wire_item c) st st1.
Proof.
  intros Ha Hls Hc Hb Hlo Hhi Hh Hm [Hnd Hfix] Hcl Hr. pose proof Hc as (_ & _ & Hp0 & Hr0 & Hpr).
  assert (forall cc l bs, ls = put_typecode (arg_name (c_arg c)) cc ++ l -> wire_item c = u8 (code cc) :: bs ->
    (forall st1, held st1 c -> measured st1 c -> send_at st1 (p + 1) (r - 1) -> byte_mem (cmem st1) ->
       exists st2, exec st1 (l ++ k) = exec st2 k /\ wrote (p + 1) (r - 1) bs st1 st2) ->
    exists st2, exec st (ls ++ k) = exec st2 k /\ wrote p r (wire_item c) st st2) as Hcoded.
  { intros cc l bs -> Hw Hl. rewrite Hw in *. cbn [length] in Hr. apply send_coded; [done|lia|done|]. intros st1 Hw1 Hc1 Hb1.
    destruct (wrote_held st st1 p r _ lo hi c Hw1 Hh Hm Hlo) as [Hh1 Hm1]; [cbn; lia|done|by rewrite Forall_forall in Hfix|by apply Hl]. }
  destruct c as [[x [ty md]] v q s o].
  destruct md, ty; try discriminate Ha; cbn in Hls; injection Hls as <-;
    unfold held, measured, client_names, wire_item, wire_in, client_fixed, reads in *;
    cbn [is_out arg_type modifier type arg_name c_arg c_in c_buf c_size] in *; destruct v as [z|z|l|n|]; try done;
    cbn [length] in *; rewrite ?length_app, ?length_le_encode in *; cbn [length] in *;
    try (exists st; split; [done|by apply wrote_nil]).
  - eapply Hcoded; [done|done|]. intros st1 [H1 _] _ Hc1 Hb1. apply (put_number st1 _ _ CInt (EVar x) z); [done|done|by eapply eval_var|cbn; lia].
  - eapply Hcoded; [done|done|]. intros st1 (H1 & H2 & H3) Hm1 Hc1 Hb1. apply Forall_cons in Hcl as [Hcl _]. unfold clear_of in Hcl. cbn in Hcl.
    rewrite <- (str_at_bytes _ _ _ H2). apply (put_counted st1 _ _ x (CConstPtr CChar) q); [done|done|done|..|lia|lia|lia].
    + rewrite <- (u32_small (Z.of_nat (length l) + 1)) by lia. apply steady_add; [eapply steady_var; [notin|notin|done]|apply steady_num].
    + replace (4 + (Z.of_nat (length l) + 1)) with (u32 (u32 (sizeof CSize + Z.of_nat (length l)) + 1)) by (cbn [sizeof]; rewrite (u32_small (4 + Z.of_nat (length l))) by lia; rewrite u32_small by lia; lia).
      apply steady_add; [|apply steady_num]. apply steady_add; [apply steady_sizeof|eapply steady_var; [notin|notin|done]].
  - eapply Hcoded; [done|done|]. intros st1 [H1 _] _ Hc1 Hb1. apply (put_number st1 _ _ CLong (EVar x) z); [done|done|by eapply eval_var|cbn; lia].
  - eapply Hcoded; [done|done|]. intros st1 (H1 & H2 & H3) Hm1 Hc1 Hb1. apply Forall_cons in Hcl as [Hcl _]. unfold clear_of in Hcl. cbn in Hcl.
    destruct (put_counted st1 (p + 1) (r - 1) x (CConstPtr CVoid) q (EVar (size_name x)) (EAdd (ESizeof CSize) (EVar (size_name x)))
      (Z.of_nat (length l)) k Hc1 Hb1 H1) as (st2 & E2 & W2); [..|lia|lia|lia|].
    + eapply steady_var; [notin|notin|done].
    + rewrite <- (u32_small (4 + Z.of_nat (length l))) by lia. apply (steady_add _ _ _ _ _ (ESizeof CSize)); [apply steady_sizeof|eapply steady_var; [notin|notin|done]].
    + rewrite Nat2Z.id, H3 in W2. by exists st2.
  - eapply Hcoded; [done|done|]. intros st1 (H1 & H2 & H3) _ Hc1 Hb1.
    apply (put_number st1 _ _ CSize (EVar (size_name x)) n); [done|done|by eapply eval_var|cbn; lia].
  - eapply Hcoded; [done|done|]. intros st1 (H1 & H2 & H3 & H4) _ Hc1 Hb1.
    apply (put_number st1 _ _ CSize (EDeref (size_name x)) n); [done|done| |cbn; lia]. cbn [Cgen.eval]. rewrite (var_eq _ _ _ _ H2).
    cbn [mbind outcome_bind pointee of_option]. by rewrite H3.
Qed.

Lemma put_all (cs : list citem) : forall st p r lo hi lss k, cowned cs -> mapM client_arg_serializer (c_arg <$> cs) = Ret lss -> send_at st p r ->
  byte_mem (cmem st) -> lo <= p -> p + r <= hi -> Forall (held st) cs -> Forall (measured st) cs ->
  Forall (fun c => Forall (clear_of lo hi) (reads c)) cs -> Z.of_nat (length (wire_ins cs)) <= r ->
  exists st1, exec st (concat lss ++ k) = exec st1 k /\ wrote p r (wire_ins cs) st st1.
Proof.
  induction cs as [|c cs IH]; intros st p r lo hi lss k Hown Hls Hc Hb Hlo Hhi Hh Hm Hcl Hr.
  - injection Hls as <-. exists st. split; [done|by apply wrote_nil].
  - rewrite fmap_cons in Hls. apply mapM_cons_ret in Hls as (ls & lss' & Hls0 & Hls1 & ->). apply Forall_cons in Hh as [Hh1 Hh2].
    apply Forall_cons in Hm as [Hm1 Hm2]. apply Forall_cons in Hcl as [Hcl1 Hcl2].
    apply cowned_cons in Hown as (Hok & Hnm & Hown & Hdis). rewrite wire_ins_cons, length_app in Hr. cbn [concat]. rewrite <- app_assoc.
    destruct (put_one st p r lo hi c ls (concat lss' ++ k) Hok Hls0 Hc Hb Hlo Hhi Hh1 Hm1 Hnm Hcl1 ltac:(lia)) as (st1 & E1 & W1).
    assert (Forall (fun d => held st1 d /\ measured st1 d) cs) as Hk.
    { rewrite Forall_forall in Hh2, Hm2, Hcl2 |- *. intros d Hd. apply (wrote_held st st1 p r _ lo hi d W1); try auto; [lia|].
      intros x Hx Hf. by eapply (cowned_fixed cs d x x). }
    apply Forall_and in Hk as [Hk1 Hk2].
    destruct (IH st1 _ _ lo hi lss' k Hown Hls1 (wr_cursor _ _ _ _ _ _ _ _ W1)) as (st2 & E2 & W2);
      [by apply (wr_byte _ _ _ _ _ _ _ _ W1)|lia|lia|done|done|done|lia|].
    exists st2. split; [by rewrite E1|]. rewrite wire_ins_cons. by eapply wrote_app.
Qed.

Definition snd_names : list string := ["sndbuf_size"; "sndbuf"; "snd_ptr"; "snd_rem"].

(** The request in its buffer. *)
Record requested (cs : list citem) (a rp mc : Z) st st1 : Prop := {
  rq_buf : vars st1 !! "sndbuf" = Some (CPtr CMessage, Some a);
  rq_msg : addressed (cmem st1) a rp mc (wire_ins cs);
  rq_byte : byte_mem (cmem st1);
  rq_mem : same_outside (cmem st) (cmem st1) a (a + 28 + Z.of_nat (length (wire_ins cs)));
  rq_world : world st1 = world st;
  rq_held : Forall (held st1) cs;
  rq_vars x : x ∉ snd_names -> x ∉ cnames cs -> vars st1 !! x = vars st !! x
}.

Lemma wire_item_bytes st c : held st c -> byte_mem (cmem st) -> Forall is_byte (wire_item c).
Proof.
  intros Hh Hb. destruct c as [[x [ty md]] v q s o]. unfold held, wire_item, wire_in in *.
  cbn [is_out arg_type modifier type arg_name c_arg c_in c_buf] in *.
  destruct md, ty, v as [z|z|l|n|]; try done; (constructor; [apply u8_range|]); rewrite ?Forall_app; split_and?; try apply le_encode_bytes;
    try (by repeat constructor).
  1, 3: destruct Hh as (_ & [E1 E2 E3] & _); eapply Forall_impl; [exact E2|]; unfold is_char, is_byte; intros; lia.
  all: destruct Hh as (_ & _ & <-); by apply load_bytes_byte.
Qed.
Lemma wire_ins_bytes st cs : Forall (held st) cs -> byte_mem (cmem st) -> Forall is_byte (wire_ins cs).
Proof.
  intros Hh Hb. induction Hh as [|c cs Hc _ IH]; [constructor|]. rewrite wire_ins_cons. apply Forall_app. split; [by eapply wire_item_bytes|done].
Qed.

Lemma request_ok st fn cs ser k a ans rp mc : generate_client_marshaller_argserializer fn = Ret ser -> c_arg <$> cs = args fn -> cowned cs ->
  Forall (held st) cs -> byte_mem (cmem st) -> vars st !! "rpc_reply_port" = Some (CInt, Some rp) -> answers st = a :: ans -> 0 <= a ->
  a + 28 + Z.of_nat (length (wire_ins cs)) < 2 ^ 32 ->
  Forall (fun c => Forall (clear_of a (a + 28 + Z.of_nat (length (wire_ins cs)))) (reads c)) cs ->
  defines ("MSG_" +:+ strupper (fn_name fn)) = Some mc ->
  exists st1, exec st (ser ++ k) = exec st1 k /\ requested cs a rp mc st st1 /\ answers st1 = ans.
Proof.
  intros Hser Hargs Hown Hh Hb Hrp Hans Ha Hlen Hcl Hmc. unfold generate_client_marshaller_argserializer in Hser. rewrite <- Hargs in Hser.
  invert_ret. rename a0 into sizes, a1 into sers. unfold concat_lines in *. set (n := Z.of_nat (length (wire_ins cs))) in *.
  assert (forall x, x ∈ client_fixed -> x ∉ cnames cs) as Hfx by (intros; by apply cowned_fixed_out).
  set (sta := set_var st "sndbuf_size" CSize 28).
  destruct (size_all cs sta sizes ([Blank; Line (SComment "Allocate buffer and serialize args");
        Line (SMalloc (CPtr CMessage) "sndbuf" (EVar "sndbuf_size"));
        Line (SDecl (CPtr CUchar) "snd_ptr" (EField "sndbuf" "data"));
        Line (SDecl CSize "snd_rem" (ESub (EVar "sndbuf_size") (ESizeof CMessage)));
        Blank] ++ concat sers ++
       [Blank;
        Line (SSetField "sndbuf" "reply_port" (EVar "rpc_reply_port"));
        Line (SSetField "sndbuf" "code" (EConst ("MSG_" +:+ strupper (fn_name fn))));
        Line (SSetField "sndbuf" "len" (ESub (EVar "sndbuf_size") (ESizeof CMessage)))] ++ k) 28 Hown Hser0) as (stb & E1 & G1 & D1 & M1).
  { rewrite Forall_forall in Hh |- *. intros c Hc. apply (held_keep st); [by apply Hh| |done]. intros x Hx. cbn [sta set_var vars].
    rewrite lookup_insert_ne; [done|]. intros <-. by eapply (cowned_fixed cs c _ "sndbuf_size"); [..|unfold client_fixed; subset_in|]. }
  { cbn [sta set_var vars]. by rewrite lookup_insert_eq. }
  { lia. } { lia. }
  fold n in G1.
  set (stc := set_var (mkC (vars stb) (cmem stb) ans (world stb)) "sndbuf" (CPtr CMessage) a).
  set (std := set_var stc "snd_ptr" (CPtr CUchar) (u32 (a + 28))). set (ste := set_var std "snd_rem" CSize (u32 (28 + n - 28))).
  assert (forall x, x ∉ ["sndbuf"; "snd_ptr"; "snd_rem"] -> vars ste !! x = vars stb !! x) as Hve.
  { intros x Hx. cbn [ste std stc set_var vars]. by rewrite !lookup_insert_ne by notin. }
  assert (vars ste !! "sndbuf" = Some (CPtr CMessage, Some a)) as Hbuf.
  { cbn [ste std stc set_var vars]. rewrite !lookup_insert_ne by done. rewrite lookup_insert_eq, conv_ptr by lia. done. }
  assert (send_at ste (a + 28) n) as Hcur.
  { split; [|split; [|lia]]; cbn [ste std stc set_var vars].
    - rewrite lookup_insert_ne, lookup_insert_eq by done. rewrite (u32_small (a + 28)), conv_ptr by lia. done.
    - rewrite lookup_insert_eq, (u32_small (28 + n - 28)), conv_size by lia. do 3 f_equal. lia. }
  assert (Forall (fun c => held ste c /\ measured ste c) cs) as Hk.
  { rewrite Forall_forall in D1, M1 |- *. intros c Hc.
    assert (forall x, x ∈ client_names (c_arg c) -> vars ste !! x = vars stb !! x) as Hv.
    { intros x Hx. apply Hve. rewrite !not_elem_of_cons. split_and!; try apply not_elem_of_nil;
        (eapply cowned_fixed; [exact Hown|exact Hc|exact Hx|unfold client_fixed; subset_in]). }
    split; [apply (held_keep stb); [by apply D1|done|done]|apply (measured_keep stb); [by apply M1|done]]. }
  apply Forall_and in Hk as [Hk1 Hk2].
  pose proof (gr_mem _ _ _ _ _ G1) as Gm. destruct (gr_rest _ _ _ _ _ G1) as [Ga Gw].
  destruct (put_all cs ste (a + 28) n a (a + 28 + n) sers ([Blank;
        Line (SSetField "sndbuf" "reply_port" (EVar "rpc_reply_port"));
        Line (SSetField "sndbuf" "code" (EConst ("MSG_" +:+ strupper (fn_name fn))));
        Line (SSetField "sndbuf" "len" (ESub (EVar "sndbuf_size") (ESizeof CMessage)))] ++ k) Hown Hser1 Hcur) as (stf & E2 & W2);
    [cbn [ste std stc set_var cmem]; by rewrite Gm|lia|lia|done|done|done|unfold n; lia|].
  assert (forall x, x <> "snd_ptr" -> x <> "snd_rem" -> vars stf !! x = vars ste !! x) as Hvf by (intros; by apply (wr_vars _ _ _ _ _ _ _ _ W2)).
  assert (vars stf !! "sndbuf_size" = Some (CSize, Some (28 + n))) as Hsz.
  { rewrite Hvf, Hve by notin. apply G1. }
  assert (vars stf !! "rpc_reply_port" = Some (CInt, Some rp)) as Hrpf.
  { rewrite Hvf, Hve by notin. rewrite (gr_vars _ _ _ _ _ G1); [|done|apply Hfx; unfold client_fixed; subset_in].
    cbn [sta set_var vars]. by rewrite lookup_insert_ne. }
  rewrite <- (Hvf "sndbuf") in Hbuf by done.
  set (m1 := store32 (cmem stf) (a + 16) rp). set (m2 := store32 m1 (a + 20) mc). set (m3 := store32 m2 (a + 24) (u32 (28 + n - 28))).
  assert (byte_mem (cmem stf)) as Hbf by (apply (wr_byte _ _ _ _ _ _ _ _ W2); cbn [ste std stc set_var cmem]; by rewrite Gm).
  assert (load_bytes (cmem stf) (a + 28) (length (wire_ins cs)) = wire_ins cs) as Hdata.
  { rewrite (meq_bytes _ _ _ _ (wr_mem _ _ _ _ _ _ _ _ W2)). apply load_store_bytes_eq; [|done]. by apply (wire_ins_bytes st). }
  assert (forall c, c < a + 16 \/ a + 28 <= c -> load8 m3 c = load8 (cmem stf) c) as Ho.
  { intros c Hc. unfold m3, m2, m1, store32. rewrite !load8_store_bytes_out; [done|..]; rewrite length_le_encode; lia. }
  assert (same_outside (cmem st) m3 a (a + 28 + n)) as Hsame.
  { intros c Hc. rewrite Ho by lia. rewrite (wr_mem _ _ _ _ _ _ _ _ W2 c). rewrite load8_store_bytes_out by (unfold n in *; lia).
    cbn [ste std stc set_var cmem]. by rewrite Gm. }
  exists (set_mem stf m3). split; [|split; [|exact (proj1 (wr_rest _ _ _ _ _ _ _ _ W2))]].
  - cbn [app]. rewrite <- app_assoc. cbn [app]. rewrite <- app_assoc. etransitivity; [by apply (exec_next _ _ _ st (Line (SComment _)) _ st)|].
    etransitivity; [by apply (exec_next _ _ _ st _ _ sta)|]. etransitivity; [exact E1|]. cbn [app].
    etransitivity; [by apply (exec_next _ _ _ stb Blank _ stb)|]. etransitivity; [by apply (exec_next _ _ _ stb (Line (SComment _)) _ stb)|].
    etransitivity; [apply (exec_next _ _ _ stb _ _ stc)|].
    { cbn [Cgen.exec_line exec_stmt Cgen.eval]. rewrite (var_eq stb "sndbuf_size" _ _ (gr_var _ _ _ _ _ G1)). cbn [mbind outcome_bind].
      rewrite Ga. cbn [sta set_var answers]. by rewrite Hans. }
    etransitivity; [apply (exec_next _ _ _ stc _ _ std)|].
    { cbn [Cgen.exec_line exec_stmt Cgen.eval]. rewrite (var_eq stc "sndbuf" (CPtr CMessage) a); [done|]. cbn [stc set_var vars].
      rewrite lookup_insert_eq, conv_ptr by lia. done. }
    etransitivity; [apply (exec_next _ _ _ std _ _ ste)|].
    { cbn [Cgen.exec_line exec_stmt Cgen.eval]. rewrite (var_eq std "sndbuf_size" CSize (28 + n)); [done|]. cbn [std stc set_var vars].
      rewrite !lookup_insert_ne by done. apply G1. }
    etransitivity; [by apply (exec_next _ _ _ ste Blank _ ste)|]. etransitivity; [exact E2|]. cbn [app].
    etransitivity; [by apply (exec_next _ _ _ stf Blank _ stf)|].
    etransitivity; [eapply exec_next, exec_setfield; [by eapply eval_var|exact Hbuf|done]|].
    etransitivity; [eapply exec_next, exec_setfield; [cbn [Cgen.eval]; by rewrite Hmc|exact Hbuf|done]|].
    etransitivity; [eapply exec_next, exec_setfield; [|exact Hbuf|done]|done].
    cbn [Cgen.eval]. by rewrite (var_eq (set_mem (set_mem stf _) _) "sndbuf_size" CSize (28 + n) Hsz).
  - split; cbn [set_mem vars cmem world]; [done| |unfold m3, m2, m1, store32; by do 3 apply store_bytes_byte_mem|done| | |].
    + split_and!.
      * unfold m3, m2. rewrite !load32_store32_ne by lia. apply load32_stored.
      * unfold m3. rewrite load32_store32_ne by lia. apply load32_stored.
      * unfold m3. rewrite load32_stored, !u32_small by (rewrite ?u32_small; unfold n in *; lia). unfold n. lia.
      * etransitivity; [|exact Hdata]. apply load_bytes_ext. intros c Hc. apply Ho. lia.
    + destruct (wr_rest _ _ _ _ _ _ _ _ W2) as [_ ->]. exact Gw.
    + rewrite Forall_forall in Hh, Hcl |- *. intros c Hc. apply (held_keep ste); [by rewrite Forall_forall in Hk1; apply Hk1| |].
      * intros x Hx. cbn [set_mem vars]. apply Hvf; (eapply cowned_fixed; [exact Hown|exact Hc|exact Hx|unfold client_fixed; subset_in]).
      * intros s b Hs Hbd. cbn [set_mem cmem ste std stc set_var]. rewrite Gm. specialize (Hcl c Hc). rewrite Forall_forall in Hcl.
        specialize (Hcl s Hs). unfold clear_of in Hcl. apply Hsame. lia.
    + intros x Hx Hn. rewrite Hvf, Hve by (unfold snd_names in Hx; notin).
      rewrite (gr_vars _ _ _ _ _ G1) by (done || (unfold snd_names in Hx; notin)). cbn [sta set_var vars]. rewrite lookup_insert_ne; [done|].
      unfold snd_names in Hx; notin.
Qed.
End client.
