(* ===== verification/RpcReply.v ===== *)
(** The reply in the client's stub ([generate_client_marshaller_resultdeserializer] of
    [tools/rpcgen/gen_client.c]). *)
From Stdlib Require Import Ascii String.
From S2P Require Import Prelude Mem Str StrSpec Rpcgen Cgen Rpcstub RpcWire RpcServer RpcMsg RpcDispatch RpcClient.

(** The bytes a stub writes for an out parameter. *)
Definition writes (c : citem) : list (Z * Z) :=
  match is_out (c_arg c), type (arg_type (c_arg c)), c_in c with
  | true, IntType, _ => [(c_buf c, 4)]
  | true, LongType, _ => [(c_buf c, 8)]
  | true, StringType, VCap n => [(c_buf c, n)]
  | true, BlobType, VCap n => [(c_buf c, n); (c_size c, 4)]
  | _, _, _ => []
  end.
Definition off (b : Z) (s : Z * Z) : Prop := b < s.1 \/ s.1 + s.2 <= b.
Definition disjoint (s t : Z * Z) : Prop := s.1 + s.2 <= t.1 \/ t.1 + t.2 <= s.1.

(** The server's value fits the parameter. *)
Definition answer_fits (c : citem) : Prop :=
  match is_out (c_arg c), type (arg_type (c_arg c)), c_in c, c_out c with
  | false, _, _, _ => True
  | true, IntType, _, VInt z => - 2 ^ 31 <= z < 2 ^ 31
  | true, LongType, _, VLong z => - 2 ^ 63 <= z < 2 ^ 63
  | true, StringType, VCap n, VBytes l => Forall is_char l /\ Z.of_nat (length l) < n
  | true, BlobType, VCap n, VBytes l => Forall is_byte l /\ Z.of_nat (length l) <= n
  | _, _, _, _ => False
  end.
(** The caller's memory holds the value of the parameter. *)
Definition answered (m : mem) (c : citem) : Prop :=
  match is_out (c_arg c), type (arg_type (c_arg c)), c_out c with
  | true, IntType, VInt z => load_ty CInt m (c_buf c) = z
  | true, LongType, VLong z => load_ty CLong m (c_buf c) = z
  | true, StringType, VBytes l => str_at m (c_buf c) l
  | true, BlobType, VBytes l => load_bytes m (c_buf c) (length l) = l /\ load_ty CSize m (c_size c) = Z.of_nat (length l)
  | true, _, _ => False
  | false, _, _ => True
  end.

Lemma answered_keep m m1 c : answered m c -> answer_fits c ->
  (forall s b, s ∈ writes c -> s.1 <= b < s.1 + s.2 -> load8 m1 b = load8 m b) -> answered m1 c.
Proof.
  destruct c as [[x [ty md]] v q s o]. unfold answered, answer_fits, writes.
  cbn [is_out arg_type modifier type arg_name c_arg c_in c_buf c_size c_out].
  destruct md; try done. destruct ty; try done; destruct o as [z|z|l|n|]; try done.
  - intros E _ Hm. rewrite <- E. unfold load_ty. do 2 f_equal. apply load_bytes_ext. intros b Hb. apply (Hm (q, 4)); [by left|cbn in *; lia].
  - destruct v as [?|?|?|n|]; try done. intros E [_ Hl] Hm. apply (str_at_keep m); [done|]. intros b Hb. apply (Hm (q, n)); [by left|cbn; lia].
  - intros E _ Hm. rewrite <- E. unfold load_ty. do 2 f_equal. apply load_bytes_ext. intros b Hb. apply (Hm (q, 8)); [by left|cbn in *; lia].
  - destruct v as [?|?|?|n|]; try done. intros [E1 E2] [_ Hl] Hm. split.
    + etransitivity; [|exact E1]. apply load_bytes_ext. intros b Hb. apply (Hm (q, n)); [by left|cbn; lia].
    + rewrite <- E2. unfold load_ty. do 2 f_equal. apply load_bytes_ext. intros b Hb. apply (Hm (s, 4)); [by right; left|cbn in *; lia].
Qed.

Lemma le_encode_mod n v w : v mod 256 ^ Z.of_nat n = w mod 256 ^ Z.of_nat n -> le_encode n v = le_encode n w.
Proof.
  intros E. rewrite <- (le_encode_decode (le_encode n v)), <- (le_encode_decode (le_encode n w)), !length_le_encode by apply le_encode_bytes.
  by rewrite !le_decode_encode, E.
Qed.
Lemma le_encode_conv t z : t = CInt \/ t = CLong \/ t = CSize -> le_encode (Z.to_nat (sizeof t)) (conv t z) = le_encode (Z.to_nat (sizeof t)) z.
Proof.
  intros [->|[->| ->]]; cbn [sizeof conv]; apply le_encode_mod.
  - exact (wrap_swrap 32 z eq_refl).
  - exact (wrap_swrap 64 z eq_refl).
  - exact (wrap_wrap 32 z ltac:(lia)).
Qed.

Section reply.
Context {W : Type}.
Variable fuel : nat.
Variable defines : string -> option Z.
Variable ext : string -> list carg -> cstate W -> outcome (Z * cstate W).
Implicit Types st : cstate W.
Local Abbreviation exec := (exec fuel defines ext).
Local Abbreviation exec_line := (exec_line fuel defines ext).
Local Abbreviation eval := (eval fuel defines).
Local Abbreviation took := (took "rcvbuf_ptr" "rcvbuf_rem" (CConstPtr CUchar)).
Local Abbreviation rest := (rest "rcvbuf_ptr" "rcvbuf_rem" (CConstPtr CUchar)).
Local Abbreviation moved := (moved "rcvbuf_ptr" "rcvbuf_rem" (CConstPtr CUchar)).

Lemma rcv_cursor : "rcvbuf_ptr" <> "rcvbuf_rem" /\ forall z, 0 <= z < 2 ^ 32 -> conv (CConstPtr CUchar) z = z.
Proof. split; [done|apply conv_cptr]. Qed.
Definition rcv_names : list string := ["rcvbuf_ptr"; "rcvbuf_rem"; "rpc_typecode"].
Definition coded st : Prop := exists o, vars st !! "rpc_typecode" = Some (CChar, o).

(** Bytes of the reply were taken: memory changed to [m], variables of [X] changed. *)
Record got (p r n : Z) (bs : list Z) (X : list string) st st1 : Prop := {
  gt_rest : rest st1 (p + n) (r - n) bs;
  gt_code : coded st1;
  gt_world : answers st1 = answers st /\ world st1 = world st;
  gt_vars x : x ∉ rcv_names -> x ∉ X -> vars st1 !! x = vars st !! x
}.

Lemma got_trans p r n k b1 b2 X Y st st1 st2 : got p r n b1 X st st1 -> got (p + n) (r - n) k b2 Y st1 st2 -> got p r (n + k) b2 (X ++ Y) st st2.
Proof.
  intros [R1 C1 [A1 W1] V1] [R2 C2 [A2 W2] V2]. split; [by rewrite Z.add_assoc, Z.sub_add_distr|done|split; congruence|].
  intros x Hx [Hx1 Hx2]%not_elem_of_app. by rewrite V2, V1.
Qed.
Lemma got_weaken p r n bs X Y st st1 : got p r n bs X st st1 -> X ⊆ Y -> got p r n bs Y st st1.
Proof. intros [R C A V] H. split; [done..|]. intros x Hx HY. apply V; [done|]. by intros Hc%H. Qed.

Lemma get_code st p r c bs k : rest st p r (u8 (code c) :: bs) -> coded st ->
  exists st1, exec st (get_typecode c ++ k) = exec st1 k /\ got p r 1 bs [] st st1 /\ cmem st1 = cmem st.
Proof.
  intros Hr [o Ho]. destruct rcv_cursor as [Hne Hcv].
  pose proof (read_char fuel defines ext "rcvbuf_ptr" "rcvbuf_rem" (CConstPtr CUchar) Hne Hcv st p r _ "rpc_typecode" o c Hr
    ltac:(done) ltac:(done) Ho) as H. cbv beta iota zeta in H. rewrite Z.eqb_refl in H. destruct H as (st1 & v & E & T & Hv).
  pose proof (rest_length _ _ _ _ _ _ _ Hr) as Hlen. cbn [length] in Hlen.
  exists st1. split; [by apply (exec_then _ _ _ st (get_typecode c))|]. split; [|apply (tk_mem _ _ _ _ _ _ _ _ _ T)]. split.
  - exact (took_rest _ _ _ p r 1 _ st st1 _ Hr T ltac:(lia)).
  - by exists v.
  - apply (tk_rest _ _ _ _ _ _ _ _ _ T).
  - intros x Hx _. unfold rcv_names in Hx. apply (tk_vars _ _ _ _ _ _ _ _ _ T); notin.
Qed.

(** Memory changed outside the reply. *)
Lemma moved_got st p r n m bs : rest st p r bs -> coded st -> 0 <= n <= r -> byte_mem m ->
  (forall b, p <= b < p + r -> load8 m b = load8 (cmem st) b) ->
  got p r n (drop (Z.to_nat n) bs) [] st (set_mem (moved st p r n) m).
Proof.
  intros Hr [o Ho] Hn Hb Hm. destruct (rest_take _ _ _ st p r bs n Hr Hn) as [_ E]. destruct Hr as ((H1 & H2 & H3 & H4 & H5) & _ & _). split.
  - split; [|split; [done|]].
    + split; [|split; [|lia]]; cbn [set_mem RpcWire.moved vars].
      * by rewrite lookup_insert_ne, lookup_insert_eq by done.
      * by rewrite lookup_insert_eq.
    + cbn [set_mem cmem]. etransitivity; [|exact E]. apply load_bytes_ext. intros b Hb'. apply Hm. lia.
  - exists o. cbn [set_mem RpcWire.moved vars]. by rewrite !lookup_insert_ne.
  - done.
  - intros x Hx _. unfold rcv_names in Hx. cbn [set_mem RpcWire.moved vars]. rewrite !lookup_insert_ne by notin. done.
Qed.

Lemma get_number st p r bs t x tx d k : rest st p r bs -> coded st -> t = CInt \/ t = CLong \/ t = CSize ->
  vars st !! x = Some (tx, Some d) -> pointee tx = Some t -> x ∉ rcv_names -> sizeof t <= r -> d + sizeof t <= p \/ p + r <= d ->
  let n := Z.to_nat (sizeof t) in
  exists st1, exec st (get_value t x ++ k) = exec st1 k /\ got p r (sizeof t) (drop n bs) [] st st1 /\
    cmem st1 = store_bytes (cmem st) d (take n bs).
Proof.
  intros Hr Hc Ht Hx Htx Hn Hs Hd n. destruct rcv_cursor as [Hne Hcv]. pose proof Hr as ((H1 & H2 & H3 & H4 & H5) & Hb & _).
  assert (0 <= sizeof t) as Ht0 by (destruct t; cbn; lia).
  destruct (rest_take _ _ _ st p r bs (sizeof t) Hr ltac:(lia)) as [Htk _]. pose proof (rest_length _ _ _ _ _ _ _ Hr) as Hlen.
  set (m := store_ty t (cmem st) d (load_ty t (cmem st) p)).
  assert (m = store_bytes (cmem st) d (take n bs)) as Hm.
  { unfold m, store_ty, load_ty. rewrite le_encode_conv by done. fold n in Htk. fold n. rewrite Htk. f_equal.
    assert (length (take n bs) = n) as Hln by (rewrite length_take; lia). rewrite <- Hln at 1. apply le_encode_decode.
    rewrite <- Htk. by apply load_bytes_byte. }
  exists (set_mem (moved st p r (sizeof t)) m). split; [|split; [|done]].
  - unfold get_value. rewrite <- !app_comm_cons.
    etransitivity; [apply (exec_next _ _ _ st _ _ st); eapply exec_assert; [by eapply eval_var|done|by apply Z.leb_le]|].
    etransitivity; [apply (exec_next _ _ _ st _ _ (set_mem st m))|].
    { cbn [Cgen.exec_line exec_stmt Cgen.eval]. rewrite (var_eq _ _ _ _ H1). cbn [mbind outcome_bind]. rewrite (var_eq _ _ _ _ Hx).
      cbn [mbind outcome_bind]. by rewrite Htx. }
    apply (exec_then _ _ _ (set_mem st m) [_; _] ([Blank] ++ k)).
    apply steady_move; [done|done|apply Hr|lia|apply steady_sizeof].
  - apply moved_got; [done|done|lia|rewrite Hm; by apply store_bytes_byte_mem|].
    intros b Hb'. rewrite Hm. apply load8_store_bytes_out. rewrite length_take. lia.
Qed.

Lemma get_length st p r bs n k : rest st p r bs -> coded st -> 4 <= r -> n ∉ rcv_names ->
  exists st1, exec st (get_size n ++ k) = exec st1 k /\ got p r 4 (drop 4 bs) [n] st st1 /\ cmem st1 = cmem st /\
    vars st1 !! n = Some (CSize, Some (u32 (le_decode (take 4 bs)))).
Proof.
  intros Hr [o Ho] H4 Hn. destruct rcv_cursor as [Hne Hcv]. unfold rcv_names in Hn.
  pose proof (read_value fuel defines ext "rcvbuf_ptr" "rcvbuf_rem" (CConstPtr CUchar) Hne Hcv st p r bs CSize n Hr
    ltac:(notin) ltac:(notin) ltac:(done)) as H. cbv zeta in H. change (sizeof CSize) with 4 in H.
  rewrite (proj2 (Z.leb_le _ _)) in H by done. destruct H as (st1 & E & T & Hv).
  exists st1. split; [by apply (exec_then _ _ _ st (get_size n))|]. split; [|split; [apply (tk_mem _ _ _ _ _ _ _ _ _ T)|exact Hv]]. split.
  - exact (took_rest _ _ _ p r 4 _ st st1 _ Hr T ltac:(lia)).
  - exists o. rewrite (tk_vars _ _ _ _ _ _ _ _ _ T) by notin. done.
  - apply (tk_rest _ _ _ _ _ _ _ _ _ T).
  - intros x Hx HX. unfold rcv_names in Hx. apply (tk_vars _ _ _ _ _ _ _ _ _ T); notin.
Qed.

Lemma get_bytes st p r bs x tx d n len k : rest st p r bs -> coded st -> vars st !! x = Some (tx, Some d) ->
  vars st !! n = Some (CSize, Some len) -> n ∉ rcv_names -> 0 <= len <= r -> d + len <= p \/ p + r <= d ->
  exists st1, exec st (get_copy x n ++ k) = exec st1 k /\ got p r len (drop (Z.to_nat len) bs) [] st st1 /\
    meq (cmem st1) (store_bytes (cmem st) d (take (Z.to_nat len) bs)).
Proof.
  intros Hr Hc Hx Hn Hnn Hl Hd. destruct rcv_cursor as [Hne Hcv]. pose proof Hr as ((H1 & H2 & H3 & H4 & H5) & Hb & _).
  destruct (rest_take _ _ _ st p r bs len Hr Hl) as [Htk _]. pose proof (rest_length _ _ _ _ _ _ _ Hr) as Hlen.
  destruct (memcpy_store (cmem st) d p len Hb ltac:(lia)) as [Hb' Hm']. rewrite Htk in Hm'. unfold rcv_names in Hnn.
  exists (set_mem (moved st p r len) (memcpy (cmem st) d p len)). split; [|split; [|done]].
  - unfold get_copy. rewrite <- app_comm_cons.
    etransitivity; [apply (exec_next _ _ _ st _ _ (set_mem st (memcpy (cmem st) d p len)))|].
    { eapply exec_memcpy; [by eapply eval_var| |by eapply eval_var]. cbn [Cgen.eval]. by rewrite (var_eq _ _ _ _ H1). }
    apply (exec_then _ _ _ _ [_; _] k). apply steady_move; [done|done|apply Hr|lia|]. eapply steady_var; [notin|notin|done].
  - apply moved_got; [done|done|lia|done|]. intros b Hb2. rewrite (Hm' b). apply load8_store_bytes_out. rewrite length_take. lia.
Qed.

(** An out parameter was read. *)
Definition delivered (p r : Z) (c : citem) (bs : list Z) st st1 : Prop :=
  got p r (Z.of_nat (length (wire_out (c_arg c) (c_out c)))) bs (client_names (c_arg c)) st st1 /\ answered (cmem st1) c /\
  (forall b, Forall (off b) (writes c) -> load8 (cmem st1) b = load8 (cmem st) b).
Definition writes_apart (c : citem) : Prop := match writes c with [s; t] => disjoint s t | _ => True end.

Lemma take_encode n z bs : take n (le_encode n z ++ bs) = le_encode n z.
Proof. by rewrite take_app_length' by (by rewrite length_le_encode). Qed.
Lemma drop_encode n z bs : drop n (le_encode n z ++ bs) = bs.
Proof. by rewrite drop_app_length' by (by rewrite length_le_encode). Qed.

Lemma get_scalar st p r cc t bs x tx d z k : rest st p r (u8 (code cc) :: le_encode (Z.to_nat (sizeof t)) z ++ bs) -> coded st ->
  t = CInt \/ t = CLong \/ t = CSize -> vars st !! x = Some (tx, Some d) -> pointee tx = Some t -> x ∉ rcv_names ->
  d + sizeof t <= p \/ p + r <= d ->
  exists st1, exec st (get_typecode cc ++ get_value t x ++ k) = exec st1 k /\ got p r (1 + sizeof t) bs [] st st1 /\
    cmem st1 = store_bytes (cmem st) d (le_encode (Z.to_nat (sizeof t)) z).
Proof.
  intros Hr Hc Ht Hx Htx Hn Hd. pose proof (rest_length _ _ _ _ _ _ _ Hr) as Hlen. cbn [length] in Hlen.
  rewrite length_app, length_le_encode in Hlen. assert (0 <= sizeof t) by (destruct t; cbn; lia).
  destruct (get_code st p r cc _ (get_value t x ++ k) Hr Hc) as (st1 & E1 & G1 & M1). pose proof G1 as [R1 C1 _ V1].
  destruct (get_number st1 (p + 1) (r - 1) _ t x tx d k R1 C1 Ht) as (st2 & E2 & G2 & M2);
    [by rewrite V1 by (done || apply not_elem_of_nil)|done|done|lia|lia|].
  rewrite take_encode in M2. rewrite drop_encode in G2. exists st2. split; [by rewrite E1|]. split; [exact (got_trans _ _ _ _ _ _ _ _ _ _ _ G1 G2)|].
  by rewrite M2, M1.
Qed.

(** A type character and the number of bytes that follow. *)
Lemma get_header st p r cc bs n len k : rest st p r (u8 (code cc) :: le_encode 4 len ++ bs) -> coded st -> 0 <= len < 2 ^ 32 -> n ∉ rcv_names ->
  exists st1, exec st (get_typecode cc ++ get_size n ++ k) = exec st1 k /\ got p r 5 bs [n] st st1 /\ cmem st1 = cmem st /\
    vars st1 !! n = Some (CSize, Some len).
Proof.
  intros Hr Hc Hl Hn. pose proof (rest_length _ _ _ _ _ _ _ Hr) as Hlen. cbn [length] in Hlen. rewrite length_app, length_le_encode in Hlen.
  destruct (get_code st p r cc _ (get_size n ++ k) Hr Hc) as (st1 & E1 & G1 & M1). pose proof G1 as [R1 C1 _ V1].
  destruct (get_length st1 (p + 1) (r - 1) _ n k R1 C1 ltac:(lia) Hn) as (st2 & E2 & G2 & M2 & V2).
  rewrite take_encode, le4, !u32_small in V2 by (rewrite ?u32_small; lia). rewrite drop_encode in G2. exists st2. split; [by rewrite E1|].
  split; [exact (got_trans _ _ _ _ _ _ _ _ _ _ _ G1 G2)|]. split; [congruence|done].
Qed.

Lemma exec_ge st x t a y b k : vars st !! x = Some (t, Some a) -> eval st y = Ret b -> b <= a ->
  exec st (Line (SAssert Ge (EVar x) y) :: k) = exec st k.
Proof. intros Hx Hy Hab. apply exec_next. eapply exec_assert; [by eapply eval_var|done|by apply Z.leb_le]. Qed.

Lemma rest_rem st p r bs : rest st p r bs -> vars st !! "rcvbuf_rem" = Some (CSize, Some r).
Proof. by intros ((_ & H & _) & _). Qed.

Lemma rcv_fresh c x : cnames_ok (c_arg c) -> x ∈ client_names (c_arg c) -> x ∉ rcv_names.
Proof.
  intros [_ Hf] Hx Hc. rewrite Forall_forall in Hf. apply (Hf x Hx). unfold rcv_names in Hc. unfold client_fixed.
  repeat (apply elem_of_cons in Hc as [->|Hc]; [subset_in|]). by apply not_elem_of_nil in Hc.
Qed.

Lemma stored_bytes m m1 d bs : Forall is_byte bs -> meq m1 (store_bytes m d bs) -> load_bytes m1 d (length bs) = bs.
Proof. intros Hb Hm. rewrite (meq_bytes _ _ _ _ Hm). by apply load_store_bytes_eq. Qed.

Lemma get_int st p r x q s v z bs k (c := mkCI (mkArg x (mkType IntType OutModifier)) v q s (VInt z)) :
  held fuel st c -> answer_fits c -> cnames_ok (c_arg c) -> coded st -> rest st p r (wire_out (c_arg c) (c_out c) ++ bs) ->
  Forall (fun s => disjoint s (p, r)) (writes c) ->
  exists st1, exec st ((get_typecode "I" ++ get_value CInt x) ++ k) = exec st1 k /\ delivered p r c bs st st1.
Proof.
  intros Hh Hf Hn Hc Hr Hd. cbn in Hh. destruct v; try done. unfold answer_fits in Hf. cbn in Hf.
  apply Forall_cons in Hd as [Hd _]. unfold disjoint in Hd. cbn in Hd.
  destruct (get_scalar st p r "I" CInt bs x (CPtr CInt) q z k) as (st1 & E1 & G1 & M1);
    [exact Hr|done|by left|done|done|by apply (rcv_fresh c); [|left]|cbn [sizeof]; lia|].
  exists st1. rewrite <- app_assoc. split; [done|]. split; [|split].
  - cbn [c c_arg c_out]. eapply got_weaken; [exact G1|apply list_subseteq_nil].
  - cbn. unfold load_ty. rewrite M1. rewrite (load_store_bytes_eq _ _ (le_encode 4 z)); [|apply le_encode_bytes|apply length_le_encode].
    by apply s32_le4.
  - intros b Hb. rewrite M1. apply load8_store_bytes_out. apply Forall_cons in Hb as [Hb _]. unfold off in Hb. cbn in Hb. rewrite length_le_encode. cbn. lia.
Qed.
Lemma s64_le8 z : - 2 ^ 63 <= z < 2 ^ 63 -> s64 (le_decode (le_encode 8 z)) = z.
Proof. intros Hz. rewrite le_decode_encode. change (s64 (u64 z) = z). rewrite swrap_wrap by lia. apply (swrap_small 64); lia. Qed.
Lemma get_long st p r x q s v z bs k (c := mkCI (mkArg x (mkType LongType OutModifier)) v q s (VLong z)) :
  held fuel st c -> answer_fits c -> cnames_ok (c_arg c) -> coded st -> rest st p r (wire_out (c_arg c) (c_out c) ++ bs) ->
  Forall (fun s => disjoint s (p, r)) (writes c) ->
  exists st1, exec st ((get_typecode "L" ++ get_value CLong x) ++ k) = exec st1 k /\ delivered p r c bs st st1.
Proof.
  intros Hh Hf Hn Hc Hr Hd. cbn in Hh. destruct v; try done. unfold answer_fits in Hf. cbn in Hf.
  apply Forall_cons in Hd as [Hd _]. unfold disjoint in Hd. cbn in Hd.
  destruct (get_scalar st p r "L" CLong bs x (CPtr CLong) q z k) as (st1 & E1 & G1 & M1);
    [exact Hr|done|by right; left|done|done|by apply (rcv_fresh c); [|left]|cbn [sizeof]; lia|].
  exists st1. rewrite <- app_assoc. split; [done|]. split; [|split].
  - cbn [c c_arg c_out]. eapply got_weaken; [exact G1|apply list_subseteq_nil].
  - cbn. unfold load_ty. rewrite M1. rewrite (load_store_bytes_eq _ _ (le_encode 8 z)); [|apply le_encode_bytes|apply length_le_encode].
    by apply s64_le8.
  - intros b Hb. rewrite M1. apply load8_store_bytes_out. apply Forall_cons in Hb as [Hb _]. unfold off in Hb. cbn in Hb. rewrite length_le_encode. cbn. lia.
Qed.

Lemma get_string st p r x q s v l bs k (c := mkCI (mkArg x (mkType StringType OutModifier)) v q s (VBytes l)) (n := x +:+ "_outsize") :
  held fuel st c -> answer_fits c -> cnames_ok (c_arg c) -> coded st -> rest st p r (wire_out (c_arg c) (c_out c) ++ bs) ->
  Forall (fun s => disjoint s (p, r)) (writes c) ->
  exists st1, exec st ((get_typecode "S" ++ get_size n ++
      [Line (SAssert Ge (EVar (size_name x)) (EVar n)); Line (SAssert Ge (EVar "rcvbuf_rem") (EVar n))] ++ get_copy x n ++ [Blank]) ++ k) =
    exec st1 k /\ delivered p r c bs st st1.
Proof.
  intros Hh Hf Hn Hc Hr Hd. cbn in Hh. destruct v as [| | |cap|]; try done. destruct Hh as (Hx & Hs & Hcap). destruct Hf as [Hl1 Hl2].
  cbn [c c_arg c_in c_out wire_out is_out arg_type modifier type] in *. set (len := Z.of_nat (length l) + 1) in *.
  apply Forall_cons in Hd as [Hd _]. unfold disjoint in Hd. cbn in Hd. pose proof (rest_length _ _ _ _ _ _ _ Hr) as Hlen.
  cbn [app length] in Hlen. rewrite !length_app, length_le_encode in Hlen. cbn [length] in Hlen.
  pose proof Hn as [Hnd _]. cbn in Hnd. fold n in Hnd. rewrite <- app_comm_cons, <- !app_assoc in Hr.
  destruct (get_header st p r "S" (l ++ [0] ++ bs) n len
    ([Line (SAssert Ge (EVar (size_name x)) (EVar n)); Line (SAssert Ge (EVar "rcvbuf_rem") (EVar n))] ++ get_copy x n ++ [Blank] ++ k))
    as (st1 & E1 & G1 & M1 & V1); [done|done|lia|apply (rcv_fresh c); [done|cbn; subset_in]|]. pose proof G1 as [R1 C1 _ K1].
  destruct (get_bytes st1 (p + 5) (r - 5) _ x (CPtr CChar) q n len ([Blank] ++ k) R1 C1) as (st2 & E2 & G2 & M2);
    [|done|apply (rcv_fresh c); [done|cbn; subset_in]|lia|lia|].
  { rewrite K1; [done|apply (rcv_fresh c); [done|cbn; subset_in]|notin]. }
  assert (Z.to_nat len = length (l ++ [0])) as Hln by (rewrite length_app; cbn; lia).
  rewrite Hln, (app_assoc l [0] bs), take_app_length in M2. rewrite Hln, (app_assoc l [0] bs), drop_app_length in G2. rewrite M1 in M2.
  assert (Forall is_byte (l ++ [0])) as Hby.
  { apply Forall_app. split; [|by repeat constructor]. eapply Forall_impl; [exact Hl1|]. unfold is_char, is_byte. intros. lia. }
  exists st2. split; [|split; [|split]].
  - rewrite <- !app_assoc, E1. cbn [app].
    rewrite (exec_ge st1 (size_name x) CSize cap (EVar n) len); [|rewrite K1; [done|apply (rcv_fresh c); [done|cbn; subset_in]|notin]|by eapply eval_var|lia].
    rewrite (exec_ge st1 "rcvbuf_rem" CSize (r - 5) (EVar n) len); [|by eapply rest_rem|by eapply eval_var|lia]. exact E2.
  - pose proof (got_trans _ _ _ _ _ _ _ _ _ _ _ G1 G2) as G. cbn [length wire_out c c_arg c_out is_out arg_type modifier type].
    rewrite !length_app, length_le_encode. cbn [length]. replace (Z.of_nat (S (4 + (length l + 1)))) with (5 + len) by lia.
    rewrite app_nil_r in G. eapply got_weaken; [exact G|]. cbn. subset.
  - pose proof (stored_bytes _ _ _ _ Hby M2) as Hst. rewrite length_app, load_bytes_app in Hst.
    destruct (app_inj_1 _ _ _ _ (length_load_bytes _ _ _) Hst) as [H1 H2]. cbn [length load_bytes] in H2. injection H2 as H2. by split.
  - intros b Hb. rewrite (M2 b). apply load8_store_bytes_out. apply Forall_cons in Hb as [Hb _]. unfold off in Hb. cbn in Hb. lia.
Qed.

Lemma get_blob st p r x q s v l bs k (c := mkCI (mkArg x (mkType BlobType OutModifier)) v q s (VBytes l)) (n := "received_" +:+ x +:+ "_size") :
  held fuel st c -> answer_fits c -> cnames_ok (c_arg c) -> coded st -> rest st p r (wire_out (c_arg c) (c_out c) ++ bs) ->
  Forall (fun s => disjoint s (p, r)) (writes c) -> writes_apart c ->
  exists st1, exec st ((get_typecode "B" ++ get_size n ++
      [Line (SAssert Ge (EVar "rcvbuf_rem") (EVar n)); Line (SAssert Ge (EDeref (size_name x)) (EVar n))] ++
      get_copy x n ++ [Line (SStoreVar (size_name x) (EVar n)); Blank]) ++ k) =
    exec st1 k /\ delivered p r c bs st st1.
Proof.
  intros Hh Hf Hn Hc Hr Hd Hap. cbn in Hh. destruct v as [| | |cap|]; try done. destruct Hh as (Hx & Hs & Hcap & Hcr). destruct Hf as [Hl1 Hl2].
  cbn [c c_arg c_in c_out wire_out is_out arg_type modifier type] in *. set (len := Z.of_nat (length l)) in *.
  apply Forall_cons in Hd as [Hd1 Hd]. apply Forall_cons in Hd as [Hd2 _]. cbn in Hap. unfold disjoint in *. cbn in Hd1, Hd2, Hap.
  pose proof (rest_length _ _ _ _ _ _ _ Hr) as Hlen.
  cbn [app length] in Hlen. rewrite !length_app, length_le_encode in Hlen. cbn [length] in Hlen.
  pose proof Hn as [Hnd _]. cbn in Hnd. fold n in Hnd. rewrite <- app_comm_cons, <- !app_assoc in Hr.
  destruct (get_header st p r "B" (l ++ bs) n len
    ([Line (SAssert Ge (EVar "rcvbuf_rem") (EVar n)); Line (SAssert Ge (EDeref (size_name x)) (EVar n))] ++
      get_copy x n ++ [Line (SStoreVar (size_name x) (EVar n)); Blank] ++ k))
    as (st1 & E1 & G1 & M1 & V1); [done|done|lia|apply (rcv_fresh c); [done|cbn; subset_in]|]. pose proof G1 as [R1 C1 _ K1].
  assert (vars st1 !! size_name x = Some (CPtr CSize, Some s)) as Hs1 by (rewrite K1; [done|apply (rcv_fresh c); [done|cbn; subset_in]|notin]).
  destruct (get_bytes st1 (p + 5) (r - 5) _ x (CPtr CVoid) q n len ([Line (SStoreVar (size_name x) (EVar n)); Blank] ++ k) R1 C1)
    as (st2 & E2 & G2 & M2); [|done|apply (rcv_fresh c); [done|cbn; subset_in]|lia|lia|].
  { rewrite K1; [done|apply (rcv_fresh c); [done|cbn; subset_in]|notin]. }
  unfold len in M2, G2. rewrite Nat2Z.id, take_app_length in M2. rewrite Nat2Z.id, drop_app_length in G2. fold len in G2. rewrite M1 in M2.
  pose proof G2 as [R2 C2 W2 K2].
  assert (forall y, y ∈ [n; size_name x] -> vars st2 !! y = vars st1 !! y) as Hk2.
  { intros y Hy. apply K2; [|apply not_elem_of_nil]. apply (rcv_fresh c); [done|]. cbn. fold n.
    repeat (apply elem_of_cons in Hy as [->|Hy]; [subset_in|]). by apply not_elem_of_nil in Hy. }
  set (m := store_ty CSize (cmem st2) s len).
  assert (forall b, b < s \/ s + 4 <= b -> load8 m b = load8 (cmem st2) b) as Ho.
  { intros b Hb. unfold m, store_ty. apply load8_store_bytes_out. rewrite length_le_encode. cbn. lia. }
  exists (set_mem st2 m). split; [|split; [|split]].
  - rewrite <- !app_assoc, E1. cbn [app].
    rewrite (exec_ge st1 "rcvbuf_rem" CSize (r - 5) (EVar n) len); [|by eapply rest_rem|by eapply eval_var|lia].
    etransitivity; [apply (exec_next _ _ _ st1 _ _ st1); apply (exec_assert fuel defines ext st1 Ge _ _ cap len); [|by eapply eval_var|]|].
    + cbn [Cgen.eval]. rewrite (var_eq _ _ _ _ Hs1). cbn [mbind outcome_bind pointee of_option]. rewrite M1. f_equal. exact Hcap.
    + by apply Z.leb_le.
    + etransitivity; [exact E2|]. etransitivity; [apply (exec_next _ _ _ st2 _ _ (set_mem st2 m))|by apply (exec_next _ _ _ _ Blank)].
      cbn [Cgen.exec_line exec_stmt Cgen.eval]. rewrite (var_eq st2 n CSize len) by (rewrite Hk2; [done|subset_in]). cbn [mbind outcome_bind].
      rewrite (var_eq st2 (size_name x) (CPtr CSize) s) by (rewrite Hk2; [done|subset_in]). done.
  - pose proof (got_trans _ _ _ _ _ _ _ _ _ _ _ G1 G2) as G. cbn [length wire_out c c_arg c_out is_out arg_type modifier type].
    rewrite !length_app, length_le_encode. replace (Z.of_nat (S (4 + length l))) with (5 + len) by lia. rewrite app_nil_r in G.
    destruct G as [RG CG WG KG]. split; [|done|done|].
    + destruct RG as (Hcu & Hby & Hbs). split; [done|]. split; [by apply store_bytes_byte_mem|]. etransitivity; [|exact Hbs].
      cbn [set_mem cmem]. apply load_bytes_ext. intros b Hb. apply Ho. lia.
    + intros y Hy HY. apply KG; [done|]. cbn in HY. fold n in HY. notin.
  - cbn [set_mem cmem]. cbn. split.
    + etransitivity; [|exact (stored_bytes _ _ _ _ Hl1 M2)]. apply load_bytes_ext. intros b Hb. apply Ho. lia.
    + unfold load_ty, m, store_ty. rewrite load_store_bytes_eq; [|apply le_encode_bytes|apply length_le_encode]. cbn [conv].
      change (Z.to_nat (sizeof CSize)) with 4%nat. rewrite le4, !u32_small by (rewrite ?u32_small; lia). done.
  - intros b Hb. apply Forall_cons in Hb as [Hb1 Hb]. apply Forall_cons in Hb as [Hb2 _]. unfold off in *. cbn in Hb1, Hb2.
    cbn [set_mem cmem]. rewrite Ho, (M2 b) by lia. apply load8_store_bytes_out. lia.
Qed.

Lemma get_one st p r c bs ls k : arg_ok (c_arg c) = true -> client_out_deserializer (c_arg c) = Ret ls -> (is_out (c_arg c) = true -> held fuel st c) -> answer_fits c ->
  cnames_ok (c_arg c) -> coded st -> rest st p r (wire_out (c_arg c) (c_out c) ++ bs) ->
  Forall (fun s => disjoint s (p, r)) (writes c) -> writes_apart c ->
  exists st1, exec st (ls ++ k) = exec st1 k /\ delivered p r c bs st st1.
Proof.
  intros Ha Hls Hh Hf Hn Hc Hr Hd Hap. destruct c as [[x [ty md]] v q s o].
  destruct md; try discriminate Ha.
  - assert (ls = []) as -> by (unfold client_out_deserializer in Hls; rewrite decide_False in Hls by done; by injection Hls).
    exists st. split; [done|]. unfold delivered, answered, wire_out in *. cbn [is_out c_arg c_out arg_type modifier length app] in *.
    split_and!; [|done|done]. split; [by rewrite Z.add_0_r, Z.sub_0_r|done|done|done].
  - specialize (Hh eq_refl). destruct ty; try discriminate Ha; destruct o as [z|z|l|n|]; try (by destruct v); injection Hls as <-.
    + by apply get_int.
    + by apply get_string.
    + by apply get_long.
    + by apply get_blob.
Qed.

(** The out parameters have room of their own. *)
Fixpoint separate (cs : list citem) : Prop :=
  match cs with
  | [] => True
  | c :: cs => writes_apart c /\ Forall (fun d => forall s t, s ∈ writes c -> t ∈ writes d -> disjoint s t) cs /\ separate cs
  end.
Definition answers_of (cs : list citem) : list Z := wire_outs (c_arg <$> cs) (c_out <$> cs).

Lemma out_reads st c s : is_out (c_arg c) = true -> held fuel st c -> s ∈ reads c -> s ∈ writes c.
Proof.
  destruct c as [[x [ty md]] v q a o]. unfold held, reads, writes. cbn [is_out arg_type modifier type c_arg c_in c_buf c_size].
  destruct md, ty; try done; intros _ Hh Hs; try (by apply not_elem_of_nil in Hs). destruct v; try done. by right.
Qed.

Lemma get_all (cs : list citem) : forall st p r lo hi bs lss k, cowned cs -> mapM client_out_deserializer (c_arg <$> cs) = Ret lss ->
  Forall (fun c => is_out (c_arg c) = true -> held fuel st c) cs -> Forall answer_fits cs -> coded st ->
  rest st p r (answers_of cs ++ bs) -> lo <= p -> p + r <= hi ->
  Forall (fun c => Forall (fun s => disjoint s (lo, hi - lo)) (writes c)) cs -> separate cs ->
  exists st1, exec st (concat lss ++ k) = exec st1 k /\ got p r (Z.of_nat (length (answers_of cs))) bs (cnames cs) st st1 /\
    Forall (answered (cmem st1)) cs /\
    (forall b, Forall (fun c => Forall (off b) (writes c)) cs -> load8 (cmem st1) b = load8 (cmem st) b).
Proof.
  induction cs as [|c cs IH]; intros st p r lo hi bs lss k Hown Hls Hh Hf Hc Hr Hlo Hhi Hd Hsep.
  - injection Hls as <-. exists st. split_and!; [done| |done|done]. split; [by rewrite Z.add_0_r, Z.sub_0_r|done|done|done].
  - rewrite fmap_cons in Hls. apply mapM_cons_ret in Hls as (ls & lss' & Hls0 & Hls1 & ->). apply Forall_cons in Hh as [Hh1 Hh2].
    apply Forall_cons in Hf as [Hf1 Hf2]. apply Forall_cons in Hd as [Hd1 Hd2]. destruct Hsep as (Hs1 & Hs2 & Hs3).
    pose proof Hown as Hown0. apply cowned_cons in Hown as (Hok & Hnm & Hown & Hdis). cbn [concat]. rewrite <- app_assoc.
    assert (answers_of (c :: cs) = wire_out (c_arg c) (c_out c) ++ answers_of cs) as Heq by done. rewrite Heq, <- app_assoc in Hr.
    pose proof (rest_length _ _ _ _ _ _ _ Hr) as Hlen. rewrite !length_app in Hlen.
    destruct (get_one st p r c (answers_of cs ++ bs) ls (concat lss' ++ k) Hok Hls0 Hh1 Hf1 Hnm Hc Hr) as (st1 & E1 & G1 & A1 & M1); [|done|].
    { eapply Forall_impl; [exact Hd1|]. intros s Hs. unfold disjoint in *. cbn in *. lia. }
    pose proof G1 as [R1 C1 W1 V1].
    set (n := Z.of_nat (length (wire_out (c_arg c) (c_out c)))) in *.
    destruct (IH st1 (p + n) (r - n) lo hi bs lss' k Hown Hls1) as (st2 & E2 & G2 & A2 & M2); [|done|done|exact R1|lia|lia|done|done|].
    { rewrite Forall_forall in Hh2, Hs2 |- *. intros d Hdn Ho. apply (held_keep fuel st); [by apply Hh2| |].
      - intros x Hx. apply V1; [|by eapply Hdis]. intros Hc'. eapply (cowned_fixed cs d x x); [done|done|done| |done].
        unfold rcv_names in Hc'. unfold client_fixed. repeat (apply elem_of_cons in Hc' as [->|Hc']; [subset_in|]). by apply not_elem_of_nil in Hc'.
      - intros t b Ht Hb. apply M1. apply Forall_forall. intros s Hs. specialize (Hs2 d Hdn s t Hs (out_reads st d t Ho (Hh2 d Hdn Ho) Ht)).
        unfold disjoint, off in *. lia. }
    exists st2. split; [by rewrite E1|]. split_and!.
    + rewrite Heq, length_app, Nat2Z.inj_add, cnames_cons. by eapply got_trans.
    + constructor; [|done]. apply (answered_keep (cmem st1)); [done|done|]. intros s b Hs Hb. apply M2.
      eapply Forall_impl; [exact Hs2|]. intros d Hdd. apply Forall_forall. intros t Ht. specialize (Hdd s t Hs Ht). unfold disjoint, off in *. lia.
    + intros b [Hb1 Hb2]%Forall_cons. by rewrite M2, M1.
Qed.

(** ** The size of the reply *)
Definition room (c : citem) : Z :=
  match is_out (c_arg c), type (arg_type (c_arg c)), c_in c with
  | true, IntType, _ => 5
  | true, LongType, _ => 9
  | true, (StringType | BlobType), VCap n => 5 + n
  | _, _, _ => 0
  end.
Definition rooms (cs : list citem) : Z := foldr Z.add 0 (room <$> cs).

Lemma room_fits c : answer_fits c -> 0 <= Z.of_nat (length (wire_out (c_arg c) (c_out c))) <= room c.
Proof.
  destruct c as [[x [ty md]] v q s o]. unfold answer_fits, wire_out, room. cbn [is_out arg_type modifier type c_arg c_in c_out].
  intros Hf. destruct md, ty, o as [z|z|l|n|]; try (cbn [length]; lia); try done; try (destruct v; done);
    try (cbn [length]; rewrite ?length_le_encode; lia).
  all: destruct v as [|?|?|n|]; try done; cbn [is_out arg_type modifier length] in *; rewrite ?length_app, ?length_le_encode; cbn [length]; lia.
Qed.
Lemma rooms_fit cs : Forall answer_fits cs -> 0 <= Z.of_nat (length (answers_of cs)) <= rooms cs.
Proof.
  induction 1 as [|c cs Hc _ IH]; [done|]. pose proof (room_fits c Hc). unfold rooms, answers_of, wire_outs in *. rewrite !fmap_cons.
  cbn [foldr zip_with concat]. rewrite length_app. lia.
Qed.

Ltac sized es vs Hn Hn0 Hr :=
  match goal with |- exists st1, exec ?st _ = exec st1 ?k /\ _ =>
    let st1 := fresh "st1" in let E := fresh "E" in let G := fresh "G" in
    edestruct (grow fuel defines ext "rcvbuf_size" st es vs _ k Hn Hn0) as (st1 & E & G);
    [repeat constructor; try (done || lia); try (eapply apart_var; [notin|eassumption])|cbn [foldr]; lia|exists st1; split; [exact E|]]
  end.

Lemma room_one st c ls k n : arg_ok (c_arg c) = true -> client_out_size (c_arg c) = Ret ls -> (is_out (c_arg c) = true -> held fuel st c) ->
  cnames_ok (c_arg c) -> vars st !! "rcvbuf_size" = Some (CSize, Some n) -> 0 <= n -> n + room c < 2 ^ 32 ->
  exists st1, exec st (ls ++ k) = exec st1 k /\ grew "rcvbuf_size" (n + room c) [] st st1.
Proof.
  destruct c as [[x [ty md]] v q s o]. intros Ha Hls Hh [Hnd Hfix] Hn Hn0 Hr. unfold room in *. cbn [is_out c_arg c_in arg_type modifier type] in *.
  destruct md; try discriminate Ha.
  { assert (ls = []) as -> by (unfold client_out_size in Hls; rewrite decide_False in Hls by done; by injection Hls).
    exists st. split; [done|]. rewrite Z.add_0_r. by split. }
  specialize (Hh eq_refl). unfold held in Hh. cbn [is_out c_arg c_in arg_type modifier type arg_name c_buf c_size] in Hh, Hr |- *.
  unfold client_names, client_fixed in Hfix. cbn [is_out c_arg arg_type modifier type arg_name] in Hfix.
  destruct ty; try discriminate Ha; injection Hls as <-.
  - sized [(ENum 1, typecode_note x); (ESizeof CInt, x)] [1; 4] Hn Hn0 Hr. exact G.
  - destruct v as [| | |cap|]; try done. destruct Hh as (H1 & H2 & H3).
    sized [(ENum 1, typecode_note x); (ESizeof CSize, x); (EVar (size_name x), x +:+ " size")] [1; 4; cap] Hn Hn0 Hr.
    cbn [foldr] in G. replace (n + (1 + (4 + (cap + 0)))) with (n + (5 + cap)) in G by lia. exact G.
  - sized [(ENum 1, typecode_note x); (ESizeof CLong, x)] [1; 8] Hn Hn0 Hr. exact G.
  - destruct v as [| | |cap|]; try done. destruct Hh as (H1 & H2 & H3 & H4).
    sized [(ENum 1, typecode_note x); (ESizeof CSize, x); (EDeref (size_name x), x +:+ " size")] [1; 4; cap] Hn Hn0 Hr.
    + intros st' Hst' Hm'. cbn [Cgen.eval]. rewrite (var_eq st' (size_name x) (CPtr CSize) s) by (rewrite Hst' by notin; done).
      cbn [mbind outcome_bind pointee of_option]. by rewrite Hm', H3.
    + cbn [foldr] in G. replace (n + (1 + (4 + (cap + 0)))) with (n + (5 + cap)) in G by lia. exact G.
Qed.

Lemma room_nonneg st c : (is_out (c_arg c) = true -> held fuel st c) -> 0 <= room c.
Proof.
  destruct c as [[x [ty md]] v q s o]. unfold held, room. cbn [is_out c_arg c_in arg_type modifier type].
  destruct md; [done|done|]. intros Hh. specialize (Hh eq_refl). cbn [is_out arg_type modifier] in *. destruct ty; try done; destruct v; try done; lia.
Qed.
Lemma room_all (cs : list citem) : forall st lss k n, cowned cs -> mapM client_out_size (c_arg <$> cs) = Ret lss ->
  Forall (fun c => is_out (c_arg c) = true -> held fuel st c) cs -> vars st !! "rcvbuf_size" = Some (CSize, Some n) -> 0 <= n ->
  n + rooms cs < 2 ^ 32 ->
  exists st1, exec st (concat lss ++ k) = exec st1 k /\ grew "rcvbuf_size" (n + rooms cs) [] st st1.
Proof.
  induction cs as [|c cs IH]; intros st lss k n Hown Hls Hh Hn Hn0 Hr.
  - injection Hls as <-. exists st. split; [done|]. cbn. rewrite Z.add_0_r. by split.
  - rewrite fmap_cons in Hls. apply mapM_cons_ret in Hls as (ls & lss' & Hls0 & Hls1 & ->). apply Forall_cons in Hh as [Hh1 Hh2].
    apply cowned_cons in Hown as (Hok & Hnm & Hown & Hdis). cbn [concat]. rewrite <- app_assoc.
    assert (0 <= rooms cs) as Hpos.
    { clear -Hh2. unfold rooms. induction Hh2 as [|d cs Hd _ IH]; [done|]. rewrite fmap_cons. cbn. pose proof (room_nonneg st d Hd). lia. }
    assert (rooms (c :: cs) = room c + rooms cs) as Heq by done. rewrite Heq in *. pose proof (room_nonneg st c Hh1).
    destruct (room_one st c ls (concat lss' ++ k) n Hok Hls0 Hh1 Hnm Hn Hn0 ltac:(lia)) as (st1 & E1 & G1).
    destruct (IH st1 lss' k (n + room c) Hown Hls1) as (st2 & E2 & G2); [|apply G1|lia|lia|].
    { rewrite Forall_forall in Hh2 |- *. intros d Hd Ho. apply (held_keep fuel st); [by apply Hh2| |intros; by rewrite (gr_mem _ _ _ _ _ G1)].
      intros x Hx. apply (gr_vars _ _ _ _ _ G1); [|apply not_elem_of_nil]. eapply cowned_fixed; [exact Hown|exact Hd|exact Hx|unfold client_fixed; subset_in]. }
    exists st2. split; [by rewrite E1|]. rewrite Z.add_assoc. exact (grew_trans _ _ _ [] [] _ _ _ G1 G2).
Qed.
End reply.
