(* ===== verification/RpcStubCall.v ===== *)
(** A whole call of a generated client stub: request, [msgsend], [msgrecv], reply. *)
From Stdlib Require Import Ascii String.
From S2P Require Import Prelude Mem Str StrSpec Ipc IpcSpec Rpcgen Cgen Rpcstub RpcWire RpcServer RpcCall RpcNet RpcMsg RpcDispatch RpcClient RpcReply.

(** Where the result of the function goes, and the value that arrives there. *)
Definition result_writes (fn : RPCFunction) (d : Z) : list (Z * Z) :=
  match type (return_type fn) with IntType => [(d, 4)] | LongType => [(d, 8)] | _ => [] end.
Definition result_room (fn : RPCFunction) : Z :=
  match type (return_type fn) with IntType => 5 | LongType => 9 | _ => 0 end.
Definition result_var (fn : RPCFunction) (vs : gmap string (cty * option Z)) (d : Z) : Prop :=
  match type (return_type fn) with
  | IntType => vs !! "rpc_result" = Some (CPtr CInt, Some d)
  | LongType => vs !! "rpc_result" = Some (CPtr CLong, Some d)
  | _ => True
  end.
Definition result_at (m : mem) (fn : RPCFunction) (d rv : Z) (stale : list Z) : Prop :=
  match type (return_type fn) with
  | IntType => load_ty CInt m d = rv
  | LongType => load_ty CLong m d = s64 (u32 rv + 2 ^ 32 * le_decode stale)
  | _ => True
  end.

Lemma result_at_keep m m1 fn d rv stale : result_at m fn d rv stale ->
  (forall s b, s ∈ result_writes fn d -> s.1 <= b < s.1 + s.2 -> load8 m1 b = load8 m b) -> result_at m1 fn d rv stale.
Proof.
  unfold result_at, result_writes. destruct (type (return_type fn)); try done; intros E Hm; rewrite <- E; unfold load_ty; do 2 f_equal;
    apply load_bytes_ext; intros b Hb; [apply (Hm (d, 4))|apply (Hm (d, 8))]; (by left) || (cbn in *; lia).
Qed.

Lemma le_decode_app a b : le_decode (a ++ b) = le_decode a + 256 ^ Z.of_nat (length a) * le_decode b.
Proof.
  induction a as [|x a IH]; [change (le_decode b = 0 + 1 * le_decode b); lia|]. cbn [app le_decode length]. rewrite IH, Nat2Z.inj_succ, Z.pow_succ_r by lia. lia.
Qed.

Section stub.
Variable fuel : nat.
Variable fns : list RPCFunction.
Variable links : list Z.
Variable pid : Z.
Variable peer : Z -> message -> list (Z * message).
Hypothesis links8 : length links = 8%nat /\ Forall is_byte links.
Implicit Types st : sstate.
Local Abbreviation ext := (net_ext links pid peer).
Local Abbreviation exec := (exec fuel (rpc_defines fns) ext).
Local Abbreviation eval := (eval fuel (rpc_defines fns)).
Local Abbreviation rest := (rest "rcvbuf_ptr" "rcvbuf_rem" (CConstPtr CUchar)).

Lemma get_result st p r fn d rv stale bs ls k : client_result_deserializer fn = Ret ls -> result_fits fn rv -> result_var fn (vars st) d ->
  coded st -> Forall is_byte stale -> length stale = 4%nat -> rest st p r (wire_result fn rv stale ++ bs) ->
  Forall (fun s => disjoint s (p, r)) (result_writes fn d) ->
  exists st1, exec st (ls ++ k) = exec st1 k /\ got p r (Z.of_nat (length (wire_result fn rv stale))) bs [] st st1 /\
    result_at (cmem st1) fn d rv stale /\
    (forall b, Forall (off b) (result_writes fn d) -> load8 (cmem st1) b = load8 (cmem st) b).
Proof.
  intros Hls Hf Hv Hc Hsb Hsl Hr Hd. unfold client_result_deserializer in Hls. unfold result_fits, result_var, wire_result, result_at, result_writes in *.
  destruct (type (return_type fn)) eqn:Et; try done.
  - rewrite decide_False in Hls by (intros Hne; by apply Hne). injection Hls as <-. exists st. split_and!; [done| |done|done].
    split; [by rewrite Z.add_0_r, Z.sub_0_r|done|done|done].
  - rewrite decide_True in Hls by done. injection Hls as <-. apply Forall_cons in Hd as [Hd _]. unfold disjoint in Hd. cbn [Datatypes.fst Datatypes.snd] in Hd.
    destruct (get_scalar fuel (rpc_defines fns) ext st p r "I" CInt bs "rpc_result" (CPtr CInt) d rv k) as (st1 & E1 & G1 & M1);
      [exact Hr|done|by left|done|done|unfold rcv_names; notin|cbn [sizeof]; lia|].
    exists st1. split_and!; [|exact G1| |].
    + etransitivity; [by apply (exec_next _ _ _ st (Line (SComment _)) _ st)|]. rewrite <- E1. f_equal. 
    + unfold load_ty. rewrite M1. rewrite (load_store_bytes_eq _ _ (le_encode 4 rv)); [|apply le_encode_bytes|apply length_le_encode]. by apply s32_le4.
    + intros b Hb. rewrite M1. apply load8_store_bytes_out. apply Forall_cons in Hb as [Hb _]. unfold off in Hb. cbn in Hb. rewrite length_le_encode. cbn. lia.
  - rewrite decide_True in Hls by done. injection Hls as <-. apply Forall_cons in Hd as [Hd _]. unfold disjoint in Hd. cbn [Datatypes.fst Datatypes.snd] in Hd.
    assert (le_encode 4 rv ++ stale = le_encode 8 (le_decode (le_encode 4 rv ++ stale))) as Heq.
    { rewrite <- (le_encode_decode (le_encode 4 rv ++ stale)) at 1.
      - by rewrite length_app, length_le_encode, Hsl.
      - apply Forall_app. split; [apply le_encode_bytes|done]. }
    rewrite Heq in Hr.
    destruct (get_scalar fuel (rpc_defines fns) ext st p r "L" CLong bs "rpc_result" (CPtr CLong) d (le_decode (le_encode 4 rv ++ stale)) k)
      as (st1 & E1 & G1 & M1); [exact Hr|done|by right; left|done|done|unfold rcv_names; notin|cbn [sizeof]; lia|].
    exists st1. split_and!.
    + etransitivity; [by apply (exec_next _ _ _ st (Line (SComment _)) _ st)|]. rewrite <- E1. f_equal.
    + cbn [length]. rewrite length_app, length_le_encode, Hsl. exact G1.
    + unfold load_ty. rewrite M1. rewrite load_store_bytes_eq; [|apply le_encode_bytes|apply length_le_encode]. cbn [conv].
      change (Z.to_nat (sizeof CLong)) with 8%nat. rewrite <- Heq, le_decode_app, le4, length_le_encode. done.
    + intros b Hb. rewrite M1. apply load8_store_bytes_out. apply Forall_cons in Hb as [Hb _]. unfold off in Hb. cbn in Hb. rewrite length_le_encode. cbn. lia.
Qed.

Lemma result_room_ok st fn ls k n : client_result_size fn = Ret ls -> vars st !! "rcvbuf_size" = Some (CSize, Some n) -> 0 <= n ->
  n + result_room fn < 2 ^ 32 ->
  exists st1, exec st (ls ++ k) = exec st1 k /\ grew "rcvbuf_size" (n + result_room fn) [] st st1.
Proof.
  intros Hls Hn Hn0 Hr. unfold client_result_size, result_room in *. destruct (type (return_type fn)); try done; injection Hls as <-.
  - exists st. split; [done|]. rewrite Z.add_0_r. by split.
  - destruct (grow fuel (rpc_defines fns) ext "rcvbuf_size" st [(ENum 1, "rpc_result typecode"); (ESizeof CInt, "rpc_result")] [1; 4] n k Hn Hn0)
      as (st1 & E & G); [by repeat constructor|cbn; lia|]. exists st1. by split.
  - destruct (grow fuel (rpc_defines fns) ext "rcvbuf_size" st [(ENum 1, "rpc_result typecode"); (ESizeof CLong, "rpc_result")] [1; 8] n k Hn Hn0)
      as (st1 & E & G); [by repeat constructor|cbn; lia|]. exists st1. by split.
Qed.

(** What the caller provides for the reply: the receive buffer at [a], the result at [d]. *)
Definition reply_size (fn : RPCFunction) (cs : list citem) : Z := 28 + result_room fn + rooms cs.
Definition outputs (fn : RPCFunction) (d : Z) (cs : list citem) : list (Z * Z) := result_writes fn d ++ concat (writes <$> cs).
Record receivable (fn : RPCFunction) (cs : list citem) (d a : Z) : Prop := {
  rc_separate : separate cs;
  rc_result : Forall (fun s => Forall (disjoint s) (concat (writes <$> cs))) (result_writes fn d);
  rc_range : 0 <= a /\ a + reply_size fn cs < 2 ^ 32;
  rc_buffer : Forall (fun s => disjoint s (a, reply_size fn cs)) (outputs fn d cs)
}.

Lemma Forall_concat_writes (P : Z * Z -> Prop) cs : Forall P (concat (writes <$> cs)) -> Forall (fun c => Forall P (writes c)) cs.
Proof.
  induction cs as [|c cs IH]; [done|]. rewrite fmap_cons. cbn [concat]. intros [H1 H2]%Forall_app. constructor; [done|by apply IH].
Qed.

Lemma wire_result_room fn rv stale : length stale = 4%nat -> Z.of_nat (length (wire_result fn rv stale)) = result_room fn.
Proof.
  intros Hs. unfold wire_result, result_room. destruct (type (return_type fn)); cbn [length]; rewrite ?length_app, ?length_le_encode, ?Hs; done.
Qed.
Lemma result_room_pos fn : 0 <= result_room fn.
Proof. unfold result_room. destruct (type (return_type fn)); lia. Qed.

Lemma msgrecv_call st rp a size t msg rest' k : byte_mem (cmem st) -> vars st !! "rpc_reply_port" = Some (CInt, Some rp) ->
  vars st !! "rcvbuf" = Some (CPtr CMessage, Some a) -> vars st !! "rcvbuf_size" = Some (CSize, Some size) -> vars st !! "ret" = Some (CInt, t) ->
  first_at rp (inbox (world st)) = Some (msg, rest') -> msg_wf msg -> msg_ok msg -> 28 + m_len msg <= size ->
  exists m1, let st1 := set_var (with_net st m1 (mkSW (calls (world st)) rest' (outbox (world st)))) "ret" CInt 0 in
    exec st (Line (SCall (Into "ret") "msgrecv" [EVar "rpc_reply_port"; EVar "rcvbuf"; EVar "rcvbuf_size"; EConst "NULL"]) ::
             If (NeZero "ret") [Line (SReturn (EConst "RPC_FAIL_RECV"))] :: k) = exec st1 k /\
    read_message m1 a = msg /\ byte_mem m1 /\ same_outside (cmem st) m1 a (a + size).
Proof.
  intros Hb Hrp Hbuf Hsz Hret Hf Hw Hok Hl.
  destruct (msgrecv_ok links (cmem st) a size msg (proj1 links8) (proj2 links8) Hb Hw Hok Hl) as (m1 & E1 & R1 & B1 & O1).
  exists m1. intros st1. split; [|done].
  etransitivity; [apply (exec_next _ _ _ st _ _ st1)|].
  { cbn [Cgen.exec_line exec_stmt]. rewrite (exec_call _ _ _ _ _ _ _ [AVal rp; AVal a; AVal size; AVal 0] 0
      (with_net st m1 (mkSW (calls (world st)) rest' (outbox (world st))))).
    - cbn [mbind outcome_bind]. unfold ty_of. cbn [with_net vars]. by rewrite Hret.
    - cbn [eval_args eval_arg Cgen.eval]. by rewrite (var_eq _ _ _ _ Hrp), (var_eq _ _ _ _ Hbuf), (var_eq _ _ _ _ Hsz).
    - unfold net_ext. rewrite decide_False, decide_True by done. rewrite Hf, E1. cbn [mbind outcome_bind]. change sizeof_message with 28.
      by rewrite (proj2 (Z.leb_le _ _)) by done. }
  apply (exec_next _ _ _ st1 _ _ st1). rewrite (exec_if _ _ _ _ _ _ false); [done|]. cbn [test].
  rewrite (var_eq st1 "ret" CInt 0); [done|]. cbn [vars st1 set_var]. by rewrite lookup_insert_eq.
Qed.

Definition rcv_all : list string := ["rcvbuf_size"; "rcvbuf"; "ret"; "rcvbuf_ptr"; "rcvbuf_rem"; "rpc_typecode"].

Lemma held_vars st st1 (cs : list citem) (X : list string) : cowned cs -> X ⊆ client_fixed ->
  Forall (fun c => is_out (c_arg c) = true -> held fuel st c) cs -> (forall x, x ∉ X -> vars st1 !! x = vars st !! x) ->
  (forall c s b, c ∈ cs -> is_out (c_arg c) = true -> s ∈ reads c -> s.1 <= b < s.1 + s.2 -> load8 (cmem st1) b = load8 (cmem st) b) ->
  Forall (fun c => is_out (c_arg c) = true -> held fuel st1 c) cs.
Proof.
  intros Hown HX Hh Hv Hm. rewrite Forall_forall in Hh |- *. intros c Hc Ho. apply (held_keep fuel st); [by apply Hh| |].
  - intros x Hx. apply Hv. intros Hx'. eapply (cowned_fixed cs c x x); [done|done|done|by apply HX|done].
  - intros s b Hs Hb. by apply (Hm c s).
Qed.

Lemma message_len m a msg : byte_mem m -> read_message m a = msg ->
  load_ty CUnsigned m (a + 24) = m_len msg /\ load_bytes m (a + 28) (Z.to_nat (m_len msg)) = m_data msg.
Proof.
  intros Hb <-. pose proof (load32_range m (a + 24) Hb) as Hr.
  assert (m_len (read_message m a) = load32 m (a + 24)) as -> by (unfold m_len; cbn [read_message m_data]; rewrite length_load_bytes; lia).
  split; [|done]. change (u32 (load32 m (a + 24)) = load32 m (a + 24)). by apply u32_small.
Qed.

(** The stub up to the first value of the reply. *)
Record received (a size : Z) (msg : message) (w : sworld) st st1 : Prop := {
  rv_rest : rest st1 (a + 28) (m_len msg) (m_data msg);
  rv_coded : coded st1;
  rv_buf : exists t, vars st1 !! "rcvbuf" = Some (t, Some a);
  rv_mem : same_outside (cmem st) (cmem st1) a (a + size);
  rv_world : world st1 = w;
  rv_vars x : x ∉ rcv_all -> vars st1 !! x = vars st !! x
}.

Lemma receive_ok st fn cs rsize sizes k a ans rp t msg rest' :
  client_result_size fn = Ret rsize -> mapM client_out_size (c_arg <$> cs) = Ret sizes -> cowned cs ->
  Forall (fun c => is_out (c_arg c) = true -> held fuel st c) cs -> byte_mem (cmem st) ->
  vars st !! "rpc_reply_port" = Some (CInt, Some rp) -> vars st !! "ret" = Some (CInt, t) -> answers st = a :: ans ->
  0 <= a -> a + reply_size fn cs < 2 ^ 32 -> 0 <= rooms cs ->
  first_at rp (inbox (world st)) = Some (msg, rest') -> msg_wf msg -> msg_ok msg -> 28 + m_len msg <= reply_size fn cs ->
  exists st1, exec st (Line (SComment "Determine buffer size for results") :: Line (SDecl CSize "rcvbuf_size" (ESizeof CMessage)) ::
      rsize ++ concat sizes ++
      [Blank;
       Line (SComment "Receive results");
       Line (SMalloc (CPtr CMessage) "rcvbuf" (EVar "rcvbuf_size"));
       Line (SCall (Into "ret") "msgrecv" [EVar "rpc_reply_port"; EVar "rcvbuf"; EVar "rcvbuf_size"; EConst "NULL"]);
       If (NeZero "ret") [Line (SReturn (EConst "RPC_FAIL_RECV"))];
       Blank;
       Line (SDecl (CConstPtr CUchar) "rcvbuf_ptr" (EField "rcvbuf" "data"));
       Line (SDecl CSize "rcvbuf_rem" (EField "rcvbuf" "len"));
       Line (SDeclare CChar "rpc_typecode");
       Blank] ++ k) = exec st1 k /\
    received a (reply_size fn cs) msg (mkSW (calls (world st)) rest' (outbox (world st))) st st1 /\ answers st1 = ans.
Proof.
  intros Hrs Hss Hown Hh Hb Hrp Hret Hans Ha Hsz Hrooms Hf Hw Hok Hl. pose proof (result_room_pos fn) as Hrr. unfold reply_size in *.
  set (sta := set_var st "rcvbuf_size" CSize 28).
  match goal with |- exists st1, _ (_ :: _ :: rsize ++ concat sizes ++ ?tl) = _ /\ _ => set (tail := tl) end.
  destruct (result_room_ok sta fn rsize (concat sizes ++ tail) 28 Hrs) as (stb & E1 & G1);
    [cbn [sta set_var vars]; by rewrite lookup_insert_eq|lia|lia|].
  destruct (room_all fuel (rpc_defines fns) ext cs stb sizes tail (28 + result_room fn) Hown Hss) as (stc & E2 & G2); [|apply G1|lia|lia|].
  { apply (held_vars st stb cs ["rcvbuf_size"] Hown); [unfold client_fixed; subset|done| |].
    - intros x Hx. rewrite (gr_vars _ _ _ _ _ G1) by (notin || apply not_elem_of_nil). cbn [sta set_var vars]. rewrite lookup_insert_ne; [done|notin].
    - intros c s b _ _ _ _. by rewrite (gr_mem _ _ _ _ _ G1). }
  pose proof (grew_trans _ _ _ [] [] _ _ _ G1 G2) as G. destruct G as [Gv Gm [Ga Gw] Gx]. set (size := 28 + result_room fn + rooms cs) in *.
  set (std := set_var (mkC (vars stc) (cmem stc) ans (world stc)) "rcvbuf" (CPtr CMessage) a).
  assert (forall x, x ∉ ["rcvbuf_size"; "rcvbuf"] -> vars std !! x = vars st !! x) as Hvd.
  { intros x Hx. cbn [std set_var vars]. rewrite lookup_insert_ne by notin. rewrite Gx by (notin || apply not_elem_of_nil).
    cbn [sta set_var vars]. rewrite lookup_insert_ne; [done|notin]. }
  assert (cmem std = cmem st) as Hmd by (cbn [std set_var cmem]; by rewrite Gm).
  assert (world std = world st) as Hwd by (cbn [std set_var world]; by rewrite Gw).
  destruct (msgrecv_call std rp a size t msg rest'
    ([Blank; Line (SDecl (CConstPtr CUchar) "rcvbuf_ptr" (EField "rcvbuf" "data")); Line (SDecl CSize "rcvbuf_rem" (EField "rcvbuf" "len"));
      Line (SDeclare CChar "rpc_typecode"); Blank] ++ k)) as (m1 & E3 & R3 & B3 & O3).
  { by rewrite Hmd. } { rewrite Hvd; [done|notin]. }
  { cbn [std set_var vars]. rewrite lookup_insert_eq, conv_ptr by lia. done. }
  { cbn [std set_var vars]. by rewrite lookup_insert_ne by done. }
  { rewrite Hvd; [done|notin]. } { by rewrite Hwd. } { done. } { done. } { done. }
  set (ste := set_var (with_net std m1 (mkSW (calls (world std)) rest' (outbox (world std)))) "ret" CInt 0) in *.
  assert (vars ste !! "rcvbuf" = Some (CPtr CMessage, Some a)) as Hbuf.
  { cbn [ste std set_var with_net vars]. rewrite lookup_insert_ne, lookup_insert_eq, conv_ptr by (done || lia). done. }
  set (stf := set_var ste "rcvbuf_ptr" (CConstPtr CUchar) (u32 (a + 28))).
  set (stg := set_var stf "rcvbuf_rem" CSize (m_len msg)).
  set (sth := mkC (<["rpc_typecode" := (CChar, None)]> (vars stg)) (cmem stg) (answers stg) (world stg)).
  destruct (message_len m1 a msg B3 R3) as [Hlen Hdata]. assert (0 <= m_len msg) by (unfold m_len; lia).
  exists sth. split; [|split; [|done]].
  - etransitivity; [by apply (exec_next _ _ _ st (Line (SComment _)) _ st)|]. etransitivity; [by apply (exec_next _ _ _ st _ _ sta)|].
    etransitivity; [exact E1|]. etransitivity; [exact E2|]. unfold tail. cbn [app].
    etransitivity; [by apply (exec_next _ _ _ stc Blank _ stc)|]. etransitivity; [by apply (exec_next _ _ _ stc (Line (SComment _)) _ stc)|].
    etransitivity; [apply (exec_next _ _ _ stc _ _ std)|].
    { cbn [Cgen.exec_line exec_stmt Cgen.eval]. rewrite (var_eq _ _ _ _ Gv). cbn [mbind outcome_bind]. rewrite Ga. cbn [sta set_var answers]. by rewrite Hans. }
    etransitivity; [exact E3|]. etransitivity; [by apply (exec_next _ _ _ ste Blank _ ste)|].
    etransitivity; [apply (exec_next _ _ _ ste _ _ stf)|].
    { cbn [Cgen.exec_line exec_stmt Cgen.eval]. by rewrite (var_eq _ _ _ _ Hbuf). }
    etransitivity; [apply (exec_next _ _ _ stf _ _ stg)|].
    { cbn [Cgen.exec_line exec_stmt Cgen.eval]. rewrite (var_eq stf "rcvbuf" (CPtr CMessage) a) by (cbn [stf set_var vars]; by rewrite lookup_insert_ne).
      change (Ret (None, set_var stf "rcvbuf_rem" CSize (load_ty CUnsigned m1 (a + 24))) = Ret (None, stg) :> outcome (option Z * sstate)). by rewrite Hlen. }
    etransitivity; [by apply (exec_next _ _ _ stg _ _ sth)|]. by apply (exec_next _ _ _ sth Blank).
  - split.
    + split; [split; [|split; [|lia]]|split; [exact B3|exact Hdata]]; cbn [sth stg stf set_var vars].
      * rewrite !lookup_insert_ne, lookup_insert_eq by done. rewrite (u32_small (a + 28)), conv_cptr by lia. done.
      * rewrite lookup_insert_ne, lookup_insert_eq by done. rewrite conv_size by lia. done.
    + exists None. cbn [sth vars]. by rewrite lookup_insert_eq.
    + exists (CPtr CMessage). cbn [sth stg stf set_var vars]. by rewrite !lookup_insert_ne by done.
    + cbn [sth stg stf ste set_var with_net cmem]. by rewrite <- Hmd.
    + cbn [sth stg stf ste set_var with_net world]. by rewrite Hwd.
    + intros x Hx. unfold rcv_all in Hx. cbn [sth stg stf ste set_var with_net vars]. rewrite !lookup_insert_ne by notin. apply Hvd. notin.
Qed.

(** The memory after the reply. *)
Record replied_to (fn : RPCFunction) (cs : list citem) (d a rv : Z) (stale : list Z) st st1 : Prop := {
  rt_outs : Forall (answered (cmem st1)) cs;
  rt_result : result_at (cmem st1) fn d rv stale;
  rt_byte : byte_mem (cmem st1);
  rt_mem b : Forall (off b) (outputs fn d cs) -> b < a \/ a + reply_size fn cs <= b -> load8 (cmem st1) b = load8 (cmem st) b
}.

Lemma reply_ok st fn cs des k a ans rp t d rv stale msg rest' :
  generate_client_marshaller_resultdeserializer fn = Ret des -> modifier (return_type fn) <> OneWayModifier ->
  c_arg <$> cs = args fn -> cowned cs -> Forall (fun c => is_out (c_arg c) = true -> held fuel st c) cs -> Forall answer_fits cs ->
  byte_mem (cmem st) -> vars st !! "rpc_reply_port" = Some (CInt, Some rp) -> vars st !! "ret" = Some (CInt, t) ->
  result_var fn (vars st) d -> result_fits fn rv -> Forall is_byte stale -> length stale = 4%nat -> answers st = a :: ans ->
  receivable fn cs d a -> first_at rp (inbox (world st)) = Some (msg, rest') -> msg_wf msg -> msg_ok msg ->
  m_data msg = wire_result fn rv stale ++ answers_of cs ->
  exists st1, exec st (des ++ k) = exec st1 k /\ replied_to fn cs d a rv stale st st1 /\ answers st1 = ans /\
    world st1 = mkSW (calls (world st)) rest' (outbox (world st)).
Proof.
  intros Hdes Hmod Hargs Hown Hh Hfit Hb Hrp Hret Hvar Hrv Hsb Hsl Hans [Hsep Hres [Ha Hsz] Hbuf] Hf Hw Hok Hdata.
  unfold generate_client_marshaller_resultdeserializer in Hdes. rewrite <- Hargs in Hdes. invert_ret.
  rename a0 into rsize, a1 into sizes. rewrite decide_True in Hdes by done. invert_ret. rename a0 into result, a1 into outs.
  unfold concat_lines in *. pose proof (rooms_fit cs Hfit) as Hrooms. pose proof (wire_result_room fn rv stale Hsl) as Hwr.
  assert (m_len msg = result_room fn + Z.of_nat (length (answers_of cs))) as Hml by (unfold m_len; rewrite Hdata, length_app; lia).
  unfold outputs in Hbuf. apply Forall_app in Hbuf as [Hbuf1 Hbuf2]. apply Forall_concat_writes in Hbuf2.
  destruct (receive_ok st fn cs rsize sizes (result ++ concat outs ++ [Line (SFree "rcvbuf"); Blank] ++ k) a ans rp t msg rest' Hdes0 Hdes1 Hown Hh Hb
    Hrp Hret Hans Ha Hsz ltac:(lia) Hf Hw Hok) as (st1 & E1 & [R1 C1 [tb F1] M1 W1 V1] & A1); [unfold reply_size; lia|].
  assert (forall x, x ∈ rcv_all -> x ∈ client_fixed) as Hrf.
  { unfold rcv_all, client_fixed. subset. }
  rewrite Hdata in R1. unfold reply_size in *.
  destruct (get_result st1 (a + 28) (m_len msg) fn d rv stale (answers_of cs) result (concat outs ++ [Line (SFree "rcvbuf"); Blank] ++ k) Hdes2 Hrv)
    as (st2 & E2 & G2 & T2 & M2); [|done|done|done|done| |].
  { unfold result_var in *. rewrite V1; [done|]. unfold rcv_all. notin. }
  { eapply Forall_impl; [exact Hbuf1|]. unfold disjoint. cbn [Datatypes.fst Datatypes.snd]. intros s Hs. lia. }
  rewrite Hwr in G2. pose proof G2 as [R2 C2 [A2 W2] V2].
  destruct (get_all fuel (rpc_defines fns) ext cs st2 (a + 28 + result_room fn) (m_len msg - result_room fn) a (a + (28 + result_room fn + rooms cs)) []
    outs ([Line (SFree "rcvbuf"); Blank] ++ k) Hown Hdes3) as (st3 & E3 & G3 & T3 & M3); [|done|done| |pose proof (result_room_pos fn); lia|lia| |done|].
  { apply (held_vars st st2 cs rcv_all Hown); [exact Hrf|done| |].
    - intros x Hx. rewrite V2, V1; [done|done| |apply not_elem_of_nil]. unfold rcv_names, rcv_all in *. notin.
    - intros c s b Hc Ho Hs Hbd. rewrite Forall_forall in Hh, Hbuf2. pose proof (out_reads fuel st c s Ho (Hh c Hc Ho) Hs) as Hs'.
      rewrite M2.
      + apply M1. specialize (Hbuf2 c Hc). rewrite Forall_forall in Hbuf2. specialize (Hbuf2 s Hs'). unfold disjoint in Hbuf2. cbn in Hbuf2. lia.
      + eapply Forall_impl; [exact Hres|]. intros u Hu. apply Forall_concat_writes in Hu. rewrite Forall_forall in Hu. specialize (Hu c Hc).
        rewrite Forall_forall in Hu. specialize (Hu s Hs'). unfold disjoint, off in *. lia. }
  { rewrite app_nil_r. exact R2. }
  { eapply Forall_impl; [exact Hbuf2|]. intros c Hc. eapply Forall_impl; [exact Hc|]. intros s Hs.
    replace (a + (28 + result_room fn + rooms cs) - a) with (28 + result_room fn + rooms cs) by lia. exact Hs. }
  pose proof G3 as [R3 C3 [A3 W3] V3].
  exists st3. split; [|split; [|split; [congruence|by rewrite W3, W2]]].
  - rewrite <- ?app_comm_cons, <- ?app_assoc. etransitivity; [etransitivity; [|exact E1]|].
    + f_equal. cbn [app]. rewrite <- ?app_assoc. cbn [app]. rewrite <- ?app_assoc. done.
    + rewrite E2, E3. cbn [app]. etransitivity; [apply (exec_next _ _ _ st3 _ _ st3)|by apply (exec_next _ _ _ st3 Blank)].
      cbn [Cgen.exec_line exec_stmt]. rewrite (var_eq st3 "rcvbuf" tb a); [done|].
      rewrite V3, V2; [done|unfold rcv_names; notin|apply not_elem_of_nil|unfold rcv_names; notin|].
      apply cowned_fixed_out; [done|]. unfold client_fixed. subset_in.
  - split; [done| |apply R3|].
    + apply (result_at_keep (cmem st2)); [done|]. intros s b Hs Hbd. apply M3. rewrite Forall_forall in Hres. specialize (Hres s Hs).
      apply Forall_concat_writes in Hres. eapply Forall_impl; [exact Hres|]. intros c Hc. eapply Forall_impl; [exact Hc|].
      intros u Hu. unfold disjoint, off in *. lia.
    + intros b Hb1 Hb2. unfold outputs in Hb1. apply Forall_app in Hb1 as [Hb1 Hb3]. rewrite M3 by (by apply Forall_concat_writes).
      rewrite M2 by done. by apply M1.
Qed.

(** ** The whole stub *)
Definition request (i : nat) (rp : Z) (cs : list citem) : message := stamped (mkMsg 0 0 rp (1 + Z.of_nat i) (wire_ins cs)) pid.
(** The parameters of the stub, and the send buffer at [a]. *)
Record callable st (fn : RPCFunction) (cs : list citem) (port rp a : Z) : Prop := {
  cb_args : c_arg <$> cs = args fn;
  cb_names : cowned cs;
  cb_held : Forall (held fuel st) cs;
  cb_byte : byte_mem (cmem st);
  cb_port : vars st !! "rpc_port" = Some (CInt, Some port);
  cb_reply_port : vars st !! "rpc_reply_port" = Some (CInt, Some rp) /\ - 2 ^ 31 <= rp < 2 ^ 31;
  cb_range : 0 <= a /\ a + 28 + Z.of_nat (length (wire_ins cs)) < 2 ^ 32;
  cb_clear : Forall (fun c => Forall (clear_of a (a + 28 + Z.of_nat (length (wire_ins cs)))) (reads c)) cs
}.

Lemma send_ok st fn cs i ser k port rp a ans : codes_ok fns -> fns !! i = Some fn -> callable st fn cs port rp a ->
  generate_client_marshaller_argserializer fn = Ret ser -> answers st = a :: ans ->
  let req := request i rp cs in
  exists st1, exec st (ser ++ [Blank;
        Line (SCall (New CInt "ret") "msgsend" [EVar "rpc_port"; EVar "sndbuf"]);
        If (NeZero "ret") [Line (SReturn (EConst "RPC_FAIL_SEND"))];
        Blank;
        Line (SFree "sndbuf");
        Blank] ++ k) = exec st1 k /\ answers st1 = ans /\
    world st1 = mkSW (calls (world st)) (inbox (world st) ++ peer port req) (outbox (world st) ++ [(port, req)]) /\
    byte_mem (cmem st1) /\ same_outside (cmem st) (cmem st1) a (a + 28 + Z.of_nat (length (wire_ins cs))) /\
    Forall (held fuel st1) cs /\ vars st1 !! "ret" = Some (CInt, Some 0) /\
    (forall x, x ∉ snd_names -> x <> "ret" -> x ∉ cnames cs -> vars st1 !! x = vars st !! x).
Proof.
  intros Hcodes Hi [Cargs Cown Cheld Cbyte Cport [Crp Crp0] [Ca Clen] Cclear] Hser Hans req.
  assert (Z.of_nat i < 2 ^ 31) as Hi31 by (destruct Hcodes as [_ Hc]; apply lookup_lt_Some in Hi; lia).
  match goal with |- exists st1, _ (_ ++ ?tl) = _ /\ _ => set (tail := tl) end.
  destruct (request_ok fuel (rpc_defines fns) ext st fn cs ser tail a ans rp (1 + Z.of_nat i) Hser Cargs Cown Cheld Cbyte Crp Hans Ca Clen Cclear)
    as (st1 & E1 & [Q1 Q2 Q3 Q4 Q5 Q6 Q7] & A1); [by apply defines_at|].
  destruct (msgsend_ok (cmem st1) a Q3 Ca) as (m2 & E2 & B2 & O2).
  destruct (addressed_read _ _ _ _ _ Q2 Crp0 ltac:(lia)) as (x & y & Hrd). rewrite Hrd in E2.
  set (w := mkSW (calls (world st)) (inbox (world st) ++ peer port req) (outbox (world st) ++ [(port, req)])).
  set (st2 := set_var (with_net st1 m2 w) "ret" CInt 0).
  assert (forall x, x <> "ret" -> vars st2 !! x = vars st1 !! x) as Hv2.
  { intros z Hz. cbn [st2 set_var with_net vars]. by rewrite lookup_insert_ne. }
  assert (forall z, z ∈ client_fixed -> z ∉ cnames cs) as Hfx by (intros; by apply cowned_fixed_out).
  exists st2. split; [|split; [done|split; [done|split; [done|split; [|split; [|split]]]]]].
  - etransitivity; [exact E1|]. unfold tail. cbn [app]. etransitivity; [by apply (exec_next _ _ _ st1 Blank _ st1)|].
    etransitivity; [apply (exec_next _ _ _ st1 _ _ st2)|].
    { cbn [Cgen.exec_line exec_stmt].
      rewrite (exec_call _ _ _ _ _ _ _ [AVal port; AVal a] 0 (with_net st1 m2 w)); [done|..].
      - cbn [eval_args eval_arg Cgen.eval].
        rewrite (var_eq st1 "rpc_port" CInt port); [|rewrite Q7; [done|unfold snd_names; notin|apply Hfx; unfold client_fixed; subset_in]].
        cbn [mbind outcome_bind]. by rewrite (var_eq _ _ _ _ Q1).
      - unfold net_ext. rewrite decide_True by done. rewrite E2. rewrite stamped_prepare, stamped_eq, Q5. done. }
    etransitivity; [apply (exec_next _ _ _ st2 _ _ st2)|].
    { rewrite (exec_if _ _ _ _ _ _ false); [done|]. cbn [test]. rewrite (var_eq st2 "ret" CInt 0); [done|]. cbn [vars st2 set_var]. by rewrite lookup_insert_eq. }
    etransitivity; [by apply (exec_next _ _ _ st2 Blank _ st2)|].
    etransitivity; [apply (exec_next _ _ _ st2 _ _ st2)|by apply (exec_next _ _ _ st2 Blank)].
    cbn [Cgen.exec_line exec_stmt]. rewrite (var_eq st2 "sndbuf" (CPtr CMessage) a); [done|]. by rewrite Hv2.
  - intros c Hc. cbn [st2 set_var with_net cmem]. rewrite O2 by lia. apply Q4. lia.
  - rewrite Forall_forall in Q6, Cclear |- *. intros c Hc. apply (held_keep fuel st1); [by apply Q6| |].
    + intros z Hz. apply Hv2. eapply cowned_fixed; [exact Cown|exact Hc|exact Hz|unfold client_fixed; subset_in].
    + intros s b Hs Hb. cbn [st2 set_var with_net cmem]. apply O2. specialize (Cclear c Hc). rewrite Forall_forall in Cclear.
      specialize (Cclear s Hs). unfold clear_of in Cclear. lia.
  - cbn [st2 set_var vars]. by rewrite lookup_insert_eq.
  - intros z Hz Hr Hn. rewrite Hv2 by done. by apply Q7.
Qed.

(** A oneway function only sends. *)
Lemma oneway_ok st fn cs i body port rp a ans : codes_ok fns -> fns !! i = Some fn -> callable st fn cs port rp a ->
  client_body fn = Ret body -> modifier (return_type fn) = OneWayModifier -> answers st = a :: ans ->
  exists st1, exec st body = Ret (Some 0, st1) /\ answers st1 = ans /\
    world st1 = mkSW (calls (world st)) (inbox (world st) ++ peer port (request i rp cs)) (outbox (world st) ++ [(port, request i rp cs)]) /\
    same_outside (cmem st) (cmem st1) a (a + 28 + Z.of_nat (length (wire_ins cs))).
Proof.
  intros Hcodes Hi Hc Hbody Hmod Hans. unfold client_body in Hbody. invert_ret. rename a0 into ser, a1 into des.
  rewrite decide_False in Hbody1 by (intros Hne; by apply Hne).
  assert (des = []) as -> by (destruct (decide _); [done|by injection Hbody1]).
  destruct (send_ok st fn cs i ser [Line (SReturn (EConst "RPC_OK"))] port rp a ans Hcodes Hi Hc Hbody0 Hans)
    as (st1 & E1 & A1 & W1 & B1 & O1 & _). exists st1. split_and!; [|done|done|done]. etransitivity; [|etransitivity; [exact E1|done]]. f_equal.
Qed.

(** A call with a reply. *)
Lemma stub_ok st fn cs i body port rp a b ans d rv stale msg rest' : codes_ok fns -> fns !! i = Some fn -> callable st fn cs port rp a ->
  client_body fn = Ret body -> modifier (return_type fn) <> OneWayModifier -> answers st = a :: b :: ans ->
  Forall answer_fits cs -> result_var fn (vars st) d -> result_fits fn rv -> Forall is_byte stale -> length stale = 4%nat ->
  receivable fn cs d b -> first_at rp (inbox (world st) ++ peer port (request i rp cs)) = Some (msg, rest') -> msg_wf msg -> msg_ok msg ->
  m_data msg = wire_result fn rv stale ++ answers_of cs ->
  exists st1, exec st body = Ret (Some 0, st1) /\ answers st1 = ans /\
    world st1 = mkSW (calls (world st)) rest' (outbox (world st) ++ [(port, request i rp cs)]) /\
    Forall (answered (cmem st1)) cs /\ result_at (cmem st1) fn d rv stale /\
    (forall z, Forall (off z) (outputs fn d cs) -> off z (a, 28 + Z.of_nat (length (wire_ins cs))) -> off z (b, reply_size fn cs) ->
       load8 (cmem st1) z = load8 (cmem st) z).
Proof.
  intros Hcodes Hi Hc Hbody Hmod Hans Hfit Hvar Hrv Hsb Hsl Hrec Hf Hw Hok Hdata. pose proof Hc as [Cargs Cown Cheld Cbyte Cport [Crp _] _ _].
  unfold client_body in Hbody. invert_ret. rename a0 into ser, a1 into des. rewrite decide_True in Hbody1 by done.
  assert (forall z, z ∈ client_fixed -> z ∉ cnames cs) as Hfx by (intros; by apply cowned_fixed_out).
  destruct (send_ok st fn cs i ser (des ++ [Line (SReturn (EConst "RPC_OK"))]) port rp a (b :: ans) Hcodes Hi Hc Hbody0 Hans)
    as (st1 & E1 & A1 & W1 & B1 & O1 & H1 & R1 & V1).
  destruct (reply_ok st1 fn cs des [Line (SReturn (EConst "RPC_OK"))] b ans rp (Some 0) d rv stale msg rest' Hbody1 Hmod Cargs Cown)
    as (st2 & E2 & [T1 T2 T3 T4] & A2 & W2); try done.
  { eapply Forall_impl; [exact H1|]. by intros c Hh _. }
  { rewrite V1; [done|unfold snd_names; notin|done|apply Hfx; unfold client_fixed; subset_in]. }
  { unfold result_var in *. rewrite V1; [done|unfold snd_names; notin|done|apply Hfx; unfold client_fixed; subset_in]. }
  { by rewrite W1. }
  exists st2. split_and!; [|done|by rewrite W2, W1|done|done|].
  - etransitivity; [|etransitivity; [exact E1|etransitivity; [exact E2|done]]]. f_equal.
  - intros z Hz Ha Hb. unfold off in Ha, Hb. cbn [Datatypes.fst Datatypes.snd] in Ha, Hb. rewrite T4 by (done || lia). apply O1. lia.
Qed.
End stub.
