(* ===== verification/RpcClaims.v ===== *)
(** Remote calls from end to end: the generated client stub, the messages and the generated
    dispatcher together ([tools/rpcgen], [common/port.c]). *)
From Stdlib Require Import Ascii String.
From S2P Require Import Prelude Mem Str StrSpec Ipc IpcSpec Rpcgen Cgen Rpcstub RpcWire RpcgenOut RpcServer RpcCall RpcNet RpcMsg RpcDispatch RpcClient RpcReply RpcStubCall.

(** ** The request on the wire *)

(** The value the server finds for a parameter: a string has its terminator. *)
Definition sent (c : citem) : wval :=
  match is_out (c_arg c), type (arg_type (c_arg c)), c_in c with
  | false, StringType, VBytes l => VBytes (l ++ [0])
  | _, _, v => v
  end.

Lemma parse_code_cons c bs : parse_code c (u8 (code c) :: bs) = Some bs.
Proof. unfold parse_code. by rewrite Z.eqb_refl. Qed.
Lemma parse_num_encode n z bs : parse_num n (le_encode n z ++ bs) = Some (z mod 256 ^ Z.of_nat n, bs).
Proof.
  unfold parse_num. rewrite length_app, length_le_encode, (proj2 (Nat.leb_le _ _)) by lia.
  by rewrite take_encode, drop_encode, le_decode_encode.
Qed.
Lemma parse4 z bs : parse_num 4 (le_encode 4 z ++ bs) = Some (u32 z, bs).
Proof. apply parse_num_encode. Qed.
Lemma parse8 z bs : parse_num 8 (le_encode 8 z ++ bs) = Some (u64 z, bs).
Proof. apply parse_num_encode. Qed.
Lemma parse_bytes_encode l bs : Z.of_nat (length l) < 2 ^ 32 ->
  parse_bytes (le_encode 4 (Z.of_nat (length l)) ++ l ++ bs) = Some (l, bs).
Proof.
  intros Hl. unfold parse_bytes. rewrite parse4. cbn [mbind option_bind]. rewrite u32_small, Nat2Z.id, length_app, (proj2 (Nat.leb_le _ _)) by lia. by rewrite take_app_length, drop_app_length.
Qed.

Lemma parse_item {W} fuel (st : cstate W) c bs : arg_ok (c_arg c) = true -> held fuel st c -> Z.of_nat (length (wire_item c)) < 2 ^ 32 ->
  parse_arg (c_arg c) (wire_item c ++ bs) = Some (sent c, bs).
Proof.
  destruct c as [[x [ty md]] v q s o]. unfold held, wire_item, wire_in, sent, parse_arg. cbn [is_out arg_type modifier type c_arg c_in].
  intros Ha Hh Hl. destruct md, ty; try discriminate Ha; cbn [is_out arg_type modifier] in *; destruct v as [z|z|l|n|]; try done; cbn [length] in Hl; rewrite ?length_app, ?length_le_encode in Hl;
    rewrite <- ?app_comm_cons, ?parse_code_cons; cbn [mbind option_bind]; rewrite <- ?app_assoc, ?parse4, ?parse8; cbn [mbind option_bind].
  - destruct Hh as [_ Hz]. by rewrite swrap_wrap, s32_small by lia.
  - cbn [length] in Hl. replace (Z.of_nat (length l) + 1) with (Z.of_nat (length (l ++ [0]))) by (rewrite length_app; cbn; lia).
    rewrite (app_assoc l [0] bs), parse_bytes_encode; [done|]. rewrite length_app. cbn. lia.
  - destruct Hh as [_ Hz]. by rewrite swrap_wrap, (swrap_small 64) by lia.
  - by rewrite parse_bytes_encode by lia.
  - destruct Hh as (_ & _ & Hn). by rewrite !u32_small by (rewrite ?u32_small; lia).
  - destruct Hh as (_ & _ & _ & Hn). by rewrite !u32_small by (rewrite ?u32_small; lia).
Qed.

Lemma parse_request {W} fuel (st : cstate W) cs : Forall (fun c => arg_ok (c_arg c) = true) cs -> Forall (held fuel st) cs ->
  Z.of_nat (length (wire_ins cs)) < 2 ^ 32 -> forall bs, parse_args (c_arg <$> cs) (wire_ins cs ++ bs) = Some (sent <$> cs, bs).
Proof.
  intros Ha Hh. induction Hh as [|c cs Hc _ IH]; intros Hl bs; [done|]. apply Forall_cons in Ha as [Ha1 Ha2].
  rewrite wire_ins_cons, length_app in Hl. rewrite wire_ins_cons, !fmap_cons, <- app_assoc. cbn [parse_args].
  rewrite (parse_item fuel st) by (done || lia). cbn [mbind option_bind]. rewrite IH by (done || lia). done.
Qed.

Lemma cstring_chars l : Forall is_char l -> cstring (l ++ [0]) = l.
Proof.
  induction 1 as [|c l Hc _ IH]; [done|]. cbn [app cstring]. unfold is_char in Hc. rewrite (proj2 (Z.eqb_neq _ _)) by lia. by rewrite IH.
Qed.
Lemma seen_sent {W} fuel (st : cstate W) c : held fuel st c -> seen (c_arg c) (sent c) = c_in c.
Proof.
  destruct c as [[x [ty md]] v q s o]. unfold held, seen, sent. cbn [is_out arg_type modifier type c_arg c_in].
  destruct md, ty, v; try done; intros (_ & [_ Hl _] & _); cbn [is_out arg_type modifier]; by rewrite cstring_chars.
Qed.

(** ** Client and server together *)
Section remote.
Variable fuel : nat.
Variable fns : list RPCFunction.
Variable H : handler.

(** A request arrives at the server. *)
Definition deliver (st : sstate) (port : Z) (msg : message) : sstate :=
  mkC (vars st) (cmem st) (answers st) (mkSW (calls (world st)) [(port, msg)] []).
(** What a waiting server sends when a request arrives: the outbox after one turn of its loop. *)
Definition serve (links : list Z) (server_pid : Z) (st : sstate) (port : Z) (msg : message) : list (Z * message) :=
  match dispatch_turn fuel fns H links server_pid (fun _ _ => []) (deliver st port msg) with
  | Ret (_, st1) => outbox (world st1)
  | Fault _ => []
  end.

(** The server's view of the parameters. *)
Definition matches (c : citem) (i : item) : Prop := i_arg i = c_arg c /\ i_in i = sent c /\ i_out i = c_out c.

Lemma matches_fmap cs l : Forall2 matches cs l ->
  i_arg <$> l = c_arg <$> cs /\ i_in <$> l = sent <$> cs /\ i_out <$> l = c_out <$> cs.
Proof.
  induction 1 as [|c i cs l (M1 & M2 & M3) _ (I1 & I2 & I3)]; [done|]. rewrite !fmap_cons. by rewrite M1, M2, M3, I1, I2, I3.
Qed.
Lemma matches_seen {W} (st : cstate W) cs l : Forall2 matches cs l -> Forall (held fuel st) cs -> seen_by l = c_in <$> cs.
Proof.
  induction 1 as [|c i cs l (M1 & M2 & M3) _ IH]; intros Hh; [done|]. apply Forall_cons in Hh as [Hc Hh].
  unfold seen_by in *. rewrite !fmap_cons, IH by done. by rewrite M1, M2, (seen_sent fuel st c Hc).
Qed.
Lemma matches_fits {W} (st : cstate W) cs l : Forall2 matches cs l -> Forall (held fuel st) cs -> Forall (out_fits fuel) l -> Forall answer_fits cs.
Proof.
  induction 1 as [|c i cs l (M1 & M2 & M3) _ IH]; intros Hh Hf; [constructor|]. apply Forall_cons in Hh as [Hc Hh]. apply Forall_cons in Hf as [Hi Hf].
  constructor; [|by apply IH]. clear IH Hh Hf. destruct c as [[x [ty md]] v q s o], i as [ia ii ib io]. cbn [i_arg i_in i_out c_arg c_out] in *. subst.
  unfold out_fits, answer_fits, held, sent in *. cbn [i_arg i_in i_out c_arg c_in c_out is_out arg_type modifier type] in *.
  destruct md; [done..|]. cbn [is_out arg_type modifier] in *. destruct ty; try done; destruct v as [?|?|?|n|]; try done; destruct o; try done.
  cbn [cap] in Hi. tauto.
Qed.

Lemma first_at_app port l m : first_at port l = None -> first_at port (l ++ [(port, m)]) = Some (m, l).
Proof.
  induction l as [|[p x] l IH]; cbn [first_at app]; [by rewrite Z.eqb_refl|]. destruct (p =? port); [done|].
  destruct (first_at port l) as [[? ?]|]; [done|]. intros _. by rewrite IH.
Qed.
End remote.

(** A server that waits at [port] with room for the call: its buffers, and the buffers [malloc]
    will return for the out parameters of variable size. *)
Record server_ready (fuel : nat) (ss : sstate) (fn : RPCFunction) (l : list item) (port snd rcv : Z) : Prop := {
  sr_at : server_at ss port snd rcv;
  sr_byte : byte_mem (cmem ss);
  sr_names : own_names fn;
  sr_call : call_ok fuel fn l (snd + 28) 4068;
  sr_avoids : Forall (avoids rcv (rcv + 4096)) l
}.
Definition link_bytes (links : list Z) : Prop := length links = 8%nat /\ Forall is_byte links.
Definition is_int (z : Z) : Prop := - 2 ^ 31 <= z < 2 ^ 31.
(** The bytes of the reply buffer behind the low half of a result. *)
Definition stale_bytes (ss : sstate) (snd : Z) : list Z := load_bytes (cmem ss) (snd + 33) 4.

Lemma stale_eq ss snd : take 4 (drop 5 (load_bytes (cmem ss) (snd + 28) 4068)) = stale_bytes ss snd.
Proof.
  unfold stale_bytes. symmetry. replace (snd + 33) with (snd + 28 + Z.of_nat 5) by lia. apply load_slice; rewrite length_load_bytes; [done|lia].
Qed.

(** The request reaches the handler: a turn of the server on it. *)
Lemma serve_ok fuel fns H links spid cpid ss fn i sbody (st : sstate) cs l port rp a snd rcv rv sans :
  link_bytes links -> is_int cpid -> codes_ok fns -> fns !! i = Some fn -> marshaller_body fn = Ret sbody ->
  callable fuel st fn cs port rp a -> server_ready fuel ss fn l port snd rcv -> Forall2 matches cs l -> answers ss = buffers l ++ sans ->
  H (fn_name fn) cpid (c_in <$> cs) = (rv, c_out <$> cs) -> result_fits fn rv ->
  28 + Z.of_nat (length (wire_ins cs)) <= 4096 -> 28 + result_room fn + Z.of_nat (length (answers_of cs)) <= 4096 ->
  let req := request cpid i rp cs in
  let answer := stamped (mkMsg 0 0 (-1) 0 (wire_result fn rv (stale_bytes ss snd) ++ answers_of cs)) spid in
  let called := calls (world ss) ++ [(fn_name fn, cpid, c_in <$> cs)] in
  exists ss1, dispatch_turn fuel fns H links spid (fun _ _ => []) (deliver ss port req) = Ret (None, ss1) /\
    server_at ss1 port snd rcv /\ answers ss1 = sans /\ byte_mem (cmem ss1) /\
    world ss1 = if replies fn then mkSW called [] [(rp, answer)] else mkSW called [] [].
Proof.
  intros Hlinks Hcpid Hcodes Hi Hsb Hc [S1 S2 S3 S4 S5] Hm Hans HH Hrv Hreq Hrep req answer called.
  destruct (matches_fmap cs l Hm) as (M1 & M2 & M3). pose proof Hc as [Cargs Cown Cheld Cbyte _ [_ Crp] _ _].
  assert (Z.of_nat i < 2 ^ 31) as Hi31 by (destruct Hcodes as [_ Hn]; apply lookup_lt_Some in Hi; lia).
  destruct (stamped_wf rp (1 + Z.of_nat i) (wire_ins cs) cpid Crp ltac:(lia) Hcpid ltac:(lia) ltac:(by eapply wire_ins_bytes)) as [Hwf Hok].
  assert (reply_data fn rv (i_out <$> l) (load_bytes (cmem ss) (snd + 28) 4068) = wire_result fn rv (stale_bytes ss snd) ++ answers_of cs) as Hreply.
  { unfold reply_data. rewrite stale_eq, M3. unfold answers_of. by rewrite Cargs. }
  destruct (dispatch_ok fuel fns H (handle_ext fuel fns H) links spid (fun _ _ => []) Hlinks eq_refl (deliver ss port req) port snd rcv req [] i fn sbody l rv sans Hcodes)
    as (ss1 & E1 & T1 & B1 & A1 & W1); try done.
  - by eapply server_keep.
  - cbn [deliver world inbox first_at]. by rewrite Z.eqb_refl.
  - split; try done.
    + exists []. cbn [req request stamped set_checksum set_sender m_data]. rewrite M2, <- Cargs.
      pose proof (parse_request fuel st cs (proj1 Cown) Cheld ltac:(lia) []) as Hp. by rewrite app_nil_r in Hp.
    + rewrite M3. rewrite (matches_seen fuel st cs l Hm Cheld). exact HH.
    + cbn [deliver cmem]. rewrite Hreply, length_app, Nat2Z.inj_add, wire_result_room by apply length_load_bytes. lia.
  - cbn [deliver cmem world calls outbox] in W1. rewrite Hreply, (matches_seen fuel st cs l Hm Cheld) in W1.
    exists ss1. split_and!; done.
Qed.

(** A caller and a server of the same interface: the caller passes [cs] to the stub of function
    number [i], the server waits with the buffers of [l], its handler answers [rv] and the out
    values of [cs]. *)
Record setting (fuel : nat) (fns : list RPCFunction) (H : handler) (cpid spid : Z) (st ss : sstate) (fn : RPCFunction) (i : nat)
    (cs : list citem) (l : list item) (port rp a snd rcv rv : Z) : Prop := {
  se_codes : codes_ok fns;
  se_fn : fns !! i = Some fn;
  se_client : callable fuel st fn cs port rp a;
  se_server : server_ready fuel ss fn l port snd rcv;
  se_matches : Forall2 matches cs l;
  se_answers : exists sans, answers ss = buffers l ++ sans;
  se_pids : is_int cpid /\ is_int spid;
  se_handler : H (fn_name fn) cpid (c_in <$> cs) = (rv, c_out <$> cs);
  se_result : result_fits fn rv;
  se_request : 28 + Z.of_nat (length (wire_ins cs)) <= 4096;
  se_reply : 28 + result_room fn + Z.of_nat (length (answers_of cs)) <= 4096
}.

Section calls.
Variables (fuel : nat) (fns : list RPCFunction) (H : handler) (clinks slinks : list Z) (cpid spid : Z) (st ss : sstate)
  (fn : RPCFunction) (i : nat) (cbody sbody : list line) (cs : list citem) (l : list item) (port rp a snd rcv rv : Z).
Hypothesis client_links : link_bytes clinks.
Hypothesis server_links : link_bytes slinks.
Hypothesis Hset : setting fuel fns H cpid spid st ss fn i cs l port rp a snd rcv rv.
Hypothesis Hcb : client_body fn = Ret cbody.
Hypothesis Hsb : marshaller_body fn = Ret sbody.
Let network := net_ext clinks cpid (serve fuel fns H slinks spid ss).
Let turn := dispatch_turn fuel fns H slinks spid (fun _ _ => []) (deliver ss port (request cpid i rp cs)).

Lemma reply_bytes_of : Forall is_byte (wire_result fn rv (stale_bytes ss snd) ++ answers_of cs).
Proof using Hset.
  destruct (matches_fmap cs l (se_matches _ _ _ _ _ _ _ _ _ _ _ _ _ _ _ _ _ Hset)) as (M1 & M2 & M3).
  pose proof (se_server _ _ _ _ _ _ _ _ _ _ _ _ _ _ _ _ _ Hset) as Hready.
  unfold answers_of. rewrite <- M1, <- M3. apply Forall_app. split.
  - unfold wire_result. destruct (type (return_type fn)); try apply Forall_nil_2; (apply Forall_cons; split; [apply u8_range|]).
    + apply le_encode_bytes.
    + apply Forall_app. split; [apply le_encode_bytes|]. apply load_bytes_byte, (sr_byte _ _ _ _ _ _ _ Hready).
  - apply (wire_outs_bytes fuel). apply (co_fits _ _ _ _ _ (sr_call _ _ _ _ _ _ _ Hready)).
Qed.

Lemma remote_call b d ans : modifier (return_type fn) <> OneWayModifier -> receivable fn cs d b -> result_var fn (vars st) d ->
  answers st = a :: b :: ans -> first_at rp (inbox (world st)) = None ->
  exists st1 ss1, exec fuel (rpc_defines fns) network st cbody = Ret (Some 0, st1) /\ turn = Ret (None, ss1) /\
    Forall (answered (cmem st1)) cs /\ result_at (cmem st1) fn d rv (stale_bytes ss snd) /\
    (forall z, Forall (off z) (outputs fn d cs) -> off z (a, 28 + Z.of_nat (length (wire_ins cs))) -> off z (b, reply_size fn cs) ->
       load8 (cmem st1) z = load8 (cmem st) z) /\
    world st1 = mkSW (calls (world st)) (inbox (world st)) (outbox (world st) ++ [(port, request cpid i rp cs)]) /\
    calls (world ss1) = calls (world ss) ++ [(fn_name fn, cpid, c_in <$> cs)] /\ server_at ss1 port snd rcv /\ inbox (world ss1) = [].
Proof using Hset Hcb Hsb client_links server_links.
  intros Hmod Hrec Hvar Hans Hin. pose proof reply_bytes_of as Hdb.
  destruct Hset as [Hcodes Hi Hc Hready Hm [sans Hsans] [Hcpid Hspid] HH Hrv Hreq Hrep].
  destruct (serve_ok fuel fns H slinks spid cpid ss fn i sbody st cs l port rp a snd rcv rv sans server_links Hcpid Hcodes Hi Hsb Hc Hready Hm Hsans
    HH Hrv Hreq Hrep) as (ss1 & E1 & T1 & A1 & B1 & W1).
  assert (replies fn = true) as Hrepl by (unfold replies; rewrite bool_decide_true by done; apply orb_true_r). rewrite Hrepl in W1.
  set (answer := stamped (mkMsg 0 0 (-1) 0 (wire_result fn rv (stale_bytes ss snd) ++ answers_of cs)) spid) in *.
  assert (Forall answer_fits cs) as Hfit.
  { eapply (matches_fits fuel st); [exact Hm|apply Hc|]. apply (co_fits _ _ _ _ _ (sr_call _ _ _ _ _ _ _ Hready)). }
  assert (Forall is_byte (stale_bytes ss snd)) as Hst by (apply load_bytes_byte, (sr_byte _ _ _ _ _ _ _ Hready)).
  destruct (stamped_wf (-1) 0 (wire_result fn rv (stale_bytes ss snd) ++ answers_of cs) spid ltac:(lia) ltac:(lia) Hspid) as [Hwf Hok];
    [rewrite length_app, Nat2Z.inj_add, wire_result_room by apply length_load_bytes; lia|done|].
  destruct (stub_ok fuel fns clinks cpid (serve fuel fns H slinks spid ss) client_links st fn cs i cbody port rp a b ans d rv (stale_bytes ss snd) answer
    (inbox (world st)) Hcodes Hi Hc Hcb Hmod Hans Hfit Hvar Hrv Hst) as (st1 & E2 & A2 & W2 & T2 & R2 & F2); try done.
  - unfold serve. rewrite E1, W1. cbn [outbox]. by apply first_at_app.
  - exists st1, ss1. split_and!; try done; by rewrite W1.
Qed.

Lemma remote_oneway ans : modifier (return_type fn) = OneWayModifier -> has_result fn = false -> answers st = a :: ans ->
  exists st1 ss1, exec fuel (rpc_defines fns) network st cbody = Ret (Some 0, st1) /\ turn = Ret (None, ss1) /\
    same_outside (cmem st) (cmem st1) a (a + 28 + Z.of_nat (length (wire_ins cs))) /\
    world st1 = mkSW (calls (world st)) (inbox (world st)) (outbox (world st) ++ [(port, request cpid i rp cs)]) /\
    calls (world ss1) = calls (world ss) ++ [(fn_name fn, cpid, c_in <$> cs)] /\ server_at ss1 port snd rcv /\ outbox (world ss1) = [].
Proof using Hset Hcb Hsb client_links server_links.
  intros Hmod Hnone Hans. destruct Hset as [Hcodes Hi Hc Hready Hm [sans Hsans] [Hcpid Hspid] HH Hrv Hreq Hrep].
  destruct (serve_ok fuel fns H slinks spid cpid ss fn i sbody st cs l port rp a snd rcv rv sans server_links Hcpid Hcodes Hi Hsb Hc Hready Hm Hsans
    HH Hrv Hreq Hrep) as (ss1 & E1 & T1 & A1 & B1 & W1).
  assert (replies fn = false) as Hrepl by (unfold replies; rewrite Hnone, bool_decide_false by (intros Hn; by apply Hn); done). rewrite Hrepl in W1.
  destruct (oneway_ok fuel fns clinks cpid (serve fuel fns H slinks spid ss) client_links st fn cs i cbody port rp a ans Hcodes Hi Hc Hcb Hmod Hans)
    as (st1 & E2 & A2 & W2 & O2).
  exists st1, ss1. split_and!; try done; try (by rewrite W1). rewrite W2. unfold serve. rewrite E1, W1. cbn [outbox]. by rewrite app_nil_r.
Qed.
End calls.

(** C11: A remote call has the effect of a call. When the generated stub of a function of the
    interface runs against the generated dispatcher of the same interface, and request and reply
    fit the 4096 bytes of a message, the stub returns [RPC_OK]; the handler was called exactly
    once, with the caller's process id and exactly the values the caller passed; every out
    parameter and an [int] result arrive in the caller's memory, nothing else of it changes but
    the two message buffers, and the server waits again. Of a [long] result only the low four
    bytes are the handler's: what arrives is its low half plus 2^32 times the four stale bytes of
    the server's reply buffer, as a signed 64-bit value. *)
Theorem rpc_call_spec (fuel : nat) (fns : list RPCFunction) (H : handler) (clinks slinks : list Z) (cpid spid : Z)
    (st ss : sstate) (fn : RPCFunction) (i : nat) (cbody sbody : list line) (cs : list citem) (l : list item)
    (port rp a b d snd rcv rv : Z) (ans : list Z) :
  link_bytes clinks -> link_bytes slinks -> setting fuel fns H cpid spid st ss fn i cs l port rp a snd rcv rv ->
  client_body fn = Ret cbody -> marshaller_body fn = Ret sbody -> modifier (return_type fn) <> OneWayModifier ->
  receivable fn cs d b -> result_var fn (vars st) d -> answers st = a :: b :: ans -> first_at rp (inbox (world st)) = None ->
  exists st1 ss1,
    exec fuel (rpc_defines fns) (net_ext clinks cpid (serve fuel fns H slinks spid ss)) st cbody = Ret (Some 0, st1) /\
    dispatch_turn fuel fns H slinks spid (fun _ _ => []) (deliver ss port (request cpid i rp cs)) = Ret (None, ss1) /\
    Forall (answered (cmem st1)) cs /\ result_at (cmem st1) fn d rv (stale_bytes ss snd) /\
    (forall z, Forall (off z) (outputs fn d cs) -> off z (a, 28 + Z.of_nat (length (wire_ins cs))) -> off z (b, reply_size fn cs) ->
       load8 (cmem st1) z = load8 (cmem st) z) /\
    world st1 = mkSW (calls (world st)) (inbox (world st)) (outbox (world st) ++ [(port, request cpid i rp cs)]) /\
    calls (world ss1) = calls (world ss) ++ [(fn_name fn, cpid, c_in <$> cs)] /\ server_at ss1 port snd rcv /\ inbox (world ss1) = [].
Proof. intros. eapply remote_call; eassumption. Qed.

(** C26: A [long] result is transported wrongly: the server writes four of its eight bytes. The
    caller gets the handler's value exactly when the other four, left in the server's reply
    buffer by an earlier call, happen to be the upper half of the value. *)
Theorem rpc_long_result (fuel : nat) (fns : list RPCFunction) (H : handler) (clinks slinks : list Z) (cpid spid : Z)
    (st ss : sstate) (fn : RPCFunction) (i : nat) (cbody sbody : list line) (cs : list citem) (l : list item)
    (port rp a b d snd rcv rv : Z) (ans : list Z) :
  link_bytes clinks -> link_bytes slinks -> setting fuel fns H cpid spid st ss fn i cs l port rp a snd rcv rv ->
  client_body fn = Ret cbody -> marshaller_body fn = Ret sbody -> modifier (return_type fn) <> OneWayModifier ->
  receivable fn cs d b -> result_var fn (vars st) d -> answers st = a :: b :: ans -> first_at rp (inbox (world st)) = None ->
  type (return_type fn) = LongType ->
  exists st1, exec fuel (rpc_defines fns) (net_ext clinks cpid (serve fuel fns H slinks spid ss)) st cbody = Ret (Some 0, st1) /\
    (load_ty CLong (cmem st1) d = rv <-> le_decode (stale_bytes ss snd) = u32 (rv / 2 ^ 32)).
Proof.
  intros Hc Hs Hset Hcb Hsb Hmod Hrec Hvar Hans Hin Hlong.
  destruct (remote_call fuel fns H clinks slinks cpid spid st ss fn i cbody sbody cs l port rp a snd rcv rv Hc Hs Hset Hcb Hsb b d ans Hmod Hrec Hvar Hans Hin)
    as (st1 & ss1 & E1 & _ & _ & R1 & _). exists st1. split; [done|].
  assert (0 <= le_decode (stale_bytes ss snd) < 2 ^ 32) as Hr.
  { pose proof (le_decode_range (stale_bytes ss snd)) as Hr. unfold stale_bytes in *. rewrite length_load_bytes in Hr. apply Hr.
    apply load_bytes_byte, (sr_byte _ _ _ _ _ _ _ (se_server _ _ _ _ _ _ _ _ _ _ _ _ _ _ _ _ _ Hset)). }
  pose proof (se_result _ _ _ _ _ _ _ _ _ _ _ _ _ _ _ _ _ Hset) as Hf. unfold result_fits in Hf. unfold result_at in R1. rewrite Hlong in *.
  rewrite R1. clear -Hr Hf. set (h := le_decode _) in *. unfold wrap, swrap. change (2 ^ (64 - 1)) with (2 ^ 63).
  pose proof (Z.div_mod rv (2 ^ 32) ltac:(lia)). pose proof (Z.mod_pos_bound rv (2 ^ 32) ltac:(lia)).
  set (lo := rv mod 2 ^ 32) in *. set (hi := rv / 2 ^ 32) in *.
  assert (- 2 ^ 31 <= hi < 2 ^ 31) as Hhi by lia.
  assert (hi mod 2 ^ 32 = if hi <? 0 then hi + 2 ^ 32 else hi) as ->.
  { destruct (hi <? 0) eqn:E; breflect; [|apply Z.mod_small; lia]. rewrite <- (Z.mod_add hi 1) by lia. apply Z.mod_small. lia. }
  assert ((lo + 2 ^ 32 * h + 2 ^ 63) mod 2 ^ 64 = if h <? 2 ^ 31 then lo + 2 ^ 32 * h + 2 ^ 63 else lo + 2 ^ 32 * h - 2 ^ 63) as ->.
  { destruct (h <? 2 ^ 31) eqn:E; breflect; [apply Z.mod_small; lia|].
    replace (lo + 2 ^ 32 * h + 2 ^ 63) with (lo + 2 ^ 32 * h - 2 ^ 63 + 1 * 2 ^ 64) by lia. rewrite Z.mod_add by lia. apply Z.mod_small. lia. }
  destruct (h <? 2 ^ 31) eqn:E1, (hi <? 0) eqn:E2; breflect; lia.
Qed.

(** C27: A oneway call without out parameters: the stub returns [RPC_OK] once the request is
    sent and waits for nothing; the handler is called exactly once with the caller's values, and
    the server sends no message. *)
Theorem rpc_oneway_spec (fuel : nat) (fns : list RPCFunction) (H : handler) (clinks slinks : list Z) (cpid spid : Z)
    (st ss : sstate) (fn : RPCFunction) (i : nat) (cbody sbody : list line) (cs : list citem) (l : list item)
    (port rp a snd rcv rv : Z) (ans : list Z) :
  link_bytes clinks -> link_bytes slinks -> setting fuel fns H cpid spid st ss fn i cs l port rp a snd rcv rv ->
  client_body fn = Ret cbody -> marshaller_body fn = Ret sbody -> modifier (return_type fn) = OneWayModifier ->
  has_result fn = false -> answers st = a :: ans ->
  exists st1 ss1,
    exec fuel (rpc_defines fns) (net_ext clinks cpid (serve fuel fns H slinks spid ss)) st cbody = Ret (Some 0, st1) /\
    dispatch_turn fuel fns H slinks spid (fun _ _ => []) (deliver ss port (request cpid i rp cs)) = Ret (None, ss1) /\
    same_outside (cmem st) (cmem st1) a (a + 28 + Z.of_nat (length (wire_ins cs))) /\
    world st1 = mkSW (calls (world st)) (inbox (world st)) (outbox (world st) ++ [(port, request cpid i rp cs)]) /\
    calls (world ss1) = calls (world ss) ++ [(fn_name fn, cpid, c_in <$> cs)] /\ server_at ss1 port snd rcv /\ outbox (world ss1) = [].
Proof. intros. eapply remote_oneway; eassumption. Qed.

(** The interface of the file server ([userland/vfs/vfs.rpc]). *)
Definition int_in (x : string) : RPCArgument := mkArg x (mkType IntType NullModifier).
Definition vfs_rpc : list RPCFunction :=
  [mkFn "vfs_write" (mkType IntType NullModifier) [int_in "fd"; int_in "size"; mkArg "buffer" (mkType BlobType NullModifier)];
   mkFn "vfs_read" (mkType IntType NullModifier) [mkArg "buffer" (mkType BlobType OutModifier); int_in "fd"; int_in "size"];
   mkFn "vfs_close" (mkType IntType NullModifier) [int_in "fd"];
   mkFn "vfs_open" (mkType IntType NullModifier) [mkArg "filename" (mkType StringType NullModifier); int_in "open_mode"; int_in "create_perms"]].
Definition vfs_read_fn : RPCFunction :=
  mkFn "vfs_read" (mkType IntType NullModifier) [mkArg "buffer" (mkType BlobType OutModifier); int_in "fd"; int_in "size"].
Definition demo_handler : handler := fun f _ _ => if decide (f = "vfs_read") then (3, [VBytes [9; 8; 7]; VNone; VNone]) else (0, []).
Definition demo_client : sstate :=
  mkC (list_to_map [("rpc_result", (CPtr CInt, Some 0x1000)); ("rpc_port", (CInt, Some 2)); ("rpc_reply_port", (CInt, Some 32));
                    ("buffer", (CPtr CVoid, Some 0x5000)); ("buffer_size", (CPtr CSize, Some 0x6000)); ("fd", (CInt, Some 5));
                    ("size", (CInt, Some 3))])
    (store_bytes ∅ 0x6000 [4; 0; 0; 0]) [0x8000; 0x9000] (mkSW [] [] []).
Definition demo_server : sstate :=
  mkC (list_to_map [("port", (CInt, Some 2)); ("snd_buf", (CPtr CMessage, Some 0x10000)); ("rcv_buf", (CPtr CMessage, Some 0x20000));
                    ("snd_buf_size", (CSize, Some 4068)); ("outsize", (CUnsigned, None))]) ∅ [0x30000] (mkSW [] [] []).
Definition demo_params : list citem :=
  [mkCI (mkArg "buffer" (mkType BlobType OutModifier)) (VCap 4) 0x5000 0x6000 (VBytes [9; 8; 7]); mkCI (int_in "fd") (VInt 5) 0 0 VNone;
   mkCI (int_in "size") (VInt 3) 0 0 VNone].
Definition demo_items : list item :=
  [mkItem (mkArg "buffer" (mkType BlobType OutModifier)) (VCap 4) 0x30000 (VBytes [9; 8; 7]); mkItem (int_in "fd") (VInt 5) 0 VNone;
   mkItem (int_in "size") (VInt 3) 0 VNone].

Lemma demo_callable : callable 100 demo_client vfs_read_fn demo_params 2 32 0x8000.
Proof.
  split; [done|split; [by repeat constructor|]| |by apply store_bytes_byte_mem|done|done|done|].
  - split; [by apply (bool_decide_unpack _)|]. by apply (bool_decide_unpack _).
  - by repeat constructor.
  - repeat constructor. unfold clear_of. cbn. lia.
Qed.
Lemma demo_receivable : receivable vfs_read_fn demo_params 0x1000 0x9000.
Proof.
  split.
  - cbn [separate demo_params]. split_and!; try done; try apply Forall_nil_2.
    + left. vm_compute. discriminate.
    + do 2 (apply Forall_cons; split; [by intros s t _ Ht%not_elem_of_nil|]). apply Forall_nil_2.
    + apply Forall_cons; split; [by intros s t _ Ht%not_elem_of_nil|apply Forall_nil_2].
  - repeat constructor; unfold disjoint; cbn; lia.
  - done.
  - repeat constructor; unfold disjoint; cbn; lia.
Qed.
Lemma demo_ready : server_ready 100 demo_server vfs_read_fn demo_items 2 0x10000 0x20000.
Proof.
  split; [split; (done || by left)|done| | |].
  - split; [by repeat constructor|]. split; by apply (bool_decide_unpack _).
  - split; try done; try (by repeat constructor); repeat constructor; unfold avoids, buffer_ok; cbn; intros; try lia; try done.
  - repeat constructor; unfold avoids; cbn; intros; (lia || done).
Qed.

Lemma demo_setting : setting 100 vfs_rpc demo_handler 4 3 demo_client demo_server vfs_read_fn 1 demo_params demo_items 2 32 0x8000 0x10000 0x20000 3.
Proof.
  split; [split; [by apply (bool_decide_unpack _)|done]|done|apply demo_callable|apply demo_ready|by repeat constructor|by exists []|done|done|done
    |by vm_compute|by vm_compute].
Qed.
Lemma demo_links c : is_byte c -> link_bytes (repeat c 8).
Proof. intros Hc. split; [done|]. cbn [repeat]. repeat (apply Forall_cons; split; [done|]). apply Forall_nil_2. Qed.

Lemma rpc_call_spec_witness : exists st1 ss1,
  (cbody ← client_body vfs_read_fn;
   exec 100 (rpc_defines vfs_rpc) (net_ext (repeat 1 8) 4 (serve 100 vfs_rpc demo_handler (repeat 2 8) 3 demo_server)) demo_client cbody) = Ret (Some 0, st1) /\
  Forall (answered (cmem st1)) demo_params /\ load_ty CInt (cmem st1) 0x1000 = 3 /\
  calls (world ss1) = [("vfs_read", 4, [VCap 4; VInt 5; VInt 3])].
Proof.
  destruct (client_body vfs_read_fn) as [cbody|] eqn:Ec; [|discriminate Ec]. destruct (marshaller_body vfs_read_fn) as [sbody|] eqn:Es; [|discriminate Es].
  destruct (rpc_call_spec 100 vfs_rpc demo_handler (repeat 1 8) (repeat 2 8) 4 3 demo_client demo_server vfs_read_fn 1 cbody sbody demo_params demo_items
    2 32 0x8000 0x9000 0x1000 0x10000 0x20000 3 []) as (st1 & ss1 & E1 & _ & O1 & R1 & _ & _ & C1 & _);
    [by apply demo_links|by apply demo_links|apply demo_setting|done|done|done|apply demo_receivable|done|done|done|].
  exists st1, ss1. split_and!; [exact E1|exact O1|exact R1|exact C1].
Defined.

(** The block driver's size of the disk ([userland/blk/blockdrv.rpc]): a disk of more than 4 GiB. *)
Definition total_size_fn : RPCFunction := mkFn "blkimpl_total_size" (mkType LongType NullModifier) [].
Definition disk_handler : handler := fun _ _ _ => (2 ^ 32 + 512, []).
Definition disk_client : sstate :=
  mkC (list_to_map [("rpc_result", (CPtr CLong, Some 0x1000)); ("rpc_port", (CInt, Some 3)); ("rpc_reply_port", (CInt, Some 32))])
    ∅ [0x8000; 0x9000] (mkSW [] [] []).
Definition disk_server : sstate :=
  mkC (list_to_map [("port", (CInt, Some 3)); ("snd_buf", (CPtr CMessage, Some 0x10000)); ("rcv_buf", (CPtr CMessage, Some 0x20000));
                    ("snd_buf_size", (CSize, Some 4068)); ("outsize", (CUnsigned, None))]) ∅ [] (mkSW [] [] []).

Lemma disk_setting : setting 100 [total_size_fn] disk_handler 4 3 disk_client disk_server total_size_fn 0 [] [] 3 32 0x8000 0x10000 0x20000 (2 ^ 32 + 512).
Proof.
  split; [split; [by apply (bool_decide_unpack _)|done]|done| | |constructor|by exists []|done|done|done|done|done].
  - split; [done|split; [constructor|split; constructor]|constructor|done|done|done|done|constructor].
  - split; [split; (done || by left)|done|split; [constructor|split; constructor]|split; (done || constructor)|constructor].
Qed.

Lemma rpc_long_result_witness : exists st1,
  (cbody ← client_body total_size_fn;
   exec 100 (rpc_defines [total_size_fn]) (net_ext (repeat 1 8) 4 (serve 100 [total_size_fn] disk_handler (repeat 2 8) 3 disk_server)) disk_client cbody)
    = Ret (Some 0, st1) /\ load_ty CLong (cmem st1) 0x1000 <> 2 ^ 32 + 512.
Proof.
  destruct (client_body total_size_fn) as [cbody|] eqn:Ec; [|discriminate Ec]. destruct (marshaller_body total_size_fn) as [sbody|] eqn:Es; [|discriminate Es].
  destruct (rpc_long_result 100 [total_size_fn] disk_handler (repeat 1 8) (repeat 2 8) 4 3 disk_client disk_server total_size_fn 0 cbody sbody [] []
    3 32 0x8000 0x9000 0x1000 0x10000 0x20000 (2 ^ 32 + 512) []) as (st1 & E1 & R1);
    [by apply demo_links|by apply demo_links|apply disk_setting|done|done|done| |done|done|done|done|].
  - split; [done|by repeat constructor|done|repeat constructor; unfold disjoint; cbn; lia].
  - exists st1. split; [exact E1|]. intros Hv. apply R1 in Hv. discriminate Hv.
Defined.

(** A line for the logger ([userland/logger/logger.rpc]). *)
Definition trace_fn : RPCFunction := mkFn "logger_trace" (mkType VoidType OneWayModifier) [mkArg "msg" (mkType StringType NullModifier)].
Definition trace_handler : handler := fun _ _ _ => (0, [VNone]).
Definition trace_client : sstate :=
  mkC (list_to_map [("rpc_port", (CInt, Some 1)); ("rpc_reply_port", (CInt, Some 32)); ("msg", (CConstPtr CChar, Some 0x2000))])
    (store_bytes ∅ 0x2000 [104; 105; 0]) [0x8000] (mkSW [] [] []).
Definition trace_server : sstate :=
  mkC (list_to_map [("port", (CInt, Some 1)); ("snd_buf", (CPtr CMessage, Some 0x10000)); ("rcv_buf", (CPtr CMessage, Some 0x20000));
                    ("snd_buf_size", (CSize, Some 4068)); ("outsize", (CUnsigned, None))]) ∅ [] (mkSW [] [] []).
Definition trace_params : list citem := [mkCI (mkArg "msg" (mkType StringType NullModifier)) (VBytes [104; 105]) 0x2000 0 VNone].
Definition trace_items : list item := [mkItem (mkArg "msg" (mkType StringType NullModifier)) (VBytes [104; 105; 0]) 0 VNone].

Lemma trace_setting : setting 100 [trace_fn] trace_handler 4 3 trace_client trace_server trace_fn 0 trace_params trace_items 1 32 0x8000 0x10000 0x20000 0.
Proof.
  split; [split; [by apply (bool_decide_unpack _)|done]|done| | |by repeat constructor|by exists []|done|done|done|by vm_compute|by vm_compute].
  - split; [done|split; [by repeat constructor|split; by apply (bool_decide_unpack _)]| |by apply store_bytes_byte_mem|done|done|done|].
    + apply Forall_cons. split; [|apply Forall_nil_2]. split; [done|]. split; [split; [done|by repeat constructor|done]|cbn; lia].
    + repeat constructor. unfold clear_of. cbn. lia.
  - split; [split; (done || by left)|done|split; [by repeat constructor|split; by apply (bool_decide_unpack _)]| |by repeat constructor].
    split; try done; try (by repeat constructor).
Qed.

Lemma rpc_oneway_spec_witness : exists st1 ss1,
  (cbody ← client_body trace_fn;
   exec 100 (rpc_defines [trace_fn]) (net_ext (repeat 1 8) 4 (serve 100 [trace_fn] trace_handler (repeat 2 8) 3 trace_server)) trace_client cbody)
    = Ret (Some 0, st1) /\ calls (world ss1) = [("logger_trace", 4, [VBytes [104; 105]])] /\ outbox (world ss1) = [].
Proof.
  destruct (client_body trace_fn) as [cbody|] eqn:Ec; [|discriminate Ec]. destruct (marshaller_body trace_fn) as [sbody|] eqn:Es; [|discriminate Es].
  destruct (rpc_oneway_spec 100 [trace_fn] trace_handler (repeat 1 8) (repeat 2 8) 4 3 trace_client trace_server trace_fn 0 cbody sbody trace_params trace_items
    1 32 0x8000 0x10000 0x20000 0 []) as (st1 & ss1 & E1 & _ & _ & _ & C1 & _ & O1);
    [by apply demo_links|by apply demo_links|apply trace_setting|done|done|done|done|done|].
  exists st1, ss1. split_and!; [exact E1|exact C1|exact O1].
Defined.

(** C25: The dispatcher trusts its callers. A message that does not fit its 4096 bytes, one with
    a code the interface does not have, and one whose data are not the parameters of its function
    (a wrong type character, a missing byte) each end the server: with a panic, a panic and a
    failed assertion. The outcome is this one whatever a call of a handler would do ([hx] is any
    function: it may change the state, return, or fault in a way of its own), so none is called
    before the server ends; in particular with handlers that return. *)
Theorem rpc_dispatch_rejects (fuel : nat) (fns : list RPCFunction) (links : list Z) (pid : Z)
    (peer : Z -> message -> list (Z * message)) (st : sstate) (port snd rcv : Z) (msg : message) (rest : list (Z * message)) :
  codes_ok fns -> link_bytes links -> server_at st port snd rcv -> byte_mem (cmem st) ->
  first_at port (inbox (world st)) = Some (msg, rest) -> msg_wf msg -> msg_ok msg ->
  let ends_with f := (forall hx, dispatch_with fuel fns hx links pid peer st = Fault f) /\
                     (forall H, dispatch_turn fuel fns H links pid peer st = Fault f) in
  (4096 < 28 + m_len msg -> ends_with FPanic) /\
  (28 + m_len msg <= 4096 -> (forall i fn, fns !! i = Some fn -> m_code msg <> 1 + Z.of_nat i) -> ends_with FPanic) /\
  (28 + m_len msg <= 4096 -> forall i fn, fns !! i = Some fn -> m_code msg = 1 + Z.of_nat i -> fn_ok fn = true -> own_names fn ->
     parse_args (args fn) (m_data msg) = None -> ends_with FAssert).
Proof.
  intros Hcodes Hlinks Hs Hb Hf Hw Hok ends_with.
  assert (forall f, (forall hx, dispatch_with fuel fns hx links pid peer st = Fault f) -> ends_with f) as Hany
    by (intros f Hx; split; [exact Hx|intros H; apply Hx]).
  split_and!.
  - intros Hl. apply Hany. intros hx. by eapply turn_panics.
  - intros Hl Hno. apply Hany. intros hx. eapply turn_rejects; try eassumption. intros st1 def Hs1 Hr1 Hdef. by eapply turn_unknown.
  - intros Hl i fn Hi Hcode Hfn Hown Hparse. apply Hany. intros hx. destruct (marshaller_ok fn Hfn) as [body Hbody].
    eapply turn_rejects; try eassumption. intros st1 def Hs1 Hr1 _. by eapply turn_malformed.
Qed.

(** A line for the logger whose terminator is missing from its count. *)
Definition bad_trace : message := stamped (mkMsg 0 0 32 1 [115; 9; 0; 0; 0; 104; 105]) 4.
Lemma rpc_dispatch_rejects_witness :
  dispatch_turn 100 [trace_fn] trace_handler (repeat 2 8) 3 (fun _ _ => []) (deliver trace_server 1 bad_trace) = Fault FAssert.
Proof.
  destruct (rpc_dispatch_rejects 100 [trace_fn] (repeat 2 8) 3 (fun _ _ => []) (deliver trace_server 1 bad_trace) 1 0x10000 0x20000 bad_trace [])
    as (_ & _ & Hbad).
  - split; [by apply (bool_decide_unpack _)|done].
  - by apply demo_links.
  - split; (done || by left).
  - done.
  - done.
  - apply stamped_wf; (done || by repeat constructor).
  - done.
  - apply (Hbad ltac:(by vm_compute) 0%nat trace_fn); try done. split; [by repeat constructor|split; by apply (bool_decide_unpack _)].
Defined.
