(* ===== verification/Vfs.v ===== *)
(** [userland/vfs/vfs.c]: the file server. It keeps a table of open files per process over the
    FAT driver, which is third-party code and a parameter here ([FatDriver]): its volume [FS]
    and its file objects [FIL]. Lists of allocated records are lists; [malloc] gives memory. *)
From S2P Require Import Prelude.

Class FatDriver (FS FIL : Type) := {
  f_mount : FS -> Z * FS;
  f_open : FS -> list Z -> Z -> Z * FIL * FS;
  f_close : FS -> FIL -> FS;
  f_read : FS -> FIL -> Z -> Z * list Z * FIL * FS
}.

Definition FR_OK : Z := 0.
Definition FA_READ : Z := 1.
Definition O_RDONLY : Z := 1.
Definition INVALID_FD : Z := -1.
Definition INVALID_PID : Z := -1.
Definition VFSPort : Z := 2.

Section vfs.
Context {FS FIL : Type} `{FatDriver FS FIL}.

Record descriptor : Type := mkDesc { fd : Z; pos : Z; mode : Z; hfile : FIL }.
Record procinfo : Type := mkProc { pid : Z; pi_next_fd : Z; descriptors : list descriptor }.
Record vfs : Type := mkVfs { proc_infos : list procinfo; volume : FS }.

(** The number handed out and the record afterwards. *)
Definition next_fd (pi : procinfo) : outcome (Z * procinfo) :=
  let result := pi_next_fd pi in
  _ ← c_assert (0 <=? result);
  Ret (result, mkProc (pid pi) (s32 (result + 1)) (descriptors pi)).

(** The new descriptor, filled by its caller, at the end of the list. *)
Definition descriptor_create (pi : procinfo) (m : Z) (h : FIL) : outcome (Z * procinfo) :=
  '(n, pi) ← next_fd pi;
  Ret (n, mkProc (pid pi) (pi_next_fd pi) (descriptors pi ++ [mkDesc n 0 m h])).

Definition descriptor_get (pi : procinfo) (n : Z) : option (nat * descriptor) :=
  list_find (fun d => fd d = n) (descriptors pi).
Definition descriptor_destroy (pi : procinfo) (i : nat) : procinfo :=
  mkProc (pid pi) (pi_next_fd pi) (delete i (descriptors pi)).

Definition procinfo_get (s : vfs) (p : Z) : outcome (option (nat * procinfo)) :=
  _ ← c_assert (negb (p =? INVALID_PID));
  Ret (list_find (fun pi => pid pi = p) (proc_infos s)).
Definition procinfo_create (s : vfs) (p : Z) : outcome (nat * procinfo * vfs) :=
  _ ← c_assert (negb (p =? INVALID_PID));
  _ ← c_assert (bool_decide (Forall (fun pi => pid pi <> p) (proc_infos s)));
  let pi := mkProc p 0 [] in
  Ret (length (proc_infos s), pi, mkVfs (proc_infos s ++ [pi]) (volume s)).

(** The record at index [i] of the list changes in place. *)
Definition set_proc (s : vfs) (i : nat) (pi : procinfo) : vfs := mkVfs (<[i := pi]> (proc_infos s)) (volume s).
Definition set_volume (s : vfs) (v : FS) : vfs := mkVfs (proc_infos s) v.

Definition open_fn (s : vfs) (i : nat) (pi : procinfo) (filename : list Z) (m perm : Z) : outcome (Z * vfs) :=
  _ ← c_assert (m =? O_RDONLY);
  let '(fres, h, v) := f_open (volume s) filename FA_READ in
  let s := set_volume s v in
  if negb (fres =? FR_OK) then Ret (-1, s)
  else
    '(n, pi) ← descriptor_create pi m h;
    Ret (n, set_proc s i pi).

Definition close_fn (s : vfs) (i : nat) (pi : procinfo) (n : Z) : outcome (Z * vfs) :=
  match descriptor_get pi n with
  | None => Fault FAssert
  | Some (j, desc) =>
      _ ← c_assert (fd desc =? n);
      Ret (0, set_proc (set_volume s (f_close (volume s) (hfile desc))) i (descriptor_destroy pi j))
  end.

(** The result, the bytes put in the buffer and the state. *)
Definition read_fn (s : vfs) (i : nat) (pi : procinfo) (n size : Z) : Z * list Z * vfs :=
  if n =? INVALID_FD then (-1, [], s)
  else if size =? 0 then (0, [], s)
  else
    match descriptor_get pi n with
    | None => (-1, [], s)
    | Some (j, desc) =>
        let '(fres, bytes, h, v) := f_read (volume s) (hfile desc) size in
        let pi := mkProc (pid pi) (pi_next_fd pi) (<[j := mkDesc (fd desc) (pos desc) (mode desc) h]> (descriptors pi)) in
        let s := set_proc (set_volume s v) i pi in
        if negb (fres =? FR_OK) then (-1, bytes, s) else (s32 (Z.of_nat (length bytes)), bytes, s)
    end.

Definition write_fn (n size : Z) : Z := -1.

(** ** The request handlers *)

(** [get_task_info] asks the kernel; only whether it answers matters here. *)
Definition handle_vfs_open (get_task_info : Z -> bool) (s : vfs) (sender_pid : Z) (filename : list Z) (open_mode create_perms : Z) : outcome (Z * vfs) :=
  o ← procinfo_get s sender_pid;
  '(i, pi, s) ← (match o with Some (i, pi) => Ret (i, pi, s) | None => procinfo_create s sender_pid end);
  _ ← (if negb (open_mode =? O_RDONLY) then c_assert (get_task_info sender_pid) else Ret tt);
  open_fn s i pi filename open_mode create_perms.

Definition handle_vfs_close (s : vfs) (sender_pid n : Z) : outcome (Z * vfs) :=
  o ← procinfo_get s sender_pid;
  match o with None => Fault FAssert | Some (i, pi) => close_fn s i pi n end.

(** The result, the bytes, the size written back and the state. *)
Definition handle_vfs_read (s : vfs) (sender_pid buffer_size n size : Z) : outcome (Z * list Z * Z * vfs) :=
  o ← procinfo_get s sender_pid;
  match o with
  | None => Fault FAssert
  | Some (i, pi) =>
      let size := if buffer_size <? u32 size then buffer_size else u32 size in
      let '(read_size, bytes, s) := read_fn s i pi n size in
      Ret (read_size, bytes, u32 read_size, s)
  end.

Definition handle_vfs_write (s : vfs) (sender_pid n size buffer_size : Z) : outcome (Z * vfs) :=
  o ← procinfo_get s sender_pid;
  match o with
  | None => Fault FAssert
  | Some _ => let size := if buffer_size <? u32 size then buffer_size else u32 size in Ret (write_fn n size, s)
  end.

(** [main] up to the message loop. *)
Definition main (port_open_result : Z) (v : FS) : outcome vfs :=
  if port_open_result <? 0 then Fault FPanic
  else
    let '(fres, v) := f_mount v in
    if negb (fres =? FR_OK) then Fault FPanic else Ret (mkVfs [] v).
End vfs.
