(* ===== verification/VfsClaims.v ===== *)
(** The file server keeps one table of open files per process ([userland/vfs/vfs.c]). *)
From S2P Require Import Prelude Vfs.

(** ** Lists with keys *)
Section keyed.
Context {A : Type} (key : A -> Z).
Implicit Types l : list A.

Definition get l (k : Z) : option A := snd <$> list_find (fun x => key x = k) l.
Definition keys l : list Z := key <$> l.

Lemma keys_inj l i j x y : NoDup (keys l) -> l !! i = Some x -> l !! j = Some y -> key x = key y -> i = j.
Proof.
  intros Hn Hi Hj E. apply (NoDup_lookup _ _ _ (key x) Hn); unfold keys; rewrite list_lookup_fmap; [by rewrite Hi|]. by rewrite Hj, E.
Qed.

Lemma find_iff l k i x : NoDup (keys l) -> list_find (fun x => key x = k) l = Some (i, x) <-> l !! i = Some x /\ key x = k.
Proof.
  intros Hn. rewrite list_find_Some. split; [tauto|]. intros [Hi Hk]. split; [done|]. split; [done|].
  intros j y Hj Hlt Ey. pose proof (keys_inj l i j x y Hn Hi Hj ltac:(congruence)). lia.
Qed.

Lemma get_iff l k x : NoDup (keys l) -> get l k = Some x <-> x ∈ l /\ key x = k.
Proof.
  intros Hn. unfold get. rewrite fmap_Some. split.
  - intros ([i y] & Hf & ->). apply find_iff in Hf as [Hi Hk]; [|done]. split; [by eapply list_elem_of_lookup_2|done].
  - intros [Hx Hk]. apply list_elem_of_lookup in Hx as [i Hi]. exists (i, x). split; [|done]. by apply find_iff.
Qed.

Lemma get_insert l i x y k : NoDup (keys l) -> l !! i = Some x -> key y = key x ->
  keys (<[i := y]> l) = keys l /\ get (<[i := y]> l) k = if decide (k = key x) then Some y else get l k.
Proof.
  intros Hn Hi Hk. assert (keys (<[i := y]> l) = keys l) as Hks.
  { unfold keys. rewrite list_fmap_insert, Hk. apply list_insert_id. by rewrite list_lookup_fmap, Hi. }
  split; [done|]. pose proof (lookup_lt_Some _ _ _ Hi) as Hlt. apply option_eq. intros z. rewrite get_iff by (by rewrite Hks).
  destruct (decide (k = key x)) as [->|Hne].
  - split.
    + intros [Hz Hkz]. apply list_elem_of_lookup in Hz as [j Hj]. destruct (decide (j = i)) as [->|Hji].
      * by rewrite list_lookup_insert_eq in Hj.
      * rewrite list_lookup_insert_ne in Hj by done. by destruct Hji; eapply (keys_inj l).
    + intros [= <-]. split; [|done]. eapply list_elem_of_lookup_2. by apply list_lookup_insert_eq.
  - rewrite get_iff by done. split; intros [Hz Hkz]; (split; [|done]); apply list_elem_of_lookup in Hz as [j Hj].
    + destruct (decide (j = i)) as [->|Hji]; [rewrite list_lookup_insert_eq in Hj by done; congruence|].
      rewrite list_lookup_insert_ne in Hj by done. by eapply list_elem_of_lookup_2.
    + destruct (decide (j = i)) as [->|Hji]; [congruence|]. eapply list_elem_of_lookup_2. by rewrite list_lookup_insert_ne.
Qed.

Lemma get_snoc l y k : NoDup (keys l) -> key y ∉ keys l ->
  NoDup (keys (l ++ [y])) /\ get (l ++ [y]) k = if decide (k = key y) then Some y else get l k.
Proof.
  intros Hn Hy. assert (NoDup (keys (l ++ [y]))) as Hn'.
  { unfold keys. rewrite fmap_app. apply NoDup_app. split; [done|]. split; [|by apply NoDup_singleton].
    intros k' Hk' ->%list_elem_of_singleton. done. }
  split; [done|]. apply option_eq. intros z. rewrite get_iff by done. rewrite elem_of_app, list_elem_of_singleton. case_decide as Hd.
  - split; [|intros [= <-]; auto]. intros [[Hz| ->] Hk]; [|done]. destruct Hy. rewrite <- Hd, <- Hk. by apply list_elem_of_fmap_2.
  - rewrite get_iff by done. split; [|tauto]. intros [[Hz| ->] Hk]; [done|congruence].
Qed.

Lemma get_delete l i x k : NoDup (keys l) -> l !! i = Some x ->
  NoDup (keys (delete i l)) /\ get (delete i l) k = if decide (k = key x) then None else get l k.
Proof.
  intros Hn Hi. assert (NoDup (keys (delete i l))) as Hn'.
  { unfold keys. rewrite list_fmap_delete. eapply sublist_NoDup; [exact Hn|apply sublist_delete]. }
  split; [done|]. apply option_eq. intros z. rewrite get_iff by done.
  assert (z ∈ delete i l <-> exists j, j <> i /\ l !! j = Some z) as Hin.
  { rewrite list_elem_of_lookup. split.
    - intros [j Hj]. destruct (decide (j < i)%nat).
      + rewrite list_lookup_delete_lt in Hj by done. exists j. split; [lia|done].
      + rewrite list_lookup_delete_ge in Hj by lia. exists (S j). split; [lia|done].
    - intros (j & Hji & Hj). destruct (decide (j < i)%nat).
      + exists j. by rewrite list_lookup_delete_lt.
      + exists (j - 1)%nat. rewrite list_lookup_delete_ge by lia. by replace (S (j - 1)) with j by lia. }
  rewrite Hin. case_decide as Hd.
  - split; [|done]. intros [(j & Hji & Hj) Hk]. destruct Hji. eapply (keys_inj l); [done|done|done|congruence].
  - rewrite get_iff by done. rewrite list_elem_of_lookup. split.
    + intros [(j & _ & Hj) Hk]. eauto.
    + intros [[j Hj] Hk]. split; [|done]. exists j. split; [|done]. intros ->. congruence.
Qed.
End keyed.

(** ** The tables *)
Section vfs.
Context {FS FIL : Type} `{FatDriver FS FIL}.
Implicit Types s : vfs (FS := FS) (FIL := FIL).

Record proc_ok (pi : procinfo (FIL := FIL)) : Prop := {
  po_fds : NoDup (keys fd (descriptors pi));
  po_range : Forall (fun d => 0 <= fd d < pi_next_fd pi) (descriptors pi);
  po_next : 0 <= pi_next_fd pi < 2 ^ 31
}.
Record vfs_ok s : Prop := {
  vo_pids : NoDup (keys pid (proc_infos s));
  vo_procs : Forall proc_ok (proc_infos s)
}.

(** What a process has open under a number, and the next number it gets. *)
Definition file s (p n : Z) : option FIL :=
  pi ← get pid (proc_infos s) p; d ← get fd (descriptors pi) n; Some (hfile d).
Definition next_of s (p : Z) : Z := default 0 (pi_next_fd <$> get pid (proc_infos s) p).

Lemma file_set_proc s i pi pi' p n : NoDup (keys pid (proc_infos s)) -> proc_infos s !! i = Some pi -> pid pi' = pid pi ->
  file (set_proc s i pi') p n =
    (if decide (p = pid pi) then d ← get fd (descriptors pi') n; Some (hfile d) else file s p n) /\
  next_of (set_proc s i pi') p = (if decide (p = pid pi) then pi_next_fd pi' else next_of s p).
Proof.
  intros Hn Hi Hp. unfold file, next_of. cbn [proc_infos set_proc].
  destruct (get_insert pid (proc_infos s) i pi pi' p Hn Hi Hp) as [_ ->]. by case_decide.
Qed.

Lemma set_proc_ok s i pi pi' : vfs_ok s -> proc_infos s !! i = Some pi -> pid pi' = pid pi -> proc_ok pi' -> vfs_ok (set_proc s i pi').
Proof.
  intros [Hn Ha] Hi Hp Ho. split; cbn [proc_infos set_proc].
  - by destruct (get_insert pid (proc_infos s) i pi pi' 0 Hn Hi Hp) as [-> _].
  - by apply Forall_insert.
Qed.

(** The record of the sender: found, or new at the end of the list. *)
Lemma sender_record s p : vfs_ok s -> p <> INVALID_PID ->
  exists i pi s1, (o ← procinfo_get s p; (match o with Some (i, pi) => Ret (i, pi, s) | None => procinfo_create s p end)) = Ret (i, pi, s1) /\
    vfs_ok s1 /\ proc_infos s1 !! i = Some pi /\ pid pi = p /\ volume s1 = volume s /\ pi_next_fd pi = next_of s p /\
    (forall q n, file s1 q n = file s q n) /\ (forall q, next_of s1 q = next_of s q).
Proof.
  intros [Hn Ha] Hp. unfold procinfo_get. rewrite (proj2 (Z.eqb_neq _ _) Hp). cbn [negb c_assert mbind outcome_bind].
  destruct (list_find _ _) as [[i pi]|] eqn:Ef.
  - exists i, pi, s. split; [done|]. pose proof Ef as Ef'. apply (find_iff pid) in Ef as [Hi Hk]; [|done].
    repeat (split; [done|]). split; [|done]. unfold next_of, get. by rewrite Ef'.
  - unfold procinfo_create. rewrite (proj2 (Z.eqb_neq _ _) Hp). cbn [negb c_assert mbind outcome_bind].
    apply list_find_None in Ef. rewrite bool_decide_eq_true_2 by done. cbn [c_assert mbind outcome_bind].
    assert (p ∉ keys pid (proc_infos s)) as Hnew.
    { intros Hc. apply list_elem_of_fmap in Hc as (x & -> & Hx). rewrite Forall_forall in Ef. by apply (Ef x). }
    set (pi := mkProc p 0 []). pose proof (fun k => get_snoc pid (proc_infos s) pi k Hn Hnew) as Hg.
    assert (get pid (proc_infos s) p = None) as Hnone.
    { destruct (get pid (proc_infos s) p) eqn:Eg; [|done]. apply get_iff in Eg as [Hx <-]; [|done]. destruct Hnew. by apply list_elem_of_fmap_2. }
    eexists _, pi, _. split; [done|]. split.
    + split; [apply (Hg 0)|]. cbn [proc_infos]. apply Forall_app. split; [done|]. apply Forall_singleton. split; cbn; [constructor|constructor|lia].
    + cbn [proc_infos volume]. split; [by rewrite list_lookup_middle|]. split; [done|]. split; [done|].
      split; [unfold next_of; by rewrite Hnone|]. split.
      * intros q n. unfold file. cbn [proc_infos]. destruct (Hg q) as [_ ->]. case_decide as Hq; [|done]. cbn in Hq. subst q. by rewrite Hnone.
      * intros q. unfold next_of. cbn [proc_infos]. destruct (Hg q) as [_ ->]. case_decide as Hq; [|done]. cbn in Hq. subst q. by rewrite Hnone.
Qed.

(** The record of a process that has one. *)
Lemma found_record s p : vfs_ok s -> p <> INVALID_PID ->
  match get pid (proc_infos s) p with
  | Some pi => exists i, procinfo_get s p = Ret (Some (i, pi)) /\ proc_infos s !! i = Some pi /\ pid pi = p /\ proc_ok pi
  | None => procinfo_get s p = Ret None
  end.
Proof.
  intros [Hn Ha] Hp. unfold procinfo_get, get. rewrite (proj2 (Z.eqb_neq _ _) Hp). cbn [negb c_assert mbind outcome_bind].
  destruct (list_find _ _) as [[i pi]|] eqn:Ef; cbn [fmap option_fmap option_map snd]; [|done]. exists i. split; [done|].
  apply (find_iff pid) in Ef as [Hi Hk]; [|done]. split; [done|]. split; [done|]. rewrite Forall_forall in Ha. apply Ha. by eapply list_elem_of_lookup_2.
Qed.

Lemma found_descriptor (pi : procinfo (FIL := FIL)) n : proc_ok pi ->
  match get fd (descriptors pi) n with
  | Some d => exists j, descriptor_get pi n = Some (j, d) /\ descriptors pi !! j = Some d /\ fd d = n
  | None => descriptor_get pi n = None
  end.
Proof.
  intros [Hn _ _]. unfold descriptor_get, get. destruct (list_find _ _) as [[j d]|] eqn:Ef; cbn [fmap option_fmap option_map snd]; [|done].
  exists j. split; [done|]. by apply (find_iff fd) in Ef.
Qed.

Lemma open_ok gti s p name perms : vfs_ok s -> p <> INVALID_PID -> next_of s p < 2 ^ 31 - 1 ->
  let '(r, h, v) := f_open (volume s) name FA_READ in
  exists s', handle_vfs_open gti s p name O_RDONLY perms = Ret (if r =? FR_OK then next_of s p else -1, s') /\ vfs_ok s' /\ volume s' = v /\
    (forall q n, file s' q n = if (r =? FR_OK) && (q =? p) && (n =? next_of s p) then Some h else file s q n).
Proof.
  intros Hok Hp Hmax. destruct (sender_record s p Hok Hp) as (i & pi & s1 & E & Hok1 & Hi & Hpid & Hv & Hnx & Hfile & _).
  unfold handle_vfs_open. destruct (procinfo_get s p) as [o|e]; [|done]. cbn [mbind outcome_bind] in E |- *. rewrite E. cbn [mbind outcome_bind].
  change (negb (O_RDONLY =? O_RDONLY)) with false. cbn [mbind outcome_bind]. unfold open_fn. change (O_RDONLY =? O_RDONLY) with true.
  cbn [c_assert mbind outcome_bind]. rewrite Hv. destruct (f_open (volume s) name FA_READ) as [[r h] v].
  assert (proc_ok pi) as [P1 P2 P3] by (destruct Hok1 as [_ Ha]; rewrite Forall_forall in Ha; apply Ha; by eapply list_elem_of_lookup_2).
  destruct (r =? FR_OK); cbn [negb andb].
  2: { eexists. split; [done|]. destruct Hok1 as [O1 O2]. split; [by split|]. by split. }
  unfold descriptor_create, next_fd. rewrite (proj2 (Z.leb_le 0 (pi_next_fd pi))) by lia. cbn [c_assert mbind outcome_bind pid pi_next_fd descriptors].
  rewrite s32_small by lia. rewrite <- Hnx. set (pi' := mkProc _ _ _).
  assert (pi_next_fd pi ∉ keys fd (descriptors pi)) as Hnew.
  { intros Hc. apply list_elem_of_fmap in Hc as (d & Ed & Hd). rewrite Forall_forall in P2. specialize (P2 d Hd). lia. }
  pose proof (fun k => get_snoc fd (descriptors pi) (mkDesc (pi_next_fd pi) 0 O_RDONLY h) k P1 Hnew) as Hg.
  eexists. split; [done|]. split; [|split; [done|]].
  - apply (set_proc_ok _ i pi); [by destruct Hok1; split|done|done|]. split; unfold pi'; cbn [descriptors pi_next_fd]; [apply (Hg 0)| |lia].
    apply Forall_app. split; [|apply Forall_singleton; cbn; lia]. eapply Forall_impl; [exact P2|]. intros d Hd. cbn in Hd. lia.
  - intros q n. destruct (file_set_proc (set_volume s1 v) i pi pi' q n) as [-> _]; [apply Hok1|done|done|]. rewrite Hpid.
    destruct (decide (q = p)) as [->|Hq]; [|rewrite (proj2 (Z.eqb_neq _ _) Hq); apply Hfile]. rewrite Z.eqb_refl. cbn [andb descriptors pi'].
    destruct (Hg n) as [_ ->]. cbn [fd]. destruct (decide (n = pi_next_fd pi)) as [->|Hne]; [by rewrite Z.eqb_refl|].
    rewrite (proj2 (Z.eqb_neq _ _) Hne). rewrite <- Hfile. unfold file.
    destruct (get pid (proc_infos s1) p) as [pi0|] eqn:Eg.
    + apply get_iff in Eg as [Hx Hxp]; [|apply Hok1]. apply list_elem_of_lookup in Hx as [i0 Hi0].
      assert (i = i0) as <- by (eapply (keys_inj pid (proc_infos s1)); [apply Hok1|done|done|congruence]). by rewrite Hi in Hi0; injection Hi0 as <-.
    + exfalso. assert (get pid (proc_infos s1) p = Some pi) as Hc; [|congruence]. apply get_iff; [apply Hok1|]. split; [by eapply list_elem_of_lookup_2|done].
Qed.

Lemma open_fresh s p : vfs_ok s -> file s p (next_of s p) = None.
Proof.
  intros [Hn Ha]. unfold file, next_of. destruct (get pid (proc_infos s) p) as [pi|] eqn:Eg; [|done].
  change (default 0 (pi_next_fd <$> Some pi)) with (pi_next_fd pi). cbn [mbind option_bind].
  apply get_iff in Eg as [Hx _]; [|done]. rewrite Forall_forall in Ha. destruct (Ha pi Hx) as [P1 P2 _].
  destruct (get fd (descriptors pi) (pi_next_fd pi)) as [d|] eqn:Ed; [|done]. apply get_iff in Ed as [Hd Hk]; [|done].
  rewrite Forall_forall in P2. specialize (P2 d Hd). lia.
Qed.

Lemma close_ok s p n : vfs_ok s -> p <> INVALID_PID ->
  match file s p n with
  | Some h => exists s', handle_vfs_close s p n = Ret (0, s') /\ vfs_ok s' /\ volume s' = f_close (volume s) h /\
      (forall q k, file s' q k = if (q =? p) && (k =? n) then None else file s q k)
  | None => handle_vfs_close s p n = Fault FAssert
  end.
Proof.
  intros Hok Hp. pose proof (found_record s p Hok Hp) as Hr. unfold handle_vfs_close, file at 1.
  destruct (get pid (proc_infos s) p) as [pi|] eqn:Eg; cbn [mbind option_bind]; [|by rewrite Hr].
  destruct Hr as (i & -> & Hi & Hpid & Hpo). cbn [mbind outcome_bind]. unfold close_fn. pose proof (found_descriptor pi n Hpo) as Hd.
  destruct (get fd (descriptors pi) n) as [d|] eqn:Ed; cbn [mbind option_bind]; [|by rewrite Hd].
  destruct Hd as (j & -> & Hj & Hfd). rewrite Hfd, Z.eqb_refl. cbn [c_assert mbind outcome_bind]. destruct Hpo as [P1 P2 P3].
  pose proof (fun k => get_delete fd (descriptors pi) j d k P1 Hj) as Hg.
  eexists. split; [done|]. split; [|split; [done|]].
  - apply (set_proc_ok _ i pi); [by destruct Hok; split|done|done|]. split; cbn [descriptor_destroy descriptors pi_next_fd]; [apply (Hg 0)|by apply Forall_delete|done].
  - intros q k. destruct (file_set_proc (set_volume s (f_close (volume s) (hfile d))) i pi (descriptor_destroy pi j) q k) as [-> _]; [apply Hok|done|done|].
    rewrite Hpid. destruct (decide (q = p)) as [->|Hq]; [|by rewrite (proj2 (Z.eqb_neq _ _) Hq)]. rewrite Z.eqb_refl. cbn [andb descriptor_destroy descriptors].
    destruct (Hg k) as [_ ->]. rewrite Hfd. destruct (decide (k = n)) as [->|Hne]; [by rewrite Z.eqb_refl|]. rewrite (proj2 (Z.eqb_neq _ _) Hne).
    unfold file. by rewrite Eg.
Qed.

(** The size of a read: the smaller of the buffer's and the request's, as unsigned. *)
Definition read_size (buffer_size size : Z) : Z := Z.min buffer_size (u32 size).

Lemma read_ok s p n bs size : vfs_ok s -> p <> INVALID_PID -> get pid (proc_infos s) p <> None ->
  let sz := read_size bs size in
  (sz = 0 -> n <> INVALID_FD -> handle_vfs_read s p bs n size = Ret (0, [], 0, s)) /\
  (sz <> 0 \/ n = INVALID_FD -> file s p n = None -> handle_vfs_read s p bs n size = Ret (-1, [], 0xFFFFFFFF, s)) /\
  (sz <> 0 -> forall h, file s p n = Some h ->
     let '(r, bytes, h', v) := f_read (volume s) h sz in
     let result := if r =? FR_OK then s32 (Z.of_nat (length bytes)) else -1 in
     exists s', handle_vfs_read s p bs n size = Ret (result, bytes, u32 result, s') /\ vfs_ok s' /\ volume s' = v /\
       (forall q k, file s' q k = if (q =? p) && (k =? n) then Some h' else file s q k)).
Proof.
  intros Hok Hp Hg sz. pose proof (found_record s p Hok Hp) as Hr. unfold handle_vfs_read, file at 1 2.
  destruct (get pid (proc_infos s) p) as [pi|] eqn:Eg; [|done]. destruct Hr as (i & -> & Hi & Hpid & Hpo). cbn [mbind outcome_bind option_bind].
  assert ((if bs <? u32 size then bs else u32 size) = sz) as -> by (unfold sz, read_size; destruct (bs <? u32 size) eqn:E; breflect; lia).
  pose proof (found_descriptor pi n Hpo) as Hd. unfold read_fn. split; [|split].
  - intros -> Hn. by rewrite (proj2 (Z.eqb_neq _ _) Hn).
  - intros Hc Hf. destruct (n =? INVALID_FD) eqn:En; [done|]. breflect. destruct Hc as [Hc|Hc]; [|done]. rewrite (proj2 (Z.eqb_neq _ _) Hc).
    destruct (get fd (descriptors pi) n); [done|]. by rewrite Hd.
  - intros Hsz h Hf. destruct (get fd (descriptors pi) n) as [d|] eqn:Ed; [|done]. injection Hf as <-. destruct Hd as (j & -> & Hj & Hfd).
    destruct Hpo as [P1 P2 P3]. assert (0 <= fd d) as Hpos by (rewrite Forall_forall in P2; apply (P2 d); by eapply list_elem_of_lookup_2).
    rewrite (proj2 (Z.eqb_neq n INVALID_FD)) by (unfold INVALID_FD; lia). rewrite (proj2 (Z.eqb_neq _ _) Hsz).
    destruct (f_read (volume s) (hfile d) sz) as [[[r bytes] h'] v]. set (d' := mkDesc _ _ _ h'). set (pi' := mkProc _ _ _).
    pose proof (fun k => get_insert fd (descriptors pi) j d d' k P1 Hj eq_refl) as Hins.
    assert (forall s', s' = set_proc (set_volume s v) i pi' -> vfs_ok s' /\ volume s' = v /\
      (forall q k, file s' q k = if (q =? p) && (k =? n) then Some h' else file s q k)) as Hs'.
    { intros s' ->. split; [|split; [done|]].
      - apply (set_proc_ok _ i pi); [by destruct Hok; split|done|done|]. split; unfold pi'; cbn [descriptors pi_next_fd].
        + by destruct (Hins 0) as [-> _].
        + apply Forall_insert; [done|]. rewrite Forall_forall in P2. apply (P2 d). by eapply list_elem_of_lookup_2.
        + done.
      - intros q k. destruct (file_set_proc (set_volume s v) i pi pi' q k) as [-> _]; [apply Hok|done|done|]. rewrite Hpid.
        destruct (decide (q = p)) as [->|Hq]; [|by rewrite (proj2 (Z.eqb_neq _ _) Hq)]. rewrite Z.eqb_refl. cbn [andb pi' descriptors].
        destruct (Hins k) as [_ ->]. rewrite Hfd. destruct (decide (k = n)) as [->|Hne]; [by rewrite Z.eqb_refl|].
        rewrite (proj2 (Z.eqb_neq _ _) Hne). unfold file. by rewrite Eg. }
    eexists. split; [|by apply Hs'; reflexivity]. by destruct (r =? FR_OK).
Qed.
End vfs.

(** C28: The file server keeps one table of open files per process. Opening a file for reading
    gives the process a number it has not open and binds it to the file the FAT driver
    returned; a failed open binds nothing and any other mode stops the server. Closing
    releases exactly that number and its file; a number or a process without one stops the
    server. Reading goes to the process's own file and keeps its new position; an unknown
    number is reported as an error with a buffer size of 2^32-1. No request touches another
    process's files, and the tables stay well formed. *)
Theorem vfs_tables_spec {FS FIL : Type} `{FatDriver FS FIL} (s : vfs (FS := FS) (FIL := FIL)) (p : Z) : vfs_ok s -> p <> INVALID_PID ->
  (forall gti name perms, next_of s p < 2 ^ 31 - 1 ->
     let '(r, h, v) := f_open (volume s) name FA_READ in
     file s p (next_of s p) = None /\
     exists s', handle_vfs_open gti s p name O_RDONLY perms = Ret (if r =? FR_OK then next_of s p else -1, s') /\ vfs_ok s' /\ volume s' = v /\
       (forall q n, file s' q n = if (r =? FR_OK) && (q =? p) && (n =? next_of s p) then Some h else file s q n)) /\
  (forall gti name m perms, m <> O_RDONLY -> handle_vfs_open gti s p name m perms = Fault FAssert) /\
  (forall n, match file s p n with
     | Some h => exists s', handle_vfs_close s p n = Ret (0, s') /\ vfs_ok s' /\ volume s' = f_close (volume s) h /\
         (forall q k, file s' q k = if (q =? p) && (k =? n) then None else file s q k)
     | None => handle_vfs_close s p n = Fault FAssert
     end) /\
  (forall n bs size, get pid (proc_infos s) p <> None ->
     let sz := read_size bs size in
     (sz = 0 -> n <> INVALID_FD -> handle_vfs_read s p bs n size = Ret (0, [], 0, s)) /\
     (sz <> 0 \/ n = INVALID_FD -> file s p n = None -> handle_vfs_read s p bs n size = Ret (-1, [], 0xFFFFFFFF, s)) /\
     (sz <> 0 -> forall h, file s p n = Some h ->
        let '(r, bytes, h', v) := f_read (volume s) h sz in
        let result := if r =? FR_OK then s32 (Z.of_nat (length bytes)) else -1 in
        exists s', handle_vfs_read s p bs n size = Ret (result, bytes, u32 result, s') /\ vfs_ok s' /\ volume s' = v /\
          (forall q k, file s' q k = if (q =? p) && (k =? n) then Some h' else file s q k))).
Proof.
  intros Hok Hp. split; [|split; [|split]].
  - intros gti name perms Hmax. pose proof (open_ok gti s p name perms Hok Hp Hmax) as Ho. destruct (f_open (volume s) name FA_READ) as [[r h] v].
    split; [by apply open_fresh|done].
  - intros gti name m perms Hm. destruct (sender_record s p Hok Hp) as (i & pi & s1 & E & _). unfold handle_vfs_open.
    destruct (procinfo_get s p) as [o|e]; [|done]. cbn [mbind outcome_bind] in E |- *. rewrite E. cbn [mbind outcome_bind].
    rewrite (proj2 (Z.eqb_neq _ _) Hm). cbn [negb]. destruct (gti p); [|done]. cbn [c_assert mbind outcome_bind]. unfold open_fn.
    by rewrite (proj2 (Z.eqb_neq _ _) Hm).
  - intros n. by apply close_ok.
  - intros n bs size Hg. by apply read_ok.
Qed.

(** A volume of constant files: the object is the name and the position. *)
#[export] Instance sample_fat : FatDriver unit (list Z * Z) := {|
  f_mount v := (0, v);
  f_open v name _ := (0, (name, 0), v);
  f_close v _ := v;
  f_read v h n := (0, take (Z.to_nat n) (drop (Z.to_nat h.2) h.1), (h.1, h.2 + n), v)
|}.

Lemma vfs_tables_spec_witness : exists s', handle_vfs_open (fun _ => true) (mkVfs [] tt) 7 [65; 66] O_RDONLY 0 = Ret (0, s') /\ vfs_ok s' /\
  file s' 7 0 = Some ([65; 66], 0) /\ file s' 8 0 = None.
Proof.
  destruct (vfs_tables_spec (mkVfs [] tt) 7) as [H _]; [split; constructor|discriminate|].
  destruct (H (fun _ => true) [65; 66] 0) as (_ & s' & E & Hok & _ & Hf); [vm_compute; reflexivity|].
  exists s'. split; [exact E|]. split; [exact Hok|]. split; rewrite Hf; reflexivity.
Defined.
